(* ===== verification/_CoqProject ===== *)
-Q . S2P
Prelude.v
Mem.v
Cbs.v
Cbb.v
Asn1.v
Ber.v
Md32.v
Fips.v
Sha256.v
Sha1.v
Md5.v
Md4.v
Sha512.v
ByteMem.v
AesSpec.v
Aes.v
Modes.v
Ctr.v
Cbc.v
AesModes.v
KeyWrap.v
Poly1305.v
Chacha.v
Ghash.v
Gcm.v
GcmSpec.v
Aead.v
ChachaPoly.v
AesGcm.v
Base64.v
Stack.v
Lhash.v
Digest.v
Digests.v
Hmac.v
Hkdf.v
Pb.v
PbWire.v
PbEncode.v
PbDecode.v
PbSafe.v
PbValue.v
PbStruct.v
PbRound.v
PbEdges.v
