(* ===== verification/Prelude.v ===== *)
(** * A verification development for the C code of the bubble iOS application

    The application is written in Swift; its C code is the libraries it is built
    from, under src/bubble/Pods. This development models two of them. Of BoringSSL
    (src/bubble/Pods/BoringSSL/crypto, written crypto/ below) it models the
    self-contained lower layers: the byte-string parser and builder, the hash
    functions and the generic digest, HMAC and HKDF code over them, AES and its modes
    of operation with GCM, ChaCha20, Poly1305, the AEAD layer with AES-GCM and
    ChaCha20-Poly1305 in it, base64, the pointer stack and the hash table, which the rest of the library, TLS included, is
    built on. The build sets OPENSSL_NO_ASM, so the C code of every hash and cipher is
    the code that runs. Of nanopb (src/bubble/Pods/nanopb, written nanopb/), the protocol
    buffer library of Firebase, it models all that the build compiles: the field
    iterator, the encoder and the decoder.

    ** Files

    - Prelude (this file): machine words as integers with their wrap-around written
      out ([u8], [u32], [u64] are the casts), slices indexed by size_t, big- and
      little-endian codecs, the state monad [M] in which undefined behaviour is the
      value [None], tactics and hint databases.
    - Mem: crypto/mem.c and crypto/buf/buf.c. [BUF_MEM] is the growable buffer;
      malloc is a function from sizes to optional blocks of arbitrary contents, so
      every allocation can fail.
    - Cbs: crypto/bytestring/cbs.c. A [CBS] is the list of its unread bytes, a reader
      a function from it to a result and what it leaves.
    - Cbb: crypto/bytestring/cbb.c. The heap of [cbb_buffer]s and [CBB] objects is a
      finite map of locations; children point to their parents' buffers by location,
      and the pending length prefixes are state, as in the code.
    - Asn1: what clients do with both: a tree of ASN.1 elements is written by calls of
      the builder ([writes]) and read by calls of the reader ([reads]); its DER is [der].
    - Ber: crypto/bytestring/ber.c, over Cbs and Cbb. The specification is a grammar of
      BER: a tree [ber] of elements, each of definite or indefinite length, its encoding
      [ber_bytes] and the DER of the same values [der_of].
    - Md32: crypto/digest/md32_common.h, the template of the 32-bit hashes, as a
      Section over the block function, the byte order and the output function;
      Sha1, Sha256, Md5 and Md4 (crypto/sha, crypto/md5, crypto/md4) instantiate it.
    - Fips: the specification of the SHA-2 family, parametrised over the word size;
      its constants are computed from the roots of the primes and not copied.
    - Sha512: crypto/sha/sha512.c, which does not use the template: both block
      functions, chosen by the class [Platform].
    - ByteMem: the memory of the cipher files, a finite map from addresses to bytes,
      so that buffers may be the same or overlap; [runs] is a total specification of a
      computation over it, with a rule per construct and footprints ([upd]).
    - AesSpec, Aes: FIPS 197 as the standard writes it, over the field of 256 elements,
      and crypto/aes/aes.c over tables whose entries are proved to be what the round
      functions need.
    - Modes, Ctr, Cbc, AesModes: crypto/modes (what the modes share, ctr.c, cbc.c) over
      any block function, and their application to AES (crypto/aes/mode_wrappers.c).
    - KeyWrap: crypto/aes/key_wrap.c.
    - Poly1305, Chacha: the portable C of crypto/poly1305/poly1305.c and
      crypto/chacha/chacha.c.
    - Ghash, Gcm, GcmSpec: crypto/modes/gcm.c. Ghash is the arithmetic and the field of
      SP 800-38D, Gcm the context with a lemma per function (the bytes taken into the
      hash are a fold, [absorb], and what holds between calls is [gcm_ready] of the
      message so far), GcmSpec whole messages in any pieces, over any block function and
      any counter mode function.
    - Aead: crypto/cipher/aead.c over any AEAD (the record [EVP_AEAD]); the class
      [AeadLaws] is what its theorems ask of one, with the specification ([aead_spec])
      as a parameter.
    - ChachaPoly, AesGcm: crypto/cipher/e_chacha20poly1305.c, and the AEAD of
      crypto/cipher/e_aes.c, both as instances of [AeadLaws].
    - Base64: crypto/base64/base64.c, streamed and one-shot.
    - Stack: crypto/stack/stack.c over an allocator, qsort and bsearch (class
      [StdSort]), against lists ([spec_op] on the pointers, the flag, the room of the
      array and the comparison function).
    - Lhash: crypto/lhash/lhash.c over the caller's hash and comparison (class
      [KeySpec]), against finite maps. Chains are lists of items with addresses, and
      iteration follows the [next] pointers, so a read of a freed item is undefined.
    - Digest: crypto/digest/digest.c over any table of digests: the class [Digests]
      is the interface (the functions an [EVP_MD] points to) and [DigestLaws] what
      the code relies on. The heap holds the outcomes of malloc still to come and the
      blocks still allocated; [wp] is a weakest precondition over it, with a rule per
      construct and the tactic [wp_auto].
    - Digests: crypto/digest/digests.c, the tables, as an instance of both classes
      proved from the theorems of the hash files, and the lookups.
    - Hmac, Hkdf: crypto/hmac/hmac.c and crypto/hkdf/hkdf.c, proved against the
      interface of Digest and applied to the tables of Digests in their witnesses.
    - Pb: nanopb/pb.h and pb_common.c. The memory of the program is one finite map
      from addresses to bytes; a table of descriptors is a list, and the iterator has
      the fields of the C structure. [layout] says where the fields of a structure
      lie.
    - PbWire: the specification: the wire format and [message], the bytes a structure
      in memory stands for; a submessage without a presence flag is left out of it when
      its own message has no bytes ([is_default]).
    - PbEncode, PbDecode: nanopb/pb_encode.c and pb_decode.c. The callbacks and
      extensions of a user are the class [PbUser]; the functions on the cycle of
      fields and messages take the function on submessages as an argument, and
      [pb_encode] and [pb_decode_noinit] close the cycle on the depth to which the
      tables nest.
    - PbSafe: decoding arbitrary input. [safe] is a predicate on computations, with a
      rule per construct: defined, inside an interval, and a postcondition.
    - PbValue, PbStruct, PbRound: encoding and decoding again. PbValue relates the
      decoder of each type to the value on the wire, PbStruct says what a table must
      satisfy ([round_ok], a test that can be run) and what the defaults leave, and
      PbRound follows the loop of the decoder slot by slot.
    - PbEdges: what nanopb does where it does not do what its comments say.

    ** What the theorems show

    - The builder is memory-safe for every program of calls and returns exactly what
      a specification on frames gives ([CBB_build_refines]), on a fixed buffer exactly
      if there is room ([CBB_build_fixed_refines]); after an error it stays failed
      ([CBB_error_sticky]); the readers succeed exactly on well-formed input, and
      read back every tree of elements that the builder wrote
      ([CBS_get_any_asn1_element_spec], [CBS_get_asn1_uint64_spec],
      [CBB_CBS_asn1_roundtrip], ...); the conversion from BER gives the DER of the
      same values for well-nested BER, and nothing else, but where its walk
      misses that the input is not DER, which the specification says exactly
      ([CBS_asn1_ber_to_der_spec] with [noticed], [cbs_find_ber_forgets]).
    - Each hash, one-shot or streamed in any pieces, is the function its standard
      defines ([SHA256_fips], [SHA512_fips], [SHA1_fips], [MD5_rfc], [MD4_rfc]);
      the part about buffering and padding is proved once ([HASH_stream_spec]).
    - AES is the cipher of FIPS 197 in both directions, through the tables and the key
      schedule ([AES_encrypt_fips], [AES_decrypt_fips]). The modes are their
      specifications from any point of a stream, in place or between separate buffers
      ([CRYPTO_ctr128_encrypt_spec], [CRYPTO_cbc128_decrypt_spec]); counter mode on a
      function over 32-bit counters is counter mode through every wrap of the counter
      ([CRYPTO_ctr128_encrypt_ctr32_equiv]); decryption inverts encryption
      ([AES_cbc_roundtrip], [AES_key_wrap_roundtrip]).
    - The multiplication by tables is the one of SP 800-38D, and GCM its mode, with a tag
      that is accepted if and only if it is right ([gcm_ghash_4bit_spec],
      [CRYPTO_gcm128_encrypt_sp800_38d], [CRYPTO_gcm128_decrypt_authentic]); the
      functions over a counter mode routine do the same ([CRYPTO_gcm128_ctr32_equiv]).
      The AEAD is this mode with the AES of FIPS 197 ([EVP_aead_aes_gcm_seal_sp800_38d],
      [EVP_aead_aes_gcm_open_authentic], [EVP_aead_aes_gcm_roundtrip]).
    - ChaCha20, Poly1305 and the AEAD of them are those of RFC 8439
      ([CRYPTO_chacha_20_rfc8439], [EVP_AEAD_CTX_seal_rfc8439]), Poly1305 but for a
      carry that some sums lose: the tag is the RFC's or that of a sum smaller by 2^26
      ([poly1305_tag_rfc8439]), and when is said exactly ([poly1305_lost_carry]).
      Opening inverts sealing, and releases nothing of a text whose tag is wrong
      ([EVP_AEAD_CTX_roundtrip], [EVP_AEAD_CTX_open_authentic]).
    - Base64 encodes as RFC 4648 says and decoding inverts it ([EVP_EncodeBlock_rfc],
      [EVP_EncodeBlock_decode], [EVP_stream_roundtrip], [EVP_Decode_error_sticky]).
    - A stack is a list under every operation, sorts, searches and copies included, and
      an insertion fails only when the array is full and cannot grow
      ([sk_refines_list]); its sorted flag is honest but for one
      operation ([sk_sorted_flag], [sk_set_stale_flag]).
    - A hash table is a finite map through every resize ([lh_refines_map]), keeps its
      load within bounds ([lh_load]), and its iteration ends, and reads nothing freed,
      under a callback that deletes ([lh_doall_deletes]).
    - Hashing through the tables, HMAC and HKDF are the functions of their standards
      over any digest; they are defined and leak nothing whatever malloc does
      ([EVP_Digest_spec], [EVP_MD_CTX_copy_spec], [HMAC_rfc2104], [HMAC_reuse],
      [HKDF_rfc5869]); the lookups agree with the tables ([EVP_get_digest_lookup]).
    - nanopb writes exactly the message a structure stands for, or fails, and never
      leaves its buffer ([pb_encode_wire], [pb_get_encoded_size_exact]; for tables in
      which a submessage without a presence flag has only fields without presence
      flags that are not arrays, [implicit_ok], since the code drops content of others,
      [pb_encode_drops_array]); it decodes
      any input without leaving the structure ([pb_decode_safe]), and decoding what
      it encoded gives a structure that stands for the same message ([pb_roundtrip]).
    - Where the code does not do what it or its documentation says, the theorem
      states what it does ([cbs_find_ber_forgets], [CBB_did_write_ignores_error],
      [EVP_DecodeBase64_accepts_spaces], [sk_set_stale_flag],
      [EVP_DigestInit_ex_retry], [lh_strhash_shift], [poly1305_lost_carry],
      [EVP_AEAD_CTX_open_overflow], and the theorems of PbEdges).

    ** Conventions and bounds

    A size_t is a [Z] below 2^64, and each definition writes its wrap-around; an
    unsigned long is 64 bits wide. A loop over a counter or a shrinking input is a
    [Fixpoint] on the list or on fuel that the caller sets to the number of
    iterations left (the length of the input, plus one where a last test is made);
    the theorems are total, so they also say that the fuel suffices. A function that
    returns zero in C returns [None] or [0]; what it wrote to its out-parameters
    before it failed is not modelled, unless a caller reads it. Memory that C leaves
    uninitialised is arbitrary where it is allocated and zeros in a local array that
    is written before it is read. Where allocations can fail in turn, the outcomes
    are a list that the heap holds; the address of a local array, which only decides
    whether two pointers are equal, is a parameter. A callback that may delete is run
    on fuel bounded by the items of the table. In the nanopb files a pointer is the
    64-bit address of a byte, integers are little-endian, and PB_ENABLE_MALLOC and
    the other options are off, as in the build; in the cipher files it is an address in
    the same kind of memory, a key, a nonce and a key schedule are passed by value, and
    STRICT_ALIGNMENT is 0, so the modes work on words wherever the buffers lie; [depth]
    is one more than the depth to which submessages nest (a table that nests in itself
    has none), and a loop over a stream runs on one more than the bytes left. Wiping of
    temporaries is not modelled, and neither is the error queue.

    ** Not modelled

    TLS (ssl/), X.509, the ASN.1 templates and public-key arithmetic of BoringSSL; of its
    ciphers DES, RC4, the modes CFB, OFB and POLYVAL, the EVP_CIPHER layer and the
    AEADs that are not named above, with the assembly and vector variants of what is
    modelled; gRPC, LevelDB and the Objective-C and Swift libraries and the application
    itself, which are not C, or are I/O and glue. Of the files above,
    the printf wrappers and platform-dependent helpers of mem.c, and the parts of
    pb_decode.c under PB_ENABLE_MALLOC. *)

From Stdlib Require Import ZArith Lia.
From stdpp Require Import base list option gmap.

#[global] Open Scope Z_scope.

(** * Notations *)

Declare Scope bssl_scope.
Delimit Scope bssl_scope with bssl.
#[global] Open Scope bssl_scope.

(** A byte string is the list of its bytes, each an integer in [0, 256). *)
Abbreviation bytes := (list Z).

(** * Machine words *)

(** Conversion to an unsigned type of the given width, as a C cast does it. *)
Definition u8 (x : Z) : Z := Z.land x 0xff.
Definition u16 (x : Z) : Z := Z.land x 0xffff.
Definition u32 (x : Z) : Z := Z.land x 0xffffffff.
Definition u64 (x : Z) : Z := Z.land x 0xffffffffffffffff.

Definition is_u (w x : Z) : Prop := 0 <= x < 2 ^ w.
Abbreviation is_byte := (is_u 8).
Definition bytes_ok (l : bytes) : Prop := Forall is_byte l.

(** * Slices indexed by size_t *)

Abbreviation zlen l := (Z.of_nat (length l)).
Definition ztake {A} (n : Z) (l : list A) : list A := take (Z.to_nat n) l.
Definition zdrop {A} (n : Z) (l : list A) : list A := drop (Z.to_nat n) l.
Definition zrepeat {A} (n : Z) (x : A) : list A := replicate (Z.to_nat n) x.

(** [zget l i] reads [l[i]]; every use in the models is at an index the code
    has bounded, and the value out of range (0) is never observed there. *)
Definition zget (l : list Z) (i : Z) : Z := nth (Z.to_nat i) l 0.

(** [zsplice l i v] overwrites [length v] elements of [l] from index [i]. *)
Definition zsplice {A} (l : list A) (i : Z) (v : list A) : list A :=
  ztake i l ++ v ++ zdrop (i + zlen v) l.

(** * Endianness *)

(** The exclusive or of two byte strings of the same length. *)
Definition xor_bytes (a b : bytes) : bytes := zip_with Z.lxor a b.

(** The value of a big-endian byte string, and the [n] byte encodings. *)
Definition be_val (l : bytes) : Z := fold_left (fun r b => r * 256 + b) l 0.
Definition le_val (l : bytes) : Z := be_val (rev l).

Fixpoint le_bytes (n : nat) (v : Z) : bytes :=
  match n with
  | O => []
  | S n' => v mod 256 :: le_bytes n' (v / 256)
  end.
Definition be_bytes (n : nat) (v : Z) : bytes := rev (le_bytes n v).

(** * The state monad with undefined behaviour

    [M S A] is a computation on a state [S]. [None] is undefined behaviour of
    the C program (a NULL or out-of-bounds access) or a failed [assert]; a C
    function that reports an error returns its error value in [A]. *)
Definition M (S A : Type) : Type := S -> option (A * S).

Definition sret {S A} (a : A) : M S A := fun s => Some (a, s).
Definition sbind {S A B} (m : M S A) (k : A -> M S B) : M S B :=
  fun s => match m s with None => None | Some (a, s') => k a s' end.
Definition sget {S} : M S S := fun s => Some (s, s).
Definition sput {S} (s : S) : M S unit := fun _ => Some (tt, s).
Definition sstuck {S A} : M S A := fun _ => None.
Definition slift {S A} (o : option A) : M S A :=
  fun s => match o with None => None | Some a => Some (a, s) end.

Notation "'let*' x ':=' m 'in' k" := (sbind m (fun x => k))
  (at level 10, x pattern, m at level 100, k at level 200) : bssl_scope.
Notation "m ';;;' k" := (sbind m (fun _ => k))
  (at level 199, k at level 200, right associativity) : bssl_scope.

(** * Tactics *)

(** Case analysis on the outermost boolean test of the goal, with the
    arithmetic comparisons turned into propositions. *)
Ltac bool_simpl :=
  repeat match goal with
  | H : (_ && _)%bool = true |- _ => apply andb_prop in H; destruct H
  | H : (_ || _)%bool = false |- _ => apply orb_false_elim in H; destruct H
  | H : negb _ = true |- _ => apply negb_true_iff in H
  | H : negb _ = false |- _ => apply negb_false_iff in H
  | H : (_ <? _) = true |- _ => apply Z.ltb_lt in H
  | H : (_ <? _) = false |- _ => apply Z.ltb_ge in H
  | H : (_ <=? _) = true |- _ => apply Z.leb_le in H
  | H : (_ <=? _) = false |- _ => apply Z.leb_gt in H
  | H : (_ >? _) = true |- _ => rewrite Z.gtb_ltb in H
  | H : (_ >? _) = false |- _ => rewrite Z.gtb_ltb in H
  | H : (_ >=? _) = true |- _ => rewrite Z.geb_leb in H
  | H : (_ >=? _) = false |- _ => rewrite Z.geb_leb in H
  | H : (_ =? _) = true |- _ => apply Z.eqb_eq in H
  | H : (_ =? _) = false |- _ => apply Z.eqb_neq in H
  end.

Ltac case_if :=
  match goal with
  | |- context [if ?b then _ else _] => let E := fresh "E" in
      destruct b eqn:E; bool_simpl
  end.

Ltac case_if_in H :=
  match type of H with
  | context [if ?b then _ else _] => let E := fresh "E" in
      destruct b eqn:E; bool_simpl
  end.

(** Straight-line code assigns its variables many times. [assign] is a let that
    conversion does not expand, so that a proof can take one assignment at a
    time. *)
Definition assign {A B} (v : A) (k : A -> B) : B := k v.

Notation "'let!' x ':=' v 'in' k" := (assign v (fun x => k))
  (at level 10, x name, v at level 100, k at level 200) : bssl_scope.

Lemma assign_name {A B} (v : A) (k : A -> B) (r : B) :
  (forall y, y = v -> k y = r) -> assign v k = r.
Proof. intros H. exact (H v eq_refl). Qed.

(** Names the components of the pair a let destructs. *)
Lemma let_pair {A B C} (p : A * B) (k : A -> B -> C) (r : C) :
  (forall x y, p = (x, y) -> k x y = r) -> (let '(x, y) := p in k x y) = r.
Proof. destruct p as [x y]. intros H. exact (H x y eq_refl). Qed.

Lemma fold_left_cons {A B} (f : A -> B -> A) x l a :
  fold_left f (x :: l) a = fold_left f l (f a x).
Proof. reflexivity. Qed.

(** Equality of two integers bit by bit. *)
Create Rewrite HintDb bits.
Create Rewrite HintDb len.
Create HintDb bssl.
#[export] Hint Rewrite Z.land_spec Z.lor_spec Z.lxor_spec : bits.
#[export] Hint Rewrite Z.shiftl_spec Z.shiftr_spec Z.testbit_0_l using lia : bits.


(** * Lemmas: words *)

Lemma u8_mod x : u8 x = x mod 256.
Proof. exact (Z.land_ones x 8 ltac:(lia)). Qed.

Lemma u16_mod x : u16 x = x mod 65536.
Proof. exact (Z.land_ones x 16 ltac:(lia)). Qed.

Lemma u32_mod x : u32 x = x mod 4294967296.
Proof. exact (Z.land_ones x 32 ltac:(lia)). Qed.

Lemma u64_mod x : u64 x = x mod 18446744073709551616.
Proof. exact (Z.land_ones x 64 ltac:(lia)). Qed.

Ltac unfold_words := rewrite ?u8_mod, ?u16_mod, ?u32_mod, ?u64_mod in *.

Lemma u8_is_u x : is_u 8 (u8 x).
Proof. rewrite u8_mod. apply Z.mod_pos_bound. lia. Qed.

Lemma u16_is_u x : is_u 16 (u16 x).
Proof. rewrite u16_mod. apply Z.mod_pos_bound. lia. Qed.

Lemma u32_is_u x : is_u 32 (u32 x).
Proof. rewrite u32_mod. apply Z.mod_pos_bound. lia. Qed.

Lemma u64_is_u x : is_u 64 (u64 x).
Proof. rewrite u64_mod. apply Z.mod_pos_bound. lia. Qed.

Lemma u8_small x : is_u 8 x -> u8 x = x.
Proof. intros H. rewrite u8_mod. apply Z.mod_small, H. Qed.

Lemma u16_small x : is_u 16 x -> u16 x = x.
Proof. intros H. rewrite u16_mod. apply Z.mod_small, H. Qed.

Lemma u32_small x : is_u 32 x -> u32 x = x.
Proof. intros H. rewrite u32_mod. apply Z.mod_small, H. Qed.

Lemma u64_small x : is_u 64 x -> u64 x = x.
Proof. intros H. rewrite u64_mod. apply Z.mod_small, H. Qed.

Lemma u32_add_l x y : u32 (u32 x + y) = u32 (x + y).
Proof. rewrite !u32_mod. apply Z.add_mod_idemp_l. lia. Qed.

Lemma u32_add_r x y : u32 (x + u32 y) = u32 (x + y).
Proof. rewrite !u32_mod. apply Z.add_mod_idemp_r. lia. Qed.

Lemma u64_add_l x y : u64 (u64 x + y) = u64 (x + y).
Proof. rewrite !u64_mod. apply Z.add_mod_idemp_l. lia. Qed.

Lemma u64_add_r x y : u64 (x + u64 y) = u64 (x + y).
Proof. rewrite !u64_mod. apply Z.add_mod_idemp_r. lia. Qed.

Lemma is_u_testbit w x i : is_u w x -> 0 <= w <= i -> Z.testbit x i = false.
Proof.
  intros [H0 H1] Hi. destruct (Z.eq_dec x 0) as [->|Hx]; [apply Z.testbit_0_l|].
  apply Z.bits_above_log2; [lia|]. apply Z.log2_lt_pow2; [lia|].
  eapply Z.lt_le_trans; [exact H1|]. apply Z.pow_le_mono_r; lia.
Qed.

(** [a << n | b] is [a * 2^n + b] when [b] fits in the [n] low bits. *)
Lemma lxor_is_u n x y : 0 <= n -> is_u n x -> is_u n y -> is_u n (Z.lxor x y).
Proof.
  unfold is_u. intros Hn Hx Hy. split; [apply Z.lxor_nonneg; lia|].
  destruct (Z.lt_ge_cases (Z.lxor x y) (2 ^ n)) as [|Hge]; [done|exfalso].
  assert (Hp : 0 < 2 ^ n) by lia. assert (Hl : n <= Z.log2 (Z.lxor x y)) by (apply Z.log2_le_pow2; lia).
  pose proof (Z.bit_log2 (Z.lxor x y) ltac:(lia)) as Hb. rewrite Z.lxor_spec in Hb.
  rewrite (is_u_testbit n x), (is_u_testbit n y) in Hb; (done || unfold is_u; lia || lia).
Qed.

Lemma lor_shiftl_add a b n : 0 <= n -> is_u n b ->
  Z.lor (Z.shiftl a n) b = a * 2 ^ n + b.
Proof.
  intros Hn Hb.
  assert (E : Z.land (Z.shiftl a n) b = 0).
  - apply Z.bits_inj'. intros i Hi. rewrite Z.land_spec, Z.testbit_0_l.
    destruct (Z.lt_ge_cases i n).
    + rewrite Z.shiftl_spec_low by lia. reflexivity.
    + rewrite (is_u_testbit n b i Hb) by lia. apply andb_false_r.
  - pose proof (Z.add_lor_land (Z.shiftl a n) b) as S.
    rewrite E, (Z.shiftl_mul_pow2 a) in * by lia. lia.
Qed.

(** * Lemmas: byte strings *)

Lemma bytes_ok_app l1 l2 : bytes_ok (l1 ++ l2) <-> bytes_ok l1 /\ bytes_ok l2.
Proof. apply Forall_app. Qed.

Lemma bytes_ok_take n l : bytes_ok l -> bytes_ok (take n l).
Proof. intros H. by apply Forall_take. Qed.

Lemma bytes_ok_drop n l : bytes_ok l -> bytes_ok (drop n l).
Proof. intros H. by apply Forall_drop. Qed.

Lemma bytes_ok_ztake n l : bytes_ok l -> bytes_ok (ztake n l).
Proof. apply bytes_ok_take. Qed.

Lemma bytes_ok_zdrop n l : bytes_ok l -> bytes_ok (zdrop n l).
Proof. apply bytes_ok_drop. Qed.

Lemma bytes_ok_zrepeat n x : is_byte x -> bytes_ok (zrepeat n x).
Proof. intros H. by apply Forall_replicate. Qed.

#[export] Hint Resolve bytes_ok_ztake bytes_ok_zdrop bytes_ok_take bytes_ok_drop
  u8_is_u u16_is_u u32_is_u u64_is_u : bssl.

Lemma zget_byte l i : bytes_ok l -> is_byte (zget l i).
Proof.
  unfold zget, bytes_ok. intros H. destruct (nth_in_or_default (Z.to_nat i) l 0) as [Hin| ->].
  - rewrite Forall_forall in H. apply H. by apply list_elem_of_In.
  - split; lia.
Qed.

(** * Lemmas: slices *)

Lemma length_ztake {A} n (l : list A) :
  length (ztake n l) = (Z.to_nat n `min` length l)%nat.
Proof. apply length_take. Qed.

Lemma length_zdrop {A} n (l : list A) :
  length (zdrop n l) = (length l - Z.to_nat n)%nat.
Proof. apply length_drop. Qed.

Lemma length_zrepeat {A} n (x : A) : length (zrepeat n x) = Z.to_nat n.
Proof. apply length_replicate. Qed.

#[export] Hint Rewrite @length_nil @length_cons @length_app @length_take
  @length_drop @length_replicate @length_map @length_rev @length_fmap
  @length_insert @length_ztake @length_zdrop @length_zrepeat : len.

(** Arithmetic on lengths. *)
Ltac zlia := autorewrite with len in *; lia.

Lemma zlen_0 {A} (l : list A) : zlen l = 0 -> l = [].
Proof. destruct l; cbn [length]; [done|lia]. Qed.

Lemma ztake_app {A} n (l1 l2 : list A) : zlen l1 = n -> ztake n (l1 ++ l2) = l1.
Proof. unfold ztake. intros. rewrite take_app_length'; [done|lia]. Qed.

Lemma zdrop_app {A} n (l1 l2 : list A) : zlen l1 = n -> zdrop n (l1 ++ l2) = l2.
Proof. unfold zdrop. intros. rewrite drop_app_length'; [done|lia]. Qed.

Lemma ztake_all {A} n (l : list A) : zlen l <= n -> ztake n l = l.
Proof. unfold ztake. intros. apply take_ge. lia. Qed.

Lemma zdrop_all {A} n (l : list A) : zlen l <= n -> zdrop n l = [].
Proof. unfold zdrop. intros. apply drop_ge. lia. Qed.

Lemma ztake_0 {A} n (l : list A) : n <= 0 -> ztake n l = [].
Proof. unfold ztake. intros. replace (Z.to_nat n) with 0%nat by lia. reflexivity. Qed.

Lemma zdrop_0 {A} n (l : list A) : n <= 0 -> zdrop n l = l.
Proof. unfold zdrop. intros. replace (Z.to_nat n) with 0%nat by lia. apply drop_0. Qed.

Lemma ztake_zdrop {A} n (l : list A) : ztake n l ++ zdrop n l = l.
Proof. apply take_drop. Qed.

Lemma zdrop_zdrop {A} n m (l : list A) : 0 <= n -> 0 <= m ->
  zdrop m (zdrop n l) = zdrop (n + m) l.
Proof. unfold zdrop. intros. rewrite drop_drop. f_equal. lia. Qed.

(** Splits a list known to be long enough at position [n]. *)
Lemma zsplit {A} n (l : list A) : 0 <= n <= zlen l ->
  exists l1 l2, l = l1 ++ l2 /\ zlen l1 = n.
Proof.
  intros. exists (ztake n l), (zdrop n l). split; [by rewrite ztake_zdrop|]. zlia.
Qed.

Lemma zget_app_l l1 l2 i : 0 <= i < zlen l1 -> zget (l1 ++ l2) i = zget l1 i.
Proof. unfold zget. intros. apply app_nth1. lia. Qed.

Lemma zget_app_r l1 l2 i : zlen l1 <= i -> zget (l1 ++ l2) i = zget l2 (i - zlen l1).
Proof.
  unfold zget. intros. rewrite app_nth2 by lia. f_equal. lia.
Qed.

Lemma zget_cons_0 x l : zget (x :: l) 0 = x.
Proof. reflexivity. Qed.

Lemma zget_cons x l i : 0 < i -> zget (x :: l) i = zget l (i - 1).
Proof.
  unfold zget. intros. replace (Z.to_nat i) with (S (Z.to_nat (i - 1))) by lia.
  reflexivity.
Qed.

Lemma zget_insert X i v j : (i < length X)%nat ->
  zget (<[i := v]> X) j = if decide (i = Z.to_nat j) then v else zget X j.
Proof.
  intros Hi. unfold zget. rewrite !nth_lookup. case_decide as Hd.
  - subst. by rewrite list_lookup_insert_eq.
  - by rewrite list_lookup_insert_ne.
Qed.

Lemma zget_set X i v j : 0 <= i < zlen X -> 0 <= j ->
  zget (<[Z.to_nat i := v]> X) j = if j =? i then v else zget X j.
Proof.
  intros Hi Hj. rewrite zget_insert by lia. case_decide; case_if; (lia || done).
Qed.

Lemma zget_ztake n l i : 0 <= i < n -> zget (ztake n l) i = zget l i.
Proof. intros Hi. unfold zget, ztake. rewrite !nth_lookup, lookup_take_lt by lia. done. Qed.

Lemma zget_zdrop n l i : 0 <= n -> 0 <= i -> zget (zdrop n l) i = zget l (n + i).
Proof. intros Hn Hi. unfold zget, zdrop. rewrite !nth_lookup, lookup_drop. do 2 f_equal. lia. Qed.

Lemma zget_zeros n i : zget (zrepeat n 0) i = 0.
Proof.
  unfold zget, zrepeat. generalize (Z.to_nat i). induction (Z.to_nat n) as [|k IH]; intros [|j]; [done..|]. apply IH.
Qed.

Lemma zsplice_app {A} (l1 l2 l3 v : list A) i :
  zlen l1 = i -> zlen v = zlen l2 -> zsplice (l1 ++ l2 ++ l3) i v = l1 ++ v ++ l3.
Proof.
  intros H1 H2. unfold zsplice. rewrite ztake_app by done. do 2 f_equal.
  rewrite app_assoc. apply zdrop_app. zlia.
Qed.

Lemma length_zsplice {A} (l v : list A) i :
  0 <= i -> i + zlen v <= zlen l -> length (zsplice l i v) = length l.
Proof. intros. unfold zsplice. zlia. Qed.

(** * Lemmas: endianness *)

Lemma be_val_snoc l b : be_val (l ++ [b]) = be_val l * 256 + b.
Proof. unfold be_val. by rewrite fold_left_app. Qed.

Lemma be_val_acc l a :
  fold_left (fun r b => r * 256 + b) l a = a * 256 ^ zlen l + be_val l.
Proof.
  revert a. induction l as [|b l IH] using rev_ind; intros a.
  - unfold be_val. cbn [fold_left length Z.of_nat]. lia.
  - rewrite fold_left_app, be_val_snoc, length_app, Nat.add_1_r. cbn [fold_left].
    rewrite IH, Nat2Z.inj_succ, Z.pow_succ_r by lia. lia.
Qed.

Lemma be_val_app l1 l2 : be_val (l1 ++ l2) = be_val l1 * 256 ^ zlen l2 + be_val l2.
Proof. unfold be_val at 1. rewrite fold_left_app. apply be_val_acc. Qed.

Lemma pow256_pos n : 1 <= 256 ^ Z.of_nat n.
Proof. pose proof (Z.pow_pos_nonneg 256 (Z.of_nat n)). lia. Qed.

Lemma be_val_bound l : bytes_ok l -> 0 <= be_val l < 256 ^ zlen l.
Proof.
  induction l as [|b l IH] using rev_ind; intros H;
    [change (0 <= 0 < 1); lia|].
  apply bytes_ok_app in H as [H1 H2]. apply Forall_cons in H2 as [Hb _].
  rewrite be_val_snoc, length_app, Nat.add_1_r, Nat2Z.inj_succ, Z.pow_succ_r by lia.
  specialize (IH H1). unfold is_u in Hb. lia.
Qed.

Lemma length_le_bytes n v : length (le_bytes n v) = n.
Proof. revert v. induction n; intros v; cbn; [done|by rewrite IHn]. Qed.

Lemma length_be_bytes n v : length (be_bytes n v) = n.
Proof. unfold be_bytes. rewrite length_rev. apply length_le_bytes. Qed.

#[export] Hint Rewrite length_be_bytes length_le_bytes : len.

Lemma le_bytes_ok n v : bytes_ok (le_bytes n v).
Proof.
  revert v. induction n; intros v; cbn; constructor; [|apply IHn].
  apply Z.mod_pos_bound. lia.
Qed.

Lemma be_bytes_ok n v : bytes_ok (be_bytes n v).
Proof. unfold be_bytes, bytes_ok. apply Forall_rev, le_bytes_ok. Qed.

Lemma le_bytes_S n v : le_bytes (S n) v = v mod 256 :: le_bytes n (v / 256).
Proof. reflexivity. Qed.

Lemma be_bytes_S n v : be_bytes (S n) v = be_bytes n (v / 256) ++ [v mod 256].
Proof. reflexivity. Qed.

Lemma be_bytes_app n k v : be_bytes (n + k) v = be_bytes n (v / 256 ^ Z.of_nat k) ++ be_bytes k v.
Proof.
  revert v. induction k as [|k IH]; intros v.
  - rewrite Nat.add_0_r, Z.div_1_r. cbn [be_bytes le_bytes rev]. by rewrite app_nil_r.
  - rewrite Nat.add_succ_r, !be_bytes_S, IH, app_assoc. do 3 f_equal. rewrite Z.div_div by lia. f_equal.
    rewrite Nat2Z.inj_succ, Z.pow_succ_r by lia. done.
Qed.

Lemma be_val_be_bytes n v : be_val (be_bytes n v) = v mod 256 ^ Z.of_nat n.
Proof.
  revert v. induction n as [|n IH]; intros v; [cbn; by rewrite Z.mod_1_r|].
  rewrite be_bytes_S, be_val_snoc, IH, Nat2Z.inj_succ, Z.pow_succ_r by lia.
  rewrite Z.rem_mul_r by lia. lia.
Qed.

Lemma le_val_le_bytes n v : le_val (le_bytes n v) = v mod 256 ^ Z.of_nat n.
Proof. apply be_val_be_bytes. Qed.

Lemma be_bytes_be_val l : bytes_ok l -> be_bytes (length l) (be_val l) = l.
Proof.
  induction l as [|b l IH] using rev_ind; intros H; [reflexivity|].
  apply bytes_ok_app in H as [H1 H2]. apply Forall_cons in H2 as [Hb _].
  rewrite length_app, Nat.add_1_r, be_bytes_S, be_val_snoc.
  rewrite Z.div_add_l, Z.div_small, Z.add_0_r, IH by (unfold is_u in Hb; lia || done).
  rewrite Z.add_comm, Z.mod_add, Z.mod_small by (unfold is_u in Hb; lia). done.
Qed.

Lemma be_bytes_mod n v : be_bytes n (v mod 256 ^ Z.of_nat n) = be_bytes n v.
Proof.
  rewrite <- be_val_be_bytes. rewrite <- (length_be_bytes n v) at 1.
  apply be_bytes_be_val, be_bytes_ok.
Qed.

Lemma be_val_small n v : 0 <= v < 256 ^ Z.of_nat n -> be_val (be_bytes n v) = v.
Proof. intros H. rewrite be_val_be_bytes. by apply Z.mod_small. Qed.

(** The loop [r <<= 8; r |= b] on a word of [w] bits computes the value of the
    bytes it reads, modulo [2^w]. *)
Lemma lor_word_step w r b : 8 <= w -> is_byte b ->
  Z.lor (Z.shiftl r 8 mod 2 ^ w) b = (r * 256 + b) mod 2 ^ w.
Proof.
  intros Hw Hb. pose proof (Z.pow_pos_nonneg 2 (w - 8) ltac:(lia) ltac:(lia)).
  replace (2 ^ w) with (2 ^ (w - 8) * 256)
    by (replace 256 with (2 ^ 8) by lia; rewrite <- Z.pow_add_r by lia; f_equal; lia).
  rewrite Z.shiftl_mul_pow2 by lia. change (2 ^ 8) with 256.
  rewrite Z.mul_mod_distr_r by lia.
  replace (r mod 2 ^ (w - 8) * 256) with (Z.shiftl (r mod 2 ^ (w - 8)) 8)
    by (rewrite Z.shiftl_mul_pow2 by lia; lia).
  rewrite lor_shiftl_add by (lia || done). change (2 ^ 8) with 256.
  rewrite (Z.mul_comm (2 ^ (w - 8)) 256), (Z.rem_mul_r _ 256) by lia.
  unfold is_u in Hb. rewrite Z.div_add_l, (Z.div_small b 256), Z.add_0_r by lia.
  rewrite Z.add_comm, (Z.add_comm (r * 256)), Z.mod_add, (Z.mod_small b) by lia. lia.
Qed.

Lemma be_val_loop (wrap : Z -> Z) w l :
  (forall x, wrap x = x mod 2 ^ w) -> 8 <= w -> bytes_ok l ->
  fold_left (fun r b => Z.lor (wrap (Z.shiftl r 8)) b) l 0 = be_val l mod 2 ^ w.
Proof.
  intros Hw H0. induction l as [|b l IH] using rev_ind; intros Hl.
  - symmetry. apply Z.mod_0_l. apply Z.pow_nonzero; lia.
  - apply bytes_ok_app in Hl as [Hl Hb]. apply Forall_cons in Hb as [Hb _].
    rewrite fold_left_app, be_val_snoc. cbn [fold_left].
    rewrite IH, Hw, lor_word_step by done.
    rewrite <- (Z.add_mod_idemp_l (_ * 256)), Z.mul_mod_idemp_l, Z.add_mod_idemp_l
      by (apply Z.pow_nonzero; lia). done.
Qed.

(** A decidable fact about every byte, checked by running it on all of them. *)
Lemma byte_forall (P : Z -> bool) :
  forallb P (map Z.of_nat (seq 0 256)) = true -> forall b, is_byte b -> P b = true.
Proof.
  intros H b [H0 H1]. rewrite forallb_forall in H. apply H.
  rewrite <- (Z2Nat.id b) by lia. apply in_map, in_seq. lia.
Qed.

(** The same for two bytes. *)
Lemma byte_forall2 (P : Z -> Z -> bool) :
  forallb (fun x => forallb (P x) (seqZ 0 256)) (seqZ 0 256) = true -> forall x y, is_byte x -> is_byte y -> P x y = true.
Proof.
  intros H x y Hx Hy. unfold is_u in *. rewrite forallb_forall in H.
  assert (Hin : forall z, 0 <= z < 2 ^ 8 -> In z (seqZ 0 256)) by (intros z Hz; apply list_elem_of_In, elem_of_seqZ; lia).
  specialize (H x (Hin x Hx)). cbv beta in H. rewrite forallb_forall in H. apply H, Hin, Hy.
Qed.

Lemma byte_msb b : is_byte b -> (Z.land b 0x80 =? 0) = (b <? 128).
Proof.
  intros H. apply eqb_true_iff. revert b H. apply byte_forall. reflexivity.
Qed.

Lemma byte_low7 b : is_byte b -> Z.land b 0x7f = b mod 128.
Proof. intros _. exact (Z.land_ones b 7 ltac:(lia)). Qed.

Lemma xor_bytes_ok a b : bytes_ok a -> bytes_ok b -> bytes_ok (xor_bytes a b).
Proof.
  intros Ha. revert b. induction Ha as [|x a Hx _ IH]; intros b Hb; [constructor|]. destruct Hb as [|y b Hy Hb]; [constructor|].
  cbn. constructor; [by apply (lxor_is_u 8)|by apply IH].
Qed.

Lemma xor_bytes_cancel s k : length s = length k -> xor_bytes (xor_bytes s k) k = s.
Proof.
  revert k. induction s as [|x s IH]; intros [|y k] Hl; [done..|]. injection Hl as Hl. cbn [xor_bytes zip_with].
  rewrite Z.lxor_assoc, Z.lxor_nilpotent, Z.lxor_0_r. f_equal. by apply IH.
Qed.

Lemma length_xor_bytes a b : length (xor_bytes a b) = Nat.min (length a) (length b).
Proof. apply length_zip_with. Qed.

Lemma zget_xor_bytes a b i : 0 <= i -> i < zlen a -> i < zlen b -> zget (xor_bytes a b) i = Z.lxor (zget a i) (zget b i).
Proof.
  intros Hi Ha Hb. unfold zget, xor_bytes. apply nth_lookup_Some. rewrite lookup_zip_with.
  destruct (lookup_lt_is_Some_2 a (Z.to_nat i)) as [x Hx]; [lia|]. destruct (lookup_lt_is_Some_2 b (Z.to_nat i)) as [y Hy]; [lia|].
  rewrite Hx, Hy. cbn. by rewrite (nth_lookup_Some _ _ 0 _ Hx), (nth_lookup_Some _ _ 0 _ Hy).
Qed.

(** Of two prefixes of one list, the shorter is a prefix of the longer. *)
Lemma app_eq_prefix {A} (l1 r1 l2 r2 : list A) :
  l1 ++ r1 = l2 ++ r2 -> (length l2 <= length l1)%nat ->
  exists c, l1 = l2 ++ c /\ r2 = c ++ r1.
Proof.
  revert l1. induction l2 as [|x l2 IH]; intros l1 H Hl; [by exists l1|].
  destruct l1 as [|y l1]; cbn in Hl; [lia|]. injection H as -> H.
  destruct (IH l1 H ltac:(lia)) as (c & -> & ->). by exists c.
Qed.
