(* ===== verification/Mem.v ===== *)
(** Memory and string helpers: crypto/mem.c ([CRYPTO_memcmp],
    [OPENSSL_realloc_clean]) and crypto/buf/buf.c (growable [BUF_MEM] buffers
    and the bounded string copies). A block of memory is the list of its bytes;
    malloc is a parameter that returns the (indeterminate) contents of the new
    block, or [None] when it fails. *)

From Stdlib Require Import ZArith Lia.
From stdpp Require Import base list option.
From S2P Require Import Prelude.

#[local] Ltac Zify.zify_post_hook ::= Z.div_mod_to_equations.

(** * The allocator *)

Abbreviation allocator := (Z -> option bytes).

(** What malloc promises: a block of the requested size. *)
Definition alloc_ok (malloc : allocator) : Prop :=
  forall n p, malloc n = Some p -> zlen p = n /\ bytes_ok p.

(** realloc: a new block holding the old contents, and more bytes. *)
Definition realloc (malloc : allocator) (old : bytes) (n : Z) : option bytes :=
  match malloc n with
  | None => None
  | Some p => Some (ztake n old ++ zdrop (zlen old) p)
  end.

(** * mem.c *)

Definition OPENSSL_realloc_clean (malloc : allocator) (ptr : bytes)
    (old_size new_size : Z) : option bytes :=
  if new_size =? 0 then None
  else if new_size <? old_size then None
  else match malloc new_size with
       | None => None
       | Some ret => Some (zsplice ret 0 (ztake old_size ptr))
       end.

Definition CRYPTO_memcmp (a b : bytes) (len : Z) : Z :=
  fold_left (fun x i => Z.lor x (Z.lxor (zget a (Z.of_nat i)) (zget b (Z.of_nat i))))
    (seq 0 (Z.to_nat len)) 0.

(** * BUF_MEM *)

Record BUF_MEM := mkBUF_MEM {
  bm_length : Z;
  bm_data : option bytes;
  bm_max : Z
}.

Definition BUF_MEM_new (malloc_ok : bool) : option BUF_MEM :=
  if malloc_ok then Some (mkBUF_MEM 0 None 0) else None.

Definition buf_mem_reserve (malloc : allocator) (buf : BUF_MEM) (cap : Z)
    (clean : bool) : bool * BUF_MEM :=
  if bm_max buf >=? cap then (true, buf)
  else
    let n := u64 (cap + 3) in
    if n <? cap then (false, buf)
    else
      let n := n / 3 in
      let alloc_size := u64 (n * 4) in
      if negb (alloc_size / 4 =? n) then (false, buf)
      else
        let new_buf :=
          match bm_data buf with
          | None => malloc alloc_size
          | Some data =>
              if clean then OPENSSL_realloc_clean malloc data (bm_max buf) alloc_size
              else realloc malloc data alloc_size
          end in
        match new_buf with
        | None => (false, buf)
        | Some p => (true, mkBUF_MEM (bm_length buf) (Some p) alloc_size)
        end.

Definition BUF_MEM_reserve (malloc : allocator) (buf : BUF_MEM) (cap : Z) :
    bool * BUF_MEM :=
  buf_mem_reserve malloc buf cap false.

Definition buf_mem_grow (malloc : allocator) (buf : BUF_MEM) (len : Z)
    (clean : bool) : Z * BUF_MEM :=
  match buf_mem_reserve malloc buf len clean with
  | (false, buf) => (0, buf)
  | (true, buf) =>
      let data :=
        if bm_length buf <? len
        then option_map
               (fun d => zsplice d (bm_length buf) (zrepeat (len - bm_length buf) 0))
               (bm_data buf)
        else bm_data buf in
      (len, mkBUF_MEM len data (bm_max buf))
  end.

Definition BUF_MEM_grow (malloc : allocator) (buf : BUF_MEM) (len : Z) :
    Z * BUF_MEM := buf_mem_grow malloc buf len false.

Definition BUF_MEM_grow_clean (malloc : allocator) (buf : BUF_MEM) (len : Z) :
    Z * BUF_MEM := buf_mem_grow malloc buf len true.

(** * Bounded strings

    A string argument is the memory it points to, which holds a NUL. *)

Fixpoint strlen (s : bytes) : Z :=
  match s with
  | [] => 0
  | c :: s' => if c =? 0 then 0 else 1 + strlen s'
  end.

Fixpoint BUF_strnlen (str : bytes) (max_len : nat) : Z :=
  match max_len with
  | O => 0
  | S m => if zget str 0 =? 0 then 0 else 1 + BUF_strnlen (tail str) m
  end.

Definition BUF_strndup (malloc : allocator) (buf : option bytes) (size : Z) :
    option bytes :=
  match buf with
  | None => None
  | Some buf =>
      let size := BUF_strnlen buf (Z.to_nat size) in
      let alloc_size := u64 (size + 1) in
      if alloc_size <? size then None
      else match malloc alloc_size with
           | None => None
           | Some ret => Some (zsplice (zsplice ret 0 (ztake size buf)) size [0])
           end
  end.

Definition BUF_strdup (malloc : allocator) (buf : option bytes) : option bytes :=
  match buf with
  | None => None
  | Some s => BUF_strndup malloc (Some s) (strlen s)
  end.

(** Result: the bytes of [dst] after the call and the return value. *)
Fixpoint BUF_strlcpy_loop (dst src : bytes) (dst_size : nat) (l : Z) : bytes * Z :=
  match dst_size with
  | O => (dst, l + strlen src)
  | S O => (0 :: tail dst, l + strlen src)
  | S d =>
      if zget src 0 =? 0 then (0 :: tail dst, l + strlen src)
      else
        let '(dst', r) := BUF_strlcpy_loop (tail dst) (tail src) d (l + 1) in
        (zget src 0 :: dst', r)
  end.

Definition BUF_strlcpy (dst src : bytes) (dst_size : Z) : bytes * Z :=
  BUF_strlcpy_loop dst src (Z.to_nat dst_size) 0.

Fixpoint BUF_strlcat_loop (dst src : bytes) (dst_size : nat) (l : Z) : bytes * Z :=
  match dst_size with
  | O => let '(d, r) := BUF_strlcpy dst src 0 in (d, l + r)
  | S d =>
      if zget dst 0 =? 0 then
        let '(d', r) := BUF_strlcpy dst src (Z.of_nat dst_size) in (d', l + r)
      else
        let '(dst', r) := BUF_strlcat_loop (tail dst) src d (l + 1) in
        (zget dst 0 :: dst', r)
  end.

Definition BUF_strlcat (dst src : bytes) (dst_size : Z) : bytes * Z :=
  BUF_strlcat_loop dst src (Z.to_nat dst_size) 0.

Definition BUF_memdup (malloc : allocator) (data : bytes) (dst_size : Z) :
    option bytes :=
  if dst_size =? 0 then None
  else match malloc dst_size with
       | None => None
       | Some ret => Some (zsplice ret 0 (ztake dst_size data))
       end.

(** An allocator that always succeeds, for concrete runs. *)
Definition filled_alloc (b : Z) : allocator :=
  fun n => if n <? 0 then None else Some (zrepeat n b).

Lemma filled_alloc_ok b : is_byte b -> alloc_ok (filled_alloc b).
Proof.
  intros Hb n p. unfold filled_alloc. case_if; [done|]. intros [= <-].
  split; [zlia|]. by apply bytes_ok_zrepeat.
Qed.

(** * Lemmas: comparison *)

Lemma memcmp_acc a b l x :
  fold_left (fun x i => Z.lor x (Z.lxor (zget a (Z.of_nat i)) (zget b (Z.of_nat i)))) l x = 0
  <-> x = 0 /\ Forall (fun i => zget a (Z.of_nat i) = zget b (Z.of_nat i)) l.
Proof.
  revert x. induction l as [|i l IH]; intros x; cbn [fold_left].
  - split; [by intros ->|by intros [-> _]].
  - etransitivity; [apply IH|].
    pose proof (Z.lor_eq_0_iff x (Z.lxor (zget a (Z.of_nat i)) (zget b (Z.of_nat i)))).
    pose proof (Z.lxor_eq_0_iff (zget a (Z.of_nat i)) (zget b (Z.of_nat i))).
    rewrite Forall_cons_iff. tauto.
Qed.

Lemma zget_ext (l1 l2 : bytes) : length l1 = length l2 ->
  (forall i, 0 <= i < zlen l1 -> zget l1 i = zget l2 i) -> l1 = l2.
Proof.
  intros Hlen H. apply (nth_ext l1 l2 0 0 Hlen). intros n Hn.
  specialize (H (Z.of_nat n) ltac:(lia)). unfold zget in H. by rewrite Nat2Z.id in H.
Qed.

(** The comparison of two blocks is zero exactly when they hold the same
    [len] bytes. *)
Lemma CRYPTO_memcmp_eq a b len : 0 <= len <= zlen a -> len <= zlen b ->
  CRYPTO_memcmp a b len = 0 <-> ztake len a = ztake len b.
Proof.
  intros Ha Hb. unfold CRYPTO_memcmp. rewrite memcmp_acc, Forall_forall. split.
  - intros [_ H]. apply zget_ext; [zlia|]. intros i Hi. autorewrite with len in Hi.
    rewrite !zget_ztake by lia. specialize (H (Z.to_nat i)).
    rewrite Z2Nat.id in H by lia. apply H. apply in_seq. lia.
  - intros H. split; [done|]. intros i Hi. apply in_seq in Hi.
    rewrite <- (zget_ztake len a), <- (zget_ztake len b) by lia. by rewrite H.
Qed.

(** * Lemmas: BUF_MEM *)

Definition bm_contents (buf : BUF_MEM) : bytes :=
  ztake (bm_length buf) (default [] (bm_data buf)).

Definition bm_wf (buf : BUF_MEM) : Prop :=
  0 <= bm_length buf <= bm_max buf /\ is_u 64 (bm_max buf) /\
  zlen (default [] (bm_data buf)) = bm_max buf.

Lemma bm_contents_len buf : bm_wf buf -> zlen (bm_contents buf) = bm_length buf.
Proof. intros (? & _ & ?). unfold bm_contents. zlia. Qed.

Lemma BUF_MEM_new_wf buf : BUF_MEM_new true = Some buf -> bm_wf buf /\ bm_contents buf = [].
Proof. intros [= <-]. repeat split; cbn; lia. Qed.

(** The size computation: when neither overflow test fires, [(cap + 3) / 3 * 4]
    is exact and larger than [cap]. *)
Lemma reserve_size_ok cap : is_u 64 cap -> cap <= u64 (cap + 3) ->
  u64 (u64 (cap + 3) / 3 * 4) / 4 = u64 (cap + 3) / 3 ->
  u64 (u64 (cap + 3) / 3 * 4) = u64 (cap + 3) / 3 * 4 /\ cap < u64 (cap + 3) / 3 * 4.
Proof.
  intros [Hc0 Hc1] H1 H2. rewrite !u64_mod in *.
  change 18446744073709551616 with (2 ^ 64) in *. lia.
Qed.

Lemma reserve_size_fits cap : 0 <= cap < 2 ^ 62 ->
  cap <= u64 (cap + 3) /\
  u64 (u64 (cap + 3) / 3 * 4) / 4 = u64 (cap + 3) / 3.
Proof. intros H. rewrite !u64_mod. change (2 ^ 62) with 4611686018427387904 in H. lia. Qed.

(** The block obtained for a larger size starts with the old contents. *)
Definition grown_block (malloc : allocator) (buf : BUF_MEM) (n : Z) (clean : bool) :
    option bytes :=
  match bm_data buf with
  | None => malloc n
  | Some data =>
      if clean then OPENSSL_realloc_clean malloc data (bm_max buf) n
      else realloc malloc data n
  end.

Lemma grown_block_spec malloc buf n clean :
  alloc_ok malloc -> bm_wf buf -> bm_max buf < n ->
  match grown_block malloc buf n clean with
  | None => malloc n = None
  | Some p => zlen p = n /\ ztake (bm_length buf) p = bm_contents buf
  end.
Proof.
  intros Hm (Hl & _ & Hd) Hn. unfold grown_block, OPENSSL_realloc_clean, realloc, bm_contents.
  destruct (bm_data buf) as [d|] eqn:Ed; cbn [from_option id] in *.
  - replace (n =? 0) with false by lia. replace (n <? bm_max buf) with false by lia.
    destruct (malloc n) as [p|] eqn:Ep; [|by destruct clean].
    destruct (Hm _ _ Ep) as [Hp _]. destruct clean; unfold zsplice.
    + rewrite (ztake_0 0), (ztake_all (bm_max buf)) by lia. cbn [app].
      split; [zlia|]. unfold ztake. rewrite take_app_le by lia. done.
    + split; [zlia|]. rewrite (ztake_all n d) by lia.
      unfold ztake. rewrite take_app_le by lia. done.
  - destruct (malloc n) as [p|] eqn:Ep; [|done]. destruct (Hm _ _ Ep) as [Hp _].
    split; [done|]. by rewrite !ztake_0 by (cbn [length] in Hd; lia).
Qed.

(** Reserving keeps the contents, whether it succeeds or fails; success leaves
    room for [cap] bytes, and only overflow or malloc makes it fail. *)
Lemma buf_mem_reserve_spec malloc buf cap clean ok buf' :
  alloc_ok malloc -> bm_wf buf -> is_u 64 cap ->
  buf_mem_reserve malloc buf cap clean = (ok, buf') ->
  if ok then
    bm_wf buf' /\ bm_length buf' = bm_length buf /\
    bm_contents buf' = bm_contents buf /\ cap <= bm_max buf'
  else buf' = buf /\ (2 ^ 62 <= cap \/ exists n, malloc n = None).
Proof.
  intros Hm Hwf Hc H. unfold buf_mem_reserve in H. pose proof (reserve_size_fits cap) as Hfits.
  case_if_in H; [injection H as <- <-; split_and!; auto; lia|].
  case_if_in H; [injection H as <- <-; split; [done|unfold is_u in Hc; lia]|].
  case_if_in H; [injection H as <- <-; split; [done|unfold is_u in Hc; lia]|].
  destruct (reserve_size_ok cap Hc E0 E1) as [Hsz Hge]. fold (grown_block malloc buf
    (u64 (u64 (cap + 3) / 3 * 4)) clean) in H.
  pose proof (grown_block_spec malloc buf (u64 (u64 (cap + 3) / 3 * 4)) clean Hm Hwf
    ltac:(lia)) as Hg.
  destruct (grown_block _ _ _ _) as [p|]; injection H as <- <-; [|eauto].
  destruct Hg as [Hp Hcon]. pose proof (u64_is_u (u64 (cap + 3) / 3 * 4)).
  destruct Hwf as (Hl & _ & _). unfold bm_wf; split_and!; cbn [bm_length bm_max bm_data from_option id]; auto; lia.
Qed.

(** C-string contents: a string with no NUL. *)
Lemma strlen_app s t : Forall (fun c => c <> 0) s -> strlen (s ++ 0 :: t) = zlen s.
Proof.
  induction 1 as [|c s Hc Hs IH]; cbn [strlen app length]; [done|].
  case_if; lia.
Qed.

Lemma BUF_strnlen_app s t n : Forall (fun c => c <> 0) s ->
  BUF_strnlen (s ++ 0 :: t) n = Z.min (zlen s) (Z.of_nat n).
Proof.
  intros H. revert n. induction H as [|c s Hc Hs IH]; intros [|n]; cbn [BUF_strnlen app length].
  1-3: rewrite ?zget_cons_0; cbn; lia.
  rewrite zget_cons_0. case_if; [lia|]. cbn [tail]. rewrite IH. lia.
Qed.

Lemma BUF_strlcpy_loop_spec s t dst n l :
  Forall (fun c => c <> 0) s -> (n <= length dst)%nat ->
  BUF_strlcpy_loop dst (s ++ 0 :: t) n l =
  (match n with
   | O => dst
   | S m => take m s ++ 0 :: drop (S (min m (length s))) dst
   end, l + zlen s).
Proof.
  intros H. revert n dst l. induction H as [|c s Hc Hs IH]; intros [|[|n]] dst l Hn;
    try (destruct dst as [|x dst]; [cbn in Hn; lia|]).
  1-3: cbn; f_equal; lia.
  1-2: cbn [BUF_strlcpy_loop]; rewrite (strlen_app (c :: s)) by (by constructor);
    reflexivity.
  change (BUF_strlcpy_loop (x :: dst) ((c :: s) ++ 0 :: t) (S (S n)) l) with
    (if c =? 0 then (0 :: dst, l + strlen ((c :: s) ++ 0 :: t))
     else let '(dst', r) := BUF_strlcpy_loop dst (s ++ 0 :: t) (S n) (l + 1) in
          (c :: dst', r)).
  case_if; [lia|]. rewrite IH by (cbn in Hn |- *; lia). f_equal. cbn [length]. lia.
Qed.

Lemma ztake_app_le {A} n (l1 l2 : list A) : n <= zlen l1 -> ztake n (l1 ++ l2) = ztake n l1.
Proof. intros. unfold ztake. apply take_app_le. lia. Qed.

Lemma ztake_ztake {A} n m (l : list A) : 0 <= n <= m -> ztake n (ztake m l) = ztake n l.
Proof. intros. unfold ztake. rewrite take_take. f_equal. lia. Qed.

Lemma BUF_strlcat_loop_spec d dt s t n l :
  Forall (fun c => c <> 0) d -> Forall (fun c => c <> 0) s ->
  n = length (d ++ 0 :: dt) ->
  BUF_strlcat_loop (d ++ 0 :: dt) (s ++ 0 :: t) n l =
  (d ++ take (length dt) s ++ 0 :: drop (min (length dt) (length s)) dt,
   l + zlen d + zlen s).
Proof.
  intros Hd Hs ->. revert l. induction Hd as [|c d Hc Hd IH]; intros l.
  - change (BUF_strlcat_loop ([] ++ 0 :: dt) (s ++ 0 :: t) (length ([] ++ 0 :: dt)) l)
      with (let '(d', r) := BUF_strlcpy (0 :: dt) (s ++ 0 :: t) (zlen (0 :: dt)) in (d', l + r)).
    unfold BUF_strlcpy. rewrite BUF_strlcpy_loop_spec, Nat2Z.id by (done || lia).
    cbn. f_equal. lia.
  - change (BUF_strlcat_loop ((c :: d) ++ 0 :: dt) (s ++ 0 :: t)
        (length ((c :: d) ++ 0 :: dt)) l)
      with (if c =? 0 then
              let '(d', r) := BUF_strlcpy (c :: d ++ 0 :: dt) (s ++ 0 :: t)
                (zlen (c :: d ++ 0 :: dt)) in (d', l + r)
            else let '(dst', r) := BUF_strlcat_loop (d ++ 0 :: dt) (s ++ 0 :: t)
                   (length (d ++ 0 :: dt)) (l + 1) in (c :: dst', r)).
    case_if; [lia|]. rewrite IH. cbn [app length]. f_equal. lia.
Qed.

(** * Properties *)

(** Growing or truncating a [BUF_MEM] keeps the first [len] bytes and pads
    the rest with zeros, or fails, on overflow or out of memory only, and leaves
    the buffer as it was; either way the buffer's invariant holds. *)
Theorem BUF_MEM_grow_spec malloc buf len clean r buf' :
  alloc_ok malloc -> bm_wf buf -> is_u 64 len ->
  buf_mem_grow malloc buf len clean = (r, buf') ->
  bm_wf buf' /\
  ((r = len /\ bm_contents buf' =
      ztake len (bm_contents buf) ++ zrepeat (len - bm_length buf) 0) \/
   (r = 0 /\ buf' = buf /\ (2 ^ 62 <= len \/ exists n, malloc n = None))).
Proof.
  intros Hm Hwf Hlen H. unfold buf_mem_grow in H.
  destruct (buf_mem_reserve malloc buf len clean) as [ok b] eqn:E.
  pose proof (buf_mem_reserve_spec _ _ _ _ _ _ Hm Hwf Hlen E) as Hr.
  destruct ok; injection H as <- <-; [|destruct Hr as [-> ?]; auto].
  destruct Hr as (((Hl & Hmax) & Hu & Hd) & Hbl & Hc & Hcap). rewrite <- Hc.
  destruct Hlen as [Hlen0 _]. unfold bm_wf, bm_contents. rewrite <- Hbl in *.
  destruct b as [bl [d|] bm]; cbn [bm_length bm_data bm_max option_map from_option id] in *.
  2:{ cbn in Hd. assert (bl = 0) by lia. assert (len = 0) by lia. subst.
      replace (if bm_length buf <? 0 then None else None) with (@None bytes)
        by (by case_if). split; [split_and!; try exact Hu; cbn; lia|]. left.
      split; [done|]. by rewrite ztake_0, !ztake_0, H by lia. }
  case_if.
  - rewrite (ztake_all len (ztake bl d)) by zlia. unfold zsplice. split.
    { split_and!; cbn [from_option id]; try exact Hu; zlia. }
    left. split; [done|]. cbn [from_option id]. rewrite app_assoc. apply ztake_app. zlia.
  - split; [split_and!; cbn [from_option id]; try exact Hu; lia|].
    left. split; [done|]. cbn [from_option id]. rewrite ztake_ztake by lia.
    unfold zrepeat. replace (Z.to_nat (len - bl)) with 0%nat by lia. by rewrite app_nil_r.
Qed.

Lemma BUF_MEM_grow_spec_witness :
  let buf := mkBUF_MEM 2 (Some [1; 2; 9; 9]) 4 in
  let buf' := mkBUF_MEM 5 (Some [1; 2; 0; 0; 0; 7; 7; 7]) 8 in
  bm_wf buf' /\
  ((5 = 5 /\ bm_contents buf' = ztake 5 (bm_contents buf) ++ zrepeat (5 - 2) 0) \/
   (5 = 0 /\ buf' = buf /\ (2 ^ 62 <= 5 \/ exists n, filled_alloc 7 n = None))).
Proof.
  apply (BUF_MEM_grow_spec (filled_alloc 7) (mkBUF_MEM 2 (Some [1; 2; 9; 9]) 4) 5 true 5).
  - apply filled_alloc_ok. split; lia.
  - split_and!; cbn; unfold is_u; lia.
  - split; lia.
  - reflexivity.
Defined.

(** [BUF_strlcpy] and [BUF_strlcat] write the longest prefix of the source
    that fits with a NUL, never past [dst_size], and return the length of the
    string they tried to create. *)
Theorem BUF_strlcat_spec d dt s t :
  Forall (fun c => c <> 0) d -> Forall (fun c => c <> 0) s ->
  BUF_strlcat (d ++ 0 :: dt) (s ++ 0 :: t) (zlen (d ++ 0 :: dt)) =
    (d ++ take (length dt) s ++ 0 :: drop (min (length dt) (length s)) dt,
     zlen d + zlen s) /\
  BUF_strlcpy (0 :: dt) (s ++ 0 :: t) (zlen (0 :: dt)) =
    (take (length dt) s ++ 0 :: drop (min (length dt) (length s)) dt, zlen s).
Proof.
  intros Hd Hs. unfold BUF_strlcat, BUF_strlcpy. rewrite !Nat2Z.id.
  rewrite (BUF_strlcat_loop_spec d dt s t) by done.
  rewrite BUF_strlcpy_loop_spec by (done || lia). by cbn [length drop].
Qed.

Lemma BUF_strlcat_spec_witness :
  BUF_strlcat [65; 0; 9; 9] [66; 67; 68; 0] 4 = ([65; 66; 67; 0], 4) /\
  BUF_strlcpy [0; 9; 9] [66; 67; 68; 0] 3 = ([66; 67; 0], 3).
Proof.
  apply (BUF_strlcat_spec [65] [9; 9] [66; 67; 68] []); repeat constructor; lia.
Defined.
