(* ===== verification/Cbs.v ===== *)
(** The byte-string reader: crypto/bytestring/cbs.c. A [CBS] is the view of the
    bytes that remain to be read; each operation returns its result ([None] is
    the return value 0) together with the view it leaves behind, which on some
    errors is not the one it was given. The DER grammar the ASN.1 readers
    implement is stated independently of them ([der_element]). *)

From Stdlib Require Import ZArith Lia.
From stdpp Require Import base list option.
From S2P Require Import Prelude Mem.

(** * Readers *)

(** The bytes at [cbs->data] up to [cbs->len]. *)
Abbreviation CBS := bytes.

Definition reader (A : Type) : Type := CBS -> option A * CBS.

Definition rfail {A} : reader A := fun cbs => (None, cbs).
Definition rret {A} (a : A) : reader A := fun cbs => (Some a, cbs).
Definition rbind {A B} (m : reader A) (k : A -> reader B) : reader B :=
  fun cbs => match m cbs with
             | (None, cbs') => (None, cbs')
             | (Some a, cbs') => k a cbs'
             end.

Notation "'get*' x ':=' m 'in' k" := (rbind m (fun x => k))
  (at level 10, x pattern, m at level 100, k at level 200) : bssl_scope.

(** Tag values of include/openssl/bytestring.h. *)
Definition CBS_ASN1_BOOLEAN := 0x1.
Definition CBS_ASN1_INTEGER := 0x2.
Definition CBS_ASN1_BITSTRING := 0x3.
Definition CBS_ASN1_OCTETSTRING := 0x4.
Definition CBS_ASN1_CONSTRUCTED := 0x20.

Definition CBS_init (data : bytes) (len : Z) : CBS := ztake len data.

Definition cbs_get (n : Z) : reader bytes := fun cbs =>
  if zlen cbs <? n then (None, cbs)
  else (Some (ztake n cbs), zdrop n cbs).

Definition CBS_skip (len : Z) : reader unit :=
  get* _ := cbs_get len in rret tt.

Definition CBS_data (cbs : CBS) : bytes := cbs.

Definition CBS_len (cbs : CBS) : Z := zlen cbs.

(** Result: the return value and [*out_ptr]. *)
Definition CBS_stow (malloc : allocator) (cbs : CBS) : bool * option bytes :=
  if zlen cbs =? 0 then (true, None)
  else match BUF_memdup malloc cbs (zlen cbs) with
       | None => (false, None)
       | Some p => (true, Some p)
       end.

(** [cbs->data] is not NULL: the view of an empty string at a NULL pointer,
    which [BUF_strndup] refuses, is not distinguished from other empty ones. *)
Definition CBS_strdup (malloc : allocator) (cbs : CBS) : bool * option bytes :=
  let out := BUF_strndup malloc (Some cbs) (zlen cbs) in
  (match out with None => false | Some _ => true end, out).

Definition CBS_contains_zero_byte (cbs : CBS) : bool := existsb (Z.eqb 0) cbs.

Definition CBS_mem_equal (cbs : CBS) (data : bytes) (len : Z) : bool :=
  if negb (len =? zlen cbs) then false
  else CRYPTO_memcmp cbs data len =? 0.

Definition cbs_get_u (len : Z) : reader Z :=
  get* data := cbs_get len in
  rret (fold_left (fun result b => Z.lor (u32 (Z.shiftl result 8)) b) data 0).

Definition CBS_get_u8 : reader Z :=
  get* v := cbs_get 1 in rret (zget v 0).

Definition CBS_get_u16 : reader Z :=
  get* v := cbs_get_u 2 in rret (u16 v).

Definition CBS_get_u24 : reader Z := cbs_get_u 3.

Definition CBS_get_u32 : reader Z := cbs_get_u 4.

Definition CBS_get_last_u8 : reader Z := fun cbs =>
  if zlen cbs =? 0 then (None, cbs)
  else (Some (zget cbs (zlen cbs - 1)), ztake (zlen cbs - 1) cbs).

Definition CBS_get_bytes (len : Z) : reader CBS :=
  get* v := cbs_get len in rret (CBS_init v len).

Definition CBS_copy_bytes (len : Z) : reader bytes := cbs_get len.

Definition cbs_get_length_prefixed (len_len : Z) : reader CBS :=
  get* len := cbs_get_u len_len in CBS_get_bytes len.

Definition CBS_get_u8_length_prefixed : reader CBS := cbs_get_length_prefixed 1.
Definition CBS_get_u16_length_prefixed : reader CBS := cbs_get_length_prefixed 2.
Definition CBS_get_u24_length_prefixed : reader CBS := cbs_get_length_prefixed 3.

(** * ASN.1 *)

(** Result: the element with its header, the tag and the header's length. The
    header is read from a copy of the view, which is only advanced by the last
    step. *)
Definition cbs_get_any_asn1_element (ber_ok : bool) : reader (CBS * Z * Z) := fun cbs =>
  let get_element len header_len tag :=
    (get* out := CBS_get_bytes len in rret (out, tag, header_len)) cbs in
  match (get* tag := CBS_get_u8 in
         get* length_byte := CBS_get_u8 in
         rret (tag, length_byte)) cbs with
  | (None, _) => (None, cbs)
  | (Some (tag, length_byte), header) =>
      if Z.land tag 0x1f =? 0x1f then (None, cbs)
      else if Z.land length_byte 0x80 =? 0 then
        get_element (length_byte + 2) 2 tag
      else
        let num_bytes := Z.land length_byte 0x7f in
        if ber_ok && negb (Z.land tag CBS_ASN1_CONSTRUCTED =? 0) && (num_bytes =? 0)
        then get_element 2 2 tag
        else if (num_bytes =? 0) || (num_bytes >? 4) then (None, cbs)
        else match cbs_get_u num_bytes header with
             | (None, _) => (None, cbs)
             | (Some len32, _) =>
                 if len32 <? 128 then (None, cbs)
                 else if Z.shiftr len32 ((num_bytes - 1) * 8) =? 0 then (None, cbs)
                 else
                   let len := len32 in
                   if u64 (len + 2 + num_bytes) <? len then (None, cbs)
                   else get_element (u64 (len + 2 + num_bytes)) (2 + num_bytes) tag
             end
  end.

Definition CBS_get_any_asn1_element : reader (CBS * Z * Z) :=
  cbs_get_any_asn1_element false.

Definition CBS_get_any_ber_asn1_element : reader (CBS * Z * Z) :=
  cbs_get_any_asn1_element true.

Definition CBS_get_any_asn1 : reader (CBS * Z) :=
  get* (out, tag, header_len) := CBS_get_any_asn1_element in
  match CBS_skip header_len out with
  | (None, _) => rfail
  | (Some _, out) => rret (out, tag)
  end.

Definition cbs_get_asn1 (tag_value : Z) (skip_header : bool) : reader CBS :=
  get* (out, tag, header_len) := CBS_get_any_asn1_element in
  if negb (tag =? tag_value) then rfail
  else if skip_header then
    match CBS_skip header_len out with
    | (None, _) => rfail
    | (Some _, out) => rret out
    end
  else rret out.

Definition CBS_get_asn1 (tag_value : Z) : reader CBS := cbs_get_asn1 tag_value true.

Definition CBS_get_asn1_element (tag_value : Z) : reader CBS := cbs_get_asn1 tag_value false.

Definition CBS_peek_asn1_tag (cbs : CBS) (tag_value : Z) : bool :=
  if CBS_len cbs <? 1 then false else zget (CBS_data cbs) 0 =? tag_value.

(** The loop of [CBS_get_asn1_uint64]. *)
Fixpoint asn1_uint64_loop (data : bytes) (out : Z) : option Z :=
  match data with
  | [] => Some out
  | b :: data' =>
      if negb (Z.shiftr out 56 =? 0) then None
      else asn1_uint64_loop data' (Z.lor (u64 (Z.shiftl out 8)) b)
  end.

Definition CBS_get_asn1_uint64 : reader Z :=
  get* bytes := CBS_get_asn1 CBS_ASN1_INTEGER in
  let data := CBS_data bytes in
  let len := CBS_len bytes in
  if len =? 0 then rfail
  else if negb (Z.land (zget data 0) 0x80 =? 0) then rfail
  else if (zget data 0 =? 0) && (len >? 1) && (Z.land (zget data 1) 0x80 =? 0) then rfail
  else match asn1_uint64_loop data 0 with
       | None => rfail
       | Some out => rret out
       end.

(** Result: the contents when the element is present, [None] when it is not. *)
Definition CBS_get_optional_asn1 (tag : Z) : reader (option CBS) := fun cbs =>
  if CBS_peek_asn1_tag cbs tag then
    (get* out := CBS_get_asn1 tag in rret (Some out)) cbs
  else (Some None, cbs).

Definition CBS_get_optional_asn1_octet_string (tag : Z) : reader (CBS * bool) :=
  get* child := CBS_get_optional_asn1 tag in
  match child with
  | Some child =>
      match CBS_get_asn1 CBS_ASN1_OCTETSTRING child with
      | (None, _) => rfail
      | (Some out, child) => if negb (CBS_len child =? 0) then rfail else rret (out, true)
      end
  | None => rret (CBS_init [] 0, false)
  end.

Definition CBS_get_optional_asn1_uint64 (tag default_value : Z) : reader Z :=
  get* child := CBS_get_optional_asn1 tag in
  match child with
  | Some child =>
      match CBS_get_asn1_uint64 child with
      | (None, _) => rfail
      | (Some out, child) => if negb (CBS_len child =? 0) then rfail else rret out
      end
  | None => rret default_value
  end.

Definition CBS_get_optional_asn1_bool (tag default_value : Z) : reader Z :=
  get* child := CBS_get_optional_asn1 tag in
  match child with
  | Some child =>
      match CBS_get_asn1 CBS_ASN1_BOOLEAN child with
      | (None, _) => rfail
      | (Some child2, child) =>
          if negb (CBS_len child2 =? 1) || negb (CBS_len child =? 0) then rfail
          else
            let boolean := zget (CBS_data child2) 0 in
            if boolean =? 0 then rret 0
            else if boolean =? 0xff then rret 1
            else rfail
      end
  | None => rret default_value
  end.

Definition CBS_is_valid_asn1_bitstring (cbs : CBS) : bool :=
  match CBS_get_u8 cbs with
  | (None, _) => false
  | (Some num_unused_bits, inp) =>
      if num_unused_bits >? 7 then false
      else if num_unused_bits =? 0 then true
      else match CBS_get_last_u8 inp with
           | (None, _) => false
           | (Some last, _) =>
               Z.land last (Z.shiftl 1 num_unused_bits - 1) =? 0
           end
  end.

Definition CBS_asn1_bitstring_has_bit (cbs : CBS) (bit : Z) : bool :=
  if negb (CBS_is_valid_asn1_bitstring cbs) then false
  else
    let byte_num := u32 (Z.shiftr bit 3 + 1) in
    let bit_num := 7 - Z.land bit 7 in
    (byte_num <? CBS_len cbs) &&
    negb (Z.land (zget (CBS_data cbs) byte_num) (Z.shiftl 1 bit_num) =? 0).

(** * The DER grammar *)

(** The number of octets of the long form of a length below 2^32. *)
Definition len_octets (n : Z) : Z :=
  if n <? 256 then 1 else if n <? 65536 then 2 else if n <? 16777216 then 3 else 4.

(** X.690 sections 8.1.3 and 10.1: the short form below 128, otherwise the
    number of octets and then the octets, as few as possible. *)
Definition der_length (n : Z) : bytes :=
  if n <? 128 then [n]
  else (128 + len_octets n) :: be_bytes (Z.to_nat (len_octets n)) n.

Definition der_element (tag : Z) (contents : bytes) : bytes :=
  tag :: der_length (zlen contents) ++ contents.

Definition valid_tag (tag : Z) : Prop := is_byte tag /\ Z.land tag 0x1f <> 0x1f.

(** The minimal two's complement encoding of a non-negative integer: its
    base-256 digits, with a zero byte in front when the top bit is set. *)
Fixpoint uint_octets (fuel : nat) (v : Z) : bytes :=
  match fuel with
  | O => []
  | S f => (if v <? 128 then [] else uint_octets f (v / 256)) ++ [v mod 256]
  end.
Definition asn1_uint_octets (v : Z) : bytes := uint_octets 9 v.

(** * Lemmas: the byte readers *)

Lemma cbs_get_app n l1 l2 : zlen l1 = n -> cbs_get n (l1 ++ l2) = (Some l1, l2).
Proof.
  intros H. unfold cbs_get. rewrite ztake_app, zdrop_app by done.
  case_if; [zlia|done].
Qed.

Lemma cbs_get_short n l : zlen l < n -> cbs_get n l = (None, l).
Proof. intros H. unfold cbs_get. case_if; [done|lia]. Qed.

Lemma cbs_get_inv n cbs v rest : 0 <= n ->
  cbs_get n cbs = (Some v, rest) -> cbs = v ++ rest /\ zlen v = n.
Proof.
  unfold cbs_get. intros Hn H. case_if_in H; [done|]. injection H as <- <-.
  rewrite ztake_zdrop. split; [done|zlia].
Qed.

Lemma cbs_get_cases n cbs : 0 <= n ->
  (zlen cbs < n /\ cbs_get n cbs = (None, cbs)) \/
  (exists v rest, cbs = v ++ rest /\ zlen v = n /\ cbs_get n cbs = (Some v, rest)).
Proof.
  intros Hn. destruct (Z.lt_ge_cases (zlen cbs) n).
  - left. split; [done|]. by apply cbs_get_short.
  - right. destruct (zsplit n cbs) as (v & rest & -> & Hv); [lia|].
    exists v, rest. split_and!; [done..|]. by apply cbs_get_app.
Qed.

Lemma be_loop_u32 l : bytes_ok l -> zlen l <= 4 ->
  fold_left (fun r b => Z.lor (u32 (Z.shiftl r 8)) b) l 0 = be_val l.
Proof.
  intros Hl H4. rewrite (be_val_loop u32 32) by (done || exact u32_mod).
  apply Z.mod_small. pose proof (be_val_bound l Hl) as [? ?]. split; [done|].
  eapply Z.lt_le_trans; [eassumption|]. change (2 ^ 32) with (256 ^ 4).
  apply Z.pow_le_mono_r; lia.
Qed.

Lemma cbs_get_u_app n l1 l2 : bytes_ok l1 -> zlen l1 = n -> n <= 4 ->
  cbs_get_u n (l1 ++ l2) = (Some (be_val l1), l2).
Proof.
  intros Hok Hl Hn. unfold cbs_get_u, rbind. rewrite cbs_get_app by done.
  by rewrite be_loop_u32 by lia || done.
Qed.

Lemma cbs_get_u_inv n cbs v rest : 0 <= n <= 4 -> bytes_ok cbs ->
  cbs_get_u n cbs = (Some v, rest) ->
  exists l, cbs = l ++ rest /\ zlen l = n /\ v = be_val l /\ bytes_ok l.
Proof.
  intros Hn Hok H. unfold cbs_get_u, rbind in H.
  destruct (cbs_get_cases n cbs) as [[_ E]|(l & r & -> & Hl & E)]; [lia| |];
    rewrite E in H; [done|].
  apply bytes_ok_app in Hok as [Hok _]. injection H as <- <-.
  exists l. rewrite be_loop_u32 by lia || done. done.
Qed.

Lemma CBS_get_u8_cons b l : CBS_get_u8 (b :: l) = (Some b, l).
Proof.
  unfold CBS_get_u8, rbind. change (b :: l) with ([b] ++ l).
  by rewrite cbs_get_app.
Qed.

Lemma CBS_get_bytes_app n l1 l2 : zlen l1 = n ->
  CBS_get_bytes n (l1 ++ l2) = (Some l1, l2).
Proof.
  intros H. unfold CBS_get_bytes, rbind, rret, CBS_init. rewrite cbs_get_app by done.
  by rewrite ztake_all by lia.
Qed.

Lemma CBS_get_bytes_get n cbs : 0 <= n -> CBS_get_bytes n cbs = cbs_get n cbs.
Proof.
  intros Hn. unfold CBS_get_bytes, rbind, rret, CBS_init.
  destruct (cbs_get_cases n cbs Hn) as [[_ E]|(l & r & -> & Hl & E)]; rewrite E; [done|].
  by rewrite ztake_all by lia.
Qed.

Lemma CBS_skip_app n l1 l2 : zlen l1 = n -> CBS_skip n (l1 ++ l2) = (Some tt, l2).
Proof. intros H. unfold CBS_skip, rbind. by rewrite cbs_get_app. Qed.

(** * Lemmas: DER elements *)

Lemma len_octets_bounds n : 128 <= n < 2 ^ 32 ->
  1 <= len_octets n <= 4 /\ n < 256 ^ len_octets n /\
  (len_octets n = 1 \/ 256 ^ (len_octets n - 1) <= n).
Proof. intros H. unfold len_octets. repeat case_if; cbn; lia. Qed.

Lemma len_octets_unique n k : 1 <= k <= 4 -> 128 <= n < 256 ^ k ->
  256 ^ (k - 1) <= n -> len_octets n = k.
Proof.
  intros Hk Hn Hm. assert (k = 1 \/ k = 2 \/ k = 3 \/ k = 4) as Hc by lia.
  destruct Hc as [-> | [-> | [-> | ->]]]; cbn in *; unfold len_octets; repeat case_if; lia.
Qed.

(** The reader on an element it has seen two bytes of, with the tests on the
    bits of the bytes turned into arithmetic. *)
Lemma asn1_element_cons ber_ok tag lb rest :
  is_byte tag -> is_byte lb ->
  let cbs := tag :: lb :: rest in
  let elt len hl := match cbs_get len cbs with
                    | (Some out, r) => (Some (out, tag, hl), r)
                    | (None, r) => (None, r)
                    end in
  cbs_get_any_asn1_element ber_ok cbs =
  if Z.land tag 0x1f =? 0x1f then (None, cbs)
  else if lb <? 128 then elt (lb + 2) 2
  else if ber_ok && negb (Z.land tag CBS_ASN1_CONSTRUCTED =? 0) && (lb =? 128) then elt 2 2
  else if (lb =? 128) || (132 <? lb) then (None, cbs)
  else match cbs_get_u (lb - 128) rest with
       | (None, _) => (None, cbs)
       | (Some n, _) =>
           if (n <? 128) || (n / 256 ^ (lb - 129) =? 0) then (None, cbs)
           else if u64 (n + 2 + (lb - 128)) <? n then (None, cbs)
           else elt (u64 (n + 2 + (lb - 128))) (2 + (lb - 128))
       end.
Proof.
  intros Ht Hlb cbs elt. unfold cbs_get_any_asn1_element.
  assert (Helt : forall len hl, 0 <= len ->
    (get* out := CBS_get_bytes len in rret (out, tag, hl)) cbs = elt len hl).
  { intros len hl Hlen. unfold rbind, elt. rewrite CBS_get_bytes_get by done. done. }
  replace ((get* tag := CBS_get_u8 in get* lb := CBS_get_u8 in rret (tag, lb)) cbs)
    with (Some (tag, lb), rest)
    by (unfold cbs, rbind; rewrite CBS_get_u8_cons, CBS_get_u8_cons; done).
  case_if; [done|]. rewrite byte_msb by done. pose proof Hlb as [Hlb0 Hlb1].
  case_if; [apply Helt; lia|]. rewrite byte_low7 by done.
  replace (lb mod 128) with (lb - 128)
    by (rewrite <- (Z.mod_small (lb - 128) 128), <- (Z.mod_add (lb - 128) 1 128) by lia; f_equal; lia).
  replace (lb - 128 =? 0) with (lb =? 128) by lia.
  replace (lb - 128 >? 4) with (132 <? lb) by lia.
  case_if; [apply Helt; lia|]. case_if; [done|].
  destruct (cbs_get_u (lb - 128) rest) as [[n|] r]; [|done].
  rewrite Z.shiftr_div_pow2 by lia.
  replace (2 ^ ((lb - 128 - 1) * 8)) with (256 ^ (lb - 129))
    by (rewrite Z.mul_comm, Z.pow_mul_r by lia; f_equal; lia).
  repeat case_if; try done; try lia. apply Helt. apply u64_is_u.
Qed.

Lemma asn1_element_short ber_ok cbs : zlen cbs < 2 ->
  cbs_get_any_asn1_element ber_ok cbs = (None, cbs).
Proof.
  intros H. destruct cbs as [|b [|b' l]]; [done..|cbn in H; lia].
Qed.

Lemma asn1_element_fail ber_ok cbs rest :
  cbs_get_any_asn1_element ber_ok cbs = (None, rest) -> rest = cbs.
Proof.
  assert (Hget : forall n (h t : Z),
    (get* out := CBS_get_bytes n in rret (out, t, h)) cbs = (None, rest) -> rest = cbs).
  { intros n h t. unfold CBS_get_bytes, cbs_get, rbind, rret. case_if; [|done].
    intros H. by injection H as ->. }
  unfold cbs_get_any_asn1_element. intros H.
  repeat (case_match; try (by simplify_eq); try (by apply Hget in H)).
Qed.

Lemma length_der_length n : 0 <= n ->
  zlen (der_length n) = if n <? 128 then 1 else 1 + len_octets n.
Proof.
  intros Hn. unfold der_length. case_if; [done|].
  assert (1 <= len_octets n) by (unfold len_octets; repeat case_if; lia). zlia.
Qed.

Lemma der_length_ok n : 0 <= n -> bytes_ok (der_length n).
Proof.
  intros Hn. unfold der_length. case_if; repeat constructor; try apply be_bytes_ok; try lia.
  all: unfold len_octets; repeat case_if; lia.
Qed.

Lemma der_element_ok tag c : is_byte tag -> bytes_ok c -> bytes_ok (der_element tag c).
Proof.
  intros Ht Hc. constructor; [done|]. apply bytes_ok_app. split; [|done].
  apply der_length_ok. lia.
Qed.

(** Completeness: both readers accept every DER element and stop after it. *)
Lemma asn1_element_der ber_ok tag c rest :
  valid_tag tag -> zlen c < 2 ^ 32 ->
  cbs_get_any_asn1_element ber_ok (der_element tag c ++ rest) =
    (Some (der_element tag c, tag, 1 + zlen (der_length (zlen c))), rest).
Proof.
  intros [Ht Hv] Hc. rewrite length_der_length by lia.
  remember (zlen c) as n eqn:Hn.
  assert (Hlen : zlen (der_element tag c) = (if n <? 128 then 2 else 2 + len_octets n) + n).
  { unfold der_element. rewrite length_cons, length_app, <- Hn.
    generalize (length_der_length n ltac:(lia)). case_if; intros; lia. }
  pose proof (cbs_get_app _ (der_element tag c) rest Hlen) as Hget.
  unfold der_element, der_length in *. rewrite <- Hn in *.
  destruct (n <? 128) eqn:En; bool_simpl.
  - cbn [app] in *. rewrite asn1_element_cons by (done || split; lia).
    case_if; [done|]. case_if; [|lia]. by rewrite Z.add_comm, Hget.
  - destruct (len_octets_bounds n) as (Hk & Hlt & Hge); [lia|]. set (k := len_octets n) in *.
    cbn [app] in *. rewrite <- app_assoc in *.
    rewrite asn1_element_cons by (done || split; lia).
    case_if; [done|]. case_if; [lia|]. replace (128 + k =? 128) with false by lia.
    rewrite andb_false_r. case_if; [lia|].
    replace (128 + k - 128) with k by lia. replace (128 + k - 129) with (k - 1) by lia.
    rewrite cbs_get_u_app by (apply be_bytes_ok || zlia).
    rewrite be_val_small by (rewrite Z2Nat.id; lia).
    assert (1 <= n / 256 ^ (k - 1)).
    { apply Z.div_le_lower_bound; [lia|]. destruct Hge as [->|]; cbn; lia. }
    rewrite (u64_small (n + 2 + k)) by (split; lia).
    case_if; [lia|]. case_if; [lia|].
    replace (n + 2 + k) with (2 + k + n) by lia. replace (1 + (1 + k)) with (2 + k) by lia. by rewrite Hget.
Qed.

(** Soundness: what the DER reader accepts is a DER element. *)
Lemma asn1_element_inv cbs out tag hl rest :
  bytes_ok cbs -> CBS_get_any_asn1_element cbs = (Some (out, tag, hl), rest) ->
  exists c, valid_tag tag /\ zlen c < 2 ^ 32 /\ out = der_element tag c /\
    hl = 1 + zlen (der_length (zlen c)) /\ cbs = out ++ rest.
Proof.
  intros Hok H. unfold CBS_get_any_asn1_element in H.
  destruct cbs as [|t [|lb r]]; [done..|].
  apply Forall_cons_iff in Hok as [Ht Hok]. apply Forall_cons_iff in Hok as [Hlb Hr].
  rewrite asn1_element_cons in H by done. case_if_in H; [done|].
  pose proof Hlb as [Hlb0 Hlb1]. change (is_byte lb) in Hlb.
  assert (Hsplit : forall len hd, cbs_get len (t :: lb :: r) = (Some out, rest) ->
    t :: lb :: r = hd ++ zdrop (zlen hd) (t :: lb :: r) -> zlen hd <= len ->
    exists c, out = hd ++ c /\ zlen c = len - zlen hd /\ t :: lb :: r = out ++ rest).
  { intros len hd Hg Hhd Hle. apply cbs_get_inv in Hg as [Hg Hz]; [|lia].
    rewrite Hhd in Hg. symmetry in Hg. apply app_eq_prefix in Hg as (c & -> & Hd); [|lia].
    exists c. split_and!; [done|zlia|]. by rewrite Hhd, Hd, app_assoc. }
  case_if_in H.
  - destruct (cbs_get _ _) as [[o|] r'] eqn:Eg; [|done]. injection H as -> <- <- ->.
    destruct (Hsplit (lb + 2) [t; lb] Eg) as (c & -> & Hc & Hcbs); [done|cbn; lia|].
    exists c. assert (zlen c = lb) as Hcl by (cbn in Hc; lia).
    unfold der_element, der_length, valid_tag. rewrite Hcl. case_if; [|lia].
    split_and!; auto; lia.
  - cbn [andb] in H. case_if_in H; [done|]. bool_simpl.
    destruct (cbs_get_u _ _) as [[n|] r1] eqn:Eu; [|done].
    apply cbs_get_u_inv in Eu as (l & -> & Hl & -> & Hlok); [|lia|done].
    pose proof (be_val_bound l Hlok) as [Hn0 Hn1]. rewrite Hl in Hn1.
    set (k := lb - 128) in *. replace (lb - 129) with (k - 1) in H by lia.
    case_if_in H; [done|]. bool_simpl.
    assert (256 ^ k <= 256 ^ 4) by (apply Z.pow_le_mono_r; lia).
    rewrite u64_small in H by (split; lia). case_if_in H; [done|].
    destruct (cbs_get _ _) as [[o|] r'] eqn:Eg; [|done]. injection H as -> <- <- ->.
    destruct (Hsplit _ (t :: lb :: l) Eg) as (c & -> & Hc & Hcbs).
    { change (t :: lb :: l ++ r1) with ((t :: lb :: l) ++ r1). by rewrite zdrop_app. }
    { cbn [length]. lia. }
    assert (zlen c = be_val l) as Hcl by (cbn [length] in Hc; lia).
    assert (len_octets (be_val l) = k) as Hk.
    { apply len_octets_unique; [lia|lia|]. apply Z.nlt_ge. intros Hlt.
      assert (be_val l / 256 ^ (k - 1) <> 0) as Hnz by assumption.
      rewrite Z.div_small in Hnz by lia. lia. }
    exists c. unfold der_element, der_length, valid_tag. rewrite Hcl. case_if; [lia|].
    rewrite Hk. replace (Z.to_nat k) with (length l) by lia.
    rewrite be_bytes_be_val by done. replace (128 + k) with lb by lia.
    split_and!; auto; cbn [length app]; lia.
Qed.

(** * Lemmas: minimal unsigned integers *)

(** The three tests [CBS_get_asn1_uint64] makes on the contents. *)
Definition uint_min (l : bytes) : Prop :=
  l <> [] /\ zget l 0 < 128 /\ (zlen l <= 1 \/ zget l 0 <> 0 \/ 128 <= zget l 1).

Lemma uint_min_snoc l b : is_byte b -> bytes_ok l -> l <> [] ->
  uint_min (l ++ [b]) <-> uint_min l /\ (be_val l <> 0 \/ 128 <= b).
Proof.
  unfold uint_min. intros Hb Hl Hne. destruct l as [|x [|y l]]; [done| |].
  - change (be_val [x]) with (0 * 256 + x). cbn.
    intuition (try done; lia).
  - apply Forall_cons_iff in Hl as [Hx Hl]. apply Forall_cons_iff in Hl as [Hy Hl].
    pose proof (be_val_bound l Hl). pose proof (be_val_app [x; y] l) as Hv.
    change (be_val [x; y]) with ((0 * 256 + x) * 256 + y) in Hv. cbn [app] in *.
    change (zget (x :: y :: l ++ [b]) 0) with x.
    change (zget (x :: y :: l ++ [b]) 1) with y.
    change (zget (x :: y :: l) 0) with x. change (zget (x :: y :: l) 1) with y.
    cbn [length]. unfold is_u in Hx, Hy.
    pose proof (pow256_pos (length l)).
    split; [|intros ((_ & ? & ?) & _); split_and!; [done|done|lia]].
    intros (_ & H1 & H2).
    split; [split_and!; [done|done|lia]|]. left. rewrite Hv.
    destruct H2 as [H2|H2]; [lia|].
    assert (1 <= (x * 256 + y)) by lia. nia.
Qed.

Lemma uint_octets_be_val f l : (length l <= f)%nat -> bytes_ok l -> uint_min l ->
  uint_octets f (be_val l) = l.
Proof.
  revert l. induction f as [|f IH]; intros l Hf Hok Hm.
  { destruct l; [by destruct Hm|cbn in Hf; lia]. }
  destruct l as [|b l _] using rev_ind; [by destruct Hm|].
  apply bytes_ok_app in Hok as [Hok Hb]. apply Forall_cons_iff in Hb as [Hb _].
  rewrite length_app in Hf. cbn [length] in Hf. cbn [uint_octets].
  rewrite be_val_snoc. pose proof (be_val_bound l Hok) as Hv. unfold is_u in Hb.
  rewrite (Z.add_comm _ b) at 3. rewrite Z.mod_add, Z.mod_small by lia. f_equal.
  rewrite Z.div_add_l, Z.div_small, Z.add_0_r by lia.
  destruct (decide (l = [])) as [->|Hne].
  - destruct Hm as (_ & Hm & _). change (zget _ _) with b in Hm.
    change (be_val []) with 0. case_if; [done|lia].
  - apply uint_min_snoc in Hm as [Hm H]; [|done..]. case_if; [lia|].
    apply IH; [lia|done..].
Qed.

Lemma uint_min_byte v : 0 <= v < 128 ->
  uint_min [v] /\ bytes_ok [v] /\ be_val [v] = v.
Proof.
  intros Hv. split_and!; [|by apply Forall_singleton; split; lia|done].
  split_and!; [done|exact (proj2 Hv)|cbn; lia].
Qed.

Lemma uint_octets_spec f v : 0 <= v < 128 * 256 ^ Z.of_nat f ->
  let l := uint_octets (S f) v in
  uint_min l /\ bytes_ok l /\ be_val l = v /\ (length l <= S f)%nat.
Proof.
  revert v. induction f as [|f IH]; intros v Hv l.
  - assert (l = [v]) as ->.
    { unfold l, uint_octets. case_if; [|lia]. by rewrite Z.mod_small by lia. }
    destruct (uint_min_byte v) as (? & ? & ?); [lia|]. done.
  - unfold l. remember (S f) as f'. cbn [uint_octets]. case_if.
    + rewrite Z.mod_small by lia. destruct (uint_min_byte v) as (? & ? & ?); [lia|].
      split_and!; [done..|cbn; lia].
    + subst f'. rewrite Nat2Z.inj_succ, Z.pow_succ_r in Hv by lia.
      destruct (IH (v / 256)) as (Hm & Hok & Hb & Hl).
      { split; [apply Z.div_pos; lia|]. apply Z.div_lt_upper_bound; lia. }
      set (l' := uint_octets (S f) (v / 256)) in *.
      assert (is_byte (v mod 256)) by (apply Z.mod_pos_bound; lia).
      pose proof (Z.div_mod v 256 ltac:(lia)).
      split; [|split; [|split]].
      * apply uint_min_snoc; [done|done|by destruct Hm|]. split; [done|].
        rewrite Hb. lia.
      * apply bytes_ok_app. split; [done|]. by apply Forall_singleton.
      * rewrite be_val_snoc, Hb. lia.
      * rewrite length_app. cbn [length]. lia.
Qed.

Lemma asn1_uint_octets_spec v : is_u 64 v ->
  uint_min (asn1_uint_octets v) /\ bytes_ok (asn1_uint_octets v) /\
  be_val (asn1_uint_octets v) = v /\ (length (asn1_uint_octets v) <= 9)%nat.
Proof. intros [H0 H1]. apply (uint_octets_spec 8). cbn. lia. Qed.

Lemma uint_min_length l : bytes_ok l -> uint_min l -> be_val l < 2 ^ 64 ->
  (length l <= 9)%nat.
Proof.
  intros Hok (Hne & H0 & H1) Hv. destruct l as [|x [|y l]]; [cbn; lia..|].
  apply Forall_cons_iff in Hok as [Hx Hok]. apply Forall_cons_iff in Hok as [Hy Hok].
  change (zget _ 0) with x in *. change (zget _ 1) with y in *.
  pose proof (be_val_bound l Hok). rewrite (be_val_app [x; y] l : be_val (x :: y :: l) = _) in Hv.
  change (be_val [x; y]) with ((0 * 256 + x) * 256 + y) in Hv. cbn [length] in *.
  apply Nat.nlt_ge. intros Hlt. unfold is_u in Hx, Hy.
  assert (256 ^ 8 <= 256 ^ zlen l) by (apply Z.pow_le_mono_r; lia).
  assert (128 <= x * 256 + y) by lia. nia.
Qed.

Lemma asn1_uint64_loop_spec data out : bytes_ok data -> is_u 64 out ->
  asn1_uint64_loop data out =
    let r := out * 256 ^ zlen data + be_val data in
    if r <? 2 ^ 64 then Some r else None.
Proof.
  revert out. induction data as [|b data IH]; intros out Hok Hout.
  { cbn [asn1_uint64_loop length Z.of_nat be_val fold_left]. rewrite Z.mul_1_r, Z.add_0_r.
    case_if; [done|]. unfold is_u in Hout. lia. }
  apply Forall_cons_iff in Hok as [Hb Hok]. change (is_byte b) in Hb.
  pose proof (be_val_bound data Hok).
  rewrite (be_val_app [b] data : be_val (b :: data) = _).
  change (be_val [b]) with (0 * 256 + b). cbn [asn1_uint64_loop length].
  rewrite Nat2Z.inj_succ, Z.pow_succ_r, Z.shiftr_div_pow2 by lia. unfold is_u in *.
  pose proof (pow256_pos (length data)).
  pose proof (Z.div_mod out (2 ^ 56) ltac:(lia)).
  pose proof (Z.mod_pos_bound out (2 ^ 56) ltac:(lia)). case_if.
  - case_if; [|done].
    assert (2 ^ 56 <= out) by (pose proof (Z.div_pos out (2 ^ 56)); nia). nia.
  - assert (out < 2 ^ 56) by lia. rewrite u64_small.
    2: { rewrite Z.shiftl_mul_pow2 by lia. split; lia. }
    rewrite lor_shiftl_add by (done || lia). rewrite IH; [|done|split; lia].
    replace ((out * 2 ^ 8 + b) * 256 ^ zlen data + be_val data)
      with (out * (256 * 256 ^ zlen data) + ((0 * 256 + b) * 256 ^ zlen data + be_val data)) by lia.
    done.
Qed.

(** * Lemmas: readers of one tag *)

Lemma der_header_skip tag c :
  CBS_skip (1 + zlen (der_length (zlen c))) (der_element tag c) = (Some tt, c).
Proof.
  change (der_element tag c) with ((tag :: der_length (zlen c)) ++ c).
  apply CBS_skip_app. cbn [length]. lia.
Qed.

Lemma CBS_get_asn1_der tag c rest : valid_tag tag -> zlen c < 2 ^ 32 ->
  CBS_get_asn1 tag (der_element tag c ++ rest) = (Some c, rest).
Proof.
  intros Ht Hc. unfold CBS_get_asn1, cbs_get_asn1, CBS_get_any_asn1_element, rbind.
  rewrite asn1_element_der, Z.eqb_refl, der_header_skip by done. done.
Qed.

Lemma CBS_get_asn1_inv tag cbs c rest : bytes_ok cbs ->
  CBS_get_asn1 tag cbs = (Some c, rest) ->
  valid_tag tag /\ zlen c < 2 ^ 32 /\ cbs = der_element tag c ++ rest.
Proof.
  intros Hok H. unfold CBS_get_asn1, cbs_get_asn1, rbind in H.
  destruct (CBS_get_any_asn1_element cbs) as [[[[out t] hl]|] r] eqn:E; [|done].
  apply asn1_element_inv in E as (c' & Ht & Hc & -> & -> & ->); [|done].
  case_if_in H; [done|]. subst t. rewrite der_header_skip in H. by injection H as -> ->.
Qed.

Lemma CBS_get_asn1_iff tag cbs c rest : bytes_ok cbs ->
  CBS_get_asn1 tag cbs = (Some c, rest) <->
  valid_tag tag /\ zlen c < 2 ^ 32 /\ cbs = der_element tag c ++ rest.
Proof.
  intros Hok. split; [by apply CBS_get_asn1_inv|]. intros (? & ? & ->).
  by apply CBS_get_asn1_der.
Qed.

Lemma der_contents_ok tag c rest :
  bytes_ok (der_element tag c ++ rest) -> bytes_ok c /\ bytes_ok rest.
Proof.
  intros Hok. apply bytes_ok_app in Hok as [Hok Hr]. split; [|done].
  apply Forall_cons_iff in Hok as [_ Hok]. by apply bytes_ok_app in Hok as [_ Hok].
Qed.

Lemma asn1_uint64_iff cbs v rest : bytes_ok cbs ->
  CBS_get_asn1_uint64 cbs = (Some v, rest) <->
  is_u 64 v /\ cbs = der_element CBS_ASN1_INTEGER (asn1_uint_octets v) ++ rest.
Proof.
  intros Hok. unfold CBS_get_asn1_uint64, rbind, CBS_len, CBS_data. split.
  - destruct (CBS_get_asn1 CBS_ASN1_INTEGER cbs) as [[c|] r] eqn:E; [|done]. intros H.
    apply CBS_get_asn1_inv in E as (Ht & Hc & ->); [|done].
    apply der_contents_ok in Hok as [Hok _].
    rewrite !byte_msb in H by (by apply zget_byte).
    case_if_in H; [done|]. case_if_in H; [done|]. case_if_in H; [done|].
    rewrite asn1_uint64_loop_spec, Z.mul_0_l, Z.add_0_l in H by done. cbv zeta in H.
    case_if_in H; [|done]. injection H as <- ->.
    assert (Hm : uint_min c).
    { split; [by intros ->|]. split; lia. }
    split; [split; [apply be_val_bound, Hok|done]|]. f_equal.
    unfold asn1_uint_octets. rewrite uint_octets_be_val; [done| |done..].
    apply uint_min_length; done.
  - intros [Hv ->]. destruct (asn1_uint_octets_spec v Hv) as ((Hne & H0 & H1) & Hb & Hval & Hl).
    rewrite CBS_get_asn1_der; [|done|lia].
    set (c := asn1_uint_octets v) in *.
    destruct (Z.eqb_spec (zlen c) 0) as [Hz|Hz]; [by apply zlen_0 in Hz|].
    rewrite !byte_msb by (by apply zget_byte). case_if; [lia|]. case_if; [lia|].
    rewrite asn1_uint64_loop_spec by (done || split; lia).
    rewrite Z.mul_0_l, Z.add_0_l, Hval. cbv zeta. unfold is_u in Hv. case_if; [done|lia].
Qed.

Lemma CBS_peek_cons tag l : CBS_peek_asn1_tag (tag :: l) tag = true.
Proof.
  unfold CBS_peek_asn1_tag, CBS_len, CBS_data. cbn [length]. case_if; [lia|].
  apply Z.eqb_refl.
Qed.

Lemma optional_asn1_iff tag cbs o rest : bytes_ok cbs ->
  CBS_get_optional_asn1 tag cbs = (Some o, rest) <->
  match o with
  | None => CBS_peek_asn1_tag cbs tag = false /\ rest = cbs
  | Some c => valid_tag tag /\ zlen c < 2 ^ 32 /\ cbs = der_element tag c ++ rest
  end.
Proof.
  intros Hok. unfold CBS_get_optional_asn1, rbind, rret.
  destruct (CBS_peek_asn1_tag cbs tag) eqn:Ep.
  - destruct o as [c|].
    + rewrite <- CBS_get_asn1_iff by done.
      destruct (CBS_get_asn1 tag cbs) as [[c'|] r];
        (split; intros H; by inversion H).
    + destruct (CBS_get_asn1 tag cbs) as [[c'|] r];
        (split; [intros H; by inversion H|intros H; by destruct H]).
  - destruct o as [c|];
      [|split; [intros H; by inversion H|by intros [_ ->]]]. split; [done|]. intros (_ & _ & ->).
    change (der_element tag c ++ rest) with (tag :: (der_length (zlen c) ++ c) ++ rest) in Ep.
    by rewrite CBS_peek_cons in Ep.
Qed.

(** * Lemmas: bit strings and length prefixes *)

Lemma land_shiftl_1 x i : 0 <= i -> (Z.land x (Z.shiftl 1 i) =? 0) = negb (Z.testbit x i).
Proof.
  intros Hi. rewrite Z.shiftl_1_l. destruct (Z.testbit x i) eqn:Et; cbn [negb].
  - apply Z.eqb_neq. intros E. apply (f_equal (fun y => Z.testbit y i)) in E.
    rewrite Z.land_spec, Et, Z.pow2_bits_true, Z.testbit_0_l in E by lia. done.
  - apply Z.eqb_eq, Z.bits_inj'. intros j Hj. rewrite Z.land_spec, Z.testbit_0_l.
    destruct (Z.eq_dec i j) as [<-|Hne]; [by rewrite Et|].
    rewrite Z.pow2_bits_false by lia. apply andb_false_r.
Qed.

Lemma land_mask_0 x n i : 0 <= i < n -> Z.land x (Z.shiftl 1 n - 1) = 0 ->
  Z.testbit x i = false.
Proof.
  intros Hi E. apply (f_equal (fun y => Z.testbit y i)) in E.
  rewrite Z.shiftl_1_l, Z.sub_1_r, <- Z.ones_equiv in E.
  rewrite Z.land_spec, Z.ones_spec_low, Z.testbit_0_l, andb_true_r in E by lia. done.
Qed.

Lemma length_prefixed_iff n cbs c rest : 0 <= n <= 3 -> bytes_ok cbs ->
  cbs_get_length_prefixed n cbs = (Some c, rest) <->
  zlen c < 256 ^ n /\ cbs = be_bytes (Z.to_nat n) (zlen c) ++ c ++ rest.
Proof.
  intros Hn Hok. unfold cbs_get_length_prefixed, rbind. split.
  - destruct (cbs_get_u n cbs) as [[v|] r] eqn:E; [|done]. intros H.
    apply cbs_get_u_inv in E as (l & -> & Hl & -> & Hlok); [|lia|done].
    pose proof (be_val_bound l Hlok). rewrite CBS_get_bytes_get in H by lia.
    apply cbs_get_inv in H as [-> Hc]; [|lia]. rewrite Hc, <- Hl. split; [lia|].
    by rewrite Nat2Z.id, be_bytes_be_val.
  - intros [Hc ->]. rewrite cbs_get_u_app by (apply be_bytes_ok || zlia).
    rewrite be_val_small by (rewrite Z2Nat.id; lia). by apply CBS_get_bytes_app.
Qed.

(** * Properties *)

(** C6. [CBS_get_any_asn1_element] succeeds exactly on a DER element followed
    by anything: the tag is a single byte, the length is the minimal definite
    form below 2^32, the output is the whole element, the header length is
    right and the view advances past the element; on every other input it
    fails and leaves the view where it was. *)
Theorem CBS_get_any_asn1_element_spec cbs : bytes_ok cbs ->
  (forall out tag header_len rest,
     CBS_get_any_asn1_element cbs = (Some (out, tag, header_len), rest) <->
     exists contents, valid_tag tag /\ zlen contents < 2 ^ 32 /\
       out = der_element tag contents /\
       header_len = 1 + zlen (der_length (zlen contents)) /\ cbs = out ++ rest) /\
  (forall rest, CBS_get_any_asn1_element cbs = (None, rest) -> rest = cbs).
Proof.
  intros Hok. split.
  - intros out tag hl rest. split; [by apply asn1_element_inv|].
    intros (c & Ht & Hc & -> & -> & ->). by apply asn1_element_der.
  - intros rest. apply asn1_element_fail.
Qed.

Lemma CBS_get_any_asn1_element_spec_witness :
  let cbs := [0x30; 3; 1; 1; 0xff; 7] in
  bytes_ok cbs /\
  exists c, valid_tag 0x30 /\ zlen c < 2 ^ 32 /\ [0x30; 3; 1; 1; 0xff] = der_element 0x30 c /\
    2 = 1 + zlen (der_length (zlen c)) /\ cbs = [0x30; 3; 1; 1; 0xff] ++ [7].
Proof.
  assert (Hok : bytes_ok [0x30; 3; 1; 1; 0xff; 7]) by (repeat constructor; done).
  split; [exact Hok|].
  apply (proj1 (CBS_get_any_asn1_element_spec _ Hok) [0x30; 3; 1; 1; 0xff] 0x30 2 [7]).
  reflexivity.
Defined.

(** [CBS_get_asn1_uint64] reads [v] exactly from the DER INTEGER whose
    contents are the minimal two's complement encoding of [v], for every
    64-bit [v]: negative, empty, non-minimal and over-long contents are
    refused. *)
Theorem CBS_get_asn1_uint64_spec cbs v rest : bytes_ok cbs ->
  CBS_get_asn1_uint64 cbs = (Some v, rest) <->
  is_u 64 v /\ cbs = der_element CBS_ASN1_INTEGER (asn1_uint_octets v) ++ rest.
Proof. apply asn1_uint64_iff. Qed.

Lemma CBS_get_asn1_uint64_spec_witness :
  let cbs := [2; 2; 0; 200; 9] in
  bytes_ok cbs /\ is_u 64 200 /\
  cbs = der_element CBS_ASN1_INTEGER (asn1_uint_octets 200) ++ [9].
Proof.
  assert (Hok : bytes_ok [2; 2; 0; 200; 9]) by (repeat constructor; done).
  split; [exact Hok|]. apply (CBS_get_asn1_uint64_spec _ 200 [9] Hok). reflexivity.
Defined.

(** [CBS_get_optional_asn1_bool] returns the default, without advancing,
    when the next element does not have the tag, and otherwise succeeds exactly
    when the element wraps one DER BOOLEAN and nothing else, whose single byte
    is 0x00 (false) or 0xff (true), DER's only two encodings. *)
Theorem CBS_get_optional_asn1_bool_spec cbs tag default_value out rest : bytes_ok cbs ->
  CBS_get_optional_asn1_bool tag default_value cbs = (Some out, rest) <->
  (CBS_peek_asn1_tag cbs tag = false /\ out = default_value /\ rest = cbs) \/
  (valid_tag tag /\ exists b : bool, out = Z.b2z b /\
     cbs = der_element tag (der_element CBS_ASN1_BOOLEAN [if b then 0xff else 0]) ++ rest).
Proof.
  intros Hok. unfold CBS_get_optional_asn1_bool, rbind, CBS_len, CBS_data. split.
  - destruct (CBS_get_optional_asn1 tag cbs) as [[o|] r] eqn:Eo; [|done].
    apply optional_asn1_iff in Eo; [|done]. destruct o as [child|].
    + destruct Eo as (Ht & Hc & ->). apply der_contents_ok in Hok as [Hok _].
      destruct (CBS_get_asn1 CBS_ASN1_BOOLEAN child) as [[c|] r'] eqn:Ec; [|done].
      apply CBS_get_asn1_inv in Ec as (_ & Hc2 & ->); [|done].
      case_if; [done|]. intros Hb. right. split; [done|].
      assert (r' = []) as -> by (apply zlen_0; lia).
      destruct c as [|x [|y c]]; [cbn in *; lia| |cbn [length] in *; lia].
      change (zget [x] 0) with x in Hb. rewrite app_nil_r.
      unfold rret in Hb. repeat case_if_in Hb; simplify_eq.
      * by exists false.
      * by exists true.
    + destruct Eo as [Ep ->]. intros H. left. by injection H as <- <-.
  - intros [(Ep & -> & ->)|(Ht & b & -> & ->)].
    + by rewrite (proj2 (optional_asn1_iff tag cbs None cbs Hok)).
    + rewrite (proj2 (optional_asn1_iff tag _
        (Some (der_element CBS_ASN1_BOOLEAN [if b then 0xff else 0])) rest Hok)).
      2: { by split. }
      rewrite <- (app_nil_r (der_element CBS_ASN1_BOOLEAN _)).
      rewrite CBS_get_asn1_der by done. by destruct b.
Qed.

Lemma CBS_get_optional_asn1_bool_spec_witness :
  let cbs := [0xa0; 3; 1; 1; 0xff] in
  bytes_ok cbs /\ CBS_get_optional_asn1_bool 0xa0 0 cbs = (Some 1, []).
Proof.
  assert (Hok : bytes_ok [0xa0; 3; 1; 1; 0xff]) by (repeat constructor; done).
  split; [exact Hok|].
  apply (CBS_get_optional_asn1_bool_spec _ 0xa0 0 1 [] Hok).
  right. split; [by split|]. by exists true.
Defined.

(** [CBS_get_u8/u16/u24_length_prefixed] succeed exactly on a big-endian
    length of their width followed by that many bytes, return those bytes and
    advance past them; so reading back what a length-prefixed writer emits
    returns the contents, and no other input is accepted. *)
Theorem CBS_get_length_prefixed_spec n cbs c rest : bytes_ok cbs ->
  In n [1; 2; 3] ->
  (match n with 1 => CBS_get_u8_length_prefixed | 2 => CBS_get_u16_length_prefixed
   | _ => CBS_get_u24_length_prefixed end) cbs = (Some c, rest) <->
  zlen c < 256 ^ n /\ cbs = be_bytes (Z.to_nat n) (zlen c) ++ c ++ rest.
Proof.
  intros Hok Hn.
  destruct Hn as [<- | [<- | [<- | []]]]; by apply length_prefixed_iff.
Qed.

Lemma CBS_get_length_prefixed_spec_witness :
  bytes_ok [0; 2; 5; 6; 7] /\ CBS_get_u16_length_prefixed [0; 2; 5; 6; 7] = (Some [5; 6], [7]).
Proof.
  assert (Hok : bytes_ok [0; 2; 5; 6; 7]) by (repeat constructor; done).
  split; [exact Hok|].
  apply (CBS_get_length_prefixed_spec 2 _ [5; 6] [7] Hok); [by right; left|].
  by split.
Defined.

(** [CBS_asn1_bitstring_has_bit] on the contents of a BIT STRING: a string
    is valid when its first octet is 0, or at most 7 with at least one octet
    after it whose that many low bits are zero; in a valid string bit [i] is
    bit [7 - i mod 8] of octet [i / 8] of the string proper, false beyond the
    end, and in particular false at every unused position; an invalid string
    has no bits. The 32-bit arithmetic on [bit] never wraps. *)
Theorem CBS_asn1_bitstring_has_bit_spec cbs bit : bytes_ok cbs -> is_u 32 bit ->
  (CBS_is_valid_asn1_bitstring cbs = true <->
   exists unused s, cbs = unused :: s /\
     (unused = 0 \/ unused <= 7 /\ exists s' last, s = s' ++ [last] /\
        forall i, 0 <= i < unused -> Z.testbit last i = false)) /\
  CBS_asn1_bitstring_has_bit cbs bit =
    CBS_is_valid_asn1_bitstring cbs && (bit / 8 <? zlen cbs - 1) &&
    Z.testbit (zget (tail cbs) (bit / 8)) (7 - bit mod 8).
Proof.
  intros Hok [Hb0 Hb1]. split.
  - unfold CBS_is_valid_asn1_bitstring. destruct cbs as [|u s].
    { split; [done|]. by intros (? & ? & ? & _). }
    apply Forall_cons_iff in Hok as [[Hu0 Hu1] Hs].
    rewrite CBS_get_u8_cons. case_if.
    { split; [done|]. intros (? & ? & [= <- <-] & H). lia. }
    case_if. { split; [|done]. intros _. exists 0, s. split; [by subst u|by left]. }
    unfold CBS_get_last_u8. destruct s as [|last s' _] using rev_ind.
    { split; [done|]. intros (? & ? & [= <- <-] & [?|[_ (s' & x & H & _)]]); [done|].
      by destruct s'. }
    case_if; [zlia|]. rewrite length_app, zget_app_r by (cbn [length]; lia).
    replace (_ - 1 - _) with 0 by (cbn [length]; lia). change (zget [last] 0) with last.
    rewrite Z.eqb_eq. split.
    + intros Hl. exists u, (s' ++ [last]). split; [done|]. right. split; [lia|].
      exists s', last. split; [done|]. intros i Hi. by apply (land_mask_0 _ u).
    + intros (? & ? & [= <- <-] & [?|[_ (s2 & x & H & Hx)]]); [done|].
      apply app_inj_tail in H as [<- <-]. apply Z.bits_inj'. intros i Hi.
      rewrite Z.shiftl_1_l, Z.sub_1_r, <- Z.ones_equiv, Z.land_spec, Z.testbit_0_l.
      destruct (Z.lt_ge_cases i u); [by rewrite Hx|].
      rewrite Z.ones_spec_high by lia. apply andb_false_r.
  - unfold CBS_asn1_bitstring_has_bit, CBS_len, CBS_data.
    destruct (CBS_is_valid_asn1_bitstring cbs) eqn:Ev; [|done]. cbn [negb andb].
    destruct cbs as [|u s]; [done|]. cbn [tail]. rewrite length_cons, Nat2Z.inj_succ.
    rewrite Z.shiftr_div_pow2 by lia. change (2 ^ 3) with 8.
    assert (0 <= bit / 8 < 2 ^ 29) by
      (split; [apply Z.div_pos; lia|apply Z.div_lt_upper_bound; lia]).
    rewrite u32_small by (split; lia). change (Z.land bit 7) with (Z.land bit (Z.ones 3)).
    rewrite Z.land_ones by lia. change (2 ^ 3) with 8.
    rewrite land_shiftl_1 by (pose proof (Z.mod_pos_bound bit 8); lia).
    rewrite negb_involutive, zget_cons by lia. f_equal; [lia|]. do 2 f_equal. lia.
Qed.

Lemma CBS_asn1_bitstring_has_bit_spec_witness :
  bytes_ok [6; 0x40] /\ CBS_asn1_bitstring_has_bit [6; 0x40] 1 = true.
Proof.
  assert (Hok : bytes_ok [6; 0x40]) by (repeat constructor; done).
  split; [exact Hok|].
  rewrite (proj2 (CBS_asn1_bitstring_has_bit_spec _ 1 Hok ltac:(split; lia))).
  reflexivity.
Defined.
