(* ===== verification/Cbb.v ===== *)
(** The byte builder: crypto/bytestring/cbb.c. [CBB] objects live in a store at
    locations (the addresses of the callers' variables) and share one growable
    buffer, [cbb_buffer]; a child object stands for contents whose length prefix
    is still pending. Reading a missing object or a freed buffer, writing out of
    the buffer's bounds and a failed [assert] are undefined behaviour ([None] in
    the state monad). The abstract specification is a stack of open frames; the
    operations are shown to refine it without ever being undefined. *)

From Stdlib Require Import ZArith Lia.
From stdpp Require Import base list option gmap.
From S2P Require Import Prelude Mem Cbs.

(** * The buffer *)

Record cbb_buffer := mk_buffer {
  buf : bytes;
  len : Z;
  cap : Z;
  can_resize : bool;
  error : bool
}.

Definition set_buf (b : cbb_buffer) (x : bytes) : cbb_buffer :=
  mk_buffer x (len b) (cap b) (can_resize b) (error b).
Definition set_len (b : cbb_buffer) (n : Z) : cbb_buffer :=
  mk_buffer (buf b) n (cap b) (can_resize b) (error b).
Definition set_error (b : cbb_buffer) : cbb_buffer :=
  mk_buffer (buf b) (len b) (cap b) (can_resize b) true.

(** An access of [n] bytes at index [i] of the buffer is within its bounds. *)
Definition in_bounds (b : cbb_buffer) (i n : Z) : bool :=
  (0 <=? i) && (i + n <=? zlen (buf b)).

(** [memcpy(base->buf + i, v, ...)]. *)
Definition poke (i : Z) (v : bytes) (b : cbb_buffer) : option cbb_buffer :=
  if in_bounds b i (zlen v) then Some (set_buf b (zsplice (buf b) i v)) else None.

(** [OPENSSL_memmove(base->buf + dst, base->buf + src, n)]. *)
Definition memmove (dst src n : Z) (b : cbb_buffer) : option cbb_buffer :=
  if in_bounds b src n then poke dst (ztake n (zdrop src (buf b))) b else None.

(** The loop [for (i = n - 1; i < n; i--) { buf[pos + i] = v; v >>= 8; }]:
    the value left in [v] and the buffer. *)
Fixpoint write_be (pos : Z) (n : nat) (v : Z) (b : cbb_buffer) : option (Z * cbb_buffer) :=
  match n with
  | O => Some (v, b)
  | S i => match poke (pos + Z.of_nat i) [u8 v] b with
           | None => None
           | Some b => write_be pos i (Z.shiftr v 8) b
           end
  end.

(** Result: the index [*out] points to, on success. *)
Definition cbb_buffer_reserve (malloc : allocator) (n : Z) (base : cbb_buffer) :
    option Z * cbb_buffer :=
  let newlen := u64 (len base + n) in
  if newlen <? len base then (None, set_error base)
  else if newlen >? cap base then
    let newcap := u64 (cap base * 2) in
    if negb (can_resize base) then (None, set_error base)
    else
      let newcap := if (newcap <? cap base) || (newcap <? newlen) then newlen else newcap in
      match realloc malloc (buf base) newcap with
      | None => (None, set_error base)
      | Some newbuf =>
          (Some (len base), mk_buffer newbuf (len base) newcap (can_resize base) (error base))
      end
  else (Some (len base), base).

Definition cbb_buffer_add (malloc : allocator) (n : Z) (base : cbb_buffer) :
    option Z * cbb_buffer :=
  match cbb_buffer_reserve malloc n base with
  | (None, base) => (None, base)
  | (Some out, base) => (Some out, set_len base (u64 (len base + n)))
  end.

Definition cbb_buffer_add_u (malloc : allocator) (v len_len : Z) (base : cbb_buffer) :
    option (bool * cbb_buffer) :=
  if len_len =? 0 then Some (true, base)
  else match cbb_buffer_add malloc len_len base with
       | (None, base) => Some (false, base)
       | (Some out, base) =>
           match write_be out (Z.to_nat len_len) v base with
           | None => None
           | Some (v, base) =>
               if negb (v =? 0) then Some (false, set_error base) else Some (true, base)
           end
       end.

(** * The store *)

Abbreviation loc := positive.

(** [base] is whether the pointer is not NULL: all objects share one buffer. *)
Record CBB := mk_CBB {
  base : bool;
  child : option loc;
  offset : Z;
  pending_len_len : Z;
  pending_is_asn1 : bool;
  is_top_level : bool
}.

Record store := mk_store {
  the_base : option cbb_buffer;
  cbbs : gmap loc CBB
}.

Definition zero_CBB : CBB := mk_CBB false None 0 0 false false.

Definition set_base (c : CBB) (x : bool) : CBB :=
  mk_CBB x (child c) (offset c) (pending_len_len c) (pending_is_asn1 c) (is_top_level c).
Definition set_child (c : CBB) (x : option loc) : CBB :=
  mk_CBB (base c) x (offset c) (pending_len_len c) (pending_is_asn1 c) (is_top_level c).
Definition set_prefix (c : CBB) (off pending : Z) : CBB :=
  mk_CBB (base c) (child c) off pending (pending_is_asn1 c) (is_top_level c).

Definition load (l : loc) : M store CBB := fun s =>
  match cbbs s !! l with None => None | Some c => Some (c, s) end.
Definition assign (l : loc) (c : CBB) : M store unit := fun s =>
  Some (tt, mk_store (the_base s) (<[l := c]> (cbbs s))).

(** The end of the scope of a local variable. *)
Definition dispose (l : loc) : M store unit := fun s =>
  Some (tt, mk_store (the_base s) (delete l (cbbs s))).

(** [cbb->base->...]: undefined when the pointer is NULL or the buffer freed. *)
Definition load_base (c : CBB) : M store cbb_buffer := fun s =>
  match base c, the_base s with
  | true, Some b => Some (b, s)
  | _, _ => None
  end.
Definition assign_base (b : cbb_buffer) : M store unit := fun s =>
  Some (tt, mk_store (Some b) (cbbs s)).

(** [cbb->base->error = 1; return 0]. *)
Definition fail_base (c : CBB) : M store bool :=
  let* b := load_base c in
  assign_base (set_error b) ;;;
  sret false.

(** * Operations *)

Definition CBB_zero (cbb : loc) : M store unit := assign cbb zero_CBB.

(** [malloc_ok]: the outcome of the allocation of the [cbb_buffer_st]. *)
Definition cbb_init (malloc_ok : bool) (cbb : loc) (data : bytes) (n : Z) : M store bool :=
  if negb malloc_ok then sret false
  else
    assign_base (mk_buffer data 0 n true false) ;;;
    let* c := load cbb in
    assign cbb (mk_CBB true (child c) (offset c) (pending_len_len c) (pending_is_asn1 c) true) ;;;
    sret true.

Definition CBB_init (malloc : allocator) (malloc_ok : bool) (cbb : loc)
    (initial_capacity : Z) : M store bool :=
  CBB_zero cbb ;;;
  match malloc initial_capacity with
  | None =>
      if initial_capacity >? 0 then sret false
      else cbb_init malloc_ok cbb [] initial_capacity
  | Some data => cbb_init malloc_ok cbb data initial_capacity
  end.

Definition CBB_init_fixed (malloc_ok : bool) (cbb : loc) (data : bytes) (n : Z) : M store bool :=
  CBB_zero cbb ;;;
  let* ok := cbb_init malloc_ok cbb data n in
  if negb ok then sret false
  else
    let* c := load cbb in
    let* b := load_base c in
    assign_base (mk_buffer (buf b) (len b) (cap b) false (error b)) ;;;
    sret true.

Definition CBB_cleanup (cbb : loc) : M store unit :=
  let* c := load cbb in
  (if base c then
     if negb (is_top_level c) then sstuck
     else let* _ := load_base c in fun s => Some (tt, mk_store None (cbbs s))
   else sret tt) ;;;
  assign cbb (set_base c false).

(** The ASN.1 length octets of a child: makes room for the long form, writes
    the first octet; the result is the value left to write after it, or [None]
    on error. *)
Definition cbb_flush_asn1 (malloc : allocator) (c : CBB) (ch : loc) (child_start n : Z) :
    M store (option Z) :=
  let* k := load ch in
  if negb (pending_len_len k =? 1) then sstuck
  else
    let finish len_len initial_length_byte n :=
      let* k := load ch in
      let* b := load_base c in
      let* b := slift (poke (offset k) [initial_length_byte] b) in
      assign_base b ;;;
      assign ch (set_prefix k (u64 (offset k + 1)) (u8 (len_len - 1))) ;;;
      sret (Some n) in
    let move len_len initial_length_byte :=
      let extra_bytes := len_len - 1 in
      let* b := load_base c in
      match cbb_buffer_add malloc extra_bytes b with
      | (None, b) => assign_base b ;;; sret None
      | (Some _, b) =>
          let* b := slift (memmove (child_start + extra_bytes) child_start n b) in
          assign_base b ;;;
          finish len_len initial_length_byte n
      end in
    if n >? 0xfffffffe then sret None
    else if n >? 0xffffff then move 5 (Z.lor 0x80 4)
    else if n >? 0xffff then move 4 (Z.lor 0x80 3)
    else if n >? 0xff then move 3 (Z.lor 0x80 2)
    else if n >? 0x7f then move 2 (Z.lor 0x80 1)
    else finish 1 (u8 n) 0.

(** The end of [CBB_flush]: the child [ch] of [cbb] has no child of its own, and
    its length prefix is written. *)
Definition cbb_flush_child (malloc : allocator) (c : CBB) (cbb ch : loc)
    (child_start : Z) : M store bool :=
  let* k := load ch in
  let* b := load_base c in
  let n := u64 (len b - child_start) in
  let* r := if pending_is_asn1 k then cbb_flush_asn1 malloc c ch child_start n
            else sret (Some n) in
  match r with
  | None => fail_base c
  | Some n =>
      let* k := load ch in
      let* b := load_base c in
      let* (n, b) := slift (write_be (offset k) (Z.to_nat (pending_len_len k)) n b) in
      assign_base b ;;;
      if negb (n =? 0) then fail_base c
      else
        assign ch (set_base k false) ;;;
        assign cbb (set_child c None) ;;;
        sret true
  end.

(** [CBB_flush], with the depth of recursion as fuel. *)
Fixpoint cbb_flush (malloc : allocator) (fuel : nat) (cbb : loc) : M store bool :=
  match fuel with
  | O => sstuck
  | S fuel =>
      let* c := load cbb in
      if negb (base c) then sret false
      else
        let* b := load_base c in
        if error b then sret false
        else match child c with
        | None => sret true
        | Some ch =>
            let* k := load ch in
            if pending_len_len k =? 0 then sret true
            else
              let child_start := u64 (offset k + pending_len_len k) in
              let* flushed := cbb_flush malloc fuel ch in
              let* k := load ch in
              let* b := load_base c in
              if negb flushed || (child_start <? offset k) || (len b <? child_start)
              then fail_base c
              else cbb_flush_child malloc c cbb ch child_start
        end
  end.

(** The chain of children has at most as many objects as the store. *)
Definition CBB_flush (malloc : allocator) (cbb : loc) : M store bool :=
  fun s => cbb_flush malloc (S (size (cbbs s))) cbb s.

(** [out_data] and [out_len]: whether the pointers are not NULL. Result: the
    values they receive. *)
Definition CBB_finish (malloc : allocator) (cbb : loc) (out_data out_len : bool) :
    M store (option (option bytes * option Z)) :=
  let* c := load cbb in
  if negb (is_top_level c) then sret None
  else
    let* ok := CBB_flush malloc cbb in
    if negb ok then sret None
    else
      let* c := load cbb in
      let* b := load_base c in
      if can_resize b && (negb out_data || negb out_len) then sret None
      else
        assign_base (set_buf b []) ;;;
        CBB_cleanup cbb ;;;
        sret (Some (if out_data then Some (buf b) else None,
                    if out_len then Some (len b) else None)).

(** Result: the index in the buffer the pointer designates. *)
Definition CBB_data (cbb : loc) : M store Z :=
  let* c := load cbb in
  match child c with
  | Some _ => sstuck
  | None => let* _ := load_base c in sret (offset c + pending_len_len c)
  end.

Definition CBB_len (cbb : loc) : M store Z :=
  let* c := load cbb in
  match child c with
  | Some _ => sstuck
  | None =>
      let* b := load_base c in
      if negb (u64 (offset c + pending_len_len c) <=? len b) then sstuck
      else sret (u64 (u64 (len b - offset c) - pending_len_len c))
  end.

(** Appends a child to [cbb], which has just been flushed. *)
Definition open_child (cbb out_contents : loc) (off len_len : Z) (asn1 : bool) : M store bool :=
  assign out_contents (mk_CBB true None off len_len asn1 false) ;;;
  let* c := load cbb in
  assign cbb (set_child c (Some out_contents)) ;;;
  sret true.

Definition cbb_add_length_prefixed (malloc : allocator) (cbb out_contents : loc)
    (len_len : Z) : M store bool :=
  let* ok := CBB_flush malloc cbb in
  if negb ok then sret false
  else
    let* c := load cbb in
    let* b := load_base c in
    let off := len b in
    match cbb_buffer_add malloc len_len b with
    | (None, b) => assign_base b ;;; sret false
    | (Some prefix_bytes, b) =>
        let* b := slift (poke prefix_bytes (zrepeat len_len 0) b) in
        assign_base b ;;;
        open_child cbb out_contents off len_len false
    end.

Definition CBB_add_u8_length_prefixed (malloc : allocator) (cbb out_contents : loc) :
    M store bool := cbb_add_length_prefixed malloc cbb out_contents 1.
Definition CBB_add_u16_length_prefixed (malloc : allocator) (cbb out_contents : loc) :
    M store bool := cbb_add_length_prefixed malloc cbb out_contents 2.
Definition CBB_add_u24_length_prefixed (malloc : allocator) (cbb out_contents : loc) :
    M store bool := cbb_add_length_prefixed malloc cbb out_contents 3.

(** Flushes, then runs an operation of the buffer. *)
Definition cbb_add_u (malloc : allocator) (cbb : loc) (value len_len : Z) : M store bool :=
  let* ok := CBB_flush malloc cbb in
  if negb ok then sret false
  else
    let* c := load cbb in
    let* b := load_base c in
    let* (ok, b) := slift (cbb_buffer_add_u malloc value len_len b) in
    assign_base b ;;;
    sret ok.

Definition CBB_add_u8 (malloc : allocator) (cbb : loc) (value : Z) : M store bool :=
  cbb_add_u malloc cbb value 1.
Definition CBB_add_u16 (malloc : allocator) (cbb : loc) (value : Z) : M store bool :=
  cbb_add_u malloc cbb value 2.
Definition CBB_add_u24 (malloc : allocator) (cbb : loc) (value : Z) : M store bool :=
  cbb_add_u malloc cbb value 3.
Definition CBB_add_u32 (malloc : allocator) (cbb : loc) (value : Z) : M store bool :=
  cbb_add_u malloc cbb value 4.

Definition CBB_add_asn1 (malloc : allocator) (cbb out_contents : loc) (tag : Z) :
    M store bool :=
  if (tag >? 0xff) || (Z.land tag 0x1f =? 0x1f) then
    let* c := load cbb in fail_base c
  else
    let* ok := CBB_flush malloc cbb in
    if negb ok then sret false
    else
      let* ok := CBB_add_u8 malloc cbb (u8 tag) in
      if negb ok then sret false
      else
        let* c := load cbb in
        let* b := load_base c in
        let off := len b in
        let* ok := CBB_add_u8 malloc cbb 0 in
        if negb ok then sret false
        else open_child cbb out_contents off 1 true.

(** The common part of [CBB_add_bytes], [CBB_add_space]: the index of the new
    bytes, on success. *)
Definition CBB_add_space (malloc : allocator) (cbb : loc) (n : Z) : M store (option Z) :=
  let* ok := CBB_flush malloc cbb in
  if negb ok then sret None
  else
    let* c := load cbb in
    let* b := load_base c in
    let '(out, b) := cbb_buffer_add malloc n b in
    assign_base b ;;;
    sret out.

Definition CBB_add_bytes (malloc : allocator) (cbb : loc) (data : bytes) (n : Z) :
    M store bool :=
  let* out := CBB_add_space malloc cbb n in
  match out with
  | None => sret false
  | Some dest =>
      let* c := load cbb in
      let* b := load_base c in
      let* b := slift (poke dest (ztake n data) b) in
      assign_base b ;;;
      sret true
  end.

Definition CBB_reserve (malloc : allocator) (cbb : loc) (n : Z) : M store (option Z) :=
  let* ok := CBB_flush malloc cbb in
  if negb ok then sret None
  else
    let* c := load cbb in
    let* b := load_base c in
    let '(out, b) := cbb_buffer_reserve malloc n b in
    assign_base b ;;;
    sret out.

Definition CBB_did_write (cbb : loc) (n : Z) : M store bool :=
  let* c := load cbb in
  let* b := load_base c in
  let newlen := u64 (len b + n) in
  if match child c with Some _ => true | None => false end
     || (newlen <? len b) || (newlen >? cap b) then sret false
  else assign_base (set_len b newlen) ;;; sret true.

Definition CBB_discard_child (cbb : loc) : M store unit :=
  let* c := load cbb in
  match child c with
  | None => sret tt
  | Some ch =>
      let* b := load_base c in
      let* k := load ch in
      assign_base (set_len b (offset k)) ;;;
      assign ch (set_base k false) ;;;
      assign cbb (set_child c None)
  end.

(** The loop of [CBB_add_asn1_uint64] from [i = 8 - n]: [started] and whether
    it completed. *)
Fixpoint asn1_uint64_bytes (malloc : allocator) (child : loc) (value : Z) (n : nat)
    (started : bool) : M store (bool * bool) :=
  match n with
  | O => sret (started, true)
  | S n =>
      let byte := Z.land (Z.shiftr value (8 * Z.of_nat n)) 0xff in
      if negb started && (byte =? 0) then asn1_uint64_bytes malloc child value n false
      else
        let* ok := if negb started && negb (Z.land byte 0x80 =? 0)
                   then CBB_add_u8 malloc child 0 else sret true in
        if negb ok then sret (started, false)
        else
          let* ok := CBB_add_u8 malloc child byte in
          if negb ok then sret (true, false)
          else asn1_uint64_bytes malloc child value n true
  end.

(** [child] is the location of the local variable. *)
Definition CBB_add_asn1_uint64 (malloc : allocator) (cbb child : loc) (value : Z) :
    M store bool :=
  let* r :=
    (let* ok := CBB_add_asn1 malloc cbb child CBS_ASN1_INTEGER in
     if negb ok then sret false
     else
       let* (started, ok) := asn1_uint64_bytes malloc child value 8 false in
       if negb ok then sret false
       else
         let* ok := if negb started then CBB_add_u8 malloc child 0 else sret true in
         if negb ok then sret false
         else CBB_flush malloc cbb) in
  dispose child ;;;
  sret r.

(** * The abstract specification

    Frames from the top-level object down to the innermost open child: the
    pending prefix and the bytes written so far. *)

Inductive prefix := Top | Fixed (n : Z) | Asn1.

Abbreviation frames := (list (prefix * bytes)).

Definition pending (k : prefix) : Prop :=
  match k with Top => False | Fixed n => 1 <= n <= 3 | Asn1 => True end.

(** The space reserved for a prefix. *)
Definition plen (k : prefix) : Z :=
  match k with Top => 0 | Fixed n => n | Asn1 => 1 end.

(** A closed frame, when its contents are not too long for the prefix. *)
Definition enc1 (k : prefix) (body : bytes) : option bytes :=
  match k with
  | Top => None
  | Fixed n => if zlen body <? 256 ^ n
               then Some (be_bytes (Z.to_nat n) (zlen body) ++ body) else None
  | Asn1 => if zlen body <=? 0xfffffffe
            then Some (der_length (zlen body) ++ body) else None
  end.

Fixpoint enc (fs : frames) : option bytes :=
  match fs with
  | [] => Some []
  | (k, c) :: fs => match enc fs with None => None | Some e => enc1 k (c ++ e) end
  end.

(** * The representation of frames in the store *)

Fixpoint layout (fs : frames) : bytes :=
  match fs with
  | [] => []
  | (k, c) :: fs => zrepeat (plen k) 0 ++ c ++ layout fs
  end.

Definition buf_ok (b : cbb_buffer) : Prop :=
  0 <= len b <= cap b /\ zlen (buf b) = cap b /\ is_u 64 (cap b).

Definition contents (b : cbb_buffer) : bytes := ztake (len b) (buf b).

Definition obj_ok (o : CBB) (k : prefix) (p : Z) : Prop :=
  base o = true /\ offset o = p /\ pending_len_len o = plen k /\
  pending_is_asn1 o = (match k with Asn1 => true | _ => false end) /\
  is_top_level o = (match k with Top => true | _ => false end).

Fixpoint chain (h : gmap loc CBB) (p : Z) (ls : list loc) (fs : frames) : Prop :=
  match ls, fs with
  | [], [] => True
  | l :: ls, (k, c) :: fs =>
      (exists o, h !! l = Some o /\ obj_ok o k p /\ child o = head ls) /\
      chain h (p + plen k + zlen c) ls fs
  | _, _ => False
  end.

Definition represents (s : store) (ls : list loc) (fs : frames) : Prop :=
  exists b, the_base s = Some b /\ buf_ok b /\ error b = false /\
    contents b = layout fs /\ NoDup ls /\ chain (cbbs s) 0 ls fs /\
    match fs with (Top, _) :: fs => Forall (fun f => pending f.1) fs | _ => False end.

(** A child that has been flushed or discarded. *)
Definition stale (h : gmap loc CBB) (l : loc) : Prop :=
  exists o, h !! l = Some o /\ base o = false.

(** What operations keep of the buffer, and the sizes it can grow to. *)
Definition ext (b b' : cbb_buffer) : Prop :=
  can_resize b' = can_resize b /\ (can_resize b = false -> cap b' = cap b).

Definition can_hold (malloc : allocator) (b : cbb_buffer) (n : Z) : Prop :=
  n < 2 ^ 64 /\
  if can_resize b then forall m, is_u 64 m -> malloc m <> None else n <= cap b.

(** * Lemmas: the buffer *)

Lemma contents_len b : buf_ok b -> zlen (contents b) = len b.
Proof. intros (? & ? & _). unfold contents. zlia. Qed.

Lemma buf_contents b : buf b = contents b ++ zdrop (len b) (buf b).
Proof. symmetry. apply ztake_zdrop. Qed.

Lemma ext_refl b : ext b b.
Proof. done. Qed.

Lemma ext_trans b1 b2 b3 : ext b1 b2 -> ext b2 b3 -> ext b1 b3.
Proof.
  intros [H1 H2] [H3 H4]. split; [congruence|]. intros H.
  rewrite H4 by congruence. auto.
Qed.

Lemma can_hold_ext malloc b b' n : ext b b' -> can_hold malloc b' n <-> can_hold malloc b n.
Proof.
  intros [H1 H2]. unfold can_hold. rewrite H1. destruct (can_resize b); [done|].
  by rewrite H2.
Qed.

Lemma can_hold_le malloc b n m : n <= m -> can_hold malloc b m -> can_hold malloc b n.
Proof.
  intros Hle [H1 H2]. split; [lia|]. destruct (can_resize b); [done|lia].
Qed.

Lemma poke_contents b x m z i v :
  buf_ok b -> contents b = x ++ m ++ z -> zlen x = i -> zlen v = zlen m ->
  exists b', poke i v b = Some b' /\ buf_ok b' /\ ext b b' /\ error b' = error b /\
    contents b' = x ++ v ++ z.
Proof.
  intros Hb Hc Hx Hv. pose proof (contents_len b Hb) as Hl. rewrite Hc in Hl.
  pose proof (buf_contents b) as Hbuf. rewrite Hc in Hbuf.
  unfold poke, in_bounds. rewrite andb_true_intro.
  2: { rewrite Hbuf. split; apply Z.leb_le; zlia. }
  eexists. split; [done|].
  assert (Hs : zsplice (buf b) i v = (x ++ v ++ z) ++ zdrop (len b) (buf b)).
  { rewrite Hbuf at 1. rewrite <- !app_assoc. rewrite zsplice_app by done. done. }
  destruct Hb as (H1 & H2 & H3). unfold contents. cbn. rewrite Hs. split.
  { split; [done|]. split; [|done]. cbn.
    apply (f_equal (fun l => zlen l)) in Hbuf. cbv beta in Hbuf. zlia. }
  split; [done|]. split; [done|]. rewrite ztake_app by zlia. done.
Qed.

Lemma write_be_contents n v b x m z pos :
  buf_ok b -> contents b = x ++ m ++ z -> zlen x = pos -> length m = n ->
  exists b', write_be pos n v b = Some (v / 256 ^ Z.of_nat n, b') /\
    buf_ok b' /\ ext b b' /\ error b' = error b /\ contents b' = x ++ be_bytes n v ++ z.
Proof.
  revert v b m z. induction n as [|n IH]; intros v b m z Hb Hc Hx Hm.
  - destruct m; [|done]. exists b. rewrite Z.div_1_r. done.
  - destruct m as [|y m _] using rev_ind; [done|]. rewrite length_app in Hm. cbn in Hm.
    cbn [write_be]. rewrite <- app_assoc, app_assoc in Hc.
    destruct (poke_contents b (x ++ m) [y] z (pos + Z.of_nat n) [u8 v] Hb Hc)
      as (b1 & -> & Hb1 & Hext & Herr & Hc1); [zlia|done|].
    rewrite <- app_assoc in Hc1. rewrite Z.shiftr_div_pow2 by lia. change (2 ^ 8) with 256.
    destruct (IH (v / 256) b1 m ([u8 v] ++ z) Hb1 Hc1 Hx ltac:(lia))
      as (b2 & -> & Hb2 & Hext2 & Herr2 & Hc2).
    exists b2. split.
    { rewrite Nat2Z.inj_succ, Z.pow_succ_r, Zdiv_Zdiv by lia. done. }
    split_and!; [done|by eapply ext_trans|congruence|].
    rewrite Hc2, be_bytes_S, <- app_assoc, u8_mod. done.
Qed.

Lemma memmove_contents b x body e src n extra :
  buf_ok b -> contents b = x ++ body ++ e -> zlen x = src -> zlen body = n ->
  zlen e = extra ->
  exists y b', memmove (src + extra) src n b = Some b' /\ buf_ok b' /\ ext b b' /\
    error b' = error b /\ zlen y = extra /\ contents b' = x ++ y ++ body.
Proof.
  intros Hb Hc Hx Hn He. pose proof (contents_len b Hb) as Hl. rewrite Hc in Hl.
  pose proof (buf_contents b) as Hbuf. rewrite Hc in Hbuf.
  pose proof (f_equal (fun l => zlen l) Hbuf) as Hbl. cbv beta in Hbl.
  unfold memmove, in_bounds.
  replace ((0 <=? src) && (src + n <=? zlen (buf b))) with true
    by (symmetry; apply andb_true_intro; split; apply Z.leb_le; zlia).
  replace (ztake n (zdrop src (buf b))) with body.
  2: { rewrite Hbuf, <- app_assoc, zdrop_app, <- app_assoc by done.
       symmetry. by apply ztake_app. }
  destruct (zsplit extra (body ++ e)) as (y & y' & Hy & Hyl); [zlia|].
  pose proof (f_equal (fun l => zlen l) Hy) as Hyy. cbv beta in Hyy.
  destruct (poke_contents b (x ++ y) y' [] (src + extra) body Hb)
    as (b' & -> & Hb' & Hext & Herr & Hc').
  { by rewrite app_nil_r, <- app_assoc, <- Hy. }
  { zlia. } { zlia. }
  exists y, b'. rewrite app_nil_r, <- app_assoc in Hc'. done.
Qed.

Lemma reserve_spec malloc n b :
  alloc_ok malloc -> buf_ok b -> is_u 64 n ->
  match cbb_buffer_reserve malloc n b with
  | (Some out, b') =>
      out = len b /\ buf_ok b' /\ ext b b' /\ error b' = error b /\ len b' = len b /\
      contents b' = contents b /\ len b + n <= cap b'
  | (None, b') => b' = set_error b /\ ~ can_hold malloc b (len b + n)
  end.
Proof.
  intros Hm Hb Hn. pose proof Hb as ([Hl0 Hl] & Hz & [Hc0 Hc]). pose proof Hn as [Hn0 Hn1].
  unfold cbb_buffer_reserve. rewrite !u64_mod. change 18446744073709551616 with (2 ^ 64).
  set (w := 2 ^ 64) in *. assert (Hw : w = 2 ^ 64) by reflexivity. clearbody w.
  destruct (Z.lt_ge_cases (len b + n) w) as [Hlt|Hge].
  2: { replace ((len b + n) mod w) with (len b + n - w)
         by (rewrite <- (Z.mod_small (len b + n - w) w), <- (Z.mod_add (len b + n - w) 1 w) by lia;
             f_equal; lia).
       case_if; [|lia]. split; [done|]. unfold can_hold. lia. }
  rewrite (Z.mod_small (len b + n)) by lia. case_if; [lia|].
  case_if; [|split_and!; try done; lia].
  case_if.
  { split; [done|]. intros [_ H]. rewrite E1 in H. lia. }
  match goal with |- context [realloc _ _ ?x] => set (newcap := x) end.
  assert (Hnc : len b + n <= newcap < w).
  { unfold newcap. pose proof (Z.mod_pos_bound (cap b * 2) w).
    case_if; lia. }
  clearbody newcap. unfold realloc. destruct (malloc newcap) as [p|] eqn:Ep.
  - destruct (Hm _ _ Ep) as [Hp _].
    split; [done|]. split.
    { split; [cbn; lia|]. split; [cbn [buf cap]; zlia|]. cbn. split; lia. }
    split; [by split; [|congruence]|]. split; [done|]. split; [done|]. split.
    + unfold contents. cbn [buf len]. rewrite (ztake_all newcap) by lia.
      apply ztake_app_le. lia.
    + cbn. lia.
  - split; [done|]. intros [_ H]. rewrite E1 in H. by apply (H newcap); [split; lia|].
Qed.

Lemma set_error_ok b : buf_ok b -> buf_ok (set_error b) /\ ext b (set_error b).
Proof. done. Qed.

Lemma add_spec malloc n b :
  alloc_ok malloc -> buf_ok b -> is_u 64 n ->
  match cbb_buffer_add malloc n b with
  | (Some out, b') =>
      out = len b /\ buf_ok b' /\ ext b b' /\ error b' = error b /\
      exists x, zlen x = n /\ contents b' = contents b ++ x
  | (None, b') => b' = set_error b /\ ~ can_hold malloc b (len b + n)
  end.
Proof.
  intros Hm Hb Hn. pose proof (reserve_spec malloc n b Hm Hb Hn) as H. unfold cbb_buffer_add.
  destruct (cbb_buffer_reserve malloc n b) as [[out|] b']; [|done].
  destruct H as (-> & Hb' & Hext & Herr & Hlen & Hc & Hcap).
  pose proof Hb' as ([? ?] & Hz & [? ?]). pose proof Hn as [Hn0 _].
  destruct Hb as ([? ?] & _ & _).
  rewrite u64_small by (split; lia).
  split; [done|]. split; [by split; [cbn; lia|]|]. split; [done|]. split; [done|].
  exists (ztake n (zdrop (len b) (buf b'))). split; [zlia|].
  rewrite <- Hc. unfold contents. cbn [buf len set_len]. rewrite Hlen.
  unfold ztake, zdrop. rewrite Z2Nat.inj_add by lia. symmetry.
  rewrite <- take_take_drop. done.
Qed.

(** * Lemmas: running the monad on a store with a live buffer *)

Lemma run_load {A} l (k : CBB -> M store A) b h c :
  h !! l = Some c -> sbind (load l) k (mk_store b h) = k c (mk_store b h).
Proof. intros H. unfold sbind, load. cbn. by rewrite H. Qed.

Lemma run_assign {A} l c (k : unit -> M store A) b h :
  sbind (assign l c) k (mk_store b h) = k tt (mk_store b (<[l := c]> h)).
Proof. done. Qed.

Lemma run_load_base {A} c (k : cbb_buffer -> M store A) b h :
  base c = true ->
  sbind (load_base c) k (mk_store (Some b) h) = k b (mk_store (Some b) h).
Proof. intros H. unfold sbind, load_base. by rewrite H. Qed.

Lemma run_assign_base {A} b' (k : unit -> M store A) b h :
  sbind (assign_base b') k (mk_store b h) = k tt (mk_store (Some b') h).
Proof. done. Qed.

Lemma run_slift {S A B} (a : A) (k : A -> M S B) s : sbind (slift (Some a)) k s = k a s.
Proof. done. Qed.

Lemma run_sret {S A B} (a : A) (k : A -> M S B) s : sbind (sret a) k s = k a s.
Proof. done. Qed.

Lemma run_bind {S A B} (m : M S A) (k : A -> M S B) a s s' :
  m s = Some (a, s') -> sbind m k s = k a s'.
Proof. intros H. unfold sbind. by rewrite H. Qed.

Lemma run_fail_base c b h : base c = true ->
  fail_base c (mk_store (Some b) h) = Some (false, mk_store (Some (set_error b)) h).
Proof. intros H. unfold fail_base. by rewrite run_load_base by done. Qed.

Ltac solve_lookup :=
  first [ eassumption | apply lookup_insert_eq
        | rewrite lookup_insert_ne by congruence; solve_lookup ].

Ltac mstep :=
  first [ rewrite run_assign | rewrite run_assign_base | rewrite run_slift | rewrite run_sret
        | erewrite run_load by solve_lookup | rewrite run_load_base by done ];
  cbv beta.

(** * Lemmas: flushing *)

Lemma pending_plen k : pending k -> 1 <= plen k <= 3.
Proof. destruct k; cbn; [done|lia|lia]. Qed.

(** The last step of the ASN.1 case: the first length octet. *)
Lemma asn1_first_octet (c : CBB) ch o b h pre m z x0 p k (n : Z) :
  base c = true -> h !! ch = Some o -> offset o = p ->
  buf_ok b -> contents b = pre ++ [m] ++ z -> zlen pre = p -> 0 <= k <= 4 ->
  exists b',
    (let* o := load ch in
     let* b := load_base c in
     let* b := slift (poke (offset o) [x0] b) in
     assign_base b ;;;
     assign ch (set_prefix o (u64 (offset o + 1)) (u8 (k + 1 - 1))) ;;;
     sret (Some n)) (mk_store (Some b) h) =
    Some (Some n, mk_store (Some b') (<[ch := set_prefix o (p + 1) k]> h)) /\
    buf_ok b' /\ ext b b' /\ error b' = error b /\ contents b' = pre ++ [x0] ++ z.
Proof.
  intros Hbase Ho Hoff Hb Hc Hp Hk. pose proof (contents_len b Hb) as Hl. rewrite Hc in Hl.
  destruct (poke_contents b pre [m] z p [x0] Hb Hc Hp eq_refl) as (b' & Hpoke & Hrest).
  exists b'. split; [|done]. do 2 mstep. rewrite Hoff, Hpoke. do 3 mstep.
  destruct Hb as ([_ ?] & _ & [_ ?]). rewrite u64_small by (split; zlia).
  rewrite u8_small by (split; lia). by replace (k + 1 - 1) with k by lia.
Qed.

Definition flush_asn1_post (malloc : allocator) (b b' : cbb_buffer) (h h' : gmap loc CBB)
    (ch : loc) (o : CBB) (pre body : bytes) (r : option Z) : Prop :=
  buf_ok b' /\ ext b b' /\
  match r with
  | Some n => error b' = error b /\ zlen body <= 0xfffffffe /\ exists k x0 y,
      h' = <[ch := set_prefix o (zlen pre + 1) k]> h /\ 0 <= k <= 4 /\ zlen y = k /\
      contents b' = pre ++ [x0] ++ y ++ body /\
      der_length (zlen body) = x0 :: be_bytes (Z.to_nat k) n /\ 0 <= n < 256 ^ k
  | None => h' = h /\
      forall e, enc1 Asn1 body = Some e -> ~ can_hold malloc b (zlen (pre ++ e))
  end.

(** The long form with [k] length octets after the first. *)
Lemma asn1_long malloc (c : CBB) ch o b h pre m body x0 k :
  alloc_ok malloc -> base c = true -> h !! ch = Some o -> offset o = zlen pre ->
  buf_ok b -> contents b = pre ++ [m] ++ body ->
  128 <= zlen body <= 0xfffffffe -> len_octets (zlen body) = k -> x0 = 128 + k ->
  exists r b' h',
    (let* b := load_base c in
     match cbb_buffer_add malloc (k + 1 - 1) b with
     | (None, b) => assign_base b ;;; sret None
     | (Some _, b) =>
         let* b := slift (memmove (zlen pre + 1 + (k + 1 - 1)) (zlen pre + 1) (zlen body) b) in
         assign_base b ;;;
         let* o := load ch in
         let* b := load_base c in
         let* b := slift (poke (offset o) [x0] b) in
         assign_base b ;;;
         assign ch (set_prefix o (u64 (offset o + 1)) (u8 (k + 1 - 1))) ;;;
         sret (Some (zlen body))
     end) (mk_store (Some b) h) = Some (r, mk_store (Some b') h') /\
    flush_asn1_post malloc b b' h h' ch o pre body r.
Proof.
  intros Hm Hbase Ho Hoff Hb Hc Hn Hk ->.
  destruct (len_octets_bounds (zlen body)) as (Hk1 & Hlt & _); [lia|]. rewrite Hk in *.
  replace (k + 1 - 1) with k by lia. mstep.
  pose proof (contents_len b Hb) as Hl. rewrite Hc in Hl.
  pose proof (add_spec malloc k b Hm Hb ltac:(split; lia)) as Hadd.
  destruct (cbb_buffer_add malloc k b) as [[out|] b1].
  - destruct Hadd as (-> & Hb1 & Hext1 & Herr1 & e & He & Hc1). rewrite Hc in Hc1.
    destruct (memmove_contents b1 (pre ++ [m]) body e (zlen pre + 1) (zlen body) k Hb1)
      as (y & b2 & -> & Hb2 & Hext2 & Herr2 & Hy & Hc2); [|zlia|done|done|].
    { rewrite Hc1. by rewrite <- !app_assoc. }
    do 2 mstep. rewrite <- app_assoc in Hc2.
    destruct (asn1_first_octet c ch o b2 h pre m (y ++ body) (128 + k) (zlen pre) k
      (zlen body)) as (b3 & Hrun & Hb3 & Hext3 & Herr3 & Hc3); try done; [lia|].
    replace (k + 1 - 1) with k in Hrun by lia. rewrite Hrun.
    eexists _, _, _. split; [done|]. split; [done|]. split.
    { eapply ext_trans; [eassumption|]. by eapply ext_trans. }
    split; [congruence|]. split; [lia|]. exists k, (128 + k), y. split_and!; try done; try lia.
    unfold der_length. case_if; [lia|]. by rewrite Hk.
  - destruct Hadd as [-> Hno]. rewrite run_assign_base.
    eexists _, _, _. split; [done|]. split; [done|]. split; [done|]. split; [done|].
    intros e He Hhold. apply Hno. eapply can_hold_le; [|exact Hhold].
    cbn [enc1] in He. case_if_in He; [|done]. injection He as <-.
    rewrite !length_app, !Nat2Z.inj_add, length_der_length by lia.
    case_if; [lia|]. rewrite Hk. autorewrite with len in Hl. lia.
Qed.

Lemma flush_asn1_spec malloc (c : CBB) ch o b h pre m body :
  alloc_ok malloc -> base c = true -> h !! ch = Some o -> obj_ok o Asn1 (zlen pre) ->
  buf_ok b -> contents b = pre ++ [m] ++ body ->
  exists r b' h',
    cbb_flush_asn1 malloc c ch (zlen pre + 1) (zlen body) (mk_store (Some b) h) =
      Some (r, mk_store (Some b') h') /\
    flush_asn1_post malloc b b' h h' ch o pre body r.
Proof.
  intros Hm Hbase Ho (_ & Hoff & Hpend & _) Hb Hc. unfold cbb_flush_asn1.
  mstep. rewrite Hpend. cbn [plen Z.eqb Pos.eqb negb].
  case_if.
  { eexists None, _, _. split; [done|]. split; [done|]. split; [done|]. split; [done|].
    intros e He. cbn [enc1] in He. by case_if_in He; [lia|]. }
  pose proof (asn1_long malloc c ch o b h pre m body) as Hlong.
  case_if; [apply (Hlong _ 4); try done; [lia|unfold len_octets; repeat case_if; lia]|].
  case_if; [apply (Hlong _ 3); try done; [lia|unfold len_octets; repeat case_if; lia]|].
  case_if; [apply (Hlong _ 2); try done; [lia|unfold len_octets; repeat case_if; lia]|].
  case_if; [apply (Hlong _ 1); try done; [lia|unfold len_octets; repeat case_if; lia]|].
  destruct (asn1_first_octet c ch o b h pre m body (u8 (zlen body)) (zlen pre) 0 0)
    as (b' & Hrun & Hb' & Hext & Herr & Hc'); try done.
  change (0 + 1 - 1) with (1 - 1) in Hrun. rewrite Hrun.
  eexists _, _, _. split; [done|]. split; [done|]. split; [done|]. split; [done|].
  split; [lia|]. exists 0, (u8 (zlen body)), []. split_and!; try done.
  unfold der_length. case_if; [|lia]. by rewrite u8_small by (split; lia).
Qed.

(** What closing a frame [k] with contents [body], at the end of the buffer
    after [pre], does when its object is [ch], the child of [cbb]. *)
Lemma flush_child_spec malloc c0 cbb ch o b h pre k body :
  alloc_ok malloc -> base c0 = true -> h !! cbb = Some c0 -> h !! ch = Some o ->
  cbb <> ch -> pending k -> obj_ok o k (zlen pre) ->
  buf_ok b -> error b = false -> contents b = pre ++ zrepeat (plen k) 0 ++ body ->
  exists ok b' h',
    cbb_flush_child malloc c0 cbb ch (zlen pre + plen k) (mk_store (Some b) h) =
      Some (ok, mk_store (Some b') h') /\
    buf_ok b' /\ ext b b' /\ (forall l, l <> cbb -> l <> ch -> h' !! l = h !! l) /\
    (forall l, is_Some (h !! l) -> is_Some (h' !! l)) /\
    if ok : bool then
      error b' = false /\ h' !! cbb = Some (set_child c0 None) /\ stale h' ch /\
      exists e, enc1 k body = Some e /\ contents b' = pre ++ e
    else
      error b' = true /\
      forall e, enc1 k body = Some e -> ~ can_hold malloc b (zlen (pre ++ e)).
Proof.
  intros Hm Hbase Hcbb Hch Hne Hk Hobj Hb Herr Hc.
  pose proof (contents_len b Hb) as Hl. rewrite Hc in Hl.
  pose proof (pending_plen k Hk) as Hpl.
  pose proof Hobj as (_ & Hoff & Hpend & Hasn1 & _).
  unfold cbb_flush_child. do 2 mstep. rewrite Hasn1.
  assert (Hn : u64 (len b - (zlen pre + plen k)) = zlen body).
  { destruct Hb as ([_ ?] & _ & [_ ?]). rewrite u64_small by (split; zlia). zlia. }
  rewrite Hn. destruct k as [|n|]; [done| |].
  - mstep. do 2 mstep. rewrite Hoff, Hpend. cbn [plen] in *.
    destruct (write_be_contents (Z.to_nat n) (zlen body) b pre (zrepeat n 0) body (zlen pre) Hb Hc)
      as (b1 & -> & Hb1 & Hext1 & Herr1 & Hc1); [done|zlia|].
    mstep. mstep. rewrite Z2Nat.id by lia. cbn [enc1].
    pose proof (Z.pow_pos_nonneg 256 n ltac:(lia) ltac:(lia)).
    destruct (Z.ltb_spec (zlen body) (256 ^ n)) as [Hlt|Hge].
    + rewrite Z.div_small by lia. cbn [Z.eqb negb]. do 2 mstep.
      eexists _, _, _. split; [done|]. split; [done|]. split; [done|]. split.
      { intros l Hl1 Hl2. by rewrite !lookup_insert_ne by done. }
      split; [intros l Hsome; rewrite !lookup_insert_is_Some'; auto|].
      split; [congruence|]. split; [apply lookup_insert_eq|]. split.
      { exists (set_base o false). split; [|done]. solve_lookup. }
      by exists (be_bytes (Z.to_nat n) (zlen body) ++ body).
    + assert (1 <= zlen body / 256 ^ n) by (apply Z.div_le_lower_bound; lia).
      case_if; [|lia]. rewrite run_fail_base by done.
      eexists _, _, _. split; [done|]. split; [done|]. split; [done|]. done.
  - destruct (flush_asn1_spec malloc c0 ch o b h pre 0 body Hm Hbase Hch Hobj Hb Hc)
      as (r & b1 & h1 & Hrun & Hb1 & Hext1 & Hr).
    cbn [plen] in *. rewrite (run_bind _ _ _ _ _ Hrun). destruct r as [n|].
    + destruct Hr as (Herr1 & Hmax & k & x0 & y & -> & Hk4 & Hy & Hc1 & Hder & Hnk).
      mstep. mstep. cbn [offset pending_len_len set_prefix].
      destruct (write_be_contents (Z.to_nat k) n b1 (pre ++ [x0]) y body (zlen pre + 1) Hb1)
        as (b2 & -> & Hb2 & Hext2 & Herr2 & Hc2);
        [by rewrite <- app_assoc|zlia|lia|].
      mstep. mstep. rewrite Z2Nat.id, Z.div_small by lia. cbn [Z.eqb negb]. do 2 mstep.
      eexists _, _, _. split; [done|]. split; [done|]. split; [by eapply ext_trans|]. split.
      { intros l Hl1 Hl2. by rewrite !lookup_insert_ne by done. }
      split; [intros l Hsome; rewrite !lookup_insert_is_Some'; auto|].
      split; [congruence|]. split; [apply lookup_insert_eq|]. split.
      { eexists. split; [rewrite lookup_insert_ne by congruence; apply lookup_insert_eq|done]. }
      exists (der_length (zlen body) ++ body). split.
      { cbn [enc1]. by case_if; [|lia]. }
      rewrite Hc2, Hder, <- app_assoc. done.
    + destruct Hr as [-> Hr]. rewrite run_fail_base by done.
      eexists _, _, _. split; [done|]. done.
Qed.

Definition flush_post (malloc : allocator) (b b' : cbb_buffer) (h h' : gmap loc CBB)
    (l : loc) (l2 : list loc) (k : prefix) (c : bytes) (f2 : frames) (pre : bytes)
    (ok : bool) : Prop :=
  buf_ok b' /\ ext b b' /\ (forall l', l' ∉ l :: l2 -> h' !! l' = h !! l') /\
  (forall l', is_Some (h !! l') -> is_Some (h' !! l')) /\
  if ok then
    error b' = false /\ Forall (stale h') l2 /\
    exists e, enc f2 = Some e /\ contents b' = pre ++ layout [(k, c ++ e)] /\
      chain h' (zlen pre) [l] [(k, c ++ e)]
  else
    error b' = true /\
    forall e, enc f2 = Some e -> ~ can_hold malloc b (zlen (pre ++ layout [(k, c ++ e)])).

Lemma layout_one k c : layout [(k, c)] = zrepeat (plen k) 0 ++ c.
Proof. cbn [layout]. by rewrite app_nil_r. Qed.

Lemma enc1_le k body e : enc1 k body = Some e -> plen k + zlen body <= zlen e.
Proof.
  destruct k as [|n|]; cbn [enc1 plen]; [done|..]; intros H; case_if_in H; try done;
    injection H as <-; [zlia|].
  rewrite length_app, Nat2Z.inj_add, length_der_length by lia.
  case_if; [lia|]. unfold len_octets. repeat case_if; lia.
Qed.

Lemma cbb_flush_spec malloc : alloc_ok malloc -> forall f2 fuel l l2 k c pre b h,
  (length l2 < fuel)%nat -> buf_ok b -> error b = false ->
  contents b = pre ++ layout ((k, c) :: f2) -> NoDup (l :: l2) ->
  chain h (zlen pre) (l :: l2) ((k, c) :: f2) -> 0 <= plen k ->
  Forall (fun f => pending f.1) f2 ->
  exists ok b' h',
    cbb_flush malloc fuel l (mk_store (Some b) h) = Some (ok, mk_store (Some b') h') /\
    flush_post malloc b b' h h' l l2 k c f2 pre ok.
Proof.
  intros Hm. induction f2 as [|[k' c'] f2 IH];
    intros fuel l l2 k c pre b h Hfuel Hb Herr Hc Hnd Hch Hpk Hpd;
    (destruct fuel as [|fuel]; [lia|]); destruct Hch as ((o & Ho & Hobj & Hchild) & Hch);
    destruct l2 as [|l' l2]; try done; cbn [cbb_flush head] in *;
    mstep; pose proof Hobj as (Hbase & _); rewrite Hbase; cbn [negb]; mstep;
    rewrite Herr, Hchild.
  { exists true, b, h. split; [done|]. split_and!; try done; auto.
    exists []. split; [done|]. rewrite app_nil_r. split; [done|]. split; [|done]. by exists o. }
  apply NoDup_cons in Hnd as [Hl Hnd]. apply Forall_cons_iff in Hpd as [Hk Hpd].
  change (pending k') in Hk. pose proof Hch as ((o' & Ho' & Hobj' & _) & _).
  pose proof Hobj' as (_ & Hoff' & Hpend' & _). pose proof (pending_plen k' Hk) as Hpl.
  pose proof (contents_len b Hb) as Hlen. rewrite Hc in Hlen.
  set (pre' := pre ++ zrepeat (plen k) 0 ++ c).
  assert (Hpre' : zlen pre' = zlen pre + plen k + zlen c) by (unfold pre'; zlia).
  rewrite <- Hpre' in *. mstep. rewrite Hoff', Hpend'. case_if; [lia|].
  assert (Hstart : u64 (zlen pre' + plen k') = zlen pre' + plen k').
  { destruct Hb as ([_ ?] & _ & [_ ?]). cbn [layout] in Hlen. apply u64_small. split; zlia. }
  rewrite Hstart.
  assert (Hc' : contents b = pre' ++ layout ((k', c') :: f2)).
  { rewrite Hc. unfold pre'. cbn [layout]. by rewrite <- !app_assoc. }
  destruct (IH fuel l' l2 k' c' pre' b h ltac:(cbn in Hfuel; lia) Hb Herr Hc' Hnd Hch
      ltac:(lia) Hpd)
    as (ok & b1 & h1 & Hrun & Hb1 & Hext1 & Hout1 & Hsome1 & Hok).
  rewrite (run_bind _ _ _ _ _ Hrun).
  destruct ok.
  - destruct Hok as (Herr1 & Hst1 & e & He & Hc1 & (o1 & Ho1 & Hobj1 & _) & _).
    do 2 mstep. pose proof Hobj1 as (_ & Hoff1 & _). rewrite Hoff1.
    rewrite layout_one in Hc1.
    pose proof (contents_len b1 Hb1) as Hlen1. rewrite Hc1 in Hlen1.
    assert ((zlen pre' + plen k' <? zlen pre') = false) as -> by (apply Z.ltb_ge; lia).
    assert ((len b1 <? zlen pre' + plen k') = false) as -> by (apply Z.ltb_ge; zlia).
    cbn [negb orb].
    destruct (flush_child_spec malloc o l l' o1 b1 h1 pre' k' (c' ++ e) Hm Hbase)
      as (ok & b2 & h2 & Hrun2 & Hb2 & Hext2 & Hout2 & Hsome2 & Hok); try done.
    { rewrite Hout1 by done. done. }
    { intros ->. by apply Hl, list_elem_of_here. }
    exists ok, b2, h2. split; [exact Hrun2|]. split; [done|].
    split; [by eapply ext_trans|]. split.
    { intros l0. rewrite !not_elem_of_cons. intros (? & ? & ?).
      by rewrite Hout2, Hout1 by (rewrite ?not_elem_of_cons; done). }
    split; [auto|]. destruct ok.
    + destruct Hok as (Herr2 & Hl2 & Hst2 & e2 & He2 & Hc2). split; [done|]. split.
      { constructor; [done|]. apply list.Forall_forall. intros l0 Hl0.
        rewrite list.Forall_forall in Hst1. destruct (Hst1 l0 Hl0) as (o0 & Ho0 & ?).
        apply NoDup_cons in Hnd as [Hl' _].
        exists o0. split; [|done]. rewrite Hout2; [done| |].
        - intros ->. apply Hl. by apply list_elem_of_further.
        - by intros ->. }
      exists e2. cbn [enc]. rewrite He, He2. split; [done|]. split.
      { rewrite Hc2, layout_one. unfold pre'. by rewrite <- !app_assoc. }
      split; [|done]. exists (set_child o None). done.
    + destruct Hok as [Herr2 Hno]. split; [done|]. intros e2. cbn [enc]. rewrite He.
      intros He2 Hhold. apply (Hno e2 He2). apply (can_hold_ext malloc b b1); [done|].
      eapply can_hold_le; [|exact Hhold]. rewrite layout_one. unfold pre'. zlia.
  - destruct Hok as [Herr1 Hno].
    destruct (Hsome1 l') as [o1 Ho1]; [by exists o'|]. do 2 mstep. cbn [negb orb].
    rewrite run_fail_base by done. exists false, (set_error b1), h1. split; [done|].
    split; [done|]. split; [done|]. 
    split; [intros l0; rewrite not_elem_of_cons; intros [? ?]; by apply Hout1|].
    split; [done|]. split; [done|]. intros e2. cbn [enc].
    destruct (enc f2) as [e|] eqn:He; [|done]. intros He2 Hhold. apply (Hno e eq_refl).
    eapply can_hold_le; [|exact Hhold]. rewrite !layout_one. unfold pre'.
    pose proof (enc1_le _ _ _ He2). zlia.
Qed.

(** * Lemmas: representation *)

Lemma chain_drop h p l1 ls f1 fs : length l1 = length f1 ->
  Forall (fun f => 0 <= plen f.1) f1 ->
  chain h p (l1 ++ ls) (f1 ++ fs) -> chain h (p + zlen (layout f1)) ls fs.
Proof.
  revert p f1. induction l1 as [|l l1 IH]; intros p [|[k c] f1] Hlen Hp H; try done.
  { by rewrite Z.add_0_r. }
  apply Forall_cons_iff in Hp as [Hk Hp]. cbn in Hk.
  destruct H as [_ H]. apply IH in H; [|by injection Hlen|done].
  cbn [layout]. replace (p + _) with (p + plen k + zlen c + zlen (layout f1)) by zlia. done.
Qed.

Lemma chain_replace h h' p l1 ls ls' f1 fs fs' : length l1 = length f1 ->
  Forall (fun f => 0 <= plen f.1) f1 -> head ls' = head ls ->
  (forall l, l ∈ l1 -> h' !! l = h !! l) ->
  chain h p (l1 ++ ls) (f1 ++ fs) -> chain h' (p + zlen (layout f1)) ls' fs' ->
  chain h' p (l1 ++ ls') (f1 ++ fs').
Proof.
  revert p f1. induction l1 as [|l l1 IH]; intros p [|[k c] f1] Hlen Hp Hhd Hh H H'; try done.
  { cbn in H'. by rewrite Z.add_0_r in H'. }
  apply Forall_cons_iff in Hp as [Hk Hp]. cbn in Hk.
  destruct H as [(o & Ho & Hobj & Hch) H]. split.
  - exists o. rewrite Hh by apply list_elem_of_here. split; [done|]. split; [done|].
    rewrite Hch. destruct l1; [by symmetry|done].
  - apply IH; try done.
    + by injection Hlen.
    + intros l0 Hl0. apply Hh. by apply list_elem_of_further.
    + cbn [layout] in H'.
      replace (p + plen k + zlen c + _) with (p + zlen (zrepeat (plen k) 0 ++ c ++ layout f1)) by zlia.
      done.
Qed.

Lemma layout_app f1 f2 : layout (f1 ++ f2) = layout f1 ++ layout f2.
Proof.
  induction f1 as [|[k c] f1 IH]; [done|]. cbn [app layout]. by rewrite IH, <- !app_assoc.
Qed.

Lemma chain_dom h p ls fs l : chain h p ls fs -> l ∈ ls -> is_Some (h !! l).
Proof.
  revert p fs. induction ls as [|l' ls IH]; intros p [|[k c] fs] H Hl; try done.
  { by apply list.elem_of_nil in Hl. }
  destruct H as [(o & Ho & _) H]. apply elem_of_cons in Hl as [->|Hl]; [by exists o|].
  by eapply IH.
Qed.

Lemma chain_size h p ls fs : NoDup ls -> chain h p ls fs -> (length ls <= size h)%nat.
Proof.
  intros Hnd H. rewrite <- (size_list_to_set (C:=gset loc) ls), <- size_dom by done.
  apply subseteq_size. intros l Hl. apply elem_of_list_to_set in Hl.
  apply elem_of_dom. by eapply chain_dom.
Qed.

(** A Top frame, then pending ones. *)
Definition frames_ok (fs : frames) : Prop :=
  match fs with (Top, _) :: fs => Forall (fun f => pending f.1) fs | _ => False end.

Lemma frames_ok_split f1 k c f2 : frames_ok (f1 ++ (k, c) :: f2) ->
  Forall (fun f => 0 <= plen f.1) f1 /\ 0 <= plen k /\ Forall (fun f => pending f.1) f2 /\
  forall c' f3, Forall (fun f => pending f.1) f3 -> frames_ok (f1 ++ (k, c') :: f3).
Proof.
  assert (Hp : forall f : prefix * bytes, pending f.1 -> 0 <= plen f.1)
    by (intros f Hf; pose proof (pending_plen _ Hf); lia).
  destruct f1 as [|[k1 c1] f1]; cbn [app frames_ok].
  - destruct k; [|done..]. intros H. cbn. auto using Forall_nil with lia.
  - destruct k1; [|done..]. intros H. apply Forall_app in H as [H1 H2].
    apply Forall_cons_iff in H2 as [Hk H2]. split.
    { constructor; [cbn; lia|]. eapply Forall_impl; [exact H1|done]. }
    split; [by apply (Hp (k, c))|]. split; [done|]. intros c' f3 H3.
    apply Forall_app. split; [done|]. by constructor.
Qed.

(** * Outcomes of operations *)

Definition errored (s : store) : Prop :=
  exists b, the_base s = Some b /\ buf_ok b /\ error b = true.

Definition ext_s (s s' : store) : Prop :=
  exists b b', the_base s = Some b /\ the_base s' = Some b' /\ ext b b'.

(** The buffer can grow to [n] bytes. *)
Definition holds (malloc : allocator) (s : store) (n : Z) : Prop :=
  exists b, the_base s = Some b /\ can_hold malloc b n.

(** The operation is defined; on success the store represents the frames the
    specification gives; on failure the error is recorded, and the
    specification fails too or the buffer could not hold its result. *)
Definition outcome (malloc : allocator) (s : store) (r : option (bool * store))
    (target : option (list loc * frames)) : Prop :=
  exists ok s', r = Some (ok, s') /\ ext_s s s' /\
    if ok : bool then exists ls fs, target = Some (ls, fs) /\ represents s' ls fs
    else errored s' /\
      forall ls fs, target = Some (ls, fs) -> ~ holds malloc s (zlen (layout fs)).

Lemma represents_frames s ls fs : represents s ls fs -> frames_ok fs.
Proof. by intros (b & _ & _ & _ & _ & _ & _ & H). Qed.

Lemma holds_ext malloc s s' n : ext_s s s' -> holds malloc s n -> holds malloc s' n.
Proof.
  intros (b & b' & Hb & Hb' & Hext) (b0 & Hb0 & H). exists b'. split; [done|].
  rewrite Hb in Hb0. injection Hb0 as <-. by apply (can_hold_ext malloc b b').
Qed.

Lemma holds_le malloc s n m : n <= m -> holds malloc s m -> holds malloc s n.
Proof. intros Hle (b & Hb & H). exists b. split; [done|]. by eapply can_hold_le. Qed.

Lemma ext_s_trans s1 s2 s3 : ext_s s1 s2 -> ext_s s2 s3 -> ext_s s1 s3.
Proof.
  intros (b1 & b2 & H1 & H2 & H) (b2' & b3 & H2' & H3 & H'). exists b1, b3.
  split; [done|]. split; [done|]. rewrite H2 in H2'. injection H2' as <-.
  by eapply ext_trans.
Qed.

(** Runs [k] after [m] has succeeded, as [if (!m) return 0; k] does. *)
Lemma outcome_bind malloc s (m k : M store bool) t1 t :
  outcome malloc s (m s) t1 ->
  (forall ls1 fs1 s1, t1 = Some (ls1, fs1) -> represents s1 ls1 fs1 ->
     outcome malloc s1 (k s1) t) ->
  (forall ls fs, t = Some (ls, fs) -> exists ls1 fs1, t1 = Some (ls1, fs1) /\
     zlen (layout fs1) <= zlen (layout fs)) ->
  outcome malloc s ((let* ok := m in if negb ok then sret false else k) s) t.
Proof.
  intros (ok & s1 & Hm & Hext & Hok) Hk Hle. rewrite (run_bind _ _ _ _ _ Hm).
  destruct ok; cbn [negb].
  - destruct Hok as (ls1 & fs1 & Ht1 & Hr).
    destruct (Hk _ _ _ Ht1 Hr) as (ok & s2 & Hrun & Hext2 & Hok).
    exists ok, s2. split; [done|]. split; [by eapply ext_s_trans|]. destruct ok; [done|].
    destruct Hok as [He Hno]. split; [done|]. intros ls fs Ht Hh. eapply Hno; [done|].
    by eapply holds_ext.
  - destruct Hok as [He Hno]. exists false, s1. split; [done|]. split; [done|].
    split; [done|]. intros ls fs Ht Hh. destruct (Hle _ _ Ht) as (ls1 & fs1 & Ht1 & Hsz).
    eapply Hno; [done|]. by eapply holds_le.
Qed.

(** * Lemmas: flushing an object of the chain *)

Lemma flush_at malloc s l1 l l2 f1 k c f2 : alloc_ok malloc -> length l1 = length f1 ->
  represents s (l1 ++ l :: l2) (f1 ++ (k, c) :: f2) ->
  outcome malloc s (CBB_flush malloc l s)
    (match enc f2 with
     | Some e => Some (l1 ++ [l], f1 ++ [(k, c ++ e)])
     | None => None
     end).
Proof.
  intros Hm Hlen Hr. pose proof (represents_frames _ _ _ Hr) as Hfs.
  destruct (frames_ok_split _ _ _ _ Hfs) as (Hp1 & Hk & Hp2 & Hfok).
  destruct Hr as (b & Hbase & Hb & Herr & Hc & Hnd & Hch & _). destruct s as [ob h].
  cbn in Hbase, Hch. subst ob. pose proof (chain_drop _ _ _ _ _ _ Hlen Hp1 Hch) as Hch2.
  pose proof Hnd as Hnd'. apply NoDup_app in Hnd' as (_ & Hdis & Hnd2).
  rewrite layout_app in Hc. unfold CBB_flush.
  destruct (cbb_flush_spec malloc Hm f2 (S (size h)) l l2 k c (layout f1) b h)
    as (ok & b' & h' & Hrun & Hb' & Hext & Hout & Hsome & Hok); try done.
  { pose proof (chain_size _ _ _ _ Hnd2 Hch2) as Hsz. cbn [length] in Hsz. lia. }
  exists ok, (mk_store (Some b') h'). split; [exact Hrun|].
  split; [by exists b, b'|]. destruct ok.
  - destruct Hok as (Herr' & Hst & e & -> & Hc' & Hch'). eexists _, _. split; [done|].
    exists b'. split; [done|]. split; [done|]. split; [done|].
    split; [by rewrite layout_app|]. split; [|split; [|by apply Hfok]].
    + apply NoDup_app in Hnd as (Hnd1 & _ & _). apply NoDup_app. split; [done|]. split.
      * intros x Hx Hx'. apply list_elem_of_singleton in Hx' as ->. apply (Hdis l Hx).
        apply list_elem_of_here.
      * apply NoDup_singleton.
    + cbn. eapply chain_replace; [done|done| |intros l0 Hl0; apply Hout; by apply Hdis|exact Hch|exact Hch']. done.
  - destruct Hok as [Herr' Hno]. split; [by exists b'|].
    intros ls fs Ht (b0 & Hb0 & Hh). injection Hb0 as <-.
    destruct (enc f2) as [e|]; [|done]. injection Ht as <- <-.
    apply (Hno e eq_refl). by rewrite layout_app in Hh.
Qed.

Lemma flush_leaf malloc s l1 l f1 k c : length l1 = length f1 ->
  represents s (l1 ++ [l]) (f1 ++ [(k, c)]) -> CBB_flush malloc l s = Some (true, s).
Proof.
  intros Hlen Hr. destruct (frames_ok_split _ _ _ _ (represents_frames _ _ _ Hr)) as (Hp1 & _).
  destruct Hr as (b & Hbase & Hb & Herr & Hc & Hnd & Hch & _). destruct s as [ob h].
  cbn in Hbase, Hch. subst ob. apply chain_drop in Hch as [(o & Ho & (Hbo & _) & Hc1) _]; [|done..].
  unfold CBB_flush. cbn [cbb_flush]. mstep. rewrite Hbo. cbn [negb]. mstep.
  by rewrite Herr, Hc1.
Qed.

(** * Lemmas: operations on the innermost object *)

Lemma leaf_inv s l1 l f1 k c : length l1 = length f1 ->
  represents s (l1 ++ [l]) (f1 ++ [(k, c)]) ->
  exists b h o, s = mk_store (Some b) h /\ buf_ok b /\ error b = false /\
    h !! l = Some o /\ base o = true /\ child o = None /\
    contents b = layout f1 ++ zrepeat (plen k) 0 ++ c.
Proof.
  intros Hlen Hr. destruct (frames_ok_split _ _ _ _ (represents_frames _ _ _ Hr)) as (Hp1 & _).
  destruct Hr as (b & Hbase & Hb & Herr & Hc & Hnd & Hch & _). destruct s as [ob h].
  cbn in Hbase, Hch. subst ob. apply chain_drop in Hch as [(o & Ho & (Hbo & _) & Hc1) _]; [|done..].
  exists b, h, o. split_and!; try done. by rewrite Hc, layout_app, layout_one.
Qed.

Lemma leaf_update b b' h l1 l f1 k c x : length l1 = length f1 ->
  represents (mk_store (Some b) h) (l1 ++ [l]) (f1 ++ [(k, c)]) ->
  buf_ok b' -> error b' = false -> contents b' = contents b ++ x ->
  represents (mk_store (Some b') h) (l1 ++ [l]) (f1 ++ [(k, c ++ x)]).
Proof.
  intros Hlen Hr Hb' Herr' Hc'.
  destruct (frames_ok_split _ _ _ _ (represents_frames _ _ _ Hr)) as (Hp1 & _ & _ & Hfok).
  destruct Hr as (b0 & Hbase & Hb & Herr & Hc & Hnd & Hch & _). injection Hbase as <-.
  exists b'. split_and!; try done; [| |by apply Hfok].
  - rewrite Hc', Hc, !layout_app, !layout_one, <- !app_assoc. done.
  - eapply chain_replace; [done|done|reflexivity|done|exact Hch|].
    by apply chain_drop in Hch as [Hch _].
Qed.

(** A buffer operation that appends [x] to the innermost frame or fails. *)
Lemma leaf_outcome malloc b b' h l1 l f1 k c x t (ok : bool) : length l1 = length f1 ->
  represents (mk_store (Some b) h) (l1 ++ [l]) (f1 ++ [(k, c)]) ->
  buf_ok b' -> ext b b' ->
  (if ok then error b' = false /\ contents b' = contents b ++ x /\
     t = Some (l1 ++ [l], f1 ++ [(k, c ++ x)])
   else error b' = true /\ forall ls fs, t = Some (ls, fs) ->
     ~ can_hold malloc b (zlen (layout fs))) ->
  outcome malloc (mk_store (Some b) h) (Some (ok, mk_store (Some b') h)) t.
Proof.
  intros Hlen Hr Hb' Hext H. exists ok, (mk_store (Some b') h). split; [done|].
  split; [by exists b, b'|]. destruct ok.
  - destruct H as (He & Hc & ->). eexists _, _. split; [done|]. by eapply leaf_update.
  - destruct H as [He H]. split; [by exists b'|]. intros ls fs Ht (b0 & Hb0 & Hh).
    injection Hb0 as <-. by apply (H ls fs).
Qed.

(** The size of the frames when the innermost one has grown by [x]. *)
Lemma leaf_size b h l1 l f1 k c x :
  represents (mk_store (Some b) h) (l1 ++ [l]) (f1 ++ [(k, c)]) ->
  zlen (layout (f1 ++ [(k, c ++ x)])) = len b + zlen x.
Proof.
  intros (b0 & Hbase & Hb & _ & Hc & _). injection Hbase as <-.
  rewrite <- (contents_len b Hb), Hc, !layout_app, !layout_one. zlia.
Qed.

Lemma add_u_leaf malloc s l1 l f1 k c v n : alloc_ok malloc -> length l1 = length f1 ->
  represents s (l1 ++ [l]) (f1 ++ [(k, c)]) -> 1 <= n <= 4 -> 0 <= v ->
  outcome malloc s (cbb_add_u malloc l v n s)
    (if v <? 256 ^ n then Some (l1 ++ [l], f1 ++ [(k, c ++ be_bytes (Z.to_nat n) v)]) else None).
Proof.
  intros Hm Hlen Hr Hn Hv. unfold cbb_add_u.
  rewrite (run_bind _ _ _ _ _ (flush_leaf malloc s l1 l f1 k c Hlen Hr)). cbn [negb].
  destruct (leaf_inv _ _ _ _ _ _ Hlen Hr) as (b & h & o & -> & Hb & Herr & Ho & Hbo & _ & Hc).
  do 2 mstep. unfold cbb_buffer_add_u. replace (n =? 0) with false by lia.
  pose proof (add_spec malloc n b Hm Hb ltac:(split; lia)) as Hadd.
  destruct (cbb_buffer_add malloc n b) as [[out|] b1].
  - destruct Hadd as (-> & Hb1 & Hext1 & Herr1 & e & He & Hc1).
    destruct (write_be_contents (Z.to_nat n) v b1 (contents b) e [] (len b) Hb1)
      as (b2 & -> & Hb2 & Hext2 & Herr2 & Hc2);
      [by rewrite app_nil_r|by apply contents_len|lia|].
    rewrite app_nil_r in Hc2. rewrite Z2Nat.id by lia.
    pose proof (Z.pow_pos_nonneg 256 n ltac:(lia) ltac:(lia)).
    destruct (Z.ltb_spec v (256 ^ n)) as [Hlt|Hge].
    + rewrite Z.div_small by lia. cbn [Z.eqb negb]. do 2 mstep.
      apply (leaf_outcome malloc b b2 h l1 l f1 k c (be_bytes (Z.to_nat n) v));
        try done; [by eapply ext_trans|]. split; [congruence|done].
    + assert (1 <= v / 256 ^ n) by (apply Z.div_le_lower_bound; lia).
      replace (v / 256 ^ n =? 0) with false by lia. cbn [negb]. do 2 mstep.
      apply (leaf_outcome malloc b (set_error b2) h l1 l f1 k c []); try done.
      by eapply ext_trans.
  - destruct Hadd as [-> Hno]. do 2 mstep.
    apply (leaf_outcome malloc b (set_error b) h l1 l f1 k c []); try done. split; [done|].
    intros ls fs Ht. case_if_in Ht; [|done]. injection Ht as <- <-.
    rewrite (leaf_size b h l1 l f1 k c _ Hr). rewrite length_be_bytes, Z2Nat.id by lia. done.
Qed.

(** The rest of [CBB_add_bytes] once the object has been flushed. *)
Definition add_bytes_tail (malloc : allocator) (cbb : loc) (data : bytes) (n : Z) :
    M store bool :=
  let* c := load cbb in
  let* b := load_base c in
  match cbb_buffer_add malloc n b with
  | (None, b) => assign_base b ;;; sret false
  | (Some dest, b) =>
      let* b := slift (poke dest (ztake n data) b) in
      assign_base b ;;; sret true
  end.

Lemma CBB_add_bytes_eq malloc cbb data n s :
  CBB_add_bytes malloc cbb data n s =
  (let* ok := CBB_flush malloc cbb in
   if negb ok then sret false else add_bytes_tail malloc cbb data n) s.
Proof.
  unfold CBB_add_bytes, CBB_add_space, add_bytes_tail, sbind.
  destruct (CBB_flush malloc cbb s) as [[[|] s1]|]; [|done..]. cbn [negb].
  unfold load. destruct (cbbs s1 !! cbb) as [c|] eqn:Ec; [|done]. unfold load_base.
  destruct (base c) eqn:Eb; [|done]. destruct (the_base s1) as [b|]; [|done].
  destruct (cbb_buffer_add malloc n b) as [[out|] b1]; [|done].
  unfold assign_base, slift, sret. cbn [cbbs the_base]. rewrite Ec. cbn [cbbs the_base]. rewrite Eb.
  destruct (poke out (ztake n data) b1); done.
Qed.

Lemma add_bytes_leaf malloc s l1 l f1 k c x : alloc_ok malloc -> length l1 = length f1 ->
  represents s (l1 ++ [l]) (f1 ++ [(k, c)]) -> is_u 64 (zlen x) ->
  outcome malloc s (add_bytes_tail malloc l x (zlen x) s)
    (Some (l1 ++ [l], f1 ++ [(k, c ++ x)])).
Proof.
  intros Hm Hlen Hr Hn. unfold add_bytes_tail.
  destruct (leaf_inv _ _ _ _ _ _ Hlen Hr) as (b & h & o & -> & Hb & Herr & Ho & Hbo & _ & Hc).
  do 2 mstep. pose proof (add_spec malloc (zlen x) b Hm Hb Hn) as Hadd.
  destruct (cbb_buffer_add malloc (zlen x) b) as [[out|] b1].
  - destruct Hadd as (-> & Hb1 & Hext1 & Herr1 & e & He & Hc1).
    rewrite (ztake_all (zlen x)) by lia.
    destruct (poke_contents b1 (contents b) e [] (len b) x Hb1)
      as (b2 & -> & Hb2 & Hext2 & Herr2 & Hc2);
      [by rewrite app_nil_r|by apply contents_len|lia|].
    rewrite app_nil_r in Hc2. do 2 mstep.
    apply (leaf_outcome malloc b b2 h l1 l f1 k c x); try done; [by eapply ext_trans|].
    split; [congruence|done].
  - destruct Hadd as [-> Hno]. mstep.
    apply (leaf_outcome malloc b (set_error b) h l1 l f1 k c []); try done. split; [done|].
    intros ls fs Ht. injection Ht as <- <-. by rewrite (leaf_size b h l1 l f1 k c _ Hr).
Qed.

(** * Lemmas: opening children *)

Lemma represents_len b h ls fs :
  represents (mk_store (Some b) h) ls fs -> len b = zlen (layout fs).
Proof.
  intros (b0 & Hbase & Hb & _ & Hc & _). injection Hbase as <-.
  by rewrite <- (contents_len b Hb), Hc.
Qed.

(** Linking a fresh child whose prefix has just been written. *)
Lemma open_child_spec malloc b h l1 l f1 k c ch k2 off : length l1 = length f1 ->
  represents (mk_store (Some b) h) (l1 ++ [l]) (f1 ++ [(k, c ++ zrepeat (plen k2) 0)]) ->
  ch ∉ l1 ++ [l] -> pending k2 -> off = len b - plen k2 ->
  outcome malloc (mk_store (Some b) h)
    (open_child l ch off (plen k2) (match k2 with Asn1 => true | _ => false end)
      (mk_store (Some b) h))
    (Some ((l1 ++ [l]) ++ [ch], f1 ++ [(k, c); (k2, [])])).
Proof.
  intros Hlen Hr Hch Hk2 ->. pose proof (pending_plen _ Hk2) as Hpl.
  pose proof (represents_len _ _ _ _ Hr) as Hl.
  destruct (frames_ok_split _ _ _ _ (represents_frames _ _ _ Hr)) as (Hp1 & Hk & _ & Hfok).
  destruct Hr as (b0 & Hbase & Hb & Herr & Hc & Hnd & Hchn & _). injection Hbase as <-.
  pose proof (chain_drop _ _ _ _ _ _ Hlen Hp1 Hchn) as [(o & Ho & Hobj & Hnone) _].
  apply not_elem_of_app in Hch as [Hch1 Hchl]. apply not_elem_of_cons in Hchl as [Hchl _].
  unfold open_child. do 3 mstep.
  eexists true, _. split; [done|]. split; [by exists b, b|]. eexists _, _. split; [done|].
  exists b. split_and!; try done.
  - rewrite Hc, !layout_app, !layout_one. cbn [layout].
    by rewrite !app_nil_r.
  - apply NoDup_app. split; [done|]. split; [|apply NoDup_singleton].
    intros y Hy Hy'. apply list_elem_of_singleton in Hy' as ->.
    apply elem_of_app in Hy as [Hy|Hy]; [done|]. by apply list_elem_of_singleton in Hy.
  - rewrite <- app_assoc. cbn [cbbs].
    eapply chain_replace; [done|done| | |exact Hchn|]; [done| |].
    + intros l0 Hl0. rewrite !lookup_insert_ne; [done|by intros ->|].
      intros ->. apply NoDup_app in Hnd as (_ & Hdis & _). apply (Hdis l0 Hl0).
      apply list_elem_of_here.
    + split.
      { exists (set_child o (Some ch)). split; [apply lookup_insert_eq|]. by split. }
      split; [|done]. eexists. split; [rewrite lookup_insert_ne by congruence; apply lookup_insert_eq|].
      split; [|done]. unfold obj_ok. cbn. split; [done|]. split; [|by destruct k2].
      rewrite Hl, layout_app, layout_one. zlia.
  - apply Hfok. by constructor.
Qed.

Definition add_length_prefixed_tail (malloc : allocator) (cbb out_contents : loc)
    (len_len : Z) : M store bool :=
  let* c := load cbb in
  let* b := load_base c in
  let off := len b in
  match cbb_buffer_add malloc len_len b with
  | (None, b) => assign_base b ;;; sret false
  | (Some prefix_bytes, b) =>
      let* b := slift (poke prefix_bytes (zrepeat len_len 0) b) in
      assign_base b ;;;
      open_child cbb out_contents off len_len false
  end.

Lemma open_leaf malloc s l1 l f1 k c ch n : alloc_ok malloc -> length l1 = length f1 ->
  represents s (l1 ++ [l]) (f1 ++ [(k, c)]) -> ch ∉ l1 ++ [l] -> 1 <= n <= 3 ->
  outcome malloc s (add_length_prefixed_tail malloc l ch n s)
    (Some ((l1 ++ [l]) ++ [ch], f1 ++ [(k, c); (Fixed n, [])])).
Proof.
  intros Hm Hlen Hr Hch Hn. unfold add_length_prefixed_tail.
  destruct (leaf_inv _ _ _ _ _ _ Hlen Hr) as (b & h & o & -> & Hb & Herr & Ho & Hbo & _ & Hc).
  do 2 mstep. pose proof (add_spec malloc n b Hm Hb ltac:(split; lia)) as Hadd.
  destruct (cbb_buffer_add malloc n b) as [[out|] b1].
  - destruct Hadd as (-> & Hb1 & Hext1 & Herr1 & e & He & Hc1).
    destruct (poke_contents b1 (contents b) e [] (len b) (zrepeat n 0) Hb1)
      as (b2 & -> & Hb2 & Hext2 & Herr2 & Hc2);
      [by rewrite app_nil_r|by apply contents_len|zlia|].
    rewrite app_nil_r in Hc2. do 2 mstep.
    destruct (open_child_spec malloc b2 h l1 l f1 k c ch (Fixed n) (len b) Hlen)
      as (ok & s' & Hrun & Hext & Hok); [|done|done| |].
    { apply (leaf_update b b2 h l1 l f1 k c); try done. congruence. }
    { cbn [plen]. rewrite <- (contents_len b2 Hb2), <- (contents_len b Hb), Hc2. zlia. }
    exists ok, s'. split; [exact Hrun|].
    assert (Hext' : ext_s (mk_store (Some b) h) (mk_store (Some b2) h))
      by (exists b, b2; split; [done|]; split; [done|]; by eapply ext_trans).
    split; [by eapply ext_s_trans|]. destruct ok; [done|]. destruct Hok as [Hok Hno].
    split; [done|]. intros ls fs Ht Hh. eapply Hno; [exact Ht|]. by eapply holds_ext.
  - destruct Hadd as [-> Hno]. mstep.
    apply (leaf_outcome malloc b (set_error b) h l1 l f1 k c []); try done. split; [done|].
    intros ls fs Ht. injection Ht as <- <-.
    replace (zlen (layout _)) with (len b + n); [done|].
    rewrite <- (contents_len b Hb), Hc, layout_app. cbn [layout plen]. rewrite !app_nil_r. zlia.
Qed.

(** * The specification of an operation *)

Inductive op :=
| AddBytes (data : bytes)
| AddU (len_len value : Z)
| OpenPrefixed (len_len : Z) (out_contents : loc)
| OpenAsn1 (tag : Z) (out_contents : loc)
| AddAsn1Uint64 (value : Z) (child : loc)
| Flush
| DiscardChild.

Definition run_op (malloc : allocator) (cbb : loc) (o : op) : M store bool :=
  match o with
  | AddBytes data => CBB_add_bytes malloc cbb data (zlen data)
  | AddU 1 v => CBB_add_u8 malloc cbb v
  | AddU 2 v => CBB_add_u16 malloc cbb v
  | AddU 3 v => CBB_add_u24 malloc cbb v
  | AddU _ v => CBB_add_u32 malloc cbb v
  | OpenPrefixed 1 ch => CBB_add_u8_length_prefixed malloc cbb ch
  | OpenPrefixed 2 ch => CBB_add_u16_length_prefixed malloc cbb ch
  | OpenPrefixed _ ch => CBB_add_u24_length_prefixed malloc cbb ch
  | OpenAsn1 tag ch => CBB_add_asn1 malloc cbb ch tag
  | AddAsn1Uint64 v ch => CBB_add_asn1_uint64 malloc cbb ch v
  | Flush => CBB_flush malloc cbb
  | DiscardChild => CBB_discard_child cbb ;;; sret true
  end.

(** The arguments have the widths of their C types, and a child's location is
    not the location of an object that stays open. *)
Definition op_ok (ls : list loc) (o : op) : Prop :=
  match o with
  | AddBytes data => is_u 64 (zlen data)
  | AddU n v => (n = 1 /\ is_u 8 v) \/ (n = 2 /\ is_u 16 v) \/
                (n = 3 /\ is_u 32 v) \/ (n = 4 /\ is_u 32 v)
  | OpenPrefixed n ch => 1 <= n <= 3 /\ ch ∉ ls
  | OpenAsn1 tag ch => is_u 32 tag /\ ch ∉ ls
  | AddAsn1Uint64 v ch => is_u 64 v /\ ch ∉ ls
  | Flush | DiscardChild => True
  end.

(** On the innermost frame, of prefix [k] and contents [c], at [ls]. *)
Definition leaf_spec (o : op) (ls : list loc) (f1 : frames) (k : prefix) (c : bytes) :
    option (list loc * frames) :=
  match o with
  | AddBytes data => Some (ls, f1 ++ [(k, c ++ data)])
  | AddU n v => if v <? 256 ^ n then Some (ls, f1 ++ [(k, c ++ be_bytes (Z.to_nat n) v)]) else None
  | OpenPrefixed n ch => Some (ls ++ [ch], f1 ++ [(k, c); (Fixed n, [])])
  | OpenAsn1 tag ch =>
      if (tag >? 0xff) || (Z.land tag 0x1f =? 0x1f) then None
      else Some (ls ++ [ch], f1 ++ [(k, c ++ [tag]); (Asn1, [])])
  | AddAsn1Uint64 v _ =>
      Some (ls, f1 ++ [(k, c ++ der_element CBS_ASN1_INTEGER (asn1_uint_octets v))])
  | Flush | DiscardChild => Some (ls, f1 ++ [(k, c)])
  end.

(** On frame number [i]: the frames after it are closed into it first, or
    dropped by [DiscardChild]. *)
Definition op_spec (i : nat) (o : op) (ls : list loc) (fs : frames) :
    option (list loc * frames) :=
  match fs !! i with
  | None => None
  | Some (k, c) =>
      match o with
      | DiscardChild => Some (take (S i) ls, take (S i) fs)
      | _ => match enc (drop (S i) fs) with
             | None => None
             | Some e => leaf_spec o (take (S i) ls) (take i fs) k (c ++ e)
             end
      end
  end.

(** * The operations refine the specification *)

(** [if (tag > 0xff || ...) error] aside, [CBB_add_asn1] after its flush. *)
Definition add_asn1_tail (malloc : allocator) (cbb out_contents : loc) (tag : Z) :
    M store bool :=
  let* ok := CBB_add_u8 malloc cbb (u8 tag) in
  if negb ok then sret false
  else
    let* c := load cbb in
    let* b := load_base c in
    let off := len b in
    let* ok := CBB_add_u8 malloc cbb 0 in
    if negb ok then sret false
    else open_child cbb out_contents off 1 true.

Lemma layout_snoc_le f1 k c x y :
  zlen (layout (f1 ++ [(k, c ++ x)])) <= zlen (layout (f1 ++ [(k, c ++ x ++ y)])).
Proof. rewrite !layout_app, !layout_one. zlia. Qed.

Lemma add_u8_leaf malloc s l1 l f1 k c v : alloc_ok malloc -> length l1 = length f1 ->
  represents s (l1 ++ [l]) (f1 ++ [(k, c)]) -> is_byte v ->
  outcome malloc s (CBB_add_u8 malloc l v s) (Some (l1 ++ [l], f1 ++ [(k, c ++ [v])])).
Proof.
  intros Hm Hlen Hr Hv.
  pose proof (add_u_leaf malloc s l1 l f1 k c v 1 Hm Hlen Hr ltac:(lia) (proj1 Hv)) as H.
  replace (v <? 256 ^ 1) with true in H by (destruct Hv; symmetry; apply Z.ltb_lt; lia).
  change (be_bytes (Z.to_nat 1) v) with [v mod 256] in H.
  by rewrite Z.mod_small in H by exact Hv.
Qed.

Lemma open_asn1_leaf malloc s l1 l f1 k c ch tag : alloc_ok malloc -> length l1 = length f1 ->
  represents s (l1 ++ [l]) (f1 ++ [(k, c)]) -> ch ∉ l1 ++ [l] -> is_u 8 tag ->
  outcome malloc s (add_asn1_tail malloc l ch tag s)
    (Some ((l1 ++ [l]) ++ [ch], f1 ++ [(k, c ++ [tag]); (Asn1, [])])).
Proof.
  intros Hm Hlen Hr Hch Htag. unfold add_asn1_tail. rewrite u8_small by done.
  pose proof (add_u8_leaf malloc s l1 l f1 k c tag Hm Hlen Hr Htag) as H.
  assert (Hsz : zlen (layout (f1 ++ [(k, c ++ [tag]); (Asn1, [])])) =
                zlen (layout (f1 ++ [(k, c ++ [tag] ++ [0])]))).
  { rewrite !layout_app. cbn [layout plen]. zlia. }
  eapply outcome_bind; [exact H| |].
  2: { intros ls fs [= <- <-]. eexists _, _. split; [done|]. rewrite Hsz. apply layout_snoc_le. }
  clear H. intros ls1 fs1 s1 [= <- <-] Hr1.
  destruct (leaf_inv _ _ _ _ _ _ Hlen Hr1) as (b & h & o & -> & _ & _ & Ho & Hbo & _).
  do 2 mstep. pose proof (represents_len _ _ _ _ Hr1) as Hl1.
  pose proof (add_u8_leaf malloc _ l1 l f1 k _ 0 Hm Hlen Hr1 ltac:(split; lia)) as H.
  eapply outcome_bind; [exact H| |].
  2: { intros ls fs [= <- <-]. eexists _, _. split; [done|]. rewrite Hsz, <- app_assoc. done. }
  intros ls2 fs2 s2 [= <- <-] Hr2.
  destruct (leaf_inv _ _ _ _ _ _ Hlen Hr2) as (b2 & h2 & o2 & -> & _).
  apply (open_child_spec malloc b2 h2 l1 l f1 k (c ++ [tag]) ch Asn1 (len b) Hlen Hr2 Hch); [done|].
  rewrite Hl1, (represents_len _ _ _ _ Hr2), !layout_app, !layout_one. cbn [plen]. zlia.
Qed.

(** The bytes the loop of [CBB_add_asn1_uint64] writes. *)
Fixpoint uint64_emit (value : Z) (n : nat) (started : bool) : bool * bytes :=
  match n with
  | O => (started, [])
  | S n =>
      let byte := Z.land (Z.shiftr value (8 * Z.of_nat n)) 0xff in
      if negb started && (byte =? 0) then uint64_emit value n false
      else
        let '(st, l) := uint64_emit value n true in
        (st, (if negb started && negb (Z.land byte 0x80 =? 0) then [0] else []) ++ byte :: l)
  end.

Lemma be_bytes_cons n v : be_bytes (S n) v = (v / 256 ^ Z.of_nat n) mod 256 :: be_bytes n v.
Proof.
  revert v. induction n as [|n IH]; intros v; [by rewrite Z.div_1_r|].
  rewrite be_bytes_S, IH, Zdiv_Zdiv by lia. cbn [app].
  rewrite <- be_bytes_S, Nat2Z.inj_succ, Z.pow_succ_r by lia. done.
Qed.

Lemma emit_byte v n : Z.land (Z.shiftr v (8 * Z.of_nat n)) 0xff = (v / 256 ^ Z.of_nat n) mod 256.
Proof.
  change (Z.land ?x 0xff) with (u8 x). rewrite u8_mod, Z.shiftr_div_pow2, Z.pow_mul_r by lia.
  done.
Qed.

Lemma uint64_emit_started v n : uint64_emit v n true = (true, be_bytes n v).
Proof.
  induction n as [|n IH]; [done|]. cbn [uint64_emit negb andb]. rewrite IH, be_bytes_cons.
  by rewrite emit_byte.
Qed.

Lemma uint64_emit_spec v n : 0 <= v < 256 ^ Z.of_nat n ->
  let '(st, l) := uint64_emit v n false in
  let l' := if st then l else l ++ [0] in
  be_val l' = v /\ bytes_ok l' /\ uint_min l'.
Proof.
  induction n as [|n IH]; intros Hv.
  { cbn in *. assert (v = 0) as -> by lia. destruct (uint_min_byte 0) as (? & ? & ?); [lia|]. done. }
  cbn [uint64_emit negb andb]. rewrite emit_byte. rewrite Nat2Z.inj_succ, Z.pow_succ_r in Hv by lia.
  pose proof (pow256_pos n) as Hp. set (w := 256 ^ Z.of_nat n) in *.
  assert (Hq : 0 <= v / w < 256) by (split; [apply Z.div_pos|apply Z.div_lt_upper_bound]; lia).
  rewrite (Z.mod_small (v / w)) by lia. pose proof (Z.div_mod v w ltac:(lia)).
  pose proof (Z.mod_pos_bound v w ltac:(lia)). case_if.
  { apply IH. nia. }
  rewrite uint64_emit_started, byte_msb by (split; lia).
  set (q := v / w) in *.
  assert (Hval : be_val (q :: be_bytes n v) = v).
  { rewrite (be_val_app [q] (be_bytes n v) : be_val (q :: be_bytes n v) = _).
    rewrite be_val_be_bytes, length_be_bytes. fold w. change (be_val [q]) with (0 * 256 + q). lia. }
  assert (Hok : bytes_ok (q :: be_bytes n v)) by (constructor; [split; lia|apply be_bytes_ok]).
  case_if; cbn [app].
  - split; [done|]. split; [by constructor|]. split; [done|].
    change (zget (0 :: _) 0) with 0. change (zget (0 :: _) 1) with q. lia.
  - split; [done|]. split; [done|]. split; [done|].
    change (zget (q :: _) 0) with q. lia.
Qed.

Lemma uint64_emit_octets v : is_u 64 v ->
  (let '(st, l) := uint64_emit v 8 false in if st then l else l ++ [0]) = asn1_uint_octets v.
Proof.
  intros [Hv0 Hv1]. pose proof (uint64_emit_spec v 8 ltac:(cbn; lia)) as H.
  destruct (uint64_emit v 8 false) as [st l]. destruct H as (Hval & Hok & Hmin).
  set (l' := if st then l else l ++ [0]) in *. rewrite <- Hval at 1. symmetry.
  apply uint_octets_be_val; [|done..]. apply uint_min_length; [done..|lia].
Qed.

Lemma outcome_weaken malloc s s1 r t : ext_s s s1 -> outcome malloc s1 r t -> outcome malloc s r t.
Proof.
  intros Hext (ok & s' & Hr & Hext' & Hok). exists ok, s'. split; [done|].
  split; [by eapply ext_s_trans|]. destruct ok; [done|]. destruct Hok as [He Hno].
  split; [done|]. intros ls fs Ht Hh. eapply Hno; [done|]. by eapply holds_ext.
Qed.

Lemma ext_s_refl s ls fs : represents s ls fs -> ext_s s s.
Proof. intros (b & Hb & _). by exists b, b. Qed.

Definition loop_outcome (r : option (bool * bool * store)) : option (bool * store) :=
  match r with None => None | Some (_, ok, s) => Some (ok, s) end.

(** The loop appends what [uint64_emit] says, or fails; [started] is right. *)
Lemma asn1_uint64_bytes_spec malloc l1 l f1 k v n st s c : alloc_ok malloc ->
  length l1 = length f1 -> represents s (l1 ++ [l]) (f1 ++ [(k, c)]) ->
  outcome malloc s (loop_outcome (asn1_uint64_bytes malloc l v n st s))
    (Some (l1 ++ [l], f1 ++ [(k, c ++ (uint64_emit v n st).2)])) /\
  (forall st' s', asn1_uint64_bytes malloc l v n st s = Some (st', true, s') ->
     st' = (uint64_emit v n st).1).
Proof.
  intros Hm Hlen. revert st s c. induction n as [|n IH]; intros st s c Hr.
  { cbn [asn1_uint64_bytes uint64_emit fst snd]. rewrite app_nil_r. split.
    - exists true, s. split; [done|]. split; [by eapply ext_s_refl|]. eauto.
    - by intros st' s' [= <- <-]. }
  cbn [asn1_uint64_bytes uint64_emit].
  set (byte := Z.land (Z.shiftr v (8 * Z.of_nat n)) 255).
  assert (Hbyte : is_byte byte) by apply u8_is_u.
  destruct (negb st && (byte =? 0)); [by apply IH|].
  set (pad := negb st && negb (Z.land byte 128 =? 0)).
  destruct (uint64_emit v n true) as [st1 x] eqn:Ex. cbn [fst snd].
  set (pre := if pad then [0] else []).
  assert (H1 : outcome malloc s ((if pad then CBB_add_u8 malloc l 0 else sret true) s)
                 (Some (l1 ++ [l], f1 ++ [(k, c ++ pre)]))).
  { unfold pre. destruct pad; [by apply add_u8_leaf; [..|split; lia]|].
    rewrite app_nil_r. exists true, s. split; [done|]. split; [by eapply ext_s_refl|]. eauto. }
  assert (Hle : forall y z, zlen (layout (f1 ++ [(k, c ++ y)])) <=
                       zlen (layout (f1 ++ [(k, c ++ y ++ z)]))) by (intros; apply layout_snoc_le).
  destruct H1 as (ok & s1 & Hrun1 & Hext1 & Hok1). rewrite (run_bind _ _ _ _ _ Hrun1).
  destruct ok; cbn [negb].
  2: { split; [|done]. exists false, s1. split; [done|]. split; [done|].
       destruct Hok1 as [He Hno]. split; [done|]. intros ls fs [= <- <-] Hh.
       eapply Hno; [done|]. eapply holds_le; [apply Hle|exact Hh]. }
  destruct Hok1 as (ls & fs & [= <- <-] & Hr1).
  destruct (add_u8_leaf malloc s1 l1 l f1 k _ byte Hm Hlen Hr1 Hbyte)
    as (ok & s2 & Hrun2 & Hext2 & Hok2). rewrite (run_bind _ _ _ _ _ Hrun2).
  destruct ok; cbn [negb].
  2: { split; [|done]. exists false, s2. split; [done|]. split; [by eapply ext_s_trans|].
       destruct Hok2 as [He Hno]. split; [done|]. intros ls fs [= <- <-] Hh.
       eapply Hno; [done|]. eapply holds_le; [|eapply holds_ext; [exact Hext1|exact Hh]].
       rewrite <- app_assoc. etransitivity; [apply (Hle (pre ++ [byte]) x)|].
       by rewrite <- app_assoc. }
  destruct Hok2 as (ls & fs & [= <- <-] & Hr2).
  destruct (IH true s2 _ Hr2) as [H3 H4]. rewrite Ex in H3, H4. cbn [fst snd] in H3, H4.
  split; [|done]. rewrite <- !app_assoc in H3. cbn [app] in H3.
  eapply outcome_weaken; [|exact H3]. by eapply ext_s_trans.
Qed.

Lemma at_index {A} (l : list A) i x : l !! i = Some x -> l = take i l ++ x :: drop (S i) l.
Proof. intros H. symmetry. by apply take_drop_middle. Qed.

(** Flushing object number [i], then an operation on it as the innermost one. *)
Lemma flush_then malloc s i ls fs l k c (tail : M store bool) t : alloc_ok malloc ->
  represents s ls fs -> ls !! i = Some l -> fs !! i = Some (k, c) ->
  length (take i ls) = length (take i fs) ->
  (forall s1 c1, represents s1 (take i ls ++ [l]) (take i fs ++ [(k, c1)]) ->
     outcome malloc s1 (tail s1) (t c1)) ->
  (forall c1 ls' fs', t c1 = Some (ls', fs') ->
     zlen (layout (take i fs ++ [(k, c1)])) <= zlen (layout fs')) ->
  outcome malloc s ((let* ok := CBB_flush malloc l in if negb ok then sret false else tail) s)
    (match enc (drop (S i) fs) with Some e => t (c ++ e) | None => None end).
Proof.
  intros Hm Hr Hl Hf Hlen Htail Hle.
  rewrite (at_index ls i l Hl), (at_index fs i _ Hf) in Hr.
  eapply outcome_bind; [by apply (flush_at malloc s _ _ _ _ _ _ _ Hm Hlen Hr)| |].
  - intros ls1 fs1 s1 Ht Hr1. destruct (enc (drop (S i) fs)) as [e|]; [|done].
    injection Ht as <- <-. by apply Htail.
  - intros ls' fs' Ht. destruct (enc (drop (S i) fs)) as [e|]; [|done].
    eexists _, _. split; [done|]. by eapply Hle.
Qed.

Lemma outcome_dispose malloc s (m : M store bool) ch t :
  outcome malloc s (m s) t -> (forall ls fs, t = Some (ls, fs) -> ch ∉ ls) ->
  outcome malloc s ((let* r := m in dispose ch ;;; sret r) s) t.
Proof.
  intros (ok & s' & Hrun & Hext & Hok) Hch. rewrite (run_bind _ _ _ _ _ Hrun).
  exists ok, (mk_store (the_base s') (delete ch (cbbs s'))). split; [done|].
  split. { destruct Hext as (b & b' & ? & ? & ?). by exists b, b'. }
  destruct ok.
  - destruct Hok as (ls & fs & Ht & b & Hb & Hbok & Herr & Hc & Hnd & Hchain & Hfs).
    exists ls, fs. split; [done|]. exists b. split_and!; try done.
    pose proof (Hch ls fs Ht) as Hn. clear -Hchain Hn. cbn.
    revert Hchain Hn. generalize 0. revert fs.
    induction ls as [|l ls IH]; intros [|[k c] fs] p H Hn; try done.
    apply not_elem_of_cons in Hn as [Hne Hn]. destruct H as [(o & Ho & Hrest) H].
    split; [|by apply IH]. exists o. split; [|done]. by rewrite lookup_delete_ne.
  - destruct Hok as [(b & ? & ? & ?) Hno]. split; [by exists b|done].
Qed.

(** The encoding of the INTEGER frame [CBB_add_asn1_uint64] opens. *)
Lemma enc_uint64 v : is_u 64 v ->
  enc [(Asn1, asn1_uint_octets v)] =
    Some (der_length (zlen (asn1_uint_octets v)) ++ asn1_uint_octets v).
Proof.
  intros Hv. destruct (asn1_uint_octets_spec v Hv) as (_ & _ & _ & Hl).
  cbn [enc enc1]. rewrite app_nil_r. case_if; [done|lia].
Qed.

(** The part of [CBB_add_asn1_uint64] after the child has been opened. *)
Lemma asn1_uint64_tail malloc s l1 l f1 k c ch v : alloc_ok malloc ->
  length l1 = length f1 -> is_u 64 v ->
  represents s ((l1 ++ [l]) ++ [ch]) ((f1 ++ [(k, c ++ [CBS_ASN1_INTEGER])]) ++ [(Asn1, [])]) ->
  outcome malloc s
    ((let* (started, ok) := asn1_uint64_bytes malloc ch v 8 false in
      if negb ok then sret false
      else
        let* ok := if negb started then CBB_add_u8 malloc ch 0 else sret true in
        if negb ok then sret false
        else CBB_flush malloc l) s)
    (Some (l1 ++ [l], f1 ++ [(k, c ++ der_element CBS_ASN1_INTEGER (asn1_uint_octets v))])).
Proof.
  intros Hm Hlen Hv Hr.
  assert (Hlen2 : length (l1 ++ [l]) = length (f1 ++ [(k, c ++ [CBS_ASN1_INTEGER])])).
  { rewrite !length_app. cbn [length]. lia. }
  destruct (asn1_uint64_bytes_spec malloc (l1 ++ [l]) ch _ Asn1 v 8 false s [] Hm Hlen2 Hr)
    as [(ok & s1 & Hrun1 & Hext1 & Hok1) Hst].
  pose proof (uint64_emit_octets v Hv) as Hoct. cbn [app] in Hok1.
  destruct (uint64_emit v 8 false) as [st x]. cbn [fst snd] in *.
  set (oct := asn1_uint_octets v) in *.
  assert (Hsz : forall y z, y ++ z = oct ->
    zlen (layout ((f1 ++ [(k, c ++ [CBS_ASN1_INTEGER])]) ++ [(Asn1, y)])) <=
    zlen (layout (f1 ++ [(k, c ++ der_element CBS_ASN1_INTEGER oct)]))).
  { intros y z <-. rewrite !layout_app, !layout_one. unfold der_element.
    pose proof (length_der_length (zlen (y ++ z)) ltac:(lia)) as Hd.
    assert (1 <= zlen (der_length (zlen (y ++ z)))).
    { rewrite Hd. case_if; [lia|]. unfold len_octets. repeat case_if; lia. }
    cbn [plen]. zlia. }
  unfold loop_outcome in Hrun1.
  destruct (asn1_uint64_bytes malloc ch v 8 false s) as [[[st' ok'] s1']|] eqn:Eloop; [|done].
  injection Hrun1 as -> ->. rewrite (run_bind _ _ _ _ _ Eloop).
  destruct ok; cbn [negb].
  2: { exists false, s1. split; [done|]. split; [done|]. destruct Hok1 as [He Hno].
       split; [done|]. intros ls fs [= <- <-] Hh. eapply Hno; [done|].
       eapply holds_le; [|exact Hh]. destruct st; [by apply (Hsz x []); rewrite app_nil_r|].
       by apply (Hsz x [0]). }
  rewrite (Hst _ _ eq_refl). destruct Hok1 as (ls & fs & [= <- <-] & Hr1).
  eapply outcome_weaken; [exact Hext1|].
  eapply (outcome_bind malloc s1 _ _ (Some ((l1 ++ [l]) ++ [ch],
    (f1 ++ [(k, c ++ [CBS_ASN1_INTEGER])]) ++ [(Asn1, oct)]))).
  - destruct st; cbn [negb].
    + rewrite <- Hoct. exists true, s1. split; [done|]. split; [by eapply ext_s_refl|]. eauto.
    + rewrite <- Hoct. by apply add_u8_leaf; [..|split; lia].
  - intros ls1 fs1 s2 [= <- <-] Hr2. rewrite <- !app_assoc in Hr2. cbn [app] in Hr2.
    pose proof (flush_at malloc s2 l1 l [ch] f1 k _ _ Hm Hlen Hr2) as H.
    unfold oct in H. rewrite enc_uint64 in H by done. by rewrite <- app_assoc in H.
  - intros ls fs [= <- <-]. eexists _, _. split; [done|]. apply (Hsz oct []). apply app_nil_r.
Qed.

Lemma chain_length h p ls fs : chain h p ls fs -> length ls = length fs.
Proof.
  revert p fs. induction ls as [|l ls IH]; intros p [|[k c] fs] H; try done.
  destruct H as [_ H]. cbn. f_equal. by eapply IH.
Qed.

Lemma represents_length s ls fs : represents s ls fs -> length ls = length fs.
Proof. intros (b & _ & _ & _ & _ & _ & H & _). by eapply chain_length. Qed.

Lemma discard_spec malloc s i ls fs l k c :
  represents s ls fs -> ls !! i = Some l -> fs !! i = Some (k, c) ->
  length (take i ls) = length (take i fs) ->
  outcome malloc s ((CBB_discard_child l ;;; sret true) s)
    (Some (take i ls ++ [l], take i fs ++ [(k, c)])).
Proof.
  intros Hr Hl Hf Hlen. pose proof Hr as Hr0.
  rewrite (at_index ls i l Hl), (at_index fs i _ Hf) in Hr.
  destruct (frames_ok_split _ _ _ _ (represents_frames _ _ _ Hr)) as (Hp1 & Hk & Hp2 & Hfok).
  destruct Hr as (b & Hbase & Hb & Herr & Hc & Hnd & Hch & _). destruct s as [ob h].
  cbn in Hbase, Hch. subst ob.
  pose proof (chain_drop _ _ _ _ _ _ Hlen Hp1 Hch) as [(o & Ho & Hobj & Hchild) Hrest].
  destruct (drop (S i) ls) as [|ch l2] eqn:Els, (drop (S i) fs) as [|[k2 c2] f2] eqn:Efs;
    try done; cbn [head] in Hchild; unfold CBB_discard_child.
  - exists true, (mk_store (Some b) h). split.
    { unfold sbind, load. cbn. by rewrite Ho, Hchild. }
    split; [by exists b, b|]. eexists _, _. split; [done|].
    rewrite (at_index ls i l Hl), (at_index fs i _ Hf), Els, Efs in Hr0. done.
  - destruct Hrest as [(o2 & Ho2 & Hobj2 & _) _].
    pose proof (contents_len b Hb) as Hlb. rewrite Hc in Hlb.
    apply NoDup_app in Hnd as (Hnd1 & Hdis & Hnd2). apply NoDup_cons in Hnd2 as [Hl2 _].
    pose proof Hobj as (Hbo & _). pose proof Hobj2 as (_ & Hoff & _).
    set (p := 0 + zlen (layout (take i fs)) + plen k + zlen c) in *.
    assert (Hpv : p = zlen (layout (take i fs ++ [(k, c)]))).
    { unfold p. rewrite layout_app, layout_one. zlia. }
    exists true, (mk_store (Some (set_len b p))
      (<[l := set_child o None]> (<[ch := set_base o2 false]> h))). split.
    { unfold sbind at 1. rewrite (run_load _ _ _ _ o) by done. rewrite Hchild.
      rewrite run_load_base by done. rewrite (run_load _ _ _ _ o2) by done.
      by rewrite Hoff. }
    split; [by exists b, (set_len b p)|]. eexists _, _. split; [done|].
    assert (Hc2 : layout (take i fs ++ (k, c) :: (k2, c2) :: f2) =
      layout (take i fs ++ [(k, c)]) ++ layout ((k2, c2) :: f2)).
    { rewrite !layout_app, layout_one. cbn [layout]. by rewrite <- !app_assoc. }
    rewrite Hc2 in Hlb, Hc. exists (set_len b p). split_and!; try done.
    + destruct Hb as (? & ? & ?). split; [cbn; zlia|done].
    + unfold contents. cbn [len buf set_len]. rewrite buf_contents, Hc, <- app_assoc.
      apply ztake_app. lia.
    + apply NoDup_app. split; [done|]. split; [|apply NoDup_singleton].
      intros y Hy Hy'. apply list_elem_of_singleton in Hy' as ->. apply (Hdis l Hy).
      apply list_elem_of_here.
    + cbn [cbbs]. eapply chain_replace; [done|done| | |exact Hch|]; [done| |].
      * intros l0 Hl0. rewrite !lookup_insert_ne; [done|intros ->..].
        -- apply (Hdis l0 Hl0). apply list_elem_of_further, list_elem_of_here.
        -- apply (Hdis l0 Hl0), list_elem_of_here.
      * split; [|done]. exists (set_child o None). split; [apply lookup_insert_eq|done].
    + by apply Hfok.
Qed.

Lemma take_S_snoc {A} (l : list A) i x : l !! i = Some x -> take (S i) l = take i l ++ [x].
Proof. apply take_S_r. Qed.

Lemma CBB_add_asn1_outcome malloc s i ls fs l k c ch tag : alloc_ok malloc ->
  represents s ls fs -> ls !! i = Some l -> fs !! i = Some (k, c) ->
  length (take i ls) = length (take i fs) -> is_u 32 tag -> ch ∉ take i ls ++ [l] ->
  outcome malloc s (CBB_add_asn1 malloc l ch tag s)
    (match enc (drop (S i) fs) with
     | Some e => leaf_spec (OpenAsn1 tag ch) (take i ls ++ [l]) (take i fs) k (c ++ e)
     | None => None end).
Proof.
  intros Hm Hr Hl Hf Hlen Htag Hch. unfold CBB_add_asn1, leaf_spec.
  destruct ((tag >? 0xff) || (Z.land tag 0x1f =? 0x1f)) eqn:Et.
  - pose proof Hr as (b & Hbase & Hb & Herr & Hc & Hnd & Hchain & _). destruct s as [ob h].
    cbn in Hbase, Hchain. subst ob.
    rewrite (at_index ls i l Hl), (at_index fs i _ Hf) in Hchain, Hr.
    destruct (frames_ok_split _ _ _ _ (represents_frames _ _ _ Hr)) as (Hp1 & _).
    pose proof (chain_drop _ _ _ _ _ _ Hlen Hp1 Hchain) as [(o & Ho & (Hbo & _) & _) _].
    mstep. rewrite run_fail_base by done.
    exists false, (mk_store (Some (set_error b)) h). split; [done|].
    split; [by exists b, (set_error b)|]. split; [by exists (set_error b)|].
    by destruct (enc (drop (S i) fs)).
  - bool_simpl. eapply (flush_then malloc s i ls fs l k c (add_asn1_tail malloc l ch tag)
      (fun c1 => Some ((take i ls ++ [l]) ++ [ch], take i fs ++ [(k, c1 ++ [tag]); (Asn1, [])])));
      try done.
    + intros s1 c1 Hr1. apply open_asn1_leaf; try done. destruct Htag. split; lia.
    + intros c1 ls' fs' [= <- <-]. rewrite !layout_app. cbn [layout plen]. zlia.
Qed.

(** Every operation on every open object refines its specification. *)
Lemma op_refines malloc s i ls fs l o : alloc_ok malloc ->
  represents s ls fs -> ls !! i = Some l -> op_ok (take (S i) ls) o ->
  outcome malloc s (run_op malloc l o s) (op_spec i o ls fs).
Proof.
  intros Hm Hr Hl Ho. pose proof (represents_length _ _ _ Hr) as Hlen.
  destruct (lookup_lt_is_Some_2 fs i) as [[k c] Hf].
  { rewrite <- Hlen. by eapply lookup_lt_Some. }
  assert (Hlt : length (take i ls) = length (take i fs)) by (rewrite !length_take; lia).
  unfold op_spec. rewrite Hf. rewrite (take_S_snoc ls i l Hl) in *.
  assert (Hadd : forall n v tail, 1 <= n <= 4 -> 0 <= v ->
    (forall s, tail s = cbb_add_u malloc l v n s) ->
    outcome malloc s (tail s) (match enc (drop (S i) fs) with
      | Some e => leaf_spec (AddU n v) (take i ls ++ [l]) (take i fs) k (c ++ e)
      | None => None end)).
  { intros n v tail Hn Hv Heq. rewrite Heq. unfold cbb_add_u.
    eapply (flush_then malloc s i ls fs l k c _ (fun c1 => leaf_spec (AddU n v) _ _ k c1)); try done.
    - intros s1 c1 Hr1. pose proof (add_u_leaf malloc s1 _ l _ k c1 v n Hm Hlt Hr1 Hn Hv) as H.
      unfold cbb_add_u in H.
      by rewrite (run_bind _ _ _ _ _ (flush_leaf malloc s1 _ l _ k c1 Hlt Hr1)) in H.
    - cbn [leaf_spec]. intros c1 ls' fs' Ht. case_if_in Ht; [|done]. injection Ht as <- <-.
      rewrite !layout_app, !layout_one. zlia. }
  assert (Hopen : forall n ch tail, 1 <= n <= 3 -> ch ∉ take i ls ++ [l] ->
    (forall s, tail s = cbb_add_length_prefixed malloc l ch n s) ->
    outcome malloc s (tail s) (match enc (drop (S i) fs) with
      | Some e => leaf_spec (OpenPrefixed n ch) (take i ls ++ [l]) (take i fs) k (c ++ e)
      | None => None end)).
  { intros n ch tail Hn Hch Heq. rewrite Heq.
    eapply (flush_then malloc s i ls fs l k c (add_length_prefixed_tail malloc l ch n)
      (fun c1 => leaf_spec (OpenPrefixed n ch) _ _ k c1)); try done.
    - intros s1 c1 Hr1. by apply open_leaf.
    - intros c1 ls' fs' [= <- <-]. rewrite !layout_app. cbn [layout plen]. zlia. }
  destruct o as [data|n v|n ch|tag ch|v ch| |]; cbn [op_ok] in Ho.
  - cbn [run_op]. rewrite CBB_add_bytes_eq.
    eapply (flush_then malloc s i ls fs l k c _ (fun c1 => leaf_spec (AddBytes data) _ _ k c1));
      try done.
    + intros s1 c1 Hr1. by apply add_bytes_leaf.
    + intros c1 ls' fs' [= <- <-]. rewrite !layout_app, !layout_one. zlia.
  - destruct Ho as [[-> [? ?]]|[[-> [? ?]]|[[-> [? ?]]|[-> [? ?]]]]]; apply Hadd; done.
  - destruct Ho as [Hn Hch]. assert (n = 1 \/ n = 2 \/ n = 3) as Hc3 by lia.
    destruct Hc3 as [-> | [-> | ->]]; apply Hopen; done.
  - destruct Ho as [Htag Hch]. by apply CBB_add_asn1_outcome.
  - destruct Ho as [Hv Hch]. cbn [run_op]. unfold CBB_add_asn1_uint64.
    apply outcome_dispose.
    + eapply outcome_bind; [by eapply (CBB_add_asn1_outcome malloc s i ls fs l k c ch 2)|..].
      * intros ls1 fs1 s1 Ht Hr1. destruct (enc (drop (S i) fs)) as [e|]; [|done].
        injection Ht as <- <-. apply asn1_uint64_tail; try done. by rewrite <- (app_assoc (take i fs)).
      * intros ls1 fs1 Ht. destruct (enc (drop (S i) fs)) as [e|]; [|done].
        injection Ht as <- <-. eexists _, _. split; [done|]. unfold der_element.
        rewrite !layout_app, layout_one. cbn [layout plen].
        pose proof (length_der_length (zlen (asn1_uint_octets v)) ltac:(lia)) as Hd.
        destruct (asn1_uint_octets_spec v Hv) as (_ & _ & _ & Hl9).
        replace (_ <? 128) with true in Hd by (symmetry; apply Z.ltb_lt; lia). zlia.
    + intros ls1 fs1 Ht. destruct (enc (drop (S i) fs)); [|done]. by injection Ht as <- <-.
  - rewrite (at_index ls i l Hl), (at_index fs i _ Hf) in Hr. by apply (flush_at malloc s _ _ _ _ _ _ _ Hm Hlt Hr).
  - rewrite (take_S_snoc fs i _ Hf). by apply discard_spec.
Qed.

(** * Programs that use a builder *)

(** A sequence of operations, each on the object at a location, which is object
    number [i] of the chain at that point; the program stops at the first
    failure, as callers do. *)
Abbreviation program := (list (nat * loc * op)).

Fixpoint run_prog (malloc : allocator) (prog : program) : M store bool :=
  match prog with
  | [] => sret true
  | (_, l, o) :: prog =>
      let* ok := run_op malloc l o in
      if negb ok then sret false else run_prog malloc prog
  end.

Fixpoint prog_ok (prog : program) (ls : list loc) (fs : frames) : Prop :=
  match prog with
  | [] => True
  | (i, l, o) :: prog =>
      ls !! i = Some l /\ op_ok (take (S i) ls) o /\
      match op_spec i o ls fs with
      | Some (ls, fs) => prog_ok prog ls fs
      | None => True
      end
  end.

Fixpoint prog_spec (prog : program) (ls : list loc) (fs : frames) : option (list loc * frames) :=
  match prog with
  | [] => Some (ls, fs)
  | (i, l, o) :: prog =>
      match op_spec i o ls fs with
      | Some (ls, fs) => prog_spec prog ls fs
      | None => None
      end
  end.

(** The largest size the buffer has on the way. *)
Fixpoint prog_peak (prog : program) (ls : list loc) (fs : frames) : Z :=
  match prog with
  | [] => zlen (layout fs)
  | (i, l, o) :: prog =>
      match op_spec i o ls fs with
      | Some (ls, fs) => Z.max (zlen (layout fs)) (prog_peak prog ls fs)
      | None => 0
      end
  end.

(** The bytes a finished program leaves. *)
Definition prog_output (prog : program) (cbb : loc) : option bytes :=
  match prog_spec prog [cbb] [(Top, [])] with
  | Some (_, (_, c) :: fs) => match enc fs with Some e => Some (c ++ e) | None => None end
  | _ => None
  end.

(** Initialises the builder, on a growable or a fixed buffer, runs the program
    and finishes. [None] in the result: a step failed. *)
Definition build (malloc : allocator) (fixed : option bytes) (initial_capacity : Z) (cbb : loc)
    (prog : program) : M store (option (option bytes * option Z)) :=
  let* ok := match fixed with
             | None => CBB_init malloc true cbb initial_capacity
             | Some data => CBB_init_fixed true cbb data (zlen data)
             end in
  if negb ok then sret None
  else
    let* ok := run_prog malloc prog in
    if negb ok then sret None
    else CBB_finish malloc cbb true true.

(** * Lemmas: programs *)

Lemma run_prog_refines malloc prog s ls fs : alloc_ok malloc ->
  represents s ls fs -> prog_ok prog ls fs ->
  exists ok s', run_prog malloc prog s = Some (ok, s') /\ ext_s s s' /\
    if ok then exists ls' fs', prog_spec prog ls fs = Some (ls', fs') /\ represents s' ls' fs'
    else errored s' /\ (prog_spec prog ls fs <> None -> ~ holds malloc s (prog_peak prog ls fs)).
Proof.
  intros Hm. revert s ls fs. induction prog as [|[[i l] o] prog IH]; intros s ls fs Hr Hok.
  { exists true, s. split; [done|]. split; [by eapply ext_s_refl|]. by exists ls, fs. }
  destruct Hok as (Hl & Ho & Hok).
  destruct (op_refines malloc s i ls fs l o Hm Hr Hl Ho) as (ok & s1 & Hrun & Hext & Hres).
  cbn [run_prog prog_spec prog_peak]. rewrite (run_bind _ _ _ _ _ Hrun). destruct ok; cbn [negb].
  - destruct Hres as (ls1 & fs1 & Hspec & Hr1). rewrite Hspec in *.
    destruct (IH s1 ls1 fs1 Hr1 Hok) as (ok & s2 & Hrun2 & Hext2 & Hres2).
    exists ok, s2. split; [done|]. split; [by eapply ext_s_trans|]. destruct ok; [done|].
    destruct Hres2 as [He Hno]. split; [done|]. intros Hs Hh. apply (Hno Hs).
    eapply holds_le; [|by eapply holds_ext]. lia.
  - destruct Hres as [He Hno]. exists false, s1. split; [done|]. split; [done|]. split; [done|].
    intros Hs Hh. destruct (op_spec i o ls fs) as [[ls1 fs1]|]; [|done].
    eapply Hno; [done|]. eapply holds_le; [|exact Hh]. lia.
Qed.

(** A buffer of [n] bytes that cannot grow. *)
Definition fixed_size (s : store) (n : Z) : Prop :=
  exists b, the_base s = Some b /\ can_resize b = false /\ cap b = n.

Lemma fixed_size_ext s s' n : ext_s s s' -> fixed_size s n -> fixed_size s' n.
Proof.
  intros (b & b' & Hb & Hb' & Hr & Hc) (b0 & Hb0 & Hf & <-). rewrite Hb in Hb0. injection Hb0 as <-.
  exists b'. split; [done|]. rewrite Hr. auto.
Qed.

(** What the frames hold is in the buffer. *)
Lemma represents_fits s ls fs n : represents s ls fs -> fixed_size s n -> zlen (layout fs) <= n.
Proof.
  intros (b & Hb & Hok & _ & <- & _) (b0 & Hb0 & _ & <-). rewrite Hb in Hb0. injection Hb0 as <-.
  rewrite contents_len by done. apply Hok.
Qed.

Lemma run_prog_fits malloc prog s ls fs s' n : alloc_ok malloc -> represents s ls fs -> prog_ok prog ls fs ->
  fixed_size s n -> run_prog malloc prog s = Some (true, s') -> fixed_size s' n /\ prog_peak prog ls fs <= n.
Proof.
  intros Hm. revert s ls fs. induction prog as [|[[i l] o] prog IH]; intros s ls fs Hr Hok Hn H.
  { injection H as <-. split; [done|]. by eapply represents_fits. }
  destruct Hok as (Hl & Ho & Hok).
  destruct (op_refines malloc s i ls fs l o Hm Hr Hl Ho) as (ok & s1 & Hrun & Hext & Hres).
  cbn [run_prog prog_peak] in *. rewrite (run_bind _ _ _ _ _ Hrun) in H. destruct ok; [|done].
  destruct Hres as (ls1 & fs1 & Hspec & Hr1). rewrite Hspec in *. pose proof (fixed_size_ext _ _ _ Hext Hn) as Hn1.
  pose proof (represents_fits _ _ _ _ Hr1 Hn1). destruct (IH s1 ls1 fs1 Hr1 Hok Hn1 H). split; [done|lia].
Qed.

Lemma new_builder_represents b cbb h :
  buf_ok b -> error b = false -> len b = 0 ->
  represents (mk_store (Some b) (<[cbb := mk_CBB true None 0 0 false true]> h)) [cbb] [(Top, [])].
Proof.
  intros Hb He Hl. exists b. split; [done|]. split; [done|]. split; [done|]. split.
  { unfold contents. by rewrite ztake_0 by lia. }
  split; [apply NoDup_singleton|]. split; [|done]. split; [|done].
  eexists. split; [apply lookup_insert_eq|]. done.
Qed.

Lemma CBB_init_run malloc cbb n s : alloc_ok malloc -> is_u 64 n ->
  exists ok s', CBB_init malloc true cbb n s = Some (ok, s') /\
    if ok then represents s' [cbb] [(Top, [])] /\
               exists b, the_base s' = Some b /\ can_resize b = true
    else malloc n = None.
Proof.
  intros Hm [Hn0 Hn1]. unfold CBB_init, CBB_zero. destruct s as [ob h]. mstep.
  assert (Hinit : forall data, zlen data = n ->
    exists s', cbb_init true cbb data n (mk_store ob (<[cbb:=zero_CBB]> h)) = Some (true, s') /\
      represents s' [cbb] [(Top, [])] /\ exists b, the_base s' = Some b /\ can_resize b = true).
  { intros data Hd. unfold cbb_init. cbn [negb]. mstep. erewrite run_load by solve_lookup.
    mstep. rewrite insert_insert_eq. eexists. split; [done|]. split; [|eexists; done].
    apply new_builder_represents; [|done|done]. split; [cbn; lia|]. split; [done|]. by split. }
  destruct (malloc n) as [data|] eqn:Em.
  - destruct (Hm _ _ Em) as [Hd _]. destruct (Hinit data Hd) as (s' & -> & H).
    by exists true, s'.
  - case_if; [by eexists false, _|]. assert (n = 0) as -> by lia.
    destruct (Hinit [] eq_refl) as (s' & -> & H). by exists true, s'.
Qed.

Lemma CBB_init_fixed_run cbb data s : is_u 64 (zlen data) ->
  exists s', CBB_init_fixed true cbb data (zlen data) s = Some (true, s') /\
    represents s' [cbb] [(Top, [])] /\
    exists b, the_base s' = Some b /\ can_resize b = false /\ cap b = zlen data.
Proof.
  intros Hn. unfold CBB_init_fixed, CBB_zero, cbb_init. destruct s as [ob h]. mstep.
  eexists. split.
  { unfold sbind at 1. cbn [negb]. rewrite run_assign_base. erewrite run_load by solve_lookup.
    rewrite run_assign, insert_insert_eq. cbn [sret negb].
    erewrite run_load by solve_lookup. by rewrite run_load_base. }
  split; [|by eexists]. apply new_builder_represents; [|done|done].
  destruct Hn. split; [cbn; lia|]. by split.
Qed.

Lemma CBB_finish_run malloc s cbb ls c fs : alloc_ok malloc ->
  represents s (cbb :: ls) ((Top, c) :: fs) ->
  exists r s', CBB_finish malloc cbb true true s = Some (r, s') /\
    match r with
    | Some (data, n) => exists d e, data = Some d /\ enc fs = Some e /\
        ztake (zlen (c ++ e)) d = c ++ e /\ n = Some (zlen (c ++ e)) /\
        forall n, fixed_size s n -> zlen (c ++ e) <= n
    | None => forall e, enc fs = Some e -> ~ holds malloc s (zlen (c ++ e))
    end.
Proof.
  intros Hm Hr. pose proof Hr as (b & Hbase & _ & _ & _ & _ & Hch & _).
  destruct s as [ob h]. cbn in Hbase, Hch. subst ob.
  destruct Hch as [(o & Ho & (_ & _ & _ & _ & Htop) & _) _].
  unfold CBB_finish. erewrite run_load by solve_lookup. rewrite Htop. cbn [negb].
  destruct (flush_at malloc _ [] cbb ls [] Top c fs Hm eq_refl Hr)
    as (ok & s1 & Hrun & Hext & Hok). rewrite (run_bind _ _ _ _ _ Hrun).
  destruct ok; cbn [negb].
  - destruct Hok as (ls1 & fs1 & Ht & Hr1). destruct (enc fs) as [e|]; [|done].
    injection Ht as <- <-.
    destruct (leaf_inv s1 [] cbb [] Top (c ++ e) eq_refl Hr1)
      as (b1 & h1 & o1 & -> & Hb1 & _ & Ho1 & Hbo1 & _ & Hc1).
    pose proof Hr1 as (_ & _ & _ & _ & _ & _ & [(o1' & Ho1' & (_ & _ & _ & _ & Htop1) & _) _] & _).
    cbn in Ho1'. rewrite Ho1 in Ho1'. injection Ho1' as <-.
    do 2 mstep. rewrite andb_false_r. mstep. unfold CBB_cleanup.
    unfold sbind at 1. erewrite run_load by solve_lookup. rewrite Hbo1, Htop1. cbn [negb].
    eexists _, _. split.
    { unfold sbind, load_base. rewrite Hbo1. cbn. reflexivity. }
    exists (buf b1), e. cbn [layout app plen] in Hc1.
    pose proof (contents_len b1 Hb1) as Hl. rewrite Hc1 in Hl.
    unfold contents in Hc1. rewrite <- Hl in Hc1. rewrite <- Hl. split_and!; try done.
    intros n Hn. destruct (fixed_size_ext _ _ _ Hext Hn) as (b2 & [= <-] & _ & <-). change (zlen (c ++ e) = len b1) in Hl. rewrite Hl. apply Hb1.
  - destruct Hok as [_ Hno]. eexists _, _. split; [done|].
    intros e He Hh. rewrite He in Hno. eapply Hno; [done|].
    eapply holds_le; [|exact Hh]. cbn [app layout plen]. rewrite app_nil_r. done.
Qed.

Lemma represents_top s ls fs : represents s ls fs ->
  exists l ls' c fs', ls = l :: ls' /\ fs = (Top, c) :: fs'.
Proof.
  intros (b & _ & _ & _ & _ & _ & Hch & Hfs).
  destruct fs as [|[[| |] c] fs]; try done. destruct ls as [|l ls]; [done|]. eauto 6.
Qed.

Lemma op_spec_head i o ls fs ls' fs' : op_spec i o ls fs = Some (ls', fs') ->
  length ls = length fs -> head ls' = head ls.
Proof.
  unfold op_spec. destruct (fs !! i) as [[k c]|] eqn:Hf; [|done]. intros H Hlen.
  assert (Htake : head (take (S i) ls) = head ls) by (by destruct ls).
  assert (Hne : ls <> []).
  { intros ->. destruct fs; [by rewrite lookup_nil in Hf|done]. }
  assert (Happ : forall x, head (take (S i) ls ++ [x]) = head ls) by (by destruct ls).
  destruct o; try (injection H as <- _; done);
    (destruct (enc (drop (S i) fs)) as [e|]; [|done]); cbn [leaf_spec] in H;
    try (case_if_in H; [try done|]); simplify_eq; auto.
Qed.

Lemma op_spec_length i o ls fs ls' fs' : op_spec i o ls fs = Some (ls', fs') ->
  length ls = length fs -> length ls' = length fs'.
Proof.
  unfold op_spec. destruct (fs !! i) as [[k c]|] eqn:Hf; [|done]. intros H Hlen.
  assert (Hi : (i < length fs)%nat) by (by eapply lookup_lt_Some).
  assert (Ht : length (take (S i) ls) = (length (take i fs) + 1)%nat) by (rewrite !length_take; lia).
  destruct o; try (injection H as <- <-; rewrite !length_take; lia);
    (destruct (enc (drop (S i) fs)) as [e|]; [|done]); cbn [leaf_spec] in H;
    try (case_if_in H; try done); injection H as <- <-; rewrite !length_app; cbn [length]; lia.
Qed.

Lemma prog_spec_head prog ls fs ls' fs' : prog_spec prog ls fs = Some (ls', fs') ->
  length ls = length fs -> head ls' = head ls.
Proof.
  revert ls fs. induction prog as [|[[i l] o] prog IH]; intros ls fs H Hlen.
  { by injection H as <- _. }
  cbn [prog_spec] in H. destruct (op_spec i o ls fs) as [[ls1 fs1]|] eqn:E; [|done].
  etransitivity; [eapply IH; [exact H|]|]; [by eapply op_spec_length|by eapply op_spec_head].
Qed.

Lemma prog_output_eq prog cbb ls c fs :
  prog_spec prog [cbb] [(Top, [])] = Some (ls, (Top, c) :: fs) ->
  prog_output prog cbb = match enc fs with Some e => Some (c ++ e) | None => None end.
Proof. intros H. unfold prog_output. by rewrite H. Qed.

(** The growable case and the fixed case have the same proof. *)
Lemma build_tail malloc s cbb prog : alloc_ok malloc ->
  represents s [cbb] [(Top, [])] -> prog_ok prog [cbb] [(Top, [])] ->
  exists r s',
    (let* ok := run_prog malloc prog in
     if negb ok then sret None else CBB_finish malloc cbb true true) s = Some (r, s') /\
    match r with
    | Some (data, n) => exists d out, data = Some d /\ n = Some (zlen out) /\
        prog_output prog cbb = Some out /\ ztake (zlen out) d = out /\
        forall n, fixed_size s n -> Z.max (prog_peak prog [cbb] [(Top, [])]) (zlen out) <= n
    | None => forall out, prog_output prog cbb = Some out ->
        ~ holds malloc s (Z.max (prog_peak prog [cbb] [(Top, [])]) (zlen out))
    end.
Proof.
  intros Hm Hr Hok.
  destruct (run_prog_refines malloc prog s _ _ Hm Hr Hok) as (ok & s1 & Hrun & Hext & Hres).
  rewrite (run_bind _ _ _ _ _ Hrun). destruct ok; cbn [negb].
  - destruct Hres as (ls & fs & Hspec & Hr1).
    destruct (represents_top _ _ _ Hr1) as (l & ls' & c & fs' & -> & ->).
    pose proof (prog_spec_head _ _ _ _ _ Hspec eq_refl) as [= ->].
    rewrite (prog_output_eq _ _ _ _ _ Hspec).
    destruct (CBB_finish_run malloc s1 cbb ls' c fs' Hm Hr1) as (r & s2 & -> & Hfin).
    exists r, s2. split; [done|]. destruct r as [[data n]|].
    + destruct Hfin as (d & e & -> & -> & Hd & -> & Hfit). exists d, (c ++ e). split_and!; try done.
      intros n Hn. destruct (run_prog_fits malloc prog s _ _ s1 n Hm Hr Hok Hn Hrun) as [Hn1 Hp].
      specialize (Hfit n Hn1). lia.
    + intros out Hout Hh. destruct (enc fs') as [e|]; [|done]. injection Hout as <-.
      apply (Hfin e eq_refl). eapply holds_ext; [exact Hext|]. eapply holds_le; [|exact Hh]. lia.
  - destruct Hres as [_ Hno]. eexists _, _. split; [done|]. intros out Hout Hh.
    apply Hno; [|eapply holds_le; [|exact Hh]; lia].
    unfold prog_output in Hout. by destruct (prog_spec prog _ _).
Qed.

(** * Properties *)

(** C1. Refinement of the frame specification. For every program of builder
    operations on open objects (bytes, integers, length-prefixed and ASN.1
    children to any depth, INTEGERs, flushes and discards), initialising a
    growable builder, running the program and finishing never reads a missing
    object or a freed buffer, never writes out of bounds and never fails an
    assertion; a successful run returns exactly the bytes the specification
    gives; and if malloc does not fail, a run fails only if the specification
    fails (a length or integer too large for its field, a bad tag) or a size
    reaches 2^64. *)
Theorem CBB_build_refines malloc cbb initial_capacity prog s :
  alloc_ok malloc -> is_u 64 initial_capacity -> prog_ok prog [cbb] [(Top, [])] ->
  exists r s', build malloc None initial_capacity cbb prog s = Some (r, s') /\
    match r with
    | Some (data, n) => exists d out, data = Some d /\ n = Some (zlen out) /\
        prog_output prog cbb = Some out /\ ztake (zlen out) d = out
    | None => (forall n, is_u 64 n -> malloc n <> None) -> forall out,
        prog_output prog cbb = Some out ->
        2 ^ 64 <= Z.max (prog_peak prog [cbb] [(Top, [])]) (zlen out)
    end.
Proof.
  intros Hm Hn Hok. unfold build.
  destruct (CBB_init_run malloc cbb initial_capacity s Hm Hn) as (ok & s1 & Hrun & Hinit).
  rewrite (run_bind _ _ _ _ _ Hrun). destruct ok; cbn [negb].
  2: { eexists _, _. split; [done|]. intros H. by destruct (H initial_capacity Hn). }
  destruct Hinit as [Hr (b & Hb & Hcr)].
  destruct (build_tail malloc s1 cbb prog Hm Hr Hok) as (r & s2 & Hrun2 & Hres).
  exists r, s2. split; [done|]. destruct r as [[data n]|].
  { destruct Hres as (d & out & H1 & H2 & H3 & H4 & _). by exists d, out. }
  intros Hall out Hout. apply Z.nlt_ge. intros Hlt. apply (Hres out Hout).
  exists b. split; [done|]. split; [done|]. by rewrite Hcr.
Qed.

(** A program with two nested children and an INTEGER. *)
Definition sample_prog : program :=
  [(0%nat, 1%positive, OpenAsn1 0x30 2%positive);
   (1%nat, 2%positive, AddAsn1Uint64 200 3%positive);
   (1%nat, 2%positive, OpenPrefixed 2 3%positive);
   (2%nat, 3%positive, AddBytes [7; 8; 9])].

Lemma CBB_build_refines_witness :
  let out := [0x30; 9; 2; 2; 0; 200; 0; 3; 7; 8; 9] in
  prog_output sample_prog 1%positive = Some out /\
  exists r s', build (filled_alloc 0) None 4 1%positive sample_prog (mk_store None ∅) = Some (r, s') /\
    match r with
    | Some (data, n) => exists d out, data = Some d /\ n = Some (zlen out) /\
        prog_output sample_prog 1%positive = Some out /\ ztake (zlen out) d = out
    | None => (forall n, is_u 64 n -> filled_alloc 0 n <> None) -> forall out,
        prog_output sample_prog 1%positive = Some out ->
        2 ^ 64 <= Z.max (prog_peak sample_prog [1%positive] [(Top, [])]) (zlen out)
    end.
Proof.
  split; [reflexivity|].
  apply (CBB_build_refines (filled_alloc 0) 1%positive 4 sample_prog (mk_store None ∅)).
  - apply filled_alloc_ok. split; lia.
  - split; lia.
  - repeat split; try reflexivity; try lia; cbn; rewrite ?not_elem_of_cons; repeat split;
      try done; apply not_elem_of_nil.
Defined.

(** C33. On a fixed buffer the builder never writes past the buffer's end: every
    program runs without undefined behaviour, and it succeeds exactly when the
    specification does and the buffer has room for the bytes it has to hold at
    any point; it then leaves exactly the specified bytes. *)
Theorem CBB_build_fixed_refines malloc cbb data prog s :
  alloc_ok malloc -> is_u 64 (zlen data) -> prog_ok prog [cbb] [(Top, [])] ->
  exists r s', build malloc (Some data) 0 cbb prog s = Some (r, s') /\
    (forall out, prog_output prog cbb = Some out ->
       (r <> None <-> Z.max (prog_peak prog [cbb] [(Top, [])]) (zlen out) <= zlen data)) /\
    match r with
    | Some (data', n) => exists d out, data' = Some d /\ n = Some (zlen out) /\
        prog_output prog cbb = Some out /\ ztake (zlen out) d = out
    | None => True
    end.
Proof.
  intros Hm Hn Hok. unfold build.
  destruct (CBB_init_fixed_run cbb data s Hn) as (s1 & Hrun & Hr & b & Hb & Hcr & Hcap).
  rewrite (run_bind _ _ _ _ _ Hrun). cbn [negb].
  destruct (build_tail malloc s1 cbb prog Hm Hr Hok) as (r & s2 & Hrun2 & Hres).
  exists r, s2. split; [done|]. destruct r as [[data' n]|].
  - destruct Hres as (d & out & -> & -> & Hout & Hd & Hfit). split; [|by exists d, out].
    intros out' Hout'. rewrite Hout in Hout'. injection Hout' as <-. split; [|done]. intros _. apply Hfit. by exists b.
  - split; [|done]. intros out Hout. split; [done|]. intros Hle. destruct (Hres out Hout).
    exists b. split; [done|]. destruct Hn. split; [lia|]. rewrite Hcr. lia.
Qed.

Lemma CBB_build_fixed_refines_witness :
  let data := zrepeat 16 0xaa in
  exists r s', build (filled_alloc 0) (Some data) 0 1%positive sample_prog (mk_store None ∅)
      = Some (r, s') /\
    (forall out, prog_output sample_prog 1%positive = Some out ->
       (r <> None <-> Z.max (prog_peak sample_prog [1%positive] [(Top, [])]) (zlen out) <= zlen data)) /\
    match r with
    | Some (data', n) => exists d out, data' = Some d /\ n = Some (zlen out) /\
        prog_output sample_prog 1%positive = Some out /\ ztake (zlen out) d = out
    | None => True
    end.
Proof.
  apply (CBB_build_fixed_refines (filled_alloc 0) 1%positive (zrepeat 16 0xaa) sample_prog
    (mk_store None ∅)).
  - apply filled_alloc_ok. split; lia.
  - unfold is_u. rewrite length_zrepeat. lia.
  - repeat split; try reflexivity; try lia; cbn; rewrite ?not_elem_of_cons; repeat split;
      try done; apply not_elem_of_nil.
Defined.

(** An error is sticky: once it is recorded, every operation that writes
    through an object that uses the buffer returns 0 and leaves the buffer as it
    is, whatever the state of the children; and an object that has been detached
    (its child was flushed) fails in the same way instead of touching the
    buffer. *)
Theorem CBB_error_sticky malloc s l o op b :
  cbbs s !! l = Some o -> the_base s = Some b ->
  (base o = true /\ error b = true) \/
    (base o = false /\ match op with OpenAsn1 tag _ => valid_tag tag | _ => True end) ->
  op <> DiscardChild ->
  exists s', run_op malloc l op s = Some (false, s') /\ the_base s' = Some b.
Proof.
  intros Ho Hb Hst Hop. destruct s as [ob h]. cbn in Ho, Hb. subst ob.
  assert (Hfl : CBB_flush malloc l (mk_store (Some b) h) = Some (false, mk_store (Some b) h)).
  { unfold CBB_flush. cbn [cbb_flush]. mstep. destruct Hst as [[Hbo He]|[Hbo _]]; rewrite Hbo; [|done].
    cbn [negb]. rewrite run_load_base by done. by rewrite He. }
  assert (Hasn1 : forall tag ch, (base o = false -> valid_tag tag) -> exists s',
    CBB_add_asn1 malloc l ch tag (mk_store (Some b) h) = Some (false, s') /\
    the_base s' = Some b /\ cbbs s' = h).
  { intros tag ch Htag. unfold CBB_add_asn1. case_if.
    - mstep. destruct Hst as [[Hbo He]|[Hbo _]].
      + rewrite run_fail_base by done. eexists. split; [done|]. cbn. split; [|done].
        unfold set_error. destruct b. cbn in He. by subst.
      + destruct (Htag Hbo) as [[? ?] Hne]. apply orb_prop in E as [E|E]; bool_simpl; [lia|done].
    - rewrite (run_bind _ _ _ _ _ Hfl). eexists. split; [done|]. done. }
  assert (Hany : forall (k : bool -> M store bool), (forall s, k false s = Some (false, s)) ->
    exists s', sbind (CBB_flush malloc l) k (mk_store (Some b) h) = Some (false, s') /\
      the_base s' = Some b).
  { intros k Hk. rewrite (run_bind _ _ _ _ _ Hfl), Hk. by eexists. }
  destruct op as [data|n v|n ch|tag ch|v ch| |]; try done.
  - cbn [run_op]. rewrite CBB_add_bytes_eq. by apply Hany.
  - cbn [run_op]. repeat case_match; by apply Hany.
  - cbn [run_op]. repeat case_match; by apply Hany.
  - destruct (Hasn1 tag ch) as (s' & Hrun & Hb' & _); [|by exists s'].
    intros Hbo. destruct Hst as [[? ?]|[_ ?]]; [congruence|done].
  - cbn [run_op]. unfold CBB_add_asn1_uint64.
    destruct (Hasn1 CBS_ASN1_INTEGER ch) as (s' & Hrun & Hb' & Hh); [by intros _|].
    unfold sbind at 1. rewrite (run_bind _ _ _ _ _ Hrun). cbn [negb].
    eexists. split; [done|]. done.
  - cbn [run_op]. rewrite Hfl. by eexists.
Qed.

Lemma CBB_error_sticky_witness :
  let b := mk_buffer [1; 2; 3; 4] 2 4 false true in
  let s := mk_store (Some b) {[1%positive := mk_CBB true None 0 0 false true]} in
  exists s', run_op (filled_alloc 0) 1%positive (AddU 1 5) s = Some (false, s') /\
    the_base s' = Some b.
Proof.
  eapply CBB_error_sticky; [reflexivity|reflexivity|by left|done].
Defined.

(** Unlike every other operation, [CBB_did_write] does not look at the
    error: after an error it still succeeds and extends the contents, although
    bytestring.h says that once [error] is set "all future operations will
    fail". *)
Theorem CBB_did_write_ignores_error s l o b n :
  cbbs s !! l = Some o -> the_base s = Some b -> base o = true -> child o = None ->
  buf_ok b -> 0 <= n -> len b + n <= cap b -> error b = true ->
  CBB_did_write l n s = Some (true, mk_store (Some (set_len b (len b + n))) (cbbs s)).
Proof.
  intros Ho Hb Hbase Hch (? & _ & [? ?]) Hn Hcap _. destruct s as [ob h]. cbn in Ho, Hb. subst ob.
  unfold CBB_did_write. do 2 mstep. rewrite Hch, u64_small by (split; lia).
  assert ((len b + n <? len b) = false) as -> by (apply Z.ltb_ge; lia).
  assert ((len b + n >? cap b) = false) as -> by (rewrite Z.gtb_ltb; apply Z.ltb_ge; lia).
  done.
Qed.

Lemma CBB_did_write_ignores_error_witness :
  let b := mk_buffer [1; 2; 3; 4] 2 4 false true in
  let h := {[1%positive := mk_CBB true None 0 0 false true]} : gmap loc CBB in
  CBB_did_write 1%positive 1 (mk_store (Some b) h) =
    Some (true, mk_store (Some (set_len b 3)) h).
Proof.
  intros b h.
  apply (CBB_did_write_ignores_error (mk_store (Some b) h) 1%positive
    (mk_CBB true None 0 0 false true) b 1);
    try reflexivity; try (cbn; lia). split_and!; cbn; try split; lia.
Defined.
