(* ===== verification/Asn1.v ===== *)
(** * ASN.1 between the builder and the reader

    What clients of crypto/bytestring do with ASN.1: elements of any nesting are written
    with [CBB_add_asn1], [CBB_add_asn1_uint64] and [CBB_add_bytes] of cbb.c (Cbb.v), and
    read with [CBS_get_any_asn1] and [CBS_get_asn1_uint64] of cbs.c (Cbs.v). Here both
    directions are functions of a tree of elements, and reading inverts writing. *)

From Stdlib Require Import ZArith Lia.
From stdpp Require Import base option list gmap.
From S2P Require Import Prelude Mem Cbs Cbb.

(** * Trees of elements *)

(** A sequence of elements: the first of them and the next ones. *)
Inductive asn1 :=
| Empty
| Integer (v : Z) (next : asn1)
| Primitive (tag : Z) (contents : bytes) (next : asn1)
| Constructed (tag : Z) (children next : asn1).

Definition constructed (tag : Z) : bool := negb (Z.land tag CBS_ASN1_CONSTRUCTED =? 0).

Fixpoint asn1_ok (t : asn1) : Prop :=
  match t with
  | Empty => True
  | Integer v next => is_u 64 v /\ asn1_ok next
  | Primitive tag c next =>
      (valid_tag tag /\ constructed tag = false /\ tag <> CBS_ASN1_INTEGER /\ bytes_ok c) /\ asn1_ok next
  | Constructed tag children next => (valid_tag tag /\ constructed tag = true) /\ asn1_ok children /\ asn1_ok next
  end.

(** The encoding of X.690, section 10. *)
Fixpoint der (t : asn1) : bytes :=
  match t with
  | Empty => []
  | Integer v next => der_element CBS_ASN1_INTEGER (asn1_uint_octets v) ++ der next
  | Primitive tag c next => der_element tag c ++ der next
  | Constructed tag children next => der_element tag (der children) ++ der next
  end.

(** * Writing *)

(** The location of object number [i] of the chain of open objects. *)
Definition obj (i : nat) : loc := Pos.of_succ_nat i.

(** The calls that write [t] to object number [i]; an element is closed when something is
    written after it, or at the end. *)
Fixpoint writes (i : nat) (t : asn1) : program :=
  match t with
  | Empty => []
  | Integer v next => (i, obj i, AddAsn1Uint64 v (obj (S i))) :: writes i next
  | Primitive tag c next =>
      (i, obj i, OpenAsn1 tag (obj (S i))) :: (S i, obj (S i), AddBytes c) :: writes i next
  | Constructed tag children next =>
      (i, obj i, OpenAsn1 tag (obj (S i))) :: writes (S i) children ++ writes i next
  end.

(** * Reading *)

(** Reads a whole input; the input gets shorter with each element, and is longer than what
    the element holds. *)
Fixpoint reads (fuel : nat) (cbs : CBS) : option asn1 :=
  match fuel with
  | O => None
  | S fuel =>
      if CBS_len cbs =? 0 then Some Empty
      else if CBS_peek_asn1_tag cbs CBS_ASN1_INTEGER then
        match CBS_get_asn1_uint64 cbs with
        | (Some v, cbs) => Integer v <$> reads fuel cbs
        | (None, _) => None
        end
      else
        match CBS_get_any_asn1 cbs with
        | (Some (contents, tag), cbs) =>
            if constructed tag then
              children ← reads fuel contents; Constructed tag children <$> reads fuel cbs
            else Primitive tag contents <$> reads fuel cbs
        | (None, _) => None
        end
  end.

(** * Lemmas: reading *)

Lemma der_ok t : asn1_ok t -> bytes_ok (der t).
Proof.
  induction t as [|v next IH|tag c next IH|tag ch IHc next IH]; cbn [asn1_ok der]; [constructor|..].
  - intros [Hv Hn]. destruct (asn1_uint_octets_spec v Hv) as (_ & ? & _). apply bytes_ok_app. split; [by apply der_element_ok|auto].
  - intros [([Ht _] & _ & _ & Hc) Hn]. apply bytes_ok_app. split; [by apply der_element_ok|auto].
  - intros [[[Ht _] _] [Hc Hn]]. apply bytes_ok_app. split; [apply der_element_ok; auto|auto].
Qed.

Lemma length_der_element tag c : zlen c + 2 <= zlen (der_element tag c).
Proof.
  pose proof (length_der_length (zlen c) ltac:(lia)) as H. unfold der_element. rewrite length_cons, length_app.
  assert (1 <= zlen (der_length (zlen c))) by (rewrite H; unfold len_octets; repeat case_if; lia). lia.
Qed.

Lemma get_any_asn1_der tag c rest : valid_tag tag -> zlen c < 2 ^ 32 ->
  CBS_get_any_asn1 (der_element tag c ++ rest) = (Some (c, tag), rest).
Proof.
  intros Ht Hc. unfold CBS_get_any_asn1, CBS_get_any_asn1_element, rbind.
  rewrite asn1_element_der by done. by rewrite der_header_skip.
Qed.

Lemma peek_der tag c rest t : tag <> t -> CBS_peek_asn1_tag (der_element tag c ++ rest) t = false.
Proof. intros H. unfold CBS_peek_asn1_tag, der_element. cbn [app]. case_if; [done|]. by apply Z.eqb_neq. Qed.

Lemma reads_der t : forall fuel, asn1_ok t -> zlen (der t) < 2 ^ 32 -> (length (der t) < fuel)%nat -> reads fuel (der t) = Some t.
Proof.
  induction t as [|v next IH|tag c next IH|tag ch IHc next IH]; intros fuel Hok Hl Hf; (destruct fuel as [|fuel]; [lia|]);
    cbn [asn1_ok der reads] in *; [done|..]; rewrite length_app in Hl, Hf.
  - destruct Hok as [Hv Hn]. pose proof (length_der_element CBS_ASN1_INTEGER (asn1_uint_octets v)).
    replace (CBS_len _ =? 0) with false by (symmetry; apply Z.eqb_neq; unfold CBS_len; rewrite length_app; lia).
    assert (Hp : CBS_peek_asn1_tag (der_element CBS_ASN1_INTEGER (asn1_uint_octets v) ++ der next) CBS_ASN1_INTEGER = true) by apply CBS_peek_cons.
    assert (Hg : CBS_get_asn1_uint64 (der_element CBS_ASN1_INTEGER (asn1_uint_octets v) ++ der next) = (Some v, der next))
      by (apply asn1_uint64_iff; [by apply (der_ok (Integer v next))|done]).
    rewrite Hp, Hg.
    rewrite IH by (done || lia). done.
  - destruct Hok as [(Ht & Hc & Hi & Hb) Hn]. pose proof (length_der_element tag c).
    replace (CBS_len _ =? 0) with false by (symmetry; apply Z.eqb_neq; unfold CBS_len; rewrite length_app; lia).
    rewrite peek_der, get_any_asn1_der, Hc, IH by (done || lia). done.
  - destruct Hok as [[Ht Hc] [Hch Hn]]. pose proof (length_der_element tag (der ch)).
    replace (CBS_len _ =? 0) with false by (symmetry; apply Z.eqb_neq; unfold CBS_len; rewrite length_app; lia).
    rewrite peek_der, get_any_asn1_der, Hc by (done || lia || (intros ->; done)). rewrite IHc by (done || lia). cbn [mbind option_bind].
    by rewrite IH by (done || lia).
Qed.

(** * Lemmas: writing *)

(** The chain of open objects is [obj 0], [obj 1] and so on. *)
Definition locs (fs : frames) : list loc := obj <$> seq 0 (length fs).

(** Object number [length f1], of prefix [k], stands for [x] once what is open below it
    is closed. *)
Definition open_at (f1 : frames) (k : prefix) (x : bytes) (fs : frames) : Prop :=
  exists c pend e, fs = f1 ++ (k, c) :: pend /\ Forall (fun f => f.1 = Asn1) pend /\
    enc pend = Some e /\ x = c ++ e.

(** The program leads from [fs] to [fs'] and never holds more than [B] bytes. *)
Definition steps (prog : program) (fs fs' : frames) (B : Z) : Prop :=
  prog_ok prog (locs fs) fs /\ prog_spec prog (locs fs) fs = Some (locs fs', fs') /\
  prog_peak prog (locs fs) fs <= B.

Definition cost (f1 : frames) (k : prefix) (x : bytes) : Z := zlen (layout f1) + plen k + zlen x.

Lemma layout_pending pend e : Forall (fun f => f.1 = Asn1) pend -> enc pend = Some e ->
  zlen (layout pend) <= zlen e.
Proof.
  revert e. induction pend as [|[k c] pend IH]; intros e Hp; [by intros [= <-]|].
  apply Forall_cons in Hp as [Hk Hp]. cbn [fst] in Hk. subst k. cbn [enc].
  destruct (enc pend) as [e'|] eqn:E; [|done]. intros H. apply enc1_le in H. specialize (IH e' Hp eq_refl).
  cbn [layout plen] in *. rewrite !length_app, length_zrepeat in *. lia.
Qed.

Lemma open_at_layout f1 k x fs : 0 <= plen k -> open_at f1 k x fs -> zlen (layout fs) <= cost f1 k x.
Proof.
  intros Hk (c & pend & e & -> & Hp & He & ->). pose proof (layout_pending _ _ Hp He). unfold cost.
  rewrite layout_app. cbn [layout]. rewrite !length_app, length_zrepeat. lia.
Qed.

(** Closing an element. *)
Lemma open_at_close f1 k c y fs : zlen y <= 0xfffffffe -> open_at (f1 ++ [(k, c)]) Asn1 y fs ->
  open_at f1 k (c ++ der_length (zlen y) ++ y) fs.
Proof.
  intros Hy (c' & pend & e & -> & Hp & He & ->). exists c, ((Asn1, c') :: pend), (der_length (zlen (c' ++ e)) ++ c' ++ e).
  rewrite <- app_assoc. split; [done|]. split; [by constructor|]. cbn [enc]. rewrite He. cbn [enc1].
  apply Z.leb_le in Hy. by rewrite Hy.
Qed.

Lemma locs_take f1 k c pend : take (S (length f1)) (locs (f1 ++ (k, c) :: pend)) = locs (f1 ++ [(k, c)]).
Proof. unfold locs. rewrite <- fmap_take, take_seq, !length_app. cbn [length]. do 2 f_equal. lia. Qed.

Lemma locs_lookup f1 k c pend : locs (f1 ++ (k, c) :: pend) !! length f1 = Some (obj (length f1)).
Proof. unfold locs. rewrite list_lookup_fmap, lookup_seq_lt by (rewrite length_app; cbn [length]; lia). done. Qed.

Lemma locs_length fs fs' : length fs = length fs' -> locs fs = locs fs'.
Proof. unfold locs. by intros ->. Qed.

Lemma locs_snoc fs f : locs (fs ++ [f]) = locs fs ++ [obj (length fs)].
Proof. unfold locs. rewrite length_app, seq_app, fmap_app. done. Qed.

Lemma obj_fresh fs : obj (length fs) ∉ locs fs.
Proof.
  unfold locs. intros H. apply list_elem_of_fmap in H as (j & Hj & Hin). apply elem_of_seq in Hin. unfold obj in Hj. lia.
Qed.

Lemma op_spec_open o f1 k x fs : o <> DiscardChild -> open_at f1 k x fs ->
  exists c, op_spec (length f1) o (locs fs) fs = leaf_spec o (locs (f1 ++ [(k, c)])) f1 k x.
Proof.
  intros Ho (c & pend & e & -> & Hp & He & ->). exists c. unfold op_spec. rewrite list_lookup_middle by done.
  rewrite locs_take, <- (Nat.add_1_r (length f1)), drop_app_add. cbn [drop]. rewrite drop_0, He, take_app_length. by destruct o.
Qed.

(** One operation on an open object. *)
Lemma steps_op i o f1 k x fs fs1 fs' prog B : i = length f1 -> 0 <= plen k -> o <> DiscardChild -> open_at f1 k x fs ->
  (forall c, op_ok (locs (f1 ++ [(k, c)])) o) ->
  (forall c, leaf_spec o (locs (f1 ++ [(k, c)])) f1 k x = Some (locs fs1, fs1)) ->
  zlen (layout fs1) <= B -> steps prog fs1 fs' B -> steps ((i, obj i, o) :: prog) fs fs' B.
Proof.
  intros -> Hk Ho Hat Hop Hsp HB (H1 & H2 & H3). destruct (op_spec_open o f1 k x fs Ho Hat) as [c Hc].
  rewrite Hsp in Hc. unfold steps. cbn [prog_ok prog_spec prog_peak]. rewrite Hc.
  destruct Hat as (c' & pend & e & -> & _). rewrite locs_lookup, locs_take. split; [|split; [done|lia]]. auto.
Qed.

Lemma steps_app p q fs fs1 fs2 B : steps p fs fs1 B -> steps q fs1 fs2 B -> steps (p ++ q) fs fs2 B.
Proof.
  intros (H1 & H2 & H3) Hq. unfold steps. generalize dependent (locs fs). intros ls.
  revert ls fs. induction p as [|[[i l] o] p IH]; intros ls fs; cbn [app prog_ok prog_spec prog_peak].
  { intros _ [= -> ->] _. exact Hq. }
  destruct (op_spec i o ls fs) as [[ls' fs']|]; [|done]. intros (Hl & Ho & Hok) Hs Hpk.
  destruct (IH ls' fs' Hok Hs ltac:(lia)) as (? & ? & ?). split; [done|]. split; [done|]. lia.
Qed.

Lemma steps_mono p fs fs' B B' : B <= B' -> steps p fs fs' B -> steps p fs fs' B'.
Proof. intros HB (? & ? & ?). split; [done|]. split; [done|]. lia. Qed.

Lemma plen_nonneg k : k = Top \/ k = Asn1 -> 0 <= plen k.
Proof. by intros [-> | ->]. Qed.

Lemma valid_tag_test tag : valid_tag tag -> (tag >? 0xff) || (Z.land tag 0x1f =? 0x1f) = false.
Proof. intros [[_ Ht] Hn]. apply orb_false_iff. split; [lia|by apply Z.eqb_neq]. Qed.

(** After an operation that adds [y] to the contents. *)
Lemma open_at_leaf f1 k x : open_at f1 k x (f1 ++ [(k, x)]).
Proof. exists x, [], []. by rewrite app_nil_r. Qed.

Lemma cost_app f1 k x y : cost f1 k (x ++ y) = cost f1 k x + zlen y.
Proof. unfold cost. rewrite length_app. lia. Qed.

Lemma cost_snoc f1 k x : 0 <= plen k -> cost (f1 ++ [(k, x)]) Asn1 [] = cost f1 k x + 1.
Proof. intros Hk. unfold cost. rewrite layout_app, layout_one, !length_app, length_zrepeat. cbn [plen length]. lia. Qed.

(** Opening an element and what is written in it. *)
Lemma steps_open f1 k x fs tag c p B : k = Top \/ k = Asn1 -> valid_tag tag -> open_at f1 k x fs ->
  zlen c <= 0xfffffffe -> cost f1 k (x ++ der_element tag c) <= B ->
  (forall g, length g = S (length f1) -> open_at g Asn1 [] (g ++ [(Asn1, [])]) ->
     cost g Asn1 c <= B -> exists fs', steps p (g ++ [(Asn1, [])]) fs' B /\ open_at g Asn1 c fs') ->
  exists fs', steps ((length f1, obj (length f1), OpenAsn1 tag (obj (S (length f1)))) :: p) fs fs' B /\
  open_at f1 k (x ++ der_element tag c) fs'.
Proof.
  intros Hk Ht Hat Hc HB Hp. pose proof (plen_nonneg k Hk) as Hk0. pose proof (length_der_element tag c) as Hd.
  set (g := f1 ++ [(k, x ++ [tag])]). destruct (Hp g) as (fs' & Hs & Ho).
  { unfold g. rewrite length_app. cbn. lia. }
  { apply open_at_leaf. }
  { unfold g. change c with ([] ++ c). rewrite cost_app, cost_snoc by done. rewrite cost_app in *. cbn [length]. lia. }
  assert (Ho2 : open_at f1 k (x ++ der_element tag c) fs').
  { unfold der_element. change (tag :: ?y) with ([tag] ++ y). rewrite app_assoc. by apply open_at_close. }
  exists fs'. split; [|done]. eapply (steps_op _ _ _ _ _ _ (g ++ [(Asn1, [])])); [done..|exact Hat| | | |exact Hs].
  - intros c'. destruct Ht as [[Ht0 Ht1] _]. split; [split; lia|].
    replace (S (length f1)) with (length (f1 ++ [(k, c')])) by (rewrite length_app; cbn; lia). apply obj_fresh.
  - intros c'. cbn [leaf_spec]. rewrite valid_tag_test by done. unfold g. rewrite (locs_snoc (f1 ++ _)), length_app, <- app_assoc.
    cbn [app length]. rewrite Nat.add_1_r. by rewrite (locs_length (f1 ++ [(k, c')]) (f1 ++ [(k, x ++ [tag])])) by (by rewrite !length_app).
  - eapply Z.le_trans; [apply (open_at_layout g Asn1 []); [done|apply open_at_leaf]|].
    unfold g. rewrite cost_snoc by done. rewrite cost_app in *. cbn [length]. lia.
Qed.

(** Writing a sequence of elements adds their encoding. *)
Lemma writes_steps t : forall f1 k x fs, k = Top \/ k = Asn1 -> asn1_ok t -> zlen (der t) <= 0xfffffffe ->
  open_at f1 k x fs ->
  exists fs', steps (writes (length f1) t) fs fs' (cost f1 k (x ++ der t)) /\ open_at f1 k (x ++ der t) fs'.
Proof.
  induction t as [|v next IH|tag c next IH|tag ch IHc next IH]; intros f1 k x fs Hk Hok Hl Hat;
    pose proof (plen_nonneg k Hk) as Hk0; cbn [asn1_ok der writes] in *.
  - rewrite app_nil_r. exists fs. split; [|done]. split; [done|]. split; [done|]. cbn [prog_peak]. by apply open_at_layout.
  - destruct Hok as [Hv Hn]. rewrite length_app in Hl. set (y := der_element CBS_ASN1_INTEGER (asn1_uint_octets v)) in *.
    destruct (IH f1 k (x ++ y) (f1 ++ [(k, x ++ y)]) Hk Hn ltac:(lia) (open_at_leaf _ _ _)) as (fs' & Hs & Ho).
    rewrite app_assoc. exists fs'. split; [|done]. eapply (steps_op _ _ _ _ _ _ (f1 ++ [(k, x ++ y)])); [done..|exact Hat| | | |exact Hs].
    + intros c'. split; [done|]. replace (S (length f1)) with (length (f1 ++ [(k, c')])) by (rewrite length_app; cbn; lia).
      apply obj_fresh.
    + intros c'. cbn [leaf_spec]. by rewrite (locs_length (f1 ++ [(k, c')]) (f1 ++ [(k, x ++ y)])) by (by rewrite !length_app).
    + eapply Z.le_trans; [apply open_at_layout; [done|apply open_at_leaf]|]. rewrite !cost_app. lia.
  - destruct Hok as [(Ht & _ & _ & Hc) Hn]. rewrite length_app in Hl. pose proof (length_der_element tag c) as Hd.
    set (B := cost f1 k (x ++ der_element tag c ++ der next)).
    destruct (steps_open f1 k x fs tag c [(S (length f1), obj (S (length f1)), AddBytes c)] B Hk Ht Hat ltac:(lia))
      as (fs1 & Hs1 & Ho1).
    { unfold B. rewrite app_assoc, (cost_app _ _ _ (der next)). lia. }
    { intros g Hg Hat1 HB. exists (g ++ [(Asn1, c)]). split; [|apply open_at_leaf]. rewrite <- Hg.
      eapply (steps_op _ (AddBytes c) g Asn1 [] _ (g ++ [(Asn1, c)])); [done..|exact Hat1| | | |].
      - intros c'. cbn. unfold is_u. lia.
      - intros c'. cbn [leaf_spec app]. by rewrite (locs_length (g ++ [(Asn1, c')]) (g ++ [(Asn1, c)])) by (by rewrite !length_app).
      - eapply Z.le_trans; [apply open_at_layout; [|apply open_at_leaf]; done|done].
      - split; [done|]. split; [done|]. cbn [prog_peak].
        eapply Z.le_trans; [apply open_at_layout; [|apply open_at_leaf]; done|done]. }
    destruct (IH f1 k _ fs1 Hk Hn ltac:(lia) Ho1) as (fs' & Hs & Ho). rewrite <- app_assoc in Hs, Ho.
    exists fs'. split; [|done]. apply (steps_app [_; _] _ fs fs1); done.
  - destruct Hok as ([Ht _] & Hch & Hn). rewrite length_app in Hl. pose proof (length_der_element tag (der ch)) as Hd.
    set (B := cost f1 k (x ++ der_element tag (der ch) ++ der next)).
    destruct (steps_open f1 k x fs tag (der ch) (writes (S (length f1)) ch) B Hk Ht Hat ltac:(lia))
      as (fs1 & Hs1 & Ho1).
    { unfold B. rewrite app_assoc, (cost_app _ _ _ (der next)). lia. }
    { intros g Hg Hat1 HB. rewrite <- Hg. destruct (IHc g Asn1 [] _ (or_intror eq_refl) Hch ltac:(lia) Hat1) as (fs' & Hs & Ho).
      exists fs'. split; [|done]. by eapply steps_mono. }
    destruct (IH f1 k _ fs1 Hk Hn ltac:(lia) Ho1) as (fs' & Hs & Ho). rewrite <- app_assoc in Hs, Ho.
    exists fs'. split; [|done]. rewrite app_comm_cons. by apply (steps_app _ _ fs fs1).
Qed.

(** The whole program, on a new builder. *)
Lemma writes_output t : asn1_ok t -> zlen (der t) <= 0xfffffffe ->
  prog_ok (writes 0 t) [obj 0] [(Top, [])] /\ prog_output (writes 0 t) (obj 0) = Some (der t) /\
  prog_peak (writes 0 t) [obj 0] [(Top, [])] <= zlen (der t).
Proof.
  intros Hok Hl. destruct (writes_steps t [] Top [] [(Top, [])] (or_introl eq_refl) Hok Hl (open_at_leaf _ _ _))
    as (fs' & (H1 & H2 & H3) & (c & pend & e & -> & _ & He & Heq)).
  split; [exact H1|]. split; [|exact H3]. unfold prog_output. change [obj 0] with (locs [(Top, [])]).
  cbn [length] in H2. rewrite H2. cbn [app]. rewrite He. by rewrite <- Heq.
Qed.

(** * Properties *)

(** C34. What the builder writes as ASN.1 the reader reads back. For every tree of
    elements (INTEGERs, primitive elements and constructed elements nested to any depth)
    whose encoding is shorter than 2^32 - 1 bytes, the calls that write it, on a growable
    buffer when malloc does not fail or on a fixed buffer with room for the encoding,
    succeed and leave exactly its DER encoding; and reading that, element by element and
    down into the constructed ones, gives the tree back. *)
Theorem CBB_CBS_asn1_roundtrip malloc fixed cap t s :
  alloc_ok malloc -> asn1_ok t -> zlen (der t) <= 0xfffffffe ->
  match fixed with
  | None => is_u 64 cap /\ (forall n, is_u 64 n -> malloc n <> None)
  | Some data => zlen (der t) <= zlen data /\ is_u 64 (zlen data)
  end ->
  exists d s', build malloc fixed cap (obj 0) (writes 0 t) s = Some (Some (Some d, Some (zlen (der t))), s') /\
    ztake (zlen (der t)) d = der t /\
    reads (S (length (der t))) (CBS_init d (zlen (der t))) = Some t.
Proof.
  intros Hm Ht Hl Hfix. destruct (writes_output t Ht Hl) as (Hok & Hout & Hpk).
  assert (Hr : reads (S (length (der t))) (der t) = Some t) by (apply reads_der; [done|lia|lia]).
  assert (Hinit : exists s1, (match fixed with
      | None => CBB_init malloc true (obj 0) cap
      | Some data => CBB_init_fixed true (obj 0) data (zlen data)
      end) s = Some (true, s1) /\ represents s1 [obj 0] [(Top, [])] /\ holds malloc s1 (zlen (der t))).
  { destruct fixed as [data|].
    - destruct Hfix as [Hfit Hu]. destruct (CBB_init_fixed_run (obj 0) data s Hu) as (s1 & Hrun & Hr1 & b & Hb & Hcr & Hcap).
      exists s1. split; [done|]. split; [done|]. exists b. split; [done|]. split; [lia|]. rewrite Hcr. lia.
    - destruct Hfix as [Hcap Hall]. destruct (CBB_init_run malloc (obj 0) cap s Hm Hcap) as ([|] & s1 & Hrun & Hi).
      + destruct Hi as (Hr1 & b & Hb & Hcr). exists s1. split; [done|]. split; [done|]. exists b. split; [done|]. split; [lia|].
        by rewrite Hcr.
      + by destruct (Hall cap Hcap). }
  destruct Hinit as (s1 & Hrun & Hr1 & Hh). unfold build. rewrite (run_bind _ _ _ _ _ Hrun). cbn [negb].
  destruct (build_tail malloc s1 (obj 0) (writes 0 t) Hm Hr1 Hok) as (r & s2 & -> & Hres).
  destruct r as [[data n]|].
  - destruct Hres as (d & out & -> & -> & Ho & Hd & _). rewrite Hout in Ho. injection Ho as <-.
    exists d, s2. unfold CBS_init. by rewrite Hd.
  - destruct (Hres _ Hout). by rewrite Z.max_r.
Qed.

(** A SEQUENCE of an INTEGER, a string and a SET of a NULL, before another INTEGER. *)
Definition sample_tree : asn1 :=
  Constructed 0x30
    (Integer 65537 (Primitive 0x04 [1; 2; 3] (Constructed 0x31 (Primitive 0x05 [] Empty) Empty)))
    (Integer 200 Empty).

Lemma CBB_CBS_asn1_roundtrip_witness :
  let out := [0x30; 14; 2; 3; 1; 0; 1; 4; 3; 1; 2; 3; 0x31; 2; 5; 0; 2; 2; 0; 200] in
  der sample_tree = out /\
  exists d s', build (filled_alloc 0) (Some (zrepeat 32 0xaa)) 0 (obj 0) (writes 0 sample_tree) (mk_store None ∅)
      = Some (Some (Some d, Some (zlen (der sample_tree))), s') /\
    ztake (zlen (der sample_tree)) d = der sample_tree /\
    reads (S (length (der sample_tree))) (CBS_init d (zlen (der sample_tree))) = Some sample_tree.
Proof.
  split; [reflexivity|].
  apply (CBB_CBS_asn1_roundtrip (filled_alloc 0) (Some (zrepeat 32 0xaa)) 0 sample_tree (mk_store None ∅)).
  - apply filled_alloc_ok. split; lia.
  - cbn. repeat split; try done; repeat constructor; lia.
  - by vm_compute.
  - split; [by vm_compute|split; by vm_compute].
Defined.
