(* ===== verification/Ber.v ===== *)
(** The BER to DER converter: crypto/bytestring/ber.c, on top of the reader
    (Cbs.v) and the builder (Cbb.v). The recursion of both walks is on inputs
    that get strictly shorter, so the length of the input is enough fuel. *)

From Stdlib Require Import ZArith Lia.
From stdpp Require Import base list option gmap.
From S2P Require Import Prelude Mem Cbs Cbb.

(** * Operations *)

Definition kMaxDepth := 2048.

Definition is_string_type (tag : Z) : bool :=
  if negb (Z.land tag 0xc0 =? 0) then false
  else existsb (Z.eqb (Z.land tag 0x1f))
    [CBS_ASN1_BITSTRING; CBS_ASN1_OCTETSTRING; 0xc; 0x12; 0x13; 0x14; 0x15; 0x16;
     0x19; 0x1a; 0x1b; 0x1c; 0x1e].

(** The test for an indefinite-length element. *)
Definition is_indefinite (contents : CBS) (header_len : Z) : bool :=
  (CBS_len contents =? header_len) && (header_len >? 0) &&
  (zget (CBS_data contents) (header_len - 1) =? 0x80).

Definition is_constructed (tag : Z) : bool := negb (Z.land tag CBS_ASN1_CONSTRUCTED =? 0).

(** The walk of [cbs_find_ber] over one level. Result: [None] when the fuel runs
    out, [Some None] for the return value 0, [Some (Some ber_found)]
    otherwise. *)
Fixpoint find_ber_loop (fuel : nat) (inp : CBS) (ber_found : bool) (depth : Z) :
    option (option bool) :=
  match fuel with
  | O => None
  | S fuel =>
      if negb (CBS_len inp >? 0) then Some (Some ber_found)
      else match CBS_get_any_ber_asn1_element inp with
      | (None, _) => Some None
      | (Some (contents, tag, header_len), inp) =>
          if is_indefinite contents header_len then Some (Some true)
          else if is_constructed tag then
            if is_string_type tag then Some (Some true)
            else match CBS_skip header_len contents with
            | (None, _) => Some None
            | (Some _, contents) =>
                let depth' := depth + 1 in
                let r := if depth' >? kMaxDepth then Some None
                         else find_ber_loop fuel contents false depth' in
                match r with
                | None => None
                | Some None => Some None
                | Some (Some ber_found) => find_ber_loop fuel inp ber_found depth
                end
            end
          else find_ber_loop fuel inp ber_found depth
      end
  end.

Definition cbs_find_ber (orig_in : CBS) (depth : Z) : option (option bool) :=
  if depth >? kMaxDepth then Some None
  else find_ber_loop (S (length orig_in)) orig_in false depth.

Definition is_eoc (header_len : Z) (contents : CBS) : bool :=
  (header_len =? 2) && (CBS_len contents =? 2) &&
  bool_decide (ztake 2 (CBS_data contents) = [0; 0]).

(** The address of [out_contents_storage] in the activation at a depth. *)
Definition storage_loc (depth : Z) : loc := Z.to_pos (depth + 2).

(** Result: the return value and [*in]. *)
Fixpoint cbs_convert_ber (malloc : allocator) (fuel : nat) (inp : CBS) (out : loc)
    (string_tag : Z) (looking_for_eoc : bool) (depth : Z) : M store (bool * CBS) :=
  match fuel with
  | O => sstuck
  | S fuel =>
      if negb (Z.land string_tag CBS_ASN1_CONSTRUCTED =? 0) then sstuck
      else if depth >? kMaxDepth then sret (false, inp)
      else if negb (CBS_len inp >? 0) then sret (negb looking_for_eoc, inp)
      else match CBS_get_any_ber_asn1_element inp with
      | (None, inp) => sret (false, inp)
      | (Some (contents, tag, header_len), inp) =>
          if is_eoc header_len contents then sret (looking_for_eoc, inp)
          else
            (* the element's contents go to [out_contents]; then the next element *)
            let body out_contents child_string_tag :=
              if is_indefinite contents header_len then
                let* (ok, inp) := cbs_convert_ber malloc fuel inp out_contents child_string_tag
                                    true (depth + 1) in
                if negb ok then sret (false, inp)
                else
                  let* ok := CBB_flush malloc out in
                  if negb ok then sret (false, inp)
                  else cbs_convert_ber malloc fuel inp out string_tag looking_for_eoc depth
              else match CBS_skip header_len contents with
              | (None, _) => sret (false, inp)
              | (Some _, contents) =>
                  let* ok :=
                    if is_constructed tag then
                      let* (ok, _) := cbs_convert_ber malloc fuel contents out_contents
                                        child_string_tag false (depth + 1) in sret ok
                    else CBB_add_bytes malloc out_contents (CBS_data contents) (CBS_len contents) in
                  if negb ok then sret (false, inp)
                  else
                    let* ok := CBB_flush malloc out in
                    if negb ok then sret (false, inp)
                    else cbs_convert_ber malloc fuel inp out string_tag looking_for_eoc depth
              end in
            if negb (string_tag =? 0) then
              if negb (Z.ldiff tag CBS_ASN1_CONSTRUCTED =? string_tag) then sret (false, inp)
              else body out string_tag
            else
              let out_tag := if is_constructed tag && is_string_type tag
                             then Z.ldiff tag CBS_ASN1_CONSTRUCTED else tag in
              let child_string_tag := if is_constructed tag && is_string_type tag
                                      then out_tag else string_tag in
              let* ok := CBB_add_asn1 malloc out (storage_loc depth) out_tag in
              if negb ok then sret (false, inp)
              else body (storage_loc depth) child_string_tag
      end
  end.

(** Result: [None] for the return value 0, otherwise [*out] and [*out_len],
    where [*out] is [None] for NULL; and [*in]. [cbb] is the location of the
    local builder, [malloc_ok] the outcome of the allocation of its buffer's
    descriptor. *)
Definition CBS_asn1_ber_to_der (malloc : allocator) (malloc_ok : bool) (cbb : loc) (inp : CBS) :
    M store (option (option bytes * Z) * CBS) :=
  let* r := slift (cbs_find_ber inp 0) in
  match r with
  | None => sret (None, inp)
  | Some false => sret (Some (None, 0), inp)
  | Some true =>
      let* (r, inp) :=
        (let* ok := CBB_init malloc malloc_ok cbb (CBS_len inp) in
         if negb ok then sret (None, inp)
         else
           let* (ok, inp) := cbs_convert_ber malloc (S (length inp)) inp cbb 0 false 0 in
           if negb ok then sret (None, inp)
           else let* r := CBB_finish malloc cbb true true in sret (r, inp)) in
      match r with
      | Some (Some data, Some n) => sret (Some (Some data, n), inp)
      | _ => CBB_cleanup cbb ;;; sret (None, inp)
      end
  end.

(** The loop over the chunks of [CBS_get_asn1_implicit_string]; its input gets
    shorter with each chunk. *)
Fixpoint implicit_string_chunks (malloc : allocator) (fuel : nat) (result : loc) (child : CBS)
    (inner_tag : Z) : M store bool :=
  match fuel with
  | O => sstuck
  | S fuel =>
      if negb (CBS_len child >? 0) then sret true
      else match CBS_get_asn1 inner_tag child with
      | (None, _) => sret false
      | (Some chunk, child) =>
          let* ok := CBB_add_bytes malloc result (CBS_data chunk) (CBS_len chunk) in
          if negb ok then sret false
          else implicit_string_chunks malloc fuel result child inner_tag
      end
  end.

(** Result: the return value with [*out], and [*in]. *)
Definition CBS_get_asn1_implicit_string (malloc : allocator) (malloc_ok : bool) (result : loc)
    (inp : CBS) (outer_tag inner_tag : Z) : M store (option CBS * CBS) :=
  if negb (Z.land outer_tag CBS_ASN1_CONSTRUCTED =? 0)
     || negb (Z.land inner_tag CBS_ASN1_CONSTRUCTED =? 0)
     || negb (is_string_type inner_tag) then sstuck
  else if CBS_peek_asn1_tag inp outer_tag then sret (CBS_get_asn1 outer_tag inp)
  else
    let* (r, inp) :=
      (let* ok := CBB_init malloc malloc_ok result (CBS_len inp) in
       if negb ok then sret (None, inp)
       else match CBS_get_asn1 (Z.lor outer_tag CBS_ASN1_CONSTRUCTED) inp with
       | (None, inp) => sret (None, inp)
       | (Some child, inp) =>
           let* ok := implicit_string_chunks malloc (S (length child)) result child inner_tag in
           if negb ok then sret (None, inp)
           else
             let* r := CBB_finish malloc result true true in
             sret (r, inp)
       end) in
    match r with
    | Some (Some data, Some n) => sret (Some (CBS_init data n), inp)
    | _ => CBB_cleanup result ;;; sret (None, inp)
    end.

(** * Well-formed DER *)

(** A sequence of DER elements whose constructed elements are not strings and
    hold such sequences, nested at most [n] deep. *)
Inductive der_forest : nat -> bytes -> Prop :=
| forest_nil n : der_forest n []
| forest_prim n tag c rest :
    valid_tag tag -> is_constructed tag = false -> zlen c < 2 ^ 32 ->
    der_forest n rest -> der_forest n (der_element tag c ++ rest)
| forest_cons n tag c rest :
    valid_tag tag -> is_constructed tag = true -> is_string_type tag = false ->
    zlen c < 2 ^ 32 -> der_forest n c -> der_forest (S n) rest ->
    der_forest (S n) (der_element tag c ++ rest).

(** * Well-nested BER *)

(** A sequence of elements: the first of them and the next ones. A constructed element has
    a definite or an indefinite length. *)
Inductive ber :=
| Nil
| Prim (tag : Z) (contents : bytes) (next : ber)
| Cons (indefinite : bool) (tag : Z) (children next : ber).

(** The encoding of X.690, section 8.1: an indefinite-length element has the length octet
    0x80 and ends with the end-of-contents octets. *)
Fixpoint ber_bytes (t : ber) : bytes :=
  match t with
  | Nil => []
  | Prim tag c next => der_element tag c ++ ber_bytes next
  | Cons false tag ch next => der_element tag (ber_bytes ch) ++ ber_bytes next
  | Cons true tag ch next => [tag; 0x80] ++ ber_bytes ch ++ [0; 0] ++ ber_bytes next
  end.

(** The primitive form of a tag. *)
Definition primitive (tag : Z) : Z := Z.ldiff tag CBS_ASN1_CONSTRUCTED.

(** The tag of the strings an element stands in, given the tag of those it stands in itself. *)
Definition string_of_tag (seg : option Z) (tag : Z) : option Z :=
  match seg with
  | Some st => Some st
  | None => if is_string_type tag then Some (primitive tag) else None
  end.

(** Well-formed at a nesting depth; inside a constructed string, of primitive tag [seg],
    every element is a piece of that string (X.690, section 8.14). A primitive element with
    tag 0 and no contents would be the end-of-contents octets. *)
Fixpoint ber_ok (seg : option Z) (depth : Z) (t : ber) : Prop :=
  match t with
  | Nil => True
  | Prim tag c next =>
      (valid_tag tag /\ is_constructed tag = false /\ zlen c < 2 ^ 32 /\
       (tag = 0 -> c <> []) /\ (forall st, seg = Some st -> tag = st)) /\ ber_ok seg depth next
  | Cons indefinite tag ch next =>
      (valid_tag tag /\ is_constructed tag = true /\ depth < kMaxDepth /\
       (indefinite = false -> zlen (ber_bytes ch) < 2 ^ 32) /\ (forall st, seg = Some st -> primitive tag = st)) /\
      ber_ok (string_of_tag seg tag) (depth + 1) ch /\ ber_ok seg depth next
  end.

(** The contents of a string in pieces. *)
Fixpoint string_of (t : ber) : bytes :=
  match t with
  | Nil => []
  | Prim _ c next => c ++ string_of next
  | Cons _ _ ch next => string_of ch ++ string_of next
  end.

(** The DER of the same values: definite minimal lengths, strings in one piece. *)
Fixpoint der_of (t : ber) : bytes :=
  match t with
  | Nil => []
  | Prim tag c next => der_element tag c ++ der_of next
  | Cons _ tag ch next =>
      (if is_string_type tag then der_element (primitive tag) (string_of ch)
       else der_element tag (der_of ch)) ++ der_of next
  end.

(** The contents of every element of the DER have a length the builder can write. *)
Fixpoint der_fits (t : ber) : Prop :=
  match t with
  | Nil => True
  | Prim _ c next => zlen c <= 0xfffffffe /\ der_fits next
  | Cons _ tag ch next =>
      (if is_string_type tag then zlen (string_of ch) <= 0xfffffffe
       else zlen (der_of ch) <= 0xfffffffe /\ der_fits ch) /\ der_fits next
  end.

(** Something is not DER: an indefinite length or a string in pieces, at any level. *)
Fixpoint needs (t : ber) : bool :=
  match t with
  | Nil => false
  | Prim _ _ next => needs next
  | Cons indefinite tag ch next => indefinite || is_string_type tag || needs ch || needs next
  end.

Fixpoint has_constructed (t : ber) : bool :=
  match t with
  | Nil => false
  | Prim _ _ next => has_constructed next
  | Cons _ _ _ _ => true
  end.

(** What the walk notices of it: of what is inside the constructed elements of a level,
    only what is inside the last one. *)
Fixpoint noticed (t : ber) : bool :=
  match t with
  | Nil => false
  | Prim _ _ next => noticed next
  | Cons indefinite tag ch next =>
      indefinite || is_string_type tag || if has_constructed next then noticed next else noticed ch
  end.

(** The conversion on byte strings, step by step: the DER written and the input left. It
    stands between the code and the trees. *)
Fixpoint conv (fuel : nat) (inp : CBS) (string_tag : Z) (looking_for_eoc : bool) (depth : Z) :
    option (bytes * CBS) :=
  match fuel with
  | O => None
  | S fuel =>
      if depth >? kMaxDepth then None
      else if negb (CBS_len inp >? 0) then if looking_for_eoc then None else Some ([], inp)
      else match CBS_get_any_ber_asn1_element inp with
      | (None, _) => None
      | (Some (contents, tag, header_len), inp) =>
          if is_eoc header_len contents then if looking_for_eoc then Some ([], inp) else None
          else
            let body child_string_tag :=
              if is_indefinite contents header_len
              then conv fuel inp child_string_tag true (depth + 1)
              else
                let contents := zdrop header_len contents in
                if is_constructed tag then
                  match conv fuel contents child_string_tag false (depth + 1) with
                  | None => None
                  | Some (x, _) => Some (x, inp)
                  end
                else Some (contents, inp) in
            let next x inp :=
              match conv fuel inp string_tag looking_for_eoc depth with
              | None => None
              | Some (y, inp) => Some (x ++ y, inp)
              end in
            if negb (string_tag =? 0) then
              if negb (Z.ldiff tag CBS_ASN1_CONSTRUCTED =? string_tag) then None
              else match body string_tag with
                   | None => None
                   | Some (x, inp) => next x inp
                   end
            else
              let str := is_constructed tag && is_string_type tag in
              let out_tag := if str then Z.ldiff tag CBS_ASN1_CONSTRUCTED else tag in
              match body (if str then out_tag else string_tag) with
              | None => None
              | Some (x, inp) =>
                  match enc1 Asn1 x with
                  | None => None
                  | Some e => next (out_tag :: e) inp
                  end
              end
      end
  end.

(** * Lemmas: reading BER elements *)

Lemma der_element_indefinite tag c :
  is_indefinite (der_element tag c) (1 + zlen (der_length (zlen c))) = false.
Proof.
  unfold is_indefinite, CBS_len, CBS_data. destruct c as [|x c].
  - cbn. apply andb_false_r.
  - replace (_ =? _) with false; [done|]. symmetry. apply Z.eqb_neq. unfold der_element. zlia.
Qed.

Lemma der_header tag c :
  zdrop (1 + zlen (der_length (zlen c))) (der_element tag c) = c /\
  2 <= 1 + zlen (der_length (zlen c)) <= zlen (der_element tag c).
Proof.
  split.
  - change (der_element tag c) with ((tag :: der_length (zlen c)) ++ c). apply zdrop_app.
    cbn [length]. lia.
  - pose proof (length_der_length (zlen c) ltac:(lia)) as Hd.
    assert (1 <= zlen (der_length (zlen c))).
    { rewrite Hd. case_if; [lia|]. unfold len_octets. repeat case_if; lia. }
    unfold der_element. zlia.
Qed.

(** What the BER reader accepts: a DER element, or the two-byte header of an
    indefinite-length element. *)
Inductive ber_read : CBS -> CBS -> Z -> Z -> CBS -> Prop :=
| read_der tag c rest : valid_tag tag -> zlen c < 2 ^ 32 ->
    ber_read (der_element tag c ++ rest) (der_element tag c) tag
      (1 + zlen (der_length (zlen c))) rest
| read_indefinite tag rest : valid_tag tag -> is_constructed tag = true ->
    ber_read (tag :: 0x80 :: rest) [tag; 0x80] tag 2 rest.

Lemma ber_element_inv cbs out tag hl rest : bytes_ok cbs ->
  CBS_get_any_ber_asn1_element cbs = (Some (out, tag, hl), rest) ->
  ber_read cbs out tag hl rest.
Proof.
  intros Hok H. unfold CBS_get_any_ber_asn1_element in H.
  destruct cbs as [|t [|lb r]]; [done..|].
  pose proof Hok as Hok'. apply Forall_cons_iff in Hok' as [Ht Hok'].
  apply Forall_cons_iff in Hok' as [Hlb Hr].
  destruct ((Z.land t 0x1f =? 0x1f) || negb (negb (Z.land t CBS_ASN1_CONSTRUCTED =? 0) && (lb =? 128)))
    eqn:Ecase.
  - assert (HH : cbs_get_any_asn1_element true (t :: lb :: r) =
                 cbs_get_any_asn1_element false (t :: lb :: r)).
    { rewrite !asn1_element_cons by done. case_if; [done|]. cbn [orb] in Ecase.
      apply negb_true_iff in Ecase. cbn [andb]. by rewrite Ecase. }
    rewrite HH in H. apply asn1_element_inv in H as (c & Hv & Hc & -> & -> & Hcbs); [|done].
    rewrite Hcbs. by constructor.
  - bool_simpl. subst lb. rewrite asn1_element_cons in H by done.
    replace (Z.land t 31 =? 31) with false in H by (symmetry; by apply Z.eqb_neq).
    replace (Z.land t CBS_ASN1_CONSTRUCTED =? 0) with false in H by (symmetry; by apply Z.eqb_neq).
    cbn [Z.ltb Z.eqb Z.compare Pos.compare Pos.compare_cont andb negb Pos.eqb] in H.
    change (t :: 128 :: r) with ([t; 128] ++ r) in H. rewrite cbs_get_app in H by done.
    injection H as <- <- <- <-. constructor; [by split|].
    unfold is_constructed. apply negb_true_iff. by apply Z.eqb_neq.
Qed.

Lemma ber_element_der tag c rest : valid_tag tag -> zlen c < 2 ^ 32 ->
  CBS_get_any_ber_asn1_element (der_element tag c ++ rest) =
    (Some (der_element tag c, tag, 1 + zlen (der_length (zlen c))), rest).
Proof. intros. by apply asn1_element_der. Qed.

(** Reading makes progress: both the rest and the contents are shorter. *)
Lemma ber_read_shorter cbs out tag hl rest : ber_read cbs out tag hl rest -> bytes_ok cbs ->
  bytes_ok rest /\ bytes_ok out /\ (length rest < length cbs)%nat /\
  (length (zdrop hl out) < length cbs)%nat /\ CBS_skip hl out = (Some tt, zdrop hl out) /\
  is_byte tag /\ Z.land tag 0x1f <> 0x1f.
Proof.
  intros H Hok. destruct H as [tag c rest Hv Hc|tag rest Hv Hcon].
  - apply bytes_ok_app in Hok as [? ?]. destruct (der_header tag c) as [Hd Hl].
    destruct Hv. split_and!; try done; [zlia..|]. rewrite Hd. apply der_header_skip.
  - change (tag :: 128 :: rest) with ([tag; 128] ++ rest) in *.
    apply bytes_ok_app in Hok as [? ?]. destruct Hv. split_and!; try done; zlia.
Qed.


(** * Lemmas: cbs_find_ber *)

(** The length of the input is enough fuel. *)
Lemma find_ber_total fuel inp found depth : (length inp < fuel)%nat -> bytes_ok inp ->
  find_ber_loop fuel inp found depth <> None.
Proof.
  revert inp found depth. induction fuel as [|fuel IH]; intros inp found depth Hf Hok; [lia|].
  cbn [find_ber_loop]. case_if; [done|].
  destruct (CBS_get_any_ber_asn1_element inp) as [[[[out tag] hl]|] rest] eqn:Eg; [|done].
  apply ber_element_inv in Eg; [|done].
  destruct (ber_read_shorter _ _ _ _ _ Eg Hok) as (Hr & Ho & Hl1 & Hl2 & -> & _).
  case_if; [done|]. case_if; [|apply IH; [lia|done]]. case_if; [done|].
  assert (Hz : bytes_ok (zdrop hl out)) by auto with bssl.
  case_if; [done|].
  pose proof (IH (zdrop hl out) false (depth + 1) ltac:(lia) Hz) as Hc.
  destruct (find_ber_loop fuel (zdrop hl out) false (depth + 1)) as [[b|]|]; [|done..].
  apply IH; [lia|done].
Qed.

(** On a DER forest that is not too deep nothing is found. *)
Lemma find_ber_der fuel n x depth : der_forest n x -> (length x < fuel)%nat ->
  depth + Z.of_nat n <= kMaxDepth -> find_ber_loop fuel x false depth = Some (Some false).
Proof.
  intros H. revert fuel depth.
  induction H as [n|n tag c rest Hv Hcon Hc Hrest IH|n tag c rest Hv Hcon Hstr Hc Hcf IHc Hrest IH];
    intros fuel depth Hf Hd; (destruct fuel as [|fuel]; [lia|]); cbn [find_ber_loop]; [done|..];
    rewrite ber_element_der, der_element_indefinite, Hcon by done;
    destruct (der_header tag c) as [Hdrop Hhl]; rewrite length_app in Hf;
    (case_if; [unfold CBS_len in *; zlia|]).
  - apply IH; [lia|done].
  - rewrite Hstr, der_header_skip. case_if; [lia|].
    rewrite IHc; [apply IH; lia| |lia].
    enough (length c < length (der_element tag c))%nat by lia.
    unfold der_element. rewrite length_cons, length_app. lia.
Qed.

(** * Lemmas: the conversion *)

Lemma clear_constructed tag : is_byte tag ->
  is_byte (Z.ldiff tag 0x20) /\ is_constructed (Z.ldiff tag 0x20) = false /\
  Z.land (Z.ldiff tag 0x20) 0x1f = Z.land tag 0x1f /\
  Z.land (Z.ldiff tag 0x20) CBS_ASN1_CONSTRUCTED = 0 /\
  (is_string_type tag = true -> Z.ldiff tag 0x20 <> 0).
Proof.
  intros H.
  assert (Hb : (0 <=? Z.ldiff tag 0x20) && (Z.ldiff tag 0x20 <? 256) &&
    negb (is_constructed (Z.ldiff tag 0x20)) &&
    (Z.land (Z.ldiff tag 0x20) 0x1f =? Z.land tag 0x1f) &&
    (Z.land (Z.ldiff tag 0x20) CBS_ASN1_CONSTRUCTED =? 0) &&
    implb (is_string_type tag) (negb (Z.ldiff tag 0x20 =? 0)) = true).
  { revert tag H. apply byte_forall. reflexivity. }
  bool_simpl. split; [split; [done|lia]|]. split; [done|]. split; [done|]. split; [done|].
  intros Hs. rewrite Hs in *. cbn [implb] in *. by bool_simpl.
Qed.

Lemma enc1_asn1 x e : enc1 Asn1 x = Some e -> e = der_length (zlen x) ++ x /\ zlen x < 2 ^ 32.
Proof.
  cbn [enc1]. intros H. case_if_in H; [|done]. injection H as <-. split; [done|lia].
Qed.

(** What is left of the input is a shorter byte string. *)
Lemma conv_rest fuel inp st eoc depth x rest : bytes_ok inp ->
  conv fuel inp st eoc depth = Some (x, rest) ->
  bytes_ok rest /\ (length rest <= length inp)%nat.
Proof.
  revert inp st eoc depth x rest.
  induction fuel as [|fuel IH]; intros inp st eoc depth x rest Hok H; [done|].
  cbn [conv] in H. case_if_in H; [done|].
  case_if_in H; [case_if_in H; [done|]; injection H as _ <-; split; [done|lia]|].
  destruct (CBS_get_any_ber_asn1_element inp) as [[[[out tag] hl]|] inp'] eqn:Eg; [|done].
  apply ber_element_inv in Eg; [|done].
  destruct (ber_read_shorter _ _ _ _ _ Eg Hok) as (Hr & Ho & Hl & _).
  case_if_in H; [case_if_in H; [|done]; injection H as _ <-; split; [done|lia]|].
  assert (Hbody : forall st' c inp2,
    (if is_indefinite out hl then conv fuel inp' st' true (depth + 1)
     else if is_constructed tag then
       match conv fuel (zdrop hl out) st' false (depth + 1) with
       | None => None | Some (x, _) => Some (x, inp') end
     else Some (zdrop hl out, inp')) = Some (c, inp2) ->
    bytes_ok inp2 /\ (length inp2 <= length inp')%nat).
  { intros st' c inp2 Hb. case_if_in Hb; [by eapply IH|]. case_if_in Hb; [|injection Hb as _ <-; split; [done|lia]].
    destruct (conv fuel (zdrop hl out) st' false (depth + 1)) as [[? ?]|]; [|done]. injection Hb as _ <-. split; [done|lia]. }
  case_if_in H; [case_if_in H; [done|]|].
  - destruct (if is_indefinite out hl then _ else _) as [[c inp2]|] eqn:Eb; [|done].
    apply Hbody in Eb as [Hok2 Hl2].
    destruct (conv fuel inp2 st eoc depth) as [[y inp3]|] eqn:En; [|done].
    injection H as _ <-. apply IH in En as [? ?]; [|done]. split; [done|lia].
  - destruct (if is_indefinite out hl then _ else _) as [[c inp2]|] eqn:Eb; [|done].
    apply Hbody in Eb as [Hok2 Hl2]. destruct (enc1 Asn1 c); [|done].
    destruct (conv fuel inp2 st eoc depth) as [[y inp3]|] eqn:En; [|done].
    injection H as _ <-. apply IH in En as [? ?]; [|done]. split; [done|lia].
Qed.

(** What the conversion writes at a level where it is not concatenating a
    string is a DER forest. *)
Lemma conv_forest fuel inp eoc depth x rest : bytes_ok inp ->
  conv fuel inp 0 eoc depth = Some (x, rest) ->
  depth <= kMaxDepth /\ der_forest (Z.to_nat (kMaxDepth - depth)) x.
Proof.
  revert inp eoc depth x rest.
  induction fuel as [|fuel IH]; intros inp eoc depth x rest Hok H; [done|].
  cbn [conv] in H. case_if_in H; [done|]. case_if_in H.
  { case_if_in H; [done|]. injection H as <- _. split; [done|constructor]. }
  destruct (CBS_get_any_ber_asn1_element inp) as [[[[out tag] hl]|] inp'] eqn:Eg; [|done].
  apply ber_element_inv in Eg; [|done].
  destruct (ber_read_shorter _ _ _ _ _ Eg Hok) as (Hr & Ho & _ & _ & _ & Htag & Hv).
  case_if_in H. { case_if_in H; [|done]. injection H as <- _. split; [done|constructor]. }
  cbn [Z.eqb negb] in H.
  destruct (clear_constructed tag Htag) as (Hct & Hcc & Hcv & _).
  set (str := is_constructed tag && is_string_type tag) in *.
  set (out_tag := if str then Z.ldiff tag CBS_ASN1_CONSTRUCTED else tag) in *.
  match type of H with match ?b with _ => _ end = _ => destruct b as [[c inp2]|] eqn:Eb; [|done] end.
  destruct (enc1 Asn1 c) as [e|] eqn:Ee; [|done].
  apply enc1_asn1 in Ee as [-> Hc].
  destruct (conv fuel inp2 0 eoc depth) as [[y inp3]|] eqn:En; [|done].
  injection H as <- <-.
  assert (Hinp2 : bytes_ok inp2 /\ (is_constructed tag = true -> str = false ->
    depth + 1 <= kMaxDepth /\ der_forest (Z.to_nat (kMaxDepth - (depth + 1))) c)).
  { destruct (is_indefinite out hl); [|destruct (is_constructed tag) eqn:Econ0].
    - split; [exact (proj1 (conv_rest _ _ _ _ _ _ _ Hr Eb))|]. intros Hcon Hstr. rewrite Hstr in Eb.
      exact (IH _ _ _ _ _ Hr Eb).
    - match type of Eb with match ?m with _ => _ end = _ =>
        destruct m as [[c' ?]|] eqn:Ec; [|done] end.
      injection Eb as -> ->. split; [done|]. intros _ Hstr. rewrite Hstr in Ec.
      refine (IH _ _ _ _ _ _ Ec). by auto with bssl.
    - injection Eb as <- <-. by split. }
  destruct Hinp2 as [Hok2 Hcf]. destruct (IH _ _ _ _ _ Hok2 En) as [_ Hy].
  split; [done|]. change (out_tag :: (der_length (zlen c) ++ c)) with (der_element out_tag c).
  destruct (is_constructed tag) eqn:Econ, (is_string_type tag) eqn:Estr; cbn [andb] in str;
    unfold out_tag, str, CBS_ASN1_CONSTRUCTED; cbn [andb].
  - apply forest_prim; try done. split; [done|]. by rewrite Hcv.
  - destruct (Hcf eq_refl eq_refl) as [Hd Hcf'].
    replace (Z.to_nat (kMaxDepth - depth)) with (S (Z.to_nat (kMaxDepth - (depth + 1)))) in * by lia.
    by apply forest_cons.
  - by apply forest_prim.
  - by apply forest_prim.
Qed.

(** * Lemmas: the builder runs the conversion *)

(** The part of an iteration that handles the contents of the element. *)
Definition convert_body (malloc : allocator) (fuel : nat) (inp contents : CBS) (tag header_len : Z)
    (out_contents : loc) (child_string_tag depth : Z) : M store (bool * CBS) :=
  if is_indefinite contents header_len then
    cbs_convert_ber malloc fuel inp out_contents child_string_tag true (depth + 1)
  else match CBS_skip header_len contents with
  | (None, _) => sret (false, inp)
  | (Some _, contents) =>
      let* ok :=
        if is_constructed tag then
          let* (ok, _) := cbs_convert_ber malloc fuel contents out_contents
                            child_string_tag false (depth + 1) in sret ok
        else CBB_add_bytes malloc out_contents (CBS_data contents) (CBS_len contents) in
      sret (ok, inp)
  end.

Definition conv_body (fuel : nat) (inp contents : CBS) (tag header_len child_string_tag depth : Z) :
    option (bytes * CBS) :=
  if is_indefinite contents header_len then conv fuel inp child_string_tag true (depth + 1)
  else if is_constructed tag then
    match conv fuel (zdrop header_len contents) child_string_tag false (depth + 1) with
    | None => None
    | Some (x, _) => Some (x, inp)
    end
  else Some (zdrop header_len contents, inp).

(** The body, the flush and the remaining iterations. *)
Definition convert_rest (malloc : allocator) (fuel : nat) (inp contents : CBS) (tag header_len : Z)
    (out out_contents : loc) (child_string_tag string_tag : Z) (looking_for_eoc : bool)
    (depth : Z) : M store (bool * CBS) :=
  let* (ok, inp) := convert_body malloc fuel inp contents tag header_len out_contents
                      child_string_tag depth in
  if negb ok then sret (false, inp)
  else
    let* ok := CBB_flush malloc out in
    if negb ok then sret (false, inp)
    else cbs_convert_ber malloc fuel inp out string_tag looking_for_eoc depth.

Lemma sbind_ext {S A B} (m : M S A) (k k' : A -> M S B) s :
  (forall a s', k a s' = k' a s') -> sbind m k s = sbind m k' s.
Proof. intros H. unfold sbind. destruct (m s) as [[a s']|]; [apply H|done]. Qed.

Lemma cbs_convert_ber_S malloc fuel inp out st eoc depth s :
  Z.land st CBS_ASN1_CONSTRUCTED = 0 ->
  cbs_convert_ber malloc (S fuel) inp out st eoc depth s =
  if depth >? kMaxDepth then Some ((false, inp), s)
  else if negb (CBS_len inp >? 0) then Some ((negb eoc, inp), s)
  else match CBS_get_any_ber_asn1_element inp with
  | (None, inp) => Some ((false, inp), s)
  | (Some (contents, tag, hl), inp) =>
      if is_eoc hl contents then Some ((eoc, inp), s)
      else if negb (st =? 0) then
        if negb (Z.ldiff tag CBS_ASN1_CONSTRUCTED =? st) then Some ((false, inp), s)
        else convert_rest malloc fuel inp contents tag hl out out st st eoc depth s
      else
        let str := is_constructed tag && is_string_type tag in
        let out_tag := if str then Z.ldiff tag CBS_ASN1_CONSTRUCTED else tag in
        (let* ok := CBB_add_asn1 malloc out (storage_loc depth) out_tag in
         if negb ok then sret (false, inp)
         else convert_rest malloc fuel inp contents tag hl out (storage_loc depth)
                (if str then out_tag else st) st eoc depth) s
  end.
Proof.
  intros Hst. cbn [cbs_convert_ber]. rewrite Hst. cbn [Z.eqb negb].
  case_if; [done|]. case_if; [done|].
  destruct (CBS_get_any_ber_asn1_element inp) as [[[[contents tag] hl]|] inp']; [|done].
  case_if; [done|]. unfold convert_rest, convert_body.
  assert (Hassoc : forall (X : M store bool) (K : CBS -> M store (bool * CBS)) s,
    (let* ok := X in if negb ok then sret (false, inp') else K inp') s =
    (let* (ok, inp) := (let* ok := X in sret (ok, inp')) in
     if negb ok then sret (false, inp) else K inp) s).
  { intros X K s0. unfold sbind, sret. by destruct (X s0) as [[[|] ?]|]. }
  case_if.
  - case_if; [done|]. destruct (is_indefinite contents hl); [done|].
    destruct (CBS_skip hl contents) as [[u|] cts]; [|done]. apply (Hassoc _ (fun inp => _)).
  - cbv zeta. apply sbind_ext. intros [|] s1; [|done]. cbn [negb].
    destruct (is_indefinite contents hl); [done|].
    destruct (CBS_skip hl contents) as [[u|] cts]; [|done]. apply (Hassoc _ (fun inp => _)).
Qed.

(** The result of a conversion step that appends to the innermost frame:
    the analogue of [outcome]. *)
Definition appends (malloc : allocator) (s : store) (r : option (bool * CBS * store))
    (ls : list loc) (f1 : frames) (k : prefix) (c : bytes) (spec : option (bytes * CBS)) : Prop :=
  exists ok rest s', r = Some ((ok, rest), s') /\ ext_s s s' /\
    if ok : bool then exists x, spec = Some (x, rest) /\ represents s' ls (f1 ++ [(k, c ++ x)])
    else forall x r, spec = Some (x, r) -> ~ holds malloc s (zlen (layout (f1 ++ [(k, c ++ x)]))).

Definition convert_ok (malloc : allocator) (fuel : nat) : Prop :=
  forall inp l1 out f1 k c st eoc depth s,
  bytes_ok inp -> (length inp < fuel)%nat -> is_u 64 (zlen inp) -> length l1 = length f1 ->
  represents s (l1 ++ [out]) (f1 ++ [(k, c)]) ->
  (forall l, l ∈ l1 ++ [out] -> Zpos l < depth + 2) -> 0 <= depth ->
  Z.land st CBS_ASN1_CONSTRUCTED = 0 ->
  appends malloc s (cbs_convert_ber malloc fuel inp out st eoc depth s) (l1 ++ [out]) f1 k c
    (conv fuel inp st eoc depth).

Section Convert.
  Context (malloc : allocator) (Hm : alloc_ok malloc) (fuel : nat) (IH : convert_ok malloc fuel).

Lemma convert_body_spec inp0 contents tag hl inp l1 oc f1 k c st depth s :
  ber_read inp0 contents tag hl inp -> bytes_ok inp0 -> (length inp0 < S fuel)%nat ->
  is_u 64 (zlen inp0) -> length l1 = length f1 ->
  represents s (l1 ++ [oc]) (f1 ++ [(k, c)]) ->
  (forall l, l ∈ l1 ++ [oc] -> Zpos l < depth + 1 + 2) -> 0 <= depth ->
  Z.land st CBS_ASN1_CONSTRUCTED = 0 ->
  appends malloc s (convert_body malloc fuel inp contents tag hl oc st depth s)
    (l1 ++ [oc]) f1 k c (conv_body fuel inp contents tag hl st depth).
Proof.
  intros Hread Hok Hf [Hu0 Hu1] Hlen Hr Hloc Hd Hst.
  destruct (ber_read_shorter _ _ _ _ _ Hread Hok) as (Hinp & Hcont & Hl1 & Hl2 & Hskip & _).
  unfold convert_body, conv_body. destruct (is_indefinite contents hl).
  { apply IH; try done; [lia|split; lia|lia]. }
  rewrite Hskip. assert (Hz : bytes_ok (zdrop hl contents)) by auto with bssl.
  destruct (is_constructed tag).
  - destruct (IH (zdrop hl contents) l1 oc f1 k c st false (depth + 1) s)
      as (ok & rest & s1 & Hrun & Hext & Hres); try done; [lia|split; lia|lia|].
    exists ok, inp, s1. split.
    { unfold sbind. by rewrite Hrun. }
    split; [done|]. destruct ok.
    + destruct Hres as (x & Hx & Hr1). exists x. by rewrite Hx.
    + intros x r Hx. destruct (conv _ (zdrop hl contents) _ _ _) as [[x' r']|]; [|done].
      injection Hx as <- <-. by apply (Hres x' r').
  - pose proof (add_bytes_leaf malloc s l1 oc f1 k c (zdrop hl contents) Hm Hlen Hr
      ltac:(split; lia)) as (ok & s1 & Hrun & Hext & Hres).
    exists ok, inp, s1. split.
    { unfold sbind at 1. rewrite CBB_add_bytes_eq.
      rewrite (run_bind _ _ _ _ _ (flush_leaf malloc s l1 oc f1 k c Hlen Hr)). cbn [negb].
      unfold CBS_data, CBS_len. by rewrite Hrun. }
    split; [done|]. destruct ok.
    + destruct Hres as (ls & fs & [= <- <-] & Hr1). by exists (zdrop hl contents).
    + intros x r [= <- <-]. by eapply (proj2 Hres).
Qed.

(** After the body: the flush of [out], which closes the child if there is one,
    and the remaining iterations. [wrap] is what the closed child becomes. *)
Lemma convert_rest_spec inp contents tag hl out oc cst st eoc depth s l1 f1 k c ls' f1' k' c'
    (body : option (bytes * CBS)) (wrap : bytes -> option bytes) :
  appends malloc s (convert_body malloc fuel inp contents tag hl oc cst depth s) ls' f1' k' c' body ->
  (forall x r, body = Some (x, r) -> bytes_ok r /\ (length r < fuel)%nat /\ is_u 64 (zlen r)) ->
  (forall s1 x, represents s1 ls' (f1' ++ [(k', c' ++ x)]) ->
     outcome malloc s1 (CBB_flush malloc out s1)
       (match wrap x with Some e => Some (l1 ++ [out], f1 ++ [(k, c ++ e)]) | None => None end)) ->
  (forall x e, wrap x = Some e ->
     zlen (layout (f1' ++ [(k', c' ++ x)])) <= zlen (layout (f1 ++ [(k, c ++ e)]))) ->
  length l1 = length f1 -> (forall l, l ∈ l1 ++ [out] -> Zpos l < depth + 2) -> 0 <= depth ->
  Z.land st CBS_ASN1_CONSTRUCTED = 0 ->
  appends malloc s (convert_rest malloc fuel inp contents tag hl out oc cst st eoc depth s)
    (l1 ++ [out]) f1 k c
    (match body with
     | None => None
     | Some (x, inp) =>
         match wrap x with
         | None => None
         | Some e => match conv fuel inp st eoc depth with
                     | None => None
                     | Some (y, inp) => Some (e ++ y, inp)
                     end
         end
     end).
Proof.
  intros (ok & rest & s1 & Hrun & Hext & Hres) Hbody Hflush Hsz Hlen Hloc Hd Hst.
  unfold convert_rest. rewrite (run_bind _ _ _ _ _ Hrun). cbv iota beta.
  assert (Hgrow : forall e y, zlen (layout (f1 ++ [(k, c ++ e)])) <=
                         zlen (layout (f1 ++ [(k, c ++ e ++ y)]))) by (intros; apply layout_snoc_le).
  destruct ok; cbn [negb].
  2: { exists false, rest, s1. split; [done|]. split; [done|]. intros x r Hx Hh.
       destruct body as [[x0 r0]|]; [|done]. destruct (wrap x0) as [e|] eqn:Ew; [|done].
       destruct (conv fuel r0 st eoc depth) as [[y r1]|]; [|done]. injection Hx as <- <-.
       eapply Hres; [done|]. eapply holds_le; [|exact Hh].
       etransitivity; [by apply Hsz|apply Hgrow]. }
  destruct Hres as (x & -> & Hr1). destruct (Hbody x rest eq_refl) as (Hrok & Hrl & Hru).
  destruct (Hflush s1 x Hr1) as (ok & s2 & Hrun2 & Hext2 & Hres2).
  rewrite (run_bind _ _ _ _ _ Hrun2). destruct ok; cbn [negb].
  - destruct Hres2 as (ls & fs & Ht & Hr2). destruct (wrap x) as [e|]; [|done].
    injection Ht as <- <-.
    destruct (IH rest l1 out f1 k (c ++ e) st eoc depth s2)
      as (ok & rest2 & s3 & Hrun3 & Hext3 & Hres3); try done.
    exists ok, rest2, s3. split; [exact Hrun3|].
    split; [eapply ext_s_trans; [done|by eapply ext_s_trans]|]. destruct ok.
    + destruct Hres3 as (y & -> & Hr3). exists (e ++ y). by rewrite app_assoc.
    + intros x' r' Hx Hh. destruct (conv fuel rest st eoc depth) as [[y r1]|]; [|done].
      injection Hx as <- <-. eapply Hres3; [done|]. rewrite <- app_assoc.
      eapply holds_ext; [exact Hext2|]. by eapply holds_ext.
  - exists false, rest, s2. split; [done|]. split; [by eapply ext_s_trans|].
    intros x' r' Hx Hh. destruct (wrap x) as [e|]; [|done].
    destruct (conv fuel rest st eoc depth) as [[y r1]|]; [|done]. injection Hx as <- <-.
    destruct Hres2 as [_ Hno]. eapply Hno; [done|]. eapply holds_le; [apply (Hgrow e y)|].
    by eapply holds_ext.
Qed.

End Convert.

Lemma conv_S fuel inp st eoc depth :
  conv (S fuel) inp st eoc depth =
  if depth >? kMaxDepth then None
  else if negb (CBS_len inp >? 0) then if eoc then None else Some ([], inp)
  else match CBS_get_any_ber_asn1_element inp with
  | (None, _) => None
  | (Some (contents, tag, hl), inp) =>
      if is_eoc hl contents then if eoc then Some ([], inp) else None
      else
        let next x inp :=
          match conv fuel inp st eoc depth with
          | None => None
          | Some (y, inp) => Some (x ++ y, inp)
          end in
        if negb (st =? 0) then
          if negb (Z.ldiff tag CBS_ASN1_CONSTRUCTED =? st) then None
          else match conv_body fuel inp contents tag hl st depth with
               | None => None
               | Some (x, inp) => next x inp
               end
        else
          let str := is_constructed tag && is_string_type tag in
          let out_tag := if str then Z.ldiff tag CBS_ASN1_CONSTRUCTED else tag in
          match conv_body fuel inp contents tag hl (if str then out_tag else st) depth with
          | None => None
          | Some (x, inp) =>
              match enc1 Asn1 x with
              | None => None
              | Some e => next (out_tag :: e) inp
              end
          end
  end.
Proof. reflexivity. Qed.

Lemma conv_body_rest fuel inp0 contents tag hl inp st depth x r :
  ber_read inp0 contents tag hl inp -> bytes_ok inp0 -> (length inp0 < S fuel)%nat ->
  is_u 64 (zlen inp0) -> conv_body fuel inp contents tag hl st depth = Some (x, r) ->
  bytes_ok r /\ (length r < fuel)%nat /\ is_u 64 (zlen r).
Proof.
  intros Hread Hok Hf [Hu0 Hu1] H.
  destruct (ber_read_shorter _ _ _ _ _ Hread Hok) as (Hinp & _ & Hl1 & _).
  unfold conv_body in H. assert (bytes_ok r /\ (length r <= length inp)%nat) as [? ?].
  { destruct (is_indefinite contents hl); [exact (conv_rest _ _ _ _ _ _ _ Hinp H)|].
    destruct (is_constructed tag); [|injection H as _ <-; split; [done|lia]].
    destruct (conv _ _ _ _ _) as [[? ?]|]; [|done]. injection H as _ <-. split; [done|lia]. }
  split; [done|]. split; [lia|split; lia].
Qed.

Lemma ldiff_tag_ok tag : is_byte tag -> Z.land tag 0x1f <> 0x1f ->
  let str := is_constructed tag && is_string_type tag in
  let out_tag := if str then Z.ldiff tag CBS_ASN1_CONSTRUCTED else tag in
  ((out_tag >? 0xff) || (Z.land out_tag 0x1f =? 0x1f)) = false /\ is_u 32 out_tag /\
  Z.land (if str then out_tag else 0) CBS_ASN1_CONSTRUCTED = 0.
Proof.
  intros [Hb0 Hb1] Hv str out_tag.
  destruct (clear_constructed tag (conj Hb0 Hb1)) as ([Hc0 Hc1] & _ & Hc3 & Hc4 & _).
  assert (Hout : is_byte out_tag /\ Z.land out_tag 0x1f = Z.land tag 0x1f).
  { unfold out_tag. destruct str; [by split; [split|]|by split; [split|]]. }
  destruct Hout as [[? ?] Hl]. split; [|split].
  - apply orb_false_intro; [rewrite Z.gtb_ltb; apply Z.ltb_ge; lia|]. apply Z.eqb_neq. congruence.
  - split; lia.
  - unfold out_tag. by destruct str.
Qed.

Lemma storage_loc_fresh (ls : list loc) depth : (forall l, l ∈ ls -> Zpos l < depth + 2) -> 0 <= depth ->
  storage_loc depth ∉ ls.
Proof.
  intros H Hd Hin. apply H in Hin. unfold storage_loc in Hin. rewrite Z2Pos.id in Hin by lia. lia.
Qed.

Definition asn1_wrap (out_tag : Z) (x : bytes) : option bytes :=
  match enc1 Asn1 x with Some e => Some (out_tag :: e) | None => None end.

Lemma convert_wrap fuel inp contents tag hl cst st eoc depth out_tag :
  match conv_body fuel inp contents tag hl cst depth with
  | None => None
  | Some (x, inp) =>
      match enc1 Asn1 x with
      | None => None
      | Some e => match conv fuel inp st eoc depth with
                  | None => None
                  | Some (y, inp) => Some ((out_tag :: e) ++ y, inp)
                  end
      end
  end =
  match conv_body fuel inp contents tag hl cst depth with
  | None => None
  | Some (x, inp) =>
      match asn1_wrap out_tag x with
      | None => None
      | Some e => match conv fuel inp st eoc depth with
                  | None => None
                  | Some (y, inp) => Some (e ++ y, inp)
                  end
      end
  end.
Proof.
  destruct (conv_body _ _ _ _ _ _ _) as [[x ?]|]; [|done].
  unfold asn1_wrap. by destruct (enc1 Asn1 x).
Qed.

Lemma appends_weaken malloc s s1 r ls f1 k c spec : ext_s s s1 ->
  appends malloc s1 r ls f1 k c spec -> appends malloc s r ls f1 k c spec.
Proof.
  intros Hext (ok & rest & s' & Hr & Hext' & Hok). exists ok, rest, s'. split; [done|].
  split; [by eapply ext_s_trans|]. destruct ok; [done|]. intros x r' Hx Hh.
  eapply Hok; [done|]. by eapply holds_ext.
Qed.

(** One element, written as a child of [out]. *)
Lemma convert_element_spec malloc fuel inp inp' contents tag hl out cst out_tag eoc depth s l1 f1 k c :
  alloc_ok malloc -> convert_ok malloc fuel -> ber_read inp contents tag hl inp' ->
  bytes_ok inp -> (length inp < S fuel)%nat -> is_u 64 (zlen inp) -> length l1 = length f1 ->
  represents s (l1 ++ [out]) (f1 ++ [(k, c)]) ->
  (forall l, l ∈ l1 ++ [out] -> Zpos l < depth + 2) -> 0 <= depth ->
  is_u 8 out_tag -> ((out_tag >? 0xff) || (Z.land out_tag 0x1f =? 0x1f)) = false -> Z.land cst CBS_ASN1_CONSTRUCTED = 0 ->
  appends malloc s
    ((let* ok := CBB_add_asn1 malloc out (storage_loc depth) out_tag in
      if negb ok then sret (false, inp')
      else convert_rest malloc fuel inp' contents tag hl out (storage_loc depth) cst 0 eoc depth) s)
    (l1 ++ [out]) f1 k c
    (match conv_body fuel inp' contents tag hl cst depth with
     | None => None
     | Some (x, inp) =>
         match asn1_wrap out_tag x with
         | None => None
         | Some e => match conv fuel inp 0 eoc depth with
                     | None => None
                     | Some (y, inp) => Some (e ++ y, inp)
                     end
         end
     end).
Proof.
  intros Hm IH Eg Hok Hf Hu Hlen Hr Hloc Hd Hv' Hgood Hcst.
  assert (Hloc' : forall l, l ∈ l1 ++ [out] -> Zpos l < depth + 1 + 2)
    by (intros l Hl; specialize (Hloc l Hl); lia).
  pose proof (storage_loc_fresh _ _ Hloc Hd) as Hfresh.
  set (stg := storage_loc depth) in *.
  pose proof (open_asn1_leaf malloc s l1 out f1 k c stg out_tag Hm Hlen Hr Hfresh)
    as (ok & s1 & Hrun & Hext & Hres).
  { done. }
  assert (Hadd : CBB_add_asn1 malloc out stg out_tag s = Some (ok, s1)).
  { unfold CBB_add_asn1. rewrite Hgood.
    by rewrite (run_bind _ _ _ _ _ (flush_leaf malloc s l1 out f1 k c Hlen Hr)). }
  rewrite (run_bind _ _ _ _ _ Hadd).
  set (wrap := asn1_wrap out_tag).
  assert (Hsz : forall x e, wrap x = Some e ->
    zlen (layout ((f1 ++ [(k, c ++ [out_tag])]) ++ [(Asn1, [] ++ x)])) <=
    zlen (layout (f1 ++ [(k, c ++ e)]))).
  { intros x e. unfold wrap, asn1_wrap. destruct (enc1 Asn1 x) as [e0|] eqn:Ee; [|done]. intros [= <-].
    apply enc1_le in Ee. rewrite !layout_app, !layout_one. cbn [plen app] in *. zlia. }
  destruct ok; cbn [negb].
  2: { exists false, inp', s1. split; [done|]. split; [done|]. intros x r Hx Hh.
       destruct Hres as [_ Hno]. eapply Hno; [done|]. eapply holds_le; [|exact Hh].
       destruct (conv_body _ _ _ _ _ _ _) as [[x0 r0]|]; [|done].
       destruct (wrap x0) as [e|] eqn:Ew; [|done].
       destruct (conv fuel r0 0 eoc depth) as [[y r1]|]; [|done]. injection Hx as <- <-.
       pose proof (Hsz _ _ Ew) as Hle. rewrite !layout_app, !layout_one in *.
       cbn [layout plen app] in *. zlia. }
  destruct Hres as (ls & fs & [= <- <-] & Hr1).
  replace (f1 ++ [(k, c ++ [out_tag]); (Asn1, [])])
    with ((f1 ++ [(k, c ++ [out_tag])]) ++ [(Asn1, [])]) in Hr1 by (by rewrite <- app_assoc).
  assert (Hlen2 : length (l1 ++ [out]) = length (f1 ++ [(k, c ++ [out_tag])]))
    by (rewrite !length_app; cbn [length]; lia).
  eapply appends_weaken; [exact Hext|].
  apply (convert_rest_spec malloc fuel IH inp' contents tag hl out stg cst 0 eoc depth s1 l1 f1 k c
    ((l1 ++ [out]) ++ [stg]) (f1 ++ [(k, c ++ [out_tag])]) Asn1 []
    (conv_body fuel inp' contents tag hl cst depth) wrap); try done.
  + eapply convert_body_spec; try done. intros l Hl. apply elem_of_app in Hl as [Hl|Hl]; [auto|].
    apply list_elem_of_singleton in Hl as ->. unfold stg, storage_loc. rewrite Z2Pos.id by lia. lia.
  + intros x r. by eapply conv_body_rest.
  + intros s2 x Hr2. rewrite <- !app_assoc in Hr2. cbn [app] in Hr2.
    pose proof (flush_at malloc s2 l1 out [stg] f1 k _ _ Hm Hlen Hr2) as H.
    cbn [enc] in H. rewrite app_nil_r in H. unfold wrap, asn1_wrap.
    destruct (enc1 Asn1 x); [|exact H]. by rewrite <- app_assoc in H.
Qed.

Lemma cbs_convert_ber_spec malloc fuel : alloc_ok malloc -> convert_ok malloc fuel.
Proof.
  intros Hm. induction fuel as [|fuel IH];
    intros inp l1 out f1 k c st eoc depth s Hok Hf Hu Hlen Hr Hloc Hd Hst; [lia|].
  rewrite cbs_convert_ber_S, conv_S by done.
  assert (Hfail : forall rest, appends malloc s (Some ((false, rest), s)) (l1 ++ [out]) f1 k c None).
  { intros rest. exists false, rest, s. split; [done|]. split; [by eapply ext_s_refl|done]. }
  assert (Hdone : forall rest, appends malloc s (Some ((true, rest), s)) (l1 ++ [out]) f1 k c
                    (Some ([], rest))).
  { intros rest. exists true, rest, s. split; [done|]. split; [by eapply ext_s_refl|].
    exists []. by rewrite app_nil_r. }
  case_if; [apply Hfail|]. case_if; [destruct eoc; [apply Hfail|apply Hdone]|].
  destruct (CBS_get_any_ber_asn1_element inp) as [[[[contents tag] hl]|] inp'] eqn:Eg; [|apply Hfail].
  apply ber_element_inv in Eg; [|done]. case_if; [destruct eoc; [apply Hdone|apply Hfail]|].
  destruct (ber_read_shorter _ _ _ _ _ Eg Hok) as (_ & _ & _ & _ & _ & Htag & Hv).
  assert (Hloc' : forall l, l ∈ l1 ++ [out] -> Zpos l < depth + 1 + 2)
    by (intros l Hl; specialize (Hloc l Hl); lia).
  cbv zeta. case_if.
  - case_if; [apply Hfail|].
    apply (convert_rest_spec malloc fuel IH inp' contents tag hl out out st st eoc depth s l1 f1 k c
      (l1 ++ [out]) f1 k c (conv_body fuel inp' contents tag hl st depth) Some); try done.
    + by eapply convert_body_spec.
    + intros x r. by eapply conv_body_rest.
    + intros s1 x Hr1. rewrite (flush_leaf malloc s1 l1 out f1 k (c ++ x) Hlen Hr1).
      exists true, s1. split; [done|]. split; [by eapply ext_s_refl|]. eauto.
    + by intros x e [= <-].
  - subst st. destruct (ldiff_tag_ok tag Htag Hv) as (Hgood & Hu32 & Hcst).
    set (str := is_constructed tag && is_string_type tag) in *.
    set (out_tag := if str then Z.ldiff tag CBS_ASN1_CONSTRUCTED else tag) in *.
    rewrite (convert_wrap fuel inp' contents tag hl (if str then out_tag else 0) 0 eoc depth out_tag).
    apply (convert_element_spec malloc fuel inp); try done.
    unfold out_tag. destruct str; [apply (clear_constructed tag Htag)|done].
Qed.

(** * Lemmas: the top-level object survives failures *)

Definition live_top (l : loc) (s : store) : Prop :=
  (exists o, cbbs s !! l = Some o /\ is_top_level o = true) /\ the_base s <> None.

Definition keeps {A} (P : store -> Prop) (m : M store A) : Prop :=
  forall s a s', m s = Some (a, s') -> P s -> P s'.

Section Keeps.
  Context (l : loc).

Lemma keeps_sret {A} (a : A) : keeps (live_top l) (sret a).
Proof. by intros s a' s' [= <- <-]. Qed.

Lemma keeps_sstuck {A} : keeps (live_top l) (sstuck (A:=A)).
Proof. done. Qed.

Lemma keeps_slift {A} (o : option A) : keeps (live_top l) (slift o).
Proof. intros s a s' H. unfold slift in H. destruct o; [|done]. by injection H as <- <-. Qed.

Lemma keeps_bind {A B} (m : M store A) (k : A -> M store B) :
  keeps (live_top l) m -> (forall a, keeps (live_top l) (k a)) -> keeps (live_top l) (sbind m k).
Proof.
  intros Hm Hk s b s' H HP. unfold sbind in H. destruct (m s) as [[a s1]|] eqn:E; [|done].
  eapply Hk; [exact H|]. by eapply Hm.
Qed.

Lemma keeps_load {B} l' (k : CBB -> M store B) :
  (forall c, (l' = l -> is_top_level c = true) -> keeps (live_top l) (k c)) ->
  keeps (live_top l) (sbind (load l') k).
Proof.
  intros Hk s b s' H HP. unfold sbind, load in H.
  destruct (cbbs s !! l') as [c|] eqn:E; [|done]. eapply Hk; [|exact H|done].
  intros ->. destruct HP as [(o & Ho & Ht) _]. congruence.
Qed.

Lemma keeps_load_base c : keeps (live_top l) (load_base c).
Proof.
  intros s b s' H. unfold load_base in H.
  destruct (base c), (the_base s) as [b0|]; try done. by injection H as <- <-.
Qed.

Lemma keeps_assign l' c : (l' = l -> is_top_level c = true) -> keeps (live_top l) (assign l' c).
Proof.
  intros Hc s a s' [= <- <-] [(o & Ho & Ht) Hb]. split; [|done]. cbn.
  destruct (decide (l' = l)) as [->|Hne]; [exists c; rewrite lookup_insert_eq; auto|].
  exists o. by rewrite lookup_insert_ne.
Qed.

Lemma keeps_assign_base b : keeps (live_top l) (assign_base b).
Proof. intros s a s' [= <- <-] [Ho _]. by split. Qed.

End Keeps.

Ltac keep :=
  repeat match goal with
  | |- keeps _ (match ?x with _ => _ end) => destruct x
  | |- keeps _ (if ?x then _ else _) => destruct x
  | |- keeps _ (let '(_, _) := ?x in _) => destruct x
  | |- keeps _ (sbind (load _) _) => apply keeps_load; intros ? ?
  | |- keeps _ (sbind _ _) => apply keeps_bind; [|intros ?]
  | |- keeps _ (sret _) => apply keeps_sret
  | |- keeps _ sstuck => apply keeps_sstuck
  | |- keeps _ (slift _) => apply keeps_slift
  | |- keeps _ (load_base _) => apply keeps_load_base
  | |- keeps _ (assign_base _) => apply keeps_assign_base
  | |- keeps _ (assign _ _) => apply keeps_assign; cbn; auto
  | |- keeps _ (fail_base _) => unfold fail_base
  | |- _ => assumption
  end.

Lemma keeps_flush malloc l cbb : keeps (live_top l) (CBB_flush malloc cbb).
Proof.
  assert (H : forall fuel cbb, keeps (live_top l) (cbb_flush malloc fuel cbb)).
  { induction fuel as [|fuel IH]; intros cbb'; cbn [cbb_flush]; [apply keeps_sstuck|].
    unfold cbb_flush_child, cbb_flush_asn1. keep; try apply IH. }
  intros s. apply H.
Qed.

Lemma keeps_add_bytes malloc l cbb x n : keeps (live_top l) (CBB_add_bytes malloc cbb x n).
Proof.
  unfold CBB_add_bytes, CBB_add_space. pose proof (keeps_flush malloc l cbb). keep.
Qed.

Lemma keeps_add_asn1 malloc l cbb ch tag : ch <> l ->
  keeps (live_top l) (CBB_add_asn1 malloc cbb ch tag).
Proof.
  intros Hne. unfold CBB_add_asn1, CBB_add_u8, cbb_add_u, open_child.
  pose proof (keeps_flush malloc l cbb). keep.
Qed.

Lemma keeps_convert malloc l fuel inp out st eoc depth : 0 <= depth -> Zpos l < depth + 2 ->
  keeps (live_top l) (cbs_convert_ber malloc fuel inp out st eoc depth).
Proof.
  revert inp out st eoc depth. induction fuel as [|fuel IH]; intros inp out st eoc depth Hd Hl;
    cbn [cbs_convert_ber]; [apply keeps_sstuck|].
  pose proof (keeps_flush malloc l out) as Hfl.
  assert (Hadd : forall tag, keeps (live_top l) (CBB_add_asn1 malloc out (storage_loc depth) tag)).
  { intros tag. apply keeps_add_asn1. unfold storage_loc. intros <-.
    rewrite Z2Pos.id in Hl; lia. }
  keep; try apply Hadd; try apply keeps_add_bytes; apply IH; lia.
Qed.

Lemma conv_no_eoc_rest fuel inp st depth x rest :
  conv fuel inp st false depth = Some (x, rest) -> rest = [].
Proof.
  revert inp st depth x rest. induction fuel as [|fuel IH]; intros inp st depth x rest H; [done|].
  rewrite conv_S in H. case_if_in H; [done|]. unfold CBS_len in H.
  case_if_in H; [injection H as _ <-; apply zlen_0; lia|].
  destruct (CBS_get_any_ber_asn1_element inp) as [[[[contents tag] hl]|] inp']; [|done].
  case_if_in H; [done|]. cbv zeta in H. case_if_in H; [case_if_in H; [done|]|].
  all: destruct (conv_body _ _ _ _ _ _ _) as [[x0 r0]|]; [|done].
  2: destruct (enc1 Asn1 x0); [|done].
  all: destruct (conv fuel r0 _ _ _) as [[y r1]|] eqn:E'; [|done];
    injection H as _ <-; by eapply IH.
Qed.

(** Cleaning up after a failure. *)
Lemma cleanup_live l s : live_top l s -> exists s', CBB_cleanup l s = Some (tt, s').
Proof.
  intros [(o & Ho & Ht) Hb]. destruct s as [[b|] h]; [|done]. cbn in Ho. unfold CBB_cleanup.
  mstep. rewrite Ht. cbn [negb]. destruct (base o) eqn:Eb.
  - unfold sbind, load_base. rewrite Eb. by eexists.
  - by eexists.
Qed.

Lemma cleanup_zero l b h o : h !! l = Some o -> base o = false ->
  exists s', CBB_cleanup l (mk_store b h) = Some (tt, s').
Proof. intros Ho Hb. unfold CBB_cleanup. mstep. rewrite Hb. by eexists. Qed.

Lemma represents_live s l ls fs : represents s (l :: ls) fs -> live_top l s.
Proof.
  intros (b & Hb & _ & _ & _ & _ & Hch & Hfs). split; [|by rewrite Hb].
  destruct fs as [|[[| |] c] fs]; try done.
  destruct Hch as [(o & Ho & (_ & _ & _ & _ & Ht) & _) _]. by exists o.
Qed.

(** A failed initialisation leaves an object without buffer. *)
Lemma CBB_init_fail malloc malloc_ok cbb n s s' :
  CBB_init malloc malloc_ok cbb n s = Some (false, s') -> exists s'', CBB_cleanup cbb s' = Some (tt, s'').
Proof.
  intros H. destruct s as [ob h]. unfold CBB_init, CBB_zero in H. rewrite run_assign in H.
  assert (Hz : forall data n, cbb_init malloc_ok cbb data n (mk_store ob (<[cbb:=zero_CBB]> h))
                = Some (false, s') -> s' = mk_store ob (<[cbb:=zero_CBB]> h)).
  { intros data m Hi. unfold cbb_init in Hi. destruct malloc_ok; cbn [negb] in Hi.
    - rewrite run_assign_base in Hi. rewrite (run_load _ _ _ _ zero_CBB) in Hi
        by apply lookup_insert_eq. done.
    - by injection Hi as <-. }
  assert (s' = mk_store ob (<[cbb:=zero_CBB]> h)) as ->.
  { destruct (malloc n); [by eapply Hz|]. case_if_in H; [by injection H as <-|by eapply Hz]. }
  eapply cleanup_zero; [apply lookup_insert_eq|done].
Qed.

Lemma CBB_init_run' malloc malloc_ok cbb n s : alloc_ok malloc -> is_u 64 n ->
  exists ok s', CBB_init malloc malloc_ok cbb n s = Some (ok, s') /\
    if ok then represents s' [cbb] [(Top, [])] /\
               exists b, the_base s' = Some b /\ can_resize b = true
    else malloc_ok = false \/ malloc n = None.
Proof.
  intros Hm Hn. destruct malloc_ok.
  - destruct (CBB_init_run malloc cbb n s Hm Hn) as (ok & s' & Hrun & H).
    exists ok, s'. split; [done|]. destruct ok; [done|by right].
  - unfold CBB_init, CBB_zero. destruct s as [ob h]. rewrite run_assign.
    destruct (malloc n); [|case_if]; (eexists false, _; split; [reflexivity|by left]).
Qed.

Lemma keeps_finish_fail malloc l s s' : live_top l s ->
  CBB_finish malloc l true true s = Some (None, s') -> live_top l s'.
Proof.
  intros HP H. unfold CBB_finish, sbind, load in H.
  destruct (cbbs s !! l) as [c|]; [|done]. case_if_in H; [by injection H as <-|].
  destruct (CBB_flush malloc l s) as [[[|] s1]|] eqn:Ef; [|by injection H as <-; eapply keeps_flush|done].
  cbn [negb] in H. destruct (cbbs s1 !! l) as [c1|]; [|done].
  destruct (load_base c1 s1) as [[b s2]|]; [|done].
  rewrite andb_false_r in H. unfold assign_base in H.
  destruct (CBB_cleanup _ _) as [[? ?]|]; done.
Qed.

Lemma holds_layout_top malloc s x :
  ~ holds malloc s (zlen (layout ([] ++ [(Top, [] ++ x)]))) -> ~ holds malloc s (zlen x).
Proof. cbn. by rewrite app_nil_r. Qed.

(** The converter in terms of the conversion on byte strings. *)
Lemma ber_to_der_conv malloc malloc_ok inp s :
  alloc_ok malloc -> bytes_ok inp -> is_u 64 (zlen inp) ->
  exists r rest s', CBS_asn1_ber_to_der malloc malloc_ok 1%positive inp s = Some ((r, rest), s') /\
  match r with
  | Some (None, n) => n = 0 /\ rest = inp /\ s' = s /\ cbs_find_ber inp 0 = Some (Some false)
  | Some (Some d, n) => cbs_find_ber inp 0 = Some (Some true) /\ exists x, conv (S (length inp)) inp 0 false 0 = Some (x, []) /\
      rest = [] /\ zlen x = n /\ ztake n d = x /\ der_forest (Z.to_nat kMaxDepth) x /\
      cbs_find_ber x 0 = Some (Some false)
  | None => cbs_find_ber inp 0 <> Some (Some false) /\
      (malloc_ok = true -> (forall n, is_u 64 n -> malloc n <> None) ->
      cbs_find_ber inp 0 = Some None \/
      (forall x r, conv (S (length inp)) inp 0 false 0 = Some (x, r) -> 2 ^ 64 <= zlen x))
  end.
Proof.
  intros Hm Hok Hu. unfold CBS_asn1_ber_to_der.
  pose proof (find_ber_total (S (length inp)) inp false 0 ltac:(lia) Hok) as Hfind.
  change (find_ber_loop (S (length inp)) inp false 0) with (cbs_find_ber inp 0) in Hfind.
  destruct (cbs_find_ber inp 0) as [[[|]|]|] eqn:Ef; [| | |done]; rewrite run_slift; cbv beta iota.
  2: { by eexists _, _, _. }
  2: { eexists _, _, _. split; [reflexivity|]. split; [done|]. by left. }
  destruct (CBB_init_run' malloc malloc_ok 1%positive (CBS_len inp) s Hm Hu)
    as (ok & s1 & Hinit & Hres). unfold sbind at 1. rewrite (run_bind _ _ _ _ _ Hinit).
  destruct ok; cbn [negb].
  2: { destruct (CBB_init_fail _ _ _ _ _ _ Hinit) as [s2 Hcl].
       eexists _, _, _. cbn [sret]. split; [by rewrite (run_bind _ _ _ _ _ Hcl)|].
       split; [done|]. intros -> Hall. destruct Hres as [?|Hn]; [done|]. by destruct (Hall _ Hu). }
  destruct Hres as [Hr (b & Hb & Hcr)].
  destruct (cbs_convert_ber_spec malloc (S (length inp)) Hm inp [] 1%positive [] Top [] 0 false 0 s1)
    as (ok & rest & s2 & Hrun & Hext & Hcv); try done; try lia.
  { intros l Hl. apply list_elem_of_singleton in Hl as ->. lia. }
  pose proof (keeps_convert malloc 1%positive _ _ _ _ _ 0 ltac:(lia) ltac:(lia) _ _ _ Hrun
    (represents_live _ _ _ _ Hr)) as Hlive.
  rewrite (run_bind _ _ _ _ _ Hrun). cbv beta iota.
  assert (Hold : forall n, (forall n, is_u 64 n -> malloc n <> None) ->
    ~ holds malloc s1 n -> 2 ^ 64 <= n).
  { intros n Hall Hno. apply Z.nlt_ge. intros Hlt. apply Hno. exists b. split; [done|].
    split; [done|]. by rewrite Hcr. }
  destruct ok; cbn [negb].
  2: { destruct (cleanup_live _ _ Hlive) as [s3 Hcl]. eexists _, _, _. cbn [sret].
       split; [by rewrite (run_bind _ _ _ _ _ Hcl)|]. split; [done|]. intros _ Hall. right. intros x r Hx.
       apply (Hold _ Hall), (holds_layout_top malloc s1 x). by eapply Hcv. }
  destruct Hcv as (x & Hx & Hr2). cbn [app] in Hr2.
  pose proof (conv_no_eoc_rest _ _ _ _ _ _ Hx) as ->.
  destruct (CBB_finish_run malloc s2 1%positive [] x [] Hm Hr2) as (r & s3 & Hfin & Hres).
  unfold sbind at 1. rewrite Hfin. cbn [sret].
  destruct r as [[data n]|].
  - destruct Hres as (d & e & -> & [= <-] & Hd & -> & _). rewrite app_nil_r in *.
    eexists _, _, _. split; [done|]. split; [done|]. exists x.
    destruct (conv_forest _ _ _ _ _ _ Hok Hx) as [_ Hforest]. rewrite Z.sub_0_r in Hforest.
    split_and!; try done. unfold cbs_find_ber. case_if; [done|].
    apply (find_ber_der _ (Z.to_nat kMaxDepth)); [done|lia|unfold kMaxDepth; lia].
  - destruct (cleanup_live 1%positive s3) as [s4 Hcl].
    { eapply keeps_finish_fail; [|exact Hfin]. exact Hlive. }
    eexists _, _, _. split; [by rewrite (run_bind _ _ _ _ _ Hcl)|]. split; [done|]. intros _ Hall. right.
    intros x' r' Hx'. rewrite Hx in Hx'. injection Hx' as <- <-. apply (Hold _ Hall). intros Hh.
    apply (Hres [] eq_refl). rewrite app_nil_r. by eapply holds_ext.
Qed.

(** * Lemmas: trees and the conversion *)

Lemma primitive_id tag : is_byte tag -> is_constructed tag = false -> primitive tag = tag.
Proof.
  intros Hb Hc. assert (H : is_constructed tag || (primitive tag =? tag) = true).
  { clear Hc. revert tag Hb. apply byte_forall. reflexivity. }
  rewrite Hc in H. cbn [orb] in H. by bool_simpl.
Qed.

(** The tag and the strings inside an element. *)
Definition inner (seg : option Z) (tag : Z) : option Z :=
  if is_constructed tag then string_of_tag seg tag else seg.

(** What an element with converted contents [x] adds to the output. *)
Definition piece (seg : option Z) (tag : Z) (x : bytes) : bytes :=
  match seg with
  | Some _ => x
  | None => der_element (if is_constructed tag && is_string_type tag then primitive tag else tag) x
  end.

Definition out_of (seg : option Z) (t : ber) : bytes :=
  match seg with Some _ => string_of t | None => der_of t end.

Definition fits_of (seg : option Z) (t : ber) : Prop :=
  match seg with Some _ => True | None => der_fits t end.

(** One step of the conversion, in terms of the strings it is in. *)
Lemma conv_step fuel inp contents tag hl inp' seg eoc depth :
  CBS_get_any_ber_asn1_element inp = (Some (contents, tag, hl), inp') -> depth <= kMaxDepth ->
  inp <> [] -> is_eoc hl contents = false -> seg <> Some 0 ->
  conv (S fuel) inp (default 0 seg) eoc depth =
  if match seg with Some st => negb (primitive tag =? st) | None => false end then None
  else match conv_body fuel inp' contents tag hl (default 0 (inner seg tag)) depth with
  | None => None
  | Some (x, inp2) =>
      if match seg with None => zlen x <=? 0xfffffffe | Some _ => true end then
        match conv fuel inp2 (default 0 seg) eoc depth with
        | None => None
        | Some (y, r) => Some (piece seg tag x ++ y, r)
        end
      else None
  end.
Proof.
  intros Hg Hd Hne He Hs. rewrite conv_S, Hg, He. case_if; [lia|]. unfold CBS_len.
  case_if; [destruct inp; [done|cbn [length] in *; lia]|]. cbv zeta. unfold inner, piece, string_of_tag.
  destruct seg as [st|].
  - change (default 0 (Some st)) with st. replace (st =? 0) with false by (symmetry; apply Z.eqb_neq; congruence).
    cbn [negb]. unfold primitive. case_if; [done|]. by destruct (is_constructed tag).
  - change (default 0 None) with 0. cbn [Z.eqb negb]. replace (if is_constructed tag && is_string_type tag then _ else 0)
      with (default 0 (if is_constructed tag then if is_string_type tag then Some (primitive tag) else None else None))
      by (by destruct (is_constructed tag), (is_string_type tag)).
    destruct (conv_body _ _ _ _ _ _ _) as [[x inp2]|]; [|done]. cbn [enc1]. by destruct (zlen x <=? 0xfffffffe).
Qed.

Lemma is_eoc_der tag c : (tag = 0 -> c <> []) -> is_eoc (1 + zlen (der_length (zlen c))) (der_element tag c) = false.
Proof.
  intros H. unfold is_eoc, CBS_data. destruct (der_header tag c) as [_ Hl].
  destruct c as [|x c].
  - destruct (Z.eq_dec tag 0) as [->|Hne]; [by destruct H|]. apply andb_false_intro2. apply bool_decide_eq_false.
    change (ztake 2 (der_element tag [])) with [tag; 0]. congruence.
  - apply andb_false_iff. left. apply andb_false_iff. unfold CBS_len.
    unfold der_element in *. set (l := der_length (zlen (x :: c))) in *. destruct (Z.eqb_spec (1 + zlen l) 2); [|by left].
    right. apply Z.eqb_neq. rewrite length_cons, length_app, length_cons. lia.
Qed.

Lemma is_eoc_indefinite tag : is_eoc 2 [tag; 0x80] = false.
Proof. unfold is_eoc. apply andb_false_intro2. apply bool_decide_eq_false. by intros [=]. Qed.

(** What follows the elements of a level. *)
Definition ending (eoc : bool) (rest : bytes) : bytes := if eoc then [0; 0] ++ rest else [].

Lemma constructed_nonzero tag : is_constructed tag = true -> tag <> 0.
Proof. by intros H ->. Qed.

Lemma string_of_tag_nonzero seg tag : is_byte tag -> seg <> Some 0 -> string_of_tag seg tag <> Some 0.
Proof.
  intros Hb H. unfold string_of_tag. destruct seg; [done|]. destruct (is_string_type tag) eqn:E; [|done].
  intros [= H0]. by apply (clear_constructed tag Hb).
Qed.

Lemma read_indefinite_header tag rest : valid_tag tag -> is_constructed tag = true ->
  CBS_get_any_ber_asn1_element (tag :: 0x80 :: rest) = (Some ([tag; 0x80], tag, 2), rest).
Proof.
  intros [Hb Hv] Hc. unfold CBS_get_any_ber_asn1_element. rewrite asn1_element_cons by done.
  unfold is_constructed in Hc. apply negb_true_iff in Hc. rewrite Hc.
  replace (Z.land tag 31 =? 31) with false by (symmetry; by apply Z.eqb_neq).
  cbn [Z.ltb Z.eqb Z.compare Pos.compare Pos.compare_cont andb negb Pos.eqb].
  change (tag :: 128 :: rest) with ([tag; 128] ++ rest). by rewrite cbs_get_app.
Qed.

(** The end of a level. *)
Lemma conv_end fuel seg eoc depth rest : depth <= kMaxDepth ->
  conv (S fuel) (ending eoc rest) (default 0 seg) eoc depth = Some ([], if eoc then rest else []).
Proof.
  intros Hd. rewrite conv_S. case_if; [lia|]. destruct eoc; cbn [ending]; [|done].
  case_if; [unfold CBS_len in *; cbn [length app] in *; lia|].
  change ([0; 0] ++ rest) with (der_element 0 [] ++ rest). by rewrite ber_element_der.
Qed.

Lemma piece_out seg tag x : is_constructed tag = false -> piece seg tag x = match seg with Some _ => x | None => der_element tag x end.
Proof. unfold piece. by intros ->. Qed.

(** The conversion of a tree. *)
Lemma conv_tree t : forall seg depth eoc fuel rest, ber_ok seg depth t -> depth <= kMaxDepth -> seg <> Some 0 ->
  fits_of seg t -> (length (ber_bytes t ++ ending eoc rest) < fuel)%nat ->
  conv fuel (ber_bytes t ++ ending eoc rest) (default 0 seg) eoc depth = Some (out_of seg t, if eoc then rest else []).
Proof.
  induction t as [|tag c next IH|ind tag ch IHc next IH]; intros seg depth eoc fuel rest Hok Hd Hs Hf Hl;
    (destruct fuel as [|fuel]; [lia|]); cbn [ber_ok ber_bytes] in *.
  - cbn [app]. rewrite conv_end by done. by destruct seg.
  - destruct Hok as [(Ht & Hc & Hb & H0 & Hst) Hn]. rewrite <- app_assoc in *. rewrite length_app in Hl.
    destruct (der_header tag c) as [Hdr Hh].
    rewrite (conv_step _ _ _ _ _ _ _ _ _ (ber_element_der tag c _ Ht Hb)) by (done || by apply is_eoc_der).
    replace (match seg with Some _ => _ | None => false end) with false.
    2: { destruct seg as [st|]; [|done]. rewrite primitive_id by (done || apply Ht). rewrite (Hst st eq_refl). by rewrite Z.eqb_refl. }
    unfold conv_body. rewrite der_element_indefinite, Hc, Hdr, piece_out by done.
    assert (Hfn : fits_of seg next /\ (if seg is Some _ then True else zlen c <= 0xfffffffe)) by (destruct seg; [done|by destruct Hf]).
    rewrite IH by (done || lia || apply Hfn). destruct seg; [done|]. destruct Hfn as [_ Hz]. cbn in Hz. apply Z.leb_le in Hz. by rewrite Hz.
  - destruct Hok as [(Ht & Hc & Hdp & Hb & Hst) [Hch Hn]].
    assert (Hin : inner seg tag = string_of_tag seg tag) by (unfold inner; by rewrite Hc).
    assert (Hp : forall x, piece seg tag x = match seg with
        | Some _ => x | None => if is_string_type tag then der_element (primitive tag) x else der_element tag x end).
    { intros x. unfold piece. rewrite Hc. destruct seg; [done|]. by destruct (is_string_type tag). }
    assert (Htest : match seg with Some st => negb (primitive tag =? st) | None => false end = false).
    { destruct seg as [st|]; [|done]. rewrite (Hst st eq_refl). by rewrite Z.eqb_refl. }
    pose proof (string_of_tag_nonzero seg tag ltac:(apply Ht) Hs) as Hs'.
    set (x := out_of (string_of_tag seg tag) ch).
    assert (Hfc : fits_of (string_of_tag seg tag) ch /\ fits_of seg next /\
        match seg with None => zlen x <=? 0xfffffffe | Some _ => true end = true).
    { unfold x. destruct seg as [st|]; [done|]. cbn [fits_of der_fits string_of_tag] in *.
      destruct (is_string_type tag); cbn [fits_of out_of]; destruct Hf as [Hf1 Hf2];
        (split; [try done; apply Hf1|split; [done|apply Z.leb_le; try done; apply Hf1]]). }
    destruct Hfc as (Hf1 & Hf2 & Hf3).
    assert (Hout : out_of seg (Cons ind tag ch next) = piece seg tag x ++ out_of seg next).
    { rewrite Hp. unfold x. destruct seg as [st|]; [done|]. cbn. by destruct (is_string_type tag). }
    rewrite Hout. destruct ind.
    + cbn [app] in *. rewrite <- !app_assoc in *. cbn [length app] in *.
      rewrite (conv_step _ _ _ _ _ _ _ _ _ (read_indefinite_header tag _ Ht Hc)) by (done || apply is_eoc_indefinite).
      rewrite Htest, Hin. unfold conv_body. change (is_indefinite [tag; 128] 2) with true. cbv iota.
      change (0 :: 0 :: ?r) with (ending true r) in *.
      rewrite IHc by (done || lia). fold x. rewrite Hf3. rewrite length_app in Hl. cbn [ending app length] in Hl.
      by rewrite IH by (done || lia).
    + rewrite <- app_assoc in *. rewrite length_app in Hl. destruct (der_header tag (ber_bytes ch)) as [Hdr Hh].
      assert (length (ber_bytes ch) < length (der_element tag (ber_bytes ch)))%nat
        by (unfold der_element; rewrite length_cons, length_app; lia).
      rewrite (conv_step _ _ _ _ _ _ _ _ _ (ber_element_der tag _ _ Ht (Hb eq_refl)))
        by (done || (apply is_eoc_der; intros ->; done)).
      rewrite Htest, Hin. unfold conv_body. rewrite der_element_indefinite, Hc, Hdr.
      pose proof (IHc (string_of_tag seg tag) (depth + 1) false fuel [] Hch ltac:(lia) Hs' Hf1) as E.
      cbn [ending] in E. rewrite app_nil_r in E. rewrite E by lia. fold x. rewrite Hf3.
      by rewrite IH by (done || lia).
Qed.

Lemma is_eoc_read inp contents tag hl rest : ber_read inp contents tag hl rest -> is_eoc hl contents = true ->
  inp = [0; 0] ++ rest.
Proof.
  intros Hr He. destruct Hr as [tag c rest Hv Hc|tag rest Hv Hcon]; [|by rewrite is_eoc_indefinite in He].
  destruct (decide (tag = 0 /\ c = [])) as [[-> ->]|Hne]; [done|]. rewrite is_eoc_der in He; [done|].
  intros -> ->. by apply Hne.
Qed.

Lemma conv_body_depth fuel inp contents tag hl st depth x r :
  conv_body fuel inp contents tag hl st depth = Some (x, r) -> is_constructed tag = true -> depth < kMaxDepth.
Proof.
  intros H Hc. unfold conv_body in H. rewrite Hc in H.
  assert (Hx : forall i st eoc, conv fuel i st eoc (depth + 1) <> None -> depth < kMaxDepth).
  { intros i st' eoc' Hn. destruct fuel; [done|]. rewrite conv_S in Hn. case_if_in Hn; [done|lia]. }
  destruct (is_indefinite contents hl); [eapply Hx; by rewrite H|]. eapply Hx. intros E. by rewrite E in H.
Qed.

(** A constructed element, of its contents and what follows it. *)
Lemma cons_out seg depth ind tag ch next x0 :
  is_constructed tag = true -> valid_tag tag -> (ind = false -> zlen (ber_bytes ch) < 2 ^ 32) ->
  (forall st, seg = Some st -> primitive tag = st) -> depth < kMaxDepth ->
  (match seg with None => zlen x0 <=? 0xfffffffe | Some _ => true end) = true ->
  ber_ok (string_of_tag seg tag) (depth + 1) ch -> fits_of (string_of_tag seg tag) ch ->
  x0 = out_of (string_of_tag seg tag) ch -> ber_ok seg depth next -> fits_of seg next ->
  ber_ok seg depth (Cons ind tag ch next) /\ fits_of seg (Cons ind tag ch next) /\
  piece seg tag x0 ++ out_of seg next = out_of seg (Cons ind tag ch next).
Proof.
  intros Hc Hv Hl Hst Hd Ez H1 H2 -> H3 H4. split; [|split].
  - cbn [ber_ok]. split; [|done]. by split_and!.
  - destruct seg as [st|]; [done|]. cbn [fits_of der_fits string_of_tag] in *. apply Z.leb_le in Ez.
    split; [|done]. by destruct (is_string_type tag).
  - unfold piece. rewrite Hc. destruct seg as [st|]; [done|]. cbn [out_of der_of string_of_tag].
    by destruct (is_string_type tag).
Qed.

(** A primitive element, of what follows it. *)
Lemma prim_out seg depth tag c next :
  is_byte tag -> is_constructed tag = false -> valid_tag tag -> zlen c < 2 ^ 32 -> bytes_ok c -> (tag = 0 -> c <> []) ->
  (forall st, seg = Some st -> primitive tag = st) ->
  (match seg with None => zlen c <=? 0xfffffffe | Some _ => true end) = true ->
  ber_ok seg depth next -> fits_of seg next ->
  ber_ok seg depth (Prim tag c next) /\ fits_of seg (Prim tag c next) /\
  piece seg tag c ++ out_of seg next = out_of seg (Prim tag c next).
Proof.
  intros Hb Hc Hv Hl Hoc Hz Hst Ez H1 H2. split; [|split].
  - cbn [ber_ok]. split; [|done]. split_and!; try assumption. intros st E. rewrite <- (Hst st E). by rewrite primitive_id.
  - destruct seg; [done|]. cbn. by apply Z.leb_le in Ez.
  - rewrite piece_out by done. by destruct seg.
Qed.

(** What is converted is the encoding of a tree. *)
Lemma conv_inv fuel : forall inp seg eoc depth x rest, bytes_ok inp -> seg <> Some 0 ->
  conv fuel inp (default 0 seg) eoc depth = Some (x, rest) ->
  exists t, ber_ok seg depth t /\ fits_of seg t /\ inp = ber_bytes t ++ ending eoc rest /\ x = out_of seg t.
Proof.
  induction fuel as [|fuel IH]; intros inp seg eoc depth x rest Hok Hs H; [done|].
  assert (Hd : depth <= kMaxDepth) by (rewrite conv_S in H; case_if_in H; [done|lia]).
  assert (Hnil : forall i r : bytes, i = ending eoc r -> x = [] -> rest = r ->
    exists t, ber_ok seg depth t /\ fits_of seg t /\ i = ber_bytes t ++ ending eoc rest /\ x = out_of seg t).
  { intros i r -> -> ->. exists Nil. by destruct seg. }
  destruct (decide (inp = [])) as [->|Hne].
  { rewrite conv_S in H. case_if_in H; [done|]. cbn in H. destruct eoc; [done|]. injection H as <- <-. by eapply Hnil. }
  destruct (CBS_get_any_ber_asn1_element inp) as [[[[contents tag] hl]|] inp'] eqn:Eg.
  2: { rewrite conv_S, Eg in H. case_if_in H; [done|]. destruct inp; [done|]. by case_if_in H. }
  pose proof (ber_element_inv _ _ _ _ _ Hok Eg) as Hr.
  destruct (is_eoc hl contents) eqn:Ee.
  { pose proof (is_eoc_read _ _ _ _ _ Hr Ee) as Hinp. rewrite conv_S, Eg, Ee in H. case_if_in H; [done|].
    case_if_in H; [destruct inp; [done|unfold CBS_len in *; cbn [length] in *; lia]|].
    destruct eoc; [|done]. injection H as <- <-. by eapply Hnil. }
  rewrite (conv_step _ _ _ _ _ _ _ _ _ Eg Hd Hne Ee Hs) in H.
  destruct (match seg with Some st => negb (primitive tag =? st) | None => false end) eqn:Et; [done|].
  assert (Hst : forall st, seg = Some st -> primitive tag = st).
  { intros st ->. apply negb_false_iff in Et. by apply Z.eqb_eq in Et. }
  destruct (conv_body _ _ _ _ _ _ _) as [[x0 inp2]|] eqn:Eb; [|done].
  pose proof (conv_body_depth _ _ _ _ _ _ _ _ _ Eb) as Hdp.
  destruct (match seg with None => zlen x0 <=? 0xfffffffe | Some _ => true end) eqn:Ez; [|done].
  destruct (conv fuel inp2 _ _ _) as [[y r]|] eqn:En; [|done]. injection H as <- <-.
  assert (Hok2 : bytes_ok inp' /\ bytes_ok (zdrop hl contents) /\ is_byte tag).
  { destruct (ber_read_shorter _ _ _ _ _ Hr Hok) as (? & ? & _ & _ & _ & ? & _). auto with bssl. }
  destruct Hok2 as (Hok2 & Hoc & Hbt). pose proof (string_of_tag_nonzero seg tag Hbt Hs) as Hs'.
  assert (Hnext : bytes_ok inp2 -> exists next, ber_ok seg depth next /\ fits_of seg next /\
    inp2 = ber_bytes next ++ ending eoc r /\ y = out_of seg next) by (intros; by apply IH).
  unfold conv_body, inner in Eb. destruct Hr as [tag c inp' Hv Hc|tag inp' Hv Hcon].
  - destruct (der_header tag c) as [Hdr _]. rewrite der_element_indefinite, Hdr in *.
    destruct (is_constructed tag) eqn:Econ.
    + destruct (conv fuel c _ false _) as [[x1 r1]|] eqn:Ec; [|done]. injection Eb as <- <-.
      apply IH in Ec as (ch & H1 & H2 & H3 & H4); [|done..].
      destruct (Hnext Hok2) as (next & H5 & H6 & -> & ->). cbn [ending] in H3. rewrite app_nil_r in H3. subst c.
      destruct (cons_out seg depth false tag ch next x1) as (K1 & K2 & K3); auto.
      exists (Cons false tag ch next). split; [done|]. split; [done|]. split; [|done]. cbn [ber_bytes]. by rewrite <- app_assoc.
    + injection Eb as <- <-. destruct (Hnext Hok2) as (next & H5 & H6 & -> & ->).
      destruct (prim_out seg depth tag c next) as (K1 & K2 & K3); auto.
      { by intros -> ->. }
      exists (Prim tag c next). split; [done|]. split; [done|]. split; [|done]. cbn [ber_bytes]. by rewrite <- app_assoc.
  - change (is_indefinite [tag; 128] 2) with true in Eb. cbv iota in Eb. rewrite Hcon in Eb.
    pose proof (conv_rest _ _ _ _ _ _ _ Hok2 Eb) as [Hok3 _].
    apply IH in Eb as (ch & H1 & H2 & H3 & H4); [|done..].
    destruct (Hnext Hok3) as (next & H5 & H6 & -> & ->). subst inp'.
    destruct (cons_out seg depth true tag ch next x0) as (K1 & K2 & K3); auto; try done.
    exists (Cons true tag ch next). split; [done|]. split; [done|]. split; [|done].
    cbn [ber_bytes ending app]. by rewrite <- !app_assoc.
Qed.

(** * Lemmas: the walk on trees, and DER *)

Lemma noticed_none t : has_constructed t = false -> noticed t = false.
Proof. induction t as [|tag c next IH|ind tag ch IHc next IH]; cbn; auto. done. Qed.

(** The walk notices what [noticed] says. *)
Lemma find_ber_tree t : forall depth fuel b, ber_ok None depth t -> (length (ber_bytes t) < fuel)%nat ->
  find_ber_loop fuel (ber_bytes t) b depth = Some (Some (if has_constructed t then noticed t else b)).
Proof.
  induction t as [|tag c next IH|ind tag ch IHc next IH]; intros depth fuel b Hok Hl;
    (destruct fuel as [|fuel]; [lia|]); cbn [ber_ok ber_bytes has_constructed noticed find_ber_loop] in *; [done|..].
  - destruct Hok as [(Ht & Hc & Hb & _) Hn]. rewrite ber_element_der, der_element_indefinite, Hc by done.
    destruct (der_header tag c) as [_ Hh]. rewrite length_app in Hl.
    case_if; [unfold CBS_len in *; rewrite length_app in *; lia|]. apply IH; [done|lia].
  - destruct Hok as [(Ht & Hc & Hd & Hb & _) [Hch Hn]]. destruct ind; cbn [orb].
    + cbn [app] in *. case_if; [unfold CBS_len in *; cbn [length] in *; lia|].
      rewrite read_indefinite_header by done. done.
    + rewrite ber_element_der, der_element_indefinite, Hc by auto. rewrite length_app in Hl.
      destruct (der_header tag (ber_bytes ch)) as [_ Hh].
      assert (length (ber_bytes ch) < length (der_element tag (ber_bytes ch)))%nat
        by (unfold der_element; rewrite length_cons, length_app; lia).
      case_if; [unfold CBS_len in *; rewrite length_app in *; lia|].
      cbn [string_of_tag] in Hch. destruct (is_string_type tag); [done|]. cbn [orb]. rewrite der_header_skip.
      case_if; [lia|]. rewrite (IHc (depth + 1)) by (done || lia). rewrite (IH depth) by (done || lia).
      destruct (has_constructed ch) eqn:Eh; [done|]. by rewrite (noticed_none ch).
Qed.

Lemma noticed_needs t : noticed t = true -> needs t = true.
Proof.
  induction t as [|tag c next IH|ind tag ch IHc next IH]; cbn [noticed needs]; [done|done|]. intros H.
  apply orb_prop in H as [H|H]; [by rewrite H|]. destruct (has_constructed next).
  - rewrite IH by done. apply orb_true_r.
  - rewrite IHc by done. by rewrite orb_true_r.
Qed.

(** What needs no conversion is its own DER. *)
Lemma needs_der t : needs t = false -> ber_bytes t = der_of t.
Proof.
  induction t as [|tag c next IH|ind tag ch IHc next IH]; cbn [needs ber_bytes der_of]; [done|..]; intros H.
  - by rewrite IH.
  - apply orb_false_iff in H as [H Hn]. apply orb_false_iff in H as [H Hc]. apply orb_false_iff in H as [-> ->].
    by rewrite IHc, IH.
Qed.

Lemma der_element_inj tag c x tag' c' x' : valid_tag tag -> valid_tag tag' -> zlen c < 2 ^ 32 -> zlen c' < 2 ^ 32 ->
  der_element tag c ++ x = der_element tag' c' ++ x' -> tag = tag' /\ c = c' /\ x = x'.
Proof.
  intros Ht Ht' Hc Hc' E. pose proof (ber_element_der tag c x Ht Hc) as H. rewrite E, ber_element_der in H by done.
  assert (der_element tag' c' = der_element tag c /\
          1 + zlen (der_length (zlen c')) = 1 + zlen (der_length (zlen c)) /\ tag = tag' /\ x = x') as (H1 & H2 & Ht1 & Hx)
    by (split_and!; congruence). split; [done|]. split; [|done].
  destruct (der_header tag c) as [<- _], (der_header tag' c') as [<- _]. by rewrite H1, H2.
Qed.

Lemma der_forest_inv n tag c x : valid_tag tag -> zlen c < 2 ^ 32 -> der_forest n (der_element tag c ++ x) ->
  (exists m, der_forest m x) /\ (is_constructed tag = true -> is_string_type tag = false /\ exists m, der_forest m c).
Proof.
  intros Ht Hc H. remember (der_element tag c ++ x) as y eqn:E. destruct H as [n|n tag' c' x' Ht' Hp Hc' Hx|n tag' c' x' Ht' Hp Hs Hc' Hcf Hx].
  - done.
  - apply der_element_inj in E as (<- & <- & <-); [|done..]. split; [by exists n|]. by rewrite Hp.
  - apply der_element_inj in E as (<- & <- & <-); [|done..]. split; [by exists (S n)|]. split; [done|by exists n].
Qed.

(** A tree that needs conversion is not DER. *)
Lemma der_forest_needs t : forall n depth, ber_ok None depth t -> der_forest n (ber_bytes t) -> needs t = false.
Proof.
  induction t as [|tag c next IH|ind tag ch IHc next IH]; intros n depth Hok H; cbn [ber_ok ber_bytes needs] in *; [done|..].
  - destruct Hok as [(Ht & _ & Hb & _) Hn]. apply der_forest_inv in H as [[m Hm] _]; [|done..]. by eapply IH.
  - destruct Hok as [(Ht & Hc & _ & Hb & _) [Hch Hn]]. destruct ind.
    + exfalso. cbn [app] in H. pose proof (read_indefinite_header tag (ber_bytes ch ++ 0 :: 0 :: ber_bytes next) Ht Hc) as E.
      remember (tag :: 0x80 :: _) as y eqn:Ey in H. rewrite <- Ey in E.
      destruct H as [n|n tag' c' x' Ht' Hp Hc' Hx|n tag' c' x' Ht' Hp Hs Hc' Hcf Hx]; [done|..];
        rewrite ber_element_der in E by done;
        assert (Hi : is_indefinite (der_element tag' c') (1 + zlen (der_length (zlen c'))) = is_indefinite [tag; 0x80] 2)
          by congruence; by rewrite der_element_indefinite in Hi.
    + apply der_forest_inv in H as [[m Hm] Hcons]; [|auto..]. destruct (Hcons Hc) as [Hs [m' Hm']].
      rewrite Hs in *. cbn [string_of_tag orb] in *. rewrite Hs in Hch. by rewrite (IHc _ _ Hch Hm'), (IH _ _ Hn Hm).
Qed.

(** * Properties *)

(** A constructed OCTET STRING of two chunks in an indefinite-length SEQUENCE. *)
Definition ber_sample : ber := Cons true 0x30 (Cons true 0x24 (Prim 4 [7] (Prim 4 [8; 9] Nil)) Nil) Nil.


(** On input that is already DER, nested at most 2048 deep,
    [CBS_asn1_ber_to_der] succeeds, reports that nothing had to be converted and
    changes neither the input nor memory. *)
Theorem CBS_asn1_ber_to_der_noop malloc malloc_ok cbb n x s :
  der_forest n x -> Z.of_nat n <= kMaxDepth ->
  CBS_asn1_ber_to_der malloc malloc_ok cbb x s = Some ((Some (None, 0), x), s).
Proof.
  intros Hx Hn. unfold CBS_asn1_ber_to_der, cbs_find_ber. case_if; [done|].
  by rewrite (find_ber_der _ n x 0 Hx) by lia.
Qed.

Lemma CBS_asn1_ber_to_der_noop_witness :
  let x := der_element 0x30 (der_element 2 [5] ++ []) ++ [] in
  CBS_asn1_ber_to_der (filled_alloc 0) true 1%positive x (mk_store None ∅) =
    Some ((Some (None, 0), x), mk_store None ∅).
Proof.
  apply (CBS_asn1_ber_to_der_noop (filled_alloc 0) true 1%positive 1).
  - apply forest_cons; try done; [|constructor]. apply forest_prim; try done. constructor.
  - cbn. unfold kMaxDepth. lia.
Defined.

(** C39. The walk of [cbs_find_ber] forgets what it found: a definite-length constructed
    element that another constructed element follows, at the same level, resets
    [*ber_found]. So [CBS_asn1_ber_to_der] reports that no conversion is needed, and leaves
    the input as it is, on every well-nested input whose first element holds BER and in
    whose next elements, some of which are constructed, nothing is noticed; and that input is not DER. *)
Theorem cbs_find_ber_forgets malloc malloc_ok cbb s tag ch next :
  let inp := ber_bytes (Cons false tag ch next) in
  ber_ok None 0 (Cons false tag ch next) -> is_string_type tag = false -> needs ch = true ->
  has_constructed next = true -> noticed next = false ->
  CBS_asn1_ber_to_der malloc malloc_ok cbb inp s = Some ((Some (None, 0), inp), s) /\
  forall n, ~ der_forest n inp.
Proof.
  intros inp Hok Hs Hch Hc Hn. split.
  - unfold CBS_asn1_ber_to_der, cbs_find_ber, inp. case_if; [done|]. rewrite find_ber_tree by (done || lia).
    cbn [has_constructed noticed orb]. by rewrite Hs, Hc, Hn.
  - intros n H. apply (der_forest_needs _ n 0 Hok) in H. cbn [needs] in H. by rewrite Hch, Hs in H.
Qed.

(** A SEQUENCE that holds an OCTET STRING in pieces, before an empty SEQUENCE. *)
Lemma cbs_find_ber_forgets_witness :
  let inp := [0x30; 5; 0x24; 3; 4; 1; 7; 0x30; 0] in
  CBS_asn1_ber_to_der (filled_alloc 0) true 1%positive inp (mk_store None ∅) = Some ((Some (None, 0), inp), mk_store None ∅) /\
  forall n, ~ der_forest n inp.
Proof.
  apply (cbs_find_ber_forgets (filled_alloc 0) true 1%positive (mk_store None ∅) 0x30
    (Cons false 0x24 (Prim 4 [7] Nil) Nil) (Cons false 0x30 Nil Nil)); try reflexivity.
  cbn; unfold primitive; repeat split; try done; try (by intros ? [= <-]); lia.
Defined.

(** * Implicitly tagged strings *)

Lemma chunks_spec malloc chunks fuel s result c inner : alloc_ok malloc ->
  (length (concat (map (der_element inner) chunks)) < fuel)%nat ->
  valid_tag inner -> Forall (fun x => zlen x < 2 ^ 32) chunks ->
  represents s [result] [(Top, c)] ->
  outcome malloc s
    (implicit_string_chunks malloc fuel result (concat (map (der_element inner) chunks)) inner s)
    (Some ([result], [(Top, c ++ concat chunks)])).
Proof.
  intros Hm Hf Hv Hl Hr. revert fuel s c Hf Hr.
  induction Hl as [|x chunks Hx Hl IH]; intros fuel s c Hf Hr; (destruct fuel as [|fuel]; [lia|]);
    cbn [implicit_string_chunks concat map app] in *.
  - rewrite app_nil_r. exists true, s. split; [done|]. split; [by eapply ext_s_refl|]. eauto.
  - destruct (der_header inner x) as [_ Hd]. unfold CBS_len. rewrite length_app in Hf.
    case_if; [zlia|]. rewrite CBS_get_asn1_der by done.
    eapply (outcome_bind malloc s _ _ (Some ([result], [(Top, c ++ x)]))).
    + rewrite CBB_add_bytes_eq.
      rewrite (run_bind _ _ _ _ _ (flush_leaf malloc s [] result [] Top c eq_refl Hr)). cbn [negb].
      apply (add_bytes_leaf malloc s [] result [] Top c x Hm eq_refl Hr). split; lia.
    + intros ls1 fs1 s1 [= <- <-] Hr1. rewrite app_assoc. apply IH; [lia|done].
    + intros ls fs [= <- <-]. eexists _, _. split; [done|]. cbn [layout plen]. zlia.
Qed.

(** [CBS_get_asn1_implicit_string] reads an implicitly tagged string: a
    primitive element gives its contents, and a constructed one (the outer tag
    with the constructed bit) the concatenation of its primitive chunks; the
    input advances past the element. *)
Theorem CBS_get_asn1_implicit_string_spec malloc inp outer inner chunks rest s :
  alloc_ok malloc -> (forall n, is_u 64 n -> malloc n <> None) ->
  valid_tag outer -> valid_tag inner -> is_constructed outer = false ->
  is_constructed inner = false -> is_string_type inner = true ->
  Forall (fun x => zlen x < 2 ^ 32) chunks -> zlen inp < 2 ^ 64 ->
  let body := concat (map (der_element inner) chunks) in
  zlen body < 2 ^ 32 ->
  (length chunks = 1%nat /\ inp = der_element outer (concat chunks) ++ rest \/
   inp = der_element (Z.lor outer CBS_ASN1_CONSTRUCTED) body ++ rest) ->
  exists s', CBS_get_asn1_implicit_string malloc true 1%positive inp outer inner s =
    Some ((Some (concat chunks), rest), s').
Proof.
  intros Hm Hall Hvo Hvi Hco Hci Hstr Hch Hinp body Hbody Hin.
  unfold CBS_get_asn1_implicit_string.
  assert (Hass : negb (Z.land outer CBS_ASN1_CONSTRUCTED =? 0)
    || negb (Z.land inner CBS_ASN1_CONSTRUCTED =? 0) || negb (is_string_type inner) = false).
  { unfold is_constructed in *. by rewrite Hco, Hci, Hstr. }
  rewrite Hass. destruct Hin as [[Hone ->]|Hinp'].
  { change (der_element outer (concat chunks) ++ rest)
      with (outer :: ((der_length (zlen (concat chunks)) ++ concat chunks) ++ rest)) at 1.
    rewrite CBS_peek_cons, CBS_get_asn1_der; [by eexists|done|].
    destruct chunks as [|x [|]]; [done| |done]. cbn. rewrite app_nil_r.
    by apply Forall_cons_iff in Hch as [? _]. }
  assert (Htag : Z.lor outer CBS_ASN1_CONSTRUCTED <> outer /\ valid_tag (Z.lor outer CBS_ASN1_CONSTRUCTED)).
  { destruct Hvo as [Hb Hv]. assert (H : is_constructed outer || (negb (Z.lor outer 32 =? outer) &&
      (0 <=? Z.lor outer 32) && (Z.lor outer 32 <? 256) &&
      (Z.land (Z.lor outer 32) 31 =? Z.land outer 31)) = true).
    { clear -Hb. revert outer Hb. apply byte_forall. reflexivity. }
    rewrite Hco in H. cbn [orb] in H. bool_simpl. unfold CBS_ASN1_CONSTRUCTED.
    split; [done|]. split; [split; [done|lia]|congruence]. }
  destruct Htag as [Hne Hvt].
  assert (Hpeek : CBS_peek_asn1_tag inp outer = false).
  { rewrite Hinp'. unfold CBS_peek_asn1_tag. case_if; [done|]. by apply Z.eqb_neq. }
  rewrite Hpeek.
  destruct (CBB_init_run malloc 1%positive (CBS_len inp) s Hm) as (ok & s1 & Hinit & Hres).
  { unfold CBS_len. split; lia. }
  unfold sbind at 1. rewrite (run_bind _ _ _ _ _ Hinit).
  destruct ok; [|destruct (Hall (CBS_len inp)); [unfold CBS_len; split; lia|done]]. cbn [negb].
  destruct Hres as [Hr (b & Hb & Hcr)]. rewrite Hinp', CBS_get_asn1_der by done.
  assert (Hcat : zlen (concat chunks) <= zlen body).
  { unfold body. clear. induction chunks as [|x chunks IH]; cbn; [lia|].
    pose proof (der_header inner x) as [_ Hd]. unfold der_element in *. zlia. }
  assert (Hhold : forall x : bytes, zlen x <= zlen (concat chunks) -> holds malloc s1 (zlen x)).
  { intros x Hx. exists b. split; [done|]. split; [lia|]. by rewrite Hcr. }
  destruct (chunks_spec malloc chunks (S (length body)) s1 1%positive [] inner Hm)
    as (ok & s2 & Hrun & Hext & Hok); try done; [unfold body; lia|].
  rewrite (run_bind _ _ _ _ _ Hrun). destruct ok; cbn [negb].
  2: { destruct Hok as [_ Hno]. destruct (Hno _ _ eq_refl). cbn. rewrite app_nil_r. by apply Hhold. }
  destruct Hok as (ls & fs & [= <- <-] & Hr2). cbn [app] in Hr2.
  destruct (CBB_finish_run malloc s2 1%positive [] (concat chunks) [] Hm Hr2) as (r & s3 & Hfin & Hres).
  unfold sbind at 1. rewrite Hfin. cbn [sret]. destruct r as [[data n]|].
  - destruct Hres as (d & e & -> & [= <-] & Hd & -> & _). rewrite app_nil_r in *.
    eexists. unfold CBS_init. by rewrite Hd.
  - destruct (Hres [] eq_refl). rewrite app_nil_r. eapply holds_ext; [exact Hext|]. by apply Hhold.
Qed.

Lemma CBS_get_asn1_implicit_string_spec_witness :
  exists s', CBS_get_asn1_implicit_string (filled_alloc 0) true 1%positive
      [0xa0; 6; 4; 1; 7; 4; 1; 8; 99] 0x80 4 (mk_store None ∅) = Some ((Some [7; 8], [99]), s').
Proof.
  eapply (CBS_get_asn1_implicit_string_spec (filled_alloc 0) _ 0x80 4 [[7]; [8]] [99]); try done.
  - apply filled_alloc_ok. split; lia.
  - intros n [? ?]. unfold filled_alloc. by case_if; [lia|].
  - repeat constructor.
  - by right.
Defined.
