(* ===== verification/Md32.v ===== *)
(** The 32-bit hash collector: crypto/digest/md32_common.h. The header is a
    template: each hash that includes it provides a block function, a byte order
    and the conversion of its state to the output string. Here these are the
    fields of a class, and the template's functions and the streaming theorem
    are stated against it; Sha256.v, Sha1.v, Md5.v and Md4.v are instances. *)

From Stdlib Require Import ZArith Lia.
From stdpp Require Import base list option.
From S2P Require Import Prelude Mem.

#[local] Ltac Zify.zify_post_hook ::= Z.div_mod_to_equations.

(** * Words and bytes *)

(** [HOST_c2l]: the word and the advanced pointer. *)
Definition HOST_c2l_be (c : bytes) : Z * bytes :=
  let l := u32 (Z.shiftl (zget c 0) 24) in
  let l := Z.lor l (u32 (Z.shiftl (zget c 1) 16)) in
  let l := Z.lor l (u32 (Z.shiftl (zget c 2) 8)) in
  let l := Z.lor l (zget c 3) in
  (l, zdrop 4 c).

Definition HOST_c2l_le (c : bytes) : Z * bytes :=
  let l := zget c 0 in
  let l := Z.lor l (u32 (Z.shiftl (zget c 1) 8)) in
  let l := Z.lor l (u32 (Z.shiftl (zget c 2) 16)) in
  let l := Z.lor l (u32 (Z.shiftl (zget c 3) 24)) in
  (l, zdrop 4 c).

(** [HOST_l2c]: the bytes written. *)
Definition HOST_l2c_be (l : Z) : bytes :=
  [u8 (Z.land (Z.shiftr l 24) 0xff); u8 (Z.land (Z.shiftr l 16) 0xff);
   u8 (Z.land (Z.shiftr l 8) 0xff); u8 (Z.land l 0xff)].

Definition HOST_l2c_le (l : Z) : bytes :=
  [u8 (Z.land l 0xff); u8 (Z.land (Z.shiftr l 8) 0xff);
   u8 (Z.land (Z.shiftr l 16) 0xff); u8 (Z.land (Z.shiftr l 24) 0xff)].

(** * The template *)

Definition HASH_CBLOCK := 64.

Record HASH_CTX := mk_HASH_CTX {
  h : list Z;
  Nl : Z;
  Nh : Z;
  data : bytes;
  num : Z;
  md_len : Z
}.

Definition set_h (c : HASH_CTX) (x : list Z) : HASH_CTX :=
  mk_HASH_CTX x (Nl c) (Nh c) (data c) (num c) (md_len c).
Definition set_data (c : HASH_CTX) (x : bytes) (n : Z) : HASH_CTX :=
  mk_HASH_CTX (h c) (Nl c) (Nh c) x n (md_len c).

(** What a hash defines before it includes the template. [block_data_order] is
    the effect of HASH_BLOCK_DATA_ORDER on one block. *)
Class HashBlock := {
  block : list Z -> bytes -> list Z;
  big_endian : bool;
  make_string : HASH_CTX -> option bytes
}.

(** The loop [while (num--)] of every block function. *)
Fixpoint hash_blocks (size : Z) (f : list Z -> bytes -> list Z) (state : list Z) (inp : bytes)
    (n : nat) : list Z :=
  match n with
  | O => state
  | S n => hash_blocks size f (f state (ztake size inp)) (zdrop size inp) n
  end.

Section Template.
  Context {H : HashBlock}.

Definition HASH_BLOCK_DATA_ORDER (state : list Z) (inp : bytes) (n : Z) : list Z :=
  hash_blocks HASH_CBLOCK block state inp (Z.to_nat n).

Definition HASH_UPDATE (c : HASH_CTX) (inp : bytes) (len : Z) : HASH_CTX :=
  if len =? 0 then c
  else
    let l := u32 (Nl c + u32 (Z.shiftl (u32 len) 3)) in
    let nh := if l <? Nl c then u32 (Nh c + 1) else Nh c in
    let nh := u32 (nh + u32 (Z.shiftr len 29)) in
    let c := mk_HASH_CTX (h c) l nh (data c) (num c) (md_len c) in
    let n := num c in
    (* the whole blocks, then what is left *)
    let rest c inp len :=
      let n := len / HASH_CBLOCK in
      let '(c, inp, len) :=
        if n >? 0 then
          (set_h c (HASH_BLOCK_DATA_ORDER (h c) inp n),
           zdrop (n * HASH_CBLOCK) inp, len - n * HASH_CBLOCK)
        else (c, inp, len) in
      if negb (len =? 0) then set_data c (zsplice (data c) 0 (ztake len inp)) len else c in
    if negb (n =? 0) then
      if (len >=? HASH_CBLOCK) || (u64 (len + n) >=? HASH_CBLOCK) then
        let c := set_data c (zsplice (data c) n (ztake (HASH_CBLOCK - n) inp)) n in
        let c := set_h c (HASH_BLOCK_DATA_ORDER (h c) (data c) 1) in
        let n := HASH_CBLOCK - n in
        let c := set_data c (zsplice (data c) 0 (zrepeat HASH_CBLOCK 0)) 0 in
        rest c (zdrop n inp) (len - n)
      else
        set_data c (zsplice (data c) n (ztake len inp)) (u32 (n + u32 len))
    else rest c inp len.

Definition HASH_TRANSFORM (c : HASH_CTX) (inp : bytes) : HASH_CTX :=
  set_h c (HASH_BLOCK_DATA_ORDER (h c) inp 1).

(** Result: the digest ([None] for the return value 0) and the context;
    undefined if the assertion [n < HASH_CBLOCK] fails. *)
Definition HASH_FINAL (c : HASH_CTX) : option (option bytes * HASH_CTX) :=
  let n := num c in
  if negb (n <? HASH_CBLOCK) then None
  else
    let c := set_data c (zsplice (data c) n [0x80]) (num c) in
    let n := n + 1 in
    let '(c, n) :=
      if n >? HASH_CBLOCK - 8 then
        let c := set_data c (zsplice (data c) n (zrepeat (HASH_CBLOCK - n) 0)) (num c) in
        (set_h c (HASH_BLOCK_DATA_ORDER (h c) (data c) 1), 0)
      else (c, n) in
    let c := set_data c (zsplice (data c) n (zrepeat (HASH_CBLOCK - 8 - n) 0)) (num c) in
    let p := if big_endian then HOST_l2c_be (Nh c) ++ HOST_l2c_be (Nl c)
             else HOST_l2c_le (Nl c) ++ HOST_l2c_le (Nh c) in
    let c := set_data c (zsplice (data c) (HASH_CBLOCK - 8) p) (num c) in
    let c := set_h c (HASH_BLOCK_DATA_ORDER (h c) (data c) 1) in
    let c := set_data c (zsplice (data c) 0 (zrepeat HASH_CBLOCK 0)) 0 in
    Some (make_string c, c).

(** * The specification: Merkle-Damgard with the 64-bit length padding *)

(** The message's length in bits, modulo 2^64, in the hash's byte order. *)
Definition length_field (len : Z) : bytes :=
  let bits := (8 * len) mod 2 ^ 64 in
  if big_endian then be_bytes 8 bits else le_bytes 8 bits.

Definition padding (len : Z) : bytes :=
  0x80 :: zrepeat ((55 - len) mod 64) 0 ++ length_field len.

Definition md_state (iv : list Z) (msg : bytes) : list Z :=
  let padded := msg ++ padding (zlen msg) in
  hash_blocks HASH_CBLOCK block iv padded (Z.to_nat (zlen padded / 64)).

End Template.

(** * Lemmas: words and bytes *)

Lemma u8_land x : u8 (Z.land x 0xff) = x mod 256.
Proof.
  change (Z.land x 255) with (u8 x). rewrite !u8_mod. apply Z.mod_mod. lia.
Qed.

Lemma HOST_l2c_be_bytes l : HOST_l2c_be l = be_bytes 4 l.
Proof.
  unfold HOST_l2c_be. rewrite !u8_land, !Z.shiftr_div_pow2 by lia.
  unfold be_bytes. cbn [le_bytes rev app]. rewrite !Z.div_div by lia. done.
Qed.

Lemma HOST_l2c_le_bytes l : HOST_l2c_le l = le_bytes 4 l.
Proof.
  unfold HOST_l2c_le. rewrite !u8_land, !Z.shiftr_div_pow2 by lia.
  cbn [le_bytes]. rewrite !Z.div_div by lia. done.
Qed.

Lemma be_bytes_split n m v :
  be_bytes (n + m) v = be_bytes n (v / 256 ^ Z.of_nat m) ++ be_bytes m v.
Proof.
  revert v. induction m as [|m IH]; intros v.
  - rewrite Nat.add_0_r, Z.div_1_r, app_nil_r. done.
  - rewrite Nat.add_succ_r, !be_bytes_S, IH, app_assoc, Nat2Z.inj_succ, Z.pow_succ_r by lia.
    by rewrite Zdiv_Zdiv by lia.
Qed.

Lemma le_bytes_split n m v :
  le_bytes (m + n) v = le_bytes m v ++ le_bytes n (v / 256 ^ Z.of_nat m).
Proof.
  rewrite <- (rev_involutive (le_bytes (m + n) v)). change (rev (le_bytes ?k ?v)) with (be_bytes k v).
  rewrite Nat.add_comm, be_bytes_split. rewrite rev_app_distr.
  unfold be_bytes. by rewrite !rev_involutive.
Qed.

Lemma zget_take4 c : 4 <= zlen c ->
  ztake 4 c = [zget c 0; zget c 1; zget c 2; zget c 3].
Proof. destruct c as [|x0 [|x1 [|x2 [|x3 c]]]]; cbn; try lia. done. Qed.

Lemma lor_word4 a b c d : is_byte a -> is_byte b -> is_byte c -> is_byte d ->
  Z.lor (Z.lor (Z.lor (u32 (Z.shiftl a 24)) (u32 (Z.shiftl b 16))) (u32 (Z.shiftl c 8))) d =
  be_val [a; b; c; d].
Proof.
  intros [Ha0 Ha1] [Hb0 Hb1] [Hc0 Hc1] [Hd0 Hd1].
  rewrite !(u32_small (Z.shiftl _ _)) by (split; rewrite Z.shiftl_mul_pow2; lia).
  rewrite <- !Z.lor_assoc.
  rewrite (lor_shiftl_add c d 8), (lor_shiftl_add b _ 16), (lor_shiftl_add a _ 24)
    by (lia || (split; lia)).
  unfold be_val. cbn [fold_left]. lia.
Qed.

Lemma lor4_rev a b c d :
  Z.lor (Z.lor (Z.lor a b) c) d = Z.lor (Z.lor (Z.lor d c) b) a.
Proof.
  rewrite (Z.lor_comm _ d), (Z.lor_comm _ c), (Z.lor_comm a b). by rewrite !Z.lor_assoc.
Qed.

Lemma HOST_c2l_be_val c : 4 <= zlen c -> bytes_ok c ->
  HOST_c2l_be c = (be_val (ztake 4 c), zdrop 4 c).
Proof.
  intros Hl Hok. unfold HOST_c2l_be. rewrite zget_take4 by done.
  by rewrite lor_word4 by (by apply zget_byte).
Qed.

Lemma HOST_c2l_le_val c : 4 <= zlen c -> bytes_ok c ->
  HOST_c2l_le c = (le_val (ztake 4 c), zdrop 4 c).
Proof.
  intros Hl Hok. unfold HOST_c2l_le, le_val. rewrite zget_take4 by done. cbn [rev app].
  rewrite <- lor_word4 by (by apply zget_byte). f_equal. apply lor4_rev.
Qed.

(** * Message schedules

    The schedules of the SHA family: sixteen words of the block, then each word
    from the sixteen before it; the code keeps only a ring of sixteen. *)

Fixpoint schedule (next : (Z -> Z) -> Z -> Z) (n : nat) (ws : list Z) : list Z :=
  match n with
  | O => ws
  | S n => schedule next n (ws ++ [next (zget ws) (zlen ws)])
  end.

Definition local_next (next : (Z -> Z) -> Z -> Z) : Prop :=
  forall f g t, (forall j, t - 16 <= j < t -> f j = g j) -> next f t = next g t.

Lemma schedule_prefix next n ws i : 0 <= i < zlen ws -> zget (schedule next n ws) i = zget ws i.
Proof.
  revert ws. induction n as [|n IH]; intros ws Hi; [done|]. cbn [schedule].
  rewrite IH by zlia. apply zget_app_l. lia.
Qed.

Lemma schedule_next next n ws t : local_next next -> 16 <= zlen ws ->
  zlen ws <= t < zlen ws + Z.of_nat n ->
  zget (schedule next n ws) t = next (zget (schedule next n ws)) t.
Proof.
  intros Hloc. revert ws. induction n as [|n IH]; intros ws Hws Ht; [lia|]. cbn [schedule].
  destruct (Z.eq_dec t (zlen ws)) as [->|Hne]; [|apply IH; zlia].
  rewrite schedule_prefix by zlia. rewrite zget_app_r, Z.sub_diag by lia.
  change (zget [?x] 0) with x. apply Hloc. intros j Hj.
  rewrite schedule_prefix by zlia. symmetry. apply zget_app_l. lia.
Qed.

Lemma zget_map_seq f n i : 0 <= i < Z.of_nat n -> zget (map f (seq 0 n)) i = f (Z.to_nat i).
Proof.
  intros Hi. unfold zget. rewrite (nth_indep _ 0 (f 0%nat)) by (rewrite length_map, length_seq; lia).
  rewrite map_nth, seq_nth by lia. done.
Qed.

(** The ring [X] holds the words [i - 16 .. i - 1] of [W]. *)
Definition window (X : list Z) (W : Z -> Z) (i : Z) : Prop :=
  length X = 16%nat /\ forall j, i - 16 <= j < i -> zget X (j mod 16) = W j.

Lemma land_15 i : Z.land i 0x0f = i mod 16.
Proof. exact (Z.land_ones i 4 ltac:(lia)). Qed.

Lemma window_get X W i k : window X W i -> 0 <= k < 16 ->
  zget X (Z.land (i + k) 0x0f) = W (i - 16 + k).
Proof.
  intros [_ H] Hk. rewrite land_15, <- H by lia. f_equal.
  replace (i + k) with (i - 16 + k + 1 * 16) by lia. apply Z.mod_add. lia.
Qed.

Lemma window_get0 X W i : window X W i -> zget X (Z.land i 0x0f) = W (i - 16).
Proof.
  intros H. rewrite <- (Z.add_0_r i) at 1. rewrite (window_get X W i 0 H) by lia. f_equal. lia.
Qed.

Lemma window_set X W i : window X W i ->
  window (<[Z.to_nat (Z.land i 0x0f) := W i]> X) W (i + 1).
Proof.
  intros [Hl H]. rewrite land_15. split; [by rewrite length_insert|]. intros j Hj.
  rewrite zget_insert by lia. case_decide as Hd.
  - f_equal. lia.
  - apply H. assert (j <> i) by (intros ->; done). lia.
Qed.

(** * Lemmas: runs of blocks *)

Lemma hash_blocks_app size f st l1 l2 n1 n2 : 0 < size -> zlen l1 = size * Z.of_nat n1 ->
  hash_blocks size f st (l1 ++ l2) (n1 + n2) =
  hash_blocks size f (hash_blocks size f st l1 n1) l2 n2.
Proof.
  intros Hs. revert st l1. induction n1 as [|n1 IH]; intros st l1 Hl.
  - rewrite Z.mul_0_r in Hl. by apply zlen_0 in Hl as ->.
  - destruct (zsplit size l1) as (a & b & -> & Ha); [lia|].
    cbn [hash_blocks Nat.add]. rewrite <- app_assoc, !ztake_app, !zdrop_app by done.
    apply IH. zlia.
Qed.

(** A run only reads the blocks it is given. *)
Lemma hash_blocks_prefix size f st l1 l2 n : 0 < size -> zlen l1 = size * Z.of_nat n ->
  hash_blocks size f st (l1 ++ l2) n = hash_blocks size f st l1 n.
Proof.
  intros Hs Hl. rewrite <- (Nat.add_0_r n) at 1. by rewrite hash_blocks_app.
Qed.

Lemma hash_blocks_one size f st l : zlen l = size -> hash_blocks size f st l 1 = f st l.
Proof. intros H. cbn [hash_blocks]. by rewrite ztake_all by lia. Qed.

Lemma zsplice_end {A} (l1 l2 v : list A) i :
  zlen l1 = i -> zlen v = zlen l2 -> zsplice (l1 ++ l2) i v = l1 ++ v.
Proof.
  intros H1 H2. pose proof (zsplice_app l1 l2 [] v i H1 H2) as H.
  by rewrite !app_nil_r in H.
Qed.

Lemma zsplice_all {A} (l v : list A) : zlen v = zlen l -> zsplice l 0 v = v.
Proof. intros H. exact (zsplice_end [] l v 0 eq_refl H). Qed.

(** * Lemmas: streaming *)

Section Streaming.
  Context {H : HashBlock}.

(** The context has absorbed the message [m] from the initial state [iv]. *)
Definition absorbed (iv : list Z) (c : HASH_CTX) (m : bytes) : Prop :=
  exists q m1 m2 z, m = m1 ++ m2 /\ zlen m1 = 64 * Z.of_nat q /\ zlen m2 < 64 /\
    h c = hash_blocks HASH_CBLOCK block iv m1 q /\ num c = zlen m2 /\
    data c = m2 ++ z /\ zlen (data c) = 64 /\
    is_u 32 (Nl c) /\ is_u 32 (Nh c) /\ Nl c + 2 ^ 32 * Nh c = (8 * zlen m) mod 2 ^ 64.

(** The two counter words add [8 * len] with carries, modulo 2^64. *)
Lemma count_bits nl nh total len : is_u 32 nl -> is_u 32 nh -> is_u 64 len ->
  nl + 2 ^ 32 * nh = (8 * total) mod 2 ^ 64 ->
  let l := u32 (nl + u32 (Z.shiftl (u32 len) 3)) in
  let nh' := if l <? nl then u32 (nh + 1) else nh in
  let nh' := u32 (nh' + u32 (Z.shiftr len 29)) in
  is_u 32 l /\ is_u 32 nh' /\ l + 2 ^ 32 * nh' = (8 * (total + len)) mod 2 ^ 64.
Proof.
  intros [Hl0 Hl1] [Hh0 Hh1] [Hn0 Hn1] Heq l nh' nh''.
  split; [apply u32_is_u|]. split; [apply u32_is_u|]. unfold nh'', nh', l.
  rewrite Z.shiftl_mul_pow2, Z.shiftr_div_pow2 by lia. rewrite !u32_mod.
  change (2 ^ 3) with 8 in *. change (2 ^ 29) with 536870912 in *.
  change (2 ^ 32) with 4294967296 in *. change (2 ^ 64) with 18446744073709551616 in *.
  set (a := len mod 4294967296 * 8 mod 4294967296).
  assert (Hlen : 8 * len = a + 4294967296 * (len / 536870912)).
  { unfold a. lia. }
  replace (8 * (total + len)) with (8 * total + 8 * len) by lia.
  rewrite <- (Z.add_mod_idemp_l (8 * total)), <- Heq, Hlen by lia.
  assert (Ha : 0 <= a < 4294967296) by (apply Z.mod_pos_bound; lia).
  set (d := len / 536870912) in *. assert (Hd : 0 <= d < 2 ^ 35) by (unfold d; lia).
  clear Heq Hlen. clearbody a d.
  case_if; lia.
Qed.

(** The whole blocks of the input and what is left of it, from an empty buffer. *)
Definition update_rest (c : HASH_CTX) (inp : bytes) (len : Z) : HASH_CTX :=
  let n := len / HASH_CBLOCK in
  let '(c, inp, len) :=
    if n >? 0 then
      (set_h c (HASH_BLOCK_DATA_ORDER (h c) inp n),
       zdrop (n * HASH_CBLOCK) inp, len - n * HASH_CBLOCK)
    else (c, inp, len) in
  if negb (len =? 0) then set_data c (zsplice (data c) 0 (ztake len inp)) len else c.

Lemma update_rest_spec iv c m1 q inp total : zlen m1 = 64 * Z.of_nat q ->
  h c = hash_blocks HASH_CBLOCK block iv m1 q -> num c = 0 -> zlen (data c) = 64 ->
  is_u 32 (Nl c) -> is_u 32 (Nh c) -> Nl c + 2 ^ 32 * Nh c = (8 * total) mod 2 ^ 64 ->
  total = zlen (m1 ++ inp) ->
  absorbed iv (update_rest c inp (zlen inp)) (m1 ++ inp).
Proof.
  intros Hm1 Hh Hnum Hdata Hnl Hnh Hcount ->. unfold update_rest, HASH_CBLOCK in *.
  remember (zlen inp / 64) as n eqn:Hn.
  destruct (zsplit (n * 64) inp) as (a & b & -> & Ha); [lia|].
  assert (Hb : zlen b < 64 /\ zlen (a ++ b) = zlen a + zlen b) by (rewrite length_app in *; lia).
  set (c1 := if n >? 0 then set_h c (HASH_BLOCK_DATA_ORDER (h c) (a ++ b) n) else c).
  replace (if n >? 0 then _ else _) with (c1, b, zlen b).
  2: { unfold c1. case_if; [rewrite zdrop_app by done; f_equal; lia|].
       assert (a = []) as -> by (apply zlen_0; lia). done. }
  assert (Hc1 : h c1 = hash_blocks 64 block iv (m1 ++ a) (q + Z.to_nat n) /\
                Nl c1 = Nl c /\ Nh c1 = Nh c /\ data c1 = data c /\ num c1 = 0).
  { rewrite hash_blocks_app by (lia || done). rewrite <- Hh. unfold c1. case_if.
    - split; [|done]. cbn. unfold HASH_BLOCK_DATA_ORDER, HASH_CBLOCK.
      apply hash_blocks_prefix; lia.
    - replace (Z.to_nat n) with 0%nat by lia. done. }
  destruct Hc1 as (Hh1 & Hnl1 & Hnh1 & Hd1 & Hn1).
  exists (q + Z.to_nat n)%nat, (m1 ++ a), b. case_if.
  - exists (zdrop (zlen b) (data c)). cbn [h num data Nl Nh set_data].
    rewrite Hnl1, Hnh1, Hd1, (ztake_all (zlen b) b) by lia. unfold zsplice. cbn [app].
    rewrite (ztake_0 0), Z.add_0_l by lia. cbn [app].
    split; [by rewrite app_assoc|]. split_and!; try done; try zlia.
  - assert (b = []) as -> by (by apply zlen_0). exists (data c).
    rewrite Hnl1, Hnh1, Hd1. split; [by rewrite app_assoc|]. split_and!; try done; try zlia.
Qed.

Lemma HASH_UPDATE_spec iv c m inp : absorbed iv c m -> is_u 64 (zlen inp) ->
  absorbed iv (HASH_UPDATE c inp (zlen inp)) (m ++ inp).
Proof.
  intros (q & m1 & m2 & z & -> & Hm1 & Hm2 & Hh & Hnum & Hdata & Hdl & Hnl & Hnh & Hcount) Hu.
  unfold HASH_UPDATE. case_if.
  { apply zlen_0 in E as ->. rewrite app_nil_r. exists q, m1, m2, z. by split_and!. }
  pose proof (count_bits _ _ _ _ Hnl Hnh Hu Hcount) as Hc. cbv zeta in Hc.
  cbv zeta. cbn [h num data Nl Nh].
  match type of Hc with is_u 32 ?a /\ _ => set (l := a) in * end.
  match type of Hc with _ /\ is_u 32 ?b /\ _ => set (nh := b) in * end.
  destruct Hc as (Hl & Hnh' & Hc). clearbody l nh.
  rewrite Hdata in Hdl. rewrite Hnum.
  destruct (Z.eqb_spec (zlen m2) 0) as [E0|E0]; cbn [negb].
  - apply zlen_0 in E0 as ->. rewrite app_nil_r in *.
    apply (update_rest_spec iv (mk_HASH_CTX (h c) l nh (data c) 0 (md_len c)) m1 q inp
      (zlen (m1 ++ inp))); try done; cbn; [by rewrite Hdata|]. rewrite Hc. f_equal. zlia.
  - assert (Hcond : (zlen inp >=? HASH_CBLOCK) || (u64 (zlen inp + zlen m2) >=? HASH_CBLOCK) =
                    (zlen inp + zlen m2 >=? 64)).
    { unfold HASH_CBLOCK. destruct (Z.lt_ge_cases (zlen inp) 64).
      - rewrite u64_small by (split; lia). lia.
      - lia. }
    rewrite Hcond. clear Hcond. unfold HASH_CBLOCK. case_if.
    + destruct (zsplit (64 - zlen m2) inp) as (a & b & -> & Ha); [lia|].
      rewrite zdrop_app, ztake_app by done.
      replace (zlen (a ++ b) - (64 - zlen m2)) with (zlen b) by zlia.
      assert (Hfull : zsplice (m2 ++ z) (zlen m2) a = m2 ++ a).
      { pose proof (zsplice_app m2 z [] a (zlen m2) eq_refl ltac:(zlia)) as Hs.
        by rewrite !app_nil_r in Hs. }
      rewrite Hdata, Hfull.
      assert (Hassoc : (m1 ++ m2) ++ a ++ b = (m1 ++ m2 ++ a) ++ b) by (by rewrite <- !app_assoc).
      rewrite Hassoc in *.
      apply (update_rest_spec iv
        (mk_HASH_CTX (HASH_BLOCK_DATA_ORDER (h c) (m2 ++ a) 1) l nh
           (zsplice (m2 ++ a) 0 (zrepeat 64 0)) 0 (md_len c))
        (m1 ++ m2 ++ a) (S q) b (zlen ((m1 ++ m2 ++ a) ++ b))); try done; cbn [h Nl Nh data num].
      * zlia.
      * rewrite Hh, <- Nat.add_1_r, hash_blocks_app by (unfold HASH_CBLOCK; lia). done.
      * rewrite length_zsplice; zlia.
      * rewrite Hc. f_equal. zlia.
    + rewrite (ztake_all (zlen inp)) by lia.
      destruct (zsplit (zlen inp) z) as (z1 & z2 & -> & Hz1); [zlia|].
      exists q, m1, (m2 ++ inp), z2. cbn [h num data Nl Nh set_data].
      rewrite Hdata, zsplice_app by lia. rewrite (u32_small (zlen inp)) by (split; lia).
      rewrite u32_small by (split; lia).
      split_and!; try done; rewrite <- ?app_assoc; try done; try zlia.
Qed.

(** The length field is what the two counter words spell. *)
Lemma length_field_words nl nh len : is_u 32 nl -> is_u 32 nh ->
  nl + 2 ^ 32 * nh = (8 * len) mod 2 ^ 64 ->
  (if big_endian then HOST_l2c_be nh ++ HOST_l2c_be nl
   else HOST_l2c_le nl ++ HOST_l2c_le nh) = length_field len.
Proof.
  intros [Hl0 Hl1] [Hh0 Hh1] Heq. unfold length_field. rewrite <- Heq.
  rewrite !HOST_l2c_be_bytes, !HOST_l2c_le_bytes.
  change 8%nat with (4 + 4)%nat. rewrite be_bytes_split, le_bytes_split.
  change (256 ^ Z.of_nat 4) with (2 ^ 32).
  replace ((nl + 2 ^ 32 * nh) / 2 ^ 32) with nh by lia.
  assert (Hmod : (nl + 2 ^ 32 * nh) mod 256 ^ Z.of_nat 4 = nl).
  { change (256 ^ Z.of_nat 4) with (2 ^ 32). lia. }
  rewrite <- (be_bytes_mod 4 (nl + _)), Hmod.
  unfold be_bytes in *. f_equal.
  destruct big_endian; [done|]. f_equal.
  pose proof (be_bytes_mod 4 (nl + 2 ^ 32 * nh)) as Hb. rewrite Hmod in Hb.
  unfold be_bytes in Hb. apply (f_equal (@rev Z)) in Hb. by rewrite !rev_involutive in Hb.
Qed.

Lemma length_length_field len : zlen (length_field len) = 8.
Proof. unfold length_field. destruct big_endian; zlia. Qed.

(** Hashing the whole padded message from the state after its whole blocks. *)
Lemma md_state_split iv m1 m2 q : zlen m1 = 64 * Z.of_nat q -> zlen m2 < 64 ->
  md_state iv (m1 ++ m2) =
    let tail := m2 ++ padding (zlen (m1 ++ m2)) in
    hash_blocks HASH_CBLOCK block (hash_blocks HASH_CBLOCK block iv m1 q) tail
      (if zlen m2 <? 56 then 1 else 2).
Proof.
  intros Hm1 Hm2. unfold md_state. rewrite <- app_assoc. cbv zeta.
  rewrite <- hash_blocks_app by (unfold HASH_CBLOCK; lia). f_equal.
  unfold padding. pose proof (length_length_field (zlen (m1 ++ m2))) as Hf.
  set (L := zlen (m1 ++ m2)) in *. assert (HL : L = 64 * Z.of_nat q + zlen m2) by (unfold L; zlia).
  clearbody L. rewrite !length_app, length_cons, length_app, length_zrepeat.
  case_if; lia.
Qed.

(** Finalising computes the specification's state, then the output string, and
    leaves an empty, zeroed buffer. *)
Lemma HASH_FINAL_spec iv c m : absorbed iv c m ->
  HASH_FINAL c =
    let c' := mk_HASH_CTX (md_state iv m) (Nl c) (Nh c) (zrepeat 64 0) 0 (md_len c) in
    Some (make_string c', c').
Proof.
  intros (q & m1 & m2 & z & -> & Hm1 & Hm2 & Hh & Hnum & Hdata & Hdl & Hnl & Hnh & Hcount).
  pose proof (length_field_words _ _ _ Hnl Hnh Hcount) as Hlf.
  pose proof (length_length_field (zlen (m1 ++ m2))) as Hf.
  unfold HASH_FINAL, HASH_CBLOCK. rewrite Hnum. case_if; [lia|].
  rewrite (md_state_split iv m1 m2 q Hm1 Hm2), <- Hh. cbv zeta.
  rewrite Hdata in Hdl.
  destruct z as [|z0 z]; [rewrite app_nil_r in Hdl; lia|].
  assert (H80 : zsplice (data c) (zlen m2) [0x80] = (m2 ++ [0x80]) ++ z).
  { rewrite Hdata. change (z0 :: z) with ([z0] ++ z). rewrite zsplice_app by done.
    by rewrite <- app_assoc. }
  assert (Hpad : padding (zlen (m1 ++ m2)) =
    [0x80] ++ zrepeat (if zlen m2 <? 56 then 55 - zlen m2 else 119 - zlen m2) 0 ++
    length_field (zlen (m1 ++ m2))).
  { unfold padding. rewrite length_app. do 2 f_equal. f_equal. case_if; lia. }
  rewrite Hpad. cbn [h data Nl Nh num md_len set_data set_h]. rewrite H80.
  set (field := length_field (zlen (m1 ++ m2))) in *.
  set (m80 := m2 ++ [0x80]). assert (Hm80 : zlen m80 = zlen m2 + 1) by (unfold m80; zlia).
  assert (Hz : zlen z = 63 - zlen m2) by (rewrite length_app in Hdl; cbn [length] in Hdl; lia).
  unfold HASH_BLOCK_DATA_ORDER, HASH_CBLOCK. change (Z.to_nat 1) with 1%nat.
  destruct (Z.ltb_spec (zlen m2) 56).
  - replace (zlen m2 + 1 >? 64 - 8) with false by lia.
    destruct (zsplit (55 - zlen m2) z) as (z1 & z2 & -> & Hz1); [lia|].
    cbn [h data Nl Nh num md_len set_data set_h].
    rewrite Hlf, zsplice_app by zlia. replace (64 - 8 - (zlen m2 + 1)) with (55 - zlen m2) by lia.
    assert (Hs : zsplice (m80 ++ zrepeat (55 - zlen m2) 0 ++ z2) (64 - 8) field =
                 m80 ++ zrepeat (55 - zlen m2) 0 ++ field).
    { rewrite !app_assoc. apply zsplice_end; zlia. }
    rewrite Hs, zsplice_all by zlia. unfold m80. by rewrite <- !app_assoc.
  - replace (zlen m2 + 1 >? 64 - 8) with true by lia.
    cbn [h data Nl Nh num md_len set_data set_h].
    rewrite Hlf, (zsplice_end m80 z) by (try done; zlia).
    set (blk := m80 ++ zrepeat (64 - (zlen m2 + 1)) 0).
    assert (Hblk : zlen blk = 64) by (unfold blk; zlia).
    destruct (zsplit 56 blk) as (d1 & d2 & Hd & Hd1); [lia|].
    assert (Hd2 : zlen d2 = 8) by (rewrite Hd in Hblk; zlia).
    assert (Hs : zsplice (zsplice blk 0 (zrepeat (64 - 8 - 0) 0)) (64 - 8) field = zrepeat 56 0 ++ field).
    { rewrite Hd, (zsplice_app [] d1 d2) by (done || zlia). cbn [app]. apply zsplice_end; zlia. }
    rewrite Hs, (zsplice_all (zrepeat 56 0 ++ field)) by zlia.
    replace (m2 ++ [128] ++ zrepeat (119 - zlen m2) 0 ++ field) with (blk ++ zrepeat 56 0 ++ field).
    { change 2%nat with (1 + 1)%nat. rewrite hash_blocks_app by lia. done. }
    unfold blk, m80. rewrite <- !app_assoc. do 2 f_equal. rewrite app_assoc. f_equal.
    unfold zrepeat. rewrite <- replicate_add. f_equal. lia.
Qed.

(** The state [Init] leaves, with the initial hash value [iv]. *)
Definition init_ctx (iv : list Z) (n : Z) : HASH_CTX :=
  mk_HASH_CTX iv 0 0 (zrepeat HASH_CBLOCK 0) 0 n.

Definition update_all (c : HASH_CTX) (inputs : list bytes) : HASH_CTX :=
  fold_left (fun c inp => HASH_UPDATE c inp (zlen inp)) inputs c.

Lemma init_absorbed iv n : absorbed iv (init_ctx iv n) [].
Proof.
  exists 0%nat, [], [], (zrepeat HASH_CBLOCK 0). cbn [init_ctx h num data Nl Nh].
  unfold HASH_CBLOCK. split_and!; try done; try zlia; by split.
Qed.

Lemma update_all_absorbed iv c m inputs : absorbed iv c m ->
  Forall (fun inp => is_u 64 (zlen inp)) inputs ->
  absorbed iv (update_all c inputs) (m ++ concat inputs).
Proof.
  intros Hc Hin. revert c m Hc. induction Hin as [|inp inputs Hi Hin IH]; intros c m Hc; cbn.
  - by rewrite app_nil_r.
  - rewrite app_assoc. apply IH. by apply HASH_UPDATE_spec.
Qed.

Lemma HASH_UPDATE_md_len c inp n : md_len (HASH_UPDATE c inp n) = md_len c.
Proof. unfold HASH_UPDATE. repeat case_if; reflexivity. Qed.

Lemma update_all_md_len c inputs : md_len (update_all c inputs) = md_len c.
Proof.
  revert c. induction inputs as [|i l IH]; intros c; [done|].
  cbn. unfold update_all in IH. rewrite IH. apply HASH_UPDATE_md_len.
Qed.

(** The digest of a streamed message, for any split of it into updates. *)
Lemma stream_digest iv n inputs : Forall (fun inp => is_u 64 (zlen inp)) inputs ->
  exists nl nh,
    let c' := mk_HASH_CTX (md_state iv (concat inputs)) nl nh (zrepeat 64 0) 0 n in
    HASH_FINAL (update_all (init_ctx iv n) inputs) = Some (make_string c', c').
Proof.
  intros Hin. pose proof (update_all_absorbed iv _ [] inputs (init_absorbed iv n) Hin) as Ha.
  pose proof (HASH_FINAL_spec _ _ _ Ha) as Hf. cbn [app] in Hf.
  rewrite update_all_md_len in Hf. cbn [md_len init_ctx] in Hf. eauto.
Qed.

End Streaming.

(** * Lemmas: block functions that agree *)

Lemma hash_blocks_ext size f g st l n : 0 < size ->
  (forall st b, zlen b = size -> bytes_ok b -> f st b = g st b) ->
  bytes_ok l -> size * Z.of_nat n <= zlen l ->
  hash_blocks size f st l n = hash_blocks size g st l n.
Proof.
  intros Hs Hfg. revert st l. induction n as [|n IH]; intros st l Hl Hn; [done|].
  cbn [hash_blocks]. rewrite Hfg by (auto with bssl; zlia). apply IH; [auto with bssl|zlia].
Qed.

Lemma length_field_ok {H : HashBlock} n : bytes_ok (length_field n).
Proof. unfold length_field. destruct big_endian; [apply be_bytes_ok|apply le_bytes_ok]. Qed.

Lemma padding_ok {H : HashBlock} n : bytes_ok (padding n).
Proof.
  constructor; [split; lia|]. apply bytes_ok_app. split; [|apply length_field_ok].
  apply bytes_ok_zrepeat. split; lia.
Qed.

Lemma md_state_ext (H1 H2 : HashBlock) iv m :
  @big_endian H1 = @big_endian H2 ->
  (forall st b, zlen b = 64 -> bytes_ok b -> @block H1 st b = @block H2 st b) ->
  bytes_ok m -> @md_state H1 iv m = @md_state H2 iv m.
Proof.
  intros Hbe Hb Hm. unfold md_state.
  assert (Hp : @padding H1 (zlen m) = @padding H2 (zlen m))
    by (unfold padding, length_field; by rewrite Hbe).
  rewrite Hp. apply hash_blocks_ext; [done|exact Hb| |].
  - apply bytes_ok_app. split; [done|apply padding_ok].
  - unfold HASH_CBLOCK. set (l := zlen (m ++ _)). assert (0 <= l) by (unfold l; lia). clearbody l. lia.
Qed.

(** The state after at least one block is an output of the block function. *)
Lemma hash_blocks_inv size f (P : list Z -> Prop) st l n :
  (forall st b, P (f st b)) -> (0 < n)%nat -> P (hash_blocks size f st l n).
Proof.
  intros Hf. revert st l. induction n as [|n IH]; intros st l Hn; [lia|].
  destruct n as [|n]; [apply Hf|]. apply IH. lia.
Qed.

Lemma md_state_inv {H : HashBlock} (P : list Z -> Prop) iv m :
  (forall st b, P (block st b)) -> P (md_state iv m).
Proof.
  intros Hb. unfold md_state. apply hash_blocks_inv; [done|]. pose proof (length_length_field (zlen m)) as Hl.
  unfold padding. rewrite !length_app, length_cons, length_app, length_zrepeat. lia.
Qed.

Lemma concat_inputs_ok inputs : Forall bytes_ok inputs -> bytes_ok (concat inputs).
Proof. induction 1; cbn; [constructor|]. apply bytes_ok_app. by split. Qed.

(** * Specifications of the instances *)

(** Rotation of a word to the left. *)
Definition rotl (n x : Z) : Z := Z.lor (u32 (Z.shiftl x n)) (Z.shiftr x (32 - n)).

(** Rounds [t], [t + 1], ... of a hash. *)
Fixpoint rounds {R : Type} (round : Z -> R -> R) (n : nat) (t : Z) (r : R) : R :=
  match n with
  | O => r
  | S n => rounds round n (t + 1) (round t r)
  end.

Lemma rounds_S {R} (round : Z -> R -> R) n t r :
  rounds round (S n) t r = rounds round n (t + 1) (round t r).
Proof. reflexivity. Qed.

(** The [t]-th word of a block. *)
Definition be_word (inp : bytes) (t : Z) : Z := be_val (ztake 4 (zdrop (4 * t) inp)).
Definition le_word (inp : bytes) (t : Z) : Z := le_val (ztake 4 (zdrop (4 * t) inp)).

(** An input of one update. *)
Definition input_ok (inp : bytes) : Prop := bytes_ok inp /\ is_u 64 (zlen inp).

(** The digest of a streamed message when the block function agrees with the one
    of a specification. *)
Lemma stream_ext (H1 H2 : HashBlock) iv n inputs :
  @big_endian H1 = @big_endian H2 ->
  (forall st b, zlen b = 64 -> bytes_ok b -> @block H1 st b = @block H2 st b) ->
  Forall input_ok inputs ->
  exists c', @HASH_FINAL H1 (@update_all H1 (init_ctx iv n) inputs) = Some (@make_string H1 c', c') /\
    h c' = @md_state H2 iv (concat inputs) /\ md_len c' = n.
Proof.
  intros Hbe Hb Hin.
  destruct (stream_digest (H:=H1) iv n inputs) as (nl & nh & Hf);
    [eapply Forall_impl; [|exact Hin]; by intros ? [? ?]|].
  rewrite (md_state_ext H1 H2) in Hf; [|done|done|].
  - eexists. split; [exact Hf|done].
  - apply concat_inputs_ok. eapply Forall_impl; [|exact Hin]; by intros ? [? ?].
Qed.

(** Reads the word at offset [o] of a block. *)
Lemma c2l_be_at inp o o' t : zlen inp = 64 -> bytes_ok inp -> o = 4 * t -> o' = o + 4 ->
  0 <= t < 16 -> HOST_c2l_be (zdrop o inp) = (be_word inp t, zdrop o' inp).
Proof.
  intros Hl Hok -> -> Ht. rewrite HOST_c2l_be_val by (auto with bssl; zlia).
  by rewrite zdrop_zdrop by lia.
Qed.

Lemma c2l_le_at inp o o' t : zlen inp = 64 -> bytes_ok inp -> o = 4 * t -> o' = o + 4 ->
  0 <= t < 16 -> HOST_c2l_le (zdrop o inp) = (le_word inp t, zdrop o' inp).
Proof.
  intros Hl Hok -> -> Ht. rewrite HOST_c2l_le_val by (auto with bssl; zlia).
  by rewrite zdrop_zdrop by lia.
Qed.

(** The schedule of the SHA family over a block. *)
Definition block_schedule (next : (Z -> Z) -> Z -> Z) (n : nat) (inp : bytes) : list Z :=
  schedule next n (map (fun t => be_word inp (Z.of_nat t)) (seq 0 16)).

Lemma block_schedule_word next n inp t : 0 <= t < 16 ->
  zget (block_schedule next n inp) t = be_word inp t.
Proof.
  intros Ht. unfold block_schedule. rewrite schedule_prefix by (rewrite length_map, length_seq; lia).
  rewrite zget_map_seq by lia. by rewrite Z2Nat.id by lia.
Qed.

Lemma block_schedule_next next n inp t : local_next next -> 16 <= t < 16 + Z.of_nat n ->
  zget (block_schedule next n inp) t = next (zget (block_schedule next n inp)) t.
Proof.
  intros Hloc Ht. unfold block_schedule. set (ws := map _ _).
  assert (Hws : zlen ws = 16) by (unfold ws; rewrite length_map, length_seq; done).
  clearbody ws. rewrite schedule_next at 1; [done|done|lia|]. rewrite Hws. lia.
Qed.

(** * Properties *)

(** C29. Streaming is equivalent to hashing at once. For every hash built on the
    template and every way to cut a message into updates (empty ones and ones
    that end anywhere in a block included), Final is defined and computes the
    Merkle-Damgard hash of the concatenation: the block function folded over the
    message, a 0x80 byte, zeros up to 56 modulo 64, and the 64-bit bit length,
    which the two 32-bit counters hold modulo 2^64. Afterwards the buffered data
    is all zero. *)
Theorem HASH_stream_spec (H : HashBlock) iv n inputs :
  Forall (fun inp => is_u 64 (zlen inp)) inputs ->
  exists c', HASH_FINAL (update_all (init_ctx iv n) inputs) = Some (make_string c', c') /\
    h c' = md_state iv (concat inputs) /\ md_len c' = n /\
    num c' = 0 /\ data c' = zrepeat HASH_CBLOCK 0.
Proof.
  intros Hin. destruct (stream_digest iv n inputs Hin) as (nl & nh & Hf).
  eexists. split; [exact Hf|]. done.
Qed.

(** A hash that adds up the bytes of its blocks, for a concrete run. *)
Definition sum_hash : HashBlock := {|
  block st b := [u32 (fold_left Z.add b (zget st 0))];
  big_endian := true;
  make_string c := Some (HOST_l2c_be (zget (h c) 0))
|}.

Lemma HASH_stream_spec_witness :
  exists c', @HASH_FINAL sum_hash (@update_all sum_hash (init_ctx [7] 4) [[1; 2]; []; zrepeat 70 1])
    = Some (@make_string sum_hash c', c') /\
    h c' = @md_state sum_hash [7] (concat [[1; 2]; []; zrepeat 70 1]) /\ md_len c' = 4 /\
    num c' = 0 /\ data c' = zrepeat HASH_CBLOCK 0.
Proof.
  apply (HASH_stream_spec sum_hash [7] 4 [[1; 2]; []; zrepeat 70 1]).
  repeat constructor; rewrite ?length_zrepeat; cbn; lia.
Defined.
