(* ===== verification/Fips.v ===== *)
(** The SHA-2 family as FIPS 180-4 defines it: the words of 32 or 64 bits, the
    rotation amounts and the number of rounds are parameters, and the constants
    are computed from the roots of the primes they come from. Sha256.v and
    Sha512.v show that the code computes these functions. *)

From Stdlib Require Import ZArith Lia.
From stdpp Require Import base list option.
From S2P Require Import Prelude Mem Md32.

(** * The constants *)

Definition is_prime (p : nat) : bool :=
  (1 <? Z.of_nat p) && forallb (fun d => negb (Z.of_nat p mod Z.of_nat d =? 0)) (seq 2 (p - 2)).

(** The primes below 410: the first 80. *)
Definition primes : list Z := Eval vm_compute in map Z.of_nat (List.filter is_prime (seq 0 410)).

(** The largest [r] with [r ^ e <= n], among the numbers of [k] bits, found bit by
    bit from the top. *)
Fixpoint root_from (e n : Z) (k : nat) (r : Z) : Z :=
  match k with
  | O => r
  | S k => let r' := r + 2 ^ Z.of_nat k in
           root_from e n k (if r' ^ e <=? n then r' else r)
  end.

(** The first [w] bits of the fractional part of the [e]-th root of [p] (the root
    is below 2^8). *)
Definition frac_root (e w p : Z) : Z := root_from e (p * 2 ^ (e * w)) (Z.to_nat (w + 8)) 0 mod 2 ^ w.

(** Sections 4.2.2 and 4.2.3: cube roots of the first 64 or 80 primes. *)
Definition cube_roots_32 : list Z := Eval vm_compute in map (frac_root 3 32) (take 64 primes).
Definition cube_roots_64 : list Z := Eval vm_compute in map (frac_root 3 64) (take 80 primes).

(** Section 5.3: square roots of the first eight primes, or of the next eight
    (SHA-224 takes the second 32 bits of SHA-384's words). *)
Definition H256 : list Z := Eval vm_compute in map (frac_root 2 32) (take 8 primes).
Definition H512 : list Z := Eval vm_compute in map (frac_root 2 64) (take 8 primes).
Definition H384 : list Z := Eval vm_compute in map (frac_root 2 64) (take 8 (drop 8 primes)).
Definition H224 : list Z := Eval vm_compute in map (fun x => x mod 2 ^ 32) H384.

(** * The functions *)

Record Sha2 := mk_Sha2 {
  word : Z;
  nrounds : nat;
  constants : list Z;
  r_Sigma0 : Z * Z * Z;
  r_Sigma1 : Z * Z * Z;
  r_sigma0 : Z * Z * Z;
  r_sigma1 : Z * Z * Z
}.

Abbreviation regs := (Z * Z * Z * Z * Z * Z * Z * Z)%type.

Section Sha2.
  Variable v : Sha2.

Definition wrap (x : Z) : Z := Z.land x (Z.ones (word v)).

Definition rotr (n x : Z) : Z := Z.lor (Z.shiftr x n) (wrap (Z.shiftl x (word v - n))).

(** Sections 4.1.2 and 4.1.3. *)
Definition fips_Ch (x y z : Z) : Z := Z.lxor (Z.land x y) (Z.land (wrap (Z.lnot x)) z).
Definition fips_Maj (x y z : Z) : Z := Z.lxor (Z.lxor (Z.land x y) (Z.land x z)) (Z.land y z).

Definition big_sigma (r : Z * Z * Z) (x : Z) : Z :=
  let '(i, j, k) := r in Z.lxor (Z.lxor (rotr i x) (rotr j x)) (rotr k x).
Definition small_sigma (r : Z * Z * Z) (x : Z) : Z :=
  let '(i, j, k) := r in Z.lxor (Z.lxor (rotr i x) (rotr j x)) (Z.shiftr x k).

(** The [t]-th word of a block. *)
Definition message_word (inp : bytes) (t : Z) : Z :=
  be_val (ztake (word v / 8) (zdrop (word v / 8 * t) inp)).

(** Sections 6.2.2 and 6.4.2, step 1: the message schedule. *)
Definition fips_next (W : Z -> Z) (t : Z) : Z :=
  wrap (small_sigma (r_sigma1 v) (W (t - 2)) + W (t - 7) +
        small_sigma (r_sigma0 v) (W (t - 15)) + W (t - 16)).

Definition fips_W (inp : bytes) : list Z :=
  schedule fips_next (nrounds v - 16) (map (fun t => message_word inp (Z.of_nat t)) (seq 0 16)).

(** Step 3, for one [t]. *)
Definition fips_round (W : Z -> Z) (t : Z) (r : regs) : regs :=
  let '(a, b, c, d, e, f, g, h) := r in
  let T1 := h + big_sigma (r_Sigma1 v) e + fips_Ch e f g + zget (constants v) t + W t in
  let T2 := big_sigma (r_Sigma0 v) a + fips_Maj a b c in
  (wrap (T1 + T2), a, b, c, wrap (d + T1), e, f, g).

(** Steps 2 and 4. *)
Definition start (state : list Z) : regs :=
  (zget state 0, zget state 1, zget state 2, zget state 3,
   zget state 4, zget state 5, zget state 6, zget state 7).

Definition finish (state : list Z) (r : regs) : list Z :=
  let '(a, b, c, d, e, f, g, h) := r in
  [wrap (zget state 0 + a); wrap (zget state 1 + b); wrap (zget state 2 + c);
   wrap (zget state 3 + d); wrap (zget state 4 + e); wrap (zget state 5 + f);
   wrap (zget state 6 + g); wrap (zget state 7 + h)].

Definition fips_block (state : list Z) (inp : bytes) : list Z :=
  finish state (rounds (fips_round (zget (fips_W inp))) (nrounds v) 0 (start state)).

(** Sections 5.1 and 5.2: the padded message; 6.2.2 and 6.4.2: its blocks in
    turn. *)
Definition fips_padding (len : Z) : bytes :=
  let size := 2 * word v in
  0x80 :: zrepeat ((size - 1 - size / 8 - len) mod size) 0 ++
  be_bytes (Z.to_nat (size / 8)) ((8 * len) mod 2 ^ size).

Definition fips_state (iv : list Z) (msg : bytes) : list Z :=
  let size := 2 * word v in
  let padded := msg ++ fips_padding (zlen msg) in
  hash_blocks size fips_block iv padded (Z.to_nat (zlen padded / size)).

(** The first [n] bytes of the final hash value. *)
Definition fips_digest (iv : list Z) (n : Z) (msg : bytes) : bytes :=
  ztake n (concat (map (be_bytes (Z.to_nat (word v / 8))) (fips_state iv msg))).

End Sha2.

(** * The four functions *)

Definition fips256 : Sha2 := mk_Sha2 32 64 cube_roots_32 (2, 13, 22) (6, 11, 25) (7, 18, 3) (17, 19, 10).
Definition fips512 : Sha2 := mk_Sha2 64 80 cube_roots_64 (28, 34, 39) (14, 18, 41) (1, 8, 7) (19, 61, 6).

Definition fips_sha224 (msg : bytes) : bytes := fips_digest fips256 H224 28 msg.
Definition fips_sha256 (msg : bytes) : bytes := fips_digest fips256 H256 32 msg.
Definition fips_sha384 (msg : bytes) : bytes := fips_digest fips512 H384 48 msg.
Definition fips_sha512 (msg : bytes) : bytes := fips_digest fips512 H512 64 msg.

(** * Lemmas *)

Lemma root_from_spec e n k r : 0 < e -> 0 <= r -> r ^ e <= n -> n < (r + 2 ^ Z.of_nat k) ^ e ->
  let s := root_from e n k r in 0 <= s /\ s ^ e <= n < (s + 1) ^ e.
Proof.
  intros He. revert r. induction k as [|k IH]; intros r Hr H1 H2; cbn [root_from].
  - change (2 ^ Z.of_nat 0) with 1 in H2. lia.
  - rewrite Nat2Z.inj_succ, Z.pow_succ_r in H2 by lia.
    assert (0 < 2 ^ Z.of_nat k) by (apply Z.pow_pos_nonneg; lia).
    case_if; apply IH; try lia. by replace (r + _ + _) with (r + 2 * 2 ^ Z.of_nat k) by lia.
Qed.

(** [frac_root] is what it says for the primes in the table. *)
Lemma frac_root_spec e w p : 0 < e -> 0 <= w -> 0 <= p < 256 ^ e ->
  exists s, frac_root e w p = s mod 2 ^ w /\ 0 <= s /\ s ^ e <= p * 2 ^ (e * w) < (s + 1) ^ e.
Proof.
  intros He Hw Hp. eexists. split; [reflexivity|].
  assert (0 < 2 ^ (e * w)) by (apply Z.pow_pos_nonneg; lia).
  apply root_from_spec; [done|done|rewrite Z.pow_0_l; lia|].
  rewrite Z.add_0_l, Z2Nat.id by lia. rewrite Z.pow_add_r by lia.
  rewrite Z.pow_mul_l, <- Z.pow_mul_r, (Z.mul_comm w e) by lia.
  change (2 ^ 8) with 256. rewrite Z.mul_comm. apply Z.mul_lt_mono_pos_l; lia.
Qed.

Lemma fips_next_local v : local_next (fips_next v).
Proof. intros f g t H. unfold fips_next. by rewrite !H by lia. Qed.

Lemma fips_W_word v inp t : 0 <= t < 16 -> zget (fips_W v inp) t = message_word v inp t.
Proof.
  intros Ht. unfold fips_W. rewrite schedule_prefix by (rewrite length_map, length_seq; lia).
  rewrite zget_map_seq by lia. by rewrite Z2Nat.id by lia.
Qed.

Lemma fips_W_next v inp t : 16 <= t < Z.of_nat (nrounds v) ->
  zget (fips_W v inp) t = fips_next v (zget (fips_W v inp)) t.
Proof.
  intros Ht. unfold fips_W. set (ws := map _ _).
  assert (Hws : zlen ws = 16) by (unfold ws; rewrite length_map, length_seq; done).
  clearbody ws. rewrite schedule_next at 1; [done|apply fips_next_local|lia|].
  rewrite Hws. lia.
Qed.

Lemma length_fips_block v st b : length (fips_block v st b) = 8%nat.
Proof.
  unfold fips_block. generalize (rounds (fips_round v (zget (fips_W v b))) (nrounds v) 0). intros F.
  by destruct (F _) as [[[[[[[? ?] ?] ?] ?] ?] ?] ?].
Qed.

Lemma length_fips_state v iv m : 0 < word v -> length iv = 8%nat -> length (fips_state v iv m) = 8%nat.
Proof.
  intros Hw Hiv. unfold fips_state. cbv zeta. generalize (Z.to_nat (zlen (m ++ fips_padding v (zlen m)) / (2 * word v))).
  intros n. generalize (m ++ fips_padding v (zlen m)). intros l. revert iv Hiv l.
  induction n as [|n IH]; intros iv Hiv l; [done|]. cbn [hash_blocks]. apply IH, length_fips_block.
Qed.

Lemma rounds_add {R} (f : Z -> R -> R) n m t r :
  rounds f (n + m) t r = rounds f m (t + Z.of_nat n) (rounds f n t r).
Proof.
  revert t r. induction n as [|n IH]; intros t r; cbn [rounds Nat.add].
  - by rewrite Z.add_0_r.
  - rewrite IH. f_equal. lia.
Qed.
