(* ===== verification/Sha256.v ===== *)
(** SHA-224 and SHA-256: crypto/sha/sha256.c, the C block function (the build
    defines OPENSSL_NO_ASM) and the instance of the hash template, shown equal to
    FIPS 180-4. *)

From Stdlib Require Import ZArith Lia.
From stdpp Require Import base list option.
From S2P Require Import Prelude Mem Md32 Fips.

(** * The block function *)

Definition K256 : list Z :=
  concat
   [[0x428a2f98; 0x71374491; 0xb5c0fbcf; 0xe9b5dba5];
    [0x3956c25b; 0x59f111f1; 0x923f82a4; 0xab1c5ed5];
    [0xd807aa98; 0x12835b01; 0x243185be; 0x550c7dc3];
    [0x72be5d74; 0x80deb1fe; 0x9bdc06a7; 0xc19bf174];
    [0xe49b69c1; 0xefbe4786; 0x0fc19dc6; 0x240ca1cc];
    [0x2de92c6f; 0x4a7484aa; 0x5cb0a9dc; 0x76f988da];
    [0x983e5152; 0xa831c66d; 0xb00327c8; 0xbf597fc7];
    [0xc6e00bf3; 0xd5a79147; 0x06ca6351; 0x14292967];
    [0x27b70a85; 0x2e1b2138; 0x4d2c6dfc; 0x53380d13];
    [0x650a7354; 0x766a0abb; 0x81c2c92e; 0x92722c85];
    [0xa2bfe8a1; 0xa81a664b; 0xc24b8b70; 0xc76c51a3];
    [0xd192e819; 0xd6990624; 0xf40e3585; 0x106aa070];
    [0x19a4c116; 0x1e376c08; 0x2748774c; 0x34b0bcb5];
    [0x391c0cb3; 0x4ed8aa4a; 0x5b9cca4f; 0x682e6ff3];
    [0x748f82ee; 0x78a5636f; 0x84c87814; 0x8cc70208];
    [0x90befffa; 0xa4506ceb; 0xbef9a3f7; 0xc67178f2]].

Definition ROTATE (a n : Z) : Z := Z.lor (u32 (Z.shiftl a n)) (Z.shiftr a (32 - n)).

Definition Sigma0 (x : Z) : Z := Z.lxor (Z.lxor (ROTATE x 30) (ROTATE x 19)) (ROTATE x 10).
Definition Sigma1 (x : Z) : Z := Z.lxor (Z.lxor (ROTATE x 26) (ROTATE x 21)) (ROTATE x 7).
Definition sigma0 (x : Z) : Z := Z.lxor (Z.lxor (ROTATE x 25) (ROTATE x 14)) (Z.shiftr x 3).
Definition sigma1 (x : Z) : Z := Z.lxor (Z.lxor (ROTATE x 15) (ROTATE x 13)) (Z.shiftr x 10).

Definition Ch (x y z : Z) : Z := Z.lxor (Z.land x y) (Z.land (u32 (Z.lnot x)) z).
Definition Maj (x y z : Z) : Z := Z.lxor (Z.lxor (Z.land x y) (Z.land x z)) (Z.land y z).

(** The macro assigns [d] and [h]. *)
Definition ROUND_00_15 (T1 i a b c d e f g h : Z) : Z * Z :=
  let T1 := u32 (T1 + u32 (h + Sigma1 e + Ch e f g + zget K256 i)) in
  let h := u32 (Sigma0 a + Maj a b c) in
  let d := u32 (d + T1) in
  let h := u32 (h + T1) in
  (d, h).

(** The macro assigns [d], [h] and an element of [X]. *)
Definition ROUND_16_63 (i a b c d e f g h : Z) (X : list Z) : Z * Z * list Z :=
  let s0 := zget X (Z.land (i + 1) 0x0f) in
  let s0 := sigma0 s0 in
  let s1 := zget X (Z.land (i + 14) 0x0f) in
  let s1 := sigma1 s1 in
  let T1 := u32 (zget X (Z.land i 0x0f) + (s0 + s1 + zget X (Z.land (i + 9) 0x0f))) in
  let X := <[Z.to_nat (Z.land i 0x0f) := T1]> X in
  let '(d, h) := ROUND_00_15 T1 i a b c d e f g h in
  (d, h, X).

(** The body of [for (i = 16; i < 64; i += 8)]. *)
Definition rounds_16_63 (s : Z * Z * Z * Z * Z * Z * Z * Z * list Z) (i : Z) :
    Z * Z * Z * Z * Z * Z * Z * Z * list Z :=
  let '(a, b, c, d, e, f, g, h, X) := s in
  let '(d, h, X) := ROUND_16_63 (i + 0) a b c d e f g h X in
  let '(c, g, X) := ROUND_16_63 (i + 1) h a b c d e f g X in
  let '(b, f, X) := ROUND_16_63 (i + 2) g h a b c d e f X in
  let '(a, e, X) := ROUND_16_63 (i + 3) f g h a b c d e X in
  let '(h, d, X) := ROUND_16_63 (i + 4) e f g h a b c d X in
  let '(g, c, X) := ROUND_16_63 (i + 5) d e f g h a b c X in
  let '(f, b, X) := ROUND_16_63 (i + 6) c d e f g h a b X in
  let '(e, a, X) := ROUND_16_63 (i + 7) b c d e f g h a X in
  (a, b, c, d, e, f, g, h, X).

(** One iteration of [while (num--)]. *)
Definition sha256_block (state : list Z) (inp : bytes) : list Z :=
  let a := zget state 0 in
  let b := zget state 1 in
  let c := zget state 2 in
  let d := zget state 3 in
  let e := zget state 4 in
  let f := zget state 5 in
  let g := zget state 6 in
  let h := zget state 7 in
  let X := zrepeat 16 0 in
  let '(l, inp) := HOST_c2l_be inp in
  let X := <[0%nat := l]> X in
  let '(d, h) := ROUND_00_15 l 0 a b c d e f g h in
  let '(l, inp) := HOST_c2l_be inp in
  let X := <[1%nat := l]> X in
  let '(c, g) := ROUND_00_15 l 1 h a b c d e f g in
  let '(l, inp) := HOST_c2l_be inp in
  let X := <[2%nat := l]> X in
  let '(b, f) := ROUND_00_15 l 2 g h a b c d e f in
  let '(l, inp) := HOST_c2l_be inp in
  let X := <[3%nat := l]> X in
  let '(a, e) := ROUND_00_15 l 3 f g h a b c d e in
  let '(l, inp) := HOST_c2l_be inp in
  let X := <[4%nat := l]> X in
  let '(h, d) := ROUND_00_15 l 4 e f g h a b c d in
  let '(l, inp) := HOST_c2l_be inp in
  let X := <[5%nat := l]> X in
  let '(g, c) := ROUND_00_15 l 5 d e f g h a b c in
  let '(l, inp) := HOST_c2l_be inp in
  let X := <[6%nat := l]> X in
  let '(f, b) := ROUND_00_15 l 6 c d e f g h a b in
  let '(l, inp) := HOST_c2l_be inp in
  let X := <[7%nat := l]> X in
  let '(e, a) := ROUND_00_15 l 7 b c d e f g h a in
  let '(l, inp) := HOST_c2l_be inp in
  let X := <[8%nat := l]> X in
  let '(d, h) := ROUND_00_15 l 8 a b c d e f g h in
  let '(l, inp) := HOST_c2l_be inp in
  let X := <[9%nat := l]> X in
  let '(c, g) := ROUND_00_15 l 9 h a b c d e f g in
  let '(l, inp) := HOST_c2l_be inp in
  let X := <[10%nat := l]> X in
  let '(b, f) := ROUND_00_15 l 10 g h a b c d e f in
  let '(l, inp) := HOST_c2l_be inp in
  let X := <[11%nat := l]> X in
  let '(a, e) := ROUND_00_15 l 11 f g h a b c d e in
  let '(l, inp) := HOST_c2l_be inp in
  let X := <[12%nat := l]> X in
  let '(h, d) := ROUND_00_15 l 12 e f g h a b c d in
  let '(l, inp) := HOST_c2l_be inp in
  let X := <[13%nat := l]> X in
  let '(g, c) := ROUND_00_15 l 13 d e f g h a b c in
  let '(l, inp) := HOST_c2l_be inp in
  let X := <[14%nat := l]> X in
  let '(f, b) := ROUND_00_15 l 14 c d e f g h a b in
  let '(l, inp) := HOST_c2l_be inp in
  let X := <[15%nat := l]> X in
  let '(e, a) := ROUND_00_15 l 15 b c d e f g h a in
  let '(a, b, c, d, e, f, g, h, X) :=
    fold_left rounds_16_63 [16; 24; 32; 40; 48; 56] (a, b, c, d, e, f, g, h, X) in
  [u32 (zget state 0 + a); u32 (zget state 1 + b); u32 (zget state 2 + c);
   u32 (zget state 3 + d); u32 (zget state 4 + e); u32 (zget state 5 + f);
   u32 (zget state 6 + g); u32 (zget state 7 + h)].

(** * The contexts *)

Definition SHA224_DIGEST_LENGTH := 28.
Definition SHA256_DIGEST_LENGTH := 32.

(** The loop [for (nn = 0; nn < n; nn++) HOST_l2c(h[nn], s)]. *)
Definition sha256_words (c : HASH_CTX) (n : Z) : bytes :=
  concat (map (fun nn => HOST_l2c_be (zget (h c) (Z.of_nat nn))) (seq 0 (Z.to_nat n))).

Definition sha256_make_string (c : HASH_CTX) : option bytes :=
  if md_len c =? SHA224_DIGEST_LENGTH then Some (sha256_words c (SHA224_DIGEST_LENGTH / 4))
  else if md_len c =? SHA256_DIGEST_LENGTH then Some (sha256_words c (SHA256_DIGEST_LENGTH / 4))
  else if md_len c >? SHA256_DIGEST_LENGTH then None
  else Some (sha256_words c (md_len c / 4)).

#[global] Instance sha256_hash : HashBlock := {
  block := sha256_block;
  big_endian := true;
  make_string := sha256_make_string
}.

Definition SHA224_Init : HASH_CTX :=
  init_ctx
    [0xc1059ed8; 0x367cd507; 0x3070dd17; 0xf70e5939;
     0xffc00b31; 0x68581511; 0x64f98fa7; 0xbefa4fa4] SHA224_DIGEST_LENGTH.

Definition SHA256_Init : HASH_CTX :=
  init_ctx
    [0x6a09e667; 0xbb67ae85; 0x3c6ef372; 0xa54ff53a;
     0x510e527f; 0x9b05688c; 0x1f83d9ab; 0x5be0cd19] SHA256_DIGEST_LENGTH.

Definition SHA256_Update (ctx : HASH_CTX) (inp : bytes) (len : Z) : HASH_CTX :=
  HASH_UPDATE (H:=sha256_hash) ctx inp len.
Definition SHA256_Final (ctx : HASH_CTX) : option (option bytes * HASH_CTX) :=
  HASH_FINAL (H:=sha256_hash) ctx.
Definition SHA256_Transform (ctx : HASH_CTX) (inp : bytes) : HASH_CTX :=
  HASH_TRANSFORM (H:=sha256_hash) ctx inp.

Definition SHA224_Update (ctx : HASH_CTX) (inp : bytes) (len : Z) : HASH_CTX :=
  SHA256_Update ctx inp len.
Definition SHA224_Final (ctx : HASH_CTX) : option (option bytes * HASH_CTX) :=
  SHA256_Final ctx.

(** The bytes written to [out]; undefined behaviour and failure are [None]. *)
Definition SHA224 (inp : bytes) (len : Z) : option bytes :=
  match SHA224_Final (SHA224_Update SHA224_Init inp len) with
  | Some (out, _) => out
  | None => None
  end.
Definition SHA256 (inp : bytes) (len : Z) : option bytes :=
  match SHA256_Final (SHA256_Update SHA256_Init inp len) with
  | Some (out, _) => out
  | None => None
  end.

(** * Lemmas: the block function *)

Lemma ROTATE_rotr x n : ROTATE x n = rotr fips256 (32 - n) x.
Proof.
  unfold ROTATE, rotr. replace (word fips256 - (32 - n)) with n by (cbn; lia). apply Z.lor_comm.
Qed.

Lemma Sigma0_fips x : Sigma0 x = big_sigma fips256 (r_Sigma0 fips256) x.
Proof. unfold Sigma0. by rewrite !ROTATE_rotr. Qed.
Lemma Sigma1_fips x : Sigma1 x = big_sigma fips256 (r_Sigma1 fips256) x.
Proof. unfold Sigma1. by rewrite !ROTATE_rotr. Qed.
Lemma sigma0_fips x : sigma0 x = small_sigma fips256 (r_sigma0 fips256) x.
Proof. unfold sigma0. by rewrite !ROTATE_rotr. Qed.
Lemma sigma1_fips x : sigma1 x = small_sigma fips256 (r_sigma1 fips256) x.
Proof. unfold sigma1. by rewrite !ROTATE_rotr. Qed.

Lemma K256_fips : K256 = constants fips256.
Proof. reflexivity. Qed.

(** A round is a step of FIPS 180-4 with its registers renamed. *)
Lemma ROUND_00_15_spec W i a b c d e f g h d' h' :
  ROUND_00_15 (W i) i a b c d e f g h = (d', h') ->
  fips_round fips256 W i (a, b, c, d, e, f, g, h) = (h', a, b, c, d', e, f, g).
Proof.
  unfold ROUND_00_15, fips_round. intros [= <- <-]. rewrite Sigma0_fips, Sigma1_fips, K256_fips.
  rewrite (u32_add_r (W i)), !u32_add_r, !u32_add_l.
  change (wrap fips256 ?x) with (u32 x). change (fips_Ch fips256) with Ch. change fips_Maj with Maj.
  match goal with |- (u32 ?x, _, _, _, u32 ?y, _, _, _) = (u32 ?x', _, _, _, u32 ?y', _, _, _) =>
    replace x with x' by lia; replace y with y' by lia end.
  done.
Qed.

Lemma ROUND_16_63_spec W i a b c d e f g h X d' h' X' :
  window X W i -> W i = fips_next fips256 W i ->
  ROUND_16_63 i a b c d e f g h X = (d', h', X') ->
  window X' W (i + 1) /\
  fips_round fips256 W i (a, b, c, d, e, f, g, h) = (h', a, b, c, d', e, f, g).
Proof.
  intros Hw HW. unfold ROUND_16_63.
  rewrite (window_get0 X W i), !(window_get X W i) by (done || lia).
  assert (HT : u32 (W (i - 16) + (sigma0 (W (i - 16 + 1)) + sigma1 (W (i - 16 + 14)) +
                 W (i - 16 + 9))) = W i).
  { rewrite HW, sigma0_fips, sigma1_fips. unfold fips_next.
    change (wrap fips256 ?x) with (u32 x). f_equal.
    replace (i - 16 + 14) with (i - 2) by lia. replace (i - 16 + 9) with (i - 7) by lia.
    replace (i - 16 + 1) with (i - 15) by lia. lia. }
  rewrite HT. destruct (ROUND_00_15 (W i) i a b c d e f g h) as [d1 h1] eqn:E. intros [= <- <- <-].
  split; [by apply window_set|by apply ROUND_00_15_spec].
Qed.

(** Runs the next unrolled round of the code and the next round of FIPS 180-4. *)
Ltac step_16_63 k :=
  match goal with
  | Hw : window ?X ?W _ |- context [ROUND_16_63 (?i + k) ?a ?b ?c ?d ?e ?f ?g ?h ?X] =>
      let d' := fresh "d" in let h' := fresh "h" in let X' := fresh "X" in
      let E := fresh "E" in let Hr := fresh "Hr" in
      destruct (ROUND_16_63 (i + k) a b c d e f g h X) as [[d' h'] X'] eqn:E;
      apply (ROUND_16_63_spec W) in E as [E Hr]; [|done|auto with lia];
      clear Hw; rename E into Hw;
      rewrite rounds_S, Hr; clear Hr;
      replace (i + k + 1) with (i + (k + 1)) in * by lia;
      let k' := eval cbv in (k + 1) in change (k + 1) with k' in *
  end.

Lemma rounds_16_63_spec W i a b c d e f g h X :
  window X W i -> (forall j, i <= j < i + 8 -> W j = fips_next fips256 W j) ->
  exists X', rounds_16_63 (a, b, c, d, e, f, g, h, X) i =
    (rounds (fips_round fips256 W) 8 i (a, b, c, d, e, f, g, h), X') /\ window X' W (i + 8).
Proof.
  intros Hw HW. unfold rounds_16_63.
  replace (rounds (fips_round fips256 W) 8 i) with (rounds (fips_round fips256 W) 8 (i + 0)) by (f_equal; lia).
  replace i with (i + 0) in Hw by lia.
  assert (HW' : forall k, 0 <= k < 8 -> W (i + k) = fips_next fips256 W (i + k)) by (intros; apply HW; lia).
  step_16_63 0. step_16_63 1. step_16_63 2. step_16_63 3.
  step_16_63 4. step_16_63 5. step_16_63 6. step_16_63 7.
  eexists. split; [reflexivity|done].
Qed.

Lemma rounds_loop_spec W n i r X :
  window X W i -> (forall j, i <= j < i + 8 * Z.of_nat n -> W j = fips_next fips256 W j) ->
  exists X', fold_left rounds_16_63 (map (fun k => i + 8 * Z.of_nat k) (seq 0 n)) (r, X) =
    (rounds (fips_round fips256 W) (8 * n) i r, X').
Proof.
  revert i r X. induction n as [|n IH]; intros i r X Hw HW; [by exists X|].
  destruct r as [[[[[[[a b] c] d] e] f] g] h].
  destruct (rounds_16_63_spec W i a b c d e f g h X Hw) as (X1 & E1 & Hw1).
  { intros j Hj. apply HW. lia. }
  destruct (IH (i + 8) (rounds (fips_round fips256 W) 8 i (a, b, c, d, e, f, g, h)) X1 Hw1) as (X2 & E2).
  { intros j Hj. apply HW. lia. }
  exists X2. rewrite <- cons_seq, map_cons, fold_left_cons.
  replace (i + 8 * Z.of_nat 0) with i by lia. rewrite E1.
  replace (map (fun k => i + 8 * Z.of_nat k) (seq 1 n))
    with (map (fun k => i + 8 + 8 * Z.of_nat k) (seq 0 n))
    by (rewrite <- seq_shift, map_map; apply map_ext; intros; lia).
  rewrite E2. replace (8 * S n)%nat with (8 + 8 * n)%nat by lia.
  by rewrite rounds_add.
Qed.

(** Reads the next word of the schedule. *)
Lemma c2l_W inp o o' t : zlen inp = 64 -> bytes_ok inp -> o = 4 * t -> o' = o + 4 -> 0 <= t < 16 ->
  HOST_c2l_be (zdrop o inp) = (zget (fips_W fips256 inp) t, zdrop o' inp).
Proof. intros. rewrite fips_W_word by done. by apply c2l_be_at. Qed.

Ltac step_00_15 Hc W k :=
  let o := eval cbv in (4 * k) in let o' := eval cbv in (4 * k + 4) in
  rewrite (Hc o o' k) by lia;
  match goal with
  | |- context [ROUND_00_15 (W k) k ?a ?b ?c ?d ?e ?f ?g ?h] =>
      let d' := fresh "d" in let h' := fresh "h" in let E := fresh "E" in
      destruct (ROUND_00_15 (W k) k a b c d e f g h) as [d' h'] eqn:E;
      apply ROUND_00_15_spec in E; rewrite rounds_S, E; clear E;
      let k' := eval cbv in (k + 1) in change (k + 1) with k'
  end.

Lemma sha256_block_rounds state inp (W : Z -> Z) :
  (forall o o' t, o = 4 * t -> o' = o + 4 -> 0 <= t < 16 ->
    HOST_c2l_be (zdrop o inp) = (W t, zdrop o' inp)) ->
  (forall t, 16 <= t < 64 -> W t = fips_next fips256 W t) ->
  sha256_block state inp =
  finish fips256 state (rounds (fips_round fips256 W) 64 0 (start state)).
Proof.
  intros Hc HW. unfold sha256_block, start.
  change 64%nat with (16 + 8 * 6)%nat.
  rewrite rounds_add. change (0 + Z.of_nat 16) with 16.
  rewrite <- (zdrop_0 0 inp) at 1 by lia.
  step_00_15 Hc W 0. step_00_15 Hc W 1. step_00_15 Hc W 2. step_00_15 Hc W 3.
  step_00_15 Hc W 4. step_00_15 Hc W 5. step_00_15 Hc W 6. step_00_15 Hc W 7.
  step_00_15 Hc W 8. step_00_15 Hc W 9. step_00_15 Hc W 10. step_00_15 Hc W 11.
  step_00_15 Hc W 12. step_00_15 Hc W 13. step_00_15 Hc W 14. step_00_15 Hc W 15.
  cbn [rounds].
  match goal with |- context [fold_left rounds_16_63 _ (?r, ?X)] =>
    destruct (rounds_loop_spec W 6 16 r X) as (X' & HX) end.
  { split; [done|]. intros j Hj. rewrite Z.mod_small by lia.
    assert (Hj' : In j [0; 1; 2; 3; 4; 5; 6; 7; 8; 9; 10; 11; 12; 13; 14; 15]) by (cbn; lia).
    clear -Hj'. cbn in Hj'. repeat destruct Hj' as [<-|Hj']; [reflexivity..|done]. }
  { intros j Hj. apply HW. lia. }
  assert (Hl6 : [16; 24; 32; 40; 48; 56] = map (fun k => 16 + 8 * Z.of_nat k) (seq 0 6)) by done.
  rewrite Hl6, HX.
  generalize (rounds (fips_round fips256 W) (8 * 6) 16). intros F. by destruct (F _) as [[[[[[[? ?] ?] ?] ?] ?] ?] ?].
Qed.

(** The code's block function is the one of FIPS 180-4. *)
Lemma sha256_block_fips state inp : zlen inp = 64 -> bytes_ok inp ->
  sha256_block state inp = fips_block fips256 state inp.
Proof.
  intros Hl Hok.
  exact (sha256_block_rounds state inp (zget (fips_W fips256 inp))
    (fun o o' t => c2l_W inp o o' t Hl Hok) (fips_W_next fips256 inp)).
Qed.

(** * The hash functions *)

Definition fips_hash : HashBlock := {|
  block := fips_block fips256;
  big_endian := true;
  make_string := sha256_make_string
|}.

Lemma sha256_words_eq c n : length (h c) = 8%nat -> 0 <= n <= 8 ->
  sha256_words c n = ztake (4 * n) (concat (map (be_bytes 4) (h c))).
Proof.
  intros Hl Hn. unfold sha256_words.
  destruct (h c) as [|w0 [|w1 [|w2 [|w3 [|w4 [|w5 [|w6 [|w7 [|]]]]]]]]]; try done.
  rewrite <- (Z2Nat.id n) by lia. assert (Hn' : (Z.to_nat n <= 8)%nat) by lia.
  revert Hn'. generalize (Z.to_nat n) as k. intros k Hk. rewrite Nat2Z.id.
  do 9 (destruct k as [|k]; [cbn [seq map concat]; rewrite ?HOST_l2c_be_bytes; reflexivity|]). lia.
Qed.

(** The template's padding is the standard's. *)
Lemma md_state_fips iv msg : @md_state fips_hash iv msg = fips_state fips256 iv msg.
Proof. reflexivity. Qed.

Lemma sha256_stream iv n inputs : length iv = 8%nat -> Forall input_ok inputs -> n = 28 \/ n = 32 ->
  exists c', SHA256_Final (update_all (init_ctx iv n) inputs) =
    Some (Some (fips_digest fips256 iv n (concat inputs)), c').
Proof.
  intros Hiv Hin Hn.
  destruct (stream_ext sha256_hash fips_hash iv n inputs eq_refl sha256_block_fips Hin)
    as (c' & Hf & Hm & Hlen).
  rewrite md_state_fips in Hm.
  assert (Hl8 : length (h c') = 8%nat) by (rewrite Hm; by apply length_fips_state).
  unfold SHA256_Final. rewrite Hf. exists c'. do 2 f_equal. unfold fips_digest. rewrite <- Hm.
  cbn [make_string sha256_hash]. unfold sha256_make_string. rewrite Hlen.
  destruct Hn as [-> | ->]; cbn; by rewrite sha256_words_eq.
Qed.

(** * Properties *)

(** C7. SHA-224 and SHA-256 are the functions of FIPS 180-4, however the message
    is cut into updates: the unrolled rounds with renamed registers and the
    sixteen-word ring compute the standard's 64 rounds over its message schedule,
    the constants are the roots of primes it takes them from, the output is the
    big-endian state (its first seven words for SHA-224), and the one-shot
    functions agree. *)
Theorem SHA256_fips inputs inp : Forall input_ok inputs -> input_ok inp ->
  (exists c', SHA256_Final (update_all SHA256_Init inputs) =
     Some (Some (fips_sha256 (concat inputs)), c')) /\
  (exists c', SHA224_Final (update_all SHA224_Init inputs) =
     Some (Some (fips_sha224 (concat inputs)), c')) /\
  SHA256 inp (zlen inp) = Some (fips_sha256 inp) /\
  SHA224 inp (zlen inp) = Some (fips_sha224 inp).
Proof.
  intros Hin Hi. split; [|split; [|split]].
  - by apply (sha256_stream H256 32); auto.
  - by apply (sha256_stream H224 28); auto.
  - destruct (sha256_stream H256 32 [inp]) as [c' Hc]; [done|by constructor|auto|].
    cbn [concat app] in Hc. rewrite app_nil_r in Hc. unfold SHA256.
    change (SHA256_Update SHA256_Init inp (zlen inp)) with (update_all (init_ctx H256 32) [inp]).
    by rewrite Hc.
  - destruct (sha256_stream H224 28 [inp]) as [c' Hc]; [done|by constructor|auto|].
    cbn [concat app] in Hc. rewrite app_nil_r in Hc. unfold SHA224, SHA224_Final.
    change (SHA224_Update SHA224_Init inp (zlen inp)) with (update_all (init_ctx H224 28) [inp]).
    by rewrite Hc.
Qed.

(** "abc" and the digest FIPS 180-4 lists for it. *)
Lemma SHA256_fips_witness :
  SHA256 [0x61; 0x62; 0x63] 3 = Some (fips_sha256 [0x61; 0x62; 0x63]) /\
  fips_sha256 [0x61; 0x62; 0x63] =
    [0xba; 0x78; 0x16; 0xbf; 0x8f; 0x01; 0xcf; 0xea; 0x41; 0x41; 0x40; 0xde; 0x5d; 0xae; 0x22; 0x23;
     0xb0; 0x03; 0x61; 0xa3; 0x96; 0x17; 0x7a; 0x9c; 0xb4; 0x10; 0xff; 0x61; 0xf2; 0x00; 0x15; 0xad].
Proof.
  split; [|vm_compute; reflexivity].
  apply (SHA256_fips [] [0x61; 0x62; 0x63]); [constructor|].
  split; [repeat constructor; lia|split; cbn; lia].
Defined.
