(* ===== verification/Sha1.v ===== *)
(** SHA-1: crypto/sha/sha1.c, the C block function and the instance of the hash
    template, shown equal to FIPS 180-4. *)

From Stdlib Require Import ZArith Lia.
From stdpp Require Import base list option.
From S2P Require Import Prelude Mem Md32.

(** * The block function *)

Definition ROTATE (a n : Z) : Z := Z.lor (u32 (Z.shiftl a n)) (Z.shiftr a (32 - n)).

(** The macro assigns [a] and [ix], both to the result. *)
Definition Xupdate (ia ib ic id : Z) : Z :=
  ROTATE (Z.lxor (Z.lxor (Z.lxor ia ib) ic) id) 1.

Definition K_00_19 := 0x5a827999.
Definition K_20_39 := 0x6ed9eba1.
Definition K_40_59 := 0x8f1bbcdc.
Definition K_60_79 := 0xca62c1d6.

Definition F_00_19 (b c d : Z) : Z := Z.lxor (Z.land (Z.lxor c d) b) d.
Definition F_20_39 (b c d : Z) : Z := Z.lxor (Z.lxor b c) d.
Definition F_40_59 (b c d : Z) : Z := Z.lor (Z.land b c) (Z.land (Z.lor b c) d).
Definition F_60_79 (b c d : Z) : Z := F_20_39 b c d.

(** The macros assign [f], [b] and, from step 16 on, [xi] (which is [xa]). *)
Definition BODY_00_15 (a b c d e xi : Z) : Z * Z :=
  let f := u32 (xi + e + K_00_19 + ROTATE a 5 + F_00_19 b c d) in
  let b := ROTATE b 30 in
  (f, b).

Definition BODY_16_19 (a b c d e xa xb xc xd : Z) : Z * Z * Z :=
  let f := Xupdate xa xb xc xd in
  let xi := f in
  let f := u32 (f + u32 (e + K_00_19 + ROTATE a 5 + F_00_19 b c d)) in
  let b := ROTATE b 30 in
  (f, b, xi).

Definition BODY_20_31 (a b c d e xa xb xc xd : Z) : Z * Z * Z :=
  let f := Xupdate xa xb xc xd in
  let xi := f in
  let f := u32 (f + u32 (e + K_20_39 + ROTATE a 5 + F_20_39 b c d)) in
  let b := ROTATE b 30 in
  (f, b, xi).

Definition BODY_32_39 (a b c d e xa xb xc xd : Z) : Z * Z * Z :=
  let f := Xupdate xa xb xc xd in
  let xa := f in
  let f := u32 (f + u32 (e + K_20_39 + ROTATE a 5 + F_20_39 b c d)) in
  let b := ROTATE b 30 in
  (f, b, xa).

Definition BODY_40_59 (a b c d e xa xb xc xd : Z) : Z * Z * Z :=
  let f := Xupdate xa xb xc xd in
  let xa := f in
  let f := u32 (f + u32 (e + K_40_59 + ROTATE a 5 + F_40_59 b c d)) in
  let b := ROTATE b 30 in
  (f, b, xa).

Definition BODY_60_79 (a b c d e xa xb xc xd : Z) : Z * Z * Z :=
  let f := Xupdate xa xb xc xd in
  let xa := f in
  let f := u32 (xa + e + K_60_79 + ROTATE a 5 + F_60_79 b c d) in
  let b := ROTATE b 30 in
  (f, b, xa).

(** One iteration of the loop over the blocks; it is entered at least once, and
    every caller passes at least one block. *)
Definition sha1_block (state : list Z) (inp : bytes) : list Z :=
  let A := zget state 0 in
  let B := zget state 1 in
  let C := zget state 2 in
  let D := zget state 3 in
  let E := zget state 4 in
  let '(l, inp) := HOST_c2l_be inp in
  let XX0 := l in
  let '(l, inp) := HOST_c2l_be inp in
  let XX1 := l in
  let '(T, B) := BODY_00_15 A B C D E XX0 in
  let '(l, inp) := HOST_c2l_be inp in
  let XX2 := l in
  let '(E, A) := BODY_00_15 T A B C D XX1 in
  let '(l, inp) := HOST_c2l_be inp in
  let XX3 := l in
  let '(D, T) := BODY_00_15 E T A B C XX2 in
  let '(l, inp) := HOST_c2l_be inp in
  let XX4 := l in
  let '(C, E) := BODY_00_15 D E T A B XX3 in
  let '(l, inp) := HOST_c2l_be inp in
  let XX5 := l in
  let '(B, D) := BODY_00_15 C D E T A XX4 in
  let '(l, inp) := HOST_c2l_be inp in
  let XX6 := l in
  let '(A, C) := BODY_00_15 B C D E T XX5 in
  let '(l, inp) := HOST_c2l_be inp in
  let XX7 := l in
  let '(T, B) := BODY_00_15 A B C D E XX6 in
  let '(l, inp) := HOST_c2l_be inp in
  let XX8 := l in
  let '(E, A) := BODY_00_15 T A B C D XX7 in
  let '(l, inp) := HOST_c2l_be inp in
  let XX9 := l in
  let '(D, T) := BODY_00_15 E T A B C XX8 in
  let '(l, inp) := HOST_c2l_be inp in
  let XX10 := l in
  let '(C, E) := BODY_00_15 D E T A B XX9 in
  let '(l, inp) := HOST_c2l_be inp in
  let XX11 := l in
  let '(B, D) := BODY_00_15 C D E T A XX10 in
  let '(l, inp) := HOST_c2l_be inp in
  let XX12 := l in
  let '(A, C) := BODY_00_15 B C D E T XX11 in
  let '(l, inp) := HOST_c2l_be inp in
  let XX13 := l in
  let '(T, B) := BODY_00_15 A B C D E XX12 in
  let '(l, inp) := HOST_c2l_be inp in
  let XX14 := l in
  let '(E, A) := BODY_00_15 T A B C D XX13 in
  let '(l, inp) := HOST_c2l_be inp in
  let XX15 := l in
  let '(D, T) := BODY_00_15 E T A B C XX14 in
  let '(C, E) := BODY_00_15 D E T A B XX15 in
  let '(B, D, XX0) := BODY_16_19 C D E T A XX0 XX2 XX8 XX13 in
  let '(A, C, XX1) := BODY_16_19 B C D E T XX1 XX3 XX9 XX14 in
  let '(T, B, XX2) := BODY_16_19 A B C D E XX2 XX4 XX10 XX15 in
  let '(E, A, XX3) := BODY_16_19 T A B C D XX3 XX5 XX11 XX0 in
  let '(D, T, XX4) := BODY_20_31 E T A B C XX4 XX6 XX12 XX1 in
  let '(C, E, XX5) := BODY_20_31 D E T A B XX5 XX7 XX13 XX2 in
  let '(B, D, XX6) := BODY_20_31 C D E T A XX6 XX8 XX14 XX3 in
  let '(A, C, XX7) := BODY_20_31 B C D E T XX7 XX9 XX15 XX4 in
  let '(T, B, XX8) := BODY_20_31 A B C D E XX8 XX10 XX0 XX5 in
  let '(E, A, XX9) := BODY_20_31 T A B C D XX9 XX11 XX1 XX6 in
  let '(D, T, XX10) := BODY_20_31 E T A B C XX10 XX12 XX2 XX7 in
  let '(C, E, XX11) := BODY_20_31 D E T A B XX11 XX13 XX3 XX8 in
  let '(B, D, XX12) := BODY_20_31 C D E T A XX12 XX14 XX4 XX9 in
  let '(A, C, XX13) := BODY_20_31 B C D E T XX13 XX15 XX5 XX10 in
  let '(T, B, XX14) := BODY_20_31 A B C D E XX14 XX0 XX6 XX11 in
  let '(E, A, XX15) := BODY_20_31 T A B C D XX15 XX1 XX7 XX12 in
  let '(D, T, XX0) := BODY_32_39 E T A B C XX0 XX2 XX8 XX13 in
  let '(C, E, XX1) := BODY_32_39 D E T A B XX1 XX3 XX9 XX14 in
  let '(B, D, XX2) := BODY_32_39 C D E T A XX2 XX4 XX10 XX15 in
  let '(A, C, XX3) := BODY_32_39 B C D E T XX3 XX5 XX11 XX0 in
  let '(T, B, XX4) := BODY_32_39 A B C D E XX4 XX6 XX12 XX1 in
  let '(E, A, XX5) := BODY_32_39 T A B C D XX5 XX7 XX13 XX2 in
  let '(D, T, XX6) := BODY_32_39 E T A B C XX6 XX8 XX14 XX3 in
  let '(C, E, XX7) := BODY_32_39 D E T A B XX7 XX9 XX15 XX4 in
  let '(B, D, XX8) := BODY_40_59 C D E T A XX8 XX10 XX0 XX5 in
  let '(A, C, XX9) := BODY_40_59 B C D E T XX9 XX11 XX1 XX6 in
  let '(T, B, XX10) := BODY_40_59 A B C D E XX10 XX12 XX2 XX7 in
  let '(E, A, XX11) := BODY_40_59 T A B C D XX11 XX13 XX3 XX8 in
  let '(D, T, XX12) := BODY_40_59 E T A B C XX12 XX14 XX4 XX9 in
  let '(C, E, XX13) := BODY_40_59 D E T A B XX13 XX15 XX5 XX10 in
  let '(B, D, XX14) := BODY_40_59 C D E T A XX14 XX0 XX6 XX11 in
  let '(A, C, XX15) := BODY_40_59 B C D E T XX15 XX1 XX7 XX12 in
  let '(T, B, XX0) := BODY_40_59 A B C D E XX0 XX2 XX8 XX13 in
  let '(E, A, XX1) := BODY_40_59 T A B C D XX1 XX3 XX9 XX14 in
  let '(D, T, XX2) := BODY_40_59 E T A B C XX2 XX4 XX10 XX15 in
  let '(C, E, XX3) := BODY_40_59 D E T A B XX3 XX5 XX11 XX0 in
  let '(B, D, XX4) := BODY_40_59 C D E T A XX4 XX6 XX12 XX1 in
  let '(A, C, XX5) := BODY_40_59 B C D E T XX5 XX7 XX13 XX2 in
  let '(T, B, XX6) := BODY_40_59 A B C D E XX6 XX8 XX14 XX3 in
  let '(E, A, XX7) := BODY_40_59 T A B C D XX7 XX9 XX15 XX4 in
  let '(D, T, XX8) := BODY_40_59 E T A B C XX8 XX10 XX0 XX5 in
  let '(C, E, XX9) := BODY_40_59 D E T A B XX9 XX11 XX1 XX6 in
  let '(B, D, XX10) := BODY_40_59 C D E T A XX10 XX12 XX2 XX7 in
  let '(A, C, XX11) := BODY_40_59 B C D E T XX11 XX13 XX3 XX8 in
  let '(T, B, XX12) := BODY_60_79 A B C D E XX12 XX14 XX4 XX9 in
  let '(E, A, XX13) := BODY_60_79 T A B C D XX13 XX15 XX5 XX10 in
  let '(D, T, XX14) := BODY_60_79 E T A B C XX14 XX0 XX6 XX11 in
  let '(C, E, XX15) := BODY_60_79 D E T A B XX15 XX1 XX7 XX12 in
  let '(B, D, XX0) := BODY_60_79 C D E T A XX0 XX2 XX8 XX13 in
  let '(A, C, XX1) := BODY_60_79 B C D E T XX1 XX3 XX9 XX14 in
  let '(T, B, XX2) := BODY_60_79 A B C D E XX2 XX4 XX10 XX15 in
  let '(E, A, XX3) := BODY_60_79 T A B C D XX3 XX5 XX11 XX0 in
  let '(D, T, XX4) := BODY_60_79 E T A B C XX4 XX6 XX12 XX1 in
  let '(C, E, XX5) := BODY_60_79 D E T A B XX5 XX7 XX13 XX2 in
  let '(B, D, XX6) := BODY_60_79 C D E T A XX6 XX8 XX14 XX3 in
  let '(A, C, XX7) := BODY_60_79 B C D E T XX7 XX9 XX15 XX4 in
  let '(T, B, XX8) := BODY_60_79 A B C D E XX8 XX10 XX0 XX5 in
  let '(E, A, XX9) := BODY_60_79 T A B C D XX9 XX11 XX1 XX6 in
  let '(D, T, XX10) := BODY_60_79 E T A B C XX10 XX12 XX2 XX7 in
  let '(C, E, XX11) := BODY_60_79 D E T A B XX11 XX13 XX3 XX8 in
  let '(B, D, XX12) := BODY_60_79 C D E T A XX12 XX14 XX4 XX9 in
  let '(A, C, XX13) := BODY_60_79 B C D E T XX13 XX15 XX5 XX10 in
  let '(T, B, XX14) := BODY_60_79 A B C D E XX14 XX0 XX6 XX11 in
  let '(E, A, XX15) := BODY_60_79 T A B C D XX15 XX1 XX7 XX12 in
  [Z.land (zget state 0 + E) 0xffffffff; Z.land (zget state 1 + T) 0xffffffff;
   Z.land (zget state 2 + A) 0xffffffff; Z.land (zget state 3 + B) 0xffffffff;
   Z.land (zget state 4 + C) 0xffffffff].

(** * The context *)

Definition SHA_DIGEST_LENGTH := 20.

Definition sha1_make_string (c : HASH_CTX) : option bytes :=
  Some (HOST_l2c_be (zget (h c) 0) ++ HOST_l2c_be (zget (h c) 1) ++ HOST_l2c_be (zget (h c) 2) ++
        HOST_l2c_be (zget (h c) 3) ++ HOST_l2c_be (zget (h c) 4)).

#[global] Instance sha1_hash : HashBlock := {
  block := sha1_block;
  big_endian := true;
  make_string := sha1_make_string
}.

(** SHA_CTX has no [md_len]; the template's field is left at 0. *)
Definition SHA1_Init : HASH_CTX :=
  init_ctx [0x67452301; 0xefcdab89; 0x98badcfe; 0x10325476; 0xc3d2e1f0] 0.

Definition SHA1_Update (ctx : HASH_CTX) (inp : bytes) (len : Z) : HASH_CTX :=
  HASH_UPDATE (H:=sha1_hash) ctx inp len.
Definition SHA1_Final (ctx : HASH_CTX) : option (option bytes * HASH_CTX) :=
  HASH_FINAL (H:=sha1_hash) ctx.
Definition SHA1_Transform (ctx : HASH_CTX) (inp : bytes) : HASH_CTX :=
  HASH_TRANSFORM (H:=sha1_hash) ctx inp.

Definition SHA1 (inp : bytes) (len : Z) : option bytes :=
  match SHA1_Final (SHA1_Update SHA1_Init inp len) with
  | Some (out, _) => out
  | None => None
  end.

(** * FIPS 180-4 *)

(** Section 4.1.1, with the complement over all the bits of the integer (the
    operands are words, and the conjunction cuts it off). *)
Definition fips_f (t x y z : Z) : Z :=
  if t <? 20 then Z.lxor (Z.land x y) (Z.land (Z.lnot x) z)
  else if t <? 40 then Z.lxor (Z.lxor x y) z
  else if t <? 60 then Z.lxor (Z.lxor (Z.land x y) (Z.land x z)) (Z.land y z)
  else Z.lxor (Z.lxor x y) z.

Definition fips_K (t : Z) : Z :=
  if t <? 20 then 0x5a827999 else if t <? 40 then 0x6ed9eba1
  else if t <? 60 then 0x8f1bbcdc else 0xca62c1d6.

(** Section 6.1.2: the message schedule and the rounds. *)
Definition sha1_next (W : Z -> Z) (t : Z) : Z :=
  rotl 1 (Z.lxor (Z.lxor (Z.lxor (W (t - 3)) (W (t - 8))) (W (t - 14))) (W (t - 16))).

Definition sha1_W (inp : bytes) : list Z := block_schedule sha1_next 64 inp.

Abbreviation regs := (Z * Z * Z * Z * Z)%type.

Definition sha1_round (t Wt : Z) (r : regs) : regs :=
  let '(a, b, c, d, e) := r in
  (u32 (rotl 5 a + fips_f t b c d + e + fips_K t + Wt), a, rotl 30 b, c, d).

Definition sha1_rounds (W : Z -> Z) (n : nat) (t : Z) (r : regs) : regs :=
  rounds (fun t => sha1_round t (W t)) n t r.

Definition sha1_fips_block (state : list Z) (inp : bytes) : list Z :=
  let '(a, b, c, d, e) :=
    sha1_rounds (zget (sha1_W inp)) 80 0
      (zget state 0, zget state 1, zget state 2, zget state 3, zget state 4) in
  [u32 (zget state 0 + a); u32 (zget state 1 + b); u32 (zget state 2 + c);
   u32 (zget state 3 + d); u32 (zget state 4 + e)].

(** * Lemmas: the block function *)

Lemma ROTATE_rotl x n : ROTATE x n = rotl n x.
Proof. reflexivity. Qed.

Lemma F_00_19_Ch b c d : F_00_19 b c d = Z.lxor (Z.land b c) (Z.land (Z.lnot b) d).
Proof.
  unfold F_00_19. apply Z.bits_inj'. intros i Hi. autorewrite with bits.
  rewrite Z.lnot_spec by lia.
  by destruct (Z.testbit b i), (Z.testbit c i), (Z.testbit d i).
Qed.

Lemma F_40_59_Maj b c d :
  F_40_59 b c d = Z.lxor (Z.lxor (Z.land b c) (Z.land b d)) (Z.land c d).
Proof.
  unfold F_40_59. apply Z.bits_inj'. intros i Hi. autorewrite with bits.
  by destruct (Z.testbit b i), (Z.testbit c i), (Z.testbit d i).
Qed.

Lemma lxor4_rev a b c d :
  Z.lxor (Z.lxor (Z.lxor a b) c) d = Z.lxor (Z.lxor (Z.lxor d c) b) a.
Proof.
  apply Z.bits_inj'. intros i Hi. autorewrite with bits.
  by destruct (Z.testbit a i), (Z.testbit b i), (Z.testbit c i), (Z.testbit d i).
Qed.

(** What a step of the code must establish: it writes the new register and the
    rotated one, and the ring's word for this step. *)
Definition step_ok (W : Z -> Z) (t a b c d e : Z) (s : Z * Z) : Prop :=
  sha1_round t (W t) (a, b, c, d, e) = (s.1, a, s.2, c, d).

Ltac range_t :=
  unfold step_ok, sha1_round, fips_f, fips_K;
  repeat match goal with |- context [if ?x <? ?y then _ else _] =>
    first [rewrite (proj2 (Z.ltb_lt x y)) by lia | rewrite (proj2 (Z.ltb_ge x y)) by lia] end.

Ltac first_word :=
  lazymatch goal with |- (u32 ?x, _, _, _, _) = (u32 ?y, _, _, _, _) =>
    replace x with y by lia; reflexivity end.

Lemma BODY_00_15_spec W t a b c d e : 0 <= t < 20 ->
  step_ok W t a b c d e (BODY_00_15 a b c d e (W t)).
Proof.
  intros Ht. range_t. cbn. rewrite F_00_19_Ch, !ROTATE_rotl. unfold K_00_19. first_word.
Qed.

Lemma Xupdate_spec W t : W t = sha1_next W t ->
  Xupdate (W (t - 16)) (W (t - 14)) (W (t - 8)) (W (t - 3)) = W t.
Proof. intros ->. unfold Xupdate, sha1_next. by rewrite ROTATE_rotl, lxor4_rev. Qed.

Section Steps.
  Variables (W : Z -> Z) (t a b c d e : Z).
  Hypothesis HW : W t = sha1_next W t.

Ltac body F := unfold F; rewrite (Xupdate_spec W t HW);
  eexists; split; [reflexivity|]; range_t; cbn;
  rewrite ?F_00_19_Ch, ?F_40_59_Maj, ?u32_add_r, !ROTATE_rotl;
  unfold K_00_19, K_20_39, K_40_59, K_60_79, F_60_79, F_20_39; first_word.

Lemma BODY_16_19_spec : 16 <= t < 20 -> exists s,
  BODY_16_19 a b c d e (W (t - 16)) (W (t - 14)) (W (t - 8)) (W (t - 3)) = (s, W t) /\
  step_ok W t a b c d e s.
Proof. intros Ht. body BODY_16_19. Qed.

Lemma BODY_20_31_spec : 20 <= t < 32 -> exists s,
  BODY_20_31 a b c d e (W (t - 16)) (W (t - 14)) (W (t - 8)) (W (t - 3)) = (s, W t) /\
  step_ok W t a b c d e s.
Proof. intros Ht. body BODY_20_31. Qed.

Lemma BODY_32_39_spec : 32 <= t < 40 -> exists s,
  BODY_32_39 a b c d e (W (t - 16)) (W (t - 14)) (W (t - 8)) (W (t - 3)) = (s, W t) /\
  step_ok W t a b c d e s.
Proof. intros Ht. body BODY_32_39. Qed.

Lemma BODY_40_59_spec : 40 <= t < 60 -> exists s,
  BODY_40_59 a b c d e (W (t - 16)) (W (t - 14)) (W (t - 8)) (W (t - 3)) = (s, W t) /\
  step_ok W t a b c d e s.
Proof. intros Ht. body BODY_40_59. Qed.

Lemma BODY_60_79_spec : 60 <= t < 80 -> exists s,
  BODY_60_79 a b c d e (W (t - 16)) (W (t - 14)) (W (t - 8)) (W (t - 3)) = (s, W t) /\
  step_ok W t a b c d e s.
Proof. intros Ht. body BODY_60_79. Qed.

End Steps.

Lemma sha1_rounds_S W n t r : sha1_rounds W (S n) t r = sha1_rounds W n (t + 1) (sha1_round t (W t) r).
Proof. reflexivity. Qed.

(** Runs the next unrolled step of the code and the next round of FIPS 180-4. *)
Ltac step_0 W t :=
  match goal with |- context [BODY_00_15 ?a ?b ?c ?d ?e (W t)] =>
    let Hs := fresh "Hs" in
    pose proof (BODY_00_15_spec W t a b c d e ltac:(lia)) as Hs;
    destruct (BODY_00_15 a b c d e (W t)) as [? ?];
    unfold step_ok in Hs; cbn [fst snd] in Hs;
    rewrite sha1_rounds_S, Hs; clear Hs;
    let t' := eval cbv in (t + 1) in change (t + 1) with t'
  end.

Ltac step F spec W HW t :=
  match goal with |- context [F ?a ?b ?c ?d ?e ?xa ?xb ?xc ?xd] =>
    let x := fresh "x" in let y := fresh "y" in let E := fresh "E" in let Hs := fresh "Hs" in
    destruct (spec W t a b c d e (HW t ltac:(lia)) ltac:(lia)) as ([x y] & E & Hs);
    change (F a b c d e xa xb xc xd = (x, y, W t)) in E; rewrite E; clear E;
    unfold step_ok in Hs; cbn [fst snd] in Hs;
    rewrite sha1_rounds_S, Hs; clear Hs;
    let t' := eval cbv in (t + 1) in change (t + 1) with t'
  end.

Ltac s16 W HW t := step BODY_16_19 BODY_16_19_spec W HW t.
Ltac s20 W HW t := step BODY_20_31 BODY_20_31_spec W HW t.
Ltac s32 W HW t := step BODY_32_39 BODY_32_39_spec W HW t.
Ltac s40 W HW t := step BODY_40_59 BODY_40_59_spec W HW t.
Ltac s60 W HW t := step BODY_60_79 BODY_60_79_spec W HW t.

Lemma sha1_block_rounds state inp (W : Z -> Z) :
  (forall o o' t, o = 4 * t -> o' = o + 4 -> 0 <= t < 16 ->
    HOST_c2l_be (zdrop o inp) = (W t, zdrop o' inp)) ->
  (forall t, 16 <= t < 80 -> W t = sha1_next W t) ->
  sha1_block state inp =
  let '(a, b, c, d, e) :=
    sha1_rounds W 80 0
      (zget state 0, zget state 1, zget state 2, zget state 3, zget state 4) in
  [u32 (zget state 0 + a); u32 (zget state 1 + b); u32 (zget state 2 + c);
   u32 (zget state 3 + d); u32 (zget state 4 + e)].
Proof.
  intros Hc HW. unfold sha1_block.
  rewrite <- (zdrop_0 0 inp) at 1 by lia.
  rewrite (Hc 0 4 0), (Hc 4 8 1), (Hc 8 12 2), (Hc 12 16 3), (Hc 16 20 4), (Hc 20 24 5),
    (Hc 24 28 6), (Hc 28 32 7), (Hc 32 36 8), (Hc 36 40 9), (Hc 40 44 10), (Hc 44 48 11),
    (Hc 48 52 12), (Hc 52 56 13), (Hc 56 60 14), (Hc 60 64 15) by lia.
  step_0 W 0. step_0 W 1. step_0 W 2. step_0 W 3. step_0 W 4. step_0 W 5.
  step_0 W 6. step_0 W 7. step_0 W 8. step_0 W 9. step_0 W 10. step_0 W 11.
  step_0 W 12. step_0 W 13. step_0 W 14. step_0 W 15.
  s16 W HW 16. s16 W HW 17. s16 W HW 18. s16 W HW 19. s20 W HW 20.
  s20 W HW 21. s20 W HW 22. s20 W HW 23. s20 W HW 24. s20 W HW 25.
  s20 W HW 26. s20 W HW 27. s20 W HW 28. s20 W HW 29. s20 W HW 30.
  s20 W HW 31. s32 W HW 32. s32 W HW 33. s32 W HW 34. s32 W HW 35.
  s32 W HW 36. s32 W HW 37. s32 W HW 38. s32 W HW 39. s40 W HW 40.
  s40 W HW 41. s40 W HW 42. s40 W HW 43. s40 W HW 44. s40 W HW 45.
  s40 W HW 46. s40 W HW 47. s40 W HW 48. s40 W HW 49. s40 W HW 50.
  s40 W HW 51. s40 W HW 52. s40 W HW 53. s40 W HW 54. s40 W HW 55.
  s40 W HW 56. s40 W HW 57. s40 W HW 58. s40 W HW 59. s60 W HW 60.
  s60 W HW 61. s60 W HW 62. s60 W HW 63. s60 W HW 64. s60 W HW 65.
  s60 W HW 66. s60 W HW 67. s60 W HW 68. s60 W HW 69. s60 W HW 70.
  s60 W HW 71. s60 W HW 72. s60 W HW 73. s60 W HW 74. s60 W HW 75.
  s60 W HW 76. s60 W HW 77. s60 W HW 78. s60 W HW 79.
  reflexivity.
Qed.

Lemma sha1_c2l_W inp o o' t : zlen inp = 64 -> bytes_ok inp -> o = 4 * t -> o' = o + 4 ->
  0 <= t < 16 -> HOST_c2l_be (zdrop o inp) = (zget (sha1_W inp) t, zdrop o' inp).
Proof. intros. unfold sha1_W. rewrite block_schedule_word by done. by apply c2l_be_at. Qed.

Lemma sha1_next_local : local_next sha1_next.
Proof. intros f g t H. unfold sha1_next. by rewrite !H by lia. Qed.

Lemma sha1_W_next inp t : 16 <= t < 80 ->
  zget (sha1_W inp) t = sha1_next (zget (sha1_W inp)) t.
Proof. intros Ht. apply block_schedule_next; [apply sha1_next_local|lia]. Qed.

(** The code's block function is the one of FIPS 180-4. *)
Lemma sha1_block_fips state inp : zlen inp = 64 -> bytes_ok inp ->
  sha1_block state inp = sha1_fips_block state inp.
Proof.
  intros Hl Hok.
  exact (sha1_block_rounds state inp (zget (sha1_W inp))
    (fun o o' t => sha1_c2l_W inp o o' t Hl Hok) (sha1_W_next inp)).
Qed.

(** * The hash function *)

Definition sha1_fips_hash : HashBlock := {|
  block := sha1_fips_block;
  big_endian := true;
  make_string := sha1_make_string
|}.

Definition H1 : list Z := [0x67452301; 0xefcdab89; 0x98badcfe; 0x10325476; 0xc3d2e1f0].

Definition fips_sha1 (msg : bytes) : bytes :=
  concat (map (be_bytes 4) (@md_state sha1_fips_hash H1 msg)).

Lemma sha1_fips_block_length st b : length (sha1_fips_block st b) = 5%nat.
Proof.
  unfold sha1_fips_block. generalize (sha1_rounds (zget (sha1_W b)) 80 0). intros F.
  by destruct (F _) as [[[[? ?] ?] ?] ?].
Qed.

Lemma sha1_stream inputs : Forall input_ok inputs ->
  exists c', SHA1_Final (update_all SHA1_Init inputs) = Some (Some (fips_sha1 (concat inputs)), c').
Proof.
  intros Hin.
  destruct (stream_ext sha1_hash sha1_fips_hash H1 0 inputs eq_refl sha1_block_fips Hin)
    as (c' & Hf & Hm & _).
  assert (Hl : length (h c') = 5%nat) by
    (rewrite Hm; apply (md_state_inv (H:=sha1_fips_hash) (fun l => length l = 5%nat)), sha1_fips_block_length).
  unfold SHA1_Final, SHA1_Init. unfold H1 in Hf. rewrite Hf. exists c'. do 2 f_equal.
  unfold fips_sha1. rewrite <- Hm.
  cbn [make_string sha1_hash]. unfold sha1_make_string.
  destruct (h c') as [|w0 [|w1 [|w2 [|w3 [|w4 [|]]]]]]; try done.
  by rewrite !HOST_l2c_be_bytes.
Qed.

(** * Properties *)

(** SHA-1 is the function of FIPS 180-4, however the message is cut into
    updates: the 80 unrolled steps, with six names for the five registers, the
    sixteen-word ring of scalars and the rewritten Ch and Maj, compute the
    standard's rounds over its message schedule, and the one-shot function
    agrees. *)
Theorem SHA1_fips inputs inp : Forall input_ok inputs -> input_ok inp ->
  (exists c', SHA1_Final (update_all SHA1_Init inputs) =
     Some (Some (fips_sha1 (concat inputs)), c')) /\
  SHA1 inp (zlen inp) = Some (fips_sha1 inp).
Proof.
  intros Hin Hi. split; [by apply sha1_stream|].
  destruct (sha1_stream [inp]) as [c' Hc]; [by constructor|].
  cbn [concat app] in Hc. rewrite app_nil_r in Hc. unfold SHA1.
  change (SHA1_Update SHA1_Init inp (zlen inp)) with (update_all SHA1_Init [inp]).
  by rewrite Hc.
Qed.

(** "abc" and the digest FIPS 180-4 lists for it. *)
Lemma SHA1_fips_witness :
  SHA1 [0x61; 0x62; 0x63] 3 = Some (fips_sha1 [0x61; 0x62; 0x63]) /\
  fips_sha1 [0x61; 0x62; 0x63] =
    [0xa9; 0x99; 0x3e; 0x36; 0x47; 0x06; 0x81; 0x6a; 0xba; 0x3e; 0x25; 0x71; 0x78; 0x50; 0xc2; 0x6c;
     0x9c; 0xd0; 0xd8; 0x9d].
Proof.
  split; [|vm_compute; reflexivity].
  apply (SHA1_fips [] [0x61; 0x62; 0x63]); [constructor|].
  split; [repeat constructor; lia|split; cbn; lia].
Defined.
