(* ===== verification/Md5.v ===== *)
(** MD5: crypto/md5/md5.c, the C block function and the instance of the hash
    template, shown equal to RFC 1321. *)

From Stdlib Require Import ZArith Lia.
From stdpp Require Import base list option.
From S2P Require Import Prelude Mem Md32.

(** * The block function *)

Definition F (b c d : Z) : Z := Z.lxor (Z.land (Z.lxor c d) b) d.
Definition G (b c d : Z) : Z := Z.lxor (Z.land (Z.lxor b c) d) c.
Definition H (b c d : Z) : Z := Z.lxor (Z.lxor b c) d.
Definition I (b c d : Z) : Z := Z.lxor (Z.lor (u32 (Z.lnot d)) b) c.

Definition ROTATE (a n : Z) : Z := Z.lor (u32 (Z.shiftl a n)) (Z.shiftr a (32 - n)).

(** The macros assign [a]. *)
Definition R0 (a b c d k s t : Z) : Z :=
  let a := u32 (a + (k + t + F b c d)) in
  let a := ROTATE a s in
  u32 (a + b).
Definition R1 (a b c d k s t : Z) : Z :=
  let a := u32 (a + (k + t + G b c d)) in
  let a := ROTATE a s in
  u32 (a + b).
Definition R2 (a b c d k s t : Z) : Z :=
  let a := u32 (a + (k + t + H b c d)) in
  let a := ROTATE a s in
  u32 (a + b).
Definition R3 (a b c d k s t : Z) : Z :=
  let a := u32 (a + (k + t + I b c d)) in
  let a := ROTATE a s in
  u32 (a + b).

(** One iteration of [for (; num--;)]; the registers hold the state at its start. *)
Definition md5_block (state : list Z) (inp : bytes) : list Z :=
  let A := zget state 0 in
  let B := zget state 1 in
  let C := zget state 2 in
  let D := zget state 3 in
  let '(l, inp) := HOST_c2l_le inp in
  let! X0 := l in
  let '(l, inp) := HOST_c2l_le inp in
  let! X1 := l in
  let! A := R0 A B C D X0 7 0xd76aa478 in
  let '(l, inp) := HOST_c2l_le inp in
  let! X2 := l in
  let! D := R0 D A B C X1 12 0xe8c7b756 in
  let '(l, inp) := HOST_c2l_le inp in
  let! X3 := l in
  let! C := R0 C D A B X2 17 0x242070db in
  let '(l, inp) := HOST_c2l_le inp in
  let! X4 := l in
  let! B := R0 B C D A X3 22 0xc1bdceee in
  let '(l, inp) := HOST_c2l_le inp in
  let! X5 := l in
  let! A := R0 A B C D X4 7 0xf57c0faf in
  let '(l, inp) := HOST_c2l_le inp in
  let! X6 := l in
  let! D := R0 D A B C X5 12 0x4787c62a in
  let '(l, inp) := HOST_c2l_le inp in
  let! X7 := l in
  let! C := R0 C D A B X6 17 0xa8304613 in
  let '(l, inp) := HOST_c2l_le inp in
  let! X8 := l in
  let! B := R0 B C D A X7 22 0xfd469501 in
  let '(l, inp) := HOST_c2l_le inp in
  let! X9 := l in
  let! A := R0 A B C D X8 7 0x698098d8 in
  let '(l, inp) := HOST_c2l_le inp in
  let! X10 := l in
  let! D := R0 D A B C X9 12 0x8b44f7af in
  let '(l, inp) := HOST_c2l_le inp in
  let! X11 := l in
  let! C := R0 C D A B X10 17 0xffff5bb1 in
  let '(l, inp) := HOST_c2l_le inp in
  let! X12 := l in
  let! B := R0 B C D A X11 22 0x895cd7be in
  let '(l, inp) := HOST_c2l_le inp in
  let! X13 := l in
  let! A := R0 A B C D X12 7 0x6b901122 in
  let '(l, inp) := HOST_c2l_le inp in
  let! X14 := l in
  let! D := R0 D A B C X13 12 0xfd987193 in
  let '(l, inp) := HOST_c2l_le inp in
  let! X15 := l in
  let! C := R0 C D A B X14 17 0xa679438e in
  let! B := R0 B C D A X15 22 0x49b40821 in
  let! A := R1 A B C D X1 5 0xf61e2562 in
  let! D := R1 D A B C X6 9 0xc040b340 in
  let! C := R1 C D A B X11 14 0x265e5a51 in
  let! B := R1 B C D A X0 20 0xe9b6c7aa in
  let! A := R1 A B C D X5 5 0xd62f105d in
  let! D := R1 D A B C X10 9 0x02441453 in
  let! C := R1 C D A B X15 14 0xd8a1e681 in
  let! B := R1 B C D A X4 20 0xe7d3fbc8 in
  let! A := R1 A B C D X9 5 0x21e1cde6 in
  let! D := R1 D A B C X14 9 0xc33707d6 in
  let! C := R1 C D A B X3 14 0xf4d50d87 in
  let! B := R1 B C D A X8 20 0x455a14ed in
  let! A := R1 A B C D X13 5 0xa9e3e905 in
  let! D := R1 D A B C X2 9 0xfcefa3f8 in
  let! C := R1 C D A B X7 14 0x676f02d9 in
  let! B := R1 B C D A X12 20 0x8d2a4c8a in
  let! A := R2 A B C D X5 4 0xfffa3942 in
  let! D := R2 D A B C X8 11 0x8771f681 in
  let! C := R2 C D A B X11 16 0x6d9d6122 in
  let! B := R2 B C D A X14 23 0xfde5380c in
  let! A := R2 A B C D X1 4 0xa4beea44 in
  let! D := R2 D A B C X4 11 0x4bdecfa9 in
  let! C := R2 C D A B X7 16 0xf6bb4b60 in
  let! B := R2 B C D A X10 23 0xbebfbc70 in
  let! A := R2 A B C D X13 4 0x289b7ec6 in
  let! D := R2 D A B C X0 11 0xeaa127fa in
  let! C := R2 C D A B X3 16 0xd4ef3085 in
  let! B := R2 B C D A X6 23 0x04881d05 in
  let! A := R2 A B C D X9 4 0xd9d4d039 in
  let! D := R2 D A B C X12 11 0xe6db99e5 in
  let! C := R2 C D A B X15 16 0x1fa27cf8 in
  let! B := R2 B C D A X2 23 0xc4ac5665 in
  let! A := R3 A B C D X0 6 0xf4292244 in
  let! D := R3 D A B C X7 10 0x432aff97 in
  let! C := R3 C D A B X14 15 0xab9423a7 in
  let! B := R3 B C D A X5 21 0xfc93a039 in
  let! A := R3 A B C D X12 6 0x655b59c3 in
  let! D := R3 D A B C X3 10 0x8f0ccc92 in
  let! C := R3 C D A B X10 15 0xffeff47d in
  let! B := R3 B C D A X1 21 0x85845dd1 in
  let! A := R3 A B C D X8 6 0x6fa87e4f in
  let! D := R3 D A B C X15 10 0xfe2ce6e0 in
  let! C := R3 C D A B X6 15 0xa3014314 in
  let! B := R3 B C D A X13 21 0x4e0811a1 in
  let! A := R3 A B C D X4 6 0xf7537e82 in
  let! D := R3 D A B C X11 10 0xbd3af235 in
  let! C := R3 C D A B X2 15 0x2ad7d2bb in
  let! B := R3 B C D A X9 21 0xeb86d391 in
  [u32 (zget state 0 + A); u32 (zget state 1 + B); u32 (zget state 2 + C); u32 (zget state 3 + D)].

(** * The context *)

Definition md5_make_string (c : HASH_CTX) : option bytes :=
  Some (HOST_l2c_le (zget (h c) 0) ++ HOST_l2c_le (zget (h c) 1) ++
        HOST_l2c_le (zget (h c) 2) ++ HOST_l2c_le (zget (h c) 3)).

#[global] Instance md5_hash : HashBlock := {
  block := md5_block;
  big_endian := false;
  make_string := md5_make_string
}.

(** MD5_CTX has no [md_len]; the template's field is left at 0. *)
Definition MD5_Init : HASH_CTX :=
  init_ctx [0x67452301; 0xefcdab89; 0x98badcfe; 0x10325476] 0.

Definition MD5_Update (ctx : HASH_CTX) (inp : bytes) (len : Z) : HASH_CTX :=
  HASH_UPDATE (H:=md5_hash) ctx inp len.
Definition MD5_Final (ctx : HASH_CTX) : option (option bytes * HASH_CTX) :=
  HASH_FINAL (H:=md5_hash) ctx.
Definition MD5_Transform (ctx : HASH_CTX) (inp : bytes) : HASH_CTX :=
  HASH_TRANSFORM (H:=md5_hash) ctx inp.

Definition MD5 (inp : bytes) (len : Z) : option bytes :=
  match MD5_Final (MD5_Update MD5_Init inp len) with
  | Some (out, _) => out
  | None => None
  end.

(** * RFC 1321 *)

(** Section 3.4: the auxiliary functions (a complement is cut off by the
    conjunction, or made a word), the sine table and the 64 operations
    [a = b + ((a + f(b,c,d) + X[k] + T[i]) <<< s)], [i] from 0, with the
    registers renamed so that each operation writes the second. *)
Definition rfc_f (i x y z : Z) : Z :=
  if i <? 16 then Z.lor (Z.land x y) (Z.land (Z.lnot x) z)
  else if i <? 32 then Z.lor (Z.land x z) (Z.land y (Z.lnot z))
  else if i <? 48 then Z.lxor (Z.lxor x y) z
  else Z.lxor y (Z.lor x (u32 (Z.lnot z))).

Definition rfc_k (i : Z) : Z :=
  if i <? 16 then i
  else if i <? 32 then (1 + 5 * i) mod 16
  else if i <? 48 then (5 + 3 * i) mod 16
  else (7 * i) mod 16.

Definition rfc_s (i : Z) : Z :=
  zget (if i <? 16 then [7; 12; 17; 22]
        else if i <? 32 then [5; 9; 14; 20]
        else if i <? 48 then [4; 11; 16; 23]
        else [6; 10; 15; 21]) (i mod 4).

(** [T[i + 1]], the integer part of 4294967296 times abs(sin(i + 1)). *)
Definition rfc_T : list Z :=
  [0xd76aa478; 0xe8c7b756; 0x242070db; 0xc1bdceee; 0xf57c0faf; 0x4787c62a;
   0xa8304613; 0xfd469501; 0x698098d8; 0x8b44f7af; 0xffff5bb1; 0x895cd7be;
   0x6b901122; 0xfd987193; 0xa679438e; 0x49b40821; 0xf61e2562; 0xc040b340;
   0x265e5a51; 0xe9b6c7aa; 0xd62f105d; 0x02441453; 0xd8a1e681; 0xe7d3fbc8;
   0x21e1cde6; 0xc33707d6; 0xf4d50d87; 0x455a14ed; 0xa9e3e905; 0xfcefa3f8;
   0x676f02d9; 0x8d2a4c8a; 0xfffa3942; 0x8771f681; 0x6d9d6122; 0xfde5380c;
   0xa4beea44; 0x4bdecfa9; 0xf6bb4b60; 0xbebfbc70; 0x289b7ec6; 0xeaa127fa;
   0xd4ef3085; 0x04881d05; 0xd9d4d039; 0xe6db99e5; 0x1fa27cf8; 0xc4ac5665;
   0xf4292244; 0x432aff97; 0xab9423a7; 0xfc93a039; 0x655b59c3; 0x8f0ccc92;
   0xffeff47d; 0x85845dd1; 0x6fa87e4f; 0xfe2ce6e0; 0xa3014314; 0x4e0811a1;
   0xf7537e82; 0xbd3af235; 0x2ad7d2bb; 0xeb86d391].

Definition md5_round (X : Z -> Z) (i : Z) (r : Z * Z * Z * Z) : Z * Z * Z * Z :=
  let '(a, b, c, d) := r in
  (d, u32 (b + rotl (rfc_s i) (u32 (a + rfc_f i b c d + X (rfc_k i) + zget rfc_T i))), b, c).

Definition md5_rfc_block (state : list Z) (inp : bytes) : list Z :=
  let '(a, b, c, d) :=
    rounds (md5_round (le_word inp)) 64 0 (zget state 0, zget state 1, zget state 2, zget state 3) in
  [u32 (zget state 0 + a); u32 (zget state 1 + b); u32 (zget state 2 + c); u32 (zget state 3 + d)].

(** * Lemmas: the block function *)

Lemma F_rfc b c d : F b c d = Z.lor (Z.land b c) (Z.land (Z.lnot b) d).
Proof.
  unfold F. apply Z.bits_inj'. intros i Hi. autorewrite with bits. rewrite Z.lnot_spec by lia.
  by destruct (Z.testbit b i), (Z.testbit c i), (Z.testbit d i).
Qed.

Lemma G_rfc b c d : G b c d = Z.lor (Z.land b d) (Z.land c (Z.lnot d)).
Proof.
  unfold G. apply Z.bits_inj'. intros i Hi. autorewrite with bits. rewrite Z.lnot_spec by lia.
  by destruct (Z.testbit b i), (Z.testbit c i), (Z.testbit d i).
Qed.

Lemma I_rfc b c d : I b c d = Z.lxor c (Z.lor b (u32 (Z.lnot d))).
Proof. unfold I. by rewrite Z.lxor_comm, Z.lor_comm. Qed.

Section Steps.
  Variables (X : Z -> Z) (i a b c d y : Z).

Ltac operation F :=
  intros Hi ->; unfold md5_round, F, rfc_f;
  repeat match goal with |- context [if ?x <? ?y then _ else _] =>
    first [rewrite (proj2 (Z.ltb_lt x y)) by lia | rewrite (proj2 (Z.ltb_ge x y)) by lia] end;
  rewrite ?F_rfc, ?G_rfc, ?I_rfc;
  lazymatch goal with |- (_, u32 (_ + rotl _ (u32 ?p)), _, _) = (_, u32 (ROTATE (u32 ?q) _ + _), _, _) =>
    replace p with q by (unfold H; lia); rewrite Z.add_comm; reflexivity end.

Lemma R0_spec : 0 <= i < 16 -> y = R0 a b c d (X (rfc_k i)) (rfc_s i) (zget rfc_T i) ->
  md5_round X i (a, b, c, d) = (d, y, b, c).
Proof. operation R0. Qed.
Lemma R1_spec : 16 <= i < 32 -> y = R1 a b c d (X (rfc_k i)) (rfc_s i) (zget rfc_T i) ->
  md5_round X i (a, b, c, d) = (d, y, b, c).
Proof. operation R1. Qed.
Lemma R2_spec : 32 <= i < 48 -> y = R2 a b c d (X (rfc_k i)) (rfc_s i) (zget rfc_T i) ->
  md5_round X i (a, b, c, d) = (d, y, b, c).
Proof. operation R2. Qed.
Lemma R3_spec : 48 <= i < 64 -> y = R3 a b c d (X (rfc_k i)) (rfc_s i) (zget rfc_T i) ->
  md5_round X i (a, b, c, d) = (d, y, b, c).
Proof. operation R3. Qed.

End Steps.

(** Reads the next word and names it. *)
Ltac read Hc o o' k :=
  let l := fresh "l" in let p := fresh "p" in let E := fresh "E" in let y := fresh "y" in
  lazymatch goal with |- context [HOST_c2l_le (zdrop o ?inp)] =>
    destruct (HOST_c2l_le (zdrop o inp)) as [l p] eqn:E;
    rewrite (Hc o o' k) in E by lia; injection E as <- <- end;
  apply assign_name; intros y ->.

(** Runs the next unrolled step of the code and the next round of the RFC. *)
Ltac step spec X t :=
  let y := fresh "y" in let E := fresh "E" in
  apply assign_name; intros y E;
  lazymatch type of E with _ = _ ?a ?b ?c ?d _ _ _ =>
    rewrite rounds_S, (spec X t a b c d y ltac:(lia) E) end;
  clear E; let t' := eval cbv in (t + 1) in change (t + 1) with t'.

Lemma md5_block_rounds state inp (X : Z -> Z) :
  (forall o o' t, o = 4 * t -> o' = o + 4 -> 0 <= t < 16 ->
    HOST_c2l_le (zdrop o inp) = (X t, zdrop o' inp)) ->
  md5_block state inp =
  let '(a, b, c, d) :=
    rounds (md5_round X) 64 0 (zget state 0, zget state 1, zget state 2, zget state 3) in
  [u32 (zget state 0 + a); u32 (zget state 1 + b); u32 (zget state 2 + c); u32 (zget state 3 + d)].
Proof.
  intros Hc. unfold md5_block.
  pose proof (zdrop_0 0 inp ltac:(lia)) as H0.
  replace (HOST_c2l_le inp) with (HOST_c2l_le (zdrop 0 inp)) by (by rewrite H0).
  read Hc 0 4 0. read Hc 4 8 1. step R0_spec X 0. read Hc 8 12 2.
  step R0_spec X 1. read Hc 12 16 3. step R0_spec X 2. read Hc 16 20 4.
  step R0_spec X 3. read Hc 20 24 5. step R0_spec X 4. read Hc 24 28 6.
  step R0_spec X 5. read Hc 28 32 7. step R0_spec X 6. read Hc 32 36 8.
  step R0_spec X 7. read Hc 36 40 9. step R0_spec X 8. read Hc 40 44 10.
  step R0_spec X 9. read Hc 44 48 11. step R0_spec X 10. read Hc 48 52 12.
  step R0_spec X 11. read Hc 52 56 13. step R0_spec X 12. read Hc 56 60 14.
  step R0_spec X 13. read Hc 60 64 15. step R0_spec X 14. step R0_spec X 15.
  step R1_spec X 16. step R1_spec X 17. step R1_spec X 18. step R1_spec X 19.
  step R1_spec X 20. step R1_spec X 21. step R1_spec X 22. step R1_spec X 23.
  step R1_spec X 24. step R1_spec X 25. step R1_spec X 26. step R1_spec X 27.
  step R1_spec X 28. step R1_spec X 29. step R1_spec X 30. step R1_spec X 31.
  step R2_spec X 32. step R2_spec X 33. step R2_spec X 34. step R2_spec X 35.
  step R2_spec X 36. step R2_spec X 37. step R2_spec X 38. step R2_spec X 39.
  step R2_spec X 40. step R2_spec X 41. step R2_spec X 42. step R2_spec X 43.
  step R2_spec X 44. step R2_spec X 45. step R2_spec X 46. step R2_spec X 47.
  step R3_spec X 48. step R3_spec X 49. step R3_spec X 50. step R3_spec X 51.
  step R3_spec X 52. step R3_spec X 53. step R3_spec X 54. step R3_spec X 55.
  step R3_spec X 56. step R3_spec X 57. step R3_spec X 58. step R3_spec X 59.
  step R3_spec X 60. step R3_spec X 61. step R3_spec X 62. step R3_spec X 63.
  reflexivity.
Qed.

(** The code's block function is the one of the RFC. *)
Lemma md5_block_rfc state inp : zlen inp = 64 -> bytes_ok inp ->
  md5_block state inp = md5_rfc_block state inp.
Proof.
  intros Hl Hok.
  exact (md5_block_rounds state inp (le_word inp) (fun o o' t => c2l_le_at inp o o' t Hl Hok)).
Qed.

(** * The hash function *)

Definition md5_rfc_hash : HashBlock := {|
  block := md5_rfc_block;
  big_endian := false;
  make_string := md5_make_string
|}.

Definition md5_iv : list Z := [0x67452301; 0xefcdab89; 0x98badcfe; 0x10325476].

Definition rfc_md5 (msg : bytes) : bytes :=
  concat (map (le_bytes 4) (@md_state md5_rfc_hash md5_iv msg)).

Lemma md5_rfc_block_length st b : length (md5_rfc_block st b) = 4%nat.
Proof.
  unfold md5_rfc_block. generalize (rounds (md5_round (le_word b)) 64 0). intros F.
  by destruct (F _) as [[[? ?] ?] ?].
Qed.

Lemma md5_stream inputs : Forall input_ok inputs ->
  exists c', MD5_Final (update_all MD5_Init inputs) = Some (Some (rfc_md5 (concat inputs)), c').
Proof.
  intros Hin.
  destruct (stream_ext md5_hash md5_rfc_hash md5_iv 0 inputs eq_refl md5_block_rfc Hin)
    as (c' & Hf & Hm & _).
  assert (Hl : length (h c') = 4%nat) by
    (rewrite Hm; apply (md_state_inv (H:=md5_rfc_hash) (fun l => length l = 4%nat)), md5_rfc_block_length).
  unfold MD5_Final, MD5_Init. unfold md5_iv in Hf. rewrite Hf. exists c'. do 2 f_equal.
  unfold rfc_md5. rewrite <- Hm.
  cbn [make_string md5_hash]. unfold md5_make_string.
  destruct (h c') as [|w0 [|w1 [|w2 [|w3 [|]]]]]; try done.
  by rewrite !HOST_l2c_le_bytes.
Qed.

(** * Properties *)

(** MD5 is the function of RFC 1321, however the message is cut into
    updates: the 64 unrolled steps with the rewritten F and G compute the
    standard's operations over the little-endian words of the block, with its
    word order, shifts and sine table, and the one-shot function agrees. *)
Theorem MD5_rfc inputs inp : Forall input_ok inputs -> input_ok inp ->
  (exists c', MD5_Final (update_all MD5_Init inputs) =
     Some (Some (rfc_md5 (concat inputs)), c')) /\
  MD5 inp (zlen inp) = Some (rfc_md5 inp).
Proof.
  intros Hin Hi. split; [by apply md5_stream|].
  destruct (md5_stream [inp]) as [c' Hc]; [by constructor|].
  cbn [concat app] in Hc. rewrite app_nil_r in Hc. unfold MD5.
  change (MD5_Update MD5_Init inp (zlen inp)) with (update_all MD5_Init [inp]).
  by rewrite Hc.
Qed.

(** "abc" and the digest RFC 1321 lists for it. *)
Lemma MD5_rfc_witness :
  MD5 [0x61; 0x62; 0x63] 3 = Some (rfc_md5 [0x61; 0x62; 0x63]) /\
  rfc_md5 [0x61; 0x62; 0x63] =
    [0x90; 0x01; 0x50; 0x98; 0x3c; 0xd2; 0x4f; 0xb0; 0xd6; 0x96; 0x3f; 0x7d;
     0x28; 0xe1; 0x7f; 0x72].
Proof.
  split; [|vm_compute; reflexivity].
  apply (MD5_rfc [] [0x61; 0x62; 0x63]); [constructor|].
  split; [repeat constructor; lia|split; cbn; lia].
Defined.
