(* ===== verification/Md4.v ===== *)
(** MD4: crypto/md4/md4.c, the block function and the instance of the hash
    template, shown equal to RFC 1320. *)

From Stdlib Require Import ZArith Lia.
From stdpp Require Import base list option.
From S2P Require Import Prelude Mem Md32.

(** * The block function *)

Definition F (b c d : Z) : Z := Z.lxor (Z.land (Z.lxor c d) b) d.
Definition G (b c d : Z) : Z := Z.lor (Z.lor (Z.land b c) (Z.land b d)) (Z.land c d).
Definition H (b c d : Z) : Z := Z.lxor (Z.lxor b c) d.

Definition ROTATE (a n : Z) : Z := Z.lor (u32 (Z.shiftl a n)) (Z.shiftr a (32 - n)).

(** The macros assign [a]. *)
Definition R0 (a b c d k s t : Z) : Z :=
  let a := u32 (a + (k + t + F b c d)) in
  ROTATE a s.
Definition R1 (a b c d k s t : Z) : Z :=
  let a := u32 (a + (k + t + G b c d)) in
  ROTATE a s.
Definition R2 (a b c d k s t : Z) : Z :=
  let a := u32 (a + (k + t + H b c d)) in
  ROTATE a s.

(** One iteration of [for (; num--;)]; the registers hold the state at its start. *)
Definition md4_block (state : list Z) (inp : bytes) : list Z :=
  let A := zget state 0 in
  let B := zget state 1 in
  let C := zget state 2 in
  let D := zget state 3 in
  let '(l, inp) := HOST_c2l_le inp in
  let! X0 := l in
  let '(l, inp) := HOST_c2l_le inp in
  let! X1 := l in
  let! A := R0 A B C D X0 3 0 in
  let '(l, inp) := HOST_c2l_le inp in
  let! X2 := l in
  let! D := R0 D A B C X1 7 0 in
  let '(l, inp) := HOST_c2l_le inp in
  let! X3 := l in
  let! C := R0 C D A B X2 11 0 in
  let '(l, inp) := HOST_c2l_le inp in
  let! X4 := l in
  let! B := R0 B C D A X3 19 0 in
  let '(l, inp) := HOST_c2l_le inp in
  let! X5 := l in
  let! A := R0 A B C D X4 3 0 in
  let '(l, inp) := HOST_c2l_le inp in
  let! X6 := l in
  let! D := R0 D A B C X5 7 0 in
  let '(l, inp) := HOST_c2l_le inp in
  let! X7 := l in
  let! C := R0 C D A B X6 11 0 in
  let '(l, inp) := HOST_c2l_le inp in
  let! X8 := l in
  let! B := R0 B C D A X7 19 0 in
  let '(l, inp) := HOST_c2l_le inp in
  let! X9 := l in
  let! A := R0 A B C D X8 3 0 in
  let '(l, inp) := HOST_c2l_le inp in
  let! X10 := l in
  let! D := R0 D A B C X9 7 0 in
  let '(l, inp) := HOST_c2l_le inp in
  let! X11 := l in
  let! C := R0 C D A B X10 11 0 in
  let '(l, inp) := HOST_c2l_le inp in
  let! X12 := l in
  let! B := R0 B C D A X11 19 0 in
  let '(l, inp) := HOST_c2l_le inp in
  let! X13 := l in
  let! A := R0 A B C D X12 3 0 in
  let '(l, inp) := HOST_c2l_le inp in
  let! X14 := l in
  let! D := R0 D A B C X13 7 0 in
  let '(l, inp) := HOST_c2l_le inp in
  let! X15 := l in
  let! C := R0 C D A B X14 11 0 in
  let! B := R0 B C D A X15 19 0 in
  let! A := R1 A B C D X0 3 0x5a827999 in
  let! D := R1 D A B C X4 5 0x5a827999 in
  let! C := R1 C D A B X8 9 0x5a827999 in
  let! B := R1 B C D A X12 13 0x5a827999 in
  let! A := R1 A B C D X1 3 0x5a827999 in
  let! D := R1 D A B C X5 5 0x5a827999 in
  let! C := R1 C D A B X9 9 0x5a827999 in
  let! B := R1 B C D A X13 13 0x5a827999 in
  let! A := R1 A B C D X2 3 0x5a827999 in
  let! D := R1 D A B C X6 5 0x5a827999 in
  let! C := R1 C D A B X10 9 0x5a827999 in
  let! B := R1 B C D A X14 13 0x5a827999 in
  let! A := R1 A B C D X3 3 0x5a827999 in
  let! D := R1 D A B C X7 5 0x5a827999 in
  let! C := R1 C D A B X11 9 0x5a827999 in
  let! B := R1 B C D A X15 13 0x5a827999 in
  let! A := R2 A B C D X0 3 0x6ed9eba1 in
  let! D := R2 D A B C X8 9 0x6ed9eba1 in
  let! C := R2 C D A B X4 11 0x6ed9eba1 in
  let! B := R2 B C D A X12 15 0x6ed9eba1 in
  let! A := R2 A B C D X2 3 0x6ed9eba1 in
  let! D := R2 D A B C X10 9 0x6ed9eba1 in
  let! C := R2 C D A B X6 11 0x6ed9eba1 in
  let! B := R2 B C D A X14 15 0x6ed9eba1 in
  let! A := R2 A B C D X1 3 0x6ed9eba1 in
  let! D := R2 D A B C X9 9 0x6ed9eba1 in
  let! C := R2 C D A B X5 11 0x6ed9eba1 in
  let! B := R2 B C D A X13 15 0x6ed9eba1 in
  let! A := R2 A B C D X3 3 0x6ed9eba1 in
  let! D := R2 D A B C X11 9 0x6ed9eba1 in
  let! C := R2 C D A B X7 11 0x6ed9eba1 in
  let! B := R2 B C D A X15 15 0x6ed9eba1 in
  [u32 (zget state 0 + A); u32 (zget state 1 + B); u32 (zget state 2 + C); u32 (zget state 3 + D)].

(** * The context *)

Definition md4_make_string (c : HASH_CTX) : option bytes :=
  Some (HOST_l2c_le (zget (h c) 0) ++ HOST_l2c_le (zget (h c) 1) ++
        HOST_l2c_le (zget (h c) 2) ++ HOST_l2c_le (zget (h c) 3)).

#[global] Instance md4_hash : HashBlock := {
  block := md4_block;
  big_endian := false;
  make_string := md4_make_string
}.

(** MD4_CTX has no [md_len]; the template's field is left at 0. *)
Definition MD4_Init : HASH_CTX :=
  init_ctx [0x67452301; 0xefcdab89; 0x98badcfe; 0x10325476] 0.

Definition MD4_Update (ctx : HASH_CTX) (inp : bytes) (len : Z) : HASH_CTX :=
  HASH_UPDATE (H:=md4_hash) ctx inp len.
Definition MD4_Final (ctx : HASH_CTX) : option (option bytes * HASH_CTX) :=
  HASH_FINAL (H:=md4_hash) ctx.
Definition MD4_Transform (ctx : HASH_CTX) (inp : bytes) : HASH_CTX :=
  HASH_TRANSFORM (H:=md4_hash) ctx inp.

Definition MD4 (inp : bytes) (len : Z) : option bytes :=
  match MD4_Final (MD4_Update MD4_Init inp len) with
  | Some (out, _) => out
  | None => None
  end.

(** * RFC 1320 *)

(** Section 3.4: the auxiliary functions, and the 48 operations
    [a = (a + f(b,c,d) + X[k] + K) <<< s], [i] from 0, with the registers renamed
    so that each operation writes the second. *)
Definition rfc4_f (i x y z : Z) : Z :=
  if i <? 16 then Z.lor (Z.land x y) (Z.land (Z.lnot x) z)
  else if i <? 32 then Z.lor (Z.lor (Z.land x y) (Z.land x z)) (Z.land y z)
  else Z.lxor (Z.lxor x y) z.

Definition rfc4_K (i : Z) : Z :=
  if i <? 16 then 0 else if i <? 32 then 0x5a827999 else 0x6ed9eba1.

Definition rfc4_k (i : Z) : Z :=
  zget (if i <? 16 then [0; 1; 2; 3; 4; 5; 6; 7; 8; 9; 10; 11; 12; 13; 14; 15]
        else if i <? 32 then [0; 4; 8; 12; 1; 5; 9; 13; 2; 6; 10; 14; 3; 7; 11; 15]
        else [0; 8; 4; 12; 2; 10; 6; 14; 1; 9; 5; 13; 3; 11; 7; 15]) (i mod 16).

Definition rfc4_s (i : Z) : Z :=
  zget (if i <? 16 then [3; 7; 11; 19]
        else if i <? 32 then [3; 5; 9; 13]
        else [3; 9; 11; 15]) (i mod 4).

Definition md4_round (X : Z -> Z) (i : Z) (r : Z * Z * Z * Z) : Z * Z * Z * Z :=
  let '(a, b, c, d) := r in
  (d, rotl (rfc4_s i) (u32 (a + rfc4_f i b c d + X (rfc4_k i) + rfc4_K i)), b, c).

Definition md4_rfc_block (state : list Z) (inp : bytes) : list Z :=
  let '(a, b, c, d) :=
    rounds (md4_round (le_word inp)) 48 0 (zget state 0, zget state 1, zget state 2, zget state 3) in
  [u32 (zget state 0 + a); u32 (zget state 1 + b); u32 (zget state 2 + c); u32 (zget state 3 + d)].

(** * Lemmas: the block function *)

Lemma md4_F_rfc b c d : F b c d = Z.lor (Z.land b c) (Z.land (Z.lnot b) d).
Proof.
  unfold F. apply Z.bits_inj'. intros i Hi. autorewrite with bits. rewrite Z.lnot_spec by lia.
  by destruct (Z.testbit b i), (Z.testbit c i), (Z.testbit d i).
Qed.

Section Steps.
  Variables (X : Z -> Z) (i a b c d y : Z).

Ltac operation F :=
  intros Hi ->; unfold md4_round, F, rfc4_f;
  repeat match goal with |- context [if ?x <? ?y then _ else _] =>
    first [rewrite (proj2 (Z.ltb_lt x y)) by lia | rewrite (proj2 (Z.ltb_ge x y)) by lia] end;
  rewrite ?md4_F_rfc;
  lazymatch goal with |- (_, rotl _ (u32 ?p), _, _) = (_, ROTATE (u32 ?q) _, _, _) =>
    replace p with q by (unfold G, H; lia); reflexivity end.

Lemma md4_R0_spec : 0 <= i < 16 -> y = R0 a b c d (X (rfc4_k i)) (rfc4_s i) (rfc4_K i) ->
  md4_round X i (a, b, c, d) = (d, y, b, c).
Proof. operation R0. Qed.
Lemma md4_R1_spec : 16 <= i < 32 -> y = R1 a b c d (X (rfc4_k i)) (rfc4_s i) (rfc4_K i) ->
  md4_round X i (a, b, c, d) = (d, y, b, c).
Proof. operation R1. Qed.
Lemma md4_R2_spec : 32 <= i < 48 -> y = R2 a b c d (X (rfc4_k i)) (rfc4_s i) (rfc4_K i) ->
  md4_round X i (a, b, c, d) = (d, y, b, c).
Proof. operation R2. Qed.

End Steps.

(** Reads the next word and names it. *)
Ltac read Hc o o' k :=
  let l := fresh "l" in let p := fresh "p" in let E := fresh "E" in let y := fresh "y" in
  lazymatch goal with |- context [HOST_c2l_le (zdrop o ?inp)] =>
    destruct (HOST_c2l_le (zdrop o inp)) as [l p] eqn:E;
    rewrite (Hc o o' k) in E by lia; injection E as <- <- end;
  apply assign_name; intros y ->.

(** Runs the next unrolled step of the code and the next round of the RFC. *)
Ltac step spec X t :=
  let y := fresh "y" in let E := fresh "E" in
  apply assign_name; intros y E;
  lazymatch type of E with _ = _ ?a ?b ?c ?d _ _ _ =>
    rewrite rounds_S, (spec X t a b c d y ltac:(lia) E) end;
  clear E; let t' := eval cbv in (t + 1) in change (t + 1) with t'.

Lemma md4_block_rounds state inp (X : Z -> Z) :
  (forall o o' t, o = 4 * t -> o' = o + 4 -> 0 <= t < 16 ->
    HOST_c2l_le (zdrop o inp) = (X t, zdrop o' inp)) ->
  md4_block state inp =
  let '(a, b, c, d) :=
    rounds (md4_round X) 48 0 (zget state 0, zget state 1, zget state 2, zget state 3) in
  [u32 (zget state 0 + a); u32 (zget state 1 + b); u32 (zget state 2 + c); u32 (zget state 3 + d)].
Proof.
  intros Hc. unfold md4_block.
  pose proof (zdrop_0 0 inp ltac:(lia)) as H0.
  replace (HOST_c2l_le inp) with (HOST_c2l_le (zdrop 0 inp)) by (by rewrite H0).
  read Hc 0 4 0. read Hc 4 8 1. step md4_R0_spec X 0. read Hc 8 12 2.
  step md4_R0_spec X 1. read Hc 12 16 3. step md4_R0_spec X 2. read Hc 16 20 4.
  step md4_R0_spec X 3. read Hc 20 24 5. step md4_R0_spec X 4. read Hc 24 28 6.
  step md4_R0_spec X 5. read Hc 28 32 7. step md4_R0_spec X 6. read Hc 32 36 8.
  step md4_R0_spec X 7. read Hc 36 40 9. step md4_R0_spec X 8. read Hc 40 44 10.
  step md4_R0_spec X 9. read Hc 44 48 11. step md4_R0_spec X 10. read Hc 48 52 12.
  step md4_R0_spec X 11. read Hc 52 56 13. step md4_R0_spec X 12. read Hc 56 60 14.
  step md4_R0_spec X 13. read Hc 60 64 15. step md4_R0_spec X 14. step md4_R0_spec X 15.
  step md4_R1_spec X 16. step md4_R1_spec X 17. step md4_R1_spec X 18. step md4_R1_spec X 19.
  step md4_R1_spec X 20. step md4_R1_spec X 21. step md4_R1_spec X 22. step md4_R1_spec X 23.
  step md4_R1_spec X 24. step md4_R1_spec X 25. step md4_R1_spec X 26. step md4_R1_spec X 27.
  step md4_R1_spec X 28. step md4_R1_spec X 29. step md4_R1_spec X 30. step md4_R1_spec X 31.
  step md4_R2_spec X 32. step md4_R2_spec X 33. step md4_R2_spec X 34. step md4_R2_spec X 35.
  step md4_R2_spec X 36. step md4_R2_spec X 37. step md4_R2_spec X 38. step md4_R2_spec X 39.
  step md4_R2_spec X 40. step md4_R2_spec X 41. step md4_R2_spec X 42. step md4_R2_spec X 43.
  step md4_R2_spec X 44. step md4_R2_spec X 45. step md4_R2_spec X 46. step md4_R2_spec X 47.
  reflexivity.
Qed.

(** The code's block function is the one of the RFC. *)
Lemma md4_block_rfc state inp : zlen inp = 64 -> bytes_ok inp ->
  md4_block state inp = md4_rfc_block state inp.
Proof.
  intros Hl Hok.
  exact (md4_block_rounds state inp (le_word inp) (fun o o' t => c2l_le_at inp o o' t Hl Hok)).
Qed.

(** * The hash function *)

Definition md4_rfc_hash : HashBlock := {|
  block := md4_rfc_block;
  big_endian := false;
  make_string := md4_make_string
|}.

Definition md4_iv : list Z := [0x67452301; 0xefcdab89; 0x98badcfe; 0x10325476].

Definition rfc_md4 (msg : bytes) : bytes :=
  concat (map (le_bytes 4) (@md_state md4_rfc_hash md4_iv msg)).

Lemma md4_rfc_block_length st b : length (md4_rfc_block st b) = 4%nat.
Proof.
  unfold md4_rfc_block. generalize (rounds (md4_round (le_word b)) 48 0). intros F.
  by destruct (F _) as [[[? ?] ?] ?].
Qed.

Lemma md4_stream inputs : Forall input_ok inputs ->
  exists c', MD4_Final (update_all MD4_Init inputs) = Some (Some (rfc_md4 (concat inputs)), c').
Proof.
  intros Hin.
  destruct (stream_ext md4_hash md4_rfc_hash md4_iv 0 inputs eq_refl md4_block_rfc Hin)
    as (c' & Hf & Hm & _).
  assert (Hl : length (h c') = 4%nat) by
    (rewrite Hm; apply (md_state_inv (H:=md4_rfc_hash) (fun l => length l = 4%nat)), md4_rfc_block_length).
  unfold MD4_Final, MD4_Init. unfold md4_iv in Hf. rewrite Hf. exists c'. do 2 f_equal.
  unfold rfc_md4. rewrite <- Hm.
  cbn [make_string md4_hash]. unfold md4_make_string.
  destruct (h c') as [|w0 [|w1 [|w2 [|w3 [|]]]]]; try done.
  by rewrite !HOST_l2c_le_bytes.
Qed.

(** * Properties *)

(** MD4 is the function of RFC 1320, however the message is cut into
    updates: the 48 unrolled steps with the rewritten F compute the standard's
    operations over the little-endian words of the block, with its word order,
    shifts and constants, and the one-shot function agrees. *)
Theorem MD4_rfc inputs inp : Forall input_ok inputs -> input_ok inp ->
  (exists c', MD4_Final (update_all MD4_Init inputs) =
     Some (Some (rfc_md4 (concat inputs)), c')) /\
  MD4 inp (zlen inp) = Some (rfc_md4 inp).
Proof.
  intros Hin Hi. split; [by apply md4_stream|].
  destruct (md4_stream [inp]) as [c' Hc]; [by constructor|].
  cbn [concat app] in Hc. rewrite app_nil_r in Hc. unfold MD4.
  change (MD4_Update MD4_Init inp (zlen inp)) with (update_all MD4_Init [inp]).
  by rewrite Hc.
Qed.

(** "abc" and the digest RFC 1320 lists for it. *)
Lemma MD4_rfc_witness :
  MD4 [0x61; 0x62; 0x63] 3 = Some (rfc_md4 [0x61; 0x62; 0x63]) /\
  rfc_md4 [0x61; 0x62; 0x63] =
    [0xa4; 0x48; 0x01; 0x7a; 0xaf; 0x21; 0xd8; 0x52; 0x5f; 0xc1; 0x0a; 0xe8;
     0x7a; 0xa6; 0x72; 0x9d].
Proof.
  split; [|vm_compute; reflexivity].
  apply (MD4_rfc [] [0x61; 0x62; 0x63]); [constructor|].
  split; [repeat constructor; lia|split; cbn; lia].
Defined.
