(* ===== verification/Sha512.v ===== *)
(** SHA-384 and SHA-512: crypto/sha/sha512.c, with both of its C block functions,
    shown equal to FIPS 180-4. The file does not use md32_common.h: it has its own
    collector over 128-byte blocks. *)

From Stdlib Require Import ZArith Lia.
From stdpp Require Import base list option.
From S2P Require Import Prelude Mem Md32 Fips.

#[local] Ltac Zify.zify_post_hook ::= Z.div_mod_to_equations.

(** * The block functions *)

Definition K512 : list Z :=
  [0x428a2f98d728ae22; 0x7137449123ef65cd; 0xb5c0fbcfec4d3b2f; 0xe9b5dba58189dbbc;
   0x3956c25bf348b538; 0x59f111f1b605d019; 0x923f82a4af194f9b; 0xab1c5ed5da6d8118;
   0xd807aa98a3030242; 0x12835b0145706fbe; 0x243185be4ee4b28c; 0x550c7dc3d5ffb4e2;
   0x72be5d74f27b896f; 0x80deb1fe3b1696b1; 0x9bdc06a725c71235; 0xc19bf174cf692694;
   0xe49b69c19ef14ad2; 0xefbe4786384f25e3; 0x0fc19dc68b8cd5b5; 0x240ca1cc77ac9c65;
   0x2de92c6f592b0275; 0x4a7484aa6ea6e483; 0x5cb0a9dcbd41fbd4; 0x76f988da831153b5;
   0x983e5152ee66dfab; 0xa831c66d2db43210; 0xb00327c898fb213f; 0xbf597fc7beef0ee4;
   0xc6e00bf33da88fc2; 0xd5a79147930aa725; 0x06ca6351e003826f; 0x142929670a0e6e70;
   0x27b70a8546d22ffc; 0x2e1b21385c26c926; 0x4d2c6dfc5ac42aed; 0x53380d139d95b3df;
   0x650a73548baf63de; 0x766a0abb3c77b2a8; 0x81c2c92e47edaee6; 0x92722c851482353b;
   0xa2bfe8a14cf10364; 0xa81a664bbc423001; 0xc24b8b70d0f89791; 0xc76c51a30654be30;
   0xd192e819d6ef5218; 0xd69906245565a910; 0xf40e35855771202a; 0x106aa07032bbd1b8;
   0x19a4c116b8d2d0c8; 0x1e376c085141ab53; 0x2748774cdf8eeb99; 0x34b0bcb5e19b48a8;
   0x391c0cb3c5c95a63; 0x4ed8aa4ae3418acb; 0x5b9cca4f7763e373; 0x682e6ff3d6b2b8a3;
   0x748f82ee5defb2fc; 0x78a5636f43172f60; 0x84c87814a1f0ab72; 0x8cc702081a6439ec;
   0x90befffa23631e28; 0xa4506cebde82bde9; 0xbef9a3f7b2c67915; 0xc67178f2e372532b;
   0xca273eceea26619c; 0xd186b8c721c0c207; 0xeada7dd6cde0eb1e; 0xf57d4f7fee6ed178;
   0x06f067aa72176fba; 0x0a637dc5a2c898a6; 0x113f9804bef90dae; 0x1b710b35131c471b;
   0x28db77f523047d84; 0x32caab7b40c72493; 0x3c9ebe0a15c9bebc; 0x431d67c49c100d4c;
   0x4cc5d4becb3e42b6; 0x597f299cfc657e2a; 0x5fcb6fab3ad6faec; 0x6c44198c4a475817].

(** [W[i]] is read through [B], which takes its bytes in the order of the memory. *)
Definition B (x : bytes) (j : Z) : Z := u64 (Z.shiftl (zget x j) ((7 - j) * 8)).
Definition PULL64 (x : bytes) : Z :=
  Z.lor (Z.lor (Z.lor (Z.lor (Z.lor (Z.lor (Z.lor
    (B x 0) (B x 1)) (B x 2)) (B x 3)) (B x 4)) (B x 5)) (B x 6)) (B x 7).

Definition ROTR (x s : Z) : Z := Z.lor (Z.shiftr x s) (u64 (Z.shiftl x (64 - s))).

Definition Sigma0 (x : Z) : Z := Z.lxor (Z.lxor (ROTR x 28) (ROTR x 34)) (ROTR x 39).
Definition Sigma1 (x : Z) : Z := Z.lxor (Z.lxor (ROTR x 14) (ROTR x 18)) (ROTR x 41).
Definition sigma0 (x : Z) : Z := Z.lxor (Z.lxor (ROTR x 1) (ROTR x 8)) (Z.shiftr x 7).
Definition sigma1 (x : Z) : Z := Z.lxor (Z.lxor (ROTR x 19) (ROTR x 61)) (Z.shiftr x 6).

Definition Ch (x y z : Z) : Z := Z.lxor (Z.land x y) (Z.land (u64 (Z.lnot x)) z).
Definition Maj (x y z : Z) : Z := Z.lxor (Z.lxor (Z.land x y) (Z.land x z)) (Z.land y z).

(** The variant for 32-bit Intel keeps the registers and the schedule in one array
    through which the pointer [F] moves down; [f] is the index it points to. *)
Record i386_state := mk_i386 { xA : Z; xE : Z; xX : list Z; xF : Z }.

(** What both loop bodies do once [T] holds the word of the schedule. *)
Definition i386_step (s : i386_state) (i T : Z) : i386_state :=
  let '(mk_i386 A E X f) := s in
  let F k := f + k in
  let X := <[Z.to_nat (F 0) := A]> X in
  let X := <[Z.to_nat (F 4) := E]> X in
  let X := <[Z.to_nat (F 8) := T]> X in
  let T := u64 (T + (zget X (F 7) + Sigma1 E + Ch E (zget X (F 5)) (zget X (F 6)) + zget K512 i)) in
  let E := u64 (zget X (F 3) + T) in
  let A := u64 (T + Sigma0 A + Maj A (zget X (F 1)) (zget X (F 2))) in
  mk_i386 A E X (f - 1).

(** The body of [for (i = 0; i < 16; i++, F--)]. *)
Definition i386_00_15 (W : bytes) (s : i386_state) (i : Z) : i386_state :=
  i386_step s i (PULL64 (zdrop (8 * i) W)).

(** The body of [for (; i < 80; i++, F--)]. *)
Definition i386_16_79 (s : i386_state) (i : Z) : i386_state :=
  let F k := zget (xX s) (xF s + k) in
  let T := sigma0 (F (8 + 16 - 1)) in
  let T := u64 (T + sigma1 (F (8 + 16 - 14))) in
  let T := u64 (T + (F (8 + 16) + F (8 + 16 - 9))) in
  i386_step s i T.

Definition zseq (a n : nat) : list Z := map Z.of_nat (seq a n).

(** One iteration of [while (num--)]. *)
Definition sha512_block_i386 (state : list Z) (W : bytes) : list Z :=
  let X := zrepeat (9 + 80) 0 in
  let f := 80 in
  let A := zget state 0 in
  let X := <[Z.to_nat (f + 1) := zget state 1]> X in
  let X := <[Z.to_nat (f + 2) := zget state 2]> X in
  let X := <[Z.to_nat (f + 3) := zget state 3]> X in
  let E := zget state 4 in
  let X := <[Z.to_nat (f + 5) := zget state 5]> X in
  let X := <[Z.to_nat (f + 6) := zget state 6]> X in
  let X := <[Z.to_nat (f + 7) := zget state 7]> X in
  let s := fold_left (i386_00_15 W) (zseq 0 16) (mk_i386 A E X f) in
  let '(mk_i386 A E X f) := fold_left i386_16_79 (zseq 16 64) s in
  [u64 (zget state 0 + A); u64 (zget state 1 + zget X (f + 1)); u64 (zget state 2 + zget X (f + 2));
   u64 (zget state 3 + zget X (f + 3)); u64 (zget state 4 + E); u64 (zget state 5 + zget X (f + 5));
   u64 (zget state 6 + zget X (f + 6)); u64 (zget state 7 + zget X (f + 7))].

(** The other variant. The macro assigns [d] and [h]. *)
Definition ROUND_00_15 (T1 i a b c d e f g h : Z) : Z * Z :=
  let T1 := u64 (T1 + u64 (h + Sigma1 e + Ch e f g + zget K512 i)) in
  let h := u64 (Sigma0 a + Maj a b c) in
  let d := u64 (d + T1) in
  let h := u64 (h + T1) in
  (d, h).

(** The macro assigns [d], [h] and an element of [X]. *)
Definition ROUND_16_80 (i j a b c d e f g h : Z) (X : list Z) : Z * Z * list Z :=
  let s0 := zget X (Z.land (j + 1) 0x0f) in
  let s0 := sigma0 s0 in
  let s1 := zget X (Z.land (j + 14) 0x0f) in
  let s1 := sigma1 s1 in
  let T1 := u64 (zget X (Z.land j 0x0f) + (s0 + s1 + zget X (Z.land (j + 9) 0x0f))) in
  let X := <[Z.to_nat (Z.land j 0x0f) := T1]> X in
  let '(d, h) := ROUND_00_15 T1 (i + j) a b c d e f g h in
  (d, h, X).

(** [T1 = X[i] = PULL64(W[i])]. *)
Definition load (i : Z) (W : bytes) (X : list Z) : Z * list Z :=
  let T1 := PULL64 (zdrop (8 * i) W) in
  (T1, <[Z.to_nat i := T1]> X).

(** The body of [for (i = 16; i < 80; i += 16)]. *)
Definition rounds_16_80 (s : Z * Z * Z * Z * Z * Z * Z * Z * list Z) (i : Z) :
    Z * Z * Z * Z * Z * Z * Z * Z * list Z :=
  let '(a, b, c, d, e, f, g, h, X) := s in
  let '(d, h, X) := ROUND_16_80 i 0 a b c d e f g h X in
  let '(c, g, X) := ROUND_16_80 i 1 h a b c d e f g X in
  let '(b, f, X) := ROUND_16_80 i 2 g h a b c d e f X in
  let '(a, e, X) := ROUND_16_80 i 3 f g h a b c d e X in
  let '(h, d, X) := ROUND_16_80 i 4 e f g h a b c d X in
  let '(g, c, X) := ROUND_16_80 i 5 d e f g h a b c X in
  let '(f, b, X) := ROUND_16_80 i 6 c d e f g h a b X in
  let '(e, a, X) := ROUND_16_80 i 7 b c d e f g h a X in
  let '(d, h, X) := ROUND_16_80 i 8 a b c d e f g h X in
  let '(c, g, X) := ROUND_16_80 i 9 h a b c d e f g X in
  let '(b, f, X) := ROUND_16_80 i 10 g h a b c d e f X in
  let '(a, e, X) := ROUND_16_80 i 11 f g h a b c d e X in
  let '(h, d, X) := ROUND_16_80 i 12 e f g h a b c d X in
  let '(g, c, X) := ROUND_16_80 i 13 d e f g h a b c X in
  let '(f, b, X) := ROUND_16_80 i 14 c d e f g h a b X in
  let '(e, a, X) := ROUND_16_80 i 15 b c d e f g h a X in
  (a, b, c, d, e, f, g, h, X).

(** One iteration of [while (num--)]. *)
Definition sha512_block_generic (state : list Z) (W : bytes) : list Z :=
  let a := zget state 0 in
  let b := zget state 1 in
  let c := zget state 2 in
  let d := zget state 3 in
  let e := zget state 4 in
  let f := zget state 5 in
  let g := zget state 6 in
  let h := zget state 7 in
  let X := zrepeat 16 0 in
  let '(T1, X) := load 0 W X in
  let '(d, h) := ROUND_00_15 T1 0 a b c d e f g h in
  let '(T1, X) := load 1 W X in
  let '(c, g) := ROUND_00_15 T1 1 h a b c d e f g in
  let '(T1, X) := load 2 W X in
  let '(b, f) := ROUND_00_15 T1 2 g h a b c d e f in
  let '(T1, X) := load 3 W X in
  let '(a, e) := ROUND_00_15 T1 3 f g h a b c d e in
  let '(T1, X) := load 4 W X in
  let '(h, d) := ROUND_00_15 T1 4 e f g h a b c d in
  let '(T1, X) := load 5 W X in
  let '(g, c) := ROUND_00_15 T1 5 d e f g h a b c in
  let '(T1, X) := load 6 W X in
  let '(f, b) := ROUND_00_15 T1 6 c d e f g h a b in
  let '(T1, X) := load 7 W X in
  let '(e, a) := ROUND_00_15 T1 7 b c d e f g h a in
  let '(T1, X) := load 8 W X in
  let '(d, h) := ROUND_00_15 T1 8 a b c d e f g h in
  let '(T1, X) := load 9 W X in
  let '(c, g) := ROUND_00_15 T1 9 h a b c d e f g in
  let '(T1, X) := load 10 W X in
  let '(b, f) := ROUND_00_15 T1 10 g h a b c d e f in
  let '(T1, X) := load 11 W X in
  let '(a, e) := ROUND_00_15 T1 11 f g h a b c d e in
  let '(T1, X) := load 12 W X in
  let '(h, d) := ROUND_00_15 T1 12 e f g h a b c d in
  let '(T1, X) := load 13 W X in
  let '(g, c) := ROUND_00_15 T1 13 d e f g h a b c in
  let '(T1, X) := load 14 W X in
  let '(f, b) := ROUND_00_15 T1 14 c d e f g h a b in
  let '(T1, X) := load 15 W X in
  let '(e, a) := ROUND_00_15 T1 15 b c d e f g h a in
  let '(a, b, c, d, e, f, g, h, X) :=
    fold_left rounds_16_80 [16; 32; 48; 64] (a, b, c, d, e, f, g, h, X) in
  [u64 (zget state 0 + a); u64 (zget state 1 + b); u64 (zget state 2 + c);
   u64 (zget state 3 + d); u64 (zget state 4 + e); u64 (zget state 5 + f);
   u64 (zget state 6 + g); u64 (zget state 7 + h)].

(** * The contexts *)

(** What the preprocessor decides. *)
Class Platform := {
  i386 : bool;
  SHA512_BLOCK_CAN_MANAGE_UNALIGNED_DATA : bool
}.

Record SHA512_CTX := mk_SHA512_CTX {
  h : list Z;
  Nl : Z;
  Nh : Z;
  u : bytes;
  num : Z;
  md_len : Z
}.

Definition set_h (c : SHA512_CTX) (x : list Z) : SHA512_CTX :=
  mk_SHA512_CTX x (Nl c) (Nh c) (u c) (num c) (md_len c).
Definition set_u (c : SHA512_CTX) (x : bytes) (n : Z) : SHA512_CTX :=
  mk_SHA512_CTX (h c) (Nl c) (Nh c) x n (md_len c).

Definition SHA512_CBLOCK := 128.
Definition SHA384_DIGEST_LENGTH := 48.
Definition SHA512_DIGEST_LENGTH := 64.

(** [u] is left as it was. *)
Definition SHA384_Init (sha : SHA512_CTX) : SHA512_CTX :=
  mk_SHA512_CTX
    [0xcbbb9d5dc1059ed8; 0x629a292a367cd507; 0x9159015a3070dd17; 0x152fecd8f70e5939;
     0x67332667ffc00b31; 0x8eb44a8768581511; 0xdb0c2e0d64f98fa7; 0x47b5481dbefa4fa4]
    0 0 (u sha) 0 SHA384_DIGEST_LENGTH.

Definition SHA512_Init (sha : SHA512_CTX) : SHA512_CTX :=
  mk_SHA512_CTX
    [0x6a09e667f3bcc908; 0xbb67ae8584caa73b; 0x3c6ef372fe94f82b; 0xa54ff53a5f1d36f1;
     0x510e527fade682d1; 0x9b05688c2b3e6c1f; 0x1f83d9abfb41bd6b; 0x5be0cd19137e2179]
    0 0 (u sha) 0 SHA512_DIGEST_LENGTH.

Section Functions.
  Context {P : Platform}.

Definition sha512_block : list Z -> bytes -> list Z :=
  if i386 then sha512_block_i386 else sha512_block_generic.

Definition sha512_block_data_order (state : list Z) (W : bytes) (num : Z) : list Z :=
  hash_blocks SHA512_CBLOCK sha512_block state W (Z.to_nat num).

(** [addr] is the address of the argument: the code tests its alignment. *)
Definition must_copy (addr : Z) : bool :=
  negb SHA512_BLOCK_CAN_MANAGE_UNALIGNED_DATA && negb (addr mod 8 =? 0).

Definition SHA512_Transform (c : SHA512_CTX) (addr : Z) (blk : bytes) : SHA512_CTX :=
  if must_copy addr then
    let c := set_u c (ztake SHA512_CBLOCK blk) (num c) in
    set_h c (sha512_block_data_order (h c) (u c) 1)
  else set_h c (sha512_block_data_order (h c) blk 1).

(** [while (len >= sizeof(c->u))] of the unaligned case. *)
Fixpoint copy_blocks (fuel : nat) (c : SHA512_CTX) (inp : bytes) (len : Z) :
    SHA512_CTX * bytes * Z :=
  match fuel with
  | O => (c, inp, len)
  | S fuel =>
      if len >=? SHA512_CBLOCK then
        let c := set_u c (ztake SHA512_CBLOCK inp) (num c) in
        let c := set_h c (sha512_block_data_order (h c) (u c) 1) in
        copy_blocks fuel c (zdrop SHA512_CBLOCK inp) (len - SHA512_CBLOCK)
      else (c, inp, len)
  end.

(** The whole blocks, then what is left. *)
Definition update_rest (c : SHA512_CTX) (addr : Z) (inp : bytes) (len : Z) : SHA512_CTX :=
  let '(c, inp, len) :=
    if len >=? SHA512_CBLOCK then
      if must_copy addr then copy_blocks (Z.to_nat len) c inp len
      else
        (set_h c (sha512_block_data_order (h c) inp (len / SHA512_CBLOCK)),
         zdrop (len - len mod SHA512_CBLOCK) inp, len mod SHA512_CBLOCK)
    else (c, inp, len) in
  if negb (len =? 0) then set_u c (zsplice (u c) 0 (ztake len inp)) len else c.

Definition SHA512_Update (c : SHA512_CTX) (addr : Z) (inp : bytes) (len : Z) : SHA512_CTX :=
  if len =? 0 then c
  else
    let l := u64 (Nl c + u64 (Z.shiftl len 3)) in
    let nh := if l <? Nl c then u64 (Nh c + 1) else Nh c in
    let nh := u64 (nh + Z.shiftr len 61) in
    let c := mk_SHA512_CTX (h c) l nh (u c) (num c) (md_len c) in
    if negb (num c =? 0) then
      let n := SHA512_CBLOCK - num c in
      if len <? n then
        set_u c (zsplice (u c) (num c) (ztake len inp)) (u32 (num c + u32 len))
      else
        let c := set_u c (zsplice (u c) (num c) (ztake n inp)) 0 in
        let c := set_h c (sha512_block_data_order (h c) (u c) 1) in
        update_rest c (addr + n) (zdrop n inp) (len - n)
    else update_rest c addr inp len.

(** The eight bytes a word is written as. *)
Definition put64 (t : Z) : bytes :=
  [u8 (Z.shiftr t 56); u8 (Z.shiftr t 48); u8 (Z.shiftr t 40); u8 (Z.shiftr t 32);
   u8 (Z.shiftr t 24); u8 (Z.shiftr t 16); u8 (Z.shiftr t 8); u8 t].

(** The loop [for (n = 0; n < nn; n++)] that writes the digest. *)
Definition sha512_words (c : SHA512_CTX) (nn : Z) : bytes :=
  concat (map (fun n => put64 (zget (h c) (Z.of_nat n))) (seq 0 (Z.to_nat nn))).

(** [md] says whether the output pointer is not NULL. The result is the digest
    ([None] for the return value 0) and the context; writing past the buffer is
    undefined. *)
Definition SHA512_Final (md : bool) (sha : SHA512_CTX) : option (option bytes * SHA512_CTX) :=
  let n := num sha in
  if negb (n <? SHA512_CBLOCK) then None
  else
    let p := zsplice (u sha) n [0x80] in
    let n := n + 1 in
    let '(hh, p, n) :=
      if n >? SHA512_CBLOCK - 16 then
        let p := zsplice p n (zrepeat (SHA512_CBLOCK - n) 0) in
        (sha512_block_data_order (h sha) p 1, p, 0)
      else (h sha, p, n) in
    let p := zsplice p n (zrepeat (SHA512_CBLOCK - 16 - n) 0) in
    let p := zsplice p (SHA512_CBLOCK - 16) (put64 (Nh sha) ++ put64 (Nl sha)) in
    let sha := mk_SHA512_CTX (sha512_block_data_order hh p 1) (Nl sha) (Nh sha) p (num sha) (md_len sha) in
    Some (if negb md then None
          else if md_len sha =? SHA384_DIGEST_LENGTH then
            Some (sha512_words sha (SHA384_DIGEST_LENGTH / 8))
          else if md_len sha =? SHA512_DIGEST_LENGTH then
            Some (sha512_words sha (SHA512_DIGEST_LENGTH / 8))
          else None, sha).

Definition SHA384_Update (sha : SHA512_CTX) (addr : Z) (inp : bytes) (len : Z) : SHA512_CTX :=
  SHA512_Update sha addr inp len.
Definition SHA384_Final (md : bool) (sha : SHA512_CTX) : option (option bytes * SHA512_CTX) :=
  SHA512_Final md sha.

(** [ctx] is what the stack holds; a NULL [out] is replaced by a static buffer, so
    [md] is never NULL. *)
Definition SHA384 (ctx : SHA512_CTX) (addr : Z) (inp : bytes) (len : Z) : option bytes :=
  match SHA384_Final true (SHA384_Update (SHA384_Init ctx) addr inp len) with
  | Some (out, _) => out
  | None => None
  end.
Definition SHA512 (ctx : SHA512_CTX) (addr : Z) (inp : bytes) (len : Z) : option bytes :=
  match SHA512_Final true (SHA512_Update (SHA512_Init ctx) addr inp len) with
  | Some (out, _) => out
  | None => None
  end.

End Functions.

(** * Lemmas: the block functions *)

Lemma lor_word8 a b c d e f g h : Forall is_byte [a; b; c; d; e; f; g; h] ->
  Z.lor (Z.lor (Z.lor (Z.lor (Z.lor (Z.lor (Z.lor
    (Z.shiftl a 56) (Z.shiftl b 48)) (Z.shiftl c 40)) (Z.shiftl d 32))
    (Z.shiftl e 24)) (Z.shiftl f 16)) (Z.shiftl g 8)) h =
  be_val [a; b; c; d; e; f; g; h].
Proof.
  intros Hb. unfold is_u in Hb. rewrite !Forall_cons_iff in Hb.
  destruct Hb as (? & ? & ? & ? & ? & ? & ? & ? & _).
  rewrite <- !Z.lor_assoc.
  rewrite (lor_shiftl_add g h 8), (lor_shiftl_add f _ 16), (lor_shiftl_add e _ 24),
    (lor_shiftl_add d _ 32), (lor_shiftl_add c _ 40), (lor_shiftl_add b _ 48),
    (lor_shiftl_add a _ 56) by (lia || (split; lia)).
  unfold be_val. cbn [fold_left]. lia.
Qed.

Lemma zget_take8 c : 8 <= zlen c ->
  ztake 8 c = [zget c 0; zget c 1; zget c 2; zget c 3; zget c 4; zget c 5; zget c 6; zget c 7].
Proof.
  destruct c as [|x0 [|x1 [|x2 [|x3 [|x4 [|x5 [|x6 [|x7 c]]]]]]]]; cbn; try lia. done.
Qed.

Lemma B_shift x j : bytes_ok x -> 0 <= j <= 7 -> B x j = Z.shiftl (zget x j) ((7 - j) * 8).
Proof.
  intros Hx Hj. unfold B. apply u64_small. pose proof (zget_byte x j Hx) as [H0 H1].
  rewrite Z.shiftl_mul_pow2 by lia.
  assert (0 < 2 ^ ((7 - j) * 8)) by (apply Z.pow_pos_nonneg; lia).
  assert (2 ^ ((7 - j) * 8) <= 2 ^ 56) by (apply Z.pow_le_mono_r; lia).
  split; [nia|]. change (2 ^ 8) with 256 in H1. change (2 ^ 64) with (256 * 2 ^ 56). nia.
Qed.

Lemma PULL64_val x : 8 <= zlen x -> bytes_ok x -> PULL64 x = be_val (ztake 8 x).
Proof.
  intros Hl Hx. unfold PULL64. rewrite !B_shift, zget_take8 by (done || lia).
  rewrite <- lor_word8; [change ((7 - 7) * 8) with 0; by rewrite Z.shiftl_0_r|].
  rewrite !Forall_cons_iff. split_and!; try (by apply zget_byte). constructor.
Qed.

(** Word [i] of a block. *)
Lemma PULL64_word inp i : zlen inp = 128 -> bytes_ok inp -> 0 <= i < 16 ->
  PULL64 (zdrop (8 * i) inp) = zget (fips_W fips512 inp) i.
Proof.
  intros Hl Hok Hi. rewrite fips_W_word by done.
  by rewrite PULL64_val by (auto with bssl; zlia).
Qed.

Lemma Sigma0_512 x : Sigma0 x = big_sigma fips512 (r_Sigma0 fips512) x.
Proof. reflexivity. Qed.
Lemma Sigma1_512 x : Sigma1 x = big_sigma fips512 (r_Sigma1 fips512) x.
Proof. reflexivity. Qed.
Lemma sigma0_512 x : sigma0 x = small_sigma fips512 (r_sigma0 fips512) x.
Proof. reflexivity. Qed.
Lemma sigma1_512 x : sigma1 x = small_sigma fips512 (r_sigma1 fips512) x.
Proof. reflexivity. Qed.

Lemma K512_fips : K512 = constants fips512.
Proof. reflexivity. Qed.

(** Two sums that agree modulo 2^64. *)
Ltac words := rewrite <- ?Z.add_assoc, ?u64_add_r, ?u64_add_l; f_equal; lia.

Lemma fips_round_512 W i a b c d e f g h :
  fips_round fips512 W i (a, b, c, d, e, f, g, h) =
  (u64 (h + Sigma1 e + Ch e f g + zget K512 i + W i + (Sigma0 a + Maj a b c)), a, b, c,
   u64 (d + (h + Sigma1 e + Ch e f g + zget K512 i + W i)), e, f, g).
Proof. rewrite K512_fips, Sigma0_512, Sigma1_512. reflexivity. Qed.

Lemma fips_next_512 W t : fips_next fips512 W t =
  u64 (sigma1 (W (t - 2)) + W (t - 7) + sigma0 (W (t - 15)) + W (t - 16)).
Proof. reflexivity. Qed.

(** ** The array of the 32-bit variant *)

(** Before round [i] the array holds the registers and the schedule so far. *)
Definition i386_inv (W : Z -> Z) (i : Z) (s : i386_state) (r : regs) : Prop :=
  let '(a, b, c, d, e, f, g, h) := r in
  0 <= i <= 80 /\ xF s = 80 - i /\ length (xX s) = 89%nat /\ xA s = a /\ xE s = e /\
  zget (xX s) (xF s + 1) = b /\ zget (xX s) (xF s + 2) = c /\ zget (xX s) (xF s + 3) = d /\
  zget (xX s) (xF s + 5) = f /\ zget (xX s) (xF s + 6) = g /\ zget (xX s) (xF s + 7) = h /\
  forall k, 1 <= k <= i -> zget (xX s) (xF s + 8 + k) = W (i - k).

Lemma i386_step_spec W i s r : i386_inv W i s r -> i < 80 ->
  i386_inv W (i + 1) (i386_step s i (W i)) (fips_round fips512 W i r).
Proof.
  destruct r as [[[[[[[a b] c] d] e] f] g] h], s as [A E X F0]. cbn [i386_inv xF xX xA xE].
  intros (Hi & -> & HX & -> & -> & Hb & Hc & Hd & Hf & Hg & Hh & HW) Hi80.
  rewrite fips_round_512. unfold i386_step.
  assert (Hl : forall m v (Y : list Z), length Y = 89%nat -> length (<[Z.to_nat m := v]> Y) = 89%nat)
    by (intros; by rewrite length_insert).
  set (X3 := <[Z.to_nat (80 - i + 8) := W i]> (<[Z.to_nat (80 - i + 4) := e]>
               (<[Z.to_nat (80 - i + 0) := a]> X))).
  assert (H3 : forall j, 0 <= j -> zget X3 j =
    if j =? 80 - i + 8 then W i else if j =? 80 - i + 4 then e else if j =? 80 - i + 0 then a else zget X j).
  { intros j Hj. unfold X3. by rewrite !zget_set by (rewrite ?length_insert; lia). }
  assert (HX3 : length X3 = 89%nat) by (unfold X3; auto).
  assert (H3' : forall k, 0 < k < 8 -> k <> 4 -> zget X3 (80 - i + k) = zget X (80 - i + k)).
  { intros k Hk Hk4. rewrite H3 by lia. repeat case_if; lia || done. }
  clearbody X3. cbn zeta.
  rewrite !H3', Hb, Hc, Hd, Hf, Hg, Hh by lia. cbn [i386_inv xF xX xA xE].
  split_and!; try lia; try done; try words.
  all: rewrite ?H3 by lia.
  all: try (repeat case_if; (lia || (rewrite <- ?Hb, <- ?Hc, <- ?Hf, <- ?Hg; f_equal; lia) || done)).
  intros k Hk. rewrite H3 by lia. repeat case_if; try lia; [f_equal; lia|].
  replace (80 - i - 1 + 8 + k) with (80 - i + 8 + (k - 1)) by lia. rewrite HW by lia. f_equal. lia.
Qed.

Lemma i386_next W i s r : i386_inv W i s r -> 16 <= i ->
  i386_16_79 s i = i386_step s i (fips_next fips512 W i).
Proof.
  destruct r as [[[[[[[a b] c] d] e] f] g] h], s as [A E X F0].
  intros (Hi & Hf & HX & _ & _ & _ & _ & _ & _ & _ & _ & HW) Hi16. cbn [xF xX] in *.
  rewrite fips_next_512. unfold i386_16_79. cbn [xF xX xA xE]. cbn zeta. f_equal.
  replace (F0 + (8 + 16 - 1)) with (F0 + 8 + 15) by lia.
  replace (F0 + (8 + 16 - 14)) with (F0 + 8 + 2) by lia.
  replace (F0 + (8 + 16)) with (F0 + 8 + 16) by lia.
  replace (F0 + (8 + 16 - 9)) with (F0 + 8 + 7) by lia.
  rewrite !HW by lia. words.
Qed.

(** A run of either loop whose every body takes the schedule's word. *)
Lemma i386_loop W body n i s r : i386_inv W (Z.of_nat i) s r -> (i + n <= 80)%nat ->
  (forall j s r, (i <= j < i + n)%nat -> i386_inv W (Z.of_nat j) s r ->
     body s (Z.of_nat j) = i386_step s (Z.of_nat j) (W (Z.of_nat j))) ->
  i386_inv W (Z.of_nat (i + n)) (fold_left body (zseq i n) s)
    (rounds (fips_round fips512 W) n (Z.of_nat i) r).
Proof.
  revert i s r. induction n as [|n IH]; intros i s r Hs Hn Hbody.
  - by rewrite Nat.add_0_r.
  - unfold zseq. cbn [seq map]. rewrite fold_left_cons, rounds_S.
    rewrite (Hbody i s r ltac:(lia) Hs).
    replace (i + S n)%nat with (S i + n)%nat by lia. replace (Z.of_nat i + 1) with (Z.of_nat (S i)) by lia.
    apply IH; [|lia|].
    + replace (Z.of_nat (S i)) with (Z.of_nat i + 1) by lia. apply i386_step_spec; [done|lia].
    + intros j s' r' Hj. apply Hbody. lia.
Qed.

Lemma i386_block_rounds state inp (W : Z -> Z) :
  (forall i, 0 <= i < 16 -> PULL64 (zdrop (8 * i) inp) = W i) ->
  (forall t, 16 <= t < 80 -> W t = fips_next fips512 W t) ->
  sha512_block_i386 state inp =
  finish fips512 state (rounds (fips_round fips512 W) 80 0 (start state)).
Proof.
  intros Hload Hnext. unfold sha512_block_i386. set (X0 := <[Z.to_nat (80 + 7) := _]> _).
  assert (H0 : i386_inv W (Z.of_nat 0) (mk_i386 (zget state 0) (zget state 4) X0 80) (start state)).
  { unfold start. split_and!; try reflexivity; try lia; try (intros; lia). }
  generalize dependent (mk_i386 (zget state 0) (zget state 4) X0 80). intros s0 H0.
  assert (H1 : i386_inv W (Z.of_nat 16) (fold_left (i386_00_15 inp) (zseq 0 16) s0)
                 (rounds (fips_round fips512 W) 16 0 (start state))).
  { apply (i386_loop W (i386_00_15 inp) 16 0 s0 _ H0); [lia|].
    intros j s r Hj _. unfold i386_00_15. by rewrite Hload by lia. }
  generalize dependent (fold_left (i386_00_15 inp) (zseq 0 16) s0). intros s1 H1.
  change 80%nat with (16 + 64)%nat. rewrite rounds_add. change (0 + Z.of_nat 16) with (Z.of_nat 16).
  generalize dependent (rounds (fips_round fips512 W) 16 0 (start state)). intros r1 H1.
  pose proof (i386_loop W i386_16_79 64 16 s1 r1 H1 ltac:(lia)) as H2.
  assert (H3 : i386_inv W (Z.of_nat 80) (fold_left i386_16_79 (zseq 16 64) s1)
                 (rounds (fips_round fips512 W) 64 (Z.of_nat 16) r1)).
  { apply H2. intros j s r Hj Hs. rewrite (i386_next W _ _ r Hs), <- Hnext by lia. done. }
  clear H2. generalize dependent (rounds (fips_round fips512 W) 64 (Z.of_nat 16) r1). intros r H3.
  destruct (fold_left i386_16_79 (zseq 16 64) s1) as [A E X f].
  destruct r as [[[[[[[a b] c] d] e] ff] g] hh].
  destruct H3 as (_ & Hf & _ & HA & HE & Hb & Hc & Hd & Hff & Hg & Hhh & _).
  cbn [xF xX xA xE] in *. by rewrite HA, HE, Hb, Hc, Hd, Hff, Hg, Hhh.
Qed.

(** The 32-bit variant's block function is the one of FIPS 180-4. *)
Lemma sha512_block_i386_fips state inp : zlen inp = 128 -> bytes_ok inp ->
  sha512_block_i386 state inp = fips_block fips512 state inp.
Proof.
  intros Hl Hok.
  exact (i386_block_rounds state inp (zget (fips_W fips512 inp))
    (fun i => PULL64_word inp i Hl Hok) (fips_W_next fips512 inp)).
Qed.

(** ** The ring of the other variant *)

Lemma ROUND_00_15_512 W i a b c d e f g h d' h' :
  ROUND_00_15 (W i) i a b c d e f g h = (d', h') ->
  fips_round fips512 W i (a, b, c, d, e, f, g, h) = (h', a, b, c, d', e, f, g).
Proof.
  unfold ROUND_00_15. intros [= <- <-]. rewrite fips_round_512.
  rewrite (u64_add_r (W i)), !u64_add_r, !u64_add_l.
  match goal with |- (u64 ?x, _, _, _, u64 ?y, _, _, _) = (u64 ?x', _, _, _, u64 ?y', _, _, _) =>
    replace x with x' by lia; replace y with y' by lia end.
  done.
Qed.

(** The macro indexes the ring by [j], which is [i + j] modulo 16. *)
Lemma ROUND_16_80_spec W i j a b c d e f g h X d' h' X' :
  window X W (i + j) -> i mod 16 = 0 -> 0 <= j < 16 -> W (i + j) = fips_next fips512 W (i + j) ->
  ROUND_16_80 i j a b c d e f g h X = (d', h', X') ->
  window X' W (i + (j + 1)) /\
  fips_round fips512 W (i + j) (a, b, c, d, e, f, g, h) = (h', a, b, c, d', e, f, g).
Proof.
  intros Hw Hi Hj HW. unfold ROUND_16_80.
  assert (Hland : forall k, Z.land (j + k) 0x0f = Z.land (i + j + k) 0x0f).
  { intros k. rewrite !land_15. replace (i + j + k) with (j + k + (i / 16) * 16) by (clear -Hi; lia).
    symmetry. apply Z.mod_add. lia. }
  assert (Hland0 : Z.land j 0x0f = Z.land (i + j) 0x0f).
  { pose proof (Hland 0) as H0. by rewrite !Z.add_0_r in H0. }
  rewrite !Hland, Hland0.
  rewrite (window_get0 X W), !(window_get X W) by (done || lia).
  assert (HT : u64 (W (i + j - 16) + (sigma0 (W (i + j - 16 + 1)) + sigma1 (W (i + j - 16 + 14)) +
                 W (i + j - 16 + 9))) = W (i + j)).
  { rewrite HW, fips_next_512. f_equal.
    replace (i + j - 16 + 14) with (i + j - 2) by lia. replace (i + j - 16 + 9) with (i + j - 7) by lia.
    replace (i + j - 16 + 1) with (i + j - 15) by lia. lia. }
  rewrite HT. destruct (ROUND_00_15 (W (i + j)) (i + j) a b c d e f g h) as [d1 h1] eqn:E.
  intros [= <- <- <-]. rewrite Z.add_assoc.
  split; [by apply window_set|by apply ROUND_00_15_512].
Qed.

(** Runs the next unrolled round of the code and the next round of FIPS 180-4. *)
Ltac step_16_80 k :=
  match goal with
  | Hw : window ?X ?W _ |- context [ROUND_16_80 ?i k ?a ?b ?c ?d ?e ?f ?g ?h ?X] =>
      let d' := fresh "d" in let h' := fresh "h" in let X' := fresh "X" in
      let E := fresh "E" in let Hr := fresh "Hr" in
      destruct (ROUND_16_80 i k a b c d e f g h X) as [[d' h'] X'] eqn:E;
      apply (ROUND_16_80_spec W) in E as [E Hr]; [|done|done|lia|auto with lia];
      clear Hw; rename E into Hw;
      rewrite rounds_S, Hr; clear Hr;
      replace (i + k + 1) with (i + (k + 1)) in * by lia;
      let k' := eval cbv in (k + 1) in change (k + 1) with k' in *
  end.

Lemma rounds_16_80_spec W i a b c d e f g h X :
  window X W i -> i mod 16 = 0 -> (forall j, i <= j < i + 16 -> W j = fips_next fips512 W j) ->
  exists X', rounds_16_80 (a, b, c, d, e, f, g, h, X) i =
    (rounds (fips_round fips512 W) 16 i (a, b, c, d, e, f, g, h), X') /\ window X' W (i + 16).
Proof.
  intros Hw Hi HW. unfold rounds_16_80.
  replace (rounds (fips_round fips512 W) 16 i) with (rounds (fips_round fips512 W) 16 (i + 0))
    by (f_equal; lia).
  replace (window X W i) with (window X W (i + 0)) in Hw by (f_equal; lia).
  assert (HW' : forall k, 0 <= k < 16 -> W (i + k) = fips_next fips512 W (i + k)) by (intros; apply HW; lia).
  step_16_80 0. step_16_80 1. step_16_80 2. step_16_80 3.
  step_16_80 4. step_16_80 5. step_16_80 6. step_16_80 7.
  step_16_80 8. step_16_80 9. step_16_80 10. step_16_80 11.
  step_16_80 12. step_16_80 13. step_16_80 14. step_16_80 15.
  eexists. split; [reflexivity|done].
Qed.

Lemma rounds_loop_512 W n i r X :
  window X W i -> i mod 16 = 0 ->
  (forall j, i <= j < i + 16 * Z.of_nat n -> W j = fips_next fips512 W j) ->
  exists X', fold_left rounds_16_80 (map (fun k => i + 16 * Z.of_nat k) (seq 0 n)) (r, X) =
    (rounds (fips_round fips512 W) (16 * n) i r, X').
Proof.
  revert i r X. induction n as [|n IH]; intros i r X Hw Hi HW; [by exists X|].
  destruct r as [[[[[[[a b] c] d] e] f] g] h].
  destruct (rounds_16_80_spec W i a b c d e f g h X Hw Hi) as (X1 & E1 & Hw1).
  { intros j Hj. apply HW. lia. }
  destruct (IH (i + 16) (rounds (fips_round fips512 W) 16 i (a, b, c, d, e, f, g, h)) X1 Hw1) as (X2 & E2).
  { lia. }
  { intros j Hj. apply HW. lia. }
  exists X2. rewrite <- cons_seq, map_cons, fold_left_cons.
  replace (i + 16 * Z.of_nat 0) with i by lia. rewrite E1.
  replace (map (fun k => i + 16 * Z.of_nat k) (seq 1 n))
    with (map (fun k => i + 16 + 16 * Z.of_nat k) (seq 0 n))
    by (rewrite <- seq_shift, map_map; apply map_ext; intros; lia).
  rewrite E2. replace (16 * S n)%nat with (16 + 16 * n)%nat by lia.
  by rewrite rounds_add.
Qed.

Ltac step_load Hl W k :=
  lazymatch goal with |- context [load k ?inp ?X] =>
    let T := fresh "T" in let Y := fresh "X" in let E := fresh "E" in
    destruct (load k inp X) as [T Y] eqn:E; unfold load in E;
    rewrite (Hl k) in E by lia; injection E as <- <- end;
  match goal with
  | |- context [ROUND_00_15 (W k) k ?a ?b ?c ?d ?e ?f ?g ?h] =>
      let d' := fresh "d" in let h' := fresh "h" in let E := fresh "E" in
      destruct (ROUND_00_15 (W k) k a b c d e f g h) as [d' h'] eqn:E;
      apply ROUND_00_15_512 in E; rewrite rounds_S, E; clear E;
      let k' := eval cbv in (k + 1) in change (k + 1) with k'
  end.

Lemma generic_block_rounds state inp (W : Z -> Z) :
  (forall i, 0 <= i < 16 -> PULL64 (zdrop (8 * i) inp) = W i) ->
  (forall t, 16 <= t < 80 -> W t = fips_next fips512 W t) ->
  sha512_block_generic state inp =
  finish fips512 state (rounds (fips_round fips512 W) 80 0 (start state)).
Proof.
  intros Hl HW. unfold sha512_block_generic, start.
  change 80%nat with (16 + 16 * 4)%nat.
  rewrite rounds_add. change (0 + Z.of_nat 16) with 16.
  step_load Hl W 0. step_load Hl W 1. step_load Hl W 2. step_load Hl W 3.
  step_load Hl W 4. step_load Hl W 5. step_load Hl W 6. step_load Hl W 7.
  step_load Hl W 8. step_load Hl W 9. step_load Hl W 10. step_load Hl W 11.
  step_load Hl W 12. step_load Hl W 13. step_load Hl W 14. step_load Hl W 15.
  cbn [rounds].
  match goal with |- context [fold_left rounds_16_80 _ (?r, ?X)] =>
    destruct (rounds_loop_512 W 4 16 r X) as (X' & HX) end.
  { split; [done|]. intros j Hj. rewrite Z.mod_small by lia.
    assert (Hj' : In j [0; 1; 2; 3; 4; 5; 6; 7; 8; 9; 10; 11; 12; 13; 14; 15]) by (cbn; lia).
    clear -Hj'. cbn in Hj'. repeat destruct Hj' as [<-|Hj']; [reflexivity..|done]. }
  { done. }
  { intros j Hj. apply HW. lia. }
  assert (Hl4 : [16; 32; 48; 64] = map (fun k => 16 + 16 * Z.of_nat k) (seq 0 4)) by done.
  rewrite Hl4, HX.
  generalize (rounds (fips_round fips512 W) (16 * 4) 16). intros F. by destruct (F _) as [[[[[[[? ?] ?] ?] ?] ?] ?] ?].
Qed.

Lemma sha512_block_generic_fips state inp : zlen inp = 128 -> bytes_ok inp ->
  sha512_block_generic state inp = fips_block fips512 state inp.
Proof.
  intros Hl Hok.
  exact (generic_block_rounds state inp (zget (fips_W fips512 inp))
    (fun i => PULL64_word inp i Hl Hok) (fips_W_next fips512 inp)).
Qed.

(** On every platform. *)
Lemma sha512_block_fips {P : Platform} state inp : zlen inp = 128 -> bytes_ok inp ->
  sha512_block state inp = fips_block fips512 state inp.
Proof.
  unfold sha512_block. destruct i386; [apply sha512_block_i386_fips|apply sha512_block_generic_fips].
Qed.

(** * Lemmas: the collector *)

Section Streaming.
  Context {P : Platform}.

(** The buffer and the state after the message [m]. *)
Definition buffered (iv : list Z) (c : SHA512_CTX) (m : bytes) : Prop :=
  exists q m1 m2 z, m = m1 ++ m2 /\ zlen m1 = 128 * Z.of_nat q /\ zlen m2 < 128 /\
    h c = hash_blocks 128 sha512_block iv m1 q /\ num c = zlen m2 /\
    u c = m2 ++ z /\ zlen (u c) = 128.

(** The two counter words hold eight times [total], modulo 2^128. *)
Definition counted (c : SHA512_CTX) (total : Z) : Prop :=
  is_u 64 (Nl c) /\ is_u 64 (Nh c) /\ Nl c + 2 ^ 64 * Nh c = (8 * total) mod 2 ^ 128.

Lemma counted_of c total l nh : Nl c = l -> Nh c = nh ->
  is_u 64 l /\ is_u 64 nh /\ l + 2 ^ 64 * nh = (8 * total) mod 2 ^ 128 -> counted c total.
Proof. intros <- <-. done. Qed.

Lemma count_bits_512 nl nh total len : is_u 64 nl -> is_u 64 nh -> is_u 64 len ->
  nl + 2 ^ 64 * nh = (8 * total) mod 2 ^ 128 ->
  let l := u64 (nl + u64 (Z.shiftl len 3)) in
  let nh' := if l <? nl then u64 (nh + 1) else nh in
  let nh' := u64 (nh' + Z.shiftr len 61) in
  is_u 64 l /\ is_u 64 nh' /\ l + 2 ^ 64 * nh' = (8 * (total + len)) mod 2 ^ 128.
Proof.
  intros [Hl0 Hl1] [Hh0 Hh1] [Hn0 Hn1] Heq l nh' nh''.
  split; [apply u64_is_u|]. split; [apply u64_is_u|]. unfold nh'', nh', l.
  rewrite Z.shiftl_mul_pow2, Z.shiftr_div_pow2 by lia. rewrite !u64_mod.
  change (2 ^ 3) with 8 in *. change (2 ^ 61) with 2305843009213693952 in *.
  change (2 ^ 64) with 18446744073709551616 in *.
  change (2 ^ 128) with 340282366920938463463374607431768211456 in *.
  set (a := len * 8 mod 18446744073709551616).
  assert (Hlen : 8 * len = a + 18446744073709551616 * (len / 2305843009213693952)).
  { unfold a. lia. }
  replace (8 * (total + len)) with (8 * total + 8 * len) by lia.
  rewrite <- (Z.add_mod_idemp_l (8 * total)), <- Heq, Hlen by lia.
  assert (Ha : 0 <= a < 18446744073709551616) by (apply Z.mod_pos_bound; lia).
  set (d := len / 2305843009213693952) in *. assert (Hd : 0 <= d < 8) by (unfold d; lia).
  clear Heq Hlen. clearbody a d.
  case_if; lia.
Qed.

Lemma copy_blocks_spec fuel c inp n : zlen (u c) = 128 ->
  128 * Z.of_nat n <= zlen inp < 128 * Z.of_nat n + 128 -> (n <= fuel)%nat ->
  exists u', zlen u' = 128 /\
    copy_blocks fuel c inp (zlen inp) =
      (mk_SHA512_CTX (hash_blocks 128 sha512_block (h c) inp n) (Nl c) (Nh c) u' (num c) (md_len c),
       zdrop (128 * Z.of_nat n) inp, zlen inp - 128 * Z.of_nat n).
Proof.
  revert fuel c inp. induction n as [|n IH]; intros fuel c inp Hu Hn Hf.
  - exists (u c). split; [done|]. rewrite zdrop_0, Z.sub_0_r by lia.
    destruct fuel; cbn [copy_blocks hash_blocks]; [by destruct c|].
    unfold SHA512_CBLOCK. case_if; [lia|by destruct c].
  - destruct fuel as [|fuel]; [lia|]. cbn [copy_blocks]. unfold SHA512_CBLOCK in *. case_if; [|lia].
    destruct (zsplit 128 inp) as (a & b & -> & Ha); [lia|].
    rewrite ztake_app, zdrop_app by done.
    replace (zlen (a ++ b) - 128) with (zlen b) by zlia.
    destruct (IH fuel (set_h (set_u c a (num c)) (sha512_block_data_order (h c) a 1)) b)
      as (u' & Hu' & E'); [done|zlia|lia|].
    exists u'. split; [done|]. cbn [h u set_u set_h Nl Nh num md_len] in *. rewrite E'.
    replace (zdrop (128 * Z.of_nat (S n)) (a ++ b)) with (zdrop (128 * Z.of_nat n) b).
    2:{ replace (128 * Z.of_nat (S n)) with (128 + 128 * Z.of_nat n) by lia.
        rewrite <- zdrop_zdrop, zdrop_app by (done || lia). done. }
    f_equal; [|zlia]. f_equal. f_equal.
    change (S n) with (1 + n)%nat. rewrite hash_blocks_app by lia. done.
Qed.

Lemma update_rest_512 iv c addr m1 q inp : zlen m1 = 128 * Z.of_nat q ->
  h c = hash_blocks 128 sha512_block iv m1 q -> num c = 0 -> zlen (u c) = 128 ->
  let c' := update_rest c addr inp (zlen inp) in
  buffered iv c' (m1 ++ inp) /\ Nl c' = Nl c /\ Nh c' = Nh c /\ md_len c' = md_len c.
Proof.
  intros Hm1 Hh Hnum Hu. unfold update_rest, SHA512_CBLOCK.
  set (n := Z.to_nat (zlen inp / 128)).
  assert (Hn : 128 * Z.of_nat n <= zlen inp < 128 * Z.of_nat n + 128) by (unfold n; lia).
  assert (Hc1 : exists u', zlen u' = 128 /\
    (if zlen inp >=? 128
     then if must_copy addr then copy_blocks (Z.to_nat (zlen inp)) c inp (zlen inp)
          else (set_h c (sha512_block_data_order (h c) inp (zlen inp / 128)),
                zdrop (zlen inp - zlen inp mod 128) inp, zlen inp mod 128)
     else (c, inp, zlen inp)) =
    (mk_SHA512_CTX (hash_blocks 128 sha512_block (h c) inp n) (Nl c) (Nh c) u' 0 (md_len c),
     zdrop (128 * Z.of_nat n) inp, zlen inp - 128 * Z.of_nat n)).
  { rewrite <- Hnum. case_if; [case_if|].
    - apply copy_blocks_spec; try done. lia.
    - exists (u c). split; [done|]. f_equal; [|lia]. f_equal. f_equal. lia.
    - exists (u c). split; [done|]. assert (n = 0%nat) as -> by lia.
      rewrite zdrop_0 by lia. cbn [hash_blocks]. destruct c. do 2 f_equal. lia. }
  destruct Hc1 as (u' & Hu' & ->). clearbody n.
  destruct (zsplit (128 * Z.of_nat n) inp) as (a & b & -> & Ha); [lia|].
  rewrite zdrop_app by done. replace (zlen (a ++ b) - 128 * Z.of_nat n) with (zlen b) by zlia.
  rewrite (hash_blocks_prefix 128 sha512_block (h c) a b n), Hh, <- hash_blocks_app by lia.
  assert (Hb : zlen b < 128) by zlia. cbv zeta.
  case_if; cbn [set_u Nl Nh md_len u]; (split; [|done]).
  - exists (q + n)%nat, (m1 ++ a), b, (zdrop (zlen b) u'). cbn [h num u set_u].
    rewrite (ztake_all (zlen b) b) by lia. unfold zsplice.
    rewrite (ztake_0 0), Z.add_0_l by lia. cbn [app].
    split; [by rewrite app_assoc|]. split_and!; try done; try zlia.
  - assert (b = []) as -> by (by apply zlen_0).
    exists (q + n)%nat, (m1 ++ a), [], u'. cbn [h num u].
    split; [by rewrite app_assoc|]. split_and!; try done; try zlia.
Qed.

Lemma SHA512_Update_spec iv c addr m inp : buffered iv c m -> counted c (zlen m) -> is_u 64 (zlen inp) ->
  let c' := SHA512_Update c addr inp (zlen inp) in
  buffered iv c' (m ++ inp) /\ counted c' (zlen (m ++ inp)) /\ md_len c' = md_len c.
Proof.
  intros Hb (Hnl & Hnh & Hcount) Hu. unfold SHA512_Update. case_if.
  { apply zlen_0 in E as ->. by rewrite app_nil_r. }
  pose proof (count_bits_512 _ _ _ _ Hnl Hnh Hu Hcount) as Hc. cbv zeta in Hc.
  cbv zeta. cbn [num u h md_len].
  match type of Hc with is_u 64 ?a /\ _ => set (l := a) in * end.
  match type of Hc with _ /\ is_u 64 ?b /\ _ => set (nh := b) in * end.
  replace (zlen m + zlen inp) with (zlen (m ++ inp)) in Hc by zlia.
  clearbody l nh. clear Hnl Hnh Hcount.
  destruct Hb as (q & m1 & m2 & z & -> & Hm1 & Hm2 & Hh & Hnum & Hdata & Hdl).
  unfold SHA512_CBLOCK. rewrite Hnum, Hdata in *.
  case_if; [case_if|]; cbn [num u h md_len].
  - split; [|done]. rewrite (ztake_all (zlen inp)) by lia.
    destruct (zsplit (zlen inp) z) as (z1 & z2 & -> & Hz1); [zlia|].
    exists q, m1, (m2 ++ inp), z2. cbn [h num u set_u].
    rewrite zsplice_app by lia. rewrite (u32_small (zlen inp)) by (split; lia).
    rewrite u32_small by (split; lia).
    split_and!; try done; rewrite <- ?app_assoc; try done; try zlia.
  - destruct (zsplit (128 - zlen m2) inp) as (a & b & -> & Ha); [lia|].
    rewrite zdrop_app, ztake_app by done.
    replace (zlen (a ++ b) - (128 - zlen m2)) with (zlen b) by zlia.
    rewrite (zsplice_end m2 z a) by (lia || zlia).
    replace ((m1 ++ m2) ++ a ++ b) with ((m1 ++ m2 ++ a) ++ b) in * by (by rewrite <- !app_assoc).
    edestruct (update_rest_512 iv
      (mk_SHA512_CTX (sha512_block_data_order (h c) (m2 ++ a) 1) l nh (m2 ++ a) 0 (md_len c))
      (addr + (128 - zlen m2)) (m1 ++ m2 ++ a) (S q) b) as (Hb' & HNl & HNh & Hlen).
    + zlia.
    + cbn [h]. rewrite Hh, <- Nat.add_1_r, hash_blocks_app by lia. done.
    + done.
    + cbn [u]. zlia.
    + split; [exact Hb'|]. split; [|exact Hlen]. exact (counted_of _ _ l nh HNl HNh Hc).
  - assert (m2 = []) as -> by (by apply zlen_0). rewrite app_nil_r in *. cbn [app] in *.
    edestruct (update_rest_512 iv (mk_SHA512_CTX (h c) l nh z 0 (md_len c)) addr m1 q inp)
      as (Hb' & HNl & HNh & Hlen); try done.
    split; [exact Hb'|]. split; [|exact Hlen]. exact (counted_of _ _ l nh HNl HNh Hc).
Qed.

Lemma put64_bytes t : put64 t = be_bytes 8 t.
Proof.
  unfold put64. rewrite !u8_mod, !Z.shiftr_div_pow2 by lia.
  unfold be_bytes. cbn [le_bytes rev app]. rewrite !Z.div_div by lia. done.
Qed.

(** The length field is what the two counter words spell. *)
Lemma counter_bytes c total : counted c total ->
  put64 (Nh c) ++ put64 (Nl c) = be_bytes 16 ((8 * total) mod 2 ^ 128).
Proof.
  intros ([Hl0 Hl1] & [Hh0 Hh1] & Heq). rewrite <- Heq, !put64_bytes.
  change 16%nat with (8 + 8)%nat. rewrite be_bytes_split. change (256 ^ Z.of_nat 8) with (2 ^ 64).
  replace ((Nl c + 2 ^ 64 * Nh c) / 2 ^ 64) with (Nh c) by lia.
  rewrite <- (be_bytes_mod 8 (Nl c + _)). change (256 ^ Z.of_nat 8) with (2 ^ 64).
  replace ((Nl c + 2 ^ 64 * Nh c) mod 2 ^ 64) with (Nl c) by lia. done.
Qed.

(** Hashing the whole padded message from the state after its whole blocks. *)
Lemma fips_state_split iv m1 m2 q : zlen m1 = 128 * Z.of_nat q -> zlen m2 < 128 ->
  fips_state fips512 iv (m1 ++ m2) =
    hash_blocks 128 (fips_block fips512) (hash_blocks 128 (fips_block fips512) iv m1 q)
      (m2 ++ fips_padding fips512 (zlen (m1 ++ m2))) (if zlen m2 <? 112 then 1 else 2).
Proof.
  intros Hm1 Hm2. unfold fips_state. change (2 * word fips512) with 128. rewrite <- app_assoc. cbv zeta.
  rewrite <- hash_blocks_app by lia. f_equal.
  unfold fips_padding. change (2 * word fips512) with 128.
  set (L := zlen (m1 ++ m2)) in *. assert (HL : L = 128 * Z.of_nat q + zlen m2) by (unfold L; zlia).
  clearbody L. rewrite !length_app, length_cons, length_app, length_zrepeat, length_be_bytes.
  change (128 / 8) with 16. case_if; lia.
Qed.

Lemma fips_padding_512 len : fips_padding fips512 len =
  0x80 :: zrepeat ((111 - len) mod 128) 0 ++ be_bytes 16 ((8 * len) mod 2 ^ 128).
Proof. reflexivity. Qed.

Lemma fips_padding_ok len : bytes_ok (fips_padding fips512 len).
Proof.
  rewrite fips_padding_512. constructor; [split; lia|]. apply bytes_ok_app.
  split; [|apply be_bytes_ok]. apply bytes_ok_zrepeat. split; lia.
Qed.

(** The digest, by the length in the context. *)
Definition output (md : bool) (st : list Z) (n : Z) : option bytes :=
  if negb md then None
  else if (n =? 48) || (n =? 64) then Some (ztake n (concat (map (be_bytes 8) st)))
  else None.

Lemma sha512_words_eq c n : length (h c) = 8%nat -> 0 <= n <= 8 ->
  sha512_words c n = ztake (8 * n) (concat (map (be_bytes 8) (h c))).
Proof.
  intros Hl Hn. unfold sha512_words.
  destruct (h c) as [|w0 [|w1 [|w2 [|w3 [|w4 [|w5 [|w6 [|w7 [|]]]]]]]]]; try done.
  rewrite <- (Z2Nat.id n) by lia. assert (Hn' : (Z.to_nat n <= 8)%nat) by lia.
  revert Hn'. generalize (Z.to_nat n) as k. intros k Hk. rewrite Nat2Z.id.
  do 9 (destruct k as [|k]; [cbn [seq map concat]; rewrite ?put64_bytes; reflexivity|]). lia.
Qed.

(** The standard's state, by the code's block function. *)
Lemma fips_state_code iv m1 m2 q : zlen m1 = 128 * Z.of_nat q -> zlen m2 < 128 -> bytes_ok (m1 ++ m2) ->
  fips_state fips512 iv (m1 ++ m2) =
    hash_blocks 128 sha512_block (hash_blocks 128 sha512_block iv m1 q)
      (m2 ++ fips_padding fips512 (zlen (m1 ++ m2))) (if zlen m2 <? 112 then 1 else 2).
Proof.
  intros Hm1 Hm2 Hok. rewrite (fips_state_split iv m1 m2 q) by done.
  apply bytes_ok_app in Hok as [Hok1 Hok2]. symmetry.
  rewrite (hash_blocks_ext 128 sha512_block (fips_block fips512) _ m1 q);
    [|lia|intros; by apply sha512_block_fips|done|lia].
  apply hash_blocks_ext; [lia|intros; by apply sha512_block_fips| |].
  - apply bytes_ok_app. split; [done|apply fips_padding_ok].
  - rewrite fips_padding_512, length_app, length_cons, length_app, length_zrepeat, length_be_bytes.
    rewrite length_app. case_if; lia.
Qed.

(** The end of the function, once the last block is hashed. *)
Lemma final_output md hh p nl nh n len st : length st = 8%nat -> sha512_block_data_order hh p 1 = st ->
  exists c', (let sha := mk_SHA512_CTX (sha512_block_data_order hh p 1) nl nh p n len in
    Some (if negb md then None
          else if md_len sha =? SHA384_DIGEST_LENGTH then
            Some (sha512_words sha (SHA384_DIGEST_LENGTH / 8))
          else if md_len sha =? SHA512_DIGEST_LENGTH then
            Some (sha512_words sha (SHA512_DIGEST_LENGTH / 8))
          else None, sha)) = Some (output md st len, c') /\ h c' = st.
Proof.
  intros Hst8 ->. refine (ex_intro _ (mk_SHA512_CTX _ nl nh p n len) (conj _ eq_refl)).
  cbv zeta. do 2 f_equal. unfold output. cbn [md_len].
  destruct md; [cbn [negb]|done]. unfold SHA384_DIGEST_LENGTH, SHA512_DIGEST_LENGTH.
  destruct (Z.eqb_spec len 48) as [->|]; [|destruct (Z.eqb_spec len 64) as [->|]; [|done]];
    by rewrite sha512_words_eq.
Qed.

(** The padded last blocks, as the code writes them into the buffer. *)
Lemma SHA512_Final_state iv c m md : buffered iv c m -> counted c (zlen m) -> bytes_ok m ->
  length iv = 8%nat ->
  exists c', SHA512_Final md c = Some (output md (fips_state fips512 iv m) (md_len c), c') /\
    h c' = fips_state fips512 iv m.
Proof.
  intros (q & m1 & m2 & z & -> & Hm1 & Hm2 & Hh & Hnum & Hdata & Hdl) Hc Hok Hiv.
  pose proof (length_fips_state fips512 iv (m1 ++ m2) ltac:(done) Hiv) as Hst8.
  pose proof (counter_bytes _ _ Hc) as Hfield.
  pose proof (fips_state_code iv m1 m2 q Hm1 Hm2 Hok) as Hst. rewrite <- Hh in Hst.
  unfold SHA512_Final, SHA512_CBLOCK. rewrite Hnum. case_if; [lia|]. cbv zeta.
  rewrite Hdata in Hdl.
  destruct z as [|z0 z]; [rewrite app_nil_r in Hdl; lia|].
  assert (H80 : zsplice (u c) (zlen m2) [0x80] = (m2 ++ [0x80]) ++ z).
  { rewrite Hdata. change (z0 :: z) with ([z0] ++ z). rewrite zsplice_app by done.
    by rewrite <- app_assoc. }
  assert (Hpad : fips_padding fips512 (zlen (m1 ++ m2)) =
    [0x80] ++ zrepeat (if zlen m2 <? 112 then 111 - zlen m2 else 239 - zlen m2) 0 ++
    put64 (Nh c) ++ put64 (Nl c)).
  { rewrite fips_padding_512, Hfield, length_app. do 2 f_equal. f_equal. case_if; lia. }
  rewrite Hpad in Hst. rewrite H80.
  assert (Hfl : zlen (put64 (Nh c) ++ put64 (Nl c)) = 16) by done.
  set (field := put64 (Nh c) ++ put64 (Nl c)) in *. clearbody field.
  set (m80 := m2 ++ [0x80]). assert (Hm80 : zlen m80 = zlen m2 + 1) by (unfold m80; zlia).
  assert (Hz : zlen z = 127 - zlen m2) by (rewrite length_app in Hdl; cbn [length] in Hdl; lia).
  destruct (Z.ltb_spec (zlen m2) 112).
  - replace (zlen m2 + 1 >? 128 - 16) with false by lia.
    apply final_output; [done|].
    destruct (zsplit (111 - zlen m2) z) as (z1 & z2 & -> & Hz1); [lia|].
    rewrite zsplice_app by zlia. replace (128 - 16 - (zlen m2 + 1)) with (111 - zlen m2) by lia.
    assert (Hs : zsplice (m80 ++ zrepeat (111 - zlen m2) 0 ++ z2) (128 - 16) field =
                 m80 ++ zrepeat (111 - zlen m2) 0 ++ field).
    { rewrite !app_assoc. apply zsplice_end; zlia. }
    rewrite Hs, Hst. unfold m80, sha512_block_data_order. by rewrite <- !app_assoc.
  - replace (zlen m2 + 1 >? 128 - 16) with true by lia.
    apply final_output; [done|].
    rewrite (zsplice_end m80 z) by (try done; zlia).
    set (blk := m80 ++ zrepeat (128 - (zlen m2 + 1)) 0).
    assert (Hblk : zlen blk = 128) by (unfold blk; zlia).
    destruct (zsplit 112 blk) as (d1 & d2 & Hd & Hd1); [lia|].
    assert (Hd2 : zlen d2 = 16) by (rewrite Hd in Hblk; zlia).
    assert (Hs : zsplice (zsplice blk 0 (zrepeat (128 - 16 - 0) 0)) (128 - 16) field = zrepeat 112 0 ++ field).
    { rewrite Hd, (zsplice_app [] d1 d2) by (done || zlia). cbn [app]. apply zsplice_end; zlia. }
    rewrite Hs, Hst. unfold sha512_block_data_order, SHA512_CBLOCK. change (Z.to_nat 1) with 1%nat.
    rewrite <- (hash_blocks_app 128 sha512_block (h c) blk (zrepeat 112 0 ++ field) 1 1) by lia.
    unfold blk, m80. change (1 + 1)%nat with 2%nat. rewrite <- !app_assoc. do 2 f_equal. f_equal. rewrite app_assoc. f_equal.
    unfold zrepeat. rewrite <- replicate_add. f_equal. lia.
Qed.

(** A stream of updates, each an address and the bytes there. *)
Definition update_all (c : SHA512_CTX) (inputs : list (Z * bytes)) : SHA512_CTX :=
  fold_left (fun c i => SHA512_Update c i.1 i.2 (zlen i.2)) inputs c.

Lemma update_all_spec iv c m inputs : buffered iv c m -> counted c (zlen m) ->
  Forall (fun i => input_ok i.2) inputs ->
  let c' := update_all c inputs in
  buffered iv c' (m ++ concat (map snd inputs)) /\ counted c' (zlen (m ++ concat (map snd inputs))) /\
  md_len c' = md_len c.
Proof.
  intros Hb Hc Hin. revert c m Hb Hc. induction Hin as [|[addr inp] inputs [Hok Hu] Hin IH]; intros c m Hb Hc.
  - cbn. by rewrite app_nil_r.
  - destruct (SHA512_Update_spec iv c addr m inp Hb Hc Hu) as (Hb1 & Hc1 & Hl1).
    destruct (IH _ _ Hb1 Hc1) as (Hb2 & Hc2 & Hl2).
    cbn [map snd concat]. rewrite app_assoc. split; [exact Hb2|split; [exact Hc2|]].
    rewrite <- Hl1. exact Hl2.
Qed.

(** From a context that has just been initialised. *)
Lemma sha512_stream iv c n md inputs : length iv = 8%nat -> Forall (fun i => input_ok i.2) inputs ->
  h c = iv -> Nl c = 0 -> Nh c = 0 -> num c = 0 -> md_len c = n -> zlen (u c) = 128 ->
  exists c', SHA512_Final md (update_all c inputs) =
    Some (output md (fips_state fips512 iv (concat (map snd inputs))) n, c').
Proof.
  intros Hiv Hin Hh Hnl Hnh Hnum Hlen Hu.
  destruct (update_all_spec iv c [] inputs) as (Hb & Hc & Hl); [|unfold counted; by rewrite Hnl, Hnh|done|].
  { exists 0%nat, [], [], (u c). by split_and!. }
  cbn [app] in *.
  destruct (SHA512_Final_state iv _ _ md Hb Hc) as (c' & Hf & _); [|done|].
  - apply concat_inputs_ok, Forall_map. eapply Forall_impl; [|exact Hin]. by intros ? [? ?].
  - exists c'. by rewrite Hf, Hl, Hlen.
Qed.

End Streaming.

(** * Properties *)

(** C8. SHA-384 and SHA-512 are the functions of FIPS 180-4 on every platform: with
    either of the two block functions (the ring of sixteen words, and the array
    through which the 32-bit variant moves its registers), whether or not
    unaligned input is copied block by block, for every address, every earlier
    content of the context and every way to cut the message into updates. The
    constants are the roots of primes the standard takes them from. A NULL output
    makes the final function return 0. *)
Theorem SHA512_fips (P : Platform) ctx inputs addr inp :
  zlen (u ctx) = 128 -> Forall (fun i => input_ok i.2) inputs -> input_ok inp ->
  (exists c', SHA512_Final true (update_all (SHA512_Init ctx) inputs) =
     Some (Some (fips_sha512 (concat (map snd inputs))), c')) /\
  (exists c', SHA384_Final true (update_all (SHA384_Init ctx) inputs) =
     Some (Some (fips_sha384 (concat (map snd inputs))), c')) /\
  (exists c', SHA512_Final false (update_all (SHA512_Init ctx) inputs) = Some (None, c')) /\
  SHA512 ctx addr inp (zlen inp) = Some (fips_sha512 inp) /\
  SHA384 ctx addr inp (zlen inp) = Some (fips_sha384 inp).
Proof.
  intros Hu Hin Hi. split_and!.
  - by apply (sha512_stream H512 (SHA512_Init ctx) 64 true).
  - by apply (sha512_stream H384 (SHA384_Init ctx) 48 true).
  - by apply (sha512_stream H512 (SHA512_Init ctx) 64 false).
  - destruct (sha512_stream H512 (SHA512_Init ctx) 64 true [(addr, inp)]) as [c' Hc]; try done.
    { by constructor. }
    cbn [map snd concat] in Hc. rewrite app_nil_r in Hc. unfold SHA512.
    change (SHA512_Update (SHA512_Init ctx) addr inp (zlen inp))
      with (update_all (SHA512_Init ctx) [(addr, inp)]).
    by rewrite Hc.
  - destruct (sha512_stream H384 (SHA384_Init ctx) 48 true [(addr, inp)]) as [c' Hc]; try done.
    { by constructor. }
    cbn [map snd concat] in Hc. rewrite app_nil_r in Hc. unfold SHA384, SHA384_Final, SHA384_Update.
    change (SHA512_Update (SHA384_Init ctx) addr inp (zlen inp))
      with (update_all (SHA384_Init ctx) [(addr, inp)]).
    by rewrite Hc.
Qed.

(** "abc", unaligned, on a platform that cannot read it in place, and the digest
    FIPS 180-4 lists for it. *)
Lemma SHA512_fips_witness :
  let P := {| i386 := true; SHA512_BLOCK_CAN_MANAGE_UNALIGNED_DATA := false |} in
  let ctx := mk_SHA512_CTX [] 0 0 (zrepeat 128 7) 0 0 in
  @SHA512 P ctx 3 [0x61; 0x62; 0x63] 3 = Some (fips_sha512 [0x61; 0x62; 0x63]) /\
  fips_sha512 [0x61; 0x62; 0x63] =
    [0xdd; 0xaf; 0x35; 0xa1; 0x93; 0x61; 0x7a; 0xba; 0xcc; 0x41; 0x73; 0x49; 0xae; 0x20; 0x41; 0x31;
     0x12; 0xe6; 0xfa; 0x4e; 0x89; 0xa9; 0x7e; 0xa2; 0x0a; 0x9e; 0xee; 0xe6; 0x4b; 0x55; 0xd3; 0x9a;
     0x21; 0x92; 0x99; 0x2a; 0x27; 0x4f; 0xc1; 0xa8; 0x36; 0xba; 0x3c; 0x23; 0xa3; 0xfe; 0xeb; 0xbd;
     0x45; 0x4d; 0x44; 0x23; 0x64; 0x3c; 0xe8; 0x0e; 0x2a; 0x9a; 0xc9; 0x4f; 0xa5; 0x4c; 0xa4; 0x9f].
Proof.
  intros P ctx. split; [|vm_compute; reflexivity].
  apply (SHA512_fips P ctx [] 3 [0x61; 0x62; 0x63]); [done|constructor|].
  split; [repeat constructor; lia|split; cbn; lia].
Defined.
