(* ===== verification/ByteMem.v ===== *)
(** * A memory of bytes

    The memory of the components that read and write through pointers which may
    alias: one finite map from addresses to bytes. An access to an address that it does
    not hold is undefined, which is the value [None] of an [M mem] computation.
    Integers in memory are little-endian. *)

From Stdlib Require Import ZArith Lia.
From stdpp Require Import base list option gmap.
From S2P Require Import Prelude.

(** * Loads and stores *)

Abbreviation mem := (gmap Z Z).

Fixpoint load_bytes (n : nat) (m : mem) (a : Z) : option bytes :=
  match n with
  | O => Some []
  | S n =>
      match m !! a, load_bytes n m (a + 1) with
      | Some b, Some l => Some (b :: l)
      | _, _ => None
      end
  end.

Fixpoint store_bytes (l : bytes) (a : Z) (m : mem) : option mem :=
  match l with
  | [] => Some m
  | b :: l =>
      match m !! a with
      | None => None
      | Some _ => store_bytes l (a + 1) (<[a := b]> m)
      end
  end.

Definition mem_load (n a : Z) : M mem bytes :=
  fun m => match load_bytes (Z.to_nat n) m a with None => None | Some l => Some (l, m) end.
Definition mem_store (a : Z) (l : bytes) : M mem unit :=
  fun m => match store_bytes l a m with None => None | Some m' => Some (tt, m') end.

(** [sext n v] is the value of the [n] byte integer [v] read as a signed type. *)
Definition sext (n v : Z) : Z := if v <? 2 ^ (8 * n - 1) then v else v - 2 ^ (8 * n).

Definition load_u (n a : Z) : M mem Z := let* l := mem_load n a in sret (le_val l).
Definition load_s (n a : Z) : M mem Z := let* v := load_u n a in sret (sext n v).
Definition store_u (n a v : Z) : M mem unit := mem_store a (le_bytes (Z.to_nat n) v).

(** * Lemmas: memory *)

Lemma load_bytes_length n m a l : load_bytes n m a = Some l -> length l = n.
Proof.
  revert a l. induction n as [|n IH]; intros a l; cbn [load_bytes]; [by intros [= <-]|].
  destruct (m !! a), (load_bytes n m (a + 1)) as [l'|] eqn:E; intros [= <-].
  cbn [length]. by rewrite (IH _ _ E).
Qed.

Lemma load_bytes_lookup n m a l : load_bytes n m a = Some l <->
  length l = n /\ forall i, (i < n)%nat -> m !! (a + Z.of_nat i) = l !! i.
Proof.
  split.
  - intros H. split; [by eapply load_bytes_length|]. revert a l H.
    induction n as [|n IH]; intros a l H i Hi; [lia|]. cbn [load_bytes] in H.
    destruct (m !! a) as [b|] eqn:Ea; [|done]. destruct (load_bytes n m (a + 1)) as [l'|] eqn:E; [|done].
    injection H as <-. destruct i as [|i]; [by rewrite Z.add_0_r|].
    rewrite Nat2Z.inj_succ, <- Z.add_1_l, Z.add_assoc. apply (IH _ _ E). lia.
  - intros [Hl H]. revert a l Hl H. induction n as [|n IH]; intros a l Hl H; cbn [load_bytes].
    + by destruct l.
    + destruct l as [|b l]; [done|]. pose proof (H 0%nat ltac:(lia)) as H0. rewrite Z.add_0_r in H0.
      rewrite H0, (IH (a + 1) l); [done|by injection Hl|].
      intros i Hi. change (l !! i) with ((b :: l) !! S i). rewrite <- (H (S i)) by lia. f_equal. lia.
Qed.

(** Two memories hold the same bytes wherever the smaller one holds any. *)
Lemma load_bytes_mono n (m m' : mem) a l : m ⊆ m' -> load_bytes n m a = Some l -> load_bytes n m' a = Some l.
Proof.
  intros Hs. rewrite !load_bytes_lookup. intros [Hl H]. split; [done|]. intros i Hi.
  specialize (H i Hi). destruct (lookup_lt_is_Some_2 l i) as [b Hb]; [lia|]. rewrite Hb in *.
  by eapply lookup_weaken.
Qed.

Lemma load_bytes_app n1 n2 m a : load_bytes (n1 + n2) m a =
  match load_bytes n1 m a, load_bytes n2 m (a + Z.of_nat n1) with
  | Some l1, Some l2 => Some (l1 ++ l2)
  | _, _ => None
  end.
Proof.
  revert a. induction n1 as [|n1 IH]; intros a; cbn [load_bytes Nat.add].
  - rewrite Z.add_0_r. by destruct (load_bytes n2 m a).
  - rewrite IH. replace (a + Z.of_nat (S n1)) with (a + 1 + Z.of_nat n1) by lia.
    destruct (m !! a); [|done]. destruct (load_bytes n1 m (a + 1)); [|done].
    by destruct (load_bytes n2 m _).
Qed.

Definition mapped (m : mem) (a n : Z) : Prop := forall i, 0 <= i < n -> is_Some (m !! (a + i)).

Definition mem_bytes (m : mem) : Prop := forall a b, m !! a = Some b -> is_byte b.

Lemma load_bytes_ok n m a l : mem_bytes m -> load_bytes n m a = Some l -> bytes_ok l.
Proof.
  intros Hm [Hl H]%load_bytes_lookup. apply Forall_lookup. intros i b Hb.
  apply (Hm (a + Z.of_nat i)). rewrite H; [done|]. apply lookup_lt_Some in Hb. lia.
Qed.

Lemma load_bytes_mapped n m a : mapped m a (Z.of_nat n) -> is_Some (load_bytes n m a).
Proof.
  revert a. induction n as [|n IH]; intros a H; cbn [load_bytes]; [done|].
  destruct (H 0 ltac:(lia)) as [b Hb]. rewrite Z.add_0_r in Hb. rewrite Hb.
  destruct (IH (a + 1)) as [l ->]; [|done].
  intros i Hi. destruct (H (i + 1) ltac:(lia)) as [c Hc]. exists c. rewrite <- Hc. f_equal. lia.
Qed.

Lemma mapped_sub m a n b k : mapped m a n -> a <= b -> b + k <= a + n -> mapped m b k.
Proof.
  intros H Ha Hb i Hi. replace (b + i) with (a + (b - a + i)) by lia. apply H. lia.
Qed.

Lemma store_bytes_app l1 l2 a m :
  store_bytes (l1 ++ l2) a m = store_bytes l1 a m ≫= store_bytes l2 (a + zlen l1).
Proof.
  revert a m. induction l1 as [|b l1 IH]; intros a m; cbn [store_bytes app length].
  - by rewrite Z.add_0_r.
  - destruct (m !! a); [|done]. rewrite IH. do 2 f_equal. lia.
Qed.

(** Stores succeed on mapped memory, change the bytes they store and no others. *)
Lemma store_bytes_spec l a m : mapped m a (zlen l) -> exists m', store_bytes l a m = Some m' /\
  (forall i, (i < length l)%nat -> m' !! (a + Z.of_nat i) = l !! i) /\
  (forall b, b < a \/ a + zlen l <= b -> m' !! b = m !! b).
Proof.
  revert a m. induction l as [|x l IH]; intros a m H; cbn [store_bytes length] in *.
  - exists m. split; [done|]. split; [intros; lia|done].
  - destruct (H 0 ltac:(lia)) as [b Hb]. rewrite Z.add_0_r in Hb. rewrite Hb.
    destruct (IH (a + 1) (<[a := x]> m)) as (m' & E & Hin & Hout).
    + intros i Hi. rewrite lookup_insert_ne by lia. replace (a + 1 + i) with (a + (i + 1)) by lia. apply H. lia.
    + exists m'. split; [done|]. split.
      * intros [|i] Hi.
        -- rewrite Z.add_0_r, Hout by lia. by rewrite lookup_insert_eq.
        -- replace (a + Z.of_nat (S i)) with (a + 1 + Z.of_nat i) by lia. apply Hin. lia.
      * intros c Hc. rewrite Hout by lia. apply lookup_insert_ne. lia.
Qed.

Lemma store_bytes_mapped l a m m' : store_bytes l a m = Some m' -> mapped m a (zlen l).
Proof.
  revert a m. induction l as [|x l IH]; intros a m E i Hi; cbn [store_bytes length] in *; [lia|].
  destruct (m !! a) as [b|] eqn:Hb; [|done].
  destruct (decide (i = 0)) as [->|]; [rewrite Z.add_0_r, Hb; done|].
  destruct (IH _ _ E (i - 1) ltac:(lia)) as [c Hc]. replace (a + 1 + (i - 1)) with (a + i) in Hc by lia.
  rewrite lookup_insert_ne in Hc by lia. by exists c.
Qed.

Lemma store_bytes_inv l a m m' : store_bytes l a m = Some m' ->
  load_bytes (length l) m' a = Some l /\ (forall b, b < a \/ a + zlen l <= b -> m' !! b = m !! b) /\
  (forall b, is_Some (m' !! b) <-> is_Some (m !! b)).
Proof.
  intros E. pose proof (store_bytes_mapped _ _ _ _ E) as Hm.
  destruct (store_bytes_spec l a m Hm) as (m2 & E2 & Hin & Hout). rewrite E in E2. injection E2 as <-.
  split; [by apply load_bytes_lookup|]. split; [done|]. intros b.
  destruct (decide (b < a \/ a + zlen l <= b)) as [Hb|Hb]; [by rewrite Hout|].
  replace b with (a + Z.of_nat (Z.to_nat (b - a))) by lia. rewrite Hin by lia.
  split; intros _; [apply Hm; lia|]. apply lookup_lt_is_Some_2. lia.
Qed.

Lemma store_bytes_ok l a m m' : store_bytes l a m = Some m' -> bytes_ok l -> mem_bytes m -> mem_bytes m'.
Proof.
  revert a m. induction l as [|x l IH]; intros a m E Hl Hm; cbn [store_bytes] in E; [by injection E as <-|].
  destruct (m !! a); [|done]. apply Forall_cons in Hl as [Hx Hl]. apply (IH _ _ E Hl).
  intros b y. destruct (decide (b = a)) as [->|]; [rewrite lookup_insert_eq; by intros [= <-]|].
  rewrite lookup_insert_ne by done. apply Hm.
Qed.

(** The memory a read-only part of the program sees is not changed by stores
    elsewhere. *)
Lemma store_bytes_frame l a (m m' ms : mem) : store_bytes l a m = Some m' -> ms ⊆ m ->
  (forall i, 0 <= i < zlen l -> ms !! (a + i) = None) -> ms ⊆ m'.
Proof.
  intros E Hs Hd. destruct (store_bytes_inv _ _ _ _ E) as (_ & Hout & _).
  apply map_subseteq_spec. intros b x Hb. rewrite Hout; [by eapply lookup_weaken|].
  destruct (decide (b < a \/ a + zlen l <= b)) as [|Hn]; [done|].
  specialize (Hd (b - a) ltac:(lia)). replace (a + (b - a)) with b in Hd by lia. congruence.
Qed.

(** An array in memory. *)
Fixpoint region (a : Z) (l : bytes) : mem :=
  match l with [] => ∅ | b :: l => <[a := b]> (region (a + 1) l) end.

Lemma region_lookup a l i : 0 <= i < zlen l -> region a l !! (a + i) = l !! Z.to_nat i.
Proof.
  revert a i. induction l as [|b l IH]; intros a i Hi; cbn [length region] in *; [lia|].
  destruct (decide (i = 0)) as [->|]; [by rewrite Z.add_0_r, lookup_insert_eq|].
  rewrite lookup_insert_ne by lia. replace (a + i) with (a + 1 + (i - 1)) by lia. rewrite IH by lia.
  by replace (Z.to_nat i) with (S (Z.to_nat (i - 1))) by lia.
Qed.

Lemma region_outside a l b : b < a \/ a + zlen l <= b -> region a l !! b = None.
Proof.
  revert a. induction l as [|x l IH]; intros a Hb; cbn [length region] in *; [apply lookup_empty|].
  rewrite lookup_insert_ne by lia. apply IH. lia.
Qed.

Lemma region_mapped a l n : n <= zlen l -> mapped (region a l) a n.
Proof. intros Hn i Hi. rewrite region_lookup by lia. apply lookup_lt_is_Some_2. lia. Qed.

Lemma region_bytes a l : bytes_ok l -> mem_bytes (region a l).
Proof.
  intros Hl c x. revert a. induction Hl as [|b l Hb Hl IH]; intros a; cbn [region]; [done|].
  destruct (decide (c = a)) as [->|]; [rewrite lookup_insert_eq; by intros [= <-]|].
  rewrite lookup_insert_ne by done. apply IH.
Qed.

Lemma mem_bytes_union m1 m2 : mem_bytes m1 -> mem_bytes m2 -> mem_bytes (m1 ∪ m2).
Proof. intros H1 H2 a b [H|[_ H]]%lookup_union_Some_raw; [by apply (H1 a)|by apply (H2 a)]. Qed.

Lemma mapped_union_l m1 m2 a n : mapped m1 a n -> mapped (m1 ∪ m2) a n.
Proof. intros H i Hi. destruct (H i Hi) as [b Hb]. exists b. by apply lookup_union_Some_l. Qed.

Lemma mapped_union_r m1 m2 a n : mapped m2 a n -> mapped (m1 ∪ m2) a n.
Proof.
  intros H i Hi. destruct (H i Hi) as [b Hb]. destruct (m1 !! (a + i)) as [c|] eqn:E.
  - exists c. by apply lookup_union_Some_l.
  - exists b. by rewrite lookup_union_r.
Qed.

Lemma le_val_cons b l : le_val (b :: l) = b + 256 * le_val l.
Proof. unfold le_val. cbn [rev]. rewrite be_val_snoc. lia. Qed.

Lemma le_val_bound l : bytes_ok l -> 0 <= le_val l < 256 ^ zlen l.
Proof.
  intros H. unfold le_val. rewrite <- (length_rev l). apply be_val_bound. by apply Forall_rev.
Qed.

Lemma le_bytes_le_val l : bytes_ok l -> le_bytes (length l) (le_val l) = l.
Proof.
  intros H. unfold le_val. rewrite <- length_rev.
  pose proof (be_bytes_be_val (rev l)) as E. unfold be_bytes in E.
  rewrite <- (rev_involutive (le_bytes _ _)), E by (by apply Forall_rev). apply rev_involutive.
Qed.

(** * Memories that differ on a set of addresses *)

Definition within (a n : Z) : Z -> Prop := fun x => a <= x < a + n.

Definition upd (A : Z -> Prop) (m m' : mem) : Prop :=
  (forall x, ~ A x -> m' !! x = m !! x) /\ (forall x, is_Some (m' !! x) <-> is_Some (m !! x)).

Lemma upd_refl A m : upd A m m.
Proof. by split. Qed.

Lemma upd_trans A m1 m2 m3 : upd A m1 m2 -> upd A m2 m3 -> upd A m1 m3.
Proof. intros [H1 D1] [H2 D2]. split; intros x; [intros Hx; by rewrite H2, H1|by rewrite D2]. Qed.

Lemma upd_sub (A B : Z -> Prop) m m' : (forall x, A x -> B x) -> upd A m m' -> upd B m m'.
Proof. intros H [H1 H2]. split; [|done]. intros x Hx. apply H1. auto. Qed.

Lemma upd_size A m m' : upd A m m' -> size m' = size m.
Proof.
  intros [_ H]. rewrite <- !(size_dom (D := gset Z)). f_equal. apply set_eq. intros x. rewrite !elem_of_dom. apply H.
Qed.

Lemma upd_mapped A m m' a n : upd A m m' -> mapped m a n -> mapped m' a n.
Proof. intros [_ H] Hm i Hi. apply H, Hm, Hi. Qed.

Lemma upd_incl (inp : mem) (A : Z -> Prop) m m' : upd A m m' -> (forall x, A x -> inp !! x = None) -> inp ⊆ m -> inp ⊆ m'.
Proof.
  intros [H _] Hd Hs. apply map_subseteq_spec. intros x b Hx. rewrite H; [by eapply lookup_weaken|].
  intros Ha. rewrite (Hd x Ha) in Hx. done.
Qed.

Lemma upd_agree A m m' a n : upd A m m' -> (forall x, within a n x -> ~ A x) ->
  forall i, 0 <= i < n -> m !! (a + i) = m' !! (a + i).
Proof. intros [H _] Hd i Hi. symmetry. apply H, Hd. unfold within. lia. Qed.

(** * Memory byte by byte

    A program on buffers is described by the bytes at each address before and after it,
    which leaves what aliases what to arithmetic. *)

Definition byte (m : mem) (a : Z) : Z := default 0 (m !! a).
Definition bytes_at (m : mem) (a n : Z) : bytes := map (fun i => byte m (a + i)) (seqZ 0 n).

Lemma upd_byte A m m' x : upd A m m' -> ~ A x -> byte m' x = byte m x.
Proof. intros [H _] Hx. unfold byte. by rewrite H. Qed.

Lemma byte_is_byte m a : mem_bytes m -> is_byte (byte m a).
Proof. intros H. unfold byte. destruct (m !! a) as [b|] eqn:E; cbn; [by apply (H a)|unfold is_u; lia]. Qed.

Lemma bytes_at_ok m a n : mem_bytes m -> bytes_ok (bytes_at m a n).
Proof. intros H. apply Forall_map, Forall_forall. intros i _. by apply byte_is_byte. Qed.

Lemma length_bytes_at m a n : length (bytes_at m a n) = Z.to_nat n.
Proof. unfold bytes_at. by rewrite length_map, length_seqZ. Qed.

#[export] Hint Rewrite length_bytes_at : len.

Lemma bytes_at_lookup m a n i : (i < Z.to_nat n)%nat -> bytes_at m a n !! i = Some (byte m (a + Z.of_nat i)).
Proof. intros Hi. unfold bytes_at. apply list_lookup_fmap_Some. exists (Z.of_nat i). split; [|by apply lookup_seqZ; lia]. f_equal. Qed.

Lemma zget_bytes_at m a n i : 0 <= i < n -> zget (bytes_at m a n) i = byte m (a + i).
Proof.
  intros Hi. unfold zget. apply nth_lookup_Some with (d := 0). rewrite bytes_at_lookup by lia. do 2 f_equal. lia.
Qed.

(** A buffer is the list [l] when each of its bytes is. *)
Lemma bytes_at_eq m a l n : zlen l = n -> (forall i, 0 <= i < n -> byte m (a + i) = zget l i) -> bytes_at m a n = l.
Proof.
  intros Hn H. apply (list_eq_same_length _ _ (Z.to_nat n)); [lia|by rewrite length_bytes_at|].
  intros i x y Hi. rewrite bytes_at_lookup by lia. intros [= <-] Hy. rewrite H by lia. unfold zget.
  rewrite Nat2Z.id. by apply nth_lookup_Some.
Qed.

Lemma bytes_at_ext m m' a b n : (forall i, 0 <= i < n -> byte m (a + i) = byte m' (b + i)) -> bytes_at m a n = bytes_at m' b n.
Proof. intros H. unfold bytes_at. apply list_fmap_ext. intros i x Hx. apply lookup_seqZ in Hx. apply H. lia. Qed.

Lemma bytes_at_snoc m a n : 0 <= n -> bytes_at m a (n + 1) = bytes_at m a n ++ [byte m (a + n)].
Proof. intros Hn. unfold bytes_at. rewrite seqZ_app, map_app by lia. done. Qed.

Lemma bytes_at_app m a n k : 0 <= n -> 0 <= k -> bytes_at m a (n + k) = bytes_at m a n ++ bytes_at m (a + n) k.
Proof.
  intros Hn Hk. unfold bytes_at. rewrite seqZ_app, map_app by lia. f_equal. rewrite Z.add_0_l.
  rewrite <- (Z.add_0_r n) at 1. rewrite <- fmap_add_seqZ, <- list_fmap_compose. apply list_fmap_ext. intros i x _. cbn. f_equal. lia.
Qed.

Lemma bytes_at_upd A m m' a n : upd A m m' -> (forall x, within a n x -> ~ A x) -> bytes_at m' a n = bytes_at m a n.
Proof. intros Hu Hd. apply bytes_at_ext. intros i Hi. apply (upd_byte A); [done|]. apply Hd. unfold within. lia. Qed.

Lemma mem_load_at m a n : mapped m a n -> mem_load n a m = Some (bytes_at m a n, m).
Proof.
  intros Hm. unfold mem_load. destruct (load_bytes_mapped (Z.to_nat n) m a) as [l E].
  { intros i Hi. apply Hm. lia. }
  rewrite E. do 2 f_equal. apply load_bytes_lookup in E as [Hl H]. symmetry.
  apply (list_eq_same_length _ _ (Z.to_nat n)); [done|by rewrite length_bytes_at|].
  intros i x y Hi. rewrite bytes_at_lookup by done. intros [= <-] Hy. specialize (H i Hi). rewrite Hy in H.
  unfold byte. by rewrite H.
Qed.

(** A part of a mapped interval, here or in an earlier memory. *)
Ltac mapped_tac :=
  match goal with
  | H : mapped ?m _ _ |- mapped ?m _ _ => eapply mapped_sub; [exact H|lia|lia]
  | Hu : upd _ ?m ?m' |- mapped ?m' _ _ => apply (upd_mapped _ _ _ _ _ Hu); mapped_tac
  end.

(** * Computations on memory

    [runs c m A Q]: from [m], [c] is defined, changes no byte but those of [A], and ends
    with a result and a memory that satisfy [Q]. *)

Definition runs {X} (c : M mem X) (m : mem) (A : Z -> Prop) (Q : X -> mem -> Prop) : Prop :=
  exists x m', c m = Some (x, m') /\ upd A m m' /\ mem_bytes m' /\ Q x m'.

Lemma runs_ret {X} (x : X) m A (Q : X -> mem -> Prop) : mem_bytes m -> Q x m -> runs (sret x) m A Q.
Proof. intros Hm HQ. exists x, m. split_and!; [done|apply upd_refl|done|done]. Qed.

Lemma runs_bind {X Y} (c : M mem X) (k : X -> M mem Y) m A Q R : runs c m A Q ->
  (forall x m', upd A m m' -> mem_bytes m' -> Q x m' -> runs (k x) m' A R) -> runs (sbind c k) m A R.
Proof.
  intros (x & m1 & E & Hu & Hb & HQ) Hk. destruct (Hk x m1 Hu Hb HQ) as (y & m2 & E2 & Hu2 & Hb2 & HR).
  exists y, m2. unfold sbind. rewrite E. split_and!; [done|by eapply upd_trans|done|done].
Qed.

Lemma runs_sub {X} (c : M mem X) m (A B : Z -> Prop) (Q R : X -> mem -> Prop) : runs c m A Q -> (forall x, A x -> B x) ->
  (forall x m', upd A m m' -> mem_bytes m' -> Q x m' -> R x m') -> runs c m B R.
Proof.
  intros (x & m' & E & Hu & Hb & HQ) HA HR. exists x, m'. split_and!; [done|by eapply upd_sub|done|by apply HR].
Qed.

Lemma runs_load n a m (A : Z -> Prop) (Q : bytes -> mem -> Prop) : mem_bytes m -> mapped m a n -> Q (bytes_at m a n) m -> runs (mem_load n a) m A Q.
Proof. intros Hb Hm HQ. exists (bytes_at m a n), m. split_and!; [by apply mem_load_at|apply upd_refl|done|done]. Qed.

(** A store puts the list at its address. *)
Lemma runs_store a l m A : mem_bytes m -> bytes_ok l -> mapped m a (zlen l) -> (forall x, within a (zlen l) x -> A x) ->
  runs (mem_store a l) m A (fun _ m' => upd (within a (zlen l)) m m' /\ forall i, 0 <= i < zlen l -> byte m' (a + i) = zget l i).
Proof.
  intros Hb Hl Hm HA. destruct (store_bytes_spec l a m Hm) as (m' & E & Hin & Hout).
  destruct (store_bytes_inv _ _ _ _ E) as (_ & _ & Hd).
  assert (Hu : upd (within a (zlen l)) m m') by (split; [|done]; intros x Hx; apply Hout; unfold within in Hx; lia).
  exists tt, m'. unfold mem_store. rewrite E. split_and!; [done|by eapply upd_sub|by eapply store_bytes_ok|done|].
  intros i Hi. unfold byte, zget. replace (a + i) with (a + Z.of_nat (Z.to_nat i)) by lia. rewrite Hin by lia.
  rewrite nth_lookup. done.
Qed.

Lemma runs_load_u n a m (A : Z -> Prop) (Q : Z -> mem -> Prop) : mem_bytes m -> mapped m a n -> Q (le_val (bytes_at m a n)) m ->
  runs (load_u n a) m A Q.
Proof.
  intros Hb Hm HQ. eapply runs_bind; [apply runs_load with (Q := fun l m' => l = bytes_at m a n /\ m' = m); done|].
  intros x m' _ _ [-> ->]. by apply runs_ret.
Qed.

Lemma runs_store_u n a v m A : mem_bytes m -> 0 <= n -> mapped m a n -> (forall x, within a n x -> A x) ->
  runs (store_u n a v) m A (fun _ m' => upd (within a n) m m' /\
    forall i, 0 <= i < n -> byte m' (a + i) = zget (le_bytes (Z.to_nat n) v) i).
Proof.
  intros Hb Hn Hm HA. assert (Hl : zlen (le_bytes (Z.to_nat n) v) = n) by (rewrite length_le_bytes; lia).
  pose proof (runs_store a (le_bytes (Z.to_nat n) v) m A Hb (le_bytes_ok _ _)) as H. rewrite Hl in H. by apply H.
Qed.

Lemma lxor_mod_256 x y : Z.lxor x y mod 256 = Z.lxor (x mod 256) (y mod 256).
Proof.
  change 256 with (2 ^ 8). apply Z.bits_inj'. intros i Hi. rewrite Z.lxor_spec.
  destruct (Z.lt_ge_cases i 8); [rewrite !Z.mod_pow2_bits_low, Z.lxor_spec by lia|rewrite !Z.mod_pow2_bits_high by lia]; done.
Qed.

Lemma lxor_div_256 x y : Z.lxor x y / 256 = Z.lxor (x / 256) (y / 256).
Proof. change 256 with (2 ^ 8). rewrite <- !Z.shiftr_div_pow2 by lia. apply Z.shiftr_lxor. Qed.

Lemma zget_le_bytes_lxor n x y i : zget (le_bytes n (Z.lxor x y)) i = Z.lxor (zget (le_bytes n x) i) (zget (le_bytes n y) i).
Proof.
  unfold zget. generalize (Z.to_nat i). intros j. revert x y j. induction n as [|n IH]; intros x y j; [by destruct j|].
  rewrite !le_bytes_S. destruct j as [|j]; cbn [nth]; [apply lxor_mod_256|]. by rewrite lxor_div_256, IH.
Qed.

(** The word of [n] bytes at [out] becomes the exclusive or of those at [a] and [b]. *)
Definition xor_u (n out a b : Z) : M mem unit := let* x := load_u n a in let* y := load_u n b in store_u n out (Z.lxor x y).

Lemma runs_xor_u n out a b m A : mem_bytes m -> 0 <= n -> mapped m out n -> mapped m a n -> mapped m b n ->
  (forall x, within out n x -> A x) ->
  runs (xor_u n out a b) m A (fun _ m' => upd (within out n) m m' /\
    forall i, 0 <= i < n -> byte m' (out + i) = Z.lxor (byte m (a + i)) (byte m (b + i))).
Proof.
  intros Hm Hn Ho Ha Hb HA. unfold xor_u. eapply runs_bind; [by apply runs_load_u with (Q := fun v m' => v = le_val (bytes_at m a n) /\ m' = m)|].
  intros ? ? _ _ [-> ->]. eapply runs_bind; [by apply runs_load_u with (Q := fun v m' => v = le_val (bytes_at m b n) /\ m' = m)|].
  intros ? ? _ _ [-> ->]. eapply runs_sub; [by apply runs_store_u|done|]. intros _ m' _ _ [Hu H]. split; [done|].
  intros i Hi. rewrite H, zget_le_bytes_lxor by done.
  assert (E : forall p, zget (le_bytes (Z.to_nat n) (le_val (bytes_at m p n))) i = byte m (p + i)); [|by rewrite !E].
  intros p. rewrite <- (length_bytes_at m p n), le_bytes_le_val by by apply bytes_at_ok. by apply zget_bytes_at.
Qed.
