(* ===== verification/AesSpec.v ===== *)
(** * The AES of FIPS 197

    The specification of the block cipher: the field of 256 elements, the state as 16
    bytes by columns, the key expansion, the cipher and its inverse. No table is
    copied: the S-box is computed from the field. The inverse cipher inverts the
    cipher ([InvCipher_Cipher]). *)

From Stdlib Require Import ZArith Lia Btauto.
From stdpp Require Import base list.
From S2P Require Import Prelude.

(** * The field *)

Definition xtime (b : Z) : Z := Z.lxor (u8 (2 * b)) (if b <? 128 then 0 else 0x1b).

(** Multiplication, on the bits of the first factor. *)
Fixpoint gmul_bits (n : nat) (a b : Z) : Z :=
  match n with
  | O => 0
  | S n => Z.lxor (if Z.odd a then b else 0) (gmul_bits n (a / 2) (xtime b))
  end.
Definition gmul (a b : Z) : Z := gmul_bits 8 a b.

Fixpoint gpow (n : nat) (b : Z) : Z := match n with O => 1 | S n => gmul (gpow n b) b end.

(** The multiplicative inverse, and 0 for 0. *)
Definition ginv (b : Z) : Z := gpow 254 b.

(** * The S-box *)

Definition rotl8 (n b : Z) : Z := Z.lor (u8 (Z.shiftl b n)) (Z.shiftr b (8 - n)).

Definition sbox_at (b : Z) : Z :=
  let s := ginv b in
  Z.lxor s (Z.lxor (rotl8 1 s) (Z.lxor (rotl8 2 s) (Z.lxor (rotl8 3 s) (Z.lxor (rotl8 4 s) 0x63)))).

Definition inv_sbox_at (b : Z) : Z :=
  ginv (Z.lxor (rotl8 1 b) (Z.lxor (rotl8 3 b) (Z.lxor (rotl8 6 b) 0x05))).

(** The values, computed once. *)
Definition sbox_values : list Z := Eval vm_compute in map sbox_at (seqZ 0 256).
Definition inv_sbox_values : list Z := Eval vm_compute in map inv_sbox_at (seqZ 0 256).
Definition sbox (b : Z) : Z := zget sbox_values b.
Definition inv_sbox (b : Z) : Z := zget inv_sbox_values b.

(** * The state: 16 bytes, by columns *)

Definition SubBytes (s : bytes) : bytes := map sbox s.
Definition InvSubBytes (s : bytes) : bytes := map inv_sbox s.

(** Row [r] of column [c] is byte [r + 4 * c]; row [r] is rotated by [r] columns. *)
Definition shift_rows (dir : Z) (s : bytes) : bytes :=
  map (fun i => zget s (i mod 4 + 4 * ((i / 4 + dir * (i mod 4)) mod 4))) (seqZ 0 16).
Definition ShiftRows : bytes -> bytes := shift_rows 1.
Definition InvShiftRows : bytes -> bytes := shift_rows (-1).

Definition mix_column (s : bytes) : bytes :=
  match s with
  | [a; b; c; d] =>
      [Z.lxor (Z.lxor (Z.lxor (gmul 2 a) (gmul 3 b)) c) d;
       Z.lxor (Z.lxor (Z.lxor a (gmul 2 b)) (gmul 3 c)) d;
       Z.lxor (Z.lxor (Z.lxor a b) (gmul 2 c)) (gmul 3 d);
       Z.lxor (Z.lxor (Z.lxor (gmul 3 a) b) c) (gmul 2 d)]
  | _ => s
  end.

Definition inv_mix_column (s : bytes) : bytes :=
  match s with
  | [a; b; c; d] =>
      [Z.lxor (Z.lxor (Z.lxor (gmul 14 a) (gmul 11 b)) (gmul 13 c)) (gmul 9 d);
       Z.lxor (Z.lxor (Z.lxor (gmul 9 a) (gmul 14 b)) (gmul 11 c)) (gmul 13 d);
       Z.lxor (Z.lxor (Z.lxor (gmul 13 a) (gmul 9 b)) (gmul 14 c)) (gmul 11 d);
       Z.lxor (Z.lxor (Z.lxor (gmul 11 a) (gmul 13 b)) (gmul 9 c)) (gmul 14 d)]
  | _ => s
  end.

Definition column (i : Z) (s : bytes) : bytes := ztake 4 (zdrop (4 * i) s).
Definition on_columns (f : bytes -> bytes) (s : bytes) : bytes :=
  f (column 0 s) ++ f (column 1 s) ++ f (column 2 s) ++ f (column 3 s).
Definition MixColumns : bytes -> bytes := on_columns mix_column.
Definition InvMixColumns : bytes -> bytes := on_columns inv_mix_column.

(** * The key expansion: a word is four bytes *)

Definition SubWord (w : bytes) : bytes := map sbox w.
Definition RotWord (w : bytes) : bytes := zdrop 1 w ++ ztake 1 w.
Definition Rcon (i : Z) : bytes := [gpow (Z.to_nat (i - 1)) 2; 0; 0; 0].

Definition word_at (w : list bytes) (i : Z) : bytes := nth (Z.to_nat i) w [].

(** The word after the words [w]. *)
Definition next_word (Nk : Z) (w : list bytes) : bytes :=
  let i := zlen w in
  let temp := word_at w (i - 1) in
  let temp :=
    if i mod Nk =? 0 then xor_bytes (SubWord (RotWord temp)) (Rcon (i / Nk))
    else if (6 <? Nk) && (i mod Nk =? 4) then SubWord temp
    else temp in
  xor_bytes (word_at w (i - Nk)) temp.

Fixpoint expand (n : nat) (Nk : Z) (w : list bytes) : list bytes :=
  match n with O => w | S n => expand n Nk (w ++ [next_word Nk w]) end.

Definition key_words (Nk : Z) (key : bytes) : list bytes :=
  map (fun i => ztake 4 (zdrop (4 * i) key)) (seqZ 0 Nk).

(** The words of the key schedule, for [Nr = Nk + 6] rounds. *)
Definition KeyExpansion (Nk : Z) (key : bytes) : list bytes :=
  expand (Z.to_nat (4 * (Nk + 7) - Nk)) Nk (key_words Nk key).

(** * The cipher *)

Definition round_key (w : list bytes) (i : Z) : bytes := concat (ztake 4 (zdrop (4 * i) w)).

Definition enc_round (w : list bytes) (s : bytes) (i : Z) : bytes :=
  xor_bytes (MixColumns (ShiftRows (SubBytes s))) (round_key w i).

Definition Cipher (Nr : Z) (w : list bytes) (s : bytes) : bytes :=
  let s := fold_left (enc_round w) (seqZ 1 (Nr - 1)) (xor_bytes s (round_key w 0)) in
  xor_bytes (ShiftRows (SubBytes s)) (round_key w Nr).

Definition dec_round (w : list bytes) (s : bytes) (i : Z) : bytes :=
  InvMixColumns (xor_bytes (InvSubBytes (InvShiftRows s)) (round_key w i)).

Definition InvCipher (Nr : Z) (w : list bytes) (s : bytes) : bytes :=
  let s := fold_left (dec_round w) (rev (seqZ 1 (Nr - 1))) (xor_bytes s (round_key w Nr)) in
  xor_bytes (InvSubBytes (InvShiftRows s)) (round_key w 0).

(** The example of appendix C.1 of FIPS 197. *)
Example Cipher_C1 :
  let w := KeyExpansion 4 (seqZ 0 16) in
  let input := [0x00; 0x11; 0x22; 0x33; 0x44; 0x55; 0x66; 0x77; 0x88; 0x99; 0xaa; 0xbb; 0xcc; 0xdd; 0xee; 0xff] in
  let output := [0x69; 0xc4; 0xe0; 0xd8; 0x6a; 0x7b; 0x04; 0x30; 0xd8; 0xcd; 0xb7; 0x80; 0x70; 0xb4; 0xc5; 0x5a] in
  Cipher 10 w input = output /\ InvCipher 10 w output = input.
Proof. vm_compute. by split. Qed.

(** That of appendix C.3. *)
Example Cipher_C3 :
  Cipher 14 (KeyExpansion 8 (seqZ 0 32))
    [0x00; 0x11; 0x22; 0x33; 0x44; 0x55; 0x66; 0x77; 0x88; 0x99; 0xaa; 0xbb; 0xcc; 0xdd; 0xee; 0xff] =
  [0x8e; 0xa2; 0xb7; 0xca; 0x51; 0x67; 0x45; 0xbf; 0xea; 0xfc; 0x49; 0x90; 0x4b; 0x49; 0x60; 0x89].
Proof. vm_compute. reflexivity. Qed.

(** * Lemmas: the field *)

Lemma xtime_byte b : is_byte b -> is_byte (xtime b).
Proof.
  intros Hb. apply (byte_forall (fun b => (0 <=? xtime b) && (xtime b <? 2 ^ 8))) in Hb; [|vm_compute; reflexivity].
  unfold is_u. lia.
Qed.

Lemma xtime_xor x y : is_byte x -> is_byte y -> xtime (Z.lxor x y) = Z.lxor (xtime x) (xtime y).
Proof.
  intros Hx Hy. apply Z.eqb_eq. revert x y Hx Hy.
  apply (byte_forall2 (fun x y => xtime (Z.lxor x y) =? Z.lxor (xtime x) (xtime y))). vm_compute. reflexivity.
Qed.

Lemma gmul_bits_byte n a b : is_byte b -> is_byte (gmul_bits n a b).
Proof.
  revert a b. induction n as [|n IH]; intros a b Hb; cbn [gmul_bits]; [unfold is_u; lia|].
  apply (lxor_is_u 8); [lia|destruct (Z.odd a); [done|unfold is_u; lia]|]. by apply IH, xtime_byte.
Qed.

Lemma gmul_byte a b : is_byte b -> is_byte (gmul a b).
Proof. apply gmul_bits_byte. Qed.

Lemma lxor_swap a b c d : Z.lxor (Z.lxor a b) (Z.lxor c d) = Z.lxor (Z.lxor a c) (Z.lxor b d).
Proof. apply Z.bits_inj'. intros i _. rewrite !Z.lxor_spec. btauto. Qed.

Lemma gmul_xor a x y : is_byte x -> is_byte y -> gmul a (Z.lxor x y) = Z.lxor (gmul a x) (gmul a y).
Proof.
  unfold gmul. generalize 8%nat. intros n. revert a x y. induction n as [|n IH]; intros a x y Hx Hy; cbn [gmul_bits]; [done|].
  rewrite xtime_xor, IH by (done || by apply xtime_byte). rewrite lxor_swap. f_equal. by destruct (Z.odd a).
Qed.

Lemma sbox_byte b : is_byte b -> is_byte (sbox b).
Proof.
  intros Hb. apply (byte_forall (fun b => (0 <=? sbox b) && (sbox b <? 2 ^ 8))) in Hb; [|vm_compute; reflexivity].
  unfold is_u. lia.
Qed.

Lemma inv_sbox_byte b : is_byte b -> is_byte (inv_sbox b).
Proof.
  intros Hb. apply (byte_forall (fun b => (0 <=? inv_sbox b) && (inv_sbox b <? 2 ^ 8))) in Hb; [|vm_compute; reflexivity].
  unfold is_u. lia.
Qed.

Lemma inv_sbox_sbox b : is_byte b -> inv_sbox (sbox b) = b.
Proof.
  intros Hb. apply Z.eqb_eq. revert b Hb. apply (byte_forall (fun b => inv_sbox (sbox b) =? b)). vm_compute. reflexivity.
Qed.

(** * Lemmas: a column *)

#[local] Abbreviation x4 a b c d := (Z.lxor (Z.lxor (Z.lxor a b) c) d).

(** A row of a matrix over the field, times a column. *)
Definition row (e1 e2 e3 e4 a b c d : Z) : Z := x4 (gmul e1 a) (gmul e2 b) (gmul e3 c) (gmul e4 d).

Lemma x4_byte a b c d : is_byte a -> is_byte b -> is_byte c -> is_byte d -> is_byte (x4 a b c d).
Proof. intros. repeat (apply (lxor_is_u 8); [lia| |]); done. Qed.

Lemma row_byte e1 e2 e3 e4 a b c d : is_byte a -> is_byte b -> is_byte c -> is_byte d -> is_byte (row e1 e2 e3 e4 a b c d).
Proof. intros. apply x4_byte; by apply gmul_byte. Qed.

Lemma gmul_1 x : is_byte x -> gmul 1 x = x.
Proof. intros Hx. apply Z.eqb_eq. revert x Hx. apply (byte_forall (fun x => gmul 1 x =? x)). vm_compute. reflexivity. Qed.

Lemma mix_column_rows a b c d : is_byte a -> is_byte b -> is_byte c -> is_byte d ->
  mix_column [a; b; c; d] =
    [row 2 3 1 1 a b c d; row 1 2 3 1 a b c d; row 1 1 2 3 a b c d; row 3 1 1 2 a b c d].
Proof. intros. unfold row. rewrite !gmul_1 by done. done. Qed.

Lemma gmul_x4 k a b c d : is_byte a -> is_byte b -> is_byte c -> is_byte d ->
  gmul k (x4 a b c d) = x4 (gmul k a) (gmul k b) (gmul k c) (gmul k d).
Proof.
  intros Ha Hb Hc Hd. assert (H1 : is_byte (Z.lxor a b)) by (apply (lxor_is_u 8); [lia|done..]).
  rewrite gmul_xor, gmul_xor, gmul_xor; [done|done|done|done|done|by apply (lxor_is_u 8)|done].
Qed.

Lemma x4_transpose a1 b1 c1 d1 a2 b2 c2 d2 a3 b3 c3 d3 a4 b4 c4 d4 :
  x4 (x4 a1 b1 c1 d1) (x4 a2 b2 c2 d2) (x4 a3 b3 c3 d3) (x4 a4 b4 c4 d4) =
  x4 (x4 a1 a2 a3 a4) (x4 b1 b2 b3 b4) (x4 c1 c2 c3 c4) (x4 d1 d2 d3 d4).
Proof. apply Z.bits_inj'. intros i _. rewrite !Z.lxor_spec. btauto. Qed.

(** An entry of the product of two matrices: [p] times every byte. *)
Definition entry (p c1 c2 c3 c4 e1 e2 e3 e4 : Z) : bool :=
  forallb (fun x => x4 (gmul c1 (gmul e1 x)) (gmul c2 (gmul e2 x)) (gmul c3 (gmul e3 x)) (gmul c4 (gmul e4 x)) =? gmul p x)
    (map Z.of_nat (seq 0 256)).

Lemma entry_spec p c1 c2 c3 c4 e1 e2 e3 e4 x : entry p c1 c2 c3 c4 e1 e2 e3 e4 = true -> is_byte x ->
  x4 (gmul c1 (gmul e1 x)) (gmul c2 (gmul e2 x)) (gmul c3 (gmul e3 x)) (gmul c4 (gmul e4 x)) = gmul p x.
Proof. intros H Hx. apply Z.eqb_eq. exact (byte_forall _ H x Hx). Qed.

(** A row of [InvMixColumns] times the matrix of [MixColumns]. *)
Lemma row_product c1 c2 c3 c4 p1 p2 p3 p4 a b c d : is_byte a -> is_byte b -> is_byte c -> is_byte d ->
  entry p1 c1 c2 c3 c4 2 1 1 3 && entry p2 c1 c2 c3 c4 3 2 1 1 && entry p3 c1 c2 c3 c4 1 3 2 1 &&
    entry p4 c1 c2 c3 c4 1 1 3 2 = true ->
  row c1 c2 c3 c4 (row 2 3 1 1 a b c d) (row 1 2 3 1 a b c d) (row 1 1 2 3 a b c d) (row 3 1 1 2 a b c d) =
  row p1 p2 p3 p4 a b c d.
Proof.
  intros Ha Hb Hc Hd H. rewrite !andb_true_iff in H. destruct H as [[[H1 H2] H3] H4]. unfold row at 1 2 3 4 5.
  rewrite !gmul_x4 by by apply gmul_byte. rewrite x4_transpose. unfold row.
  by rewrite (entry_spec _ _ _ _ _ _ _ _ _ a H1), (entry_spec _ _ _ _ _ _ _ _ _ b H2),
    (entry_spec _ _ _ _ _ _ _ _ _ c H3), (entry_spec _ _ _ _ _ _ _ _ _ d H4) by done.
Qed.

Lemma gmul_0_l x : gmul 0 x = 0.
Proof. reflexivity. Qed.

Lemma inv_mix_column_rows a b c d :
  inv_mix_column [a; b; c; d] =
    [row 14 11 13 9 a b c d; row 9 14 11 13 a b c d; row 13 9 14 11 a b c d; row 11 13 9 14 a b c d].
Proof. done. Qed.

Lemma inv_mix_mix_column a b c d : is_byte a -> is_byte b -> is_byte c -> is_byte d ->
  inv_mix_column (mix_column [a; b; c; d]) = [a; b; c; d].
Proof.
  intros Ha Hb Hc Hd. rewrite mix_column_rows by done. rewrite inv_mix_column_rows.
  rewrite (row_product 14 11 13 9 1 0 0 0); [|done..|vm_compute; reflexivity].
  rewrite (row_product 9 14 11 13 0 1 0 0); [|done..|vm_compute; reflexivity].
  rewrite (row_product 13 9 14 11 0 0 1 0); [|done..|vm_compute; reflexivity].
  rewrite (row_product 11 13 9 14 0 0 0 1); [|done..|vm_compute; reflexivity].
  unfold row. rewrite !gmul_0_l, !gmul_1, !Z.lxor_0_l, !Z.lxor_0_r by done. done.
Qed.

Lemma bytes_ok_4 a b c d : bytes_ok [a; b; c; d] -> is_byte a /\ is_byte b /\ is_byte c /\ is_byte d.
Proof. unfold bytes_ok. rewrite !Forall_cons. tauto. Qed.

(** [InvMixColumns] is linear. *)
Lemma row_xor e1 e2 e3 e4 a b c d a' b' c' d' : bytes_ok [a; b; c; d] -> bytes_ok [a'; b'; c'; d'] ->
  row e1 e2 e3 e4 (Z.lxor a a') (Z.lxor b b') (Z.lxor c c') (Z.lxor d d') =
  Z.lxor (row e1 e2 e3 e4 a b c d) (row e1 e2 e3 e4 a' b' c' d').
Proof.
  intros (Ha & Hb & Hc & Hd)%bytes_ok_4 (Ha' & Hb' & Hc' & Hd')%bytes_ok_4.
  unfold row. rewrite !gmul_xor by done. apply Z.bits_inj'. intros i _. rewrite !Z.lxor_spec. btauto.
Qed.

Lemma inv_mix_column_xor a b c d a' b' c' d' : bytes_ok [a; b; c; d] -> bytes_ok [a'; b'; c'; d'] ->
  inv_mix_column (xor_bytes [a; b; c; d] [a'; b'; c'; d']) =
  xor_bytes (inv_mix_column [a; b; c; d]) (inv_mix_column [a'; b'; c'; d']).
Proof. intros H H'. cbn [xor_bytes zip_with]. rewrite !inv_mix_column_rows, !row_xor by done. done. Qed.

(** * Lemmas: states *)

Definition state_ok (s : bytes) : Prop := length s = 16%nat /\ bytes_ok s.

(** A state is its sixteen bytes. *)
Ltac bytes16 s H :=
  let Hl := fresh "Hl" in let Hb := fresh "Hb" in destruct H as [Hl Hb];
  do 16 (destruct s as [|? s]; [discriminate Hl|]); destruct s; [|discriminate Hl]; clear Hl;
  unfold bytes_ok in Hb; rewrite !Forall_cons in Hb; destruct_and! Hb.

(** Bytes, one by one. *)
Ltac bytes_list := unfold bytes_ok; rewrite ?Forall_cons; split_and?; [done..|constructor].

Lemma bytes_ok_cons b l : bytes_ok (b :: l) <-> is_byte b /\ bytes_ok l.
Proof. apply Forall_cons. Qed.

Lemma SubBytes_ok s : state_ok s -> state_ok (SubBytes s).
Proof.
  intros [Hl Hb]. split; [unfold SubBytes; by rewrite length_map|]. apply Forall_map. eapply Forall_impl; [exact Hb|].
  intros x. apply sbox_byte.
Qed.

Lemma xor_state_ok s k : state_ok s -> state_ok k -> state_ok (xor_bytes s k).
Proof.
  intros [H1 H2] [H3 H4]. split; [|by apply xor_bytes_ok]. unfold xor_bytes. rewrite length_zip_with. lia.
Qed.

Lemma ShiftRows_ok s : state_ok s -> state_ok (ShiftRows s).
Proof.
  intros [Hl Hb]. split; [done|]. apply Forall_map, Forall_forall. intros i _. by apply zget_byte.
Qed.

Lemma on_columns_16 f x0 x1 x2 x3 x4 x5 x6 x7 x8 x9 x10 x11 x12 x13 x14 x15 :
  on_columns f [x0; x1; x2; x3; x4; x5; x6; x7; x8; x9; x10; x11; x12; x13; x14; x15] =
  f [x0; x1; x2; x3] ++ f [x4; x5; x6; x7] ++ f [x8; x9; x10; x11] ++ f [x12; x13; x14; x15].
Proof. done. Qed.

Lemma mix_column_ok a b c d : is_byte a -> is_byte b -> is_byte c -> is_byte d ->
  exists a' b' c' d', mix_column [a; b; c; d] = [a'; b'; c'; d'] /\ is_byte a' /\ is_byte b' /\ is_byte c' /\ is_byte d'.
Proof.
  intros. rewrite mix_column_rows by done. eexists _, _, _, _. split; [done|]. split_and!; by apply row_byte.
Qed.

Lemma inv_mix_column_ok a b c d : is_byte a -> is_byte b -> is_byte c -> is_byte d ->
  exists a' b' c' d', inv_mix_column [a; b; c; d] = [a'; b'; c'; d'] /\ is_byte a' /\ is_byte b' /\ is_byte c' /\ is_byte d'.
Proof.
  intros. rewrite inv_mix_column_rows. eexists _, _, _, _. split; [done|]. split_and!; by apply row_byte.
Qed.

Lemma on_columns_ok f s : (forall a b c d, is_byte a -> is_byte b -> is_byte c -> is_byte d ->
    exists a' b' c' d', f [a; b; c; d] = [a'; b'; c'; d'] /\ is_byte a' /\ is_byte b' /\ is_byte c' /\ is_byte d') ->
  state_ok s -> state_ok (on_columns f s).
Proof.
  intros Hf H. bytes16 s H. rewrite on_columns_16.
  repeat match goal with |- context [f [?a; ?b; ?c; ?d]] =>
    let E := fresh "E" in destruct (Hf a b c d) as (? & ? & ? & ? & E & ? & ? & ? & ?); [done..|]; rewrite E; clear E end.
  cbn [app]. split; [done|]. by bytes_list.
Qed.

Lemma MixColumns_ok s : state_ok s -> state_ok (MixColumns s).
Proof. apply on_columns_ok, mix_column_ok. Qed.

Lemma InvMixColumns_ok s : state_ok s -> state_ok (InvMixColumns s).
Proof. apply on_columns_ok, inv_mix_column_ok. Qed.

Lemma InvMixColumns_MixColumns s : state_ok s -> InvMixColumns (MixColumns s) = s.
Proof.
  intros H. bytes16 s H. unfold MixColumns, InvMixColumns. rewrite on_columns_16.
  repeat match goal with |- context [mix_column [?a; ?b; ?c; ?d] ++ _] => 
    let E := fresh "E" in let E' := fresh "E'" in
    destruct (mix_column_ok a b c d) as (? & ? & ? & ? & E & _); [done..|];
    pose proof (inv_mix_mix_column a b c d ltac:(done) ltac:(done) ltac:(done) ltac:(done)) as E'; rewrite E in E' |- *; clear E end.
  match goal with |- context [mix_column [?a; ?b; ?c; ?d]] => 
    let E := fresh "E" in let E' := fresh "E'" in
    destruct (mix_column_ok a b c d) as (? & ? & ? & ? & E & _); [done..|];
    pose proof (inv_mix_mix_column a b c d ltac:(done) ltac:(done) ltac:(done) ltac:(done)) as E'; rewrite E in E' |- *; clear E end.
  cbn [app]. rewrite on_columns_16. repeat match goal with E : inv_mix_column _ = _ |- _ => rewrite E; clear E end. done.
Qed.

Lemma InvMixColumns_xor s k : state_ok s -> state_ok k ->
  InvMixColumns (xor_bytes s k) = xor_bytes (InvMixColumns s) (InvMixColumns k).
Proof.
  intros H H'. bytes16 s H. bytes16 k H'. unfold InvMixColumns. cbn [xor_bytes zip_with]. rewrite !on_columns_16.
  rewrite !inv_mix_column_rows, !row_xor by by bytes_list. done.
Qed.

Lemma InvSubBytes_SubBytes s : state_ok s -> InvSubBytes (SubBytes s) = s.
Proof.
  intros [_ Hb]. unfold InvSubBytes, SubBytes. rewrite map_map. induction Hb as [|x s Hx _ IH]; [done|].
  cbn [map]. by rewrite inv_sbox_sbox, IH.
Qed.

Lemma InvShiftRows_ShiftRows s : state_ok s -> InvShiftRows (ShiftRows s) = s.
Proof. intros H. bytes16 s H. reflexivity. Qed.

Lemma InvSub_InvShift s : state_ok s -> InvSubBytes (InvShiftRows (ShiftRows (SubBytes s))) = s.
Proof. intros H. rewrite InvShiftRows_ShiftRows by by apply SubBytes_ok. by apply InvSubBytes_SubBytes. Qed.

(** * The inverse cipher inverts the cipher *)

Definition keys_ok (Nr : Z) (w : list bytes) : Prop := forall i, 0 <= i <= Nr -> state_ok (round_key w i).

Section Invert.
Variables (Nr : Z) (w : list bytes).
Hypothesis Hw : keys_ok Nr w.

Lemma enc_round_ok s i : state_ok s -> 0 <= i <= Nr -> state_ok (enc_round w s i).
Proof. intros Hs Hi. apply xor_state_ok; [|by apply Hw]. by apply MixColumns_ok, ShiftRows_ok, SubBytes_ok. Qed.

Lemma rounds_ok l s : state_ok s -> Forall (fun i => 0 <= i <= Nr) l -> state_ok (fold_left (enc_round w) l s).
Proof. intros Hs Hl. revert s Hs. induction Hl as [|i l Hi _ IH]; intros s Hs; [done|]. cbn. by apply IH, enc_round_ok. Qed.

Lemma dec_rounds l s : state_ok s -> Forall (fun i => 0 <= i <= Nr) l ->
  fold_left (dec_round w) (rev l) (ShiftRows (SubBytes (fold_left (enc_round w) l s))) = ShiftRows (SubBytes s).
Proof.
  intros Hs. induction l as [|i l IH] using rev_ind; intros Hl; [done|]. apply Forall_app in Hl as [Hl Hi].
  apply Forall_cons in Hi as [Hi _]. rewrite fold_left_app, rev_app_distr. cbn [rev app fold_left].
  pose proof (rounds_ok l s Hs Hl) as Hm. rewrite <- (IH Hl). f_equal. unfold dec_round at 1.
  rewrite InvSub_InvShift by by apply enc_round_ok. unfold enc_round at 1. pose proof (Hw i Hi) as Hk.
  assert (Hx : state_ok (ShiftRows (SubBytes (fold_left (enc_round w) l s)))) by by apply ShiftRows_ok, SubBytes_ok.
  rewrite xor_bytes_cancel; [by apply InvMixColumns_MixColumns|].
  destruct (MixColumns_ok _ Hx) as [-> _]. by destruct Hk as [-> _].
Qed.

Lemma InvCipher_Cipher s : 0 <= Nr -> state_ok s -> InvCipher Nr w (Cipher Nr w s) = s.
Proof.
  intros H0 Hs. unfold InvCipher, Cipher. set (s0 := xor_bytes s (round_key w 0)).
  assert (Hk0 : state_ok (round_key w 0)) by (apply Hw; lia). assert (Hkn : state_ok (round_key w Nr)) by (apply Hw; lia).
  assert (Hs0 : state_ok s0) by by apply xor_state_ok.
  assert (Hl : Forall (fun i => 0 <= i <= Nr) (seqZ 1 (Nr - 1))).
  { apply Forall_forall. intros i Hi%elem_of_seqZ. lia. }
  rewrite xor_bytes_cancel.
  - rewrite dec_rounds, InvSub_InvShift by done. apply xor_bytes_cancel. destruct Hs as [-> _]. by destruct Hk0 as [-> _].
  - destruct (ShiftRows_ok _ (SubBytes_ok _ (rounds_ok _ _ Hs0 Hl))) as [-> _]. by destruct Hkn as [-> _].
Qed.
End Invert.
