(* ===== verification/Modes.v ===== *)
(** * What the modes of block ciphers share

    The type [block128_f] of src/bubble/Pods/BoringSSL/crypto/modes/internal.h: a block
    function is a parameter of the modes, as it is in the code. *)

From Stdlib Require Import ZArith Lia.
From stdpp Require Import base option list gmap.
From S2P Require Import Prelude ByteMem.

(** A call of the block function [f], which does not return where it is [None]: it
    reads 16 bytes and writes 16, and the two may be the same. *)
Definition block128_f (f : bytes -> option bytes) (inp out : Z) : M mem unit :=
  let* b := mem_load 16 inp in
  let* b := slift (f b) in
  mem_store out b.

(** The block function computes [block] on every block, and gives a block. *)
Definition block_ok (f : bytes -> option bytes) (block : bytes -> bytes) : Prop :=
  forall b, length b = 16%nat -> bytes_ok b -> f b = Some (block b) /\ length (block b) = 16%nat /\ bytes_ok (block b).

Lemma runs_lift {X} (o : option X) x m A (Q : X -> mem -> Prop) : o = Some x -> mem_bytes m -> Q x m -> runs (slift o) m A Q.
Proof. intros -> Hm HQ. exists x, m. split_and!; [done|apply upd_refl|done|done]. Qed.

Lemma runs_block f block inp out m A : block_ok f block -> mem_bytes m -> mapped m inp 16 -> mapped m out 16 ->
  (forall x, within out 16 x -> A x) ->
  runs (block128_f f inp out) m A (fun _ m' => upd (within out 16) m m' /\ bytes_at m' out 16 = block (bytes_at m inp 16)).
Proof.
  intros Hf Hm Hi Ho HA. destruct (Hf (bytes_at m inp 16)) as (E & HL & HB); [by rewrite length_bytes_at|by apply bytes_at_ok|].
  unfold block128_f. eapply runs_bind; [apply runs_load with (Q := fun l m' => l = bytes_at m inp 16 /\ m' = m); done|].
  intros ? ? _ _ [-> ->]. eapply runs_bind; [by eapply runs_lift with (Q := fun l m' => l = block (bytes_at m inp 16) /\ m' = m)|].
  intros ? ? _ _ [-> ->]. eapply runs_sub; [apply runs_store with (A := A); [done|done| |]|done|]; rewrite HL; [done|done|].
  intros ? m' _ _ [Hu Hs]. split; [done|]. apply bytes_at_eq; [by rewrite HL|done].
Qed.
