(* ===== verification/Ctr.v ===== *)
(** * Counter mode

    Models src/bubble/Pods/BoringSSL/crypto/modes/ctr.c for a platform whose size_t has
    64 bits (STRICT_ALIGNMENT is 0). The buffers are addresses in one memory of bytes
    (ByteMem.v), since [in] and [out] may be the same. A block function is a parameter:
    it reads 16 bytes and writes 16. The theorems say that both functions xor the input
    with the key stream of the counter, whatever the pieces a message comes in, through
    the wrap of the 32-bit and of the 128-bit counter. *)

From Stdlib Require Import ZArith Lia.
From stdpp Require Import base option list gmap.
From S2P Require Import Prelude ByteMem Modes.

(** * The program *)

(** The body of [ctr128_inc] and [ctr96_inc]: [n] bytes from the last to the first. *)
Fixpoint inc_loop (n : nat) (counter c : Z) : M mem unit :=
  match n with
  | O => sret tt
  | S n =>
      let* b := load_u 1 (counter + Z.of_nat n) in
      let c := u32 (c + b) in
      store_u 1 (counter + Z.of_nat n) c;;;
      inc_loop n counter (Z.shiftr c 8)
  end.

Definition ctr128_inc (counter : Z) : M mem unit := inc_loop 16 counter 1.
Definition ctr96_inc (counter : Z) : M mem unit := inc_loop 12 counter 1.

(** [while (n && len)]: what is left of the last block. *)
Fixpoint ctr_head (fuel : nat) (inp out len n ecount_buf : Z) : M mem (Z * Z * Z * Z) :=
  if (n =? 0) || (len =? 0) then sret (inp, out, len, n)
  else
    match fuel with
    | O => sstuck
    | S fuel =>
        xor_u 1 out inp (ecount_buf + n);;;
        ctr_head fuel (inp + 1) (out + 1) (len - 1) ((n + 1) mod 16) ecount_buf
    end.

(** [while (len--)] of the last block. *)
Fixpoint ctr_tail (len : nat) (inp out n ecount_buf : Z) : M mem Z :=
  match len with
  | O => sret n
  | S len =>
      xor_u 1 (out + n) (inp + n) (ecount_buf + n);;;
      ctr_tail len inp out (n + 1) ecount_buf
  end.

Section Ctr.
Context (block : bytes -> option bytes).

(** [while (len >= 16)] of [CRYPTO_ctr128_encrypt]. *)
Fixpoint ctr_blocks (fuel : nat) (inp out len n ivec ecount_buf : Z) : M mem (Z * Z * Z * Z) :=
  if len <? 16 then sret (inp, out, len, n)
  else
    match fuel with
    | O => sstuck
    | S fuel =>
        block128_f block ivec ecount_buf;;;
        ctr128_inc ivec;;;
        xor_u 8 out inp ecount_buf;;;
        xor_u 8 (out + 8) (inp + 8) (ecount_buf + 8);;;
        ctr_blocks fuel (inp + 16) (out + 16) (len - 16) 0 ivec ecount_buf
    end.

(** The result is the new [*num]. *)
Definition CRYPTO_ctr128_encrypt (inp out len ivec ecount_buf num : Z) : M mem Z :=
  if negb (num <? 16) then sstuck (* assert *)
  else
    let* (inp, out, len, n) := ctr_head 16 inp out len num ecount_buf in
    let* (inp, out, len, n) := ctr_blocks (Z.to_nat len) inp out len n ivec ecount_buf in
    if len =? 0 then sret n
    else
      block128_f block ivec ecount_buf;;;
      ctr128_inc ivec;;;
      ctr_tail (Z.to_nat len) inp out n ecount_buf.
End Ctr.

(** [GETU32] and [PUTU32] of modes/internal.h: big-endian words. *)
Definition GETU32 (a : Z) : M mem Z := let* l := mem_load 4 a in sret (be_val l).
Definition PUTU32 (a v : Z) : M mem unit := mem_store a (be_bytes 4 v).

Section Ctr32.
(** A [ctr128_f]: [in], [out], [blocks], [ivec]. *)
Context (func : Z -> Z -> Z -> Z -> M mem unit).

(** [while (len >= 16)] of [CRYPTO_ctr128_encrypt_ctr32]. *)
Fixpoint ctr32_blocks (fuel : nat) (inp out len ctr32 ivec : Z) : M mem (Z * Z * Z * Z) :=
  if len <? 16 then sret (inp, out, len, ctr32)
  else
    match fuel with
    | O => sstuck
    | S fuel =>
        let blocks := len / 16 in
        let blocks := if blocks >? Z.shiftl 1 28 then Z.shiftl 1 28 else blocks in
        let ctr32 := u32 (ctr32 + u32 blocks) in
        let '(blocks, ctr32) := if ctr32 <? blocks then (u64 (blocks - ctr32), 0) else (blocks, ctr32) in
        func inp out blocks ivec;;;
        PUTU32 (ivec + 12) ctr32;;;
        (if ctr32 =? 0 then ctr96_inc ivec else sret tt);;;
        let blocks := u64 (blocks * 16) in
        ctr32_blocks fuel (inp + blocks) (out + blocks) (len - blocks) ctr32 ivec
    end.

Definition CRYPTO_ctr128_encrypt_ctr32 (inp out len ivec ecount_buf num : Z) : M mem Z :=
  if negb (num <? 16) then sstuck (* assert *)
  else
    let* (inp, out, len, n) := ctr_head 16 inp out len num ecount_buf in
    let* ctr32 := GETU32 (ivec + 12) in
    let* (inp, out, len, ctr32) := ctr32_blocks (Z.to_nat len) inp out len ctr32 ivec in
    if len =? 0 then sret n
    else
      mem_store ecount_buf (zrepeat 16 0);;;
      func ecount_buf ecount_buf 1 ivec;;;
      let ctr32 := u32 (ctr32 + 1) in
      PUTU32 (ivec + 12) ctr32;;;
      (if ctr32 =? 0 then ctr96_inc ivec else sret tt);;;
      ctr_tail (Z.to_nat len) inp out n ecount_buf.
End Ctr32.

(** * Specification *)

(** The counter block [j] blocks after the counter [c]. *)
Definition counter (c j : Z) : bytes := be_bytes 16 (c + j).

(** Byte [p] of the key stream that starts at counter [c]. *)
Definition keystream (block : bytes -> bytes) (c p : Z) : Z := zget (block (counter c (p / 16))) (p mod 16).

(** The context after [p] bytes of the key stream. *)
Definition ctr_state (block : bytes -> bytes) (c p num ivec ecount_buf : Z) (m : mem) : Prop :=
  num = p mod 16 /\ bytes_at m ivec 16 = counter c ((p + 15) / 16) /\
  (p mod 16 <> 0 -> bytes_at m ecount_buf 16 = block (counter c (p / 16))).

(** [CTR] of NIST SP 800-38A: the bytes at [out] are those that were at [inp], with
    the key stream from position [p]. *)
Definition xored (block : bytes -> bytes) (c p inp out len : Z) (m m' : mem) : Prop :=
  forall i, 0 <= i < len -> byte m' (out + i) = Z.lxor (byte m (inp + i)) (keystream block c (p + i)).

(** [len] bytes at [out] may be those at [inp], or start before them; the buffers of
    the context are apart from them and from each other. *)
Record ctr_buffers (inp out len ivec ecount_buf : Z) (m : mem) : Prop := {
  ctr_len : 0 <= len < 2 ^ 64;
  ctr_mem : mem_bytes m;
  ctr_inp : mapped m inp len;
  ctr_out : mapped m out len;
  ctr_ivec : mapped m ivec 16;
  ctr_ecount : mapped m ecount_buf 16;
  ctr_alias : out <= inp \/ inp + len <= out;
  ctr_apart : forall x, within inp len x \/ within out len x -> ~ within ivec 16 x /\ ~ within ecount_buf 16 x;
  ctr_ivs : forall x, within ivec 16 x -> ~ within ecount_buf 16 x }.

(** What ctr.c says of a [ctr128_f]: it encrypts [blocks] blocks and counts in the last
    32 bits of [ivec], which it does not update. *)
Definition ctr128_f_ok (block : bytes -> bytes) (func : Z -> Z -> Z -> Z -> M mem unit) : Prop :=
  forall inp out blocks ivec m,
    mem_bytes m -> 0 <= blocks -> mapped m inp (16 * blocks) -> mapped m out (16 * blocks) -> mapped m ivec 16 ->
    (out <= inp \/ inp + 16 * blocks <= out) -> (forall x, within out (16 * blocks) x -> ~ within ivec 16 x) ->
    runs (func inp out blocks ivec) m (within out (16 * blocks)) (fun _ m' =>
      forall i, 0 <= i < 16 * blocks -> byte m' (out + i) =
        Z.lxor (byte m (inp + i))
          (zget (block (bytes_at m ivec 12 ++ be_bytes 4 (be_val (bytes_at m (ivec + 12) 4) + i / 16))) (i mod 16))).

(** * Lemmas: the counters *)

Lemma inc_loop_spec n : forall counter c v m, mem_bytes m -> mapped m counter (Z.of_nat n) -> 0 <= c < 2 ^ 24 ->
  bytes_at m counter (Z.of_nat n) = be_bytes n v ->
  runs (inc_loop n counter c) m (within counter (Z.of_nat n)) (fun _ m' => bytes_at m' counter (Z.of_nat n) = be_bytes n (v + c)).
Proof.
  induction n as [|n IH]; intros counter c v m Hb Hm Hc Hv; cbn [inc_loop]; [by apply runs_ret|].
  rewrite Nat2Z.inj_succ, <- Z.add_1_r in *. rewrite bytes_at_snoc, be_bytes_S in Hv by lia.
  apply app_inj_2 in Hv as [Hv Hlast]; [|done]. injection Hlast as Hlast.
  eapply runs_bind; [apply runs_load_u with (Q := fun b m' => b = v mod 256 /\ m' = m); [done|eapply mapped_sub; [exact Hm|lia|lia]|]|].
  { split; [|done]. unfold bytes_at. cbn [map seqZ]. change (seqZ 0 1) with [0]. cbn [map]. by rewrite Z.add_0_r, Hlast. }
  intros ? ? _ _ [-> ->]. pose proof (Z.mod_pos_bound v 256 ltac:(lia)) as Hv256.
  rewrite u32_small by (unfold is_u; lia).
  eapply runs_bind; [apply runs_store_u; [done|lia|eapply mapped_sub; [exact Hm|lia|lia]|unfold within; lia]|].
  intros _ m1 Hu Hb1 [Hu1 Hs]. assert (Hpre : bytes_at m1 counter (Z.of_nat n) = be_bytes n (v / 256)).
  { rewrite <- Hv. eapply bytes_at_upd; [exact Hu1|]. unfold within. lia. }
  rewrite Z.shiftr_div_pow2 by lia. change (2 ^ 8) with 256.
  eapply runs_sub; [apply (IH counter ((c + v mod 256) / 256) (v / 256)); [done|eapply upd_mapped, mapped_sub; [exact Hu|exact Hm|lia|lia]| |done]| |].
  - Z.to_euclidean_division_equations; lia.
  - unfold within. lia.
  - intros ? m' Hu' _ H. rewrite bytes_at_snoc, be_bytes_S, H by lia. f_equal.
    + f_equal. Z.to_euclidean_division_equations; lia.
    + rewrite (upd_byte _ _ _ _ Hu') by (unfold within; lia). specialize (Hs 0 ltac:(lia)). rewrite Z.add_0_r in Hs.
      change (Z.to_nat 1) with 1%nat in Hs. rewrite Hs, le_bytes_S, zget_cons_0.
      f_equal. rewrite (Z.add_comm c), Zplus_mod_idemp_l. done.
Qed.

Lemma ctr128_inc_spec ivec c j m : mem_bytes m -> mapped m ivec 16 -> bytes_at m ivec 16 = counter c j ->
  runs (ctr128_inc ivec) m (within ivec 16) (fun _ m' => bytes_at m' ivec 16 = counter c (j + 1)).
Proof.
  intros Hb Hm Hc. unfold counter in *. rewrite Z.add_assoc. by apply (inc_loop_spec 16).
Qed.

(** A counter block is its upper 96 bits and its lower 32. *)
Lemma counter_split v : be_bytes 16 v = be_bytes 12 (v / 2 ^ 32) ++ be_bytes 4 v.
Proof. apply (be_bytes_app 12 4). Qed.

Lemma counter_step v t : 0 <= t -> v mod 2 ^ 32 + t < 2 ^ 32 ->
  be_bytes 16 (v + t) = be_bytes 12 (v / 2 ^ 32) ++ be_bytes 4 (v mod 2 ^ 32 + t).
Proof.
  intros Ht Hv. rewrite counter_split. pose proof (Z.mod_pos_bound v (2 ^ 32) ltac:(lia)) as Hm.
  assert (E : v = 2 ^ 32 * (v / 2 ^ 32) + v mod 2 ^ 32) by (apply Z.div_mod; lia).
  assert (Hd : (v + t) / 2 ^ 32 = v / 2 ^ 32).
  { symmetry. apply (Z.div_unique _ _ _ (v mod 2 ^ 32 + t)); lia. }
  rewrite Hd. f_equal. rewrite <- (be_bytes_mod 4 (v + t)). f_equal. symmetry. apply (Z.mod_unique _ _ (v / 2 ^ 32)); [left|]; cbn; lia.
Qed.

(** The counter in memory, in its two parts. *)
Lemma counter_parts ivec v m : bytes_at m ivec 16 = be_bytes 16 v <->
  bytes_at m ivec 12 = be_bytes 12 (v / 2 ^ 32) /\ bytes_at m (ivec + 12) 4 = be_bytes 4 v.
Proof.
  rewrite counter_split. change 16 with (12 + 4). rewrite bytes_at_app by lia. split; [|by intros [-> ->]].
  apply app_inj_1. by rewrite length_bytes_at, length_be_bytes.
Qed.

(** Adding [b] blocks, as the callers of a [ctr128_f] do it: the lower word, and a
    carry when it is zero. *)
Lemma bump_spec {X} (k : M mem X) ivec v b m A Q : mem_bytes m -> mapped m ivec 16 -> bytes_at m ivec 16 = be_bytes 16 v ->
  0 < b -> v mod 2 ^ 32 + b <= 2 ^ 32 -> (forall x, within ivec 16 x -> A x) ->
  (forall m', upd (within ivec 16) m m' -> mem_bytes m' -> bytes_at m' ivec 16 = be_bytes 16 (v + b) -> runs k m' A Q) ->
  runs (PUTU32 (ivec + 12) ((v + b) mod 2 ^ 32);;; (if (v + b) mod 2 ^ 32 =? 0 then ctr96_inc ivec else sret tt);;; k) m A Q.
Proof.
  intros Hm Hv Hc Hb Hle HA Hk. apply counter_parts in Hc as [H12 H4]. pose proof (Z.mod_pos_bound v (2 ^ 32) ltac:(lia)) as Hmod.
  assert (E : v = 2 ^ 32 * (v / 2 ^ 32) + v mod 2 ^ 32) by (apply Z.div_mod; lia).
  assert (Hput : runs (PUTU32 (ivec + 12) ((v + b) mod 2 ^ 32)) m (within ivec 16) (fun _ m' =>
    upd (within (ivec + 12) 4) m m' /\ bytes_at m' (ivec + 12) 4 = be_bytes 4 (v + b))).
  { unfold PUTU32. eapply runs_sub; [apply runs_store with (A := within ivec 16); [done|apply be_bytes_ok| |]|done|].
    - rewrite length_be_bytes. eapply mapped_sub; [exact Hv|lia|lia].
    - rewrite length_be_bytes. unfold within. lia.
    - rewrite length_be_bytes. intros ? m' _ _ [Hu H]. split; [done|]. apply bytes_at_eq; [by rewrite length_be_bytes|].
      intros i Hi. rewrite H by lia. change (2 ^ 32) with (256 ^ Z.of_nat 4). by rewrite be_bytes_mod. }
  eapply runs_bind; [eapply runs_sub; [exact Hput|exact HA|intros ? m1 H1 _ H2; exact (conj H1 H2)]|].
  intros _ m1 _ Hm1 [Hu1' [Hu1 H1]]. assert (H12' : bytes_at m1 ivec 12 = be_bytes 12 (v / 2 ^ 32)).
  { rewrite <- H12. eapply bytes_at_upd; [exact Hu1|]. unfold within. lia. }
  case_if.
  - assert (Hd : (v + b) / 2 ^ 32 = v / 2 ^ 32 + 1).
    { symmetry. apply (Z.div_unique _ _ _ 0); [lia|]. pose proof (Z.div_mod (v + b) (2 ^ 32) ltac:(lia)).
      assert (v mod 2 ^ 32 + b = 2 ^ 32); [|lia]. destruct (Z.eq_dec (v mod 2 ^ 32 + b) (2 ^ 32)); [done|exfalso].
      assert ((v + b) mod 2 ^ 32 = v mod 2 ^ 32 + b); [|lia]. symmetry. apply (Z.mod_unique _ _ (v / 2 ^ 32)); lia. }
    assert (Hm12 : mapped m1 ivec 12) by (eapply upd_mapped, mapped_sub; [exact Hu1'|exact Hv|lia|lia]).
    eapply runs_bind; [eapply runs_sub; [exact (inc_loop_spec 12 ivec 1 (v / 2 ^ 32) m1 Hm1 Hm12 ltac:(lia) H12')| |]|].
    + intros x Hx. apply HA. unfold within in *. lia.
    + intros ? m2 Hu2 _ H2. exact (conj Hu2 H2).
    + intros _ m2 _ Hm2 [Hu2 H2]. change (Z.of_nat 12) with 12 in *. apply Hk; [|done|].
      * eapply upd_trans; [exact Hu1'|]. eapply upd_sub; [|exact Hu2]. unfold within. lia.
      * apply counter_parts. rewrite Hd. split; [done|]. rewrite <- H1. eapply bytes_at_upd; [exact Hu2|]. unfold within. lia.
  - eapply runs_bind; [apply runs_ret with (Q := fun _ m' => m' = m1); done|]. intros _ ? _ _ ->. apply Hk; [done|done|].
    apply counter_parts. split; [|done]. rewrite H12'. f_equal. apply (Z.div_unique _ _ _ (v mod 2 ^ 32 + b)); [|lia].
    assert (v mod 2 ^ 32 + b <> 2 ^ 32); [|lia]. intros Hx. apply E0.
    assert (v + b = (v / 2 ^ 32 + 1) * 2 ^ 32) as -> by lia. apply Z.mod_mul. lia.
Qed.

(** * Lemmas: pieces of a message *)

Section Spec.
Context (f : bytes -> option bytes) (block : bytes -> bytes).
Hypothesis Hblock : block_ok f block.
Variables (c ivec ecount_buf : Z).

(** The addresses that a call may change. *)
Definition footprint (out len : Z) (x : Z) : Prop := within out len x \/ within ivec 16 x \/ within ecount_buf 16 x.

Lemma footprint_sub out len k n x : footprint (out + k) n x -> 0 <= k -> k + n <= len -> footprint out len x.
Proof. unfold footprint, within. intros [H|H] H0 Hk; [left; lia|by right]. Qed.

Abbreviation buffers inp out len m := (ctr_buffers inp out len ivec ecount_buf m).
Abbreviation state p num m := (ctr_state block c p num ivec ecount_buf m).

Lemma buffers_drop inp out len k m m' A : buffers inp out len m -> upd A m m' -> mem_bytes m' -> 0 <= k <= len ->
  buffers (inp + k) (out + k) (len - k) m'.
Proof.
  intros [Hl _ Hi Ho Hv He Ha Hx Hd] Hu Hm Hk. split; [lia|done|..]; try (eapply upd_mapped; [exact Hu|]; done).
  - eapply upd_mapped, mapped_sub; [exact Hu|exact Hi|lia|lia].
  - eapply upd_mapped, mapped_sub; [exact Hu|exact Ho|lia|lia].
  - lia.
  - intros x H. apply Hx. unfold within in *. lia.
  - done.
Qed.

Lemma xored_app p inp out len k m m1 m' : buffers inp out len m -> 0 <= k <= len ->
  upd (footprint out k) m m1 -> xored block c p inp out k m m1 ->
  upd (footprint (out + k) (len - k)) m1 m' -> xored block c (p + k) (inp + k) (out + k) (len - k) m1 m' ->
  xored block c p inp out len m m'.
Proof.
  intros B Hk Hu1 H1 Hu2 H2 i Hi. pose proof (ctr_apart _ _ _ _ _ _ B) as Hx. pose proof (ctr_alias _ _ _ _ _ _ B) as Ha.
  destruct (Z.lt_ge_cases i k) as [Hik|Hik].
  - rewrite (upd_byte _ _ _ _ Hu2); [by apply H1; lia|]. specialize (Hx (out + i)).
    unfold footprint, within in *. lia.
  - specialize (H2 (i - k) ltac:(lia)). replace (out + k + (i - k)) with (out + i) in H2 by lia.
    replace (inp + k + (i - k)) with (inp + i) in H2 by lia. replace (p + k + (i - k)) with (p + i) in H2 by lia.
    rewrite H2. f_equal. apply (upd_byte _ _ _ _ Hu1). specialize (Hx (inp + i)). unfold footprint, within in *. lia.
Qed.

(** What remains of a call after [k] bytes. *)
Definition rest (p inp out len k : Z) (m m' : mem) : Prop :=
  0 <= k <= len /\ xored block c p inp out k m m' /\ upd (footprint out k) m m'.

Lemma rest_app p inp out len k j m m1 m' : buffers inp out len m -> rest p inp out len k m m1 ->
  rest (p + k) (inp + k) (out + k) (len - k) j m1 m' -> rest p inp out len (k + j) m m'.
Proof.
  intros B (Hk & H1 & Hu1) (Hj & H2 & Hu2). split; [lia|].
  assert (Hu : upd (footprint out (k + j)) m m').
  { eapply upd_trans; eapply upd_sub; [|exact Hu1| |exact Hu2]; intros x; unfold footprint, within; lia. }
  split; [|done]. apply (xored_app p inp out (k + j) k m m1 m'); [|lia|done|done|..].
  - destruct B as [Hl Hm Hi Ho Hv He Ha Hx Hd]. split; [lia|done|by eapply mapped_sub; [exact Hi|lia..]|by eapply mapped_sub; [exact Ho|lia..]|done|done|lia| |done].
    intros x H. apply Hx. unfold within in *. lia.
  - by replace (k + j - k) with j by lia.
  - by replace (k + j - k) with j by lia.
Qed.

(** The encrypted counter that position [p] uses is in [ecount_buf]. *)
Definition loaded (p : Z) (m : mem) : Prop :=
  bytes_at m ecount_buf 16 = block (counter c (p / 16)) /\ bytes_at m ivec 16 = counter c (p / 16 + 1).

Lemma state_loaded p num m : state p num m -> p mod 16 <> 0 -> loaded p m.
Proof.
  intros (_ & Hv & He) Hp. split; [by apply He|]. rewrite Hv. f_equal. Z.to_euclidean_division_equations; lia.
Qed.

Lemma loaded_next p m : loaded p m -> state (p + 1) ((p + 1) mod 16) m.
Proof.
  intros [He Hv]. split; [done|]. split.
  - rewrite Hv. f_equal. Z.to_euclidean_division_equations; lia.
  - intros Hp. rewrite He. do 2 f_equal. Z.to_euclidean_division_equations; lia.
Qed.

Lemma loaded_upd p A m m' : upd A m m' -> (forall x, A x -> ~ within ivec 16 x /\ ~ within ecount_buf 16 x) -> loaded p m -> loaded p m'.
Proof.
  intros Hu Hd [H1 H2]. split.
  - rewrite <- H1. eapply bytes_at_upd; [exact Hu|]. intros x Hx Ha. by destruct (Hd x Ha).
  - rewrite <- H2. eapply bytes_at_upd; [exact Hu|]. intros x Hx Ha. by destruct (Hd x Ha).
Qed.

(** A word of [n] bytes, from bytes [j] of the encrypted counter. *)
Lemma xor_step n p inp out len e m : buffers inp out len m -> 0 < n -> n <= len -> p mod 16 + n <= 16 -> loaded p m ->
  e = ecount_buf + p mod 16 ->
  runs (xor_u n out inp e) m (footprint out n) (fun _ m' => rest p inp out len n m m' /\ loaded p m').
Proof.
  intros B Hn Hl Hp Hld ->. pose proof B as [_ Hm Hi Ho _ He _ Hx _]. pose proof (Z.mod_pos_bound p 16 ltac:(lia)) as Hpm.
  eapply runs_sub; [apply runs_xor_u with (A := within out n); [done|lia| | | |done]| |].
  - eapply mapped_sub; [exact Ho|lia|lia].
  - eapply mapped_sub; [exact Hi|lia|lia].
  - eapply mapped_sub; [exact He|lia|lia].
  - intros x H. by left.
  - intros ? m' Hu _ [_ H]. assert (Hd : loaded p m').
    { apply (loaded_upd p _ _ _ Hu); [|done]. intros y Hw. apply Hx. unfold within in *. lia. }
    split; [|done]. split; [lia|]. split; [|eapply upd_sub; [|exact Hu]; intros y Hw; by left].
    intros i Hi'. rewrite H by done. f_equal. unfold keystream.
    replace ((p + i) / 16) with (p / 16) by (Z.to_euclidean_division_equations; lia).
    replace ((p + i) mod 16) with (p mod 16 + i) by (Z.to_euclidean_division_equations; lia).
    destruct Hld as [<- _]. rewrite zget_bytes_at by lia. f_equal. lia.
Qed.

Lemma ctr_head_spec fuel : forall p inp out len num m, buffers inp out len m -> state p num m -> 
  (16 - p mod 16) mod 16 <= Z.of_nat fuel ->
  runs (ctr_head fuel inp out len num ecount_buf) m (footprint out len) (fun '(inp', out', len', n') m' =>
    exists k, inp' = inp + k /\ out' = out + k /\ len' = len - k /\ rest p inp out len k m m' /\ state (p + k) n' m' /\
      (len' = 0 \/ n' = 0)).
Proof.
  induction fuel as [|fuel IH]; intros p inp out len num m B Hs Hf; pose proof B as [Hlen Hm _ _ _ _ _ _ _];
    pose proof (Z.mod_pos_bound p 16 ltac:(lia)) as Hpm; cbn [ctr_head]; case_if.
  1,3: apply runs_ret; [done|]; exists 0; rewrite !Z.add_0_r, Z.sub_0_r; split_and!; try done; try lia;
    split; [lia|]; split; [intros i Hi; lia|apply upd_refl].
  - pose proof Hs as (Hnum & _). exfalso. Z.to_euclidean_division_equations; lia.
  - pose proof Hs as (Hnum & _). assert (Hp : p mod 16 <> 0) by lia. subst num.
    eapply runs_bind; [eapply runs_sub; [apply (xor_step 1 p inp out len); [done|lia|lia|lia|by eapply state_loaded|done]| |]|].
    + intros x Hx. replace out with (out + 0) in Hx by lia. eapply footprint_sub; [exact Hx|lia|lia].
    + intros ? m1 Hu _ Hq. exact Hq.
    + intros _ m1 Hu Hm1 [Hr Hld].
      replace ((p mod 16 + 1) mod 16) with ((p + 1) mod 16) by (rewrite Zplus_mod_idemp_l; done).
      eapply runs_sub; [apply (IH (p + 1)); [eapply buffers_drop; [done|exact Hu|done|lia]|by apply loaded_next|]| |].
      * Z.to_euclidean_division_equations; lia.
      * intros x Hx. eapply footprint_sub; [exact Hx|lia|lia].
      * intros [[[inp' out'] len'] n'] m' _ _ (k & -> & -> & -> & Hr2 & Hs2 & Hend). exists (1 + k).
        split_and!; [lia|lia|lia|by eapply rest_app| |lia]. by rewrite Z.add_assoc.
Qed.

(** The next block of the key stream. *)
Lemma refill_spec {X} (k : M mem X) p inp out len m A Q : buffers inp out len m -> state p 0 m ->
  (forall x, within ivec 16 x \/ within ecount_buf 16 x -> A x) ->
  (forall m', upd (fun x => within ivec 16 x \/ within ecount_buf 16 x) m m' -> mem_bytes m' -> loaded p m' -> runs k m' A Q) ->
  runs (block128_f f ivec ecount_buf;;; ctr128_inc ivec;;; k) m A Q.
Proof.
  intros [Hl Hm Hi Ho Hv He Ha Hx Hd] (Hp & Hc & _) HA Hk.
  assert (Hc' : bytes_at m ivec 16 = counter c (p / 16)) by (rewrite Hc; f_equal; Z.to_euclidean_division_equations; lia).
  assert (Hst : runs (block128_f f ivec ecount_buf) m A (fun _ m' => upd (within ecount_buf 16) m m' /\
    bytes_at m' ecount_buf 16 = block (counter c (p / 16)))).
  { rewrite <- Hc'. apply runs_block; [done..|]. intros x Hw. apply HA. by right. }
  eapply runs_bind; [exact Hst|]. intros _ m1 Hu1 Hm1 [Hu1' He1].
  assert (Hv1 : bytes_at m1 ivec 16 = counter c (p / 16)).
  { rewrite <- Hc'. eapply bytes_at_upd; [exact Hu1'|done]. }
  eapply runs_bind; [eapply runs_sub; [apply (ctr128_inc_spec ivec c (p / 16)); [done|by eapply upd_mapped|done]|intros x Hx'; apply HA; by left|]|].
  { intros ? m2 Hu2 _ H2. exact (conj Hu2 H2). }
  intros _ m2 _ Hm2 [Hu2 Hv2]. apply Hk; [|done|].
  - eapply upd_trans; eapply upd_sub; [|exact Hu1'| |exact Hu2]; tauto.
  - split; [|done]. rewrite <- He1. eapply bytes_at_upd; [exact Hu2|]. intros x H1 H2. by apply (Hd x).
Qed.

Lemma loaded_eq p q m : p / 16 = q / 16 -> loaded p m -> loaded q m.
Proof. unfold loaded. by intros ->. Qed.

Lemma buffers_upd inp out len m m' A : buffers inp out len m -> upd A m m' -> mem_bytes m' -> buffers inp out len m'.
Proof.
  intros B Hu Hm. pose proof (buffers_drop inp out len 0 m m' A B Hu Hm) as H. rewrite !Z.add_0_r, Z.sub_0_r in H.
  apply H. split; [lia|apply B].
Qed.

Lemma rest_0 p inp out len m m' : buffers inp out len m -> upd (fun x => within ivec 16 x \/ within ecount_buf 16 x) m m' ->
  rest p inp out len 0 m m'.
Proof.
  intros B Hu. split; [split; [lia|apply B]|]. split; [intros i Hi; lia|]. eapply upd_sub; [|exact Hu]. intros x H. by right.
Qed.

(** A whole block. *)
Lemma block_step {X} (k : M mem X) p inp out len m Q : buffers inp out len m -> state p 0 m -> p mod 16 = 0 -> 16 <= len ->
  (forall m', upd (footprint out 16) m m' -> mem_bytes m' -> rest p inp out len 16 m m' -> state (p + 16) 0 m' -> runs k m' (footprint out len) Q) ->
  runs (block128_f f ivec ecount_buf;;; ctr128_inc ivec;;; xor_u 8 out inp ecount_buf;;;
    xor_u 8 (out + 8) (inp + 8) (ecount_buf + 8);;; k) m (footprint out len) Q.
Proof.
  intros B Hs Hp Hl Hk. apply (refill_spec _ p inp out len); [done|done|intros x Hx; by right|].
  intros m1 Hu1 Hm1 Hld. pose proof (buffers_upd _ _ _ _ _ _ B Hu1 Hm1) as B1. pose proof (rest_0 p _ _ _ _ _ B Hu1) as R1.
  eapply runs_bind; [eapply runs_sub; [apply (xor_step 8 p inp out len); [done|lia|lia|lia|done|lia]| |]|].
  { intros x Hx. apply (footprint_sub out len 0 8); [by rewrite Z.add_0_r|lia|lia]. }
  { intros ? m2 Hu2 _ H2. exact H2. }
  intros _ m2 Hu2 Hm2 [R2 Hld2]. 
  assert (R02 : rest p inp out len 8 m m2).
  { apply (rest_app p inp out len 0 8 m m1 m2); [done|done|]. by rewrite !Z.add_0_r, Z.sub_0_r. }
  pose proof (buffers_drop inp out len 8 m m2 (footprint out 8) B (proj2 (proj2 R02)) Hm2 ltac:(lia)) as B2.
  eapply runs_bind; [eapply runs_sub; [apply (xor_step 8 (p + 8) (inp + 8) (out + 8) (len - 8)); [done|lia|lia| | |]| |]|].
  { Z.to_euclidean_division_equations; lia. }
  { apply (loaded_eq p); [Z.to_euclidean_division_equations; lia|done]. }
  { f_equal. Z.to_euclidean_division_equations; lia. }
  { intros x Hx. apply (footprint_sub out len 8 8); [done|lia|lia]. }
  { intros ? m3 _ _ H3. exact H3. }
  intros _ m3 Hu3 Hm3 [R3 Hld3]. pose proof (rest_app p inp out len 8 8 m m2 m3 B R02 R3) as R. change (8 + 8) with 16 in R.
  apply Hk; [apply R|done|done|]. apply loaded_next in Hld3 as Hn. split; [Z.to_euclidean_division_equations; lia|].
  destruct Hld3 as [_ Hv3]. split; [|intros H; exfalso; Z.to_euclidean_division_equations; lia].
  rewrite Hv3. f_equal. Z.to_euclidean_division_equations; lia.
Qed.

(** The result of a loop: [k] bytes are done. *)
Definition progress (p inp out len : Z) (m : mem) (q : Z * Z * Z * Z) (m' : mem) : Prop :=
  let '(inp', out', len', n') := q in
  exists k, inp' = inp + k /\ out' = out + k /\ len' = len - k /\ rest p inp out len k m m' /\ state (p + k) n' m'.

Lemma progress_0 p inp out len n m : buffers inp out len m -> state p n m -> progress p inp out len m (inp, out, len, n) m.
Proof.
  intros B Hs. exists 0. rewrite !Z.add_0_r, Z.sub_0_r. split_and!; try done. apply rest_0; [done|apply upd_refl].
Qed.

Lemma progress_app p inp out len k m m1 q m' : buffers inp out len m -> rest p inp out len k m m1 ->
  progress (p + k) (inp + k) (out + k) (len - k) m1 q m' -> progress p inp out len m q m'.
Proof.
  intros B R. destruct q as [[[? ?] ?] ?]. intros (j & -> & -> & -> & R' & S). exists (k + j).
  split_and!; [lia|lia|lia|by eapply rest_app|]. by rewrite Z.add_assoc.
Qed.

Lemma ctr_blocks_spec fuel : forall p inp out len n m, buffers inp out len m -> state p n m -> (n = 0 \/ len = 0) ->
  len / 16 <= Z.of_nat fuel ->
  runs (ctr_blocks f fuel inp out len n ivec ecount_buf) m (footprint out len) (fun q m' =>
    progress p inp out len m q m' /\ let '(_, _, len', n') := q in len' < 16 /\ (n' = 0 \/ len' = 0)).
Proof.
  induction fuel as [|fuel IH]; intros p inp out len n m B Hs Hn Hf; pose proof B as [Hlen Hm _ _ _ _ _ _ _]; cbn [ctr_blocks]; case_if.
  1,3: apply runs_ret; [done|]; split; [by apply progress_0|done].
  - exfalso. Z.to_euclidean_division_equations; lia.
  - assert (n = 0) as -> by lia. pose proof Hs as (Hp & _). apply (block_step _ p inp out len); [done|done|done|lia|].
    intros m1 Hu Hm1 R S1.
    eapply runs_sub; [apply (IH (p + 16)); [by eapply buffers_drop; [|exact Hu|..]|done|by left|]| |].
    + Z.to_euclidean_division_equations; lia.
    + intros x Hx. eapply footprint_sub; [exact Hx|lia|lia].
    + intros q m' _ _ [P HE]. split; [by eapply progress_app|done].
Qed.

Lemma ctr_tail_spec k : forall p inp out n m, buffers (inp + n) (out + n) (Z.of_nat k) m -> loaded p m -> n = p mod 16 -> n + Z.of_nat k < 16 ->
  0 < Z.of_nat k ->
  runs (ctr_tail k inp out n ecount_buf) m (footprint (out + n) (Z.of_nat k)) (fun n' m' =>
    rest p (inp + n) (out + n) (Z.of_nat k) (Z.of_nat k) m m' /\ state (p + Z.of_nat k) n' m').
Proof.
  induction k as [|k IH]; intros p inp out n m B Hld Hn Hk Hpos; cbn [ctr_tail]; [lia|].
  eapply runs_bind; [eapply runs_sub; [apply (xor_step 1 p (inp + n) (out + n) (Z.of_nat (S k))); [done|lia|lia|lia|done|by rewrite Hn]| |]|].
  { intros x Hx. apply (footprint_sub _ _ 0 1); [by rewrite Z.add_0_r|lia|lia]. }
  { intros ? m1 _ _ H1. exact H1. }
  intros _ m1 Hu1 Hm1 [R Hld1]. destruct k as [|k].
  - cbn [ctr_tail]. apply runs_ret; [done|]. split; [exact R|]. change (Z.of_nat 1) with 1.
    replace (n + 1) with ((p + 1) mod 16) by (Z.to_euclidean_division_equations; lia). by apply loaded_next.
  - pose proof (buffers_drop _ _ _ 1 m m1 _ B (proj2 (proj2 R)) Hm1 ltac:(lia)) as B1.
    rewrite <- !Z.add_assoc in B1. replace (Z.of_nat (S (S k)) - 1) with (Z.of_nat (S k)) in B1 by lia.
    eapply runs_sub; [apply (IH (p + 1) inp out (n + 1)); [exact B1| | |lia|lia]| |].
    + apply (loaded_eq p); [Z.to_euclidean_division_equations; lia|done].
    + Z.to_euclidean_division_equations; lia.
    + intros x Hx. eapply (footprint_sub _ _ 1); [rewrite <- Z.add_assoc; exact Hx|lia|lia].
    + intros n' m' _ _ [R' S']. replace (Z.of_nat (S (S k))) with (1 + Z.of_nat (S k)) by lia. split.
      * apply (rest_app p _ _ _ 1 _ m m1 m'); [by replace (1 + Z.of_nat (S k)) with (Z.of_nat (S (S k))) by lia|by replace (1 + Z.of_nat (S k)) with (Z.of_nat (S (S k))) by lia|].
        replace (1 + Z.of_nat (S k) - 1) with (Z.of_nat (S k)) by lia. by rewrite <- !Z.add_assoc.
      * by rewrite Z.add_assoc.
Qed.

(** What a call does: the output, the context, and nothing else. *)
Definition ctr_post (p inp out len : Z) (m : mem) (num : Z) (m' : mem) : Prop :=
  xored block c p inp out len m m' /\ state (p + len) num m'.

Lemma ctr128_post p inp out len num m : buffers inp out len m -> state p num m ->
  runs (CRYPTO_ctr128_encrypt f inp out len ivec ecount_buf num) m (footprint out len) (ctr_post p inp out len m).
Proof.
  intros B Hs. pose proof B as [Hlen _ _ _ _ _ _ _ _]. pose proof Hs as (Hn & _). unfold CRYPTO_ctr128_encrypt.
  replace (num <? 16) with true by (pose proof (Z.mod_pos_bound p 16); lia). cbn [negb].
  eapply runs_bind; [apply (ctr_head_spec 16 p); [done|done|Z.to_euclidean_division_equations; lia]|].
  intros [[[inp1 out1] len1] n1] m1 Hu1 Hm1 (k & -> & -> & -> & R1 & S1 & Hend1).
  pose proof (buffers_drop _ _ _ k _ _ _ B (proj2 (proj2 R1)) Hm1 (proj1 R1)) as B1.
  eapply runs_bind.
  { eapply runs_sub; [apply (ctr_blocks_spec _ (p + k)); [exact B1|exact S1|tauto|]| |intros q m' _ _ Hq; exact Hq].
    - rewrite Z2Nat.id by apply B1. pose proof (ctr_len _ _ _ _ _ _ B1). Z.to_euclidean_division_equations; lia.
    - intros x Hx. eapply footprint_sub; [exact Hx|apply R1|lia]. }
  intros [[[inp2 out2] len2] n2] m2 Hu2 Hm2 [P2 [Hlt Hend2]].
  apply (progress_app p inp out len k m m1) in P2 as (j & -> & -> & -> & R2 & S2); [|done|done].
  pose proof (buffers_drop _ _ _ j _ _ _ B (proj2 (proj2 R2)) Hm2 (proj1 R2)) as B2. case_if.
  - apply runs_ret; [done|]. assert (j = len) as -> by lia. split; [apply R2|done].
  - assert (n2 = 0) as -> by lia. pose proof (proj1 R2) as Hj.
    apply (refill_spec _ (p + j) (inp + j) (out + j) (len - j)); [exact B2|exact S2|intros x Hx; by right|].
    intros m3 Hu3 Hm3 Hld. pose proof (buffers_upd _ _ _ _ _ _ B2 Hu3 Hm3) as B3.
    assert (R3 : rest p inp out len j m m3).
    { replace j with (j + 0) by lia. apply (rest_app p inp out len j 0 m m2); [done|done|by apply rest_0]. }
    eapply runs_sub; [apply (ctr_tail_spec _ (p + j)); [|done|apply S2|lia|lia]| |].
    + rewrite !Z.add_0_r, Z2Nat.id by lia. exact B3.
    + intros x Hx. rewrite Z.add_0_r in Hx. eapply footprint_sub; [exact Hx|lia|lia].
    + intros n' m' _ _ [R S]. rewrite !Z.add_0_r, Z2Nat.id in R by lia. rewrite Z2Nat.id in S by lia.
      pose proof (rest_app p inp out len j (len - j) m m3 m' B R3 R) as [_ [HX _]].
      replace (j + (len - j)) with len in HX by lia. replace (p + j + (len - j)) with (p + len) in S by lia. by split.
Qed.

(** ** The 32-bit counter *)

Context (func : Z -> Z -> Z -> Z -> M mem unit).
Hypothesis Hfunc : ctr128_f_ok block func.

(** The key stream that the function makes before its counter wraps. *)
Lemma func_keystream p m i : bytes_at m ivec 16 = counter c (p / 16) -> p mod 16 = 0 -> 0 <= i ->
  (c + p / 16) mod 2 ^ 32 + i / 16 < 2 ^ 32 ->
  zget (block (bytes_at m ivec 12 ++ be_bytes 4 (be_val (bytes_at m (ivec + 12) 4) + i / 16))) (i mod 16) = keystream block c (p + i).
Proof.
  intros Hc Hp Hi Hlt. apply counter_parts in Hc as [-> ->]. rewrite be_val_be_bytes. change (256 ^ Z.of_nat 4) with (2 ^ 32).
  assert (0 <= i / 16) by (apply Z.div_pos; lia). rewrite <- counter_step by lia. unfold keystream, counter.
  replace ((p + i) / 16) with (p / 16 + i / 16) by (Z.to_euclidean_division_equations; lia).
  replace ((p + i) mod 16) with (i mod 16) by (Z.to_euclidean_division_equations; lia). by rewrite Z.add_assoc.
Qed.

(** How many blocks an iteration takes: at most up to the wrap of the counter. *)
Lemma blocks_step v len : 16 <= len < 2 ^ 64 ->
  let blocks := len / 16 in
  let blocks := if blocks >? Z.shiftl 1 28 then Z.shiftl 1 28 else blocks in
  let ctr32 := u32 (v mod 2 ^ 32 + u32 blocks) in
  exists b, 0 < b /\ 16 * b <= len /\ v mod 2 ^ 32 + b <= 2 ^ 32 /\
    (if ctr32 <? blocks then (u64 (blocks - ctr32), 0) else (blocks, ctr32)) = (b, (v + b) mod 2 ^ 32).
Proof.
  intros Hl. cbv zeta. change (Z.shiftl 1 28) with 268435456. pose proof (Z.mod_pos_bound v (2 ^ 32) ltac:(lia)) as Hm.
  set (n := if _ >? _ then _ else _).
  assert (Hn : 1 <= n <= 268435456 /\ 16 * n <= len) by (unfold n; case_if; Z.to_euclidean_division_equations; lia).
  clearbody n. rewrite (u32_small n) by (unfold is_u; lia). rewrite u32_mod. change 4294967296 with (2 ^ 32).
  rewrite Zplus_mod_idemp_l. assert (E : v = 2 ^ 32 * (v / 2 ^ 32) + v mod 2 ^ 32) by (apply Z.div_mod; lia).
  destruct (Z.lt_ge_cases (v mod 2 ^ 32 + n) (2 ^ 32)) as [Hlt|Hge].
  - assert (Hs : (v + n) mod 2 ^ 32 = v mod 2 ^ 32 + n) by (symmetry; apply (Z.mod_unique _ _ (v / 2 ^ 32)); lia).
    exists n. split_and!; [lia|lia|lia|]. by replace ((v + n) mod 2 ^ 32 <? n) with false by lia.
  - assert (Hs : (v + n) mod 2 ^ 32 = v mod 2 ^ 32 + n - 2 ^ 32) by (symmetry; apply (Z.mod_unique _ _ (v / 2 ^ 32 + 1)); lia).
    exists (2 ^ 32 - v mod 2 ^ 32). split_and!; [lia|lia|lia|]. replace ((v + n) mod 2 ^ 32 <? n) with true by lia.
    rewrite u64_small by (unfold is_u; lia). f_equal; [lia|].
    replace (v + (2 ^ 32 - v mod 2 ^ 32)) with ((v / 2 ^ 32 + 1) * 2 ^ 32) by lia. by rewrite Z.mod_mul.
Qed.

(** The state between the blocks, with the local copy of the lower word. *)
Definition state32 (p ctr32 : Z) (m : mem) : Prop := state p 0 m /\ ctr32 = (c + p / 16) mod 2 ^ 32.

Lemma func_step {X} (k : M mem X) p inp out len b m Q : buffers inp out len m -> state p 0 m -> 0 < b -> 16 * b <= len ->
  (c + p / 16) mod 2 ^ 32 + b <= 2 ^ 32 ->
  (forall m', upd (footprint out (16 * b)) m m' -> mem_bytes m' -> rest p inp out len (16 * b) m m' ->
    state32 (p + 16 * b) ((c + p / 16 + b) mod 2 ^ 32) m' -> runs k m' (footprint out len) Q) ->
  runs (func inp out b ivec;;; PUTU32 (ivec + 12) ((c + p / 16 + b) mod 2 ^ 32);;;
    (if (c + p / 16 + b) mod 2 ^ 32 =? 0 then ctr96_inc ivec else sret tt);;; k) m (footprint out len) Q.
Proof.
  intros B (Hp & Hc & _) Hb Hl Hle Hk. pose proof B as [_ Hm Hi Ho Hv _ Ha Hx _].
  assert (Hc' : bytes_at m ivec 16 = counter c (p / 16)) by (rewrite Hc; f_equal; Z.to_euclidean_division_equations; lia).
  eapply runs_bind.
  { eapply runs_sub; [apply (Hfunc inp out b ivec m); [done|lia| | |done|lia|]|intros x Hw; left; unfold within in *; lia|intros ? m1 H1 _ H2; exact (conj H1 H2)].
    - eapply mapped_sub; [exact Hi|lia|lia].
    - eapply mapped_sub; [exact Ho|lia|lia].
    - intros x Hw. apply Hx. unfold within in *. lia. }
  intros _ m1 _ Hm1 [Hu1 H1].
  assert (R1 : rest p inp out len (16 * b) m m1).
  { split; [lia|]. split; [|eapply upd_sub; [|exact Hu1]; intros x Hw; by left]. intros i Hi'. rewrite H1 by done. f_equal.
    apply func_keystream; [done|lia|lia|]. Z.to_euclidean_division_equations; lia. }
  assert (Hc1 : bytes_at m1 ivec 16 = be_bytes 16 (c + p / 16)).
  { change (be_bytes 16 _) with (counter c (p / 16)). rewrite <- Hc'. eapply bytes_at_upd; [exact Hu1|]. intros x Hw Ho'. destruct (Hx x) as [Hn _]; [right; unfold within in *; lia|done]. }
  apply (bump_spec _ ivec (c + p / 16) b m1); [done|by eapply upd_mapped|exact Hc1|done|done|intros x Hw; by right; left|].
  intros m2 Hu2 Hm2 Hc2.
  assert (R2 : rest p inp out len (16 * b) m m2).
  { destruct R1 as (_ & R1 & Hu). split; [lia|]. split.
    - intros i Hi'. rewrite (upd_byte _ _ _ _ Hu2); [by apply R1|]. intros Hw. destruct (Hx (out + i)) as [Hn _]; [right; unfold within; lia|done].
    - eapply upd_trans; [exact Hu|]. eapply upd_sub; [|exact Hu2]. intros x Hw. by right; left. }
  apply Hk; [apply R2|done|done|]. split.
  - split; [Z.to_euclidean_division_equations; lia|]. split; [|intros Hn; exfalso; Z.to_euclidean_division_equations; lia].
    rewrite Hc2. unfold counter. f_equal. Z.to_euclidean_division_equations; lia.
  - f_equal. Z.to_euclidean_division_equations; lia.
Qed.

Lemma ctr32_blocks_spec fuel : forall p inp out len ctr32 m, buffers inp out len m -> state32 p ctr32 m -> 
  len / 16 <= Z.of_nat fuel ->
  runs (ctr32_blocks func fuel inp out len ctr32 ivec) m (footprint out len) (fun '(inp', out', len', ctr32') m' =>
    exists k, inp' = inp + k /\ out' = out + k /\ len' = len - k /\ rest p inp out len k m m' /\ state32 (p + k) ctr32' m' /\ len' < 16).
Proof.
  induction fuel as [|fuel IH]; intros p inp out len ctr32 m B Hs Hf; pose proof B as [Hlen Hm _ _ _ _ _ _ _]; cbn [ctr32_blocks]; case_if.
  1,3: apply runs_ret; [done|]; exists 0; rewrite !Z.add_0_r, Z.sub_0_r; split_and!; try done; apply rest_0; [done|apply upd_refl].
  - exfalso. Z.to_euclidean_division_equations; lia.
  - destruct Hs as [Hs ->]. destruct (blocks_step (c + p / 16) len ltac:(lia)) as (b & Hb & Hl & Hle & Eb). cbv zeta in Eb |- *.
    rewrite Eb. apply (func_step _ p inp out len b m); [done..|]. intros m1 Hu1 Hm1 R1 S1.
    rewrite u64_small by (unfold is_u; lia). rewrite (Z.mul_comm b).
    eapply runs_sub; [apply (IH (p + 16 * b)); [by eapply buffers_drop; [|exact Hu1|..]; [done|..|lia]|exact S1|]| |].
    + Z.to_euclidean_division_equations; lia.
    + intros x Hx. eapply footprint_sub; [exact Hx|lia|lia].
    + intros [[[inp' out'] len'] n'] m' _ _ (k & -> & -> & -> & R & S & Hlt). exists (16 * b + k).
      split_and!; [lia|lia|lia|by eapply rest_app| |lia]. by rewrite Z.add_assoc.
Qed.

(** The last block: a block of zeros is encrypted into [ecount_buf]. *)
Lemma last_step {X} (k : M mem X) p inp out len m A Q : buffers inp out len m -> state p 0 m ->
  (forall x, within ivec 16 x \/ within ecount_buf 16 x -> A x) ->
  (forall m', upd (fun x => within ivec 16 x \/ within ecount_buf 16 x) m m' -> mem_bytes m' -> loaded p m' -> runs k m' A Q) ->
  runs (mem_store ecount_buf (zrepeat 16 0);;; func ecount_buf ecount_buf 1 ivec;;;
    PUTU32 (ivec + 12) ((c + p / 16 + 1) mod 2 ^ 32);;;
    (if (c + p / 16 + 1) mod 2 ^ 32 =? 0 then ctr96_inc ivec else sret tt);;; k) m A Q.
Proof.
  intros [_ Hm _ _ Hv He _ _ Hd] (Hp & Hc & _) HA Hk.
  assert (Hc' : bytes_at m ivec 16 = counter c (p / 16)) by (rewrite Hc; f_equal; Z.to_euclidean_division_equations; lia).
  assert (Hde : forall x, within ecount_buf 16 x -> ~ within ivec 16 x) by (intros x Hx Hy; by apply (Hd x)).
  eapply runs_bind; [apply runs_store; [done|by apply bytes_ok_zrepeat|done|intros x Hx; apply HA; by right]|].
  intros _ m1 _ Hm1 [Hu1 H1]. change (zlen (zrepeat 16 0)) with 16 in Hu1, H1.
  assert (Hc1 : bytes_at m1 ivec 16 = counter c (p / 16)) by (rewrite <- Hc'; eapply bytes_at_upd; [exact Hu1|done]).
  eapply runs_bind.
  { eapply runs_sub; [apply (Hfunc ecount_buf ecount_buf 1 ivec m1); [done|lia|by eapply upd_mapped|by eapply upd_mapped|by eapply upd_mapped|lia|exact Hde]|intros x Hx; apply HA; by right|intros ? m2 H2 _ H3; exact (conj H2 H3)]. }
  intros _ m2 _ Hm2 [Hu2 H2]. change (16 * 1) with 16 in *.
  pose proof (Z.mod_pos_bound (c + p / 16) (2 ^ 32) ltac:(lia)) as Hmod.
  assert (Hc2 : bytes_at m2 ivec 16 = be_bytes 16 (c + p / 16)).
  { change (be_bytes 16 _) with (counter c (p / 16)). rewrite <- Hc1. eapply bytes_at_upd; [exact Hu2|done]. }
  assert (He2 : bytes_at m2 ecount_buf 16 = block (counter c (p / 16))).
  { destruct (Hblock (counter c (p / 16))) as (_ & HL & _); [apply length_be_bytes|apply be_bytes_ok|].
    apply bytes_at_eq; [lia|]. intros i Hi. rewrite H2, H1 by done.
    rewrite zget_zeros, Z.lxor_0_l, (func_keystream p) by (first [done|lia|rewrite (Z.div_small i) by lia; lia]).
    unfold keystream. replace ((p + i) / 16) with (p / 16) by (Z.to_euclidean_division_equations; lia).
    f_equal. Z.to_euclidean_division_equations; lia. }
  apply (bump_spec _ ivec (c + p / 16) 1 m2); [done|eapply upd_mapped; [exact Hu2|by eapply upd_mapped]|exact Hc2|lia|lia|intros x Hx; apply HA; by left|].
  intros m3 Hu3 Hm3 Hc3. apply Hk; [|done|].
  - eapply upd_trans; [eapply upd_sub; [|exact Hu1]|eapply upd_trans; eapply upd_sub; [|exact Hu2| |exact Hu3]]; tauto.
  - split; [rewrite <- He2; eapply bytes_at_upd; [exact Hu3|done]|]. rewrite Hc3. unfold counter. f_equal. lia.
Qed.

Lemma GETU32_spec p m : mapped m ivec 16 -> state p 0 m -> GETU32 (ivec + 12) m = Some ((c + p / 16) mod 2 ^ 32, m).
Proof.
  intros Hv (Hp & Hc & _). unfold GETU32, sbind. rewrite mem_load_at by (eapply mapped_sub; [exact Hv|lia|lia]).
  assert (Hc' : bytes_at m ivec 16 = be_bytes 16 (c + p / 16)).
  { rewrite Hc. unfold counter. f_equal. Z.to_euclidean_division_equations; lia. }
  apply counter_parts in Hc' as [_ ->]. by rewrite be_val_be_bytes.
Qed.

Lemma ctr32_post p inp out len num m : buffers inp out len m -> state p num m ->
  runs (CRYPTO_ctr128_encrypt_ctr32 func inp out len ivec ecount_buf num) m (footprint out len) (ctr_post p inp out len m).
Proof.
  intros B Hs. pose proof B as [Hlen _ _ _ _ _ _ _ _]. pose proof Hs as (Hn & _). unfold CRYPTO_ctr128_encrypt_ctr32.
  replace (num <? 16) with true by (pose proof (Z.mod_pos_bound p 16); lia). cbn [negb].
  eapply runs_bind; [apply (ctr_head_spec 16 p); [done|done|Z.to_euclidean_division_equations; lia]|].
  intros [[[inp1 out1] len1] n1] m1 Hu1 Hm1 (k & -> & -> & -> & R1 & S1 & Hend1).
  pose proof (buffers_drop _ _ _ k _ _ _ B (proj2 (proj2 R1)) Hm1 (proj1 R1)) as B1.
  destruct (Z.eq_dec (len - k) 0) as [Hz|Hz].
  { rewrite Hz. assert (k = len) as -> by lia. 
    assert (Hg : mapped m1 (ivec + 12) 4) by (eapply mapped_sub; [exact (ctr_ivec _ _ _ _ _ _ B1)|lia|lia]).
    eapply runs_bind with (Q := fun _ m' => m' = m1).
    { exists (be_val (bytes_at m1 (ivec + 12) 4)), m1. split_and!; [|apply upd_refl|done|done].
      unfold GETU32, sbind. by rewrite mem_load_at. }
    intros ctr ? _ _ ->. cbn [ctr32_blocks Z.to_nat]. change (0 <? 16) with true. cbv iota.
    eapply runs_bind; [by apply runs_ret with (Q := fun q m' => m' = m1 /\ q = (inp + len, out + len, 0, ctr))|].
    intros ? ? _ _ [-> ->]. change (0 =? 0) with true. apply runs_ret; [done|]. split; [apply R1|done]. }
  assert (n1 = 0) as -> by lia.
  eapply runs_bind.
  { exists ((c + (p + k) / 16) mod 2 ^ 32), m1. split_and!; [apply GETU32_spec; [apply B1|done]|apply upd_refl|done|].
    exact (conj eq_refl eq_refl : (fun x m' => x = _ /\ m' = m1) _ _). }
  intros ? ? _ _ [-> ->].
  eapply runs_bind.
  { eapply runs_sub; [apply (ctr32_blocks_spec _ (p + k)); [exact B1|by split|]| |intros q m' _ _ Hq; exact Hq].
    - rewrite Z2Nat.id by apply B1. pose proof (ctr_len _ _ _ _ _ _ B1). Z.to_euclidean_division_equations; lia.
    - intros x Hx. eapply footprint_sub; [exact Hx|apply R1|lia]. }
  intros [[[inp2 out2] len2] ctr] m2 Hu2 Hm2 (j & -> & -> & -> & R2' & [S2 ->] & Hlt).
  pose proof (rest_app _ _ _ _ _ _ _ _ _ B R1 R2') as R2. rewrite <- !Z.add_assoc, <- Z.sub_add_distr in *.
  pose proof (buffers_drop _ _ _ (k + j) _ _ _ B (proj2 (proj2 R2)) Hm2 (proj1 R2)) as B2. pose proof S2 as (Hp2 & _ & _). case_if.
  - apply runs_ret; [done|]. assert (k + j = len) as Hkj by lia. rewrite Hkj in *. split; [apply R2|done].
  - pose proof (proj1 R2) as Hj. rewrite u32_mod. change 4294967296 with (2 ^ 32). rewrite Zplus_mod_idemp_l.
    apply (last_step _ (p + (k + j)) (inp + (k + j)) (out + (k + j)) (len - (k + j))); [exact B2|exact S2|intros x Hx; by right|].
    intros m3 Hu3 Hm3 Hld. pose proof (buffers_upd _ _ _ _ _ _ B2 Hu3 Hm3) as B3.
    assert (R3 : rest p inp out len (k + j) m m3).
    { rewrite <- (Z.add_0_r (k + j)). apply (rest_app p inp out len (k + j) 0 m m2); [done|done|by apply rest_0]. }
    eapply runs_sub; [apply (ctr_tail_spec _ (p + (k + j))); [|done|apply S2|lia|lia]| |].
    + rewrite !Z.add_0_r, Z2Nat.id by lia. exact B3.
    + intros x Hx. rewrite Z.add_0_r in Hx. eapply footprint_sub; [exact Hx|lia|lia].
    + intros n' m' _ _ [R S]. rewrite !Z.add_0_r, Z2Nat.id in R by lia. rewrite Z2Nat.id in S by lia.
      pose proof (rest_app p inp out len (k + j) (len - (k + j)) m m3 m' B R3 R) as [_ [HX _]].
      replace (k + j + (len - (k + j))) with len in HX by lia.
      replace (p + (k + j) + (len - (k + j))) with (p + len) in S by lia. by split.
Qed.
End Spec.

(** * Properties *)

(** Counter mode: [CRYPTO_ctr128_encrypt] xors the input with the bytes of the key
    stream from position [p], and leaves the context of position [p + len]; so a message
    may come in any pieces. It is defined, whether the input and the output are the
    same, the output starts before the input, or they are apart, and changes no other
    memory. The counter has 128 bits and wraps. *)
Theorem CRYPTO_ctr128_encrypt_spec f block c p inp out len ivec ecount_buf num m :
  block_ok f block -> ctr_buffers inp out len ivec ecount_buf m -> ctr_state block c p num ivec ecount_buf m ->
  exists num' m', CRYPTO_ctr128_encrypt f inp out len ivec ecount_buf num m = Some (num', m') /\
    xored block c p inp out len m m' /\ ctr_state block c (p + len) num' ivec ecount_buf m' /\
    upd (footprint ivec ecount_buf out len) m m'.
Proof.
  intros Hf B S. destruct (ctr128_post f block Hf c ivec ecount_buf p inp out len num m B S) as (n & m' & E & Hu & _ & HX & HS).
  by exists n, m'.
Qed.

(** The same position leaves the same context, but for the spent block. *)
Lemma ctr_post_unique block c p inp out len ivec ecount_buf m n1 m1 n2 m2 :
  ctr_buffers inp out len ivec ecount_buf m ->
  upd (footprint ivec ecount_buf out len) m m1 -> ctr_post block c ivec ecount_buf p inp out len m n1 m1 ->
  upd (footprint ivec ecount_buf out len) m m2 -> ctr_post block c ivec ecount_buf p inp out len m n2 m2 ->
  n1 = n2 /\ forall x, ~ within ecount_buf 16 x -> m1 !! x = m2 !! x.
Proof.
  intros B U1 [X1 (N1 & V1 & _)] U2 [X2 (N2 & V2 & _)]. split; [by rewrite N1, N2|]. intros x Hx.
  assert (Hbyte : byte m1 x = byte m2 x -> m1 !! x = m2 !! x).
  { unfold byte. destruct U1 as [_ D1], U2 as [_ D2]. specialize (D1 x). specialize (D2 x). intros Hb.
    destruct (m1 !! x) eqn:H1, (m2 !! x) eqn:H2; cbn in Hb; [congruence|exfalso|exfalso|done].
    - destruct D2 as [_ D2]. destruct D2 as [? D2]; [by apply D1; eexists|congruence].
    - destruct D1 as [_ D1]. destruct D1 as [? D1]; [by apply D2; eexists|congruence]. }
  apply Hbyte. destruct (decide (out <= x < out + len)) as [Ho|Ho].
  - specialize (X1 (x - out) ltac:(lia)). specialize (X2 (x - out) ltac:(lia)). replace (out + (x - out)) with x in * by lia. congruence.
  - destruct (decide (ivec <= x < ivec + 16)) as [Hv|Hv].
    + rewrite <- V2 in V1. apply (f_equal (fun l => zget l (x - ivec))) in V1. rewrite !zget_bytes_at in V1 by lia.
      by replace (ivec + (x - ivec)) with x in V1 by lia.
    + assert (Hf : ~ footprint ivec ecount_buf out len x) by (unfold footprint, within in *; lia).
      by rewrite (upd_byte _ _ _ _ U1 Hf), (upd_byte _ _ _ _ U2 Hf).
Qed.

(** C11. Equivalence with the reference: [CRYPTO_ctr128_encrypt_ctr32], which calls a
    function that only counts in 32 bits and takes many blocks at a time, returns and
    leaves what [CRYPTO_ctr128_encrypt] does, through every wrap of the 32-bit counter
    and the limit of 2^28 blocks a call; only the bytes of [ecount_buf] may differ, where
    no byte of them is left to use. *)
Theorem CRYPTO_ctr128_encrypt_ctr32_equiv f block func c p inp out len ivec ecount_buf num m :
  block_ok f block -> ctr128_f_ok block func -> ctr_buffers inp out len ivec ecount_buf m ->
  ctr_state block c p num ivec ecount_buf m ->
  exists num' m1 m2, CRYPTO_ctr128_encrypt f inp out len ivec ecount_buf num m = Some (num', m1) /\
    CRYPTO_ctr128_encrypt_ctr32 func inp out len ivec ecount_buf num m = Some (num', m2) /\
    (forall x, ~ within ecount_buf 16 x -> m1 !! x = m2 !! x) /\
    ctr_state block c (p + len) num' ivec ecount_buf m1 /\ ctr_state block c (p + len) num' ivec ecount_buf m2.
Proof.
  intros Hf Hfunc B S. destruct (ctr128_post f block Hf c ivec ecount_buf p inp out len num m B S) as (n1 & m1 & E1 & U1 & _ & P1).
  destruct (ctr32_post f block Hf c ivec ecount_buf func Hfunc p inp out len num m B S) as (n2 & m2 & E2 & U2 & _ & P2).
  destruct (ctr_post_unique _ _ _ _ _ _ _ _ _ _ _ _ _ B U1 P1 U2 P2) as [<- Hx].
  exists n1, m1, m2. split_and!; [done|done|done|apply P1|apply P2].
Qed.
