(* ===== verification/Cbc.v ===== *)
(** * Cipher block chaining

    Models src/bubble/Pods/BoringSSL/crypto/modes/cbc.c for a platform whose size_t has
    64 bits (STRICT_ALIGNMENT is 0). The buffers are addresses in one memory, for the
    code chooses between two loops by the distance of [in] from [out], and chains
    through pointers into the buffer that it is writing (encryption) or reading
    (decryption). The theorems say that both loops compute the mode wherever the assert
    of the code allows the buffers to be, and that decryption inverts encryption. *)

From Stdlib Require Import ZArith Lia.
From stdpp Require Import base option list gmap.
From S2P Require Import Prelude ByteMem Modes.

(** * The program *)

Section Cbc.
Context (block : bytes -> option bytes).

(** [while (len >= 16)] of [CRYPTO_cbc128_encrypt]. *)
Fixpoint enc_blocks (fuel : nat) (inp out len iv : Z) : M mem (Z * Z * Z * Z) :=
  if len <? 16 then sret (inp, out, len, iv)
  else
    match fuel with
    | O => sstuck
    | S fuel =>
        xor_u 8 out inp iv;;;
        xor_u 8 (out + 8) (inp + 8) (iv + 8);;;
        block128_f block out out;;;
        enc_blocks fuel (inp + 16) (out + 16) (len - 16) out
    end.

(** [for (n = 0; n < 16 && n < len; ++n)]; the result is [n]. *)
Fixpoint xor_bytes_loop (fuel : nat) (inp out len iv n : Z) : M mem Z :=
  match fuel with
  | O => sret n
  | S fuel =>
      if n <? len then
        xor_u 1 (out + n) (inp + n) (iv + n);;;
        xor_bytes_loop fuel inp out len iv (n + 1)
      else sret n
  end.

(** [for (; n < 16; ++n) out[n] = iv[n]] *)
Fixpoint copy_loop (fuel : nat) (from to n : Z) : M mem unit :=
  match fuel with
  | O => sret tt
  | S fuel =>
      let* b := load_u 1 (from + n) in
      store_u 1 (to + n) b;;;
      copy_loop fuel from to (n + 1)
  end.

(** [while (len)] *)
Fixpoint enc_rest (fuel : nat) (inp out len iv : Z) : M mem Z :=
  if len =? 0 then sret iv
  else
    match fuel with
    | O => sstuck
    | S fuel =>
        let* n := xor_bytes_loop 16 inp out len iv 0 in
        copy_loop (Z.to_nat (16 - n)) iv out n;;;
        block128_f block out out;;;
        if len <=? 16 then sret out else enc_rest fuel (inp + 16) (out + 16) (len - 16) out
    end.

Definition CRYPTO_cbc128_encrypt (inp out len ivec : Z) : M mem unit :=
  let* (inp, out, len, iv) := enc_blocks (Z.to_nat len) inp out len ivec in
  let* iv := enc_rest (Z.to_nat len) inp out len iv in
  let* b := mem_load 16 iv in
  mem_store ivec b.

(** The loop that decrypts to [out]. *)
Fixpoint dec_direct (fuel : nat) (inp out len iv : Z) : M mem (Z * Z * Z * Z) :=
  if len <? 16 then sret (inp, out, len, iv)
  else
    match fuel with
    | O => sstuck
    | S fuel =>
        block128_f block inp out;;;
        xor_u 8 out out iv;;;
        xor_u 8 (out + 8) (out + 8) (iv + 8);;;
        dec_direct fuel (inp + 16) (out + 16) (len - 16) inp
    end.

(** The assignments of a word of [n] bytes: [c], [out] and [ivec]. *)
Definition dec_word (n : Z) (tmp : bytes) (inp out ivec : Z) : M mem unit :=
  let* c := load_u n inp in
  let* v := load_u n ivec in
  store_u n out (Z.lxor (le_val tmp) v);;;
  store_u n ivec c.

(** [( *block)(in, tmp.c, key)] for the local [tmp]. *)
Definition block_tmp (inp : Z) : M mem bytes := let* b := mem_load 16 inp in slift (block b).

(** The loop that decrypts to [tmp]. *)
Fixpoint dec_tmp (fuel : nat) (inp out len ivec : Z) : M mem (Z * Z * Z) :=
  if len <? 16 then sret (inp, out, len)
  else
    match fuel with
    | O => sstuck
    | S fuel =>
        let* tmp := block_tmp inp in
        dec_word 8 (ztake 8 tmp) inp out ivec;;;
        dec_word 8 (zdrop 8 tmp) (inp + 8) (out + 8) (ivec + 8);;;
        dec_tmp fuel (inp + 16) (out + 16) (len - 16) ivec
    end.

(** [for (n = 0; n < 16 && n < len; ++n)] of the last loop. *)
Fixpoint dec_bytes (fuel : nat) (tmp : bytes) (inp out len ivec n : Z) : M mem Z :=
  match fuel with
  | O => sret n
  | S fuel =>
      if n <? len then
        dec_word 1 [zget tmp n] (inp + n) (out + n) (ivec + n);;;
        dec_bytes fuel tmp inp out len ivec (n + 1)
      else sret n
  end.

Fixpoint dec_rest (fuel : nat) (inp out len ivec : Z) : M mem unit :=
  if len =? 0 then sret tt
  else
    match fuel with
    | O => sstuck
    | S fuel =>
        let* tmp := block_tmp inp in
        let* n := dec_bytes 16 tmp inp out len ivec 0 in
        if len <=? 16 then copy_loop (Z.to_nat (16 - n)) inp ivec n
        else dec_rest fuel (inp + 16) (out + 16) (len - 16) ivec
    end.

Definition CRYPTO_cbc128_decrypt (inp out len ivec : Z) : M mem unit :=
  if negb ((out <=? inp) || (u64 (inp + len) <=? out)) then sstuck (* assert *)
  else
    let* (inp, out, len) :=
      if ((32 <=? inp) && (out <=? inp - 32)) || (inp <? out) then
        let* (inp, out, len, iv) := dec_direct (Z.to_nat len) inp out len ivec in
        let* b := mem_load 16 iv in
        mem_store ivec b;;;
        sret (inp, out, len)
      else dec_tmp (Z.to_nat len) inp out len ivec in
    dec_rest (Z.to_nat len) inp out len ivec.
End Cbc.

(** * Specification: [n] blocks, as NIST SP 800-38A defines the mode *)

Fixpoint cbc_encrypt (E : bytes -> bytes) (n : nat) (iv p : bytes) : bytes :=
  match n with
  | O => []
  | S n => let c := E (xor_bytes (ztake 16 p) iv) in c ++ cbc_encrypt E n c (zdrop 16 p)
  end.

Fixpoint cbc_decrypt (D : bytes -> bytes) (n : nat) (iv c : bytes) : bytes :=
  match n with
  | O => []
  | S n => xor_bytes (D (ztake 16 c)) iv ++ cbc_decrypt D n (ztake 16 c) (zdrop 16 c)
  end.

(** The last block of ciphertext, which the next call chains from. *)
Definition last_block (iv c : bytes) : bytes := zdrop (zlen c) (iv ++ c).

(** The buffers: [ilen] bytes are read, [olen] written. *)
Record cbc_buffers (inp ilen out olen ivec : Z) (m : mem) : Prop := {
  cbc_mem : mem_bytes m;
  cbc_inp : mapped m inp ilen;
  cbc_out : mapped m out olen;
  cbc_ivec : mapped m ivec 16;
  cbc_alias : out <= inp \/ inp + ilen <= out;
  cbc_apart : forall x, within inp ilen x \/ within out olen x -> ~ within ivec 16 x }.

(** The number of blocks that hold [len] bytes. *)
Definition blocks_of (len : Z) : Z := (len + 15) / 16.

(** * Lemmas: words and bytes *)

Definition apart (a n b k : Z) : Prop := forall x, within a n x -> ~ within b k x.

(** Two words, which do not overwrite each other's operands. *)
Lemma runs_xor16 {X} (k : M mem X) out a b m A Q : mem_bytes m -> mapped m out 16 -> mapped m a 16 -> mapped m b 16 ->
  apart out 8 (a + 8) 8 -> apart out 8 (b + 8) 8 -> (forall x, within out 16 x -> A x) ->
  (forall m', upd (within out 16) m m' -> mem_bytes m' ->
    bytes_at m' out 16 = xor_bytes (bytes_at m a 16) (bytes_at m b 16) -> runs k m' A Q) ->
  runs (xor_u 8 out a b;;; xor_u 8 (out + 8) (a + 8) (b + 8);;; k) m A Q.
Proof.
  intros Hm Ho Ha Hb Hda Hdb HA Hk.
  eapply runs_bind; [apply runs_xor_u; [done|lia| | | |]|].
  1-3: mapped_tac.
  { intros x Hx. apply HA. unfold within in *. lia. }
  intros _ m1 _ Hm1 [Hu1 H1].
  eapply runs_bind; [apply runs_xor_u; [done|lia| | | |]|].
  1-3: mapped_tac.
  { intros x Hx. apply HA. unfold within in *. lia. }
  intros _ m2 _ Hm2 [Hu2 H2]. apply Hk; [|done|].
  - eapply upd_trans; eapply upd_sub; [|exact Hu1| |exact Hu2]; unfold within; lia.
  - apply bytes_at_eq; [rewrite length_xor_bytes, !length_bytes_at; lia|]. intros i Hi.
    rewrite zget_xor_bytes, !zget_bytes_at by (rewrite ?length_bytes_at; lia). destruct (Z.lt_ge_cases i 8) as [Hi8|Hi8].
    + rewrite (upd_byte _ _ _ _ Hu2) by (unfold within; lia). apply H1; lia.
    + specialize (H2 (i - 8) ltac:(lia)). replace (out + 8 + (i - 8)) with (out + i) in H2 by lia. rewrite H2.
      specialize (Hda (a + i)). specialize (Hdb (b + i)). unfold within in Hda, Hdb.
      replace (a + 8 + (i - 8)) with (a + i) by lia. replace (b + 8 + (i - 8)) with (b + i) by lia.
      f_equal; apply (upd_byte _ _ _ _ Hu1); unfold within; lia.
Qed.

Lemma xor_bytes_loop_spec fuel : forall inp out len iv n m, mem_bytes m -> mapped m inp len -> mapped m out len -> mapped m iv len ->
  (out <= inp \/ inp + len <= out) -> apart iv len out len -> 0 <= n <= len -> len - n <= Z.of_nat fuel ->
  runs (xor_bytes_loop fuel inp out len iv n) m (within (out + n) (len - n)) (fun n' m' => n' = len /\
    forall i, n <= i < len -> byte m' (out + i) = Z.lxor (byte m (inp + i)) (byte m (iv + i))).
Proof.
  induction fuel as [|fuel IH]; intros inp out len iv n m Hm Hi Ho Hv Ha Hd Hn Hf; cbn [xor_bytes_loop].
  - apply runs_ret; [done|]. split; [lia|]. intros i Hi'. lia.
  - case_if; [|apply runs_ret; [done|]; split; [lia|]; intros i Hi'; lia].
    eapply runs_bind; [apply runs_xor_u; [done|lia| | | |]|].
    1-3: mapped_tac.
    { unfold within. lia. }
    intros _ m1 _ Hm1 [Hu1 H1]. specialize (H1 0 ltac:(lia)). rewrite !Z.add_0_r in H1.
    eapply runs_sub; [apply (IH inp out len iv (n + 1) m1); [done|by eapply upd_mapped..|done|done|lia|lia]|unfold within; lia|].
    intros n' m' Hu' _ [-> H']. split; [done|]. intros i Hi'. destruct (Z.eq_dec i n) as [->|Hne].
    + rewrite (upd_byte _ _ _ _ Hu'); [done|unfold within; lia].
    + rewrite H' by lia. specialize (Hd (iv + i)). unfold within in Hd.
      f_equal; apply (upd_byte _ _ _ _ Hu1); unfold within; lia.
Qed.

Lemma copy_loop_spec k : forall from to n m, mem_bytes m -> mapped m (from + n) (Z.of_nat k) -> mapped m (to + n) (Z.of_nat k) ->
  apart (from + n) (Z.of_nat k) (to + n) (Z.of_nat k) ->
  runs (copy_loop k from to n) m (within (to + n) (Z.of_nat k)) (fun _ m' =>
    forall i, n <= i < n + Z.of_nat k -> byte m' (to + i) = byte m (from + i)).
Proof.
  induction k as [|k IH]; intros from to n m Hm Hf Ht Hd; cbn [copy_loop]; [apply runs_ret; [done|]; intros i Hi; lia|].
  eapply runs_bind; [apply runs_load_u with (Q := fun b m' => b = byte m (from + n) /\ m' = m); [done|eapply mapped_sub; [exact Hf|lia|lia]|]|].
  { split; [|done]. unfold bytes_at. change (seqZ 0 1) with [0]. cbn [map]. by rewrite Z.add_0_r. }
  intros ? ? _ _ [-> ->].
  eapply runs_bind; [apply runs_store_u; [done|lia|eapply mapped_sub; [exact Ht|lia|lia]|unfold within; lia]|].
  intros _ m1 _ Hm1 [Hu1 H1]. specialize (H1 0 ltac:(lia)). rewrite Z.add_0_r in H1. change (Z.to_nat 1) with 1%nat in H1.
  rewrite le_bytes_S, zget_cons_0, Z.mod_small in H1 by (apply byte_is_byte; done).
  eapply runs_sub; [apply (IH from to (n + 1) m1); [done|mapped_tac..|]| |].
  - intros x Hx Hy. apply (Hd x); unfold within in *; lia.
  - unfold within. lia.
  - intros ? m' Hu' _ H' i Hi. destruct (Z.eq_dec i n) as [->|Hne].
    + rewrite (upd_byte _ _ _ _ Hu'); [done|unfold within; lia].
    + rewrite H' by lia. specialize (Hd (from + i)). unfold within in Hd. apply (upd_byte _ _ _ _ Hu1). unfold within. lia.
Qed.

Lemma last_block_nil iv : last_block iv [] = iv.
Proof. unfold last_block. rewrite app_nil_r. by apply zdrop_0. Qed.

Lemma last_block_cons iv c d : length iv = length c -> last_block iv (c ++ d) = last_block c d.
Proof.
  intros Hl. unfold last_block. rewrite length_app, Nat2Z.inj_add, <- zdrop_zdrop by lia. by rewrite zdrop_app by lia.
Qed.

Lemma last_block_snoc iv c d : length iv = length d -> last_block iv (c ++ d) = d.
Proof.
  intros Hl. unfold last_block. rewrite app_assoc. apply zdrop_app. rewrite !length_app. lia.
Qed.

Lemma bytes_at_ztake m a n k : 0 <= k <= n -> ztake k (bytes_at m a n) = bytes_at m a k.
Proof. intros Hk. replace n with (k + (n - k)) by lia. rewrite bytes_at_app by lia. apply ztake_app. rewrite length_bytes_at. lia. Qed.

Lemma bytes_at_zdrop m a n k : 0 <= k <= n -> zdrop k (bytes_at m a n) = bytes_at m (a + k) (n - k).
Proof.
  intros Hk. replace n with (k + (n - k)) at 1 by lia. rewrite bytes_at_app by lia. apply zdrop_app. rewrite length_bytes_at. lia.
Qed.

(** * Lemmas: encryption *)

Section Encrypt.
Context (f : bytes -> option bytes) (E : bytes -> bytes).
Hypothesis HE : block_ok f E.

Lemma enc_step {X} (k : M mem X) inp out iv m A Q : mem_bytes m -> mapped m inp 16 -> mapped m out 16 -> mapped m iv 16 ->
  apart out 8 (inp + 8) 8 -> apart out 8 (iv + 8) 8 -> (forall x, within out 16 x -> A x) ->
  (forall m', upd (within out 16) m m' -> mem_bytes m' ->
    bytes_at m' out 16 = E (xor_bytes (bytes_at m inp 16) (bytes_at m iv 16)) -> runs k m' A Q) ->
  runs (xor_u 8 out inp iv;;; xor_u 8 (out + 8) (inp + 8) (iv + 8);;; block128_f f out out;;; k) m A Q.
Proof.
  intros Hm Hi Ho Hv Hd1 Hd2 HA Hk. apply runs_xor16; [done..|]. intros m1 Hu1 Hm1 H1.
  eapply runs_bind; [apply (runs_block f E); [done|done|mapped_tac|mapped_tac|done]|].
  intros _ m2 _ Hm2 [Hu2 H2]. rewrite H1 in H2. apply Hk; [by eapply upd_trans|done|done].
Qed.

(** The pointer that the next block chains from. *)
Definition chain_at (iv0 : Z) (out : Z) (q : nat) : Z := match q with O => iv0 | S _ => out + 16 * Z.of_nat q - 16 end.

Lemma enc_blocks_spec q : forall fuel inp out r iv m, mem_bytes m ->
  mapped m inp (16 * Z.of_nat q) -> mapped m out (16 * Z.of_nat q) -> mapped m iv 16 ->
  (out <= inp \/ inp + 16 * Z.of_nat q <= out) -> apart iv 16 out (16 * Z.of_nat q) -> 0 <= r < 16 -> (q <= fuel)%nat ->
  runs (enc_blocks f fuel inp out (16 * Z.of_nat q + r) iv) m (within out (16 * Z.of_nat q)) (fun p m' =>
    p = (inp + 16 * Z.of_nat q, out + 16 * Z.of_nat q, r, chain_at iv out q) /\
    bytes_at m' out (16 * Z.of_nat q) = cbc_encrypt E q (bytes_at m iv 16) (bytes_at m inp (16 * Z.of_nat q)) /\
    bytes_at m' (chain_at iv out q) 16 = last_block (bytes_at m iv 16) (bytes_at m' out (16 * Z.of_nat q))).
Proof.
  induction q as [|q IH]; intros fuel inp out r iv m Hm Hi Ho Hv Ha Hd Hr Hf.
  { change (16 * Z.of_nat 0) with 0. assert (E0 : enc_blocks f fuel inp out (0 + r) iv = sret (inp, out, r, iv)).
    { destruct fuel; cbn [enc_blocks]; case_if; try lia; do 3 f_equal. }
    rewrite E0. apply runs_ret; [done|]. rewrite !Z.add_0_r. split_and!; [done|done|].
    change (bytes_at m out 0) with (@nil Z). by rewrite last_block_nil. }
  rewrite Nat2Z.inj_succ, <- Z.add_1_r in *. destruct fuel as [|fuel]; [lia|]. cbn [enc_blocks]. case_if; [lia|].
  apply enc_step; [done|mapped_tac|mapped_tac|done|unfold apart, within; lia| |unfold within; lia|].
  { intros x Hx Hy. apply (Hd x); unfold within in *; lia. }
  intros m1 Hu1 Hm1 H1. replace (16 * (Z.of_nat q + 1) + r - 16) with (16 * Z.of_nat q + r) by lia.
  eapply runs_sub; [apply (IH fuel (inp + 16) (out + 16) r out m1); [done|mapped_tac|mapped_tac|mapped_tac|lia|unfold apart, within; lia|done|lia]|unfold within; lia|].
  intros p m' Hu' _ (-> & Hout & Hlast).
  assert (Hi1 : bytes_at m1 (inp + 16) (16 * Z.of_nat q) = bytes_at m (inp + 16) (16 * Z.of_nat q)).
  { eapply bytes_at_upd; [exact Hu1|]. unfold within. lia. }
  assert (H1' : bytes_at m' out 16 = bytes_at m1 out 16) by (eapply bytes_at_upd; [exact Hu'|]; unfold within; lia).
  assert (Hl : length (bytes_at m iv 16) = length (bytes_at m1 out 16)) by by rewrite !length_bytes_at.
  replace (16 * (Z.of_nat q + 1)) with (16 + 16 * Z.of_nat q) by lia.
  assert (Hc : chain_at iv out (S q) = chain_at out (out + 16) q) by (unfold chain_at; destruct q; lia). rewrite Hc.
  split; [|split].
  - f_equal. f_equal. f_equal; lia.
  - rewrite !bytes_at_app by lia. rewrite Hout, Hi1, H1'. cbn [cbc_encrypt].
    rewrite ztake_app, zdrop_app by (rewrite length_bytes_at; lia). by rewrite <- H1.
  - rewrite bytes_at_app, H1', last_block_cons, <- Hlast by (done || lia). done.
Qed.

(** The last, partial block, as if padded with zeros. *)
Definition pad16 (p : bytes) : bytes := p ++ zrepeat (16 - zlen p) 0.

Lemma enc_rest_spec fuel inp out len iv m : mem_bytes m -> mapped m inp len -> mapped m out 16 -> mapped m iv 16 ->
  (out <= inp \/ inp + len <= out) -> apart iv 16 out 16 -> 0 < len < 16 -> (0 < fuel)%nat ->
  runs (enc_rest f fuel inp out len iv) m (within out 16) (fun iv' m' => iv' = out /\
    bytes_at m' out 16 = E (xor_bytes (pad16 (bytes_at m inp len)) (bytes_at m iv 16))).
Proof.
  intros Hm Hi Ho Hv Ha Hd Hl Hf. destruct fuel as [|fuel]; [lia|]. cbn [enc_rest]. replace (len =? 0) with false by lia.
  eapply runs_bind; [eapply runs_sub; [apply xor_bytes_loop_spec; [done|done|mapped_tac|mapped_tac|done| |lia|lia]|unfold within; lia|intros ? m1 Hu1 _ H1; exact (conj Hu1 H1)]|].
  { intros x Hx Hy. apply (Hd x); unfold within in *; lia. }
  intros n m1 _ Hm1 [Hu1 [-> H1]]. rewrite !Z.add_0_r in Hu1.
  assert (Hk : Z.of_nat (Z.to_nat (16 - len)) = 16 - len) by lia.
  eapply runs_bind; [eapply runs_sub; [apply copy_loop_spec; [done|rewrite Hk; mapped_tac|rewrite Hk; mapped_tac|rewrite Hk]|rewrite Hk; unfold within; lia|intros ? m2 Hu2 _ H2; exact (conj Hu2 H2)]|].
  { intros x Hx Hy. apply (Hd x); unfold within in *; lia. }
  intros _ m2 _ Hm2 [Hu2 H2]. rewrite Hk in Hu2, H2.
  eapply runs_bind; [apply (runs_block f E); [done|done|mapped_tac|mapped_tac|done]|].
  intros _ m3 _ Hm3 [Hu3 H3]. replace (len <=? 16) with true by lia. apply runs_ret; [done|]. split; [done|].
  rewrite H3. f_equal. apply bytes_at_eq; [unfold pad16, zrepeat; rewrite length_xor_bytes, length_app, length_replicate, !length_bytes_at; lia|].
  intros i Hi'. rewrite zget_xor_bytes by (unfold pad16, zrepeat; rewrite ?length_app, ?length_replicate, ?length_bytes_at; lia).
  rewrite zget_bytes_at by lia. unfold pad16. destruct (Z.lt_ge_cases i len) as [Hil|Hil].
  - rewrite zget_app_l, zget_bytes_at by (rewrite ?length_bytes_at; lia).
    rewrite (upd_byte _ _ _ _ Hu2) by (unfold within; lia). apply H1. lia.
  - rewrite zget_app_r, zget_zeros, Z.lxor_0_l by (rewrite ?length_bytes_at; lia). rewrite H2 by lia.
    apply (upd_byte _ _ _ _ Hu1). specialize (Hd (iv + i)). unfold within in *. lia.
Qed.

Lemma cbc_encrypt_app q n iv p p' : zlen p = 16 * Z.of_nat q -> length iv = 16%nat -> bytes_ok p -> bytes_ok iv ->
  cbc_encrypt E (q + n) iv (p ++ p') =
  cbc_encrypt E q iv p ++ cbc_encrypt E n (last_block iv (cbc_encrypt E q iv p)) p'.
Proof.
  revert iv p. induction q as [|q IH]; intros iv p Hp Hv Hbp Hbv; cbn [Nat.add cbc_encrypt].
  - rewrite last_block_nil. by destruct p.
  - assert (H16 : ztake 16 (p ++ p') = ztake 16 p /\ zdrop 16 (p ++ p') = zdrop 16 p ++ p').
    { unfold ztake, zdrop. rewrite take_app_le, drop_app_le by lia. done. }
    destruct H16 as [-> ->]. destruct (HE (xor_bytes (ztake 16 p) iv)) as (_ & Hlen & HbE).
    { rewrite length_xor_bytes. unfold ztake. rewrite length_take. lia. }
    { apply xor_bytes_ok; [by apply bytes_ok_ztake|done]. }
    rewrite IH; [|unfold zdrop; rewrite length_drop; lia|exact Hlen|by apply bytes_ok_zdrop|exact HbE]. rewrite <- app_assoc. do 2 f_equal. f_equal.
    by rewrite last_block_cons by lia.
Qed.

(** The last, partial block after [q] whole ones: the [n] blocks are done. *)
Lemma enc_last q r n inp out ivec m m1 : let iv1 := chain_at ivec out q in let iv := bytes_at m ivec 16 in
  (r = 0 /\ n = Z.of_nat q) \/ (0 < r < 16 /\ n = Z.of_nat q + 1) ->
  mem_bytes m -> cbc_buffers inp (16 * Z.of_nat q + r) out (16 * n) ivec m1 ->
  bytes_at m1 (inp + 16 * Z.of_nat q) r = bytes_at m (inp + 16 * Z.of_nat q) r ->
  bytes_at m1 out (16 * Z.of_nat q) = cbc_encrypt E q iv (bytes_at m inp (16 * Z.of_nat q)) ->
  bytes_at m1 iv1 16 = last_block iv (bytes_at m1 out (16 * Z.of_nat q)) ->
  exists iv', runs (enc_rest f (Z.to_nat r) (inp + 16 * Z.of_nat q) (out + 16 * Z.of_nat q) r iv1) m1
    (within (out + 16 * Z.of_nat q) (16 * (n - Z.of_nat q))) (fun iv2 m2 => iv2 = iv' /\ mapped m2 iv2 16 /\
      bytes_at m2 out (16 * n) = cbc_encrypt E (Z.to_nat n) iv (bytes_at m inp (16 * Z.of_nat q + r) ++ zrepeat (16 * n - (16 * Z.of_nat q + r)) 0) /\
      bytes_at m2 iv2 16 = last_block iv (bytes_at m2 out (16 * n))).
Proof.
  intros iv1 iv Hn Hm0 [Hm Hi Ho Hv Ha Hx] Hrd Hout Hlast.
  assert (Hv1 : mapped m1 iv1 16 /\ apart iv1 16 (out + 16 * Z.of_nat q) (16 * (n - Z.of_nat q))).
  { unfold iv1, chain_at. destruct q as [|q].
    - split; [done|]. intros x H1 H2. apply (Hx x); [right; unfold within in *; lia|done].
    - split; [mapped_tac|]. unfold apart, within. lia. }
  destruct Hv1 as [Hv1 Hd1]. destruct Hn as [[-> ->] | [Hr ->]].
  - exists iv1. cbn [enc_rest Z.to_nat]. change (0 =? 0) with true. cbv iota. apply runs_ret; [done|]. split_and!; [done|done| |done].
    rewrite Nat2Z.id, Hout, Z.add_0_r, Z.sub_diag. cbn [zrepeat Z.to_nat replicate]. by rewrite app_nil_r.
  - exists (out + 16 * Z.of_nat q). replace (16 * (Z.of_nat q + 1 - Z.of_nat q)) with 16 in * by lia.
    eapply runs_sub; [apply enc_rest_spec; [done|mapped_tac|mapped_tac|done|lia|done|done|lia]|done|].
    intros ? m2 Hu _ [-> H2]. split_and!; [done|mapped_tac| |].
    + replace (16 * (Z.of_nat q + 1)) with (16 * Z.of_nat q + 16) by lia. rewrite !bytes_at_app, <- app_assoc by lia.
      replace (Z.to_nat (Z.of_nat q + 1)) with (q + 1)%nat by lia.
      assert (H1 : bytes_at m2 out (16 * Z.of_nat q) = bytes_at m1 out (16 * Z.of_nat q)).
      { eapply bytes_at_upd; [exact Hu|]. unfold within. lia. }
      rewrite cbc_encrypt_app, H1, Hout.
      * f_equal. cbn [cbc_encrypt]. rewrite app_nil_r, <- Hout, <- Hlast. rewrite H2, Hrd. do 2 f_equal.
        rewrite ztake_all. { unfold pad16. do 2 f_equal. rewrite length_bytes_at. lia. }
        unfold zrepeat. rewrite length_app, length_replicate, length_bytes_at. lia.
      * rewrite length_bytes_at. lia.
      * apply length_bytes_at.
      * by apply bytes_at_ok.
      * by apply bytes_at_ok.
    + replace (16 * (Z.of_nat q + 1)) with (16 * Z.of_nat q + 16) by lia. rewrite bytes_at_app by lia.
      by rewrite last_block_snoc by by unfold iv; rewrite !length_bytes_at.
Qed.

(** What a call does, for [len] bytes in [blocks_of len] blocks. *)
Lemma cbc_encrypt_post inp out len ivec m : 
  0 <= len -> cbc_buffers inp len out (16 * blocks_of len) ivec m ->
  let n := blocks_of len in
  let p := bytes_at m inp len in
  let c := cbc_encrypt E (Z.to_nat n) (bytes_at m ivec 16) (p ++ zrepeat (16 * n - len) 0) in
  runs (CRYPTO_cbc128_encrypt f inp out len ivec) m (fun x => within out (16 * n) x \/ within ivec 16 x) (fun _ m' =>
    bytes_at m' out (16 * n) = c /\ bytes_at m' ivec 16 = last_block (bytes_at m ivec 16) c).
Proof.
  intros Hl [Hm Hi Ho Hv Ha Hx]. cbv zeta. set (q := Z.to_nat (len / 16)). set (r := len mod 16).
  pose proof (Z.div_mod len 16 ltac:(lia)) as Hdm. pose proof (Z.mod_pos_bound len 16 ltac:(lia)) as Hr. fold r in Hdm, Hr.
  assert (Hq : Z.of_nat q = len / 16) by (unfold q; rewrite Z2Nat.id by (apply Z.div_pos; lia); done).
  assert (Hn : (r = 0 /\ blocks_of len = Z.of_nat q) \/ (0 < r /\ blocks_of len = Z.of_nat q + 1)).
  { unfold blocks_of. Z.to_euclidean_division_equations; lia. }
  replace len with (16 * Z.of_nat q + r) in * by lia. clear Hdm. clearbody q r. clear Hq.
  set (n := blocks_of (16 * Z.of_nat q + r)) in *. unfold CRYPTO_cbc128_encrypt.
  eapply runs_bind; [eapply runs_sub; [apply (enc_blocks_spec q _ inp out r ivec m); [done|mapped_tac|mapped_tac|done|lia| |done|lia]| |intros ? m1 Hu1 _ H1; exact (conj Hu1 H1)]|].
  { intros x H1 H2. apply (Hx x); [right; unfold within in *; lia|done]. }
  { intros x Hw. left. unfold within in *. lia. }
  intros ? m1 _ Hm1 (Hu1 & -> & Hout1 & Hlast1). set (iv1 := chain_at ivec out q) in *.
  destruct (enc_last q r n inp out ivec m m1) as [iv' Hrest]; [lia|done| | |exact Hout1|exact Hlast1|].
  { split; [done|mapped_tac|mapped_tac|mapped_tac|done|done]. }
  { eapply bytes_at_upd; [exact Hu1|]. unfold within. lia. }
  eapply runs_bind; [eapply runs_sub; [exact Hrest| |intros ? m2 Hu2 _ H2; exact (conj Hu2 H2)]|].
  { intros x Hw. left. unfold within in *. lia. }
  intros ? m2 _ Hm2 (Hu2 & -> & Hmv & Hout2 & Hlast2).
  eapply runs_bind; [by apply runs_load with (Q := fun b m' => b = bytes_at m2 iv' 16 /\ m' = m2)|]. intros ? ? _ _ [-> ->].
  eapply runs_sub; [apply runs_store with (A := within ivec 16); [done|by apply bytes_at_ok|rewrite length_bytes_at; mapped_tac|by rewrite length_bytes_at]|intros x Hw; by right|].
  rewrite length_bytes_at. intros ? m3 Hu3 _ [_ H3].
  assert (Hout3 : bytes_at m3 out (16 * n) = bytes_at m2 out (16 * n)).
  { eapply bytes_at_upd; [exact Hu3|]. intros y Hw. apply Hx. by right. }
  split; [by rewrite Hout3|]. rewrite <- Hout2, <- Hlast2. apply bytes_at_eq; [by rewrite length_bytes_at|exact H3].
Qed.
End Encrypt.

(** * Lemmas: decryption *)

Section Decrypt.
Context (f : bytes -> option bytes) (D : bytes -> bytes).
Hypothesis HD : block_ok f D.

Lemma direct_step {X} (k : M mem X) inp out iv m A Q : mem_bytes m -> mapped m inp 16 -> mapped m out 16 -> mapped m iv 16 ->
  apart iv 16 out 16 -> (forall x, within out 16 x -> A x) ->
  (forall m', upd (within out 16) m m' -> mem_bytes m' ->
    bytes_at m' out 16 = xor_bytes (D (bytes_at m inp 16)) (bytes_at m iv 16) -> runs k m' A Q) ->
  runs (block128_f f inp out;;; xor_u 8 out out iv;;; xor_u 8 (out + 8) (out + 8) (iv + 8);;; k) m A Q.
Proof.
  intros Hm Hi Ho Hv Hd HA Hk. eapply runs_bind; [apply (runs_block f D); done|]. intros _ m1 _ Hm1 [Hu1 H1].
  apply runs_xor16; [done|mapped_tac|mapped_tac|mapped_tac|unfold apart, within; lia| |done|].
  { intros x Hx Hy. apply (Hd x); unfold within in *; lia. }
  intros m2 Hu2 Hm2 H2. apply Hk; [by eapply upd_trans|done|]. rewrite H2, H1. f_equal.
  by eapply bytes_at_upd; [exact Hu1|].
Qed.

Definition chain_from (iv0 inp : Z) (q : nat) : Z := match q with O => iv0 | S _ => inp + 16 * Z.of_nat q - 16 end.

Lemma dec_direct_spec q : forall fuel inp out r iv m, mem_bytes m ->
  mapped m inp (16 * Z.of_nat q) -> mapped m out (16 * Z.of_nat q) -> mapped m iv 16 ->
  (out + 32 <= inp \/ inp + 16 * Z.of_nat q <= out) -> apart iv 16 out (Z.min 16 (16 * Z.of_nat q)) -> 0 <= r < 16 -> (q <= fuel)%nat ->
  runs (dec_direct f fuel inp out (16 * Z.of_nat q + r) iv) m (within out (16 * Z.of_nat q)) (fun p m' =>
    p = (inp + 16 * Z.of_nat q, out + 16 * Z.of_nat q, r, chain_from iv inp q) /\
    bytes_at m' out (16 * Z.of_nat q) = cbc_decrypt D q (bytes_at m iv 16) (bytes_at m inp (16 * Z.of_nat q)) /\
    bytes_at m' (chain_from iv inp q) 16 = last_block (bytes_at m iv 16) (bytes_at m inp (16 * Z.of_nat q))).
Proof.
  induction q as [|q IH]; intros fuel inp out r iv m Hm Hi Ho Hv Ha Hd Hr Hf.
  { change (16 * Z.of_nat 0) with 0. assert (E0 : dec_direct f fuel inp out (0 + r) iv = sret (inp, out, r, iv)).
    { destruct fuel; cbn [dec_direct]; case_if; try lia; do 3 f_equal. }
    rewrite E0. apply runs_ret; [done|]. rewrite !Z.add_0_r. split_and!; [done|done|].
    change (bytes_at m inp 0) with (@nil Z). by rewrite last_block_nil. }
  rewrite Nat2Z.inj_succ, <- Z.add_1_r in *. destruct fuel as [|fuel]; [lia|]. cbn [dec_direct]. case_if; [lia|].
  apply direct_step; [done|mapped_tac|mapped_tac|done| |unfold within; lia|].
  { intros x Hx Hy. apply (Hd x); unfold within in *; lia. }
  intros m1 Hu1 Hm1 H1. replace (16 * (Z.of_nat q + 1) + r - 16) with (16 * Z.of_nat q + r) by lia.
  eapply runs_sub; [apply (IH fuel (inp + 16) (out + 16) r inp m1); [done|mapped_tac|mapped_tac|mapped_tac|lia|unfold apart, within; lia|done|lia]|unfold within; lia|].
  intros p m' Hu' _ (-> & Hout & Hlast).
  assert (Hi1 : bytes_at m1 (inp + 16) (16 * Z.of_nat q) = bytes_at m (inp + 16) (16 * Z.of_nat q)).
  { eapply bytes_at_upd; [exact Hu1|]. unfold within. lia. }
  assert (Hi0 : bytes_at m1 inp 16 = bytes_at m inp 16 \/ out <= inp < out + 16).
  { destruct (decide (out + 16 <= inp \/ inp + 16 <= out)); [left; eapply bytes_at_upd; [exact Hu1|]; unfold within; lia|lia]. }
  assert (H1' : bytes_at m' out 16 = bytes_at m1 out 16) by (eapply bytes_at_upd; [exact Hu'|]; unfold within; lia).
  destruct Hi0 as [Hi0|]; [|lia].
  assert (Hc : chain_from iv inp (S q) = chain_from inp (inp + 16) q) by (unfold chain_from; destruct q; lia). rewrite Hc.
  replace (16 * (Z.of_nat q + 1)) with (16 + 16 * Z.of_nat q) by lia. split; [|split].
  - f_equal. f_equal. f_equal; lia.
  - rewrite !bytes_at_app by lia. rewrite Hout, Hi1, Hi0, H1', H1. cbn [cbc_decrypt].
    by rewrite ztake_app, zdrop_app by (rewrite length_bytes_at; lia).
  - rewrite Hlast, Hi1, Hi0, bytes_at_app, last_block_cons by (rewrite ?length_bytes_at; lia). done.
Qed.

(** The words of [tmp], when [in] is not written before it is read. *)
Lemma dec_word_spec n tmp inp out ivec m A : mem_bytes m -> bytes_ok tmp -> zlen tmp = n -> mapped m inp n -> mapped m out n -> mapped m ivec n ->
  apart inp n ivec n -> apart out n ivec n -> (forall x, within out n x \/ within ivec n x -> A x) ->
  runs (dec_word n tmp inp out ivec) m A (fun _ m' => upd (fun x => within out n x \/ within ivec n x) m m' /\
    forall i, 0 <= i < n -> byte m' (out + i) = Z.lxor (zget tmp i) (byte m (ivec + i)) /\ byte m' (ivec + i) = byte m (inp + i)).
Proof.
  intros Hm Ht Hn Hi Ho Hv Hd1 Hd2 HA. assert (H0 : 0 <= n) by lia. unfold dec_word.
  assert (Hle : forall p i, 0 <= i < n -> zget (le_bytes (Z.to_nat n) (le_val (bytes_at m p n))) i = byte m (p + i)).
  { intros p i Hi'. rewrite <- (length_bytes_at m p n), le_bytes_le_val by by apply bytes_at_ok. by apply zget_bytes_at. }
  eapply runs_bind; [by apply runs_load_u with (Q := fun v m' => v = le_val (bytes_at m inp n) /\ m' = m)|]. intros ? ? _ _ [-> ->].
  eapply runs_bind; [by apply runs_load_u with (Q := fun v m' => v = le_val (bytes_at m ivec n) /\ m' = m)|]. intros ? ? _ _ [-> ->].
  eapply runs_bind; [apply runs_store_u; [done|done|done|intros x Hx; apply HA; by left]|]. intros _ m1 _ Hm1 [Hu1 H1].
  eapply runs_sub; [apply runs_store_u with (A := A); [done|done|mapped_tac|intros x Hx; apply HA; by right]|done|].
  intros ? m2 _ _ [Hu2 H2]. split; [eapply upd_trans; eapply upd_sub; [|exact Hu1| |exact Hu2]; tauto|].
  intros i Hi'. split.
  - specialize (Hd2 (out + i)). rewrite (upd_byte _ _ _ _ Hu2) by (unfold within in *; lia). rewrite H1, zget_le_bytes_lxor, Hle by done. f_equal.
    replace (Z.to_nat n) with (length tmp) by lia. by rewrite le_bytes_le_val.
  - rewrite H2, Hle by done. done.
Qed.

Lemma dec_step {X} (k : M mem X) inp out ivec m A Q : mem_bytes m -> mapped m inp 16 -> mapped m out 16 -> mapped m ivec 16 ->
  (out <= inp \/ inp + 16 <= out) -> apart inp 16 ivec 16 -> apart out 16 ivec 16 -> 
  (forall x, within out 16 x \/ within ivec 16 x -> A x) ->
  (forall m', upd (fun x => within out 16 x \/ within ivec 16 x) m m' -> mem_bytes m' ->
    bytes_at m' out 16 = xor_bytes (D (bytes_at m inp 16)) (bytes_at m ivec 16) -> bytes_at m' ivec 16 = bytes_at m inp 16 -> runs k m' A Q) ->
  runs (let* tmp := block_tmp f inp in dec_word 8 (ztake 8 tmp) inp out ivec;;;
    dec_word 8 (zdrop 8 tmp) (inp + 8) (out + 8) (ivec + 8);;; k) m A Q.
Proof.
  intros Hm Hi Ho Hv Ha Hd1 Hd2 HA Hk. destruct (HD (bytes_at m inp 16)) as (E & HL & HB); [by rewrite length_bytes_at|by apply bytes_at_ok|].
  unfold apart in *. 
  eapply runs_bind with (Q := fun tmp m' => tmp = D (bytes_at m inp 16) /\ m' = m).
  { unfold block_tmp. eapply runs_bind; [by apply runs_load with (Q := fun l m' => l = bytes_at m inp 16 /\ m' = m)|].
    intros ? ? _ _ [-> ->]. by eapply runs_lift. }
  intros ? ? _ _ [-> ->]. set (t := D (bytes_at m inp 16)) in *.
  eapply runs_bind; [apply dec_word_spec; [done|by apply bytes_ok_ztake|rewrite length_ztake; lia|mapped_tac|mapped_tac|mapped_tac| | |]|].
  { intros x Hx Hy. apply (Hd1 x); unfold within in *; lia. }
  { intros x Hx Hy. apply (Hd2 x); unfold within in *; lia. }
  { intros x Hx. apply HA. unfold within in *. lia. }
  intros _ m1 _ Hm1 [Hu1 H1].
  eapply runs_bind; [apply dec_word_spec; [done|by apply bytes_ok_zdrop|rewrite length_zdrop; lia|mapped_tac|mapped_tac|mapped_tac| | |]|].
  { intros x Hx Hy. apply (Hd1 x); unfold within in *; lia. }
  { intros x Hx Hy. apply (Hd2 x); unfold within in *; lia. }
  { intros x Hx. apply HA. unfold within in *. lia. }
  intros _ m2 _ Hm2 [Hu2 H2].
  assert (Hd2' : forall x, within ivec 16 x -> ~ within out 16 x) by (intros x Hx Hy; by apply (Hd2 x)).
  apply Hk; [eapply upd_trans; eapply upd_sub; [|exact Hu1| |exact Hu2]; unfold within; lia|done|apply bytes_at_eq|apply bytes_at_eq].
  - rewrite length_xor_bytes, length_bytes_at. lia.
  - intros i Hi'. rewrite zget_xor_bytes, zget_bytes_at by (rewrite ?length_bytes_at; lia).
    specialize (Hd2' (ivec + i)). specialize (Hd2 (out + i)). destruct (Z.lt_ge_cases i 8) as [H8|H8].
    + rewrite (upd_byte _ _ _ _ Hu2) by (unfold within in *; lia). rewrite (proj1 (H1 i ltac:(lia))). by rewrite zget_ztake by lia.
    + destruct (H2 (i - 8) ltac:(lia)) as [H2' _]. rewrite zget_zdrop in H2' by lia.
      replace (out + 8 + (i - 8)) with (out + i) in H2' by lia. replace (ivec + 8 + (i - 8)) with (ivec + i) in H2' by lia.
      replace (8 + (i - 8)) with i in H2' by lia. rewrite H2'. f_equal. apply (upd_byte _ _ _ _ Hu1). unfold within in *. lia.
  - by rewrite length_bytes_at.
  - intros i Hi'. rewrite zget_bytes_at by lia. specialize (Hd2' (ivec + i)). specialize (Hd1 (inp + i)). destruct (Z.lt_ge_cases i 8) as [H8|H8].
    + rewrite (upd_byte _ _ _ _ Hu2) by (unfold within in *; lia). apply H1. lia.
    + destruct (H2 (i - 8) ltac:(lia)) as [_ H2']. replace (inp + 8 + (i - 8)) with (inp + i) in H2' by lia.
      replace (ivec + 8 + (i - 8)) with (ivec + i) in H2' by lia. rewrite H2'. apply (upd_byte _ _ _ _ Hu1). unfold within in *. lia.
Qed.

Lemma dec_tmp_spec q : forall fuel inp out r ivec m, mem_bytes m ->
  mapped m inp (16 * Z.of_nat q) -> mapped m out (16 * Z.of_nat q) -> mapped m ivec 16 ->
  (out <= inp \/ inp + 16 * Z.of_nat q <= out) -> apart inp (16 * Z.of_nat q) ivec 16 -> apart out (16 * Z.of_nat q) ivec 16 ->
  0 <= r < 16 -> (q <= fuel)%nat ->
  runs (dec_tmp f fuel inp out (16 * Z.of_nat q + r) ivec) m (fun x => within out (16 * Z.of_nat q) x \/ within ivec 16 x) (fun p m' =>
    p = (inp + 16 * Z.of_nat q, out + 16 * Z.of_nat q, r) /\
    bytes_at m' out (16 * Z.of_nat q) = cbc_decrypt D q (bytes_at m ivec 16) (bytes_at m inp (16 * Z.of_nat q)) /\
    bytes_at m' ivec 16 = last_block (bytes_at m ivec 16) (bytes_at m inp (16 * Z.of_nat q))).
Proof.
  induction q as [|q IH]; intros fuel inp out r ivec m Hm Hi Ho Hv Ha Hd1 Hd2 Hr Hf.
  { change (16 * Z.of_nat 0) with 0. assert (E0 : dec_tmp f fuel inp out (0 + r) ivec = sret (inp, out, r)).
    { destruct fuel; cbn [dec_tmp]; case_if; try lia; do 3 f_equal. }
    rewrite E0. apply runs_ret; [done|]. rewrite !Z.add_0_r. split_and!; [done|done|].
    change (bytes_at m inp 0) with (@nil Z). by rewrite last_block_nil. }
  rewrite Nat2Z.inj_succ, <- Z.add_1_r in *. destruct fuel as [|fuel]; [lia|]. cbn [dec_tmp]. case_if; [lia|].
  assert (Hd2' : apart ivec 16 out (16 * (Z.of_nat q + 1))) by (intros x Hx Hy; by apply (Hd2 x)).
  apply dec_step; [done|mapped_tac|mapped_tac|done|lia| | |unfold within; lia|].
  { intros x Hx Hy. apply (Hd1 x); unfold within in *; lia. }
  { intros x Hx Hy. apply (Hd2 x); unfold within in *; lia. }
  intros m1 Hu1 Hm1 H1 H1v. replace (16 * (Z.of_nat q + 1) + r - 16) with (16 * Z.of_nat q + r) by lia.
  eapply runs_sub; [apply (IH fuel (inp + 16) (out + 16) r ivec m1); [done|mapped_tac|mapped_tac|mapped_tac|lia| | |done|lia]|unfold within; lia|].
  { intros x Hx Hy. apply (Hd1 x); unfold within in *; lia. }
  { intros x Hx Hy. apply (Hd2 x); unfold within in *; lia. }
  intros p m' Hu' _ (-> & Hout & Hlast).
  assert (Hi1 : bytes_at m1 (inp + 16) (16 * Z.of_nat q) = bytes_at m (inp + 16) (16 * Z.of_nat q)).
  { eapply bytes_at_upd; [exact Hu1|]. intros x Hx. specialize (Hd1 x). unfold within in *. lia. }
  assert (H1' : bytes_at m' out 16 = bytes_at m1 out 16).
  { eapply bytes_at_upd; [exact Hu'|]. intros x Hx. specialize (Hd2 x). unfold within in *. lia. }
  replace (16 * (Z.of_nat q + 1)) with (16 + 16 * Z.of_nat q) by lia. split; [|split].
  - f_equal. f_equal; lia.
  - rewrite !bytes_at_app by lia. rewrite Hout, Hi1, H1', H1, H1v. cbn [cbc_decrypt].
    by rewrite ztake_app, zdrop_app by (rewrite length_bytes_at; lia).
  - rewrite Hlast, Hi1, H1v, bytes_at_app, last_block_cons by (rewrite ?length_bytes_at; lia). done.
Qed.

Lemma dec_bytes_spec fuel : forall tmp inp out len ivec n m, mem_bytes m -> bytes_ok tmp ->
  mapped m inp len -> mapped m out len -> mapped m ivec len -> (out <= inp \/ inp + len <= out) ->
  apart inp len ivec len -> apart out len ivec len -> 0 <= n <= len -> len - n <= Z.of_nat fuel ->
  runs (dec_bytes fuel tmp inp out len ivec n) m (fun x => within (out + n) (len - n) x \/ within (ivec + n) (len - n) x) (fun n' m' =>
    n' = len /\ forall i, n <= i < len -> byte m' (out + i) = Z.lxor (zget tmp i) (byte m (ivec + i)) /\ byte m' (ivec + i) = byte m (inp + i)).
Proof.
  induction fuel as [|fuel IH]; intros tmp inp out len ivec n m Hm Ht Hi Ho Hv Ha Hd1 Hd2 Hn Hf; cbn [dec_bytes].
  - apply runs_ret; [done|]. split; [lia|]. intros i Hi'. lia.
  - case_if; [|apply runs_ret; [done|]; split; [lia|]; intros i Hi'; lia].
    eapply runs_bind; [apply dec_word_spec; [done| |done|mapped_tac|mapped_tac|mapped_tac| | |unfold within; lia]|].
    { constructor; [by apply zget_byte|constructor]. }
    { intros x Hx Hy. apply (Hd1 x); unfold within in *; lia. }
    { intros x Hx Hy. apply (Hd2 x); unfold within in *; lia. }
    intros _ m1 _ Hm1 [Hu1 H1]. destruct (H1 0 ltac:(lia)) as [H1o H1v]. rewrite !Z.add_0_r in H1o, H1v.
    eapply runs_sub; [apply (IH tmp inp out len ivec (n + 1) m1); [done|done|by eapply upd_mapped..|done|done|done|lia|lia]|unfold within; lia|].
    assert (Hd2' : forall x, within ivec len x -> ~ within out len x) by (intros x Hx Hy; by apply (Hd2 x)).
    intros n' m' Hu' _ [-> H']. split; [done|]. intros i Hi'. specialize (Hd2 (out + i)). specialize (Hd2' (ivec + i)). specialize (Hd1 (inp + i)).
    destruct (Z.eq_dec i n) as [->|Hne].
    + split; rewrite (upd_byte _ _ _ _ Hu') by (unfold within in *; lia); done.
    + destruct (H' i ltac:(lia)) as [-> ->]. split; [f_equal|]; apply (upd_byte _ _ _ _ Hu1); unfold within in *; lia.
Qed.

Lemma dec_rest_spec fuel inp out len ivec m : mem_bytes m -> mapped m inp 16 -> mapped m out len -> mapped m ivec 16 ->
  (out <= inp \/ inp + 16 <= out) -> apart inp 16 ivec 16 -> apart out len ivec 16 -> 0 < len < 16 -> (0 < fuel)%nat ->
  runs (dec_rest f fuel inp out len ivec) m (fun x => within out len x \/ within ivec 16 x) (fun _ m' =>
    bytes_at m' out len = ztake len (xor_bytes (D (bytes_at m inp 16)) (bytes_at m ivec 16)) /\
    bytes_at m' ivec 16 = bytes_at m inp 16).
Proof.
  intros Hm Hi Ho Hv Ha Hd1 Hd2 Hl Hf. destruct fuel as [|fuel]; [lia|]. cbn [dec_rest]. replace (len =? 0) with false by lia.
  destruct (HD (bytes_at m inp 16)) as (E & HL & HB); [by rewrite length_bytes_at|by apply bytes_at_ok|].
  assert (Hd2' : forall x, within ivec 16 x -> ~ within out len x) by (intros x Hx Hy; by apply (Hd2 x)).
  eapply runs_bind with (Q := fun tmp m' => tmp = D (bytes_at m inp 16) /\ m' = m).
  { unfold block_tmp. eapply runs_bind; [by apply runs_load with (Q := fun l m' => l = bytes_at m inp 16 /\ m' = m)|].
    intros ? ? _ _ [-> ->]. by eapply runs_lift. }
  intros ? ? _ _ [-> ->]. set (t := D (bytes_at m inp 16)) in *.
  eapply runs_bind; [eapply runs_sub; [apply dec_bytes_spec; [done|done|mapped_tac|mapped_tac|mapped_tac|lia| | |lia|lia]|unfold within; lia|intros ? m1 Hu1 _ H1; exact (conj Hu1 H1)]|].
  { intros x Hx Hy. apply (Hd1 x); unfold within in *; lia. }
  { intros x Hx Hy. apply (Hd2 x); unfold within in *; lia. }
  intros n m1 _ Hm1 [Hu1 [-> H1]]. rewrite !Z.add_0_r, !Z.sub_0_r in Hu1. replace (len <=? 16) with true by lia.
  assert (Hk : Z.of_nat (Z.to_nat (16 - len)) = 16 - len) by lia.
  eapply runs_sub; [apply copy_loop_spec; [done|rewrite Hk; mapped_tac|rewrite Hk; mapped_tac|rewrite Hk]|rewrite Hk; unfold within; lia|].
  { intros x Hx Hy. apply (Hd1 x); unfold within in *; lia. }
  rewrite Hk. intros ? m2 Hu2 _ H2. split; apply bytes_at_eq.
  - rewrite length_ztake, length_xor_bytes, length_bytes_at. lia.
  - intros i Hi'. rewrite zget_ztake, zget_xor_bytes, zget_bytes_at by (rewrite ?length_bytes_at; lia).
    specialize (Hd2 (out + i)). rewrite (upd_byte _ _ _ _ Hu2) by (unfold within in *; lia). apply H1. lia.
  - by rewrite length_bytes_at.
  - intros i Hi'. rewrite zget_bytes_at by lia. destruct (Z.lt_ge_cases i len).
    + rewrite (upd_byte _ _ _ _ Hu2) by (unfold within; lia). apply H1. lia.
    + rewrite H2 by lia. specialize (Hd1 (inp + i)). apply (upd_byte _ _ _ _ Hu1). unfold within in *. lia.
Qed.

Lemma cbc_decrypt_app q n iv c c' : zlen c = 16 * Z.of_nat q -> length iv = 16%nat ->
  cbc_decrypt D (q + n) iv (c ++ c') = cbc_decrypt D q iv c ++ cbc_decrypt D n (last_block iv c) c'.
Proof.
  revert iv c. induction q as [|q IH]; intros iv c Hc Hv; cbn [Nat.add cbc_decrypt].
  - destruct c as [|x c]; [by rewrite last_block_nil|cbn in Hc; lia].
  - assert (H16 : ztake 16 (c ++ c') = ztake 16 c /\ zdrop 16 (c ++ c') = zdrop 16 c ++ c').
    { unfold ztake, zdrop. rewrite take_app_le, drop_app_le by lia. done. }
    destruct H16 as [-> ->]. assert (Hlen : length (ztake 16 c) = 16%nat) by (unfold ztake; rewrite length_take; lia).
    rewrite IH; [|unfold zdrop; rewrite length_drop; lia|exact Hlen]. rewrite <- app_assoc. do 2 f_equal. f_equal.
    rewrite <- (last_block_cons iv (ztake 16 c)) by lia. by rewrite ztake_zdrop.
Qed.

(** Whole blocks, in either loop. *)
Lemma dec_blocks_spec q inp out r ivec m : 0 <= r < 16 ->
  cbc_buffers inp (16 * Z.of_nat q) out (16 * Z.of_nat q) ivec m ->
  runs (if ((32 <=? inp) && (out <=? inp - 32)) || (inp <? out) then
      let* (inp, out, len, iv) := dec_direct f (Z.to_nat (16 * Z.of_nat q + r)) inp out (16 * Z.of_nat q + r) ivec in
      let* b := mem_load 16 iv in
      mem_store ivec b;;;
      sret (inp, out, len)
    else dec_tmp f (Z.to_nat (16 * Z.of_nat q + r)) inp out (16 * Z.of_nat q + r) ivec) m
    (fun x => within out (16 * Z.of_nat q) x \/ within ivec 16 x) (fun p m' =>
      p = (inp + 16 * Z.of_nat q, out + 16 * Z.of_nat q, r) /\
      bytes_at m' out (16 * Z.of_nat q) = cbc_decrypt D q (bytes_at m ivec 16) (bytes_at m inp (16 * Z.of_nat q)) /\
      bytes_at m' ivec 16 = last_block (bytes_at m ivec 16) (bytes_at m inp (16 * Z.of_nat q))).
Proof.
  intros Hr [Hm Hi Ho Hv Ha Hx]. case_if.
  - eapply runs_bind; [eapply runs_sub; [apply (dec_direct_spec q _ inp out r ivec m); [done|done|done|done|lia| |done|lia]|intros x Hw; by left|intros ? m1 Hu1 _ H1; exact (conj Hu1 H1)]|].
    { intros x H1 H2. apply (Hx x); [right; unfold within in *; lia|done]. }
    intros ? m1 _ Hm1 (Hu1 & -> & Hout & Hlast).
    assert (Hv1 : mapped m1 (chain_from ivec inp q) 16) by (unfold chain_from; destruct q; mapped_tac).
    eapply runs_bind; [by apply runs_load with (Q := fun b m' => b = bytes_at m1 (chain_from ivec inp q) 16 /\ m' = m1)|].
    intros ? ? _ _ [-> ->].
    eapply runs_bind; [apply runs_store; [done|by apply bytes_at_ok|rewrite length_bytes_at; mapped_tac|rewrite length_bytes_at; intros x Hw; by right]|].
    rewrite length_bytes_at. intros _ m2 _ Hm2 [Hu2 H2]. apply runs_ret; [done|]. split_and!; [done| |].
    + rewrite <- Hout. eapply bytes_at_upd; [exact Hu2|]. intros x Hw. apply Hx. by right.
    + rewrite <- Hlast. apply bytes_at_eq; [by rewrite length_bytes_at|exact H2].
  - apply dec_tmp_spec; [done|done|done|done|lia| | |done|lia]; intros x H1 H2; by apply (Hx x); [|exact H2]; auto.
Qed.

(** What a call does, for [len] bytes in [blocks_of len] blocks. *)
Lemma cbc_decrypt_post inp out len ivec m :
  0 <= len -> 0 <= inp < 2 ^ 64 -> out < 2 ^ 64 -> cbc_buffers inp (16 * blocks_of len) out len ivec m ->
  let n := blocks_of len in
  let c := bytes_at m inp (16 * n) in
  runs (CRYPTO_cbc128_decrypt f inp out len ivec) m (fun x => within out len x \/ within ivec 16 x) (fun _ m' =>
    bytes_at m' out len = ztake len (cbc_decrypt D (Z.to_nat n) (bytes_at m ivec 16) c) /\
    bytes_at m' ivec 16 = last_block (bytes_at m ivec 16) c).
Proof.
  intros Hl Hi64 Ho64 [Hm Hi Ho Hv Ha Hx]. cbv zeta. set (q := Z.to_nat (len / 16)). set (r := len mod 16).
  pose proof (Z.div_mod len 16 ltac:(lia)) as Hdm. pose proof (Z.mod_pos_bound len 16 ltac:(lia)) as Hr. fold r in Hdm, Hr.
  assert (Hq : Z.of_nat q = len / 16) by (unfold q; rewrite Z2Nat.id by (apply Z.div_pos; lia); done).
  assert (Hn : (r = 0 /\ blocks_of len = Z.of_nat q) \/ (0 < r /\ blocks_of len = Z.of_nat q + 1)).
  { unfold blocks_of. Z.to_euclidean_division_equations; lia. }
  replace len with (16 * Z.of_nat q + r) in * by lia. clear Hdm. clearbody q r. clear Hq.
  set (n := blocks_of (16 * Z.of_nat q + r)) in *. unfold CRYPTO_cbc128_decrypt.
  replace ((out <=? inp) || (u64 (inp + (16 * Z.of_nat q + r)) <=? out)) with true.
  2: { destruct Ha as [Ha|Ha]; [lia|]. rewrite u64_small by (unfold is_u; lia). lia. }
  cbn [negb]. eapply runs_bind; [eapply runs_sub; [apply (dec_blocks_spec q inp out r ivec m); [done|]| |intros ? m1 Hu1 _ H1; exact (conj Hu1 H1)]|].
  { split; [done|mapped_tac|mapped_tac|done|lia|]. intros x H1. apply Hx. unfold within in *. lia. }
  { unfold within. lia. }
  intros ? m1 _ Hm1 (Hu1 & -> & Hout & Hlast). destruct Hn as [[-> Hn] | [Hr0 Hn]]; rewrite Hn.
  - cbn [dec_rest Z.to_nat]. change (0 =? 0) with true. cbv iota. apply runs_ret; [done|]. rewrite Nat2Z.id, Z.add_0_r.
    split; [|done]. rewrite <- Hout. rewrite ztake_all; [done|]. rewrite length_bytes_at. lia.
  - assert (Hi1 : bytes_at m1 (inp + 16 * Z.of_nat q) 16 = bytes_at m (inp + 16 * Z.of_nat q) 16).
    { eapply bytes_at_upd; [exact Hu1|]. intros x Hw. specialize (Hx x). unfold within in *. lia. }
    eapply runs_sub; [apply dec_rest_spec; [done|mapped_tac|mapped_tac|mapped_tac|lia| | |lia|lia]|unfold within; lia|].
    { intros x Hw Hy. apply (Hx x); [unfold within in *; lia|done]. }
    { intros x Hw Hy. apply (Hx x); [unfold within in *; lia|done]. }
    intros ? m2 Hu2 _ [H2o H2v]. replace (16 * (Z.of_nat q + 1)) with (16 * Z.of_nat q + 16) by lia.
    assert (Hout2 : bytes_at m2 out (16 * Z.of_nat q) = bytes_at m1 out (16 * Z.of_nat q)).
    { eapply bytes_at_upd; [exact Hu2|]. intros y Hw. specialize (Hx y). unfold within in *. lia. }
    rewrite !bytes_at_app by lia. rewrite H2o, Hout2, Hi1, Hlast in *. split.
    + replace (Z.to_nat (Z.of_nat q + 1)) with (q + 1)%nat by lia. rewrite cbc_decrypt_app, <- Hout by (rewrite ?length_bytes_at; lia).
      cbn [cbc_decrypt]. rewrite app_nil_r, ztake_all with (n := 16) by (rewrite length_bytes_at; lia).
      unfold ztake. replace (Z.to_nat (16 * Z.of_nat q + r)) with (length (bytes_at m1 out (16 * Z.of_nat q)) + Z.to_nat r)%nat
        by (rewrite length_bytes_at; lia). by rewrite take_app_add.
    + rewrite last_block_snoc by by rewrite !length_bytes_at. by rewrite H2v.
Qed.
End Decrypt.

(** * Properties *)

(** Decryption of the mode inverts it. *)
Lemma cbc_decrypt_encrypt (E D : bytes -> bytes) f n iv p : block_ok f E ->
  (forall b, length b = 16%nat -> bytes_ok b -> D (E b) = b) ->
  zlen p = 16 * Z.of_nat n -> length iv = 16%nat -> bytes_ok p -> bytes_ok iv ->
  cbc_decrypt D n iv (cbc_encrypt E n iv p) = p.
Proof.
  intros HE HD. revert iv p. induction n as [|n IH]; intros iv p Hp Hv Hbp Hbv; cbn [cbc_encrypt cbc_decrypt]; [by destruct p|].
  assert (Hlx : length (xor_bytes (ztake 16 p) iv) = 16%nat) by (rewrite length_xor_bytes; unfold ztake; rewrite length_take; lia).
  assert (Hbx : bytes_ok (xor_bytes (ztake 16 p) iv)) by (apply xor_bytes_ok; [by apply bytes_ok_ztake|done]).
  destruct (HE _ Hlx Hbx) as (_ & HL & HB). rewrite ztake_app, zdrop_app by lia. rewrite HD by done.
  rewrite xor_bytes_cancel by (unfold ztake; rewrite length_take; lia).
  rewrite IH; [apply ztake_zdrop|unfold zdrop; rewrite length_drop; lia|done|by apply bytes_ok_zdrop|done].
Qed.

(** [CRYPTO_cbc128_encrypt] computes the CBC mode of NIST SP 800-38A on the input
    padded with zeros, chaining through the buffer it writes, and leaves the last block
    in [ivec]; [out] may be [in], start before it, or be apart. *)
Theorem CRYPTO_cbc128_encrypt_spec f E inp out len ivec m :
  block_ok f E -> 0 <= len -> cbc_buffers inp len out (16 * blocks_of len) ivec m ->
  let n := blocks_of len in
  let c := cbc_encrypt E (Z.to_nat n) (bytes_at m ivec 16) (bytes_at m inp len ++ zrepeat (16 * n - len) 0) in
  exists m', CRYPTO_cbc128_encrypt f inp out len ivec m = Some (tt, m') /\
    bytes_at m' out (16 * n) = c /\ bytes_at m' ivec 16 = last_block (bytes_at m ivec 16) c /\
    upd (fun x => within out (16 * n) x \/ within ivec 16 x) m m'.
Proof.
  intros HE Hl B. cbv zeta. destruct (cbc_encrypt_post f E HE inp out len ivec m Hl B) as ([] & m' & Em & Hu & _ & H1 & H2).
  by exists m'.
Qed.

(** C12. [CRYPTO_cbc128_decrypt] computes the inverse mode wherever its assert allows the
    buffers to be: in place, at any distance below [in], where it must keep the block of
    ciphertext that it overwrites, and apart. The last block of ciphertext is read
    whole, and is left in [ivec]. *)
Theorem CRYPTO_cbc128_decrypt_spec f D inp out len ivec m :
  block_ok f D -> 0 <= len -> 0 <= inp < 2 ^ 64 -> out < 2 ^ 64 -> cbc_buffers inp (16 * blocks_of len) out len ivec m ->
  let n := blocks_of len in
  let c := bytes_at m inp (16 * n) in
  exists m', CRYPTO_cbc128_decrypt f inp out len ivec m = Some (tt, m') /\
    bytes_at m' out len = ztake len (cbc_decrypt D (Z.to_nat n) (bytes_at m ivec 16) c) /\
    bytes_at m' ivec 16 = last_block (bytes_at m ivec 16) c /\
    upd (fun x => within out len x \/ within ivec 16 x) m m'.
Proof.
  intros HD Hl Hi Ho B. cbv zeta. destruct (cbc_decrypt_post f D HD inp out len ivec m Hl Hi Ho B) as ([] & m' & Em & Hu & _ & H1 & H2).
  by exists m'.
Qed.

(** Round trip: what [CRYPTO_cbc128_encrypt] writes, [CRYPTO_cbc128_decrypt] turns
    back into the input with the same initial vector, for any length, in place or not,
    when the second block function inverts the first. *)
Lemma cbc128_roundtrip f E g D inp out out' len ivec ivec' m :
  block_ok f E -> block_ok g D -> (forall b, length b = 16%nat -> bytes_ok b -> D (E b) = b) ->
  0 <= len -> 0 <= out < 2 ^ 64 -> out' < 2 ^ 64 ->
  cbc_buffers inp len out (16 * blocks_of len) ivec m -> cbc_buffers out (16 * blocks_of len) out' len ivec' m ->
  apart ivec' 16 ivec 16 -> bytes_at m ivec' 16 = bytes_at m ivec 16 ->
  exists m1 m2, CRYPTO_cbc128_encrypt f inp out len ivec m = Some (tt, m1) /\
    CRYPTO_cbc128_decrypt g out out' len ivec' m1 = Some (tt, m2) /\ bytes_at m2 out' len = bytes_at m inp len.
Proof.
  intros HE HD Hinv Hl Hio Ho B1 B2 Hap Hiv. pose proof B1 as [Hm Hi _ _ _ _]. pose proof B2 as [_ Hi2 Ho2 Hv2 Ha2 Hx2].
  destruct (cbc_encrypt_post f E HE inp out len ivec m Hl B1) as ([] & m1 & E1 & Hu1 & Hm1 & Hc & _).
  assert (B2' : cbc_buffers out (16 * blocks_of len) out' len ivec' m1) by (split; [done|mapped_tac|mapped_tac|mapped_tac|done|done]).
  destruct (cbc_decrypt_post g D HD out out' len ivec' m1 Hl Hio Ho B2') as ([] & m2 & E2 & _ & _ & Hp & _).
  exists m1, m2. split_and!; [done|done|]. rewrite Hp, Hc.
  assert (Hv1 : bytes_at m1 ivec' 16 = bytes_at m ivec 16).
  { rewrite <- Hiv. eapply bytes_at_upd; [exact Hu1|]. intros x Hx [Hy|Hy]; [by apply (Hx2 x); [left|]|by apply (Hap x)]. }
  assert (Hn : 0 <= 16 * blocks_of len - len) by (unfold blocks_of; Z.to_euclidean_division_equations; lia).
  rewrite Hv1, (cbc_decrypt_encrypt E D f).
  - rewrite ztake_app by (rewrite length_bytes_at; lia). done.
  - done.
  - done.
  - unfold zrepeat. rewrite length_app, length_replicate, length_bytes_at. lia.
  - apply length_bytes_at.
  - apply bytes_ok_app. split; [by apply bytes_at_ok|by apply bytes_ok_zrepeat].
  - by apply bytes_at_ok.
Qed.
