(* ===== verification/AesModes.v ===== *)
(** * AES in the modes

    Models src/bubble/Pods/BoringSSL/crypto/aes/mode_wrappers.c: the modes of Ctr.v and
    Cbc.v with the block functions of Aes.v and the keys that its key functions make. *)

From Stdlib Require Import ZArith Lia.
From stdpp Require Import base option list gmap.
From S2P Require Import Prelude ByteMem AesSpec Aes Modes Ctr Cbc.

Definition AES_ctr128_encrypt (inp out len : Z) (key : AES_KEY) (ivec ecount_buf num : Z) : M mem Z :=
  CRYPTO_ctr128_encrypt (fun b => AES_encrypt b key) inp out len ivec ecount_buf num.

Definition AES_ENCRYPT : Z := 1.
Definition AES_DECRYPT : Z := 0.

Definition AES_ecb_encrypt (inp out : Z) (key : AES_KEY) (enc : Z) : M mem unit :=
  if negb ((AES_ENCRYPT =? enc) || (AES_DECRYPT =? enc)) then sstuck (* assert *)
  else if AES_ENCRYPT =? enc then block128_f (fun b => AES_encrypt b key) inp out
  else block128_f (fun b => AES_decrypt b key) inp out.

Definition AES_cbc_encrypt (inp out len : Z) (key : AES_KEY) (ivec enc : Z) : M mem unit :=
  if negb (enc =? 0) then CRYPTO_cbc128_encrypt (fun b => AES_encrypt b key) inp out len ivec
  else CRYPTO_cbc128_decrypt (fun b => AES_decrypt b key) inp out len ivec.

(** * Lemmas: AES is a block function *)

(** The key that a successful call of a key function leaves. *)
Definition enc_key (Nk : Z) (key : bytes) (ks : AES_KEY) : Prop :=
  key_size Nk /\ bytes_ok key /\ zlen key = 4 * Nk /\
  exists k, zlen (rd_key k) = 60 /\ AES_set_encrypt_key (Some key) (32 * Nk) (Some k) = Some (0, Some ks).
Definition dec_key (Nk : Z) (key : bytes) (ks : AES_KEY) : Prop :=
  key_size Nk /\ bytes_ok key /\ zlen key = 4 * Nk /\
  exists k, zlen (rd_key k) = 60 /\ AES_set_decrypt_key (Some key) (32 * Nk) (Some k) = Some (0, Some ks).

Definition aes_cipher (Nk : Z) (key : bytes) : bytes -> bytes := Cipher (Nk + 6) (KeyExpansion Nk key).
Definition aes_inv_cipher (Nk : Z) (key : bytes) : bytes -> bytes := InvCipher (Nk + 6) (KeyExpansion Nk key).

Lemma enc_key_block Nk key ks : enc_key Nk key ks -> block_ok (fun b => AES_encrypt b ks) (aes_cipher Nk key).
Proof.
  intros (HNk & Hb & Hl & k & H60 & Eks) b Hlb Hbb. destruct (set_encrypt_key_spec Nk key k HNk Hb Hl H60) as (rk & E & _ & S).
  rewrite E in Eks. injection Eks as <-. destruct (key_size_rounds Nk HNk).
  assert (Hs : state_ok b) by by split. split; [apply AES_encrypt_schedule; [done|done|lia|done]|].
  apply Cipher_ok; [by eapply schedule_keys_ok|lia|done].
Qed.

Lemma InvCipher_ok Nr w s : keys_ok Nr w -> 0 <= Nr -> state_ok s -> state_ok (InvCipher Nr w s).
Proof.
  intros Hw HN Hs. unfold InvCipher. apply xor_state_ok; [|apply Hw; lia]. apply inv_sub_shift_ok.
  assert (Hl : Forall (fun i => 0 <= i <= Nr) (rev (seqZ 1 (Nr - 1)))).
  { apply Forall_rev, Forall_forall. intros i Hi%elem_of_seqZ. lia. }
  assert (H0 : state_ok (xor_bytes s (round_key w Nr))) by (apply xor_state_ok; [done|apply Hw; lia]).
  revert H0. generalize (xor_bytes s (round_key w Nr)). induction Hl as [|i l Hi _ IH]; intros s0 H0; [done|].
  apply IH. unfold dec_round. apply InvMixColumns_ok, xor_state_ok; [by apply inv_sub_shift_ok|by apply Hw].
Qed.

Lemma dec_key_block Nk key ks : dec_key Nk key ks -> block_ok (fun b => AES_decrypt b ks) (aes_inv_cipher Nk key).
Proof.
  intros (HNk & Hb & Hl & k & H60 & Eks) b Hlb Hbb. destruct (set_decrypt_key_spec Nk key k HNk Hb Hl H60) as (rk & E & S & Hw).
  rewrite E in Eks. injection Eks as <-. destruct (key_size_rounds Nk HNk).
  assert (Hs : state_ok b) by by split. split; [apply AES_decrypt_schedule; [done|done|done|lia|done]|].
  apply InvCipher_ok; [done|lia|done].
Qed.

Lemma aes_inverse Nk key b : key_size Nk -> bytes_ok key -> zlen key = 4 * Nk -> length b = 16%nat -> bytes_ok b ->
  aes_inv_cipher Nk key (aes_cipher Nk key b) = b.
Proof.
  intros HNk Hb Hl Hlb Hbb. set (k := mk_aes_key (replicate 60 0) 0). assert (H60 : zlen (rd_key k) = 60) by done.
  destruct (set_encrypt_key_spec Nk key k HNk Hb Hl H60) as (rk & _ & _ & S). destruct (key_size_rounds Nk HNk).
  apply InvCipher_Cipher; [by eapply schedule_keys_ok|lia|by split].
Qed.

(** * Witnesses of the modes: AES with a key of 128 bits *)

Definition sample_key : bytes := seqZ 0 16.

(** The structure that a key function leaves, in one evaluation. *)
Definition made (r : option (Z * option AES_KEY)) : AES_KEY :=
  match r with Some (_, Some k) => k | _ => mk_aes_key [] 0 end.
Definition sample_ek : AES_KEY := Eval vm_compute in made (AES_set_encrypt_key (Some sample_key) 128 (Some (mk_aes_key (replicate 60 7) 0))).
Definition sample_dk : AES_KEY := Eval vm_compute in made (AES_set_decrypt_key (Some sample_key) 128 (Some (mk_aes_key (replicate 60 7) 0))).

Lemma seqZ_bytes n : n <= 256 -> bytes_ok (seqZ 0 n).
Proof. intros Hn. apply Forall_forall. intros i Hi%elem_of_seqZ. unfold is_u. lia. Qed.

Lemma sample_enc_key : enc_key 4 sample_key sample_ek.
Proof.
  split; [by left|]. split; [apply seqZ_bytes; lia|]. split; [reflexivity|]. exists (mk_aes_key (replicate 60 7) 0).
  split; [reflexivity|]. vm_compute. reflexivity.
Qed.

Lemma sample_dec_key : dec_key 4 sample_key sample_dk.
Proof.
  split; [by left|]. split; [apply seqZ_bytes; lia|]. split; [reflexivity|]. exists (mk_aes_key (replicate 60 7) 0).
  split; [reflexivity|]. vm_compute. reflexivity.
Qed.

(** A memory of 200 bytes; the buffers of the modes are parts of it. *)
Definition sample_mem : mem := region 0 (seqZ 0 200).

Lemma sample_mapped a n : 0 <= a -> a + n <= 200 -> mapped sample_mem a n.
Proof.
  intros Ha Hn. eapply mapped_sub; [apply (region_mapped 0 (seqZ 0 200) 200)|lia|lia]. rewrite length_seqZ. lia.
Qed.

Lemma sample_bytes : mem_bytes sample_mem.
Proof. apply region_bytes, seqZ_bytes. lia. Qed.

(** In place, 43 bytes at 10, with the context at 100 and 116. *)
Lemma sample_ctr_buffers : ctr_buffers 10 10 43 100 116 sample_mem.
Proof. split; try (apply sample_mapped; lia); try apply sample_bytes; unfold within; lia. Qed.

Lemma sample_ctr_state block : ctr_state block (be_val (bytes_at sample_mem 100 16)) 0 0 100 116 sample_mem.
Proof. split; [done|]. split; [vm_compute; reflexivity|]. intros H. by destruct H. Qed.

Lemma CRYPTO_ctr128_encrypt_spec_witness :
  let c := be_val (bytes_at sample_mem 100 16) in
  exists num' m', CRYPTO_ctr128_encrypt (fun b => AES_encrypt b sample_ek) 10 10 43 100 116 0 sample_mem = Some (num', m') /\
    xored (aes_cipher 4 sample_key) c 0 10 10 43 sample_mem m' /\ ctr_state (aes_cipher 4 sample_key) c 43 num' 100 116 m' /\
    upd (footprint 100 116 10 43) sample_mem m'.
Proof.
  apply (CRYPTO_ctr128_encrypt_spec _ _ _ 0); [apply enc_key_block, sample_enc_key|apply sample_ctr_buffers|apply sample_ctr_state].
Defined.

(** A function on many blocks with a 32-bit counter. *)
Definition ctr32_reference (block : bytes -> bytes) (inp out blocks ivec : Z) : M mem unit :=
  let* iv := mem_load 16 ivec in
  let* p := mem_load (16 * blocks) inp in
  mem_store out (map (fun i => Z.lxor (zget p i)
    (zget (block (ztake 12 iv ++ be_bytes 4 (be_val (zdrop 12 iv) + i / 16))) (i mod 16))) (seqZ 0 (16 * blocks))).

Lemma ctr32_reference_ok f block : block_ok f block -> ctr128_f_ok block (ctr32_reference block).
Proof.
  intros Hf inp out blocks ivec m Hm Hb Hi Ho Hv _ _. unfold ctr32_reference.
  eapply runs_bind; [by apply runs_load with (Q := fun l m' => l = bytes_at m ivec 16 /\ m' = m)|]. intros ? ? _ _ [-> ->].
  eapply runs_bind; [by apply runs_load with (Q := fun l m' => l = bytes_at m inp (16 * blocks) /\ m' = m)|]. intros ? ? _ _ [-> ->].
  rewrite bytes_at_ztake, bytes_at_zdrop by lia. change (16 - 12) with 4. set (l := map _ _).
  assert (Hl : zlen l = 16 * blocks) by (unfold l; rewrite length_map, length_seqZ; lia).
  eapply runs_sub; [apply runs_store with (A := within out (16 * blocks)); [done| |by rewrite Hl|by rewrite Hl]|done|].
  - apply Forall_map, Forall_forall. intros i _. apply (lxor_is_u 8); [lia|by apply zget_byte, bytes_at_ok|].
    apply zget_byte. apply Hf; [rewrite length_app, length_bytes_at, length_be_bytes; done|].
    apply bytes_ok_app. split; [by apply bytes_at_ok|apply be_bytes_ok].
  - rewrite Hl. intros ? m' _ _ [_ H] i Hi'. rewrite H by done. unfold l. unfold zget at 1.
    erewrite nth_lookup_Some; [|apply list_lookup_fmap_Some; exists i; split; [reflexivity|apply lookup_seqZ; lia]].
    by rewrite zget_bytes_at.
Qed.

Lemma CRYPTO_ctr128_encrypt_ctr32_equiv_witness :
  let c := be_val (bytes_at sample_mem 100 16) in let block := aes_cipher 4 sample_key in
  exists num' m1 m2, CRYPTO_ctr128_encrypt (fun b => AES_encrypt b sample_ek) 10 10 43 100 116 0 sample_mem = Some (num', m1) /\
    CRYPTO_ctr128_encrypt_ctr32 (ctr32_reference block) 10 10 43 100 116 0 sample_mem = Some (num', m2) /\
    (forall x, ~ within 116 16 x -> m1 !! x = m2 !! x) /\
    ctr_state block c 43 num' 100 116 m1 /\ ctr_state block c 43 num' 100 116 m2.
Proof.
  apply (CRYPTO_ctr128_encrypt_ctr32_equiv _ _ _ _ 0); [apply enc_key_block, sample_enc_key| |apply sample_ctr_buffers|apply sample_ctr_state].
  eapply ctr32_reference_ok, enc_key_block, sample_enc_key.
Defined.

(** 23 bytes at 10 in two blocks, in place. *)
Lemma sample_cbc_enc : cbc_buffers 10 23 10 (16 * blocks_of 23) 100 sample_mem.
Proof. split; try (apply sample_mapped; vm_compute; discriminate); try apply sample_bytes; unfold within; vm_compute blocks_of; lia. Qed.

Lemma sample_cbc_dec ivec : ivec = 100 \/ ivec = 120 -> cbc_buffers 10 (16 * blocks_of 23) 10 23 ivec sample_mem.
Proof.
  intros Hv. change (16 * blocks_of 23) with 32. split; try (apply sample_mapped; lia); try apply sample_bytes; unfold within; lia.
Qed.

Lemma CRYPTO_cbc128_encrypt_spec_witness :
  let E := aes_cipher 4 sample_key in
  let c := cbc_encrypt E 2 (bytes_at sample_mem 100 16) (bytes_at sample_mem 10 23 ++ zrepeat 9 0) in
  exists m', CRYPTO_cbc128_encrypt (fun b => AES_encrypt b sample_ek) 10 10 23 100 sample_mem = Some (tt, m') /\
    bytes_at m' 10 32 = c /\ bytes_at m' 100 16 = last_block (bytes_at sample_mem 100 16) c /\
    upd (fun x => within 10 32 x \/ within 100 16 x) sample_mem m'.
Proof.
  apply (CRYPTO_cbc128_encrypt_spec _ (aes_cipher 4 sample_key)); [apply enc_key_block, sample_enc_key|lia|apply sample_cbc_enc].
Defined.

Lemma CRYPTO_cbc128_decrypt_spec_witness :
  let c := bytes_at sample_mem 10 32 in
  exists m', CRYPTO_cbc128_decrypt (fun b => AES_decrypt b sample_dk) 10 10 23 100 sample_mem = Some (tt, m') /\
    bytes_at m' 10 23 = ztake 23 (cbc_decrypt (aes_inv_cipher 4 sample_key) 2 (bytes_at sample_mem 100 16) c) /\
    bytes_at m' 100 16 = last_block (bytes_at sample_mem 100 16) c /\
    upd (fun x => within 10 23 x \/ within 100 16 x) sample_mem m'.
Proof.
  apply (CRYPTO_cbc128_decrypt_spec _ (aes_inv_cipher 4 sample_key)); [apply dec_key_block, sample_dec_key|lia|lia|lia|apply sample_cbc_dec; by left].
Defined.

(** * Properties *)

(** C13. Round trip of the whole: the keys that the two key functions make from one key
    of any of the three sizes, AES, the mode and the memory. What [AES_cbc_encrypt]
    wrote, it decrypts to the input, for any length; the text may be encrypted in place
    and decrypted in place, or to any place that the asserts allow. *)
Theorem AES_cbc_roundtrip Nk key ek dk inp out out' len ivec ivec' m :
  enc_key Nk key ek -> dec_key Nk key dk ->
  0 <= len -> 0 <= out < 2 ^ 64 -> out' < 2 ^ 64 ->
  cbc_buffers inp len out (16 * blocks_of len) ivec m -> cbc_buffers out (16 * blocks_of len) out' len ivec' m ->
  apart ivec' 16 ivec 16 -> bytes_at m ivec' 16 = bytes_at m ivec 16 ->
  exists m1 m2, AES_cbc_encrypt inp out len ek ivec AES_ENCRYPT m = Some (tt, m1) /\
    AES_cbc_encrypt out out' len dk ivec' AES_DECRYPT m1 = Some (tt, m2) /\ bytes_at m2 out' len = bytes_at m inp len.
Proof.
  intros He Hd. pose proof Hd as (HNk & Hb & Hl & _). unfold AES_cbc_encrypt. cbn [AES_ENCRYPT AES_DECRYPT Z.eqb negb].
  apply (cbc128_roundtrip _ (aes_cipher Nk key) _ (aes_inv_cipher Nk key)); [by apply enc_key_block|by apply dec_key_block|].
  intros b Hlb Hbb. by apply aes_inverse.
Qed.

(** The memory with the initial vector at 100 and again at 120. *)
Definition sample_mem2 : mem := region 0 (seqZ 0 120 ++ seqZ 100 16 ++ seqZ 0 10).

Lemma AES_cbc_roundtrip_witness :
  exists m1 m2, AES_cbc_encrypt 10 10 23 sample_ek 100 AES_ENCRYPT sample_mem2 = Some (tt, m1) /\
    AES_cbc_encrypt 10 7 23 sample_dk 120 AES_DECRYPT m1 = Some (tt, m2) /\ bytes_at m2 7 23 = bytes_at sample_mem2 10 23.
Proof.
  assert (Hm : forall a n, 0 <= a -> a + n <= 146 -> mapped sample_mem2 a n).
  { intros a n Ha Hn. eapply mapped_sub; [apply (region_mapped 0 (seqZ 0 120 ++ seqZ 100 16 ++ seqZ 0 10) 146); vm_compute; discriminate|lia|lia]. }
  assert (Hb : mem_bytes sample_mem2).
  { apply region_bytes. rewrite !bytes_ok_app. split_and!; [apply seqZ_bytes; lia| |apply seqZ_bytes; lia].
    apply Forall_forall. intros i Hi. apply elem_of_seqZ in Hi. unfold is_u. lia. }
  apply (AES_cbc_roundtrip 4 sample_key sample_ek sample_dk 10 10 7 23 100 120 sample_mem2);
    [apply sample_enc_key|apply sample_dec_key|lia|lia|lia| | |unfold apart, within; lia|vm_compute; reflexivity];
    change (16 * blocks_of 23) with 32; split; try (apply Hm; lia); try apply Hb; unfold within; lia.
Defined.

(** The electronic codebook: one block, either way. *)
Lemma AES_ecb_encrypt_spec Nk key ek dk inp out m : enc_key Nk key ek -> dec_key Nk key dk ->
  mem_bytes m -> mapped m inp 16 -> mapped m out 16 ->
  (exists m', AES_ecb_encrypt inp out ek AES_ENCRYPT m = Some (tt, m') /\ bytes_at m' out 16 = aes_cipher Nk key (bytes_at m inp 16)) /\
  (exists m', AES_ecb_encrypt inp out dk AES_DECRYPT m = Some (tt, m') /\ bytes_at m' out 16 = aes_inv_cipher Nk key (bytes_at m inp 16)).
Proof.
  intros He Hd Hm Hi Ho. split.
  - destruct (runs_block _ _ inp out m (within out 16) (enc_key_block _ _ _ He) Hm Hi Ho) as ([] & m' & E & _ & _ & _ & H); [done|by exists m'].
  - destruct (runs_block _ _ inp out m (within out 16) (dec_key_block _ _ _ Hd) Hm Hi Ho) as ([] & m' & E & _ & _ & _ & H); [done|by exists m'].
Qed.
