(* ===== verification/KeyWrap.v ===== *)
(** * AES key wrap

    Models src/bubble/Pods/BoringSSL/crypto/aes/key_wrap.c over the block functions of
    Aes.v. The buffer [out] is the list of its bytes, since [in] is copied into it before
    anything else is done. The theorems say that wrapping is the function of RFC 3394,
    and that unwrapping inverts it or fails. *)

From Stdlib Require Import ZArith Lia.
From stdpp Require Import base option list.
From S2P Require Import Prelude Mem AesSpec Aes Modes AesModes.

(** * The program *)

Definition INT_MAX : Z := 0x7fffffff.
Definition kDefaultIV : bytes := zrepeat 8 0xa6.
Definition kBound : Z := 6.

(** [A[7] ^= t & 0xff], and so on to [A[4]]. *)
Definition xor_t (A : bytes) (t : Z) : bytes :=
  let A := <[7%nat := Z.lxor (zget A 7) (Z.land t 0xff)]> A in
  let A := <[6%nat := Z.lxor (zget A 6) (Z.land (Z.shiftr t 8) 0xff)]> A in
  let A := <[5%nat := Z.lxor (zget A 5) (Z.land (Z.shiftr t 16) 0xff)]> A in
  <[4%nat := Z.lxor (zget A 4) (Z.land (Z.shiftr t 24) 0xff)]> A.

(** [for (size_t i = 1; i <= n; i++)], for [A] and [out]. *)
Fixpoint wrap_inner (fuel : nat) (key : AES_KEY) (n j i : Z) (A out : bytes) : option (bytes * bytes) :=
  if negb (i <=? n) then Some (A, out)
  else
    match fuel with
    | O => None
    | S fuel =>
        let A := zsplice A 8 (ztake 8 (zdrop (8 * i) out)) in
        A ← AES_encrypt A key;
        let t := u32 (n * j + i) in
        let A := xor_t A t in
        let out := zsplice out (8 * i) (zdrop 8 A) in
        wrap_inner fuel key n j (i + 1) A out
    end.

(** [for (unsigned j = 0; j < kBound; j++)] *)
Fixpoint wrap_outer (fuel : nat) (key : AES_KEY) (n j : Z) (A out : bytes) : option (bytes * bytes) :=
  if negb (j <? kBound) then Some (A, out)
  else
    match fuel with
    | O => None
    | S fuel =>
        '(A, out) ← wrap_inner (Z.to_nat n) key n j 1 A out;
        wrap_outer fuel key n (u32 (j + 1)) A out
    end.

(** The result and the contents of [out], of which the first [in_len + 8] bytes are
    written; [A] is a local array, of which the first half is written first. *)
Definition AES_wrap_key (key : AES_KEY) (iv : option bytes) (out inp : bytes) : option (Z * bytes) :=
  let in_len := zlen inp in
  if (in_len >? INT_MAX - 8) || (in_len <? 8) || negb (in_len mod 8 =? 0) then Some (-1, out)
  else
    let iv := match iv with None => kDefaultIV | Some iv => iv end in
    let out := zsplice out 8 inp in
    let A := ztake 8 iv ++ zrepeat 8 0 in
    let n := in_len / 8 in
    '(A, out) ← wrap_outer 6 key n 0 A out;
    Some (in_len + 8, zsplice out 0 (ztake 8 A)).

(** [for (size_t i = n; i > 0; i--)] *)
Fixpoint unwrap_inner (fuel : nat) (key : AES_KEY) (n j i : Z) (A out : bytes) : option (bytes * bytes) :=
  if negb (i >? 0) then Some (A, out)
  else
    match fuel with
    | O => None
    | S fuel =>
        let t := u32 (n * j + i) in
        let A := xor_t A t in
        let A := zsplice A 8 (ztake 8 (zdrop (8 * (i - 1)) out)) in
        A ← AES_decrypt A key;
        let out := zsplice out (8 * (i - 1)) (zdrop 8 A) in
        unwrap_inner fuel key n j (i - 1) A out
    end.

(** [for (unsigned j = kBound - 1; j < kBound; j--)]: it ends when [j] wraps. *)
Fixpoint unwrap_outer (fuel : nat) (key : AES_KEY) (n j : Z) (A out : bytes) : option (bytes * bytes) :=
  if negb (j <? kBound) then Some (A, out)
  else
    match fuel with
    | O => None
    | S fuel =>
        '(A, out) ← unwrap_inner (Z.to_nat n) key n j n A out;
        unwrap_outer fuel key n (u32 (j - 1)) A out
    end.

Definition AES_unwrap_key (key : AES_KEY) (iv : option bytes) (out inp : bytes) : option (Z * bytes) :=
  let in_len := zlen inp in
  if (in_len >? INT_MAX) || (in_len <? 16) || negb (in_len mod 8 =? 0) then Some (-1, out)
  else
    let iv := match iv with None => kDefaultIV | Some iv => iv end in
    let A := ztake 8 inp ++ zrepeat 8 0 in
    let out := zsplice out 0 (zdrop 8 inp) in
    let n := in_len / 8 - 1 in
    '(A, out) ← unwrap_outer 6 key n (kBound - 1) A out;
    if negb (CRYPTO_memcmp A iv 8 =? 0) then Some (-1, out)
    else Some (in_len - 8, out).

(** * Specification: RFC 3394, section 2.2

    The state is the 64-bit register [A] and the registers [R[1]] to [R[n]]. *)

Definition reg (R : list bytes) (i : Z) : bytes := nth (Z.to_nat (i - 1)) R [].
Definition set_reg (R : list bytes) (i : Z) (v : bytes) : list bytes := <[Z.to_nat (i - 1) := v]> R.

(** [B = AES(K, A | R[i]); A = MSB(64, B) ^ t; R[i] = LSB(64, B)]. *)
Definition wrap_step (E : bytes -> bytes) (s : bytes * list bytes) (ti : Z * Z) : bytes * list bytes :=
  let B := E (fst s ++ reg (snd s) (snd ti)) in
  (xor_bytes (ztake 8 B) (be_bytes 8 (fst ti)), set_reg (snd s) (snd ti) (zdrop 8 B)).

(** [B = AES-1(K, (A ^ t) | R[i]); A = MSB(64, B); R[i] = LSB(64, B)]. *)
Definition unwrap_step (D : bytes -> bytes) (s : bytes * list bytes) (ti : Z * Z) : bytes * list bytes :=
  let B := D (xor_bytes (fst s) (be_bytes 8 (fst ti)) ++ reg (snd s) (snd ti)) in
  (ztake 8 B, set_reg (snd s) (snd ti) (zdrop 8 B)).

(** The pairs of [t = n * j + i] and [i], for [i] from 1 to [n] and a given [j]; the
    rounds are for [j] from 0 to 5. *)
Definition round (n j : Z) : list (Z * Z) := map (fun i => (n * j + i, i)) (seqZ 1 n).
Definition rounds6 (n : Z) : list (Z * Z) := round n 0 ++ round n 1 ++ round n 2 ++ round n 3 ++ round n 4 ++ round n 5.

Definition rfc3394_wrap (E : bytes -> bytes) (iv : bytes) (R : list bytes) : bytes * list bytes :=
  fold_left (wrap_step E) (rounds6 (zlen R)) (iv, R).
Definition rfc3394_unwrap (D : bytes -> bytes) (A : bytes) (R : list bytes) : bytes * list bytes :=
  fold_left (unwrap_step D) (rev (rounds6 (zlen R))) (A, R).

(** Registers of 8 bytes. *)
Definition chunks8 (p : bytes) : list bytes := map (fun i => ztake 8 (zdrop (8 * i) p)) (seqZ 0 (zlen p / 8)).

(** * Lemmas: registers in a buffer *)

Definition reg_ok (r : bytes) : Prop := length r = 8%nat /\ bytes_ok r.

(** The state of the algorithm with [n] registers. *)
Definition regs_ok (n : Z) (s : bytes * list bytes) : Prop := reg_ok (fst s) /\ Forall reg_ok (snd s) /\ zlen (snd s) = n.

Lemma length_concat8 R : Forall reg_ok R -> zlen (concat R) = 8 * zlen R.
Proof. induction 1 as [|r R [Hr _] _ IH]; [done|]. cbn [concat length]. rewrite length_app. lia. Qed.

Lemma reg_split R i : 1 <= i <= zlen R -> exists R1 R2, R = R1 ++ reg R i :: R2 /\ zlen R1 = i - 1.
Proof.
  intros Hi. exists (take (Z.to_nat (i - 1)) R), (drop (S (Z.to_nat (i - 1))) R). split; [|rewrite length_take; lia].
  symmetry. apply take_drop_middle. unfold reg. destruct (lookup_lt_is_Some_2 R (Z.to_nat (i - 1))) as [x Hx]; [lia|].
  by rewrite (nth_lookup_Some _ _ _ _ Hx).
Qed.

Lemma set_reg_middle R1 r R2 i v : zlen R1 = i - 1 -> set_reg (R1 ++ r :: R2) i v = R1 ++ v :: R2.
Proof. intros Hl. unfold set_reg. replace (Z.to_nat (i - 1)) with (length R1 + 0)%nat by lia. by rewrite insert_app_r. Qed.

Lemma reg_middle R1 r R2 i : zlen R1 = i - 1 -> reg (R1 ++ r :: R2) i = r.
Proof. intros Hl. unfold reg. rewrite app_nth2 by lia. by replace (Z.to_nat (i - 1) - length R1)%nat with 0%nat by lia. Qed.

Section Layout.
Variables (pre post : bytes) (off : Z).
Hypothesis Hpre : zlen pre = off.

Lemma read_reg R i : Forall reg_ok R -> 1 <= i <= zlen R ->
  ztake 8 (zdrop (off + 8 * (i - 1)) (pre ++ concat R ++ post)) = reg R i /\ reg_ok (reg R i).
Proof using Hpre.
  intros HR Hi. destruct (reg_split R i Hi) as (R1 & R2 & E & Hl). rewrite E in HR |- * at 1.
  apply Forall_app in HR as [H1 [Hr H2]%Forall_cons]. split; [|exact Hr]. rewrite concat_app. cbn [concat].
  replace (pre ++ (concat R1 ++ reg R i ++ concat R2) ++ post) with ((pre ++ concat R1) ++ reg R i ++ (concat R2 ++ post)) by by rewrite <- !app_assoc.
  rewrite zdrop_app by (rewrite length_app; pose proof (length_concat8 R1 H1); lia). apply ztake_app. destruct Hr. lia.
Qed.

Lemma write_reg R i v : Forall reg_ok R -> 1 <= i <= zlen R -> reg_ok v ->
  zsplice (pre ++ concat R ++ post) (off + 8 * (i - 1)) v = pre ++ concat (set_reg R i v) ++ post /\
  Forall reg_ok (set_reg R i v) /\ zlen (set_reg R i v) = zlen R.
Proof using Hpre.
  intros HR Hi Hv. destruct (reg_split R i Hi) as (R1 & R2 & E & Hl). generalize dependent (reg R i). intros r E. subst R.
  apply Forall_app in HR as [H1 [Hr H2]%Forall_cons]. rewrite set_reg_middle by done. split_and!.
  - rewrite !concat_app. cbn [concat]. rewrite <- !app_assoc, !(app_assoc pre). apply zsplice_app.
    + rewrite length_app. pose proof (length_concat8 R1 H1). lia.
    + destruct Hr, Hv. lia.
  - apply Forall_app. split; [done|]. by constructor.
  - by rewrite !length_app.
Qed.
End Layout.

Lemma be_bytes_8 t : 0 <= t < 2 ^ 32 -> be_bytes 8 t =
  [0; 0; 0; 0; Z.land (Z.shiftr t 24) 0xff; Z.land (Z.shiftr t 16) 0xff; Z.land (Z.shiftr t 8) 0xff; Z.land t 0xff].
Proof.
  intros Ht. change 8%nat with (4 + 4)%nat at 1. rewrite be_bytes_app. change (256 ^ Z.of_nat 4) with (2 ^ 32).
  rewrite Z.div_small by done. rewrite !be_bytes_S. cbn [be_bytes le_bytes rev app].
  change 0xff with (Z.ones 8). rewrite !Z.land_ones, !Z.shiftr_div_pow2 by lia. change (2 ^ 8) with 256.
  change (2 ^ 24) with (256 * 256 * 256). change (2 ^ 16) with (256 * 256). by rewrite !Z.div_div by lia.
Qed.

Lemma xor_t_spec B t : state_ok B -> 0 <= t < 2 ^ 32 -> xor_t B t = xor_bytes (ztake 8 B) (be_bytes 8 t) ++ zdrop 8 B.
Proof.
  intros HB Ht. rewrite be_bytes_8 by done. bytes16 B HB. unfold xor_t. 
  change (ztake 8 _) with [z; z0; z1; z2; z3; z4; z5; z6]. change (zdrop 8 _) with [z7; z8; z9; z10; z11; z12; z13; z14].
  cbn [xor_bytes zip_with app]. rewrite !Z.lxor_0_r. reflexivity.
Qed.

(** The array [A] and the buffer hold the state. *)
Definition laid (pre post A out : bytes) (s : bytes * list bytes) : Prop :=
  state_ok A /\ ztake 8 A = fst s /\ out = pre ++ concat (snd s) ++ post.

Lemma splice_reg A r : state_ok A -> reg_ok r -> zsplice A 8 r = ztake 8 A ++ r /\ state_ok (ztake 8 A ++ r).
Proof.
  intros [Hl Hb] [Hr Hbr]. split.
  - unfold zsplice. rewrite zdrop_all by lia. by rewrite app_nil_r.
  - split; [rewrite length_app, length_ztake; lia|]. apply bytes_ok_app. split; [by apply bytes_ok_ztake|done].
Qed.

Lemma halves_ok B : state_ok B -> reg_ok (ztake 8 B) /\ reg_ok (zdrop 8 B).
Proof.
  intros [Hl Hb]. split; (split; [rewrite ?length_ztake, ?length_zdrop; lia|]); [by apply bytes_ok_ztake|by apply bytes_ok_zdrop].
Qed.

Lemma xor_reg_ok a t : reg_ok a -> reg_ok (xor_bytes a (be_bytes 8 t)).
Proof.
  intros [Hl Hb]. split; [rewrite length_xor_bytes, length_be_bytes; lia|]. apply xor_bytes_ok; [done|apply be_bytes_ok].
Qed.

Lemma app_reg_ok a r : reg_ok a -> reg_ok r -> state_ok (a ++ r).
Proof. intros [H1 H2] [H3 H4]. split; [rewrite length_app; lia|by apply bytes_ok_app]. Qed.
(** ** Wrapping *)

Section Wrap.
Variables (key : AES_KEY) (E : bytes -> bytes) (n : Z) (pre post : bytes).
Hypothesis HE : block_ok (fun b => AES_encrypt b key) E.
Hypothesis Hn : 0 <= n < 2 ^ 28.

Lemma wrap_step_ok s t i : regs_ok n s -> 1 <= i <= n -> regs_ok n (wrap_step E s (t, i)).
Proof using HE.
  intros (Ha & HR & Hl) Hi. destruct (read_reg [] [] 0 eq_refl (snd s) i HR ltac:(lia)) as [_ Hr].
  destruct (HE (fst s ++ reg (snd s) i)) as (_ & HL & HB); [by apply app_reg_ok..|].
  destruct (halves_ok (E (fst s ++ reg (snd s) i))) as [H1 H2]; [by split|].
  destruct (write_reg [] [] 0 eq_refl (snd s) i _ HR ltac:(lia) H2) as (_ & HR' & Hl').
  split; [by apply xor_reg_ok|]. split; [exact HR'|]. cbn [wrap_step snd fst]. lia.
Qed.

Lemma wrap_inner_spec k : forall fuel j i A out s, zlen pre = 8 -> regs_ok n s -> laid pre post A out s -> 0 <= j < 6 -> 1 <= i ->
  i + Z.of_nat k = n + 1 -> (k <= fuel)%nat ->
  let s' := fold_left (wrap_step E) (map (fun i => (n * j + i, i)) (seqZ i (Z.of_nat k))) s in
  exists A' out', wrap_inner fuel key n j i A out = Some (A', out') /\ laid pre post A' out' s' /\ regs_ok n s'.
Proof using HE Hn.
  induction k as [|k IH]; intros fuel j i A out s Hpre Hs HL Hj Hi Hk Hf.
  { exists A, out. split; [|by split]. destruct fuel; cbn [wrap_inner]; by replace (i <=? n) with false by lia. }
  destruct fuel as [|fuel]; [lia|]. cbn [wrap_inner]. replace (i <=? n) with true by lia. cbn [negb].
  rewrite seqZ_cons by lia. cbn [map fold_left]. pose proof Hs as (Ha & HR & Hlr). destruct HL as (HA & HA8 & ->).
  replace (8 * i) with (8 + 8 * (i - 1)) by lia.
  destruct (read_reg pre post 8 Hpre (snd s) i HR ltac:(lia)) as [-> Hr]. destruct (splice_reg A _ HA Hr) as [-> HAr].
  rewrite HA8 in HAr |- *. destruct (HE _ (proj1 HAr) (proj2 HAr)) as (-> & HL & HB). cbn [mbind option_bind].
  assert (Ht : 0 <= n * j + i < 2 ^ 32) by (assert (0 <= n * j <= n * 5) by nia; lia).
  rewrite u32_small by exact Ht. rewrite xor_t_spec by done.
  destruct (halves_ok (E (fst s ++ reg (snd s) i))) as [Hb1 Hb2]; [by split|]. pose proof (xor_reg_ok _ (n * j + i) Hb1) as Hx.
  assert (Hz : forall a r, reg_ok a -> ztake 8 (a ++ r) = a /\ zdrop 8 (a ++ r) = r).
  { intros a r [Hl _]. split; [apply ztake_app|apply zdrop_app]; lia. }
  rewrite (proj2 (Hz _ _ Hx)). destruct (write_reg pre post 8 Hpre (snd s) i _ HR ltac:(lia) Hb2) as (-> & _ & _).
  replace (Z.pred (Z.of_nat (S k))) with (Z.of_nat k) by lia. replace (Z.succ i) with (i + 1) by lia.
  apply IH; [done|apply wrap_step_ok; [done|lia]| |done|lia|lia|lia].
  split_and!; [by apply app_reg_ok|apply (Hz _ _ Hx)|done].
Qed.

Lemma wrap_outer_step fuel j A out s : zlen pre = 8 -> regs_ok n s -> laid pre post A out s -> 0 <= j < 6 ->
  let s' := fold_left (wrap_step E) (round n j) s in
  exists A' out', wrap_outer (S fuel) key n j A out = wrap_outer fuel key n (j + 1) A' out' /\ laid pre post A' out' s' /\ regs_ok n s'.
Proof using HE Hn.
  intros Hpre Hs HL Hj. destruct (wrap_inner_spec (Z.to_nat n) (Z.to_nat n) j 1 A out s) as (A' & out' & Ei & HL' & Hs'); [done|done|done|done|lia|lia|lia|].
  rewrite Z2Nat.id in HL', Hs' by lia. exists A', out'. split; [|by split]. cbn [wrap_outer]. unfold kBound.
  replace (j <? 6) with true by lia. cbn [negb]. rewrite Ei. cbn [mbind option_bind]. by rewrite u32_small by (unfold is_u; lia).
Qed.

Lemma wrap_outer_spec A out s : zlen pre = 8 -> regs_ok n s -> laid pre post A out s ->
  let s' := fold_left (wrap_step E) (rounds6 n) s in
  exists A' out', wrap_outer 6 key n 0 A out = Some (A', out') /\ laid pre post A' out' s' /\ regs_ok n s'.
Proof using HE Hn.
  intros Hpre Hs HL. cbv zeta. unfold rounds6. rewrite !fold_left_app.
  destruct (wrap_outer_step 5 0 A out s) as (A1 & o1 & -> & L1 & S1); [done..|lia|].
  destruct (wrap_outer_step 4 (0 + 1) A1 o1 _ Hpre S1 L1 ltac:(lia)) as (A2 & o2 & -> & L2 & S2).
  destruct (wrap_outer_step 3 (0 + 1 + 1) A2 o2 _ Hpre S2 L2 ltac:(lia)) as (A3 & o3 & -> & L3 & S3).
  destruct (wrap_outer_step 2 (0 + 1 + 1 + 1) A3 o3 _ Hpre S3 L3 ltac:(lia)) as (A4 & o4 & -> & L4 & S4).
  destruct (wrap_outer_step 1 (0 + 1 + 1 + 1 + 1) A4 o4 _ Hpre S4 L4 ltac:(lia)) as (A5 & o5 & -> & L5 & S5).
  destruct (wrap_outer_step 0 (0 + 1 + 1 + 1 + 1 + 1) A5 o5 _ Hpre S5 L5 ltac:(lia)) as (A6 & o6 & -> & L6 & S6).
  exists A6, o6. split; [reflexivity|]. by split.
Qed.
End Wrap.

(** ** Unwrapping *)

Section Unwrap.
Variables (key : AES_KEY) (D : bytes -> bytes) (n : Z) (post : bytes).
Hypothesis HD : block_ok (fun b => AES_decrypt b key) D.
Hypothesis Hn : 0 <= n < 2 ^ 28.

Lemma unwrap_step_ok s t i : regs_ok n s -> 1 <= i <= n -> regs_ok n (unwrap_step D s (t, i)).
Proof using HD.
  intros (Ha & HR & Hl) Hi. destruct (read_reg [] [] 0 eq_refl (snd s) i HR ltac:(lia)) as [_ Hr].
  destruct (HD (xor_bytes (fst s) (be_bytes 8 t) ++ reg (snd s) i)) as (_ & HL & HB); [by apply app_reg_ok; [apply xor_reg_ok|]..|].
  destruct (halves_ok (D (xor_bytes (fst s) (be_bytes 8 t) ++ reg (snd s) i))) as [H1 H2]; [by split|].
  destruct (write_reg [] [] 0 eq_refl (snd s) i _ HR ltac:(lia) H2) as (_ & HR' & Hl').
  split; [exact H1|]. split; [exact HR'|]. cbn [unwrap_step snd fst]. lia.
Qed.

Lemma unwrap_inner_spec k : forall fuel j A out s, regs_ok n s -> laid [] post A out s -> 0 <= j < 6 ->
  Z.of_nat k <= n -> (k <= fuel)%nat ->
  let s' := fold_left (unwrap_step D) (rev (map (fun i => (n * j + i, i)) (seqZ 1 (Z.of_nat k)))) s in
  exists A' out', unwrap_inner fuel key n j (Z.of_nat k) A out = Some (A', out') /\ laid [] post A' out' s' /\ regs_ok n s'.
Proof using HD Hn.
  induction k as [|k IH]; intros fuel j A out s Hs HL Hj Hk Hf.
  { exists A, out. split; [|by split]. by destruct fuel. }
  destruct fuel as [|fuel]; [lia|]. cbn [unwrap_inner]. rewrite Nat2Z.inj_succ, <- Z.add_1_r in Hk |- *.
  rewrite seqZ_app by lia. change (seqZ (1 + Z.of_nat k) 1) with [1 + Z.of_nat k].
  replace (1 + Z.of_nat k) with (Z.of_nat k + 1) by lia. set (i := Z.of_nat k + 1) in *.
  replace (i >? 0) with true by lia. cbn [negb]. rewrite map_app, rev_app_distr. cbn [map rev app fold_left].
  pose proof Hs as (Ha & HR & Hlr). destruct HL as (HA & HA8 & ->).
  assert (Ht : 0 <= n * j + i < 2 ^ 32) by (assert (0 <= n * j <= n * 5) by nia; lia).
  rewrite u32_small by exact Ht. rewrite xor_t_spec, HA8 by done. pose proof (xor_reg_ok _ (n * j + i) Ha) as Hx.
  destruct (halves_ok A HA) as [_ Hx2]. destruct (read_reg [] post 0 eq_refl (snd s) i HR ltac:(lia)) as [Er Hr].
  rewrite Z.add_0_l in Er. rewrite Er. destruct (splice_reg _ _ (app_reg_ok _ _ Hx Hx2) Hr) as [-> HAr].
  rewrite ztake_app in HAr |- * by (destruct Hx; lia). destruct (HD _ (proj1 HAr) (proj2 HAr)) as (-> & HL & HB). cbn [mbind option_bind].
  destruct (halves_ok (D (xor_bytes (fst s) (be_bytes 8 (n * j + i)) ++ reg (snd s) i))) as [Hb1 Hb2]; [by split|].
  destruct (write_reg [] post 0 eq_refl (snd s) i _ HR ltac:(lia) Hb2) as (Ew & _ & _). rewrite Z.add_0_l in Ew. rewrite Ew.
  replace (i - 1) with (Z.of_nat k) by lia. apply IH; [apply unwrap_step_ok; [done|lia]| |done|lia|lia].
  by split_and!.
Qed.

Lemma unwrap_outer_step fuel j j' A out s : u32 (j - 1) = j' -> regs_ok n s -> laid [] post A out s -> 0 <= j < 6 ->
  let s' := fold_left (unwrap_step D) (rev (round n j)) s in
  exists A' out', unwrap_outer (S fuel) key n j A out = unwrap_outer fuel key n j' A' out' /\ laid [] post A' out' s' /\ regs_ok n s'.
Proof using HD Hn.
  intros <- Hs HL Hj. destruct (unwrap_inner_spec (Z.to_nat n) (Z.to_nat n) j A out s) as (A' & out' & Ei & HL' & Hs'); [done|done|done|lia|lia|].
  rewrite Z2Nat.id in Ei, HL', Hs' by lia. exists A', out'. split; [|by split]. cbn [unwrap_outer]. unfold kBound.
  replace (j <? 6) with true by lia. cbn [negb]. by rewrite Ei.
Qed.

Lemma unwrap_outer_spec A out s : regs_ok n s -> laid [] post A out s ->
  let s' := fold_left (unwrap_step D) (rev (rounds6 n)) s in
  exists A' out', unwrap_outer 6 key n 5 A out = Some (A', out') /\ laid [] post A' out' s' /\ regs_ok n s'.
Proof using HD Hn.
  intros Hs HL. cbv zeta. unfold rounds6. rewrite !rev_app_distr, !fold_left_app.
  destruct (unwrap_outer_step 5 5 4 A out s) as (A1 & o1 & -> & L1 & S1); [done..|lia|].
  destruct (unwrap_outer_step 4 4 3 A1 o1 _ eq_refl S1 L1 ltac:(lia)) as (A2 & o2 & -> & L2 & S2).
  destruct (unwrap_outer_step 3 3 2 A2 o2 _ eq_refl S2 L2 ltac:(lia)) as (A3 & o3 & -> & L3 & S3).
  destruct (unwrap_outer_step 2 2 1 A3 o3 _ eq_refl S3 L3 ltac:(lia)) as (A4 & o4 & -> & L4 & S4).
  destruct (unwrap_outer_step 1 1 0 A4 o4 _ eq_refl S4 L4 ltac:(lia)) as (A5 & o5 & -> & L5 & S5).
  destruct (unwrap_outer_step 0 0 (2 ^ 32 - 1) A5 o5 _ eq_refl S5 L5 ltac:(lia)) as (A6 & o6 & -> & L6 & S6).
  exists A6, o6. split; [reflexivity|]. by split.
Qed.
End Unwrap.

(** ** The specifications are inverse *)

Section Inverse.
Variables (key : AES_KEY) (E D : bytes -> bytes) (n : Z).
Hypothesis HE : block_ok (fun b => AES_encrypt b key) E.
Hypothesis HED : forall b, length b = 16%nat -> bytes_ok b -> D (E b) = b.

Lemma step_inverse s t i : regs_ok n s -> 1 <= i <= n -> unwrap_step D (wrap_step E s (t, i)) (t, i) = s.
Proof using HE HED.
  destruct s as [a R]. intros (Ha & HR & Hl) Hi. cbn [fst snd] in *.
  destruct (read_reg [] [] 0 eq_refl R i HR ltac:(lia)) as [_ Hr]. destruct (app_reg_ok _ _ Ha Hr) as [Hs1 Hs2].
  destruct (HE _ Hs1 Hs2) as (_ & HL & HB). pose proof (HED _ Hs1 Hs2) as Hinv. unfold unwrap_step, wrap_step. cbv zeta. cbn [fst snd].
  destruct (reg_split R i ltac:(lia)) as (R1 & R2 & ER & Hl1). generalize dependent (reg R i). intros r. intros. subst R.
  rewrite (set_reg_middle R1 r R2 i _ Hl1), (reg_middle R1 _ R2 i Hl1), (set_reg_middle R1 _ R2 i _ Hl1).
  rewrite xor_bytes_cancel by (rewrite length_be_bytes, length_ztake; lia). rewrite ztake_zdrop, Hinv.
  destruct Ha, Hr. by rewrite ztake_app, zdrop_app by lia.
Qed.

Lemma wrap_fold_inverse l s : regs_ok n s -> Forall (fun ti => 1 <= snd ti <= n) l ->
  fold_left (unwrap_step D) (rev l) (fold_left (wrap_step E) l s) = s.
Proof using HE HED.
  intros Hs Hl. revert s Hs. induction Hl as [|[t i] l Hi _ IH]; intros s Hs; [done|]. cbn [rev fold_left snd] in *.
  rewrite fold_left_app, IH by (by eapply wrap_step_ok). by apply step_inverse.
Qed.
End Inverse.

Lemma rounds6_ok n : Forall (fun ti => 1 <= snd ti <= n) (rounds6 n).
Proof.
  assert (H : forall j, Forall (fun ti => 1 <= snd ti <= n) (round n j)).
  { intros j. apply Forall_map, Forall_forall. intros i Hi%elem_of_seqZ. cbn [snd]. lia. }
  unfold rounds6. by rewrite !Forall_app.
Qed.

(** ** Registers of a text *)

Lemma chunks8_app r p : zlen r = 8 -> chunks8 (r ++ p) = r :: chunks8 p.
Proof.
  intros Hr. unfold chunks8. rewrite length_app, Nat2Z.inj_add, Hr. replace ((8 + zlen p) / 8) with (Z.succ (zlen p / 8)) by (Z.to_euclidean_division_equations; lia).
  rewrite seqZ_cons by (pose proof (Z.div_pos (zlen p) 8); lia). cbn [map]. f_equal; [by rewrite Z.mul_0_r, zdrop_0, ztake_app|].
  rewrite Z.pred_succ. change (Z.succ 0) with (1 + 0). rewrite <- fmap_add_seqZ. change (fmap (Z.add 1)) with (map (Z.add 1)). rewrite map_map.
  apply map_ext_in. intros i Hi%list_elem_of_In%elem_of_seqZ. f_equal.
  replace (8 * (1 + i)) with (8 + 8 * i) by lia. rewrite <- zdrop_zdrop by lia. by rewrite (zdrop_app 8).
Qed.

Lemma chunks8_concat R : Forall reg_ok R -> chunks8 (concat R) = R.
Proof. induction 1 as [|r R [Hr _] _ IH]; [done|]. cbn [concat]. rewrite chunks8_app by lia. by rewrite IH. Qed.

Lemma chunks8_ok p n : zlen p = 8 * n -> bytes_ok p ->
  concat (chunks8 p) = p /\ Forall reg_ok (chunks8 p) /\ zlen (chunks8 p) = n.
Proof.
  intros Hl Hp. assert (Hn : 0 <= n) by lia. revert p Hl Hp. pattern n. apply natlike_ind; [| |exact Hn]; clear n Hn.
  - intros p Hl _. destruct p; [|cbn [length] in Hl; lia]. by split_and!.
  - intros n Hn IH p Hl Hp. rewrite <- (ztake_zdrop 8 p).
    assert (H8 : zlen (ztake 8 p) = 8) by (rewrite length_ztake; lia). rewrite chunks8_app by done. cbn [concat length].
    destruct (IH (zdrop 8 p)) as (E & F & L); [rewrite length_zdrop; lia|by apply bytes_ok_zdrop|]. split_and!.
    + by rewrite E.
    + constructor; [|done]. split; [lia|by apply bytes_ok_ztake].
    + lia.
Qed.

(** * Lemmas: the functions *)

Definition valid_wrap_len (in_len : Z) : bool := (8 <=? in_len) && (in_len <=? INT_MAX - 8) && (in_len mod 8 =? 0).
Definition valid_unwrap_len (in_len : Z) : bool := (16 <=? in_len) && (in_len <=? INT_MAX) && (in_len mod 8 =? 0).

Lemma AES_wrap_key_spec Nk k ks iv out inp :
  enc_key Nk k ks -> reg_ok iv -> bytes_ok inp -> zlen inp + 8 <= zlen out ->
  let c := rfc3394_wrap (aes_cipher Nk k) iv (chunks8 inp) in
  AES_wrap_key ks (Some iv) out inp =
    Some (if valid_wrap_len (zlen inp) then (zlen inp + 8, fst c ++ concat (snd c) ++ zdrop (zlen inp + 8) out) else (-1, out)).
Proof.
  intros Hk Hiv Hb Ho. unfold AES_wrap_key, valid_wrap_len.
  destruct ((zlen inp >? INT_MAX - 8) || (zlen inp <? 8) || negb (zlen inp mod 8 =? 0)) eqn:Ev.
  { by replace ((8 <=? zlen inp) && (zlen inp <=? INT_MAX - 8) && (zlen inp mod 8 =? 0)) with false by lia. }
  replace ((8 <=? zlen inp) && (zlen inp <=? INT_MAX - 8) && (zlen inp mod 8 =? 0)) with true by lia.
  set (n := zlen inp / 8). assert (Hn : zlen inp = 8 * n) by (unfold n; Z.to_euclidean_division_equations; lia).
  assert (Hn28 : 0 <= n < 2 ^ 28) by (unfold INT_MAX in Ev; lia).
  destruct (chunks8_ok inp n Hn Hb) as (Ec & Fc & Lc). cbv beta iota zeta.
  replace (zsplice out 8 inp) with (ztake 8 out ++ inp ++ zdrop (8 + 8 * n) out) by (unfold zsplice; by rewrite Hn). rewrite Hn.
  destruct (wrap_outer_spec ks _ n (ztake 8 out) (zdrop (8 + 8 * n) out) (enc_key_block _ _ _ Hk) Hn28
    (ztake 8 iv ++ zrepeat 8 0) (ztake 8 out ++ inp ++ zdrop (8 + 8 * n) out) (iv, chunks8 inp)) as (A & o & -> & (HA & HA8 & ->) & HS).
  - rewrite length_ztake. lia.
  - done.
  - destruct Hiv as [Hi Hib]. split_and!; [split; [by rewrite length_app, length_ztake, Hi|apply bytes_ok_app; split; [by apply bytes_ok_ztake|by apply bytes_ok_zrepeat]]| |cbn [snd]; by rewrite Ec].
    rewrite ztake_app by (rewrite length_ztake; lia). by rewrite ztake_all by lia.
  - cbn [mbind option_bind]. unfold rfc3394_wrap. rewrite Lc, HA8. generalize dependent (fold_left (wrap_step (aes_cipher Nk k)) (rounds6 n) (iv, chunks8 inp)).
    intros s Es HS. do 2 f_equal. replace (8 * n + 8) with (8 + 8 * n) by lia. apply (zsplice_app [] (ztake 8 out) _ (fst s) 0); [done|].
    destruct HS as ((Hs & _) & _). rewrite length_ztake. lia.
Qed.

Lemma AES_unwrap_key_spec Nk k ks iv out inp :
  dec_key Nk k ks -> zlen iv = 8 -> bytes_ok inp -> valid_unwrap_len (zlen inp) = true -> zlen inp - 8 <= zlen out ->
  let p := rfc3394_unwrap (aes_inv_cipher Nk k) (ztake 8 inp) (chunks8 (zdrop 8 inp)) in
  AES_unwrap_key ks (Some iv) out inp =
    Some (if bool_decide (fst p = iv) then zlen inp - 8 else -1, concat (snd p) ++ zdrop (zlen inp - 8) out).
Proof.
  intros Hk Hiv Hb Hv Ho. unfold AES_unwrap_key. unfold valid_unwrap_len in Hv.
  replace ((zlen inp >? INT_MAX) || (zlen inp <? 16) || negb (zlen inp mod 8 =? 0)) with false by lia.
  set (n := zlen inp / 8 - 1). assert (Hn : zlen inp = 8 * n + 8) by (unfold n; Z.to_euclidean_division_equations; lia).
  assert (Hn28 : 0 <= n < 2 ^ 28) by (unfold INT_MAX in Hv; lia). assert (Hd : zlen (zdrop 8 inp) = 8 * n) by (rewrite length_zdrop; lia).
  destruct (chunks8_ok (zdrop 8 inp) n Hd (bytes_ok_zdrop _ _ Hb)) as (Ec & Fc & Lc).
  replace (zlen inp - 8) with (8 * n) by lia. cbv beta iota zeta.
  replace (zsplice out 0 (zdrop 8 inp)) with (zdrop 8 inp ++ zdrop (8 * n) out) by (unfold zsplice; by rewrite (ztake_0 0), app_nil_l, Hd, Z.add_0_l by lia).
  assert (H8 : reg_ok (ztake 8 inp)) by (split; [rewrite length_ztake; lia|by apply bytes_ok_ztake]).
  destruct (unwrap_outer_spec ks _ n (zdrop (8 * n) out) (dec_key_block _ _ _ Hk) Hn28
    (ztake 8 inp ++ zrepeat 8 0) (zdrop 8 inp ++ zdrop (8 * n) out) (ztake 8 inp, chunks8 (zdrop 8 inp))) as (A & o & E & (HA & HA8 & ->) & HS).
  - done.
  - split_and!; [|by rewrite ztake_app by (destruct H8; lia)|cbn [snd]; by rewrite Ec]. apply app_reg_ok; [done|]. split; [done|by apply bytes_ok_zrepeat].
  - change (kBound - 1) with 5. rewrite E. cbn [mbind option_bind]. unfold rfc3394_unwrap. rewrite Lc, <- HA8.
    pose proof (CRYPTO_memcmp_eq A iv 8 ltac:(destruct HA; lia) ltac:(lia)) as Hc. rewrite (ztake_all 8 iv) in Hc by lia.
    case_bool_decide as Hd1; destruct (CRYPTO_memcmp A iv 8 =? 0) eqn:Ez; try reflexivity; exfalso; [apply Hc in Hd1|apply Hd1, Hc]; lia.
Qed.

Lemma wrap_regs_ok Nk k ks iv R : enc_key Nk k ks -> reg_ok iv -> Forall reg_ok R ->
  regs_ok (zlen R) (rfc3394_wrap (aes_cipher Nk k) iv R).
Proof.
  intros Hk Hiv HR. unfold rfc3394_wrap. assert (Hs : regs_ok (zlen R) (iv, R)) by by split_and!.
  generalize dependent (iv, R). induction (rounds6_ok (zlen R)) as [|[t i] l Hi _ IH]; intros s Hs; [done|]. cbn [fold_left].
  apply IH. by eapply wrap_step_ok; [apply enc_key_block| |].
Qed.

(** * Properties *)

(** C37. Equivalence with RFC 3394 on every input. Wrapping refuses the lengths that are
    not a positive multiple of 8 or whose result does not fit an [int], and otherwise
    leaves in [out] the registers that the RFC makes and returns their length; unwrapping
    refuses in the same way, otherwise leaves in [out] the text that the RFC makes, and
    returns its length exactly if the RFC's check of the integrity succeeds (on failure
    the text stays in [out]). No initial value means the RFC's default. *)
Theorem AES_key_wrap_rfc3394 Nk k ek dk iv out inp :
  enc_key Nk k ek -> dec_key Nk k dk -> reg_ok iv -> bytes_ok inp -> zlen inp + 8 <= zlen out ->
  let c := rfc3394_wrap (aes_cipher Nk k) iv (chunks8 inp) in
  let p := rfc3394_unwrap (aes_inv_cipher Nk k) (ztake 8 inp) (chunks8 (zdrop 8 inp)) in
  AES_wrap_key ek (Some iv) out inp =
    Some (if valid_wrap_len (zlen inp) then (zlen inp + 8, fst c ++ concat (snd c) ++ zdrop (zlen inp + 8) out) else (-1, out)) /\
  AES_unwrap_key dk (Some iv) out inp =
    Some (if valid_unwrap_len (zlen inp)
          then (if bool_decide (fst p = iv) then zlen inp - 8 else -1, concat (snd p) ++ zdrop (zlen inp - 8) out)
          else (-1, out)) /\
  AES_wrap_key ek None out inp = AES_wrap_key ek (Some kDefaultIV) out inp /\
  AES_unwrap_key dk None out inp = AES_unwrap_key dk (Some kDefaultIV) out inp.
Proof.
  intros He Hd Hiv Hb Ho. split_and!; [by apply AES_wrap_key_spec| |done..].
  destruct (valid_unwrap_len (zlen inp)) eqn:Ev; [apply AES_unwrap_key_spec; try done; destruct Hiv; lia|].
  unfold AES_unwrap_key. unfold valid_unwrap_len in Ev.
  by replace ((zlen inp >? INT_MAX) || (zlen inp <? 16) || negb (zlen inp mod 8 =? 0)) with true by lia.
Qed.

(** 24 bytes, in a buffer of 40. *)
Lemma AES_key_wrap_rfc3394_witness :
  let iv := kDefaultIV in let inp := seqZ 100 24 in let out := zrepeat 40 0 in
  let c := rfc3394_wrap (aes_cipher 4 sample_key) iv (chunks8 inp) in
  let p := rfc3394_unwrap (aes_inv_cipher 4 sample_key) (ztake 8 inp) (chunks8 (zdrop 8 inp)) in
  AES_wrap_key sample_ek (Some iv) out inp =
    Some (if valid_wrap_len (zlen inp) then (zlen inp + 8, fst c ++ concat (snd c) ++ zdrop (zlen inp + 8) out) else (-1, out)) /\
  AES_unwrap_key sample_dk (Some iv) out inp =
    Some (if valid_unwrap_len (zlen inp)
          then (if bool_decide (fst p = iv) then zlen inp - 8 else -1, concat (snd p) ++ zdrop (zlen inp - 8) out)
          else (-1, out)) /\
  AES_wrap_key sample_ek None out inp = AES_wrap_key sample_ek (Some kDefaultIV) out inp /\
  AES_unwrap_key sample_dk None out inp = AES_unwrap_key sample_dk (Some kDefaultIV) out inp.
Proof.
  apply AES_key_wrap_rfc3394; [apply sample_enc_key|apply sample_dec_key| | |vm_compute; discriminate].
  - split; [reflexivity|]. by apply bytes_ok_zrepeat.
  - apply Forall_forall. intros i Hi%elem_of_seqZ. unfold is_u. lia.
Defined.

(** Round trip: with the keys that the two key functions make from one key, what
    [AES_wrap_key] writes for a text of a valid length, [AES_unwrap_key] accepts with the
    same initial value and turns back into the text, and it refuses it with any other
    initial value. *)
Theorem AES_key_wrap_roundtrip Nk k ek dk iv iv' out out' inp :
  enc_key Nk k ek -> dec_key Nk k dk -> reg_ok iv -> zlen iv' = 8 -> bytes_ok inp -> valid_wrap_len (zlen inp) = true ->
  zlen out = zlen inp + 8 -> zlen out' = zlen inp ->
  exists c, AES_wrap_key ek (Some iv) out inp = Some (zlen inp + 8, c) /\ zlen c = zlen inp + 8 /\
    AES_unwrap_key dk (Some iv') out' c = Some (if bool_decide (iv = iv') then zlen inp else -1, inp).
Proof.
  intros He Hd Hiv Hiv' Hb Hv Ho Ho'. pose proof Hd as (HNk & Hkb & Hkl & _). eexists. rewrite (AES_wrap_key_spec Nk k) by (done || lia). rewrite Hv.
  split; [reflexivity|]. unfold valid_wrap_len in Hv. assert (Hn : zlen inp = 8 * (zlen inp / 8)) by (Z.to_euclidean_division_equations; lia).
  destruct (chunks8_ok inp _ Hn Hb) as (Ec & Fc & Lc). pose proof (wrap_regs_ok Nk k ek iv _ He Hiv Fc) as Hs.
  assert (Hinv : rfc3394_unwrap (aes_inv_cipher Nk k) (fst (rfc3394_wrap (aes_cipher Nk k) iv (chunks8 inp))) (snd (rfc3394_wrap (aes_cipher Nk k) iv (chunks8 inp)))
    = (iv, chunks8 inp)).
  { unfold rfc3394_unwrap. rewrite (proj2 (proj2 Hs)), <- surjective_pairing.
    by apply (wrap_fold_inverse ek _ _ (zlen (chunks8 inp))); [apply enc_key_block|intros; apply aes_inverse| |apply rounds6_ok]. }
  destruct (rfc3394_wrap (aes_cipher Nk k) iv (chunks8 inp)) as [a R]. destruct Hs as ([Hal Hab] & HR & HL). cbn [fst snd] in *.
  rewrite zdrop_all, app_nil_r by lia. pose proof (length_concat8 R HR) as Hc.
  assert (Hcb : bytes_ok (concat R)) by (clear - HR; induction HR as [|r R [_ Hr] _ IH]; [constructor|by apply bytes_ok_app]).
  assert (Hcl : zlen (a ++ concat R) = zlen inp + 8) by (rewrite length_app; lia). split; [exact Hcl|].
  assert (Hcv : valid_unwrap_len (zlen (a ++ concat R)) = true).
  { unfold valid_unwrap_len. rewrite Hcl. unfold INT_MAX in *. Z.to_euclidean_division_equations. lia. }
  assert (Hcok : bytes_ok (a ++ concat R)) by by apply bytes_ok_app.
  rewrite (AES_unwrap_key_spec Nk k) by (done || lia).
  rewrite Hcl, ztake_app, zdrop_app, chunks8_concat, Hinv by (done || lia). cbn [fst snd]. rewrite Ec, zdrop_all, app_nil_r by lia. 
  by replace (zlen inp + 8 - 8) with (zlen inp) by lia.
Qed.

Lemma AES_key_wrap_roundtrip_witness :
  exists c, AES_wrap_key sample_ek (Some kDefaultIV) (zrepeat 32 0) (seqZ 100 24) = Some (32, c) /\ zlen c = 32 /\
    AES_unwrap_key sample_dk (Some kDefaultIV) (zrepeat 24 0) c = Some (24, seqZ 100 24).
Proof.
  apply (AES_key_wrap_roundtrip 4 sample_key sample_ek sample_dk kDefaultIV kDefaultIV (zrepeat 32 0) (zrepeat 24 0) (seqZ 100 24));
    [apply sample_enc_key|apply sample_dec_key|split; [reflexivity|by apply bytes_ok_zrepeat]|reflexivity| |reflexivity..].
  apply Forall_forall. intros i Hi%elem_of_seqZ. unfold is_u. lia.
Defined.

(** The test vector of RFC 3394, section 4.1. *)
Example rfc3394_4_1 :
  AES_wrap_key sample_ek None (zrepeat 24 0)
    [0x00; 0x11; 0x22; 0x33; 0x44; 0x55; 0x66; 0x77; 0x88; 0x99; 0xaa; 0xbb; 0xcc; 0xdd; 0xee; 0xff] =
  Some (24, [0x1f; 0xa6; 0x8b; 0x0a; 0x81; 0x12; 0xb4; 0x47; 0xae; 0xf3; 0x4b; 0xd8; 0xfb; 0x5a; 0x7b; 0x82;
             0x9d; 0x3e; 0x86; 0x23; 0x71; 0xd2; 0xcf; 0xe5]).
Proof. vm_compute. reflexivity. Qed.
