(* ===== verification/Poly1305.v ===== *)
(** * Poly1305

    Models src/bubble/Pods/BoringSSL/crypto/poly1305/poly1305.c, the implementation for
    platforms that are not x86_64, with the 26-bit limbs of the code in 32-bit words and
    their products in 64-bit words. The rounding of the state's address is left out. The
    theorems say that the tag is that of RFC 8439 however the message is cut, except
    where the sum falls in a small set on which the last reduction may lose a carry. *)

From Stdlib Require Import ZArith Lia.
From stdpp Require Import base option list.
From S2P Require Import Prelude ByteMem.

(** * The program *)

(** We can assume little-endian. *)
Definition U8TO32_LE (m : bytes) : Z := le_val (ztake 4 m).
Definition U32TO8_LE (v : Z) : bytes := le_bytes 4 (u32 v).
Definition mul32x32_64 (a b : Z) : Z := u64 (a * b).

Record poly1305_state_st := mk_poly1305 {
  r0 : Z; r1 : Z; r2 : Z; r3 : Z; r4 : Z;
  s1 : Z; s2 : Z; s3 : Z; s4 : Z;
  h0 : Z; h1 : Z; h2 : Z; h3 : Z; h4 : Z;
  buf : bytes; buf_used : Z; key : bytes
}.

Definition set_limbs (st : poly1305_state_st) (a b c d e : Z) : poly1305_state_st :=
  mk_poly1305 (r0 st) (r1 st) (r2 st) (r3 st) (r4 st) (s1 st) (s2 st) (s3 st) (s4 st) a b c d e (buf st) (buf_used st) (key st).
Definition set_buf (st : poly1305_state_st) (b : bytes) (used : Z) : poly1305_state_st :=
  mk_poly1305 (r0 st) (r1 st) (r2 st) (r3 st) (r4 st) (s1 st) (s2 st) (s3 st) (s4 st)
    (h0 st) (h1 st) (h2 st) (h3 st) (h4 st) b used (key st).

Definition mask26 : Z := 0x3ffffff.

(** The additions of the words of a block to the limbs; [top] is what the last one gets
    beyond [t3 >> 8]. *)
Definition add_words (st : poly1305_state_st) (m : bytes) (top : Z) : poly1305_state_st :=
  let t0 := U8TO32_LE m in
  let t1 := U8TO32_LE (zdrop 4 m) in
  let t2 := U8TO32_LE (zdrop 8 m) in
  let t3 := U8TO32_LE (zdrop 12 m) in
  set_limbs st
    (u32 (h0 st + Z.land t0 mask26))
    (u32 (h1 st + Z.land (Z.shiftr (Z.lor (u64 (Z.shiftl t1 32)) t0) 26) mask26))
    (u32 (h2 st + Z.land (Z.shiftr (Z.lor (u64 (Z.shiftl t2 32)) t1) 20) mask26))
    (u32 (h3 st + Z.land (Z.shiftr (Z.lor (u64 (Z.shiftl t3 32)) t2) 14) mask26))
    (u32 (h4 st + Z.lor (Z.shiftr t3 8) top)).

(** [poly1305_donna_mul]: the sums of products, then the carries. *)
Definition donna_sums (st : poly1305_state_st) : Z * Z * Z * Z * Z :=
  let mul := mul32x32_64 in
  (u64 (mul (h0 st) (r0 st) + mul (h1 st) (s4 st) + mul (h2 st) (s3 st) + mul (h3 st) (s2 st) + mul (h4 st) (s1 st)),
   u64 (mul (h0 st) (r1 st) + mul (h1 st) (r0 st) + mul (h2 st) (s4 st) + mul (h3 st) (s3 st) + mul (h4 st) (s2 st)),
   u64 (mul (h0 st) (r2 st) + mul (h1 st) (r1 st) + mul (h2 st) (r0 st) + mul (h3 st) (s4 st) + mul (h4 st) (s3 st)),
   u64 (mul (h0 st) (r3 st) + mul (h1 st) (r2 st) + mul (h2 st) (r1 st) + mul (h3 st) (r0 st) + mul (h4 st) (s4 st)),
   u64 (mul (h0 st) (r4 st) + mul (h1 st) (r3 st) + mul (h2 st) (r2 st) + mul (h3 st) (r1 st) + mul (h4 st) (r0 st))).

Definition donna_carry (st : poly1305_state_st) (t : Z * Z * Z * Z * Z) : poly1305_state_st :=
  let '(t0, t1, t2, t3, t4) := t in
  let n0 := Z.land (u32 t0) mask26 in
  let c := Z.shiftr t0 26 in
  let t1 := u64 (t1 + c) in
  let n1 := Z.land (u32 t1) mask26 in
  let b := u32 (Z.shiftr t1 26) in
  let t2 := u64 (t2 + b) in
  let n2 := Z.land (u32 t2) mask26 in
  let b := u32 (Z.shiftr t2 26) in
  let t3 := u64 (t3 + b) in
  let n3 := Z.land (u32 t3) mask26 in
  let b := u32 (Z.shiftr t3 26) in
  let t4 := u64 (t4 + b) in
  let n4 := Z.land (u32 t4) mask26 in
  let b := u32 (Z.shiftr t4 26) in
  set_limbs st (u32 (n0 + u32 (b * 5))) n1 n2 n3 n4.

Definition poly1305_donna_mul (st : poly1305_state_st) : poly1305_state_st := donna_carry st (donna_sums st).

(** [poly1305_donna_16bytes], while [len >= 16]; then [in] and [len]. *)
Fixpoint poly1305_donna_16bytes (fuel : nat) (st : poly1305_state_st) (inp : bytes) (len : Z) : option (poly1305_state_st * bytes * Z) :=
  match fuel with
  | O => None
  | S fuel =>
      let st := poly1305_donna_mul (add_words st (ztake 16 inp) (Z.shiftl 1 24)) in
      let inp := zdrop 16 inp in
      let len := len - 16 in
      if len >=? 16 then poly1305_donna_16bytes fuel st inp len else Some (st, inp, len)
  end.

(** [poly1305_donna_atmost15bytes], where [len] is not 0. *)
Definition poly1305_donna_atmost15bytes (st : poly1305_state_st) (inp : bytes) (len : Z) : poly1305_state_st :=
  let mp := ztake len inp ++ [1] ++ zrepeat (16 - (len + 1)) 0 in
  poly1305_donna_mul (add_words st mp 0).

Definition poly1305_update (st : poly1305_state_st) (inp : bytes) (len : Z) : option poly1305_state_st :=
  '(st, inp, len) ← (if len <? 16 then Some (st, inp, len) else poly1305_donna_16bytes (Z.to_nat len) st inp len);
  Some (if len =? 0 then st else poly1305_donna_atmost15bytes st inp len).

Definition CRYPTO_poly1305_init (k : bytes) : poly1305_state_st :=
  let t0 := U8TO32_LE k in
  let t1 := U8TO32_LE (zdrop 4 k) in
  let t2 := U8TO32_LE (zdrop 8 k) in
  let t3 := U8TO32_LE (zdrop 12 k) in
  let r0 := Z.land t0 mask26 in
  let t0 := Z.shiftr t0 26 in
  let t0 := Z.lor t0 (u32 (Z.shiftl t1 6)) in
  let r1 := Z.land t0 0x3ffff03 in
  let t1 := Z.shiftr t1 20 in
  let t1 := Z.lor t1 (u32 (Z.shiftl t2 12)) in
  let r2 := Z.land t1 0x3ffc0ff in
  let t2 := Z.shiftr t2 14 in
  let t2 := Z.lor t2 (u32 (Z.shiftl t3 18)) in
  let r3 := Z.land t2 0x3f03fff in
  let t3 := Z.shiftr t3 8 in
  let r4 := Z.land t3 0x00fffff in
  mk_poly1305 r0 r1 r2 r3 r4 (u32 (r1 * 5)) (u32 (r2 * 5)) (u32 (r3 * 5)) (u32 (r4 * 5)) 0 0 0 0 0
    (zrepeat 16 0) 0 (ztake 16 (zdrop 16 k)).

(** The first [if], and what is then left of [in]. *)
Definition fill_buf (st : poly1305_state_st) (inp : bytes) : option (poly1305_state_st * bytes) :=
  if buf_used st =? 0 then Some (st, inp)
  else
    let todo := 16 - buf_used st in
    let todo := if todo >? zlen inp then zlen inp else todo in
    let st := set_buf st (zsplice (buf st) (buf_used st) (ztake todo inp)) (buf_used st + todo) in
    let inp := zdrop todo inp in
    if buf_used st =? 16 then st ← poly1305_update st (buf st) 16; Some (set_buf st (buf st) 0, inp)
    else Some (st, inp).

Definition CRYPTO_poly1305_update (st : poly1305_state_st) (inp : bytes) : option poly1305_state_st :=
  '(st, inp) ← fill_buf st inp;
  '(st, inp) ← (if zlen inp >=? 16 then
    let todo := Z.ldiff (zlen inp) 0xf in
    st ← poly1305_update st inp todo;
    Some (st, zdrop todo inp)
  else Some (st, inp));
  Some (if zlen inp =? 0 then st else set_buf st (zsplice (buf st) 0 inp) (zlen inp)).

(** The carries of the first part of [CRYPTO_poly1305_finish]. *)
Definition carry_limbs (st : poly1305_state_st) : poly1305_state_st :=
  let b := Z.shiftr (h0 st) 26 in
  let a0 := Z.land (h0 st) mask26 in
  let a1 := u32 (h1 st + b) in
  let b := Z.shiftr a1 26 in
  let a1 := Z.land a1 mask26 in
  let a2 := u32 (h2 st + b) in
  let b := Z.shiftr a2 26 in
  let a2 := Z.land a2 mask26 in
  let a3 := u32 (h3 st + b) in
  let b := Z.shiftr a3 26 in
  let a3 := Z.land a3 mask26 in
  let a4 := u32 (h4 st + b) in
  let b := Z.shiftr a4 26 in
  let a4 := Z.land a4 mask26 in
  let a0 := u32 (a0 + u32 (b * 5)) in
  set_limbs st a0 a1 a2 a3 a4.

(** The subtraction of the prime, and the choice by its sign. *)
Definition reduce_limbs (st : poly1305_state_st) : poly1305_state_st :=
  let g0 := u32 (h0 st + 5) in
  let b := Z.shiftr g0 26 in
  let g0 := Z.land g0 mask26 in
  let g1 := u32 (h1 st + b) in
  let b := Z.shiftr g1 26 in
  let g1 := Z.land g1 mask26 in
  let g2 := u32 (h2 st + b) in
  let b := Z.shiftr g2 26 in
  let g2 := Z.land g2 mask26 in
  let g3 := u32 (h3 st + b) in
  let b := Z.shiftr g3 26 in
  let g3 := Z.land g3 mask26 in
  let g4 := u32 (h4 st + b - Z.shiftl 1 26) in
  let b := u32 (Z.shiftr g4 31 - 1) in
  let nb := u32 (Z.lnot b) in
  let pick h g := Z.lor (Z.land h nb) (Z.land g b) in
  set_limbs st (pick (h0 st) g0) (pick (h1 st) g1) (pick (h2 st) g2) (pick (h3 st) g3) (pick (h4 st) g4).

(** The words of the limbs, plus the second half of the key. *)
Definition tag_words (st : poly1305_state_st) : bytes :=
  let f0 := u64 (Z.lor (h0 st) (u32 (Z.shiftl (h1 st) 26)) + U8TO32_LE (key st)) in
  let f1 := u64 (Z.lor (Z.shiftr (h1 st) 6) (u32 (Z.shiftl (h2 st) 20)) + U8TO32_LE (zdrop 4 (key st))) in
  let f2 := u64 (Z.lor (Z.shiftr (h2 st) 12) (u32 (Z.shiftl (h3 st) 14)) + U8TO32_LE (zdrop 8 (key st))) in
  let f3 := u64 (Z.lor (Z.shiftr (h3 st) 18) (u32 (Z.shiftl (h4 st) 8)) + U8TO32_LE (zdrop 12 (key st))) in
  let m0 := U32TO8_LE f0 in
  let f1 := u64 (f1 + Z.shiftr f0 32) in
  let m1 := U32TO8_LE f1 in
  let f2 := u64 (f2 + Z.shiftr f1 32) in
  let m2 := U32TO8_LE f2 in
  let f3 := u64 (f3 + Z.shiftr f2 32) in
  m0 ++ m1 ++ m2 ++ U32TO8_LE f3.

Definition CRYPTO_poly1305_finish (st : poly1305_state_st) : option (poly1305_state_st * bytes) :=
  st ← (if buf_used st =? 0 then Some st else poly1305_update st (buf st) (buf_used st));
  let st := reduce_limbs (carry_limbs st) in
  Some (st, tag_words st).

(** A message that comes in pieces. *)
Fixpoint update_all (st : poly1305_state_st) (inputs : list bytes) : option poly1305_state_st :=
  match inputs with
  | [] => Some st
  | inp :: inputs => st ← CRYPTO_poly1305_update st inp; update_all st inputs
  end.
Definition poly1305_tag (k : bytes) (inputs : list bytes) : option bytes :=
  st ← update_all (CRYPTO_poly1305_init k) inputs; r ← CRYPTO_poly1305_finish st; Some (snd r).

(** * Specification: RFC 8439, section 2.5 *)

Definition prime1305 : Z := 2 ^ 130 - 5.

Definition rfc_r (k : bytes) : Z := Z.land (le_val (ztake 16 k)) 0x0ffffffc0ffffffc0ffffffc0fffffff.
Definition rfc_s (k : bytes) : Z := le_val (ztake 16 (zdrop 16 k)).

(** The accumulator after [n] blocks, of which the last one may be short. *)
Fixpoint rfc_acc (n : nat) (r a : Z) (msg : bytes) : Z :=
  match n with
  | O => a
  | S n => rfc_acc n r ((a + le_val (ztake 16 msg ++ [1])) * r mod prime1305) (zdrop 16 msg)
  end.
Definition rfc_sum (k msg : bytes) : Z := rfc_acc (Z.to_nat ((zlen msg + 15) / 16)) (rfc_r k) 0 msg.
Definition rfc8439_mac (k msg : bytes) : bytes := le_bytes 16 (rfc_sum k msg + rfc_s k).

(** The sums for which the code may lose a carry: see [carry_limbs] and [tag_words]. *)
Definition may_lose_carry (a : Z) : bool := (2 ^ 27 <=? a) && (a <? 2 ^ 32) && (a mod 2 ^ 26 <? 5) && Z.even (a / 2 ^ 26).

(** The tag the code may give for such a sum in place of the RFC's: the carry, [2 ^ 26], is missing. *)
Definition short_mac (k msg : bytes) : bytes := le_bytes 16 (rfc_sum k msg - 2 ^ 26 + rfc_s k).

(** What the code gives: the tag of the RFC or, for such a sum only, the short one. *)
Definition mac_of (k msg tag : bytes) : Prop :=
  tag = rfc8439_mac k msg \/ may_lose_carry (rfc_sum k msg) = true /\ tag = short_mac k msg.

(** When it does, exactly: the sum has not been reduced modulo the prime to the end, and
    the carry out of the first limb meets an odd second limb. *)
Definition lost_carry (h : Z) : bool := (2 ^ 130 <=? h) && (2 ^ 26 - 5 <=? h mod 2 ^ 26) && Z.odd (h / 2 ^ 26).

(** * Lemmas: words and limbs *)

Definition limbs_val (a b c d e : Z) : Z := a + 2 ^ 26 * b + 2 ^ 52 * c + 2 ^ 78 * d + 2 ^ 104 * e.
Definition h_val (st : poly1305_state_st) : Z := limbs_val (h0 st) (h1 st) (h2 st) (h3 st) (h4 st).
Definition r_val (st : poly1305_state_st) : Z := limbs_val (r0 st) (r1 st) (r2 st) (r3 st) (r4 st).

Lemma mask26_mod x : Z.land x mask26 = x mod 2 ^ 26.
Proof. apply (Z.land_ones x 26). lia. Qed.

Lemma mask26_u32 x : Z.land (u32 x) mask26 = x mod 2 ^ 26.
Proof. rewrite <- mask26_mod. unfold u32. by rewrite <- Z.land_assoc. Qed.

Lemma lor_shl x y k w : 0 <= k <= w -> is_u k x ->
  Z.lor x (Z.shiftl y k mod 2 ^ w) = x + y mod 2 ^ (w - k) * 2 ^ k.
Proof.
  intros Hk Hx. rewrite Z.shiftl_mul_pow2 by lia. replace (2 ^ w) with (2 ^ (w - k) * 2 ^ k) by (rewrite <- Z.pow_add_r by lia; f_equal; lia).
  rewrite Zmult_mod_distr_r, <- Z.shiftl_mul_pow2, Z.lor_comm, lor_shiftl_add by (done || lia). rewrite Z.shiftl_mul_pow2 by lia. lia.
Qed.

Lemma lor_shl_u32 x y k : 0 <= k <= 32 -> is_u k x -> Z.lor x (u32 (Z.shiftl y k)) = x + y mod 2 ^ (32 - k) * 2 ^ k.
Proof. rewrite u32_mod. apply (lor_shl x y k 32). Qed.

Lemma words_64 t0 t1 : is_u 32 t0 -> is_u 32 t1 -> Z.lor (u64 (Z.shiftl t1 32)) t0 = t0 + 2 ^ 32 * t1.
Proof.
  intros H0 H1. rewrite u64_mod, Z.lor_comm. change 18446744073709551616 with (2 ^ 64).
  rewrite (lor_shl t0 t1 32 64) by (done || lia). change (64 - 32) with 32. rewrite Z.mod_small by exact H1. lia.
Qed.

Lemma le_val_app a b : le_val (a ++ b) = le_val a + 256 ^ zlen a * le_val b.
Proof. unfold le_val. rewrite rev_app_distr, be_val_app, length_rev. lia. Qed.

Lemma le_bytes_app n m v : le_bytes (n + m) v = le_bytes n v ++ le_bytes m (v / 256 ^ Z.of_nat n).
Proof.
  rewrite <- (rev_involutive (le_bytes (n + m) v)). change (rev (le_bytes (n + m) v)) with (be_bytes (n + m) v).
  rewrite Nat.add_comm, be_bytes_app, rev_app_distr. unfold be_bytes. by rewrite !rev_involutive.
Qed.

(** A block of 16 bytes and its words. *)
Lemma poly_words_16 m : zlen m = 16 -> bytes_ok m -> exists t0 t1 t2 t3,
  (U8TO32_LE m = t0 /\ U8TO32_LE (zdrop 4 m) = t1 /\ U8TO32_LE (zdrop 8 m) = t2 /\ U8TO32_LE (zdrop 12 m) = t3) /\
  (is_u 32 t0 /\ is_u 32 t1 /\ is_u 32 t2 /\ is_u 32 t3) /\ le_val m = t0 + 2 ^ 32 * t1 + 2 ^ 64 * t2 + 2 ^ 96 * t3.
Proof.
  intros Hl Hm. exists (U8TO32_LE m), (U8TO32_LE (zdrop 4 m)), (U8TO32_LE (zdrop 8 m)), (U8TO32_LE (zdrop 12 m)). split; [done|].
  assert (Hw : forall k, 0 <= k <= 12 -> is_u 32 (U8TO32_LE (zdrop k m)) /\ le_val (zdrop k m) = U8TO32_LE (zdrop k m) + 2 ^ 32 * le_val (zdrop (k + 4) m)).
  { intros k Hk. assert (H4 : zlen (ztake 4 (zdrop k m)) = 4) by (rewrite length_ztake, length_zdrop; lia). split.
    - pose proof (le_val_bound (ztake 4 (zdrop k m)) (bytes_ok_ztake _ _ (bytes_ok_zdrop _ _ Hm))) as H. rewrite H4 in H. exact H.
    - rewrite <- (ztake_zdrop 4 (zdrop k m)) at 1. rewrite le_val_app, H4, zdrop_zdrop by lia. reflexivity. }
  destruct (Hw 0 ltac:(lia)) as [B0 E0]. destruct (Hw 4 ltac:(lia)) as [B1 E1]. destruct (Hw 8 ltac:(lia)) as [B2 E2]. destruct (Hw 12 ltac:(lia)) as [B3 E3].
  change (zdrop 0 m) with m in *. rewrite (zdrop_all 16) in E3 by lia. change (le_val []) with 0 in E3. split; [done|].
  change (0 + 4) with 4 in E0. change (4 + 4) with 8 in E1. change (8 + 4) with 12 in E2. rewrite E0, E1, E2, E3. lia.
Qed.

(** Division by a power of 2, for the decompositions below. *)
Lemma pow2_div x k : 0 <= k -> x = 2 ^ k * (x / 2 ^ k) + x mod 2 ^ k /\ 0 <= x mod 2 ^ k < 2 ^ k.
Proof. intros Hk. pose proof (Z.pow_pos_nonneg 2 k). split; [apply Z.div_mod; lia|apply Z.mod_pos_bound; lia]. Qed.

(** The limbs of the four words. *)
Lemma limbs_of_words t0 t1 t2 t3 : is_u 32 t0 -> is_u 32 t1 -> is_u 32 t2 -> is_u 32 t3 ->
  limbs_val (t0 mod 2 ^ 26) ((t0 + 2 ^ 32 * t1) / 2 ^ 26 mod 2 ^ 26) ((t1 + 2 ^ 32 * t2) / 2 ^ 20 mod 2 ^ 26)
    ((t2 + 2 ^ 32 * t3) / 2 ^ 14 mod 2 ^ 26) (t3 / 2 ^ 8) = t0 + 2 ^ 32 * t1 + 2 ^ 64 * t2 + 2 ^ 96 * t3.
Proof.
  unfold is_u, limbs_val. intros H0 H1 H2 H3.
  replace ((t0 + 2 ^ 32 * t1) / 2 ^ 26) with (t1 * 2 ^ 6 + t0 / 2 ^ 26) by (rewrite <- Z.div_add_l by lia; f_equal; lia).
  replace ((t1 + 2 ^ 32 * t2) / 2 ^ 20) with (t2 * 2 ^ 12 + t1 / 2 ^ 20) by (rewrite <- Z.div_add_l by lia; f_equal; lia).
  replace ((t2 + 2 ^ 32 * t3) / 2 ^ 14) with (t3 * 2 ^ 18 + t2 / 2 ^ 14) by (rewrite <- Z.div_add_l by lia; f_equal; lia).
  destruct (pow2_div t0 26 ltac:(lia)) as [D0 B0]. destruct (pow2_div t1 20 ltac:(lia)) as [D1 B1]. destruct (pow2_div t2 14 ltac:(lia)) as [D2 B2]. destruct (pow2_div t3 8 ltac:(lia)) as [D3 B3].
  generalize dependent (t0 / 2 ^ 26). generalize dependent (t0 mod 2 ^ 26). generalize dependent (t1 / 2 ^ 20). generalize dependent (t1 mod 2 ^ 20).
  generalize dependent (t2 / 2 ^ 14). generalize dependent (t2 mod 2 ^ 14). generalize dependent (t3 / 2 ^ 8). generalize dependent (t3 mod 2 ^ 8). intros.
  rewrite <- (Z.mod_unique (t1 * 2 ^ 6 + z6) (2 ^ 26) z4 (z3 * 2 ^ 6 + z6)) by lia.
  rewrite <- (Z.mod_unique (t2 * 2 ^ 12 + z4) (2 ^ 26) z2 (z1 * 2 ^ 12 + z4)) by lia.
  rewrite <- (Z.mod_unique (t3 * 2 ^ 18 + z2) (2 ^ 26) z0 (z * 2 ^ 18 + z2)) by lia. lia.
Qed.

(** ** The sums stay within their words

    The largest [h0] that a multiplication leaves is just small enough for the next one:
    the quotients of the second sum by [2 ^ 26] fill 32 bits. *)

Definition h0_max : Z := 2810000000.
Definition acc_ok (st : poly1305_state_st) : Prop :=
  0 <= h0 st <= h0_max /\ is_u 26 (h1 st) /\ is_u 26 (h2 st) /\ is_u 26 (h3 st) /\ is_u 26 (h4 st).
Definition key_ok (st : poly1305_state_st) : Prop :=
  (0 <= r0 st <= 0x3ffffff /\ 0 <= r1 st <= 0x3ffff03 /\ 0 <= r2 st <= 0x3ffc0ff /\ 0 <= r3 st <= 0x3f03fff /\ 0 <= r4 st <= 0xfffff) /\
  s1 st = 5 * r1 st /\ s2 st = 5 * r2 st /\ s3 st = 5 * r3 st /\ s4 st = 5 * r4 st.
(** After the addition of a block. *)
Definition sum_ok (a b c d e : Z) : Prop :=
  0 <= a <= h0_max + 0x3ffffff /\ is_u 27 b /\ is_u 27 c /\ is_u 27 d /\ 0 <= e <= 0x5ffffff.

Lemma add_words_spec st m top : acc_ok st -> zlen m = 16 -> bytes_ok m -> top = 0 \/ top = 2 ^ 24 ->
  exists a b c d e, add_words st m top = set_limbs st a b c d e /\ sum_ok a b c d e /\
    limbs_val a b c d e = h_val st + le_val m + 2 ^ 104 * top.
Proof.
  intros (H0 & H1 & H2 & H3 & H4) Hl Hm Htop. destruct (poly_words_16 m Hl Hm) as (t0 & t1 & t2 & t3 & (E0 & E1 & E2 & E3) & (B0 & B1 & B2 & B3) & ->).
  unfold add_words. rewrite E0, E1, E2, E3, !mask26_mod, !words_64, !Z.shiftr_div_pow2 by (done || lia).
  assert (B8 : 0 <= t3 / 2 ^ 8 < 2 ^ 24) by (unfold is_u in B3; Z.to_euclidean_division_equations; lia).
  assert (El : Z.lor (t3 / 2 ^ 8) top = t3 / 2 ^ 8 + top).
  { destruct Htop as [-> | ->]; [by rewrite Z.lor_0_r, Z.add_0_r|]. change (2 ^ 24) with (Z.shiftl 1 24) at 1. rewrite Z.lor_comm, lor_shiftl_add by (done || lia). lia. }
  rewrite El. pose proof (limbs_of_words t0 t1 t2 t3 B0 B1 B2 B3) as L. unfold limbs_val in L.
  pose proof (Z.mod_pos_bound t0 (2 ^ 26) ltac:(lia)). pose proof (Z.mod_pos_bound ((t0 + 2 ^ 32 * t1) / 2 ^ 26) (2 ^ 26) ltac:(lia)).
  pose proof (Z.mod_pos_bound ((t1 + 2 ^ 32 * t2) / 2 ^ 20) (2 ^ 26) ltac:(lia)). pose proof (Z.mod_pos_bound ((t2 + 2 ^ 32 * t3) / 2 ^ 14) (2 ^ 26) ltac:(lia)).
  generalize dependent (t0 mod 2 ^ 26). generalize dependent ((t0 + 2 ^ 32 * t1) / 2 ^ 26 mod 2 ^ 26). generalize dependent ((t1 + 2 ^ 32 * t2) / 2 ^ 20 mod 2 ^ 26).
  generalize dependent ((t2 + 2 ^ 32 * t3) / 2 ^ 14 mod 2 ^ 26). generalize dependent (t3 / 2 ^ 8). intros.
  unfold is_u, h0_max in *. rewrite !u32_small by (unfold is_u; lia). do 5 eexists. split; [reflexivity|]. unfold sum_ok, is_u, h_val, limbs_val, h0_max. lia.
Qed.

Lemma mul_bound a b A B : 0 <= a <= A -> 0 <= b <= B -> A * B < 2 ^ 64 -> mul32x32_64 a b = a * b /\ 0 <= a * b <= A * B.
Proof.
  intros Ha Hb H. assert (0 <= a * b <= A * B) by (split; [apply Z.mul_nonneg_nonneg; lia|apply Z.mul_le_mono_nonneg; lia]).
  split; [|done]. apply u64_small. unfold is_u. lia.
Qed.

Lemma sum5_bound a b c d e A B C D E : 0 <= a <= A -> 0 <= b <= B -> 0 <= c <= C -> 0 <= d <= D -> 0 <= e <= E -> A + B + C + D + E < 2 ^ 64 ->
  u64 (a + b + c + d + e) = a + b + c + d + e /\ 0 <= a + b + c + d + e <= A + B + C + D + E.
Proof. intros. split; [apply u64_small; unfold is_u; lia|lia]. Qed.

Lemma bound_weaken x B N : 0 <= x <= B -> B < N -> 0 <= x < N.
Proof. lia. Qed.

(** The sums, and what they are modulo the prime. *)
Definition sums_ok (t : Z * Z * Z * Z * Z) : Prop :=
  let '(t0, t1, t2, t3, t4) := t in
  0 <= t0 < 2 ^ 59 /\ 0 <= t1 < 2 ^ 58 - 2 ^ 34 /\ 0 <= t2 < 2 ^ 58 - 2 ^ 34 /\ 0 <= t3 < 2 ^ 58 - 2 ^ 34 /\ 0 <= t4 < 548500000 * 2 ^ 26.
Definition sums_val (t : Z * Z * Z * Z * Z) : Z := let '(t0, t1, t2, t3, t4) := t in limbs_val t0 t1 t2 t3 t4.

Lemma donna_sums_spec st a b c d e : key_ok st -> sum_ok a b c d e ->
  let t := donna_sums (set_limbs st a b c d e) in
  sums_ok t /\ sums_val t mod prime1305 = limbs_val a b c d e * r_val st mod prime1305.
Proof.
  destruct st as [x0 x1 x2 x3 x4 y1 y2 y3 y4 ? ? ? ? ? bf bu ky]. unfold key_ok, sum_ok, is_u, donna_sums, set_limbs, r_val.
  cbn [r0 r1 r2 r3 r4 s1 s2 s3 s4 h0 h1 h2 h3 h4]. intros ((R0 & R1 & R2 & R3 & R4) & -> & -> & -> & ->) (Ha & Hb & Hc & Hd & He).
  assert (Hb' : 0 <= b <= 2 ^ 27 - 1) by lia. assert (Hc' : 0 <= c <= 2 ^ 27 - 1) by lia. assert (Hd' : 0 <= d <= 2 ^ 27 - 1) by lia. clear Hb Hc Hd.
  assert (S1 : 0 <= 5 * x1 <= 5 * 0x3ffff03) by lia. assert (S2 : 0 <= 5 * x2 <= 5 * 0x3ffc0ff) by lia.
  assert (S3 : 0 <= 5 * x3 <= 5 * 0x3f03fff) by lia. assert (S4 : 0 <= 5 * x4 <= 5 * 0xfffff) by lia.
  assert (P : forall x y A B, 0 <= x <= A -> 0 <= y <= B -> A * B < 2 ^ 64 -> mul32x32_64 x y = x * y /\ 0 <= x * y <= A * B) by apply mul_bound.
  assert (Pa : forall y B, 0 <= y <= B -> B < 2 ^ 32 -> mul32x32_64 a y = a * y /\ 0 <= a * y <= 2877108863 * B).
  { intros y B Hy HB. apply (P a y 2877108863 B); [done|done|lia]. }
  assert (Pm : forall h y B, 0 <= h <= 2 ^ 27 - 1 -> 0 <= y <= B -> B < 2 ^ 32 -> mul32x32_64 h y = h * y /\ 0 <= h * y <= 134217727 * B).
  { intros h y B Hh Hy HB. apply (P h y 134217727 B); [done|done|lia]. }
  assert (Pe : forall y B, 0 <= y <= B -> B < 2 ^ 32 -> mul32x32_64 e y = e * y /\ 0 <= e * y <= 100663295 * B).
  { intros y B Hy HB. apply (P e y 100663295 B); [done|done|lia]. }
  clear P.
  destruct (Pa _ _ R0 eq_refl) as [-> A0]. destruct (Pa _ _ R1 eq_refl) as [-> A1]. destruct (Pa _ _ R2 eq_refl) as [-> A2]. destruct (Pa _ _ R3 eq_refl) as [-> A3]. destruct (Pa _ _ R4 eq_refl) as [-> A4].
  destruct (Pm b _ _ Hb' S4 eq_refl) as [-> B0]. destruct (Pm b _ _ Hb' R0 eq_refl) as [-> B1]. destruct (Pm b _ _ Hb' R1 eq_refl) as [-> B2]. destruct (Pm b _ _ Hb' R2 eq_refl) as [-> B3]. destruct (Pm b _ _ Hb' R3 eq_refl) as [-> B4].
  destruct (Pm c _ _ Hc' S3 eq_refl) as [-> C0]. destruct (Pm c _ _ Hc' S4 eq_refl) as [-> C1]. destruct (Pm c _ _ Hc' R0 eq_refl) as [-> C2]. destruct (Pm c _ _ Hc' R1 eq_refl) as [-> C3]. destruct (Pm c _ _ Hc' R2 eq_refl) as [-> C4].
  destruct (Pm d _ _ Hd' S2 eq_refl) as [-> D0]. destruct (Pm d _ _ Hd' S3 eq_refl) as [-> D1]. destruct (Pm d _ _ Hd' S4 eq_refl) as [-> D2]. destruct (Pm d _ _ Hd' R0 eq_refl) as [-> D3]. destruct (Pm d _ _ Hd' R1 eq_refl) as [-> D4].
  destruct (Pe _ _ S1 eq_refl) as [-> E0]. destruct (Pe _ _ S2 eq_refl) as [-> E1]. destruct (Pe _ _ S3 eq_refl) as [-> E2]. destruct (Pe _ _ S4 eq_refl) as [-> E3]. destruct (Pe _ _ R0 eq_refl) as [-> E4].
  clear Pa Pm Pe.
  destruct (sum5_bound _ _ _ _ _ _ _ _ _ _ A0 B0 C0 D0 E0 eq_refl) as [-> T0].
  destruct (sum5_bound _ _ _ _ _ _ _ _ _ _ A1 B1 C1 D1 E1 eq_refl) as [-> T1].
  destruct (sum5_bound _ _ _ _ _ _ _ _ _ _ A2 B2 C2 D2 E2 eq_refl) as [-> T2].
  destruct (sum5_bound _ _ _ _ _ _ _ _ _ _ A3 B3 C3 D3 E3 eq_refl) as [-> T3].
  destruct (sum5_bound _ _ _ _ _ _ _ _ _ _ A4 B4 C4 D4 E4 eq_refl) as [-> T4].
  split.
  - clear - T0 T1 T2 T3 T4. unfold sums_ok. refine (conj _ (conj _ (conj _ (conj _ _)))); (eapply bound_weaken; [eassumption|reflexivity]).
  - unfold sums_val.
    rewrite <- (Z_mod_plus_full _ ((b * x4 + c * x3 + d * x2 + e * x1) + 2 ^ 26 * (c * x4 + d * x3 + e * x2) + 2 ^ 52 * (d * x4 + e * x3) + 2 ^ 78 * (e * x4)) prime1305).
    f_equal. unfold limbs_val, prime1305. ring.
Qed.

(** The carries. *)
Lemma donna_carry_spec st t : sums_ok t ->
  exists a b c d e, donna_carry st t = set_limbs st a b c d e /\ acc_ok (set_limbs st a b c d e) /\
    limbs_val a b c d e mod prime1305 = sums_val t mod prime1305.
Proof.
  destruct t as [[[[t0 t1] t2] t3] t4]. unfold sums_ok, donna_carry. intros (H0 & H1 & H2 & H3 & H4).
  assert (Hd : forall x, 0 <= x -> Z.shiftr x 26 = x / 2 ^ 26 /\ x = 2 ^ 26 * (x / 2 ^ 26) + x mod 2 ^ 26 /\ 0 <= x mod 2 ^ 26 < 2 ^ 26).
  { intros x Hx. split; [by apply Z.shiftr_div_pow2|]. split; [by apply Z.div_mod|by apply Z.mod_pos_bound]. }
  rewrite !mask26_u32. destruct (Hd t0 ltac:(lia)) as (-> & D0 & B0). generalize dependent (t0 mod 2 ^ 26). generalize dependent (t0 / 2 ^ 26). intros c0 n0 D0 B0.
  rewrite (u64_small (t1 + c0)) by (unfold is_u; lia). destruct (Hd (t1 + c0) ltac:(lia)) as (-> & D1 & B1).
  generalize dependent ((t1 + c0) mod 2 ^ 26). generalize dependent ((t1 + c0) / 2 ^ 26). intros c1 n1 D1 B1.
  rewrite (u32_small c1), (u64_small (t2 + c1)) by (unfold is_u; lia). destruct (Hd (t2 + c1) ltac:(lia)) as (-> & D2 & B2).
  generalize dependent ((t2 + c1) mod 2 ^ 26). generalize dependent ((t2 + c1) / 2 ^ 26). intros c2 n2 D2 B2.
  rewrite (u32_small c2), (u64_small (t3 + c2)) by (unfold is_u; lia). destruct (Hd (t3 + c2) ltac:(lia)) as (-> & D3 & B3).
  generalize dependent ((t3 + c2) mod 2 ^ 26). generalize dependent ((t3 + c2) / 2 ^ 26). intros c3 n3 D3 B3.
  rewrite (u32_small c3), (u64_small (t4 + c3)) by (unfold is_u; lia). destruct (Hd (t4 + c3) ltac:(lia)) as (-> & D4 & B4).
  generalize dependent ((t4 + c3) mod 2 ^ 26). generalize dependent ((t4 + c3) / 2 ^ 26). intros c4 n4 D4 B4. clear Hd.
  assert (Hc4 : 0 <= c4 <= 548500063) by lia.
  rewrite (u32_small c4), (u32_small (c4 * 5)), (u32_small (n0 + c4 * 5)) by (unfold is_u; lia).
  exists (n0 + c4 * 5), n1, n2, n3, n4. split; [reflexivity|]. split; [unfold acc_ok, is_u, h0_max; cbn [h0 h1 h2 h3 h4 set_limbs]; lia|].
  unfold sums_val. rewrite <- (Z_mod_plus_full (limbs_val (n0 + c4 * 5) n1 n2 n3 n4) c4 prime1305). f_equal. unfold limbs_val, prime1305. lia.
Qed.

(** * Lemmas: blocks *)

(** The state has the multiplier [r] and the accumulator [a]. *)
Definition acc (st : poly1305_state_st) (r a : Z) : Prop :=
  key_ok st /\ acc_ok st /\ r_val st = r /\ h_val st mod prime1305 = a.
(** Only the limbs differ. *)
Definition same (st st' : poly1305_state_st) : Prop :=
  buf st' = buf st /\ buf_used st' = buf_used st /\ key st' = key st.

Lemma same_trans st st' st'' : same st st' -> same st' st'' -> same st st''.
Proof. unfold same. intuition congruence. Qed.

Lemma mul_step st m top r a v : acc st r a -> zlen m = 16 -> bytes_ok m -> top = 0 \/ top = 2 ^ 24 -> v = le_val m + 2 ^ 104 * top ->
  let st' := poly1305_donna_mul (add_words st m top) in acc st' r ((a + v) * r mod prime1305) /\ same st st'.
Proof.
  intros (Hk & Ha & <- & <-) Hl Hm Ht ->. destruct (add_words_spec st m top Ha Hl Hm Ht) as (x0 & x1 & x2 & x3 & x4 & E & Hs & V).
  destruct (donna_sums_spec st x0 x1 x2 x3 x4 Hk Hs) as [So Sv]. unfold poly1305_donna_mul. cbv zeta. rewrite E.
  destruct (donna_carry_spec (set_limbs st x0 x1 x2 x3 x4) _ So) as (y0 & y1 & y2 & y3 & y4 & -> & Ho & Hv).
  split; [|done]. split; [exact Hk|]. split; [exact Ho|]. split; [reflexivity|]. change (h_val _) with (limbs_val y0 y1 y2 y3 y4) at 1. rewrite Hv, Sv, V.
  rewrite <- Zmult_mod_idemp_l. symmetry. rewrite <- Zmult_mod_idemp_l, Zplus_mod_idemp_l. do 3 f_equal. lia.
Qed.

Lemma block_16 st m r a : acc st r a -> zlen m = 16 -> bytes_ok m ->
  let st' := poly1305_donna_mul (add_words st m (Z.shiftl 1 24)) in acc st' r ((a + le_val (m ++ [1])) * r mod prime1305) /\ same st st'.
Proof.
  intros Ha Hl Hm. apply mul_step; [done..|by right|]. rewrite le_val_app, Hl. change (le_val [1]) with 1. change (Z.shiftl 1 24) with (2 ^ 24). lia.
Qed.

Lemma le_val_zeros n : le_val (zrepeat n 0) = 0.
Proof. unfold zrepeat. induction (Z.to_nat n) as [|k IH]; [done|]. cbn [replicate]. rewrite le_val_cons, IH. done. Qed.

Lemma block_short st m len r a : acc st r a -> 0 < len < 16 -> len <= zlen m -> bytes_ok m ->
  let st' := poly1305_donna_atmost15bytes st m len in acc st' r ((a + le_val (ztake len m ++ [1])) * r mod prime1305) /\ same st st'.
Proof.
  intros Ha Hl Hlm Hm. apply mul_step; [done| | |by left|].
  - rewrite !length_app, length_ztake, length_zrepeat. cbn [length]. lia.
  - rewrite !bytes_ok_app. split_and!; [by apply bytes_ok_ztake|by repeat constructor|by apply bytes_ok_zrepeat].
  - rewrite (app_assoc (ztake len m)), (le_val_app (ztake len m ++ [1])), le_val_zeros. lia.
Qed.

Lemma rfc_acc_app n k r x y a : zlen x = 16 * Z.of_nat n -> rfc_acc (n + k) r a (x ++ y) = rfc_acc k r (rfc_acc n r a x) y.
Proof.
  revert x a. induction n as [|n IH]; intros x a Hl; [by destruct x|]. cbn [Nat.add rfc_acc].
  rewrite <- (ztake_zdrop 16 x) at 1 2. assert (H16 : zlen (ztake 16 x) = 16) by (rewrite length_ztake; lia).
  rewrite <- app_assoc, (ztake_app 16), (zdrop_app 16) by done. apply IH. rewrite length_zdrop. lia.
Qed.

Lemma donna_16bytes_spec n : forall fuel st inp k r a, acc st r a -> (n < fuel)%nat -> 0 <= k < 16 -> 16 * (Z.of_nat n + 1) + k <= zlen inp -> bytes_ok inp ->
  exists st', poly1305_donna_16bytes fuel st inp (16 * (Z.of_nat n + 1) + k) = Some (st', zdrop (16 * (Z.of_nat n + 1)) inp, k) /\
    acc st' r (rfc_acc (S n) r a inp) /\ same st st'.
Proof.
  induction n as [|n IH]; intros fuel st inp k r a Ha Hf Hk Hl Hb; (destruct fuel as [|fuel]; [lia|]); cbn [poly1305_donna_16bytes].
  - destruct (block_16 st (ztake 16 inp) r a Ha) as [Ha' Hs]; [rewrite length_ztake; lia|by apply bytes_ok_ztake|].
    replace (16 * (Z.of_nat 0 + 1) + k - 16) with k by lia. replace (k >=? 16) with false by lia. eexists. split; [reflexivity|]. by split.
  - destruct (block_16 st (ztake 16 inp) r a Ha) as [Ha' Hs]; [rewrite length_ztake; lia|by apply bytes_ok_ztake|].
    rewrite Nat2Z.inj_succ, <- Z.add_1_r in Hl |- *. replace (16 * (Z.of_nat n + 1 + 1) + k - 16) with (16 * (Z.of_nat n + 1) + k) by lia.
    replace (16 * (Z.of_nat n + 1) + k >=? 16) with true by lia.
    destruct (IH fuel _ (zdrop 16 inp) k r _ Ha' ltac:(lia) Hk) as (st' & -> & Ha'' & Hs'); [rewrite length_zdrop; lia|by apply bytes_ok_zdrop|].
    exists st'. rewrite zdrop_zdrop by lia. split; [by replace (16 + 16 * (Z.of_nat n + 1)) with (16 * (Z.of_nat n + 1 + 1)) by lia|]. split; [exact Ha''|]. by eapply same_trans.
Qed.

(** [poly1305_update] on whole blocks, and on the last one. *)
Lemma update_blocks st inp n r a : acc st r a -> zlen inp >= 16 * Z.of_nat (S n) -> bytes_ok inp ->
  exists st', poly1305_update st inp (16 * Z.of_nat (S n)) = Some st' /\ acc st' r (rfc_acc (S n) r a inp) /\ same st st'.
Proof.
  intros Ha Hl Hb. unfold poly1305_update. rewrite Nat2Z.inj_succ, <- Z.add_1_r in Hl |- *. replace (16 * (Z.of_nat n + 1) <? 16) with false by lia.
  destruct (donna_16bytes_spec n (Z.to_nat (16 * (Z.of_nat n + 1))) st inp 0 r a Ha) as (st' & E & H); [lia|lia|lia|done|].
  rewrite Z.add_0_r in E. rewrite E. by exists st'.
Qed.

Lemma update_last st inp len r a : acc st r a -> 0 < len < 16 -> len <= zlen inp -> bytes_ok inp ->
  exists st', poly1305_update st inp len = Some st' /\ acc st' r ((a + le_val (ztake len inp ++ [1])) * r mod prime1305) /\ same st st'.
Proof.
  intros Ha Hl Hlm Hb. unfold poly1305_update. replace (len <? 16) with true by lia. cbn [mbind option_bind]. replace (len =? 0) with false by lia.
  eexists. split; [reflexivity|]. by apply block_short.
Qed.

(** * Lemmas: the key *)

Lemma land_upper x m : 0 <= x -> 0 <= m -> 0 <= Z.land x m <= m.
Proof.
  intros Hx Hm. split; [apply Z.land_nonneg; by left|].
  assert (E : Z.ldiff (Z.land x m) m = 0).
  { apply Z.bits_inj'. intros n Hn. rewrite Z.ldiff_spec, Z.land_spec, Z.bits_0. by destruct (Z.testbit x n), (Z.testbit m n). }
  pose proof (Z.sub_nocarry_ldiff m (Z.land x m) E). assert (0 <= Z.ldiff m (Z.land x m)) by (apply Z.ldiff_nonneg; by left). lia.
Qed.

Lemma testbit_limb a b n : is_u 26 a -> 0 <= n -> Z.testbit (a + 2 ^ 26 * b) n = if n <? 26 then Z.testbit a n else Z.testbit b (n - 26).
Proof.
  intros Ha Hn. replace (a + 2 ^ 26 * b) with (b * 2 ^ 26 + a) by lia. rewrite <- lor_shiftl_add, Z.lor_spec, Z.shiftl_spec by (done || lia).
  destruct (Z.ltb_spec n 26); [rewrite (Z.testbit_neg_r b) by lia; done|]. rewrite (is_u_testbit 26 a) by (done || lia). apply orb_false_r.
Qed.

Lemma land_limb a b c d : is_u 26 a -> is_u 26 c -> Z.land (a + 2 ^ 26 * b) (c + 2 ^ 26 * d) = Z.land a c + 2 ^ 26 * Z.land b d.
Proof.
  intros Ha Hc. assert (Hac : is_u 26 (Z.land a c)) by (pose proof (land_upper a c); unfold is_u in *; lia).
  apply Z.bits_inj'. intros n Hn. rewrite Z.land_spec, !testbit_limb by done. destruct (n <? 26); by rewrite Z.land_spec.
Qed.

Lemma limbs_nested a b c d e : limbs_val a b c d e = a + 2 ^ 26 * (b + 2 ^ 26 * (c + 2 ^ 26 * (d + 2 ^ 26 * e))).
Proof. unfold limbs_val. lia. Qed.

(** A mask of 26 bits sees the value modulo [2 ^ 26]. *)
Lemma land_mod26 x m : is_u 26 m -> Z.land x m = Z.land (x mod 2 ^ 26) m.
Proof.
  intros Hm. rewrite <- (mask26_mod x), <- Z.land_assoc. f_equal. rewrite Z.land_comm, mask26_mod. by rewrite Z.mod_small by exact Hm.
Qed.

Lemma ztake_4_16 k j : 0 <= j <= 12 -> U8TO32_LE (zdrop j (ztake 16 k)) = U8TO32_LE (zdrop j k).
Proof.
  intros Hj. unfold U8TO32_LE, ztake, zdrop. rewrite skipn_firstn_comm, firstn_firstn. do 3 f_equal. lia.
Qed.

(** [(x >> m) | (y << n)], as [CRYPTO_poly1305_init] makes a limb of two words. *)
Lemma word_limb x y n : is_u 32 x -> is_u 32 y -> 0 <= n <= 26 ->
  Z.lor (Z.shiftr x (32 - n)) (u32 (Z.shiftl y n)) mod 2 ^ 26 = (x + 2 ^ 32 * y) / 2 ^ (32 - n) mod 2 ^ 26.
Proof.
  intros Hx Hy Hn. assert (Hp : 2 ^ 32 = 2 ^ n * 2 ^ (32 - n)) by (rewrite <- Z.pow_add_r by lia; f_equal; lia).
  pose proof (Z.pow_pos_nonneg 2 n ltac:(lia)). pose proof (Z.pow_pos_nonneg 2 (32 - n) ltac:(lia)).
  rewrite Z.shiftr_div_pow2 by lia. rewrite lor_shl_u32; [|lia|split; [apply Z.div_pos; unfold is_u in Hx; lia|apply Z.div_lt_upper_bound; [lia|]; unfold is_u in Hx; lia]].
  replace (x + 2 ^ 32 * y) with (y * 2 ^ n * 2 ^ (32 - n) + x) by (rewrite Hp; lia). rewrite Z.div_add_l by lia.
  rewrite Z.add_comm. rewrite (Z.mod_eq y (2 ^ (32 - n))) by lia.
  replace ((y - 2 ^ (32 - n) * (y / 2 ^ (32 - n))) * 2 ^ n + x / 2 ^ (32 - n)) with (y * 2 ^ n + x / 2 ^ (32 - n) + (- (y / 2 ^ (32 - n)) * 2 ^ 6) * 2 ^ 26)
    by (replace ((y - 2 ^ (32 - n) * (y / 2 ^ (32 - n))) * 2 ^ n) with (y * 2 ^ n - y / 2 ^ (32 - n) * (2 ^ n * 2 ^ (32 - n))) by ring; rewrite <- Hp; lia).
  apply Z_mod_plus_full.
Qed.

Lemma poly_init_spec k : 32 <= zlen k -> bytes_ok k ->
  let st := CRYPTO_poly1305_init k in acc st (rfc_r k) 0 /\ buf st = zrepeat 16 0 /\ buf_used st = 0 /\ key st = ztake 16 (zdrop 16 k).
Proof.
  intros Hl Hk. cbv zeta. split; [|done]. destruct (poly_words_16 (ztake 16 k)) as (t0 & t1 & t2 & t3 & (E0 & E1 & E2 & E3) & (B0 & B1 & B2 & B3) & EV);
    [rewrite length_ztake; lia|by apply bytes_ok_ztake|]. change (ztake 16 k) with (zdrop 0 (ztake 16 k)) in E0. rewrite ztake_4_16 in E0, E1, E2, E3 by lia.
  change (zdrop 0 k) with k in E0. unfold CRYPTO_poly1305_init. rewrite E0, E1, E2, E3.
  pose proof (limbs_of_words t0 t1 t2 t3 B0 B1 B2 B3) as L. rewrite <- EV in L.
  set (l0 := Z.land t0 mask26). set (l1 := Z.land _ 0x3ffff03). set (l2 := Z.land _ 0x3ffc0ff). set (l3 := Z.land _ 0x3f03fff). set (l4 := Z.land _ 0xfffff).
  assert (F0 : l0 = Z.land (t0 mod 2 ^ 26) 0x3ffffff) by (unfold l0, mask26; by rewrite land_mod26).
  assert (F1 : l1 = Z.land ((t0 + 2 ^ 32 * t1) / 2 ^ 26 mod 2 ^ 26) 0x3ffff03) by (unfold l1; rewrite land_mod26 by done; exact (f_equal (fun x => Z.land x 0x3ffff03) (word_limb t0 t1 6 B0 B1 ltac:(lia)))).
  assert (F2 : l2 = Z.land ((t1 + 2 ^ 32 * t2) / 2 ^ 20 mod 2 ^ 26) 0x3ffc0ff) by (unfold l2; rewrite land_mod26 by done; exact (f_equal (fun x => Z.land x 0x3ffc0ff) (word_limb t1 t2 12 B1 B2 ltac:(lia)))).
  assert (F3 : l3 = Z.land ((t2 + 2 ^ 32 * t3) / 2 ^ 14 mod 2 ^ 26) 0x3f03fff) by (unfold l3; rewrite land_mod26 by done; exact (f_equal (fun x => Z.land x 0x3f03fff) (word_limb t2 t3 18 B2 B3 ltac:(lia)))).
  assert (F4 : l4 = Z.land (t3 / 2 ^ 8) 0xfffff) by (unfold l4; by rewrite Z.shiftr_div_pow2).
  assert (Bm : forall x, is_u 26 (x mod 2 ^ 26)) by (intros x; by apply Z.mod_pos_bound).
  assert (B4 : 0 <= t3 / 2 ^ 8) by (apply Z.div_pos; [apply B3|lia]).
  assert (R : rfc_r k = limbs_val l0 l1 l2 l3 l4).
  { unfold rfc_r. rewrite <- L, F0, F1, F2, F3, F4. change 0x0ffffffc0ffffffc0ffffffc0fffffff with (limbs_val 0x3ffffff 0x3ffff03 0x3ffc0ff 0x3f03fff 0xfffff).
    rewrite !limbs_nested, !land_limb by (done || apply Bm). reflexivity. }
  clearbody l0 l1 l2 l3 l4. pose proof (fun x => land_upper x) as U.
  assert (G0 : 0 <= l0 <= 0x3ffffff) by (rewrite F0; apply U; [apply Bm|lia]). assert (G1 : 0 <= l1 <= 0x3ffff03) by (rewrite F1; apply U; [apply Bm|lia]).
  assert (G2 : 0 <= l2 <= 0x3ffc0ff) by (rewrite F2; apply U; [apply Bm|lia]). assert (G3 : 0 <= l3 <= 0x3f03fff) by (rewrite F3; apply U; [apply Bm|lia]).
  assert (G4 : 0 <= l4 <= 0xfffff) by (rewrite F4; apply U; [exact B4|lia]).
  rewrite !u32_small by (unfold is_u; lia). split; [unfold key_ok; cbn [r0 r1 r2 r3 r4 s1 s2 s3 s4]; lia|].
  split; [unfold acc_ok, is_u, h0_max; cbn [h0 h1 h2 h3 h4]; lia|]. split; [by rewrite R|reflexivity].
Qed.

(** * Lemmas: the tag *)

(** The limbs after the carries: the first may be over by less than 5, if the value is
    small. *)
Definition final_ok (a b c d e : Z) : Prop :=
  is_u 26 b /\ is_u 26 c /\ is_u 26 d /\ is_u 26 e /\ 0 <= a /\ (a < 2 ^ 26 \/ a < 2 ^ 26 + 5 /\ limbs_val a b c d e < 2 ^ 32).

(** The carry of the last limb, and the first two limbs. *)
Lemma carry_lost v0 v1 v2 v3 v4 n0 n1 n2 n3 n4 c4 :
  limbs_val v0 v1 v2 v3 v4 = n0 + 2 ^ 26 * (n1 + 2 ^ 26 * (n2 + 2 ^ 26 * (n3 + 2 ^ 26 * (n4 + 2 ^ 26 * c4)))) ->
  0 <= n0 < 2 ^ 26 -> 0 <= n1 < 2 ^ 26 -> 0 <= n2 < 2 ^ 26 -> 0 <= n3 < 2 ^ 26 -> 0 <= n4 < 2 ^ 26 -> c4 = 0 \/ c4 = 1 ->
  (2 ^ 26 <=? n0 + c4 * 5) && Z.odd n1 = lost_carry (limbs_val v0 v1 v2 v3 v4).
Proof.
  intros E B0 B1 B2 B3 B4 Hc. rewrite E. unfold lost_carry. set (q := n1 + 2 ^ 26 * (n2 + 2 ^ 26 * (n3 + 2 ^ 26 * (n4 + 2 ^ 26 * c4)))).
  assert (Em : (n0 + 2 ^ 26 * q) mod 2 ^ 26 = n0) by (symmetry; apply (Z.mod_unique_pos _ _ q); lia).
  assert (Eq : (n0 + 2 ^ 26 * q) / 2 ^ 26 = q) by (symmetry; apply (Z.div_unique_pos _ _ _ n0); lia). rewrite Em, Eq.
  assert (Ho : Z.odd q = Z.odd n1).
  { unfold q. replace (2 ^ 26 * (n2 + 2 ^ 26 * (n3 + 2 ^ 26 * (n4 + 2 ^ 26 * c4)))) with (2 * (2 ^ 25 * (n2 + 2 ^ 26 * (n3 + 2 ^ 26 * (n4 + 2 ^ 26 * c4))))) by lia.
    apply Z.odd_add_mul_2. }
  rewrite Ho. f_equal. subst q. destruct Hc as [-> | ->].
  - replace (2 ^ 26 <=? n0 + 0 * 5) with false by lia. symmetry. apply andb_false_intro1. lia.
  - replace (2 ^ 130 <=? _) with true by lia. cbn [andb]. lia.
Qed.

(** Such a sum is one of the few. *)
Lemma lost_carry_may st : acc_ok st -> lost_carry (h_val st) = true -> may_lose_carry (h_val st mod prime1305) = true.
Proof.
  unfold acc_ok, h_val, is_u, h0_max, lost_carry. generalize (h0 st), (h1 st), (h2 st), (h3 st), (h4 st). intros v0 v1 v2 v3 v4 (H0 & H1 & H2 & H3 & H4) H.
  set (h := limbs_val v0 v1 v2 v3 v4) in *. assert (Hh : h <= 2 ^ 130 + 2810000000) by (unfold h, limbs_val; lia). clearbody h.
  apply andb_prop in H as [H Ho]. apply andb_prop in H as [Hb Hm]. destruct (pow2_div h 26 ltac:(lia)) as [D B].
  apply Z.odd_spec in Ho as [q Hq]. set (n := h mod 2 ^ 26) in *. set (d := h / 2 ^ 26) in *. clearbody n d. subst d.
  assert (Ep : h mod prime1305 = h - prime1305) by (symmetry; apply (Z.mod_unique_pos _ _ 1); unfold prime1305; lia).
  rewrite Ep. unfold may_lose_carry, prime1305.
  assert (E1 : (h - (2 ^ 130 - 5)) / 2 ^ 26 = 2 * (q + 1 - 2 ^ 103)) by (symmetry; apply (Z.div_unique_pos _ _ _ (n + 5 - 2 ^ 26)); lia).
  assert (E2 : (h - (2 ^ 130 - 5)) mod 2 ^ 26 = n + 5 - 2 ^ 26) by (symmetry; apply (Z.mod_unique_pos _ _ (2 * (q + 1 - 2 ^ 103))); lia).
  rewrite E1, E2, Z.even_even. repeat (apply andb_true_intro; split); lia || done.
Qed.

Lemma carry_limbs_spec st : acc_ok st -> exists a b c d e, carry_limbs st = set_limbs st a b c d e /\ final_ok a b c d e /\
  limbs_val a b c d e mod prime1305 = h_val st mod prime1305 /\ (2 ^ 26 <=? a) && Z.odd b = lost_carry (h_val st).
Proof.
  unfold acc_ok, carry_limbs, h_val, is_u, h0_max. generalize (h0 st), (h1 st), (h2 st), (h3 st), (h4 st). intros v0 v1 v2 v3 v4 (H0 & H1 & H2 & H3 & H4).
  rewrite !mask26_mod. assert (Hd : forall x, Z.shiftr x 26 = x / 2 ^ 26) by (intros x; by apply Z.shiftr_div_pow2). rewrite !Hd.
  destruct (pow2_div v0 26 ltac:(lia)) as [D0 B0]. generalize dependent (v0 mod 2 ^ 26). generalize dependent (v0 / 2 ^ 26). intros c0 n0 D0 B0.
  rewrite (u32_small (v1 + c0)) by (unfold is_u; lia). destruct (pow2_div (v1 + c0) 26 ltac:(lia)) as [D1 B1].
  generalize dependent ((v1 + c0) mod 2 ^ 26). generalize dependent ((v1 + c0) / 2 ^ 26). intros c1 n1 D1 B1.
  rewrite (u32_small (v2 + c1)) by (unfold is_u; lia). destruct (pow2_div (v2 + c1) 26 ltac:(lia)) as [D2 B2].
  generalize dependent ((v2 + c1) mod 2 ^ 26). generalize dependent ((v2 + c1) / 2 ^ 26). intros c2 n2 D2 B2.
  rewrite (u32_small (v3 + c2)) by (unfold is_u; lia). destruct (pow2_div (v3 + c2) 26 ltac:(lia)) as [D3 B3].
  generalize dependent ((v3 + c2) mod 2 ^ 26). generalize dependent ((v3 + c2) / 2 ^ 26). intros c3 n3 D3 B3.
  rewrite (u32_small (v4 + c3)) by (unfold is_u; lia). destruct (pow2_div (v4 + c3) 26 ltac:(lia)) as [D4 B4].
  generalize dependent ((v4 + c3) mod 2 ^ 26). generalize dependent ((v4 + c3) / 2 ^ 26). intros c4 n4 D4 B4.
  assert (Hc : c4 = 0 \/ c4 = 1) by lia. rewrite (u32_small (c4 * 5)), (u32_small (n0 + c4 * 5)) by (unfold is_u; lia).
  exists (n0 + c4 * 5), n1, n2, n3, n4. split; [reflexivity|]. split; [unfold final_ok, limbs_val, is_u; lia|].
  split; [|exact (carry_lost v0 v1 v2 v3 v4 n0 n1 n2 n3 n4 c4 ltac:(unfold limbs_val; lia) B0 B1 B2 B3 B4 Hc)].
  rewrite <- (Z_mod_plus_full (limbs_val (n0 + c4 * 5) n1 n2 n3 n4) c4 prime1305). f_equal. unfold limbs_val, prime1305. lia.
Qed.

Lemma pick_first h g : is_u 32 h -> Z.lor (Z.land h (u32 (Z.lnot (u32 (1 - 1))))) (Z.land g (u32 (1 - 1))) = h.
Proof. intros Hh. change (u32 (1 - 1)) with 0. change (u32 (Z.lnot 0)) with (Z.ones 32). rewrite Z.land_0_r, Z.lor_0_r, Z.land_ones by lia. by apply Z.mod_small. Qed.

Lemma pick_second h g : is_u 32 g -> Z.lor (Z.land h (u32 (Z.lnot (u32 (0 - 1))))) (Z.land g (u32 (0 - 1))) = g.
Proof. intros Hg. change (u32 (0 - 1)) with (Z.ones 32). change (u32 (Z.lnot (Z.ones 32))) with 0. rewrite Z.land_0_r, Z.lor_0_l, Z.land_ones by lia. by apply Z.mod_small. Qed.

Lemma reduce_limbs_spec st : final_ok (h0 st) (h1 st) (h2 st) (h3 st) (h4 st) ->
  exists a b c d e, reduce_limbs st = set_limbs st a b c d e /\ final_ok a b c d e /\ limbs_val a b c d e = h_val st mod prime1305 /\
    (2 ^ 26 <=? a) && Z.odd b = (2 ^ 26 <=? h0 st) && Z.odd (h1 st).
Proof.
  unfold final_ok, reduce_limbs, h_val, is_u. generalize (h0 st), (h1 st), (h2 st), (h3 st), (h4 st). intros v0 v1 v2 v3 v4 (H1 & H2 & H3 & H4 & H0 & Hv).
  rewrite !mask26_mod. rewrite !(Z.shiftr_div_pow2 _ 26) by lia. unfold limbs_val in Hv.
  rewrite (u32_small (v0 + 5)) by (unfold is_u; lia). destruct (pow2_div (v0 + 5) 26 ltac:(lia)) as [D0 B0].
  generalize dependent ((v0 + 5) mod 2 ^ 26). generalize dependent ((v0 + 5) / 2 ^ 26). intros c0 n0 D0 B0.
  rewrite (u32_small (v1 + c0)) by (unfold is_u; lia). destruct (pow2_div (v1 + c0) 26 ltac:(lia)) as [D1 B1].
  generalize dependent ((v1 + c0) mod 2 ^ 26). generalize dependent ((v1 + c0) / 2 ^ 26). intros c1 n1 D1 B1.
  rewrite (u32_small (v2 + c1)) by (unfold is_u; lia). destruct (pow2_div (v2 + c1) 26 ltac:(lia)) as [D2 B2].
  generalize dependent ((v2 + c1) mod 2 ^ 26). generalize dependent ((v2 + c1) / 2 ^ 26). intros c2 n2 D2 B2.
  rewrite (u32_small (v3 + c2)) by (unfold is_u; lia). destruct (pow2_div (v3 + c2) 26 ltac:(lia)) as [D3 B3].
  generalize dependent ((v3 + c2) mod 2 ^ 26). generalize dependent ((v3 + c2) / 2 ^ 26). intros c3 n3 D3 B3.
  change (Z.shiftl 1 26) with (2 ^ 26). destruct (Z_lt_le_dec (v4 + c3) (2 ^ 26)) as [Hlt|Hge].
  - assert (E4 : Z.shiftr (u32 (v4 + c3 - 2 ^ 26)) 31 = 1).
    { assert (0 <= v4 + c3) by lia. rewrite u32_mod, Z.shiftr_div_pow2 by lia.
      rewrite <- (Z.mod_unique (v4 + c3 - 2 ^ 26) 4294967296 (-1) (v4 + c3 - 2 ^ 26 + 2 ^ 32)) by lia.
      symmetry. apply (Z.div_unique_pos _ _ _ (v4 + c3 - 2 ^ 26 + 2 ^ 31)); lia. }
    rewrite E4, !pick_first by (unfold is_u; lia). exists v0, v1, v2, v3, v4. split; [reflexivity|]. split; [unfold final_ok, is_u, limbs_val; lia|].
    split; [|reflexivity]. symmetry. apply Z.mod_small. unfold limbs_val, prime1305. lia.
  - rewrite (u32_small (v4 + c3 - 2 ^ 26)) by (unfold is_u; lia). assert (E4 : Z.shiftr (v4 + c3 - 2 ^ 26) 31 = 0).
    { rewrite Z.shiftr_div_pow2 by lia. apply Z.div_small. lia. }
    rewrite E4, !pick_second by (unfold is_u; lia). exists n0, n1, n2, n3, (v4 + c3 - 2 ^ 26). split; [reflexivity|].
    split; [unfold final_ok, is_u, limbs_val; lia|]. split; [apply (Z.mod_unique _ _ 1); unfold limbs_val, prime1305; lia|].
    replace (2 ^ 26 <=? n0) with false by lia. by replace (2 ^ 26 <=? v0) with false by lia.
Qed.

Lemma le_bytes_words n x y : le_bytes (4 + n) (x + 2 ^ 32 * y) = le_bytes 4 x ++ le_bytes n (x / 2 ^ 32 + y).
Proof.
  rewrite le_bytes_app. change (256 ^ Z.of_nat 4) with (2 ^ 32). replace (x + 2 ^ 32 * y) with (x + y * 2 ^ 32) by lia. rewrite Z.div_add by lia. f_equal.
  assert (H : forall z, le_bytes 4 z = le_bytes 4 (z mod 2 ^ 32)).
  { intros z. rewrite <- (rev_involutive (le_bytes 4 z)), <- (rev_involutive (le_bytes 4 (z mod 2 ^ 32))). f_equal. symmetry. apply (be_bytes_mod 4 z). }
  rewrite H, (H x). by rewrite Z_mod_plus_full.
Qed.

(** The first word of the limbs: the bit they share is lost. *)
Lemma first_word a b c d e : final_ok a b c d e ->
  Z.lor a (u32 (Z.shiftl b 26)) = a + b mod 2 ^ 6 * 2 ^ 26 - (if (2 ^ 26 <=? a) && Z.odd b then 2 ^ 26 else 0).
Proof.
  unfold final_ok, is_u. intros (Hb & Hc & Hd & He & Ha & Hs). destruct (Z_lt_le_dec a (2 ^ 26)) as [H26|H26].
  { replace (2 ^ 26 <=? a) with false by lia. cbn [andb]. rewrite Z.sub_0_r. by apply lor_shl_u32. }
  assert (Hv : a < 2 ^ 26 + 5 /\ limbs_val a b c d e < 2 ^ 32) by lia. destruct Hv as [Ha5 Hv]. unfold limbs_val in Hv.
  assert (Hb6 : 0 <= b < 2 ^ 6) by lia. replace (2 ^ 26 <=? a) with true by lia. cbn [andb].
  destruct (Z.odd b) eqn:Eo.
  - apply Z.odd_spec in Eo as [q ->]. rewrite (Z.mod_small (2 * q + 1)) by lia.
    assert (Ea : Z.lor (Z.shiftl 1 26) (a - 2 ^ 26) = a) by (rewrite lor_shiftl_add by (unfold is_u; lia); lia).
    assert (Eb : Z.lor (Z.shiftl q 27) (Z.shiftl 1 26) = u32 (Z.shiftl (2 * q + 1) 26)).
    { rewrite lor_shiftl_add by (unfold is_u; change (Z.shiftl 1 26) with (2 ^ 26); lia). rewrite !Z.shiftl_mul_pow2, u32_small by (unfold is_u; lia). lia. }
    rewrite <- Eb, <- Ea at 1. rewrite Z.lor_comm, <- Z.lor_assoc, (Z.lor_assoc (Z.shiftl 1 26)), Z.lor_diag, Z.lor_assoc, Eb.
    rewrite u32_small by (unfold is_u; rewrite Z.shiftl_mul_pow2 by lia; lia). rewrite lor_shiftl_add by (unfold is_u; lia). lia.
  - apply (f_equal negb) in Eo. rewrite Z.negb_odd in Eo. apply Z.even_spec in Eo as [q ->].
    replace (Z.shiftl (2 * q) 26) with (Z.shiftl q 27) by (rewrite !Z.shiftl_mul_pow2 by lia; lia).
    rewrite lor_shl_u32 by (unfold is_u; lia). rewrite !Z.mod_small by lia. lia.
Qed.

Lemma next_word x y n : is_u 26 x -> 0 <= n <= 26 -> Z.lor (Z.shiftr x (26 - n)) (u32 (Z.shiftl y n)) = x / 2 ^ (26 - n) + y mod 2 ^ (32 - n) * 2 ^ n.
Proof.
  intros [Hx0 Hx] Hn. assert (Hp : 2 ^ 26 = 2 ^ (26 - n) * 2 ^ n) by (rewrite <- Z.pow_add_r by lia; f_equal; lia).
  pose proof (Z.pow_pos_nonneg 2 (26 - n)). rewrite Z.shiftr_div_pow2 by lia. apply lor_shl_u32; [lia|].
  split; [apply Z.div_pos; lia|]. apply Z.div_lt_upper_bound; lia.
Qed.

(** Four sums of words with their carries are the bytes of the sum. *)
Lemma sum_words w0 w1 w2 w3 k0 k1 k2 k3 z :
  is_u 32 w0 -> is_u 32 w1 -> is_u 32 w2 -> is_u 32 w3 -> is_u 32 k0 -> is_u 32 k1 -> is_u 32 k2 -> is_u 32 k3 ->
  (let f0 := u64 (w0 + k0) in
   let f1 := u64 (w1 + k1) in
   let f2 := u64 (w2 + k2) in
   let f3 := u64 (w3 + k3) in
   let m0 := U32TO8_LE f0 in
   let f1 := u64 (f1 + Z.shiftr f0 32) in
   let m1 := U32TO8_LE f1 in
   let f2 := u64 (f2 + Z.shiftr f1 32) in
   let m2 := U32TO8_LE f2 in
   let f3 := u64 (f3 + Z.shiftr f2 32) in
   m0 ++ m1 ++ m2 ++ U32TO8_LE f3) =
  le_bytes 16 (w0 + 2 ^ 32 * w1 + 2 ^ 64 * w2 + 2 ^ 96 * w3 + 2 ^ 128 * z + (k0 + 2 ^ 32 * k1 + 2 ^ 64 * k2 + 2 ^ 96 * k3)).
Proof.
  unfold is_u. intros H0 H1 H2 H3 G0 G1 G2 G3. cbv zeta.
  assert (Hm : forall v, U32TO8_LE v = le_bytes 4 v).
  { intros v. unfold U32TO8_LE. rewrite u32_mod. pose proof (le_bytes_words 0 (v mod 2 ^ 32) (v / 2 ^ 32)) as H. cbn [Nat.add le_bytes] in H.
    rewrite app_nil_r, Z.add_comm, <- Z.div_mod in H by lia. exact (eq_sym H). }
  rewrite !Hm, !Z.shiftr_div_pow2 by lia.
  rewrite (u64_small (w0 + k0)), (u64_small (w1 + k1)), (u64_small (w2 + k2)), (u64_small (w3 + k3)) by (unfold is_u; lia).
  assert (B0 : 0 <= (w0 + k0) / 2 ^ 32 <= 1) by (Z.to_euclidean_division_equations; lia).
  assert (E : w0 + 2 ^ 32 * w1 + 2 ^ 64 * w2 + 2 ^ 96 * w3 + 2 ^ 128 * z + (k0 + 2 ^ 32 * k1 + 2 ^ 64 * k2 + 2 ^ 96 * k3) =
    (w0 + k0) + 2 ^ 32 * ((w1 + k1) + 2 ^ 32 * ((w2 + k2) + 2 ^ 32 * ((w3 + k3) + 2 ^ 32 * z)))) by lia.
  rewrite E. clear E. rewrite (le_bytes_words 12), (Z.add_assoc ((w0 + k0) / 2 ^ 32)), (Z.add_comm ((w0 + k0) / 2 ^ 32)).
  generalize dependent ((w0 + k0) / 2 ^ 32). intros c0 B0. rewrite (u64_small (w1 + k1 + c0)) by (unfold is_u; lia).
  assert (B1 : 0 <= (w1 + k1 + c0) / 2 ^ 32 <= 1) by (Z.to_euclidean_division_equations; lia).
  rewrite (le_bytes_words 8 (w1 + k1 + c0)), (Z.add_assoc ((w1 + k1 + c0) / 2 ^ 32)), (Z.add_comm ((w1 + k1 + c0) / 2 ^ 32)).
  generalize dependent ((w1 + k1 + c0) / 2 ^ 32). intros c1 B1. rewrite (u64_small (w2 + k2 + c1)) by (unfold is_u; lia).
  assert (B2 : 0 <= (w2 + k2 + c1) / 2 ^ 32 <= 1) by (Z.to_euclidean_division_equations; lia).
  rewrite (le_bytes_words 4 (w2 + k2 + c1)), (Z.add_assoc ((w2 + k2 + c1) / 2 ^ 32)), (Z.add_comm ((w2 + k2 + c1) / 2 ^ 32)).
  generalize dependent ((w2 + k2 + c1) / 2 ^ 32). intros c2 B2. rewrite (u64_small (w3 + k3 + c2)) by (unfold is_u; lia).
  pose proof (le_bytes_words 0 (w3 + k3 + c2) z) as H. cbn [Nat.add] in H. rewrite H. cbn [le_bytes]. by rewrite app_nil_r.
Qed.

Lemma tag_words_spec st : final_ok (h0 st) (h1 st) (h2 st) (h3 st) (h4 st) -> zlen (key st) = 16 -> bytes_ok (key st) ->
  tag_words st = le_bytes 16 (h_val st - (if (2 ^ 26 <=? h0 st) && Z.odd (h1 st) then 2 ^ 26 else 0) + le_val (key st)).
Proof.
  intros Hf Hk Hb. destruct (poly_words_16 (key st) Hk Hb) as (k0 & k1 & k2 & k3 & (E0 & E1 & E2 & E3) & (B0 & B1 & B2 & B3) & ->).
  unfold tag_words. rewrite E0, E1, E2, E3. rewrite (first_word _ _ _ _ _ Hf). unfold h_val. clear E0 E1 E2 E3.
  destruct Hf as (H1 & H2 & H3 & H4 & H0 & Hv). revert Hv H0 H1 H2 H3 H4. generalize (h0 st), (h1 st), (h2 st), (h3 st), (h4 st). intros v0 v1 v2 v3 v4 Hv H0 H1 H2 H3 H4.
  assert (W1 : Z.lor (Z.shiftr v1 6) (u32 (Z.shiftl v2 20)) = v1 / 2 ^ 6 + v2 mod 2 ^ 12 * 2 ^ 20) by (apply (next_word v1 v2 20); [exact H1|lia]).
  assert (W2 : Z.lor (Z.shiftr v2 12) (u32 (Z.shiftl v3 14)) = v2 / 2 ^ 12 + v3 mod 2 ^ 18 * 2 ^ 14) by (apply (next_word v2 v3 14); [exact H2|lia]).
  assert (W3 : Z.lor (Z.shiftr v3 18) (u32 (Z.shiftl v4 8)) = v3 / 2 ^ 18 + v4 mod 2 ^ 24 * 2 ^ 8) by (apply (next_word v3 v4 8); [exact H3|lia]).
  rewrite W1, W2, W3. clear W1 W2 W3.
  assert (Hx : exists x, (if (2 ^ 26 <=? v0) && Z.odd v1 then 2 ^ 26 else 0) = x /\ 0 <= x <= v0 /\ (x = 0 \/ x = 2 ^ 26)).
  { eexists. split; [reflexivity|]. destruct (Z.leb_spec (2 ^ 26) v0), (Z.odd v1); cbn [andb]; lia. }
  destruct Hx as (x & -> & Hx & Hx2). unfold is_u in *. unfold limbs_val in *.
  destruct (pow2_div v1 6 ltac:(lia)) as [D1 C1]. destruct (pow2_div v2 12 ltac:(lia)) as [D2 C2]. destruct (pow2_div v3 18 ltac:(lia)) as [D3 C3]. destruct (pow2_div v4 24 ltac:(lia)) as [D4 C4].
  generalize dependent (v1 / 2 ^ 6). generalize dependent (v1 mod 2 ^ 6). generalize dependent (v2 / 2 ^ 12). generalize dependent (v2 mod 2 ^ 12).
  generalize dependent (v3 / 2 ^ 18). generalize dependent (v3 mod 2 ^ 18). generalize dependent (v4 / 2 ^ 24). generalize dependent (v4 mod 2 ^ 24).
  intros a4 C4 b4 D4 a3 C3 b3 D3 a2 C2 b2 D2 a1 C1 b1 D1.
  etransitivity; [apply (sum_words _ _ _ _ k0 k1 k2 k3 b4); unfold is_u; lia|]. f_equal. lia.
Qed.

(** The end of [CRYPTO_poly1305_finish]. *)
Lemma finish_limbs st : acc_ok st -> zlen (key st) = 16 -> bytes_ok (key st) ->
  tag_words (reduce_limbs (carry_limbs st)) =
    le_bytes 16 (h_val st mod prime1305 - (if lost_carry (h_val st) then 2 ^ 26 else 0) + le_val (key st)).
Proof.
  intros Hok Hk Hb. destruct (carry_limbs_spec st Hok) as (a & b & c & d & e & -> & Hfin & Hval & Hlost).
  destruct (reduce_limbs_spec (set_limbs st a b c d e) Hfin) as (a' & b' & c' & d' & e' & -> & Hfin' & Hval' & Hlost').
  rewrite tag_words_spec by done. change (key (set_limbs _ _ _ _ _ _)) with (key st).
  change (h_val (set_limbs _ a' b' c' d' e')) with (limbs_val a' b' c' d' e').
  change (h0 (set_limbs _ a' b' c' d' e')) with a'. change (h1 (set_limbs _ a' b' c' d' e')) with b'.
  change (h_val (set_limbs st a b c d e)) with (limbs_val a b c d e) in Hval'.
  change (h0 (set_limbs st a b c d e)) with a in Hlost'. change (h1 (set_limbs st a b c d e)) with b in Hlost'.
  by rewrite Hlost', Hlost, Hval', Hval.
Qed.

(** * Lemmas: a message in pieces *)

Section Stream.
Variable k : bytes.

(** [st] has absorbed [msg]: its whole blocks are in the accumulator, the rest is in the
    buffer. *)
Definition absorbed (msg : bytes) (st : poly1305_state_st) : Prop :=
  exists q full tail, msg = full ++ tail /\ zlen full = 16 * Z.of_nat q /\ zlen tail < 16 /\
    acc st (rfc_r k) (rfc_acc q (rfc_r k) 0 full) /\
    buf_used st = zlen tail /\ zlen (buf st) = 16 /\ bytes_ok (buf st) /\ ztake (zlen tail) (buf st) = tail /\ key st = ztake 16 (zdrop 16 k).

Lemma acc_set_buf st b u r a : acc st r a -> acc (set_buf st b u) r a.
Proof. intros H. exact H. Qed.

Lemma rfc_acc_more st st' q n full data : zlen full = 16 * Z.of_nat q ->
  acc st (rfc_r k) (rfc_acc q (rfc_r k) 0 full) -> acc st' (rfc_r k) (rfc_acc n (rfc_r k) (rfc_acc q (rfc_r k) 0 full) data) ->
  acc st' (rfc_r k) (rfc_acc (q + n) (rfc_r k) 0 (full ++ data)).
Proof. intros Hl _ H. by rewrite rfc_acc_app. Qed.

Lemma rfc_acc_prefix n r x y a : zlen x = 16 * Z.of_nat n -> rfc_acc n r a (x ++ y) = rfc_acc n r a x.
Proof. intros Hl. rewrite <- (Nat.add_0_r n) at 1. by rewrite rfc_acc_app. Qed.

Lemma zsplice_0 {A} (l v : list A) : zlen v <= zlen l -> ztake (zlen v) (zsplice l 0 v) = v /\ zlen (zsplice l 0 v) = zlen l.
Proof.
  intros Hl. split; [unfold zsplice; rewrite (ztake_0 0), app_nil_l by lia; by apply ztake_app|]. by rewrite length_zsplice by lia.
Qed.

Lemma zsplice_bytes_ok l i v : bytes_ok l -> bytes_ok v -> bytes_ok (zsplice l i v).
Proof. intros Hl Hv. unfold zsplice. rewrite !bytes_ok_app. split_and!; [by apply bytes_ok_ztake|done|by apply bytes_ok_zdrop]. Qed.

(** The part of [CRYPTO_poly1305_update] after the first [if], when the buffer is empty. *)
Lemma update_rest msg st inp : absorbed msg st -> buf_used st = 0 -> bytes_ok inp ->
  exists st', ('(st, inp) ← (if zlen inp >=? 16 then
      let todo := Z.ldiff (zlen inp) 0xf in
      st ← poly1305_update st inp todo;
      Some (st, zdrop todo inp)
    else Some (st, inp));
    Some (if zlen inp =? 0 then st else set_buf st (zsplice (buf st) 0 inp) (zlen inp))) = Some st' /\ absorbed (msg ++ inp) st'.
Proof.
  intros (q & full & tail & -> & Hf & Ht & Ha & Hu & Hlb & Hbb & Htb & Hky) H0 Hb. rewrite H0 in Hu.
  assert (tail = []) as -> by (destruct tail; [done|cbn [length] in Hu; lia]). rewrite app_nil_r.
  assert (Hst : exists n st' rest, inp = ztake (16 * Z.of_nat n) inp ++ rest /\ zlen rest < 16 /\ zlen (ztake (16 * Z.of_nat n) inp) = 16 * Z.of_nat n /\
    (if zlen inp >=? 16 then
      let todo := Z.ldiff (zlen inp) 0xf in
      st ← poly1305_update st inp todo;
      Some (st, zdrop todo inp)
    else Some (st, inp)) = Some (st', rest) /\
    acc st' (rfc_r k) (rfc_acc n (rfc_r k) (rfc_acc q (rfc_r k) 0 full) (ztake (16 * Z.of_nat n) inp)) /\ same st st').
  { destruct (zlen inp >=? 16) eqn:E16; [|exists 0%nat, st, inp; rewrite ztake_0 by lia; by split_and!; try lia].
    assert (El : Z.ldiff (zlen inp) 0xf = 16 * (zlen inp / 16)).
    { change 0xf with (Z.ones 4). rewrite Z.ldiff_ones_r, Z.shiftl_mul_pow2, Z.shiftr_div_pow2 by lia. change (2 ^ 4) with 16. lia. }
    destruct (Z_of_nat_complete (zlen inp / 16 - 1)) as [n Hn]; [Z.to_euclidean_division_equations; lia|].
    assert (En : 16 * (zlen inp / 16) = 16 * Z.of_nat (S n)) by lia. cbv zeta. rewrite El, En. assert (Hi : 16 * Z.of_nat (S n) <= zlen inp < 16 * Z.of_nat (S n) + 16) by (rewrite <- En; Z.to_euclidean_division_equations; lia).
    destruct (update_blocks st inp n _ _ Ha ltac:(lia) Hb) as (st' & -> & Ha' & Hs). exists (S n), st', (zdrop (16 * Z.of_nat (S n)) inp).
    assert (Hzt : zlen (ztake (16 * Z.of_nat (S n)) inp) = 16 * Z.of_nat (S n)) by (rewrite length_ztake; lia).
    rewrite ztake_zdrop. split_and!; [done|rewrite length_zdrop; lia|done|done| |apply Hs..].
    rewrite <- (ztake_zdrop (16 * Z.of_nat (S n)) inp) in Ha' at 1. by rewrite rfc_acc_prefix in Ha'. }
  destruct Hst as (n & st' & rest & Ei & Hr & Hn & -> & Ha' & (Sb & Su & Sk)). cbn [mbind option_bind].
  eexists. split; [reflexivity|]. exists (q + n)%nat, (full ++ ztake (16 * Z.of_nat n) inp), rest.
  assert (Hrb : bytes_ok rest) by (rewrite Ei in Hb; by apply bytes_ok_app in Hb as [_ Hb]).
  rewrite <- app_assoc, <- Ei, length_app, rfc_acc_app by done.
  destruct (zlen rest =? 0) eqn:Er.
  - assert (rest = []) as -> by (apply Z.eqb_eq in Er; destruct rest; [done|cbn [length] in Er; lia]). rewrite Su, Sb, Sk. split_and!; try done; cbn [length]; lia.
  - destruct (zsplice_0 (buf st') rest) as [Z1 Z2]; [rewrite Sb; lia|]. cbn [buf buf_used key set_buf]. rewrite Z1, Z2, Sb, Sk.
    split_and!; try done; [lia|]. by apply zsplice_bytes_ok.
Qed.

Lemma CRYPTO_poly1305_update_spec msg st inp : absorbed msg st -> bytes_ok inp ->
  exists st', CRYPTO_poly1305_update st inp = Some st' /\ absorbed (msg ++ inp) st'.
Proof.
  intros Ha Hb. unfold CRYPTO_poly1305_update, fill_buf. destruct (buf_used st =? 0) eqn:Eu.
  { cbn [mbind option_bind]. apply update_rest; [done|lia|done]. }
  destruct Ha as (q & full & tail & -> & Hf & Ht & Ha & Hu & Hlb & Hbb & Htb & Hky). rewrite Hu in Eu |- *.
  set (todo := if _ >? zlen inp then zlen inp else _). assert (Htodo : todo = Z.min (16 - zlen tail) (zlen inp)) by (unfold todo; destruct (Z.gtb_spec (16 - zlen tail) (zlen inp)); lia).
  clearbody todo. set (b := zsplice (buf st) (zlen tail) (ztake todo inp)).
  assert (Hlt : zlen (ztake todo inp) = todo) by (rewrite length_ztake; lia).
  assert (Hb1 : zlen b = 16) by (unfold b; rewrite length_zsplice; lia).
  assert (Hb2 : bytes_ok b) by (apply zsplice_bytes_ok; [done|by apply bytes_ok_ztake]).
  assert (Hb3 : ztake (zlen tail + todo) b = tail ++ ztake todo inp).
  { unfold b, zsplice. rewrite Htb, app_assoc. apply ztake_app. rewrite length_app. lia. }
  cbn [buf_used buf set_buf]. destruct (zlen tail + todo =? 16) eqn:E16.
  - destruct (update_blocks (set_buf st b (zlen tail + todo)) b 0 (rfc_r k) _ (acc_set_buf _ _ _ _ _ Ha)) as (st' & Eup & Ha' & (Sb & Su & Sk)); [lia|done|].
    change (16 * Z.of_nat 1) with 16 in Eup. rewrite Eup. cbn [mbind option_bind].
    rewrite <- (ztake_all 16 b) in Ha' by lia. replace 16 with (zlen tail + todo) in Ha' at 1 by lia. rewrite Hb3 in Ha'.
    replace ((full ++ tail) ++ inp) with ((full ++ (tail ++ ztake todo inp)) ++ zdrop todo inp) by (by rewrite <- !app_assoc, ztake_zdrop).
    apply (update_rest (full ++ (tail ++ ztake todo inp))); [|done|by apply bytes_ok_zdrop].
    exists (q + 1)%nat, (full ++ (tail ++ ztake todo inp)), []. rewrite app_nil_r, !length_app. cbn [buf buf_used key set_buf]. rewrite Sb, Sk. cbn [buf buf_used key set_buf].
    split_and!; try done; try lia. rewrite rfc_acc_app by done. exact Ha'.
  - assert (Hi : todo = zlen inp) by lia. rewrite (zdrop_all todo inp) by lia. cbn [mbind option_bind]. change (zlen [] >=? 16) with false. cbn [mbind option_bind]. change (zlen [] =? 0) with true. cbv iota.
    eexists. split; [reflexivity|]. exists q, full, (tail ++ inp). rewrite length_app, <- app_assoc. cbn [buf buf_used key set_buf].
    rewrite (ztake_all todo inp) in Hb3 by lia. split_and!; try done; try lia. rewrite <- Hb3. f_equal. lia.
Qed.

Lemma poly_update_all_spec inputs : forall msg st, absorbed msg st -> Forall bytes_ok inputs ->
  exists st', update_all st inputs = Some st' /\ absorbed (msg ++ concat inputs) st'.
Proof.
  induction inputs as [|inp inputs IH]; intros msg st Ha Hb; cbn [update_all concat]; [exists st; by rewrite app_nil_r|].
  apply Forall_cons in Hb as [Hb1 Hb2]. destruct (CRYPTO_poly1305_update_spec msg st inp Ha Hb1) as (st1 & -> & Ha1). cbn [mbind option_bind].
  rewrite app_assoc. by apply IH.
Qed.

Lemma poly_init_absorbed : 32 <= zlen k -> bytes_ok k -> absorbed [] (CRYPTO_poly1305_init k).
Proof.
  intros Hl Hk. destruct (poly_init_spec k Hl Hk) as (Ha & Hb & Hu & Hky). exists 0%nat, [], []. rewrite Hb, Hu, Hky. split_and!; try done. by apply bytes_ok_zrepeat.
Qed.

(** The last block, if there is one. *)
Lemma last_block msg st : 32 <= zlen k -> bytes_ok k -> absorbed msg st ->
  exists st1, (if buf_used st =? 0 then Some st else poly1305_update st (buf st) (buf_used st)) = Some st1 /\
    acc st1 (rfc_r k) (rfc_sum k msg) /\ zlen (key st1) = 16 /\ bytes_ok (key st1) /\ le_val (key st1) = rfc_s k.
Proof.
  intros Hl Hk (q & full & tail & -> & Hf & Ht & Ha & Hu & Hlb & Hbb & Htb & Hky).
  assert (Hkk : forall st1, key st1 = key st -> zlen (key st1) = 16 /\ bytes_ok (key st1) /\ le_val (key st1) = rfc_s k).
  { intros st1 ->. rewrite Hky. split_and!; [rewrite length_ztake, length_zdrop; lia|by apply bytes_ok_ztake, bytes_ok_zdrop|done]. }
  unfold rfc_sum. rewrite length_app, Nat2Z.inj_add, Hf, Hu. destruct (zlen tail =? 0) eqn:E0.
  - assert (tail = []) as -> by (apply Z.eqb_eq in E0; destruct tail; [done|cbn [length] in E0; lia]). exists st. rewrite app_nil_r.
    split; [done|]. split; [|by apply Hkk].
    replace (Z.to_nat _) with q by (cbn [length]; Z.to_euclidean_division_equations; lia). exact Ha.
  - destruct (update_last st (buf st) (zlen tail) _ _ Ha ltac:(lia) ltac:(lia) Hbb) as (st1 & E & Ha1 & (_ & _ & Sk)). exists st1.
    split; [exact E|]. split; [|by apply Hkk].
    replace (Z.to_nat _) with (q + 1)%nat by (Z.to_euclidean_division_equations; lia). rewrite rfc_acc_app by done. cbn [rfc_acc].
    rewrite (ztake_all 16 tail) by lia. by rewrite Htb in Ha1.
Qed.

End Stream.

(** The accumulator when all has been absorbed, before the reduction in
    [CRYPTO_poly1305_finish]. *)
Definition final_acc (k : bytes) (inputs : list bytes) : option Z :=
  st ← update_all (CRYPTO_poly1305_init k) inputs;
  st ← (if buf_used st =? 0 then Some st else poly1305_update st (buf st) (buf_used st));
  Some (h_val st).

(** The tag, exactly. *)
Lemma poly1305_tag_exact k inputs : zlen k = 32 -> bytes_ok k -> Forall bytes_ok inputs ->
  exists h, final_acc k inputs = Some h /\ h mod prime1305 = rfc_sum k (concat inputs) /\
    (lost_carry h = true -> may_lose_carry (rfc_sum k (concat inputs)) = true) /\
    poly1305_tag k inputs = Some (le_bytes 16 (rfc_sum k (concat inputs) - (if lost_carry h then 2 ^ 26 else 0) + rfc_s k)).
Proof.
  intros Hl Hk Hi. destruct (poly_update_all_spec k inputs [] _ (poly_init_absorbed k ltac:(lia) Hk) Hi) as (st & E & Ha).
  cbn [app] in Ha. destruct (last_block k _ st ltac:(lia) Hk Ha) as (st1 & E1 & (_ & Hok & _ & Hv) & Hk1 & Hk2 & Hk3).
  exists (h_val st1). unfold final_acc, poly1305_tag, CRYPTO_poly1305_finish. rewrite E. cbn [mbind option_bind]. rewrite E1. cbn [mbind option_bind snd].
  rewrite finish_limbs, Hv, Hk3 by done. split; [done|]. split; [done|]. split; [|done]. rewrite <- Hv. by apply lost_carry_may.
Qed.

Lemma poly1305_tag_ok k inputs : zlen k = 32 -> bytes_ok k -> Forall bytes_ok inputs ->
  exists tag, poly1305_tag k inputs = Some tag /\ length tag = 16%nat /\ bytes_ok tag /\ mac_of k (concat inputs) tag.
Proof.
  intros Hl Hk Hi. destruct (poly1305_tag_exact k inputs Hl Hk Hi) as (h & _ & _ & Hm & ->). eexists. split; [reflexivity|].
  split; [done|]. split; [apply le_bytes_ok|]. unfold mac_of, rfc8439_mac, short_mac.
  destruct (lost_carry h); [right; auto|left]. by rewrite Z.sub_0_r.
Qed.

(** The tag of the RFC and the short one are different. *)
Lemma short_mac_ne x : le_bytes 16 (x - 2 ^ 26) <> le_bytes 16 x.
Proof.
  intros E. apply (f_equal le_val) in E. rewrite !le_val_le_bytes in E. change (256 ^ Z.of_nat 16) with (2 ^ 128) in E.
  pose proof (Z.div_mod (x - 2 ^ 26) (2 ^ 128)). pose proof (Z.div_mod x (2 ^ 128)). lia.
Qed.

(** * Properties *)

(** C21. Equivalence with RFC 8439: for every key and every message, in whatever pieces,
    the code returns a tag of 16 bytes, with no sum leaving its 32-bit or 64-bit word;
    and the tag is that of the RFC unless the sum modulo the prime is one of the few for
    which [may_lose_carry] holds, for which it may be that of a sum smaller by 2^26. *)
Theorem poly1305_tag_rfc8439 k inputs : zlen k = 32 -> bytes_ok k -> Forall bytes_ok inputs ->
  exists tag, poly1305_tag k inputs = Some tag /\ length tag = 16%nat /\ bytes_ok tag /\
    (may_lose_carry (rfc_sum k (concat inputs)) = false -> tag = rfc8439_mac k (concat inputs)) /\
    mac_of k (concat inputs) tag.
Proof.
  intros Hl Hk Hi. destruct (poly1305_tag_ok k inputs Hl Hk Hi) as (tag & E & H1 & H2 & H3). exists tag. split_and!; try done.
  intros Hm. destruct H3 as [H3|[H3 _]]; [done|]. by rewrite H3 in Hm.
Qed.

(** The key and the message of RFC 8439, section 2.5.2, the message in two pieces. *)
Definition sample_key : bytes := [0x85; 0xd6; 0xbe; 0x78; 0x57; 0x55; 0x6d; 0x33; 0x7f; 0x44; 0x52; 0xfe; 0x42; 0xd5; 0x06; 0xa8; 0x01; 0x03; 0x80; 0x8a; 0xfb; 0x0d; 0xb2; 0xfd; 0x4a; 0xbf; 0xf6; 0xaf; 0x41; 0x49; 0xf5; 0x1b].
Definition sample_message : bytes := [0x43; 0x72; 0x79; 0x70; 0x74; 0x6f; 0x67; 0x72; 0x61; 0x70; 0x68; 0x69; 0x63; 0x20; 0x46; 0x6f; 0x72; 0x75; 0x6d; 0x20; 0x52; 0x65; 0x73; 0x65; 0x61; 0x72; 0x63; 0x68; 0x20; 0x47; 0x72; 0x6f; 0x75; 0x70].

Lemma poly1305_tag_rfc8439_witness :
  let inputs := [ztake 7 sample_message; zdrop 7 sample_message] in
  exists tag, poly1305_tag sample_key inputs = Some tag /\ length tag = 16%nat /\ bytes_ok tag /\
    (may_lose_carry (rfc_sum sample_key (concat inputs)) = false -> tag = rfc8439_mac sample_key (concat inputs)) /\
    mac_of sample_key (concat inputs) tag.
Proof.
  assert (H : forall l, forallb (fun x => (0 <=? x) && (x <? 256)) l = true -> bytes_ok l).
  { intros l Hl. rewrite List.forallb_forall in Hl. apply List.Forall_forall. intros x Hx. apply Hl in Hx. unfold is_u. lia. }
  apply poly1305_tag_rfc8439; [reflexivity|by apply H|].
  apply Forall_cons_2; [by apply H|]. apply Forall_cons_2; [by apply H|]. constructor.
Defined.

(** The RFC's tag, and that the exception does not apply to it. *)
Example rfc8439_2_5_2 :
  may_lose_carry (rfc_sum sample_key sample_message) = false /\ poly1305_tag sample_key [sample_message] =
    Some [0xa8; 0x06; 0x1d; 0xc1; 0x30; 0x51; 0x36; 0xc6; 0xc2; 0x2b; 0x8b; 0xaf; 0x0c; 0x01; 0x27; 0xa9].
Proof. vm_compute. split; reflexivity. Qed.

(** C25. When the code is not RFC 8439, exactly. For every key and every message, in whatever
    pieces, the tag is that of the RFC if and only if the accumulator, as it is before the
    last reduction, does not satisfy [lost_carry]: it is at least 2^130, its first limb is at
    least 2^26 - 5 and its second limb is odd. Where it does, the carries of
    [CRYPTO_poly1305_finish] leave a first limb of 27 bits, which is joined to the second
    with [|], and the tag is that of a sum smaller by 2^26. *)
Theorem poly1305_lost_carry k inputs : zlen k = 32 -> bytes_ok k -> Forall bytes_ok inputs ->
  exists h tag, final_acc k inputs = Some h /\ poly1305_tag k inputs = Some tag /\
    h mod prime1305 = rfc_sum k (concat inputs) /\
    (tag = rfc8439_mac k (concat inputs) <-> lost_carry h = false) /\
    (lost_carry h = true -> tag = short_mac k (concat inputs)).
Proof.
  intros Hl Hk Hi. destruct (poly1305_tag_exact k inputs Hl Hk Hi) as (h & E & Hv & _ & ->). exists h. eexists. split; [exact E|].
  split; [reflexivity|]. split; [exact Hv|]. unfold rfc8439_mac, short_mac. destruct (lost_carry h); [|by rewrite Z.sub_0_r].
  split; [|done]. split; [|done]. intros Ht. exfalso. eapply short_mac_ne.
  rewrite <- Ht. f_equal. lia.
Qed.

(** A key and a message of one block whose carry is lost. *)
Definition lost_key : bytes :=
  [0x49; 0x65; 0x11; 0x3c; 0x22; 0xfe; 0xb8; 0x10; 0x35; 0x16; 0xb8; 0xb9; 0x35; 0xaf; 0x57; 0x0a] ++ zrepeat 16 0.
Definition lost_message : bytes :=
  [0xdc; 0x31; 0x3f; 0xef; 0x42; 0xc7; 0xe6; 0xa7; 0xc0; 0x14; 0xc6; 0xad; 0xad; 0x41; 0x5e; 0x0b].

Definition lost_acc : Z := Eval vm_compute in default 0 (final_acc lost_key [lost_message]).

Lemma poly1305_lost_carry_witness :
  (final_acc lost_key [lost_message] = Some lost_acc /\ lost_carry lost_acc = true) /\
  poly1305_tag lost_key [lost_message] = Some (4 :: 0 :: 0 :: 4 :: zrepeat 12 0) /\
  rfc8439_mac lost_key lost_message = 4 :: 0 :: 0 :: 8 :: zrepeat 12 0 /\
  exists h tag, final_acc lost_key [lost_message] = Some h /\ poly1305_tag lost_key [lost_message] = Some tag /\
    h mod prime1305 = rfc_sum lost_key (concat [lost_message]) /\
    (tag = rfc8439_mac lost_key (concat [lost_message]) <-> lost_carry h = false) /\
    (lost_carry h = true -> tag = short_mac lost_key (concat [lost_message])).
Proof.
  split; [split; vm_compute; reflexivity|]. split; [vm_compute; reflexivity|]. split; [vm_compute; reflexivity|].
  assert (H : forall l, forallb (fun x => (0 <=? x) && (x <? 256)) l = true -> bytes_ok l).
  { intros l Hl. rewrite List.forallb_forall in Hl. apply List.Forall_forall. intros x Hx. apply Hl in Hx. unfold is_u. lia. }
  apply (poly1305_lost_carry lost_key [lost_message]); [reflexivity|by apply H|].
  apply Forall_cons_2; [by apply H|constructor].
Defined.
