(* ===== verification/Chacha.v ===== *)
(** * ChaCha20

    Models the C code of src/bubble/Pods/BoringSSL/crypto/chacha/chacha.c, which the build
    compiles since it sets OPENSSL_NO_ASM. [in] and [out] are addresses in one memory, for
    the assert lets them be the same; the key and the nonce are read before anything is
    written. The specification is RFC 8439, section 2.3, with the state as a matrix whose
    diagonals are turned into columns. *)

From Stdlib Require Import ZArith Lia.
From stdpp Require Import base option list gmap.
From S2P Require Import Prelude Md32 ByteMem.

(** * The program *)

Definition U8TO32_LITTLE (p : bytes) : Z :=
  Z.lor (Z.lor (Z.lor (zget p 0) (u32 (Z.shiftl (zget p 1) 8))) (u32 (Z.shiftl (zget p 2) 16))) (u32 (Z.shiftl (zget p 3) 24)).

Definition sigma : bytes := [101; 120; 112; 97; 110; 100; 32; 51; 50; 45; 98; 121; 116; 101; 32; 107].

Definition ROTATE (v n : Z) : Z := Z.lor (u32 (Z.shiftl v n)) (Z.shiftr v (32 - n)).

Definition U32TO8_LITTLE (v : Z) : bytes :=
  [Z.land (Z.shiftr v 0) 0xff; Z.land (Z.shiftr v 8) 0xff; Z.land (Z.shiftr v 16) 0xff; Z.land (Z.shiftr v 24) 0xff].

Definition QUARTERROUND (a b c d : nat) (x : list Z) : list Z :=
  let g := fun (x : list Z) i => nth i x 0 in
  let x := <[a := u32 (g x a + g x b)]> x in let x := <[d := ROTATE (Z.lxor (g x d) (g x a)) 16]> x in
  let x := <[c := u32 (g x c + g x d)]> x in let x := <[b := ROTATE (Z.lxor (g x b) (g x c)) 12]> x in
  let x := <[a := u32 (g x a + g x b)]> x in let x := <[d := ROTATE (Z.lxor (g x d) (g x a)) 8]> x in
  let x := <[c := u32 (g x c + g x d)]> x in <[b := ROTATE (Z.lxor (g x b) (g x c)) 7]> x.

(** One iteration of the loop of [chacha_core]. *)
Definition chacha_rounds (x : list Z) : list Z :=
  let x := QUARTERROUND 0 4 8 12 x in
  let x := QUARTERROUND 1 5 9 13 x in
  let x := QUARTERROUND 2 6 10 14 x in
  let x := QUARTERROUND 3 7 11 15 x in
  let x := QUARTERROUND 0 5 10 15 x in
  let x := QUARTERROUND 1 6 11 12 x in
  let x := QUARTERROUND 2 7 8 13 x in
  QUARTERROUND 3 4 9 14 x.

Definition chacha_core (input : list Z) : bytes :=
  let x := Nat.iter 10 chacha_rounds input in (* for (i = 20; i > 0; i -= 2) *)
  let x := zip_with (fun a b => u32 (a + b)) x input in
  concat (map U32TO8_LITTLE x).

(** [for (i = 0; i < todo; i++) out[i] = in[i] ^ buf[i]] *)
Fixpoint chacha_xor (n : nat) (out inp : Z) (buf : bytes) (i : Z) : M mem unit :=
  match n with
  | O => sret tt
  | S n =>
      let* b := load_u 1 (inp + i) in
      store_u 1 (out + i) (Z.lxor b (zget buf i));;;
      chacha_xor n out inp buf (i + 1)
  end.

(** [while (in_len > 0)] *)
Fixpoint chacha_stream (fuel : nat) (out inp in_len : Z) (input : list Z) : M mem unit :=
  if negb (in_len >? 0) then sret tt
  else
    match fuel with
    | O => sstuck
    | S fuel =>
        let todo := 64 in
        let todo := if in_len <? todo then in_len else todo in
        let buf := chacha_core input in
        chacha_xor (Z.to_nat todo) out inp buf 0;;;
        chacha_stream fuel (out + todo) (inp + todo) (in_len - todo) (<[12%nat := u32 (nth 12 input 0 + 1)]> input)
    end.

(** [buffers_alias] of crypto/internal.h, for a memory that does not wrap. *)
Definition buffers_alias (a a_len b b_len : Z) : bool := (a + a_len >? b) && (b + b_len >? a).

Definition CRYPTO_chacha_20 (out inp in_len : Z) (key nonce : bytes) (counter : Z) : M mem unit :=
  if negb (negb (buffers_alias out in_len inp in_len) || (inp =? out)) then sstuck (* assert *)
  else
    let at_ (p : bytes) n := U8TO32_LITTLE (zdrop n p) in
    let input :=
      [at_ sigma 0; at_ sigma 4; at_ sigma 8; at_ sigma 12;
       at_ key 0; at_ key 4; at_ key 8; at_ key 12; at_ key 16; at_ key 20; at_ key 24; at_ key 28;
       counter; at_ nonce 0; at_ nonce 4; at_ nonce 8] in
    chacha_stream (Z.to_nat in_len) out inp in_len input.

(** * Specification: RFC 8439, sections 2.1 to 2.4 *)

Definition add32 (x y : Z) : Z := (x + y) mod 2 ^ 32.
(** [x <<< n], for a word [x]. *)
Definition roll32 (n x : Z) : Z := x * 2 ^ n mod 2 ^ 32 + x / 2 ^ (32 - n).

Definition rfc_quarter (q : list Z) : list Z :=
  match q with
  | [a; b; c; d] =>
      let a := add32 a b in let d := roll32 16 (Z.lxor d a) in
      let c := add32 c d in let b := roll32 12 (Z.lxor b c) in
      let a := add32 a b in let d := roll32 8 (Z.lxor d a) in
      let c := add32 c d in let b := roll32 7 (Z.lxor b c) in
      [a; b; c; d]
  | _ => []
  end.

(** The state as four rows, or as four columns. *)
Definition rows4 (x : list Z) : list (list Z) := [ztake 4 x; ztake 4 (zdrop 4 x); ztake 4 (zdrop 8 x); ztake 4 (zdrop 12 x)].
Definition transpose4 (m : list (list Z)) : list (list Z) := map (fun j => map (fun r => zget r j) m) [0; 1; 2; 3].
Definition turn (n : Z) (r : list Z) : list Z := zdrop n r ++ ztake n r.

Definition column_round (m : list (list Z)) : list (list Z) := transpose4 (map rfc_quarter (transpose4 m)).
(** Row [i] is turned by [i] places, so that the diagonals are columns, and back. *)
Definition diagonal_round (m : list (list Z)) : list (list Z) :=
  zip_with turn [0; 3; 2; 1] (column_round (zip_with turn [0; 1; 2; 3] m)).
Definition rfc_double_round (x : list Z) : list Z := concat (diagonal_round (column_round (rows4 x))).

Definition words_le (p : bytes) : list Z := map (fun i => le_val (ztake 4 (zdrop (4 * i) p))) (seqZ 0 (zlen p / 4)).

Definition rfc_state (key nonce : bytes) (counter : Z) : list Z := words_le (sigma ++ key ++ le_bytes 4 counter ++ nonce).
Definition rfc_block (key nonce : bytes) (counter : Z) : bytes :=
  let s := rfc_state key nonce counter in concat (map (le_bytes 4) (zip_with add32 (Nat.iter 10 rfc_double_round s) s)).

(** Byte [i] of the key stream from a counter, which has 32 bits. *)
Definition chacha_keystream (key nonce : bytes) (counter i : Z) : Z :=
  zget (rfc_block key nonce ((counter + i / 64) mod 2 ^ 32)) (i mod 64).

(** * Lemmas: the block function *)

Lemma U8TO32_LITTLE_val p : 4 <= zlen p -> bytes_ok p -> U8TO32_LITTLE p = le_val (ztake 4 p).
Proof. intros Hl Hp. exact (f_equal fst (HOST_c2l_le_val p Hl Hp)). Qed.

Lemma U32TO8_LITTLE_bytes v : U32TO8_LITTLE v = le_bytes 4 v.
Proof.
  unfold U32TO8_LITTLE. change 0xff with (Z.ones 8). rewrite !Z.land_ones, !Z.shiftr_div_pow2 by lia.
  cbn [le_bytes]. rewrite !Z.div_div by lia. rewrite Z.div_1_r. done.
Qed.

Lemma roll32_is_u n x : 0 <= n <= 32 -> is_u 32 x -> is_u 32 (roll32 n x) /\ ROTATE x n = roll32 n x.
Proof.
  intros Hn Hx. unfold ROTATE, roll32. assert (Hp : 2 ^ 32 = 2 ^ n * 2 ^ (32 - n)) by (rewrite <- Z.pow_add_r by lia; f_equal; lia).
  pose proof (Z.pow_pos_nonneg 2 n ltac:(lia)). pose proof (Z.pow_pos_nonneg 2 (32 - n) ltac:(lia)).
  assert (Hq : is_u n (x / 2 ^ (32 - n))) by (split; [apply Z.div_pos; unfold is_u in Hx; lia|apply Z.div_lt_upper_bound; [lia|]; unfold is_u in Hx; lia]).
  assert (Hm : x * 2 ^ n mod 2 ^ 32 = x mod 2 ^ (32 - n) * 2 ^ n) by (rewrite Hp, (Z.mul_comm (2 ^ n)); by rewrite Zmult_mod_distr_r).
  pose proof (Z.mod_pos_bound x (2 ^ (32 - n)) ltac:(lia)). split.
  - rewrite Hm. unfold is_u in *. rewrite Hp. nia.
  - rewrite u32_mod. change 4294967296 with (2 ^ 32). rewrite Z.shiftl_mul_pow2, Hm, Z.shiftr_div_pow2 by lia.
    rewrite <- (Z.shiftl_mul_pow2 _ n) by lia. rewrite lor_shiftl_add by (done || lia). by rewrite Z.shiftl_mul_pow2 by lia.
Qed.

Lemma add32_is_u x y : is_u 32 (add32 x y).
Proof. by apply Z.mod_pos_bound. Qed.

Lemma u32_add32 x y : u32 (x + y) = add32 x y.
Proof. by rewrite u32_mod. Qed.

(** The four words of a quarter round. *)
Definition quarter4 (a b c d : Z) : Z * Z * Z * Z :=
  let a := add32 a b in let d := roll32 16 (Z.lxor d a) in
  let c := add32 c d in let b := roll32 12 (Z.lxor b c) in
  let a := add32 a b in let d := roll32 8 (Z.lxor d a) in
  let c := add32 c d in let b := roll32 7 (Z.lxor b c) in (a, b, c, d).

Lemma quarter4_is_u a b c d : is_u 32 b -> is_u 32 d -> let '(a', b', c', d') := quarter4 a b c d in
  is_u 32 a' /\ is_u 32 b' /\ is_u 32 c' /\ is_u 32 d'.
Proof.
  intros Hb Hd. assert (R : forall n x y, 0 <= n <= 32 -> is_u 32 x -> is_u 32 y -> is_u 32 (roll32 n (Z.lxor x y))).
  { intros n x y Hn Hx Hy. apply roll32_is_u; [done|]. by apply lxor_is_u. }
  unfold quarter4. split_and!; repeat (apply R || apply add32_is_u || done || lia).
Qed.

(** The macro on the words [a], [b], [c], [d] of a state. *)
Definition put4 (i j k l : nat) (q : Z * Z * Z * Z) (x : list Z) : list Z :=
  let '(a, b, c, d) := q in <[i := a]> (<[j := b]> (<[k := c]> (<[l := d]> x))).

Definition words_ok (x : list Z) : Prop := length x = 16%nat /\ Forall (is_u 32) x.

Lemma nth_word x i : words_ok x -> is_u 32 (nth i x 0).
Proof.
  intros [_ H]. destruct (nth_in_or_default i x 0) as [Hin|E]; [|by rewrite E].
  rewrite List.Forall_forall in H. by apply H.
Qed.

Lemma words_16_cases x : words_ok x -> exists x0 x1 x2 x3 x4 x5 x6 x7 x8 x9 x10 x11 x12 x13 x14 x15,
  x = [x0; x1; x2; x3; x4; x5; x6; x7; x8; x9; x10; x11; x12; x13; x14; x15].
Proof. intros [H _]. do 16 (destruct x as [|? x]; [done|]). destruct x; [|done]. by do 16 eexists. Qed.

(** The same with the operations of the code. *)
Definition code4 (a b c d : Z) : Z * Z * Z * Z :=
  let a := u32 (a + b) in let d := ROTATE (Z.lxor d a) 16 in
  let c := u32 (c + d) in let b := ROTATE (Z.lxor b c) 12 in
  let a := u32 (a + b) in let d := ROTATE (Z.lxor d a) 8 in
  let c := u32 (c + d) in let b := ROTATE (Z.lxor b c) 7 in (a, b, c, d).

Lemma code4_quarter a b c d : is_u 32 b -> is_u 32 d -> code4 a b c d = quarter4 a b c d.
Proof.
  intros Hb Hd. unfold code4, quarter4. cbv zeta. rewrite !u32_add32.
  assert (R : forall n x y, 0 <= n <= 32 -> is_u 32 x -> is_u 32 y -> ROTATE (Z.lxor x y) n = roll32 n (Z.lxor x y) /\ is_u 32 (roll32 n (Z.lxor x y))).
  { intros n x y Hn Hx Hy. apply and_comm, roll32_is_u; [done|]. by apply lxor_is_u. }
  destruct (R 16 d (add32 a b) ltac:(lia) Hd (add32_is_u _ _)) as [-> Hd1]. set (d1 := roll32 16 _) in *.
  destruct (R 12 b (add32 c d1) ltac:(lia) Hb (add32_is_u _ _)) as [-> Hb1]. set (b1 := roll32 12 _) in *.
  destruct (R 8 d1 (add32 (add32 a b) b1) ltac:(lia) Hd1 (add32_is_u _ _)) as [-> Hd2]. set (d2 := roll32 8 _) in *.
  by destruct (R 7 b1 (add32 (add32 c d1) d2) ltac:(lia) Hb1 (add32_is_u _ _)) as [-> _].
Qed.

Lemma rfc_quarter_4 a b c d : rfc_quarter [a; b; c; d] = let '(a, b, c, d) := quarter4 a b c d in [a; b; c; d].
Proof. reflexivity. Qed.

(** One macro on an explicit state: the four words become variables on both sides. *)
Ltac quarter_step :=
  match goal with
  | |- context [QUARTERROUND ?i ?j ?k ?l (?h :: ?t)] =>
      let x := constr:(h :: t) in
      let a := eval cbn in (nth i x 0) in let b := eval cbn in (nth j x 0) in
      let c := eval cbn in (nth k x 0) in let d := eval cbn in (nth l x 0) in
      replace (QUARTERROUND i j k l x) with (put4 i j k l (code4 a b c d) x)
        by (cbv [QUARTERROUND put4 code4 nth insert list_insert]; reflexivity);
      rewrite (code4_quarter a b c d) by assumption;
      let H := fresh "H" in let E := fresh "Eq" in
      pose proof (quarter4_is_u a b c d ltac:(assumption) ltac:(assumption)) as H;
      destruct (quarter4 a b c d) as [[[? ?] ?] ?] eqn:E; destruct H as (? & ? & ? & ?);
      cbn [put4 insert list_insert]
  end.

Lemma column_round_16 x0 x1 x2 x3 x4 x5 x6 x7 x8 x9 x10 x11 x12 x13 x14 x15 :
  column_round [[x0; x1; x2; x3]; [x4; x5; x6; x7]; [x8; x9; x10; x11]; [x12; x13; x14; x15]] =
  transpose4 [rfc_quarter [x0; x4; x8; x12]; rfc_quarter [x1; x5; x9; x13]; rfc_quarter [x2; x6; x10; x14]; rfc_quarter [x3; x7; x11; x15]].
Proof. reflexivity. Qed.

Lemma chacha_rounds_spec x : words_ok x -> chacha_rounds x = rfc_double_round x /\ words_ok (chacha_rounds x).
Proof.
  intros Hx. destruct (words_16_cases x Hx) as (x0 & x1 & x2 & x3 & x4 & x5 & x6 & x7 & x8 & x9 & x10 & x11 & x12 & x13 & x14 & x15 & ->).
  destruct Hx as [_ Hx]. rewrite !Forall_cons in Hx. destruct Hx as (? & ? & ? & ? & ? & ? & ? & ? & ? & ? & ? & ? & ? & ? & ? & ? & _).
  unfold chacha_rounds. cbv zeta. do 8 quarter_step. split; [|split; [reflexivity|]; repeat apply Forall_cons_2; assumption || apply Forall_nil_2].
  unfold rfc_double_round, diagonal_round.
  change (rows4 _) with [[x0; x1; x2; x3]; [x4; x5; x6; x7]; [x8; x9; x10; x11]; [x12; x13; x14; x15]].
  rewrite column_round_16, !rfc_quarter_4, Eq, Eq0, Eq1, Eq2.
  lazymatch goal with |- context [column_round ?m] => let m' := eval cbv in m in change m with m' end.
  rewrite column_round_16, !rfc_quarter_4, Eq3, Eq4, Eq5, Eq6. reflexivity.
Qed.

Lemma iter_agree {A} (f g : A -> A) (P : A -> Prop) n x : (forall x, P x -> f x = g x /\ P (f x)) -> P x ->
  Nat.iter n f x = Nat.iter n g x /\ P (Nat.iter n f x).
Proof.
  intros H Hx. induction n as [|n [IH1 IH2]]; [by split|]. change (Nat.iter (S n) f x) with (f (Nat.iter n f x)).
  change (Nat.iter (S n) g x) with (g (Nat.iter n g x)). destruct (H _ IH2) as [E HP]. split; [|exact HP].
  by rewrite E, IH1.
Qed.

Lemma chacha_core_spec x : words_ok x -> chacha_core x = concat (map (le_bytes 4) (zip_with add32 (Nat.iter 10 rfc_double_round x) x)).
Proof.
  intros Hx. unfold chacha_core. destruct (iter_agree chacha_rounds rfc_double_round words_ok 10 x chacha_rounds_spec Hx) as [-> _]. f_equal.
  rewrite (map_ext _ _ U32TO8_LITTLE_bytes). f_equal. clear Hx. generalize (Nat.iter 10 rfc_double_round x). intros l. revert x.
  induction l as [|a l IH]; intros [|b x]; [done..|]. cbn [zip_with]. by rewrite IH, u32_add32.
Qed.

(** The words of the input. *)
Definition chacha_input (key nonce : bytes) (counter : Z) : list Z :=
  let at_ (p : bytes) n := U8TO32_LITTLE (zdrop n p) in
  [at_ sigma 0; at_ sigma 4; at_ sigma 8; at_ sigma 12;
   at_ key 0; at_ key 4; at_ key 8; at_ key 12; at_ key 16; at_ key 20; at_ key 24; at_ key 28;
   counter; at_ nonce 0; at_ nonce 4; at_ nonce 8].

Lemma length_zip {A B C} (f : A -> B -> C) l k : length l = length k -> length (zip_with f l k) = length k.
Proof. intros H. rewrite length_zip_with. lia. Qed.

Lemma at_is_u p n : bytes_ok p -> 0 <= n -> n + 4 <= zlen p -> U8TO32_LITTLE (zdrop n p) = le_val (ztake 4 (zdrop n p)) /\ is_u 32 (U8TO32_LITTLE (zdrop n p)).
Proof.
  intros Hp Hn Hl. assert (E : U8TO32_LITTLE (zdrop n p) = le_val (ztake 4 (zdrop n p))) by (apply U8TO32_LITTLE_val; [rewrite length_zdrop; lia|by apply bytes_ok_zdrop]).
  split; [exact E|]. rewrite E. pose proof (le_val_bound (ztake 4 (zdrop n p))) as H. rewrite length_ztake, length_zdrop in H.
  replace (Z.of_nat _) with 4 in H by lia. apply H, bytes_ok_ztake, bytes_ok_zdrop, Hp.
Qed.

Section Key.
Variables key nonce : bytes.
Hypothesis Hkey : zlen key = 32 /\ bytes_ok key.
Hypothesis Hnonce : zlen nonce = 12 /\ bytes_ok nonce.

Lemma chacha_input_ok counter : is_u 32 counter -> words_ok (chacha_input key nonce counter).
Proof using Hkey Hnonce key nonce.
  intros Hc. split; [reflexivity|]. unfold chacha_input. destruct Hkey as [Hk1 Hk2], Hnonce as [Hn1 Hn2].
  repeat (apply Forall_cons_2; [first [exact Hc|apply at_is_u; (assumption || lia)|vm_compute; by split]|]). apply Forall_nil_2.
Qed.

Lemma word_in_app p1 p2 p3 n : zlen p1 <= n -> n + 4 <= zlen p1 + zlen p2 -> bytes_ok p2 ->
  le_val (ztake 4 (zdrop n (p1 ++ p2 ++ p3))) = U8TO32_LITTLE (zdrop (n - zlen p1) p2).
Proof.
  intros Hn Hl Hp. destruct (at_is_u p2 (n - zlen p1) Hp ltac:(lia) ltac:(lia)) as [-> _].
  replace n with (zlen p1 + (n - zlen p1)) at 1 by lia. rewrite <- zdrop_zdrop, zdrop_app by lia. f_equal.
  unfold ztake, zdrop. rewrite drop_app_le by lia. rewrite take_app_le by (rewrite length_drop; lia). done.
Qed.

Lemma chacha_input_rfc counter : is_u 32 counter -> chacha_input key nonce counter = rfc_state key nonce counter.
Proof using Hkey Hnonce key nonce.
  intros Hc. destruct Hkey as [Hk1 Hk2], Hnonce as [Hn1 Hn2]. unfold rfc_state, words_le. rewrite !length_app, length_le_bytes.
  replace (Z.of_nat _) with 64 by (change (length sigma) with 16%nat; lia). change (seqZ 0 (64 / 4)) with [0; 1; 2; 3; 4; 5; 6; 7; 8; 9; 10; 11; 12; 13; 14; 15].
  cbn [map]. unfold chacha_input. cbv zeta.
  assert (Hs : forall n, n + 4 <= 16 -> 0 <= n -> le_val (ztake 4 (zdrop n (sigma ++ key ++ le_bytes 4 counter ++ nonce))) = U8TO32_LITTLE (zdrop n sigma)).
  { intros n H1 H2. assert (Hsg : bytes_ok sigma) by (vm_compute; repeat constructor; discriminate).
    pose proof (word_in_app [] sigma (key ++ le_bytes 4 counter ++ nonce) n ltac:(change (zlen []) with 0; lia) ltac:(change (zlen []) with 0; change (zlen sigma) with 16; lia) Hsg) as H.
    change (zlen []) with 0 in H. rewrite Z.sub_0_r in H. exact H. }
  assert (Hk : forall n, 16 <= n -> n + 4 <= 48 -> le_val (ztake 4 (zdrop n (sigma ++ key ++ le_bytes 4 counter ++ nonce))) = U8TO32_LITTLE (zdrop (n - 16) key)).
  { intros n H1 H2. rewrite (word_in_app sigma key) by (done || (change (zlen sigma) with 16; lia)). done. }
  assert (Hn : forall n, 52 <= n -> n + 4 <= 64 -> le_val (ztake 4 (zdrop n (sigma ++ key ++ le_bytes 4 counter ++ nonce))) = U8TO32_LITTLE (zdrop (n - 52) nonce)).
  { intros n H1 H2. assert (Hl : zlen (sigma ++ key ++ le_bytes 4 counter) = 52) by (rewrite !length_app, length_le_bytes; change (length sigma) with 16%nat; lia).
    replace (sigma ++ key ++ le_bytes 4 counter ++ nonce) with ((sigma ++ key ++ le_bytes 4 counter) ++ nonce ++ []) by (rewrite app_nil_r; by rewrite <- !app_assoc).
    rewrite word_in_app by (done || lia). by rewrite Hl. }
  assert (Hct : le_val (ztake 4 (zdrop 48 (sigma ++ key ++ le_bytes 4 counter ++ nonce))) = counter).
  { rewrite app_assoc, zdrop_app by (rewrite length_app; change (length sigma) with 16%nat; lia). rewrite ztake_app by by rewrite length_le_bytes.
    rewrite le_val_le_bytes. by apply Z.mod_small. }
  rewrite !Z.mul_0_r. change (4 * 1) with 4. change (4 * 2) with 8. change (4 * 3) with 12. change (4 * 4) with 16. change (4 * 5) with 20. change (4 * 6) with 24. change (4 * 7) with 28.
  change (4 * 8) with 32. change (4 * 9) with 36. change (4 * 10) with 40. change (4 * 11) with 44. change (4 * 12) with 48. change (4 * 13) with 52. change (4 * 14) with 56. change (4 * 15) with 60.
  rewrite Hct, !Hs, !Hk, !Hn by lia. reflexivity.
Qed.

Lemma chacha_core_rfc counter : is_u 32 counter -> chacha_core (chacha_input key nonce counter) = rfc_block key nonce counter.
Proof using Hkey Hnonce key nonce.
  intros Hc. rewrite chacha_core_spec by by apply chacha_input_ok. by rewrite chacha_input_rfc.
Qed.

Lemma rfc_double_round_ok x : words_ok x -> words_ok (rfc_double_round x).
Proof. intros Hx. destruct (chacha_rounds_spec x Hx) as [<- H]. exact H. Qed.

Lemma concat_words l : zlen (concat (map (le_bytes 4) l)) = 4 * zlen l /\ bytes_ok (concat (map (le_bytes 4) l)).
Proof.
  induction l as [|x l [IH1 IH2]]; [split; [done|constructor]|]. cbn [map concat]. rewrite length_app, length_le_bytes. cbn [length].
  split; [lia|]. apply bytes_ok_app. split; [apply le_bytes_ok|done].
Qed.

Lemma rfc_block_ok counter : is_u 32 counter -> zlen (rfc_block key nonce counter) = 64 /\ bytes_ok (rfc_block key nonce counter).
Proof using Hkey Hnonce key nonce.
  intros Hc. unfold rfc_block. pose proof (chacha_input_ok counter Hc) as Hi. rewrite chacha_input_rfc in Hi by done.
  assert (Hr : words_ok (Nat.iter 10 rfc_double_round (rfc_state key nonce counter))) by (apply Nat.iter_invariant; [intros; by apply rfc_double_round_ok|done]).
  destruct (concat_words (zip_with add32 (Nat.iter 10 rfc_double_round (rfc_state key nonce counter)) (rfc_state key nonce counter))) as [L B].
  split; [|exact B]. rewrite L, length_zip_with. destruct Hi as [-> _], Hr as [-> _]. done.
Qed.
End Key.

(** * Lemmas: the stream *)

(** [in] and [out] are the same or do not overlap. *)
Record chacha_buffers (inp out len : Z) (m : mem) : Prop := {
  cc_len : 0 <= len;
  cc_mem : mem_bytes m;
  cc_inp : mapped m inp len;
  cc_out : mapped m out len;
  cc_alias : inp = out \/ inp + len <= out \/ out + len <= inp;
}.

Lemma chacha_xor_spec buf n : forall inp out i m, bytes_ok buf -> 0 <= i -> chacha_buffers (inp + i) (out + i) (Z.of_nat n) m ->
  runs (chacha_xor n out inp buf i) m (within (out + i) (Z.of_nat n)) (fun _ m' =>
    forall j, i <= j < i + Z.of_nat n -> byte m' (out + j) = Z.lxor (byte m (inp + j)) (zget buf j)).
Proof.
  induction n as [|n IH]; intros inp out i m Hb Hi [Hl Hm Hin Hout Ha]; cbn [chacha_xor]; [apply runs_ret; [done|]; intros j Hj; lia|].
  rewrite Nat2Z.inj_succ, <- Z.add_1_r in *.
  eapply runs_bind; [apply runs_load_u with (Q := fun v m' => v = le_val (bytes_at m (inp + i) 1) /\ m' = m); [done|mapped_tac|done]|].
  intros ? ? _ _ [-> ->]. eapply runs_bind; [apply runs_store_u with (A := within (out + i) (Z.of_nat n + 1)); [done|lia|mapped_tac|intros x; unfold within; lia]|].
  intros [] m1 _ Hm1 [Hu H1]. eapply runs_sub; [apply (IH inp out (i + 1) m1 Hb); [lia|]| |].
  - split; [lia|done|mapped_tac|mapped_tac|lia].
  - intros x. unfold within. lia.
  - intros [] m' Hu' _ H j Hj. destruct (Z.eq_dec j i) as [->|Hne].
    + rewrite (upd_byte _ _ _ _ Hu') by (unfold within; lia). specialize (H1 0 ltac:(lia)). rewrite Z.add_0_r in H1. rewrite H1.
      change (Z.to_nat 1) with 1%nat. cbn [le_bytes]. unfold zget at 1. cbn [nth].
      replace (le_val (bytes_at m (inp + i) 1)) with (byte m (inp + i)).
      * apply Z.mod_small. apply (lxor_is_u 8); [lia|by apply byte_is_byte|by apply zget_byte].
      * unfold bytes_at. cbn [map seqZ]. change (seqZ 0 1) with [0]. cbn [map]. rewrite le_val_cons, Z.add_0_r. by rewrite Z.add_0_r.
    + rewrite H by lia. f_equal. apply (upd_byte _ _ _ _ Hu). unfold within. lia.
Qed.

Section Stream.
Variables key nonce : bytes.
Hypothesis Hkey : zlen key = 32 /\ bytes_ok key.
Hypothesis Hnonce : zlen nonce = 12 /\ bytes_ok nonce.

(** The output, as the RFC gives it. *)
Definition chacha_post (counter inp out len : Z) (m m' : mem) : Prop :=
  forall i, 0 <= i < len -> byte m' (out + i) = Z.lxor (byte m (inp + i)) (chacha_keystream key nonce counter i).

Lemma keystream_later counter i : 64 <= i -> chacha_keystream key nonce counter i = chacha_keystream key nonce ((counter + 1) mod 2 ^ 32) (i - 64).
Proof.
  intros Hi. unfold chacha_keystream. rewrite Zplus_mod_idemp_l.
  replace (counter + i / 64) with (counter + 1 + (i - 64) / 64) by (Z.to_euclidean_division_equations; lia).
  replace (i mod 64) with ((i - 64) mod 64) by (Z.to_euclidean_division_equations; lia). reflexivity.
Qed.

Lemma keystream_first counter i : is_u 32 counter -> 0 <= i < 64 -> chacha_keystream key nonce counter i = zget (rfc_block key nonce counter) i.
Proof.
  intros Hc Hi. unfold chacha_keystream. rewrite (Z.div_small i), (Z.mod_small i), Z.add_0_r by lia. by rewrite (Z.mod_small counter) by exact Hc.
Qed.

Lemma next_input counter : <[12%nat := u32 (nth 12 (chacha_input key nonce counter) 0 + 1)]> (chacha_input key nonce counter) =
  chacha_input key nonce ((counter + 1) mod 2 ^ 32).
Proof. change (nth 12 (chacha_input key nonce counter) 0) with counter. rewrite u32_mod. reflexivity. Qed.

Lemma chacha_stream_spec fuel : forall counter inp out len m, is_u 32 counter -> chacha_buffers inp out len m -> len <= Z.of_nat fuel ->
  runs (chacha_stream fuel out inp len (chacha_input key nonce counter)) m (within out len) (fun _ m' => chacha_post counter inp out len m m').
Proof using Hkey Hnonce.
  induction fuel as [|fuel IH]; intros counter inp out len m Hc [Hl Hm Hin Hout Ha] Hf; cbn [chacha_stream].
  { replace (len >? 0) with false by lia. apply runs_ret; [done|]. intros i Hi. lia. }
  destruct (len >? 0) eqn:E0; cbn [negb]; [|apply runs_ret; [done|]; intros i Hi; lia].
  set (todo := if len <? 64 then len else 64). assert (Ht : todo = Z.min len 64) by (unfold todo; destruct (Z.ltb_spec len 64); lia). clearbody todo.
  rewrite chacha_core_rfc by done. destruct (rfc_block_ok key nonce Hkey Hnonce counter Hc) as [HLb HBb].
  eapply runs_bind; [eapply runs_sub; [apply (chacha_xor_spec (rfc_block key nonce counter) (Z.to_nat todo) inp out 0 m HBb ltac:(lia))| |]|].
  { rewrite !Z.add_0_r, Z2Nat.id by lia. split; [lia|done|mapped_tac|mapped_tac|lia]. }
  { rewrite Z.add_0_r, Z2Nat.id by lia. intros x. unfold within. lia. }
  { rewrite Z2Nat.id by lia. intros ? m1 Hu _ H. rewrite Z.add_0_r in Hu. exact (conj Hu H). }
  intros [] m1 _ Hm1 [Hu H1]. rewrite next_input.
  eapply runs_sub; [apply (IH ((counter + 1) mod 2 ^ 32) (inp + todo) (out + todo) (len - todo) m1)| |].
  - by apply Z.mod_pos_bound.
  - split; [lia|done|mapped_tac|mapped_tac|lia].
  - lia.
  - intros x. unfold within. lia.
  - intros [] m' Hu' _ H i Hi. destruct (Z_lt_le_dec i todo) as [Hlt|Hge].
    + rewrite (upd_byte _ _ _ _ Hu') by (unfold within; lia). rewrite H1 by lia. by rewrite keystream_first by (done || lia).
    + replace (out + i) with (out + todo + (i - todo)) by lia. rewrite H by lia. replace (inp + todo + (i - todo)) with (inp + i) by lia.
      rewrite (upd_byte _ _ _ (inp + i) Hu) by (unfold within; lia). rewrite (keystream_later counter i) by lia.
      replace (i - todo) with (i - 64) by lia. reflexivity.
Qed.

Lemma CRYPTO_chacha_20_runs counter inp out len m : is_u 32 counter -> chacha_buffers inp out len m ->
  runs (CRYPTO_chacha_20 out inp len key nonce counter) m (within out len) (fun _ m' => chacha_post counter inp out len m m').
Proof using Hkey Hnonce.
  intros Hc B. pose proof B as [Hl _ _ _ Ha]. unfold CRYPTO_chacha_20, buffers_alias.
  replace (negb (negb ((out + len >? inp) && (inp + len >? out)) || (inp =? out))) with false by lia.
  apply chacha_stream_spec; [done|done|lia].
Qed.

Lemma keystream_byte counter i : is_byte (chacha_keystream key nonce counter i).
Proof using Hkey Hnonce. apply zget_byte, rfc_block_ok; [done|done|]. by apply Z.mod_pos_bound. Qed.
End Stream.

(** * Properties *)

(** C26. Equivalence with RFC 8439 of the whole function: in place or between buffers that
    do not overlap, each byte is that of the input with the key stream that starts at the
    counter, which wraps at 32 bits, and nothing but the output changes. *)
Theorem CRYPTO_chacha_20_rfc8439 key nonce counter inp out len m :
  zlen key = 32 /\ bytes_ok key -> zlen nonce = 12 /\ bytes_ok nonce -> is_u 32 counter -> chacha_buffers inp out len m ->
  exists m', CRYPTO_chacha_20 out inp len key nonce counter m = Some (tt, m') /\ upd (within out len) m m' /\
    forall i, 0 <= i < len -> byte m' (out + i) = Z.lxor (byte m (inp + i)) (chacha_keystream key nonce counter i).
Proof.
  intros Hk Hn Hc B. destruct (CRYPTO_chacha_20_runs key nonce Hk Hn counter inp out len m Hc B) as ([] & m' & E & Hu & _ & H). by exists m'.
Qed.

(** 100 bytes in place, across the wrap of the counter. *)
Definition sample_nonce : bytes := [0x00; 0x00; 0x00; 0x09; 0x00; 0x00; 0x00; 0x4a; 0x00; 0x00; 0x00; 0x00].
Definition chacha_mem : mem := region 0 (seqZ 0 200).

Lemma seqZ_is_bytes n : n <= 256 -> bytes_ok (seqZ 0 n).
Proof. intros Hn. apply Forall_forall. intros i Hi%elem_of_seqZ. unfold is_u. lia. Qed.

Lemma chacha_mem_buffers inp out len : 0 <= inp -> 0 <= out -> 0 <= len -> inp + len <= 200 -> out + len <= 200 ->
  inp = out \/ inp + len <= out \/ out + len <= inp -> chacha_buffers inp out len chacha_mem.
Proof.
  intros Hi Ho Hl Hil Hol Ha. assert (H : mapped chacha_mem 0 200) by (apply region_mapped; rewrite length_seqZ; lia).
  split; [done|apply region_bytes, seqZ_is_bytes; lia|mapped_tac|mapped_tac|done].
Qed.

Lemma sample_nonce_ok : zlen sample_nonce = 12 /\ bytes_ok sample_nonce.
Proof. split; [reflexivity|]. vm_compute. repeat constructor; discriminate. Qed.

Lemma CRYPTO_chacha_20_rfc8439_witness :
  exists m', CRYPTO_chacha_20 50 50 100 (seqZ 0 32) sample_nonce (2 ^ 32 - 1) chacha_mem = Some (tt, m') /\ upd (within 50 100) chacha_mem m' /\
    forall i, 0 <= i < 100 -> byte m' (50 + i) = Z.lxor (byte chacha_mem (50 + i)) (chacha_keystream (seqZ 0 32) sample_nonce (2 ^ 32 - 1) i).
Proof.
  apply CRYPTO_chacha_20_rfc8439; [split; [reflexivity|apply seqZ_is_bytes; lia]|apply sample_nonce_ok|unfold is_u; lia|].
  apply chacha_mem_buffers; lia.
Defined.

(** The test vector of RFC 8439, section 2.3.2. *)
Example rfc8439_2_3_2 : rfc_block (seqZ 0 32) sample_nonce 1 =
  [0x10; 0xf1; 0xe7; 0xe4; 0xd1; 0x3b; 0x59; 0x15; 0x50; 0x0f; 0xdd; 0x1f; 0xa3; 0x20; 0x71; 0xc4; 0xc7; 0xd1; 0xf4; 0xc7; 0x33; 0xc0; 0x68; 0x03; 0x04; 0x22; 0xaa; 0x9a; 0xc3; 0xd4; 0x6c; 0x4e; 0xd2; 0x82; 0x64; 0x46; 0x07; 0x9f; 0xaa; 0x09; 0x14; 0xc2; 0xd7; 0x05; 0xd9; 0x8b; 0x02; 0xa2; 0xb5; 0x12; 0x9c; 0xd1; 0xde; 0x16; 0x4e; 0xb9; 0xcb; 0xd0; 0x83; 0xe8; 0xa2; 0x50; 0x3c; 0x4e].
Proof. vm_compute. reflexivity. Qed.
