(* ===== verification/Ghash.v ===== *)
(** * Multiplication in the field of GCM

    Models the arithmetic of src/bubble/Pods/BoringSSL/crypto/modes/gcm.c as it is
    compiled without assembly: the table of the sixteen multiples of the key by a
    polynomial of degree three ([gcm_init_4bit]) and the multiplication that takes four
    bits at a time ([gcm_gmult_4bit]), with its streamed version. The theorems compare
    them with the bit by bit multiplication of NIST SP 800-38D. *)

From Stdlib Require Import ZArith Lia Btauto.
From stdpp Require Import base option list gmap.
From S2P Require Import Prelude ByteMem.

(** * The program *)

(** [u128] of modes/internal.h. *)
Record u128 := mk_u128 { hi : Z; lo : Z }.
#[export] Instance u128_inhabited : Inhabited u128 := populate (mk_u128 0 0).

Definition REDUCE1BIT (V : u128) : u128 :=
  let T := Z.land 0xe100000000000000 (u64 (0 - Z.land (lo V) 1)) in
  mk_u128 (Z.lxor (Z.shiftr (hi V) 1) T) (Z.lor (u64 (Z.shiftl (hi V) 63)) (Z.shiftr (lo V) 1)).

Definition xor_u128 (a b : u128) : u128 := mk_u128 (Z.lxor (hi a) (hi b)) (Z.lxor (lo a) (lo b)).

Definition gcm_init_4bit (H0 H1 : Z) : list u128 :=
  let T8 := mk_u128 H0 H1 in
  let T4 := REDUCE1BIT T8 in
  let T2 := REDUCE1BIT T4 in
  let T1 := REDUCE1BIT T2 in
  let T3 := xor_u128 T1 T2 in
  let T5 := xor_u128 T4 T1 in
  let T6 := xor_u128 T4 T2 in
  let T7 := xor_u128 T4 T3 in
  [mk_u128 0 0; T1; T2; T3; T4; T5; T6; T7;
   T8; xor_u128 T8 T1; xor_u128 T8 T2; xor_u128 T8 T3; xor_u128 T8 T4; xor_u128 T8 T5; xor_u128 T8 T6; xor_u128 T8 T7].

Definition PACK (s : Z) : Z := u64 (Z.shiftl s 48).

Definition rem_4bit : list Z :=
  [PACK 0x0000; PACK 0x1C20; PACK 0x3840; PACK 0x2460;
   PACK 0x7080; PACK 0x6CA0; PACK 0x48C0; PACK 0x54E0;
   PACK 0xE100; PACK 0xFD20; PACK 0xD940; PACK 0xC560;
   PACK 0x9180; PACK 0x8DA0; PACK 0xA9C0; PACK 0xB5E0].

(** The lines that the loops repeat: [z] moves by four bits, and takes in an entry. *)
Definition shift_4bit (z : u128) : u128 :=
  let rem := Z.land (lo z) 0xf in
  let lo' := Z.lor (u64 (Z.shiftl (hi z) 60)) (Z.shiftr (lo z) 4) in
  mk_u128 (Z.lxor (Z.shiftr (hi z) 4) (zget rem_4bit rem)) lo'.
Definition entry (Htable : list u128) (n : Z) : u128 := nth (Z.to_nat n) Htable (mk_u128 0 0).

(** [while (1)] of [gcm_gmult_4bit] and of [gcm_ghash_4bit]; [byte] gives the bytes of
    the factor. *)
Fixpoint gmult_loop (byte : Z -> Z) (Htable : list u128) (cnt : nat) (z : u128) (nhi : Z) : u128 :=
  let z := xor_u128 (shift_4bit z) (entry Htable nhi) in
  match cnt with
  | O => z
  | S cnt =>
      let nlo := byte (Z.of_nat cnt) in
      let nhi := Z.shiftr nlo 4 in
      let nlo := Z.land nlo 0xf in
      gmult_loop byte Htable cnt (xor_u128 (shift_4bit z) (entry Htable nlo)) nhi
  end.

(** [CRYPTO_bswap8] of modes/internal.h. *)
Definition CRYPTO_bswap8 (x : Z) : Z := be_val (le_bytes 8 x).

Definition gmult_bytes (byte : Z -> Z) (Htable : list u128) : bytes :=
  let nlo := byte 15 in
  let nhi := Z.shiftr nlo 4 in
  let nlo := Z.land nlo 0xf in
  let r := gmult_loop byte Htable 15 (entry Htable nlo) nhi in
  le_bytes 8 (CRYPTO_bswap8 (hi r)) ++ le_bytes 8 (CRYPTO_bswap8 (lo r)).

(** [Xi] is the 16 bytes of the array. *)
Definition gcm_gmult_4bit (Xi : bytes) (Htable : list u128) : bytes := gmult_bytes (zget Xi) Htable.

(** [len] is the length of [inp], a positive multiple of 16. *)
Fixpoint gcm_ghash_4bit (fuel : nat) (Xi : bytes) (Htable : list u128) (inp : bytes) : option bytes :=
  match fuel with
  | O => None
  | S fuel =>
      let Xi := gmult_bytes (fun i => Z.lxor (zget Xi i) (zget inp i)) Htable in
      let inp := zdrop 16 inp in
      if negb (zlen inp =? 0) then gcm_ghash_4bit fuel Xi Htable inp else Some Xi
  end.

(** What [CRYPTO_ghash_init] stores: [*out_key] and [out_table]. *)
Definition CRYPTO_ghash_init (gcm_key : bytes) : u128 * list u128 :=
  let H0 := CRYPTO_bswap8 (le_val (ztake 8 gcm_key)) in
  let H1 := CRYPTO_bswap8 (le_val (zdrop 8 gcm_key)) in
  (mk_u128 H0 H1, gcm_init_4bit H0 H1).

(** * Specification: NIST SP 800-38D, sections 6.3 and 6.4

    A block is the integer of its bytes, so its first bit is bit 127. *)

Definition gcm_R : Z := Z.shiftl 0xe1 120.
Definition gf_shift (v : Z) : Z := if Z.odd v then Z.lxor (Z.shiftr v 1) gcm_R else Z.shiftr v 1.

(** [n] steps of Algorithm 1. *)
Fixpoint gf_steps (n : nat) (x z v : Z) : Z :=
  match n with
  | O => z
  | S n => gf_steps n x (if Z.testbit x (Z.of_nat n) then Z.lxor z v else z) (gf_shift v)
  end.
Definition gf_mul (x y : Z) : Z := gf_steps 128 x 0 y.

(** The test vectors of the original proposal: a product of two field elements. *)
Example gf_mul_test :
  gf_mul 0x0388dace60b6a392f328c2b971b2fe78 0x66e94bd4ef8a2c3b884cfa59ca342b2e = 0x5e2ec746917062882c85b0685353deb7.
Proof. vm_compute. reflexivity. Qed.

Example gmult_test :
  let H := be_bytes 16 0x66e94bd4ef8a2c3b884cfa59ca342b2e in
  gcm_gmult_4bit (be_bytes 16 0x0388dace60b6a392f328c2b971b2fe78) (snd (CRYPTO_ghash_init H)) = be_bytes 16 0x5e2ec746917062882c85b0685353deb7.
Proof. vm_compute. reflexivity. Qed.

(** * Lemmas: the field *)

Lemma gf_shift_lxor a b : gf_shift (Z.lxor a b) = Z.lxor (gf_shift a) (gf_shift b).
Proof.
  unfold gf_shift. rewrite <- !Z.bit0_odd, Z.lxor_spec, Z.shiftr_lxor.
  apply Z.bits_inj'. intros i Hi. destruct (Z.testbit a 0), (Z.testbit b 0); cbn [xorb]; rewrite ?Z.lxor_spec; btauto.
Qed.

Lemma gf_shift_0 : gf_shift 0 = 0.
Proof. reflexivity. Qed.

(** The sum does not depend on where it starts. *)
Lemma gf_steps_acc n x : forall z v, gf_steps n x z v = Z.lxor z (gf_steps n x 0 v).
Proof.
  induction n as [|n IH]; intros z v; cbn [gf_steps]; [by rewrite Z.lxor_0_r|].
  destruct (Z.testbit x (Z.of_nat n)); [|apply IH]. rewrite (IH (Z.lxor z v)), (IH (Z.lxor 0 v)), Z.lxor_0_l. apply Z.lxor_assoc.
Qed.

Lemma gf_steps_S n x v : gf_steps (S n) x 0 v =
  Z.lxor (if Z.testbit x (Z.of_nat n) then v else 0) (gf_steps n x 0 (gf_shift v)).
Proof. cbn [gf_steps]. rewrite gf_steps_acc. by destruct (Z.testbit x (Z.of_nat n)); rewrite ?Z.lxor_0_l. Qed.

Lemma gf_steps_shift n x : forall v, gf_steps n x 0 (gf_shift v) = gf_shift (gf_steps n x 0 v).
Proof.
  induction n as [|n IH]; intros v; [done|]. rewrite !gf_steps_S, IH, gf_shift_lxor. f_equal. by destruct (Z.testbit x (Z.of_nat n)).
Qed.

(** Only the low bits of the factor are looked at. *)
Lemma gf_steps_ext n x y : (forall i, 0 <= i < Z.of_nat n -> Z.testbit x i = Z.testbit y i) -> forall v, gf_steps n x 0 v = gf_steps n y 0 v.
Proof.
  induction n as [|n IH]; intros H v; [done|]. rewrite !gf_steps_S, (H (Z.of_nat n)) by lia. f_equal. apply IH. intros i Hi. apply H. lia.
Qed.

Definition shift4 (v : Z) : Z := gf_shift (gf_shift (gf_shift (gf_shift v))).

Lemma shift4_lxor a b : shift4 (Z.lxor a b) = Z.lxor (shift4 a) (shift4 b).
Proof. unfold shift4. by rewrite !gf_shift_lxor. Qed.

(** The step of Horner's rule: four more bits of the factor. *)
Lemma gf_steps_4 n x v : gf_steps (4 + n) x 0 v =
  Z.lxor (shift4 (gf_steps n x 0 v)) (gf_steps 4 (Z.land (Z.shiftr x (Z.of_nat n)) 0xf) 0 v).
Proof.
  assert (E : gf_steps (4 + n) x 0 v = Z.lxor (gf_steps 4 (Z.shiftr x (Z.of_nat n)) 0 v) (shift4 (gf_steps n x 0 v))).
  { change (4 + n)%nat with (S (S (S (S n)))). unfold shift4. rewrite !gf_steps_S, <- !gf_steps_shift.
    cbn [gf_steps]. rewrite !Z.shiftr_spec by lia.
    replace (Z.of_nat 3 + Z.of_nat n) with (Z.of_nat (S (S (S n)))) by lia.
    replace (Z.of_nat 2 + Z.of_nat n) with (Z.of_nat (S (S n))) by lia.
    replace (Z.of_nat 1 + Z.of_nat n) with (Z.of_nat (S n)) by lia.
    replace (Z.of_nat 0 + Z.of_nat n) with (Z.of_nat n) by lia.
    rewrite <- !Z.lxor_assoc. f_equal.
    destruct (Z.testbit x (Z.of_nat n)), (Z.testbit x (Z.of_nat (S n))), (Z.testbit x (Z.of_nat (S (S n)))), (Z.testbit x (Z.of_nat (S (S (S n)))));
      by rewrite ?Z.lxor_0_r, ?Z.lxor_0_l. }
  rewrite E, Z.lxor_comm. f_equal. apply gf_steps_ext. intros i Hi. rewrite Z.land_spec.
  change 0xf with (Z.ones 4). rewrite Z.ones_spec_low by lia. by rewrite andb_true_r.
Qed.

(** * Lemmas: pairs of words *)

Definition val128 (z : u128) : Z := Z.lxor (Z.shiftl (hi z) 64) (lo z).
Definition ok128 (z : u128) : Prop := is_u 64 (hi z) /\ is_u 64 (lo z).

Lemma val128_add z : ok128 z -> val128 z = hi z * 2 ^ 64 + lo z.
Proof.
  intros [_ Hl]. unfold val128. rewrite <- (lor_shiftl_add (hi z) (lo z) 64) by (lia || done).
  apply Z.bits_inj'. intros i Hi. rewrite Z.lxor_spec, Z.lor_spec. destruct (Z.lt_ge_cases i 64).
  - rewrite Z.shiftl_spec_low by lia. by destruct (Z.testbit (lo z) i).
  - rewrite (is_u_testbit 64 (lo z)) by (done || lia). by destruct (Z.testbit _ i).
Qed.

Lemma val128_xor a b : val128 (xor_u128 a b) = Z.lxor (val128 a) (val128 b).
Proof. unfold val128, xor_u128. cbn [hi lo]. rewrite Z.shiftl_lxor. apply Z.bits_inj'. intros i Hi. rewrite !Z.lxor_spec. btauto. Qed.

Lemma ok128_xor a b : ok128 a -> ok128 b -> ok128 (xor_u128 a b).
Proof. intros [H1 H2] [H3 H4]. split; cbn [hi lo xor_u128]; by apply lxor_is_u. Qed.

Lemma shiftr_is_u w x k : 0 <= k -> is_u w x -> is_u w (Z.shiftr x k).
Proof.
  intros Hk [H0 H1]. rewrite Z.shiftr_div_pow2 by done. pose proof (Z.pow_pos_nonneg 2 k ltac:(lia) Hk).
  split; [apply Z.div_pos; lia|]. apply Z.div_lt_upper_bound; nia.
Qed.

Lemma lor_is_u w x y : 0 <= w -> is_u w x -> is_u w y -> is_u w (Z.lor x y).
Proof.
  intros Hw Hx Hy. assert (E : Z.lor x y = Z.lor x y mod 2 ^ w); [|rewrite E; apply Z.mod_pos_bound; lia].
  rewrite <- Z.land_ones by done. apply Z.bits_inj'. intros i Hi. rewrite Z.land_spec, Z.lor_spec. destruct (Z.lt_ge_cases i w).
  - rewrite Z.ones_spec_low by lia. by rewrite andb_true_r.
  - rewrite (is_u_testbit w x), (is_u_testbit w y) by (done || lia). done.
Qed.

Lemma testbit_u64 x i : 0 <= i -> Z.testbit (u64 x) i = (if i <? 64 then Z.testbit x i else false).
Proof.
  intros Hi. unfold u64. rewrite Z.land_spec. change 0xffffffffffffffff with (Z.ones 64). case_if.
  - rewrite Z.ones_spec_low by lia. apply andb_true_r.
  - rewrite Z.ones_spec_high by lia. apply andb_false_r.
Qed.

(** Moving the pair by [k] bits moves the value. *)
Lemma val128_shiftr k z : 0 < k < 64 -> ok128 z ->
  val128 (mk_u128 (Z.shiftr (hi z) k) (Z.lor (u64 (Z.shiftl (hi z) (64 - k))) (Z.shiftr (lo z) k))) = Z.shiftr (val128 z) k /\
  ok128 (mk_u128 (Z.shiftr (hi z) k) (Z.lor (u64 (Z.shiftl (hi z) (64 - k))) (Z.shiftr (lo z) k))).
Proof.
  intros Hk [Hh Hl]. split.
  - unfold val128. cbn [hi lo]. apply Z.bits_inj'. intros i Hi.
    rewrite Z.shiftr_spec, !Z.lxor_spec, Z.lor_spec, testbit_u64, !(Z.shiftl_spec (hi z)), !(Z.shiftl_spec (Z.shiftr _ _)), (Z.shiftr_spec (lo z)) by lia.
    case_if.
    + rewrite (Z.testbit_neg_r (Z.shiftr _ _)) by lia. rewrite xorb_false_l. replace (i - (64 - k)) with (i + k - 64) by lia.
      destruct (Z.lt_ge_cases (i + k) 64).
      * by rewrite (Z.testbit_neg_r (hi z)) by lia.
      * rewrite (is_u_testbit 64 (lo z)) by (done || lia). by destruct (Z.testbit (hi z) _).
    + rewrite Z.shiftr_spec by lia. rewrite (is_u_testbit 64 (lo z)) by (done || lia). cbn [orb]. by replace (i - 64 + k) with (i + k - 64) by lia.
  - split; cbn [hi lo]; [by apply shiftr_is_u; [lia|]|]. apply lor_is_u; [lia|apply u64_is_u|by apply shiftr_is_u; [lia|]].
Qed.

Lemma REDUCE1BIT_spec V : ok128 V -> val128 (REDUCE1BIT V) = gf_shift (val128 V) /\ ok128 (REDUCE1BIT V).
Proof.
  intros HV. destruct (val128_shiftr 1 V ltac:(lia) HV) as [E [Ho1 Ho2]]. cbn [hi lo] in Ho1, Ho2. change (64 - 1) with 63 in *.
  assert (Hlow : Z.land (lo V) 1 = if Z.odd (val128 V) then 1 else 0).
  { assert (Hodd : Z.odd (val128 V) = Z.odd (lo V)).
    { rewrite <- !Z.bit0_odd. unfold val128. rewrite Z.lxor_spec, Z.shiftl_spec_low by lia. apply xorb_false_l. }
    rewrite Hodd. change 1 with (Z.ones 1). rewrite Z.land_ones by lia. change (2 ^ 1) with 2. rewrite Zmod_odd. done. }
  unfold REDUCE1BIT. rewrite Hlow. unfold gf_shift. destruct (Z.odd (val128 V)).
  - change (Z.land 0xe100000000000000 (u64 (0 - 1))) with 0xe100000000000000. split; [|split; [apply lxor_is_u; [lia|done|unfold is_u; lia]|done]].
    rewrite <- E. unfold val128. cbn [hi lo]. rewrite Z.shiftl_lxor. change (Z.shiftl 0xe100000000000000 64) with gcm_R.
    apply Z.bits_inj'. intros i Hi. rewrite !Z.lxor_spec. btauto.
  - change (Z.land 0xe100000000000000 (u64 (0 - 0))) with 0. rewrite Z.lxor_0_r. split; [exact E|by split].
Qed.

(** * Lemmas: the table *)

Definition multiples (h : Z) (Htable : list u128) : Prop :=
  length Htable = 16%nat /\ forall n, 0 <= n < 16 -> ok128 (entry Htable n) /\ val128 (entry Htable n) = gf_steps 4 n 0 h.

Lemma range_16 (P : Z -> Prop) : Forall P [0;1;2;3;4;5;6;7;8;9;10;11;12;13;14;15] -> forall n, 0 <= n < 16 -> P n.
Proof. intros H n Hn. rewrite Forall_forall in H. apply H. rewrite !elem_of_cons. lia. Qed.

Lemma gcm_init_4bit_spec H0 H1 : is_u 64 H0 -> is_u 64 H1 -> multiples (val128 (mk_u128 H0 H1)) (gcm_init_4bit H0 H1).
Proof.
  intros Hh Hl. split; [done|]. unfold gcm_init_4bit. set (T8 := mk_u128 H0 H1). assert (O8 : ok128 T8) by by split.
  destruct (REDUCE1BIT_spec T8 O8) as [E4 O4]. set (T4 := REDUCE1BIT T8) in *.
  destruct (REDUCE1BIT_spec T4 O4) as [E2 O2]. set (T2 := REDUCE1BIT T4) in *.
  destruct (REDUCE1BIT_spec T2 O2) as [E1 O1]. set (T1 := REDUCE1BIT T2) in *.
  rewrite E4 in E2. rewrite E2 in E1. clearbody T1 T2 T4 T8. cbv zeta.
  apply range_16.
  repeat apply Forall_cons_2; try apply Forall_nil_2;
    (split; [cbv [entry nth Z.to_nat Pos.to_nat Pos.iter_op Nat.add]; repeat apply ok128_xor; first [assumption|split; unfold is_u; cbn [hi lo]; lia]|]);
    cbv [entry nth Z.to_nat Pos.to_nat Pos.iter_op Nat.add]; rewrite ?val128_xor, ?E1, ?E2, ?E4; cbv [gf_steps Z.of_nat Z.testbit Pos.of_succ_nat Pos.succ Pos.testbit Pos.pred_N Pos.pred_double Z.odd];
    rewrite ?Z.lxor_0_l; apply Z.bits_inj'; intros i Hi; rewrite ?Z.lxor_spec; try btauto; try done.
Qed.
(** * Lemmas: the loop *)

(** The remainders are the reductions of the four bits that leave on the right. *)
Lemma shift4_low n : 0 <= n < 16 -> shift4 n = Z.shiftl (zget rem_4bit n) 64.
Proof. revert n. apply range_16. repeat apply Forall_cons_2; try apply Forall_nil_2; vm_compute; reflexivity. Qed.

Lemma rem_4bit_ok n : 0 <= n < 16 -> is_u 64 (zget rem_4bit n).
Proof. revert n. apply range_16. repeat apply Forall_cons_2; try apply Forall_nil_2; vm_compute; split; (reflexivity || discriminate). Qed.

Lemma gf_shift_even w : gf_shift (Z.shiftl w 1) = w.
Proof.
  unfold gf_shift. rewrite <- Z.bit0_odd, Z.shiftl_spec_low by lia. rewrite Z.shiftr_shiftl_l, Z.shiftl_0_r by lia. done.
Qed.

Lemma shift4_shiftl w : shift4 (Z.shiftl w 4) = w.
Proof.
  unfold shift4. replace (Z.shiftl w 4) with (Z.shiftl (Z.shiftl (Z.shiftl (Z.shiftl w 1) 1) 1) 1) by (by rewrite !Z.shiftl_shiftl by lia).
  by rewrite !gf_shift_even.
Qed.

Lemma land_0xf x : Z.land x 0xf = x mod 16.
Proof. exact (Z.land_ones x 4 ltac:(lia)). Qed.

Lemma shift4_spec v : shift4 v = Z.lxor (Z.shiftr v 4) (Z.shiftl (zget rem_4bit (Z.land v 0xf)) 64).
Proof.
  assert (E : v = Z.lxor (Z.shiftl (Z.shiftr v 4) 4) (Z.land v 0xf)).
  { apply Z.bits_inj'. intros i Hi. rewrite Z.lxor_spec, Z.land_spec. change 0xf with (Z.ones 4). destruct (Z.lt_ge_cases i 4).
    - rewrite Z.shiftl_spec_low, Z.ones_spec_low by lia. by rewrite xorb_false_l, andb_true_r.
    - rewrite Z.shiftl_spec, Z.shiftr_spec, Z.ones_spec_high, andb_false_r, xorb_false_r by lia. f_equal. lia. }
  rewrite E at 1. rewrite shift4_lxor, shift4_shiftl, shift4_low; [done|]. rewrite land_0xf. apply Z.mod_pos_bound. lia.
Qed.

Lemma shift_4bit_spec z : ok128 z -> val128 (shift_4bit z) = shift4 (val128 z) /\ ok128 (shift_4bit z).
Proof.
  intros Hz. destruct (val128_shiftr 4 z ltac:(lia) Hz) as [E [O1 O2]]. cbn [hi lo] in O1, O2. change (64 - 4) with 60 in *.
  assert (Hlow : Z.land (val128 z) 0xf = Z.land (lo z) 0xf).
  { apply Z.bits_inj'. intros i Hi. rewrite !Z.land_spec. change 0xf with (Z.ones 4). destruct (Z.lt_ge_cases i 4).
    - unfold val128. rewrite Z.lxor_spec, Z.shiftl_spec_low by lia. by rewrite xorb_false_l.
    - rewrite Z.ones_spec_high by lia. by rewrite !andb_false_r. }
  rewrite shift4_spec, Hlow, <- E. unfold shift_4bit. split.
  - unfold val128. cbn [hi lo]. rewrite Z.shiftl_lxor. apply Z.bits_inj'. intros i Hi. rewrite !Z.lxor_spec. btauto.
  - split; [|done]. apply lxor_is_u; [lia|done|]. apply rem_4bit_ok. rewrite land_0xf. apply Z.mod_pos_bound. lia.
Qed.

Section Mult.
Variables (h x : Z) (Htable : list u128) (byte : Z -> Z).
Hypothesis HT : multiples h Htable.
Hypothesis Hbyte : forall i, 0 <= i < 16 -> byte i = Z.land (Z.shiftr x (8 * (15 - i))) 0xff.

Lemma nibble_range v : 0 <= Z.land v 0xf < 16.
Proof. rewrite land_0xf. apply Z.mod_pos_bound. lia. Qed.

Lemma byte_low i : 0 <= i < 16 -> Z.land (byte i) 0xf = Z.land (Z.shiftr x (8 * (15 - i))) 0xf.
Proof using Hbyte. intros Hi. rewrite Hbyte by done. rewrite <- Z.land_assoc. done. Qed.

Lemma byte_high i : 0 <= i < 16 -> Z.shiftr (byte i) 4 = Z.land (Z.shiftr x (8 * (15 - i) + 4)) 0xf.
Proof using Hbyte.
  intros Hi. rewrite Hbyte by done. rewrite Z.shiftr_land, Z.shiftr_shiftr by lia. done.
Qed.

(** One entry taken in: four bits of the product. *)
Lemma take_entry n z k : 0 <= k < 16 -> k = Z.land (Z.shiftr x (Z.of_nat n)) 0xf -> ok128 z -> val128 z = gf_steps n x 0 h ->
  val128 (xor_u128 (shift_4bit z) (entry Htable k)) = gf_steps (4 + n) x 0 h /\ ok128 (xor_u128 (shift_4bit z) (entry Htable k)).
Proof using HT.
  intros Hk -> Hz E. destruct HT as [_ Ht]. destruct (Ht _ Hk) as [Oe Ee]. destruct (shift_4bit_spec z Hz) as [Es Os].
  split; [|by apply ok128_xor]. by rewrite val128_xor, Es, Ee, E, gf_steps_4.
Qed.

Lemma gmult_loop_spec cnt : forall z nhi, (cnt <= 15)%nat -> ok128 z ->
  let n := (8 * (15 - cnt) + 4)%nat in
  val128 z = gf_steps n x 0 h -> nhi = Z.land (Z.shiftr x (Z.of_nat n)) 0xf ->
  val128 (gmult_loop byte Htable cnt z nhi) = gf_mul x h /\ ok128 (gmult_loop byte Htable cnt z nhi).
Proof using HT Hbyte.
  induction cnt as [|cnt IH]; intros z nhi Hc Oz n Ez ->; cbn [gmult_loop]; cbv zeta.
  - exact (take_entry n z _ (nibble_range _) eq_refl Oz Ez).
  - destruct (take_entry n z _ (nibble_range _) eq_refl Oz Ez) as [E1 O1].
    set (z1 := xor_u128 (shift_4bit z) _) in *.
    assert (Hk : Z.land (byte (Z.of_nat cnt)) 0xf = Z.land (Z.shiftr x (Z.of_nat (4 + n))) 0xf) by (rewrite byte_low by lia; do 2 f_equal; unfold n; lia).
    destruct (take_entry (4 + n) z1 (Z.land (byte (Z.of_nat cnt)) 0xf) (nibble_range _) Hk O1 E1) as [E2 O2].
    apply IH; [lia|exact O2|rewrite E2; f_equal; unfold n; lia|].
    rewrite byte_high by lia. do 2 f_equal. unfold n. lia.
Qed.

Lemma bswap_bytes v : le_bytes 8 (CRYPTO_bswap8 v) = be_bytes 8 v.
Proof.
  unfold CRYPTO_bswap8. pose proof (be_bytes_be_val (le_bytes 8 v) (le_bytes_ok 8 v)) as E. rewrite length_le_bytes in E.
  unfold be_bytes in *. apply (f_equal (@rev Z)) in E. by rewrite rev_involutive in E.
Qed.

(** The two words as sixteen bytes. *)
Lemma words_bytes z : ok128 z -> be_bytes 8 (hi z) ++ be_bytes 8 (lo z) = be_bytes 16 (val128 z).
Proof.
  intros Hz. rewrite val128_add by done. rewrite (be_bytes_app 8 8). destruct Hz as [Hh Hl]. unfold is_u in *. change (256 ^ Z.of_nat 8) with (2 ^ 64).
  rewrite Z.div_add_l, (Z.div_small (lo z)), Z.add_0_r by lia. f_equal.
  rewrite <- (be_bytes_mod 8 (_ + _)). change (256 ^ Z.of_nat 8) with (2 ^ 64). rewrite Z.add_comm, Z.mod_add, Z.mod_small by lia. done.
Qed.

Lemma gmult_bytes_spec : gmult_bytes byte Htable = be_bytes 16 (gf_mul x h).
Proof using HT Hbyte.
  unfold gmult_bytes. cbv zeta. destruct HT as [_ Ht]. destruct (Ht (Z.land (byte 15) 0xf) (nibble_range _)) as [O E].
  destruct (gmult_loop_spec 15 (entry Htable (Z.land (byte 15) 0xf)) (Z.shiftr (byte 15) 4)) as [E1 O1]; [lia|done| | |].
  - rewrite E. apply gf_steps_ext. intros i Hi. rewrite byte_low by lia. change (8 * (15 - 15)) with 0. rewrite Z.shiftr_0_r, Z.land_spec.
    change 0xf with (Z.ones 4). rewrite Z.ones_spec_low by lia. apply andb_true_r.
  - by rewrite byte_high by lia.
  - rewrite !bswap_bytes. by rewrite words_bytes, E1.
Qed.
End Mult.
(** The bytes of a big-endian integer. *)
Lemma zget_be_bytes n v i : 0 <= i < Z.of_nat n -> zget (be_bytes n v) i = Z.land (Z.shiftr v (8 * (Z.of_nat n - 1 - i))) 0xff.
Proof.
  revert v. induction n as [|n IH]; intros v Hi; [lia|]. rewrite Nat2Z.inj_succ in *. rewrite be_bytes_S.
  change (Z.land _ 0xff) with (u8 (Z.shiftr v (8 * (Z.succ (Z.of_nat n) - 1 - i)))). rewrite u8_mod. destruct (Z.eq_dec i (Z.of_nat n)) as [->|].
  - rewrite zget_app_r by (rewrite length_be_bytes; lia). rewrite length_be_bytes, Z.sub_diag, zget_cons_0.
    by replace (8 * (Z.succ (Z.of_nat n) - 1 - Z.of_nat n)) with 0 by lia.
  - rewrite zget_app_l by (rewrite length_be_bytes; lia). rewrite IH by lia. change (Z.land ?a 0xff) with (u8 a). rewrite u8_mod.
    change 256 with (2 ^ 8) at 1. rewrite <- Z.shiftr_div_pow2, Z.shiftr_shiftr by lia. do 2 f_equal. lia.
Qed.

Lemma zget_be_val l i : bytes_ok l -> zlen l = 16 -> 0 <= i < 16 -> zget l i = Z.land (Z.shiftr (be_val l) (8 * (15 - i))) 0xff.
Proof.
  intros Hb Hl Hi. rewrite <- (be_bytes_be_val l Hb) at 1. replace (length l) with 16%nat by lia. by rewrite zget_be_bytes.
Qed.

(** * Specification: a block taken into the hash *)

Definition ghash_block (h : Z) (y : Z) (b : bytes) : Z := gf_mul (Z.lxor y (be_val b)) h.

(** The blocks of a string whose length is a multiple of 16, and GHASH of it. *)
Fixpoint blocks (n : nat) (l : bytes) : list bytes :=
  match n with O => [] | S n => ztake 16 l :: blocks n (zdrop 16 l) end.
Definition GHASH (h y : Z) (l : bytes) : Z := fold_left (ghash_block h) (blocks (Z.to_nat (zlen l / 16)) l) y.

Lemma gf_shift_range v : is_u 128 v -> is_u 128 (gf_shift v).
Proof.
  intros Hv. unfold gf_shift. destruct (Z.odd v); [apply lxor_is_u; [lia| |done]|]; by apply shiftr_is_u; [lia|].
Qed.

Lemma gf_mul_range x h : is_u 128 h -> is_u 128 (gf_mul x h).
Proof.
  unfold gf_mul. generalize 128%nat as n. intros n. assert (H0 : is_u 128 0) by done. revert H0 h. generalize 0 as z.
  induction n as [|n IH]; intros z Hz h Hh; [done|]. apply IH; [|by apply gf_shift_range].
  destruct (Z.testbit x (Z.of_nat n)); [by apply lxor_is_u|done].
Qed.

(** * Lemmas: the functions of the code *)

#[local] Opaque gf_mul gmult_bytes.

Lemma gcm_gmult_4bit_spec h Htable Xi : multiples h Htable -> bytes_ok Xi -> zlen Xi = 16 ->
  gcm_gmult_4bit Xi Htable = be_bytes 16 (gf_mul (be_val Xi) h).
Proof. intros HT Hb Hl. apply gmult_bytes_spec; [done|]. intros i Hi. by apply zget_be_val. Qed.

Lemma be_val_16 v : is_u 128 v -> be_val (be_bytes 16 v) = v.
Proof. intros Hv. apply be_val_small, Hv. Qed.

Lemma be_val_xor a b : bytes_ok a -> bytes_ok b -> length a = length b -> be_val (xor_bytes a b) = Z.lxor (be_val a) (be_val b).
Proof.
  revert b. induction a as [|x a IH] using rev_ind; intros b Ha Hb Hl; [by destruct b|].
  destruct b as [|y b _] using rev_ind; [rewrite length_app in Hl; cbn in Hl; lia|]. rewrite !length_app in Hl. cbn [length] in Hl.
  apply bytes_ok_app in Ha as [Ha Hx], Hb as [Hb Hy]. apply Forall_inv in Hx, Hy. unfold is_u in *.
  unfold xor_bytes. rewrite zip_with_app by lia. cbn [zip_with]. rewrite !be_val_snoc. fold (xor_bytes a b). rewrite IH by (done || lia).
  assert (E : forall u v, is_u 8 v -> u * 256 + v = Z.lxor (Z.shiftl u 8) v).
  { intros u v Hv. change 256 with (2 ^ 8). rewrite <- (lor_shiftl_add u v 8) by (lia || done). apply Z.bits_inj'. intros i Hi.
    rewrite Z.lxor_spec, Z.lor_spec. destruct (Z.lt_ge_cases i 8); [rewrite Z.shiftl_spec_low by lia; by destruct (Z.testbit v i)|].
    rewrite (is_u_testbit 8 v) by (done || lia). by destruct (Z.testbit _ i). }
  rewrite !E; [|done|done|by apply lxor_is_u]. rewrite Z.shiftl_lxor. apply Z.bits_inj'. intros i Hi. rewrite !Z.lxor_spec. btauto.
Qed.

Lemma blocks_S n l : blocks (S n) l = ztake 16 l :: blocks n (zdrop 16 l).
Proof. reflexivity. Qed.

Lemma GHASH_cons h y b l : zlen b = 16 -> GHASH h y (b ++ l) = GHASH h (ghash_block h y b) l.
Proof.
  intros Hb. unfold GHASH. rewrite length_app. replace (Z.of_nat (length b + length l)) with (1 * 16 + zlen l) by lia.
  rewrite Z.div_add_l, Z2Nat.inj_add by (lia || apply Z.div_pos; lia). change (Z.to_nat 1) with 1%nat. cbn [Nat.add]. rewrite blocks_S.
  rewrite ztake_app, zdrop_app by done. apply fold_left_cons.
Qed.

Lemma GHASH_nil h y : GHASH h y [] = y.
Proof. reflexivity. Qed.

Lemma ghash_block_range h y b : is_u 128 h -> is_u 128 (ghash_block h y b).
Proof. intros. by apply gf_mul_range. Qed.

Lemma GHASH_range h l : forall y, is_u 128 h -> is_u 128 y -> is_u 128 (GHASH h y l).
Proof.
  unfold GHASH. generalize (blocks (Z.to_nat (zlen l / 16)) l). intros bs. induction bs as [|b bs IH]; intros y Hh Hy; [done|].
  rewrite fold_left_cons. apply IH; [done|by apply ghash_block_range].
Qed.

Lemma bswap_le l : bytes_ok l -> zlen l = 8 -> CRYPTO_bswap8 (le_val l) = be_val l.
Proof. intros Hb Hl. unfold CRYPTO_bswap8. replace 8%nat with (length l) by lia. by rewrite le_bytes_le_val. Qed.

Lemma ghash_init_spec key : bytes_ok key -> zlen key = 16 -> multiples (be_val key) (snd (CRYPTO_ghash_init key)).
Proof.
  intros Hk Hl. unfold CRYPTO_ghash_init. cbn [snd].
  assert (Ht : zlen (ztake 8 key) = 8) by (rewrite length_ztake; lia). assert (Hd : zlen (zdrop 8 key) = 8) by (rewrite length_zdrop; lia).
  rewrite !bswap_le by (done || by apply bytes_ok_ztake || by apply bytes_ok_zdrop).
  pose proof (be_val_bound (ztake 8 key) (bytes_ok_ztake _ _ Hk)) as B1. pose proof (be_val_bound (zdrop 8 key) (bytes_ok_zdrop _ _ Hk)) as B2.
  rewrite Ht in B1. rewrite Hd in B2. change (256 ^ 8) with (2 ^ 64) in B1, B2.
  pose proof (gcm_init_4bit_spec (be_val (ztake 8 key)) (be_val (zdrop 8 key)) B1 B2) as H.
  rewrite val128_add in H by (by split). cbn [hi lo] in H. rewrite <- (ztake_zdrop 8 key) at 1. rewrite be_val_app, Hd. exact H.
Qed.

Lemma gmult_xor_spec h Htable Xi inp : multiples h Htable -> bytes_ok Xi -> zlen Xi = 16 -> bytes_ok inp -> 16 <= zlen inp ->
  gmult_bytes (fun i => Z.lxor (zget Xi i) (zget inp i)) Htable = be_bytes 16 (ghash_block h (be_val Xi) (ztake 16 inp)).
Proof.
  intros HT HX HX16 Hb Hb16. assert (Ht : zlen (ztake 16 inp) = 16) by (rewrite length_ztake; lia).
  apply gmult_bytes_spec; [done|]. intros i Hi. rewrite <- (zget_ztake 16 inp) by lia.
  rewrite <- zget_xor_bytes, <- be_val_xor by (done || lia || by apply bytes_ok_ztake).
  apply zget_be_val; [apply xor_bytes_ok; [done|by apply bytes_ok_ztake]| |done]. rewrite length_xor_bytes. lia.
Qed.

Lemma ghash_4bit_spec h Htable n : is_u 128 h -> multiples h Htable -> forall Xi inp fuel, bytes_ok Xi -> zlen Xi = 16 -> bytes_ok inp ->
  zlen inp = 16 * Z.of_nat (S n) -> (S n <= fuel)%nat -> gcm_ghash_4bit fuel Xi Htable inp = Some (be_bytes 16 (GHASH h (be_val Xi) inp)).
Proof.
  intros Hh HT. induction n as [|n IH]; intros Xi inp [|fuel] HX HX16 Hi Hl Hf; try lia; cbn [gcm_ghash_4bit]; cbv zeta;
    (rewrite (gmult_xor_spec h) by (done || lia)); replace (GHASH h (be_val Xi) inp) with (GHASH h (be_val Xi) (ztake 16 inp ++ zdrop 16 inp)) by (by rewrite ztake_zdrop); rewrite GHASH_cons by (rewrite length_ztake; lia).
  - rewrite (zdrop_all 16 inp) by lia. done.
  - assert (Hd : zlen (zdrop 16 inp) = 16 * Z.of_nat (S n)) by (rewrite length_zdrop; lia).
    replace (zlen (zdrop 16 inp) =? 0) with false by lia. cbn [negb].
    rewrite (IH _ (zdrop 16 inp)); [|apply be_bytes_ok|by rewrite length_be_bytes|by apply bytes_ok_zdrop|done|lia].
    by rewrite be_val_16 by by apply ghash_block_range.
Qed.

(** C19. Equivalence with the reference: [gcm_ghash_4bit], which takes a whole number of
    blocks through the table of sixteen multiples of the key, is GHASH of SP 800-38D,
    whose multiplication goes bit by bit, from any hash value on; [gcm_gmult_4bit] is one
    multiplication. The table is the one of [CRYPTO_ghash_init], for any key. *)
Theorem gcm_ghash_4bit_spec key Xi inp fuel :
  bytes_ok key -> zlen key = 16 -> bytes_ok Xi -> zlen Xi = 16 -> bytes_ok inp -> 0 < zlen inp -> zlen inp mod 16 = 0 ->
  zlen inp <= 16 * Z.of_nat fuel ->
  gcm_gmult_4bit Xi (snd (CRYPTO_ghash_init key)) = be_bytes 16 (gf_mul (be_val Xi) (be_val key)) /\
  gcm_ghash_4bit fuel Xi (snd (CRYPTO_ghash_init key)) inp = Some (be_bytes 16 (GHASH (be_val key) (be_val Xi) inp)).
Proof.
  intros Hk Hk16 HX HX16 Hi H0 Hm Hf. pose proof (ghash_init_spec key Hk Hk16) as HT. split; [by apply gcm_gmult_4bit_spec|].
  assert (Hh : is_u 128 (be_val key)) by (pose proof (be_val_bound key Hk) as B; rewrite Hk16 in B; exact B).
  apply (ghash_4bit_spec _ _ (Z.to_nat (zlen inp / 16 - 1))); try done; Z.to_euclidean_division_equations; lia.
Qed.

Lemma gcm_ghash_4bit_spec_witness :
  let key := seqZ 1 16 in let Xi := seqZ 3 16 in let inp := seqZ 5 32 in
  gcm_gmult_4bit Xi (snd (CRYPTO_ghash_init key)) = be_bytes 16 (gf_mul (be_val Xi) (be_val key)) /\
  gcm_ghash_4bit 2 Xi (snd (CRYPTO_ghash_init key)) inp = Some (be_bytes 16 (GHASH (be_val key) (be_val Xi) inp)).
Proof.
  cbv zeta. assert (B : forall a n, 0 <= a -> a + n <= 256 -> bytes_ok (seqZ a n)).
  { intros a n Ha Hn. apply Forall_forall. intros x Hx%elem_of_seqZ. unfold is_u. lia. }
  apply (gcm_ghash_4bit_spec (seqZ 1 16) (seqZ 3 16) (seqZ 5 32) 2); first [apply B; lia|reflexivity|cbn; lia].
Defined.
