(* ===== verification/Gcm.v ===== *)
(** * Galois/counter mode

    Models the mode of src/bubble/Pods/BoringSSL/crypto/modes/gcm.c for a platform whose
    size_t has 64 bits (STRICT_ALIGNMENT is 0) and that has no assembly (GHASH is not
    defined). The context is a record, the buffers of the message are addresses in one
    memory of bytes, and the initialisation vector, the additional data and the tag are
    passed as their bytes. The specification is NIST SP 800-38D. *)

From Stdlib Require Import ZArith Lia.
From stdpp Require Import base option list gmap.
From S2P Require Import Prelude Mem ByteMem Modes Ghash.

(** * The program: the context *)

Section Gcm.
Context {Key : Type}.

(** [struct gcm128_context] of modes/internal.h. The unions are their sixteen bytes, but
    for [len], which is only used as two words; [gmult] and [ghash] can only be the two
    functions of Ghash.v here. *)
Record GCM128_CONTEXT := mk_gcm {
  Yi : bytes;
  EKi : bytes;
  EK0 : bytes;
  len0 : Z;
  len1 : Z;
  Xi : bytes;
  H : u128;
  Htable : list u128;
  mres : Z;
  ares : Z;
  block : bytes -> Key -> option bytes;
}.

Definition set_Yi (c : GCM128_CONTEXT) v := mk_gcm v (EKi c) (EK0 c) (len0 c) (len1 c) (Xi c) (H c) (Htable c) (mres c) (ares c) (block c).
Definition set_EKi (c : GCM128_CONTEXT) v := mk_gcm (Yi c) v (EK0 c) (len0 c) (len1 c) (Xi c) (H c) (Htable c) (mres c) (ares c) (block c).
Definition set_EK0 (c : GCM128_CONTEXT) v := mk_gcm (Yi c) (EKi c) v (len0 c) (len1 c) (Xi c) (H c) (Htable c) (mres c) (ares c) (block c).
Definition set_len0 (c : GCM128_CONTEXT) v := mk_gcm (Yi c) (EKi c) (EK0 c) v (len1 c) (Xi c) (H c) (Htable c) (mres c) (ares c) (block c).
Definition set_len1 (c : GCM128_CONTEXT) v := mk_gcm (Yi c) (EKi c) (EK0 c) (len0 c) v (Xi c) (H c) (Htable c) (mres c) (ares c) (block c).
Definition set_Xi (c : GCM128_CONTEXT) v := mk_gcm (Yi c) (EKi c) (EK0 c) (len0 c) (len1 c) v (H c) (Htable c) (mres c) (ares c) (block c).
Definition set_mres (c : GCM128_CONTEXT) v := mk_gcm (Yi c) (EKi c) (EK0 c) (len0 c) (len1 c) (Xi c) (H c) (Htable c) v (ares c) (block c).
Definition set_ares (c : GCM128_CONTEXT) v := mk_gcm (Yi c) (EKi c) (EK0 c) (len0 c) (len1 c) (Xi c) (H c) (Htable c) (mres c) v (block c).

(** [GCM_MUL(ctx, Xi)] and [GCM_MUL(ctx, Yi)]. *)
Definition GCM_MUL_Xi (c : GCM128_CONTEXT) : GCM128_CONTEXT := set_Xi c (gcm_gmult_4bit (Xi c) (Htable c)).
Definition GCM_MUL_Yi (c : GCM128_CONTEXT) : GCM128_CONTEXT := set_Yi c (gcm_gmult_4bit (Yi c) (Htable c)).

(** * The program: CRYPTO_gcm128_init, CRYPTO_gcm128_setiv *)

Definition CRYPTO_gcm128_init (key : Key) (block : bytes -> Key -> option bytes) : option GCM128_CONTEXT :=
  gcm_key ← block (zrepeat 16 0) key;
  let '(h, t) := CRYPTO_ghash_init gcm_key in
  Some (mk_gcm (zrepeat 16 0) (zrepeat 16 0) (zrepeat 16 0) 0 0 (zrepeat 16 0) h t 0 0 block).

(** [c[i] ^= p[i]] for [i] below the length of [p], which is at most that of [c]. *)
Fixpoint xor_into (c p : bytes) : bytes :=
  match c, p with
  | x :: c, y :: p => Z.lxor x y :: xor_into c p
  | _, _ => c
  end.

(** [while (len >= 16)] over [iv]. *)
Fixpoint iv_blocks (fuel : nat) (c : GCM128_CONTEXT) (iv : bytes) : option (GCM128_CONTEXT * bytes) :=
  if zlen iv <? 16 then Some (c, iv)
  else
    match fuel with
    | O => None
    | S fuel => iv_blocks fuel (GCM_MUL_Yi (set_Yi c (xor_into (Yi c) (ztake 16 iv)))) (zdrop 16 iv)
    end.

(** [GETU32_aligned(ctx->Yi.c + 12)], and [PUTU32_aligned] of it. *)
Definition get_ctr (c : GCM128_CONTEXT) : Z := be_val (zdrop 12 (Yi c)).
Definition put_ctr (c : GCM128_CONTEXT) (ctr : Z) : GCM128_CONTEXT := set_Yi c (zsplice (Yi c) 12 (be_bytes 4 ctr)).

(** [t[i] ^= v] on the words of a union. *)
Definition word (c : bytes) (i : Z) : Z := le_val (ztake 8 (zdrop (8 * i) c)).
Definition xor_word (c : bytes) (i v : Z) : bytes := zsplice c (8 * i) (le_bytes 8 (Z.lxor (word c i) v)).

Definition CRYPTO_gcm128_setiv (c : GCM128_CONTEXT) (key : Key) (iv : bytes) : option GCM128_CONTEXT :=
  let c := set_Yi c (zrepeat 16 0) in
  let c := set_Xi c (zrepeat 16 0) in
  let c := set_len1 (set_len0 c 0) 0 in
  let c := set_mres (set_ares c 0) 0 in
  '(c, ctr) ← (
    if zlen iv =? 12 then
      let c := set_Yi c (zsplice (Yi c) 0 iv) in
      let c := set_Yi c (zsplice (Yi c) 15 [1]) in
      Some (c, 1)
    else
      '(c, rest) ← iv_blocks (length iv) c iv;
      let c := if negb (zlen rest =? 0) then GCM_MUL_Yi (set_Yi c (xor_into (Yi c) rest)) else c in
      let len := u64 (Z.shiftl (zlen iv) 3) in
      let c := GCM_MUL_Yi (set_Yi c (xor_word (Yi c) 1 (CRYPTO_bswap8 len))) in
      Some (c, get_ctr c));
  ek0 ← block c (Yi c) key;
  Some (put_ctr (set_EK0 c ek0) (u32 (ctr + 1))).

(** * The program: CRYPTO_gcm128_aad *)

(** [ctx->Xi.c[n] ^= b]. *)
Definition xor_Xi (c : GCM128_CONTEXT) (n b : Z) : GCM128_CONTEXT := set_Xi c (<[Z.to_nat n := Z.lxor (zget (Xi c) n) b]> (Xi c)).

(** [while (n && len)]. *)
Fixpoint aad_head (c : GCM128_CONTEXT) (aad : bytes) (n : Z) : GCM128_CONTEXT * bytes * Z :=
  if n =? 0 then (c, aad, n)
  else
    match aad with
    | [] => (c, aad, n)
    | b :: aad => aad_head (xor_Xi c n b) aad ((n + 1) mod 16)
    end.

(** [while (len >= 16)]. *)
Fixpoint aad_blocks (fuel : nat) (c : GCM128_CONTEXT) (aad : bytes) : GCM128_CONTEXT * bytes :=
  if zlen aad <? 16 then (c, aad)
  else
    match fuel with
    | O => (c, aad)
    | S fuel => aad_blocks fuel (GCM_MUL_Xi (set_Xi c (xor_into (Xi c) (ztake 16 aad)))) (zdrop 16 aad)
    end.

Definition CRYPTO_gcm128_aad (c : GCM128_CONTEXT) (aad : bytes) : Z * GCM128_CONTEXT :=
  let len := zlen aad in
  if negb (len1 c =? 0) then (0, c)
  else
    let alen := u64 (len0 c + len) in
    if (alen >? Z.shiftl 1 61) || (alen <? len) then (0, c)
    else
      let c := set_len0 c alen in
      let n := ares c in
      let '(c, aad, n) := if negb (n =? 0) then aad_head c aad n else (c, aad, n) in
      if negb (n =? 0) then (1, set_ares c n)
      else
        let c := if negb (ares c =? 0) then GCM_MUL_Xi c else c in
        let '(c, aad) := aad_blocks (length aad) c aad in
        let '(c, n) := if negb (zlen aad =? 0) then (set_Xi c (xor_into (Xi c) aad), zlen aad) else (c, n) in
        (1, set_ares c n).

(** * The program: encryption and decryption *)

(** [ctx->Xi.c[n] ^= *out = *in ^ ctx->EKi.c[n]] of the encrypting functions, and the
    lines of the decrypting ones in its place; the index [k] into [EKi] and [Xi]. *)
Definition enc_byte (c : GCM128_CONTEXT) (inp out k : Z) : M mem GCM128_CONTEXT :=
  let* b := load_u 1 inp in
  let o := Z.lxor b (zget (EKi c) k) in
  store_u 1 out o;;;
  sret (xor_Xi c k o).
Definition dec_byte (c : GCM128_CONTEXT) (inp out k : Z) : M mem GCM128_CONTEXT :=
  let* b := load_u 1 inp in
  store_u 1 out (Z.lxor b (zget (EKi c) k));;;
  sret (xor_Xi c k b).

(** The bodies of the loops over the words of a block. *)
Definition enc_word (c : GCM128_CONTEXT) (inp out i : Z) : M mem GCM128_CONTEXT :=
  let* b := load_u 8 (inp + 8 * i) in
  let o := Z.lxor b (word (EKi c) i) in
  store_u 8 (out + 8 * i) o;;;
  sret (set_Xi c (xor_word (Xi c) i o)).
Definition dec_word (c : GCM128_CONTEXT) (inp out i : Z) : M mem GCM128_CONTEXT :=
  let* b := load_u 8 (inp + 8 * i) in
  store_u 8 (out + 8 * i) (Z.lxor b (word (EKi c) i));;;
  sret (set_Xi c (xor_word (Xi c) i b)).

(** The length of the message with [len] more bytes, unless it is too long. *)
Definition add_len (c : GCM128_CONTEXT) (len : Z) : option Z :=
  let mlen := u64 (len1 c + len) in
  if (mlen >? u64 (Z.shiftl 1 36 - 32)) || (mlen <? len) then None else Some mlen.

(** The next block of the key stream: [EKi], and the counter. *)
Definition next_block (c : GCM128_CONTEXT) (key : Key) (ctr : Z) : option (GCM128_CONTEXT * Z) :=
  e ← block c (Yi c) key;
  let ctr := u32 (ctr + 1) in
  Some (put_ctr (set_EKi c e) ctr, ctr).

Section Crypt.
Context (do_byte do_word : GCM128_CONTEXT -> Z -> Z -> Z -> M mem GCM128_CONTEXT).

(** [while (n && len)]. *)
Fixpoint crypt_head (fuel : nat) (c : GCM128_CONTEXT) (inp out len n : Z) : M mem (GCM128_CONTEXT * Z * Z * Z * Z) :=
  if (n =? 0) || (len =? 0) then sret (c, inp, out, len, n)
  else
    match fuel with
    | O => sstuck
    | S fuel =>
        let* c := do_byte c inp out n in
        crypt_head fuel c (inp + 1) (out + 1) (len - 1) ((n + 1) mod 16)
    end.

(** [while (len >= 16)]. *)
Fixpoint crypt_blocks (fuel : nat) (c : GCM128_CONTEXT) (key : Key) (inp out len ctr : Z) : M mem (GCM128_CONTEXT * Z * Z * Z * Z) :=
  if len <? 16 then sret (c, inp, out, len, ctr)
  else
    match fuel with
    | O => sstuck
    | S fuel =>
        let* (c, ctr) := slift (next_block c key ctr) in
        let* c := do_word c inp out 0 in
        let* c := do_word c inp out 1 in
        crypt_blocks fuel (GCM_MUL_Xi c) key (inp + 16) (out + 16) (len - 16) ctr
    end.

(** [while (len--)]. *)
Fixpoint crypt_tail (len : nat) (c : GCM128_CONTEXT) (inp out n : Z) : M mem (GCM128_CONTEXT * Z) :=
  match len with
  | O => sret (c, n)
  | S len =>
      let* c := do_byte c (inp + n) (out + n) n in
      crypt_tail len c inp out (n + 1)
  end.

(** The lines of a last, incomplete block. *)
Definition crypt_last (c : GCM128_CONTEXT) (key : Key) (inp out len n ctr : Z) : M mem (GCM128_CONTEXT * Z) :=
  if len =? 0 then sret (c, n)
  else
    let* (c, ctr) := slift (next_block c key ctr) in
    crypt_tail (Z.to_nat len) c inp out n.

(** [CRYPTO_gcm128_encrypt] and [CRYPTO_gcm128_decrypt], which only differ in what they
    do with a byte and with a word. *)
Definition gcm128_crypt (c : GCM128_CONTEXT) (key : Key) (inp out len : Z) : M mem (Z * GCM128_CONTEXT) :=
  match add_len c len with
  | None => sret (0, c)
  | Some mlen =>
      let c := set_len1 c mlen in
      let c := if negb (ares c =? 0) then set_ares (GCM_MUL_Xi c) 0 else c in
      let ctr := get_ctr c in
      let n := mres c in
      let* (c, inp, out, len, n') := crypt_head 16 c inp out len n in
      if negb (n' =? 0) then sret (1, set_mres c n')
      else
        let c := if negb (n =? 0) then GCM_MUL_Xi c else c in
        let* (c, inp, out, len, ctr) := crypt_blocks (Z.to_nat len) c key inp out len ctr in
        let* (c, n) := crypt_last c key inp out len n' ctr in
        sret (1, set_mres c n)
  end.

(** The functions on a [ctr128_f] [stream]: [in], [out], [blocks], [ivec]. [bulk] is what
    they do with [blocks] whole blocks: the stream, and the blocks of the ciphertext
    taken into the hash after it or before. *)
Definition gcm128_crypt_ctr32 (bulk : GCM128_CONTEXT -> Z -> Z -> Z -> M mem GCM128_CONTEXT)
    (c : GCM128_CONTEXT) (key : Key) (inp out len : Z) : M mem (Z * GCM128_CONTEXT) :=
  match add_len c len with
  | None => sret (0, c)
  | Some mlen =>
      let c := set_len1 c mlen in
      let c := if negb (ares c =? 0) then set_ares (GCM_MUL_Xi c) 0 else c in
      let n := mres c in
      let* (c, inp, out, len, n') := crypt_head 16 c inp out len n in
      if negb (n' =? 0) then sret (1, set_mres c n')
      else
        let c := if negb (n =? 0) then GCM_MUL_Xi c else c in
        let ctr := get_ctr c in
        let i := Z.land len (u64 (- 16)) in
        let* (c, ctr) :=
          (if i =? 0 then sret (c, ctr)
           else
             let* c := bulk c inp out (i / 16) in
             sret (c, u32 (ctr + u32 (i / 16)))) in
        let* (c, n) := crypt_last c key (inp + i) (out + i) (len - i) n' ctr in
        sret (1, set_mres c n)
  end.
End Crypt.

Definition CRYPTO_gcm128_encrypt := gcm128_crypt enc_byte enc_word.
Definition CRYPTO_gcm128_decrypt := gcm128_crypt dec_byte dec_word.

(** [while (j--)]: the blocks at [p] taken into the hash. *)
Fixpoint hash_blocks (j : nat) (c : GCM128_CONTEXT) (p : Z) : M mem GCM128_CONTEXT :=
  match j with
  | O => sret c
  | S j =>
      let* b := mem_load 16 p in
      hash_blocks j (GCM_MUL_Xi (set_Xi c (xor_into (Xi c) b))) (p + 16)
  end.

Definition enc_bulk (stream : Z -> Z -> Z -> Key -> bytes -> M mem unit) (key : Key) (c : GCM128_CONTEXT) (inp out j : Z) : M mem GCM128_CONTEXT :=
  stream inp out j key (Yi c);;;
  let ctr := u32 (get_ctr c + u32 j) in
  hash_blocks (Z.to_nat j) (put_ctr c ctr) out.
Definition dec_bulk (stream : Z -> Z -> Z -> Key -> bytes -> M mem unit) (key : Key) (c : GCM128_CONTEXT) (inp out j : Z) : M mem GCM128_CONTEXT :=
  let* c := hash_blocks (Z.to_nat j) c inp in
  stream inp out j key (Yi c);;;
  let ctr := u32 (get_ctr c + u32 j) in
  sret (put_ctr c ctr).

Definition CRYPTO_gcm128_encrypt_ctr32 (c : GCM128_CONTEXT) (key : Key) (inp out len : Z) (stream : Z -> Z -> Z -> Key -> bytes -> M mem unit) :=
  gcm128_crypt_ctr32 enc_byte (enc_bulk stream key) c key inp out len.
Definition CRYPTO_gcm128_decrypt_ctr32 (c : GCM128_CONTEXT) (key : Key) (inp out len : Z) (stream : Z -> Z -> Z -> Key -> bytes -> M mem unit) :=
  gcm128_crypt_ctr32 dec_byte (dec_bulk stream key) c key inp out len.

(** * The program: the tag *)

(** [tag] is the tag to compare with, if the caller has one. *)
Definition CRYPTO_gcm128_finish (c : GCM128_CONTEXT) (tag : option bytes) (len : Z) : Z * GCM128_CONTEXT :=
  let alen := u64 (Z.shiftl (len0 c) 3) in
  let clen := u64 (Z.shiftl (len1 c) 3) in
  let c := if negb (mres c =? 0) || negb (ares c =? 0) then GCM_MUL_Xi c else c in
  let alen := CRYPTO_bswap8 alen in
  let clen := CRYPTO_bswap8 clen in
  let c := set_Xi c (xor_word (Xi c) 0 alen) in
  let c := set_Xi c (xor_word (Xi c) 1 clen) in
  let c := GCM_MUL_Xi c in
  let c := set_Xi c (xor_word (Xi c) 0 (word (EK0 c) 0)) in
  let c := set_Xi c (xor_word (Xi c) 1 (word (EK0 c) 1)) in
  match tag with
  | Some tag => if len <=? 16 then (if CRYPTO_memcmp (Xi c) tag len =? 0 then 1 else 0, c) else (0, c)
  | None => (0, c)
  end.

(** The bytes that are copied to [tag]. *)
Definition CRYPTO_gcm128_tag (c : GCM128_CONTEXT) (len : Z) : bytes * GCM128_CONTEXT :=
  let '(_, c) := CRYPTO_gcm128_finish c None 0 in
  (ztake (if len <=? 16 then len else 16) (Xi c), c).
End Gcm.
Arguments GCM128_CONTEXT : clear implicits.

(** * Specification: NIST SP 800-38D *)

(** Zeros up to a multiple of 16 bytes. *)
Definition gcm_pad (l : bytes) : bytes := l ++ zrepeat ((- zlen l) mod 16) 0.

(** The pre-counter block, [inc32] [k] times, the key stream from its successor on, and
    the tag. *)
Definition gcm_J0 (h : Z) (iv : bytes) : bytes :=
  if zlen iv =? 12 then iv ++ be_bytes 4 1
  else be_bytes 16 (GHASH h 0 (gcm_pad iv ++ zrepeat 8 0 ++ be_bytes 8 (8 * zlen iv))).
Definition inc32 (j0 : bytes) (k : Z) : bytes := ztake 12 j0 ++ be_bytes 4 (be_val (zdrop 12 j0) + k).
Definition gcm_stream (E : bytes -> bytes) (j0 : bytes) (p : Z) : Z := zget (E (inc32 j0 (1 + p / 16))) (p mod 16).
Definition gcm_lengths (A C : bytes) : bytes := be_bytes 8 (8 * zlen A) ++ be_bytes 8 (8 * zlen C).
Definition gcm_tag (E : bytes -> bytes) (h : Z) (j0 A C : bytes) : bytes :=
  xor_bytes (be_bytes 16 (GHASH h 0 (gcm_pad A ++ gcm_pad C ++ gcm_lengths A C))) (E j0).

(** * Lemmas: bytes taken into a block *)

Lemma length_xor_into c p : length (xor_into c p) = length c.
Proof. revert p. induction c as [|x c IH]; intros [|y p]; cbn [xor_into length]; by rewrite ?IH. Qed.

Lemma xor_into_ok c p : bytes_ok c -> bytes_ok p -> bytes_ok (xor_into c p).
Proof.
  revert p. induction c as [|x c IH]; intros [|y p] Hc Hp; cbn [xor_into]; try done. apply Forall_cons in Hc as [Hx Hc], Hp as [Hy Hp].
  apply Forall_cons_2; [by apply lxor_is_u|by apply IH].
Qed.

Lemma zget_nil i : zget [] i = 0.
Proof. unfold zget. by destruct (Z.to_nat i). Qed.

Lemma zget_xor_into c p i : 0 <= i -> zlen p <= zlen c -> zget (xor_into c p) i = Z.lxor (zget c i) (zget p i).
Proof.
  revert p i. induction c as [|x c IH]; intros [|y p] i Hi Hl; cbn [xor_into length] in *; rewrite ?zget_nil, ?Z.lxor_0_r; try (done || lia).
  destruct (Z.eq_dec i 0) as [->|]; [done|]. rewrite !(zget_cons _ _ i) by lia. apply IH; lia.
Qed.

(** [l] taken in from index [n] on. *)
Definition xor_at (x : bytes) (n : Z) (l : bytes) : bytes := ztake n x ++ xor_into (zdrop n x) l.

Lemma length_xor_at x n l : length (xor_at x n l) = length x.
Proof. unfold xor_at. rewrite length_app, length_xor_into, <- length_app, ztake_zdrop. done. Qed.

Lemma xor_at_ok x n l : bytes_ok x -> bytes_ok l -> bytes_ok (xor_at x n l).
Proof. intros Hx Hl. apply bytes_ok_app. split; [by apply bytes_ok_ztake|]. apply xor_into_ok; [by apply bytes_ok_zdrop|done]. Qed.

Lemma zget_xor_at x n l i : 0 <= n -> n + zlen l <= zlen x -> 0 <= i ->
  zget (xor_at x n l) i = Z.lxor (zget x i) (if n <=? i then zget l (i - n) else 0).
Proof.
  intros Hn Hl Hi. assert (Ht : zlen (ztake n x) = n) by (rewrite length_ztake; lia). unfold xor_at. case_if.
  - rewrite zget_app_r, Ht by lia. rewrite zget_xor_into, zget_zdrop by (rewrite ?length_zdrop; lia). do 2 f_equal. lia.
  - by rewrite zget_app_l, zget_ztake, Z.lxor_0_r by lia.
Qed.

Lemma zget_over l i : zlen l <= i -> zget l i = 0.
Proof. intros Hi. unfold zget. apply nth_overflow. lia. Qed.

Lemma xor_at_nil x n : xor_at x n [] = x.
Proof.
  unfold xor_at. rewrite <- (ztake_zdrop n x) at 3. f_equal. by destruct (zdrop n x).
Qed.

Lemma xor_at_app x n l1 l2 : 0 <= n -> n + zlen l1 + zlen l2 <= zlen x -> xor_at (xor_at x n l1) (n + zlen l1) l2 = xor_at x n (l1 ++ l2).
Proof.
  intros Hn Hl. apply zget_ext; [by rewrite !length_xor_at|]. rewrite !length_xor_at. intros i Hi.
  rewrite !zget_xor_at by (rewrite ?length_xor_at, ?length_app; lia). rewrite Z.lxor_assoc. f_equal.
  destruct (Z.lt_ge_cases i n); [by replace (n <=? i) with false by lia; replace (n + zlen l1 <=? i) with false by lia|].
  replace (n <=? i) with true by lia. case_if.
  - rewrite (zget_over l1), zget_app_r by lia. rewrite Z.lxor_0_l. f_equal. lia.
  - by rewrite zget_app_l, Z.lxor_0_r by lia.
Qed.

(** One byte. *)
Lemma insert_xor_at x n b : 0 <= n < zlen x -> <[Z.to_nat n := Z.lxor (zget x n) b]> x = xor_at x n [b].
Proof.
  intros Hn. apply zget_ext; [by rewrite length_insert, length_xor_at|]. rewrite length_insert. intros i Hi.
  rewrite zget_xor_at by (cbn [length]; lia). rewrite zget_set by lia. case_if.
  - subst i. rewrite Z.leb_refl, Z.sub_diag. done.
  - destruct (Z.leb_spec n i); [|by rewrite Z.lxor_0_r]. rewrite (zget_over [b]) by (cbn [length]; lia). by rewrite Z.lxor_0_r.
Qed.

Lemma xor_at_0 x l : xor_at x 0 l = xor_into x l.
Proof. unfold xor_at. by rewrite ztake_0, zdrop_0 by lia. Qed.

Lemma xor_into_bytes x l : length x = length l -> xor_into x l = xor_bytes x l.
Proof. revert l. induction x as [|a x IH]; intros [|b l] Hl; try done. cbn [xor_into]. injection Hl as Hl. by rewrite IH. Qed.

(** A part of a block is the block with zeros behind it. *)
Lemma xor_into_padded x l : zlen l <= zlen x -> xor_into x l = xor_bytes x (l ++ zrepeat (zlen x - zlen l) 0).
Proof.
  intros Hl. assert (Hp : length (l ++ zrepeat (zlen x - zlen l) 0) = length x) by (rewrite length_app, length_zrepeat; lia).
  apply zget_ext; [rewrite length_xor_into, length_xor_bytes; lia|]. rewrite length_xor_into. intros i Hi.
  rewrite zget_xor_into, zget_xor_bytes by lia. f_equal. destruct (Z.lt_ge_cases i (zlen l)); [by rewrite zget_app_l by lia|].
  by rewrite zget_app_r, zget_zeros, zget_over by lia.
Qed.

(** Words. *)
Lemma le_bytes_lxor l1 l2 : bytes_ok l1 -> bytes_ok l2 -> length l1 = length l2 ->
  le_bytes (length l1) (Z.lxor (le_val l1) (le_val l2)) = xor_bytes l1 l2.
Proof.
  intros H1 H2 Hl. apply zget_ext; [rewrite length_le_bytes, length_xor_bytes; lia|]. rewrite length_le_bytes. intros i Hi.
  rewrite zget_le_bytes_lxor, zget_xor_bytes by lia. rewrite le_bytes_le_val by done. by rewrite Hl, le_bytes_le_val.
Qed.

Lemma xor_bytes_app a1 a2 b1 b2 : length a1 = length b1 -> xor_bytes (a1 ++ a2) (b1 ++ b2) = xor_bytes a1 b1 ++ xor_bytes a2 b2.
Proof. intros Hl. unfold xor_bytes. by apply zip_with_app. Qed.

Lemma xor_word_0 x1 x2 l : bytes_ok x1 -> zlen x1 = 8 -> bytes_ok l -> zlen l = 8 -> xor_word (x1 ++ x2) 0 (le_val l) = xor_bytes x1 l ++ x2.
Proof.
  intros H1 L1 Hl Ll. unfold xor_word, word. change (8 * 0) with 0. rewrite zdrop_0, ztake_app by lia.
  rewrite <- (le_bytes_lxor x1 l) by (done || lia). replace (length x1) with 8%nat by lia. apply (zsplice_app [] x1 x2); [done|].
  rewrite length_le_bytes. lia.
Qed.

Lemma xor_word_1 x1 x2 l : zlen x1 = 8 -> bytes_ok x2 -> zlen x2 = 8 -> bytes_ok l -> zlen l = 8 -> xor_word (x1 ++ x2) 1 (le_val l) = x1 ++ xor_bytes x2 l.
Proof.
  intros L1 H2 L2 Hl Ll. unfold xor_word, word. change (8 * 1) with 8. rewrite zdrop_app, ztake_all by lia.
  rewrite <- (le_bytes_lxor x2 l) by (done || lia). replace (length x2) with 8%nat by lia. rewrite <- (app_nil_r x2) at 1.
  rewrite zsplice_app; [by rewrite app_nil_r|done|rewrite length_le_bytes; lia].
Qed.

Lemma xor_words x l1 l2 : bytes_ok x -> zlen x = 16 -> bytes_ok l1 -> zlen l1 = 8 -> bytes_ok l2 -> zlen l2 = 8 ->
  xor_word (xor_word x 0 (le_val l1)) 1 (le_val l2) = xor_bytes x (l1 ++ l2).
Proof.
  intros Hx Lx H1 L1 H2 L2. rewrite <- (ztake_zdrop 8 x). set (x1 := ztake 8 x). set (x2 := zdrop 8 x).
  assert (Lx1 : zlen x1 = 8) by (unfold x1; rewrite length_ztake; lia). assert (Lx2 : zlen x2 = 8) by (unfold x2; rewrite length_zdrop; lia).
  assert (Hx1 : bytes_ok x1) by by apply bytes_ok_ztake. assert (Hx2 : bytes_ok x2) by by apply bytes_ok_zdrop.
  rewrite xor_word_0, xor_word_1 by (done || (rewrite length_xor_bytes; lia)). by rewrite xor_bytes_app by lia.
Qed.

(** * Lemmas: the hash, byte by byte *)

#[local] Opaque gf_mul gf_steps gcm_gmult_4bit GHASH.

(** The bytes [l] taken into the block [x] of which [n] bytes are taken in already:
    what the code keeps in [Xi] and in [ares] or [mres]. *)
Definition ghash_mul (h : Z) (x : bytes) : bytes := be_bytes 16 (gf_mul (be_val x) h).
Definition absorb1 (h : Z) (st : bytes * Z) (b : Z) : bytes * Z :=
  let x := xor_at (fst st) (snd st) [b] in
  if snd st =? 15 then (ghash_mul h x, 0) else (x, snd st + 1).
Definition absorb (h : Z) (st : bytes * Z) (l : bytes) : bytes * Z := fold_left (absorb1 h) l st.
Definition flush (h : Z) (st : bytes * Z) : bytes := if snd st =? 0 then fst st else ghash_mul h (fst st).

Definition st_ok (st : bytes * Z) : Prop := bytes_ok (fst st) /\ zlen (fst st) = 16 /\ 0 <= snd st < 16.

Lemma ghash_mul_ok h x : bytes_ok (ghash_mul h x) /\ zlen (ghash_mul h x) = 16.
Proof. unfold ghash_mul. split; [apply be_bytes_ok|by rewrite length_be_bytes]. Qed.

Lemma absorb1_ok h st b : st_ok st -> is_byte b -> st_ok (absorb1 h st b).
Proof.
  intros (Hx & Hl & Hn) Hb. unfold absorb1. destruct (snd st =? 15) eqn:E; bool_simpl.
  - destruct (ghash_mul_ok h (xor_at (fst st) (snd st) [b])). split_and!; cbn [fst snd]; (done || lia).
  - split_and!; cbn [fst snd]; [apply xor_at_ok; [done|by apply Forall_cons_2]|by rewrite length_xor_at|lia|lia].
Qed.

Lemma absorb_ok h l : forall st, st_ok st -> bytes_ok l -> st_ok (absorb h st l).
Proof.
  unfold absorb. induction l as [|b l IH]; intros st Hs Hl; [done|]. apply Forall_cons in Hl as [Hb Hl]. rewrite fold_left_cons. apply IH; [by apply absorb1_ok|done].
Qed.

Lemma absorb_app h st l1 l2 : absorb h st (l1 ++ l2) = absorb h (absorb h st l1) l2.
Proof. apply fold_left_app. Qed.

Lemma absorb_nil h st : absorb h st [] = st.
Proof. reflexivity. Qed.

Lemma absorb1_mod h st b : 0 <= snd st < 16 -> snd (absorb1 h st b) = (snd st + 1) mod 16.
Proof.
  intros Hn. unfold absorb1. destruct (snd st =? 15) eqn:E; bool_simpl; cbn [snd]; [by rewrite E|]. symmetry. apply Z.mod_small. lia.
Qed.

Lemma absorb_mod h l : forall st, 0 <= snd st < 16 -> snd (absorb h st l) = (snd st + zlen l) mod 16.
Proof.
  unfold absorb. induction l as [|b l IH]; intros st Hn; cbn [length].
  - cbn [fold_left]. rewrite Z.add_0_r. symmetry. by apply Z.mod_small.
  - rewrite fold_left_cons, IH; rewrite absorb1_mod by done; [|apply Z.mod_pos_bound; lia].
    rewrite Z.add_mod_idemp_l by lia. f_equal. lia.
Qed.

(** Up to a whole block at a time. *)
Lemma absorb_part h x n l : zlen x = 16 -> 0 <= n < 16 -> n + zlen l <= 16 ->
  absorb h (x, n) l = if n + zlen l =? 16 then (ghash_mul h (xor_at x n l), 0) else (xor_at x n l, n + zlen l).
Proof.
  intros Hx Hn. unfold absorb. induction l as [|b l IH] using rev_ind; intros Hl.
  - cbn [fold_left length]. rewrite xor_at_nil, Z.add_0_r. by replace (n =? 16) with false by lia.
  - rewrite length_app in *. cbn [length] in *. rewrite fold_left_app, fold_left_cons. rewrite IH by lia.
    replace (n + zlen l =? 16) with false by lia. unfold absorb1. cbn [fst snd]. rewrite xor_at_app by (cbn [length]; lia).
    replace (n + Z.of_nat (length l + 1)) with (n + zlen l + 1) by lia.
    destruct (n + zlen l =? 15) eqn:E; bool_simpl; cbn [fold_left].
    + by replace (n + zlen l + 1 =? 16) with true by lia.
    + by replace (n + zlen l + 1 =? 16) with false by lia.
Qed.

Lemma absorb_block h x b : zlen x = 16 -> zlen b = 16 -> absorb h (x, 0) b = (ghash_mul h (xor_into x b), 0).
Proof. intros Hx Hb. rewrite absorb_part by lia. rewrite Hb, xor_at_0. done. Qed.

(** What is taken in is the hash of SP 800-38D, once the last block is complete. *)
Lemma ghash_mul_block h x b : bytes_ok x -> zlen x = 16 -> bytes_ok b -> zlen b = 16 -> ghash_mul h (xor_into x b) = be_bytes 16 (ghash_block h (be_val x) b).
Proof. intros Hx Lx Hb Lb. unfold ghash_mul, ghash_block. rewrite xor_into_bytes, be_val_xor by (done || lia). done. Qed.

Lemma flush_absorb h l y : is_u 128 h -> is_u 128 y -> bytes_ok l ->
  flush h (absorb h (be_bytes 16 y, 0) l) = be_bytes 16 (GHASH h y (gcm_pad l)).
Proof.
  intros Hh. remember (Z.to_nat (zlen l / 16)) as k eqn:Hk. revert l y Hk. induction k as [|k IH]; intros l y Hk Hy Hl.
  - assert (Hs : zlen l < 16) by (Z.to_euclidean_division_equations; lia). rewrite absorb_part by (rewrite ?length_be_bytes; lia).
    rewrite Z.add_0_l. replace (zlen l =? 16) with false by lia. rewrite xor_at_0. unfold flush, gcm_pad. cbn [fst snd].
    destruct (zlen l =? 0) eqn:E; bool_simpl.
    + apply zlen_0 in E as ->. cbn [app length]. change (zrepeat ((- 0) mod 16) 0) with (@nil Z). rewrite GHASH_nil.
      by rewrite <- xor_at_0, xor_at_nil.
    + replace ((- zlen l) mod 16) with (16 - zlen l) by (Z.to_euclidean_division_equations; lia).
      assert (Hp : zlen (l ++ zrepeat (16 - zlen l) 0) = 16) by (rewrite length_app, length_zrepeat; lia).
      rewrite <- (app_nil_r (l ++ _)), GHASH_cons, GHASH_nil by done.
      rewrite xor_into_padded by (rewrite length_be_bytes; lia). rewrite length_be_bytes. change (Z.of_nat 16) with 16.
      rewrite <- xor_into_bytes by (rewrite length_be_bytes; lia). rewrite ghash_mul_block; [by rewrite be_val_16|apply be_bytes_ok|by rewrite length_be_bytes| |done].
      apply bytes_ok_app. split; [done|by apply bytes_ok_zrepeat].
  - assert (Hs : 16 <= zlen l) by (Z.to_euclidean_division_equations; lia).
    assert (Lt : zlen (ztake 16 l) = 16) by (rewrite length_ztake; lia).
    assert (Ld : zlen (zdrop 16 l) = zlen l - 16) by (rewrite length_zdrop; lia).
    rewrite <- (ztake_zdrop 16 l) at 1. rewrite absorb_app, absorb_block by (rewrite ?length_be_bytes; lia).
    rewrite ghash_mul_block by (apply be_bytes_ok || (by rewrite length_be_bytes) || (by apply bytes_ok_ztake) || done).
    rewrite be_val_16 by done. rewrite IH; [|rewrite Ld; Z.to_euclidean_division_equations; lia|by apply ghash_block_range|by apply bytes_ok_zdrop].
    assert (Ep : gcm_pad l = ztake 16 l ++ gcm_pad (zdrop 16 l)).
    { unfold gcm_pad. rewrite app_assoc, ztake_zdrop. do 2 f_equal. rewrite Ld. Z.to_euclidean_division_equations; lia. }
    rewrite Ep, GHASH_cons by done. reflexivity.
Qed.

(** * Lemmas: the additional data *)

Section Pure.
Context {Key : Type} (h : Z).
Implicit Type c : GCM128_CONTEXT Key.

Lemma set_Xi_same c : set_Xi c (Xi c) = c.
Proof. by destruct c. Qed.

Lemma mul_Xi_spec c x : multiples h (Htable c) -> bytes_ok x -> zlen x = 16 -> GCM_MUL_Xi (set_Xi c x) = set_Xi c (ghash_mul h x).
Proof. intros HT Hx Lx. unfold GCM_MUL_Xi. cbn [Xi Htable set_Xi]. by rewrite (gcm_gmult_4bit_spec h). Qed.

Lemma mul_Yi_spec c x : multiples h (Htable c) -> bytes_ok x -> zlen x = 16 -> GCM_MUL_Yi (set_Yi c x) = set_Yi c (ghash_mul h x).
Proof. intros HT Hx Lx. unfold GCM_MUL_Yi. cbn [Yi Htable set_Yi]. by rewrite (gcm_gmult_4bit_spec h). Qed.

Lemma xor_Xi_at c n b : 0 <= n < zlen (Xi c) -> xor_Xi c n b = set_Xi c (xor_at (Xi c) n [b]).
Proof. intros Hn. unfold xor_Xi. by rewrite insert_xor_at. Qed.

Lemma aad_head_spec l : forall c n, zlen (Xi c) = 16 -> 0 < n < 16 -> exists k, 0 <= k <= zlen l /\ n + k <= 16 /\
  aad_head c l n = (set_Xi c (xor_at (Xi c) n (ztake k l)), zdrop k l, (n + k) mod 16) /\ (n + k = 16 \/ k = zlen l).
Proof.
  induction l as [|b l IH]; intros c n Hx Hn.
  - exists 0. cbn [aad_head length]. replace (n =? 0) with false by lia. rewrite ztake_0, zdrop_0, xor_at_nil, set_Xi_same, Z.add_0_r, Z.mod_small by lia.
    split_and!; (done || lia).
  - cbn [aad_head]. replace (n =? 0) with false by lia. rewrite xor_Xi_at by lia. destruct (Z.eq_dec n 15) as [->|].
    + change ((15 + 1) mod 16) with 0. exists 1. cbn [length]. split_and!; [lia|lia|lia| |by left]. destruct l; reflexivity.
    + rewrite Z.mod_small by lia. destruct (IH (set_Xi c (xor_at (Xi c) n [b])) (n + 1)) as (k & Hk & Hnk & -> & Hend); [cbn [Xi set_Xi]; by rewrite length_xor_at|lia|].
      exists (k + 1). cbn [length]. assert (Et : ztake (k + 1) (b :: l) = [b] ++ ztake k l).
      { unfold ztake. replace (Z.to_nat (k + 1)) with (S (Z.to_nat k)) by lia. done. }
      assert (Ed : zdrop (k + 1) (b :: l) = zdrop k l).
      { unfold zdrop. replace (Z.to_nat (k + 1)) with (S (Z.to_nat k)) by lia. done. }
      split_and!; [lia|lia|lia| |lia]. rewrite Et, Ed. cbn [Xi set_Xi].
      rewrite <- (xor_at_app (Xi c) n [b]) by (cbn [length]; rewrite ?length_ztake; lia).
      replace (n + 1 + k) with (n + (k + 1)) by lia. done.
Qed.

Lemma aad_blocks_spec fuel : forall c l, multiples h (Htable c) -> bytes_ok (Xi c) -> zlen (Xi c) = 16 -> bytes_ok l -> zlen l <= Z.of_nat fuel ->
  exists l1 l2 x, l = l1 ++ l2 /\ zlen l2 < 16 /\ absorb h (Xi c, 0) l1 = (x, 0) /\ aad_blocks fuel c l = (set_Xi c x, l2).
Proof.
  induction fuel as [|fuel IH]; intros c l HT Hx Lx Hl Hf; cbn [aad_blocks]; case_if.
  1,3: exists [], l, (Xi c); rewrite set_Xi_same; (split_and!; [done|lia|done|done]).
  - lia.
  - assert (Lt : zlen (ztake 16 l) = 16) by (rewrite length_ztake; lia). assert (Ht : bytes_ok (ztake 16 l)) by by apply bytes_ok_ztake.
    rewrite mul_Xi_spec by (done || (by apply xor_into_ok) || by rewrite length_xor_into).
    destruct (ghash_mul_ok h (xor_into (Xi c) (ztake 16 l))) as [Hm Lm].
    destruct (IH (set_Xi c (ghash_mul h (xor_into (Xi c) (ztake 16 l)))) (zdrop 16 l)) as (l1 & l2 & x & El & Hl2 & Ha & ->);
      [done|done|done|by apply bytes_ok_zdrop|rewrite length_zdrop; lia|].
    exists (ztake 16 l ++ l1), l2, x. cbn [Xi set_Xi] in Ha. split_and!; [|done| |done].
    + by rewrite <- app_assoc, <- El, ztake_zdrop.
    + by rewrite absorb_app, absorb_block.
Qed.

(** [CRYPTO_gcm128_aad] takes the bytes in, wherever the last call stopped. *)
Lemma aad_eq c l : multiples h (Htable c) -> st_ok (Xi c, ares c) -> bytes_ok l -> len1 c = 0 -> 0 <= len0 c -> len0 c + zlen l <= 2 ^ 61 ->
  CRYPTO_gcm128_aad c l = (1, let st := absorb h (Xi c, ares c) l in set_ares (set_Xi (set_len0 c (len0 c + zlen l)) (fst st)) (snd st)).
Proof.
  intros HT (Hx & Lx & Hn) Hl E1 H0 Hmax. cbn [fst snd] in *. unfold CRYPTO_gcm128_aad. rewrite E1. change (0 =? 0) with true. cbn [negb]. cbv zeta.
  rewrite u64_small by (unfold is_u; lia). change (Z.shiftl 1 61) with (2 ^ 61). replace (len0 c + zlen l >? 2 ^ 61) with false by lia.
  replace (len0 c + zlen l <? zlen l) with false by lia. cbn [orb]. set (c0 := set_len0 c (len0 c + zlen l)).
  change (ares c) with (ares c0) in *. change (Xi c) with (Xi c0) in *. change (Htable c) with (Htable c0) in HT. clearbody c0. clear E1 H0 Hmax c.
  assert (Hrest : forall c l, multiples h (Htable c) -> bytes_ok (Xi c) -> zlen (Xi c) = 16 -> bytes_ok l ->
    (let '(c, aad) := aad_blocks (length l) c l in
     let '(c, n) := if negb (zlen aad =? 0) then (set_Xi c (xor_into (Xi c) aad), zlen aad) else (c, 0) in
     (1, set_ares c n)) = (1, let st := absorb h (Xi c, 0) l in set_ares (set_Xi c (fst st)) (snd st))).
  { clear. intros c l HT Hx Lx Hl. destruct (aad_blocks_spec (length l) c l HT Hx Lx Hl) as (l1 & l2 & x & -> & Hl2 & Ha & ->); [lia|].
    apply bytes_ok_app in Hl as [Hl1 Hl2']. assert (Hs : st_ok (x, 0)) by (rewrite <- Ha; apply absorb_ok; [split_and!; cbn [fst snd]; (done || lia)|done]).
    destruct Hs as (Hx' & Lx' & _). cbn [fst snd] in *. rewrite absorb_app, Ha. cbn [Xi set_Xi].
    destruct (zlen l2 =? 0) eqn:E; cbn [negb]; bool_simpl.
    - apply zlen_0 in E as ->. reflexivity.
    - rewrite absorb_part by lia. rewrite Z.add_0_l. replace (zlen l2 =? 16) with false by lia. by rewrite xor_at_0. }
  destruct (ares c0 =? 0) eqn:E; cbn [negb]; bool_simpl.
  - rewrite E. change (0 =? 0) with true. cbn [negb]. by apply Hrest.
  - destruct (aad_head_spec l c0 (ares c0) Lx) as (k & Hk & Hnk & -> & Hend); [lia|].
    destruct (Z.eq_dec (ares c0 + k) 16) as [E16|].
    + rewrite E16. change (16 mod 16) with 0. change (0 =? 0) with true. cbn [negb]. change (ares (set_Xi c0 _)) with (ares c0).
      replace (ares c0 =? 0) with false by lia. cbn [negb].
      assert (Lk : zlen (ztake k l) = k) by (rewrite length_ztake; lia).
      rewrite mul_Xi_spec by (done || (by apply xor_at_ok; [|apply bytes_ok_ztake]) || by rewrite length_xor_at).
      destruct (ghash_mul_ok h (xor_at (Xi c0) (ares c0) (ztake k l))) as [Hm Lm].
      rewrite Hrest by (done || by apply bytes_ok_zdrop).
      assert (Ea : absorb h (Xi c0, ares c0) l = absorb h (ghash_mul h (xor_at (Xi c0) (ares c0) (ztake k l)), 0) (zdrop k l)).
      { rewrite <- (ztake_zdrop k l) at 1. rewrite absorb_app, absorb_part by lia. by rewrite Lk, E16. }
      by rewrite Ea.
    + destruct Hend as [| ->]; [lia|]. rewrite Z.mod_small by lia. replace (ares c0 + zlen l =? 0) with false by lia. cbn [negb].
      rewrite absorb_part by lia. replace (ares c0 + zlen l =? 16) with false by lia. by rewrite ztake_all by lia.
Qed.


(** * Lemmas: the initialisation vector *)

Lemma GHASH_app y a b : zlen a mod 16 = 0 -> GHASH h y (a ++ b) = GHASH h (GHASH h y a) b.
Proof.
  remember (Z.to_nat (zlen a / 16)) as k eqn:Hk. revert a y Hk. induction k as [|k IH]; intros a y Hk Ha.
  - assert (Hz : zlen a = 0) by (Z.to_euclidean_division_equations; lia). apply zlen_0 in Hz as ->. by rewrite GHASH_nil.
  - assert (Lt : zlen (ztake 16 a) = 16) by (rewrite length_ztake; Z.to_euclidean_division_equations; lia).
    assert (Ld : zlen (zdrop 16 a) = zlen a - 16) by (rewrite length_zdrop; Z.to_euclidean_division_equations; lia).
    rewrite <- (ztake_zdrop 16 a). rewrite <- app_assoc, !(GHASH_cons _ _ (ztake 16 a)) by done.
    apply IH; rewrite Ld; Z.to_euclidean_division_equations; lia.
Qed.

Lemma gcm_pad_mod l : zlen (gcm_pad l) mod 16 = 0.
Proof. unfold gcm_pad. rewrite length_app, length_zrepeat. Z.to_euclidean_division_equations; lia. Qed.

Lemma gcm_pad_ok l : bytes_ok l -> bytes_ok (gcm_pad l).
Proof. intros Hl. apply bytes_ok_app. split; [done|by apply bytes_ok_zrepeat]. Qed.

Lemma bswap8_le v : CRYPTO_bswap8 v = le_val (be_bytes 8 v).
Proof. unfold CRYPTO_bswap8, le_val, be_bytes. by rewrite rev_involutive. Qed.

(** A block of one word. *)
Lemma xor_word_1_zeros x l : bytes_ok x -> zlen x = 16 -> bytes_ok l -> zlen l = 8 -> xor_word x 1 (le_val l) = xor_into x (zrepeat 8 0 ++ l).
Proof.
  intros Hx Lx Hl Ll. rewrite xor_into_bytes by (rewrite length_app, length_zrepeat; lia). rewrite <- (xor_words x) by (done || by apply bytes_ok_zrepeat).
  f_equal. rewrite <- (ztake_zdrop 8 x). assert (L1 : zlen (ztake 8 x) = 8) by (rewrite length_ztake; lia).
  rewrite xor_word_0 by (done || (by apply bytes_ok_ztake) || by apply bytes_ok_zrepeat). f_equal.
  apply zget_ext; [rewrite length_xor_bytes, length_zrepeat; lia|]. intros i Hi. rewrite zget_xor_bytes by (rewrite ?length_zrepeat; lia).
  by rewrite zget_zeros, Z.lxor_0_r.
Qed.

Lemma iv_blocks_spec fuel : forall c l, multiples h (Htable c) -> bytes_ok (Yi c) -> zlen (Yi c) = 16 -> bytes_ok l -> zlen l <= Z.of_nat fuel ->
  exists l1 l2 x, l = l1 ++ l2 /\ zlen l2 < 16 /\ absorb h (Yi c, 0) l1 = (x, 0) /\ iv_blocks fuel c l = Some (set_Yi c x, l2).
Proof.
  induction fuel as [|fuel IH]; intros c l HT Hx Lx Hl Hf; cbn [iv_blocks]; case_if.
  1,3: exists [], l, (Yi c); assert (Es : set_Yi c (Yi c) = c) by (by destruct c); rewrite Es; (split_and!; [done|lia|done|done]).
  - lia.
  - assert (Lt : zlen (ztake 16 l) = 16) by (rewrite length_ztake; lia). assert (Ht : bytes_ok (ztake 16 l)) by by apply bytes_ok_ztake.
    rewrite mul_Yi_spec by (done || (by apply xor_into_ok) || by rewrite length_xor_into).
    destruct (ghash_mul_ok h (xor_into (Yi c) (ztake 16 l))) as [Hm Lm].
    destruct (IH (set_Yi c (ghash_mul h (xor_into (Yi c) (ztake 16 l)))) (zdrop 16 l)) as (l1 & l2 & x & El & Hl2 & Ha & ->);
      [done|done|done|by apply bytes_ok_zdrop|rewrite length_zdrop; lia|].
    exists (ztake 16 l ++ l1), l2, x. cbn [Yi set_Yi] in Ha. split_and!; [|done| |done].
    + by rewrite <- app_assoc, <- El, ztake_zdrop.
    + by rewrite absorb_app, absorb_block.
Qed.

Lemma zeros_block : zrepeat 16 0 = be_bytes 16 0.
Proof. reflexivity. Qed.

(** The hash of [iv], its length and the padding: J0 when it has not 12 bytes. *)
Lemma iv_hash c iv : is_u 128 h -> multiples h (Htable c) -> bytes_ok iv -> zlen iv < 2 ^ 61 -> Yi c = zrepeat 16 0 ->
  exists c' rest, iv_blocks (length iv) c iv = Some (c', rest) /\
    let c' := if negb (zlen rest =? 0) then GCM_MUL_Yi (set_Yi c' (xor_into (Yi c') rest)) else c' in
    GCM_MUL_Yi (set_Yi c' (xor_word (Yi c') 1 (CRYPTO_bswap8 (u64 (Z.shiftl (zlen iv) 3))))) =
    set_Yi c (be_bytes 16 (GHASH h 0 (gcm_pad iv ++ zrepeat 8 0 ++ be_bytes 8 (8 * zlen iv)))).
Proof.
  intros Hh HT Hiv Hl EY. assert (HY : bytes_ok (Yi c) /\ zlen (Yi c) = 16) by (rewrite EY; split; [by apply bytes_ok_zrepeat|done]). destruct HY as [HY LY].
  destruct (iv_blocks_spec (length iv) c iv HT HY LY Hiv) as (l1 & l2 & x & -> & Hl2 & Ha & Eb); [lia|]. exists (set_Yi c x), l2. split; [exact Eb|]. clear Eb.
  apply bytes_ok_app in Hiv as [Hi1 Hi2].
  assert (Hs : st_ok (x, 0)) by (rewrite <- Ha; apply absorb_ok; [split_and!; cbn [fst snd]; (done || lia)|done]). destruct Hs as (Hx & Lx & _). cbn [fst] in Hx, Lx.
  set (iv := l1 ++ l2) in *. set (y := GHASH h 0 (gcm_pad iv)). assert (Hy : is_u 128 y) by (by apply GHASH_range).
  assert (Ef : (if negb (zlen l2 =? 0) then ghash_mul h (xor_into x l2) else x) = be_bytes 16 y).
  { assert (H0 : is_u 128 0) by (unfold is_u; lia). assert (Hiv : bytes_ok iv) by (apply bytes_ok_app; exact (conj Hi1 Hi2)).
    unfold y. rewrite <- (flush_absorb h iv 0 Hh H0 Hiv). rewrite <- zeros_block, <- EY. unfold iv. rewrite absorb_app, Ha.
    rewrite absorb_part by lia. rewrite Z.add_0_l. replace (zlen l2 =? 16) with false by lia. rewrite xor_at_0. unfold flush. cbn [fst snd].
    destruct (zlen l2 =? 0) eqn:E; bool_simpl; [|done]. apply zlen_0 in E as ->. cbn [negb]. by rewrite <- xor_at_0, xor_at_nil. }
  cbv zeta. cbn [Yi set_Yi].
  assert (Ec : (if negb (zlen l2 =? 0) then GCM_MUL_Yi (set_Yi (set_Yi c x) (xor_into x l2)) else set_Yi c x) = set_Yi c (be_bytes 16 y)).
  { rewrite <- Ef. destruct (negb (zlen l2 =? 0)); [|done].
    rewrite mul_Yi_spec; [done|exact HT|by apply xor_into_ok|by rewrite length_xor_into]. }
  rewrite Ec. cbn [Yi set_Yi]. rewrite bswap8_le. replace (u64 (Z.shiftl (zlen iv) 3)) with (8 * zlen iv) by
    (rewrite Z.shiftl_mul_pow2, u64_small by (unfold is_u; rewrite ?Z.shiftl_mul_pow2 by lia; lia); lia).
  assert (Lb : zlen (zrepeat 8 0 ++ be_bytes 8 (8 * zlen iv)) = 16) by (rewrite length_app, length_be_bytes; done).
  assert (Hb : bytes_ok (zrepeat 8 0 ++ be_bytes 8 (8 * zlen iv))) by (apply bytes_ok_app; split; [by apply bytes_ok_zrepeat|apply be_bytes_ok]).
  rewrite xor_word_1_zeros by (apply be_bytes_ok || by rewrite length_be_bytes).
  rewrite mul_Yi_spec; [|exact HT|apply xor_into_ok; [apply be_bytes_ok|done]|by rewrite length_xor_into, length_be_bytes].
  rewrite ghash_mul_block by (apply be_bytes_ok || (by rewrite length_be_bytes) || done).
  rewrite GHASH_app by apply gcm_pad_mod. rewrite <- (app_nil_r (zrepeat 8 0 ++ _)), GHASH_cons, GHASH_nil by done. by rewrite be_val_16.
Qed.


(** * Lemmas: the counter *)

Lemma inc32_ok j0 k : bytes_ok j0 -> 12 <= zlen j0 -> bytes_ok (inc32 j0 k) /\ zlen (inc32 j0 k) = 16.
Proof.
  intros Hj Lj. unfold inc32. split; [apply bytes_ok_app; split; [by apply bytes_ok_ztake|apply be_bytes_ok]|].
  rewrite length_app, length_ztake, length_be_bytes. lia.
Qed.

Lemma inc32_0 j0 : bytes_ok j0 -> zlen j0 = 16 -> inc32 j0 0 = j0.
Proof.
  intros Hj Lj. unfold inc32. rewrite Z.add_0_r. replace 4%nat with (length (zdrop 12 j0)) by (rewrite length_zdrop; lia).
  rewrite be_bytes_be_val by by apply bytes_ok_zdrop. apply ztake_zdrop.
Qed.

Lemma get_ctr_spec c j0 k : 12 <= zlen j0 -> Yi c = inc32 j0 k -> get_ctr c = u32 (be_val (zdrop 12 j0) + k).
Proof.
  intros Lj HY. unfold get_ctr. rewrite HY. unfold inc32. rewrite zdrop_app by (rewrite length_ztake; lia). by rewrite be_val_be_bytes, u32_mod.
Qed.

Lemma put_ctr_spec c j0 k n : 12 <= zlen j0 -> Yi c = inc32 j0 k -> put_ctr c (u32 (be_val (zdrop 12 j0) + n)) = set_Yi c (inc32 j0 n).
Proof.
  intros Lj HY. unfold put_ctr. f_equal. rewrite HY. unfold inc32. rewrite <- (app_nil_r (be_bytes 4 (_ + k))).
  rewrite zsplice_app by (rewrite ?length_ztake, ?length_be_bytes; lia). rewrite app_nil_r. f_equal.
  rewrite u32_mod. apply (be_bytes_mod 4).
Qed.

(** * Lemmas: a context of its own *)

Definition zero_block : bytes := zrepeat 16 0.

Lemma setiv_eq E key c iv : is_u 128 h -> block_ok (fun b => block c b key) E -> multiples h (Htable c) -> bytes_ok iv -> zlen iv < 2 ^ 61 ->
  CRYPTO_gcm128_setiv c key iv = Some (mk_gcm (inc32 (gcm_J0 h iv) 1) (EKi c) (E (gcm_J0 h iv)) 0 0 zero_block (H c) (Htable c) 0 0 (block c)).
Proof.
  intros Hh HE HT Hiv Hl. unfold CRYPTO_gcm128_setiv, gcm_J0.
  set (c0 := set_mres _ 0). assert (H0 : c0 = mk_gcm zero_block (EKi c) (EK0 c) 0 0 zero_block (H c) (Htable c) 0 0 (block c)) by done.
  clearbody c0. destruct (zlen iv =? 12) eqn:E12; bool_simpl.
  - assert (EY : zsplice (zsplice zero_block 0 iv) 15 [1] = iv ++ be_bytes 4 1).
    { assert (E1 : zsplice zero_block 0 iv = iv ++ zrepeat 4 0).
      { apply (zsplice_app [] (zrepeat 12 0) (zrepeat 4 0)); [done|]. rewrite E12. done. }
      rewrite E1. change (zrepeat 4 0) with ([0; 0; 0] ++ [0] ++ []). rewrite app_assoc. rewrite (zsplice_app (iv ++ [0; 0; 0]) [0] [] [1]);
        [by rewrite <- app_assoc|rewrite length_app; cbn [length]; lia|done]. }
    subst c0. cbn [set_Yi Yi mbind option_bind]. rewrite EY.
    assert (HJ : bytes_ok (iv ++ be_bytes 4 1) /\ zlen (iv ++ be_bytes 4 1) = 16).
    { split; [apply bytes_ok_app; split; [done|apply be_bytes_ok]|rewrite length_app, length_be_bytes; lia]. }
    destruct HJ as [HJ LJ]. destruct (HE (iv ++ be_bytes 4 1)) as (EE & _ & _); [lia|done|]. cbv beta in EE. cbn [block Yi set_Yi]. rewrite EE. cbn [mbind option_bind]. f_equal.
    replace (u32 (1 + 1)) with (u32 (be_val (zdrop 12 (iv ++ be_bytes 4 1)) + 1)) by (by rewrite zdrop_app).
    rewrite (put_ctr_spec _ (iv ++ be_bytes 4 1) 0) by (first [lia|cbn [Yi set_EK0]; by rewrite inc32_0]). done.
  - destruct (iv_hash c0 iv Hh) as (c1 & rest & Eb & Ec); [by subst c0|done|done|by subst c0|]. rewrite Eb. cbn [mbind option_bind]. cbv zeta in Ec |- *.
    rewrite Ec. clear Eb Ec. set (J := be_bytes 16 _). assert (HJ : bytes_ok J) by apply be_bytes_ok. assert (LJ : zlen J = 16) by (unfold J; by rewrite length_be_bytes).
    subst c0. cbn [set_Yi Yi block]. destruct (HE J) as (EE & _ & _); [lia|done|]. cbv beta in EE. rewrite EE. cbn [mbind option_bind]. f_equal.
    rewrite (get_ctr_spec _ J 0), Z.add_0_r by (first [lia|cbn [Yi]; by rewrite inc32_0]). rewrite u32_add_l.
    rewrite (put_ctr_spec _ J 0) by (first [lia|cbn [Yi set_EK0]; by rewrite inc32_0]). done.
Qed.

(** The hash that [CRYPTO_gcm128_finish] leaves. *)
Definition finish_words c (alen clen : Z) : GCM128_CONTEXT Key :=
  let c := GCM_MUL_Xi (set_Xi (set_Xi c (xor_word (Xi c) 0 alen)) (xor_word (xor_word (Xi c) 0 alen) 1 clen)) in
  let c := set_Xi c (xor_word (Xi c) 0 (word (EK0 c) 0)) in
  set_Xi c (xor_word (Xi c) 1 (word (EK0 c) 1)).

Lemma finish_unfold c : snd (CRYPTO_gcm128_finish c None 0) =
  finish_words (if negb (mres c =? 0) || negb (ares c =? 0) then GCM_MUL_Xi c else c)
    (CRYPTO_bswap8 (u64 (Z.shiftl (len0 c) 3))) (CRYPTO_bswap8 (u64 (Z.shiftl (len1 c) 3))).
Proof. reflexivity. Qed.

Lemma finish_words_spec c x b : multiples h (Htable c) -> bytes_ok (EK0 c) -> zlen (EK0 c) = 16 -> bytes_ok x -> zlen x = 16 -> bytes_ok b -> zlen b = 16 ->
  Xi (finish_words (set_Xi c x) (le_val (ztake 8 b)) (le_val (zdrop 8 b))) = xor_bytes (ghash_mul h (xor_into x b)) (EK0 c).
Proof.
  intros HT HE LE Hx Lx Hb Lb. unfold finish_words. cbn [Xi set_Xi].
  assert (Lt : zlen (ztake 8 b) = 8) by (rewrite length_ztake; lia). assert (Ld : zlen (zdrop 8 b) = 8) by (rewrite length_zdrop; lia).
  rewrite (xor_words x) by (done || (by apply bytes_ok_ztake) || by apply bytes_ok_zdrop). rewrite ztake_zdrop.
  rewrite <- xor_into_bytes by lia. rewrite mul_Xi_spec; [|exact HT|by apply xor_into_ok|by rewrite length_xor_into].
  cbn [Xi set_Xi EK0]. destruct (ghash_mul_ok h (xor_into x b)) as [Hr Lr].
  unfold word. change (8 * 0) with 0. change (8 * 1) with 8. rewrite (zdrop_0 0) by lia. rewrite (ztake_all 8 (zdrop 8 _)) by (rewrite length_zdrop; lia).
  rewrite xor_words by (first [done|by apply bytes_ok_ztake|by apply bytes_ok_zdrop|rewrite ?length_ztake, ?length_zdrop; lia]). by rewrite ztake_zdrop.
Qed.

Lemma finish_eq c y : multiples h (Htable c) -> is_u 128 y -> 0 <= len0 c <= 2 ^ 61 - 1 -> 0 <= len1 c <= 2 ^ 61 - 1 -> bytes_ok (EK0 c) -> zlen (EK0 c) = 16 ->
  bytes_ok (Xi c) -> zlen (Xi c) = 16 ->
  (if negb (mres c =? 0) || negb (ares c =? 0) then ghash_mul h (Xi c) else Xi c) = be_bytes 16 y ->
  Xi (snd (CRYPTO_gcm128_finish c None 0)) = xor_bytes (be_bytes 16 (ghash_block h y (be_bytes 8 (8 * len0 c) ++ be_bytes 8 (8 * len1 c)))) (EK0 c).
Proof.
  intros HT Hy H0 H1 HE LE HX LX Hf. rewrite finish_unfold.
  assert (Ec : (if negb (mres c =? 0) || negb (ares c =? 0) then GCM_MUL_Xi c else c) = set_Xi c (be_bytes 16 y)).
  { destruct (negb (mres c =? 0) || negb (ares c =? 0)); rewrite <- Hf; [|by rewrite set_Xi_same].
    rewrite <- (set_Xi_same c) at 1. by apply mul_Xi_spec. }
  rewrite Ec. clear Ec Hf. rewrite !bswap8_le, !Z.shiftl_mul_pow2, !u64_small by (unfold is_u; lia). change (2 ^ 3) with 8. rewrite !(Z.mul_comm _ 8).
  assert (L8 : forall v, zlen (be_bytes 8 v) = 8) by (intros v; by rewrite length_be_bytes).
  set (b1 := be_bytes 8 (8 * len0 c)). set (b2 := be_bytes 8 (8 * len1 c)).
  assert (Hb : bytes_ok (b1 ++ b2)) by (apply bytes_ok_app; split; apply be_bytes_ok).
  assert (Lb : zlen (b1 ++ b2) = 16) by (rewrite length_app; pose proof (L8 (8 * len0 c)); pose proof (L8 (8 * len1 c)); unfold b1, b2; lia).
  pose proof (finish_words_spec c (be_bytes 16 y) (b1 ++ b2) HT HE LE (be_bytes_ok 16 y) ltac:(by rewrite length_be_bytes) Hb Lb) as E.
  rewrite ztake_app, zdrop_app in E by apply L8. rewrite E. f_equal.
  rewrite ghash_mul_block by (apply be_bytes_ok || (by rewrite length_be_bytes) || done). by rewrite be_val_16.
Qed.
End Pure.


(** * Lemmas: the bytes of a message *)

(** What the hash takes in where the code reads [b] and the key stream is [k]: the
    output when it encrypts, and the input when it decrypts. *)
Definition taken (g : Z -> Z -> Z) (m : mem) (inp len : Z) (ks : Z -> Z) : bytes :=
  map (fun i => g (byte m (inp + i)) (ks i)) (seqZ 0 len).
Definition enc_taken (b k : Z) : Z := Z.lxor b k.
Definition dec_taken (b k : Z) : Z := b.

Lemma length_taken g m inp len ks : length (taken g m inp len ks) = Z.to_nat len.
Proof. unfold taken. by rewrite length_map, length_seqZ. Qed.

Lemma taken_app g m inp a b ks : 0 <= a -> 0 <= b -> taken g m inp (a + b) ks = taken g m inp a ks ++ taken g m (inp + a) b (fun i => ks (a + i)).
Proof.
  intros Ha Hb. unfold taken. rewrite seqZ_app, map_app by lia. f_equal. rewrite Z.add_0_l. rewrite <- (Z.add_0_r a) at 1.
  rewrite <- fmap_add_seqZ. change (map ?f (?g <$> ?l)) with (f <$> (g <$> l)). rewrite <- list_fmap_compose. apply list_fmap_ext. intros i x _. unfold compose.
  by rewrite Z.add_assoc.
Qed.

Lemma taken_ext g m m' inp len ks ks' : (forall i, 0 <= i < len -> byte m (inp + i) = byte m' (inp + i)) -> (forall i, 0 <= i < len -> ks i = ks' i) ->
  taken g m inp len ks = taken g m' inp len ks'.
Proof.
  intros Hm Hk. unfold taken. apply map_ext_in. intros i Hi. apply list_elem_of_In, elem_of_seqZ in Hi. rewrite Hm, Hk by lia. done.
Qed.

Lemma taken_1 g m inp ks : taken g m inp 1 ks = [g (byte m inp) (ks 0)].
Proof. unfold taken. change (seqZ 0 1) with [0]. cbn [map]. by rewrite Z.add_0_r. Qed.

Lemma taken_0 g m inp ks : taken g m inp 0 ks = [].
Proof. reflexivity. Qed.

(** The bytes at [out] are those that were at [inp], xored with the stream. *)
Definition streamed (ks : Z -> Z) (inp out len : Z) (m m' : mem) : Prop :=
  upd (within out len) m m' /\ forall i, 0 <= i < len -> byte m' (out + i) = Z.lxor (byte m (inp + i)) (ks i).

Record gcm_buffers (inp out len : Z) (m : mem) : Prop := {
  gm_len : 0 <= len < 2 ^ 64;
  gm_mem : mem_bytes m;
  gm_inp : mapped m inp len;
  gm_out : mapped m out len;
  gm_alias : out <= inp \/ inp + len <= out;
}.

Lemma buffers_part inp out len a m m' A : gcm_buffers inp out len m -> upd A m m' -> mem_bytes m' -> 0 <= a <= len ->
  gcm_buffers (inp + a) (out + a) (len - a) m'.
Proof. intros [Hl _ Hi Ho Ha] Hu Hm Hal. split; [lia|done|mapped_tac|mapped_tac|lia]. Qed.

Lemma buffers_take inp out len a m : gcm_buffers inp out len m -> 0 <= a <= len -> gcm_buffers inp out a m.
Proof. intros [Hl Hm Hi Ho Ha] Hal. split; [lia|done|mapped_tac|mapped_tac|lia]. Qed.

Lemma streamed_0 ks inp out m : streamed ks inp out 0 m m.
Proof. split; [apply upd_refl|lia]. Qed.

Lemma streamed_ext ks ks' inp out len m m' : (forall i, 0 <= i < len -> ks i = ks' i) -> streamed ks inp out len m m' -> streamed ks' inp out len m m'.
Proof. intros Hk [Hu H]. split; [done|]. intros i Hi. by rewrite H, Hk. Qed.

(** Two pieces, one after the other. *)
Lemma streamed_app ks inp out a len m m1 m2 : gcm_buffers inp out len m -> 0 <= a <= len ->
  streamed ks inp out a m m1 -> streamed (fun i => ks (a + i)) (inp + a) (out + a) (len - a) m1 m2 -> streamed ks inp out len m m2.
Proof.
  intros [_ _ _ _ Hal] Ha [U1 H1] [U2 H2]. split.
  - eapply upd_trans; eapply upd_sub; [|exact U1| |exact U2]; unfold within; lia.
  - intros i Hi. destruct (Z.lt_ge_cases i a).
    + rewrite (upd_byte _ _ _ _ U2) by (unfold within; lia). apply H1. lia.
    + specialize (H2 (i - a) ltac:(lia)). replace (out + a + (i - a)) with (out + i) in H2 by lia.
      replace (inp + a + (i - a)) with (inp + i) in H2 by lia. replace (a + (i - a)) with i in H2 by lia. rewrite H2.
      rewrite (upd_byte _ _ _ _ U1) by (unfold within; lia). done.
Qed.

(** The input of the second piece is still there. *)
Lemma taken_streamed g ks inp out a len m m1 : gcm_buffers inp out len m -> 0 <= a <= len -> streamed ks inp out a m m1 ->
  taken g m inp a ks ++ taken g m1 (inp + a) (len - a) (fun i => ks (a + i)) = taken g m inp len ks.
Proof.
  intros [_ _ _ _ Hal] Ha [U1 _]. replace len with (a + (len - a)) at 2 by lia. rewrite taken_app by lia. f_equal.
  apply taken_ext; [|done]. intros i Hi. apply (upd_byte _ _ _ _ U1). unfold within. lia.
Qed.

Lemma lxor_byte a b : is_byte a -> is_byte b -> is_byte (Z.lxor a b).
Proof. apply lxor_is_u. lia. Qed.

Lemma runs_some {X Y} (o : option X) x (k : X -> M mem Y) m A (Q : Y -> mem -> Prop) : o = Some x -> runs (k x) m A Q -> runs (sbind (slift o) k) m A Q.
Proof. intros -> H. exact H. Qed.

(** A block of bytes. *)
Definition block16 (b : bytes) : Prop := bytes_ok b /\ zlen b = 16.

Section Memory.
Context {Key : Type} (h : Z).
Implicit Type c : GCM128_CONTEXT Key.

(** What the loops rely on of the steps. *)
Definition byte_step (g : Z -> Z -> Z) (do_byte : GCM128_CONTEXT Key -> Z -> Z -> Z -> M mem (GCM128_CONTEXT Key)) : Prop :=
  forall c inp out k m, mem_bytes m -> mapped m inp 1 -> mapped m out 1 -> bytes_ok (EKi c) ->
    runs (do_byte c inp out k) m (within out 1) (fun c' m' =>
      streamed (fun i => zget (EKi c) (k + i)) inp out 1 m m' /\ c' = xor_Xi c k (g (byte m inp) (zget (EKi c) k))).
Definition word_step (g : Z -> Z -> Z) (do_word : GCM128_CONTEXT Key -> Z -> Z -> Z -> M mem (GCM128_CONTEXT Key)) : Prop :=
  forall c inp out i m, mem_bytes m -> mapped m (inp + 8 * i) 8 -> mapped m (out + 8 * i) 8 -> bytes_ok (EKi c) -> zlen (EKi c) = 16 -> 0 <= i <= 1 ->
    runs (do_word c inp out i) m (within (out + 8 * i) 8) (fun c' m' =>
      streamed (fun j => zget (EKi c) (8 * i + j)) (inp + 8 * i) (out + 8 * i) 8 m m' /\
      c' = set_Xi c (xor_word (Xi c) i (le_val (taken g m (inp + 8 * i) 8 (fun j => zget (EKi c) (8 * i + j)))))).

Lemma load_1 inp m : mapped m inp 1 -> le_val (bytes_at m inp 1) = byte m inp.
Proof. intros Hm. unfold bytes_at. change (seqZ 0 1) with [0]. cbn [map]. rewrite Z.add_0_r. unfold le_val. cbn [rev app]. unfold be_val. cbn [fold_left]. lia. Qed.

Lemma store_1 v : is_byte v -> zget (le_bytes (Z.to_nat 1) v) 0 = v.
Proof. intros Hv. change (Z.to_nat 1) with 1%nat. rewrite le_bytes_S, zget_cons_0. apply Z.mod_small. exact Hv. Qed.


Lemma enc_byte_step : byte_step enc_taken enc_byte.
Proof.
  intros c inp out k m Hm Hi Ho HE. unfold enc_byte.
  eapply runs_bind; [apply runs_load_u with (Q := fun v m' => v = byte m inp /\ m' = m); [done|done|split; [by apply load_1|done]]|].
  intros ? ? _ _ [-> ->]. assert (Hb : is_byte (Z.lxor (byte m inp) (zget (EKi c) k))) by (apply lxor_byte; [by apply byte_is_byte|by apply zget_byte]).
  eapply runs_bind; [apply runs_store_u; [done|lia|done|done]|]. intros _ m' _ Hm' [Hu H]. apply runs_ret; [done|]. split; [|done].
  split; [done|]. intros i Hi'. replace i with 0 by lia. rewrite H by lia. rewrite store_1 by done. by rewrite !Z.add_0_r.
Qed.

Lemma dec_byte_step : byte_step dec_taken dec_byte.
Proof.
  intros c inp out k m Hm Hi Ho HE. unfold dec_byte.
  eapply runs_bind; [apply runs_load_u with (Q := fun v m' => v = byte m inp /\ m' = m); [done|done|split; [by apply load_1|done]]|].
  intros ? ? _ _ [-> ->]. assert (Hb : is_byte (Z.lxor (byte m inp) (zget (EKi c) k))) by (apply lxor_byte; [by apply byte_is_byte|by apply zget_byte]).
  eapply runs_bind; [apply runs_store_u; [done|lia|done|done]|]. intros _ m' _ Hm' [Hu H]. apply runs_ret; [done|]. split; [|done].
  split; [done|]. intros i Hi'. replace i with 0 by lia. rewrite H by lia. rewrite store_1 by done. by rewrite !Z.add_0_r.
Qed.


Lemma bytes_at_taken m a len ks : bytes_at m a len = taken dec_taken m a len ks.
Proof. reflexivity. Qed.

(** A word of the key stream xored with a word of the input. *)
Lemma word_xor c inp i m : mem_bytes m -> bytes_ok (EKi c) -> zlen (EKi c) = 16 -> 0 <= i <= 1 ->
  let t := taken enc_taken m inp 8 (fun j => zget (EKi c) (8 * i + j)) in
  Z.lxor (le_val (bytes_at m inp 8)) (word (EKi c) i) = le_val t /\ bytes_ok t /\ le_bytes 8 (le_val t) = t.
Proof.
  intros Hm HE LE Hi t. set (e := ztake 8 (zdrop (8 * i) (EKi c))). set (b := bytes_at m inp 8).
  assert (Le : length e = 8%nat) by (unfold e; rewrite length_ztake, length_zdrop; lia).
  assert (He : bytes_ok e) by (by apply bytes_ok_ztake, bytes_ok_zdrop).
  assert (Lb : length b = 8%nat) by (unfold b; by rewrite length_bytes_at). assert (Hb : bytes_ok b) by (by apply bytes_at_ok).
  assert (Et : xor_bytes b e = t).
  { apply zget_ext; [unfold t; rewrite length_xor_bytes, length_taken; lia|]. rewrite length_xor_bytes. intros j Hj.
    rewrite zget_xor_bytes by lia. unfold t, taken, zget at 3. erewrite nth_lookup_Some; [|apply list_lookup_fmap_Some; exists j; split; [done|apply lookup_seqZ; lia]].
    unfold enc_taken, b, e. rewrite zget_bytes_at, zget_ztake, zget_zdrop by lia. done. }
  pose proof (le_bytes_lxor b e Hb He ltac:(lia)) as E. rewrite Lb, Et in E. change (le_val e) with (word (EKi c) i) in E.
  assert (Ht : bytes_ok t) by (rewrite <- Et; by apply xor_bytes_ok). assert (Lt : length t = 8%nat) by (rewrite <- Et, length_xor_bytes; lia).
  split; [|split; [done|by rewrite <- Lt at 1; apply le_bytes_le_val]]. rewrite <- E, le_val_le_bytes. symmetry. apply Z.mod_small.
  change (256 ^ Z.of_nat 8) with (2 ^ 64).
  apply (lxor_is_u 64); [lia| |].
  - pose proof (le_val_bound b Hb) as B. rewrite Lb in B. exact B.
  - pose proof (le_val_bound e He) as B. rewrite Le in B. exact B.
Qed.

Lemma zget_taken g m inp len ks j : 0 <= j < len -> zget (taken g m inp len ks) j = g (byte m (inp + j)) (ks j).
Proof.
  intros Hj. unfold taken, zget. erewrite nth_lookup_Some; [reflexivity|]. apply list_lookup_fmap_Some. exists j. split; [done|]. apply lookup_seqZ. lia.
Qed.

Lemma enc_word_step : word_step enc_taken enc_word.
Proof.
  intros c inp out i m Hm Hi Ho HE LE Hi2. destruct (word_xor c (inp + 8 * i) i m Hm HE LE Hi2) as (Ew & Ht & El). unfold enc_word.
  eapply runs_bind; [apply runs_load_u with (Q := fun v m' => v = le_val (bytes_at m (inp + 8 * i) 8) /\ m' = m); done|].
  intros ? ? _ _ [-> ->]. rewrite Ew. eapply runs_bind; [apply runs_store_u; [done|lia|done|done]|]. intros _ m' _ Hm' [Hu H].
  apply runs_ret; [done|]. split; [|done]. split; [done|]. intros j Hj. rewrite H by done. change (Z.to_nat 8) with 8%nat. rewrite El. by rewrite zget_taken.
Qed.

Lemma dec_word_step : word_step dec_taken dec_word.
Proof.
  intros c inp out i m Hm Hi Ho HE LE Hi2. destruct (word_xor c (inp + 8 * i) i m Hm HE LE Hi2) as (Ew & Ht & El). unfold dec_word.
  eapply runs_bind; [apply runs_load_u with (Q := fun v m' => v = le_val (bytes_at m (inp + 8 * i) 8) /\ m' = m); done|].
  intros ? ? _ _ [-> ->]. rewrite Ew. eapply runs_bind; [apply runs_store_u; [done|lia|done|done]|]. intros _ m' _ Hm' [Hu H].
  apply runs_ret; [done|]. split; [|done]. split; [done|]. intros j Hj. rewrite H by done. change (Z.to_nat 8) with 8%nat. rewrite El. by rewrite zget_taken.
Qed.

Context (g : Z -> Z -> Z) (do_byte do_word : GCM128_CONTEXT Key -> Z -> Z -> Z -> M mem (GCM128_CONTEXT Key)).
Hypothesis Hg : forall b k, is_byte b -> is_byte k -> is_byte (g b k).
Hypothesis Hbyte : byte_step g do_byte.
Hypothesis Hword : word_step g do_word.

Lemma taken_ok m inp len ks : mem_bytes m -> (forall i, 0 <= i < len -> is_byte (ks i)) -> bytes_ok (taken g m inp len ks).
Proof using Hg.
  intros Hm Hk. apply Forall_map, Forall_forall. intros i Hi%elem_of_seqZ. apply Hg; [by apply byte_is_byte|apply Hk; lia].
Qed.

(** The key bytes from index [n] of the current block. *)
Abbreviation eki c n := (fun i => zget (EKi c) (n + i)).

(** [while (n && len)]: up to the end of the block. *)
Lemma crypt_head_spec fuel : forall c inp out len n m, gcm_buffers inp out len m -> bytes_ok (EKi c) -> zlen (Xi c) = 16 -> 0 <= n < 16 -> (n = 0 \/ 16 - n <= Z.of_nat fuel) ->
  runs (crypt_head do_byte fuel c inp out len n) m (within out len) (fun r m' => exists a, 0 <= a <= len /\ n + a <= 16 /\ (n = 0 -> a = 0) /\
    (n = 0 \/ n + a = 16 \/ a = len) /\
    r = (set_Xi c (xor_at (Xi c) n (taken g m inp a (eki c n))), inp + a, out + a, len - a, (n + a) mod 16) /\
    streamed (eki c n) inp out a m m').
Proof using Hbyte.
  assert (H0 : forall c inp out len n m, gcm_buffers inp out len m -> 0 <= n < 16 -> (n = 0 \/ len = 0) ->
    runs (sret (c, inp, out, len, n)) m (within out len) (fun r m' => exists a, 0 <= a <= len /\ n + a <= 16 /\ (n = 0 -> a = 0) /\
    (n = 0 \/ n + a = 16 \/ a = len) /\
    r = (set_Xi c (xor_at (Xi c) n (taken g m inp a (eki c n))), inp + a, out + a, len - a, (n + a) mod 16) /\
    streamed (eki c n) inp out a m m')).
  { intros c inp out len n m [Hl Hm _ _ _] Hn Hor. apply runs_ret; [done|]. exists 0. rewrite taken_0, xor_at_nil, set_Xi_same, !Z.add_0_r, Z.sub_0_r, Z.mod_small by lia.
    split_and!; [lia|lia|lia|lia|lia|done|apply streamed_0]. }
  induction fuel as [|fuel IH]; intros c inp out len n m B HE LX Hn Hf; cbn [crypt_head]; pose proof B as [Hl Hm Hi Ho Hal];
    destruct (n =? 0) eqn:E1; destruct (len =? 0) eqn:E2; cbn [orb]; bool_simpl; try (apply H0; [done|done|lia]); [lia|].
  eapply runs_bind; [eapply runs_sub; [apply Hbyte; [done|mapped_tac|mapped_tac|done]|unfold within; lia|intros c' m' _ _ HQ; exact HQ]|].
  intros ? m1 Hu1 Hm1 [S1 ->]. rewrite xor_Xi_at by lia. set (b := g (byte m inp) (zget (EKi c) n)).
  assert (E1b : [b] = taken g m inp 1 (eki c n)) by (rewrite taken_1; unfold b; by rewrite Z.add_0_r).
  pose proof (buffers_part inp out len 1 m m1 _ B Hu1 Hm1 ltac:(lia)) as B1.
  destruct (Z.eq_dec n 15) as [->|].
  - change ((15 + 1) mod 16) with 0. assert (Hd : forall fuel, crypt_head do_byte fuel (set_Xi c (xor_at (Xi c) 15 [b])) (inp + 1) (out + 1) (len - 1) 0 = sret (set_Xi c (xor_at (Xi c) 15 [b]), inp + 1, out + 1, len - 1, 0)) by (by intros []).
    rewrite Hd. apply runs_ret; [done|]. exists 1. rewrite <- E1b. split_and!; [lia|lia|lia|lia|lia|done|done].
  - rewrite Z.mod_small by lia. eapply runs_sub; [apply IH; [exact B1|exact HE|cbn [Xi set_Xi]; by rewrite length_xor_at|lia|lia]|unfold within; lia|].
    intros r m2 _ _ (a & Ha & Hna & _ & Hend & -> & S2). exists (1 + a). cbn [Xi set_Xi EKi] in *.
    assert (Bt : gcm_buffers inp out (1 + a) m) by (by eapply buffers_take; [exact B|lia]).
    assert (S12 : streamed (eki c n) inp out (1 + a) m m2).
    { eapply (streamed_app _ _ _ 1 (1 + a)); [exact Bt|lia|exact S1|]. replace (1 + a - 1) with a by lia. eapply streamed_ext; [|exact S2].
      intros i Hi'. cbv beta. f_equal. lia. }
    split_and!; [lia|lia|lia|lia|lia| |exact S12]. rewrite E1b.
    assert (L1 : zlen (taken g m inp 1 (eki c n)) = 1) by (by rewrite length_taken).
    assert (Ex : xor_at (xor_at (Xi c) n (taken g m inp 1 (eki c n))) (n + 1) (taken g m1 (inp + 1) a (eki c (n + 1))) =
      xor_at (Xi c) n (taken g m inp (1 + a) (eki c n))).
    { rewrite <- L1 at 2. rewrite xor_at_app by (rewrite ?L1, ?length_taken; lia). f_equal.
      rewrite <- (taken_streamed g (eki c n) inp out 1 (1 + a) m m1) by (done || lia). f_equal. replace (1 + a - 1) with a by lia.
      apply taken_ext; [done|]. intros i Hi'. cbv beta. f_equal. lia. }
    rewrite Ex, <- !Z.add_assoc, <- Z.sub_add_distr. reflexivity.
Qed.

(** [while (len--)]: an incomplete block. *)
Lemma crypt_tail_spec len : forall c inp out n m, gcm_buffers (inp + n) (out + n) (Z.of_nat len) m -> bytes_ok (EKi c) -> zlen (Xi c) = 16 -> 0 <= n -> n + Z.of_nat len <= 16 ->
  runs (crypt_tail do_byte len c inp out n) m (within (out + n) (Z.of_nat len)) (fun r m' =>
    r = (set_Xi c (xor_at (Xi c) n (taken g m (inp + n) (Z.of_nat len) (eki c n))), n + Z.of_nat len) /\
    streamed (eki c n) (inp + n) (out + n) (Z.of_nat len) m m').
Proof using Hbyte.
  induction len as [|len IH]; intros c inp out n m B HE LX Hn Hl; pose proof B as [_ Hm Hi Ho Hal]; cbn [crypt_tail].
  - apply runs_ret; [done|]. change (Z.of_nat 0) with 0. rewrite taken_0, xor_at_nil, set_Xi_same, Z.add_0_r. split; [done|apply streamed_0].
  - rewrite Nat2Z.inj_succ, <- Z.add_1_l in *.
    eapply runs_bind; [eapply runs_sub; [apply Hbyte; [done|mapped_tac|mapped_tac|done]|unfold within; lia|intros c' m' _ _ HQ; exact HQ]|].
    intros ? m1 Hu1 Hm1 [S1 ->]. rewrite xor_Xi_at by lia. set (b := g (byte m (inp + n)) (zget (EKi c) n)).
    assert (E1b : [b] = taken g m (inp + n) 1 (eki c n)) by (rewrite taken_1; unfold b; by rewrite Z.add_0_r).
    pose proof (buffers_part (inp + n) (out + n) (1 + Z.of_nat len) 1 m m1 _ B Hu1 Hm1 ltac:(lia)) as B1. replace (1 + Z.of_nat len - 1) with (Z.of_nat len) in B1 by lia.
    eapply runs_sub; [apply IH; [rewrite !Z.add_assoc; exact B1|exact HE|cbn [Xi set_Xi]; by rewrite length_xor_at|lia|lia]|unfold within; lia|].
    intros r m2 _ _ (-> & S2). cbn [Xi set_Xi EKi] in *. rewrite !Z.add_assoc in *.
    split.
    + rewrite E1b. assert (L1 : zlen (taken g m (inp + n) 1 (eki c n)) = 1) by (by rewrite length_taken).
      assert (Ex : xor_at (xor_at (Xi c) n (taken g m (inp + n) 1 (eki c n))) (n + 1) (taken g m1 (inp + n + 1) (Z.of_nat len) (eki c (n + 1))) =
        xor_at (Xi c) n (taken g m (inp + n) (1 + Z.of_nat len) (eki c n))).
      { rewrite <- L1 at 2. rewrite xor_at_app by (rewrite ?L1, ?length_taken; lia). f_equal.
        rewrite <- (taken_streamed g (eki c n) (inp + n) (out + n) 1 (1 + Z.of_nat len) m m1) by (done || lia). f_equal. replace (1 + Z.of_nat len - 1) with (Z.of_nat len) by lia.
        apply taken_ext; [done|]. intros i Hi'. cbv beta. f_equal. lia. }
      rewrite Ex. f_equal.
    + eapply (streamed_app _ _ _ 1 (1 + Z.of_nat len)); [exact B|lia|exact S1|]. replace (1 + Z.of_nat len - 1) with (Z.of_nat len) by lia. eapply streamed_ext; [|exact S2].
      intros i Hi'. cbv beta. f_equal. lia.
Qed.


(** * Lemmas: a message *)

Context (E : bytes -> bytes) (key : Key) (j0 A : bytes).
Hypothesis Hj0 : block16 j0.
Hypothesis HA : bytes_ok A.

(** What the calls on a message leave alone. *)
Record fixed c : Prop := {
  fx_block : block_ok (fun b => block c b key) E;
  fx_table : multiples h (Htable c);
  fx_EK0 : EK0 c = E j0;
  fx_len0 : len0 c = zlen A;
}.

(** The hash where the text starts. *)
Definition aad_end : bytes * Z := (flush h (absorb h (zero_block, 0) A), 0).

(** The context after the text [X] (the ciphertext), [n] bytes of whose last block are
    taken in: the hash, and the counter. *)
Definition at_hash (X : bytes) (n : Z) c : Prop := ares c = 0 /\ (Xi c, n) = absorb h aad_end X /\ bytes_ok X.
Record at_text (X : bytes) (n : Z) c : Prop := {
  at_Yi : Yi c = inc32 j0 (1 + (zlen X + 15) / 16);
  at_EKi : zlen X mod 16 <> 0 -> EKi c = E (inc32 j0 (1 + zlen X / 16));
  at_hashed : at_hash X n c;
}.

Abbreviation stream p := (fun i => gcm_stream E j0 (p + i)).

Lemma aad_end_ok : st_ok aad_end.
Proof using HA.
  assert (Hz : st_ok (zero_block, 0)) by (split_and!; cbn [fst snd]; [by apply bytes_ok_zrepeat|done|lia|lia]).
  destruct (absorb_ok h A _ Hz HA) as (Hx & Lx & Hn). unfold aad_end, flush. destruct (snd _ =? 0).
  - split_and!; cbn [fst snd]; (done || lia).
  - destruct (ghash_mul_ok h (absorb h (zero_block, 0) A).1) as [H1 H2]. split_and!; cbn [fst snd]; (done || lia).
Qed.

Lemma at_hash_ok X n c : at_hash X n c -> bytes_ok (Xi c) /\ zlen (Xi c) = 16 /\ n = zlen X mod 16 /\ 0 <= n < 16.
Proof using HA.
  intros (_ & HX & Hb). destruct (absorb_ok h X _ aad_end_ok Hb) as (H1 & H2 & H3). rewrite <- HX in H1, H2, H3. cbn [fst snd] in *.
  split_and!; try done; try lia. pose proof (absorb_mod h X aad_end) as Hm. rewrite <- HX in Hm. cbn [fst snd aad_end] in Hm. by rewrite Hm.
Qed.

Lemma E_ok c k : fixed c -> E (inc32 j0 k) = E (inc32 j0 k) /\ bytes_ok (E (inc32 j0 k)) /\ zlen (E (inc32 j0 k)) = 16.
Proof using Hj0.
  intros F. destruct Hj0 as [Hj Lj]. destruct (inc32_ok j0 k Hj ltac:(lia)) as [Hi Li].
  destruct (fx_block _ F (inc32 j0 k)) as (_ & HL & HB); [lia|done|]. split_and!; [done|done|lia].
Qed.

Lemma gcm_stream_byte c p : fixed c -> is_byte (gcm_stream E j0 p).
Proof using Hj0. intros F. apply zget_byte. by apply (E_ok c). Qed.

(** The bytes of one block of the stream. *)
Lemma stream_block p i : 0 <= p mod 16 + i < 16 -> gcm_stream E j0 (p + i) = zget (E (inc32 j0 (1 + p / 16))) (p mod 16 + i).
Proof.
  intros Hi. unfold gcm_stream. replace ((p + i) / 16) with (p / 16) by (Z.to_euclidean_division_equations; lia).
  f_equal. Z.to_euclidean_division_equations; lia.
Qed.

(** More text within a block. *)
Lemma at_text_part X n c t a : at_hash X n c -> bytes_ok t -> zlen t = a -> n + a <= 16 -> 0 < a -> EKi c = E (inc32 j0 (1 + zlen X / 16)) ->
  Yi c = inc32 j0 (1 + (zlen X + a + 15) / 16) -> multiples h (Htable c) ->
  at_text (X ++ t) ((n + a) mod 16) (if n + a =? 16 then GCM_MUL_Xi (set_Xi c (xor_at (Xi c) n t)) else set_Xi c (xor_at (Xi c) n t)).
Proof using HA.
  intros HT Ht La Hna Ha HE HY HM. destruct (at_hash_ok _ _ _ HT) as (Hx & Lx & Hn & Hn16). pose proof HT as (Har & HX & Hb).
  assert (HX2 : absorb h aad_end (X ++ t) = if n + a =? 16 then (ghash_mul h (xor_at (Xi c) n t), 0) else (xor_at (Xi c) n t, n + a)).
  { rewrite absorb_app, <- HX, absorb_part by lia. by rewrite La. }
  rewrite (mul_Xi_spec h) by (done || (by apply xor_at_ok) || by rewrite length_xor_at).
  assert (Lt : zlen (X ++ t) = zlen X + a) by (rewrite length_app; lia).
  destruct (n + a =? 16) eqn:E16; bool_simpl; (split; [| |split_and!]; cbn [Yi EKi ares Xi set_Xi]; rewrite ?Lt; [done| |done| |by apply bytes_ok_app]).
  - intros Hne. exfalso. apply Hne. rewrite Hn in E16. Z.to_euclidean_division_equations; lia.
  - rewrite HX2, E16. done.
  - intros _. rewrite HE. do 2 f_equal. assert (n + a < 16) by lia. clear - Hn H0 Ha. Z.to_euclidean_division_equations; lia.
  - rewrite HX2, Z.mod_small by lia. done.
Qed.

(** A block of the key stream, where the text ends with a block. *)
Lemma next_block_spec X c ctr : fixed c -> at_text X 0 c -> ctr = get_ctr c ->
  next_block c key ctr = Some (set_Yi (set_EKi c (E (inc32 j0 (1 + zlen X / 16)))) (inc32 j0 (2 + zlen X / 16)), u32 (ctr + 1)).
Proof using Hj0 HA.
  intros F HT ->. destruct (at_hash_ok _ _ _ (at_hashed _ _ _ HT)) as (_ & _ & Hn & _). destruct Hj0 as [Hj Lj]. pose proof (at_Yi _ _ _ HT) as HY.
  replace ((zlen X + 15) / 16) with (zlen X / 16) in HY by (Z.to_euclidean_division_equations; lia).
  destruct (inc32_ok j0 (1 + zlen X / 16) Hj ltac:(lia)) as [Hi Li].
  destruct (fx_block _ F (inc32 j0 (1 + zlen X / 16))) as (EE & _ & _); [lia|done|]. cbv beta in EE.
  unfold next_block. rewrite HY, EE. cbn [mbind option_bind]. rewrite (get_ctr_spec c j0 _ ltac:(lia) HY), u32_add_l.
  f_equal. f_equal. rewrite <- Z.add_assoc. rewrite (put_ctr_spec _ j0 (1 + zlen X / 16)) by (lia || exact HY). f_equal. f_equal. lia.
Qed.

Lemma fixed_same c c' : fixed c -> block c' = block c -> Htable c' = Htable c -> EK0 c' = EK0 c -> len0 c' = len0 c -> fixed c'.
Proof. intros [H1 H2 H3 H4] E1 E2 E3 E4. split; by rewrite ?E1, ?E2, ?E3, ?E4. Qed.


(** A whole block, at the end of one. *)
Lemma crypt_blocks_step {X} (K : GCM128_CONTEXT Key -> M mem X) (Q : X -> mem -> Prop) T c inp out m (F : Z -> Prop) :
  let c1 := set_Yi (set_EKi c (E (inc32 j0 (1 + zlen T / 16)))) (inc32 j0 (2 + zlen T / 16)) in
  fixed c -> at_text T 0 c -> gcm_buffers inp out 16 m -> (forall x, within out 16 x -> F x) ->
  (forall c' m', upd (within out 16) m m' -> mem_bytes m' -> streamed (stream (zlen T)) inp out 16 m m' ->
    fixed c' -> len1 c' = len1 c -> at_text (T ++ taken g m inp 16 (stream (zlen T))) 0 c' -> get_ctr c' = u32 (get_ctr c + 1) -> runs (K c') m' F Q) ->
  runs (let* c := do_word c1 inp out 0 in let* c := do_word c inp out 1 in K (GCM_MUL_Xi c)) m F Q.
Proof using Hj0 HA Hg Hword.
  intros c1 Fx HT B HF HK. pose proof B as [_ Hm Hi Ho Hal]. destruct (at_hash_ok _ _ _ (at_hashed _ _ _ HT)) as (Hx & Lx & Hn & _).
  destruct (E_ok c (1 + zlen T / 16) Fx) as (_ & HE & LE). set (e := E (inc32 j0 (1 + zlen T / 16))) in *.
  assert (Hs : forall i, 0 <= i < 16 -> gcm_stream E j0 (zlen T + i) = zget e i).
  { intros i Hi'. rewrite stream_block by lia. rewrite <- Hn. done. }
  eapply runs_bind; [eapply runs_sub; [apply (Hword c1 inp out 0); [done|mapped_tac|mapped_tac|done|done|lia]|intros x Hx'; apply HF; unfold within in *; lia|intros c' m' Hu _ HQ; exact (conj Hu HQ)]|].
  intros ? m1 _ Hm1 [Hu1 [S1 ->]]. change (8 * 0) with 0 in *. rewrite !Z.add_0_r in *. set (t1 := taken g m inp 8 _).
  pose proof (buffers_part inp out 16 8 m m1 _ B Hu1 Hm1 ltac:(lia)) as [_ _ Hi1 Ho1 _].
  eapply runs_bind; [eapply runs_sub; [apply (Hword (set_Xi c1 (xor_word (Xi c1) 0 (le_val t1))) inp out 1); [done|exact Hi1|exact Ho1|done|done|lia]|intros x Hx'; apply HF; unfold within in *; lia|intros c' m' Hu _ HQ; exact (conj Hu HQ)]|].
  intros ? m2 _ Hm2 [Hu2 [S2 ->]]. change (8 * 1) with 8 in *. cbn [Xi set_Xi EKi] in *. set (t2 := taken g m1 (inp + 8) 8 _).
  assert (S1' : streamed (stream (zlen T)) inp out 8 m m1).
  { eapply streamed_ext; [|exact S1]. intros i Hi'. cbv beta. rewrite Hs by lia. done. }
  assert (S12 : streamed (stream (zlen T)) inp out 16 m m2).
  { eapply (streamed_app _ _ _ 8); [exact B|lia|exact S1'|]. eapply streamed_ext; [|exact S2]. intros i Hi'. cbv beta. rewrite Hs by lia. done. }
  assert (Et : t1 ++ t2 = taken g m inp 16 (stream (zlen T))).
  { rewrite <- (taken_streamed g _ inp out 8 16 m m1 B ltac:(lia) S1').
    f_equal; (apply taken_ext; [done|]); intros i Hi'; cbv beta; by rewrite Hs by lia. }
  assert (Hb1 : forall i, is_byte (zget e i)) by (intros i; by apply zget_byte).
  assert (Hb : bytes_ok t1 /\ bytes_ok t2) by (split; apply taken_ok; intros; (done || apply Hb1)). destruct Hb as [Hb1' Hb2].
  assert (L1 : zlen t1 = 8) by (by unfold t1; rewrite length_taken). assert (L2 : zlen t2 = 8) by (by unfold t2; rewrite length_taken).
  assert (L12 : zlen (t1 ++ t2) = 16) by (rewrite length_app; lia). assert (Hb12 : bytes_ok (t1 ++ t2)) by by apply bytes_ok_app.
  change (Xi c1) with (Xi c). rewrite xor_words by done. rewrite <- xor_into_bytes by lia. rewrite <- xor_at_0. rewrite Et in *.
  set (t := taken g m inp 16 (stream (zlen T))) in *.
  change (set_Xi (set_Xi c1 ?a) ?b) with (set_Xi c1 b).
  assert (HT2 : at_text (T ++ t) 0 (GCM_MUL_Xi (set_Xi c1 (xor_at (Xi c) 0 t)))).
  { apply (at_text_part T 0 c1 t 16); [exact (at_hashed _ _ _ HT)|done|done|lia|lia|done| |apply Fx]. cbn [Yi c1 set_Yi].
    f_equal. clear - Hn. Z.to_euclidean_division_equations; lia. }
  assert (HM : GCM_MUL_Xi (set_Xi c1 (xor_at (Xi c) 0 t)) = set_Xi c1 (ghash_mul h (xor_at (Xi c) 0 t))).
  { apply mul_Xi_spec; [apply Fx|by apply xor_at_ok|by rewrite length_xor_at]. }
  rewrite HM in *. apply HK; [|done|done|by apply (fixed_same c)|done|done|].
  - apply S12.
  - pose proof (at_Yi _ _ _ HT) as HY. pose proof (at_Yi _ _ _ HT2) as HY2. destruct Hj0 as [_ Lj].
    rewrite (get_ctr_spec _ j0 _ ltac:(lia) HY), (get_ctr_spec _ j0 _ ltac:(lia) HY2), u32_add_l. f_equal. rewrite length_app.
    clear - Hn L12. Z.to_euclidean_division_equations; lia.
Qed.


(** What [a] bytes of the message at [inp] do to a context that stands after [T]. *)
Definition moved (T : bytes) (n : Z) c (inp out a : Z) (m : mem) c' (m' : mem) : Prop :=
  streamed (stream (zlen T)) inp out a m m' /\ fixed c' /\ len1 c' = len1 c /\ at_text (T ++ taken g m inp a (stream (zlen T))) n c'.

Lemma moved_0 T n c inp out m : fixed c -> at_text T n c -> moved T n c inp out 0 m c m.
Proof. intros F HT. split_and!; [apply streamed_0|done|done|]. by rewrite taken_0, app_nil_r. Qed.

Lemma moved_app T n1 n2 c inp out a len m c1 m1 c2 m2 : gcm_buffers inp out len m -> 0 <= a <= len ->
  moved T n1 c inp out a m c1 m1 -> moved (T ++ taken g m inp a (stream (zlen T))) n2 c1 (inp + a) (out + a) (len - a) m1 c2 m2 ->
  moved T n2 c inp out len m c2 m2.
Proof.
  intros B Ha (S1 & _ & E1 & _) (S2 & F2 & E2 & H2).
  assert (Hs : forall i, stream (zlen (T ++ taken g m inp a (stream (zlen T)))) i = stream (zlen T) (a + i)).
  { intros i. cbv beta. rewrite length_app, length_taken. f_equal. lia. }
  split_and!; [|done|congruence|].
  - eapply streamed_app; [exact B|exact Ha|exact S1|]. eapply streamed_ext; [|exact S2]. intros i _. apply Hs.
  - replace (T ++ taken g m inp len (stream (zlen T))) with ((T ++ taken g m inp a (stream (zlen T))) ++ taken g m1 (inp + a) (len - a) (stream (zlen (T ++ taken g m inp a (stream (zlen T))))));
      [done|]. rewrite <- app_assoc. f_equal. rewrite <- (taken_streamed g _ inp out a len m m1 B Ha S1). f_equal. apply taken_ext; [done|]. intros i _. apply Hs.
Qed.

Lemma crypt_blocks_spec fuel : forall T c inp out len ctr m, fixed c -> at_text T 0 c -> gcm_buffers inp out len m -> ctr = get_ctr c -> len / 16 <= Z.of_nat fuel ->
  runs (crypt_blocks do_word fuel c key inp out len ctr) m (within out len) (fun r m' => exists a c', 0 <= a <= len /\ len - a < 16 /\
    r = (c', inp + a, out + a, len - a, get_ctr c') /\ moved T 0 c inp out a m c' m').
Proof using Hj0 HA Hg Hword.
  induction fuel as [|fuel IH]; intros T c inp out len ctr m F HT B Hc Hf; pose proof B as [Hl Hm Hi Ho Hal]; cbn [crypt_blocks]; case_if.
  1,3: apply runs_ret; [done|]; exists 0, c; rewrite Hc, !Z.add_0_r, Z.sub_0_r; (split_and!; [lia|lia|lia|done|by apply moved_0]).
  - exfalso. Z.to_euclidean_division_equations; lia.
  - eapply runs_some; [by apply (next_block_spec T)|]. cbv beta iota.
    assert (B16 : gcm_buffers inp out 16 m) by (eapply buffers_take; [exact B|lia]).
    apply (crypt_blocks_step (fun c => crypt_blocks do_word fuel c key (inp + 16) (out + 16) (len - 16) (u32 (ctr + 1))) _ T c inp out m); [done|done|done|unfold within; lia|].
    intros c' m1 Hu1 Hm1 S1 F1 E1 H1 Hctr.
    pose proof (buffers_part inp out len 16 m m1 _ B Hu1 Hm1 ltac:(lia)) as B1.
    eapply runs_sub; [eapply (IH _ c' (inp + 16) (out + 16) (len - 16) (u32 (ctr + 1)) m1 F1 H1 B1); [by rewrite Hctr, Hc|Z.to_euclidean_division_equations; lia]|unfold within; lia|].
    intros r m2 _ _ (a & c2 & Ha & Hend & -> & Hmv). exists (16 + a), c2. split_and!; [lia|lia|lia|by rewrite !Z.add_assoc, Z.sub_add_distr|].
    assert (Bt : gcm_buffers inp out (16 + a) m) by (eapply buffers_take; [exact B|lia]).
    apply (moved_app T 0 0 c inp out 16 (16 + a) m c' m1); [done|lia|by split_and!|]. by replace (16 + a - 16) with a by lia.
Qed.

Lemma crypt_last_spec T c inp out len ctr m : fixed c -> at_text T 0 c -> gcm_buffers inp out len m -> ctr = get_ctr c -> len < 16 ->
  runs (crypt_last do_byte c key inp out len 0 ctr) m (within out len) (fun r m' => exists c' n, r = (c', n) /\ moved T n c inp out len m c' m').
Proof using Hj0 HA Hg Hbyte.
  intros F HT B Hc Hl16. pose proof B as [Hl Hm Hi Ho Hal]. unfold crypt_last. case_if.
  - subst len. apply runs_ret; [done|]. exists c, 0. split; [done|by apply moved_0].
  - eapply runs_some; [by apply (next_block_spec T)|]. cbv beta iota. destruct (at_hash_ok _ _ _ (at_hashed _ _ _ HT)) as (Hx & Lx & Hn & _).
    destruct (E_ok c (1 + zlen T / 16) F) as (_ & HE & LE). set (e := E (inc32 j0 (1 + zlen T / 16))) in *. set (c1 := set_Yi (set_EKi c e) _).
    assert (B0 : gcm_buffers (inp + 0) (out + 0) (Z.of_nat (Z.to_nat len)) m) by (rewrite !Z.add_0_r, Z2Nat.id by lia; done).
    eapply runs_sub; [apply (crypt_tail_spec (Z.to_nat len) c1 inp out 0 m B0); [done|done|lia|lia]|rewrite !Z.add_0_r, Z2Nat.id by lia; done|].
    rewrite !Z.add_0_r, !Z.add_0_l, !Z2Nat.id by lia. intros r m' _ _ [-> S]. eexists _, _. split; [reflexivity|].
    assert (Hs : forall i, 0 <= i < len -> zget (EKi c1) (0 + i) = stream (zlen T) i).
    { intros i Hi'. cbv beta. rewrite stream_block by lia. rewrite <- Hn. done. }
    assert (Et : taken g m inp len (eki c1 0) = taken g m inp len (stream (zlen T))) by (apply taken_ext; [done|exact Hs]).
    rewrite Et. assert (Hb : bytes_ok (taken g m inp len (stream (zlen T)))).
    { apply taken_ok; [done|]. intros i _. by apply (gcm_stream_byte c). }
    split_and!; [by eapply streamed_ext|by apply (fixed_same c)|done|].
    pose proof (at_text_part T 0 c1 (taken g m inp len (stream (zlen T))) len (at_hashed _ _ _ HT) Hb ltac:(rewrite length_taken; lia) ltac:(lia) ltac:(lia) eq_refl) as H.
    rewrite Z.add_0_l, Z.mod_small in H by lia. replace (len =? 16) with false in H by lia. apply H; [|apply F]. cbn [Yi c1 set_Yi].
    f_equal. clear - Hn Hl16 Hl E0. Z.to_euclidean_division_equations; lia.
Qed.


(** The rest of the block that the last call began. *)
Lemma text_head T n c inp out len m : fixed c -> at_text T n c -> gcm_buffers inp out len m ->
  runs (crypt_head do_byte 16 c inp out len n) m (within out len) (fun r m' => exists a c' n', 0 <= a <= len /\
    r = (c', inp + a, out + a, len - a, n') /\ (n' <> 0 -> a = len) /\ get_ctr c' = get_ctr c /\
    moved T n' c inp out a m (if negb (n' =? 0) then c' else if negb (n =? 0) then GCM_MUL_Xi c' else c') m').
Proof using Hj0 HA Hg Hbyte.
  intros F HT B. pose proof B as [Hl Hm _ _ _]. destruct (at_hash_ok _ _ _ (at_hashed _ _ _ HT)) as (Hx & Lx & Hn & Hn16).
  assert (H0 : forall fuel, n = 0 \/ len = 0 -> crypt_head do_byte fuel c inp out len n = sret (c, inp, out, len, n)).
  { intros fuel Hor. destruct fuel; cbn [crypt_head]; replace ((n =? 0) || (len =? 0)) with true by lia; done. }
  destruct (decide (n = 0 \/ len = 0)) as [Hor|Hne].
  - rewrite H0 by done. apply runs_ret; [done|]. exists 0, c, n. rewrite !Z.add_0_r, Z.sub_0_r. split_and!; [lia|lia|done|lia|done|].
    destruct (n =? 0) eqn:En; cbn [negb]; by apply moved_0.
  - assert (Hmod : zlen T mod 16 <> 0) by lia. pose proof (at_EKi _ _ _ HT Hmod) as HEK. destruct (E_ok c (1 + zlen T / 16) F) as (_ & HE & LE). rewrite <- HEK in HE, LE.
    eapply runs_sub; [apply (crypt_head_spec 16 c inp out len n m B HE Lx Hn16); right; lia|done|].
    intros r m' _ _ (a & Ha & Hna & _ & Hend & -> & S). eexists a, _, ((n + a) mod 16). split_and!; [lia|lia|reflexivity| |done|].
    + intros Hnz. destruct Hend as [|[H16|]]; [lia| |done]. rewrite H16 in Hnz. done.
    + assert (Hs : forall i, 0 <= i < a -> eki c n i = stream (zlen T) i).
      { intros i Hi. cbv beta. rewrite stream_block by lia. by rewrite <- HEK, Hn. }
      assert (Et : taken g m inp a (eki c n) = taken g m inp a (stream (zlen T))) by (apply taken_ext; [done|exact Hs]).
      assert (Ha0 : 0 < a) by lia.
      assert (Hb : bytes_ok (taken g m inp a (stream (zlen T)))) by (apply taken_ok; [done|]; intros i _; by apply (gcm_stream_byte c)).
      rewrite Et. pose proof (at_text_part T n c _ a (at_hashed _ _ _ HT) Hb ltac:(rewrite length_taken; lia) Hna Ha0 HEK) as H.
      assert (EY : Yi c = inc32 j0 (1 + (zlen T + a + 15) / 16)).
      { rewrite (at_Yi _ _ _ HT). do 2 f_equal. clear - Hn Hna Ha0 Hmod. Z.to_euclidean_division_equations; lia. }
      specialize (H EY (fx_table _ F)).
      assert (Ec : (if negb ((n + a) mod 16 =? 0) then set_Xi c (xor_at (Xi c) n (taken g m inp a (stream (zlen T))))
        else if negb (n =? 0) then GCM_MUL_Xi (set_Xi c (xor_at (Xi c) n (taken g m inp a (stream (zlen T))))) else set_Xi c (xor_at (Xi c) n (taken g m inp a (stream (zlen T))))) =
        (if n + a =? 16 then GCM_MUL_Xi (set_Xi c (xor_at (Xi c) n (taken g m inp a (stream (zlen T))))) else set_Xi c (xor_at (Xi c) n (taken g m inp a (stream (zlen T)))))).
      { replace (n =? 0) with false by lia. cbn [negb]. destruct (n + a =? 16) eqn:E16; bool_simpl; [by rewrite E16|].
        rewrite Z.mod_small by lia. by replace (n + a =? 0) with false by lia. }
      rewrite Ec. split_and!; [by eapply streamed_ext|destruct (n + a =? 16); by apply (fixed_same c)|by destruct (n + a =? 16)|exact H].
Qed.

(** The states between the calls: of the additional data, and of the text. *)
Definition gcm_aad c : Prop :=
  fixed c /\ Yi c = inc32 j0 1 /\ mres c = 0 /\ len1 c = 0 /\ (Xi c, ares c) = absorb h (zero_block, 0) A.
Definition gcm_text (T : bytes) c : Prop := fixed c /\ at_text T (mres c) c /\ len1 c = zlen T.
Definition gcm_ready (T : bytes) c : Prop := gcm_text T c \/ (T = [] /\ gcm_aad c).

(** The first call on the text completes the hash of the additional data. *)
Lemma start_text T c mlen : gcm_ready T c ->
  let c0 := set_len1 c mlen in let c1 := if negb (ares c0 =? 0) then set_ares (GCM_MUL_Xi c0) 0 else c0 in
  fixed c1 /\ at_text T (mres c1) c1 /\ len1 c1 = mlen /\ mres c1 = mres c /\ len1 c = zlen T.
Proof using HA.
  assert (Hz : st_ok (zero_block, 0)) by (split_and!; cbn [fst snd]; [by apply bytes_ok_zrepeat|done|lia|lia]).
  destruct (absorb_ok h A _ Hz HA) as (Hx & Lx & Hn). intros [(F & HT & Hl)|(-> & F & HY & Hm & Hl & HX)]; cbn [ares set_len1].
  - rewrite (proj1 (at_hashed _ _ _ HT)). change (0 =? 0) with true. cbn [negb]. split_and!; [by apply (fixed_same c)| |done|done|done].
    destruct HT as [H1 H2 H3]. by split.
  - rewrite <- HX in Hx, Lx, Hn. cbn [fst snd] in Hx, Lx, Hn.
    assert (HM : GCM_MUL_Xi (set_len1 c mlen) = set_Xi (set_len1 c mlen) (ghash_mul h (Xi c))).
    { rewrite <- (set_Xi_same (set_len1 c mlen)) at 1. by apply mul_Xi_spec; [apply F| |]. }
    rewrite HM. assert (Hae : aad_end = (if negb (ares c =? 0) then ghash_mul h (Xi c) else Xi c, 0)).
    { unfold aad_end, flush. rewrite <- HX. cbn [fst snd]. by destruct (ares c =? 0). }
    assert (HT0 : forall c1, Yi c1 = Yi c -> ares c1 = 0 -> (Xi c1, mres c1) = aad_end -> at_text [] (mres c1) c1).
    { intros c1 E1 E2 E3. split; [by rewrite E1, HY|intros Hne; by destruct Hne|]. split_and!; [exact E2|by rewrite absorb_nil|constructor]. }
    destruct (ares c =? 0) eqn:Ea; cbn [negb] in *; bool_simpl.
    + split_and!; [apply (fixed_same c _ F); reflexivity| |reflexivity|reflexivity|exact Hl].
      apply HT0; [reflexivity|exact Ea|]. rewrite Hae. cbn [Xi mres set_len1]. by rewrite Hm.
    + split_and!; [apply (fixed_same c _ F); reflexivity| |reflexivity|reflexivity|exact Hl].
      apply HT0; [reflexivity|reflexivity|]. rewrite Hae. cbn [Xi mres set_len1 set_ares set_Xi]. by rewrite Hm.
Qed.

Lemma add_len_spec c (T : bytes) len : len1 c = zlen T -> 0 <= len -> zlen T + len <= 2 ^ 36 - 32 -> add_len c len = Some (zlen T + len).
Proof.
  intros E1 Hl Hmax. unfold add_len. rewrite E1, (u64_small (zlen T + len)) by (unfold is_u; lia). change (u64 (Z.shiftl 1 36 - 32)) with (2 ^ 36 - 32).
  replace (zlen T + len >? 2 ^ 36 - 32) with false by lia. by replace (zlen T + len <? len) with false by lia.
Qed.

Lemma fixed_mres c n : fixed c -> fixed (set_mres c n).
Proof. intros F. by apply (fixed_same c). Qed.

Lemma text_mres T n c : at_text T n c -> at_text T n (set_mres c n).
Proof. intros [H1 H2 H3]. by split. Qed.

(** The end of a call. *)
Lemma moved_text T n c inp out len m c' m' : moved T n c inp out len m c' m' -> 0 <= len -> len1 c = zlen T + len ->
  gcm_text (T ++ taken g m inp len (stream (zlen T))) (set_mres c' n).
Proof. intros (_ & F & E1 & HT) Hl E2. split_and!; [by apply fixed_mres|by apply text_mres|]. cbn [len1 set_mres]. rewrite E1, E2, length_app, length_taken. lia. Qed.

Lemma crypt_runs T c inp out len m : gcm_ready T c -> gcm_buffers inp out len m -> zlen T + len <= 2 ^ 36 - 32 ->
  runs (gcm128_crypt do_byte do_word c key inp out len) m (within out len) (fun r m' => exists c', r = (1, c') /\
    streamed (stream (zlen T)) inp out len m m' /\ gcm_text (T ++ taken g m inp len (stream (zlen T))) c').
Proof using Hj0 HA Hg Hbyte Hword.
  intros HR B Hmax. pose proof B as [Hl _ _ _ _]. pose proof (start_text T c (zlen T + len) HR) as H. cbv zeta in H. unfold gcm128_crypt.
  destruct H as (F1 & HT1 & El1 & _ & El). rewrite (add_len_spec c T) by (done || lia). set (c1 := if negb _ then _ else _) in *. clearbody c1. cbv zeta.
  eapply runs_bind; [apply (text_head T (mres c1) c1 inp out len m F1 HT1 B)|].
  intros ? m1 Hu1 Hm1 (a & c2 & n' & Ha & -> & Hend & Hctr & Hmv). cbv beta iota.
  pose proof (buffers_part inp out len a m m1 _ B Hu1 Hm1 Ha) as B1. destruct (n' =? 0) eqn:En; cbn [negb] in *; bool_simpl.
  - subst n'. set (c3 := if negb (mres c1 =? 0) then GCM_MUL_Xi c2 else c2) in *. assert (Hctr3 : get_ctr c3 = get_ctr c1).
    { rewrite <- Hctr. unfold c3. by destruct (negb (mres c1 =? 0)). }
    clearbody c3. pose proof Hmv as (S1 & F3 & E3 & HT3).
    eapply runs_bind; [eapply runs_sub; [apply (crypt_blocks_spec _ _ c3 (inp + a) (out + a) (len - a) _ m1 F3 HT3 B1)|unfold within; lia|intros r m2 _ _ HQ; exact HQ]|].
    { by rewrite Hctr3. } { rewrite Z2Nat.id by lia. apply Z.div_le_upper_bound; lia. }
    intros ? m2 Hu2 Hm2 (b & c4 & Hb & Hlast & -> & Hmv4). cbv beta iota.
    pose proof (buffers_part _ _ _ b m1 m2 _ B1 Hu2 Hm2 Hb) as B2. pose proof Hmv4 as (_ & F4 & E4 & HT4).
    eapply runs_bind; [eapply runs_sub; [apply (crypt_last_spec _ c4 _ _ _ _ m2 F4 HT4 B2 eq_refl Hlast)|unfold within; lia|intros r m3 _ _ HQ; exact HQ]|].
    intros ? m3 _ Hm3 (c5 & n5 & -> & Hmv5). cbv beta iota. apply runs_ret; [done|]. eexists. split; [reflexivity|].
    pose proof (moved_app _ _ _ _ _ _ _ _ _ _ _ _ _ B1 Hb Hmv4 Hmv5) as Hmv6. pose proof (moved_app _ _ _ _ _ _ _ _ _ _ _ _ _ B Ha Hmv Hmv6) as Hmv7.
    split; [apply Hmv7|]. eapply moved_text; [exact Hmv7|lia|done].
  - rewrite (Hend En) in *. apply runs_ret; [done|]. eexists. split; [reflexivity|]. split; [apply Hmv|]. eapply moved_text; [exact Hmv|lia|done].
Qed.


(** * Lemmas: the functions on a stream *)

(** What the code relies on of a [ctr128_f] with the key [key]: it encrypts blocks with
    the counters from [ivec] on, which it does not update. *)
Definition stream_ok (f : Z -> Z -> Z -> Key -> bytes -> M mem unit) : Prop :=
  forall inp out j ivec m, 0 <= j -> gcm_buffers inp out (16 * j) m -> block16 ivec ->
    runs (f inp out j key ivec) m (within out (16 * j)) (fun _ m' => streamed (fun i => zget (E (inc32 ivec (i / 16))) (i mod 16)) inp out (16 * j) m m').

Lemma inc32_inc32 a b : inc32 (inc32 j0 a) b = inc32 j0 (a + b).
Proof using Hj0.
  destruct Hj0 as [_ Lj]. unfold inc32. rewrite ztake_app, zdrop_app by (rewrite length_ztake; lia). f_equal.
  rewrite be_val_be_bytes. rewrite <- (be_bytes_mod 4 (_ mod _ + b)). change (256 ^ Z.of_nat 4) with (2 ^ 32).
  rewrite Z.add_mod_idemp_l by lia. rewrite Z.add_assoc. apply (be_bytes_mod 4).
Qed.

(** The blocks at [p] are taken in. *)
Lemma hash_blocks_spec j : forall c p m F, mem_bytes m -> mapped m p (16 * Z.of_nat j) -> multiples h (Htable c) -> bytes_ok (Xi c) -> zlen (Xi c) = 16 ->
  runs (hash_blocks j c p) m F (fun c' m' => m' = m /\ exists x, absorb h (Xi c, 0) (bytes_at m p (16 * Z.of_nat j)) = (x, 0) /\ c' = set_Xi c x).
Proof.
  induction j as [|j IH]; intros c p m F Hm Hp HM Hx Lx; cbn [hash_blocks].
  - apply runs_ret; [done|]. split; [done|]. exists (Xi c). split; [done|by rewrite set_Xi_same].
  - rewrite Nat2Z.inj_succ in *. eapply runs_bind; [apply runs_load with (Q := fun l m' => l = bytes_at m p 16 /\ m' = m); [done|mapped_tac|done]|].
    intros ? ? _ _ [-> ->]. set (b := bytes_at m p 16). assert (Hb : bytes_ok b) by (by apply bytes_at_ok). assert (Lb : zlen b = 16) by (unfold b; by rewrite length_bytes_at).
    rewrite (mul_Xi_spec h) by (done || (by apply xor_into_ok) || by rewrite length_xor_into). destruct (ghash_mul_ok h (xor_into (Xi c) b)) as [Hm1 Lm1].
    eapply runs_sub; [apply (IH (set_Xi c (ghash_mul h (xor_into (Xi c) b))) (p + 16) m F); [done|mapped_tac|done|done|done]|done|].
    intros ? ? _ _ (-> & x & Ea & ->). split; [done|]. exists x. split; [|done]. cbn [Xi set_Xi] in Ea.
    replace (16 * Z.succ (Z.of_nat j)) with (16 + 16 * Z.of_nat j) by lia. rewrite bytes_at_app by lia. rewrite absorb_app. fold b. by rewrite absorb_block.
Qed.

(** Whole blocks. *)
Definition bulk_step (bulk : GCM128_CONTEXT Key -> Z -> Z -> Z -> M mem (GCM128_CONTEXT Key)) : Prop :=
  forall T c inp out j m, fixed c -> at_text T 0 c -> gcm_buffers inp out (16 * j) m -> 0 <= j < 2 ^ 32 ->
    runs (bulk c inp out j) m (within out (16 * j)) (fun c' m' => moved T 0 c inp out (16 * j) m c' m' /\ get_ctr c' = u32 (get_ctr c + u32 j)).

Lemma crypt_ctr32_runs bulk T c inp out len m : bulk_step bulk -> gcm_ready T c -> gcm_buffers inp out len m -> zlen T + len <= 2 ^ 36 - 32 ->
  runs (gcm128_crypt_ctr32 do_byte bulk c key inp out len) m (within out len) (fun r m' => exists c', r = (1, c') /\
    streamed (stream (zlen T)) inp out len m m' /\ gcm_text (T ++ taken g m inp len (stream (zlen T))) c').
Proof using Hj0 HA Hg Hbyte.
  intros Hbulk HR B Hmax. pose proof B as [Hl _ _ _ _]. pose proof (start_text T c (zlen T + len) HR) as H. cbv zeta in H. unfold gcm128_crypt_ctr32.
  destruct H as (F1 & HT1 & El1 & _ & El). rewrite (add_len_spec c T) by (done || lia). set (c1 := if negb _ then _ else _) in *. clearbody c1. cbv zeta.
  eapply runs_bind; [apply (text_head T (mres c1) c1 inp out len m F1 HT1 B)|].
  intros ? m1 Hu1 Hm1 (a & c2 & n' & Ha & -> & Hend & Hctr & Hmv). cbv beta iota.
  pose proof (buffers_part inp out len a m m1 _ B Hu1 Hm1 Ha) as B1. destruct (n' =? 0) eqn:En; cbn [negb] in *; bool_simpl.
  - subst n'. set (c3 := if negb (mres c1 =? 0) then GCM_MUL_Xi c2 else c2) in *. clearbody c3. pose proof Hmv as (S1 & F3 & E3 & HT3).
    set (l := len - a) in *. assert (Hl0 : 0 <= l < 2 ^ 36) by lia.
    assert (Ei : Z.land l (u64 (- 16)) = 16 * (l / 16)).
    { apply Z.bits_inj'. intros i Hi. rewrite Z.land_spec. change (u64 (-16)) with (Z.shiftl (Z.ones 60) 4). rewrite (Z.mul_comm 16). change 16 with (2 ^ 4) at 1 2.
      rewrite <- Z.shiftl_mul_pow2, <- Z.shiftr_div_pow2 by lia. destruct (Z.lt_ge_cases i 4).
      - rewrite !Z.shiftl_spec_low by lia. by rewrite andb_false_r.
      - rewrite !Z.shiftl_spec, Z.shiftr_spec by lia. replace (i - 4 + 4) with i by lia. destruct (Z.lt_ge_cases (i - 4) 60); [rewrite Z.ones_spec_low by lia; apply andb_true_r|].
        rewrite (is_u_testbit 36 l) by (unfold is_u; lia). done. }
    rewrite Ei. set (j := l / 16) in *. assert (Hj : 0 <= j < 2 ^ 32 /\ 16 * j <= l < 16 * j + 16) by (unfold j; clear - Hl0; Z.to_euclidean_division_equations; lia).
    replace (16 * j / 16) with j by (rewrite Z.mul_comm, Z.div_mul by lia; done).
    assert (Bj : gcm_buffers (inp + a) (out + a) (16 * j) m1) by (eapply buffers_take; [exact B1|lia]).
    eapply runs_bind with (Q := fun r m2 => exists c4, r = (c4, get_ctr c4) /\ moved (T ++ taken g m inp a (stream (zlen T))) 0 c3 (inp + a) (out + a) (16 * j) m1 c4 m2).
    { case_if.
      - apply runs_ret; [done|]. exists c3. split; [done|]. rewrite E0. by apply moved_0.
      - eapply runs_bind; [eapply runs_sub; [apply (Hbulk _ c3 _ _ j m1 F3 HT3 Bj); lia|unfold within; lia|intros r m2 _ _ HQ; exact HQ]|].
        intros c4 m2 _ Hm2 [Hmv4 Hc4]. apply runs_ret; [done|]. exists c4. split; [by rewrite Hc4|exact Hmv4]. }
    intros ? m2 Hu2 Hm2 (c4 & -> & Hmv4). cbv beta iota. pose proof (buffers_part _ _ _ (16 * j) m1 m2 _ B1 Hu2 Hm2 ltac:(lia)) as B2. pose proof Hmv4 as (_ & F4 & E4 & HT4).
    eapply runs_bind; [eapply runs_sub; [apply (crypt_last_spec _ c4 _ _ _ _ m2 F4 HT4 B2 eq_refl); lia|unfold within; lia|intros r m3 _ _ HQ; exact HQ]|].
    intros ? m3 _ Hm3 (c5 & n5 & -> & Hmv5). cbv beta iota. apply runs_ret; [done|]. eexists. split; [reflexivity|].
    assert (Hjl : 0 <= 16 * j <= l) by lia. pose proof (moved_app _ _ _ _ _ _ _ _ _ _ _ _ _ B1 Hjl Hmv4 Hmv5) as Hmv6. pose proof (moved_app _ _ _ _ _ _ _ _ _ _ _ _ _ B Ha Hmv Hmv6) as Hmv7.
    split; [apply Hmv7|]. eapply moved_text; [exact Hmv7|lia|done].
  - rewrite (Hend En) in *. apply runs_ret; [done|]. eexists. split; [reflexivity|]. split; [apply Hmv|]. eapply moved_text; [exact Hmv|lia|done].
Qed.
End Memory.


