(* ===== verification/GcmSpec.v ===== *)
(** * The properties of Galois/counter mode

    The functions of Gcm.v on whole messages: a key, an initialisation vector, additional
    data and a text in any pieces, against NIST SP 800-38D; and the functions on a stream
    against the ones on a block. *)

From Stdlib Require Import ZArith Lia.
From stdpp Require Import base option list gmap.
From S2P Require Import Prelude Mem ByteMem Modes Ghash Gcm.

#[local] Opaque gf_mul gf_steps gcm_gmult_4bit GHASH.

(** * Lemmas: whole blocks of a stream *)

Section Bulk.
Context {Key : Type} (h : Z) (E : bytes -> bytes) (key : Key) (j0 A : bytes).
Hypothesis Hj0 : block16 j0.
Hypothesis HA : bytes_ok A.
Context (f : Z -> Z -> Z -> Key -> bytes -> M mem unit).
Hypothesis Hf : stream_ok E key f.
Implicit Type c : GCM128_CONTEXT Key.

Abbreviation stream p := (fun i => gcm_stream E j0 (p + i)).
Abbreviation fixed c := (fixed h E key j0 A c).
Abbreviation at_text T n c := (at_text h E j0 A T n c).

Lemma text_block_end T c : at_text T 0 c -> zlen T mod 16 = 0 /\ Yi c = inc32 j0 (1 + zlen T / 16) /\ bytes_ok (Xi c) /\ zlen (Xi c) = 16.
Proof using HA.
  intros HT. destruct (at_hash_ok h A HA _ _ _ (at_hashed _ _ _ _ _ _ _ HT)) as (Hx & Lx & Hn & _). split_and!; [lia| |done|done].
  rewrite (at_Yi _ _ _ _ _ _ _ HT). do 2 f_equal. Z.to_euclidean_division_equations; lia.
Qed.

(** The stream function gives the bytes of the key stream. *)
Lemma stream_runs T c inp out j m : at_text T 0 c -> 0 <= j -> gcm_buffers inp out (16 * j) m ->
  runs (f inp out j key (Yi c)) m (within out (16 * j)) (fun _ m' => streamed (stream (zlen T)) inp out (16 * j) m m').
Proof using Hj0 HA Hf.
  intros HT Hj B. destruct (text_block_end T c HT) as (Hn & HY & _). destruct Hj0 as [Hjo Lj]. rewrite HY.
  destruct (inc32_ok j0 (1 + zlen T / 16) Hjo ltac:(lia)) as [Hi Li].
  eapply runs_sub; [apply (Hf inp out j _ m Hj B); by split|done|]. intros [] m' _ _ S. eapply streamed_ext; [|exact S].
  intros i Hi'. cbv beta. rewrite inc32_inc32 by done. unfold gcm_stream.
  replace (1 + zlen T / 16 + i / 16) with (1 + (zlen T + i) / 16) by (Z.to_euclidean_division_equations; lia).
  f_equal. Z.to_euclidean_division_equations; lia.
Qed.

(** The context after [j] blocks [t] are taken in. *)
Lemma bulk_text T c t j x : fixed c -> at_text T 0 c -> 0 <= j -> bytes_ok t -> zlen t = 16 * j -> absorb h (Xi c, 0) t = (x, 0) ->
  let c' := put_ctr (set_Xi c x) (u32 (get_ctr c + u32 j)) in
  fixed c' /\ len1 c' = len1 c /\ at_text (T ++ t) 0 c' /\ get_ctr c' = u32 (get_ctr c + u32 j).
Proof using Hj0 HA.
  intros F HT Hj Ht Lt Ea. destruct (text_block_end T c HT) as (Hn & HY & _). destruct Hj0 as [Hjo Lj].
  rewrite (get_ctr_spec c j0 _ ltac:(lia) HY), u32_add_l, u32_add_r, <- Z.add_assoc.
  pose proof (put_ctr_spec (set_Xi c x) j0 (1 + zlen T / 16) (1 + zlen T / 16 + j) ltac:(lia) HY) as Ep. cbv zeta. rewrite Ep.
  split_and!; [by apply (fixed_same h E key j0 A c)|done| |by apply (get_ctr_spec _ j0); [lia|]].
  destruct (at_hashed _ _ _ _ _ _ _ HT) as (Har & HX & Hb). split; cbn [Yi EKi set_Yi set_Xi]; rewrite ?length_app.
  - f_equal. Z.to_euclidean_division_equations; lia.
  - intros Hne. exfalso. apply Hne. Z.to_euclidean_division_equations; lia.
  - split_and!; [done|cbn [Xi set_Yi set_Xi]; by rewrite absorb_app, <- HX, Ea|by apply bytes_ok_app].
Qed.

Lemma enc_bulk_step : bulk_step h enc_taken E key j0 A (enc_bulk f key).
Proof using Hj0 HA Hf.
  intros T c inp out j m F HT B Hj. destruct (text_block_end T c HT) as (_ & _ & Hx & Lx). unfold enc_bulk. pose proof B as [Hl _ _ Ho _].
  eapply runs_bind; [apply (stream_runs T c inp out j m HT ltac:(lia) B)|]. intros [] m1 Hu1 Hm1 S1. cbv zeta.
  assert (Et : bytes_at m1 out (16 * j) = taken enc_taken m inp (16 * j) (stream (zlen T))).
  { apply bytes_at_eq; [rewrite length_taken; lia|]. intros i Hi. rewrite zget_taken by done. by apply S1. }
  assert (Ht : bytes_ok (taken enc_taken m inp (16 * j) (stream (zlen T)))) by (rewrite <- Et; by apply bytes_at_ok).
  eapply runs_sub; [apply (hash_blocks_spec h (Z.to_nat j) (put_ctr c (u32 (get_ctr c + u32 j))) out m1); [done| |apply F|done|done]|done|].
  { rewrite Z2Nat.id by lia. mapped_tac. }
  intros ? ? _ _ (-> & x & Ea & ->). rewrite Z2Nat.id, Et in Ea by lia. cbn [Xi put_ctr set_Yi] in Ea.
  destruct (bulk_text T c _ j x F HT ltac:(lia) Ht ltac:(rewrite length_taken; lia) Ea) as (F' & El & HT' & Hc).
  split; [split_and!; [exact S1|exact F'|exact El|exact HT']|exact Hc].
Qed.

Lemma dec_bulk_step : bulk_step h dec_taken E key j0 A (dec_bulk f key).
Proof using Hj0 HA Hf.
  intros T c inp out j m F HT B Hj. destruct (text_block_end T c HT) as (_ & _ & Hx & Lx). unfold dec_bulk. pose proof B as [Hl Hm Hi _ _].
  eapply runs_bind; [apply (hash_blocks_spec h (Z.to_nat j) c inp m); [done| |apply F|done|done]|].
  { rewrite Z2Nat.id by lia. done. }
  intros ? ? _ _ (-> & x & Ea & ->). rewrite Z2Nat.id in Ea by lia. change (Yi (set_Xi c x)) with (Yi c). change (get_ctr (set_Xi c x)) with (get_ctr c).
  eapply runs_bind; [apply (stream_runs T c inp out j m HT ltac:(lia) B)|]. intros [] m1 Hu1 Hm1 S1. cbv zeta. apply runs_ret; [done|].
  destruct (bulk_text T c (bytes_at m inp (16 * j)) j x F HT ltac:(lia) (bytes_at_ok _ _ _ Hm) ltac:(rewrite length_bytes_at; lia) Ea) as (F' & El & HT' & Hc).
  split; [split_and!; [exact S1|exact F'|exact El|exact HT']|exact Hc].
Qed.
End Bulk.

(** * Lemmas: from the key to the tag *)

Section Message.
Context {Key : Type} (f : bytes -> Key -> option bytes) (key : Key) (E : bytes -> bytes).
Hypothesis HE : block_ok (fun b => f b key) E.
Implicit Type c : GCM128_CONTEXT Key.

(** The hash key. *)
Definition hash_key : Z := be_val (E zero_block).

Lemma zero_block_ok : block16 zero_block.
Proof. split; [by apply bytes_ok_zrepeat|done]. Qed.

Lemma E_block b : block16 b -> f b key = Some (E b) /\ block16 (E b).
Proof using HE. intros [Hb Lb]. destruct (HE b) as (H1 & H2 & H3); [lia|done|]. split; [done|split; [done|lia]]. Qed.

Lemma be_val_block b : block16 b -> is_u 128 (be_val b).
Proof. intros [Hb Lb]. pose proof (be_val_bound b Hb) as B. rewrite Lb in B. exact B. Qed.

Lemma hash_key_ok : is_u 128 hash_key.
Proof using HE. apply be_val_block, E_block, zero_block_ok. Qed.

Lemma init_spec_gcm : exists c, CRYPTO_gcm128_init key f = Some c /\ block c = f /\ multiples hash_key (Htable c).
Proof using HE.
  destruct (E_block zero_block zero_block_ok) as [E1 [H2 L2]]. unfold CRYPTO_gcm128_init. fold zero_block. rewrite E1. cbn [mbind option_bind].
  pose proof (ghash_init_spec (E zero_block) H2 L2) as HT. fold hash_key in HT. destruct (CRYPTO_ghash_init (E zero_block)) as [hh t]. eexists. split; [reflexivity|]. split; [done|exact HT].
Qed.

Lemma J0_ok iv : bytes_ok iv -> block16 (gcm_J0 hash_key iv).
Proof.
  intros Hiv. unfold gcm_J0. case_if; split; try apply be_bytes_ok; rewrite ?length_app, ?length_be_bytes; try done; [|lia].
  apply bytes_ok_app. split; [done|apply be_bytes_ok].
Qed.

Lemma setiv_ready c iv : block c = f -> multiples hash_key (Htable c) -> bytes_ok iv -> zlen iv < 2 ^ 61 ->
  exists c', CRYPTO_gcm128_setiv c key iv = Some c' /\ gcm_aad hash_key E key (gcm_J0 hash_key iv) [] c'.
Proof using HE.
  intros Hb HT Hiv Hl. eexists. split; [apply (setiv_eq hash_key E); [apply hash_key_ok|by rewrite Hb|done|done|done]|].
  split_and!; try reflexivity. split; try reflexivity; [cbn [block]; by rewrite Hb|exact HT].
Qed.

Lemma aad_ready j0 A c l : gcm_aad hash_key E key j0 A c -> bytes_ok A -> bytes_ok l -> zlen A + zlen l <= 2 ^ 61 ->
  exists c', CRYPTO_gcm128_aad c l = (1, c') /\ gcm_aad hash_key E key j0 (A ++ l) c'.
Proof.
  intros (F & HY & Hm & Hl1 & HX) HA Hl Hmax. destruct zero_block_ok as [Hz Lz].
  assert (Hst : st_ok (Xi c, ares c)) by (rewrite HX; apply absorb_ok; [split_and!; cbn [fst snd]; (done || lia)|done]).
  pose proof (fx_len0 _ _ _ _ _ _ F) as Hl0. eexists. split.
  - apply (aad_eq hash_key); [apply F|done|done|done|lia|lia].
  - cbv zeta. split_and!; [|done|done|done|].
    + destruct F as [F1 F2 F3 F4]. split; [done|done|done|]. cbn [len0 set_ares set_Xi set_len0]. rewrite length_app. lia.
    + cbn [Xi ares set_ares set_Xi]. rewrite absorb_app, <- HX. by destruct (absorb hash_key (Xi c, ares c) l).
Qed.

Lemma text_tag j0 A T c : block16 j0 -> gcm_ready hash_key E key j0 A T c -> bytes_ok A -> bytes_ok T -> zlen A <= 2 ^ 61 - 1 -> zlen T <= 2 ^ 36 - 32 ->
  Xi (snd (CRYPTO_gcm128_finish c None 0)) = gcm_tag E hash_key j0 A T.
Proof using HE.
  intros Hj HR HA HT LA LT. destruct (E_block j0 Hj) as [_ [HEj LEj]]. destruct zero_block_ok as [Hz Lz]. pose proof hash_key_ok as Hh. set (h := hash_key) in *.
  assert (H0 : is_u 128 0) by (unfold is_u; lia).
  set (y1 := GHASH h 0 (gcm_pad A)). assert (Hy1 : is_u 128 y1) by by apply GHASH_range.
  set (y2 := GHASH h y1 (gcm_pad T)). assert (Hy2 : is_u 128 y2) by by apply GHASH_range.
  assert (Ea : aad_end h A = (be_bytes 16 y1, 0)) by (unfold aad_end; f_equal; exact (flush_absorb h A 0 Hh H0 HA)).
  assert (Ef : flush h (absorb h (aad_end h A) T) = be_bytes 16 y2) by (rewrite Ea; exact (flush_absorb h T y1 Hh Hy1 HT)).
  assert (F : fixed h E key j0 A c /\ len1 c = zlen T) by (destruct HR as [(F & _ & Hl)|(-> & F & _ & _ & Hl & _)]; by split). destruct F as [F Hl1].
  pose proof (fx_EK0 _ _ _ _ _ _ F) as HEK. pose proof (fx_len0 _ _ _ _ _ _ F) as Hl0.
  assert (HX : (bytes_ok (Xi c) /\ zlen (Xi c) = 16) /\
    (if negb (mres c =? 0) || negb (ares c =? 0) then ghash_mul h (Xi c) else Xi c) = be_bytes 16 y2).
  { rewrite <- Ef. destruct HR as [(_ & HTx & _)|(-> & _ & _ & Hm & _ & HX)].
    - destruct (at_hash_ok h A HA _ _ _ (at_hashed _ _ _ _ _ _ _ HTx)) as (Hx & Lx & _). split; [done|].
      destruct (at_hashed _ _ _ _ _ _ _ HTx) as (-> & <- & _). unfold flush. cbn [fst snd]. change (0 =? 0) with true. cbn [negb]. rewrite orb_false_r.
      by destruct (mres c =? 0).
    - assert (Hst : st_ok (Xi c, ares c)) by (rewrite HX; apply absorb_ok; [split_and!; cbn [fst snd]; (done || lia)|done]).
      destruct Hst as (Hx & Lx & _). split; [done|]. rewrite absorb_nil. unfold aad_end. rewrite <- HX, Hm. unfold flush. cbn [fst snd].
      change (0 =? 0) with true. cbn [negb orb]. by destruct (ares c =? 0). }
  destruct HX as [[Hx Lx] HX]. rewrite (finish_eq h c y2); [|apply F|done|lia|lia|by rewrite HEK|by rewrite HEK|done|done|done].
  unfold gcm_tag. rewrite HEK, Hl0, Hl1. f_equal. f_equal. rewrite !GHASH_app by apply gcm_pad_mod. fold y1 y2. fold (gcm_lengths A T).
  assert (Ll : zlen (gcm_lengths A T) = 16) by (unfold gcm_lengths; rewrite length_app, !length_be_bytes; done).
  rewrite <- (app_nil_r (gcm_lengths A T)) at 2. by rewrite GHASH_cons, GHASH_nil.
Qed.

(** * Lemmas: calls on the pieces of a message *)

Definition gctr (j0 : bytes) (p : bytes) : bytes := map (fun i => Z.lxor (zget p i) (gcm_stream E j0 i)) (seqZ 0 (zlen p)).

Fixpoint aad_all c (l : list bytes) : option (GCM128_CONTEXT Key) :=
  match l with
  | [] => Some c
  | a :: l => let '(r, c) := CRYPTO_gcm128_aad c a in if r =? 1 then aad_all c l else None
  end.

Lemma aad_all_ready j0 l : forall A c, gcm_aad hash_key E key j0 A c -> bytes_ok A -> Forall bytes_ok l -> zlen A + zlen (concat l) <= 2 ^ 61 ->
  exists c', aad_all c l = Some c' /\ gcm_aad hash_key E key j0 (A ++ concat l) c'.
Proof.
  induction l as [|a l IH]; intros A c HA Hb Hl Hmax; cbn [aad_all concat] in *.
  - exists c. by rewrite app_nil_r.
  - apply Forall_cons in Hl as [Ha Hl]. rewrite length_app in Hmax. destruct (aad_ready j0 A c a HA Hb Ha) as (c1 & -> & H1); [lia|].
    change (1 =? 1) with true. cbv iota. rewrite app_assoc. apply IH; [done|by apply bytes_ok_app|done|rewrite length_app; lia].
Qed.

(** A sequence of calls on consecutive pieces. *)
Fixpoint crypt_all (crypt : GCM128_CONTEXT Key -> Z -> Z -> Z -> M mem (Z * GCM128_CONTEXT Key)) c (inp out : Z) (lens : list Z) : M mem (option (GCM128_CONTEXT Key)) :=
  match lens with
  | [] => sret (Some c)
  | len :: lens =>
      let* (r, c) := crypt c inp out len in
      if r =? 1 then crypt_all crypt c (inp + len) (out + len) lens else sret None
  end.

(** What a call does to a message, as a specification of the function. *)
Definition crypt_step (g : Z -> Z -> Z) (j0 A : bytes) (crypt : GCM128_CONTEXT Key -> Z -> Z -> Z -> M mem (Z * GCM128_CONTEXT Key)) : Prop :=
  forall T c inp out len m, gcm_ready hash_key E key j0 A T c -> gcm_buffers inp out len m -> zlen T + len <= 2 ^ 36 - 32 ->
    runs (crypt c inp out len) m (within out len) (fun r m' => exists c', r = (1, c') /\
      streamed (fun i => gcm_stream E j0 (zlen T + i)) inp out len m m' /\
      gcm_text hash_key E key j0 A (T ++ taken g m inp len (fun i => gcm_stream E j0 (zlen T + i))) c').

Lemma sum_nonneg lens : Forall (fun n => 0 <= n) lens -> 0 <= foldr Z.add 0 lens.
Proof. induction 1; cbn [foldr]; lia. Qed.

Lemma crypt_all_runs g j0 A crypt lens : crypt_step g j0 A crypt -> Forall (fun n => 0 <= n) lens ->
  forall T c inp out m, gcm_ready hash_key E key j0 A T c -> let len := foldr Z.add 0 lens in gcm_buffers inp out len m -> zlen T + len <= 2 ^ 36 - 32 ->
    runs (crypt_all crypt c inp out lens) m (within out len) (fun r m' => exists c', r = Some c' /\
      streamed (fun i => gcm_stream E j0 (zlen T + i)) inp out len m m' /\
      gcm_ready hash_key E key j0 A (T ++ taken g m inp len (fun i => gcm_stream E j0 (zlen T + i))) c').
Proof.
  intros Hstep Hlens. induction Hlens as [|n lens Hn Hlens IH]; intros T c inp out m HR len B Hmax; cbn [crypt_all foldr] in *.
  - apply runs_ret; [apply B|]. exists c. unfold len. rewrite taken_0, app_nil_r. split_and!; [done|apply streamed_0|done].
  - pose proof (sum_nonneg lens Hlens) as Hs. assert (Bn : gcm_buffers inp out n m) by (eapply buffers_take; [exact B|unfold len; lia]).
    eapply runs_bind; [eapply runs_sub; [apply (Hstep T c inp out n m HR Bn); unfold len in Hmax; lia|unfold within, len; lia|intros r m' _ _ HQ; exact HQ]|].
    intros ? m1 Hu1 Hm1 (c1 & -> & S1 & H1). cbv beta iota. change (1 =? 1) with true. cbv iota.
    set (t1 := taken g m inp n (fun i => gcm_stream E j0 (zlen T + i))) in *. assert (L1 : zlen (T ++ t1) = zlen T + n) by (unfold t1; rewrite length_app, length_taken; lia).
    pose proof (buffers_part inp out len n m m1 _ B Hu1 Hm1 ltac:(unfold len; lia)) as B1. replace (len - n) with (foldr Z.add 0 lens) in B1 by (unfold len; lia).
    eapply runs_sub; [apply (IH (T ++ t1) c1 (inp + n) (out + n) m1 (or_introl H1) B1); rewrite L1; unfold len in Hmax; lia|unfold within, len; lia|].
    intros r m2 _ _ (c2 & -> & S2 & H2). exists c2. split; [done|].
    assert (Hext : forall i, gcm_stream E j0 (zlen (T ++ t1) + i) = gcm_stream E j0 (zlen T + (n + i))) by (intros i; f_equal; lia).
    split.
    + eapply (streamed_app _ _ _ n); [exact B|unfold len; lia|exact S1|]. replace (len - n) with (foldr Z.add 0 lens) by (unfold len; lia).
      eapply streamed_ext; [|exact S2]. intros i _. apply Hext.
    + replace (taken g m inp len _) with (t1 ++ taken g m1 (inp + n) (foldr Z.add 0 lens) (fun i => gcm_stream E j0 (zlen (T ++ t1) + i))); [by rewrite app_assoc|].
      rewrite <- (taken_streamed g _ inp out n len m m1 B ltac:(unfold len; lia) S1). fold t1. f_equal. replace (len - n) with (foldr Z.add 0 lens) by (unfold len; lia).
      apply taken_ext; [done|]. intros i _. apply Hext.
Qed.

(** A whole message: the context is set up, the additional data and the text come in
    pieces. *)
Definition gcm128_run (crypt : GCM128_CONTEXT Key -> Z -> Z -> Z -> M mem (Z * GCM128_CONTEXT Key)) (iv : bytes) (aads : list bytes) (inp out : Z) (lens : list Z) : M mem (option (GCM128_CONTEXT Key)) :=
  let* c := slift (CRYPTO_gcm128_init key f) in
  let* c := slift (CRYPTO_gcm128_setiv c key iv) in
  let* c := slift (aad_all c aads) in
  crypt_all crypt c inp out lens.

Lemma gcm128_run_runs g crypt iv aads inp out lens m : (forall A, bytes_ok A -> crypt_step g (gcm_J0 hash_key iv) A crypt) ->
  bytes_ok iv -> zlen iv < 2 ^ 61 -> Forall bytes_ok aads -> zlen (concat aads) <= 2 ^ 61 -> Forall (fun n => 0 <= n) lens ->
  let len := foldr Z.add 0 lens in gcm_buffers inp out len m -> len <= 2 ^ 36 - 32 ->
  runs (gcm128_run crypt iv aads inp out lens) m (within out len) (fun r m' => exists c', r = Some c' /\
    streamed (gcm_stream E (gcm_J0 hash_key iv)) inp out len m m' /\
    gcm_ready hash_key E key (gcm_J0 hash_key iv) (concat aads) (taken g m inp len (gcm_stream E (gcm_J0 hash_key iv))) c').
Proof using HE.
  intros Hstep Hiv Liv Ha La Hlens len B Hmax. set (j0 := gcm_J0 hash_key iv) in *. unfold gcm128_run.
  destruct init_spec_gcm as (c0 & E0 & Hb0 & HT0). destruct (setiv_ready c0 iv Hb0 HT0 Hiv Liv) as (c1 & E1 & H1).
  destruct (aad_all_ready j0 aads [] c1 H1) as (c2 & E2 & H2); [constructor|done|cbn [length]; lia|]. cbn [app] in H2.
  apply (runs_some _ _ _ _ _ _ E0), (runs_some _ _ _ _ _ _ E1), (runs_some _ _ _ _ _ _ E2).
  assert (HA : bytes_ok (concat aads)) by (clear - Ha; induction Ha; cbn [concat]; [constructor|by apply bytes_ok_app]).
  exact (crypt_all_runs g j0 (concat aads) crypt lens (Hstep _ HA) Hlens [] c2 inp out m (or_intror (conj eq_refl H2)) B Hmax).
Qed.
End Message.

(** * Lemmas: the results as lists *)

Lemma enc_taken_ok b k : is_byte b -> is_byte k -> is_byte (enc_taken b k).
Proof. apply lxor_byte. Qed.

Lemma dec_taken_ok b k : is_byte b -> is_byte k -> is_byte (dec_taken b k).
Proof. done. Qed.

Lemma length_gctr E j0 p : length (gctr E j0 p) = length p.
Proof. unfold gctr. rewrite length_map, length_seqZ. lia. Qed.

Lemma zget_gctr E j0 p i : 0 <= i < zlen p -> zget (gctr E j0 p) i = Z.lxor (zget p i) (gcm_stream E j0 i).
Proof.
  intros Hi. unfold gctr, zget at 1. erewrite nth_lookup_Some; [reflexivity|]. apply list_lookup_fmap_Some. exists i. split; [reflexivity|]. apply lookup_seqZ. lia.
Qed.

(** The counter mode undoes itself. *)
Lemma gctr_inverse E j0 p : gctr E j0 (gctr E j0 p) = p.
Proof.
  apply zget_ext; [by rewrite !length_gctr|]. rewrite !length_gctr. intros i Hi.
  rewrite zget_gctr by (rewrite length_gctr; lia). rewrite zget_gctr by done. rewrite Z.lxor_assoc, Z.lxor_nilpotent. apply Z.lxor_0_r.
Qed.

Lemma taken_gctr E j0 m inp len : 0 <= len -> taken enc_taken m inp len (gcm_stream E j0) = gctr E j0 (bytes_at m inp len).
Proof.
  intros Hl. assert (Lb : zlen (bytes_at m inp len) = len) by (rewrite length_bytes_at; lia).
  apply zget_ext; [rewrite length_taken, length_gctr; lia|]. rewrite length_taken. intros i Hi. rewrite zget_taken, zget_gctr by lia. by rewrite zget_bytes_at by lia.
Qed.

Lemma streamed_gctr E j0 inp out len m m' : 0 <= len -> streamed (gcm_stream E j0) inp out len m m' -> bytes_at m' out len = gctr E j0 (bytes_at m inp len).
Proof.
  intros Hl [_ H]. assert (Lb : zlen (bytes_at m inp len) = len) by (rewrite length_bytes_at; lia).
  apply bytes_at_eq; [rewrite length_gctr; lia|]. intros i Hi. rewrite H by done. rewrite zget_gctr by lia. by rewrite zget_bytes_at by lia.
Qed.

(** The output decides the memory. *)
Lemma streamed_unique ks inp out len m m1 m2 : streamed ks inp out len m m1 -> streamed ks inp out len m m2 -> m1 = m2.
Proof.
  intros [[U1 D1] H1] [[U2 D2] H2]. apply map_eq. intros x. destruct (decide (out <= x < out + len)) as [Hx|Hx].
  - specialize (H1 (x - out) ltac:(lia)). specialize (H2 (x - out) ltac:(lia)). replace (out + (x - out)) with x in * by lia.
    assert (Hb : byte m1 x = byte m2 x) by congruence. unfold byte in Hb. specialize (D1 x). specialize (D2 x).
    destruct (m1 !! x) as [a|] eqn:Ea, (m2 !! x) as [b|] eqn:Eb; cbn in Hb; [congruence| | |done].
    + destruct (proj2 D2) as [? Hd]; [by apply D1; eexists|done].
    + destruct (proj2 D1) as [? Hd]; [by apply D2; eexists|done].
  - rewrite U1, U2 by (unfold within; lia). done.
Qed.

Section Steps.
Context {Key : Type} (f : bytes -> Key -> option bytes) (key : Key) (E : bytes -> bytes) (iv : bytes).
Hypothesis Hiv : bytes_ok iv.

Lemma encrypt_step A : bytes_ok A -> crypt_step key E enc_taken (gcm_J0 (hash_key E) iv) A (fun c inp out len => CRYPTO_gcm128_encrypt c key inp out len).
Proof using Hiv. intros HA T c inp out len m. apply crypt_runs; [apply enc_taken_ok|apply enc_byte_step|apply enc_word_step|by apply J0_ok|done]. Qed.

Lemma decrypt_step A : bytes_ok A -> crypt_step key E dec_taken (gcm_J0 (hash_key E) iv) A (fun c inp out len => CRYPTO_gcm128_decrypt c key inp out len).
Proof using Hiv. intros HA T c inp out len m. apply crypt_runs; [apply dec_taken_ok|apply dec_byte_step|apply dec_word_step|by apply J0_ok|done]. Qed.
End Steps.

Lemma tag_spec {Key} (f : bytes -> Key -> option bytes) key E j0 A T (c : GCM128_CONTEXT Key) : block_ok (fun b => f b key) E ->
  block16 j0 -> gcm_ready (hash_key E) E key j0 A T c -> bytes_ok A -> bytes_ok T -> zlen A <= 2 ^ 61 - 1 -> zlen T <= 2 ^ 36 - 32 ->
  (forall tl, fst (CRYPTO_gcm128_tag c tl) = ztake (Z.min tl 16) (gcm_tag E (hash_key E) j0 A T)) /\
  (forall tag tl, 0 <= tl <= 16 -> tl <= zlen tag ->
    fst (CRYPTO_gcm128_finish c (Some tag) tl) = if bool_decide (ztake tl tag = ztake tl (gcm_tag E (hash_key E) j0 A T)) then 1 else 0).
Proof.
  intros HE Hj HR HA HT LA LT. pose proof (text_tag f key E HE j0 A T c Hj HR HA HT LA LT) as Htag.
  assert (Ltag : zlen (gcm_tag E (hash_key E) j0 A T) = 16).
  { unfold gcm_tag. destruct (E_block f key E HE j0 Hj) as [_ [_ L]]. rewrite length_xor_bytes, length_be_bytes. lia. }
  split.
  - intros tl. unfold CRYPTO_gcm128_tag. rewrite (surjective_pairing (CRYPTO_gcm128_finish c None 0)). cbn [fst]. rewrite Htag. f_equal. case_if; lia.
  - intros tag tl Htl Hlt. assert (Es : fst (CRYPTO_gcm128_finish c (Some tag) tl) = if CRYPTO_memcmp (Xi (snd (CRYPTO_gcm128_finish c None 0))) tag tl =? 0 then 1 else 0).
    { unfold CRYPTO_gcm128_finish. replace (tl <=? 16) with true by lia. cbn [fst snd]. reflexivity. }
    rewrite Es, Htag. pose proof (CRYPTO_memcmp_eq (gcm_tag E (hash_key E) j0 A T) tag tl ltac:(lia) ltac:(lia)) as Hc.
    case_bool_decide as Hd; case_if; try done; exfalso; [apply E0, Hc; congruence|apply Hd; symmetry; by apply Hc].
Qed.


(** * Properties *)

(** C17. Refinement of NIST SP 800-38D: with the context set up for a key and an
    initialisation vector of any length, the additional data and the text given in any
    pieces, every call of [CRYPTO_gcm128_aad] and of [CRYPTO_gcm128_encrypt] succeeds, the
    bytes at [out] are the encryption in counter mode of those that were at [inp] (which
    may be the same buffer, or start behind it), nothing else in memory changes, and the
    tag is that of the standard, cut to any length. *)
Theorem CRYPTO_gcm128_encrypt_sp800_38d {Key} (f : bytes -> Key -> option bytes) key E iv aads inp out lens m :
  block_ok (fun b => f b key) E -> bytes_ok iv -> zlen iv < 2 ^ 61 -> Forall bytes_ok aads -> zlen (concat aads) <= 2 ^ 61 - 1 ->
  Forall (fun n => 0 <= n) lens -> let len := foldr Z.add 0 lens in gcm_buffers inp out len m -> len <= 2 ^ 36 - 32 ->
  let j0 := gcm_J0 (hash_key E) iv in let ct := gctr E j0 (bytes_at m inp len) in
  exists c m', gcm128_run f key (fun c inp out len => CRYPTO_gcm128_encrypt c key inp out len) iv aads inp out lens m = Some (Some c, m') /\
    bytes_at m' out len = ct /\ upd (within out len) m m' /\
    forall tl, fst (CRYPTO_gcm128_tag c tl) = ztake (Z.min tl 16) (gcm_tag E (hash_key E) j0 (concat aads) ct).
Proof.
  intros HE Hiv Liv Ha La Hlens len B Hmax j0 ct. pose proof B as [Hl Hm _ _ _].
  assert (HA : bytes_ok (concat aads)) by (clear - Ha; induction Ha; cbn [concat]; [constructor|by apply bytes_ok_app]).
  destruct (gcm128_run_runs f key E HE enc_taken _ iv aads inp out lens m (encrypt_step key E iv Hiv) Hiv Liv Ha ltac:(lia) Hlens B Hmax)
    as (r & m' & Er & Hu & Hm' & c & -> & S & HR). fold len j0 in HR, S. exists c, m'. split; [exact Er|].
  rewrite taken_gctr in HR by lia. pose proof (streamed_gctr E j0 inp out len m m' ltac:(lia) S) as Hb. split; [exact Hb|]. split; [exact Hu|].
  apply (tag_spec f key E j0 _ ct c HE (J0_ok E iv Hiv) HR HA); [unfold ct; rewrite <- Hb; by apply bytes_at_ok|lia|]. unfold ct. rewrite length_gctr, length_bytes_at. lia.
Qed.

(** A block function for the examples: the bytes in the other order, with a key byte. *)
Definition sample_block (b : bytes) (k : Z) : option bytes := Some (map (Z.lxor k) (rev b)).

Lemma sample_block_ok k : is_byte k -> block_ok (fun b => sample_block b k) (fun b => map (Z.lxor k) (rev b)).
Proof.
  intros Hk b Hl Hb. split_and!; [done|by rewrite length_map, length_rev|]. apply Forall_map. apply Forall_rev in Hb. eapply Forall_impl; [exact Hb|].
  intros x Hx. by apply lxor_byte.
Qed.

Definition sample_mem : mem := region 0 (seqZ 0 100).

Lemma seqZ_ok a n : 0 <= a -> a + n <= 256 -> bytes_ok (seqZ a n).
Proof. intros Ha Hn. apply Forall_forall. intros x Hx%elem_of_seqZ. unfold is_u. lia. Qed.

Lemma sample_buffers inp out len : 0 <= inp -> 0 <= len -> inp + len <= 100 -> 0 <= out -> out + len <= 100 -> out <= inp \/ inp + len <= out -> gcm_buffers inp out len sample_mem.
Proof.
  intros H1 H2 H3 H4 H5 Ha. assert (Hm : mapped sample_mem 0 100) by (apply region_mapped; rewrite length_seqZ; lia).
  split; [lia|apply region_bytes, seqZ_ok; lia|mapped_tac|mapped_tac|done].
Qed.

Lemma CRYPTO_gcm128_encrypt_sp800_38d_witness :
  let E := fun b => map (Z.lxor 5) (rev b) in let j0 := gcm_J0 (hash_key E) (seqZ 0 12) in let ct := gctr E j0 (bytes_at sample_mem 10 37) in
  exists c m', gcm128_run sample_block 5 (fun c inp out len => CRYPTO_gcm128_encrypt c 5 inp out len) (seqZ 0 12) [seqZ 0 3; seqZ 3 20] 10 8 [3; 0; 34] sample_mem = Some (Some c, m') /\
    bytes_at m' 8 37 = ct /\ upd (within 8 37) sample_mem m' /\
    forall tl, fst (CRYPTO_gcm128_tag c tl) = ztake (Z.min tl 16) (gcm_tag E (hash_key E) j0 (seqZ 0 3 ++ seqZ 3 20 ++ []) ct).
Proof.
  apply (CRYPTO_gcm128_encrypt_sp800_38d sample_block 5 (fun b => map (Z.lxor 5) (rev b)) (seqZ 0 12) [seqZ 0 3; seqZ 3 20] 10 8 [3; 0; 34] sample_mem).
  - apply sample_block_ok. unfold is_u. lia.
  - apply seqZ_ok; lia.
  - rewrite length_seqZ. lia.
  - apply Forall_cons_2; [apply seqZ_ok; lia|]. apply Forall_cons_2; [apply seqZ_ok; lia|constructor].
  - cbn [concat]. rewrite app_nil_r, length_app, !length_seqZ. lia.
  - repeat apply Forall_cons_2; try apply Forall_nil_2; lia.
  - cbn [foldr]. apply sample_buffers; lia.
  - cbn [foldr]. lia.
Defined.

(** C18. Decryption: with the context set up in the same way, [CRYPTO_gcm128_decrypt] in
    any pieces leaves the decryption of the bytes that were at [inp], and
    [CRYPTO_gcm128_finish] accepts a tag of up to 16 bytes if and only if it is the tag
    of those bytes and of the additional data. *)
Theorem CRYPTO_gcm128_decrypt_authentic {Key} (f : bytes -> Key -> option bytes) key E iv aads inp out lens m :
  block_ok (fun b => f b key) E -> bytes_ok iv -> zlen iv < 2 ^ 61 -> Forall bytes_ok aads -> zlen (concat aads) <= 2 ^ 61 - 1 ->
  Forall (fun n => 0 <= n) lens -> let len := foldr Z.add 0 lens in gcm_buffers inp out len m -> len <= 2 ^ 36 - 32 ->
  let j0 := gcm_J0 (hash_key E) iv in let ct := bytes_at m inp len in
  exists c m', gcm128_run f key (fun c inp out len => CRYPTO_gcm128_decrypt c key inp out len) iv aads inp out lens m = Some (Some c, m') /\
    gctr E j0 (bytes_at m' out len) = ct /\ upd (within out len) m m' /\
    forall tag tl, 0 <= tl <= 16 -> tl <= zlen tag ->
      fst (CRYPTO_gcm128_finish c (Some tag) tl) = if bool_decide (ztake tl tag = ztake tl (gcm_tag E (hash_key E) j0 (concat aads) ct)) then 1 else 0.
Proof.
  intros HE Hiv Liv Ha La Hlens len B Hmax j0 ct. pose proof B as [Hl Hm _ _ _].
  assert (HA : bytes_ok (concat aads)) by (clear - Ha; induction Ha; cbn [concat]; [constructor|by apply bytes_ok_app]).
  destruct (gcm128_run_runs f key E HE dec_taken _ iv aads inp out lens m (decrypt_step key E iv Hiv) Hiv Liv Ha ltac:(lia) Hlens B Hmax)
    as (r & m' & Er & Hu & Hm' & c & -> & S & HR). fold len j0 in HR, S. exists c, m'. split; [exact Er|].
  change (taken dec_taken m inp len _) with ct in HR. split; [|split; [exact Hu|]].
  - rewrite (streamed_gctr E j0 inp out len m m' ltac:(lia) S). apply gctr_inverse.
  - apply (tag_spec f key E j0 _ ct c HE (J0_ok E iv Hiv) HR HA); [by apply bytes_at_ok|lia|]. unfold ct. rewrite length_bytes_at. lia.
Qed.

Lemma CRYPTO_gcm128_decrypt_authentic_witness :
  let E := fun b => map (Z.lxor 5) (rev b) in let j0 := gcm_J0 (hash_key E) (seqZ 0 20) in let ct := bytes_at sample_mem 10 37 in
  exists c m', gcm128_run sample_block 5 (fun c inp out len => CRYPTO_gcm128_decrypt c 5 inp out len) (seqZ 0 20) [seqZ 0 3; seqZ 3 20] 10 10 [37] sample_mem = Some (Some c, m') /\
    gctr E j0 (bytes_at m' 10 37) = ct /\ upd (within 10 37) sample_mem m' /\
    forall tag tl, 0 <= tl <= 16 -> tl <= zlen tag ->
      fst (CRYPTO_gcm128_finish c (Some tag) tl) = if bool_decide (ztake tl tag = ztake tl (gcm_tag E (hash_key E) j0 (seqZ 0 3 ++ seqZ 3 20 ++ []) ct)) then 1 else 0.
Proof.
  apply (CRYPTO_gcm128_decrypt_authentic sample_block 5 (fun b => map (Z.lxor 5) (rev b)) (seqZ 0 20) [seqZ 0 3; seqZ 3 20] 10 10 [37] sample_mem).
  - apply sample_block_ok. unfold is_u. lia.
  - apply seqZ_ok; lia.
  - rewrite length_seqZ. lia.
  - apply Forall_cons_2; [apply seqZ_ok; lia|]. apply Forall_cons_2; [apply seqZ_ok; lia|constructor].
  - cbn [concat]. rewrite app_nil_r, length_app, !length_seqZ. lia.
  - repeat apply Forall_cons_2; try apply Forall_nil_2; lia.
  - cbn [foldr]. apply sample_buffers; lia.
  - cbn [foldr]. lia.
Defined.

(** C20. Equivalence: on a context in any state of a message, the functions that leave the
    whole blocks to a counter mode function [g] return and write what the ones that call
    the block function do, and leave a context of the same message. *)
Theorem CRYPTO_gcm128_ctr32_equiv {Key} (f : bytes -> Key -> option bytes) key E g iv A T c inp out len m :
  block_ok (fun b => f b key) E -> stream_ok E key g -> bytes_ok iv -> bytes_ok A ->
  gcm_ready (hash_key E) E key (gcm_J0 (hash_key E) iv) A T c -> gcm_buffers inp out len m -> zlen T + len <= 2 ^ 36 - 32 ->
  (exists c1 c2 m' T', CRYPTO_gcm128_encrypt c key inp out len m = Some ((1, c1), m') /\
    CRYPTO_gcm128_encrypt_ctr32 c key inp out len g m = Some ((1, c2), m') /\
    gcm_text (hash_key E) E key (gcm_J0 (hash_key E) iv) A T' c1 /\ gcm_text (hash_key E) E key (gcm_J0 (hash_key E) iv) A T' c2) /\
  (exists c1 c2 m' T', CRYPTO_gcm128_decrypt c key inp out len m = Some ((1, c1), m') /\
    CRYPTO_gcm128_decrypt_ctr32 c key inp out len g m = Some ((1, c2), m') /\
    gcm_text (hash_key E) E key (gcm_J0 (hash_key E) iv) A T' c1 /\ gcm_text (hash_key E) E key (gcm_J0 (hash_key E) iv) A T' c2).
Proof.
  intros HE Hg Hiv HA HR B Hmax. pose proof (J0_ok E iv Hiv) as Hj. split.
  - destruct (crypt_runs (hash_key E) enc_taken enc_byte enc_word enc_taken_ok enc_byte_step enc_word_step E key _ A Hj HA T c inp out len m HR B Hmax) as (r1 & m1 & E1 & _ & _ & c1 & -> & S1 & H1).
    destruct (crypt_ctr32_runs (hash_key E) enc_taken enc_byte enc_taken_ok enc_byte_step E key _ A Hj HA (enc_bulk g key) T c inp out len m) as (r2 & m2 & E2 & _ & _ & c2 & -> & S2 & H2);
      [by apply enc_bulk_step|done|done|done|].
    rewrite <- (streamed_unique _ _ _ _ _ _ _ S1 S2) in E2. by eexists c1, c2, m1, _.
  - destruct (crypt_runs (hash_key E) dec_taken dec_byte dec_word dec_taken_ok dec_byte_step dec_word_step E key _ A Hj HA T c inp out len m HR B Hmax) as (r1 & m1 & E1 & _ & _ & c1 & -> & S1 & H1).
    destruct (crypt_ctr32_runs (hash_key E) dec_taken dec_byte dec_taken_ok dec_byte_step E key _ A Hj HA (dec_bulk g key) T c inp out len m) as (r2 & m2 & E2 & _ & _ & c2 & -> & S2 & H2);
      [by apply dec_bulk_step|done|done|done|].
    rewrite <- (streamed_unique _ _ _ _ _ _ _ S1 S2) in E2. by eexists c1, c2, m1, _.
Qed.


(** A stream function for the example: it loads everything, then stores it. *)
Definition sample_stream (E : bytes -> bytes) (inp out j : Z) (_ : Z) (ivec : bytes) : M mem unit :=
  let* b := mem_load (16 * j) inp in
  mem_store out (map (fun i => Z.lxor (zget b i) (zget (E (inc32 ivec (i / 16))) (i mod 16))) (seqZ 0 (16 * j))).

Lemma sample_stream_ok E k : (forall b, block16 b -> bytes_ok (E b)) -> stream_ok E k (sample_stream E).
Proof.
  intros HE inp out j ivec m Hj [Hl Hm Hi Ho _] [Hiv Liv]. unfold sample_stream.
  eapply runs_bind; [apply runs_load with (Q := fun l m' => l = bytes_at m inp (16 * j) /\ m' = m); done|]. intros ? ? _ _ [-> ->].
  set (l := map _ _). assert (Ll : zlen l = 16 * j) by (unfold l; rewrite length_map, length_seqZ; lia).
  eapply runs_sub; [apply runs_store; [done| |by rewrite Ll|by rewrite Ll]|done|].
  - apply Forall_map, Forall_forall. intros i Hi'%elem_of_seqZ. apply lxor_byte; apply zget_byte; [by apply bytes_at_ok|].
    apply HE, inc32_ok; [done|lia].
  - rewrite Ll. intros [] m' _ _ [Hu H]. split; [done|]. intros i Hi'. rewrite H by done. unfold l, zget at 1.
    erewrite nth_lookup_Some; [|apply list_lookup_fmap_Some; exists i; split; [reflexivity|apply lookup_seqZ; lia]]. by rewrite zget_bytes_at by lia.
Qed.

Lemma CRYPTO_gcm128_ctr32_equiv_witness :
  let E := fun b => map (Z.lxor 5) (rev b) in let j0 := gcm_J0 (hash_key E) (seqZ 0 12) in
  exists c, (c ← CRYPTO_gcm128_init 5 sample_block; CRYPTO_gcm128_setiv c 5 (seqZ 0 12)) = Some c /\
    (exists c1 c2 m' T', CRYPTO_gcm128_encrypt c 5 10 8 50 sample_mem = Some ((1, c1), m') /\
      CRYPTO_gcm128_encrypt_ctr32 c 5 10 8 50 (sample_stream E) sample_mem = Some ((1, c2), m') /\
      gcm_text (hash_key E) E 5 j0 [] T' c1 /\ gcm_text (hash_key E) E 5 j0 [] T' c2) /\
    (exists c1 c2 m' T', CRYPTO_gcm128_decrypt c 5 10 8 50 sample_mem = Some ((1, c1), m') /\
      CRYPTO_gcm128_decrypt_ctr32 c 5 10 8 50 (sample_stream E) sample_mem = Some ((1, c2), m') /\
      gcm_text (hash_key E) E 5 j0 [] T' c1 /\ gcm_text (hash_key E) E 5 j0 [] T' c2).
Proof.
  cbv zeta. assert (HE : block_ok (fun b => sample_block b 5) (fun b => map (Z.lxor 5) (rev b))) by (apply sample_block_ok; unfold is_u; lia).
  assert (Hiv : bytes_ok (seqZ 0 12)) by (apply seqZ_ok; lia).
  destruct (init_spec_gcm sample_block 5 _ HE) as (c0 & E0 & Hb0 & HT0).
  destruct (setiv_ready sample_block 5 _ HE c0 (seqZ 0 12) Hb0 HT0 Hiv) as (c1 & E1 & H1); [rewrite length_seqZ; lia|].
  exists c1. split; [by rewrite E0|].
  apply (CRYPTO_gcm128_ctr32_equiv sample_block 5 (fun b => map (Z.lxor 5) (rev b)) (sample_stream (fun b => map (Z.lxor 5) (rev b))) (seqZ 0 12) [] [] c1 10 8 50 sample_mem HE).
  - apply sample_stream_ok. intros b Hb. by apply (E_block sample_block 5 _ HE b Hb).
  - exact Hiv.
  - constructor.
  - right. by split.
  - apply sample_buffers; lia.
  - cbn [length]. lia.
Defined.


