(* ===== verification/Aead.v ===== *)
(** * Authenticated encryption

    Models src/bubble/Pods/BoringSSL/crypto/cipher/aead.c, the layer over any AEAD, which
    is the record of functions [EVP_AEAD] as in the code. What an AEAD promises to the
    layer is the class [AeadLaws]; ChachaPoly.v and AesGcm.v give its instances. The
    buffers are addresses in one memory of bytes; the key and the nonce are passed as
    their bytes. *)

From Stdlib Require Import ZArith Lia.
From stdpp Require Import base option list gmap.
From S2P Require Import Prelude Mem ByteMem Modes Chacha.

(** * The program *)

(** [St] is what [aead_state] points to. [seal] and [open] return the new [*out_len], or
    nothing where the code returns 0; [init] is given whether malloc succeeds; [cleanup]
    gives what is left of the state. *)
Record EVP_AEAD (St : Type) := mk_aead {
  key_len : Z;
  nonce_len : Z;
  overhead : Z;
  max_tag_len : Z;
  init : option (bytes -> Z -> bool -> option St);
  init_with_direction : option (bytes -> Z -> bool -> bool -> option St);
  cleanup : St -> option St;
  seal : St -> Z -> Z -> bytes -> Z -> Z -> Z -> Z -> M mem (option Z);
  open : St -> Z -> Z -> bytes -> Z -> Z -> Z -> Z -> M mem (option Z);
  get_iv : option (St -> option bytes);
}.
Arguments key_len {_}. Arguments nonce_len {_}. Arguments overhead {_}. Arguments max_tag_len {_}. Arguments init {_}.
Arguments init_with_direction {_}. Arguments cleanup {_}. Arguments seal {_}. Arguments open {_}. Arguments get_iv {_}.

Record EVP_AEAD_CTX (St : Type) := mk_ctx { aead : option (EVP_AEAD St); aead_state : option St }.
Arguments mk_ctx {_}. Arguments aead {_}. Arguments aead_state {_}.

Section Generic.
Context {St : Type}.

Definition EVP_AEAD_key_length (a : EVP_AEAD St) : Z := key_len a.
Definition EVP_AEAD_nonce_length (a : EVP_AEAD St) : Z := nonce_len a.
Definition EVP_AEAD_max_overhead (a : EVP_AEAD St) : Z := overhead a.
Definition EVP_AEAD_max_tag_len (a : EVP_AEAD St) : Z := max_tag_len a.
Definition EVP_AEAD_CTX_zero : EVP_AEAD_CTX St := mk_ctx None None.

(** The status and the context; [dir] is whether the direction is [evp_aead_seal]. *)
Definition EVP_AEAD_CTX_init_with_direction (ctx : EVP_AEAD_CTX St) (a : EVP_AEAD St) (key : bytes) (tag_len : Z) (dir malloc_ok : bool) :
  option (Z * EVP_AEAD_CTX St) :=
  if negb (zlen key =? key_len a) then Some (0, mk_ctx None (aead_state ctx))
  else
    st ← match init a, init_with_direction a with
         | Some f, _ => Some (f key tag_len malloc_ok)
         | None, Some f => Some (f key tag_len dir malloc_ok)
         | None, None => None
         end;
    match st with
    | Some st => Some (1, mk_ctx (Some a) (Some st))
    | None => Some (0, mk_ctx None (aead_state ctx))
    end.

Definition EVP_AEAD_CTX_init (ctx : EVP_AEAD_CTX St) (a : EVP_AEAD St) (key : bytes) (tag_len : Z) (malloc_ok : bool) : option (Z * EVP_AEAD_CTX St) :=
  match init a with
  | None => Some (0, mk_ctx None (aead_state ctx))
  | Some _ => EVP_AEAD_CTX_init_with_direction ctx a key tag_len false malloc_ok
  end.

Definition EVP_AEAD_CTX_cleanup (ctx : EVP_AEAD_CTX St) : option (EVP_AEAD_CTX St) :=
  match aead ctx with
  | None => Some ctx
  | Some a => st ← aead_state ctx; Some (mk_ctx None (cleanup a st))
  end.

Definition check_alias (inp in_len out out_len : Z) : bool :=
  if negb (buffers_alias inp in_len out out_len) then true else inp =? out.

(** The label [error]; the results are the returned value and [*out_len]. *)
Definition aead_error (out max_out_len : Z) : M mem (Z * Z) :=
  mem_store out (zrepeat max_out_len 0);;;
  sret (0, 0).

Definition EVP_AEAD_CTX_seal (ctx : EVP_AEAD_CTX St) (out max_out_len : Z) (nonce : bytes) (inp in_len ad ad_len : Z) : M mem (Z * Z) :=
  let* a := slift (aead ctx) in
  let* st := slift (aead_state ctx) in
  let possible_out_len := u64 (in_len + overhead a) in
  if possible_out_len <? in_len then aead_error out max_out_len
  else if negb (check_alias inp in_len out max_out_len) then aead_error out max_out_len
  else
    let* r := seal a st out max_out_len nonce inp in_len ad ad_len in
    match r with
    | Some out_len => sret (1, out_len)
    | None => aead_error out max_out_len
    end.

Definition EVP_AEAD_CTX_open (ctx : EVP_AEAD_CTX St) (out max_out_len : Z) (nonce : bytes) (inp in_len ad ad_len : Z) : M mem (Z * Z) :=
  let* a := slift (aead ctx) in
  let* st := slift (aead_state ctx) in
  if negb (check_alias inp in_len out max_out_len) then aead_error out max_out_len
  else
    let* r := open a st out max_out_len nonce inp in_len ad ad_len in
    match r with
    | Some out_len => sret (1, out_len)
    | None => aead_error out max_out_len
    end.

Definition EVP_AEAD_CTX_aead (ctx : EVP_AEAD_CTX St) : option (EVP_AEAD St) := aead ctx.

Definition EVP_AEAD_CTX_get_iv (ctx : EVP_AEAD_CTX St) : option (option bytes) :=
  a ← aead ctx;
  match get_iv a with
  | None => Some None
  | Some f => st ← aead_state ctx; Some (f st)
  end.
End Generic.

(** * The interface of an AEAD *)

(** Where the buffers may be: the output is the input, or apart from it; the associated
    data is apart from the output. [n] bytes are written, [max] are there; an input is
    shorter than [lim] and the associated data than [ad_lim]. *)
Record aead_buffers (lim ad_lim inp in_len out n max ad ad_len : Z) (m : mem) : Prop := {
  ab_len : 0 <= in_len < lim /\ 0 <= n <= max /\ 0 <= ad_len < ad_lim;
  ab_mem : mem_bytes m;
  ab_inp : mapped m inp in_len;
  ab_out : mapped m out max;
  ab_ad : mapped m ad ad_len;
  ab_alias : inp = out \/ inp + in_len <= out \/ out + max <= inp;
  ab_apart : ad + ad_len <= out \/ out + max <= ad;
}.

(** The functions that an AEAD computes with a key and a nonce: [sp_crypt] of a text (it
    undoes itself), [sp_tag] of the associated data and a ciphertext, of which [sp_tl]
    bytes are used. *)
Record aead_spec := mk_aead_spec {
  sp_tl : Z;
  sp_lim : Z;
  sp_ad_lim : Z;
  sp_crypt : bytes -> bytes;
  sp_tag : bytes -> bytes -> bytes;
}.

Class AeadLaws {St : Type} (a : EVP_AEAD St) (st : St) (nonce : bytes) (sp : aead_spec) : Prop := {
  al_tl : 0 <= sp_tl sp <= 16;
  al_lim : 0 <= overhead a <= 64 /\ sp_lim sp <= 2 ^ 63;
  al_inverse : forall p, sp_crypt sp (sp_crypt sp p) = p;
  al_seal : forall inp in_len out max ad ad_len m,
    aead_buffers (sp_lim sp) (sp_ad_lim sp) inp in_len out (in_len + sp_tl sp) max ad ad_len m ->
    let ct := sp_crypt sp (bytes_at m inp in_len) in
    runs (seal a st out max nonce inp in_len ad ad_len) m (within out (in_len + sp_tl sp)) (fun r m' =>
      r = Some (in_len + sp_tl sp) /\ bytes_at m' out in_len = ct /\
      bytes_at m' (out + in_len) (sp_tl sp) = ztake (sp_tl sp) (sp_tag sp (bytes_at m ad ad_len) ct));
  al_open : forall inp in_len out max ad ad_len m, sp_tl sp <= in_len ->
    aead_buffers (sp_lim sp) (sp_ad_lim sp) inp in_len out (in_len - sp_tl sp) max ad ad_len m ->
    let ct := bytes_at m inp (in_len - sp_tl sp) in
    runs (open a st out max nonce inp in_len ad ad_len) m (within out (in_len - sp_tl sp)) (fun r m' =>
      bytes_at m' out (in_len - sp_tl sp) = sp_crypt sp ct /\
      r = if bool_decide (ztake (sp_tl sp) (sp_tag sp (bytes_at m ad ad_len) ct) = bytes_at m (inp + (in_len - sp_tl sp)) (sp_tl sp))
          then Some (in_len - sp_tl sp) else None);
}.

(** * Lemmas: through the layer *)

Lemma alias_ok inp in_len out max : inp = out \/ inp + in_len <= out \/ out + max <= inp -> check_alias inp in_len out max = true.
Proof.
  intros H. unfold check_alias, buffers_alias. destruct ((inp + in_len >? out) && (out + max >? inp)) eqn:E; cbn [negb]; [lia|done].
Qed.

Lemma runs_error out max m A : 0 <= max -> mem_bytes m -> mapped m out max -> (forall x, within out max x -> A x) ->
  runs (aead_error out max) m A (fun r m' => r = (0, 0) /\ bytes_at m' out max = zrepeat max 0).
Proof.
  intros Hl Hm Ho HA. assert (Hz : zlen (zrepeat max 0) = max) by (rewrite length_zrepeat; lia).
  eapply runs_bind; [apply runs_store; [done|by apply bytes_ok_zrepeat|by rewrite Hz|by rewrite Hz]|]. rewrite Hz.
  intros [] m' _ Hm' [_ H]. apply runs_ret; [done|]. split; [done|]. by apply bytes_at_eq.
Qed.

Section Layer.
Context {St : Type} (a : EVP_AEAD St) (st : St) (nonce : bytes) (sp : aead_spec) `{!AeadLaws a st nonce sp}.

Local Abbreviation ctx := (mk_ctx (Some a) (Some st)).
Local Abbreviation tl := (sp_tl sp).
Local Abbreviation buffers := (aead_buffers (sp_lim sp) (sp_ad_lim sp)).

Lemma EVP_seal_unfold out max n inp in_len ad ad_len m : (u64 (in_len + overhead a) <? in_len) = false -> check_alias inp in_len out max = true ->
  EVP_AEAD_CTX_seal ctx out max n inp in_len ad ad_len m =
  (let* r := seal a st out max n inp in_len ad ad_len in
   match r with Some out_len => sret (1, out_len) | None => aead_error out max end) m.
Proof using Type. intros H1 H2. unfold EVP_AEAD_CTX_seal, sbind, slift. cbn [aead aead_state]. by rewrite H1, H2. Qed.

Lemma EVP_open_unfold out max n inp in_len ad ad_len m : check_alias inp in_len out max = true ->
  EVP_AEAD_CTX_open ctx out max n inp in_len ad ad_len m =
  (let* r := open a st out max n inp in_len ad ad_len in
   match r with Some out_len => sret (1, out_len) | None => aead_error out max end) m.
Proof using Type. intros H2. unfold EVP_AEAD_CTX_open, sbind, slift. cbn [aead aead_state]. by rewrite H2. Qed.

Lemma EVP_seal_runs inp in_len out max ad ad_len m : buffers inp in_len out (in_len + tl) max ad ad_len m ->
  let ct := sp_crypt sp (bytes_at m inp in_len) in
  runs (EVP_AEAD_CTX_seal ctx out max nonce inp in_len ad ad_len) m (within out (in_len + tl)) (fun r m' =>
    r = (1, in_len + tl) /\ bytes_at m' out in_len = ct /\ bytes_at m' (out + in_len) tl = ztake tl (sp_tag sp (bytes_at m ad ad_len) ct)).
Proof.
  intros B. pose proof B as [(Hl & Hn & Had) Hm Hi Ho Ha Hal Hap]. pose proof al_lim as [Hov Hlim].
  unfold runs. rewrite EVP_seal_unfold; [|rewrite u64_small by (unfold is_u; lia); lia|by apply alias_ok].
  eapply runs_bind; [by apply al_seal|]. intros r m' _ Hm' (-> & H1 & H2). by apply runs_ret.
Qed.

(** The result of [open] when there is room for the text. *)
Lemma EVP_open_runs inp in_len out max ad ad_len m : tl <= in_len -> buffers inp in_len out (in_len - tl) max ad ad_len m ->
  let ct := bytes_at m inp (in_len - tl) in
  runs (EVP_AEAD_CTX_open ctx out max nonce inp in_len ad ad_len) m (within out max) (fun r m' =>
    if bool_decide (ztake tl (sp_tag sp (bytes_at m ad ad_len) ct) = bytes_at m (inp + (in_len - tl)) tl)
    then r = (1, in_len - tl) /\ bytes_at m' out (in_len - tl) = sp_crypt sp ct
    else r = (0, 0) /\ bytes_at m' out max = zrepeat max 0).
Proof.
  intros Htin B. pose proof B as [(Hl & Hn & Had) Hm Hi Ho Ha Hal Hap].
  pose proof (al_open inp in_len out max ad ad_len m Htin B) as R.
  unfold runs. rewrite EVP_open_unfold by by apply alias_ok.
  eapply runs_bind; [eapply runs_sub; [exact R|intros x; unfold within; lia|intros r m1 Hu _ H; exact (conj Hu H)]|].
  intros r m1 _ Hm1 (Hu & H1 & ->). destruct (bool_decide _); [by apply runs_ret|]. apply runs_error; [lia|done|mapped_tac|done].
Qed.

(** What is sealed, opens to the text, wherever the buffers may be. *)
Lemma EVP_roundtrip inp in_len out max out' max' ad ad_len m :
  buffers inp in_len out (in_len + tl) max ad ad_len m -> buffers out (in_len + tl) out' in_len max' ad ad_len m ->
  exists m1 m2, EVP_AEAD_CTX_seal ctx out max nonce inp in_len ad ad_len m = Some ((1, in_len + tl), m1) /\
    EVP_AEAD_CTX_open ctx out' max' nonce out (in_len + tl) ad ad_len m1 = Some ((1, in_len), m2) /\
    bytes_at m2 out' in_len = bytes_at m inp in_len.
Proof.
  intros B [B1 B2 B3 B4 B5 B6 B7]. pose proof B as [(Hl & Hnn & Had) Hm Hi Ho Ha Hal Hap]. pose proof al_tl as Htl.
  destruct (EVP_seal_runs inp in_len out max ad ad_len m B) as (r & m1 & E & Hu & Hm1 & -> & H1 & H2).
  replace in_len with (in_len + tl - tl) in B7 by lia.
  destruct (EVP_open_runs out (in_len + tl) out' max' ad ad_len m1) as (r & m2 & E2 & _ & _ & H); [lia|clear E; split; [lia|exact Hm1|mapped_tac|mapped_tac|mapped_tac|lia|lia]|].
  replace (in_len + tl - tl) with in_len in H by lia.
  rewrite (bytes_at_upd _ _ _ ad ad_len Hu) in H by (intros x; unfold within; lia). rewrite H1 in H.
  rewrite bool_decide_true in H by (symmetry; exact H2). destruct H as [-> H]. exists m1, m2. split; [exact E|]. split; [exact E2|].
  rewrite H. apply al_inverse.
Qed.
End Layer.
