(* ===== verification/ChachaPoly.v ===== *)
(** * ChaCha20-Poly1305

    Models src/bubble/Pods/BoringSSL/crypto/cipher/e_chacha20poly1305.c, as it is compiled
    without assembly ([asm_capable] is 0), and proves that it is an AEAD as Aead.v expects
    it, that it is the one of RFC 8439, and where it is not. *)

From Stdlib Require Import ZArith Lia.
From stdpp Require Import base option list gmap.
From S2P Require Import Prelude Mem ByteMem Modes Poly1305 Chacha Aead.

(** * The program *)

Definition POLY1305_TAG_LEN : Z := 16.

Record aead_chacha20_poly1305_ctx := mk_c20 { ckey : bytes; tag_len : Z }.

Definition aead_chacha20_poly1305_init (key : bytes) (tag_len : Z) (malloc_ok : bool) : option aead_chacha20_poly1305_ctx :=
  let tag_len := if tag_len =? 0 then POLY1305_TAG_LEN else tag_len in
  if tag_len >? POLY1305_TAG_LEN then None
  else if negb (zlen key =? 32) then None
  else if negb malloc_ok then None
  else Some (mk_c20 key (u8 tag_len)).

(** [OPENSSL_free]: nothing is left. *)
Definition aead_chacha20_poly1305_cleanup (c20_ctx : aead_chacha20_poly1305_ctx) : option aead_chacha20_poly1305_ctx := None.

Fixpoint length_loop (n : nat) (data_len : Z) : bytes :=
  match n with
  | O => []
  | S n => u8 data_len :: length_loop n (Z.shiftr data_len 8)
  end.
Definition poly1305_update_length (poly1305 : poly1305_state_st) (data_len : Z) : option poly1305_state_st :=
  CRYPTO_poly1305_update poly1305 (length_loop 8 data_len).

Definition poly1305_update_padded_16 (poly1305 : poly1305_state_st) (data : bytes) : option poly1305_state_st :=
  st ← CRYPTO_poly1305_update poly1305 data;
  if negb (zlen data mod 16 =? 0) then CRYPTO_poly1305_update st (zrepeat (16 - zlen data mod 16) 0) else Some st.

(** The local buffer [poly1305_key], a memory of its own, after [CRYPTO_chacha_20]. *)
Definition poly1305_key (key nonce : bytes) : option bytes :=
  '(_, m) ← CRYPTO_chacha_20 0 0 32 key nonce 0 (region 0 (zrepeat 32 0));
  '(k, _) ← mem_load 32 0 m;
  Some k.

Definition calc_tag (c20_ctx : aead_chacha20_poly1305_ctx) (nonce ad ciphertext : bytes) : option bytes :=
  k ← poly1305_key (ckey c20_ctx) nonce;
  let st := CRYPTO_poly1305_init k in
  st ← poly1305_update_padded_16 st ad;
  st ← poly1305_update_padded_16 st ciphertext;
  st ← poly1305_update_length st (zlen ad);
  st ← poly1305_update_length st (zlen ciphertext);
  r ← CRYPTO_poly1305_finish st;
  Some (snd r).

(** [(UINT64_C(1) << 32) * 64 - 64] *)
Definition max_in_len : Z := u64 (u64 (Z.shiftl 1 32) * 64 - 64).

Definition aead_chacha20_poly1305_seal (c20_ctx : aead_chacha20_poly1305_ctx) (out max_out_len : Z) (nonce : bytes)
    (inp in_len ad ad_len : Z) : M mem (option Z) :=
  if negb (zlen nonce =? 12) then sret None
  else if in_len >=? max_in_len then sret None
  else if u64 (in_len + tag_len c20_ctx) <? in_len then sret None
  else if max_out_len <? u64 (in_len + tag_len c20_ctx) then sret None
  else
    CRYPTO_chacha_20 out inp in_len (ckey c20_ctx) nonce 1;;;
    let* adb := mem_load ad_len ad in
    let* ct := mem_load in_len out in
    let* tag := slift (calc_tag c20_ctx nonce adb ct) in
    mem_store (out + in_len) (ztake (tag_len c20_ctx) tag);;;
    sret (Some (u64 (in_len + tag_len c20_ctx))).

Definition aead_chacha20_poly1305_open (c20_ctx : aead_chacha20_poly1305_ctx) (out max_out_len : Z) (nonce : bytes)
    (inp in_len ad ad_len : Z) : M mem (option Z) :=
  if negb (zlen nonce =? 12) then sret None
  else if in_len <? tag_len c20_ctx then sret None
  else if in_len >=? max_in_len then sret None
  else
    let plaintext_len := in_len - tag_len c20_ctx in
    let* adb := mem_load ad_len ad in
    let* ct := mem_load plaintext_len inp in
    let* tag := slift (calc_tag c20_ctx nonce adb ct) in
    CRYPTO_chacha_20 out inp plaintext_len (ckey c20_ctx) nonce 1;;;
    let* b := mem_load (tag_len c20_ctx) (inp + plaintext_len) in
    if negb (CRYPTO_memcmp tag b (tag_len c20_ctx) =? 0) then sret None
    else sret (Some plaintext_len).

Definition EVP_aead_chacha20_poly1305 : EVP_AEAD aead_chacha20_poly1305_ctx :=
  mk_aead _ 32 12 POLY1305_TAG_LEN POLY1305_TAG_LEN (Some aead_chacha20_poly1305_init) None
    aead_chacha20_poly1305_cleanup aead_chacha20_poly1305_seal aead_chacha20_poly1305_open None.

(** The lengths the code accepts, and those of a size_t. *)
Abbreviation c20_buffers := (aead_buffers max_in_len (2 ^ 64)).

(** * Specification: RFC 8439, section 2.8 *)

Definition rfc_crypt (key nonce : bytes) (counter : Z) (p : bytes) : bytes :=
  map (fun i => Z.lxor (zget p i) (chacha_keystream key nonce counter i)) (seqZ 0 (zlen p)).
Definition pad16 (p : bytes) : bytes := p ++ zrepeat ((- zlen p) mod 16) 0.
Definition rfc_poly_key (key nonce : bytes) : bytes := ztake 32 (rfc_block key nonce 0).
Definition rfc_mac_data (ad ct : bytes) : bytes := pad16 ad ++ pad16 ct ++ le_bytes 8 (zlen ad) ++ le_bytes 8 (zlen ct).
Definition rfc_tag (key nonce ad ct : bytes) : bytes := rfc8439_mac (rfc_poly_key key nonce) (rfc_mac_data ad ct).

(** The tag of the code: that of the RFC or, only for the few sums for which Poly1305.v says
    that a carry may be lost, the one without it. *)
Definition tag_of (key nonce ad ct tag : bytes) : Prop :=
  tag = rfc_tag key nonce ad ct \/
  may_lose_carry (rfc_sum (rfc_poly_key key nonce) (rfc_mac_data ad ct)) = true /\
    tag = short_mac (rfc_poly_key key nonce) (rfc_mac_data ad ct).

(** * Lemmas: the tag *)

(** The pieces that a padded update makes. *)
Definition padded_pieces (p : bytes) : list bytes := if zlen p mod 16 =? 0 then [p] else [p; zrepeat (16 - zlen p mod 16) 0].

Lemma padded_pieces_concat p : concat (padded_pieces p) = pad16 p.
Proof.
  unfold padded_pieces, pad16. destruct (zlen p mod 16 =? 0) eqn:E; cbn [concat]; rewrite !app_nil_r.
  - replace ((- zlen p) mod 16) with 0 by (Z.to_euclidean_division_equations; lia). change (zrepeat 0 0) with (@nil Z). by rewrite app_nil_r.
  - by replace ((- zlen p) mod 16) with (16 - zlen p mod 16) by (Z.to_euclidean_division_equations; lia).
Qed.

Lemma padded_pieces_ok p : bytes_ok p -> Forall bytes_ok (padded_pieces p).
Proof. intros H. unfold padded_pieces. case_match; repeat apply Forall_cons_2; try done; by apply bytes_ok_zrepeat. Qed.

Lemma update_padded st p : poly1305_update_padded_16 st p = update_all st (padded_pieces p).
Proof.
  unfold poly1305_update_padded_16, padded_pieces. destruct (zlen p mod 16 =? 0); cbn [update_all negb]; destruct (CRYPTO_poly1305_update st p) as [st'|]; try done.
  cbn [mbind option_bind]. by destruct (CRYPTO_poly1305_update st' _).
Qed.

Lemma update_all_app l1 l2 st : update_all st (l1 ++ l2) = (st' ← update_all st l1; update_all st' l2).
Proof.
  revert st. induction l1 as [|p l1 IH]; intros st; [done|]. cbn [app update_all].
  destruct (CRYPTO_poly1305_update st p) as [st'|]; [|done]. cbn [mbind option_bind]. apply IH.
Qed.

Lemma length_loop_bytes n v : length_loop n v = le_bytes n v.
Proof. revert v. induction n as [|n IH]; intros v; [done|]. cbn [length_loop le_bytes]. rewrite IH, Z.shiftr_div_pow2, u8_mod by lia. done. Qed.

Definition mac_pieces (ad ct : bytes) : list bytes :=
  padded_pieces ad ++ padded_pieces ct ++ [le_bytes 8 (zlen ad); le_bytes 8 (zlen ct)].

Lemma mac_pieces_concat ad ct : concat (mac_pieces ad ct) = rfc_mac_data ad ct.
Proof. unfold mac_pieces, rfc_mac_data. rewrite !concat_app, !padded_pieces_concat. cbn [concat]. by rewrite app_nil_r. Qed.

Lemma mac_pieces_ok ad ct : bytes_ok ad -> bytes_ok ct -> Forall bytes_ok (mac_pieces ad ct).
Proof.
  intros Ha Hc. unfold mac_pieces. rewrite !Forall_app. split_and!; [by apply padded_pieces_ok..|].
  apply Forall_cons_2; [apply le_bytes_ok|]. apply Forall_cons_2; [apply le_bytes_ok|constructor].
Qed.

Lemma calc_tag_pieces c nonce ad ct : calc_tag c nonce ad ct = (k ← poly1305_key (ckey c) nonce; poly1305_tag k (mac_pieces ad ct)).
Proof.
  unfold calc_tag, poly1305_tag, mac_pieces, poly1305_update_length. destruct (poly1305_key (ckey c) nonce) as [k|]; [|done]. cbn [mbind option_bind].
  rewrite !update_all_app, !length_loop_bytes, !update_padded. destruct (update_all _ (padded_pieces ad)) as [st1|]; [|done]. cbn [mbind option_bind].
  rewrite update_padded, update_all_app. destruct (update_all st1 _) as [st2|]; [|done]. cbn [mbind option_bind update_all].
  destruct (CRYPTO_poly1305_update st2 _) as [st3|]; [|done]. cbn [mbind option_bind]. by destruct (CRYPTO_poly1305_update st3 _).
Qed.

Section Key.
Variables key nonce : bytes.
Hypothesis Hkey : zlen key = 32 /\ bytes_ok key.
Hypothesis Hnonce : zlen nonce = 12 /\ bytes_ok nonce.

Lemma poly1305_key_spec : poly1305_key key nonce = Some (rfc_poly_key key nonce) /\ zlen (rfc_poly_key key nonce) = 32 /\ bytes_ok (rfc_poly_key key nonce).
Proof using Hkey Hnonce.
  destruct (rfc_block_ok key nonce Hkey Hnonce 0) as [HL HB]; [unfold is_u; lia|].
  split; [|split; [unfold rfc_poly_key; rewrite length_ztake; lia|by apply bytes_ok_ztake]].
  assert (Hz : bytes_ok (zrepeat 32 0)) by by apply bytes_ok_zrepeat.
  assert (Hm : mapped (region 0 (zrepeat 32 0)) 0 32) by (apply region_mapped; rewrite length_zrepeat; lia).
  destruct (CRYPTO_chacha_20_runs key nonce Hkey Hnonce 0 0 0 32 (region 0 (zrepeat 32 0))) as ([] & m' & E & Hu & Hb & H); [unfold is_u; lia| |].
  { split; [lia|by apply region_bytes|done|done|by left]. }
  unfold poly1305_key. rewrite E. cbn [mbind option_bind]. rewrite mem_load_at by (assumption || mapped_tac). cbn [mbind option_bind]. f_equal.
  apply bytes_at_eq; [unfold rfc_poly_key; rewrite length_ztake; lia|]. intros i Hi. rewrite H by done.
  assert (Ez : byte (region 0 (zrepeat 32 0)) (0 + i) = 0).
  { unfold byte. rewrite Z.add_0_l. destruct (region 0 (zrepeat 32 0) !! i) as [v|] eqn:Ev; [|done].
    rewrite <- (Z.add_0_l i), region_lookup in Ev by (rewrite length_zrepeat; lia). by apply lookup_replicate in Ev as [-> _]. }
  rewrite Ez, Z.lxor_0_l. unfold rfc_poly_key. rewrite zget_ztake by lia. apply (keystream_first key nonce); [unfold is_u; lia|lia].
Qed.

(** The code always has a tag, and it is the one specified. *)
Lemma calc_tag_spec n ad ct : bytes_ok ad -> bytes_ok ct -> exists tag, calc_tag (mk_c20 key n) nonce ad ct = Some tag /\ length tag = 16%nat /\ bytes_ok tag /\
  tag_of key nonce ad ct tag.
Proof using Hkey Hnonce.
  intros Ha Hc. destruct poly1305_key_spec as (E & HL & HB). rewrite calc_tag_pieces. cbn [ckey]. rewrite E. cbn [mbind option_bind].
  destruct (poly1305_tag_ok _ (mac_pieces ad ct) HL HB (mac_pieces_ok ad ct Ha Hc)) as (tag & Et & H). rewrite mac_pieces_concat in H.
  exists tag. split; [exact Et|exact H].
Qed.

Lemma calc_tag_len n n' ad ct : calc_tag (mk_c20 key n) nonce ad ct = calc_tag (mk_c20 key n') nonce ad ct.
Proof. by rewrite !calc_tag_pieces. Qed.

Lemma length_rfc_crypt counter p : length (rfc_crypt key nonce counter p) = length p.
Proof. unfold rfc_crypt. rewrite length_map, length_seqZ. lia. Qed.

Lemma zget_rfc_crypt counter p i : 0 <= i < zlen p -> zget (rfc_crypt key nonce counter p) i = Z.lxor (zget p i) (chacha_keystream key nonce counter i).
Proof.
  intros Hi. unfold rfc_crypt, zget at 1. erewrite nth_lookup_Some; [reflexivity|]. apply list_lookup_fmap_Some. exists i. split; [reflexivity|]. apply lookup_seqZ. lia.
Qed.

Lemma rfc_crypt_ok counter p : bytes_ok p -> bytes_ok (rfc_crypt key nonce counter p).
Proof using Hkey Hnonce.
  intros Hp. apply Forall_map, Forall_forall. intros i _. apply (lxor_is_u 8); [lia|by apply zget_byte|by apply keystream_byte].
Qed.

Lemma rfc_crypt_inverse counter p : rfc_crypt key nonce counter (rfc_crypt key nonce counter p) = p.
Proof.
  apply zget_ext; [by rewrite !length_rfc_crypt|]. rewrite !length_rfc_crypt. intros i Hi.
  rewrite zget_rfc_crypt by (rewrite length_rfc_crypt; lia). rewrite zget_rfc_crypt by done. rewrite Z.lxor_assoc, Z.lxor_nilpotent. apply Z.lxor_0_r.
Qed.

(** The stream cipher between buffers, as lists. *)
Lemma chacha_20_bytes counter inp out len m : is_u 32 counter -> chacha_buffers inp out len m ->
  runs (CRYPTO_chacha_20 out inp len key nonce counter) m (within out len) (fun _ m' =>
    upd (within out len) m m' /\ bytes_at m' out len = rfc_crypt key nonce counter (bytes_at m inp len)).
Proof using Hkey Hnonce.
  intros Hc B. pose proof B as [Hl _ _ _ _]. eapply runs_sub; [by apply CRYPTO_chacha_20_runs|done|]. intros [] m' Hu _ H. split; [done|].
  assert (Hb : zlen (bytes_at m inp len) = len) by (rewrite length_bytes_at; lia).
  apply bytes_at_eq; [rewrite length_rfc_crypt; lia|]. intros i Hi. rewrite H by done. rewrite zget_rfc_crypt by lia. by rewrite zget_bytes_at.
Qed.

#[local] Opaque calc_tag rfc_crypt rfc_block chacha_keystream.

Section Tag.
Variable tl : Z.
Hypothesis Htl : 0 <= tl <= 16.
Local Abbreviation ctx := (mk_c20 key tl).

Lemma seal_runs inp in_len out max ad ad_len m : c20_buffers inp in_len out (in_len + tl) max ad ad_len m ->
  let ct := rfc_crypt key nonce 1 (bytes_at m inp in_len) in
  exists tag, calc_tag ctx nonce (bytes_at m ad ad_len) ct = Some tag /\
    runs (aead_chacha20_poly1305_seal ctx out max nonce inp in_len ad ad_len) m (within out (in_len + tl)) (fun r m' =>
      r = Some (in_len + tl) /\ bytes_at m' out in_len = ct /\ bytes_at m' (out + in_len) tl = ztake tl tag).
Proof using Hkey Hnonce Htl.
  intros [(Hl & Hn & Had) Hm Hi Ho Ha Hal Hap]. assert (Hmax : max_in_len = 2 ^ 38 - 64) by reflexivity.
  set (ct := rfc_crypt _ _ _ _). assert (Hctl : zlen ct = in_len) by (unfold ct; rewrite length_rfc_crypt, length_bytes_at; lia).
  assert (Hcb : bytes_ok ct) by (by apply rfc_crypt_ok, bytes_at_ok).
  destruct (calc_tag_spec tl (bytes_at m ad ad_len) ct) as (tag & Et & Hlt & Htb & _); [by apply bytes_at_ok|done|]. exists tag. split; [exact Et|].
  pose proof (fun m1 A Hm1 => runs_lift _ tag m1 A (fun l m' => l = tag /\ m' = m1) Et Hm1 (conj eq_refl eq_refl)) as Hlift. clear Et.
  unfold aead_chacha20_poly1305_seal. cbn [tag_len ckey]. destruct Hnonce as [Hn12 _]. rewrite Hn12, Z.eqb_refl. cbn [negb].
  rewrite !(u64_small (in_len + tl)) by (unfold is_u; lia). replace (in_len >=? max_in_len) with false by lia.
  replace (in_len + tl <? in_len) with false by lia. replace (max <? in_len + tl) with false by lia.
  eapply runs_bind; [eapply runs_sub; [apply (chacha_20_bytes 1 inp out in_len m)| |]|].
  { unfold is_u; lia. }
  { split; [lia|done|done|mapped_tac|lia]. }
  { intros x. unfold within. lia. }
  { intros ? m1 _ _ H. exact H. }
  intros [] m1 _ Hm1 [Hu1 H1].
  eapply runs_bind; [apply runs_load with (Q := fun l m' => l = bytes_at m ad ad_len /\ m' = m1); [done|mapped_tac|]|].
  { split; [|done]. apply (bytes_at_upd _ _ _ _ _ Hu1). intros x. unfold within. lia. }
  intros ? ? _ _ [-> ->].
  eapply runs_bind; [apply runs_load with (Q := fun l m' => l = ct /\ m' = m1); [done|mapped_tac|done]|]. intros ? ? _ _ [-> ->].
  eapply runs_bind; [exact (Hlift m1 _ Hm1)|]. intros ? ? _ _ [-> ->].
  assert (Hzt : zlen (ztake tl tag) = tl) by (rewrite length_ztake; lia).
  eapply runs_bind; [apply runs_store with (A := within out (in_len + tl)); [done|by apply bytes_ok_ztake|rewrite Hzt; mapped_tac|rewrite Hzt; intros x; unfold within; lia]|].
  rewrite Hzt. intros [] m2 _ Hm2 [Hu2 H2]. apply runs_ret; [done|]. split; [done|]. split.
  - transitivity (bytes_at m1 out in_len); [|exact H1]. apply (bytes_at_upd _ _ _ _ _ Hu2). intros x. unfold within. lia.
  - by apply bytes_at_eq.
Qed.

Lemma open_runs inp in_len out max ad ad_len m : tl <= in_len -> c20_buffers inp in_len out (in_len - tl) max ad ad_len m ->
  let ct := bytes_at m inp (in_len - tl) in
  exists tag, calc_tag ctx nonce (bytes_at m ad ad_len) ct = Some tag /\
    runs (aead_chacha20_poly1305_open ctx out max nonce inp in_len ad ad_len) m (within out (in_len - tl)) (fun r m' =>
      bytes_at m' out (in_len - tl) = rfc_crypt key nonce 1 ct /\
      r = if bool_decide (ztake tl tag = bytes_at m (inp + (in_len - tl)) tl) then Some (in_len - tl) else None).
Proof using Hkey Hnonce Htl.
  intros Htin [(Hl & Hn & Had) Hm Hi Ho Ha Hal Hap]. assert (Hmax : max_in_len = 2 ^ 38 - 64) by reflexivity.
  set (pl := in_len - tl) in *. set (ct := bytes_at m inp pl). assert (Hcb : bytes_ok ct) by (by apply bytes_at_ok).
  destruct (calc_tag_spec tl (bytes_at m ad ad_len) ct) as (tag & Et & Hlt & Htb & _); [by apply bytes_at_ok|done|]. exists tag. split; [exact Et|].
  pose proof (fun m1 A Hm1 => runs_lift _ tag m1 A (fun l m' => l = tag /\ m' = m1) Et Hm1 (conj eq_refl eq_refl)) as Hlift. clear Et.
  unfold aead_chacha20_poly1305_open. cbn [tag_len ckey]. destruct Hnonce as [Hn12 _]. rewrite Hn12, Z.eqb_refl. cbn [negb].
  replace (in_len <? tl) with false by lia. replace (in_len >=? max_in_len) with false by lia. cbv zeta. fold pl.
  eapply runs_bind; [apply runs_load with (Q := fun l m' => l = bytes_at m ad ad_len /\ m' = m); [done|done|done]|]. intros ? ? _ _ [-> ->].
  eapply runs_bind; [apply runs_load with (Q := fun l m' => l = ct /\ m' = m); [done|mapped_tac|done]|]. intros ? ? _ _ [-> ->].
  eapply runs_bind; [exact (Hlift m _ Hm)|]. intros ? ? _ _ [-> ->].
  eapply runs_bind; [eapply runs_sub; [apply (chacha_20_bytes 1 inp out pl m)| |]|].
  { unfold is_u; lia. }
  { split; [lia|done|mapped_tac|mapped_tac|lia]. }
  { done. }
  { intros ? m1 _ _ H. exact H. }
  intros [] m1 _ Hm1 [Hu1 H1].
  eapply runs_bind; [apply runs_load with (Q := fun l m' => l = bytes_at m (inp + pl) tl /\ m' = m1); [done|mapped_tac|]|].
  { split; [|done]. apply (bytes_at_upd _ _ _ _ _ Hu1). intros x. unfold within. lia. }
  intros ? ? _ _ [-> ->]. assert (Hbl : zlen (bytes_at m (inp + pl) tl) = tl) by (rewrite length_bytes_at; lia).
  pose proof (CRYPTO_memcmp_eq tag (bytes_at m (inp + pl) tl) tl ltac:(lia) ltac:(lia)) as Hc. rewrite (ztake_all tl (bytes_at m (inp + pl) tl)) in Hc by lia.
  case_bool_decide as Hd; destruct (CRYPTO_memcmp tag (bytes_at m (inp + pl) tl) tl =? 0) eqn:Ez; cbn [negb]; apply runs_ret; try done; exfalso;
    [apply Hc in Hd|apply Hd, Hc]; lia.
Qed.

(** The tag of the code, for the interface. *)
Definition c20_spec : aead_spec :=
  mk_aead_spec tl max_in_len (2 ^ 64) (rfc_crypt key nonce 1) (fun ad ct => default [] (calc_tag ctx nonce ad ct)).

Lemma c20_spec_eq : sp_tl c20_spec = tl /\ sp_crypt c20_spec = rfc_crypt key nonce 1 /\
  (forall ad ct tag, calc_tag ctx nonce ad ct = Some tag -> sp_tag c20_spec ad ct = tag).
Proof using Type. split; [reflexivity|]. split; [reflexivity|]. intros ad ct tag E. cbn [sp_tag c20_spec]. by rewrite E. Qed.

Instance c20_laws : AeadLaws EVP_aead_chacha20_poly1305 ctx nonce c20_spec.
Proof using Hkey Hnonce Htl.
  split; cbn [sp_tl sp_lim sp_ad_lim sp_crypt sp_tag c20_spec].
  - exact Htl.
  - change (overhead EVP_aead_chacha20_poly1305) with 16. change max_in_len with (2 ^ 38 - 64). lia.
  - intros p. apply rfc_crypt_inverse.
  - intros inp in_len out max ad ad_len m B. cbn [seal EVP_aead_chacha20_poly1305].
    destruct (seal_runs inp in_len out max ad ad_len m B) as (tag & Et & R). rewrite Et. exact R.
  - intros inp in_len out max ad ad_len m Hin B. cbn [open EVP_aead_chacha20_poly1305].
    destruct (open_runs inp in_len out max ad ad_len m Hin B) as (tag & Et & R). rewrite Et. exact R.
Qed.
End Tag.
End Key.

(** * Properties *)

(** The context that a successful initialisation leaves; the length 0 stands for 16. *)
Definition chacha_ctx (key : bytes) (tl : Z) : EVP_AEAD_CTX aead_chacha20_poly1305_ctx :=
  mk_ctx (Some EVP_aead_chacha20_poly1305) (Some (mk_c20 key tl)).

Lemma EVP_AEAD_CTX_init_chacha ctx key tl malloc_ok : 0 <= tl ->
  EVP_AEAD_CTX_init ctx EVP_aead_chacha20_poly1305 key tl malloc_ok =
  Some (if (zlen key =? 32) && (tl <=? 16) && malloc_ok then (1, chacha_ctx key (if tl =? 0 then 16 else tl)) else (0, mk_ctx None (aead_state ctx))).
Proof.
  intros Htl. unfold EVP_AEAD_CTX_init, EVP_AEAD_CTX_init_with_direction. cbn [init key_len EVP_aead_chacha20_poly1305].
  destruct (zlen key =? 32) eqn:Ek; cbn [negb andb]; [|done]. cbn [mbind option_bind]. unfold aead_chacha20_poly1305_init. rewrite Ek. change POLY1305_TAG_LEN with 16.
  destruct (Z.leb_spec tl 16); cbn [negb andb].
  - replace ((if tl =? 0 then 16 else tl) >? 16) with false by (destruct (tl =? 0); lia). destruct malloc_ok; [|done]. cbn [negb].
    rewrite u8_mod, Z.mod_small by (destruct (tl =? 0); lia). done.
  - replace (tl =? 0) with false by lia. by replace (tl >? 16) with true by lia.
Qed.

(** C24. Sealing is the construction of RFC 8439, but for the carry that Poly1305.v says may be
    lost: for every key, nonce, text and associated data, in place or not, and every length
    of the tag, [EVP_AEAD_CTX_seal] writes the text xored with the key stream from block 1
    and then the first bytes of the tag, and nothing else. The tag is a function of key, nonce,
    associated data and ciphertext ([calc_tag]): the RFC's, or that of a sum smaller by 2^26,
    the latter only where [may_lose_carry] holds of the RFC's sum. *)
Theorem EVP_AEAD_CTX_seal_rfc8439 key nonce tl inp in_len out max ad ad_len m :
  zlen key = 32 /\ bytes_ok key -> zlen nonce = 12 /\ bytes_ok nonce -> 0 <= tl <= 16 ->
  c20_buffers inp in_len out (in_len + tl) max ad ad_len m ->
  let adb := bytes_at m ad ad_len in
  let ct := rfc_crypt key nonce 1 (bytes_at m inp in_len) in
  exists tag m', EVP_AEAD_CTX_seal (chacha_ctx key tl) out max nonce inp in_len ad ad_len m = Some ((1, in_len + tl), m') /\
    bytes_at m' out in_len = ct /\ bytes_at m' (out + in_len) tl = ztake tl tag /\
    calc_tag (mk_c20 key tl) nonce adb ct = Some tag /\ tag_of key nonce adb ct tag /\
    upd (within out (in_len + tl)) m m'.
Proof.
  intros Hk Hn Ht B. pose proof (ab_mem _ _ _ _ _ _ _ _ _ _ B) as Hm.
  pose proof (c20_laws key nonce Hk Hn tl Ht) as L. destruct (c20_spec_eq key nonce tl) as (Etl & Ecr & Etag).
  destruct (EVP_seal_runs _ _ _ (c20_spec key nonce tl) inp in_len out max ad ad_len m B) as (r & m' & E & Hu & _ & -> & H1 & H2).
  rewrite Etl in E, Hu, H2. rewrite Ecr in H1, H2.
  destruct (calc_tag_spec key nonce Hk Hn tl (bytes_at m ad ad_len) (rfc_crypt key nonce 1 (bytes_at m inp in_len))) as (tag & Et & _ & _ & H);
    [by apply bytes_at_ok|by apply rfc_crypt_ok, bytes_at_ok|]. rewrite (Etag _ _ _ Et) in H2. clear Etag L.
  exists tag, m'. split; [exact E|]. split; [exact H1|]. split; [exact H2|]. split; [exact Et|]. split; [exact H|exact Hu].
Qed.

(** C23. Opening: the text is let out exactly if the bytes after it are the tag that sealing
    gives the ciphertext and the associated data: the RFC's or, only where
    [may_lose_carry] holds of the RFC's sum, possibly that of a sum smaller by 2^26
    instead; otherwise the result is 0 and the whole output buffer is cleared, so that no
    unauthenticated byte is left. *)
Theorem EVP_AEAD_CTX_open_authentic key nonce tl inp in_len out max ad ad_len m :
  zlen key = 32 /\ bytes_ok key -> zlen nonce = 12 /\ bytes_ok nonce -> 0 <= tl <= 16 -> tl <= in_len ->
  c20_buffers inp in_len out (in_len - tl) max ad ad_len m ->
  let adb := bytes_at m ad ad_len in
  let ct := bytes_at m inp (in_len - tl) in
  exists tag r m', EVP_AEAD_CTX_open (chacha_ctx key tl) out max nonce inp in_len ad ad_len m = Some (r, m') /\
    (if bool_decide (ztake tl tag = bytes_at m (inp + (in_len - tl)) tl)
     then r = (1, in_len - tl) /\ bytes_at m' out (in_len - tl) = rfc_crypt key nonce 1 ct
     else r = (0, 0) /\ bytes_at m' out max = zrepeat max 0) /\
    calc_tag (mk_c20 key tl) nonce adb ct = Some tag /\ tag_of key nonce adb ct tag /\
    upd (within out max) m m'.
Proof.
  intros Hk Hn Ht Hin B. pose proof (ab_mem _ _ _ _ _ _ _ _ _ _ B) as Hm.
  pose proof (c20_laws key nonce Hk Hn tl Ht) as L. destruct (c20_spec_eq key nonce tl) as (Etl & Ecr & Etag).
  destruct (EVP_open_runs _ _ _ (c20_spec key nonce tl) inp in_len out max ad ad_len m Hin B) as (r & m' & E & Hu & _ & H1).
  rewrite Etl, Ecr in H1.
  destruct (calc_tag_spec key nonce Hk Hn tl (bytes_at m ad ad_len) (bytes_at m inp (in_len - tl))) as (tag & Et & _ & _ & H); [by apply bytes_at_ok..|].
  rewrite (Etag _ _ _ Et) in H1. clear Etag L.
  exists tag, r, m'. split; [exact E|]. split; [exact H1|]. split; [exact Et|]. split; [exact H|exact Hu].
Qed.

(** C22. Round trip, with no exception: what is sealed, opens to the text with the same
    key, nonce and associated data, wherever the buffers may be (both in place, for one);
    the tags agree even where they are not the RFC's. *)
Theorem EVP_AEAD_CTX_roundtrip key nonce tl inp in_len out max out' max' ad ad_len m :
  zlen key = 32 /\ bytes_ok key -> zlen nonce = 12 /\ bytes_ok nonce -> 0 <= tl <= 16 ->
  c20_buffers inp in_len out (in_len + tl) max ad ad_len m -> c20_buffers out (in_len + tl) out' in_len max' ad ad_len m ->
  exists m1 m2, EVP_AEAD_CTX_seal (chacha_ctx key tl) out max nonce inp in_len ad ad_len m = Some ((1, in_len + tl), m1) /\
    EVP_AEAD_CTX_open (chacha_ctx key tl) out' max' nonce out (in_len + tl) ad ad_len m1 = Some ((1, in_len), m2) /\
    bytes_at m2 out' in_len = bytes_at m inp in_len.
Proof.
  intros Hk Hn Ht B B'. pose proof (c20_laws key nonce Hk Hn tl Ht) as L. exact (EVP_roundtrip _ _ _ (c20_spec key nonce tl) inp in_len out max out' max' ad ad_len m B B').
Qed.

(** C38. The length of the output buffer is not looked at by the opening function: with
    [max_out_len] 0, a sealed text opens with success and its [in_len - tl] bytes are
    written all the same. *)
Theorem EVP_AEAD_CTX_open_overflow key nonce tl inp in_len out max ad ad_len m tag :
  zlen key = 32 /\ bytes_ok key -> zlen nonce = 12 /\ bytes_ok nonce -> 0 <= tl <= 16 -> tl <= in_len ->
  c20_buffers inp in_len out (in_len - tl) max ad ad_len m ->
  calc_tag (mk_c20 key tl) nonce (bytes_at m ad ad_len) (bytes_at m inp (in_len - tl)) = Some tag ->
  bytes_at m (inp + (in_len - tl)) tl = ztake tl tag ->
  exists m', EVP_AEAD_CTX_open (chacha_ctx key tl) out 0 nonce inp in_len ad ad_len m = Some ((1, in_len - tl), m') /\
    bytes_at m' out (in_len - tl) = rfc_crypt key nonce 1 (bytes_at m inp (in_len - tl)).
Proof.
  intros Hk Hn Ht Hin B Et Hb. pose proof B as [(Hl & Hnn & Had) Hm Hi Ho Ha Hal Hap].
  destruct (open_runs key nonce Hk Hn tl Ht inp in_len out max ad ad_len m Hin B) as (tag' & Et' & r & m' & E & _ & _ & H1 & H2).
  rewrite Et in Et'. injection Et' as <-. rewrite bool_decide_true in H2 by (by rewrite Hb). subst r. exists m'. split; [|exact H1].
  unfold chacha_ctx. rewrite EVP_open_unfold by (apply alias_ok; lia). cbn [open EVP_aead_chacha20_poly1305]. unfold sbind.
  change (aead_chacha20_poly1305_open (mk_c20 key tl) out 0) with (aead_chacha20_poly1305_open (mk_c20 key tl) out max). rewrite E. reflexivity.
Qed.

(** ** Witnesses *)

Lemma sample_chacha_key : zlen (seqZ 0 32) = 32 /\ bytes_ok (seqZ 0 32).
Proof. split; [reflexivity|apply seqZ_is_bytes; lia]. Qed.

Lemma chacha_mem_aead inp in_len out n max ad ad_len : 0 <= inp -> 0 <= out -> 0 <= ad -> 0 <= in_len -> 0 <= n <= max -> 0 <= ad_len ->
  inp + in_len <= 200 -> out + max <= 200 -> ad + ad_len <= 200 -> inp = out \/ inp + in_len <= out \/ out + max <= inp ->
  ad + ad_len <= out \/ out + max <= ad -> c20_buffers inp in_len out n max ad ad_len chacha_mem.
Proof.
  intros. assert (H200 : mapped chacha_mem 0 200) by (apply region_mapped; rewrite length_seqZ; lia). assert (max_in_len = 2 ^ 38 - 64) by reflexivity.
  split; try (mapped_tac || lia). apply region_bytes, seqZ_is_bytes. lia.
Qed.

(** In place: 40 bytes at 50, with 12 bytes of associated data at 10. *)
Lemma EVP_AEAD_CTX_seal_rfc8439_witness :
  let adb := bytes_at chacha_mem 10 12 in
  let ct := rfc_crypt (seqZ 0 32) sample_nonce 1 (bytes_at chacha_mem 50 40) in
  exists tag m', EVP_AEAD_CTX_seal (chacha_ctx (seqZ 0 32) 16) 50 60 sample_nonce 50 40 10 12 chacha_mem = Some ((1, 56), m') /\
    bytes_at m' 50 40 = ct /\ bytes_at m' (50 + 40) 16 = ztake 16 tag /\
    calc_tag (mk_c20 (seqZ 0 32) 16) sample_nonce adb ct = Some tag /\ tag_of (seqZ 0 32) sample_nonce adb ct tag /\
    upd (within 50 56) chacha_mem m'.
Proof.
  apply (EVP_AEAD_CTX_seal_rfc8439 (seqZ 0 32) sample_nonce 16 50 40 50 60 10 12 chacha_mem);
    [exact sample_chacha_key|exact sample_nonce_ok|lia|apply chacha_mem_aead; lia].
Defined.

Lemma EVP_AEAD_CTX_open_authentic_witness :
  let adb := bytes_at chacha_mem 10 12 in
  let ct := bytes_at chacha_mem 50 40 in
  exists tag r m', EVP_AEAD_CTX_open (chacha_ctx (seqZ 0 32) 16) 50 60 sample_nonce 50 56 10 12 chacha_mem = Some (r, m') /\
    (if bool_decide (ztake 16 tag = bytes_at chacha_mem (50 + 40) 16)
     then r = (1, 40) /\ bytes_at m' 50 40 = rfc_crypt (seqZ 0 32) sample_nonce 1 ct
     else r = (0, 0) /\ bytes_at m' 50 60 = zrepeat 60 0) /\
    calc_tag (mk_c20 (seqZ 0 32) 16) sample_nonce adb ct = Some tag /\ tag_of (seqZ 0 32) sample_nonce adb ct tag /\
    upd (within 50 60) chacha_mem m'.
Proof.
  apply (EVP_AEAD_CTX_open_authentic (seqZ 0 32) sample_nonce 16 50 56 50 60 10 12 chacha_mem);
    [exact sample_chacha_key|exact sample_nonce_ok|lia|lia|apply chacha_mem_aead; lia].
Defined.

Lemma EVP_AEAD_CTX_roundtrip_witness :
  exists m1 m2, EVP_AEAD_CTX_seal (chacha_ctx (seqZ 0 32) 16) 50 60 sample_nonce 50 40 10 12 chacha_mem = Some ((1, 56), m1) /\
    EVP_AEAD_CTX_open (chacha_ctx (seqZ 0 32) 16) 50 40 sample_nonce 50 56 10 12 m1 = Some ((1, 40), m2) /\
    bytes_at m2 50 40 = bytes_at chacha_mem 50 40.
Proof.
  apply (EVP_AEAD_CTX_roundtrip (seqZ 0 32) sample_nonce 16 50 40 50 60 50 40 10 12 chacha_mem);
    [exact sample_chacha_key|exact sample_nonce_ok|lia|apply chacha_mem_aead; lia|apply chacha_mem_aead; lia].
Defined.

(** A sealed text of 20 bytes at 50, with its tag. *)
Definition sample_tag : bytes := Eval vm_compute in default [] (calc_tag (mk_c20 (seqZ 0 32) 16) sample_nonce (seqZ 10 12) (seqZ 50 20)).
Definition sealed_mem : mem := region 0 (seqZ 0 70 ++ sample_tag ++ zrepeat 114 0).

Lemma EVP_AEAD_CTX_open_overflow_witness :
  exists m', EVP_AEAD_CTX_open (chacha_ctx (seqZ 0 32) 16) 150 0 sample_nonce 50 36 10 12 sealed_mem = Some ((1, 20), m') /\
    bytes_at m' 150 20 = rfc_crypt (seqZ 0 32) sample_nonce 1 (bytes_at sealed_mem 50 20).
Proof.
  apply (EVP_AEAD_CTX_open_overflow (seqZ 0 32) sample_nonce 16 50 36 150 20 10 12 sealed_mem sample_tag);
    [exact sample_chacha_key|exact sample_nonce_ok|lia|lia| |vm_compute; reflexivity|vm_compute; reflexivity].
  assert (Hm : mapped sealed_mem 0 200) by (apply region_mapped; vm_compute; discriminate). assert (max_in_len = 2 ^ 38 - 64) by reflexivity.
  split; try (mapped_tac || lia). apply region_bytes. rewrite !bytes_ok_app. split_and!; [apply seqZ_is_bytes; lia| |by apply bytes_ok_zrepeat].
  vm_compute. repeat constructor; discriminate.
Defined.

(** The test vector of RFC 8439, section 2.8.2. *)
Example rfc8439_2_8_2 :
  let key := seqZ 0x80 32 in
  let nonce := [0x07; 0x00; 0x00; 0x00; 0x40; 0x41; 0x42; 0x43; 0x44; 0x45; 0x46; 0x47] in
  let p := [76; 97; 100; 105; 101; 115; 32; 97; 110; 100; 32; 71; 101; 110; 116; 108; 101; 109; 101; 110; 32; 111; 102; 32; 116; 104; 101; 32; 99; 108; 97; 115; 115; 32; 111; 102; 32; 39; 57; 57; 58; 32; 73; 102; 32; 73; 32; 99; 111; 117; 108; 100; 32; 111; 102; 102; 101; 114; 32; 121; 111; 117; 32; 111; 110; 108; 121; 32; 111; 110; 101; 32; 116; 105; 112; 32; 102; 111; 114; 32; 116; 104; 101; 32; 102; 117; 116; 117; 114; 101; 44; 32; 115; 117; 110; 115; 99; 114; 101; 101; 110; 32; 119; 111; 117; 108; 100; 32; 98; 101; 32; 105; 116; 46] in
  rfc_tag key nonce [0x50; 0x51; 0x52; 0x53; 0xc0; 0xc1; 0xc2; 0xc3; 0xc4; 0xc5; 0xc6; 0xc7] (rfc_crypt key nonce 1 p) = [0x1a; 0xe1; 0x0b; 0x59; 0x4f; 0x09; 0xe2; 0x6a; 0x7e; 0x90; 0x2e; 0xcb; 0xd0; 0x60; 0x06; 0x91].
Proof. vm_compute. reflexivity. Qed.
