(* ===== verification/AesGcm.v ===== *)
(** * AES-GCM

    Models the AEAD of src/bubble/Pods/BoringSSL/crypto/cipher/e_aes.c on the mode of
    Gcm.v, as it is compiled without assembly: the functions that would be assembly are
    stubs that abort, and the tests for them are 0. It is an AEAD as Aead.v expects it,
    and the one of NIST SP 800-38D with the AES of FIPS 197. *)

From Stdlib Require Import ZArith Lia.
From stdpp Require Import base option list gmap.
From S2P Require Import Prelude Mem ByteMem AesSpec Aes Modes AesModes Ghash Gcm GcmSpec Aead.

(** * The program: the choice of an implementation *)

(** A [ctr128_f] of this library: [in], [out], [blocks], [key], [ivec]. *)
Definition ctr128_f : Type := Z -> Z -> Z -> AES_KEY -> bytes -> M mem unit.

Definition aesni_capable : Z := 0.
Definition hwaes_capable : Z := 0.
Definition bsaes_capable : Z := 0.
Definition vpaes_capable : Z := 0.

(** The stubs call [abort]. *)
Definition aesni_set_encrypt_key (userKey : option bytes) (bits : Z) (key : option AES_KEY) : option (Z * option AES_KEY) := None.
Definition aes_hw_set_encrypt_key (user_key : option bytes) (bits : Z) (key : option AES_KEY) : option (Z * option AES_KEY) := None.
Definition vpaes_set_encrypt_key (userKey : option bytes) (bits : Z) (key : option AES_KEY) : option (Z * option AES_KEY) := None.
Definition aesni_encrypt (inp : bytes) (key : AES_KEY) : option bytes := None.
Definition aes_hw_encrypt (inp : bytes) (key : AES_KEY) : option bytes := None.
Definition vpaes_encrypt (inp : bytes) (key : AES_KEY) : option bytes := None.
Definition aesni_ctr32_encrypt_blocks : ctr128_f := fun _ _ _ _ _ => sstuck.
Definition aes_hw_ctr32_encrypt_blocks : ctr128_f := fun _ _ _ _ _ => sstuck.
Definition bsaes_ctr32_encrypt_blocks : ctr128_f := fun _ _ _ _ _ => sstuck.

(** The lines that the branches of [aes_ctr_set_key] share: the key, the context (where
    [gcm_ctx] is not NULL), and what goes to [*out_block]. *)
Definition set_key_with (set_key : option bytes -> Z -> option AES_KEY -> option (Z * option AES_KEY)) (encrypt : bytes -> AES_KEY -> option bytes)
    (aes_key : AES_KEY) (gcm_ctx : bool) (key : bytes) : option (AES_KEY * option (GCM128_CONTEXT AES_KEY) * (bytes -> AES_KEY -> option bytes)) :=
  '(_, k) ← set_key (Some key) (zlen key * 8) (Some aes_key);
  k ← k;
  g ← (if gcm_ctx then c ← CRYPTO_gcm128_init k encrypt; Some (Some c) else Some None);
  Some (k, g, encrypt).

Definition aes_ctr_set_key (aes_key : AES_KEY) (gcm_ctx : bool) (key : bytes) :
  option (AES_KEY * option (GCM128_CONTEXT AES_KEY) * (bytes -> AES_KEY -> option bytes) * option ctr128_f) :=
  if negb (aesni_capable =? 0) then
    r ← set_key_with aesni_set_encrypt_key aesni_encrypt aes_key gcm_ctx key; Some (r, Some aesni_ctr32_encrypt_blocks)
  else if negb (hwaes_capable =? 0) then
    r ← set_key_with aes_hw_set_encrypt_key aes_hw_encrypt aes_key gcm_ctx key; Some (r, Some aes_hw_ctr32_encrypt_blocks)
  else if negb (bsaes_capable =? 0) then
    r ← set_key_with AES_set_encrypt_key AES_encrypt aes_key gcm_ctx key; Some (r, Some bsaes_ctr32_encrypt_blocks)
  else if negb (vpaes_capable =? 0) then
    r ← set_key_with vpaes_set_encrypt_key vpaes_encrypt aes_key gcm_ctx key; Some (r, None)
  else
    r ← set_key_with AES_set_encrypt_key AES_encrypt aes_key gcm_ctx key; Some (r, None).

(** * The program: the AEAD *)

Definition EVP_AEAD_AES_GCM_TAG_LEN : Z := 16.

Record aead_aes_gcm_ctx := mk_agc { ks : AES_KEY; gcm : GCM128_CONTEXT AES_KEY; ctr : option ctr128_f; tag_len : Z }.

(** [fresh] is what malloc leaves where the key schedule goes. Nothing stands for a result
    of 0. *)
Definition aead_aes_gcm_init (fresh : AES_KEY) (key : bytes) (tag_len : Z) (malloc_ok : bool) : option aead_aes_gcm_ctx :=
  let key_bits := zlen key * 8 in
  if negb (key_bits =? 128) && negb (key_bits =? 256) then None
  else
    let tag_len := if tag_len =? 0 then EVP_AEAD_AES_GCM_TAG_LEN else tag_len in
    if tag_len >? EVP_AEAD_AES_GCM_TAG_LEN then None
    else if negb malloc_ok then None
    else
      '(k, g, _, s) ← aes_ctr_set_key fresh true key;
      g ← g;
      Some (mk_agc k g s (u8 tag_len)).

(** [OPENSSL_free]: nothing is left. *)
Definition aead_aes_gcm_cleanup (gcm_ctx : aead_aes_gcm_ctx) : option aead_aes_gcm_ctx := None.

Definition aead_aes_gcm_seal (gcm_ctx : aead_aes_gcm_ctx) (out max_out_len : Z) (nonce : bytes) (inp in_len ad ad_len : Z) : M mem (option Z) :=
  if u64 (in_len + tag_len gcm_ctx) <? in_len then sret None
  else if max_out_len <? u64 (in_len + tag_len gcm_ctx) then sret None
  else
    let key := ks gcm_ctx in
    let* c := slift (CRYPTO_gcm128_setiv (gcm gcm_ctx) key nonce) in
    let* adb := mem_load ad_len ad in
    let '(r, c) := if ad_len >? 0 then CRYPTO_gcm128_aad c adb else (1, c) in
    if r =? 0 then sret None
    else
      let* (r, c) := match ctr gcm_ctx with
                     | Some s => CRYPTO_gcm128_encrypt_ctr32 c key inp out in_len s
                     | None => CRYPTO_gcm128_encrypt c key inp out in_len
                     end in
      if r =? 0 then sret None
      else
        let '(tag, _) := CRYPTO_gcm128_tag c (tag_len gcm_ctx) in
        mem_store (out + in_len) tag;;;
        sret (Some (u64 (in_len + tag_len gcm_ctx))).

Definition aead_aes_gcm_open (gcm_ctx : aead_aes_gcm_ctx) (out max_out_len : Z) (nonce : bytes) (inp in_len ad ad_len : Z) : M mem (option Z) :=
  if in_len <? tag_len gcm_ctx then sret None
  else
    let plaintext_len := in_len - tag_len gcm_ctx in
    if max_out_len <? plaintext_len then sret None
    else
      let key := ks gcm_ctx in
      let* c := slift (CRYPTO_gcm128_setiv (gcm gcm_ctx) key nonce) in
      let* adb := mem_load ad_len ad in
      let '(r, c) := CRYPTO_gcm128_aad c adb in
      if r =? 0 then sret None
      else
        let* (r, c) := match ctr gcm_ctx with
                       | Some s => CRYPTO_gcm128_decrypt_ctr32 c key inp out (in_len - tag_len gcm_ctx) s
                       | None => CRYPTO_gcm128_decrypt c key inp out (in_len - tag_len gcm_ctx)
                       end in
        if r =? 0 then sret None
        else
          let '(tag, _) := CRYPTO_gcm128_tag c (tag_len gcm_ctx) in
          let* b := mem_load (tag_len gcm_ctx) (inp + plaintext_len) in
          if negb (CRYPTO_memcmp tag b (tag_len gcm_ctx) =? 0) then sret None
          else sret (Some plaintext_len).

Definition EVP_aead_aes_128_gcm (fresh : AES_KEY) : EVP_AEAD aead_aes_gcm_ctx :=
  mk_aead _ 16 12 EVP_AEAD_AES_GCM_TAG_LEN EVP_AEAD_AES_GCM_TAG_LEN (Some (aead_aes_gcm_init fresh)) None
    aead_aes_gcm_cleanup aead_aes_gcm_seal aead_aes_gcm_open None.
Definition EVP_aead_aes_256_gcm (fresh : AES_KEY) : EVP_AEAD aead_aes_gcm_ctx :=
  mk_aead _ 32 12 EVP_AEAD_AES_GCM_TAG_LEN EVP_AEAD_AES_GCM_TAG_LEN (Some (aead_aes_gcm_init fresh)) None
    aead_aes_gcm_cleanup aead_aes_gcm_seal aead_aes_gcm_open None.

(** The test vectors of the original proposal: test case 4, and open and seal in place. *)
Definition test_ctx : option aead_aes_gcm_ctx :=
  aead_aes_gcm_init (mk_aes_key (replicate 60 7) 0)
    (be_bytes 16 0xfeffe9928665731c6d6a8f9467308308) 0 true.
Definition test_ad : bytes := be_bytes 20 0xfeedfacedeadbeeffeedfacedeadbeefabaddad2.
Definition test_text : bytes := be_bytes 60
  0xd9313225f88406e5a55909c5aff5269a86a7a9531534f7da2e4c303d8a318a721c3c0c95956809532fcf0e2449a6b525b16aedf5aa0de657ba637b39.

Example gcm_test_case_4 :
  (c ← test_ctx;
   '(r, m) ← aead_aes_gcm_seal c 20 80 (be_bytes 12 0xcafebabefacedbaddecaf888) 20 60 0 20 (region 0 (test_ad ++ test_text ++ zrepeat 20 0));
   Some (r, bytes_at m 20 76)) =
  Some (Some 76, be_bytes 60 0x42831ec2217774244b7221b784d0d49ce3aa212f2c02a4e035c17e2329aca12e21d514b25466931c7d8f6a5aac84aa051ba30b396a0aac973d58e091
    ++ be_bytes 16 0x5bc94fbc3221a5db94fae95ae7121a47).
Proof. vm_compute. reflexivity. Qed.

(** * Lemmas: the key *)

#[local] Opaque gf_mul gf_steps gcm_gmult_4bit GHASH AES_encrypt Cipher KeyExpansion.

(** What a successful initialisation leaves. *)
Record agc_ok (Nk : Z) (key : bytes) (tl : Z) (c : aead_aes_gcm_ctx) : Prop := {
  agc_key : enc_key Nk key (ks c);
  agc_block : block (gcm c) = AES_encrypt;
  agc_table : multiples (hash_key (aes_cipher Nk key)) (Htable (gcm c));
  agc_ctr : ctr c = None;
  agc_tl : tag_len c = tl /\ 0 <= tl <= 16;
}.

Lemma init_ok fresh key tl : zlen key = 16 \/ zlen key = 32 -> bytes_ok key -> zlen (rd_key fresh) = 60 -> 0 <= tl <= 16 ->
  exists c, aead_aes_gcm_init fresh key tl true = Some c /\ agc_ok (zlen key / 4) key (if tl =? 0 then 16 else tl) c.
Proof.
  intros HL Hb H60 Htl. set (Nk := zlen key / 4). assert (HNk : key_size Nk) by (unfold Nk; destruct HL as [-> | ->]; unfold key_size; [left|right; right]; done).
  assert (L4 : zlen key = 4 * Nk) by (unfold Nk; destruct HL as [-> | ->]; done).
  destruct (set_encrypt_key_spec Nk key fresh HNk Hb L4 H60) as (rk & E & _). set (k := mk_aes_key rk (Nk + 6)) in *.
  assert (HK : enc_key Nk key k) by (split; [done|split; [done|split; [done|by exists fresh]]]).
  destruct (init_spec_gcm AES_encrypt k (aes_cipher Nk key) (enc_key_block _ _ _ HK)) as (g & Eg & Hg & HT).
  exists (mk_agc k g None (if tl =? 0 then 16 else tl)). split.
  - unfold aead_aes_gcm_init. replace (negb (zlen key * 8 =? 128) && negb (zlen key * 8 =? 256)) with false by (destruct HL as [-> | ->]; done).
    change EVP_AEAD_AES_GCM_TAG_LEN with 16. replace ((if tl =? 0 then 16 else tl) >? 16) with false by (destruct (tl =? 0); lia). cbn [negb].
    change (aes_ctr_set_key fresh true key) with (r ← set_key_with AES_set_encrypt_key AES_encrypt fresh true key; Some (r, @None ctr128_f)).
    unfold set_key_with. replace (zlen key * 8) with (32 * Nk) by lia. rewrite E. cbn [mbind option_bind]. rewrite Eg. cbn [mbind option_bind].
    rewrite u8_small by (unfold is_u; destruct (tl =? 0); lia). reflexivity.
  - split; [exact HK|exact Hg|exact HT|reflexivity|]. cbn [tag_len]. split; [done|destruct (tl =? 0); lia].
Qed.

(** * The laws of an AEAD *)

Section Laws.
Context (Nk : Z) (key : bytes) (tl : Z) (c : aead_aes_gcm_ctx) (nonce : bytes).
Hypothesis Hc : agc_ok Nk key tl c.
Hypothesis Hnonce : bytes_ok nonce /\ zlen nonce < 2 ^ 61.

Local Abbreviation E := (aes_cipher Nk key).
Local Abbreviation h := (hash_key (aes_cipher Nk key)).
Local Abbreviation j0 := (gcm_J0 (hash_key (aes_cipher Nk key)) nonce).

(** The longest text that the counter allows, and additional data below 2^61 bytes. *)
Definition gcm_spec : aead_spec :=
  mk_aead_spec tl (2 ^ 36 - 31) (2 ^ 61) (gctr E j0) (gcm_tag E h j0).

Lemma setiv_aad adb : bytes_ok adb -> zlen adb < 2 ^ 61 ->
  exists c1 c2, CRYPTO_gcm128_setiv (gcm c) (ks c) nonce = Some c1 /\ CRYPTO_gcm128_aad c1 adb = (1, c2) /\
    gcm_aad h E (ks c) j0 [] c1 /\ gcm_aad h E (ks c) j0 adb c2.
Proof using Hc Hnonce.
  intros Hb Hl. destruct Hc as [HK Hblk HT _ _]. destruct Hnonce as [Hn Ln].
  destruct (setiv_ready AES_encrypt (ks c) E (enc_key_block _ _ _ HK) (gcm c) nonce Hblk HT Hn Ln) as (c1 & E1 & H1).
  destruct (aad_ready (ks c) E j0 [] c1 adb H1) as (c2 & E2 & H2); [constructor|done|cbn [length]; lia|]. exists c1, c2. by split_and!.
Qed.

Lemma agc_seal inp in_len out max ad ad_len m : aead_buffers (2 ^ 36 - 31) (2 ^ 61) inp in_len out (in_len + tl) max ad ad_len m ->
  let ct := gctr E j0 (bytes_at m inp in_len) in
  runs (aead_aes_gcm_seal c out max nonce inp in_len ad ad_len) m (within out (in_len + tl)) (fun r m' =>
    r = Some (in_len + tl) /\ bytes_at m' out in_len = ct /\ bytes_at m' (out + in_len) tl = ztake tl (gcm_tag E h j0 (bytes_at m ad ad_len) ct)).
Proof using Hc Hnonce.
  intros [(Hl & Hn & Had) Hm Hi Ho Ha Hal Hap]. pose proof Hc as [HK _ _ Hctr [Htl Htl16]]. destruct Hnonce as [Hnb Hnl].
  set (ct := gctr E j0 _). set (adb := bytes_at m ad ad_len). assert (Hadb : bytes_ok adb) by (by apply bytes_at_ok). assert (Ladb : zlen adb = ad_len) by (unfold adb; rewrite length_bytes_at; lia).
  destruct (setiv_aad adb Hadb ltac:(lia)) as (c1 & c2 & E1 & E2 & H1 & H2). unfold aead_aes_gcm_seal. rewrite Htl, Hctr.
  rewrite !(u64_small (in_len + tl)) by (unfold is_u; lia). replace (in_len + tl <? in_len) with false by lia. replace (max <? in_len + tl) with false by lia.
  apply (runs_some _ _ _ _ _ _ E1).
  eapply runs_bind; [apply runs_load with (Q := fun l m' => l = adb /\ m' = m); done|]. intros ? ? _ _ [-> ->].
  assert (Eaad : exists c3, (if ad_len >? 0 then CRYPTO_gcm128_aad c1 adb else (1, c1)) = (1, c3) /\ gcm_aad h E (ks c) j0 adb c3).
  { destruct (ad_len >? 0) eqn:Ez; [by exists c2|]. exists c1. split; [done|]. assert (Hz : zlen adb = 0) by lia. apply zlen_0 in Hz. by rewrite Hz. }
  destruct Eaad as (c3 & -> & H3). change (1 =? 0) with false. cbv iota.
  assert (B : gcm_buffers inp out in_len m) by (split; [lia|done|done|mapped_tac|lia]).
  eapply runs_bind; [eapply runs_sub; [apply (encrypt_step (ks c) E nonce Hnb adb Hadb [] c3 inp out in_len m); [right; by split|exact B|cbn [length]; lia]|unfold within; lia|intros r m' Hu _ HQ; exact (conj Hu HQ)]|].
  intros ? m1 _ Hm1 (Hu1 & c4 & -> & S & H4). change (1 =? 0) with false. cbv iota. change (fun i => gcm_stream E j0 (zlen (@nil Z) + i)) with (gcm_stream E j0) in *.
  rewrite taken_gctr in H4 by lia. fold ct in H4. cbn [app] in H4. pose proof (streamed_gctr E j0 inp out in_len m m1 ltac:(lia) S) as Hb. fold ct in Hb.
  assert (Hct : bytes_ok ct) by (rewrite <- Hb; by apply bytes_at_ok). assert (Lct : zlen ct = in_len) by (rewrite <- Hb, length_bytes_at; lia).
  destruct (tag_spec AES_encrypt (ks c) E j0 adb ct c4 (enc_key_block _ _ _ HK) (J0_ok E nonce Hnb) (or_introl H4) Hadb Hct ltac:(lia) ltac:(lia)) as [Htag _].
  specialize (Htag tl). rewrite (surjective_pairing (CRYPTO_gcm128_tag c4 tl)), Htag. rewrite Z.min_l by lia. set (tag := gcm_tag E h j0 adb ct) in *.
  destruct (E_block AES_encrypt (ks c) E (enc_key_block _ _ _ HK) j0 (J0_ok E nonce Hnb)) as [_ [HEb LE]].
  assert (Hzt : zlen (ztake tl tag) = tl) by (unfold tag, gcm_tag; rewrite length_ztake, length_xor_bytes, length_be_bytes; lia).
  assert (Htb : bytes_ok (ztake tl tag)) by (apply bytes_ok_ztake, xor_bytes_ok; [apply be_bytes_ok|done]).
  eapply runs_bind; [apply runs_store with (A := within out (in_len + tl)); [done|done|rewrite Hzt; mapped_tac|rewrite Hzt; intros x; unfold within; lia]|].
  rewrite Hzt. intros [] m2 _ Hm2 [Hu2 H2']. apply runs_ret; [done|]. split; [done|]. split.
  - transitivity (bytes_at m1 out in_len); [|exact Hb]. apply (bytes_at_upd _ _ _ _ _ Hu2). intros x. unfold within. lia.
  - by apply bytes_at_eq.
Qed.

Lemma agc_open inp in_len out max ad ad_len m : tl <= in_len -> aead_buffers (2 ^ 36 - 31) (2 ^ 61) inp in_len out (in_len - tl) max ad ad_len m ->
  let ct := bytes_at m inp (in_len - tl) in
  runs (aead_aes_gcm_open c out max nonce inp in_len ad ad_len) m (within out (in_len - tl)) (fun r m' =>
    bytes_at m' out (in_len - tl) = gctr E j0 ct /\
    r = if bool_decide (ztake tl (gcm_tag E h j0 (bytes_at m ad ad_len) ct) = bytes_at m (inp + (in_len - tl)) tl) then Some (in_len - tl) else None).
Proof using Hc Hnonce.
  intros Htin [(Hl & Hn & Had) Hm Hi Ho Ha Hal Hap]. pose proof Hc as [HK _ _ Hctr [Htl Htl16]]. destruct Hnonce as [Hnb Hnl].
  set (pl := in_len - tl) in *. set (ct := bytes_at m inp pl). set (adb := bytes_at m ad ad_len). assert (Hadb : bytes_ok adb) by (by apply bytes_at_ok). assert (Ladb : zlen adb = ad_len) by (unfold adb; rewrite length_bytes_at; lia).
  assert (Hct : bytes_ok ct) by (by apply bytes_at_ok). assert (Lct : zlen ct = pl) by (unfold ct; rewrite length_bytes_at; lia).
  destruct (setiv_aad adb Hadb ltac:(lia)) as (c1 & c2 & E1 & E2 & H1 & H2). unfold aead_aes_gcm_open. rewrite Htl, Hctr. fold pl.
  replace (in_len <? tl) with false by lia. replace (max <? pl) with false by lia.
  apply (runs_some _ _ _ _ _ _ E1).
  eapply runs_bind; [apply runs_load with (Q := fun l m' => l = adb /\ m' = m); done|]. intros ? ? _ _ [-> ->].
  rewrite E2. change (1 =? 0) with false. cbv iota.
  assert (B : gcm_buffers inp out pl m) by (split; [lia|done|mapped_tac|mapped_tac|lia]).
  eapply runs_bind; [eapply runs_sub; [apply (decrypt_step (ks c) E nonce Hnb adb Hadb [] c2 inp out pl m); [right; by split|exact B|cbn [length]; lia]|done|intros r m' Hu _ HQ; exact (conj Hu HQ)]|].
  intros ? m1 _ Hm1 (Hu1 & c4 & -> & S & H4). change (1 =? 0) with false. cbv iota. change (fun i => gcm_stream E j0 (zlen (@nil Z) + i)) with (gcm_stream E j0) in *.
  change (taken dec_taken m inp pl _) with ct in H4. cbn [app] in H4. pose proof (streamed_gctr E j0 inp out pl m m1 ltac:(lia) S) as Hb. fold ct in Hb.
  destruct (tag_spec AES_encrypt (ks c) E j0 adb ct c4 (enc_key_block _ _ _ HK) (J0_ok E nonce Hnb) (or_introl H4) Hadb Hct ltac:(lia) ltac:(lia)) as [Htag _].
  specialize (Htag tl). rewrite (surjective_pairing (CRYPTO_gcm128_tag c4 tl)), Htag. rewrite Z.min_l by lia. set (tag := gcm_tag E h j0 adb ct) in *.
  destruct (E_block AES_encrypt (ks c) E (enc_key_block _ _ _ HK) j0 (J0_ok E nonce Hnb)) as [_ [HEb LE]].
  assert (Hzt : zlen (ztake tl tag) = tl) by (unfold tag, gcm_tag; rewrite length_ztake, length_xor_bytes, length_be_bytes; lia). clearbody tag. clear Htag.
  eapply runs_bind; [apply runs_load with (Q := fun l m' => l = bytes_at m (inp + pl) tl /\ m' = m1); [done|mapped_tac|]|].
  { split; [|done]. apply (bytes_at_upd _ _ _ _ _ Hu1). intros x. unfold within. lia. }
  intros ? ? _ _ [-> ->]. assert (Hbl : zlen (bytes_at m (inp + pl) tl) = tl) by (rewrite length_bytes_at; lia).
  pose proof (CRYPTO_memcmp_eq (ztake tl tag) (bytes_at m (inp + pl) tl) tl ltac:(lia) ltac:(lia)) as Hcm. rewrite (ztake_all tl (ztake tl tag)), (ztake_all tl (bytes_at _ _ _)) in Hcm by lia.
  case_bool_decide as Hd; destruct (CRYPTO_memcmp (ztake tl tag) (bytes_at m (inp + pl) tl) tl =? 0) eqn:Ez; cbn [negb]; apply runs_ret; try done; exfalso;
    [apply Hcm in Hd|apply Hd, Hcm]; lia.
Qed.

(** The table of a length of the key, for the laws do not depend on it. *)
Instance gcm_laws a : a = EVP_aead_aes_128_gcm \/ a = EVP_aead_aes_256_gcm -> forall fresh, AeadLaws (a fresh) c nonce gcm_spec.
Proof using Hc Hnonce.
  intros Ha fresh. split; cbn [sp_tl sp_lim sp_ad_lim sp_crypt sp_tag gcm_spec].
  - apply Hc.
  - destruct Ha as [-> | ->]; cbn [overhead EVP_aead_aes_128_gcm EVP_aead_aes_256_gcm]; change EVP_AEAD_AES_GCM_TAG_LEN with 16; lia.
  - intros p. apply gctr_inverse.
  - intros inp in_len out max ad ad_len m B. destruct Ha as [-> | ->]; exact (agc_seal inp in_len out max ad ad_len m B).
  - intros inp in_len out max ad ad_len m Hin B. destruct Ha as [-> | ->]; exact (agc_open inp in_len out max ad ad_len m Hin B).
Qed.
End Laws.


(** * Properties *)

(** The AEAD for a length of the key. *)
Definition EVP_aead_aes_gcm (key : bytes) : AES_KEY -> EVP_AEAD aead_aes_gcm_ctx :=
  if zlen key =? 16 then EVP_aead_aes_128_gcm else EVP_aead_aes_256_gcm.

Lemma EVP_init_ok ctx fresh key tl : zlen key = 16 \/ zlen key = 32 -> bytes_ok key -> zlen (rd_key fresh) = 60 -> 0 <= tl <= 16 ->
  exists st, EVP_AEAD_CTX_init ctx (EVP_aead_aes_gcm key fresh) key tl true = Some (1, mk_ctx (Some (EVP_aead_aes_gcm key fresh)) (Some st)) /\
    agc_ok (zlen key / 4) key (if tl =? 0 then 16 else tl) st.
Proof.
  intros HL Hb H60 Htl. destruct (init_ok fresh key tl HL Hb H60 Htl) as (st & E & H). exists st. split; [|exact H].
  unfold EVP_AEAD_CTX_init, EVP_AEAD_CTX_init_with_direction, EVP_aead_aes_gcm.
  destruct HL as [HL | HL]; rewrite HL; cbn [Z.eqb Pos.eqb init key_len EVP_aead_aes_128_gcm EVP_aead_aes_256_gcm negb]; rewrite ?HL;
    cbn [Z.eqb Pos.eqb negb mbind option_bind]; rewrite E; reflexivity.
Qed.

Lemma EVP_gcm_laws fresh key tl st nonce : agc_ok (zlen key / 4) key tl st -> bytes_ok nonce /\ zlen nonce < 2 ^ 61 ->
  AeadLaws (EVP_aead_aes_gcm key fresh) st nonce (gcm_spec (zlen key / 4) key tl nonce).
Proof. intros Hc Hn. apply gcm_laws; [done|done|]. unfold EVP_aead_aes_gcm. destruct (zlen key =? 16); [by left|by right]. Qed.

(** C14. AES-GCM seals as NIST SP 800-38D says with the AES of FIPS 197, for keys of 128 and
    256 bits: initialisation succeeds, and sealing, in place or not, with a nonce of any
    length and any length of the tag (0 stands for 16), writes the text in counter mode
    and the tag behind it, and nothing else. *)
Theorem EVP_aead_aes_gcm_seal_sp800_38d ctx fresh key nonce tl0 inp in_len out max ad ad_len m :
  zlen key = 16 \/ zlen key = 32 -> bytes_ok key -> zlen (rd_key fresh) = 60 -> bytes_ok nonce /\ zlen nonce < 2 ^ 61 -> 0 <= tl0 <= 16 ->
  let tl := if tl0 =? 0 then 16 else tl0 in
  aead_buffers (2 ^ 36 - 31) (2 ^ 61) inp in_len out (in_len + tl) max ad ad_len m ->
  let Nk := zlen key / 4 in
  let CIPH := Cipher (Nk + 6) (KeyExpansion Nk key) in
  let H := be_val (CIPH (zrepeat 16 0)) in
  let J0 := gcm_J0 H nonce in
  let ct := gctr CIPH J0 (bytes_at m inp in_len) in
  exists c m', EVP_AEAD_CTX_init ctx (EVP_aead_aes_gcm key fresh) key tl0 true = Some (1, c) /\
    EVP_AEAD_CTX_seal c out max nonce inp in_len ad ad_len m = Some ((1, in_len + tl), m') /\
    bytes_at m' out in_len = ct /\ bytes_at m' (out + in_len) tl = ztake tl (gcm_tag CIPH H J0 (bytes_at m ad ad_len) ct) /\
    upd (within out (in_len + tl)) m m'.
Proof.
  intros HL Hb H60 Hn Htl tl B Nk CIPH H J0 ct.
  destruct (EVP_init_ok ctx fresh key tl0 HL Hb H60 Htl) as (st & Ei & Hst). pose proof (EVP_gcm_laws fresh key tl st nonce Hst Hn) as L.
  destruct (EVP_seal_runs _ _ _ (gcm_spec Nk key tl nonce) inp in_len out max ad ad_len m B) as (r & m' & E & Hu & _ & -> & H1 & H2).
  eexists _, m'. split; [exact Ei|]. split; [exact E|]. split; [exact H1|]. split; [exact H2|exact Hu].
Qed.

(** C15. Opening with AES-GCM: the text is let out exactly if the bytes behind the
    ciphertext are its tag; otherwise the result is 0 and the whole output buffer is
    cleared. *)
Theorem EVP_aead_aes_gcm_open_authentic ctx fresh key nonce tl0 inp in_len out max ad ad_len m :
  zlen key = 16 \/ zlen key = 32 -> bytes_ok key -> zlen (rd_key fresh) = 60 -> bytes_ok nonce /\ zlen nonce < 2 ^ 61 -> 0 <= tl0 <= 16 ->
  let tl := if tl0 =? 0 then 16 else tl0 in
  tl <= in_len -> aead_buffers (2 ^ 36 - 31) (2 ^ 61) inp in_len out (in_len - tl) max ad ad_len m ->
  let Nk := zlen key / 4 in
  let CIPH := Cipher (Nk + 6) (KeyExpansion Nk key) in
  let H := be_val (CIPH (zrepeat 16 0)) in
  let J0 := gcm_J0 H nonce in
  let ct := bytes_at m inp (in_len - tl) in
  exists c r m', EVP_AEAD_CTX_init ctx (EVP_aead_aes_gcm key fresh) key tl0 true = Some (1, c) /\
    EVP_AEAD_CTX_open c out max nonce inp in_len ad ad_len m = Some (r, m') /\
    (if bool_decide (ztake tl (gcm_tag CIPH H J0 (bytes_at m ad ad_len) ct) = bytes_at m (inp + (in_len - tl)) tl)
     then r = (1, in_len - tl) /\ bytes_at m' out (in_len - tl) = gctr CIPH J0 ct
     else r = (0, 0) /\ bytes_at m' out max = zrepeat max 0) /\
    upd (within out max) m m'.
Proof.
  intros HL Hb H60 Hn Htl tl Hin B Nk CIPH H J0 ct.
  destruct (EVP_init_ok ctx fresh key tl0 HL Hb H60 Htl) as (st & Ei & Hst). pose proof (EVP_gcm_laws fresh key tl st nonce Hst Hn) as L.
  destruct (EVP_open_runs _ _ _ (gcm_spec Nk key tl nonce) inp in_len out max ad ad_len m Hin B) as (r & m' & E & Hu & _ & H1).
  eexists _, r, m'. split; [exact Ei|]. split; [exact E|]. split; [exact H1|exact Hu].
Qed.

(** C16. Round trip of AES-GCM: what is sealed, opens to the text with the same key, nonce
    and associated data, wherever the buffers may be. *)
Theorem EVP_aead_aes_gcm_roundtrip ctx fresh key nonce tl0 inp in_len out max out' max' ad ad_len m :
  zlen key = 16 \/ zlen key = 32 -> bytes_ok key -> zlen (rd_key fresh) = 60 -> bytes_ok nonce /\ zlen nonce < 2 ^ 61 -> 0 <= tl0 <= 16 ->
  let tl := if tl0 =? 0 then 16 else tl0 in
  aead_buffers (2 ^ 36 - 31) (2 ^ 61) inp in_len out (in_len + tl) max ad ad_len m ->
  aead_buffers (2 ^ 36 - 31) (2 ^ 61) out (in_len + tl) out' in_len max' ad ad_len m ->
  exists c m1 m2, EVP_AEAD_CTX_init ctx (EVP_aead_aes_gcm key fresh) key tl0 true = Some (1, c) /\
    EVP_AEAD_CTX_seal c out max nonce inp in_len ad ad_len m = Some ((1, in_len + tl), m1) /\
    EVP_AEAD_CTX_open c out' max' nonce out (in_len + tl) ad ad_len m1 = Some ((1, in_len), m2) /\
    bytes_at m2 out' in_len = bytes_at m inp in_len.
Proof.
  intros HL Hb H60 Hn Htl tl B B'.
  destruct (EVP_init_ok ctx fresh key tl0 HL Hb H60 Htl) as (st & Ei & Hst). pose proof (EVP_gcm_laws fresh key tl st nonce Hst Hn) as L.
  destruct (EVP_roundtrip _ _ _ (gcm_spec (zlen key / 4) key tl nonce) inp in_len out max out' max' ad ad_len m B B') as (m1 & m2 & E1 & E2 & E3).
  eexists _, m1, m2. split; [exact Ei|]. split; [exact E1|]. split; [exact E2|exact E3].
Qed.

(** ** Witnesses: in place at 50, with associated data at 10 *)

Definition sample_fresh : AES_KEY := mk_aes_key (replicate 60 7) 0.

Lemma sample_aead_buffers in_len n max : 0 <= in_len -> 0 <= n <= max -> max <= 50 -> in_len <= 50 -> aead_buffers (2 ^ 36 - 31) (2 ^ 61) 50 in_len 50 n max 10 12 GcmSpec.sample_mem.
Proof.
  intros H1 H2 H3 H4. assert (Hm : mapped GcmSpec.sample_mem 0 100) by (apply region_mapped; rewrite length_seqZ; lia).
  split; [lia|apply region_bytes, seqZ_ok; lia|mapped_tac|mapped_tac|mapped_tac|lia|lia].
Qed.

Lemma sample_nonce_ok12 : bytes_ok (seqZ 3 12) /\ zlen (seqZ 3 12) < 2 ^ 61.
Proof. split; [apply seqZ_ok; lia|rewrite length_seqZ; lia]. Qed.

Lemma EVP_aead_aes_gcm_seal_sp800_38d_witness :
  let CIPH := Cipher (8 + 6) (KeyExpansion 8 (seqZ 0 32)) in
  let H := be_val (CIPH (zrepeat 16 0)) in
  let J0 := gcm_J0 H (seqZ 3 12) in
  let ct := gctr CIPH J0 (bytes_at GcmSpec.sample_mem 50 21) in
  exists c m', EVP_AEAD_CTX_init EVP_AEAD_CTX_zero (EVP_aead_aes_gcm (seqZ 0 32) sample_fresh) (seqZ 0 32) 0 true = Some (1, c) /\
    EVP_AEAD_CTX_seal c 50 40 (seqZ 3 12) 50 21 10 12 GcmSpec.sample_mem = Some ((1, 37), m') /\
    bytes_at m' 50 21 = ct /\ bytes_at m' 71 16 = ztake 16 (gcm_tag CIPH H J0 (bytes_at GcmSpec.sample_mem 10 12) ct) /\
    upd (within 50 37) GcmSpec.sample_mem m'.
Proof.
  apply (EVP_aead_aes_gcm_seal_sp800_38d EVP_AEAD_CTX_zero sample_fresh (seqZ 0 32) (seqZ 3 12) 0 50 21 50 40 10 12 GcmSpec.sample_mem);
    [by right|apply seqZ_ok; lia|reflexivity|apply sample_nonce_ok12|lia|apply sample_aead_buffers; cbn; lia].
Defined.

Lemma EVP_aead_aes_gcm_open_authentic_witness :
  let CIPH := Cipher (4 + 6) (KeyExpansion 4 (seqZ 0 16)) in
  let H := be_val (CIPH (zrepeat 16 0)) in
  let J0 := gcm_J0 H (seqZ 3 12) in
  let ct := bytes_at GcmSpec.sample_mem 50 21 in
  exists c r m', EVP_AEAD_CTX_init EVP_AEAD_CTX_zero (EVP_aead_aes_gcm (seqZ 0 16) sample_fresh) (seqZ 0 16) 12 true = Some (1, c) /\
    EVP_AEAD_CTX_open c 50 30 (seqZ 3 12) 50 33 10 12 GcmSpec.sample_mem = Some (r, m') /\
    (if bool_decide (ztake 12 (gcm_tag CIPH H J0 (bytes_at GcmSpec.sample_mem 10 12) ct) = bytes_at GcmSpec.sample_mem 71 12)
     then r = (1, 21) /\ bytes_at m' 50 21 = gctr CIPH J0 ct
     else r = (0, 0) /\ bytes_at m' 50 30 = zrepeat 30 0) /\
    upd (within 50 30) GcmSpec.sample_mem m'.
Proof.
  apply (EVP_aead_aes_gcm_open_authentic EVP_AEAD_CTX_zero sample_fresh (seqZ 0 16) (seqZ 3 12) 12 50 33 50 30 10 12 GcmSpec.sample_mem);
    [by left|apply seqZ_ok; lia|reflexivity|apply sample_nonce_ok12|lia|cbn; lia|apply sample_aead_buffers; cbn; lia].
Defined.

Lemma EVP_aead_aes_gcm_roundtrip_witness :
  exists c m1 m2, EVP_AEAD_CTX_init EVP_AEAD_CTX_zero (EVP_aead_aes_gcm (seqZ 0 16) sample_fresh) (seqZ 0 16) 16 true = Some (1, c) /\
    EVP_AEAD_CTX_seal c 50 40 (seqZ 3 12) 50 21 10 12 GcmSpec.sample_mem = Some ((1, 37), m1) /\
    EVP_AEAD_CTX_open c 50 21 (seqZ 3 12) 50 37 10 12 m1 = Some ((1, 21), m2) /\
    bytes_at m2 50 21 = bytes_at GcmSpec.sample_mem 50 21.
Proof.
  apply (EVP_aead_aes_gcm_roundtrip EVP_AEAD_CTX_zero sample_fresh (seqZ 0 16) (seqZ 3 12) 16 50 21 50 40 50 21 10 12 GcmSpec.sample_mem);
    [by left|apply seqZ_ok; lia|reflexivity|apply sample_nonce_ok12|lia|apply sample_aead_buffers; cbn; lia|apply sample_aead_buffers; cbn; lia].
Defined.


