(* ===== verification/Base64.v ===== *)
(** Base64: crypto/base64/base64.c, the one-shot and the streaming encoder and
    decoder, against the encoding of RFC 4648. What a function writes through its
    output pointer is the list of the bytes written from there on. *)

From Stdlib Require Import ZArith Lia.
From stdpp Require Import base list option.
From S2P Require Import Prelude.

#[local] Ltac Zify.zify_post_hook ::= Z.div_mod_to_equations.

(** * Encoding *)

Definition INT_MAX := 2147483647.

(** "A" to "Z", "a" to "z", "0" to "9", "+" and "/". *)
Definition data_bin2ascii : bytes := Eval vm_compute in
  map Z.of_nat (seq 65 26 ++ seq 97 26 ++ seq 48 10) ++ [43; 47].

Definition conv_bin2ascii (a : Z) : Z := zget data_bin2ascii (Z.land a 0x3f).

(** [None] is the return value 0. *)
Definition EVP_EncodedLength (len : Z) : option Z :=
  if u64 (len + 2) <? len then None
  else
    let len := u64 (len + 2) in
    let len := len / 3 in
    if negb (Z.shiftr (u64 (Z.shiftl len 2)) 2 =? len) then None
    else
      let len := u64 (Z.shiftl len 2) in
      if u64 (len + 1) <? len then None
      else Some (u64 (len + 1)).

Record EVP_ENCODE_CTX := mk_CTX {
  data_used : Z;
  data : bytes;
  eof_seen : bool;
  error_encountered : bool
}.

Definition data_size := 48.

Definition EVP_EncodeInit : EVP_ENCODE_CTX := mk_CTX 0 (zrepeat data_size 0) false false.

Definition set_data (ctx : EVP_ENCODE_CTX) (d : bytes) (n : Z) : EVP_ENCODE_CTX :=
  mk_CTX n d (eof_seen ctx) (error_encountered ctx).

(** [while (remaining)]: each iteration takes at least one byte. *)
Fixpoint EncodeBlock_loop (fuel : nat) (dst src : bytes) (remaining ret : Z) : bytes * Z :=
  match fuel with
  | O => (dst, ret)
  | S fuel =>
      if remaining =? 0 then (dst, ret)
      else
        let '(dst, remaining) :=
          if remaining >=? 3 then
            let l := Z.lor (Z.lor (u32 (Z.shiftl (zget src 0) 16)) (u32 (Z.shiftl (zget src 1) 8)))
                       (zget src 2) in
            (dst ++ [conv_bin2ascii (Z.shiftr l 18); conv_bin2ascii (Z.shiftr l 12);
                     conv_bin2ascii (Z.shiftr l 6); conv_bin2ascii l], remaining - 3)
          else
            let l := u32 (Z.shiftl (zget src 0) 16) in
            let l := if remaining =? 2 then Z.lor l (u32 (Z.shiftl (zget src 1) 8)) else l in
            (dst ++ [conv_bin2ascii (Z.shiftr l 18); conv_bin2ascii (Z.shiftr l 12);
                     if remaining =? 1 then 0x3d else conv_bin2ascii (Z.shiftr l 6); 0x3d], 0) in
        EncodeBlock_loop fuel dst (zdrop 3 src) remaining (u64 (ret + 4))
  end.

(** Returns what is written, with the terminating NUL, and the length without it. *)
Definition EVP_EncodeBlock (src : bytes) (src_len : Z) : bytes * Z :=
  let '(dst, ret) := EncodeBlock_loop (Z.to_nat src_len) [] src src_len 0 in
  (dst ++ [0], ret).

(** Appends the encoding of one block and a newline; the NULs that are overwritten
    by what follows are left out. *)
Definition encode_line (out : bytes) (src : bytes) (n : Z) : bytes * Z :=
  let '(dst, encoded) := EVP_EncodeBlock src n in
  (out ++ ztake encoded dst ++ [0x0a], encoded).

(** [while (in_len >= sizeof(ctx->data))]; [None] is the return when [total]
    overflows. *)
Fixpoint EncodeUpdate_loop (fuel : nat) (out inp : bytes) (in_len total : Z) :
    bytes * option (bytes * Z * Z) :=
  match fuel with
  | O => (out, Some (inp, in_len, total))
  | S fuel =>
      if in_len >=? data_size then
        let '(out, encoded) := encode_line out inp data_size in
        let inp := zdrop data_size inp in
        let in_len := in_len - data_size in
        if u64 (u64 (total + encoded) + 1) <? total then (out, None)
        else EncodeUpdate_loop fuel out inp in_len (u64 (total + u64 (encoded + 1)))
      else (out, Some (inp, in_len, total))
  end.

(** [if (ctx->data_used != 0)]: completes and encodes the pending line. *)
Definition encode_pending (ctx : EVP_ENCODE_CTX) (inp : bytes) (in_len : Z) :
    EVP_ENCODE_CTX * bytes * bytes * Z * Z :=
  if negb (data_used ctx =? 0) then
    let todo := data_size - data_used ctx in
    let ctx := set_data ctx (zsplice (data ctx) (data_used ctx) (ztake todo inp)) (data_used ctx) in
    let '(out, encoded) := encode_line [] (data ctx) data_size in
    (set_data ctx (data ctx) 0, out, zdrop todo inp, in_len - todo, encoded + 1)
  else (ctx, [], inp, in_len, 0).

(** Returns what is written to [out] (but for a last NUL), [*out_len] and the
    context; undefined if the assertion fails. *)
Definition EVP_EncodeUpdate (ctx : EVP_ENCODE_CTX) (inp : bytes) (in_len : Z) :
    option (bytes * Z * EVP_ENCODE_CTX) :=
  if in_len =? 0 then Some ([], 0, ctx)
  else if negb (data_used ctx <? data_size) then None
  else if data_size - data_used ctx >? in_len then
    Some ([], 0, set_data ctx (zsplice (data ctx) (data_used ctx) (ztake in_len inp))
                   (u32 (data_used ctx + u32 in_len)))
  else
    let '(ctx, out, inp, in_len, total) := encode_pending ctx inp in_len in
    match EncodeUpdate_loop (Z.to_nat in_len) out inp in_len total with
    | (out, None) => Some (out, 0, ctx)
    | (out, Some (inp, in_len, total)) =>
        let d := if negb (in_len =? 0) then zsplice (data ctx) 0 (ztake in_len inp) else data ctx in
        let ctx := set_data ctx d (u32 in_len) in
        let total := if total >? INT_MAX then 0 else total in
        Some (out, total, ctx)
    end.

Definition EVP_EncodeFinal (ctx : EVP_ENCODE_CTX) : option (bytes * Z * EVP_ENCODE_CTX) :=
  if data_used ctx =? 0 then Some ([], 0, ctx)
  else
    let '(out, encoded) := encode_line [] (data ctx) (data_used ctx) in
    let encoded := encoded + 1 in
    let ctx := set_data ctx (data ctx) 0 in
    if negb (encoded <=? INT_MAX) then None
    else Some (out, encoded, ctx).

(** * Decoding *)

Definition EVP_DecodedLength (len : Z) : option Z :=
  if negb (len mod 4 =? 0) then None else Some (len / 4 * 3).

Definition EVP_DecodeInit : EVP_ENCODE_CTX := mk_CTX 0 (zrepeat data_size 0) false false.

Definition kBase64ASCIIToBinData : list Z :=
  [0xff; 0xff; 0xff; 0xff; 0xff; 0xff; 0xff; 0xff; 0xff; 0xe0; 0xff; 0xff;
   0xff; 0xff; 0xff; 0xff; 0xff; 0xff; 0xff; 0xff; 0xff; 0xff; 0xff; 0xff;
   0xff; 0xff; 0xff; 0xff; 0xff; 0xff; 0xff; 0xff; 0xe0; 0xff; 0xff; 0xff;
   0xff; 0xff; 0xff; 0xff; 0xff; 0xff; 0xff; 0x3e; 0xff; 0xff; 0xff; 0x3f;
   0x34; 0x35; 0x36; 0x37; 0x38; 0x39; 0x3a; 0x3b; 0x3c; 0x3d; 0xff; 0xff;
   0xff; 0x00; 0xff; 0xff; 0xff; 0x00; 0x01; 0x02; 0x03; 0x04; 0x05; 0x06;
   0x07; 0x08; 0x09; 0x0a; 0x0b; 0x0c; 0x0d; 0x0e; 0x0f; 0x10; 0x11; 0x12;
   0x13; 0x14; 0x15; 0x16; 0x17; 0x18; 0x19; 0xff; 0xff; 0xff; 0xff; 0xff;
   0xff; 0x1a; 0x1b; 0x1c; 0x1d; 0x1e; 0x1f; 0x20; 0x21; 0x22; 0x23; 0x24;
   0x25; 0x26; 0x27; 0x28; 0x29; 0x2a; 0x2b; 0x2c; 0x2d; 0x2e; 0x2f; 0x30;
   0x31; 0x32; 0x33; 0xff; 0xff; 0xff; 0xff; 0xff].

Definition base64_ascii_to_bin (a : Z) : Z :=
  if a >=? 128 then 0xff else zget kBase64ASCIIToBinData a.

(** Returns the bytes written, [*out_num_bytes] of them. *)
Definition base64_decode_quad (inp : bytes) : option bytes :=
  let a := base64_ascii_to_bin (zget inp 0) in
  let b := base64_ascii_to_bin (zget inp 1) in
  let c := base64_ascii_to_bin (zget inp 2) in
  let d := base64_ascii_to_bin (zget inp 3) in
  if (a =? 0xff) || (b =? 0xff) || (c =? 0xff) || (d =? 0xff) then None
  else
    let v := Z.lor (Z.lor (Z.lor (u32 (Z.shiftl a 18)) (u32 (Z.shiftl b 12))) (u32 (Z.shiftl c 6))) d in
    let is_pad x := Z.b2z (x =? 0x3d) in
    let padding_pattern :=
      Z.lor (Z.lor (Z.lor (Z.shiftl (is_pad (zget inp 0)) 3) (Z.shiftl (is_pad (zget inp 1)) 2))
        (Z.shiftl (is_pad (zget inp 2)) 1)) (is_pad (zget inp 3)) in
    if padding_pattern =? 0 then Some [u8 (Z.shiftr v 16); u8 (Z.shiftr v 8); u8 v]
    else if padding_pattern =? 1 then Some [u8 (Z.shiftr v 16); u8 (Z.shiftr v 8)]
    else if padding_pattern =? 3 then Some [u8 (Z.shiftr v 16)]
    else None.

Definition is_space (c : Z) : bool :=
  (c =? 0x20) || (c =? 0x09) || (c =? 0x0d) || (c =? 0x0a).

Definition set_error (ctx : EVP_ENCODE_CTX) : EVP_ENCODE_CTX :=
  mk_CTX (data_used ctx) (data ctx) (eof_seen ctx) true.

(** The loop over the input: what is written, whether it ran to the end, and the
    context. [data_used] indexes [data], out of its bounds the behaviour is
    undefined. *)
Fixpoint DecodeUpdate_loop (ctx : EVP_ENCODE_CTX) (out : bytes) (inp : bytes) :
    option (bool * bytes * EVP_ENCODE_CTX) :=
  match inp with
  | [] => Some (true, out, ctx)
  | c :: inp =>
      if is_space c then DecodeUpdate_loop ctx out inp
      else if (base64_ascii_to_bin c =? 0xff) || eof_seen ctx then Some (false, out, set_error ctx)
      else if negb (data_used ctx <? data_size) then None
      else
        let ctx := set_data ctx (zsplice (data ctx) (data_used ctx) [c]) (data_used ctx + 1) in
        if data_used ctx =? 4 then
          match base64_decode_quad (data ctx) with
          | None => Some (false, out, set_error ctx)
          | Some bs =>
              DecodeUpdate_loop
                (mk_CTX 0 (data ctx) (if zlen bs <? 3 then true else eof_seen ctx) (error_encountered ctx))
                (out ++ bs) inp
          end
        else DecodeUpdate_loop ctx out inp
  end.

(** Returns the return value, [*out_len], what is written and the context. *)
Definition EVP_DecodeUpdate (ctx : EVP_ENCODE_CTX) (inp : bytes) (in_len : Z) :
    option (Z * Z * bytes * EVP_ENCODE_CTX) :=
  if error_encountered ctx then Some (-1, 0, [], ctx)
  else
    match DecodeUpdate_loop ctx [] (ztake in_len inp) with
    | None => None
    | Some (false, out, ctx) => Some (-1, 0, out, ctx)
    | Some (true, out, ctx) =>
        let bytes_out := zlen out in
        if bytes_out >? INT_MAX then Some (-1, 0, out, set_error ctx)
        else if eof_seen ctx then Some (0, bytes_out, out, ctx)
        else Some (1, bytes_out, out, ctx)
    end.

Definition EVP_DecodeFinal (ctx : EVP_ENCODE_CTX) : Z * Z :=
  if error_encountered ctx || negb (data_used ctx =? 0) then (-1, 0) else (1, 0).

(** [for (i = 0; i < in_len; i += 4)]. *)
Fixpoint DecodeBase64_loop (fuel : nat) (inp : bytes) (in_len i : Z) (out : bytes) : option bytes :=
  match fuel with
  | O => Some out
  | S fuel =>
      if i <? in_len then
        match base64_decode_quad (zdrop i inp) with
        | None => None
        | Some bs =>
            if negb (zlen bs =? 3) && negb (i =? in_len - 4) then None
            else DecodeBase64_loop fuel inp in_len (i + 4) (out ++ bs)
        end
      else Some out
  end.

(** Returns what is written, of length [*out_len]. *)
Definition EVP_DecodeBase64 (max_out : Z) (inp : bytes) (in_len : Z) : option bytes :=
  if negb (in_len mod 4 =? 0) then None
  else
    match EVP_DecodedLength in_len with
    | None => None
    | Some max_len =>
        if max_out <? max_len then None
        else DecodeBase64_loop (Z.to_nat in_len) inp in_len 0 []
    end.

(** The two trimming loops. *)
Fixpoint trim_left (src : bytes) : bytes :=
  match src with
  | c :: src' => if negb (c =? 0x20) && negb (c =? 0x09) then src else trim_left src'
  | [] => []
  end.

Fixpoint trim_right (src : bytes) (fuel : nat) (src_len : Z) : Z :=
  match fuel with
  | O => src_len
  | S fuel =>
      if src_len >? 0 then
        if is_space (zget src (src_len - 1)) then trim_right src fuel (src_len - 1) else src_len
      else src_len
  end.

(** [while (dst_len % 3 != 0) dst[dst_len++] = '\0']: at most two iterations. *)
Fixpoint pad_zeros (fuel : nat) (dst : bytes) : bytes :=
  match fuel with
  | O => dst
  | S fuel => if negb (zlen dst mod 3 =? 0) then pad_zeros fuel (dst ++ [0]) else dst
  end.

(** Returns what is written; [None] is the return value -1. *)
Definition EVP_DecodeBlock (src : bytes) (src_len : Z) : option bytes :=
  let src := trim_left (ztake src_len src) in
  let src_len := trim_right src (length src) (zlen src) in
  match EVP_DecodedLength src_len with
  | None => None
  | Some dst_len =>
      if dst_len >? INT_MAX then None
      else
        match EVP_DecodeBase64 dst_len src src_len with
        | None => None
        | Some dst => Some (pad_zeros 3 dst)
        end
  end.

(** * RFC 4648 *)

(** The character of a sextet, section 4, table 1. *)
Definition alphabet (s : Z) : Z :=
  if s <? 26 then 0x41 + s
  else if s <? 52 then 0x61 + (s - 26)
  else if s <? 62 then 0x30 + (s - 52)
  else if s =? 62 then 0x2b else 0x2f.

(** The sextets of a 24-bit group from the left. *)
Definition sextet (v k : Z) : Z := v / 64 ^ (3 - k) mod 64.

Fixpoint b64 (l : bytes) : bytes :=
  match l with
  | a :: b :: c :: l =>
      let v := be_val [a; b; c] in
      [alphabet (sextet v 0); alphabet (sextet v 1); alphabet (sextet v 2); alphabet (sextet v 3)] ++ b64 l
  | [a; b] =>
      let v := be_val [a; b; 0] in
      [alphabet (sextet v 0); alphabet (sextet v 1); alphabet (sextet v 2); 0x3d]
  | [a] =>
      let v := be_val [a; 0; 0] in
      [alphabet (sextet v 0); alphabet (sextet v 1); 0x3d; 0x3d]
  | [] => []
  end.

(** Lines of 64 characters: the encodings of the 48-byte pieces of the message. *)
Fixpoint b64_lines (n : nat) (l : bytes) : bytes :=
  match n with
  | O => []
  | S n => match l with
           | [] => []
           | _ => b64 (ztake 48 l) ++ [0x0a] ++ b64_lines n (zdrop 48 l)
           end
  end.

Definition encoded_lines (l : bytes) : bytes := b64_lines (length l) l.

(** * Lemmas: sextets *)

Lemma sextet_forall (P : Z -> bool) :
  forallb P (map Z.of_nat (seq 0 64)) = true -> forall s, 0 <= s < 64 -> P s = true.
Proof.
  intros H s Hs. rewrite forallb_forall in H. apply H.
  rewrite <- (Z2Nat.id s) by lia. apply in_map, in_seq. lia.
Qed.

Lemma conv_alphabet x : conv_bin2ascii x = alphabet (x mod 64).
Proof.
  unfold conv_bin2ascii. change 0x3f with (Z.ones 6). rewrite Z.land_ones by lia.
  apply Z.eqb_eq. change (2 ^ 6) with 64.
  apply (sextet_forall (fun s => zget data_bin2ascii s =? alphabet s)); [reflexivity|lia].
Qed.

Lemma ascii_alphabet s : 0 <= s < 64 -> base64_ascii_to_bin (alphabet s) = s.
Proof.
  intros H. apply Z.eqb_eq.
  by apply (sextet_forall (fun s => base64_ascii_to_bin (alphabet s) =? s)).
Qed.

(** Characters of the alphabet are neither padding nor spaces. *)
Lemma alphabet_char s : 0 <= s < 64 -> (alphabet s =? 0x3d) = false /\ is_space (alphabet s) = false.
Proof.
  intros H. split; apply negb_true_iff;
    [apply (sextet_forall (fun s => negb (alphabet s =? 0x3d)))
    |apply (sextet_forall (fun s => negb (is_space (alphabet s))))]; done.
Qed.

Lemma sextet_range v k : 0 <= sextet v k < 64.
Proof. apply Z.mod_pos_bound. lia. Qed.

(** The word of the encoder. *)
Lemma lor_word3 a b c : is_byte a -> is_byte b -> is_byte c ->
  Z.lor (Z.lor (u32 (Z.shiftl a 16)) (u32 (Z.shiftl b 8))) c = be_val [a; b; c].
Proof.
  intros [Ha0 Ha1] [Hb0 Hb1] [Hc0 Hc1].
  rewrite !(u32_small (Z.shiftl _ _)) by (split; rewrite Z.shiftl_mul_pow2; lia).
  rewrite <- Z.lor_assoc. rewrite (lor_shiftl_add b c 8), (lor_shiftl_add a _ 16) by (lia || (split; lia)).
  unfold be_val. cbn [fold_left]. lia.
Qed.

Lemma be_val_3 a b c : is_byte a -> is_byte b -> is_byte c -> 0 <= be_val [a; b; c] < 2 ^ 24.
Proof. intros [Ha0 Ha1] [Hb0 Hb1] [Hc0 Hc1]. unfold be_val. cbn [fold_left]. lia. Qed.

(** The four characters of a group. *)
Lemma conv_sextets v : 0 <= v < 2 ^ 24 ->
  conv_bin2ascii (Z.shiftr v 18) = alphabet (sextet v 0) /\
  conv_bin2ascii (Z.shiftr v 12) = alphabet (sextet v 1) /\
  conv_bin2ascii (Z.shiftr v 6) = alphabet (sextet v 2) /\
  conv_bin2ascii v = alphabet (sextet v 3).
Proof.
  intros Hv. rewrite !conv_alphabet, !Z.shiftr_div_pow2 by lia. unfold sextet.
  change (64 ^ (3 - 3)) with 1. by rewrite Z.div_1_r.
Qed.

(** The word of the decoder. *)
Lemma quad_word s0 s1 s2 s3 : 0 <= s0 < 64 -> 0 <= s1 < 64 -> 0 <= s2 < 64 -> 0 <= s3 < 64 ->
  Z.lor (Z.lor (Z.lor (u32 (Z.shiftl s0 18)) (u32 (Z.shiftl s1 12))) (u32 (Z.shiftl s2 6))) s3 =
  s0 * 64 ^ 3 + s1 * 64 ^ 2 + s2 * 64 + s3.
Proof.
  intros H0 H1 H2 H3.
  rewrite !(u32_small (Z.shiftl _ _)) by (split; rewrite Z.shiftl_mul_pow2; lia).
  rewrite <- !Z.lor_assoc.
  rewrite (lor_shiftl_add s2 s3 6), (lor_shiftl_add s1 _ 12), (lor_shiftl_add s0 _ 18)
    by (lia || (split; lia)). lia.
Qed.

Lemma sextets_sum v : 0 <= v < 2 ^ 24 ->
  sextet v 0 * 64 ^ 3 + sextet v 1 * 64 ^ 2 + sextet v 2 * 64 + sextet v 3 = v.
Proof. intros Hv. unfold sextet. change (64 ^ (3 - 3)) with 1. lia. Qed.

(** What the decoder makes of a quad of values [v] with its padding. *)
Lemma decode_quad_char q v0 v1 v2 v3 : q <> [] ->
  base64_ascii_to_bin (zget q 0) = v0 -> base64_ascii_to_bin (zget q 1) = v1 ->
  base64_ascii_to_bin (zget q 2) = v2 -> base64_ascii_to_bin (zget q 3) = v3 ->
  0 <= v0 < 64 -> 0 <= v1 < 64 -> 0 <= v2 < 64 -> 0 <= v3 < 64 ->
  zget q 0 <> 0x3d -> zget q 1 <> 0x3d ->
  let v := v0 * 64 ^ 3 + v1 * 64 ^ 2 + v2 * 64 + v3 in
  base64_decode_quad q =
    if zget q 2 =? 0x3d
    then if zget q 3 =? 0x3d then Some [v / 65536 mod 256] else None
    else if zget q 3 =? 0x3d then Some [v / 65536 mod 256; v / 256 mod 256]
    else Some [v / 65536 mod 256; v / 256 mod 256; v mod 256].
Proof.
  intros _ H0 H1 H2 H3 R0 R1 R2 R3 N0 N1 v. unfold base64_decode_quad. rewrite H0, H1, H2, H3.
  rewrite !(proj2 (Z.eqb_neq _ 0xff)) by lia. cbn [orb].
  rewrite quad_word by done. fold v. rewrite !u8_mod, !Z.shiftr_div_pow2 by lia.
  rewrite (proj2 (Z.eqb_neq _ 0x3d) N0), (proj2 (Z.eqb_neq _ 0x3d) N1).
  by destruct (zget q 2 =? 61), (zget q 3 =? 61).
Qed.

(** What the first quad of an encoding must be, for a group [g] of the message. *)
Definition quad_ok (q g : bytes) : Prop :=
  zlen q = 4 /\ Forall (fun c => is_space c = false /\ base64_ascii_to_bin c <> 0xff) q /\
  forall r, base64_decode_quad (q ++ r) = Some g.

Section Groups.
#[local] Definition enc (v k : Z) : Z := alphabet (sextet v k).

Lemma enc_ok v k : is_space (enc v k) = false /\ base64_ascii_to_bin (enc v k) <> 0xff.
Proof.
  pose proof (sextet_range v k). unfold enc. rewrite ascii_alphabet by done.
  split; [by apply alphabet_char|lia].
Qed.

Lemma enc_not_pad v k : enc v k <> 0x3d.
Proof. apply Z.eqb_neq, alphabet_char, sextet_range. Qed.

Lemma enc_val v k : base64_ascii_to_bin (enc v k) = sextet v k.
Proof. apply ascii_alphabet, sextet_range. Qed.

Ltac quad Hw v0 v1 v2 v3 :=
  split; [done|]; split; [rewrite !Forall_cons_iff; split_and!; try apply enc_ok; done|];
  intros r; rewrite (decode_quad_char _ v0 v1 v2 v3)
    by (done || apply enc_val || apply enc_not_pad || apply sextet_range).

Lemma quad_1 a : is_byte a -> let v := be_val [a; 0; 0] in
  quad_ok [enc v 0; enc v 1; 0x3d; 0x3d] [a].
Proof.
  intros Ha v. pose proof (be_val_3 a 0 0 Ha ltac:(split; lia) ltac:(split; lia)) as Hv. fold v in Hv.
  assert (Hva : v = a * 65536) by (unfold v, be_val; cbn [fold_left]; lia). clearbody v.
  quad Hv (sextet v 0) (sextet v 1) 0 0.
  cbn [app]. change (zget [_; _; 61; 61] 2 =? 61) with true.
  assert (Hs : sextet v 0 * 64 ^ 3 + sextet v 1 * 64 ^ 2 = v).
  { pose proof (sextets_sum v Hv) as H.
    unfold sextet in *. change (64 ^ (3 - 2)) with 64 in *. change (64 ^ (3 - 3)) with 1 in *. lia. }
  lazymatch goal with |- (if ?b then (if ?b' then _ else _) else _) = _ =>
    change b with true; change b' with true end. cbn iota.
  rewrite Hs, Hva. unfold is_u in Ha. do 2 f_equal. lia.
Qed.

Lemma quad_2 a b : is_byte a -> is_byte b -> let v := be_val [a; b; 0] in
  quad_ok [enc v 0; enc v 1; enc v 2; 0x3d] [a; b].
Proof.
  intros Ha Hb v. pose proof (be_val_3 a b 0 Ha Hb ltac:(split; lia)) as Hv. fold v in Hv.
  assert (Hva : v = a * 65536 + b * 256) by (unfold v, be_val; cbn [fold_left]; lia). clearbody v.
  quad Hv (sextet v 0) (sextet v 1) (sextet v 2) 0.
  assert (Hs : sextet v 0 * 64 ^ 3 + sextet v 1 * 64 ^ 2 + sextet v 2 * 64 = v).
  { pose proof (sextets_sum v Hv) as H. unfold sextet in *. change (64 ^ (3 - 3)) with 1 in *. lia. }
  lazymatch goal with |- (if ?b then _ else if ?b' then _ else _) = _ =>
    change b with (enc v 2 =? 0x3d); change b' with true end.
  rewrite (proj2 (Z.eqb_neq _ 0x3d) (enc_not_pad v 2)). cbn iota.
  rewrite Z.add_0_r, Hs, Hva. unfold is_u in *. f_equal. f_equal; [lia|f_equal; lia].
Qed.

Lemma quad_3 a b c : is_byte a -> is_byte b -> is_byte c -> let v := be_val [a; b; c] in
  quad_ok [enc v 0; enc v 1; enc v 2; enc v 3] [a; b; c].
Proof.
  intros Ha Hb Hc v. pose proof (be_val_3 a b c Ha Hb Hc) as Hv. fold v in Hv.
  assert (Hva : v = a * 65536 + b * 256 + c) by (unfold v, be_val; cbn [fold_left]; lia). clearbody v.
  quad Hv (sextet v 0) (sextet v 1) (sextet v 2) (sextet v 3).
  lazymatch goal with |- (if ?b then _ else if ?b' then _ else _) = _ =>
    change b with (enc v 2 =? 0x3d); change b' with (enc v 3 =? 0x3d) end.
  rewrite !(proj2 (Z.eqb_neq _ 0x3d) (enc_not_pad v _)).
  rewrite (sextets_sum v Hv), Hva. unfold is_u in *.
  f_equal. f_equal; [lia|f_equal; [lia|f_equal; lia]].
Qed.

(** The first quad of an encoding decodes to the first group of the message. *)
Lemma b64_step l : l <> [] -> bytes_ok l ->
  exists q, b64 l = q ++ b64 (zdrop 3 l) /\ quad_ok q (ztake 3 l).
Proof.
  intros Hl Hok. destruct l as [|a [|b [|c l]]]; [done| | |];
    unfold bytes_ok in Hok; rewrite !Forall_cons_iff in Hok.
  - eexists. split; [symmetry; apply app_nil_r|apply quad_1, Hok].
  - eexists. split; [symmetry; apply app_nil_r|apply quad_2; apply Hok].
  - eexists. split; [reflexivity|apply quad_3; apply Hok].
Qed.

End Groups.

(** ** The encoder *)

Lemma b64_app l1 l2 : zlen l1 mod 3 = 0 -> b64 (l1 ++ l2) = b64 l1 ++ b64 l2.
Proof.
  remember (Z.to_nat (zlen l1 / 3)) as n eqn:Hn. revert l1 Hn.
  induction n as [|n IH]; intros l1 Hn Hl; destruct l1 as [|a [|b [|c l1]]]; try done;
    cbn [length] in *; try lia.
  cbn [app b64]. by rewrite IH by lia.
Qed.

Lemma length_b64 l : zlen (b64 l) = 4 * ((zlen l + 2) / 3).
Proof.
  remember (Z.to_nat (zlen l / 3)) as n eqn:Hn. revert l Hn.
  induction n as [|n IH]; intros l Hn; destruct l as [|a [|b [|c l]]]; try done;
    cbn [length] in *; try lia.
  cbn [b64 app length]. specialize (IH l). lia.
Qed.

Lemma EncodeBlock_loop_spec fuel dst src ret : bytes_ok src -> (length src <= fuel)%nat ->
  0 <= ret -> ret + zlen (b64 src) < 2 ^ 64 ->
  forall rest, EncodeBlock_loop fuel dst (src ++ rest) (zlen src) ret =
    (dst ++ b64 src, ret + zlen (b64 src)).
Proof.
  revert dst src ret. induction fuel as [|fuel IH]; intros dst src ret Hok Hf Hr Hret rest.
  { destruct src; [|cbn in Hf; lia]. cbn. by rewrite app_nil_r, Z.add_0_r. }
  cbn [EncodeBlock_loop].
  destruct src as [|a [|b [|c src]]].
  - cbn. by rewrite app_nil_r, Z.add_0_r.
  - unfold bytes_ok in Hok. rewrite !Forall_cons_iff in Hok.
    pose proof (lor_word3 a 0 0 ltac:(apply Hok) ltac:(split; lia) ltac:(split; lia)) as Hw.
    rewrite (Z.lor_0_r (Z.lor _ _)) in Hw. change (u32 (Z.shiftl 0 8)) with 0 in Hw. rewrite Z.lor_0_r in Hw.
    pose proof (conv_sextets _ (be_val_3 a 0 0 ltac:(apply Hok) ltac:(split; lia) ltac:(split; lia))) as (E0 & E1 & _).
    cbn [length]. change (Z.of_nat 1 =? 0) with false. change (Z.of_nat 1 >=? 3) with false.
    change (Z.of_nat 1 =? 2) with false. change (Z.of_nat 1 =? 1) with true. cbn iota.
    change (zget ([a] ++ rest) 0) with a. rewrite Hw, E0, E1.
    rewrite u64_small by (split; [lia|]; rewrite length_b64 in Hret; cbn [length] in Hret; lia).
    destruct fuel; reflexivity.
  - unfold bytes_ok in Hok. rewrite !Forall_cons_iff in Hok.
    pose proof (lor_word3 a b 0 ltac:(apply Hok) ltac:(apply Hok) ltac:(split; lia)) as Hw. rewrite Z.lor_0_r in Hw.
    pose proof (conv_sextets _ (be_val_3 a b 0 ltac:(apply Hok) ltac:(apply Hok) ltac:(split; lia))) as (E0 & E1 & E2 & _).
    cbn [length]. change (Z.of_nat 2 =? 0) with false. change (Z.of_nat 2 >=? 3) with false.
    change (Z.of_nat 2 =? 2) with true. change (Z.of_nat 2 =? 1) with false. cbn iota.
    change (zget ([a; b] ++ rest) 0) with a. change (zget ([a; b] ++ rest) 1) with b. rewrite Hw, E0, E1, E2.
    rewrite u64_small by (split; [lia|]; rewrite length_b64 in Hret; cbn [length] in Hret; lia).
    destruct fuel; reflexivity.
  - unfold bytes_ok in Hok. rewrite !Forall_cons_iff in Hok. destruct Hok as (Ha & Hb & Hc & Hok).
    pose proof (lor_word3 a b c Ha Hb Hc) as Hw.
    pose proof (conv_sextets _ (be_val_3 a b c Ha Hb Hc)) as (E0 & E1 & E2 & E3).
    assert (Hlen : zlen (b64 (a :: b :: c :: src)) = 4 + zlen (b64 src)) by (cbn [b64 app length]; lia).
    rewrite Hlen in *. cbn [length app] in *. rewrite (proj2 (Z.eqb_neq _ 0)) by lia.
    rewrite (proj2 (Z.geb_le _ 3)) by lia.
    change (zget (a :: b :: c :: src ++ rest) 0) with a.
    change (zget (a :: b :: c :: src ++ rest) 1) with b.
    change (zget (a :: b :: c :: src ++ rest) 2) with c.
    rewrite Hw, E0, E1, E2, E3, u64_small by (split; lia).
    change (zdrop 3 (a :: b :: c :: src ++ rest)) with (src ++ rest).
    replace (Z.of_nat (S (S (S (length src)))) - 3) with (zlen src) by lia.
    rewrite IH by (done || lia). cbn [b64]. by rewrite <- app_assoc, <- Z.add_assoc.
Qed.

Lemma EVP_EncodeBlock_spec src rest : bytes_ok src -> zlen (b64 src) < 2 ^ 64 ->
  EVP_EncodeBlock (src ++ rest) (zlen src) = (b64 src ++ [0], zlen (b64 src)).
Proof.
  intros Hok Hl. unfold EVP_EncodeBlock. by rewrite EncodeBlock_loop_spec by (done || lia).
Qed.

Lemma b64_lines_fuel n m l : (length l <= n)%nat -> (length l <= m)%nat -> b64_lines n l = b64_lines m l.
Proof.
  revert m l. induction n as [|n IH]; intros m l Hn Hm.
  - destruct l; [|cbn in Hn; lia]. by destruct m.
  - destruct l as [|x l]; [by destruct m|]. destruct m as [|m]; [cbn in Hm; lia|].
    cbn [b64_lines]. do 2 f_equal. cbn [length] in *. apply IH; zlia.
Qed.

Lemma encoded_lines_eq l : l <> [] ->
  encoded_lines l = b64 (ztake 48 l) ++ [0x0a] ++ encoded_lines (zdrop 48 l).
Proof.
  intros Hl. unfold encoded_lines. destruct l as [|x l]; [done|]. cbn [length b64_lines].
  do 2 f_equal. apply b64_lines_fuel; zlia.
Qed.

Lemma encoded_lines_step l1 l : zlen l1 = 48 ->
  encoded_lines (l1 ++ l) = (b64 l1 ++ [0x0a]) ++ encoded_lines l.
Proof.
  intros H. rewrite encoded_lines_eq by (destruct l1; done).
  by rewrite ztake_app, zdrop_app, <- app_assoc by done.
Qed.

Lemma encoded_lines_short p : p <> [] -> zlen p <= 48 -> encoded_lines p = b64 p ++ [0x0a].
Proof.
  intros Hp Hl. rewrite encoded_lines_eq by done. by rewrite ztake_all, zdrop_all by lia.
Qed.

(** Whole lines, then the rest. *)
Lemma encoded_lines_app k a b : zlen a = 48 * Z.of_nat k ->
  encoded_lines (a ++ b) = encoded_lines a ++ encoded_lines b /\ zlen (encoded_lines a) = 65 * Z.of_nat k.
Proof.
  revert a. induction k as [|k IH]; intros a Ha.
  - assert (a = []) as -> by (apply zlen_0; lia). done.
  - destruct (zsplit 48 a) as (l1 & l & -> & Hl1); [lia|].
    destruct (IH l ltac:(zlia)) as [E1 E2].
    rewrite <- app_assoc, (encoded_lines_step l1 (l ++ b)), (encoded_lines_step l1 l), E1, app_assoc by done.
    split; [done|].
    rewrite !length_app. pose proof (length_b64 l1) as Hb. rewrite Hl1 in Hb.
    change ((48 + 2) / 3) with 16 in Hb. cbn [length]. lia.
Qed.

Lemma encode_line_spec out src rest : bytes_ok src -> zlen src <= 48 ->
  encode_line out (src ++ rest) (zlen src) = (out ++ b64 src ++ [0x0a], zlen (b64 src)).
Proof.
  intros Hok Hl. unfold encode_line.
  rewrite EVP_EncodeBlock_spec by (done || (rewrite length_b64; lia)). by rewrite ztake_app.
Qed.

Lemma EncodeUpdate_loop_spec fuel out inp total k a b : inp = a ++ b -> zlen a = 48 * Z.of_nat k ->
  zlen b < 48 -> bytes_ok a -> (k <= fuel)%nat -> 0 <= total -> total + 65 * Z.of_nat k < 2 ^ 64 ->
  EncodeUpdate_loop fuel out inp (zlen inp) total =
    (out ++ encoded_lines a, Some (b, zlen b, total + 65 * Z.of_nat k)).
Proof.
  revert fuel out inp total a. induction k as [|k IH]; intros fuel out inp total a -> Ha Hb Hok Hf Ht Hbound.
  - assert (a = []) as -> by (apply zlen_0; lia).
    replace (total + 65 * Z.of_nat 0) with total by lia. rewrite app_nil_r.
    destruct fuel; [done|]. cbn [EncodeUpdate_loop app]. unfold data_size. case_if; [lia|done].
  - destruct fuel as [|fuel]; [lia|]. cbn [EncodeUpdate_loop]. unfold data_size.
    destruct (zsplit 48 a) as (l1 & l & -> & Hl1); [lia|].
    apply bytes_ok_app in Hok as [Hok1 Hok2]. case_if; [|zlia].
    rewrite <- app_assoc, <- Hl1, encode_line_spec, Hl1 by (done || lia). cbv beta iota zeta.
    pose proof (length_b64 l1) as Hb1. rewrite Hl1 in Hb1. change (4 * ((48 + 2) / 3)) with 64 in Hb1.
    rewrite Hb1, (u64_small (total + 64)), (u64_small (total + 64 + 1)), (u64_small (64 + 1)),
      (u64_small (total + (64 + 1))) by (split; lia).
    case_if; [lia|]. rewrite zdrop_app by done.
    replace (zlen (l1 ++ l ++ b) - 48) with (zlen (l ++ b)) by zlia.
    rewrite (IH fuel _ (l ++ b) _ l) by (done || zlia). rewrite (encoded_lines_step l1 l) by done.
    rewrite <- app_assoc. do 2 f_equal. f_equal. lia.
Qed.

(** The encoder's context holds the bytes [p] that do not fill a line. *)
Definition pending (ctx : EVP_ENCODE_CTX) (p : bytes) : Prop :=
  exists z, data_used ctx = zlen p /\ zlen p < 48 /\ data ctx = p ++ z /\ zlen (data ctx) = 48.

(** An input whose encoding is short enough for [*out_len]. *)
Definition encodable (inp : bytes) : Prop := bytes_ok inp /\ 65 * (zlen inp + 48) <= 48 * INT_MAX.

(** The pending line, completed, is the start of the whole lines. *)
Lemma encode_pending_spec ctx p inp a b k : pending ctx p -> bytes_ok p -> bytes_ok inp ->
  p ++ inp = a ++ b -> zlen a = 48 * Z.of_nat k -> 0 < Z.of_nat k -> zlen b < 48 ->
  exists d a1 a2 j, a = a1 ++ a2 /\ zlen a1 = 48 * Z.of_nat j /\ (j <= k)%nat /\ zlen d = 48 /\
    encode_pending ctx inp (zlen inp) =
      (mk_CTX 0 d (eof_seen ctx) (error_encountered ctx), encoded_lines a1, a2 ++ b, zlen (a2 ++ b),
       65 * Z.of_nat j).
Proof.
  intros (z & Hu & Hp & Hd & Hdl) Hokp Hok Hab Ha Hk0 Hb. unfold encode_pending, data_size. rewrite Hu.
  assert (Hlab : zlen p + zlen inp = zlen a + zlen b)
    by (apply (f_equal (@length Z)) in Hab; rewrite !length_app in Hab; lia).
  case_if.
  - destruct (zsplit (48 - zlen p) inp) as (i1 & i2 & -> & Hi1); [lia|].
    apply bytes_ok_app in Hok as [Hok1 Hok2].
    cbv zeta. rewrite ztake_app, zdrop_app by done. cbn [data set_data data_used].
    destruct (app_eq_prefix a b (p ++ i1) i2) as (c & -> & ->);
      [by rewrite <- Hab, <- app_assoc|rewrite length_app; lia|].
    assert (Hs : zsplice (data ctx) (zlen p) i1 = p ++ i1).
    { rewrite Hd. pose proof (zsplice_app p z [] i1 (zlen p) eq_refl) as Hs.
      rewrite !app_nil_r in Hs. apply Hs. rewrite Hd in Hdl. zlia. }
    rewrite Hs. exists (p ++ i1), (p ++ i1), c, 1%nat.
    assert (H48 : zlen (p ++ i1) = 48) by zlia.
    pose proof (encode_line_spec [] (p ++ i1) [] ltac:(by apply bytes_ok_app) ltac:(lia)) as He.
    rewrite app_nil_r, H48 in He. rewrite He.
    pose proof (length_b64 (p ++ i1)) as Hb1. rewrite H48 in Hb1. change (4 * ((48 + 2) / 3)) with 64 in Hb1.
    rewrite Hb1, encoded_lines_short by (lia || (destruct p; done)).
    split_and!; try done; try lia. f_equal. f_equal. zlia.
  - assert (p = []) as -> by (by apply zlen_0). exists (data ctx), [], a, 0%nat.
    cbn [app] in Hab. rewrite <- Hab. split_and!; try done; try lia.
    destruct ctx; cbn [data_used data] in *. by rewrite Hu.
Qed.

Lemma EVP_EncodeUpdate_spec ctx p inp : pending ctx p -> bytes_ok p -> encodable inp ->
  exists a b k ctx', p ++ inp = a ++ b /\ zlen a = 48 * Z.of_nat k /\
    EVP_EncodeUpdate ctx inp (zlen inp) = Some (encoded_lines a, zlen (encoded_lines a), ctx') /\
    pending ctx' b.
Proof.
  intros (z & Hu & Hp & Hd & Hdl) Hokp [Hok Hlen]. unfold INT_MAX in Hlen.
  unfold EVP_EncodeUpdate, data_size. rewrite Hu. case_if.
  { apply zlen_0 in E as ->. exists [], p, 0%nat, ctx. rewrite app_nil_r. split_and!; try done.
    by exists z. }
  case_if; [lia|]. case_if.
  { exists [], (p ++ inp), 0%nat. eexists. split_and!; [done|done|reflexivity|].
    destruct (zsplit (zlen inp) z) as (z1 & z2 & -> & Hz1); [rewrite Hd in Hdl; zlia|].
    exists z2. cbn [set_data data_used data]. rewrite Hd, (ztake_all (zlen inp)), zsplice_app by lia.
    rewrite (u32_small (zlen inp)), u32_small by (split; lia).
    rewrite Hd in Hdl. split_and!; try zlia. by rewrite app_assoc. }
  set (k := Z.to_nat (zlen (p ++ inp) / 48)).
  destruct (zsplit (48 * Z.of_nat k) (p ++ inp)) as (a & b & Hab & Ha); [unfold k; lia|].
  assert (Hlab : zlen p + zlen inp = zlen a + zlen b)
    by (apply (f_equal (@length Z)) in Hab; rewrite !length_app in Hab; lia).
  assert (Hk : 0 < Z.of_nat k /\ 65 * Z.of_nat k <= 2147483647 /\ zlen b < 48).
  { unfold k in *. rewrite length_app in *. lia. }
  destruct Hk as (Hk0 & Hk1 & Hb). clearbody k.
  assert (Hoka : bytes_ok a).
  { assert (H : bytes_ok (p ++ inp)) by (by apply bytes_ok_app). rewrite Hab in H.
    by apply bytes_ok_app in H as [? _]. }
  exists a, b, k.
  destruct (encode_pending_spec ctx p inp a b k) as (d & a1 & a2 & j & -> & Ha1 & Hj & Hd48 & ->);
    [by exists z|done|done|done|done|done|lia|].
  destruct (encoded_lines_app j a1 a2 Ha1) as [Happ Hlen1].
  destruct (encoded_lines_app k (a1 ++ a2) [] Ha) as [_ Hlen2].
  apply bytes_ok_app in Hoka as [_ Hoka2].
  rewrite (EncodeUpdate_loop_spec _ _ _ _ (k - j)%nat a2 b) by (done || zlia).
  rewrite <- Happ. eexists. split_and!; [done|done| |].
  - f_equal. f_equal. f_equal. unfold INT_MAX. case_if; lia.
  - exists (zdrop (zlen b) d). cbn [set_data data_used data]. rewrite u32_small by (split; lia).
    case_if; cbn [negb]; split_and!; try done; unfold zsplice; try zlia.
    + rewrite (ztake_all (zlen b) b), (ztake_0 0), Z.add_0_l by lia. done.
    + assert (b = []) as -> by (by apply zlen_0). by rewrite zdrop_0 by done.
Qed.

(** The outputs of a run of updates and of the final call. *)
Fixpoint encode_stream (ctx : EVP_ENCODE_CTX) (inputs : list bytes) : option (list (bytes * Z)) :=
  match inputs with
  | [] => match EVP_EncodeFinal ctx with
          | Some (out, n, _) => Some [(out, n)]
          | None => None
          end
  | inp :: inputs =>
      match EVP_EncodeUpdate ctx inp (zlen inp) with
      | Some (out, n, ctx) =>
          match encode_stream ctx inputs with
          | Some outs => Some ((out, n) :: outs)
          | None => None
          end
      | None => None
      end
  end.

(** Every output has the length its call reports, and together they are [text]. *)
Definition outputs (outs : list (bytes * Z)) (text : bytes) : Prop :=
  Forall (fun o => zlen o.1 = o.2) outs /\ concat (map fst outs) = text.

Lemma encode_stream_spec ctx p inputs : pending ctx p -> bytes_ok p -> Forall encodable inputs ->
  exists outs, encode_stream ctx inputs = Some outs /\ outputs outs (encoded_lines (p ++ concat inputs)).
Proof.
  intros Hp Hok Hin. revert ctx p Hp Hok. induction Hin as [|inp inputs Hi Hin IH]; intros ctx p Hp Hok.
  - cbn [encode_stream concat]. rewrite app_nil_r. unfold EVP_EncodeFinal.
    destruct Hp as (z & Hu & Hlen & Hd & Hdl). rewrite Hu. case_if.
    + apply zlen_0 in E as ->. eexists. split; [reflexivity|]. by split; [repeat constructor|].
    + pose proof (encode_line_spec [] p z Hok ltac:(lia)) as He. rewrite Hd, He.
      pose proof (length_b64 p) as Hb. unfold INT_MAX. rewrite (proj2 (Z.leb_le _ _)) by lia. cbn [negb].
      eexists. split; [reflexivity|].
      rewrite encoded_lines_short by (lia || (destruct p; done)).
      split; cbn [map concat fst]; [|by rewrite app_nil_r].
      constructor; [|constructor]. cbn [fst snd app]. rewrite length_app. cbn [length]. lia.
  - destruct (EVP_EncodeUpdate_spec ctx p inp Hp Hok Hi) as (a & b & k & ctx' & Hab & Ha & He & Hp').
    assert (Hokab : bytes_ok (a ++ b)) by (rewrite <- Hab; apply bytes_ok_app; split; [done|apply Hi]).
    apply bytes_ok_app in Hokab as [_ Hokb].
    destruct (IH ctx' b Hp' Hokb) as (outs & Hs & Hf & Hc).
    exists ((encoded_lines a, zlen (encoded_lines a)) :: outs).
    cbn [encode_stream concat]. rewrite He, Hs. split; [done|]. split; [by constructor|].
    cbn [map concat fst]. rewrite Hc, app_assoc, Hab, <- app_assoc.
    by destruct (encoded_lines_app k a (b ++ concat inputs) Ha) as [-> _].
Qed.

(** ** The decoder *)

Lemma DecodeBase64_loop_spec fuel pre l rest out : bytes_ok l -> (length l <= fuel)%nat ->
  DecodeBase64_loop fuel (pre ++ b64 l ++ rest) (zlen (pre ++ b64 l)) (zlen pre) out = Some (out ++ l).
Proof.
  revert pre l out. induction fuel as [|fuel IH]; intros pre l out Hok Hf.
  { destruct l; [|cbn in Hf; lia]. cbn. by rewrite app_nil_r. }
  cbn [DecodeBase64_loop]. destruct (decide (l = [])) as [->|Hl].
  - cbn [b64]. rewrite !app_nil_r. rewrite (proj2 (Z.ltb_ge _ _)) by lia. done.
  - destruct (b64_step l Hl Hok) as (q & Hq & Hq4 & _ & Hdec).
    rewrite Hq. rewrite (proj2 (Z.ltb_lt _ _)) by zlia.
    rewrite zdrop_app, <- app_assoc, Hdec by done.
    assert (Hlast : negb (zlen (ztake 3 l) =? 3) && negb (zlen pre =? zlen (pre ++ q ++ b64 (zdrop 3 l)) - 4) = false).
    { destruct (Z.eqb_spec (zlen (ztake 3 l)) 3); [done|]. cbn [negb andb].
      rewrite (zdrop_all 3 l) by zlia. cbn [b64]. rewrite app_nil_r.
      apply negb_false_iff, Z.eqb_eq. zlia. }
    rewrite Hlast. replace (zlen pre + 4) with (zlen (pre ++ q)) by zlia.
    assert (Hlpos : (0 < length l)%nat) by (destruct l; [done|cbn; lia]).
    specialize (IH (pre ++ q) (zdrop 3 l) (out ++ ztake 3 l) ltac:(auto with bssl) ltac:(zlia)).
    rewrite <- !app_assoc, ztake_zdrop in IH. exact IH.
Qed.

Lemma EVP_DecodeBase64_spec l rest max_out : bytes_ok l -> 3 * ((zlen l + 2) / 3) <= max_out ->
  EVP_DecodeBase64 max_out (b64 l ++ rest) (zlen (b64 l)) = Some l.
Proof.
  intros Hok Hm. pose proof (length_b64 l) as Hl. unfold EVP_DecodeBase64, EVP_DecodedLength.
  assert (Hmod : (zlen (b64 l) mod 4 =? 0) = true) by lia. rewrite Hmod. cbn [negb].
  rewrite (proj2 (Z.ltb_ge _ _)) by lia.
  exact (DecodeBase64_loop_spec (Z.to_nat (zlen (b64 l))) [] l rest [] Hok ltac:(lia)).
Qed.

(** The decoder's context after the characters before [r], when [y] is left to
    decode. *)
Definition decoding (ctx : EVP_ENCODE_CTX) (y r : bytes) : Prop :=
  exists p z, p ++ r = b64 y /\ zlen p < 4 /\ data_used ctx = zlen p /\ data ctx = p ++ z /\
    zlen (data ctx) = 48 /\ error_encountered ctx = false /\ (eof_seen ctx = true -> y = []).

(** The characters that are not spaces. *)
Definition dense (l : bytes) : bytes := List.filter (fun c => negb (is_space c)) l.

(** The quad a character completes or extends. *)
Lemma next_quad p c r y : bytes_ok y -> p ++ c :: r = b64 y -> zlen p < 4 ->
  exists q, y <> [] /\ b64 y = q ++ b64 (zdrop 3 y) /\ quad_ok q (ztake 3 y) /\ base64_ascii_to_bin c <> 0xff /\
    (zlen p = 3 -> q = p ++ [c] /\ r = b64 (zdrop 3 y)).
Proof.
  intros Hok Heq Hp. assert (Hy : y <> []) by (intros ->; by destruct p).
  destruct (b64_step y Hy Hok) as (q & Hq & Hquad). pose proof Hquad as (Hq4 & Hall & _).
  exists q. split_and!; try done.
  - rewrite Hq in Heq.
    destruct (app_eq_prefix q (b64 (zdrop 3 y)) (p ++ [c]) r) as (s & Hs & _);
      [by rewrite <- app_assoc|zlia|].
    rewrite Hs in Hall. apply Forall_app in Hall as [Hall _]. apply Forall_app in Hall as [_ Hall].
    apply Forall_cons_iff in Hall as [[_ ?] _]. done.
  - intros Hp3. rewrite Hq in Heq. change (c :: r) with ([c] ++ r) in Heq. rewrite app_assoc in Heq.
    apply app_inj_1 in Heq as [-> ->]; [done|zlia].
Qed.

Lemma DecodeUpdate_loop_spec ctx out inp y r : bytes_ok y -> decoding ctx y (dense inp ++ r) ->
  exists y1 y2 ctx', y = y1 ++ y2 /\ DecodeUpdate_loop ctx out inp = Some (true, out ++ y1, ctx') /\
    decoding ctx' y2 r.
Proof.
  revert ctx out y. induction inp as [|c inp IH]; intros ctx out y Hok Hd.
  { exists [], y, ctx. cbn [DecodeUpdate_loop]. by rewrite app_nil_r. }
  cbn [DecodeUpdate_loop]. unfold dense in Hd. cbn [List.filter] in Hd.
  destruct (is_space c) eqn:Hsp; cbn [negb] in Hd; [by apply IH|].
  fold (dense inp) in Hd. destruct Hd as (p & z & Hpr & Hp & Hu & Hdata & Hlen & Herr & Heof).
  destruct (next_quad p c (dense inp ++ r) y Hok Hpr Hp) as (q & Hy & Hq & Hquad & Hc & H3).
  assert (Heof' : eof_seen ctx = false) by (destruct (eof_seen ctx); [by destruct Hy; apply Heof|done]).
  rewrite (proj2 (Z.eqb_neq _ _) Hc), Heof'. cbn [orb].
  rewrite Hu. unfold data_size. rewrite (proj2 (Z.ltb_lt _ _)) by lia. cbn [negb].
  rewrite Hdata in Hlen |- *. destruct z as [|z0 z]; [rewrite app_nil_r in Hlen; lia|].
  change (z0 :: z) with ([z0] ++ z). rewrite zsplice_app by done. cbn [set_data data_used data].
  case_if.
  - destruct (H3 ltac:(lia)) as [-> Hr]. destruct Hquad as (Hq4 & _ & Hdec).
    rewrite app_assoc, Hdec.
    edestruct (IH (mk_CTX 0 ((p ++ [c]) ++ z) (if zlen (ztake 3 y) <? 3 then true else eof_seen ctx) (error_encountered ctx))
      (out ++ ztake 3 y) (zdrop 3 y)) as (y1 & y2 & ctx' & Hy12 & Hrun & Hd'); [auto with bssl| |].
    { exists [], ((p ++ [c]) ++ z). cbn [data_used data error_encountered eof_seen].
      split_and!; try done; [zlia|]. intros H. case_if_in H; [apply zdrop_all; zlia|congruence]. }
    exists (ztake 3 y ++ y1), y2, ctx'. split_and!; try done.
    + by rewrite <- app_assoc, <- Hy12, ztake_zdrop.
    + cbn [eof_seen error_encountered set_data]. by rewrite Hrun, app_assoc.
  - apply IH; [done|]. exists (p ++ [c]), z. cbn [data_used data error_encountered eof_seen].
    rewrite <- !app_assoc. split_and!; try done; cbn [set_data data_used data]; zlia.
Qed.

(** A run of updates: what they write, as long as they report no error. *)
Fixpoint decode_stream (ctx : EVP_ENCODE_CTX) (inputs : list bytes) : option (bytes * EVP_ENCODE_CTX) :=
  match inputs with
  | [] => Some ([], ctx)
  | inp :: inputs =>
      match EVP_DecodeUpdate ctx inp (zlen inp) with
      | Some (ret, n, out, ctx) =>
          if ret <? 0 then None
          else match decode_stream ctx inputs with
               | Some (outs, ctx) => Some (ztake n out ++ outs, ctx)
               | None => None
               end
      | None => None
      end
  end.

Lemma decode_stream_spec ctx inputs y : bytes_ok y -> zlen y <= INT_MAX ->
  decoding ctx y (dense (concat inputs)) ->
  exists ctx', decode_stream ctx inputs = Some (y, ctx') /\ EVP_DecodeFinal ctx' = (1, 0).
Proof.
  revert ctx y. induction inputs as [|inp inputs IH]; intros ctx y Hok Hlen Hd.
  - destruct Hd as (p & z & Hpr & Hp & Hu & _ & _ & Herr & _).
    cbn [concat dense List.filter] in Hpr. rewrite app_nil_r in Hpr.
    pose proof (length_b64 y) as Hb. rewrite <- Hpr in Hb.
    assert (y = []) as -> by (apply zlen_0; lia). cbn [b64] in Hpr. subst p.
    exists ctx. split; [done|]. unfold EVP_DecodeFinal. by rewrite Herr, Hu.
  - cbn [concat] in Hd. unfold dense in Hd. rewrite List.filter_app in Hd.
    fold (dense inp) (dense (concat inputs)) in Hd.
    destruct (DecodeUpdate_loop_spec ctx [] inp y _ Hok Hd) as (y1 & y2 & ctx' & -> & Hrun & Hd').
    apply bytes_ok_app in Hok as [Hok1 Hok2]. rewrite length_app in Hlen.
    destruct (IH ctx' y2 Hok2 ltac:(lia) Hd') as (ctx2 & Hs & Hf).
    exists ctx2. split; [|done]. cbn [decode_stream]. unfold EVP_DecodeUpdate.
    destruct Hd as (_ & _ & _ & _ & _ & _ & _ & Herr & _). rewrite Herr.
    rewrite ztake_all, Hrun by lia. cbn [app]. case_if; [lia|].
    destruct (eof_seen ctx'); cbn; rewrite Hs, ztake_all by lia; done.
Qed.

Lemma decoding_init y : decoding EVP_DecodeInit y (b64 y).
Proof. exists [], (zrepeat 48 0). by split_and!. Qed.

(** Encoded text has only the newlines the encoder adds as spaces. *)
Lemma dense_id l : Forall (fun c => is_space c = false) l -> dense l = l.
Proof. induction 1 as [|c l Hc _ IH]; [done|]. cbn. rewrite Hc. cbn. by rewrite <- IH at 2. Qed.

Lemma b64_no_space l : bytes_ok l -> Forall (fun c => is_space c = false) (b64 l).
Proof.
  remember (length l) as n eqn:Hn. revert l Hn. induction n as [n IH] using lt_wf_ind. intros l Hn Hok.
  destruct (decide (l = [])) as [->|Hl]; [constructor|].
  destruct (b64_step l Hl Hok) as (q & -> & _ & Hall & _). apply Forall_app. split.
  - eapply Forall_impl; [|exact Hall]. by intros ? [? ?].
  - eapply IH; [|reflexivity|auto with bssl]. destruct l; [done|]. zlia.
Qed.

Lemma dense_lines l : bytes_ok l -> dense (encoded_lines l) = b64 l.
Proof.
  remember (length l) as n eqn:Hn. revert l Hn. induction n as [n IH] using lt_wf_ind. intros l Hn Hok.
  destruct (decide (l = [])) as [->|Hl]; [done|]. rewrite encoded_lines_eq by done.
  unfold dense. rewrite !List.filter_app. fold (dense (b64 (ztake 48 l))) (dense (encoded_lines (zdrop 48 l))).
  rewrite dense_id by (apply b64_no_space; auto with bssl).
  rewrite (IH (length (zdrop 48 l))); [|destruct l; [done|]; zlia|reflexivity|auto with bssl].
  cbn [List.filter is_space app]. change (negb (is_space 10)) with false. cbn [app].
  destruct (Z.le_gt_cases (zlen l) 48).
  - rewrite ztake_all, zdrop_all by done. by rewrite app_nil_r.
  - rewrite <- b64_app by (rewrite length_ztake; lia). by rewrite ztake_zdrop.
Qed.

(** ** The one-shot decoder's trimming *)

Lemma trim_left_spaces ws t : Forall (fun c => c = 0x20 \/ c = 0x09) ws -> trim_left (ws ++ t) = trim_left t.
Proof. induction 1 as [|c ws Hc _ IH]; [done|]. cbn. by destruct Hc as [-> | ->]. Qed.

Lemma trim_left_suffix t : exists ws, t = ws ++ trim_left t.
Proof.
  induction t as [|c t [ws IH]]; [by exists []|]. cbn [trim_left]. case_if; [by exists []|].
  exists (c :: ws). cbn. by rewrite <- IH.
Qed.

(** The encoding starts and ends with characters that are not trimmed. *)
Lemma trim_left_b64 l t : l <> [] -> bytes_ok l -> trim_left (b64 l ++ t) = b64 l ++ t.
Proof.
  intros Hl Hok. destruct (b64_step l Hl Hok) as (q & -> & Hq4 & Hall & _).
  destruct q as [|c q]; [done|]. apply Forall_cons_iff in Hall as [[Hc _] _].
  unfold is_space in Hc. bool_simpl. cbn [app trim_left].
  by rewrite (proj2 (Z.eqb_neq c 0x20)), (proj2 (Z.eqb_neq c 0x09)) by done.
Qed.

Lemma trim_right_prefix fuel src1 src2 n : n <= zlen src1 ->
  trim_right (src1 ++ src2) fuel n = trim_right src1 fuel n.
Proof.
  revert n. induction fuel as [|fuel IH]; intros n Hn; [done|]. cbn [trim_right].
  case_if; [|done]. rewrite zget_app_l by lia. case_if; [apply IH; lia|done].
Qed.

Lemma zget_snoc l c : zget (l ++ [c]) (zlen (l ++ [c]) - 1) = c.
Proof. rewrite zget_app_r by zlia. replace (zlen (l ++ [c]) - 1 - zlen l) with 0 by zlia. done. Qed.

Lemma trim_right_spec t ws fuel : Forall (fun c => is_space c = false) t ->
  Forall (fun c => is_space c = true) ws -> (length ws <= fuel)%nat ->
  trim_right (t ++ ws) fuel (zlen (t ++ ws)) = zlen t.
Proof.
  intros Ht Hws. revert fuel. induction ws as [|c ws IH] using rev_ind; intros fuel Hf.
  - rewrite app_nil_r. destruct fuel; [done|]. cbn [trim_right]. case_if; [|done].
    destruct t as [|c t _] using rev_ind; [done|]. apply Forall_app in Ht as [_ Hc].
    apply Forall_cons_iff in Hc as [Hc _]. by rewrite zget_snoc, Hc.
  - apply Forall_app in Hws as [Hws Hc]. apply Forall_cons_iff in Hc as [Hc _].
    destruct fuel as [|fuel]; [rewrite length_app in Hf; cbn in Hf; lia|].
    cbn [trim_right]. case_if; [|zlia]. rewrite app_assoc, zget_snoc, Hc.
    replace (zlen ((t ++ ws) ++ [c]) - 1) with (zlen (t ++ ws)) by zlia.
    rewrite trim_right_prefix by lia. apply IH; [done|]. rewrite length_app in Hf. cbn in Hf. lia.
Qed.

Lemma zrepeat_succ {A} n (x : A) : 0 < n -> zrepeat n x = x :: zrepeat (n - 1) x.
Proof. intros H. unfold zrepeat. by replace (Z.to_nat n) with (S (Z.to_nat (n - 1))) by lia. Qed.

Lemma pad_zeros_spec fuel l : - zlen l mod 3 <= Z.of_nat fuel ->
  pad_zeros fuel l = l ++ zrepeat (- zlen l mod 3) 0.
Proof.
  revert l. induction fuel as [|fuel IH]; intros l Hf; cbn [pad_zeros].
  - replace (- zlen l mod 3) with 0 by lia. by rewrite app_nil_r.
  - case_if.
    + rewrite IH by (rewrite length_app; cbn [length]; lia).
      rewrite (zrepeat_succ (- zlen l mod 3)) by lia. rewrite <- app_assoc. cbn [app].
      do 3 f_equal. rewrite length_app. cbn [length]. lia.
    + replace (- zlen l mod 3) with 0 by lia. by rewrite app_nil_r.
Qed.

(** * Properties *)

(** The encoder's length is exact: [EVP_EncodeBlock] writes the RFC 4648
    encoding and a NUL, of which [EVP_EncodedLength] is the length; it fails
    exactly when that length does not fit in a size_t. *)
Theorem EVP_EncodeBlock_rfc src : bytes_ok src -> zlen (b64 src) < 2 ^ 64 ->
  EVP_EncodeBlock src (zlen src) = (b64 src ++ [0], zlen (b64 src)) /\
  (forall len, is_u 64 len ->
     EVP_EncodedLength len =
       if 4 * ((len + 2) / 3) + 1 <? 2 ^ 64 then Some (4 * ((len + 2) / 3) + 1) else None) /\
  zlen (b64 src ++ [0]) = 4 * ((zlen src + 2) / 3) + 1.
Proof.
  intros Hok Hl. split; [|split].
  - pose proof (EVP_EncodeBlock_spec src [] Hok Hl) as H. by rewrite app_nil_r in H.
  - intros len [H0 H1]. unfold EVP_EncodedLength.
    rewrite !u64_mod, !Z.shiftl_mul_pow2, !Z.shiftr_div_pow2 by lia.
    change (2 ^ 64) with 18446744073709551616 in *. change (2 ^ 2) with 4.
    repeat case_if; try lia; f_equal; lia.
  - pose proof (length_b64 src). rewrite length_app. cbn [length]. lia.
Qed.

(** Round trip of the one-shot functions: what [EVP_EncodeBlock] writes is
    decoded to the message by [EVP_DecodeBase64], given room for whole groups, and
    by [EVP_DecodeBlock] with any spaces around it, which pads the result with
    zeros to whole groups. *)
Theorem EVP_EncodeBlock_decode src left_ws right_ws max_out :
  bytes_ok src -> 4 * ((zlen src + 2) / 3) < 2 ^ 31 ->
  Forall (fun c => c = 0x20 \/ c = 0x09) left_ws -> Forall (fun c => is_space c = true) right_ws ->
  3 * ((zlen src + 2) / 3) <= max_out ->
  let '(dst, n) := EVP_EncodeBlock src (zlen src) in
  let text := left_ws ++ ztake n dst ++ right_ws in
  EVP_DecodeBase64 max_out dst n = Some src /\
  EVP_DecodeBlock text (zlen text) = Some (src ++ zrepeat (- zlen src mod 3) 0).
Proof.
  intros Hok Hlen Hleft Hright Hmax. pose proof (length_b64 src) as Hb.
  pose proof (EVP_EncodeBlock_spec src [] Hok ltac:(lia)) as He. rewrite app_nil_r in He. rewrite He.
  split; [by apply EVP_DecodeBase64_spec|]. cbv zeta. rewrite ztake_app by done.
  unfold EVP_DecodeBlock. rewrite ztake_all by lia. rewrite trim_left_spaces by done.
  destruct (decide (src = [])) as [->|Hs].
  - cbn [b64 app]. destruct (trim_left_suffix right_ws) as (ws & Hws).
    assert (Hsp : Forall (fun c => is_space c = true) (trim_left right_ws))
      by (rewrite Hws in Hright; by apply Forall_app in Hright as [_ ?]).
    cbv zeta. pose proof (trim_right_spec [] _ (length (trim_left right_ws)) ltac:(constructor) Hsp ltac:(done)) as Hr.
    cbn [app] in Hr. rewrite Hr. done.
  - rewrite trim_left_b64 by done. cbv zeta.
    rewrite (trim_right_spec (b64 src) right_ws)
      by (done || (by apply b64_no_space) || (rewrite length_app; lia)).
    unfold EVP_DecodedLength, INT_MAX. assert (Hmod : (zlen (b64 src) mod 4 =? 0) = true) by lia.
    rewrite Hmod. cbn [negb]. case_if; [lia|].
    rewrite EVP_DecodeBase64_spec by (done || lia). f_equal. apply pad_zeros_spec. lia.
Qed.

(** Five bytes in two groups, and spaces around the text. *)
Lemma EVP_EncodeBlock_rfc_witness :
  EVP_EncodeBlock [104; 101; 108; 108; 111] 5 = ([97; 71; 86; 115; 98; 71; 56; 61; 0], 8).
Proof.
  apply (EVP_EncodeBlock_rfc [104; 101; 108; 108; 111]); [repeat constructor; lia|done].
Defined.

Lemma EVP_EncodeBlock_decode_witness :
  EVP_DecodeBlock [0x20; 97; 71; 86; 115; 98; 71; 56; 61; 0x0a] 10 = Some [104; 101; 108; 108; 111; 0].
Proof.
  apply (EVP_EncodeBlock_decode [104; 101; 108; 108; 111] [0x20] [0x0a] 6).
  - repeat constructor; lia.
  - done.
  - constructor; [by left|constructor].
  - by constructor.
  - done.
Defined.

(** C31. Round trip of the streaming functions, for any way to cut the message into
    encoder updates and the text into decoder updates: the encoder's outputs, each
    of the length it reports, are the lines of 64 characters of the message; and
    the decoder, given any text whose characters other than spaces are the
    encoding (such as those lines), writes the message and reports success. *)
Theorem EVP_stream_roundtrip inputs texts :
  Forall encodable inputs -> zlen (concat inputs) <= INT_MAX ->
  dense (concat texts) = b64 (concat inputs) ->
  (exists outs, encode_stream EVP_EncodeInit inputs = Some outs /\
     Forall (fun o => zlen o.1 = o.2) outs /\
     concat (map fst outs) = encoded_lines (concat inputs) /\
     dense (concat (map fst outs)) = b64 (concat inputs)) /\
  (exists ctx, decode_stream EVP_DecodeInit texts = Some (concat inputs, ctx) /\
     EVP_DecodeFinal ctx = (1, 0)).
Proof.
  intros Hin Hlen Htext.
  assert (Hok : bytes_ok (concat inputs)).
  { clear -Hin. induction Hin as [|i l [Hi _] _ IH]; [constructor|]. by apply bytes_ok_app. }
  split.
  - destruct (encode_stream_spec EVP_EncodeInit [] inputs) as (outs & Hs & Hf & Hc); [|constructor|done|].
    { exists (zrepeat 48 0). by split_and!. }
    exists outs. cbn [app] in Hc. split_and!; try done. by rewrite Hc, dense_lines.
  - apply decode_stream_spec; [done|done|]. rewrite Htext. apply decoding_init.
Qed.

(** Four bytes in three updates; the text comes back in pieces that cut the quads. *)
Lemma EVP_stream_roundtrip_witness :
  exists ctx, decode_stream EVP_DecodeInit [[65; 81]; [10; 73; 68]; [66; 65; 13; 61; 61]] =
    Some ([1; 2; 3; 4], ctx) /\ EVP_DecodeFinal ctx = (1, 0).
Proof.
  apply (EVP_stream_roundtrip [[1; 2]; []; [3; 4]] [[65; 81]; [10; 73; 68]; [66; 65; 13; 61; 61]]).
  - repeat constructor; try lia; unfold INT_MAX; cbn; lia.
  - done.
  - reflexivity.
Defined.

(** An error is sticky: once an update has reported one, every later update and
    the final call report it, and nothing more is written. *)
Theorem EVP_Decode_error_sticky ctx inp ret n out ctx' inp' :
  EVP_DecodeUpdate ctx inp (zlen inp) = Some (ret, n, out, ctx') -> ret < 0 ->
  ret = -1 /\ n = 0 /\ EVP_DecodeUpdate ctx' inp' (zlen inp') = Some (-1, 0, [], ctx') /\
  EVP_DecodeFinal ctx' = (-1, 0).
Proof.
  assert (Hloop : forall i c o o' c', DecodeUpdate_loop c o i = Some (false, o', c') -> error_encountered c' = true).
  { induction i as [|x i IH]; intros c o o' c'; cbn [DecodeUpdate_loop]; [done|].
    case_if; [apply IH|]. case_if; [by intros [= <- <-]|]. case_if; [done|].
    case_if; [|apply IH]. destruct base64_decode_quad; [apply IH|by intros [= <- <-]]. }
  intros H Hret.
  assert (Herr : ret = -1 /\ n = 0 /\ error_encountered ctx' = true).
  { unfold EVP_DecodeUpdate in H. destruct (error_encountered ctx) eqn:Hc; [by simplify_eq|].
    destruct (DecodeUpdate_loop ctx [] _) as [[[b o] c]|] eqn:Hl; [|done].
    destruct b; [|apply Hloop in Hl; by simplify_eq].
    repeat case_if_in H; simplify_eq; try lia. done. }
  destruct Herr as (-> & -> & Herr). split_and!; try done.
  - unfold EVP_DecodeUpdate. by rewrite Herr.
  - unfold EVP_DecodeFinal. by rewrite Herr.
Qed.

(** A character outside the alphabet. *)
Lemma EVP_Decode_error_sticky_witness :
  let ctx' := mk_CTX 0 (zrepeat 48 0) false true in
  EVP_DecodeUpdate EVP_DecodeInit [42] 1 = Some (-1, 0, [], ctx') /\
  EVP_DecodeUpdate ctx' [65] 1 = Some (-1, 0, [], ctx').
Proof.
  intros ctx'. split; [done|].
  apply (EVP_Decode_error_sticky EVP_DecodeInit [42] (-1) 0 [] ctx' [65]); done.
Defined.

(** [EVP_DecodeBase64] accepts spaces and tabs as if they were characters of
    the alphabet: the table gives them a value that is not 0xff, the value it
    documents for invalid characters, so a quad that starts with one decodes to a
    byte with its top bit set instead of failing, and two texts that differ in the
    space only decode to the same bytes. *)
Theorem EVP_DecodeBase64_accepts_spaces :
  base64_ascii_to_bin 0x20 = 0xe0 /\ base64_ascii_to_bin 0x09 = 0xe0 /\
  EVP_DecodeBase64 3 [0x20; 65; 65; 65] 4 = Some [0x80; 0; 0] /\
  EVP_DecodeBase64 3 [0x09; 65; 65; 65] 4 = Some [0x80; 0; 0] /\
  (forall src, zlen src = 3 -> bytes_ok src -> b64 src <> [0x20; 65; 65; 65]).
Proof.
  split_and!; try done. intros src Hl Hok Heq.
  pose proof (b64_no_space src Hok) as Hsp. rewrite Heq in Hsp. apply Forall_cons_iff in Hsp as [H _]. done.
Qed.
