(* ===== verification/Stack.v ===== *)
(** Stacks of pointers: crypto/stack/stack.c, against a list. Pointers are integers,
    0 is NULL; what they point to only matters to the comparison function. *)

From Stdlib Require Import ZArith Lia.
From stdpp Require Import base list option sorting.
From S2P Require Import Prelude.

(** * The parts of the C library the stack calls *)

(** [qsort] and [bsearch] as the C standard describes them, for a comparison
    function that is a total preorder: the result is a permutation in ascending
    order, and a search of an array in ascending order gives the index of a match,
    if there is one. Equal elements end up in any order. *)
Definition comparison_ok (f : Z -> Z -> Z) : Prop :=
  (forall x y, f x y <= 0 <-> 0 <= f y x) /\ (forall x y z, f x y <= 0 -> f y z <= 0 -> f x z <= 0).

Definition ascending (f : Z -> Z -> Z) : list Z -> Prop := StronglySorted (fun x y => f x y <= 0).

Class StdSort := {
  qsort : (Z -> Z -> Z) -> list Z -> list Z;
  bsearch : (Z -> Z -> Z) -> Z -> list Z -> option Z;
  qsort_perm : forall f l, Permutation (qsort f l) l;
  qsort_ascending : forall f l, comparison_ok f -> ascending f (qsort f l);
  bsearch_match : forall f p l i, comparison_ok f -> ascending f l -> bsearch f p l = Some i ->
    0 <= i < zlen l /\ f p (zget l i) = 0;
  bsearch_none : forall f p l, comparison_ok f -> ascending f l -> bsearch f p l = None ->
    Forall (fun x => f p x <> 0) l
}.

(** [malloc] and [realloc] for arrays of pointers, 8 bytes each: the contents of a
    new block are arbitrary. *)
Abbreviation allocator := (Z -> option (list Z)).

Definition alloc_ok (malloc : allocator) : Prop :=
  forall n b, malloc n = Some b -> zlen b = n / 8.

Definition realloc (malloc : allocator) (old : list Z) (n : Z) : option (list Z) :=
  match malloc n with
  | None => None
  | Some b => Some (ztake (n / 8) old ++ zdrop (zlen old) b)
  end.

Definition NULL := 0.

(** A comparison function is known by its address. *)
Abbreviation cmp_ptr := (option positive).

Record STACK := mk_STACK {
  num : Z;
  data : list Z;
  sorted : bool;
  num_alloc : Z;
  comp : cmp_ptr
}.

Definition set_data (sk : STACK) (x : list Z) : STACK :=
  mk_STACK (num sk) x (sorted sk) (num_alloc sk) (comp sk).
Definition set_num (sk : STACK) (n : Z) : STACK :=
  mk_STACK n (data sk) (sorted sk) (num_alloc sk) (comp sk).

Section Stack.
  Context {S : StdSort}.
  Variable malloc : allocator.
  Variable comp_of : positive -> Z -> Z -> Z.

Definition kMinSize := 4.

(** * Operations *)

(** [malloc_ok] says whether the allocation of the structure succeeds. *)
Definition sk_new (malloc_ok : bool) (comp : cmp_ptr) : option STACK :=
  if negb malloc_ok then None
  else
    match malloc (8 * kMinSize) with
    | None => None
    | Some _ => Some (mk_STACK 0 (zrepeat kMinSize 0) false kMinSize comp)
    end.

Definition sk_new_null (malloc_ok : bool) : option STACK := sk_new malloc_ok None.

Definition sk_num (sk : option STACK) : Z :=
  match sk with
  | None => 0
  | Some sk => num sk
  end.

Definition sk_zero (sk : STACK) : STACK :=
  if num sk =? 0 then sk
  else mk_STACK 0 (zsplice (data sk) 0 (zrepeat (num sk) 0)) false (num_alloc sk) (comp sk).

Definition sk_value (sk : option STACK) (i : Z) : Z :=
  match sk with
  | None => NULL
  | Some sk => if i >=? num sk then NULL else zget (data sk) i
  end.

Definition sk_set (sk : STACK) (i value : Z) : Z * STACK :=
  if i >=? num sk then (NULL, sk)
  else (value, set_data sk (zsplice (data sk) i [value])).

(** The pointers passed to [func], in order. *)
Definition sk_pop_free (sk : option STACK) : list Z :=
  match sk with
  | None => []
  | Some sk => List.filter (fun p => negb (p =? NULL)) (ztake (num sk) (data sk))
  end.

(** The test on a new size: did it, or the size of the array in bytes, overflow? *)
Definition overflows (num_alloc new_alloc : Z) : bool :=
  (new_alloc <? num_alloc) || negb (u64 (new_alloc * 8) / 8 =? new_alloc).

(** The size of the new allocation, in pointers: doubled, or one more if the
    doubling overflows; [None] if that does too. *)
Definition grow (num_alloc : Z) : option Z :=
  let new_alloc := u64 (Z.shiftl num_alloc 1) in
  let new_alloc := if overflows num_alloc new_alloc then u64 (num_alloc + 1) else new_alloc in
  if overflows num_alloc new_alloc then None else Some new_alloc.

Definition sk_insert (sk : STACK) (p where_ : Z) : Z * STACK :=
  let room :=
    if num_alloc sk <=? u64 (num sk + 1) then
      match grow (num_alloc sk) with
      | None => None
      | Some new_alloc =>
          match realloc malloc (data sk) (u64 (new_alloc * 8)) with
          | None => None
          | Some d => Some (mk_STACK (num sk) d (sorted sk) new_alloc (comp sk))
          end
      end
    else Some sk in
  match room with
  | None => (0, sk)
  | Some sk =>
      let d :=
        if where_ >=? num sk then zsplice (data sk) (num sk) [p]
        else
          let d := zsplice (data sk) (where_ + 1)
                     (ztake (num sk - where_) (zdrop where_ (data sk))) in
          zsplice d where_ [p] in
      let n := u64 (num sk + 1) in
      (n, mk_STACK n d false (num_alloc sk) (comp sk))
  end.

Definition sk_delete (sk : STACK) (where_ : Z) : Z * STACK :=
  if where_ >=? num sk then (NULL, sk)
  else
    let ret := zget (data sk) where_ in
    let d :=
      if negb (where_ =? num sk - 1) then
        zsplice (data sk) where_ (ztake (num sk - where_ - 1) (zdrop (where_ + 1) (data sk)))
      else data sk in
    (ret, set_num (set_data sk d) (num sk - 1)).

(** The loop that looks for a pointer from index [i]. *)
Fixpoint find_ptr (fuel : nat) (sk : STACK) (p i : Z) : option Z :=
  match fuel with
  | O => None
  | Datatypes.S fuel =>
      if i <? num sk then
        if zget (data sk) i =? p then Some i else find_ptr fuel sk p (i + 1)
      else None
  end.

Definition sk_delete_ptr (sk : STACK) (p : Z) : Z * STACK :=
  match find_ptr (Z.to_nat (num sk)) sk p 0 with
  | Some i => sk_delete sk i
  | None => (NULL, sk)
  end.

Definition sk_sort (sk : STACK) : STACK :=
  match comp sk with
  | None => sk
  | Some c =>
      if sorted sk then sk
      else
        let d := zsplice (data sk) 0 (qsort (comp_of c) (ztake (num sk) (data sk))) in
        mk_STACK (num sk) d true (num_alloc sk) (comp sk)
  end.

(** [while (idx > 0 && comp(p, data[idx - 1]) == 0) idx--]. *)
Fixpoint first_match (f : Z -> Z -> Z) (d : list Z) (p : Z) (idx : nat) : Z :=
  match idx with
  | O => 0
  | Datatypes.S i => if f p (zget d (Z.of_nat i)) =? 0 then first_match f d p i else Z.of_nat idx
  end.

(** [Some] index for the return value 1; the search may sort the stack. *)
Definition sk_find (sk : STACK) (p : Z) : option Z * STACK :=
  match comp sk with
  | None => (find_ptr (Z.to_nat (num sk)) sk p 0, sk)
  | Some c =>
      if p =? NULL then (None, sk)
      else
        let sk := sk_sort sk in
        match bsearch (comp_of c) p (ztake (num sk) (data sk)) with
        | None => (None, sk)
        | Some idx => (Some (first_match (comp_of c) (data sk) p (Z.to_nat idx)), sk)
        end
  end.

Definition sk_shift (sk : STACK) : Z * STACK :=
  if num sk =? 0 then (NULL, sk) else sk_delete sk 0.

Definition sk_push (sk : STACK) (p : Z) : Z * STACK := sk_insert sk p (num sk).

Definition sk_pop (sk : STACK) : Z * STACK :=
  if num sk =? 0 then (NULL, sk) else sk_delete sk (num sk - 1).

Definition sk_dup (malloc_ok : bool) (sk : STACK) : option STACK :=
  match sk_new malloc_ok (comp sk) with
  | None => None
  | Some ret =>
      match realloc malloc (data ret) (u64 (8 * num_alloc sk)) with
      | None => None
      | Some s =>
          Some (mk_STACK (num sk) (zsplice s 0 (ztake (num sk) (data sk))) (sorted sk)
                  (num_alloc sk) (comp sk))
      end
  end.

Definition sk_is_sorted (sk : option STACK) : bool :=
  match sk with
  | None => true
  | Some sk => sorted sk
  end.

Definition sk_set_cmp_func (sk : STACK) (c : cmp_ptr) : cmp_ptr * STACK :=
  let old := comp sk in
  let sorted := if bool_decide (comp sk = c) then sorted sk else false in
  (old, mk_STACK (num sk) (data sk) sorted (num_alloc sk) c).

(** The loop over the copies from index [i]; [None] when a copy fails, with the
    pointers passed to [free_func]. *)
Fixpoint deep_copy_loop (fuel : nat) (copy_func : Z -> Z) (ret : STACK) (i : Z) :
    option STACK * list Z :=
  match fuel with
  | O => (Some ret, [])
  | Datatypes.S fuel =>
      if i <? num ret then
        if zget (data ret) i =? NULL then deep_copy_loop fuel copy_func ret (i + 1)
        else
          let ret := set_data ret (zsplice (data ret) i [copy_func (zget (data ret) i)]) in
          if zget (data ret) i =? NULL then
            (None, List.filter (fun p => negb (p =? NULL)) (ztake i (data ret)))
          else deep_copy_loop fuel copy_func ret (i + 1)
      else (Some ret, [])
  end.

Definition sk_deep_copy (malloc_ok : bool) (sk : STACK) (copy_func : Z -> Z) :
    option STACK * list Z :=
  match sk_dup malloc_ok sk with
  | None => (None, [])
  | Some ret => deep_copy_loop (Z.to_nat (num ret)) copy_func ret 0
  end.

(** * The specification: a list *)

Definition elems (sk : STACK) : list Z := ztake (num sk) (data sk).

(** There is always room for one more pointer than the stack holds. *)
Definition wf (sk : STACK) : Prop :=
  0 <= num sk < num_alloc sk /\ zlen (data sk) = num_alloc sk /\ num_alloc sk < 2 ^ 61.

(** Where an insertion puts its pointer. *)
Definition insert_at (l : list Z) (w p : Z) : list Z := ztake w l ++ p :: zdrop w l.

Definition remove_at (l : list Z) (w : Z) : list Z := ztake w l ++ zdrop (w + 1) l.

(** The flag is honest: it is only set on a stack in ascending order. *)
Definition flag_ok (sk : STACK) : Prop :=
  sorted sk = true -> exists c, comp sk = Some c /\ ascending (comp_of c) (elems sk).

(** What copying an element gives: NULL elements are not copied. *)
Definition copied (copy_func : Z -> Z) (p : Z) : Z := if p =? NULL then NULL else copy_func p.

Definition copy_fails (copy_func : Z -> Z) (p : Z) : Prop := p <> NULL /\ copy_func p = NULL.

Definition non_null (l : list Z) : list Z := List.filter (fun p => negb (p =? NULL)) l.

(** After [Dup] and [DeepCopy] the copy, if there is one, takes the place of the stack. *)
Inductive op :=
  Insert (p w : Z) | Delete (w : Z) | DeletePtr (p : Z) | Shift | Pop | Set_ (i p : Z) | Zero | Value (i : Z)
| Num | Sort | Find (p : Z) | IsSorted | SetCmp (c : cmp_ptr) | Dup (malloc_ok : bool)
| DeepCopy (malloc_ok : bool) (copy_func : Z -> Z).

Definition cmp_value (c : cmp_ptr) : Z := match c with None => NULL | Some c => Zpos c end.

(** The return value, and what is stored through a pointer argument or passed to
    [free_func]. *)
Definition run_op (o : op) (sk : STACK) : list Z * STACK :=
  let one '(r, sk) := ([r], sk) in
  match o with
  | Insert p w => one (sk_insert sk p w)
  | Delete w => one (sk_delete sk w)
  | DeletePtr p => one (sk_delete_ptr sk p)
  | Shift => one (sk_shift sk)
  | Pop => one (sk_pop sk)
  | Set_ i p => one (sk_set sk i p)
  | Zero => ([], sk_zero sk)
  | Value i => ([sk_value (Some sk) i], sk)
  | Num => ([sk_num (Some sk)], sk)
  | Sort => ([], sk_sort sk)
  | Find p => match sk_find sk p with
              | (Some i, sk) => ([1; i], sk)
              | (None, sk) => ([0], sk)
              end
  | IsSorted => ([Z.b2z (sk_is_sorted (Some sk))], sk)
  | SetCmp c => let '(old, sk) := sk_set_cmp_func sk c in ([cmp_value old], sk)
  | Dup malloc_ok => match sk_dup malloc_ok sk with
                     | Some ret => ([1], ret)
                     | None => ([0], sk)
                     end
  | DeepCopy malloc_ok copy_func => match sk_deep_copy malloc_ok sk copy_func with
                                    | (Some ret, freed) => (1 :: freed, ret)
                                    | (None, freed) => (0 :: freed, sk)
                                    end
  end.

(** The abstract state: the pointers, whether they are known to be in order, how many the
    array has room for, and the comparison function. *)
Record spec_state := mk_spec { ptrs : list Z; flag : bool; room : Z; cmp : cmp_ptr }.

Definition view (sk : STACK) : spec_state := mk_spec (elems sk) (sorted sk) (num_alloc sk) (comp sk).

Definition with_ptrs (s : spec_state) (l : list Z) : spec_state := mk_spec l (flag s) (room s) (cmp s).

(** The array grows to twice its size, or by one when that is too much. *)
Definition next_room (n : Z) : Z := if 2 * n <? 2 ^ 61 then 2 * n else n + 1.

Definition new_room (s : spec_state) : Z :=
  if zlen (ptrs s) + 1 <? room s then room s else next_room (room s).

(** There is room, or the larger array has a size in bytes below 2^64 and is allocated. *)
Definition can_insert (s : spec_state) : bool :=
  (zlen (ptrs s) + 1 <? room s) ||
  ((next_room (room s) <? 2 ^ 61) && bool_decide (is_Some (malloc (8 * next_room (room s))))).

Definition can_dup (malloc_ok : bool) (s : spec_state) : bool :=
  malloc_ok && bool_decide (is_Some (malloc (8 * kMinSize))) && bool_decide (is_Some (malloc (8 * room s))).

(** Sorting does nothing without a comparison function or when the pointers are known to
    be in order; otherwise they end up in ascending order. *)
Inductive sorts_to (s : spec_state) : spec_state -> Prop :=
  | sorts_idle : cmp s = None \/ flag s = true -> sorts_to s s
  | sorts c l : cmp s = Some c -> flag s = false -> Permutation l (ptrs s) ->
      (comparison_ok (comp_of c) -> ascending (comp_of c) l) ->
      sorts_to s (mk_spec l true (room s) (cmp s)).

(** The first of the pointers that compare equal, or none. *)
Definition found (f : Z -> Z -> Z) (p : Z) (l : list Z) (r : list Z) : Prop :=
  (r = [0] /\ Forall (fun x => f p x <> 0) l) \/
  exists i, r = [1; i] /\ 0 <= i < zlen l /\ f p (zget l i) = 0 /\ forall j, 0 <= j < i -> f p (zget l j) <> 0.

(** An operation takes the state [s] to [s'] and gives [r]. *)
Inductive spec_op : op -> spec_state -> list Z -> spec_state -> Prop :=
  | spec_insert p w s : can_insert s = true ->
      spec_op (Insert p w) s [zlen (ptrs s) + 1] (mk_spec (insert_at (ptrs s) w p) false (new_room s) (cmp s))
  | spec_insert_fails p w s : can_insert s = false -> spec_op (Insert p w) s [0] s
  | spec_delete w s : w < zlen (ptrs s) ->
      spec_op (Delete w) s [zget (ptrs s) w] (with_ptrs s (remove_at (ptrs s) w))
  | spec_delete_out w s : zlen (ptrs s) <= w -> spec_op (Delete w) s [NULL] s
  | spec_delete_ptr p s l1 l2 : ptrs s = l1 ++ p :: l2 -> ~ In p l1 ->
      spec_op (DeletePtr p) s [p] (with_ptrs s (l1 ++ l2))
  | spec_delete_ptr_none p s : ~ In p (ptrs s) -> spec_op (DeletePtr p) s [NULL] s
  | spec_shift p s l : ptrs s = p :: l -> spec_op Shift s [p] (with_ptrs s l)
  | spec_shift_empty s : ptrs s = [] -> spec_op Shift s [NULL] s
  | spec_pop p s l : ptrs s = l ++ [p] -> spec_op Pop s [p] (with_ptrs s l)
  | spec_pop_empty s : ptrs s = [] -> spec_op Pop s [NULL] s
  | spec_set i p s : i < zlen (ptrs s) -> spec_op (Set_ i p) s [p] (with_ptrs s (<[Z.to_nat i := p]> (ptrs s)))
  | spec_set_out i p s : zlen (ptrs s) <= i -> spec_op (Set_ i p) s [NULL] s
  | spec_zero s : ptrs s <> [] -> spec_op Zero s [] (mk_spec [] false (room s) (cmp s))
  | spec_zero_empty s : ptrs s = [] -> spec_op Zero s [] s
  | spec_value i s : spec_op (Value i) s [zget (ptrs s) i] s
  | spec_num s : spec_op Num s [zlen (ptrs s)] s
  | spec_sort s s' : sorts_to s s' -> spec_op Sort s [] s'
  | spec_find_ptr p s l1 l2 : cmp s = None -> ptrs s = l1 ++ p :: l2 -> ~ In p l1 ->
      spec_op (Find p) s [1; zlen l1] s
  | spec_find_ptr_none p s : cmp s = None -> ~ In p (ptrs s) -> spec_op (Find p) s [0] s
  | spec_find_null s c : cmp s = Some c -> spec_op (Find NULL) s [0] s
  | spec_find p s c r s' : cmp s = Some c -> p <> NULL -> sorts_to s s' ->
      (comparison_ok (comp_of c) -> ascending (comp_of c) (ptrs s') -> found (comp_of c) p (ptrs s') r) ->
      spec_op (Find p) s r s'
  | spec_is_sorted s : spec_op IsSorted s [Z.b2z (flag s)] s
  | spec_set_cmp c s : spec_op (SetCmp c) s [cmp_value (cmp s)]
      (mk_spec (ptrs s) (flag s && bool_decide (cmp s = c)) (room s) c)
  | spec_dup malloc_ok s : spec_op (Dup malloc_ok) s [Z.b2z (can_dup malloc_ok s)] s
  | spec_deep_copy malloc_ok f s : can_dup malloc_ok s = true -> Forall (fun p => ~ copy_fails f p) (ptrs s) ->
      spec_op (DeepCopy malloc_ok f) s [1] (with_ptrs s (map (copied f) (ptrs s)))
  | spec_deep_copy_alloc malloc_ok f s : can_dup malloc_ok s = false -> spec_op (DeepCopy malloc_ok f) s [0] s
  | spec_deep_copy_fails malloc_ok f s l1 p l2 : can_dup malloc_ok s = true -> ptrs s = l1 ++ p :: l2 ->
      copy_fails f p -> Forall (fun p => ~ copy_fails f p) l1 ->
      spec_op (DeepCopy malloc_ok f) s (0 :: non_null (map (copied f) l1)) s.

Fixpoint run (ops : list op) (sk : STACK) : list (list Z) * STACK :=
  match ops with
  | [] => ([], sk)
  | o :: ops => let '(r, sk) := run_op o sk in
                let '(rs, sk) := run ops sk in (r :: rs, sk)
  end.

Inductive spec_run : list op -> spec_state -> list (list Z) -> spec_state -> Prop :=
  | spec_run_nil s : spec_run [] s [] s
  | spec_run_cons o ops s r s' rs s'' :
      spec_op o s r s' -> spec_run ops s' rs s'' -> spec_run (o :: ops) s (r :: rs) s''.

(** Indices are size_t's. *)
Definition op_ok (o : op) : Prop :=
  match o with
  | Insert _ w | Delete w => 0 <= w
  | Set_ i _ | Value i => 0 <= i
  | _ => True
  end.

(** * Lemmas: the operations *)

Hypothesis malloc_spec : alloc_ok malloc.

Lemma wf_elems sk : wf sk -> zlen (elems sk) = num sk.
Proof. intros (H1 & H2 & H3). unfold elems. zlia. Qed.

(** The array of a well-formed stack: the elements, a free slot and a rest. *)
Lemma wf_split sk : wf sk -> exists x z, data sk = elems sk ++ x :: z.
Proof.
  intros (H1 & H2 & H3). unfold elems.
  destruct (zdrop (num sk) (data sk)) as [|x z] eqn:E.
  - apply (f_equal (@length Z)) in E. rewrite length_zdrop in E. cbn in E. lia.
  - exists x, z. rewrite <- E. by rewrite ztake_zdrop.
Qed.

Lemma overflows_spec n m : n <= m -> is_u 64 m -> overflows n m = (2 ^ 61 <=? m).
Proof.
  intros Hn [H0 H1]. unfold overflows. rewrite (proj2 (Z.ltb_ge m n)) by lia. cbn [orb].
  rewrite u64_mod. change (2 ^ 61) with 2305843009213693952. change (2 ^ 64) with 18446744073709551616 in H1.
  destruct (Z.leb_spec 2305843009213693952 m).
  - apply negb_true_iff, Z.eqb_neq. pose proof (Z.mod_pos_bound (m * 8) 18446744073709551616 ltac:(lia)).
    pose proof (Z.div_lt_upper_bound ((m * 8) mod 18446744073709551616) 8 2305843009213693952). lia.
  - rewrite Z.mod_small, Z.div_mul, Z.eqb_refl by lia. done.
Qed.

Lemma grow_spec n : 1 <= n < 2 ^ 61 ->
  n < next_room n /\ grow n = if next_room n <? 2 ^ 61 then Some (next_room n) else None.
Proof.
  intros Hn. unfold grow, next_room. rewrite Z.shiftl_mul_pow2 by lia. change (2 ^ 1) with 2.
  rewrite (u64_small (n * 2)), (u64_small (n + 1)), (Z.mul_comm n 2) by (split; lia).
  rewrite (overflows_spec n (2 * n)) by (split || lia; lia).
  destruct (Z.leb_spec (2 ^ 61) (2 * n)) as [H|H].
  - rewrite (proj2 (Z.ltb_ge (2 * n) (2 ^ 61))) by lia. rewrite overflows_spec by (split || lia; lia).
    split; [lia|]. rewrite Z.ltb_antisym. by destruct (2 ^ 61 <=? n + 1).
  - rewrite (proj2 (Z.ltb_lt (2 * n) (2 ^ 61))) by lia. rewrite overflows_spec by (split || lia; lia).
    rewrite (proj2 (Z.leb_gt (2 ^ 61) (2 * n))), (proj2 (Z.ltb_lt (2 * n) (2 ^ 61))) by lia. split; [lia|done].
Qed.

(** The array with the first [k] elements shown. *)
Lemma wf_split_at sk l1 l2 : wf sk -> elems sk = l1 ++ l2 ->
  exists x z, data sk = l1 ++ l2 ++ x :: z.
Proof.
  intros Hwf He. destruct (wf_split sk Hwf) as (x & z & Hd). exists x, z. by rewrite Hd, He, <- app_assoc.
Qed.

(** A stack given by its array. *)
Lemma elems_mk l z s na c n : n = zlen l -> elems (mk_STACK n (l ++ z) s na c) = l.
Proof. intros ->. unfold elems. cbn [num data]. by apply ztake_app. Qed.

(** Insertion once there is room. *)
Definition insert_in (sk : STACK) (p w : Z) : Z * STACK :=
  let d :=
    if w >=? num sk then zsplice (data sk) (num sk) [p]
    else
      let d := zsplice (data sk) (w + 1) (ztake (num sk - w) (zdrop w (data sk))) in
      zsplice d w [p] in
  let n := u64 (num sk + 1) in
  (n, mk_STACK n d false (num_alloc sk) (comp sk)).

Lemma insert_in_spec sk p w : wf sk -> num sk + 1 < num_alloc sk -> 0 <= w ->
  exists sk', insert_in sk p w = (num sk + 1, sk') /\ wf sk' /\
    view sk' = mk_spec (insert_at (elems sk) w p) false (num_alloc sk) (comp sk).
Proof.
  intros Hwf Hroom Hw. pose proof (wf_elems sk Hwf) as Hn. pose proof Hwf as (H1 & H2 & H3).
  unfold insert_in. rewrite u64_small by (split; lia). eexists. split; [reflexivity|].
  destruct (Z.geb_spec w (num sk)).
  - destruct (wf_split sk Hwf) as (x & z & Hd).
    assert (Hs : zsplice (data sk) (num sk) [p] = (elems sk ++ [p]) ++ z).
    { rewrite Hd. change (x :: z) with ([x] ++ z). rewrite zsplice_app by done. by rewrite app_assoc. }
    rewrite Hs. split.
    + unfold wf. cbn [num data num_alloc]. rewrite Hd in H2. zlia.
    + unfold view. rewrite elems_mk by zlia. unfold insert_at. by rewrite ztake_all, zdrop_all by lia.
  - destruct (zsplit w (elems sk)) as (l1 & l2 & Hl & Hl1); [lia|].
    destruct (wf_split_at sk l1 l2 Hwf Hl) as (x & z & Hd).
    assert (Hl2 : zlen l2 = num sk - w) by (rewrite Hl in Hn; zlia).
    rewrite Hd in *. rewrite zdrop_app, ztake_app by done.
    destruct l2 as [|y l2]; [cbn in Hl2; lia|].
    assert (Hm : exists t, zsplice (l1 ++ (y :: l2) ++ x :: z) (w + 1) (y :: l2) = (l1 ++ [t]) ++ (y :: l2) ++ z).
    { exists y. replace (l1 ++ (y :: l2) ++ x :: z) with ((l1 ++ [y]) ++ (l2 ++ [x]) ++ z)
        by (rewrite <- !app_assoc; done).
      by rewrite zsplice_app by zlia. }
    destruct Hm as (t & ->). rewrite <- app_assoc, (zsplice_app l1 [t] ((y :: l2) ++ z) [p]) by done.
    replace (l1 ++ [p] ++ (y :: l2) ++ z) with ((l1 ++ p :: y :: l2) ++ z) by (rewrite <- app_assoc; done).
    split.
    + unfold wf. cbn [num data num_alloc]. zlia.
    + unfold view. rewrite elems_mk by zlia. rewrite Hl. unfold insert_at. by rewrite ztake_app, zdrop_app by done.
Qed.

Lemma sk_insert_spec sk p w : wf sk -> 0 <= w ->
  if can_insert (view sk) then
    exists sk', sk_insert sk p w = (num sk + 1, sk') /\ wf sk' /\
      view sk' = mk_spec (insert_at (elems sk) w p) false (new_room (view sk)) (comp sk)
  else sk_insert sk p w = (0, sk).
Proof.
  intros Hwf Hw. pose proof (wf_elems sk Hwf) as Hn. pose proof Hwf as (H1 & H2 & H3).
  unfold can_insert, new_room, sk_insert, view. cbn [ptrs room]. rewrite Hn.
  rewrite (u64_small (num sk + 1)) by (split; lia). fold (insert_in sk p w). rewrite Z.ltb_antisym.
  destruct (Z.leb_spec (num_alloc sk) (num sk + 1)); cbn [negb orb].
  - destruct (grow_spec (num_alloc sk) ltac:(lia)) as [Hgt Hg]. set (m := next_room (num_alloc sk)) in *. rewrite Hg.
    destruct (Z.ltb_spec m (2 ^ 61)); cbn [andb]; [|done].
    unfold realloc. rewrite (Z.mul_comm m 8), (u64_small (8 * m)) by (split; lia). rewrite (Z.mul_comm 8 m), Z.div_mul by lia.
    destruct (malloc (m * 8)) as [b|] eqn:Hb; [|by rewrite bool_decide_eq_false_2 by (by intros [? [=]])].
    rewrite bool_decide_eq_true_2 by (by eexists).
    apply malloc_spec in Hb. rewrite Z.div_mul in Hb by lia. rewrite (ztake_all m) by lia.
    set (sk1 := mk_STACK (num sk) (data sk ++ zdrop (zlen (data sk)) b) (sorted sk) m (comp sk)).
    assert (Hwf1 : wf sk1) by (unfold wf, sk1; cbn [num data num_alloc]; zlia).
    assert (He1 : elems sk1 = elems sk).
    { unfold elems, sk1. cbn [num data]. unfold ztake. rewrite take_app_le by lia. done. }
    assert (Hne : num sk + 1 <> m) by lia.
    destruct (insert_in_spec sk1 p w Hwf1) as (sk' & Hi & Hw' & He); [cbn; lia|done|].
    rewrite He1 in He. by exists sk'.
  - apply insert_in_spec; [done|lia|done].
Qed.

Lemma zdrop_S_app {A} (l1 l2 : list A) x n : zlen l1 = n -> zdrop (n + 1) (l1 ++ x :: l2) = l2.
Proof.
  intros H. change (x :: l2) with ([x] ++ l2). rewrite app_assoc. apply zdrop_app. zlia.
Qed.

(** Deletion in range; the flag and the comparison function stay. *)
Lemma sk_delete_spec sk l1 x l2 : wf sk -> elems sk = l1 ++ x :: l2 ->
  exists sk', sk_delete sk (zlen l1) = (x, sk') /\ wf sk' /\
    view sk' = with_ptrs (view sk) (l1 ++ l2).
Proof.
  intros Hwf He. pose proof (wf_elems sk Hwf) as Hn. rewrite He in Hn. rewrite length_app in Hn.
  cbn [length] in Hn. pose proof Hwf as (H1 & H2 & H3).
  destruct (wf_split_at sk l1 (x :: l2) Hwf He) as (y & z & Hd).
  unfold sk_delete.
  destruct (Z.geb_spec (zlen l1) (num sk)); [lia|]. rewrite Hd in *.
  eexists. split; [f_equal; by rewrite zget_app_r, Z.sub_diag by lia|].
  assert (Hs : exists t, (if negb (zlen l1 =? num sk - 1)
    then zsplice (l1 ++ (x :: l2) ++ y :: z) (zlen l1) (ztake (num sk - zlen l1 - 1) (zdrop (zlen l1 + 1) (l1 ++ (x :: l2) ++ y :: z)))
    else l1 ++ (x :: l2) ++ y :: z) = (l1 ++ l2) ++ t /\ zlen t = zlen (y :: z) + 1).
  { case_if.
    - cbn [app]. rewrite zdrop_S_app, ztake_app by (done || lia).
      destruct l2 as [|x' l2 _] using rev_ind; [cbn in Hn; lia|].
      exists (x' :: y :: z). split; [|cbn [length]; lia].
      replace (l1 ++ x :: (l2 ++ [x']) ++ y :: z) with (l1 ++ (x :: l2) ++ x' :: y :: z)
        by (rewrite <- app_assoc; done).
      rewrite zsplice_app by zlia. by rewrite <- !app_assoc.
    - assert (l2 = []) as -> by (apply zlen_0; lia). exists (x :: y :: z).
      rewrite app_nil_r. split; [done|cbn [length]; lia]. }
  destruct Hs as (t & -> & Ht). cbn [length] in Ht. split_and!; try done.
  - unfold wf. cbn [num data num_alloc set_num set_data]. rewrite !length_app in *. cbn [length] in *. lia.
  - unfold set_num, set_data, view. cbn [sorted num_alloc comp data]. rewrite elems_mk by zlia. done.
Qed.

Lemma zget_elems sk i : 0 <= i < num sk -> zget (data sk) i = zget (elems sk) i.
Proof.
  intros Hi. unfold elems. rewrite <- (ztake_zdrop (num sk) (data sk)) at 1.
  destruct (Z.lt_ge_cases i (zlen (ztake (num sk) (data sk)))); [apply zget_app_l; lia|].
  assert (Hd : zdrop (num sk) (data sk) = []) by (apply zdrop_all; zlia).
  by rewrite Hd, app_nil_r.
Qed.

(** The loop finds the first occurrence. *)
Lemma find_ptr_spec fuel sk p l1 l2 : elems sk = l1 ++ l2 -> num sk = zlen (elems sk) ->
  (length l2 <= fuel)%nat ->
  match find_ptr fuel sk p (zlen l1) with
  | Some i => exists l3 l4, l2 = l3 ++ p :: l4 /\ ~ In p l3 /\ i = zlen (l1 ++ l3)
  | None => ~ In p l2
  end.
Proof.
  intros He Hn. revert l1 l2 He. induction fuel as [|fuel IH]; intros l1 l2 He Hf; cbn [find_ptr].
  { destruct l2; [|cbn in Hf; lia]. auto. }
  rewrite He, length_app in Hn. case_if.
  - destruct l2 as [|x l2]; [cbn in Hn; lia|]. cbn [length] in *.
    rewrite zget_elems, He, zget_app_r, Z.sub_diag by lia. change (zget (x :: l2) 0) with x. case_if.
    + exists [], l2. rewrite app_nil_r. subst x. auto.
    + replace (zlen l1 + 1) with (zlen (l1 ++ [x])) by zlia.
      specialize (IH (l1 ++ [x]) l2). rewrite <- app_assoc in IH. specialize (IH He ltac:(lia)).
      destruct (find_ptr fuel sk p (zlen (l1 ++ [x]))) as [i|].
      * destruct IH as (l3 & l4 & -> & Hni & ->). exists (x :: l3), l4. split_and!; try done.
        -- intros [->|Hin]; auto.
        -- by rewrite <- app_assoc.
      * intros [->|Hin]; auto.
  - assert (l2 = []) as -> by (apply zlen_0; lia). auto.
Qed.

Lemma sk_set_spec sk i p : wf sk -> 0 <= i ->
  exists r sk', sk_set sk i p = (r, sk') /\ wf sk' /\ spec_op (Set_ i p) (view sk) [r] (view sk').
Proof.
  intros Hwf Hi. pose proof (wf_elems sk Hwf) as Hn. pose proof Hwf as (H1 & H2 & H3).
  unfold sk_set. destruct (Z.geb_spec i (num sk)).
  - exists NULL, sk. split_and!; try done. apply spec_set_out. cbn [ptrs view]. lia.
  - destruct (zsplit i (elems sk)) as (l1 & l2 & Hl & Hl1); [lia|].
    destruct l2 as [|x l2]; [rewrite Hl in Hn; zlia|].
    destruct (wf_split_at sk l1 (x :: l2) Hwf Hl) as (y & z & Hd).
    assert (Hs : zsplice (data sk) i [p] = (l1 ++ p :: l2) ++ y :: z).
    { rewrite Hd. change ((x :: l2) ++ y :: z) with ([x] ++ l2 ++ y :: z). rewrite zsplice_app by done.
      by rewrite <- app_assoc. }
    assert (Hlen : zlen (l1 ++ p :: l2) = num sk) by (rewrite Hl in Hn; zlia).
    exists p, (set_data sk (zsplice (data sk) i [p])). split_and!; try done.
    + unfold wf. cbn [num data num_alloc set_data]. rewrite Hs. rewrite Hd in H2. zlia.
    + assert (He : elems (set_data sk (zsplice (data sk) i [p])) = <[Z.to_nat i := p]> (elems sk)).
      { rewrite Hs. unfold elems, set_data. cbn [num data]. rewrite ztake_app by done.
        fold (elems sk). rewrite Hl. rewrite insert_app_r_alt by lia.
        replace (Z.to_nat i - length l1)%nat with 0%nat by lia. done. }
      change (view (set_data sk _)) with (with_ptrs (view sk) (elems (set_data sk (zsplice (data sk) i [p])))).
      rewrite He. apply spec_set. cbn [ptrs view]. lia.
Qed.

Lemma sk_zero_spec sk : wf sk -> wf (sk_zero sk) /\ spec_op Zero (view sk) [] (view (sk_zero sk)).
Proof.
  intros Hwf. pose proof (wf_elems sk Hwf) as Hn. pose proof Hwf as (H1 & H2 & H3). unfold sk_zero. case_if.
  - split; [done|]. apply spec_zero_empty. apply zlen_0. cbn [ptrs view]. lia.
  - split.
    + unfold wf. cbn [num data num_alloc]. rewrite length_zsplice by (rewrite ?length_zrepeat; lia). lia.
    + unfold view at 2. unfold elems. cbn [num data sorted num_alloc comp]. rewrite ztake_0 by lia.
      apply (spec_zero (view sk)). cbn [ptrs view]. intros Hz. rewrite Hz in Hn. done.
Qed.

Lemma sk_sort_spec sk : wf sk -> wf (sk_sort sk) /\ sorts_to (view sk) (view (sk_sort sk)).
Proof.
  intros Hwf. pose proof (wf_elems sk Hwf) as Hn. unfold sk_sort.
  destruct (comp sk) as [c|] eqn:Hc; [|by split; [|apply sorts_idle; left]].
  destruct (sorted sk) eqn:Hs; [by split; [|apply sorts_idle; right]|].
  pose proof (qsort_perm (comp_of c) (ztake (num sk) (data sk))) as Hp.
  pose proof (qsort_ascending (comp_of c) (ztake (num sk) (data sk))) as Ha.
  set (q := qsort _ _) in *. fold (elems sk) in Hp. pose proof (Permutation_length Hp) as Hl.
  destruct (wf_split sk Hwf) as (x & z & Hd).
  assert (Hsp : zsplice (data sk) 0 q = q ++ x :: z).
  { rewrite Hd. apply (zsplice_app [] (elems sk) (x :: z) q 0 eq_refl). lia. }
  rewrite Hsp. destruct Hwf as (H1 & H2 & H3). split.
  - unfold wf. cbn [num data num_alloc]. rewrite Hd in H2. zlia.
  - unfold view at 2. rewrite elems_mk by lia. cbn [sorted num_alloc comp]. rewrite <- Hc.
    by apply (sorts (view sk) c).
Qed.

(** What sorting keeps. *)
Lemma sk_sort_keeps sk : wf sk -> Permutation (elems (sk_sort sk)) (elems sk) /\ comp (sk_sort sk) = comp sk.
Proof.
  intros Hwf. destruct (sk_sort_spec sk Hwf) as [_ H].
  assert (Hg : forall s s', sorts_to s s' -> Permutation (ptrs s') (ptrs s) /\ cmp s' = cmp s) by (by intros s s' []).
  exact (Hg _ _ H).
Qed.

(** Sorting with a good comparison function gives a stack in ascending order. *)
Lemma sk_sort_ascending sk c : wf sk -> flag_ok sk -> comp sk = Some c -> comparison_ok (comp_of c) ->
  ascending (comp_of c) (elems (sk_sort sk)) /\ sorted (sk_sort sk) = true.
Proof.
  intros Hwf Hflag Hc Hok. pose proof (wf_elems sk Hwf) as Hn. unfold sk_sort. rewrite Hc.
  destruct (sorted sk) eqn:Hsort.
  - destruct (Hflag Hsort) as (c' & Hc' & Ha). rewrite Hc in Hc'. injection Hc' as <-. done.
  - split; [|done]. pose proof (qsort_perm (comp_of c) (ztake (num sk) (data sk))) as Hp.
    pose proof (qsort_ascending (comp_of c) (ztake (num sk) (data sk)) Hok) as Ha.
    set (q := qsort _ _) in *. fold (elems sk) in Hp. pose proof (Permutation_length Hp) as Hl.
    destruct (wf_split sk Hwf) as (x & z & Hd).
    assert (Hs : zsplice (data sk) 0 q = q ++ x :: z).
    { rewrite Hd. apply (zsplice_app [] (elems sk) (x :: z) q 0 eq_refl). lia. }
    rewrite Hs. by rewrite elems_mk by lia.
Qed.

Lemma sk_new_wf malloc_ok c sk : sk_new malloc_ok c = Some sk ->
  wf sk /\ view sk = mk_spec [] false kMinSize c.
Proof.
  unfold sk_new. destruct malloc_ok; [cbn [negb]|done]. destruct malloc; [|done].
  intros [= <-]. done.
Qed.

(** ** Searching *)

Lemma ascending_zget f l i j : ascending f l -> 0 <= i < j -> j < zlen l ->
  f (zget l i) (zget l j) <= 0.
Proof.
  intros Ha. revert i j. induction Ha as [|x l Ha IH Hall]; intros i j Hi Hj; [cbn in Hj; lia|].
  cbn [length] in Hj. rewrite (zget_cons _ _ j) by lia. destruct (Z.eq_dec i 0) as [->|Hne].
  - rewrite zget_cons_0. rewrite Forall_forall in Hall. apply Hall. apply list_elem_of_In, nth_In. lia.
  - rewrite zget_cons by lia. apply IH; lia.
Qed.

Lemma comparison_eq f x y : comparison_ok f -> f x y = 0 <-> f x y <= 0 /\ f y x <= 0.
Proof. intros [Hanti _]. pose proof (Hanti x y). pose proof (Hanti y x). lia. Qed.

(** Equal elements are next to each other, so the loop stops at the first. *)
Lemma first_match_spec f l d p idx : comparison_ok f -> ascending f l ->
  (forall i, 0 <= i < zlen l -> zget d i = zget l i) -> Z.of_nat idx < zlen l ->
  f p (zget l (Z.of_nat idx)) = 0 ->
  let i := first_match f d p idx in
  0 <= i <= Z.of_nat idx /\ f p (zget l i) = 0 /\ forall j, 0 <= j < i -> f p (zget l j) <> 0.
Proof.
  intros Hok Ha Hd. induction idx as [|idx IH]; intros Hlt Hm; cbn [first_match].
  - split_and!; try lia. done.
  - rewrite Hd by lia. case_if.
    + destruct IH as (H1 & H2 & H3); [lia|done|]. split_and!; try done; lia.
    + split; [lia|]. split; [done|]. intros j Hj Heq. apply E.
      apply comparison_eq in Heq as [Hpj Hjp]; [|done]. apply comparison_eq in Hm as [Hpm Hmp]; [|done].
      apply comparison_eq; [done|]. destruct Hok as [_ Htrans].
      destruct (Z.eq_dec j (Z.of_nat idx)) as [->|Hne]; [done|]. split.
      * eapply Htrans; [exact Hpj|]. apply (ascending_zget f l); [done|lia|lia].
      * eapply Htrans; [|exact Hmp]. apply (ascending_zget f l); [done|lia|lia].
Qed.

(** ** Copying *)

Lemma sk_dup_spec malloc_ok sk : wf sk ->
  match sk_dup malloc_ok sk with
  | Some ret => can_dup malloc_ok (view sk) = true /\ wf ret /\ view ret = view sk
  | None => can_dup malloc_ok (view sk) = false
  end.
Proof.
  intros Hwf. pose proof (wf_elems sk Hwf) as Hn. destruct Hwf as (H1 & H2 & H3). unfold sk_dup, sk_new, can_dup.
  destruct malloc_ok; cbn [negb andb]; [|done].
  destruct (malloc (8 * kMinSize)); [|by rewrite bool_decide_eq_false_2 by (by intros [? [=]])].
  rewrite (bool_decide_eq_true_2 (is_Some (Some _))) by (by eexists). cbn [andb].
  unfold realloc. rewrite u64_small by (split; lia). cbn [room view].
  destruct (malloc (8 * num_alloc sk)) as [b|] eqn:Hb; [|by rewrite bool_decide_eq_false_2 by (by intros [? [=]])].
  split; [by apply bool_decide_eq_true_2; eexists|].
  apply malloc_spec in Hb. rewrite Z.mul_comm, Z.div_mul in * by lia.
  set (s := ztake _ _ ++ _). assert (Hs : zlen s = num_alloc sk) by (unfold s; cbn [data]; zlia). clearbody s.
  destruct (zsplit (num sk) s) as (s1 & s2 & -> & Hs1); [lia|].
  fold (elems sk). pose proof (zsplice_app [] s1 s2 (elems sk) 0 eq_refl ltac:(lia)) as Hsp.
  cbn [app] in Hsp. rewrite Hsp. split.
  - unfold wf. cbn [num data num_alloc]. zlia.
  - unfold view. by rewrite elems_mk by lia.
Qed.

Lemma set_elem sk l1 x l2 y : wf sk -> elems sk = l1 ++ x :: l2 ->
  let sk' := set_data sk (zsplice (data sk) (zlen l1) [y]) in
  wf sk' /\ view sk' = with_ptrs (view sk) (l1 ++ y :: l2) /\ ztake (zlen l1) (data sk') = l1.
Proof.
  intros Hwf Hl. pose proof (wf_elems sk Hwf) as Hn. rewrite Hl in Hn.
  destruct (wf_split_at sk l1 (x :: l2) Hwf Hl) as (a & z & Hd). destruct Hwf as (H1 & H2 & H3).
  assert (Hs : zsplice (data sk) (zlen l1) [y] = (l1 ++ y :: l2) ++ a :: z).
  { rewrite Hd. change ((x :: l2) ++ a :: z) with ([x] ++ l2 ++ a :: z). rewrite zsplice_app by done.
    by rewrite <- app_assoc. }
  cbv zeta. unfold set_data. rewrite Hs. rewrite Hd in H2. split_and!.
  - unfold wf. cbn [num data num_alloc]. zlia.
  - unfold view. cbn [num sorted num_alloc comp data]. by rewrite elems_mk by zlia.
  - cbn [data]. rewrite <- app_assoc. by apply ztake_app.
Qed.

Lemma deep_copy_loop_spec fuel copy_func ret l1 l2 : wf ret -> elems ret = l1 ++ l2 -> (length l2 <= fuel)%nat ->
  match deep_copy_loop fuel copy_func ret (zlen l1) with
  | (Some ret', freed) => freed = [] /\ wf ret' /\ view ret' = with_ptrs (view ret) (l1 ++ map (copied copy_func) l2) /\
      Forall (fun p => ~ copy_fails copy_func p) l2
  | (None, freed) => exists l3 p l4, l2 = l3 ++ p :: l4 /\ copy_fails copy_func p /\
      Forall (fun p => ~ copy_fails copy_func p) l3 /\ freed = non_null (l1 ++ map (copied copy_func) l3)
  end.
Proof.
  revert ret l1 l2. induction fuel as [|fuel IH]; intros ret l1 l2 Hwf Hl Hf.
  { destruct l2; [|cbn in Hf; lia]. cbn. by rewrite <- Hl. }
  cbn [deep_copy_loop]. pose proof (wf_elems ret Hwf) as Hn. rewrite Hl, length_app in Hn.
  destruct l2 as [|x l2]; cbn [length] in *.
  { rewrite (proj2 (Z.ltb_ge _ _)) by lia. cbn. by rewrite <- Hl. }
  rewrite (proj2 (Z.ltb_lt _ _)) by lia. rewrite zget_elems, Hl, zget_app_r, Z.sub_diag by lia.
  change (zget (x :: l2) 0) with x.
  assert (Hgo : forall ret' y, wf ret' -> view ret' = with_ptrs (view ret) (l1 ++ y :: l2) -> y = copied copy_func x ->
    ~ copy_fails copy_func x ->
    match deep_copy_loop fuel copy_func ret' (zlen l1 + 1) with
    | (Some ret', freed) => freed = [] /\ wf ret' /\ view ret' = with_ptrs (view ret) (l1 ++ map (copied copy_func) (x :: l2)) /\
        Forall (fun p => ~ copy_fails copy_func p) (x :: l2)
    | (None, freed) => exists l3 p l4, x :: l2 = l3 ++ p :: l4 /\ copy_fails copy_func p /\
        Forall (fun p => ~ copy_fails copy_func p) l3 /\ freed = non_null (l1 ++ map (copied copy_func) l3)
    end).
  { intros ret' y Hw' Hv' Hy Hnf. assert (Hl' : elems ret' = l1 ++ y :: l2) by (by injection Hv'). replace (zlen l1 + 1) with (zlen (l1 ++ [y])) by zlia.
    specialize (IH ret' (l1 ++ [y]) l2 Hw'). rewrite <- app_assoc in IH. specialize (IH Hl' ltac:(lia)).
    destruct (deep_copy_loop fuel copy_func ret' (zlen (l1 ++ [y]))) as [[ret2|] freed].
    - destruct IH as (-> & Hw2 & -> & Hall). cbn [map]. rewrite <- app_assoc, Hv', Hy. split_and!; try done. by constructor.
    - destruct IH as (l3 & p & l4 & -> & Hp & Hall & ->). exists (x :: l3), p, l4.
      cbn [map]. rewrite <- app_assoc, Hy. split_and!; try done. by constructor. }
  case_if.
  - apply (Hgo ret x Hwf); [by rewrite <- Hl|by unfold copied; rewrite E|]. by intros [? _].
  - destruct (set_elem ret l1 x l2 (copy_func x) Hwf Hl) as (Hw' & Hl' & Ht).
    assert (Hel : elems (set_data ret (zsplice (data ret) (zlen l1) [copy_func x])) = l1 ++ copy_func x :: l2) by (by injection Hl').
    rewrite (zget_elems (set_data _ _)), Hel, zget_app_r, Z.sub_diag by (cbn [num set_data]; lia).
    change (zget (copy_func x :: l2) 0) with (copy_func x). case_if.
    + exists [], x, l2. cbn [map]. rewrite app_nil_r, Ht. by split_and!.
    + apply (Hgo _ (copy_func x) Hw' Hl'); [|by intros [_ ?]].
      unfold copied. by rewrite (proj2 (Z.eqb_neq x NULL) E).
Qed.

(** ** Each operation is the one of the specification *)

Definition refines (o : op) (sk : STACK) : Prop :=
  exists r sk', run_op o sk = (r, sk') /\ wf sk' /\ spec_op o (view sk) r (view sk').

Lemma insert_refines sk p w : wf sk -> 0 <= w -> refines (Insert p w) sk.
Proof.
  intros Hwf Hw. pose proof (wf_elems sk Hwf) as Hn. pose proof (sk_insert_spec sk p w Hwf Hw) as H.
  unfold refines, run_op. destruct (can_insert (view sk)) eqn:E.
  - destruct H as (sk' & -> & Hw' & Hv). eexists _, sk'. split_and!; [done..|]. rewrite Hv, <- Hn. by apply (spec_insert p w (view sk)).
  - rewrite H. exists [0], sk. split_and!; [done..|]. by apply spec_insert_fails.
Qed.

Lemma delete_refines sk w : wf sk -> 0 <= w -> refines (Delete w) sk.
Proof.
  intros Hwf Hw. pose proof (wf_elems sk Hwf) as Hn. unfold refines, run_op.
  destruct (Z.lt_ge_cases w (num sk)).
  - destruct (zsplit w (elems sk)) as (l1 & l2 & Hl & Hl1); [lia|].
    destruct l2 as [|x l2]; [rewrite Hl in Hn; zlia|].
    destruct (sk_delete_spec sk l1 x l2 Hwf Hl) as (sk' & H' & Hw' & He).
    rewrite Hl1 in H'. rewrite H'. exists [x], sk'. split_and!; try done. rewrite He.
    replace x with (zget (elems sk) w) by (rewrite Hl, zget_app_r, Hl1, Z.sub_diag by lia; done).
    replace (l1 ++ l2) with (remove_at (elems sk) w) by (rewrite Hl; unfold remove_at; by rewrite ztake_app, zdrop_S_app by done).
    apply (spec_delete w (view sk)). cbn [ptrs view]. lia.
  - exists [NULL], sk. unfold sk_delete. rewrite Z.geb_leb, (proj2 (Z.leb_le _ _)) by lia.
    split_and!; try done. apply spec_delete_out. cbn [ptrs view]. lia.
Qed.

(** The loop from the first index. *)
Lemma find_ptr_first sk p : wf sk ->
  match find_ptr (Z.to_nat (num sk)) sk p 0 with
  | Some i => exists l1 l2, elems sk = l1 ++ p :: l2 /\ ~ In p l1 /\ i = zlen l1
  | None => ~ In p (elems sk)
  end.
Proof.
  intros Hwf. pose proof (wf_elems sk Hwf) as Hn.
  pose proof (find_ptr_spec (Z.to_nat (num sk)) sk p [] (elems sk) eq_refl (eq_sym Hn) ltac:(lia)) as Hf.
  change (zlen []) with 0 in Hf. by destruct (find_ptr _ sk p 0).
Qed.

Lemma delete_ptr_refines sk p : wf sk -> refines (DeletePtr p) sk.
Proof.
  intros Hwf. unfold refines, run_op, sk_delete_ptr.
  pose proof (find_ptr_first sk p Hwf) as Hf. destruct (find_ptr _ sk p 0) as [i|].
  - destruct Hf as (l3 & l4 & Hl & Hni & ->).
    destruct (sk_delete_spec sk l3 p l4 Hwf Hl) as (sk' & -> & Hw' & He).
    exists [p], sk'. split_and!; try done. rewrite He. by apply spec_delete_ptr.
  - exists [NULL], sk. split_and!; try done. by apply spec_delete_ptr_none.
Qed.

Lemma empty_elems sk : wf sk -> num sk = 0 -> elems sk = [].
Proof. intros Hwf H. apply zlen_0. by rewrite wf_elems. Qed.

Lemma shift_refines sk : wf sk -> refines Shift sk.
Proof.
  intros Hwf. pose proof (wf_elems sk Hwf) as Hn. unfold refines, run_op, sk_shift. case_if.
  - exists [NULL], sk. split_and!; try done. apply spec_shift_empty. by apply empty_elems.
  - destruct (elems sk) as [|x l] eqn:Hl; [cbn in Hn; lia|].
    destruct (sk_delete_spec sk [] x l Hwf Hl) as (sk' & H' & Hw' & He).
    change (zlen []) with 0 in H'. rewrite H'. exists [x], sk'. split_and!; try done. rewrite He. by apply spec_shift.
Qed.

Lemma pop_refines sk : wf sk -> refines Pop sk.
Proof.
  intros Hwf. pose proof (wf_elems sk Hwf) as Hn. unfold refines, run_op, sk_pop. case_if.
  - exists [NULL], sk. split_and!; try done. apply spec_pop_empty. by apply empty_elems.
  - destruct (elems sk) as [|x l _] eqn:Hl using rev_ind; [cbn in Hn; lia|].
    destruct (sk_delete_spec sk l x [] Hwf Hl) as (sk' & H' & Hw' & He).
    replace (zlen l) with (num sk - 1) in H' by zlia. rewrite H'.
    exists [x], sk'. split_and!; try done. rewrite He, app_nil_r. by apply spec_pop.
Qed.

Lemma value_refines sk i : wf sk -> 0 <= i -> refines (Value i) sk.
Proof.
  intros Hwf Hi. pose proof (wf_elems sk Hwf) as Hn. unfold refines, run_op, sk_value.
  eexists _, sk. split_and!; [reflexivity|done|].
  replace (if i >=? num sk then NULL else zget (data sk) i) with (zget (elems sk) i); [apply (spec_value i (view sk))|].
  destruct (Z.geb_spec i (num sk)); [|symmetry; apply zget_elems; lia].
  unfold zget. apply nth_overflow. lia.
Qed.

Lemma find_refines sk p : wf sk -> refines (Find p) sk.
Proof.
  intros Hwf. unfold refines, run_op, sk_find. destruct (comp sk) as [c|] eqn:Hc.
  - case_if; [exists [0], sk; split_and!; try done; subst p; by apply (spec_find_null (view sk) c)|].
    destruct (sk_sort_spec sk Hwf) as (Hw' & Hs). cbv zeta. set (sk' := sk_sort sk) in *. clearbody sk'. fold (elems sk').
    pose proof (wf_elems sk' Hw') as Hn.
    assert (Hgo : forall r, (comparison_ok (comp_of c) -> ascending (comp_of c) (elems sk') -> found (comp_of c) p (elems sk') r) ->
      exists r0 sk0, (r, sk') = (r0, sk0) /\ wf sk0 /\ spec_op (Find p) (view sk) r0 (view sk0)).
    { intros r Hr. exists r, sk'. split_and!; try done. by apply (spec_find p (view sk) c). }
    destruct (bsearch (comp_of c) p (elems sk')) as [idx|] eqn:Hb; apply Hgo; intros Hok Ha.
    + right. destruct (bsearch_match _ _ _ _ Hok Ha Hb) as [Hidx Hm].
      destruct (first_match_spec (comp_of c) (elems sk') (data sk') p (Z.to_nat idx)) as (H1 & H2 & H3); try done.
      * intros i Hi. apply zget_elems. lia.
      * lia.
      * by rewrite Z2Nat.id by lia.
      * eexists. split; [done|]. split_and!; try done; lia.
    + left. split; [done|]. by apply bsearch_none.
  - pose proof (find_ptr_first sk p Hwf) as Hf. destruct (find_ptr _ sk p 0) as [i|].
    + destruct Hf as (l3 & l4 & Hl & Hni & ->). eexists _, sk. split_and!; [done..|]. by eapply spec_find_ptr.
    + exists [0], sk. split_and!; try done. by apply spec_find_ptr_none.
Qed.

Lemma set_cmp_refines sk c : wf sk -> refines (SetCmp c) sk.
Proof.
  intros Hwf. unfold refines, run_op, sk_set_cmp_func. eexists _, _. split_and!; [done..|].
  replace (if bool_decide (comp sk = c) then sorted sk else false) with (sorted sk && bool_decide (comp sk = c))
    by (by destruct (sorted sk), (bool_decide _)).
  apply (spec_set_cmp c (view sk)).
Qed.

Lemma dup_refines sk malloc_ok : wf sk -> refines (Dup malloc_ok) sk.
Proof.
  intros Hwf. unfold refines, run_op. pose proof (sk_dup_spec malloc_ok sk Hwf) as H.
  pose proof (spec_dup malloc_ok (view sk)) as Hs. destruct (sk_dup malloc_ok sk) as [ret|].
  - destruct H as (Hd & Hw' & He). exists [1], ret. rewrite He, Hd in *. by split_and!.
  - exists [0], sk. rewrite H in Hs. by split_and!.
Qed.

Lemma deep_copy_refines sk malloc_ok f : wf sk -> refines (DeepCopy malloc_ok f) sk.
Proof.
  intros Hwf. unfold refines, run_op, sk_deep_copy. pose proof (sk_dup_spec malloc_ok sk Hwf) as H.
  destruct (sk_dup malloc_ok sk) as [ret|].
  - destruct H as (Hd & Hw' & He). pose proof (wf_elems ret Hw') as Hn. assert (Hel : elems ret = elems sk) by (by injection He).
    pose proof (deep_copy_loop_spec (Z.to_nat (num ret)) f ret [] (elems ret) Hw' eq_refl ltac:(lia)) as Hl.
    change (zlen []) with 0 in Hl. destruct (deep_copy_loop _ f ret 0) as [[ret'|] freed]; rewrite Hel in Hl.
    + destruct Hl as (-> & Hw2 & Hv & Hall). eexists _, ret'. split_and!; [done..|]. rewrite Hv, He. by apply (spec_deep_copy malloc_ok f (view sk)).
    + destruct Hl as (l3 & q & l4 & Hl & Hq & Hall & ->). eexists _, sk. split_and!; [done..|].
      by apply (spec_deep_copy_fails malloc_ok f (view sk) l3 q l4).
  - exists [0], sk. split_and!; [done..|]. by apply spec_deep_copy_alloc.
Qed.

Lemma run_op_spec o sk : wf sk -> op_ok o -> refines o sk.
Proof.
  intros Hwf Ho. pose proof (wf_elems sk Hwf) as Hn.
  destruct o as [p w|w|p| | |i p| |i| | |p| |c|ok|ok f]; cbn [op_ok] in *;
    auto using insert_refines, delete_refines, delete_ptr_refines, shift_refines, pop_refines, value_refines,
      find_refines, set_cmp_refines, dup_refines, deep_copy_refines.
  - destruct (sk_set_spec sk i p Hwf Ho) as (r & sk' & H & Hw' & Hs). exists [r], sk'. unfold run_op. by rewrite H.
  - destruct (sk_zero_spec sk Hwf) as [Hw' He]. by exists [], (sk_zero sk).
  - eexists _, sk. split_and!; [done..|]. unfold sk_num. rewrite <- Hn. apply (spec_num (view sk)).
  - destruct (sk_sort_spec sk Hwf) as (Hw' & Hs). exists [], (sk_sort sk). split_and!; [done..|]. by apply spec_sort.
  - eexists _, sk. split_and!; [done..|]. apply (spec_is_sorted (view sk)).
Qed.

Lemma run_spec ops sk : wf sk -> Forall op_ok ops ->
  let '(rs, sk') := run ops sk in wf sk' /\ spec_run ops (view sk) rs (view sk').
Proof.
  intros Hwf Hops. revert sk Hwf. induction Hops as [|o ops Ho _ IH]; intros sk Hwf; cbn [run].
  - split; [done|constructor].
  - destruct (run_op_spec o sk Hwf Ho) as (r & sk1 & -> & Hw1 & Hs1).
    specialize (IH sk1 Hw1). destruct (run ops sk1) as [rs sk2]. destruct IH as [Hw2 Hs2].
    split; [done|]. econstructor; eassumption.
Qed.

(** ** The flag *)

Lemma ascending_remove f l1 x l2 : ascending f (l1 ++ x :: l2) -> ascending f (l1 ++ l2).
Proof.
  unfold ascending. induction l1 as [|y l1 IH]; cbn [app]; intros Ha; apply StronglySorted_inv in Ha as [Ha Hall]; [done|].
  constructor; [by apply IH|]. apply Forall_app in Hall as [H1 H2]. apply Forall_cons_iff in H2 as [_ H2].
  by apply Forall_app.
Qed.

Lemma delete_flag sk w : wf sk -> flag_ok sk -> 0 <= w -> flag_ok (sk_delete sk w).2.
Proof.
  intros Hwf Hflag Hw. pose proof (wf_elems sk Hwf) as Hn. destruct (Z.lt_ge_cases w (num sk)).
  - destruct (zsplit w (elems sk)) as (l1 & l2 & Hl & Hl1); [lia|].
    destruct l2 as [|x l2]; [rewrite Hl in Hn; zlia|].
    destruct (sk_delete_spec sk l1 x l2 Hwf Hl) as (sk' & H' & _ & Hv). injection Hv as He Hs _ Hc.
    rewrite Hl1 in H'. rewrite H'. intros Hsort. cbn [snd] in *. rewrite Hs in Hsort.
    destruct (Hflag Hsort) as (c & Hcc & Ha). exists c. rewrite Hc, He. split; [done|].
    rewrite Hl in Ha. by apply ascending_remove in Ha.
  - unfold sk_delete. by rewrite Z.geb_leb, (proj2 (Z.leb_le _ _)) by lia.
Qed.

(** The operations that put other pointers in the place of the elements. *)
Definition replaces (o : op) : Prop := match o with Set_ _ _ | DeepCopy _ _ => True | _ => False end.

Lemma sort_flag sk : (forall c, comparison_ok (comp_of c)) -> wf sk -> flag_ok sk -> flag_ok (sk_sort sk).
Proof.
  intros Hcmp Hwf Hflag. destruct (comp sk) as [c|] eqn:Hc.
  - intros _. exists c. destruct (sk_sort_keeps sk Hwf) as (_ & ->). split; [done|]. by apply sk_sort_ascending.
  - unfold sk_sort. by rewrite Hc.
Qed.

Lemma view_flag sk sk' : view sk' = view sk -> flag_ok sk -> flag_ok sk'.
Proof. intros Hv. injection Hv as He Hs _ Hc. unfold flag_ok. by rewrite He, Hs, Hc. Qed.

Lemma run_op_flag o sk : (forall c, comparison_ok (comp_of c)) -> wf sk -> flag_ok sk -> op_ok o -> ~ replaces o ->
  flag_ok (run_op o sk).2.
Proof.
  intros Hcmp Hwf Hflag Ho Hset.
  destruct o as [p w|w|p| | |i p| |i| | |p| |c|ok|ok f]; cbn [run_op op_ok replaces] in *; try done.
  - pose proof (sk_insert_spec sk p w Hwf Ho) as H. destruct (can_insert (view sk)); [|by rewrite H].
    destruct H as (sk' & -> & _ & Hv). injection Hv as _ Hs _ _. intros Hsort. cbn [snd] in Hsort. congruence.
  - pose proof (delete_flag sk w Hwf Hflag Ho) as H. by destruct (sk_delete sk w).
  - unfold sk_delete_ptr. pose proof (find_ptr_first sk p Hwf) as Hf. destruct (find_ptr _ sk p 0) as [i|]; [|done].
    destruct Hf as (l3 & l4 & _ & _ & ->). pose proof (delete_flag sk (zlen l3) Hwf Hflag ltac:(lia)) as H.
    by destruct (sk_delete sk _).
  - unfold sk_shift. case_if; [done|]. pose proof (delete_flag sk 0 Hwf Hflag ltac:(lia)) as H. by destruct (sk_delete sk 0).
  - unfold sk_pop. pose proof Hwf as (H1 & H2 & H3). case_if; [done|].
    pose proof (delete_flag sk (num sk - 1) Hwf Hflag ltac:(lia)) as H. by destruct (sk_delete sk _).
  - unfold sk_zero. by case_if.
  - by apply sort_flag.
  - unfold sk_find. destruct (comp sk); [|by destruct (find_ptr _ sk p 0)]. case_if; [done|]. cbv zeta.
    pose proof (sort_flag sk Hcmp Hwf Hflag) as H. by destruct (bsearch _ _ _).
  - unfold sk_set_cmp_func. cbn [snd]. case_bool_decide as Hc; [|done]. subst c. exact Hflag.
  - pose proof (sk_dup_spec ok sk Hwf) as H. destruct (sk_dup ok sk); [|done]. eapply view_flag; [apply H|done].
Qed.

Lemma run_flag ops sk : (forall c, comparison_ok (comp_of c)) -> wf sk -> flag_ok sk -> Forall op_ok ops ->
  Forall (fun o => ~ replaces o) ops -> flag_ok (run ops sk).2.
Proof.
  intros Hcmp Hwf Hflag Hops. revert sk Hwf Hflag. induction Hops as [|o ops Ho _ IH]; intros sk Hwf Hflag Hr; [done|].
  apply Forall_cons_iff in Hr as [Hr1 Hr]. cbn [run].
  pose proof (run_op_flag o sk Hcmp Hwf Hflag Ho Hr1) as Hf. destruct (run_op_spec o sk Hwf Ho) as (r & sk1 & Hrun & Hw1 & _).
  rewrite Hrun in *. specialize (IH sk1 Hw1 Hf Hr). by destruct (run ops sk1).
Qed.

End Stack.

(** * A concrete library *)

(** Insertion sort and a linear search, for comparison functions whose result is
    in order; [qsort] and [bsearch] are any functions that meet the class. *)
Fixpoint insert_sorted (f : Z -> Z -> Z) (x : Z) (l : list Z) : list Z :=
  match l with
  | [] => [x]
  | y :: l' => if f x y <=? 0 then x :: l else y :: insert_sorted f x l'
  end.

Fixpoint insertion_sort (f : Z -> Z -> Z) (l : list Z) : list Z :=
  match l with
  | [] => []
  | x :: l => insert_sorted f x (insertion_sort f l)
  end.

Fixpoint linear_search (f : Z -> Z -> Z) (p : Z) (l : list Z) : option Z :=
  match l with
  | [] => None
  | x :: l => if f p x =? 0 then Some 0
              else match linear_search f p l with Some i => Some (i + 1) | None => None end
  end.

Lemma insert_sorted_perm f x l : Permutation (insert_sorted f x l) (x :: l).
Proof.
  induction l as [|y l IH]; cbn; [done|]. case_if; [done|]. rewrite IH. apply perm_swap.
Qed.

Lemma insertion_sort_perm f l : Permutation (insertion_sort f l) l.
Proof. induction l as [|x l IH]; [done|]. cbn. by rewrite insert_sorted_perm, IH. Qed.

Lemma insert_sorted_ascending f x l : comparison_ok f -> ascending f l -> ascending f (insert_sorted f x l).
Proof.
  intros [Hanti Htrans] Ha. induction Ha as [|y l Ha IH Hall]; cbn; [by repeat constructor|].
  case_if.
  - constructor; [by constructor|]. constructor; [done|]. eapply Forall_impl; [exact Hall|]. eauto.
  - constructor; [done|]. rewrite insert_sorted_perm. constructor; [|done].
    apply Hanti. lia.
Qed.

Lemma insertion_sort_ascending f l : comparison_ok f -> ascending f (insertion_sort f l).
Proof.
  intros Hok. induction l as [|x l IH]; [constructor|]. by apply insert_sorted_ascending.
Qed.

Lemma linear_search_match f p l i : linear_search f p l = Some i -> 0 <= i < zlen l /\ f p (zget l i) = 0.
Proof.
  revert i. induction l as [|x l IH]; intros i; cbn [linear_search]; [done|]. case_if.
  - intros [= <-]. cbn [length]. split; [lia|done].
  - destruct (linear_search f p l) as [j|]; [|done]. intros [= <-].
    destruct (IH j eq_refl) as [Hj Hm]. cbn [length]. split; [lia|].
    rewrite zget_cons by lia. by replace (j + 1 - 1) with j by lia.
Qed.

Lemma linear_search_none f p l : linear_search f p l = None -> Forall (fun x => f p x <> 0) l.
Proof.
  induction l as [|x l IH]; cbn [linear_search]; [constructor|]. case_if; [done|].
  destruct (linear_search f p l); [done|]. intros _. constructor; auto.
Qed.

#[global] Instance simple_sort : StdSort := {|
  qsort := insertion_sort;
  bsearch := linear_search;
  qsort_perm := insertion_sort_perm;
  qsort_ascending := fun f l H => insertion_sort_ascending f l H;
  bsearch_match := fun f p l i _ _ => linear_search_match f p l i;
  bsearch_none := fun f p l _ _ => linear_search_none f p l
|}.

(** * Properties *)


(** An allocator and a comparison function for concrete runs. *)
Definition sample_malloc : allocator := fun n => if n <? 0 then None else Some (zrepeat (n / 8) 77).
Definition sample_comp : positive -> Z -> Z -> Z := fun _ => Z.sub.

Lemma sample_malloc_ok : alloc_ok sample_malloc.
Proof.
  intros n b. unfold sample_malloc. case_if; [done|]. intros [= <-]. rewrite length_zrepeat.
  pose proof (Z.div_pos n 8). lia.
Qed.

Lemma sample_ascending : ascending (sample_comp 1) [1; 2; 3].
Proof. repeat constructor; discriminate. Qed.

Lemma sub_comparison : comparison_ok Z.sub.
Proof. split; intros; lia. Qed.


(** Searching with a comparison function: the stack is sorted if its flag says it
    is not, which permutes its elements; then [sk_find] returns the index of the
    first element equal to the pointer, or fails if there is none. It relies on the
    standard's description of qsort and bsearch only, so the result does not depend
    on which match bsearch finds. *)
Theorem sk_find_first {S : StdSort} comp_of sk c p :
  wf sk -> flag_ok comp_of sk -> comp sk = Some c -> comparison_ok (comp_of c) -> p <> NULL ->
  let '(r, sk') := sk_find comp_of sk p in
  wf sk' /\ Permutation (elems sk') (elems sk) /\ ascending (comp_of c) (elems sk') /\
  match r with
  | Some i => 0 <= i < num sk' /\ comp_of c p (zget (elems sk') i) = 0 /\
      forall j, 0 <= j < i -> comp_of c p (zget (elems sk') j) <> 0
  | None => Forall (fun x => comp_of c p x <> 0) (elems sk')
  end.
Proof.
  intros Hwf Hflag Hc Hok Hp. unfold sk_find. rewrite Hc, (proj2 (Z.eqb_neq p NULL) Hp). cbv zeta.
  destruct (sk_sort_spec comp_of sk Hwf) as (Hw' & _). destruct (sk_sort_keeps comp_of sk Hwf) as (Hperm & _).
  destruct (sk_sort_ascending comp_of sk c Hwf Hflag Hc Hok) as [Ha _].
  set (sk' := sk_sort comp_of sk) in *. clearbody sk'. fold (elems sk').
  pose proof (wf_elems sk' Hw') as Hn.
  destruct (bsearch (comp_of c) p (elems sk')) as [idx|] eqn:Hb.
  - destruct (bsearch_match _ _ _ _ Hok Ha Hb) as [Hidx Hm].
    destruct (first_match_spec (comp_of c) (elems sk') (data sk') p (Z.to_nat idx)) as (H1 & H2 & H3); try done.
    + intros i Hi. apply zget_elems. lia.
    + lia.
    + by rewrite Z2Nat.id by lia.
    + split_and!; try done; lia.
  - split_and!; try done. by apply bsearch_none.
Qed.

(** The first of two equal elements of an unsorted stack. *)
Lemma sk_find_first_witness :
  let sk := mk_STACK 4 [7; 3; 7; 5; 0; 0] false 6 (Some 1%positive) in
  (sk_find sample_comp sk 7).1 = Some 2 /\ Permutation (elems (sk_find sample_comp sk 7).2) (elems sk).
Proof.
  intros sk. split; [reflexivity|].
  assert (Hwf : wf sk) by (split_and!; cbn; lia).
  exact (proj1 (proj2 (sk_find_first sample_comp sk 1%positive 7 Hwf
    (fun H : false = true => ltac:(discriminate H)) eq_refl sub_comparison ltac:(done)))).
Defined.

(** The flag is honest: every operation but [sk_set] and [sk_deep_copy] keeps the invariant that a
    stack whose flag is set is in ascending order. Insertion clears the flag,
    removals keep the order of what is left, and sorting establishes it. *)
Theorem sk_sorted_flag {S : StdSort} malloc comp_of o sk :
  alloc_ok malloc -> (forall c, comparison_ok (comp_of c)) -> wf sk -> flag_ok comp_of sk -> op_ok o ->
  ~ replaces o -> flag_ok comp_of (run_op malloc comp_of o sk).2.
Proof. intros. by apply run_op_flag. Qed.

(** A removal from a sorted stack. *)
Lemma sk_sorted_flag_witness :
  let sk := mk_STACK 3 [1; 2; 3; 0] true 4 (Some 1%positive) in
  flag_ok sample_comp (run_op sample_malloc sample_comp (Delete 1) sk).2.
Proof.
  intros sk. apply (sk_sorted_flag sample_malloc sample_comp (Delete 1) sk).
  - apply sample_malloc_ok.
  - exact (fun _ => sub_comparison).
  - split_and!; cbn; lia.
  - intros _. exists 1%positive. split; [done|]. exact sample_ascending.
  - discriminate.
  - exact (fun H => H).
Defined.

(** [sk_set] breaks that invariant: it replaces an element and leaves the flag
    set, so a sorted stack is no longer in ascending order, is said to be, and is
    not sorted again by [sk_sort] or before a search. *)
Theorem sk_set_stale_flag {S : StdSort} :
  let sk := mk_STACK 3 [1; 2; 3; 0] true 4 (Some 1%positive) in
  let sk' := (sk_set sk 0 9).2 in
  flag_ok sample_comp sk /\ sk_is_sorted (Some sk') = true /\ ~ flag_ok sample_comp sk' /\
  elems (sk_sort sample_comp sk') = [9; 2; 3].
Proof.
  cbv zeta. split_and!; try done.
  - intros _. exists 1%positive. split; [done|]. exact sample_ascending.
  - intros H. destruct (H eq_refl) as (c & _ & Ha). cbn in Ha.
    apply StronglySorted_inv in Ha as [_ Ha]. apply Forall_cons_iff in Ha as [Ha _].
    unfold sample_comp in Ha. lia.
Qed.

(** A deep copy either holds the copies of the elements in order, NULL elements
    staying NULL, or fails because one copy failed, after passing to [free_func]
    exactly the copies made before it; or malloc failed and nothing was copied. *)
Theorem sk_deep_copy_all malloc malloc_ok sk copy_func :
  alloc_ok malloc -> wf sk ->
  match sk_deep_copy malloc malloc_ok sk copy_func with
  | (Some ret, freed) => wf ret /\ freed = [] /\ elems ret = map (copied copy_func) (elems sk) /\
      Forall (fun p => ~ copy_fails copy_func p) (elems sk)
  | (None, freed) =>
      (malloc_ok = false \/ exists n, malloc n = None) /\ freed = [] \/
      exists l1 p l2, elems sk = l1 ++ p :: l2 /\ copy_fails copy_func p /\
        Forall (fun p => ~ copy_fails copy_func p) l1 /\ freed = non_null (map (copied copy_func) l1)
  end.
Proof.
  intros Hm Hwf. unfold sk_deep_copy. pose proof (sk_dup_spec malloc Hm malloc_ok sk Hwf) as Hd.
  destruct (sk_dup malloc malloc_ok sk) as [ret|].
  - destruct Hd as (_ & Hw' & Hv). assert (He : elems ret = elems sk) by (by injection Hv).
    pose proof (wf_elems ret Hw') as Hn.
    pose proof (deep_copy_loop_spec (Z.to_nat (num ret)) copy_func ret [] (elems ret) Hw' eq_refl ltac:(lia)) as Hl.
    change (zlen []) with 0 in Hl.
    destruct (deep_copy_loop _ copy_func ret 0) as [[ret'|] freed]; rewrite He in Hl.
    + destruct Hl as (-> & Hw2 & Hel & Hall). split_and!; try done. by injection Hel.
    + right. exact Hl.
  - left. split; [|done]. unfold can_dup in Hd. destruct malloc_ok; [right|by left]. cbn [andb] in Hd.
    destruct (malloc (8 * kMinSize)) eqn:E1; [|by eexists]. cbn [room view] in Hd.
    destruct (malloc (8 * num_alloc sk)) eqn:E2; [done|by eexists].
Qed.

(** The copy of the third element fails. *)
Lemma sk_deep_copy_all_witness :
  let sk := mk_STACK 3 [1; 0; 3; 0] false 4 None in
  let copy p := if p =? 3 then NULL else p + 100 in
  sk_deep_copy sample_malloc true sk copy = (None, [101]) /\
  exists l1 p l2, elems sk = l1 ++ p :: l2 /\ copy_fails copy p /\ [101] = non_null (map (copied copy) l1).
Proof.
  intros sk copy. split; [reflexivity|].
  pose proof (sk_deep_copy_all sample_malloc true sk copy sample_malloc_ok ltac:(split_and!; cbn; lia)) as H.
  destruct H as [[_ H]|(l1 & p & l2 & H1 & H2 & _ & H3)]; [discriminate H|]. by exists l1, p, l2.
Defined.
