(* ===== verification/Lhash.v ===== *)
(** Hash tables of pointers: crypto/lhash/lhash.c, against finite maps. *)

From Stdlib Require Import ZArith Lia.
From stdpp Require Import base list option gmap.
From S2P Require Import Prelude.

(** * State *)

(** An item of a chain, at an address; its [next] pointer is its place in the chain. *)
Record LHASH_ITEM := mk_ITEM {
  addr : Z;
  data : Z;
  hash : Z
}.

Record LHASH := mk_LHASH {
  num_items : Z;
  buckets : list (list LHASH_ITEM);
  num_buckets : Z;
  callback_depth : Z
}.

Definition NULL := 0.
Definition UINT_MAX := 4294967295.
Definition kMinNumBuckets := 16.
Definition kMaxAverageChainLength := 2.
Definition kMinAverageChainLength := 1.

Definition set_buckets (lh : LHASH) (b : list (list LHASH_ITEM)) (n : Z) : LHASH :=
  mk_LHASH (num_items lh) b n (callback_depth lh).
Definition set_num_items (lh : LHASH) (n : Z) : LHASH :=
  mk_LHASH n (buckets lh) (num_buckets lh) (callback_depth lh).
Definition set_depth (lh : LHASH) (n : Z) : LHASH :=
  mk_LHASH (num_items lh) (buckets lh) (num_buckets lh) n.

Definition bucket (lh : LHASH) (i : Z) : list LHASH_ITEM := nth (Z.to_nat i) (buckets lh) [].
Definition set_bucket (lh : LHASH) (i : Z) (c : list LHASH_ITEM) : LHASH :=
  set_buckets lh (<[Z.to_nat i := c]> (buckets lh)) (num_buckets lh).

(** * Operations

    [hash_func] and [comp] are the functions given to [lh_new]. What malloc
    returns is an argument of each operation that calls it: whether an array or
    the table could be allocated, the address of an item. *)

Section Lhash.
  Variable hash_func : Z -> Z.
  Variable comp : Z -> Z -> Z.

Definition lh_new (table_ok buckets_ok : bool) : option LHASH :=
  if negb table_ok then None
  else if negb buckets_ok then None
  else Some (mk_LHASH 0 (zrepeat kMinNumBuckets []) kMinNumBuckets 0).

(** The addresses of the items, in the order they are freed. *)
Definition lh_free (lh : option LHASH) : list Z :=
  match lh with
  | None => []
  | Some lh => map addr (concat (ztake (num_buckets lh) (buckets lh)))
  end.

Definition lh_num_items (lh : LHASH) : Z := num_items lh.

(** How far along a chain the loop of [get_next_ptr_and_hash] goes. *)
Fixpoint chain_find (chain : list LHASH_ITEM) (d : Z) : nat :=
  match chain with
  | [] => O
  | cur :: chain => if comp (data cur) d =? 0 then O else S (chain_find chain d)
  end.

(** The hash value, and the pointer's place: the bucket and the position. *)
Definition get_next_ptr_and_hash (lh : LHASH) (d : Z) : Z * Z * nat :=
  let hash := u32 (hash_func d) in
  let b := hash mod num_buckets lh in
  (hash, b, chain_find (bucket lh b) d).

Definition lh_retrieve (lh : LHASH) (d : Z) : Z :=
  let '(_, b, i) := get_next_ptr_and_hash lh d in
  match bucket lh b !! i with
  | None => NULL
  | Some item => data item
  end.

(** One item is moved to the front of its new chain. *)
Definition move_item (new_num_buckets : Z) (new_buckets : list (list LHASH_ITEM)) (cur : LHASH_ITEM) :
    list (list LHASH_ITEM) :=
  let new_bucket := hash cur mod new_num_buckets in
  <[Z.to_nat new_bucket := cur :: nth (Z.to_nat new_bucket) new_buckets []]> new_buckets.

Definition lh_rebucket (alloc_ok : bool) (lh : LHASH) (new_num_buckets : Z) : LHASH :=
  let alloc_size := u64 (8 * new_num_buckets) in
  if negb (alloc_size / 8 =? new_num_buckets) then lh
  else if negb alloc_ok then lh
  else
    let new_buckets :=
      fold_left (fun nb chain => fold_left (move_item new_num_buckets) chain nb)
        (ztake (num_buckets lh) (buckets lh)) (zrepeat new_num_buckets []) in
    set_buckets lh new_buckets new_num_buckets.

(** [None] is a failed assertion. *)
Definition lh_maybe_resize (alloc_ok : bool) (lh : LHASH) : option LHASH :=
  if callback_depth lh >? 0 then Some lh
  else if negb (num_buckets lh >=? kMinNumBuckets) then None
  else
    let avg_chain_length := num_items lh / num_buckets lh in
    if avg_chain_length >? kMaxAverageChainLength then
      let new_num_buckets := u64 (num_buckets lh * 2) in
      if new_num_buckets >? num_buckets lh then Some (lh_rebucket alloc_ok lh new_num_buckets)
      else Some lh
    else if (avg_chain_length <? kMinAverageChainLength) && (num_buckets lh >? kMinNumBuckets) then
      let new_num_buckets := num_buckets lh / 2 in
      let new_num_buckets :=
        if new_num_buckets <? kMinNumBuckets then kMinNumBuckets else new_num_buckets in
      Some (lh_rebucket alloc_ok lh new_num_buckets)
    else Some lh.

(** The return value, [*old_data] and the table. *)
Definition lh_insert (item : option Z) (alloc_ok : bool) (lh : LHASH) (d : Z) : option (Z * Z * LHASH) :=
  let '(h, b, i) := get_next_ptr_and_hash lh d in
  match bucket lh b !! i with
  | Some cur =>
      Some (1, data cur, set_bucket lh b (<[i := mk_ITEM (addr cur) d (hash cur)]> (bucket lh b)))
  | None =>
      match item with
      | None => Some (0, NULL, lh)
      | Some a =>
          let lh := set_bucket lh b (bucket lh b ++ [mk_ITEM a d h]) in
          let lh := set_num_items lh (u64 (num_items lh + 1)) in
          match lh_maybe_resize alloc_ok lh with
          | None => None
          | Some lh => Some (1, NULL, lh)
          end
      end
  end.

Definition lh_delete (alloc_ok : bool) (lh : LHASH) (d : Z) : option (Z * LHASH) :=
  let '(_, b, i) := get_next_ptr_and_hash lh d in
  match bucket lh b !! i with
  | None => Some (NULL, lh)
  | Some item =>
      let lh := set_bucket lh b (take i (bucket lh b) ++ drop (S i) (bucket lh b)) in
      let lh := set_num_items lh (u64 (num_items lh - 1)) in
      match lh_maybe_resize alloc_ok lh with
      | None => None
      | Some lh => Some (data item, lh)
      end
  end.

(** The item at an address, and the address [next] holds. *)
Fixpoint chain_item (chain : list LHASH_ITEM) (a : Z) : option (LHASH_ITEM * option Z) :=
  match chain with
  | [] => None
  | cur :: chain => if addr cur =? a then Some (cur, addr <$> head chain) else chain_item chain a
  end.

Fixpoint load_item (bs : list (list LHASH_ITEM)) (a : Z) : option (LHASH_ITEM * option Z) :=
  match bs with
  | [] => None
  | chain :: bs => match chain_item chain a with
                   | Some r => Some r
                   | None => load_item bs a
                   end
  end.

(** Iteration. The callback may change the table it iterates over: it maps its
    argument's state [A] and the table to new ones. [None] is undefined: an item
    that the callback freed is read, or the loop does not end within the fuel
    (a callback that inserts can prolong it for ever). *)
Section Doall.
  Context {A : Type}.
  Variable arg_func : Z -> A -> LHASH -> option (A * LHASH).

(** The loop over a chain from [cur]. *)
Fixpoint doall_chain (fuel : nat) (cur : option Z) (st : A) (lh : LHASH) : option (A * LHASH) :=
  match fuel with
  | O => None
  | S fuel =>
      match cur with
      | None => Some (st, lh)
      | Some cur =>
          match load_item (buckets lh) cur with
          | None => None
          | Some (item, next) =>
              match arg_func (data item) st lh with
              | None => None
              | Some (st, lh) => doall_chain fuel next st lh
              end
          end
      end
  end.

(** The loop over the buckets from index [i]. *)
Fixpoint doall_buckets (fuel chain_fuel : nat) (i : Z) (st : A) (lh : LHASH) : option (A * LHASH) :=
  match fuel with
  | O => None
  | S fuel =>
      if i <? num_buckets lh then
        match doall_chain chain_fuel (addr <$> head (bucket lh i)) st lh with
        | None => None
        | Some (st, lh) => doall_buckets fuel chain_fuel (i + 1) st lh
        end
      else Some (st, lh)
  end.

Definition lh_doall_arg (fuel : nat) (alloc_ok : bool) (lh : option LHASH) (st : A) :
    option (A * option LHASH) :=
  match lh with
  | None => Some (st, None)
  | Some lh =>
      let lh := if callback_depth lh <? UINT_MAX then set_depth lh (callback_depth lh + 1) else lh in
      match doall_buckets fuel fuel 0 st lh with
      | None => None
      | Some (st, lh) =>
          let lh := if callback_depth lh <? UINT_MAX then set_depth lh (u32 (callback_depth lh - 1)) else lh in
          match lh_maybe_resize alloc_ok lh with
          | None => None
          | Some lh => Some (st, Some lh)
          end
      end
  end.

End Doall.

(** [lh_doall] passes no argument; the effects of its callback are on the table. *)
Definition lh_doall (func : Z -> LHASH -> option LHASH) (fuel : nat) (alloc_ok : bool)
    (lh : option LHASH) : option (option LHASH) :=
  option_map snd
    (lh_doall_arg (fun d (_ : unit) lh => option_map (pair tt) (func d lh)) fuel alloc_ok lh tt).

End Lhash.

(** One character of [lh_strhash]'s loop, with an unsigned long of [w] bits and
    chars signed or not; the state is [ret] and [n]. [None] is undefined behaviour:
    a shift by the width of the type. *)
Definition strhash_step (w : Z) (signed_char : bool) (st : option (Z * Z)) (c : Z) : option (Z * Z) :=
  match st with
  | None => None
  | Some (ret, n) =>
      let ulong x := x mod 2 ^ w in
      let c := if signed_char && (c >=? 128) then c - 256 else c in
      let v := ulong (Z.lor n c) in
      let n := n + 0x100 in
      let r := Z.land (Z.lxor (Z.shiftr v 2) v) 0x0f in
      if w <=? 32 - r then None
      else
        let ret := Z.lor (ulong (Z.shiftl ret r)) (Z.shiftr ret (32 - r)) in
        let ret := Z.land ret 0xffffffff in
        Some (Z.lxor ret (ulong (v * v)), n)
  end.

(** [c] is [None] for NULL, and otherwise the characters before the terminator. *)
Definition lh_strhash (w : Z) (signed_char : bool) (c : option bytes) : option Z :=
  match c with
  | None | Some [] => Some 0
  | Some s =>
      match fold_left (strhash_step w signed_char) s (Some (0, 0x100)) with
      | None => None
      | Some (ret, _) => Some (u32 (Z.lxor (Z.shiftr ret 16) ret))
      end
  end.

(** * The specification: a finite map

    [key] gives the key of an object; the comparison and hash functions of a table
    must agree with it. *)
Class KeySpec (hash_func : Z -> Z) (comp : Z -> Z -> Z) (K : Type) `{Countable K} := {
  key : Z -> K;
  comp_key : forall x y, comp x y = 0 <-> key x = key y;
  hash_key : forall x y, key x = key y -> hash_func x = hash_func y
}.

Section Spec.
  Context {hash_func : Z -> Z} {comp : Z -> Z -> Z} {K : Type} `{HK : Countable K}
    {KS : KeySpec hash_func comp K}.

Definition item_key (it : LHASH_ITEM) : K := key (data it).
Definition entry (it : LHASH_ITEM) : K * Z := (item_key it, data it).

Definition items (lh : LHASH) : list LHASH_ITEM := concat (buckets lh).

(** The finite map of a table. *)
Definition abs (lh : LHASH) : gmap K Z := list_to_map (entry <$> items lh).

(** The items do not depend on where they are: distinct keys, distinct non-NULL
    addresses, cached hash values. *)
Record items_ok (l : list LHASH_ITEM) : Prop := {
  ok_keys : NoDup (item_key <$> l);
  ok_addrs : NoDup (addr <$> l);
  ok_range : Forall (fun it => 0 < addr it < 2 ^ 64) l;
  ok_hash : Forall (fun it => hash it = u32 (hash_func (data it))) l
}.

(** Every item is in the bucket of its hash value. *)
Definition placed (n : Z) (bs : list (list LHASH_ITEM)) : Prop :=
  forall i c, bs !! i = Some c -> Forall (fun it => hash it mod n = Z.of_nat i) c.

Record wf (lh : LHASH) : Prop := {
  wf_size : kMinNumBuckets <= num_buckets lh < 2 ^ 61;
  wf_len : zlen (buckets lh) = num_buckets lh;
  wf_placed : placed (num_buckets lh) (buckets lh);
  wf_items : items_ok (items lh);
  wf_count : num_items lh = zlen (items lh);
  wf_depth : 0 <= callback_depth lh
}.

(** The load of a table that is not being iterated over. *)
Definition load_ok (lh : LHASH) : Prop :=
  num_items lh < 3 * num_buckets lh /\ (num_buckets lh = kMinNumBuckets \/ num_buckets lh <= num_items lh).

(** * Lemmas: items *)

#[export] Instance items_ok_proper : Proper ((≡ₚ) ==> iff) items_ok.
Proof.
  intros l1 l2 Hp. split; intros [H1 H2 H3 H4]; split.
  all: first [by rewrite <- Hp | by rewrite Hp].
Qed.

Lemma items_ok_cons it l : items_ok (it :: l) <->
  (item_key it ∉ (item_key <$> l)) /\ (addr it ∉ (addr <$> l)) /\ 0 < addr it < 2 ^ 64 /\
  hash it = u32 (hash_func (data it)) /\ items_ok l.
Proof.
  split.
  - intros [Hk Ha Hr Hh]. rewrite fmap_cons in Hk. rewrite fmap_cons in Ha. apply NoDup_cons in Hk as [? ?], Ha as [? ?].
    apply Forall_cons in Hr as [? ?], Hh as [? ?]. do 4 (split; [assumption|]). by split.
  - intros (H1 & H2 & H3 & H4 & [H5 H6 H7 H8]). split; rewrite ?fmap_cons, ?NoDup_cons; auto.
Qed.

(** Distinct addresses in the address space are fewer than its size. *)
Lemma count_addrs l N : 0 <= N -> NoDup l -> Forall (fun a => 0 < a < N) l -> l <> [] -> zlen l < N.
Proof.
  intros HN Hnd Hr Hne. assert (Hi : incl l (map Z.of_nat (seq 1 (Z.to_nat (N - 1))))).
  { intros a Ha. rewrite List.Forall_forall in Hr. apply Hr in Ha. apply in_map_iff.
    exists (Z.to_nat a). rewrite in_seq. lia. }
  apply NoDup_ListNoDup in Hnd. pose proof (NoDup_incl_length Hnd Hi) as Hl.
  rewrite length_map, length_seq in Hl. destruct l as [|a l]; [done|].
  inversion Hr; subst. lia.
Qed.

Lemma items_ok_count l : items_ok l -> zlen l < 2 ^ 64.
Proof.
  intros [_ Hnd Hr _]. destruct (decide (l = [])) as [->|Hne]; [done|].
  rewrite <- (length_fmap addr l). apply count_addrs; [done|done| |by destruct l].
  by apply Forall_fmap.
Qed.

(** ** Buckets *)

Lemma bucket_split lh i : wf lh -> 0 <= i < num_buckets lh ->
  exists bs1 bs2, buckets lh = bs1 ++ bucket lh i :: bs2 /\ zlen bs1 = i.
Proof.
  intros Hwf Hi. pose proof (wf_len lh Hwf) as Hl.
  destruct (nth_split (buckets lh) [] (n := Z.to_nat i)) as (bs1 & bs2 & H & Hn); [lia|].
  exists bs1, bs2. split; [exact H|lia].
Qed.

Lemma set_bucket_split lh bs1 c bs2 c' : buckets lh = bs1 ++ c :: bs2 ->
  buckets (set_bucket lh (zlen bs1) c') = bs1 ++ c' :: bs2.
Proof.
  intros H. cbn [set_bucket set_buckets buckets]. rewrite H, Nat2Z.id.
  rewrite insert_app_r_alt, Nat.sub_diag by lia. done.
Qed.

Lemma bucket_at lh bs1 c bs2 : buckets lh = bs1 ++ c :: bs2 -> bucket lh (zlen bs1) = c.
Proof. intros H. unfold bucket. rewrite H, Nat2Z.id, app_nth2, Nat.sub_diag by lia. done. Qed.

Lemma concat_middle {A} (bs1 : list (list A)) c bs2 : concat (bs1 ++ c :: bs2) ≡ₚ c ++ concat (bs1 ++ bs2).
Proof. rewrite !concat_app. cbn [concat]. solve_Permutation. Qed.

Lemma placed_middle n bs1 c bs2 c' : placed n (bs1 ++ c :: bs2) ->
  Forall (fun it => hash it mod n = zlen bs1) c' -> placed n (bs1 ++ c' :: bs2).
Proof.
  intros Hp Hc i x Hi. destruct (decide (i = length bs1)) as [->|Hne].
  - rewrite list_lookup_middle in Hi by done. injection Hi as <-. done.
  - apply (Hp i x). rewrite <- Hi. destruct (Nat.lt_ge_cases i (length bs1)).
    + by rewrite !lookup_app_l by lia.
    + rewrite !lookup_app_r by lia. by destruct (i - length bs1)%nat eqn:E; [lia|].
Qed.

Lemma placed_bucket n bs1 c bs2 : placed n (bs1 ++ c :: bs2) -> Forall (fun it => hash it mod n = zlen bs1) c.
Proof. intros Hp. apply (Hp (length bs1) c). by rewrite list_lookup_middle. Qed.

(** ** Finding *)

Lemma chain_find_spec c d :
  match c !! chain_find comp c d with
  | Some it => exists c1 c2, c = c1 ++ it :: c2 /\ length c1 = chain_find comp c d /\ item_key it = key d
  | None => chain_find comp c d = length c /\ Forall (fun it => item_key it <> key d) c
  end.
Proof.
  induction c as [|it c IH]; cbn [chain_find]; [by rewrite lookup_nil|]. case_if; cbn [lookup list_lookup].
  - exists [], c. split_and!; try done. by apply comp_key.
  - assert (Hk : item_key it <> key d) by (intros Hk; by apply comp_key in Hk).
    change (list_lookup (S ?n) (it :: c)) with (c !! n). cbn.
    destruct (c !! chain_find comp c d) as [it'|].
    + destruct IH as (c1 & c2 & -> & Hl & Hk'). exists (it :: c1), c2. split_and!; [done|cbn; lia|done].
    + destruct IH as [-> Hall]. split; [done|]. by constructor.
Qed.

(** The search looks at the only bucket that can hold the key. *)
Lemma get_next_spec lh d : wf lh ->
  exists bs1 c bs2 i, get_next_ptr_and_hash hash_func comp lh d = (u32 (hash_func d), zlen bs1, i) /\
    buckets lh = bs1 ++ c :: bs2 /\ bucket lh (zlen bs1) = c /\ zlen bs1 = u32 (hash_func d) mod num_buckets lh /\
    match c !! i with
    | Some it => exists c1 c2, c = c1 ++ it :: c2 /\ length c1 = i /\ item_key it = key d
    | None => i = length c /\ Forall (fun it => item_key it <> key d) (items lh)
    end.
Proof.
  intros Hwf. pose proof (wf_size lh Hwf) as Hs. unfold kMinNumBuckets in Hs.
  pose proof (Z.mod_pos_bound (u32 (hash_func d)) (num_buckets lh) ltac:(lia)) as Hm.
  destruct (bucket_split lh _ Hwf Hm) as (bs1 & bs2 & Hb & Hl).
  exists bs1, (bucket lh (u32 (hash_func d) mod num_buckets lh)), bs2, (chain_find comp (bucket lh (u32 (hash_func d) mod num_buckets lh)) d).
  unfold get_next_ptr_and_hash. rewrite Hl. split; [done|]. split; [done|]. split; [done|]. split; [done|].
  set (c := bucket lh _) in *. clearbody c. pose proof (chain_find_spec c d) as Hf.
  destruct (c !! chain_find comp c d) as [it|]; [done|]. destruct Hf as [He Hall]. split; [done|].
  apply Forall_forall. intros it Hin Hk. unfold items in Hin. rewrite Hb in Hin.
  rewrite concat_middle in Hin. apply elem_of_app in Hin as [Hin|Hin].
  { rewrite Forall_forall in Hall. by apply (Hall it). }
  (* an item elsewhere has another hash value *)
  assert (Hit : it ∈ items lh).
  { unfold items. rewrite Hb, concat_middle. apply elem_of_app. by right. }
  pose proof (ok_hash _ (wf_items lh Hwf)) as Hh. rewrite Forall_forall in Hh. apply Hh in Hit as Hhash.
  rewrite (hash_key _ _ Hk) in Hhash.
  rewrite concat_app in Hin. apply elem_of_app in Hin as [Hin|Hin]; apply list_elem_of_In, in_concat in Hin as (x & Hx & Hin);
    apply list_elem_of_In, list_elem_of_lookup in Hx as [j Hj].
  - apply lookup_lt_Some in Hj as Hlt. pose proof (wf_placed lh Hwf j x) as Hp. rewrite Hb, lookup_app_l in Hp by done.
    specialize (Hp Hj). rewrite Forall_forall in Hp. apply list_elem_of_In in Hin. apply Hp in Hin. rewrite Hhash in Hin. lia.
  - pose proof (wf_placed lh Hwf (length bs1 + S j)%nat x) as Hp. rewrite Hb, lookup_app_r in Hp by lia.
    replace (length bs1 + S j - length bs1)%nat with (S j) in Hp by lia. specialize (Hp Hj).
    rewrite Forall_forall in Hp. apply list_elem_of_In in Hin. apply Hp in Hin. rewrite Hhash in Hin. lia.
Qed.

(** ** The finite map *)

Lemma entry_keys l : (entry <$> l).*1 = item_key <$> l.
Proof. rewrite <- list_fmap_compose. done. Qed.

Lemma abs_perm lh l : items_ok l -> items lh ≡ₚ l -> abs lh = list_to_map (entry <$> l).
Proof.
  intros Hok Hp. unfold abs. apply list_to_map_proper; [|by rewrite Hp].
  rewrite entry_keys, Hp. apply Hok.
Qed.

Lemma lookup_absent (l : list LHASH_ITEM) k : Forall (fun it => item_key it <> k) l ->
  (list_to_map (entry <$> l) : gmap K Z) !! k = None.
Proof.
  intros Hall. apply not_elem_of_list_to_map_1. rewrite entry_keys. intros Hin.
  apply list_elem_of_fmap in Hin as (it & -> & Hit). rewrite Forall_forall in Hall. by apply (Hall it).
Qed.

Lemma absent_of l k : k ∉ (item_key <$> l) -> Forall (fun it => item_key it <> k) l.
Proof. intros Hn. apply Forall_forall. intros it Hin <-. apply Hn, list_elem_of_fmap. eauto. Qed.

(** ** Resizing *)

Definition sized (n : Z) (bs : list (list LHASH_ITEM)) : Prop := zlen bs = n /\ placed n bs.

Lemma move_item_spec n bs it : 0 < n -> sized n bs ->
  sized n (move_item n bs it) /\ concat (move_item n bs it) ≡ₚ it :: concat bs.
Proof.
  intros Hn [Hl Hp]. unfold move_item. pose proof (Z.mod_pos_bound (hash it) n Hn) as Hm.
  destruct (nth_split bs [] (n := Z.to_nat (hash it mod n))) as (bs1 & bs2 & Hb & Hbl); [lia|].
  set (c := nth _ bs []) in *. clearbody c. subst bs.
  rewrite insert_app_r_alt by lia. replace (Z.to_nat (hash it mod n) - length bs1)%nat with O by lia.
  cbn [insert list_insert]. split; [split|].
  - rewrite length_app in *. cbn [length] in *. lia.
  - apply (placed_middle n bs1 c); [done|]. constructor; [lia|]. by apply placed_bucket in Hp.
  - rewrite !concat_middle. done.
Qed.

Lemma move_chain_spec n chain bs : 0 < n -> sized n bs ->
  sized n (fold_left (move_item n) chain bs) /\ concat (fold_left (move_item n) chain bs) ≡ₚ chain ++ concat bs.
Proof.
  intros Hn. revert bs. induction chain as [|it chain IH]; intros bs Hs; [done|]. cbn [fold_left app].
  destruct (move_item_spec n bs it Hn Hs) as [Hs' Hp]. destruct (IH _ Hs') as [Hs2 Hp2].
  split; [done|]. rewrite Hp2, Hp. by rewrite Permutation_middle.
Qed.

Lemma move_all_spec n old bs : 0 < n -> sized n bs ->
  let nb := fold_left (fun nb chain => fold_left (move_item n) chain nb) old bs in
  sized n nb /\ concat nb ≡ₚ concat old ++ concat bs.
Proof.
  intros Hn. revert bs. induction old as [|c old IH]; intros bs Hs; [done|]. cbn [fold_left].
  destruct (move_chain_spec n c bs Hn Hs) as [Hs' Hp]. destruct (IH _ Hs') as [Hs2 Hp2].
  split; [done|]. cbv zeta in Hp2. rewrite Hp2, Hp. cbn [concat]. solve_Permutation.
Qed.

Lemma sized_empty n : 0 <= n -> sized n (zrepeat n []) /\ concat (zrepeat n ([] : list LHASH_ITEM)) = [].
Proof.
  intros Hn. unfold sized, zrepeat. rewrite length_replicate. split; [split; [lia|]|].
  - intros i c Hi. apply lookup_replicate in Hi as [-> _]. constructor.
  - induction (Z.to_nat n); [done|exact IHn0].
Qed.

(** What a resize may change: the buckets. *)
Record same_items (lh lh' : LHASH) : Prop := {
  same_perm : items lh' ≡ₚ items lh;
  same_count : num_items lh' = num_items lh;
  same_depth : callback_depth lh' = callback_depth lh
}.

Lemma lh_rebucket_spec ok lh n : wf lh -> kMinNumBuckets <= n < 2 ^ 64 ->
  let lh' := lh_rebucket ok lh n in
  wf lh' /\ same_items lh lh' /\ (num_buckets lh' = n \/ lh' = lh) /\
  (ok = true -> n < 2 ^ 61 -> num_buckets lh' = n).
Proof.
  intros Hwf Hn. unfold kMinNumBuckets in Hn. unfold lh_rebucket. rewrite u64_mod.
  assert (H61 : (8 * n) mod 2 ^ 64 / 8 = n -> n < 2 ^ 61).
  { intros He. pose proof (Z.mod_pos_bound (8 * n) (2 ^ 64) ltac:(lia)).
    pose proof (Z.div_lt_upper_bound ((8 * n) mod 2 ^ 64) 8 (2 ^ 61) ltac:(lia)). lia. }
  case_if; [|case_if].
  - split; [done|]. split; [done|]. split; [by right|]. intros _ Hlt. exfalso. apply E.
    rewrite Z.mod_small by lia. rewrite Z.mul_comm. by apply Z.div_mul.
  - split; [done|]. split; [done|]. split; [by right|]. intros ->. done.
  - specialize (H61 E). destruct (sized_empty n) as [Hs0 He0]; [lia|].
    destruct (move_all_spec n (ztake (num_buckets lh) (buckets lh)) _ ltac:(lia) Hs0) as [[Hl Hp] Hperm].
    rewrite ztake_all in * by (rewrite (wf_len lh Hwf); lia). rewrite He0, app_nil_r in Hperm.
    cbv zeta. set (nb := fold_left _ _ _) in *. clearbody nb.
    split; [|split; [|split; [by left|done]]].
    + destruct Hwf as [W1 W2 W3 W4 W5 W6]. split; cbn; try done.
      * unfold kMinNumBuckets. lia.
      * unfold items. cbn. by rewrite Hperm.
      * rewrite W5. unfold items. cbn. by rewrite Hperm.
    + by split.
Qed.

Lemma same_items_refl lh : same_items lh lh.
Proof. done. Qed.

Lemma lh_maybe_resize_spec ok lh : wf lh ->
  exists lh', lh_maybe_resize ok lh = Some lh' /\ wf lh' /\ same_items lh lh' /\
    (callback_depth lh > 0 -> lh' = lh).
Proof.
  intros Hwf. pose proof (wf_size lh Hwf) as Hs. unfold lh_maybe_resize, kMinNumBuckets in *.
  case_if; [by eexists|]. case_if; [lia|].
  assert (Hr : forall n, 16 <= n < 2 ^ 64 -> exists lh', Some (lh_rebucket ok lh n) = Some lh' /\ wf lh' /\ same_items lh lh' /\
    (callback_depth lh > 0 -> lh' = lh)).
  { intros n Hn. destruct (lh_rebucket_spec ok lh n Hwf) as (H1 & H2 & _); [done|]. eexists. split; [done|]. split; [done|]. split; [done|]. lia. }
  assert (Hid : exists lh', Some lh = Some lh' /\ wf lh' /\ same_items lh lh' /\ (callback_depth lh > 0 -> lh' = lh))
    by (exists lh; by split_and!).
  rewrite (u64_small (num_buckets lh * 2)) by (split; lia).
  pose proof (Z.div_lt_upper_bound (num_buckets lh) 2 (2 ^ 64)).
  repeat case_if; try apply Hr; try apply Hid; lia.
Qed.

(** ** The operations *)

Lemma abs_cons lh it rest : items_ok (items lh) -> items lh ≡ₚ it :: rest ->
  abs lh = <[item_key it := data it]> (list_to_map (entry <$> rest)) /\
  (list_to_map (entry <$> rest) : gmap K Z) !! item_key it = None /\ items_ok (it :: rest).
Proof.
  intros Hok Hp. rewrite Hp in Hok. pose proof Hok as (Hk & _)%items_ok_cons.
  rewrite (abs_perm lh _ Hok Hp). split_and!; [done| |done]. by apply lookup_absent, absent_of.
Qed.

Lemma abs_absent lh d : Forall (fun it => item_key it <> key d) (items lh) -> abs lh !! key d = None.
Proof. apply lookup_absent. Qed.

(** An item in its bucket, and the table after that bucket has changed. *)
Lemma items_split lh bs1 c1 it c2 bs2 : buckets lh = bs1 ++ (c1 ++ it :: c2) :: bs2 ->
  items lh ≡ₚ it :: c1 ++ c2 ++ concat (bs1 ++ bs2).
Proof. intros Hb. unfold items. rewrite Hb, concat_middle. solve_Permutation. Qed.

Lemma items_set lh bs1 c bs2 c' : buckets lh = bs1 ++ c :: bs2 ->
  items (set_bucket lh (zlen bs1) c') ≡ₚ c' ++ concat (bs1 ++ bs2).
Proof. intros Hb. unfold items. rewrite (set_bucket_split lh bs1 c bs2 c' Hb). apply concat_middle. Qed.

Lemma wf_set lh bs1 c bs2 c' n : wf lh -> buckets lh = bs1 ++ c :: bs2 ->
  Forall (fun it => hash it mod num_buckets lh = zlen bs1) c' ->
  items_ok (c' ++ concat (bs1 ++ bs2)) -> n = zlen (c' ++ concat (bs1 ++ bs2)) ->
  wf (set_num_items (set_bucket lh (zlen bs1) c') n).
Proof.
  intros [W1 W2 W3 W4 W5 W6] Hb Hc Hok Hn. pose proof (items_set lh bs1 c bs2 c' Hb) as Hp.
  split; cbn [set_num_items num_buckets set_bucket set_buckets callback_depth num_items buckets]; try done.
  - by rewrite length_insert.
  - pose proof (set_bucket_split lh bs1 c bs2 c' Hb) as Hs. cbn in Hs. rewrite Hs.
    rewrite Hb in W3. by apply (placed_middle _ bs1 c bs2).
  - change (items_ok (items (set_bucket lh (zlen bs1) c'))). by rewrite Hp.
  - change (n = zlen (items (set_bucket lh (zlen bs1) c'))). by rewrite Hp.
Qed.

(** The addresses malloc may return. *)
Definition fresh_item (item : option Z) (lh : LHASH) : Prop :=
  forall a, item = Some a -> 0 < a < 2 ^ 64 /\ a ∉ (addr <$> items lh).

(** Replacing the data of an item by equal data. *)
Definition replaced (lh : LHASH) (bs1 : list (list LHASH_ITEM)) (c1 : list LHASH_ITEM) (it : LHASH_ITEM) (d : Z)
    (c2 : list LHASH_ITEM) : LHASH :=
  set_bucket lh (zlen bs1) (c1 ++ mk_ITEM (addr it) d (hash it) :: c2).

Lemma replaced_wf lh bs1 c1 it c2 bs2 d : wf lh -> buckets lh = bs1 ++ (c1 ++ it :: c2) :: bs2 ->
  item_key it = key d ->
  wf (replaced lh bs1 c1 it d c2) /\ abs (replaced lh bs1 c1 it d c2) = <[key d := d]> (abs lh) /\
  abs lh !! key d = Some (data it).
Proof.
  intros Hwf Hb Hk. pose proof (items_split lh bs1 c1 it c2 bs2 Hb) as Hp.
  destruct (abs_cons lh it _ (wf_items lh Hwf) Hp) as (Ha & Hn & Hok). unfold replaced.
  set (it' := mk_ITEM (addr it) d (hash it)). assert (Hk' : item_key it' = item_key it) by (by rewrite Hk).
  assert (Hok' : items_ok (it' :: c1 ++ c2 ++ concat (bs1 ++ bs2))).
  { apply items_ok_cons in Hok as (? & ? & ? & Hh & ?). apply items_ok_cons. rewrite Hk'.
    do 3 (split; [assumption|]). split; [|assumption]. cbn. rewrite Hh. f_equal. by apply hash_key. }
  assert (Hp' : (c1 ++ it' :: c2) ++ concat (bs1 ++ bs2) ≡ₚ it' :: c1 ++ c2 ++ concat (bs1 ++ bs2)) by solve_Permutation.
  pose proof (wf_placed lh Hwf) as Hpl. rewrite Hb in Hpl. apply placed_bucket in Hpl.
  apply Forall_app in Hpl as [Hpl1 [Hit Hpl2]%Forall_cons]. split; [|split].
  - apply (wf_set lh bs1 (c1 ++ it :: c2) bs2 _ (num_items lh)); [done|done| |by rewrite Hp'|].
    + apply Forall_app; split; [done|]. by apply Forall_cons.
    + rewrite (wf_count lh Hwf), Hp', Hp. done.
  - rewrite (abs_perm _ _ Hok') by (by rewrite (items_set _ _ _ _ _ Hb)). rewrite Ha, Hk, fmap_cons.
    unfold entry at 1. cbn [list_to_map foldr uncurry]. rewrite Hk', Hk. cbn. by rewrite insert_insert_eq.
  - rewrite Ha, Hk. apply lookup_insert_eq.
Qed.

(** Adding an item at the end of its chain. *)
Definition added (lh : LHASH) (bs1 : list (list LHASH_ITEM)) (c : list LHASH_ITEM) (a d : Z) : LHASH :=
  set_num_items (set_bucket lh (zlen bs1) (c ++ [mk_ITEM a d (u32 (hash_func d))])) (num_items lh + 1).

Lemma added_wf lh bs1 c bs2 a d : wf lh -> buckets lh = bs1 ++ c :: bs2 ->
  zlen bs1 = u32 (hash_func d) mod num_buckets lh -> Forall (fun it => item_key it <> key d) (items lh) ->
  fresh_item (Some a) lh ->
  wf (added lh bs1 c a d) /\ abs (added lh bs1 c a d) = <[key d := d]> (abs lh) /\ num_items lh + 1 < 2 ^ 64.
Proof.
  intros Hwf Hb Hidx Hall Hfresh. destruct (Hfresh a eq_refl) as [Har Hna]. unfold added. set (it := mk_ITEM a d _).
  pose proof (wf_placed lh Hwf) as Hpl. rewrite Hb in Hpl. apply placed_bucket in Hpl.
  assert (Hp : (c ++ [it]) ++ concat (bs1 ++ bs2) ≡ₚ it :: items lh)
    by (unfold items; rewrite Hb, concat_middle; solve_Permutation).
  assert (Hok : items_ok (it :: items lh)).
  { apply items_ok_cons. split; [|split; [done|split; [done|split; [done|apply (wf_items lh Hwf)]]]].
    intros Hin. apply list_elem_of_fmap in Hin as (x & Hx & Hin). rewrite Forall_forall in Hall. by apply (Hall x). }
  pose proof (items_ok_count _ Hok) as Hcnt. cbn [length] in Hcnt. pose proof (wf_count lh Hwf) as Hc'.
  split; [|split; [|lia]].
  - apply (wf_set lh bs1 c bs2); [done|done| |by rewrite Hp|rewrite Hp; cbn [length]; lia].
    apply Forall_app; split; [done|]. apply Forall_cons; split; [by rewrite Hidx|by apply Forall_nil].
  - rewrite (abs_perm _ (it :: items lh) Hok); [done|]. rewrite <- Hp. apply (items_set lh bs1 c bs2 _ Hb).
Qed.

(** The three outcomes of an insertion. *)
Lemma lh_insert_cases item ok lh d : wf lh -> fresh_item item lh ->
  (exists bs1 c1 it c2 bs2, buckets lh = bs1 ++ (c1 ++ it :: c2) :: bs2 /\ item_key it = key d /\
     lh_insert hash_func comp item ok lh d = Some (1, data it, replaced lh bs1 c1 it d c2)) \/
  (exists bs1 c bs2 a, buckets lh = bs1 ++ c :: bs2 /\ item = Some a /\ abs lh !! key d = None /\
     zlen bs1 = u32 (hash_func d) mod num_buckets lh /\ Forall (fun it => item_key it <> key d) (items lh) /\
     lh_insert hash_func comp item ok lh d =
       match lh_maybe_resize ok (added lh bs1 c a d) with None => None | Some lh => Some (1, NULL, lh) end) \/
  (item = None /\ abs lh !! key d = None /\ lh_insert hash_func comp item ok lh d = Some (0, NULL, lh)).
Proof.
  intros Hwf Hfresh. destruct (get_next_spec lh d Hwf) as (bs1 & c & bs2 & i & Hg & Hb & Hc & Hidx & Hf).
  unfold lh_insert. rewrite Hg, Hc. destruct (c !! i) as [it|].
  - destruct Hf as (c1 & c2 & -> & Hi' & Hk). left. exists bs1, c1, it, c2, bs2. split; [done|]. split; [done|].
    unfold replaced. rewrite insert_app_r_alt by lia. by replace (i - length c1)%nat with O by lia.
  - destruct Hf as [-> Hall]. pose proof (abs_absent lh d Hall) as Habs. right. destruct item as [a|]; [left|by right].
    exists bs1, c, bs2, a. do 5 (split; [done|]). destruct (added_wf lh bs1 c bs2 a d Hwf Hb Hidx Hall Hfresh) as (_ & _ & Hlt).
    pose proof (wf_count lh Hwf) as Hc'.
    change (num_items (set_bucket _ _ _)) with (num_items lh). by rewrite u64_small by (split; lia).
Qed.

Lemma lh_insert_spec item ok lh d : wf lh -> fresh_item item lh ->
  exists r old lh', lh_insert hash_func comp item ok lh d = Some (r, old, lh') /\ wf lh' /\
    callback_depth lh' = callback_depth lh /\ old = default NULL (abs lh !! key d) /\
    (r = 1 /\ abs lh' = <[key d := d]> (abs lh) /\ (item = None -> is_Some (abs lh !! key d)) \/
     r = 0 /\ lh' = lh /\ item = None /\ abs lh !! key d = None).
Proof.
  intros Hwf Hfresh. destruct (lh_insert_cases item ok lh d Hwf Hfresh)
    as [(bs1 & c1 & it & c2 & bs2 & Hb & Hk & ->)|[(bs1 & c & bs2 & a & Hb & -> & Hn & Hidx & Hall & ->)|(-> & Hn & ->)]].
  - destruct (replaced_wf lh bs1 c1 it c2 bs2 d Hwf Hb Hk) as (Hw & Ha & Hold).
    eexists 1, _, _. split; [done|]. split; [done|]. split; [done|]. rewrite Hold. split; [done|].
    left. split; [done|]. by split.
  - destruct (added_wf lh bs1 c bs2 a d Hwf Hb Hidx Hall Hfresh) as (Hw & Ha & _).
    destruct (lh_maybe_resize_spec ok _ Hw) as (lh' & -> & Hw' & [S1 S2 S3] & _).
    exists 1, NULL, lh'. split; [done|]. split; [done|]. split; [by rewrite S3|]. rewrite Hn. split; [done|].
    left. split; [done|]. split; [|done]. rewrite <- Ha. symmetry. apply abs_perm; [apply (wf_items _ Hw')|]. by rewrite S1.
  - exists 0, NULL, lh. rewrite Hn. split_and!; try done. by right.
Qed.

(** Removing the item from its place. *)
Definition removed (lh : LHASH) (bs1 : list (list LHASH_ITEM)) (c : list LHASH_ITEM) : LHASH :=
  set_num_items (set_bucket lh (zlen bs1) c) (num_items lh - 1).

Lemma removed_wf lh bs1 c1 it c2 bs2 : wf lh -> buckets lh = bs1 ++ (c1 ++ it :: c2) :: bs2 ->
  let lh' := removed lh bs1 (c1 ++ c2) in
  wf lh' /\ buckets lh' = bs1 ++ (c1 ++ c2) :: bs2 /\ abs lh' = delete (item_key it) (abs lh) /\ 0 < num_items lh.
Proof.
  intros Hwf Hb. pose proof (items_split lh bs1 c1 it c2 bs2 Hb) as Hp.
  destruct (abs_cons lh it _ (wf_items lh Hwf) Hp) as (Ha & Hn & Hok).
  pose proof (wf_placed lh Hwf) as Hpl. rewrite Hb in Hpl. apply placed_bucket in Hpl.
  apply Forall_app in Hpl as [Hpl1 [_ Hpl2]%Forall_cons]. pose proof (wf_count lh Hwf) as Hc.
  apply items_ok_cons in Hok as (_ & _ & _ & _ & Hok). rewrite Hp in Hc. cbn [length] in Hc.
  rewrite app_assoc in Hok, Hc, Hn, Ha. cbv zeta. split; [|split; [|split; [|lia]]].
  - apply (wf_set lh bs1 (c1 ++ it :: c2) bs2); [done|done| |done|lia]. by apply Forall_app.
  - by apply (set_bucket_split lh bs1 (c1 ++ it :: c2)).
  - rewrite (abs_perm _ ((c1 ++ c2) ++ concat (bs1 ++ bs2))); [|done|by apply (items_set lh bs1 (c1 ++ it :: c2) bs2)].
    rewrite Ha. by rewrite delete_insert_id.
Qed.

(** A key has one place. *)
Lemma same_place lh bs1 c1 it c2 bs2 bs1' c1' it' c2' bs2' : wf lh ->
  buckets lh = bs1 ++ (c1 ++ it :: c2) :: bs2 -> buckets lh = bs1' ++ (c1' ++ it' :: c2') :: bs2' ->
  item_key it = item_key it' -> bs1 = bs1' /\ c1 = c1' /\ c2 = c2' /\ bs2 = bs2'.
Proof.
  intros Hwf Hb Hb' Hk.
  assert (Hlen : length bs1 = length bs1').
  { pose proof (wf_placed lh Hwf) as Hp. pose proof (ok_hash _ (wf_items lh Hwf)) as Hh.
    pose proof Hp as Hp2. rewrite Hb in Hp. rewrite Hb' in Hp2. apply placed_bucket in Hp, Hp2.
    apply Forall_app in Hp as [_ [Hp _]%Forall_cons], Hp2 as [_ [Hp2 _]%Forall_cons].
    pose proof Hh as Hh2. rewrite (items_split lh _ _ _ _ _ Hb) in Hh. rewrite (items_split lh _ _ _ _ _ Hb') in Hh2.
    apply Forall_cons in Hh as [Hh _], Hh2 as [Hh2 _]. rewrite Hh in Hp. rewrite Hh2 in Hp2.
    rewrite (hash_key _ _ Hk) in Hp. lia. }
  pose proof (ok_keys _ (wf_items lh Hwf)) as Hnd. rewrite Hb in Hb'.
  apply app_inj_1 in Hb' as [<- Hb']; [|done]. injection Hb' as Hc <-.
  unfold items in Hnd. rewrite Hb, concat_middle, fmap_app in Hnd. apply NoDup_app in Hnd as (Hnd & _ & _).
  assert (Hcl : length c1 = length c1').
  { apply (NoDup_lookup (item_key <$> c1 ++ it :: c2) (length c1) (length c1') (item_key it)); [done| |].
    - rewrite list_lookup_fmap, list_lookup_middle by done. done.
    - rewrite Hc, list_lookup_fmap, list_lookup_middle by done. cbn. by rewrite Hk. }
  apply app_inj_1 in Hc as [<- Hc]; [|done]. by injection Hc as _ <-.
Qed.

Lemma lh_delete_cases ok lh d : wf lh ->
  (exists bs1 c1 it c2 bs2, buckets lh = bs1 ++ (c1 ++ it :: c2) :: bs2 /\ item_key it = key d /\
     lh_delete hash_func comp ok lh d =
       match lh_maybe_resize ok (removed lh bs1 (c1 ++ c2)) with None => None | Some lh => Some (data it, lh) end) \/
  (Forall (fun it => item_key it <> key d) (items lh) /\ lh_delete hash_func comp ok lh d = Some (NULL, lh)).
Proof.
  intros Hwf. destruct (get_next_spec lh d Hwf) as (bs1 & c & bs2 & i & Hg & Hb & Hc & Hidx & Hf).
  unfold lh_delete. rewrite Hg, Hc. destruct (c !! i) as [it|]; [left|right; by destruct Hf].
  destruct Hf as (c1 & c2 & -> & <- & Hk). exists bs1, c1, it, c2, bs2. split; [done|]. split; [done|].
  rewrite take_app_length. replace (drop (S (length c1)) (c1 ++ it :: c2)) with c2
    by (change (it :: c2) with ([it] ++ c2); rewrite app_assoc;
        replace (S (length c1)) with (length (c1 ++ [it])) by (rewrite length_app; cbn; lia); by rewrite drop_app_length).
  destruct (removed_wf lh bs1 c1 it c2 bs2 Hwf Hb) as (_ & _ & _ & Hpos).
  pose proof (items_ok_count _ (wf_items lh Hwf)) as Hcnt. pose proof (wf_count lh Hwf) as Hc'.
  change (num_items (set_bucket _ _ _)) with (num_items lh). by rewrite u64_small by (split; lia).
Qed.

Lemma lh_delete_spec ok lh d : wf lh ->
  exists lh', lh_delete hash_func comp ok lh d = Some (default NULL (abs lh !! key d), lh') /\ wf lh' /\
    callback_depth lh' = callback_depth lh /\ abs lh' = delete (key d) (abs lh) /\
    forall bs1 c1 it c2 bs2, buckets lh = bs1 ++ (c1 ++ it :: c2) :: bs2 -> d = data it ->
      callback_depth lh > 0 -> buckets lh' = bs1 ++ (c1 ++ c2) :: bs2 /\ num_buckets lh' = num_buckets lh.
Proof.
  intros Hwf. destruct (lh_delete_cases ok lh d Hwf) as [(bs1 & c1 & it & c2 & bs2 & Hb & Hk & ->)|(Hall & ->)].
  - destruct (removed_wf lh bs1 c1 it c2 bs2 Hwf Hb) as (Hw & Hb' & Ha & _).
    destruct (lh_maybe_resize_spec ok _ Hw) as (lh' & -> & Hw' & [S1 S2 S3] & Hsame).
    exists lh'. assert (Hd : abs lh !! key d = Some (data it)).
    { destruct (abs_cons lh it _ (wf_items lh Hwf) (items_split lh bs1 c1 it c2 bs2 Hb)) as (He & _ & _).
      rewrite He, Hk. by rewrite lookup_insert_eq. }
    rewrite Hd. split; [done|]. split; [done|]. split; [done|]. split.
    + rewrite <- Hk, <- Ha. symmetry. apply abs_perm; [apply (wf_items _ Hw')|]. by rewrite S1.
    + intros bs1' c1' it' c2' bs2' Hb2 -> Hdep. rewrite (Hsame Hdep). split; [|done].
      destruct (same_place lh bs1 c1 it c2 bs2 bs1' c1' it' c2' bs2' Hwf Hb Hb2 Hk) as (-> & -> & -> & ->). done.
  - exists lh. rewrite (abs_absent lh d Hall). split; [done|]. split; [done|]. split; [done|].
    split; [by rewrite delete_id by (by apply abs_absent)|]. intros bs1' c1 it c2 bs2' Hb' -> _. exfalso.
    rewrite Forall_forall in Hall. apply (Hall it); [|done]. rewrite (items_split lh _ _ _ _ _ Hb'). by left.
Qed.

(** ** Sequences of operations *)

Inductive op :=
  | Insert (item : option Z) (alloc_ok : bool) (d : Z)
  | Delete (alloc_ok : bool) (d : Z)
  | Retrieve (d : Z)
  | NumItems.

(** Two results: the return value and [*old_data]. *)
Definition run_op (o : op) (lh : LHASH) : option (Z * Z * LHASH) :=
  match o with
  | Insert item ok d => lh_insert hash_func comp item ok lh d
  | Delete ok d => match lh_delete hash_func comp ok lh d with
                   | None => None
                   | Some (r, lh) => Some (r, NULL, lh)
                   end
  | Retrieve d => Some (lh_retrieve hash_func comp lh d, NULL, lh)
  | NumItems => Some (lh_num_items lh, NULL, lh)
  end.

Definition spec_op (o : op) (m : gmap K Z) : Z * Z * gmap K Z :=
  match o with
  | Insert item _ d =>
      match m !! key d, item with
      | Some old, _ => (1, old, <[key d := d]> m)
      | None, Some _ => (1, NULL, <[key d := d]> m)
      | None, None => (0, NULL, m)
      end
  | Delete _ d => (default NULL (m !! key d), NULL, delete (key d) m)
  | Retrieve d => (default NULL (m !! key d), NULL, m)
  | NumItems => (Z.of_nat (size m), NULL, m)
  end.

Fixpoint run (ops : list op) (lh : LHASH) : option (list (Z * Z) * LHASH) :=
  match ops with
  | [] => Some ([], lh)
  | o :: ops =>
      match run_op o lh with
      | None => None
      | Some (r, lh) => match run ops lh with
                        | None => None
                        | Some (rs, lh) => Some (r :: rs, lh)
                        end
      end
  end.

Fixpoint spec_run (ops : list op) (m : gmap K Z) : list (Z * Z) * gmap K Z :=
  match ops with
  | [] => ([], m)
  | o :: ops => let '(r, m) := spec_op o m in let '(rs, m) := spec_run ops m in (r :: rs, m)
  end.

(** malloc returns a non-NULL address that is not in use. *)
Definition fresh_op (o : op) (lh : LHASH) : Prop :=
  match o with
  | Insert item _ _ => fresh_item item lh
  | _ => True
  end.

Fixpoint fresh_ops (ops : list op) (lh : LHASH) : Prop :=
  match ops with
  | [] => True
  | o :: ops => fresh_op o lh /\
      match run_op o lh with Some (_, lh) => fresh_ops ops lh | None => True end
  end.

Lemma abs_lookup lh k d : wf lh -> abs lh !! k = Some d <-> exists it, it ∈ items lh /\ entry it = (k, d).
Proof.
  intros Hwf. unfold abs. rewrite <- elem_of_list_to_map by (rewrite entry_keys; apply (wf_items lh Hwf)).
  rewrite list_elem_of_fmap. split; intros (it & H1 & H2); by exists it.
Qed.

Lemma abs_size lh : wf lh -> Z.of_nat (size (abs lh)) = num_items lh.
Proof.
  intros Hwf. unfold abs. rewrite map_size_list_to_map by (rewrite entry_keys; apply (wf_items lh Hwf)).
  rewrite length_fmap. by rewrite (wf_count lh Hwf).
Qed.

Lemma lh_retrieve_spec lh d : wf lh -> lh_retrieve hash_func comp lh d = default NULL (abs lh !! key d).
Proof.
  intros Hwf. destruct (get_next_spec lh d Hwf) as (bs1 & c & bs2 & i & Hg & Hb & Hc & Hidx & Hf).
  unfold lh_retrieve. rewrite Hg, Hc. destruct (c !! i) as [it|].
  - destruct Hf as (c1 & c2 & -> & _ & Hk).
    destruct (abs_cons lh it _ (wf_items lh Hwf) (items_split lh bs1 c1 it c2 bs2 Hb)) as (He & _ & _).
    rewrite He, Hk. by rewrite lookup_insert_eq.
  - destruct Hf as [_ Hall]. by rewrite (abs_absent lh d Hall).
Qed.

Lemma lh_run_op_spec o lh : wf lh -> fresh_op o lh ->
  let '(r, m) := spec_op o (abs lh) in
  exists lh', run_op o lh = Some (r, lh') /\ wf lh' /\ abs lh' = m /\ callback_depth lh' = callback_depth lh.
Proof.
  intros Hwf Hfresh. destruct o as [item ok d|ok d|d| ]; cbn [spec_op run_op fresh_op] in *.
  - destruct (lh_insert_spec item ok lh d Hwf Hfresh) as (r & old & lh' & -> & Hw & Hd & -> & Hr).
    destruct Hr as [(-> & Ha & Hs)|(-> & -> & -> & Hn)].
    + destruct (abs lh !! key d) as [x|]; [exists lh'; by split_and!|].
      destruct item as [a|]; [exists lh'; by split_and!|]. by destruct (Hs eq_refl).
    + rewrite Hn. exists lh. by split_and!.
  - destruct (lh_delete_spec ok lh d Hwf) as (lh' & -> & Hw & Hd & Ha & _). exists lh'. by split_and!.
  - exists lh. rewrite lh_retrieve_spec by done. by split_and!.
  - exists lh. unfold lh_num_items. rewrite abs_size by done. by split_and!.
Qed.

Lemma lh_run_spec ops lh : wf lh -> fresh_ops ops lh ->
  exists lh', run ops lh = Some ((spec_run ops (abs lh)).1, lh') /\ wf lh' /\ abs lh' = (spec_run ops (abs lh)).2.
Proof.
  revert lh. induction ops as [|o ops IH]; intros lh Hwf Hf; [by exists lh|].
  destruct Hf as [Hf1 Hf]. pose proof (lh_run_op_spec o lh Hwf Hf1) as Ho. cbn [run spec_run].
  destruct (spec_op o (abs lh)) as [r m]. destruct Ho as (lh1 & Hr & Hw1 & <- & _). rewrite Hr in *.
  destruct (IH lh1 Hw1 Hf) as (lh2 & Hr2 & Hw2 & Ha2). rewrite Hr2.
  destruct (spec_run ops (abs lh1)) as [rs m2]. exists lh2. by split_and!.
Qed.

Lemma lh_new_wf ok1 ok2 lh : lh_new ok1 ok2 = Some lh -> wf lh /\ abs lh = ∅ /\ callback_depth lh = 0 /\ load_ok lh.
Proof.
  unfold lh_new. destruct ok1, ok2; try done. intros [= <-]. cbn [negb].
  destruct (sized_empty kMinNumBuckets) as [[Hl Hp] Hc]; [done|]. split; [split; try done|].
  - unfold items. cbn [buckets]. rewrite Hc. split; constructor.
  - unfold abs, items. cbn [buckets]. rewrite Hc. split_and!; try done. split; [done|by left].
Qed.

(** ** Load *)

Lemma resize_load lh lh' : wf lh -> callback_depth lh = 0 -> num_buckets lh < 2 ^ 60 ->
  num_items lh <= 3 * num_buckets lh -> num_buckets lh = kMinNumBuckets \/ num_buckets lh - 1 <= num_items lh ->
  lh_maybe_resize true lh = Some lh' -> load_ok lh'.
Proof.
  intros Hwf Hd Hn Hmax Hmin. pose proof (wf_size lh Hwf) as Hs. unfold lh_maybe_resize, kMinNumBuckets,
    kMaxAverageChainLength, kMinAverageChainLength in *.
  assert (Hr : forall n, 16 <= n < 2 ^ 61 -> num_items lh < 3 * n -> n = 16 \/ n <= num_items lh ->
    Some (lh_rebucket true lh n) = Some lh' -> load_ok lh').
  { intros n Hb H1 H2 [= <-]. destruct (lh_rebucket_spec true lh n Hwf) as (_ & [_ S2 _] & _ & Hnb); [unfold kMinNumBuckets; lia|].
    unfold load_ok. rewrite S2, Hnb by (done || lia). done. }
  rewrite Hd. cbn [Z.gtb Z.compare]. case_if; [lia|].
  pose proof (Z.div_mod (num_items lh) (num_buckets lh) ltac:(lia)) as Hdm.
  pose proof (Z.mod_pos_bound (num_items lh) (num_buckets lh) ltac:(lia)) as Hmb.
  set (q := num_items lh / num_buckets lh) in *. set (r := num_items lh mod num_buckets lh) in *. clearbody q r.
  pose proof (Z.div_mod (num_buckets lh) 2 ltac:(lia)) as Hdm2.
  pose proof (Z.mod_pos_bound (num_buckets lh) 2 ltac:(lia)) as Hmb2.
  set (q2 := num_buckets lh / 2) in *. clearbody q2. set (r2 := num_buckets lh mod 2) in *. clearbody r2.
  rewrite (u64_small (num_buckets lh * 2)) by (split; lia).
  assert (Hid : num_items lh < 3 * num_buckets lh -> num_buckets lh = 16 \/ num_buckets lh <= num_items lh ->
    Some lh = Some lh' -> load_ok lh') by (by intros H1 H2 [= <-]).
  pose proof (Z.le_gt_cases 1 q) as Hq1. pose proof (Z.le_gt_cases q 2) as Hq2.
  repeat case_if; first [apply Hr | apply Hid | lia]; try nia.
Qed.

Definition gets_array (o : op) : bool :=
  match o with
  | Insert _ ok _ | Delete ok _ => ok
  | _ => true
  end.

Lemma run_op_load o lh r lh' : wf lh -> fresh_op o lh -> gets_array o = true -> callback_depth lh = 0 ->
  num_buckets lh < 2 ^ 60 -> load_ok lh -> run_op o lh = Some (r, lh') -> load_ok lh'.
Proof.
  intros Hwf Hfresh Hok Hd Hn Hload. destruct o as [item ok d|ok d|d| ]; cbn [run_op fresh_op gets_array] in *.
  - subst ok. unfold load_ok in *. destruct (lh_insert_cases item true lh d Hwf Hfresh)
      as [(bs1 & c1 & it & c2 & bs2 & _ & _ & ->)|[(bs1 & c & bs2 & a & Hb & -> & _ & Hidx & Hall & ->)|(_ & _ & ->)]];
      [by intros [= _ <-]| |by intros [= _ <-]].
    destruct (added_wf lh bs1 c bs2 a d Hwf Hb Hidx Hall Hfresh) as (Hw & _ & _).
    destruct (lh_maybe_resize true _) as [lh1|] eqn:Hr; [|done]. intros [= _ <-].
    apply (resize_load _ _ Hw Hd) in Hr; [done|done|cbn; lia|cbn; lia].
  - subst ok. unfold load_ok in *. destruct (lh_delete_cases true lh d Hwf)
      as [(bs1 & c1 & it & c2 & bs2 & Hb & _ & ->)|(_ & ->)]; [|by intros [= _ <-]].
    destruct (removed_wf lh bs1 c1 it c2 bs2 Hwf Hb) as (Hw & _ & _ & _).
    destruct (lh_maybe_resize true _) as [lh1|] eqn:Hr; [|done]. intros [= _ <-].
    apply (resize_load _ _ Hw Hd) in Hr; [done|done|cbn; lia|cbn; lia].
  - by intros [= _ <-].
  - by intros [= _ <-].
Qed.

(** ** Iteration *)

Lemma chain_item_at c1 it c2 : addr it ∉ (addr <$> c1) ->
  chain_item (c1 ++ it :: c2) (addr it) = Some (it, addr <$> head c2).
Proof.
  induction c1 as [|x c1 IH]; cbn [chain_item app]; [by rewrite Z.eqb_refl|].
  rewrite fmap_cons, not_elem_of_cons. intros [Hx Hn]. by rewrite (proj2 (Z.eqb_neq _ _)), IH by done.
Qed.

Lemma chain_item_none c a : a ∉ (addr <$> c) -> chain_item c a = None.
Proof.
  induction c as [|x c IH]; cbn [chain_item]; [done|].
  rewrite fmap_cons, not_elem_of_cons. intros [Hx Hn]. by rewrite (proj2 (Z.eqb_neq _ _)), IH by done.
Qed.

Lemma load_item_at bs1 c1 it c2 bs2 : NoDup (addr <$> concat (bs1 ++ (c1 ++ it :: c2) :: bs2)) ->
  load_item (bs1 ++ (c1 ++ it :: c2) :: bs2) (addr it) = Some (it, addr <$> head c2).
Proof.
  induction bs1 as [|c bs1 IH]; cbn [app concat load_item]; rewrite fmap_app; intros Hnd; apply NoDup_app in Hnd as (H1 & H2 & H3).
  - rewrite chain_item_at; [done|]. rewrite fmap_app in H1. apply NoDup_app in H1 as (_ & H1 & _).
    intros Hin. apply (H1 _ Hin). rewrite fmap_cons. by left.
  - rewrite chain_item_none; [by apply IH|]. intros Hin. apply (H2 _ Hin).
    rewrite concat_middle, !fmap_app, !elem_of_app. left. right. rewrite fmap_cons. by left.
Qed.

(** A callback that notes the element it is given, and deletes it if [del] says so. *)
Definition visit (del : Z -> bool) (ok : bool) (d : Z) (st : list Z) (lh : LHASH) : option (list Z * LHASH) :=
  if del d then
    match lh_delete hash_func comp ok lh d with
    | None => None
    | Some (_, lh) => Some (st ++ [d], lh)
    end
  else Some (st ++ [d], lh).

Definition kept (del : Z -> bool) (c : list LHASH_ITEM) : list LHASH_ITEM :=
  List.filter (fun it => negb (del (data it))) c.

(** The table a loop leaves. *)
Definition iterated (lh : LHASH) (bs : list (list LHASH_ITEM)) (lh' : LHASH) : Prop :=
  wf lh' /\ buckets lh' = bs /\ num_buckets lh' = num_buckets lh /\ callback_depth lh' = callback_depth lh.

Lemma iterated_trans lh bs lh1 bs' lh' : iterated lh bs lh1 -> iterated lh1 bs' lh' -> iterated lh bs' lh'.
Proof. intros (_ & _ & H1 & H2) (H3 & H4 & H5 & H6). split_and!; try done; congruence. Qed.

(** One step of the loop: the item is visited, and its successor is still there. *)
Lemma visit_step del ok st lh bs1 c1 it c2 bs2 : wf lh -> callback_depth lh > 0 ->
  buckets lh = bs1 ++ (c1 ++ it :: c2) :: bs2 ->
  exists lh', visit del ok (data it) st lh = Some (st ++ [data it], lh') /\
    iterated lh (bs1 ++ ((c1 ++ kept del [it]) ++ c2) :: bs2) lh'.
Proof.
  intros Hwf Hd Hb. unfold visit, kept. cbn [List.filter]. destruct (del (data it)); cbn [negb].
  - destruct (lh_delete_spec ok lh (data it) Hwf) as (lh' & -> & Hw & Hdep & _ & Hbs).
    destruct (Hbs bs1 c1 it c2 bs2 Hb eq_refl Hd) as [Hb' Hn]. exists lh'. rewrite app_nil_r. by split_and!.
  - exists lh. rewrite <- app_assoc. by split_and!.
Qed.

Lemma doall_chain_spec del ok fuel st lh bs1 c1 rest bs2 : wf lh -> callback_depth lh > 0 ->
  buckets lh = bs1 ++ (c1 ++ rest) :: bs2 -> (length rest < fuel)%nat ->
  exists lh', doall_chain (visit del ok) fuel (addr <$> head rest) st lh = Some (st ++ map data rest, lh') /\
    iterated lh (bs1 ++ (c1 ++ kept del rest) :: bs2) lh'.
Proof.
  revert st lh c1 rest. induction fuel as [|fuel IH]; intros st lh c1 rest Hwf Hd Hb Hf; [lia|].
  destruct rest as [|it rest]; cbn [doall_chain head].
  { exists lh. rewrite !app_nil_r in *. by split_and!. }
  cbn [fmap option_fmap option_map].
  pose proof (ok_addrs _ (wf_items lh Hwf)) as Hnd. unfold items in Hnd. rewrite Hb in Hnd.
  rewrite Hb, (load_item_at bs1 c1 it rest bs2 Hnd).
  destruct (visit_step del ok st lh bs1 c1 it rest bs2 Hwf Hd Hb) as (lh1 & -> & Hit).
  pose proof Hit as (Hw1 & Hb1 & _ & Hd1). cbn [length] in Hf.
  destruct (IH (st ++ [data it]) lh1 (c1 ++ kept del [it]) rest Hw1 ltac:(lia) Hb1 ltac:(lia)) as (lh2 & Hr & Hit2).
  exists lh2. cbn [map]. change (data it :: map data rest) with ([data it] ++ map data rest). rewrite app_assoc.
  split; [exact Hr|]. eapply iterated_trans; [exact Hit|]. unfold kept in *. rewrite <- app_assoc in Hit2.
  by rewrite <- List.filter_app in Hit2.
Qed.

Lemma doall_buckets_spec del ok fuel cfuel st lh bs1 todo : wf lh -> callback_depth lh > 0 ->
  buckets lh = bs1 ++ todo -> (length todo < fuel)%nat -> Forall (fun c => (length c < cfuel)%nat) todo ->
  exists lh', doall_buckets (visit del ok) fuel cfuel (zlen bs1) st lh = Some (st ++ map data (concat todo), lh') /\
    iterated lh (bs1 ++ map (kept del) todo) lh'.
Proof.
  revert st lh bs1 todo. induction fuel as [|fuel IH]; intros st lh bs1 todo Hwf Hd Hb Hf Hc; [lia|].
  cbn [doall_buckets]. pose proof (wf_len lh Hwf) as Hl. rewrite Hb, length_app in Hl.
  destruct todo as [|c todo]; cbn [length] in *.
  { rewrite (proj2 (Z.ltb_ge _ _)) by lia. exists lh. rewrite !app_nil_r in *. by split_and!. }
  rewrite (proj2 (Z.ltb_lt _ _)) by lia. rewrite (bucket_at lh bs1 c todo Hb). apply Forall_cons in Hc as [Hc Hcs].
  destruct (doall_chain_spec del ok cfuel st lh bs1 [] c todo Hwf Hd Hb Hc) as (lh1 & -> & Hit).
  pose proof Hit as (Hw1 & Hb1 & _ & Hd1). cbn [app] in Hb1, Hit.
  replace (zlen bs1 + 1) with (zlen (bs1 ++ [kept del c])) by zlia.
  destruct (IH (st ++ map data c) lh1 (bs1 ++ [kept del c]) todo Hw1) as (lh2 & Hr & Hit2);
    [lia|by rewrite <- app_assoc|lia|done|].
  exists lh2. cbn [concat map]. rewrite map_app, app_assoc. split; [exact Hr|].
  eapply iterated_trans; [exact Hit|]. by rewrite <- app_assoc in Hit2.
Qed.

Lemma set_depth_wf lh n : wf lh -> 0 <= n -> wf (set_depth lh n).
Proof. intros [W1 W2 W3 W4 W5 W6] Hn. by split. Qed.

Lemma lh_doall_visit del ok1 ok2 fuel lh : wf lh -> callback_depth lh < UINT_MAX - 1 ->
  zlen (items lh) + num_buckets lh < Z.of_nat fuel ->
  exists lh', lh_doall_arg (visit del ok1) fuel ok2 (Some lh) [] = Some (map data (items lh), Some lh') /\
    wf lh' /\ items lh' ≡ₚ kept del (items lh) /\ callback_depth lh' = callback_depth lh.
Proof.
  intros Hwf Hd Hf. unfold lh_doall_arg. pose proof (wf_depth lh Hwf) as Hd0. unfold UINT_MAX in *.
  pose proof (wf_size lh Hwf) as Hsz. unfold kMinNumBuckets in Hsz.
  rewrite (proj2 (Z.ltb_lt _ _)) by lia. set (lh1 := set_depth lh (callback_depth lh + 1)).
  assert (Hw1 : wf lh1) by (apply set_depth_wf; [done|lia]).
  destruct (doall_buckets_spec del ok1 fuel fuel [] lh1 [] (buckets lh)) as (lh2 & Hr & Hw2 & Hb2 & Hn2 & Hd2).
  - done.
  - cbn. lia.
  - done.
  - rewrite <- (wf_len lh Hwf) in Hf. lia.
  - apply Forall_forall. intros c Hin. apply list_elem_of_lookup in Hin as [i Hi].
    apply take_drop_middle in Hi. unfold items in Hf. rewrite <- Hi, concat_middle, length_app in Hf. lia.
  - change (zlen []) with 0 in Hr. rewrite Hr. cbn [app]. rewrite Hd2. unfold lh1. cbn [set_depth callback_depth].
    rewrite (proj2 (Z.ltb_lt _ _)) by lia. rewrite u32_small by (split; lia).
    replace (callback_depth lh + 1 - 1) with (callback_depth lh) by lia.
    assert (Hw3 : wf (set_depth lh2 (callback_depth lh))) by by apply set_depth_wf.
    destruct (lh_maybe_resize_spec ok2 _ Hw3) as (lh3 & -> & Hw4 & [S1 S2 S3] & _).
    exists lh3. split; [done|]. split; [done|]. split; [|done]. rewrite S1. unfold items. cbn [set_depth buckets].
    rewrite Hb2. cbn [app]. clear. unfold kept. induction (buckets lh) as [|c bs IH]; [done|].
    cbn [map concat]. by rewrite IH, List.filter_app.
Qed.

(** The map of what is kept. *)
Lemma abs_kept del lh lh' : wf lh -> wf lh' -> items lh' ≡ₚ kept del (items lh) ->
  abs lh' = filter (fun kd => del kd.2 = false) (abs lh).
Proof.
  intros Hw Hw' Hp. apply map_eq. intros k. apply option_eq. intros d.
  rewrite map_lookup_filter_Some, !abs_lookup by done. cbn [snd].
  assert (Hin : forall it, it ∈ items lh' <-> it ∈ items lh /\ del (data it) = false).
  { intros it. rewrite Hp. unfold kept. rewrite !list_elem_of_In, List.filter_In, negb_true_iff. done. }
  split.
  - intros (it & [H1 H2]%Hin & He). split; [by exists it|]. by injection He as _ <-.
  - intros [(it & H1 & He) H2]. exists it. split; [|done]. apply Hin. split; [done|]. by injection He as _ <-.
Qed.

End Spec.

(** For concrete runs. *)
Lemma fresh_cons hash_func comp o ops lh r lh' : fresh_op o lh -> run_op (hash_func:=hash_func) (comp:=comp) o lh = Some (r, lh') ->
  fresh_ops (hash_func:=hash_func) (comp:=comp) ops lh' -> fresh_ops (hash_func:=hash_func) (comp:=comp) (o :: ops) lh.
Proof. intros Ho Hr Hf. split; [done|]. by rewrite Hr. Qed.

Ltac fresh_tac :=
  first [exact I | intros ? [= <-]; split; [lia|apply (bool_decide_unpack _); vm_compute; exact I] | intros ? [=]].

Arguments wf {hash_func comp K _ _ KS} lh.

(** * The string hash *)

Lemma strhash_shift v : 0 <= Z.land v 0x0f <= 15.
Proof.
  change 0x0f with (Z.ones 4). rewrite Z.land_ones by lia. change (2 ^ 4) with 16. change (Z.ones 4) with 15.
  pose proof (Z.mod_pos_bound v 16 eq_refl). lia.
Qed.

Lemma strhash_fold signed s st : fold_left (strhash_step 64 signed) s (Some st) <> None.
Proof.
  revert st. induction s as [|c s IH]; intros [ret n]; [done|]. cbn [fold_left]. unfold strhash_step at 2.
  cbv zeta. match goal with |- context [Z.land ?v 0x0f] => pose proof (strhash_shift v) end.
  rewrite (proj2 (Z.leb_gt _ _)) by lia. apply IH.
Qed.

(** * Properties *)

(** C28. Refinement of a finite map. A new table is empty; after any sequence of
    insertions, deletions, lookups and counts, whatever the outcomes of malloc, no
    assertion has failed, every result is the one of the finite map on keys and the
    table represents the map: an insertion of an equal element replaces it and
    returns the old one, and fails only when a new item cannot be allocated; resizing
    never loses, duplicates or misplaces an element. *)
Theorem lh_refines_map hash_func comp (K : Type) `{Countable K} (KS : KeySpec hash_func comp K) lh ops :
  lh_new true true = Some lh -> fresh_ops (hash_func:=hash_func) (comp:=comp) ops lh ->
  exists lh', run (hash_func:=hash_func) (comp:=comp) ops lh = Some ((spec_run ops ∅).1, lh') /\
    wf lh' /\ abs lh' = (spec_run ops ∅).2.
Proof.
  intros Hnew Hf. destruct (lh_new_wf true true lh Hnew) as (Hw & Ha & _).
  pose proof (lh_run_spec ops lh Hw Hf) as Hr. by rewrite Ha in Hr.
Qed.

(** Objects are integers with the key in the low decimal digit. *)
Definition sample_hash (x : Z) : Z := 16 * (x mod 10).
Definition sample_cmp (x y : Z) : Z := x mod 10 - y mod 10.
Definition sample_key (x : Z) : Z := x mod 10.

Lemma sample_cmp_key x y : sample_cmp x y = 0 <-> sample_key x = sample_key y.
Proof. unfold sample_cmp, sample_key. lia. Qed.

Lemma sample_hash_key x y : sample_key x = sample_key y -> sample_hash x = sample_hash y.
Proof. unfold sample_hash, sample_key. by intros ->. Qed.

#[global] Instance sample_keys : KeySpec sample_hash sample_cmp Z := {
  key := sample_key;
  comp_key := sample_cmp_key;
  hash_key := sample_hash_key
}.

(** All keys collide; 13 and 23 are equal, and an allocation fails. *)
Lemma lh_refines_map_witness :
  let ops := [Insert (Some 100) true 13; Insert (Some 200) true 5; Insert None true 23; Insert None true 4;
              Retrieve 3; Delete true 35; NumItems] in
  exists lh', run (hash_func:=sample_hash) (comp:=sample_cmp) ops (mk_LHASH 0 (zrepeat 16 []) 16 0) =
    Some ([(1, 0); (1, 0); (1, 13); (0, 0); (23, 0); (5, 0); (1, 0)], lh') /\ wf lh'.
Proof.
  intros ops. destruct (lh_refines_map sample_hash sample_cmp Z sample_keys (mk_LHASH 0 (zrepeat 16 []) 16 0) ops eq_refl)
    as (lh' & Hr & Hw & _).
  - repeat (eapply fresh_cons; [fresh_tac|vm_compute; reflexivity|]). exact I.
  - exists lh'. split; [exact Hr|exact Hw].
Defined.

(** Load. While allocation succeeds and the table is not being iterated over,
    every operation keeps fewer than three items per bucket on average, and no more
    buckets than items unless there are only sixteen; a new table starts so. *)
Theorem lh_load hash_func comp (K : Type) `{Countable K} (KS : KeySpec hash_func comp K) o lh r lh' :
  wf lh -> fresh_op o lh -> gets_array o = true -> callback_depth lh = 0 -> num_buckets lh < 2 ^ 60 ->
  load_ok lh -> run_op (hash_func:=hash_func) (comp:=comp) o lh = Some (r, lh') -> load_ok lh'.
Proof. intros. by eapply (run_op_load o lh). Qed.

(** The first insertion. *)
Lemma lh_load_witness :
  let lh := mk_LHASH 0 (zrepeat 16 []) 16 0 in
  exists r lh', run_op (hash_func:=sample_hash) (comp:=sample_cmp) (Insert (Some 100) true 7) lh = Some (r, lh') /\
    num_items lh' = 1 /\ load_ok lh'.
Proof.
  intros lh. destruct (lh_new_wf (KS:=sample_keys) true true lh eq_refl) as (Hw & _ & _ & Hl).
  assert (Hf : fresh_op (Insert (Some 100) true 7) lh) by fresh_tac.
  destruct (run_op (hash_func:=sample_hash) (comp:=sample_cmp) (Insert (Some 100) true 7) lh) as [[r lh']|] eqn:Hr.
  - exists r, lh'. split; [done|]. split; [by injection Hr as _ <-|].
    exact (lh_load sample_hash sample_cmp Z sample_keys _ lh r lh' Hw Hf eq_refl eq_refl eq_refl Hl Hr).
  - discriminate Hr.
Defined.

(** C35. Iteration with deletion. A callback may delete the element it is given: with
    fuel for the items and buckets, every element of the table is visited exactly
    once, nothing freed is read, the table afterwards holds exactly the elements that
    were kept, and the resizing that was put off happens at the end. *)
Theorem lh_doall_deletes hash_func comp (K : Type) `{Countable K} (KS : KeySpec hash_func comp K) del ok1 ok2 fuel lh :
  wf lh -> callback_depth lh < UINT_MAX - 1 -> zlen (items lh) + num_buckets lh < Z.of_nat fuel ->
  exists lh', lh_doall_arg (visit (hash_func:=hash_func) (comp:=comp) del ok1) fuel ok2 (Some lh) [] =
      Some (map data (items lh), Some lh') /\
    wf lh' /\ abs lh' = filter (fun kd => del kd.2 = false) (abs lh) /\ callback_depth lh' = callback_depth lh.
Proof.
  intros Hw Hd Hf. destruct (lh_doall_visit del ok1 ok2 fuel lh Hw Hd Hf) as (lh' & Hr & Hw' & Hp & Hd').
  exists lh'. split; [exact Hr|]. split; [exact Hw'|]. split; [by apply (abs_kept del)|exact Hd'].
Qed.

(** Three elements in one chain, the first of which is deleted. *)
Definition sample_table : LHASH :=
  mk_LHASH 3 ([mk_ITEM 100 13 48; mk_ITEM 200 5 80; mk_ITEM 300 8 128] :: zrepeat 15 []) 16 0.

Lemma sample_table_wf : wf (KS:=sample_keys) sample_table.
Proof.
  set (lh := mk_LHASH 0 (zrepeat 16 []) 16 0).
  set (ops := [Insert (Some 100) true 13; Insert (Some 200) true 5; Insert (Some 300) true 8]).
  destruct (lh_new_wf (KS:=sample_keys) true true lh eq_refl) as (Hw & _ & _ & _).
  assert (Hf : fresh_ops (hash_func:=sample_hash) (comp:=sample_cmp) ops lh)
    by (repeat (eapply fresh_cons; [fresh_tac|vm_compute; reflexivity|]); exact I).
  destruct (lh_run_spec (KS:=sample_keys) ops lh Hw Hf) as (lh' & Hr & Hw' & _).
  assert (Ht : exists rs, run (hash_func:=sample_hash) (comp:=sample_cmp) ops lh = Some (rs, sample_table))
    by (eexists; vm_compute; reflexivity).
  destruct Ht as [rs Ht]. rewrite Ht in Hr. by injection Hr as _ ->.
Qed.

Lemma lh_doall_deletes_witness :
  exists lh', lh_doall_arg (visit (hash_func:=sample_hash) (comp:=sample_cmp) (Z.eqb 13) true) 20 true (Some sample_table) [] =
    Some ([13; 5; 8], Some lh') /\ wf (KS:=sample_keys) lh'.
Proof.
  destruct (lh_doall_deletes sample_hash sample_cmp Z sample_keys (Z.eqb 13) true true 20 sample_table sample_table_wf
    eq_refl eq_refl) as (lh' & Hr & Hw & _).
  exists lh'. split; [exact Hr|exact Hw].
Defined.

(** The string hash is total and gives a 32-bit value where an unsigned long has
    64 bits. Where it has 32, the rotation by zero shifts by the width of the type,
    which C leaves undefined: the string of the one character "@" reaches it. *)
Theorem lh_strhash_shift signed s :
  (exists h, lh_strhash 64 signed s = Some h /\ is_u 32 h) /\ lh_strhash 32 signed (Some [0x40]) = None.
Proof.
  split; [|by destruct signed]. unfold lh_strhash. destruct s as [[|c s]|]; [by exists 0| |by exists 0].
  pose proof (strhash_fold signed (c :: s) (0, 0x100)) as Hn.
  destruct (fold_left _ (c :: s) _) as [[ret n]|]; [|done]. eexists. split; [done|]. apply u32_is_u.
Qed.
