(* ===== verification/Digest.v ===== *)
(** The generic digest layer: crypto/digest/digest.c over any table of digests.
    [Digests] is what it calls, [DigestLaws] what it promises its clients
    (HMAC and, through it, HKDF); Digests.v discharges the laws. *)

From Stdlib Require Import ZArith Lia.
From stdpp Require Import base list option.
From S2P Require Import Prelude Md32.

(** * State *)

(** [struct env_md_st]. A context block is a [md_state]; the functions are undefined
    ([None]) on a block that does not hold a context of theirs. *)
Record env_md (md_state : Type) := mk_env_md {
  type : Z;
  md_size : Z;
  flags : Z;
  init : md_state -> option md_state;
  update : md_state -> Z -> bytes -> Z -> option md_state;
  final : md_state -> option (bytes * md_state);
  block_size : Z;
  ctx_size : Z
}.
Arguments type {_}. Arguments md_size {_}. Arguments flags {_}. Arguments init {_}. Arguments update {_}.
Arguments final {_}. Arguments block_size {_}. Arguments ctx_size {_}.

(** The digests of a library: an [EVP_MD] is the address of a table, and [raw] is the
    content of a block of memory as bytes. *)
Class Digests := {
  md_state : Type;
  raw : bytes -> md_state;
  EVP_MD : Type;
  EVP_MD_eq_dec :: EqDecision EVP_MD;
  methods : EVP_MD -> env_md md_state
}.

(** The allocator: how many calls there have been, and how many blocks are in use.
    The outcome of each call is given by [malloc_at]. [pctx_freed] lists the
    arguments of [pctx_ops->free]. *)
Record heap := mk_heap {
  calls : nat;
  live : Z;
  pctx_freed : list (option Z)
}.

Abbreviation mallocs := (nat -> Z -> option bytes).

Definition malloc_ok (malloc_at : mallocs) : Prop :=
  forall i n b, 0 <= n -> malloc_at i n = Some b -> zlen b = n.

Definition EVP_MAX_MD_SIZE := 64.
Definition EVP_MAX_MD_BLOCK_SIZE := 128.

Definition OPENSSL_malloc (malloc_at : mallocs) (n : Z) : M heap (option bytes) :=
  let* h := sget in
  let r := malloc_at (calls h) n in
  sput (mk_heap (S (calls h)) (match r with Some _ => live h + 1 | None => live h end) (pctx_freed h)) ;;;
  sret r.

(** Freeing NULL does nothing. *)
Definition OPENSSL_free {A} (p : option A) : M heap unit :=
  let* h := sget in
  sput (mk_heap (calls h) (match p with Some _ => live h - 1 | None => live h end) (pctx_freed h)).

Definition pctx_free (p : option Z) : M heap unit :=
  let* h := sget in sput (mk_heap (calls h) (live h) (pctx_freed h ++ [p])).

Section Digest.
  Context {D : Digests}.
  Variable malloc_at : mallocs.

(** [pctx_ops] is the [dup] function of the table it points to. *)
Record EVP_MD_CTX := mk_MD_CTX {
  digest : option EVP_MD;
  md_data : option md_state;
  pctx : option Z;
  pctx_ops : option (Z -> option Z)
}.

Definition set_md_data (ctx : EVP_MD_CTX) (d : option md_state) : EVP_MD_CTX :=
  mk_MD_CTX (digest ctx) d (pctx ctx) (pctx_ops ctx).
Definition set_digest (ctx : EVP_MD_CTX) (d : option EVP_MD) : EVP_MD_CTX :=
  mk_MD_CTX d (md_data ctx) (pctx ctx) (pctx_ops ctx).
Definition set_pctx (ctx : EVP_MD_CTX) (p : option Z) (ops : option (Z -> option Z)) : EVP_MD_CTX :=
  mk_MD_CTX (digest ctx) (md_data ctx) p ops.

(** * Operations *)

Definition EVP_MD_type (md : EVP_MD) : Z := type (methods md).
Definition EVP_MD_flags (md : EVP_MD) : Z := flags (methods md).
Definition EVP_MD_size (md : EVP_MD) : Z := md_size (methods md).
Definition EVP_MD_block_size (md : EVP_MD) : Z := block_size (methods md).

Definition EVP_MD_CTX_init : EVP_MD_CTX := mk_MD_CTX None None None None.

(** [assert(ctx->pctx == NULL || ctx->pctx_ops != NULL)]. *)
Definition assert_pctx (ctx : EVP_MD_CTX) : M heap unit :=
  match pctx ctx, pctx_ops ctx with
  | Some _, None => sstuck
  | _, _ => sret tt
  end.

Definition EVP_MD_CTX_cleanup (ctx : EVP_MD_CTX) : M heap EVP_MD_CTX :=
  match digest ctx, md_data ctx with
  | Some d, Some p => if negb (ctx_size (methods d) =? 0) then OPENSSL_free (Some p) else sret tt
  | _, _ => sret tt
  end ;;;
  assert_pctx ctx ;;;
  match pctx_ops ctx with
  | Some _ => pctx_free (pctx ctx)
  | None => sret tt
  end ;;;
  sret EVP_MD_CTX_init.

(** The return value and [*out]; [in] is not NULL. *)
Definition EVP_MD_CTX_copy_ex (out in_ : EVP_MD_CTX) : M heap (bool * EVP_MD_CTX) :=
  match digest in_ with
  | None => sret (false, out)
  | Some d =>
      let '(tmp_buf, out) :=
        if bool_decide (digest out = digest in_) then (md_data out, set_md_data out None)
        else (None, out) in
      let* out := EVP_MD_CTX_cleanup out in
      let out := set_digest out (digest in_) in
      let* (ok, out) :=
        match md_data in_ with
        | Some s =>
            if negb (ctx_size (methods d) =? 0) then
              match tmp_buf with
              | Some _ => sret (true, set_md_data out (Some s))
              | None =>
                  let* p := OPENSSL_malloc malloc_at (ctx_size (methods d)) in
                  match p with
                  | None => sret (false, set_md_data out None)
                  | Some _ => sret (true, set_md_data out (Some s))
                  end
              end
            else sret (true, out)
        | None => sret (true, out)
        end in
      if negb ok then sret (false, out)
      else
        assert_pctx in_ ;;;
        let out := set_pctx out (pctx out) (pctx_ops in_) in
        match pctx in_, pctx_ops in_ with
        | Some p, Some dup =>
            let out := set_pctx out (dup p) (pctx_ops out) in
            match dup p with
            | None => let* out := EVP_MD_CTX_cleanup out in sret (false, out)
            | Some _ => sret (true, out)
            end
        | _, _ => sret (true, out)
        end
  end.

Definition EVP_MD_CTX_copy (in_ : EVP_MD_CTX) : M heap (bool * EVP_MD_CTX) :=
  EVP_MD_CTX_copy_ex EVP_MD_CTX_init in_.

(** The return value and the context. Undefined if the block is NULL. *)
Definition EVP_DigestInit_ex (ctx : EVP_MD_CTX) (md : EVP_MD) : M heap (bool * EVP_MD_CTX) :=
  let* (ok, ctx) :=
    if negb (bool_decide (digest ctx = Some md)) then
      let* ctx :=
        match digest ctx with
        | Some d =>
            if ctx_size (methods d) >? 0 then OPENSSL_free (md_data ctx) ;;; sret (set_md_data ctx None)
            else sret ctx
        | None => sret ctx
        end in
      let ctx := set_digest ctx (Some md) in
      if ctx_size (methods md) >? 0 then
        let* p := OPENSSL_malloc malloc_at (ctx_size (methods md)) in
        match p with
        | None => sret (false, set_md_data ctx None)
        | Some b => sret (true, set_md_data ctx (Some (raw b)))
        end
      else sret (true, ctx)
    else sret (true, ctx) in
  if negb ok then sret (false, ctx)
  else
    assert_pctx ctx ;;;
    let* s := slift (md_data ctx) in
    let* s := slift (init (methods md) s) in
    sret (true, set_md_data ctx (Some s)).

Definition EVP_DigestInit (md : EVP_MD) : M heap (bool * EVP_MD_CTX) :=
  EVP_DigestInit_ex EVP_MD_CTX_init md.

(** The data lie at address [addr]. *)
Definition EVP_DigestUpdate (ctx : EVP_MD_CTX) (addr : Z) (data : bytes) (len : Z) : M heap EVP_MD_CTX :=
  let* d := slift (digest ctx) in
  let* s := slift (md_data ctx) in
  let* s := slift (update (methods d) s addr data len) in
  sret (set_md_data ctx (Some s)).

(** What is written to [md_out], [*size] and the context, whose block is wiped. *)
Definition EVP_DigestFinal_ex (ctx : EVP_MD_CTX) : M heap (bytes * Z * EVP_MD_CTX) :=
  let* d := slift (digest ctx) in
  if negb (md_size (methods d) <=? EVP_MAX_MD_SIZE) then sstuck
  else
    let* s := slift (md_data ctx) in
    let* (md_out, _) := slift (final (methods d) s) in
    sret (md_out, md_size (methods d), set_md_data ctx (Some (raw (zrepeat (ctx_size (methods d)) 0)))).

Definition EVP_DigestFinal (ctx : EVP_MD_CTX) : M heap (bytes * Z * EVP_MD_CTX) :=
  let* (md, size, ctx) := EVP_DigestFinal_ex ctx in
  let* ctx := EVP_MD_CTX_cleanup ctx in
  sret (md, size, ctx).

(** [None] for the return value 0. *)
Definition EVP_Digest (addr : Z) (data : bytes) (count : Z) (md : EVP_MD) : M heap (option (bytes * Z)) :=
  let* (ok, ctx) := EVP_DigestInit_ex EVP_MD_CTX_init md in
  let* (r, ctx) :=
    if negb ok then sret (None, ctx)
    else
      let* ctx := EVP_DigestUpdate ctx addr data count in
      let* (out, size, ctx) := EVP_DigestFinal_ex ctx in
      sret (Some (out, size), ctx) in
  EVP_MD_CTX_cleanup ctx ;;;
  sret r.

Definition EVP_MD_CTX_md (ctx : option EVP_MD_CTX) : option EVP_MD :=
  match ctx with None => None | Some ctx => digest ctx end.

Definition EVP_MD_CTX_size (ctx : option EVP_MD_CTX) : option Z := option_map EVP_MD_size (EVP_MD_CTX_md ctx).
Definition EVP_MD_CTX_block_size (ctx : option EVP_MD_CTX) : option Z :=
  option_map EVP_MD_block_size (EVP_MD_CTX_md ctx).
Definition EVP_MD_CTX_type (ctx : option EVP_MD_CTX) : option Z := option_map EVP_MD_type (EVP_MD_CTX_md ctx).

(** [create] allocates the structure itself, and [destroy] frees it. *)
Definition EVP_MD_CTX_create (size : Z) : M heap (option EVP_MD_CTX) :=
  let* p := OPENSSL_malloc malloc_at size in
  sret (match p with None => None | Some _ => Some EVP_MD_CTX_init end).

Definition EVP_MD_CTX_destroy (ctx : option EVP_MD_CTX) : M heap unit :=
  match ctx with
  | None => sret tt
  | Some c => EVP_MD_CTX_cleanup c ;;; OPENSSL_free (Some c)
  end.

End Digest.

(** * What the layer promises *)

(** [absorbs md s m]: the block [s] holds a context of [md] that has been given the
    message [m]. [block_of md s]: it is large enough for one. [hash] is the function
    the digest's standard defines. *)
Class DigestLaws (D : Digests) := {
  hash : EVP_MD -> bytes -> bytes;
  absorbs : EVP_MD -> md_state -> bytes -> Prop;
  block_of : EVP_MD -> md_state -> Prop;
  block_raw : forall md b, zlen b = ctx_size (methods md) -> block_of md (raw b);
  block_absorbs : forall md s m, absorbs md s m -> block_of md s;
  init_law : forall md s, block_of md s -> exists s', init (methods md) s = Some s' /\ absorbs md s' [];
  update_law : forall md s m addr inp, absorbs md s m -> input_ok inp ->
    exists s', update (methods md) s addr inp (zlen inp) = Some s' /\ absorbs md s' (m ++ inp);
  final_law : forall md s m, absorbs md s m -> exists s', final (methods md) s = Some (hash md m, s');
  size_law : forall md, 0 < md_size (methods md) <= EVP_MAX_MD_SIZE /\
    md_size (methods md) <= block_size (methods md) <= EVP_MAX_MD_BLOCK_SIZE /\ 0 < ctx_size (methods md);
  hash_length : forall md m, zlen (hash md m) = md_size (methods md);
  hash_bytes : forall md m, bytes_ok (hash md m)
}.

(** * Lemmas *)

(** [wp m h Q]: [m] is defined on the heap [h], and what it returns and leaves
    satisfy [Q]. *)
Definition wp {S A} (m : M S A) (s : S) (Q : A -> S -> Prop) : Prop :=
  match m s with
  | Some (a, s') => Q a s'
  | None => False
  end.

Lemma wp_ret {S A} (a : A) (s : S) (Q : A -> S -> Prop) : Q a s -> wp (sret a) s Q.
Proof. done. Qed.

Lemma wp_bind {S A B} (m : M S A) (k : A -> M S B) s Q :
  wp m s (fun a s' => wp (k a) s' Q) -> wp (sbind m k) s Q.
Proof. unfold wp, sbind. by destruct (m s) as [[a s']|]. Qed.

Lemma wp_mono {S A} (m : M S A) s (Q Q' : A -> S -> Prop) :
  wp m s Q -> (forall a s', Q a s' -> Q' a s') -> wp m s Q'.
Proof. unfold wp. destruct (m s) as [[a s']|]; auto. Qed.

Lemma wp_lift {S A} (o : option A) a (s : S) (Q : A -> S -> Prop) : o = Some a -> Q a s -> wp (slift o) s Q.
Proof. by intros ->. Qed.

(** The rule for a call whose specification is a lemma. *)
Lemma wp_call {S A B} (m : M S A) (k : A -> M S B) s (Q' : A -> S -> Prop) Q :
  wp m s Q' -> (forall a s', Q' a s' -> wp (k a) s' Q) -> wp (sbind m k) s Q.
Proof. intros Hm Hk. apply wp_bind. eapply wp_mono; [exact Hm|exact Hk]. Qed.

Lemma wp_run {S A} (m : M S A) s (Q : A -> S -> Prop) : wp m s Q <-> exists a s', m s = Some (a, s') /\ Q a s'.
Proof.
  unfold wp. destruct (m s) as [[a s']|]; split; try done.
  - intros HQ. by exists a, s'.
  - by intros (? & ? & [= <- <-] & HQ).
  - by intros (? & ? & ? & ?).
Qed.

(** Steps through a straight line of known results. *)
Ltac wp_auto :=
  repeat (cbv beta iota zeta; cbn [negb fst snd];
    lazymatch goal with
    | |- wp (sbind _ _) _ _ => apply wp_bind
    | |- wp (sret _) _ _ => apply wp_ret
    | |- wp (slift _) _ _ => eapply wp_lift; [first [eassumption | reflexivity]|]
    end).

Section Contexts.
  Context {D : Digests} {L : DigestLaws D}.
  Variable malloc_at : mallocs.
  Hypothesis Hmalloc : malloc_ok malloc_at.

Definition plain (c : EVP_MD_CTX) : Prop := pctx c = None /\ pctx_ops c = None.

(** The states of a context: unused, with a block, or set to a digest whose block
    could not be allocated. *)
Definition ctx_ok (c : EVP_MD_CTX) : Prop :=
  plain c /\
  match digest c, md_data c with
  | None, None | Some _, None => True
  | Some md, Some s => block_of md s
  | None, Some _ => False
  end.

Definition has_block (c : EVP_MD_CTX) (md : EVP_MD) : Prop :=
  plain c /\ digest c = Some md /\ exists s, md_data c = Some s /\ block_of md s.

(** The context has been given the message [m]. *)
Definition holds (c : EVP_MD_CTX) (md : EVP_MD) (m : bytes) : Prop :=
  plain c /\ digest c = Some md /\ exists s, md_data c = Some s /\ absorbs md s m.

Definition owned (c : EVP_MD_CTX) : Z := match md_data c with Some _ => 1 | None => 0 end.

(** Blocks allocated and freed in between are those the context gained and lost. *)
Definition balanced (h : heap) (c : EVP_MD_CTX) (h' : heap) (c' : EVP_MD_CTX) : Prop :=
  live h' - owned c' = live h - owned c.

Definition malloc_fails : Prop := exists i n, malloc_at i n = None.

Lemma holds_block c md m : holds c md m -> has_block c md.
Proof. intros (Hp & Hd & s & Hs & Ha). split_and!; [done|done|]. exists s. split; [done|]. by eapply block_absorbs. Qed.

Lemma has_block_ok c md : has_block c md -> ctx_ok c.
Proof. intros (Hp & Hd & s & Hs & Hb). split; [done|]. by rewrite Hd, Hs. Qed.

Lemma init_ctx_ok : ctx_ok EVP_MD_CTX_init.
Proof. done. Qed.

Lemma wp_malloc n h (Q : option bytes -> heap -> Prop) : 0 <= n ->
  (forall b h', zlen b = n -> live h' = live h + 1 -> Q (Some b) h') ->
  (malloc_fails -> forall h', live h' = live h -> Q None h') -> wp (OPENSSL_malloc malloc_at n) h Q.
Proof.
  intros Hn Hs Hf. unfold wp, OPENSSL_malloc, sbind, sget, sput, sret.
  destruct (malloc_at (calls h) n) as [b|] eqn:E; [apply Hs; [by eapply Hmalloc|done]|].
  apply Hf; [by exists (calls h), n|done].
Qed.

Lemma wp_free {A} (p : option A) h (Q : unit -> heap -> Prop) :
  (forall h', live h' = live h - match p with Some _ => 1 | None => 0 end -> Q tt h') -> wp (OPENSSL_free p) h Q.
Proof. intros HQ. unfold wp, OPENSSL_free, sbind, sget, sput. apply HQ. destruct p; cbn; lia. Qed.

Lemma assert_plain c : plain c -> assert_pctx c = sret tt.
Proof. intros [Hp _]. unfold assert_pctx. by rewrite Hp. Qed.

Lemma cleanup_spec c h : ctx_ok c ->
  wp (EVP_MD_CTX_cleanup c) h (fun c' h' => c' = EVP_MD_CTX_init /\ live h' = live h - owned c).
Proof.
  intros [Hp Hc]. unfold EVP_MD_CTX_cleanup. rewrite assert_plain by done. destruct Hp as [_ ->].
  apply wp_bind. unfold owned. destruct (digest c) as [d|], (md_data c) as [s|]; try done.
  - destruct (size_law d) as (_ & _ & Hz). rewrite (proj2 (Z.eqb_neq _ _)) by lia. cbn [negb].
    apply wp_free. intros h' Hl. split; [done|lia].
  - split; [done|]. lia.
  - split; [done|]. lia.
Qed.

Lemma cleanup_noblock c h (Q : EVP_MD_CTX -> heap -> Prop) : plain c -> md_data c = None ->
  Q EVP_MD_CTX_init h -> wp (EVP_MD_CTX_cleanup c) h Q.
Proof.
  intros Hp Hn HQ. unfold EVP_MD_CTX_cleanup. rewrite assert_plain, Hn by done. destruct Hp as [_ ->].
  by destruct (digest c).
Qed.

Lemma init_block c md h : has_block c md ->
  wp (EVP_DigestInit_ex malloc_at c md) h (fun r h' => h' = h /\ r.1 = true /\ holds r.2 md []).
Proof.
  intros (Hp & Hd & s & Hs & Hb). unfold EVP_DigestInit_ex.
  rewrite bool_decide_eq_true_2 by done. destruct (init_law md s Hb) as (s' & Hi & Ha).
  wp_auto. rewrite assert_plain by done. wp_auto.
  do 2 (split; [done|]). split; [done|]. split; [done|]. by exists s'.
Qed.

Lemma init_spec c md h : ctx_ok c -> (digest c = Some md -> md_data c <> None) ->
  wp (EVP_DigestInit_ex malloc_at c md) h (fun r h' => balanced h c h' r.2 /\
    if r.1 then holds r.2 md [] else digest r.2 = Some md /\ md_data r.2 = None /\ ctx_ok r.2 /\ malloc_fails).
Proof.
  intros Hc Hdead. destruct (decide (digest c = Some md)) as [Hd|Hd].
  { pose proof Hc as [Hp Hs]. rewrite Hd in Hs. destruct (md_data c) as [s|] eqn:E; [|by destruct (Hdead Hd)].
    eapply wp_mono; [apply (init_block c md h); split_and!; [done|done|by exists s]|].
    intros [r c'] h' (-> & Hr & Hh). cbn [fst snd] in *. subst r. split; [|done].
    unfold balanced, owned. rewrite E. by destruct Hh as (_ & _ & s' & -> & _). }
  destruct Hc as [Hp Hs]. unfold EVP_DigestInit_ex. rewrite bool_decide_eq_false_2 by done. cbn [negb].
  destruct (size_law md) as (_ & _ & Hz).
  apply wp_bind, wp_bind.
  assert (Hfree : wp
    match digest c with
    | Some d => if ctx_size (methods d) >? 0 then OPENSSL_free (md_data c) ;;; sret (set_md_data c None) else sret c
    | None => sret c
    end h (fun c1 h1 => plain c1 /\ md_data c1 = None /\ live h1 = live h - owned c)).
  { unfold owned. destruct (digest c) as [d|].
    - destruct (size_law d) as (_ & _ & Hzd). rewrite Z.gtb_ltb, (proj2 (Z.ltb_lt _ _)) by lia.
      apply wp_bind, wp_free. intros h1 Hl. split_and!; [exact Hp|done|done].
    - destruct (md_data c) eqn:E; [done|]. split_and!; [exact Hp|done|lia]. }
  eapply wp_mono; [exact Hfree|]. intros c1 h1 (Hp1 & Hn1 & Hl1). cbv zeta beta.
  rewrite Z.gtb_ltb, (proj2 (Z.ltb_lt _ _)) by lia. apply wp_bind, wp_malloc; [lia| |].
  - intros b h2 Hb Hl2. wp_auto.
    change (assert_pctx (set_md_data (set_digest c1 (Some md)) (Some (raw b)))) with (assert_pctx c1).
    rewrite assert_plain by done. destruct (init_law md (raw b) (block_raw md b Hb)) as (s' & Hi & Ha). wp_auto.
    split; [unfold balanced; cbn; lia|]. split; [done|]. split; [done|]. by exists s'.
  - intros Hf h2 Hl2. cbn. split; [unfold balanced; cbn; lia|]. by split_and!.
Qed.

Lemma update_spec c md m addr inp h : holds c md m -> input_ok inp ->
  wp (EVP_DigestUpdate c addr inp (zlen inp)) h (fun c' h' => h' = h /\ holds c' md (m ++ inp)).
Proof.
  intros (Hp & Hd & s & Hs & Ha) Hi. destruct (update_law md s m addr inp Ha Hi) as (s' & Hu & Ha').
  unfold EVP_DigestUpdate. wp_auto. split; [done|]. split; [done|]. split; [done|]. by exists s'.
Qed.

Lemma final_spec c md m h : holds c md m ->
  wp (EVP_DigestFinal_ex c) h (fun r h' => h' = h /\ r.1.1 = hash md m /\ r.1.2 = EVP_MD_size md /\ has_block r.2 md).
Proof.
  intros (Hp & Hd & s & Hs & Ha). unfold EVP_DigestFinal_ex.
  destruct (size_law md) as (Hz & _ & Hcs). destruct (final_law md s m Ha) as (s' & Hf). wp_auto.
  rewrite (proj2 (Z.leb_le _ _)) by apply Hz. wp_auto. do 3 (split; [done|]).
  split; [done|]. split; [done|]. eexists. split; [done|]. apply block_raw. rewrite length_zrepeat. lia.
Qed.

(** Copying into a context that has a block of the same digest needs no memory. *)
Lemma copy_block out in_ md m h : holds in_ md m -> has_block out md ->
  wp (EVP_MD_CTX_copy_ex malloc_at out in_) h (fun r h' => live h' = live h /\ calls h' = calls h /\ r.1 = true /\ holds r.2 md m).
Proof.
  intros (Hp & Hd & s & Hs & Ha) (Hpo & Hdo & so & Hso & Hbo). unfold EVP_MD_CTX_copy_ex.
  rewrite Hd, bool_decide_eq_true_2 by done. destruct (size_law md) as (_ & _ & Hz).
  wp_auto. apply cleanup_noblock; [exact Hpo|done|]. rewrite Hs, (proj2 (Z.eqb_neq _ _)), Hso by lia. wp_auto.
  rewrite assert_plain by done. wp_auto. destruct Hp as [-> Hpi2]. wp_auto.
  do 3 (split; [done|]). split; [done|]. split; [done|]. by exists s.
Qed.

Lemma copy_spec out in_ md m h : holds in_ md m -> ctx_ok out ->
  wp (EVP_MD_CTX_copy_ex malloc_at out in_) h (fun r h' => balanced h out h' r.2 /\
    if r.1 then holds r.2 md m else md_data r.2 = None /\ ctx_ok r.2 /\ malloc_fails).
Proof.
  intros Hin Ho. destruct (decide (digest out = Some md /\ md_data out <> None)) as [[Hdo Hso]|Hno].
  { pose proof Ho as [Hpo Hs']. rewrite Hdo in Hs'. destruct (md_data out) as [so|] eqn:E; [|done].
    eapply wp_mono; [apply (copy_block out in_ md m h Hin); split_and!; [done|done|by exists so]|].
    intros [r c'] h' (Hl & _ & Hr & Hh). cbn [fst snd] in *. subst r. split; [|done].
    unfold balanced, owned. rewrite E. destruct Hh as (_ & _ & s' & -> & _). lia. }
  destruct Hin as (Hp & Hd & s & Hs & Ha). unfold EVP_MD_CTX_copy_ex. rewrite Hd.
  destruct (size_law md) as (_ & _ & Hz).
  assert (Hsplit : exists tmp out1, (if bool_decide (digest out = Some md) then (md_data out, set_md_data out None) else (None, out))
    = (tmp, out1) /\ tmp = None /\ ctx_ok out1 /\ owned out1 = owned out).
  { case_bool_decide as Hb; [|by exists None, out].
    assert (Hn : md_data out = None) by (destruct (md_data out); [exfalso; apply Hno; by split|done]).
    exists (md_data out), (set_md_data out None). split; [done|]. split; [done|]. split.
    - destruct Ho as [Hpo _]. split; [done|]. cbn. by destruct (digest out).
    - unfold owned. cbn. by rewrite Hn. }
  destruct Hsplit as (tmp & out1 & -> & -> & Hok1 & Hown). cbv beta iota.
  eapply wp_call; [apply (cleanup_spec out1 h Hok1)|]. intros out2 h2 [-> Hl2]. cbv zeta. rewrite Hs.
  rewrite (proj2 (Z.eqb_neq _ _)) by lia. cbn [negb]. apply wp_bind, wp_bind, wp_malloc; [lia| |].
  - intros b h3 _ Hl3. cbn. rewrite assert_plain by done. destruct Hp as [-> Hpi2]. cbn. rewrite Hpi2.
    split; [unfold balanced; cbn; lia|]. split; [done|]. split; [done|]. by exists s.
  - intros Hf h3 Hl3. cbn. split; [unfold balanced; cbn; lia|]. by split_and!.
Qed.

End Contexts.

(** * Properties *)

(** C36. One-shot hashing through the table of any digest: it is defined whatever
    malloc does, returns the digest of the data and its size or fails because an
    allocation failed, and leaves no block allocated. *)
Theorem EVP_Digest_spec (D : Digests) (L : DigestLaws D) malloc_at addr data md h :
  malloc_ok malloc_at -> input_ok data ->
  exists r h', EVP_Digest malloc_at addr data (zlen data) md h = Some (r, h') /\ live h' = live h /\
    (r = Some (hash md data, EVP_MD_size md) \/ r = None /\ malloc_fails malloc_at).
Proof.
  intros Hm Hi. apply wp_run. unfold EVP_Digest.
  eapply wp_call; [apply (init_spec malloc_at Hm EVP_MD_CTX_init md h init_ctx_ok); discriminate|].
  intros [r c] h1 [Hb Hr]. cbn [fst snd] in Hr. unfold balanced in Hb. cbn [snd owned md_data EVP_MD_CTX_init] in Hb.
  destruct r; cbn [negb].
  - apply wp_bind. eapply wp_call; [apply (update_spec c md [] addr data h1 Hr Hi)|]. intros c2 h2 [-> H2].
    eapply wp_call; [apply (final_spec c2 md _ h1 H2)|]. intros [[out n] c3] h3 (-> & Ho & Hn & H3).
    cbn [fst snd] in *. subst out n. cbv beta iota. apply wp_ret. eapply wp_call; [apply cleanup_spec; by eapply has_block_ok|].
    intros c4 h4 [_ Hl]. apply wp_ret. destruct H3 as (_ & _ & s3 & Hs3 & _). destruct Hr as (_ & _ & s1 & Hs1 & _).
    unfold owned in *. rewrite Hs3 in Hl. rewrite Hs1 in Hb. split; [lia|by left].
  - destruct Hr as (Hd & Hn & Hok & Hf). apply wp_bind, wp_ret. eapply wp_call; [by apply cleanup_spec|].
    intros c4 h4 [_ Hl]. apply wp_ret. unfold owned in *. rewrite Hn in *. split; [lia|by right].
Qed.

(** Copying a context in the middle of a message: the copy has absorbed what the
    original has, so both can be continued separately; it fails only when malloc
    does, and not even then if the target already has a block of the same digest. *)
Theorem EVP_MD_CTX_copy_spec (D : Digests) (L : DigestLaws D) malloc_at out in_ md m h :
  malloc_ok malloc_at -> holds in_ md m -> ctx_ok out ->
  exists r out' h', EVP_MD_CTX_copy_ex malloc_at out in_ h = Some ((r, out'), h') /\ balanced h out h' out' /\
    (r = true /\ holds out' md m \/ r = false /\ ctx_ok out' /\ malloc_fails malloc_at /\ ~ has_block out md).
Proof.
  intros Hm Hin Ho. destruct (decide (digest out = Some md /\ md_data out <> None)) as [[Hdo Hso]|Hno].
  - pose proof Ho as [Hpo Hs']. rewrite Hdo in Hs'. destruct (md_data out) as [so|] eqn:E; [|done].
    pose proof (copy_block malloc_at out in_ md m h Hin) as Hc. rewrite wp_run in Hc.
    destruct Hc as ([r c'] & h' & Hr & Hl & _ & Ht & Hh); [split_and!; [done|done|by exists so]|].
    cbn [fst snd] in *. subst r. exists true, c', h'. split; [done|]. split; [|by left].
    unfold balanced, owned. rewrite E. destruct Hh as (_ & _ & s' & -> & _). lia.
  - pose proof (copy_spec malloc_at Hm out in_ md m h Hin Ho) as Hc. rewrite wp_run in Hc.
    destruct Hc as ([r c'] & h' & Hr & Hb & Hres). cbn [fst snd] in *. exists r, c', h'. split; [done|]. split; [done|].
    destruct r; [by left|]. right. destruct Hres as (_ & Hok & Hf). split_and!; try done.
    intros (_ & Hd & s & Hs & _). apply Hno. rewrite Hs. by split.
Qed.

(** A failed initialisation leaves the context set to the digest with no block:
    initialising it again with the same digest writes through a NULL pointer,
    whatever the allocator would do now. *)
Theorem EVP_DigestInit_ex_retry (D : Digests) (L : DigestLaws D) malloc_at md h :
  malloc_at (calls h) (ctx_size (methods md)) = None ->
  exists ctx h', EVP_DigestInit_ex malloc_at EVP_MD_CTX_init md h = Some ((false, ctx), h') /\
    forall malloc_at' h'', EVP_DigestInit_ex malloc_at' ctx md h'' = None.
Proof.
  intros Hf. destruct (size_law md) as (_ & _ & Hz). unfold EVP_DigestInit_ex at 1.
  rewrite bool_decide_eq_false_2 by done. cbn. rewrite Z.gtb_ltb, (proj2 (Z.ltb_lt _ _)) by lia.
  unfold OPENSSL_malloc, sbind, sget, sput, sret. rewrite Hf. cbn. do 2 eexists. split; [reflexivity|].
  intros malloc_at' h''. unfold EVP_DigestInit_ex. cbn [digest set_md_data set_digest].
  rewrite bool_decide_eq_true_2 by done. done.
Qed.
