(* ===== verification/Digests.v ===== *)
(** The table of digests: crypto/digest/digests.c over the hash models, and the laws
    of the digest layer for it. *)

From Stdlib Require Import ZArith Lia String.
From stdpp Require Import base list option strings.
From S2P Require Import Prelude Md32 Fips Sha256 Sha1 Md5 Md4 Sha512 Digest.

(** * Contexts as blocks of memory *)

(** A block holds bytes no context has been written to, or a context. *)
Inductive block_content :=
  | Raw (b : bytes)
  | Ctx32 (c : HASH_CTX)
  | Ctx64 (c : SHA512_CTX)
  | CtxPair (md5 sha1 : HASH_CTX).

(** The digest a final function writes; a failed CHECK is [None]. *)
Definition final32 (r : option (option bytes * HASH_CTX)) : option (bytes * block_content) :=
  match r with
  | Some (Some out, c) => Some (out, Ctx32 c)
  | _ => None
  end.
Definition final64 (r : option (option bytes * SHA512_CTX)) : option (bytes * block_content) :=
  match r with
  | Some (Some out, c) => Some (out, Ctx64 c)
  | _ => None
  end.

(** The field [u] of a [SHA512_CTX] in a block of bytes, at its offset. *)
Definition ctx64_of (s : block_content) : option SHA512_CTX :=
  match s with
  | Raw b => Some (mk_SHA512_CTX [] 0 0 (ztake 128 (zdrop 80 b)) 0 0)
  | Ctx64 c => Some c
  | _ => None
  end.

Section Tables.
  Context {P : Platform}.

Definition md4_init (s : block_content) : option block_content := Some (Ctx32 MD4_Init).
Definition md4_update (s : block_content) (addr : Z) (data : bytes) (count : Z) : option block_content :=
  match s with Ctx32 c => Some (Ctx32 (MD4_Update c data count)) | _ => None end.
Definition md4_final (s : block_content) : option (bytes * block_content) :=
  match s with Ctx32 c => final32 (MD4_Final c) | _ => None end.
Definition md4_md : env_md block_content := mk_env_md _ 257 16 0 md4_init md4_update md4_final 64 92.

Definition md5_init (s : block_content) : option block_content := Some (Ctx32 MD5_Init).
Definition md5_update (s : block_content) (addr : Z) (data : bytes) (count : Z) : option block_content :=
  match s with Ctx32 c => Some (Ctx32 (MD5_Update c data count)) | _ => None end.
Definition md5_final (s : block_content) : option (bytes * block_content) :=
  match s with Ctx32 c => final32 (MD5_Final c) | _ => None end.
Definition md5_md : env_md block_content := mk_env_md _ 4 16 0 md5_init md5_update md5_final 64 92.

Definition sha1_init (s : block_content) : option block_content := Some (Ctx32 SHA1_Init).
Definition sha1_update (s : block_content) (addr : Z) (data : bytes) (count : Z) : option block_content :=
  match s with Ctx32 c => Some (Ctx32 (SHA1_Update c data count)) | _ => None end.
Definition sha1_final (s : block_content) : option (bytes * block_content) :=
  match s with Ctx32 c => final32 (SHA1_Final c) | _ => None end.
Definition sha1_md : env_md block_content := mk_env_md _ 64 20 0 sha1_init sha1_update sha1_final 64 96.

Definition sha224_init (s : block_content) : option block_content := Some (Ctx32 SHA224_Init).
Definition sha224_update (s : block_content) (addr : Z) (data : bytes) (count : Z) : option block_content :=
  match s with Ctx32 c => Some (Ctx32 (SHA224_Update c data count)) | _ => None end.
Definition sha224_final (s : block_content) : option (bytes * block_content) :=
  match s with Ctx32 c => final32 (SHA224_Final c) | _ => None end.
Definition sha224_md : env_md block_content := mk_env_md _ 675 28 0 sha224_init sha224_update sha224_final 64 112.

Definition sha256_init (s : block_content) : option block_content := Some (Ctx32 SHA256_Init).
Definition sha256_update (s : block_content) (addr : Z) (data : bytes) (count : Z) : option block_content :=
  match s with Ctx32 c => Some (Ctx32 (SHA256_Update c data count)) | _ => None end.
Definition sha256_final (s : block_content) : option (bytes * block_content) :=
  match s with Ctx32 c => final32 (SHA256_Final c) | _ => None end.
Definition sha256_md : env_md block_content := mk_env_md _ 672 32 0 sha256_init sha256_update sha256_final 64 112.

Definition sha384_init (s : block_content) : option block_content :=
  option_map (fun c => Ctx64 (SHA384_Init c)) (ctx64_of s).
Definition sha384_update (s : block_content) (addr : Z) (data : bytes) (count : Z) : option block_content :=
  match s with Ctx64 c => Some (Ctx64 (SHA384_Update c addr data count)) | _ => None end.
Definition sha384_final (s : block_content) : option (bytes * block_content) :=
  match s with Ctx64 c => final64 (SHA384_Final true c) | _ => None end.
Definition sha384_md : env_md block_content := mk_env_md _ 673 48 0 sha384_init sha384_update sha384_final 128 216.

Definition sha512_init (s : block_content) : option block_content :=
  option_map (fun c => Ctx64 (SHA512_Init c)) (ctx64_of s).
Definition sha512_update (s : block_content) (addr : Z) (data : bytes) (count : Z) : option block_content :=
  match s with Ctx64 c => Some (Ctx64 (SHA512_Update c addr data count)) | _ => None end.
Definition sha512_final (s : block_content) : option (bytes * block_content) :=
  match s with Ctx64 c => final64 (SHA512_Final true c) | _ => None end.
Definition sha512_md : env_md block_content := mk_env_md _ 674 64 0 sha512_init sha512_update sha512_final 128 216.

Definition md5_sha1_init (s : block_content) : option block_content := Some (CtxPair MD5_Init SHA1_Init).
Definition md5_sha1_update (s : block_content) (addr : Z) (data : bytes) (count : Z) : option block_content :=
  match s with
  | CtxPair md5 sha1 => Some (CtxPair (MD5_Update md5 data count) (SHA1_Update sha1 data count))
  | _ => None
  end.
Definition md5_sha1_final (s : block_content) : option (bytes * block_content) :=
  match s with
  | CtxPair md5 sha1 =>
      match MD5_Final md5, SHA1_Final sha1 with
      | Some (Some out, md5), Some (Some out', sha1) => Some (out ++ out', CtxPair md5 sha1)
      | _, _ => None
      end
  | _ => None
  end.
Definition md5_sha1_md : env_md block_content :=
  mk_env_md _ 114 (16 + 20) 0 md5_sha1_init md5_sha1_update md5_sha1_final 64 188.

(** The addresses of the tables, which the functions of their names return. *)
Inductive md_ptr :=
  EVP_md4 | EVP_md5 | EVP_sha1 | EVP_sha224 | EVP_sha256 | EVP_sha384 | EVP_sha512 | EVP_md5_sha1.

#[global] Instance md_ptr_eq_dec : EqDecision md_ptr.
Proof. solve_decision. Defined.

Definition table_at (p : md_ptr) : env_md block_content :=
  match p with
  | EVP_md4 => md4_md | EVP_md5 => md5_md | EVP_sha1 => sha1_md | EVP_sha224 => sha224_md
  | EVP_sha256 => sha256_md | EVP_sha384 => sha384_md | EVP_sha512 => sha512_md | EVP_md5_sha1 => md5_sha1_md
  end.

#[global] Instance openssl_digests : Digests := {
  md_state := block_content;
  raw := Raw;
  EVP_MD := md_ptr;
  EVP_MD_eq_dec := md_ptr_eq_dec;
  methods := table_at
}.

End Tables.

(** * Lookup *)

Definition NID_undef := 0.

(** The rows of the table: NID, digest, short and long name. *)
Definition nid_to_digest_mapping : list (Z * md_ptr * string * option string) :=
  [(257, EVP_md4, "MD4", Some "md4");
   (4, EVP_md5, "MD5", Some "md5");
   (64, EVP_sha1, "SHA1", Some "sha1");
   (675, EVP_sha224, "SHA224", Some "sha224");
   (672, EVP_sha256, "SHA256", Some "sha256");
   (673, EVP_sha384, "SHA384", Some "sha384");
   (674, EVP_sha512, "SHA512", Some "sha512");
   (114, EVP_md5_sha1, "MD5-SHA1", Some "md5-sha1");
   (NID_undef, EVP_sha1, "DSA-SHA", Some "dsaWithSHA");
   (NID_undef, EVP_sha1, "DSA-SHA1", Some "dsaWithSHA1");
   (NID_undef, EVP_sha1, "ecdsa-with-SHA1", None);
   (NID_undef, EVP_md5, "RSA-MD5", Some "md5WithRSAEncryption");
   (NID_undef, EVP_sha1, "RSA-SHA1", Some "sha1WithRSAEncryption");
   (NID_undef, EVP_sha224, "RSA-SHA224", Some "sha224WithRSAEncryption");
   (NID_undef, EVP_sha256, "RSA-SHA256", Some "sha256WithRSAEncryption");
   (NID_undef, EVP_sha384, "RSA-SHA384", Some "sha384WithRSAEncryption");
   (NID_undef, EVP_sha512, "RSA-SHA512", Some "sha512WithRSAEncryption")]%string.

Definition EVP_get_digestbynid (nid : Z) : option md_ptr :=
  if nid =? NID_undef then None
  else option_map (fun '(_, md, _, _) => md)
    (List.find (fun '(n, _, _, _) => n =? nid) nid_to_digest_mapping).

Definition kMDOIDs : list (bytes * md_ptr) :=
  [([0x2a; 0x86; 0x48; 0x86; 0xf7; 0x0d; 0x02; 0x04], EVP_md4);
   ([0x2a; 0x86; 0x48; 0x86; 0xf7; 0x0d; 0x02; 0x05], EVP_md5);
   ([0x2b; 0x0e; 0x03; 0x02; 0x1a], EVP_sha1);
   ([0x60; 0x86; 0x48; 0x01; 0x65; 0x03; 0x04; 0x02; 0x01], EVP_sha256);
   ([0x60; 0x86; 0x48; 0x01; 0x65; 0x03; 0x04; 0x02; 0x02], EVP_sha384);
   ([0x60; 0x86; 0x48; 0x01; 0x65; 0x03; 0x04; 0x02; 0x03], EVP_sha512);
   ([0x60; 0x86; 0x48; 0x01; 0x65; 0x03; 0x04; 0x02; 0x04], EVP_sha224)].

(** An object is its NID and its encoding. *)
Definition EVP_get_digestbyobj (nid : Z) (data : bytes) : option md_ptr :=
  if negb (nid =? NID_undef) then EVP_get_digestbynid nid
  else option_map snd (List.find (fun '(oid, _) => bool_decide (data = oid)) kMDOIDs).

Definition EVP_get_digestbyname (name : string) : option md_ptr :=
  option_map (fun '(_, md, _, _) => md)
    (List.find (fun '(_, _, short_name, long_name) =>
       String.eqb short_name name ||
       match long_name with Some l => String.eqb l name | None => false end) nid_to_digest_mapping).

(** * Lemmas: lengths of digests *)

Lemma concat_words_length (f : Z -> bytes) k l : (forall x, length (f x) = k) ->
  length (concat (map f l)) = (k * length l)%nat.
Proof.
  intros Hf. induction l as [|x l IH]; cbn [map concat length]; [lia|]. rewrite length_app, Hf, IH. lia.
Qed.

Lemma concat_words_ok (f : Z -> bytes) l : (forall x, bytes_ok (f x)) -> bytes_ok (concat (map f l)).
Proof. intros Hf. induction l as [|x l IH]; cbn [map concat]; [constructor|]. by apply bytes_ok_app. Qed.

Lemma md4_length m : zlen (rfc_md4 m) = 16.
Proof.
  unfold rfc_md4. rewrite (concat_words_length _ 4) by apply length_le_bytes.
  by rewrite (md_state_inv (H:=md4_rfc_hash) (fun l => length l = 4%nat)) by apply md4_rfc_block_length.
Qed.

Lemma md5_length m : zlen (rfc_md5 m) = 16.
Proof.
  unfold rfc_md5. rewrite (concat_words_length _ 4) by apply length_le_bytes.
  by rewrite (md_state_inv (H:=md5_rfc_hash) (fun l => length l = 4%nat)) by apply md5_rfc_block_length.
Qed.

Lemma sha1_length m : zlen (fips_sha1 m) = 20.
Proof.
  unfold fips_sha1. rewrite (concat_words_length _ 4) by apply length_be_bytes.
  by rewrite (md_state_inv (H:=sha1_fips_hash) (fun l => length l = 5%nat)) by apply sha1_fips_block_length.
Qed.

Lemma fips_digest_length v iv n m : 0 < word v -> length iv = 8%nat -> 0 <= n <= word v / 8 * 8 ->
  zlen (fips_digest v iv n m) = n.
Proof.
  intros Hw Hiv Hn. unfold fips_digest. pose proof (Z.div_pos (word v) 8 ltac:(lia) ltac:(lia)).
  rewrite length_ztake, (concat_words_length _ (Z.to_nat (word v / 8))) by apply length_be_bytes.
  rewrite length_fips_state by done. lia.
Qed.

Lemma fips_digest_ok v iv n m : bytes_ok (fips_digest v iv n m).
Proof. apply bytes_ok_ztake, concat_words_ok. intros. apply be_bytes_ok. Qed.

(** * The laws *)

Definition openssl_hash (md : md_ptr) (m : bytes) : bytes :=
  match md with
  | EVP_md4 => rfc_md4 m
  | EVP_md5 => rfc_md5 m
  | EVP_sha1 => fips_sha1 m
  | EVP_sha224 => fips_sha224 m
  | EVP_sha256 => fips_sha256 m
  | EVP_sha384 => fips_sha384 m
  | EVP_sha512 => fips_sha512 m
  | EVP_md5_sha1 => rfc_md5 m ++ fips_sha1 m
  end.

Section Laws.
  Context {P : Platform}.

Abbreviation stream32 f init inputs := (fold_left (fun x inp => f x inp (zlen inp)) inputs init).

(** The contexts reached by updates. *)
Definition openssl_absorbs (md : md_ptr) (s : block_content) (m : bytes) : Prop :=
  exists inputs : list (Z * bytes), Forall (fun i => input_ok i.2) inputs /\ m = concat (map snd inputs) /\
  let msgs := map snd inputs in
  match md with
  | EVP_md4 => s = Ctx32 (stream32 MD4_Update MD4_Init msgs)
  | EVP_md5 => s = Ctx32 (stream32 MD5_Update MD5_Init msgs)
  | EVP_sha1 => s = Ctx32 (stream32 SHA1_Update SHA1_Init msgs)
  | EVP_sha224 => s = Ctx32 (stream32 SHA224_Update SHA224_Init msgs)
  | EVP_sha256 => s = Ctx32 (stream32 SHA256_Update SHA256_Init msgs)
  | EVP_sha384 => exists c, zlen (u c) = 128 /\ s = Ctx64 (Sha512.update_all (SHA384_Init c) inputs)
  | EVP_sha512 => exists c, zlen (u c) = 128 /\ s = Ctx64 (Sha512.update_all (SHA512_Init c) inputs)
  | EVP_md5_sha1 => s = CtxPair (stream32 MD5_Update MD5_Init msgs) (stream32 SHA1_Update SHA1_Init msgs)
  end.

Definition openssl_block_of (md : md_ptr) (s : block_content) : Prop :=
  match md with
  | EVP_sha384 | EVP_sha512 => exists c, ctx64_of s = Some c /\ zlen (u c) = 128
  | _ => True
  end.

Lemma inputs_snd inputs : Forall (fun i : Z * bytes => input_ok i.2) inputs -> Forall input_ok (map snd inputs).
Proof. intros H. by apply Forall_map. Qed.

Lemma openssl_block_raw md b : zlen b = ctx_size (table_at md) -> openssl_block_of md (Raw b).
Proof.
  intros Hb. destruct md; try done; cbn in Hb |- *; eexists; (split; [reflexivity|]); cbn [u]; zlia.
Qed.

Lemma update_all_u c inputs : zlen (u c) = 128 -> num c = 0 -> Nl c = 0 -> Nh c = 0 ->
  Forall (fun i => input_ok i.2) inputs -> zlen (u (Sha512.update_all c inputs)) = 128.
Proof.
  intros Hu Hn Hl Hh Hin. destruct (update_all_spec (h c) c [] inputs) as ((q & m1 & m2 & z & H) & _ & _).
  - exists 0%nat, [], [], (u c). by split_and!.
  - unfold counted. by rewrite Hl, Hh.
  - done.
  - apply H.
Qed.

Lemma openssl_block_absorbs md s m : openssl_absorbs md s m -> openssl_block_of md s.
Proof.
  intros (inputs & Hin & _ & Hs). destruct md; try done; cbn in Hs |- *; destruct Hs as (c & Hu & ->);
    eexists; (split; [reflexivity|]); by apply update_all_u.
Qed.

Lemma openssl_init_law md s : openssl_block_of md s ->
  exists s', init (table_at md) s = Some s' /\ openssl_absorbs md s' [].
Proof.
  intros Hb. destruct md; cbn in *; try (eexists; split; [reflexivity|]; exists []; by split_and!);
    destruct Hb as (c & Hc & Hu); unfold sha384_init, sha512_init; rewrite Hc; cbn;
    eexists; (split; [reflexivity|]); exists []; (do 2 (split; [done|])); by exists c.
Qed.

Lemma absorbs_snoc md s s' m addr inp : openssl_absorbs md s m -> input_ok inp ->
  update (table_at md) s addr inp (zlen inp) = Some s' -> openssl_absorbs md s' (m ++ inp).
Proof.
  intros (inputs & Hin & -> & Hs) Hi Hu. exists (inputs ++ [(addr, inp)]). split; [by apply Forall_app; split; [|constructor]|].
  rewrite map_app, concat_app. cbn [map snd concat]. rewrite app_nil_r. split; [done|]. cbv zeta.
  destruct md; cbn in Hs, Hu; try (subst s; injection Hu as <-; by rewrite !fold_left_app);
    destruct Hs as (c & Hc & ->); injection Hu as <-; exists c; (split; [done|]);
    unfold Sha512.update_all; by rewrite fold_left_app.
Qed.

Lemma openssl_update_law md s m addr inp : openssl_absorbs md s m -> input_ok inp ->
  exists s', update (table_at md) s addr inp (zlen inp) = Some s' /\ openssl_absorbs md s' (m ++ inp).
Proof.
  intros Ha Hi.
  assert (Hs : exists s', update (table_at md) s addr inp (zlen inp) = Some s').
  { destruct Ha as (inputs & _ & _ & Hs). destruct md; cbn in Hs |- *; try (subst s; by eexists);
      destruct Hs as (c & _ & ->); by eexists. }
  destruct Hs as [s' Hs]. exists s'. split; [done|]. by eapply absorbs_snoc.
Qed.

Lemma final32_some r out : (exists c', r = Some (Some out, c')) -> exists s', final32 r = Some (out, s').
Proof. intros [c' ->]. by eexists. Qed.

Lemma final64_some r out : (exists c', r = Some (Some out, c')) -> exists s', final64 r = Some (out, s').
Proof. intros [c' ->]. by eexists. Qed.

Lemma openssl_final_law md s m : openssl_absorbs md s m ->
  exists s', final (table_at md) s = Some (openssl_hash md m, s').
Proof.
  intros (inputs & Hin & -> & Hs). pose proof (inputs_snd inputs Hin) as Hm.
  destruct md; cbn in Hs; try subst s.
  - apply final32_some. by apply md4_stream.
  - apply final32_some. by apply md5_stream.
  - apply final32_some. by apply sha1_stream.
  - apply final32_some. apply (sha256_stream H224 28); auto.
  - apply final32_some. apply (sha256_stream H256 32); auto.
  - destruct Hs as (c & Hu & ->). apply final64_some. by apply (sha512_stream H384 (SHA384_Init c) 48 true).
  - destruct Hs as (c & Hu & ->). apply final64_some. by apply (sha512_stream H512 (SHA512_Init c) 64 true).
  - destruct (md5_stream (map snd inputs) Hm) as [c1 H1]. destruct (sha1_stream (map snd inputs) Hm) as [c2 H2].
    cbn [table_at md5_sha1_md final md5_sha1_final]. eexists. unfold md5_sha1_final.
    change (stream32 MD5_Update MD5_Init (map snd inputs)) with (Md32.update_all (H:=md5_hash) MD5_Init (map snd inputs)).
    change (stream32 SHA1_Update SHA1_Init (map snd inputs)) with (Md32.update_all (H:=sha1_hash) SHA1_Init (map snd inputs)).
    by rewrite H1, H2.
Qed.

Lemma openssl_size_law md :
  0 < md_size (table_at md) <= EVP_MAX_MD_SIZE /\
  md_size (table_at md) <= block_size (table_at md) <= EVP_MAX_MD_BLOCK_SIZE /\ 0 < ctx_size (table_at md).
Proof. destruct md; cbn; unfold EVP_MAX_MD_SIZE, EVP_MAX_MD_BLOCK_SIZE; lia. Qed.

Lemma openssl_hash_length md m : zlen (openssl_hash md m) = md_size (table_at md).
Proof.
  destruct md; cbn [openssl_hash].
  - apply md4_length.
  - apply md5_length.
  - apply sha1_length.
  - by apply fips_digest_length.
  - by apply fips_digest_length.
  - by apply fips_digest_length.
  - by apply fips_digest_length.
  - rewrite length_app. pose proof (md5_length m). pose proof (sha1_length m). cbn. lia.
Qed.

Lemma openssl_hash_bytes md m : bytes_ok (openssl_hash md m).
Proof.
  destruct md; cbn [openssl_hash]; try apply fips_digest_ok; try apply bytes_ok_app; try split;
    apply concat_words_ok; intros; first [apply le_bytes_ok | apply be_bytes_ok].
Qed.

(** Every digest of the library keeps the promises of the layer. *)
#[global] Instance openssl_laws : DigestLaws openssl_digests := {
  hash := openssl_hash;
  absorbs := openssl_absorbs;
  block_of := openssl_block_of;
  block_raw := openssl_block_raw;
  block_absorbs := openssl_block_absorbs;
  init_law := openssl_init_law;
  update_law := openssl_update_law;
  final_law := openssl_final_law;
  size_law := openssl_size_law;
  hash_length := openssl_hash_length;
  hash_bytes := openssl_hash_bytes
}.

End Laws.

(** * Properties *)

(** The lookups agree with the tables: a digest is found by its NID, and only by
    it; by the object identifiers, all but the pair MD5-SHA1, which has none; and by
    its own two names. The signature algorithms of the last rows give their hash by
    name, but cannot be found by the undefined NID they share. *)
Theorem EVP_get_digest_lookup (P : Platform) :
  (forall n md, EVP_get_digestbynid n = Some md <-> EVP_MD_type (D:=openssl_digests) md = n) /\
  (forall n data md, EVP_get_digestbyobj n data = Some md <->
     n = EVP_MD_type (D:=openssl_digests) md \/ n = NID_undef /\ In (data, md) kMDOIDs) /\
  (forall n md s l, In (n, md, s, l) nid_to_digest_mapping -> EVP_get_digestbyname s = Some md /\
     match l with Some l => EVP_get_digestbyname l = Some md | None => True end).
Proof.
  assert (Hnid : forall n md, EVP_get_digestbynid n = Some md <-> EVP_MD_type (D:=openssl_digests) md = n).
  { intros n md. split; [|intros <-; by destruct md]. unfold EVP_get_digestbynid.
    destruct (Z.eqb_spec n NID_undef) as [|Hn]; [done|]. unfold nid_to_digest_mapping, NID_undef in *. cbn [List.find].
    repeat (case_if; [by intros [= <-]|]). done. }
  split; [exact Hnid|]. split.
  - intros n data md. unfold EVP_get_digestbyobj. destruct (Z.eqb_spec n NID_undef) as [->|Hn]; cbn [negb].
    + split.
      * intros Hf. right. split; [done|]. destruct (List.find _ kMDOIDs) as [[oid md']|] eqn:E; [|done].
        apply List.find_some in E as [Hin Heq]. injection Hf as <-. apply bool_decide_eq_true in Heq. by subst oid.
      * intros [H|[_ H]]; [by destruct md|]. unfold kMDOIDs in *. cbn [In] in H.
        repeat (destruct H as [[= <- <-]|H]; [reflexivity|]). done.
    + rewrite Hnid. split; [by left|]. by intros [->|[? _]].
  - intros n md s l Hin. unfold nid_to_digest_mapping in Hin. cbn [In] in Hin.
    repeat (destruct Hin as [[= <- <- <- <-]|Hin]; [by split|]). done.
Qed.

(** ** Witnesses for the digest layer *)

Definition sample_mallocs : mallocs := fun _ n => Some (zrepeat n 77).

Lemma sample_mallocs_ok : malloc_ok sample_mallocs.
Proof. intros i n b Hn [= <-]. rewrite length_zrepeat. lia. Qed.

Lemma sample_mallocs_succeed : ~ malloc_fails sample_mallocs.
Proof. by intros (i & n & Hf). Qed.

Definition sample_heap : heap := mk_heap 0 0 [].

#[local] Instance sample_platform : Platform := {| i386 := false; SHA512_BLOCK_CAN_MANAGE_UNALIGNED_DATA := false |}.

(** SHA-384 of one byte at an odd address. *)
Lemma EVP_Digest_spec_witness :
  exists h', EVP_Digest (D:=openssl_digests) sample_mallocs 3 [0x61] 1 EVP_sha384 sample_heap =
    Some (Some (fips_sha384 [0x61], 48), h') /\ live h' = 0.
Proof.
  assert (Hi : input_ok [0x61]) by (split; [repeat constructor; lia|split; cbn; lia]).
  pose proof (EVP_Digest_spec openssl_digests openssl_laws sample_mallocs 3 [0x61] EVP_sha384 sample_heap sample_mallocs_ok Hi) as H.
  change (zlen [0x61]) with 1 in H. cbn [hash openssl_laws openssl_hash] in H.
  change (EVP_MD_size (D:=openssl_digests) EVP_sha384) with 48 in H.
  destruct H as (r & h' & Hr & Hl & [->|[_ Hf]]); [|by destruct sample_mallocs_succeed].
  exists h'. split; [exact Hr|exact Hl].
Defined.

(** A copy of a fresh SHA-256 context. *)
Lemma EVP_MD_CTX_copy_spec_witness :
  let in_ := mk_MD_CTX (D:=openssl_digests) (Some EVP_sha256) (Some (Ctx32 SHA256_Init)) None None in
  exists r out' h', EVP_MD_CTX_copy_ex sample_mallocs EVP_MD_CTX_init in_ sample_heap = Some ((r, out'), h') /\
    (r = true /\ holds out' EVP_sha256 [] \/ r = false).
Proof.
  intros in_.
  assert (Hh : holds in_ EVP_sha256 []).
  { split; [done|]. split; [done|]. eexists. split; [reflexivity|]. exists []. by split_and!. }
  destruct (EVP_MD_CTX_copy_spec openssl_digests openssl_laws sample_mallocs EVP_MD_CTX_init in_ EVP_sha256 [] sample_heap
    sample_mallocs_ok Hh init_ctx_ok) as (r & out' & h' & Hr & _ & Hres).
  exists r, out', h'. split; [exact Hr|]. destruct Hres as [H|[H _]]; [by left|by right].
Defined.

(** An allocator that is out of memory at first. *)
Lemma EVP_DigestInit_ex_retry_witness :
  exists ctx h', EVP_DigestInit_ex (D:=openssl_digests) (fun _ _ => None) EVP_MD_CTX_init EVP_md5 sample_heap = Some ((false, ctx), h') /\
    EVP_DigestInit_ex sample_mallocs ctx EVP_md5 h' = None.
Proof.
  destruct (EVP_DigestInit_ex_retry openssl_digests openssl_laws (fun _ _ => None) EVP_md5 sample_heap eq_refl)
    as (ctx & h' & Hr & Hretry).
  exists ctx, h'. split; [exact Hr|apply Hretry].
Defined.
