(* ===== verification/Hmac.v ===== *)
(** HMAC: crypto/hmac/hmac.c, against RFC 2104. It is proved for any digests that
    keep the promises of the digest layer. *)

From Stdlib Require Import ZArith Lia.
From stdpp Require Import base list option.
From S2P Require Import Prelude Md32 Digest.

(** A pointer to data: the address and the bytes there, or NULL. *)
Abbreviation ptr := (option (Z * bytes)).

Section Hmac.
  Context {D : Digests}.
  Variable malloc_at : mallocs.
  (** The addresses of the local arrays that are hashed. *)
  Variables pad_at buf_at : Z.

Record HMAC_CTX := mk_HMAC_CTX {
  md : option EVP_MD;
  md_ctx : EVP_MD_CTX;
  i_ctx : EVP_MD_CTX;
  o_ctx : EVP_MD_CTX
}.

Definition set_md (ctx : HMAC_CTX) (m : option EVP_MD) : HMAC_CTX := mk_HMAC_CTX m (md_ctx ctx) (i_ctx ctx) (o_ctx ctx).
Definition set_md_ctx (ctx : HMAC_CTX) (c : EVP_MD_CTX) : HMAC_CTX := mk_HMAC_CTX (md ctx) c (i_ctx ctx) (o_ctx ctx).
Definition set_i_ctx (ctx : HMAC_CTX) (c : EVP_MD_CTX) : HMAC_CTX := mk_HMAC_CTX (md ctx) (md_ctx ctx) c (o_ctx ctx).
Definition set_o_ctx (ctx : HMAC_CTX) (c : EVP_MD_CTX) : HMAC_CTX := mk_HMAC_CTX (md ctx) (md_ctx ctx) (i_ctx ctx) c.

(** * Operations *)

Definition HMAC_CTX_init : HMAC_CTX := mk_HMAC_CTX None EVP_MD_CTX_init EVP_MD_CTX_init EVP_MD_CTX_init.

Definition HMAC_CTX_cleanup (ctx : HMAC_CTX) : M heap unit :=
  EVP_MD_CTX_cleanup (i_ctx ctx) ;;;
  EVP_MD_CTX_cleanup (o_ctx ctx) ;;;
  EVP_MD_CTX_cleanup (md_ctx ctx) ;;;
  sret tt.

(** The key as it is put at the start of [key_block]; [None] when a digest call
    fails. *)
Definition hmac_key (ctx : HMAC_CTX) (key : ptr) (key_len : Z) (m : EVP_MD) : M heap (option bytes * HMAC_CTX) :=
  if EVP_MD_block_size m <? key_len then
    let* (ok, c) := EVP_DigestInit_ex malloc_at (md_ctx ctx) m in
    let ctx := set_md_ctx ctx c in
    if negb ok then sret (None, ctx)
    else
      let* (addr, k) := slift key in
      let* c := EVP_DigestUpdate (md_ctx ctx) addr (ztake key_len k) key_len in
      let* (out, key_block_len, c) := EVP_DigestFinal_ex c in
      sret (Some (ztake key_block_len out), set_md_ctx ctx c)
  else if negb (key_len <=? EVP_MAX_MD_BLOCK_SIZE) then sstuck
  else
    match key with
    | Some (_, k) => sret (Some (ztake key_len k), ctx)
    | None => if key_len =? 0 then sret (Some [], ctx) else sstuck
    end.

(** A context is given the key block, each byte masked. *)
Definition hmac_pad (c : EVP_MD_CTX) (m : EVP_MD) (mask : Z) (key_block : bytes) : M heap (bool * EVP_MD_CTX) :=
  let pad := map (Z.lxor mask) key_block in
  let* (ok, c) := EVP_DigestInit_ex malloc_at c m in
  if negb ok then sret (false, c)
  else
    let* c := EVP_DigestUpdate c pad_at (ztake (EVP_MD_block_size m) pad) (EVP_MD_block_size m) in
    sret (true, c).

Definition HMAC_Init_ex (ctx : HMAC_CTX) (key : ptr) (key_len : Z) (md_arg : option EVP_MD) :
    M heap (bool * HMAC_CTX) :=
  let m := match md_arg with None => md ctx | Some _ => md_arg end in
  let* (ok, ctx) :=
    if negb (bool_decide (m = md ctx)) || match key with Some _ => true | None => false end then
      let* m := slift m in
      if negb (EVP_MD_block_size m <=? EVP_MAX_MD_BLOCK_SIZE) then sstuck
      else
        let* (k, ctx) := hmac_key ctx key key_len m in
        match k with
        | None => sret (false, ctx)
        | Some k =>
            let key_block := k ++ zrepeat (EVP_MAX_MD_BLOCK_SIZE - zlen k) 0 in
            let* (ok, c) := hmac_pad (i_ctx ctx) m 0x36 key_block in
            let ctx := set_i_ctx ctx c in
            if negb ok then sret (false, ctx)
            else
              let* (ok, c) := hmac_pad (o_ctx ctx) m 0x5c key_block in
              let ctx := set_o_ctx ctx c in
              if negb ok then sret (false, ctx)
              else sret (true, set_md ctx (Some m))
        end
    else sret (true, ctx) in
  if negb ok then sret (false, ctx)
  else
    let* (ok, c) := EVP_MD_CTX_copy_ex malloc_at (md_ctx ctx) (i_ctx ctx) in
    sret (ok, set_md_ctx ctx c).

Definition HMAC_Update (ctx : HMAC_CTX) (addr : Z) (data : bytes) (data_len : Z) : M heap HMAC_CTX :=
  let* c := EVP_DigestUpdate (md_ctx ctx) addr data data_len in
  sret (set_md_ctx ctx c).

(** What is written to [out] and [*out_len], or [None] for the return value 0. The
    error path writes to [*out_len]: it is undefined if [out_len] is NULL. *)
Definition HMAC_Final (ctx : HMAC_CTX) (out_len_null : bool) : M heap (option (bytes * Z) * HMAC_CTX) :=
  let* (buf, i, c) := EVP_DigestFinal_ex (md_ctx ctx) in
  let* (ok, c) := EVP_MD_CTX_copy_ex malloc_at c (o_ctx ctx) in
  if negb ok then if out_len_null then sstuck else sret (None, set_md_ctx ctx c)
  else
    let* c := EVP_DigestUpdate c buf_at (ztake i buf) i in
    let* (out, n, c) := EVP_DigestFinal_ex c in
    sret (Some (out, n), set_md_ctx ctx c).

Definition HMAC_size (ctx : HMAC_CTX) : option Z := option_map EVP_MD_size (md ctx).

(** [None] for NULL, otherwise what is written to [out] and [*out_len]. *)
Definition HMAC (evp_md : EVP_MD) (key : ptr) (key_len : Z) (addr : Z) (data : bytes) (data_len : Z) :
    M heap (option (bytes * Z)) :=
  let* (ok, ctx) := HMAC_Init_ex HMAC_CTX_init key key_len (Some evp_md) in
  let* (r, ctx) :=
    if negb ok then sret (None, ctx)
    else
      let* ctx := HMAC_Update ctx addr data data_len in
      HMAC_Final ctx false in
  HMAC_CTX_cleanup ctx ;;;
  sret r.

Definition HMAC_Init (ctx : HMAC_CTX) (key : ptr) (key_len : Z) (md_arg : option EVP_MD) : M heap (bool * HMAC_CTX) :=
  let ctx := match key, md_arg with Some _, Some _ => HMAC_CTX_init | _, _ => ctx end in
  HMAC_Init_ex ctx key key_len md_arg.

Definition HMAC_CTX_copy_ex (dest src : HMAC_CTX) : M heap (bool * HMAC_CTX) :=
  let* (ok, c) := EVP_MD_CTX_copy_ex malloc_at (i_ctx dest) (i_ctx src) in
  let dest := set_i_ctx dest c in
  if negb ok then sret (false, dest)
  else
    let* (ok, c) := EVP_MD_CTX_copy_ex malloc_at (o_ctx dest) (o_ctx src) in
    let dest := set_o_ctx dest c in
    if negb ok then sret (false, dest)
    else
      let* (ok, c) := EVP_MD_CTX_copy_ex malloc_at (md_ctx dest) (md_ctx src) in
      let dest := set_md_ctx dest c in
      if negb ok then sret (false, dest)
      else sret (true, set_md dest (md src)).

Definition HMAC_CTX_copy (src : HMAC_CTX) : M heap (bool * HMAC_CTX) := HMAC_CTX_copy_ex HMAC_CTX_init src.

End Hmac.

(** * The specification: RFC 2104 *)

Section Spec.
  Context {D : Digests} {L : DigestLaws D}.

(** The key, hashed if it is longer than a block, with zeros up to a block. *)
Definition rfc_key (m : EVP_MD) (key : bytes) : bytes :=
  let B := EVP_MD_block_size m in
  let k := if B <? zlen key then hash m key else key in
  k ++ zrepeat (B - zlen k) 0.

Definition ipad (m : EVP_MD) (key : bytes) : bytes := map (Z.lxor 0x36) (rfc_key m key).
Definition opad (m : EVP_MD) (key : bytes) : bytes := map (Z.lxor 0x5c) (rfc_key m key).

Definition rfc2104 (m : EVP_MD) (key text : bytes) : bytes :=
  hash m (opad m key ++ hash m (ipad m key ++ text)).

(** * Lemmas *)

Variable malloc_at : mallocs.
Variables pad_at buf_at : Z.
Hypothesis Hmalloc : malloc_ok malloc_at.

Lemma rfc_key_length m key : zlen (rfc_key m key) = EVP_MD_block_size m.
Proof.
  destruct (size_law m) as (Hs & Hb & _). pose proof (hash_length m key) as Hl.
  unfold rfc_key, EVP_MD_block_size in *. cbv zeta. rewrite length_app, length_zrepeat. case_if; lia.
Qed.

Lemma map_lxor_ok mask l : is_byte mask -> bytes_ok l -> bytes_ok (map (Z.lxor mask) l).
Proof. intros Hm Hl. apply Forall_map. eapply Forall_impl; [|exact Hl]. intros x Hx. by apply (lxor_is_u 8). Qed.

Lemma rfc_key_ok m key : bytes_ok key -> bytes_ok (rfc_key m key).
Proof.
  intros Hk. unfold rfc_key. cbv zeta. apply bytes_ok_app. split; [case_if; [apply hash_bytes|done]|].
  apply bytes_ok_zrepeat. split; lia.
Qed.

Lemma pads_ok m key mask : is_byte mask -> bytes_ok key -> input_ok (map (Z.lxor mask) (rfc_key m key)).
Proof.
  intros Hm Hk. split; [by apply map_lxor_ok, rfc_key_ok|]. rewrite length_map, rfc_key_length.
  destruct (size_law m) as (Hs & Hb & _). unfold EVP_MD_block_size, EVP_MAX_MD_BLOCK_SIZE in *. split; lia.
Qed.

(** The code masks a buffer of the largest block size and hashes a block of it. *)
Lemma pad_block m key k mask : k = (if EVP_MD_block_size m <? zlen key then hash m key else key) ->
  ztake (EVP_MD_block_size m) (map (Z.lxor mask) (k ++ zrepeat (EVP_MAX_MD_BLOCK_SIZE - zlen k) 0)) =
  map (Z.lxor mask) (rfc_key m key).
Proof.
  intros Hk. pose proof (rfc_key_length m key) as Hl. destruct (size_law m) as (_ & Hb & _).
  unfold rfc_key in *. cbv zeta in *. rewrite <- Hk in *. clear Hk.
  unfold EVP_MD_block_size, EVP_MAX_MD_BLOCK_SIZE in *. set (B := block_size (methods m)) in *. clearbody B.
  rewrite length_app, length_zrepeat in Hl.
  replace (128 - zlen k) with ((B - zlen k) + (128 - B)) by lia. unfold zrepeat.
  rewrite Z2Nat.inj_add, replicate_add, app_assoc, map_app by lia.
  apply ztake_app. rewrite length_map, length_app, length_replicate. lia.
Qed.

(** ** States *)

Definition hmac_ok (c : HMAC_CTX) : Prop := ctx_ok (md_ctx c) /\ ctx_ok (i_ctx c) /\ ctx_ok (o_ctx c).

(** Keyed with [key], and ready for a new message. *)
Definition keyed (c : HMAC_CTX) (m : EVP_MD) (key : bytes) : Prop :=
  md c = Some m /\ holds (i_ctx c) m (ipad m key) /\ holds (o_ctx c) m (opad m key) /\ has_block (md_ctx c) m.

(** Keyed, and given the message [text]. *)
Definition authenticates (c : HMAC_CTX) (m : EVP_MD) (key text : bytes) : Prop :=
  keyed c m key /\ holds (md_ctx c) m (ipad m key ++ text).

Definition hmac_owned (c : HMAC_CTX) : Z := owned (md_ctx c) + owned (i_ctx c) + owned (o_ctx c).

Definition hmac_balanced (h : heap) (c : HMAC_CTX) (h' : heap) (c' : HMAC_CTX) : Prop :=
  live h' - hmac_owned c' = live h - hmac_owned c.

Lemma keyed_ok c m key : keyed c m key -> hmac_ok c.
Proof.
  intros (_ & Hi & Ho & Hm). split_and!; eapply has_block_ok; [exact Hm|eapply holds_block; exact Hi|eapply holds_block; exact Ho].
Qed.

Lemma hmac_cleanup_spec c h : hmac_ok c ->
  wp (HMAC_CTX_cleanup c) h (fun _ h' => live h' = live h - hmac_owned c).
Proof.
  intros (Hm & Hi & Ho). unfold HMAC_CTX_cleanup, hmac_owned.
  eapply wp_call; [by apply cleanup_spec|]. intros _ h1 [_ H1].
  eapply wp_call; [by apply cleanup_spec|]. intros _ h2 [_ H2].
  eapply wp_call; [by apply cleanup_spec|]. intros _ h3 [_ H3]. apply wp_ret. lia.
Qed.

(** A context that can be initialised: it has not failed to get its block before. *)
Definition usable (c : EVP_MD_CTX) (m : EVP_MD) : Prop := ctx_ok c /\ (digest c = Some m -> md_data c <> None).

(** The bytes of a key; a NULL key is empty. *)
Definition ptr_bytes (p : ptr) : bytes := match p with Some (_, b) => b | None => [] end.

Lemma hmac_key_spec c kp m h : usable (md_ctx c) m -> input_ok (ptr_bytes kp) ->
  let key := ptr_bytes kp in
  wp (hmac_key malloc_at c kp (zlen key) m) h (fun r h' =>
    balanced h (md_ctx c) h' (md_ctx r.2) /\ ctx_ok (md_ctx r.2) /\
    md r.2 = md c /\ i_ctx r.2 = i_ctx c /\ o_ctx r.2 = o_ctx c /\
    match r.1 with
    | Some k => k = if EVP_MD_block_size m <? zlen key then hash m key else key
    | None => malloc_fails malloc_at
    end).
Proof.
  intros [Hok Hd] Hk key. destruct (size_law m) as (Hs & Hbs & _). unfold hmac_key.
  destruct (Z.ltb_spec (EVP_MD_block_size m) (zlen key)) as [Hlong|Hshort].
  - destruct kp as [[addr k0]|]; [change k0 with key|unfold EVP_MD_block_size in Hlong; cbn in Hlong; lia].
    eapply wp_call; [by apply (init_spec malloc_at Hmalloc)|]. intros [ok c1] h1 [Hb Hr]. cbn [fst snd] in Hb, Hr.
    destruct ok; cbn [negb].
    + cbn [slift]. apply wp_bind. apply (wp_lift _ (addr, key)); [done|]. rewrite ztake_all by lia.
      cbn [md_ctx set_md_ctx]. eapply wp_call; [by apply (update_spec c1 m [] addr key)|]. intros c2 h2 [-> H2].
      eapply wp_call; [apply (final_spec c2 m _ h1 H2)|]. intros [[out n] c3] h3 (-> & Ho & Hn & H3). cbn [fst snd] in *. subst out n.
      apply wp_ret. cbn [fst snd set_md_ctx md_ctx md i_ctx o_ctx]. split; [|split; [by eapply has_block_ok|do 3 (split; [done|])]].
      * destruct H3 as (_ & _ & s3 & Hs3 & _). destruct Hr as (_ & _ & s1 & Hs1 & _).
        unfold balanced, owned in *. rewrite Hs3. rewrite Hs1 in Hb. lia.
      * cbn [app]. apply ztake_all. pose proof (hash_length m key). unfold EVP_MD_size. lia.
    + apply wp_ret. destruct Hr as (_ & _ & Hok1 & Hf). by split_and!.
  - unfold EVP_MD_block_size, EVP_MAX_MD_BLOCK_SIZE in *. rewrite (proj2 (Z.leb_le _ _)) by lia. cbn [negb].
    destruct kp as [[addr k0]|]; apply wp_ret; cbn [fst snd]; do 5 (split; [done|]); [apply ztake_all; unfold key; cbn; lia|done].
Qed.

Lemma hmac_pad_spec c m mask key k h : usable c m -> is_byte mask -> bytes_ok key ->
  k = (if EVP_MD_block_size m <? zlen key then hash m key else key) ->
  wp (hmac_pad malloc_at pad_at c m mask (k ++ zrepeat (EVP_MAX_MD_BLOCK_SIZE - zlen k) 0)) h (fun r h' =>
    balanced h c h' r.2 /\ if r.1 then holds r.2 m (map (Z.lxor mask) (rfc_key m key))
                           else ctx_ok r.2 /\ malloc_fails malloc_at).
Proof.
  intros [Hok Hd] Hm Hk Hkey. unfold hmac_pad. rewrite (pad_block m key k mask Hkey).
  eapply wp_call; [by apply (init_spec malloc_at Hmalloc)|]. intros [ok c1] h1 [Hb Hr]. cbn [fst snd] in Hb, Hr.
  destruct ok; cbn [negb].
  - pose proof (pads_ok m key mask Hm Hk) as Hin.
    replace (EVP_MD_block_size m) with (zlen (map (Z.lxor mask) (rfc_key m key))) by (by rewrite length_map, rfc_key_length).
    eapply wp_call; [by apply (update_spec c1 m [])|]. intros c2 h2 [-> H2]. apply wp_ret. cbn [fst snd app] in *. split; [|done].
    destruct H2 as (_ & _ & s2 & Hs2 & _). destruct Hr as (_ & _ & s1 & Hs1 & _).
    unfold balanced, owned in *. rewrite Hs2. by rewrite Hs1 in Hb.
  - apply wp_ret. destruct Hr as (_ & _ & Hok1 & Hf). by split_and!.
Qed.

(** Every context is usable, so the key can be set. *)
Definition hmac_usable (c : HMAC_CTX) (m : EVP_MD) : Prop :=
  usable (md_ctx c) m /\ usable (i_ctx c) m /\ usable (o_ctx c) m.

Lemma holds_owned c m x : holds c m x -> owned c = 1.
Proof. intros (_ & _ & s & Hs & _). unfold owned. by rewrite Hs. Qed.

Lemma has_block_owned c m : has_block c m -> owned c = 1.
Proof. intros (_ & _ & s & Hs & _). unfold owned. by rewrite Hs. Qed.

Lemma hmac_init_spec c kp m h : hmac_usable c m -> input_ok (ptr_bytes kp) -> (kp <> None \/ md c <> Some m) ->
  let key := ptr_bytes kp in
  wp (HMAC_Init_ex malloc_at pad_at c kp (zlen key) (Some m)) h (fun r h' =>
    hmac_balanced h c h' r.2 /\ hmac_ok r.2 /\
    if r.1 then authenticates r.2 m key [] else malloc_fails malloc_at).
Proof.
  intros (Hum & Hui & Huo) Hk Hnew key. unfold HMAC_Init_ex. cbv zeta.
  replace (negb (bool_decide (Some m = md c)) || match kp with Some _ => true | None => false end) with true
    by (destruct kp; [by rewrite orb_true_r|]; rewrite bool_decide_eq_false_2; [done|]; destruct Hnew; congruence).
  destruct (size_law m) as (Hs & Hbs & _).
  assert (Hle : (EVP_MD_block_size m <=? EVP_MAX_MD_BLOCK_SIZE) = true) by (apply Z.leb_le; unfold EVP_MD_block_size; lia).
  apply wp_bind, wp_bind, (wp_lift _ m); [done|]. cbv beta. rewrite Hle. cbn [negb].
  eapply wp_call; [by apply hmac_key_spec|]. intros [k c1] h1 (Hb1 & Hok1 & Hmd1 & Hi1 & Ho1 & Hkey). cbn [fst snd] in *.
  unfold hmac_balanced, hmac_owned, balanced in *.
  assert (Hfail : forall c', malloc_fails malloc_at -> hmac_ok c' -> forall h', live h' - hmac_owned c' = live h - hmac_owned c ->
    wp (sret (false, c')) h' (fun '(ok, c') h' => wp (if negb ok then sret (false, c') else
        let* (ok, x) := EVP_MD_CTX_copy_ex malloc_at (md_ctx c') (i_ctx c') in sret (ok, set_md_ctx c' x)) h'
      (fun r h'0 => live h'0 - (owned (md_ctx r.2) + owned (i_ctx r.2) + owned (o_ctx r.2)) =
         live h - (owned (md_ctx c) + owned (i_ctx c) + owned (o_ctx c)) /\ hmac_ok r.2 /\
         (if r.1 then authenticates r.2 m key [] else malloc_fails malloc_at)))).
  { intros c' Hf Hok' h' Hl. apply wp_ret. cbn [negb]. apply wp_ret. by split_and!. }
  destruct k as [k|].
  2: { apply Hfail; [done| |unfold hmac_owned; rewrite Hi1, Ho1; lia].
       split; [done|]. rewrite Hi1, Ho1. split; [apply Hui|apply Huo]. }
  rewrite Hi1. eapply wp_call; [by apply (hmac_pad_spec (i_ctx c) m 0x36 key k); [|done|apply Hk|]|].
  intros [ok ci] h2 [Hb2 Hr2]. cbn [fst snd] in *. cbn [set_i_ctx o_ctx]. rewrite Ho1. unfold balanced in Hb2.
  destruct ok; cbn [negb].
  2: { destruct Hr2 as [Hoki Hf]. apply Hfail; [done| |unfold hmac_owned; cbn; rewrite Ho1; lia].
       split; [done|]. cbn. rewrite Ho1. split; [done|apply Huo]. }
  eapply wp_call; [by apply (hmac_pad_spec (o_ctx c) m 0x5c key k); [|done|apply Hk|]|].
  intros [ok co] h3 [Hb3 Hr3]. cbn [fst snd] in *. unfold balanced in Hb3. destruct ok; cbn [negb].
  2: { destruct Hr3 as [Hoko Hf]. apply Hfail; [done| |unfold hmac_owned; cbn; lia].
       split; [done|]. cbn. split; [|done]. by eapply has_block_ok, holds_block. }
  wp_auto. cbn [set_md set_o_ctx set_i_ctx md_ctx i_ctx o_ctx].
  eapply wp_mono; [by apply (copy_spec malloc_at Hmalloc (md_ctx c1) ci m (ipad m key))|].
  intros [ok cm] h4 [Hb4 Hr4]. cbn [fst snd] in *. unfold balanced in Hb4. apply wp_ret. cbn.
  split; [lia|]. destruct ok.
  - assert (Hka : keyed (mk_HMAC_CTX (Some m) cm ci co) m key).
    { split; [done|]. split; [done|]. split; [done|]. by eapply holds_block. }
    split; [by eapply keyed_ok|]. split; [done|]. by rewrite app_nil_r.
  - destruct Hr4 as (_ & Hokm & Hf). split; [|done]. split; [done|].
    split; eapply has_block_ok, holds_block; [exact Hr2|exact Hr3].
Qed.

(** A NULL key starts a new message with the same key, and needs no memory. *)
Lemma hmac_rewind_spec c m key md_arg h : keyed c m key -> (md_arg = None \/ md_arg = Some m) ->
  wp (HMAC_Init_ex malloc_at pad_at c None 0 md_arg) h (fun r h' =>
    live h' = live h /\ calls h' = calls h /\ r.1 = true /\ authenticates r.2 m key []).
Proof.
  intros (Hm & Hi & Ho & Hb) Harg. unfold HMAC_Init_ex. cbv zeta.
  rewrite bool_decide_eq_true_2 by (destruct Harg as [-> | ->]; congruence). cbn [negb orb]. wp_auto.
  eapply wp_mono; [by apply (copy_block malloc_at (md_ctx c) (i_ctx c) m (ipad m key))|].
  intros [ok cm] h1 (Hl & Hc & Hok & Hh). cbn [fst snd] in *. subst ok. apply wp_ret. do 3 (split; [done|]).
  split; [|by rewrite app_nil_r]. do 3 (split; [done|]). by eapply holds_block.
Qed.

Lemma hmac_update_spec c m key text addr data h : authenticates c m key text -> input_ok data ->
  wp (HMAC_Update c addr data (zlen data)) h (fun c' h' => h' = h /\ authenticates c' m key (text ++ data)).
Proof.
  intros [(Hm & Hi & Ho & Hb) Hh] Hd. unfold HMAC_Update.
  eapply wp_call; [by apply (update_spec (md_ctx c) m)|]. intros c1 h1 [-> H1]. apply wp_ret. split; [done|].
  rewrite <- app_assoc in H1. split; [|done]. do 3 (split; [done|]). by eapply holds_block.
Qed.

Lemma hash_input_ok m x : input_ok (hash m x).
Proof.
  split; [apply hash_bytes|]. rewrite hash_length. destruct (size_law m) as (Hs & _ & _).
  unfold EVP_MAX_MD_SIZE in Hs. split; lia.
Qed.

(** Finishing never fails: the copy it makes has a block already. *)
Lemma hmac_final_spec c m key text null h : authenticates c m key text ->
  wp (HMAC_Final malloc_at buf_at c null) h (fun r h' => live h' = live h /\ calls h' = calls h /\
    r.1 = Some (rfc2104 m key text, EVP_MD_size m) /\ keyed r.2 m key).
Proof.
  intros [(Hm & Hi & Ho & Hb) Hh]. unfold HMAC_Final.
  eapply wp_call; [by apply (final_spec (md_ctx c) m _ h Hh)|]. intros [[out n] c1] h1 (-> & Hout & Hn & H1).
  cbn [fst snd] in *. eapply wp_call; [by apply (copy_block malloc_at c1 (o_ctx c) m (opad m key))|].
  intros [ok c2] h2 (Hl & Hc & Hok & H2). cbn [fst snd] in *. subst ok. cbn [negb]. subst out n.
  rewrite ztake_all by (rewrite hash_length; unfold EVP_MD_size; lia).
  replace (EVP_MD_size m) with (zlen (hash m (ipad m key ++ text))) by apply hash_length.
  eapply wp_call; [by apply (update_spec c2 m _ _ _ h2 H2), hash_input_ok|]. intros c3 h3 [-> H3].
  eapply wp_call; [by apply (final_spec c3 m _ h2 H3)|]. intros [[out' n'] c4] h4 (-> & Hout' & Hn' & H4).
  cbn [fst snd] in *. subst out' n'. apply wp_ret. cbn [fst snd].
  do 2 (split; [done|]). split; [by rewrite hash_length|]. by do 3 (split; [done|]).
Qed.

Lemma keyed_owned c m key : keyed c m key -> hmac_owned c = 3.
Proof.
  intros (_ & Hi & Ho & Hb). unfold hmac_owned.
  by rewrite (has_block_owned _ _ Hb), (holds_owned _ _ _ Hi), (holds_owned _ _ _ Ho).
Qed.

(** The updates of a message that comes in pieces. *)
Fixpoint hmac_updates (c : HMAC_CTX) (inputs : list (Z * bytes)) : M heap HMAC_CTX :=
  match inputs with
  | [] => sret c
  | (addr, data) :: inputs => let* c := HMAC_Update c addr data (zlen data) in hmac_updates c inputs
  end.

Lemma hmac_updates_spec c m key text inputs h : authenticates c m key text -> Forall (fun i => input_ok i.2) inputs ->
  wp (hmac_updates c inputs) h (fun c' h' => h' = h /\ authenticates c' m key (text ++ concat (map snd inputs))).
Proof.
  intros Ha Hin. revert c text Ha. induction Hin as [|[addr data] inputs Hd Hin IH]; intros c text Ha; cbn [hmac_updates map concat].
  - apply wp_ret. by rewrite app_nil_r.
  - eapply wp_call; [by apply hmac_update_spec|]. intros c1 h1 [-> H1]. rewrite app_assoc. by apply IH.
Qed.

(** The one-shot function. *)
Lemma hmac_oneshot_spec m kp addr data h : input_ok (ptr_bytes kp) -> input_ok data ->
  let key := ptr_bytes kp in
  wp (HMAC malloc_at pad_at buf_at m kp (zlen key) addr data (zlen data)) h (fun r h' => live h' = live h /\
    (r = Some (rfc2104 m key data, EVP_MD_size m) \/ r = None /\ malloc_fails malloc_at)).
Proof.
  intros Hk Hd key. unfold HMAC.
  eapply wp_call; [apply hmac_init_spec; [split_and!; done|done|by right]|].
  intros [ok c] h1 (Hb & Hok & Hr). cbn [fst snd] in *. unfold hmac_balanced in Hb. change (hmac_owned HMAC_CTX_init) with 0 in Hb.
  destruct ok; cbn [negb].
  - apply wp_bind. eapply wp_call; [by apply hmac_update_spec|]. intros c1 h2 [-> H2].
    eapply wp_mono; [by apply (hmac_final_spec c1 m key)|]. intros [r c2] h3 (Hl & _ & Hres & H3).
    cbn [fst snd] in *. subst r. eapply wp_call; [by apply hmac_cleanup_spec, (keyed_ok c2 m key)|]. intros ? h4 H4. apply wp_ret.
    destruct Hr as [Hr _]. rewrite (keyed_owned _ _ _ H3) in H4. rewrite (keyed_owned _ _ _ Hr) in Hb.
    split; [lia|by left].
  - apply wp_bind, wp_ret. eapply wp_call; [by apply hmac_cleanup_spec|]. intros ? h4 H4. apply wp_ret. cbv beta in H4. split; [lia|by right].
Qed.

End Spec.

Arguments hmac_ok {D L} c. Arguments keyed {D L} c m key. Arguments authenticates {D L} c m key text.

(** * Properties *)

(** C27. The one-shot HMAC is the function of RFC 2104 over whatever digest is used:
    it is defined whatever malloc does, returns the code or fails because an
    allocation failed, and leaves no block allocated. A NULL key of length zero is
    the empty key. *)
Theorem HMAC_rfc2104 (D : Digests) (L : DigestLaws D) malloc_at pad_at buf_at m kp addr data h :
  let key := ptr_bytes kp in
  malloc_ok malloc_at -> input_ok key -> input_ok data ->
  exists r h', HMAC malloc_at pad_at buf_at m kp (zlen key) addr data (zlen data) h = Some (r, h') /\
    live h' = live h /\
    (r = Some (rfc2104 m key data, EVP_MD_size m) \/ r = None /\ malloc_fails malloc_at).
Proof.
  intros key Hm Hk Hd. apply wp_run. by apply hmac_oneshot_spec.
Qed.


(** Reuse of a keyed context. A NULL key rewinds it, whether or not a message
    was under way; a message given in pieces and finished then gives the code of
    RFC 2104. None of this can fail or calls malloc, even where the caller passes a
    NULL length, and the context stays keyed. *)
Theorem HMAC_reuse (D : Digests) (L : DigestLaws D) malloc_at pad_at buf_at c m key inputs null h :
  keyed c m key -> Forall (fun i => input_ok i.2) inputs ->
  exists c' h', (let* (_, c) := HMAC_Init_ex malloc_at pad_at c None 0 None in
                 let* c := hmac_updates c inputs in HMAC_Final malloc_at buf_at c null) h =
      Some ((Some (rfc2104 m key (concat (map snd inputs)), EVP_MD_size m), c'), h') /\
    keyed c' m key /\ live h' = live h /\ calls h' = calls h.
Proof.
  intros Hk Hin.
  assert (Hwp : wp (let* (_, c) := HMAC_Init_ex malloc_at pad_at c None 0 None in
                 let* c := hmac_updates c inputs in HMAC_Final malloc_at buf_at c null) h (fun r h' =>
    live h' = live h /\ calls h' = calls h /\ r.1 = Some (rfc2104 m key (concat (map snd inputs)), EVP_MD_size m) /\ keyed r.2 m key)).
  { eapply wp_call; [by apply (hmac_rewind_spec malloc_at pad_at c m key None h Hk); left|].
    intros [ok c1] h1 (Hl & Hc & _ & H1). cbn [snd] in H1.
    eapply wp_call; [by apply hmac_updates_spec|]. intros c2 h2 [-> H2]. cbn [app] in H2. rewrite <- Hl, <- Hc.
    by apply hmac_final_spec. }
  apply wp_run in Hwp as ([r c'] & h' & Hr & Hl & Hc & Hres & Hk'). cbn [fst snd] in *. subst r. by exists c', h'.
Qed.

(** ** Witnesses, with SHA-256 *)

From S2P Require Import Fips Sha256 Sha512 Digests.

#[local] Instance sample_platform : Platform := {| i386 := false; SHA512_BLOCK_CAN_MANAGE_UNALIGNED_DATA := false |}.

(** The second test case of RFC 4231: the key "Jefe". *)
Definition jefe : bytes := [0x4a; 0x65; 0x66; 0x65].
Definition what_do : bytes :=
  [0x77; 0x68; 0x61; 0x74; 0x20; 0x64; 0x6f; 0x20; 0x79; 0x61; 0x20; 0x77; 0x61; 0x6e; 0x74; 0x20; 0x66; 0x6f; 0x72; 0x20;
   0x6e; 0x6f; 0x74; 0x68; 0x69; 0x6e; 0x67; 0x3f].
Definition jefe_code : bytes :=
  [0x5b; 0xdc; 0xc1; 0x46; 0xbf; 0x60; 0x75; 0x4e; 0x6a; 0x04; 0x24; 0x26; 0x08; 0x95; 0x75; 0xc7;
   0x5a; 0x00; 0x3f; 0x08; 0x9d; 0x27; 0x39; 0x83; 0x9d; 0xec; 0x58; 0xb9; 0x64; 0xec; 0x38; 0x43].

Lemma rfc4231_case2 : rfc2104 (L:=openssl_laws) EVP_sha256 jefe what_do = jefe_code.
Proof. vm_compute. reflexivity. Qed.

Lemma byte_string_ok (l : bytes) : forallb (fun b => (0 <=? b) && (b <? 256)) l = true -> zlen l < 2 ^ 64 -> input_ok l.
Proof.
  intros Hl Hn. split; [|split; lia]. apply List.Forall_forall. intros b Hb. rewrite List.forallb_forall in Hl.
  apply Hl in Hb. bool_simpl. split; lia.
Qed.

Lemma HMAC_rfc2104_witness :
  exists h', HMAC (D:=openssl_digests) sample_mallocs 0 0 EVP_sha256 (Some (0, jefe)) 4 0 what_do 28 sample_heap =
    Some (Some (jefe_code, 32), h') /\ live h' = 0.
Proof.
  pose proof (HMAC_rfc2104 openssl_digests openssl_laws sample_mallocs 0 0 EVP_sha256 (Some (0, jefe)) 0 what_do sample_heap
    sample_mallocs_ok (byte_string_ok jefe eq_refl eq_refl) (byte_string_ok what_do eq_refl eq_refl)) as H.
  change (zlen (ptr_bytes (Some (0, jefe)))) with 4 in H. change (zlen what_do) with 28 in H.
  change (ptr_bytes (Some (0, jefe))) with jefe in H. change (EVP_MD_size (D:=openssl_digests) EVP_sha256) with 32 in H.
  rewrite rfc4231_case2 in H. destruct H as (r & h' & Hr & Hl & [->|[_ Hf]]); [|by destruct sample_mallocs_succeed].
  exists h'. split; [exact Hr|exact Hl].
Defined.

(** A keyed context, and the same message in two pieces. *)
Definition jefe_ctx : HMAC_CTX :=
  let ctx_of pad := mk_MD_CTX (Some EVP_sha256) (Some (Ctx32 (SHA256_Update SHA256_Init pad (zlen pad)))) None None in
  mk_HMAC_CTX (Some EVP_sha256) (mk_MD_CTX (Some EVP_sha256) (Some (Raw (zrepeat 112 0))) None None)
    (ctx_of (ipad (L:=openssl_laws) EVP_sha256 jefe)) (ctx_of (opad (L:=openssl_laws) EVP_sha256 jefe)).

Lemma jefe_keyed : keyed (L:=openssl_laws) jefe_ctx EVP_sha256 jefe.
Proof.
  assert (Hp : forall mask, is_byte mask -> holds (L:=openssl_laws) (mk_MD_CTX (Some EVP_sha256)
      (Some (Ctx32 (SHA256_Update SHA256_Init (map (Z.lxor mask) (rfc_key (L:=openssl_laws) EVP_sha256 jefe))
         (zlen (map (Z.lxor mask) (rfc_key (L:=openssl_laws) EVP_sha256 jefe)))))) None None) EVP_sha256
      (map (Z.lxor mask) (rfc_key (L:=openssl_laws) EVP_sha256 jefe))).
  { intros mask Hm. split; [done|]. split; [done|]. eexists. split; [reflexivity|].
    exists [(0, map (Z.lxor mask) (rfc_key (L:=openssl_laws) EVP_sha256 jefe))]. split; [|split].
    - constructor; [|constructor]. apply pads_ok; [done|]. apply (byte_string_ok jefe eq_refl eq_refl).
    - cbn [map snd concat]. by rewrite app_nil_r.
    - reflexivity. }
  split; [done|]. split; [apply Hp; split; lia|]. split; [apply Hp; split; lia|].
  split; [done|]. split; [done|]. by eexists.
Qed.

Lemma HMAC_reuse_witness :
  exists c' h', (let* (_, c) := HMAC_Init_ex sample_mallocs 0 jefe_ctx None 0 None in
                 let* c := hmac_updates c [(0, take 10 what_do); (5, drop 10 what_do)] in
                 HMAC_Final sample_mallocs 0 c true) sample_heap = Some ((Some (jefe_code, 32), c'), h') /\
    keyed (L:=openssl_laws) c' EVP_sha256 jefe.
Proof.
  assert (Hin : Forall (fun i => input_ok i.2) [(0, take 10 what_do); (5, drop 10 what_do)]).
  { constructor; [exact (byte_string_ok (take 10 what_do) eq_refl eq_refl)|].
    constructor; [exact (byte_string_ok (drop 10 what_do) eq_refl eq_refl)|constructor]. }
  pose proof (HMAC_reuse openssl_digests openssl_laws sample_mallocs 0 0 jefe_ctx EVP_sha256 jefe _ true sample_heap jefe_keyed Hin) as H.
  change (concat (map snd [(0, take 10 what_do); (5, drop 10 what_do)])) with what_do in H.
  change (EVP_MD_size (D:=openssl_digests) EVP_sha256) with 32 in H. rewrite rfc4231_case2 in H.
  destruct H as (c' & h' & Hr & Hk & _). exists c', h'. split; [exact Hr|exact Hk].
Defined.
