(* ===== verification/Hkdf.v ===== *)
(** HKDF: crypto/hkdf/hkdf.c over the HMAC model, against RFC 5869. *)

From Stdlib Require Import ZArith Lia.
From stdpp Require Import base list option.
From S2P Require Import Prelude Md32 Digest Hmac.

(** * Operations *)

Section Hkdf.
  Context {D : Digests}.
  Variable malloc_at : mallocs.
  (** The addresses of the local arrays that are hashed. *)
  Variables pad_at buf_at previous_at ctr_at : Z.

(** What is written to [out_key], or [None] for the return value 0. *)
Definition HKDF_extract (md : EVP_MD) (secret_at : Z) (secret : bytes) (secret_len : Z) (salt : ptr) (salt_len : Z) :
    M heap (option bytes) :=
  let* r := HMAC malloc_at pad_at buf_at md salt salt_len secret_at secret secret_len in
  match r with
  | None => sret None
  | Some (out_key, len) => if negb (len =? EVP_MD_size md) then sstuck else sret (Some out_key)
  end.

(** The loop from [i], after [done] bytes [out_key] have been written. *)
Fixpoint expand_loop (fuel : nat) (i : Z) (hmac : HMAC_CTX) (previous out_key : bytes)
    (digest_len out_len info_at : Z) (info : bytes) : M heap (option bytes * HMAC_CTX) :=
  match fuel with
  | O => sret (Some out_key, hmac)
  | S fuel =>
      let ctr := u8 (i + 1) in
      let* (ok, hmac) :=
        if negb (i =? 0) then
          let* (ok, hmac) := HMAC_Init_ex malloc_at pad_at hmac None 0 None in
          if negb ok then sret (false, hmac)
          else
            let* hmac := HMAC_Update hmac previous_at previous digest_len in
            sret (true, hmac)
        else sret (true, hmac) in
      if negb ok then sret (None, hmac)
      else
        let* hmac := HMAC_Update hmac info_at info (zlen info) in
        let* hmac := HMAC_Update hmac ctr_at [ctr] 1 in
        let* (r, hmac) := HMAC_Final malloc_at buf_at hmac true in
        match r with
        | None => sret (None, hmac)
        | Some (previous, _) =>
            let done := zlen out_key in
            let todo := if u64 (done + digest_len) >? out_len then out_len - done else digest_len in
            expand_loop fuel (i + 1) hmac previous (out_key ++ ztake todo previous) digest_len out_len info_at info
        end
  end.

Definition HKDF_expand (out_len : Z) (md : EVP_MD) (prk_at : Z) (prk : bytes) (prk_len : Z) (info_at : Z) (info : bytes) :
    M heap (option bytes) :=
  let digest_len := EVP_MD_size md in
  let n := u64 (u64 (out_len + digest_len) - 1) / digest_len in
  if (u64 (out_len + digest_len) <? out_len) || (n >? 255) then sret None
  else
    let* (ok, hmac) := HMAC_Init_ex malloc_at pad_at HMAC_CTX_init (Some (prk_at, prk)) prk_len (Some md) in
    let* (r, hmac) :=
      if negb ok then sret (None, hmac)
      else expand_loop (Z.to_nat n) 0 hmac [] [] digest_len out_len info_at info in
    HMAC_CTX_cleanup hmac ;;;
    sret r.

(** [prk] is at address [prk_at]. *)
Definition HKDF (prk_at out_len : Z) (md : EVP_MD) (secret_at : Z) (secret : bytes) (secret_len : Z)
    (salt : ptr) (salt_len info_at : Z) (info : bytes) : M heap (option bytes) :=
  let* prk := HKDF_extract md secret_at secret secret_len salt salt_len in
  match prk with
  | None => sret None
  | Some prk => HKDF_expand out_len md prk_at prk (zlen prk) info_at info
  end.

End Hkdf.

(** * The specification: RFC 5869 *)

Section Spec.
  Context {D : Digests} {L : DigestLaws D}.

Section Blocks.
  Variables (m : EVP_MD) (prk info : bytes).

(** T(0), T(1), ... *)
Fixpoint rfc_T (i : nat) : bytes :=
  match i with
  | O => []
  | S j => rfc2104 m prk (rfc_T j ++ info ++ [Z.of_nat i])
  end.

Definition rfc_blocks (n : nat) : bytes := concat (map rfc_T (seq 1 n)).

(** The number of blocks is the length divided by the digest's, rounded up. *)
Definition rfc5869_expand (len : Z) : bytes :=
  let N := (len + EVP_MD_size m - 1) / EVP_MD_size m in
  ztake len (rfc_blocks (Z.to_nat N)).

End Blocks.

Definition rfc5869 (m : EVP_MD) (salt secret info : bytes) (len : Z) : bytes :=
  rfc5869_expand m (rfc2104 m salt secret) info len.

(** * Lemmas *)

Variable malloc_at : mallocs.
Variables pad_at buf_at previous_at ctr_at : Z.
Hypothesis Hmalloc : malloc_ok malloc_at.

Lemma rfc_blocks_S m prk info n : rfc_blocks m prk info (S n) = rfc_blocks m prk info n ++ rfc_T m prk info (S n).
Proof. unfold rfc_blocks. rewrite seq_S, map_app, concat_app. cbn [map concat Nat.add]. by rewrite app_nil_r. Qed.

(** Filling a buffer of [n] bytes block by block. *)
Lemma ztake_step (n : Z) (l t : bytes) : 0 <= n ->
  ztake n l ++ ztake (if zlen (ztake n l) + zlen t >? n then n - zlen (ztake n l) else zlen t) t = ztake n (l ++ t).
Proof.
  intros Hn. destruct (Z.le_gt_cases n (zlen l)) as [Hle|Hgt].
  - assert (Hl : zlen (ztake n l) = n) by zlia. rewrite Hl.
    assert (Ht : ztake (if n + zlen t >? n then n - n else zlen t) t = []).
    { apply zlen_0. rewrite length_ztake. case_if; lia. }
    rewrite Ht, app_nil_r. unfold ztake. rewrite take_app_le by lia. done.
  - rewrite (ztake_all n l) by lia. unfold ztake. rewrite take_app_ge by lia. f_equal.
    case_if; [f_equal; lia|]. rewrite !take_ge by lia. done.
Qed.

Lemma rfc_T_length m prk info i : zlen (rfc_T m prk info (S i)) = EVP_MD_size m.
Proof. cbn [rfc_T]. apply hash_length. Qed.

Lemma digest_len_bound m : 0 < EVP_MD_size m <= 64.
Proof. apply (size_law m). Qed.

(** One turn of the loop: from a context ready for the block after [i]. *)
Definition at_block (c : HMAC_CTX) (m : EVP_MD) (prk : bytes) (i : Z) : Prop :=
  keyed c m prk /\ (i = 0 -> authenticates c m prk []).

Lemma byte_input_ok x : is_byte x -> input_ok [x].
Proof. intros Hx. split; [constructor; [done|constructor]|split; cbn; lia]. Qed.

Lemma update_byte c m key text addr x h : authenticates c m key text -> is_byte x ->
  wp (HMAC_Update c addr [x] 1) h (fun c' h' => h' = h /\ authenticates c' m key (text ++ [x])).
Proof. intros Ha Hx. exact (hmac_update_spec c m key text addr [x] h Ha (byte_input_ok x Hx)). Qed.

Lemma expand_loop_spec m prk info info_at out_len fuel i c h : input_ok info -> 0 <= out_len < 2 ^ 63 ->
  (i + fuel <= 255)%nat -> at_block c m prk (Z.of_nat i) ->
  wp (expand_loop malloc_at pad_at buf_at previous_at ctr_at fuel (Z.of_nat i) c (rfc_T m prk info i)
        (ztake out_len (rfc_blocks m prk info i)) (EVP_MD_size m) out_len info_at info) h
    (fun r h' => live h' = live h /\ r.1 = Some (ztake out_len (rfc_blocks m prk info (i + fuel))) /\ keyed r.2 m prk).
Proof.
  intros Hinfo Hout. revert i c h. induction fuel as [|fuel IH]; intros i c h Hi [Hk H0]; cbn [expand_loop].
  { apply wp_ret. rewrite Nat.add_0_r. by split_and!. }
  pose proof (digest_len_bound m) as Hdl.
  assert (Hstart : wp (if negb (Z.of_nat i =? 0) then
          let* (ok, hmac) := HMAC_Init_ex malloc_at pad_at c None 0 None in
          if negb ok then sret (false, hmac)
          else let* hmac := HMAC_Update hmac previous_at (rfc_T m prk info i) (EVP_MD_size m) in sret (true, hmac)
        else sret (true, c)) h (fun r h' => live h' = live h /\ r.1 = true /\ authenticates r.2 m prk (rfc_T m prk info i))).
  { destruct i as [|i]; cbn [negb Z.of_nat Z.eqb].
    - apply wp_ret. split; [done|]. split; [done|]. by apply H0.
    - eapply wp_call; [by apply (hmac_rewind_spec malloc_at pad_at c m prk None h Hk); left|].
      intros [ok c1] h1 (Hl & _ & Hok & H1). cbn [fst snd] in *. subst ok. cbn [negb].
      rewrite <- (rfc_T_length m prk info i).
      eapply wp_call; [by apply (hmac_update_spec c1 m prk []), hash_input_ok|]. intros c2 h2 [-> H2]. apply wp_ret. by split_and!. }
  eapply wp_call; [exact Hstart|]. intros [ok c1] h1 (Hl1 & Hok & H1). cbn [fst snd] in *. subst ok. cbn [negb]. clear Hstart.
  eapply wp_call; [by apply hmac_update_spec|]. intros c2 h2 [-> H2].
  rewrite (u8_small (Z.of_nat i + 1)) by (split; lia).
  eapply wp_call; [apply (update_byte c2 m prk _ ctr_at (Z.of_nat i + 1) h1 H2); split; lia|].
  intros c3 h3 [-> H3]. rewrite <- app_assoc in H3.
  eapply wp_call; [by apply hmac_final_spec|]. intros [r c4] h4 (Hl4 & _ & Hr & H4). cbn [fst snd] in *. subst r.
  cbv beta iota zeta. set (t := rfc2104 m prk _).
  assert (Ht : t = rfc_T m prk info (S i)) by (unfold t; cbn [rfc_T]; do 4 f_equal; lia).
  assert (Hlen : zlen t = EVP_MD_size m) by (rewrite Ht; apply rfc_T_length).
  pose proof (length_ztake out_len (rfc_blocks m prk info i)) as Hlt.
  rewrite u64_small by (split; lia).
  pose proof (ztake_step out_len (rfc_blocks m prk info i) t ltac:(lia)) as Hstep. rewrite Hlen in Hstep.
  rewrite Hstep, Ht, <- rfc_blocks_S. clear Hstep.
  replace (Z.of_nat i + 1) with (Z.of_nat (S i)) by lia. rewrite <- Nat.add_succ_comm, <- Hl1, <- Hl4.
  apply IH; [lia|]. split; [done|]. lia.
Qed.

(** The test on the length: it fails exactly when more than 255 blocks are needed. *)
Lemma expand_blocks m out_len : is_u 64 out_len ->
  let dl := EVP_MD_size m in
  let n := u64 (u64 (out_len + dl) - 1) / dl in
  (u64 (out_len + dl) <? out_len) || (n >? 255) = (255 * dl <? out_len) /\
  (out_len <= 255 * dl -> n = (out_len + dl - 1) / dl /\ 0 <= n <= 255).
Proof.
  intros [H0 H1] dl n. pose proof (digest_len_bound m) as Hdl. fold dl in Hdl. unfold n. clear n.
  destruct (Z.le_gt_cases (2 ^ 64) (out_len + dl)) as [Hov|Hno].
  - assert (Hw : u64 (out_len + dl) = out_len + dl - 2 ^ 64)
      by (rewrite u64_mod; symmetry; apply (Z.mod_unique_pos _ _ 1); lia).
    rewrite Hw, (proj2 (Z.ltb_lt (out_len + dl - 2 ^ 64) out_len)) by lia. cbn [orb]. split; [symmetry; apply Z.ltb_lt; lia|lia].
  - rewrite !u64_small by (split; lia). rewrite (proj2 (Z.ltb_ge (out_len + dl) out_len)) by lia. cbn [orb].
    pose proof (Z.div_mod (out_len + dl - 1) dl ltac:(lia)) as Hdm.
    pose proof (Z.mod_pos_bound (out_len + dl - 1) dl ltac:(lia)) as Hmb.
    set (q := (out_len + dl - 1) / dl) in *. clearbody q. set (r := (out_len + dl - 1) mod dl) in *. clearbody r.
    rewrite Z.gtb_ltb. split; [|intros Hle; split; [done|nia]].
    destruct (Z.ltb_spec 255 q), (Z.ltb_spec (255 * dl) out_len); try done; nia.
Qed.

Lemma expand_spec out_len m prk_at prk info_at info h : is_u 64 out_len -> input_ok prk -> input_ok info ->
  wp (HKDF_expand malloc_at pad_at buf_at previous_at ctr_at out_len m prk_at prk (zlen prk) info_at info) h
    (fun r h' => live h' = live h /\
       if 255 * EVP_MD_size m <? out_len then r = None
       else r = Some (rfc5869_expand m prk info out_len) \/ r = None /\ malloc_fails malloc_at).
Proof.
  intros Hout Hprk Hinfo. unfold HKDF_expand. cbv zeta. destruct (expand_blocks m out_len Hout) as [-> Hn].
  pose proof (digest_len_bound m) as Hdl. destruct (Z.ltb_spec (255 * EVP_MD_size m) out_len) as [|Hle]; [by apply wp_ret|].
  destruct (Hn Hle) as [Hneq Hn2]. set (n := u64 _ / _) in *. clearbody n. clear Hn.
  eapply wp_call; [apply (hmac_init_spec malloc_at pad_at Hmalloc HMAC_CTX_init (Some (prk_at, prk)) m h); [split_and!; done|done|by right]|].
  intros [ok c] h1 (Hb & Hok & Hr). cbn [fst snd] in *. unfold hmac_balanced in Hb.
  change (hmac_owned HMAC_CTX_init) with 0 in Hb. destruct ok; cbn [negb].
  - assert (Hat : at_block c m prk (Z.of_nat 0)) by (split; [apply Hr|done]).
    pose proof (expand_loop_spec m prk info info_at out_len (Z.to_nat n) 0 c h1 Hinfo) as Hloop.
    eapply wp_call.
    { assert (Hz : ztake out_len (rfc_blocks m prk info 0) = []) by apply take_nil.
      rewrite Hz in Hloop. destruct Hout. apply Hloop; [lia|lia|done]. }
    intros [r c2] h2 (Hl2 & Hr2 & Hk2). cbn [fst snd] in *. subst r.
    eapply wp_call; [by apply hmac_cleanup_spec, (keyed_ok c2 m prk)|]. intros ? h3 H3. apply wp_ret. cbv beta in H3.
    destruct Hr as [Hr _]. rewrite (keyed_owned _ _ _ Hk2) in H3. rewrite (keyed_owned _ _ _ Hr) in Hb.
    split; [lia|]. left. unfold rfc5869_expand. cbv zeta. by rewrite Hneq.
  - apply wp_bind, wp_ret. eapply wp_call; [by apply hmac_cleanup_spec|]. intros ? h3 H3. apply wp_ret. cbv beta in H3.
    split; [lia|by right].
Qed.

Lemma extract_spec m secret_at secret salt h : input_ok secret -> input_ok (ptr_bytes salt) ->
  wp (HKDF_extract malloc_at pad_at buf_at m secret_at secret (zlen secret) salt (zlen (ptr_bytes salt))) h
    (fun r h' => live h' = live h /\
       (r = Some (rfc2104 m (ptr_bytes salt) secret) \/ r = None /\ malloc_fails malloc_at)).
Proof.
  intros Hs Hsalt. unfold HKDF_extract. eapply wp_call; [by apply hmac_oneshot_spec|].
  intros r h1 [Hl [-> | [-> Hf]]].
  - rewrite Z.eqb_refl. cbn [negb]. apply wp_ret. split; [done|by left].
  - apply wp_ret. split; [done|by right].
Qed.

End Spec.

(** * Properties *)

(** C30. HKDF is the function of RFC 5869 over any digest: extraction with the salt,
    absent or not, then the blocks T(1), T(2), ... cut to the length asked for. It is
    defined whatever malloc does and leaves no block allocated. It refuses more than
    255 blocks, even where the length computations would wrap around, and otherwise
    fails only because an allocation failed. *)
Theorem HKDF_rfc5869 (D : Digests) (L : DigestLaws D) malloc_at pad_at buf_at previous_at ctr_at
    prk_at out_len m secret_at secret salt info_at info h :
  malloc_ok malloc_at -> is_u 64 out_len -> input_ok secret -> input_ok (ptr_bytes salt) -> input_ok info ->
  exists r h', HKDF malloc_at pad_at buf_at previous_at ctr_at prk_at out_len m secret_at secret (zlen secret)
      salt (zlen (ptr_bytes salt)) info_at info h = Some (r, h') /\ live h' = live h /\
    if 255 * EVP_MD_size m <? out_len then r = None
    else r = Some (rfc5869 m (ptr_bytes salt) secret info out_len) \/ r = None /\ malloc_fails malloc_at.
Proof.
  intros Hm Hout Hs Hsalt Hinfo. apply wp_run. unfold HKDF.
  eapply wp_call; [by apply extract_spec|]. intros r h1 [Hl [-> | [-> Hf]]].
  - eapply wp_mono; [apply expand_spec; [done|done|apply hash_input_ok|done]|]. intros r h2 [Hl2 Hr]. rewrite Hl in Hl2. by split.
  - apply wp_ret. split; [done|]. case_if; [done|by right].
Qed.

(** ** Witness: the third test case of RFC 5869, with SHA-256 and no salt *)

From S2P Require Import Fips Sha256 Sha512 Digests.

#[local] Instance sample_platform : Platform := {| i386 := false; SHA512_BLOCK_CAN_MANAGE_UNALIGNED_DATA := false |}.

Definition rfc5869_okm : bytes :=
  [0x8d; 0xa4; 0xe7; 0x75; 0xa5; 0x63; 0xc1; 0x8f; 0x71; 0x5f; 0x80; 0x2a; 0x06; 0x3c; 0x5a; 0x31; 0xb8; 0xa1; 0x1f; 0x5c; 0x5e;
   0xe1; 0x87; 0x9e; 0xc3; 0x45; 0x4e; 0x5f; 0x3c; 0x73; 0x8d; 0x2d; 0x9d; 0x20; 0x13; 0x95; 0xfa; 0xa4; 0xb6; 0x1a; 0x96; 0xc8].

Lemma rfc5869_case3 : rfc5869 (L:=openssl_laws) EVP_sha256 [] (zrepeat 22 0x0b) [] 42 = rfc5869_okm.
Proof. vm_compute. reflexivity. Qed.

Lemma HKDF_rfc5869_witness :
  exists h', HKDF (D:=openssl_digests) sample_mallocs 0 0 0 0 0 42 EVP_sha256 0 (zrepeat 22 0x0b) 22 None 0 0 [] sample_heap =
    Some (Some rfc5869_okm, h') /\ live h' = 0.
Proof.
  pose proof (HKDF_rfc5869 openssl_digests openssl_laws sample_mallocs 0 0 0 0 0 42 EVP_sha256 0 (zrepeat 22 0x0b) None 0 [] sample_heap
    sample_mallocs_ok ltac:(split; lia) (byte_string_ok (zrepeat 22 0x0b) eq_refl eq_refl) (byte_string_ok [] eq_refl eq_refl)
    (byte_string_ok [] eq_refl eq_refl)) as H.
  change (zlen (zrepeat 22 0x0b)) with 22 in H. change (zlen (ptr_bytes None)) with 0 in H. change (ptr_bytes None) with (@nil Z) in H.
  change (255 * EVP_MD_size (D:=openssl_digests) EVP_sha256 <? 42) with false in H. rewrite rfc5869_case3 in H.
  destruct H as (r & h' & Hr & Hl & [->|[_ Hf]]); [|by destruct sample_mallocs_succeed].
  exists h'. split; [exact Hr|exact Hl].
Defined.
