(* ===== verification/Pb.v ===== *)
(** * nanopb: memory, field descriptors, the field iterator and the streams

    Models src/bubble/Pods/nanopb/pb.h and pb_common.c with the options the build
    sets (PB_FIELD_32BIT, PB_NO_PACKED_STRUCTS; no PB_ENABLE_MALLOC), so that a
    pb_size_t has 32 bits. The decoder and the encoder compute the addresses of the
    members of a message structure from a table of descriptors; the memory is
    therefore one map from addresses to bytes, and an access to an address that it
    does not hold is undefined. An [M mem] computation that is [None] is undefined
    behaviour. Integers in memory are little-endian and pointers have eight bytes. *)

From Stdlib Require Import ZArith Lia String.
From stdpp Require Import base list option gmap.
From S2P Require Import Prelude ByteMem.

(** * Pointers *)

Definition NULL : Z := 0.
Definition sizeof_ptr : Z := 8.
Definition load_ptr (a : Z) : M mem Z := load_u sizeof_ptr a.

(** * Types of fields *)

Definition PB_LTYPE_VARINT : Z := 0x00.
Definition PB_LTYPE_UVARINT : Z := 0x01.
Definition PB_LTYPE_SVARINT : Z := 0x02.
Definition PB_LTYPE_FIXED32 : Z := 0x03.
Definition PB_LTYPE_FIXED64 : Z := 0x04.
Definition PB_LTYPE_LAST_PACKABLE : Z := 0x04.
Definition PB_LTYPE_BYTES : Z := 0x05.
Definition PB_LTYPE_STRING : Z := 0x06.
Definition PB_LTYPE_SUBMESSAGE : Z := 0x07.
Definition PB_LTYPE_EXTENSION : Z := 0x08.
Definition PB_LTYPE_FIXED_LENGTH_BYTES : Z := 0x09.
Definition PB_LTYPE_MASK : Z := 0x0F.

Definition PB_HTYPE_REQUIRED : Z := 0x00.
Definition PB_HTYPE_OPTIONAL : Z := 0x10.
Definition PB_HTYPE_REPEATED : Z := 0x20.
Definition PB_HTYPE_ONEOF : Z := 0x30.
Definition PB_HTYPE_MASK : Z := 0x30.

Definition PB_ATYPE_STATIC : Z := 0x00.
Definition PB_ATYPE_POINTER : Z := 0x80.
Definition PB_ATYPE_CALLBACK : Z := 0x40.
Definition PB_ATYPE_MASK : Z := 0xC0.

Definition PB_ATYPE (x : Z) : Z := Z.land x PB_ATYPE_MASK.
Definition PB_HTYPE (x : Z) : Z := Z.land x PB_HTYPE_MASK.
Definition PB_LTYPE (x : Z) : Z := Z.land x PB_LTYPE_MASK.

Definition sizeof_pb_size_t : Z := 4.
Definition PB_SIZE_MAX : Z := 0xffffffff.
Definition PB_MAX_REQUIRED_FIELDS : Z := 64.

(** A [pb_bytes_array_t] is a pb_size_t followed by the bytes. *)
Definition offsetof_bytes : Z := 4.
Definition PB_BYTES_ARRAY_T_ALLOCSIZE (n : Z) : Z := u64 (n + offsetof_bytes).

(** Wire types: a [pb_wire_type_t] can hold any value of three bits. *)
Definition PB_WT_VARINT : Z := 0.
Definition PB_WT_64BIT : Z := 1.
Definition PB_WT_STRING : Z := 2.
Definition PB_WT_32BIT : Z := 5.

(** * Field descriptors

    [ptr] is the descriptor table of a submessage, or the default value, which is
    constant data. A table is the array of its descriptors, the terminator, whose
    tag is 0, included. *)
Inductive pb_ptr (F : Type) : Type :=
  | PTR_NULL
  | PTR_DEFAULT (value : bytes)
  | PTR_SUBMSG (submsg_fields : list F).
Arguments PTR_NULL {F}.
Arguments PTR_DEFAULT {F} value.
Arguments PTR_SUBMSG {F} submsg_fields.

Inductive pb_field_t : Type := mk_field {
  tag : Z;
  type : Z;
  data_offset : Z;
  size_offset : Z;
  data_size : Z;
  array_size : Z;
  ptr : pb_ptr pb_field_t }.

Definition PB_LAST_FIELD : pb_field_t := mk_field 0 0 0 0 0 0 PTR_NULL.

Definition atype (f : pb_field_t) : Z := PB_ATYPE (type f).
Definition htype (f : pb_field_t) : Z := PB_HTYPE (type f).
Definition ltype (f : pb_field_t) : Z := PB_LTYPE (type f).

(** How deep submessages nest under a descriptor. *)
Fixpoint field_depth (f : pb_field_t) : nat :=
  match ptr f with
  | PTR_SUBMSG l => S (max_list (map field_depth l))
  | _ => 0%nat
  end.
Definition fields_depth (fields : list pb_field_t) : nat := S (max_list (map field_depth fields)).

(** * The field iterator

    [pos] is an index into the array [start]. *)
Record pb_field_iter_t := mk_iter {
  start : list pb_field_t;
  pos : nat;
  required_field_index : Z;
  dest_struct : Z;
  pData : Z;
  pSize : Z }.

(** [iter->pos->...]: [None] past the end of the array. *)
Definition cur (it : pb_field_iter_t) : option pb_field_t := start it !! pos it.

Definition pb_field_iter_begin (fields : list pb_field_t) (dest : Z) : option (bool * pb_field_iter_t) :=
  match fields !! 0%nat with
  | None => None
  | Some f =>
      let pData := dest + data_offset f in
      Some (negb (tag f =? 0), mk_iter fields 0 0 dest pData (pData + size_offset f))
  end.

(** The size in the structure of the field the iterator leaves. *)
Definition iter_prev_size (prev_field : pb_field_t) : Z :=
  if (atype prev_field =? PB_ATYPE_STATIC) && (htype prev_field =? PB_HTYPE_REPEATED) then
    u64 (data_size prev_field * array_size prev_field)
  else if atype prev_field =? PB_ATYPE_POINTER then sizeof_ptr
  else data_size prev_field.

Definition pb_field_iter_next (it : pb_field_iter_t) : option (bool * pb_field_iter_t) :=
  match cur it with
  | None => None
  | Some prev_field =>
      if tag prev_field =? 0 then Some (false, it)
      else
        match start it !! S (pos it) with
        | None => None
        | Some f =>
            if tag f =? 0 then
              match pb_field_iter_begin (start it) (dest_struct it) with
              | None => None
              | Some (_, it) => Some (false, it)
              end
            else if (htype prev_field =? PB_HTYPE_ONEOF) && (htype f =? PB_HTYPE_ONEOF)
                    && (data_offset f =? PB_SIZE_MAX) then
              Some (true, mk_iter (start it) (S (pos it)) (required_field_index it) (dest_struct it)
                            (pData it) (pSize it))
            else
              let index := if htype prev_field =? PB_HTYPE_REQUIRED
                           then u32 (required_field_index it + 1) else required_field_index it in
              let pData := pData it + iter_prev_size prev_field + data_offset f in
              Some (true, mk_iter (start it) (S (pos it)) index (dest_struct it) pData (pData + size_offset f))
        end
  end.

(** The loop ends after as many steps as the array has descriptors. *)
Fixpoint iter_find (fuel : nat) (wanted : pb_field_t -> bool) (first : nat) (it : pb_field_iter_t) :
    option (bool * pb_field_iter_t) :=
  match fuel with
  | O => None
  | S fuel =>
      match cur it with
      | None => None
      | Some f =>
          if wanted f then Some (true, it)
          else
            match pb_field_iter_next it with
            | None => None
            | Some (_, it) =>
                if (pos it =? first)%nat then Some (false, it) else iter_find fuel wanted first it
            end
      end
  end.

Definition pb_field_iter_find (it : pb_field_iter_t) (tag_ : Z) : option (bool * pb_field_iter_t) :=
  iter_find (length (start it)) (fun f => (tag f =? tag_) && negb (ltype f =? PB_LTYPE_EXTENSION)) (pos it) it.

(** * Streams

    The state of a stream is a pointer. A user's callback is a function of the
    state, whose effects on the memory are explicit. *)

(** What a write is given: an array of the caller's, or an address. *)
Inductive pb_src := SRC_LOCAL (buf : bytes) | SRC_AT (buf : Z).

(** Where a read puts its bytes: nowhere (NULL), an array of the caller's, which the
    bytes a read returns are, or an address. *)
Inductive pb_dst := DST_NULL | DST_LOCAL | DST_AT (buf : Z).

Inductive ocallback :=
  | OC_NULL
  | OC_BUF_WRITE
  | OC_USER (write : Z -> pb_src -> Z -> M mem (bool * Z)).

Record pb_ostream_t := mk_ostream {
  ocallback_ : ocallback;
  ostate : Z;
  max_size : Z;
  bytes_written : Z;
  oerrmsg : option string }.

Inductive icallback :=
  | IC_BUF_READ
  | IC_USER (read : Z -> pb_dst -> Z -> M mem (bool * bytes * Z)).

Record pb_istream_t := mk_istream {
  icallback_ : icallback;
  istate : Z;
  bytes_left : Z;
  ierrmsg : option string }.

(** PB_SET_ERROR keeps the first message. *)
Definition PB_SET_OERROR (s : pb_ostream_t) (msg : string) : pb_ostream_t :=
  mk_ostream (ocallback_ s) (ostate s) (max_size s) (bytes_written s)
    (match oerrmsg s with Some e => Some e | None => Some msg end).
Definition PB_SET_IERROR (s : pb_istream_t) (msg : string) : pb_istream_t :=
  mk_istream (icallback_ s) (istate s) (bytes_left s)
    (match ierrmsg s with Some e => Some e | None => Some msg end).

Definition PB_RETURN_OERROR (s : pb_ostream_t) (msg : string) : M mem (bool * pb_ostream_t) :=
  sret (false, PB_SET_OERROR s msg).
Definition PB_RETURN_IERROR (s : pb_istream_t) (msg : string) : M mem (bool * pb_istream_t) :=
  sret (false, PB_SET_IERROR s msg).

(** * Callbacks and extensions

    A [pb_callback_t] is a function pointer and an argument, a [pb_extension_t] a
    list node; both lie in memory. The functions they point to are the user's. *)
Definition offsetof_arg : Z := 8.
Definition offsetof_dest : Z := 8.
Definition offsetof_next : Z := 16.
Definition offsetof_found : Z := 24.

Record pb_extension_type_t := mk_extension_type {
  ext_decode : option (pb_istream_t -> Z -> Z -> Z -> M mem (bool * pb_istream_t));
  ext_encode : option (pb_ostream_t -> Z -> M mem (bool * pb_ostream_t));
  ext_arg : pb_field_t }.

(** The code behind function pointers and extension types. *)
Class PbUser := {
  encode_cb : Z -> pb_ostream_t -> pb_field_t -> Z -> M mem (bool * pb_ostream_t);
  decode_cb : Z -> pb_istream_t -> pb_field_t -> Z -> M mem (bool * pb_istream_t);
  extension_type : Z -> option pb_extension_type_t }.

(** * Lemmas: types of fields *)

Lemma land_shiftl_ones x n k : 0 <= n -> 0 <= k ->
  Z.land x (Z.shiftl (Z.ones n) k) = Z.shiftl ((x / 2 ^ k) mod 2 ^ n) k.
Proof.
  intros Hn Hk. rewrite <- Z.land_ones, <- Z.shiftr_div_pow2 by done. apply Z.bits_inj'. intros i Hi.
  rewrite Z.land_spec. destruct (Z.lt_ge_cases i k).
  - rewrite !Z.shiftl_spec_low by done. apply andb_false_r.
  - rewrite !Z.shiftl_spec, Z.land_spec, Z.shiftr_spec by lia. by replace (i - k + k) with i by lia.
Qed.

Lemma htype_cases f : htype f = PB_HTYPE_REQUIRED \/ htype f = PB_HTYPE_OPTIONAL \/
  htype f = PB_HTYPE_REPEATED \/ htype f = PB_HTYPE_ONEOF.
Proof.
  unfold htype, PB_HTYPE, PB_HTYPE_MASK. change 0x30 with (Z.shiftl (Z.ones 2) 4). rewrite land_shiftl_ones by lia.
  pose proof (Z.mod_pos_bound (type f / 2 ^ 4) (2 ^ 2) ltac:(lia)) as H.
  assert (E : (type f / 2 ^ 4) mod 2 ^ 2 = 0 \/ (type f / 2 ^ 4) mod 2 ^ 2 = 1 \/
    (type f / 2 ^ 4) mod 2 ^ 2 = 2 \/ (type f / 2 ^ 4) mod 2 ^ 2 = 3) by lia.
  destruct E as [E|[E|[E|E]]]; rewrite E; auto.
Qed.

(** * Specification: where the fields of a structure lie

    A slot is a field with the addresses of its data and of its count or presence
    flag, and the number of required fields before it. The fields of a union after
    the first share its addresses. *)
Record slot := mk_slot { s_field : pb_field_t; s_data : Z; s_size : Z; s_req : Z }.

Definition slot_at (f : pb_field_t) (p req : Z) : slot := mk_slot f p (p + size_offset f) req.

Definition same_union (prev f : pb_field_t) : bool :=
  (htype prev =? PB_HTYPE_ONEOF) && (htype f =? PB_HTYPE_ONEOF) && (data_offset f =? PB_SIZE_MAX).

Definition next_slot (s : slot) (f : pb_field_t) : slot :=
  let prev := s_field s in
  if same_union prev f then mk_slot f (s_data s) (s_size s) (s_req s)
  else slot_at f (s_data s + iter_prev_size prev + data_offset f)
         (if htype prev =? PB_HTYPE_REQUIRED then u32 (s_req s + 1) else s_req s).

Fixpoint slots_from (s : slot) (fields : list pb_field_t) : list slot :=
  match fields with
  | [] => []
  | f :: fields => if tag f =? 0 then [] else next_slot s f :: slots_from (next_slot s f) fields
  end.

Definition layout (fields : list pb_field_t) (dest : Z) : list slot :=
  match fields with
  | [] => []
  | f :: fields =>
      if tag f =? 0 then []
      else let s := slot_at f (dest + data_offset f) 0 in s :: slots_from s fields
  end.

(** The array of descriptors has a terminator. *)
Fixpoint terminated (fields : list pb_field_t) : bool :=
  match fields with [] => false | f :: fields => (tag f =? 0) || terminated fields end.

(** The iterator on the slot of index [i]. *)
Definition it_at (fields : list pb_field_t) (dest : Z) (i : nat) (s : slot) : pb_field_iter_t :=
  mk_iter fields i (s_req s) dest (s_data s) (s_size s).

Lemma slots_from_lookup fields s i s' : slots_from s fields !! i = Some s' ->
  fields !! i = Some (s_field s') /\ tag (s_field s') <> 0.
Proof.
  revert s i. induction fields as [|f l IH]; intros s i; cbn [slots_from]; [done|].
  case_if; [done|]. destruct i as [|i]; cbn; [|apply IH]. intros [= <-].
  unfold next_slot. by destruct same_union.
Qed.

(** The slot after one, or the terminator. *)
Lemma slots_from_next fields s i s' : terminated fields = true -> slots_from s fields !! i = Some s' ->
  exists f, fields !! S i = Some f /\
    slots_from s fields !! S i = if tag f =? 0 then None else Some (next_slot s' f).
Proof.
  revert s i. induction fields as [|f l IH]; intros s i Ht; cbn [slots_from]; [done|].
  cbn [terminated] in Ht. case_if; [done|]. cbn [orb] in Ht.
  destruct i as [|i]; cbn; [|by apply IH]. intros [= <-].
  destruct l as [|g l]; [done|]. exists g. split; [done|]. cbn [slots_from]. by case_if.
Qed.

Lemma layout_lookup fields dest i s : layout fields dest !! i = Some s ->
  fields !! i = Some (s_field s) /\ tag (s_field s) <> 0.
Proof.
  destruct fields as [|f l]; cbn [layout]; [done|]. case_if; [done|].
  destruct i as [|i]; cbn; [by intros [= <-]|]. apply slots_from_lookup.
Qed.

Lemma layout_next fields dest i s : terminated fields = true -> layout fields dest !! i = Some s ->
  exists f, fields !! S i = Some f /\ layout fields dest !! S i = if tag f =? 0 then None else Some (next_slot s f).
Proof.
  destruct fields as [|f l]; cbn [layout terminated]; [done|]. intros Ht. case_if; [done|].
  cbn [orb] in Ht. destruct i as [|i]; cbn.
  - intros [= <-]. destruct l as [|g l]; [done|]. exists g. split; [done|]. cbn [slots_from]. by case_if.
  - by apply slots_from_next.
Qed.

Lemma layout_empty fields dest : terminated fields = true ->
  (layout fields dest = [] <-> exists f, fields !! 0%nat = Some f /\ tag f = 0).
Proof.
  destruct fields as [|f l]; [done|]. intros _. cbn [layout]. case_if; cbn; split.
  - by exists f.
  - done.
  - done.
  - by intros (g & [= ->] & Hg).
Qed.

Lemma pb_field_iter_begin_spec fields dest s : layout fields dest !! 0%nat = Some s ->
  pb_field_iter_begin fields dest = Some (true, it_at fields dest 0 s).
Proof.
  destruct fields as [|f l]; cbn [layout]; [done|]. case_if; [done|]. intros [= <-].
  unfold pb_field_iter_begin. cbn. by rewrite (proj2 (Z.eqb_neq _ _) E).
Qed.

Lemma pb_field_iter_begin_empty fields dest : terminated fields = true -> layout fields dest = [] ->
  exists it, pb_field_iter_begin fields dest = Some (false, it) /\ it = mk_iter fields 0 0 dest (pData it) (pSize it).
Proof.
  intros Ht (f & Hf & Htag)%layout_empty; [|done]. unfold pb_field_iter_begin. rewrite Hf, Htag. by eexists.
Qed.

Lemma cur_it_at fields dest i s : layout fields dest !! i = Some s ->
  cur (it_at fields dest i s) = Some (s_field s).
Proof. intros [H _]%layout_lookup. exact H. Qed.

Lemma pb_field_iter_next_spec fields dest i s s0 :
  terminated fields = true -> layout fields dest !! i = Some s -> layout fields dest !! 0%nat = Some s0 ->
  pb_field_iter_next (it_at fields dest i s) =
    match layout fields dest !! S i with
    | Some s' => Some (true, it_at fields dest (S i) s')
    | None => Some (false, it_at fields dest 0 s0)
    end.
Proof.
  intros Ht Hi H0. pose proof (layout_lookup _ _ _ _ Hi) as [_ Htag].
  destruct (layout_next _ _ _ _ Ht Hi) as (f & Hf & ->). unfold pb_field_iter_next.
  rewrite (cur_it_at _ _ _ _ Hi), (proj2 (Z.eqb_neq _ _) Htag). cbn [it_at start pos dest_struct required_field_index pData pSize].
  rewrite Hf. case_if.
  - by rewrite (pb_field_iter_begin_spec _ _ _ H0).
  - unfold next_slot, same_union. by destruct (_ && _ && _).
Qed.

Lemma length_layout fields dest : terminated fields = true -> (length (layout fields dest) < length fields)%nat.
Proof.
  intros Ht. destruct (Nat.lt_ge_cases (length (layout fields dest)) (length fields)) as [|Hge]; [done|].
  destruct (layout fields dest) as [|s0 L'] eqn:HL; [destruct fields; cbn in *; [done|lia]|].
  destruct (lookup_lt_is_Some_2 (layout fields dest) (length L')) as [s Hs]; [rewrite HL; cbn; lia|].
  destruct (layout_next _ _ _ _ Ht Hs) as (f & Hf & _). apply lookup_lt_Some in Hf. cbn [length] in Hge. lia.
Qed.

(** The position after [k] steps round a table of [n] fields. *)
Lemma succ_mod i n : (i < n)%nat -> (S i mod n)%nat = if decide (S i = n) then 0%nat else S i.
Proof.
  intros Hi. case_decide as E; [subst; apply Nat.Div0.mod_same|]. apply Nat.mod_small. lia.
Qed.

Lemma iter_next_mod fields dest i s : terminated fields = true -> layout fields dest !! i = Some s ->
  let j := (S i mod length (layout fields dest))%nat in
  exists b s', layout fields dest !! j = Some s' /\
    pb_field_iter_next (it_at fields dest i s) = Some (b, it_at fields dest j s').
Proof.
  intros Ht Hi. cbn zeta. set (L := layout fields dest) in *. pose proof (lookup_lt_Some _ _ _ Hi) as Hlt.
  destruct (lookup_lt_is_Some_2 L 0) as [s0 H0]; [lia|].
  pose proof (pb_field_iter_next_spec _ _ _ _ _ Ht Hi H0) as E. fold L in E. rewrite succ_mod by done.
  case_decide as Hn.
  - rewrite (lookup_ge_None_2 L (S i)) in E by lia. by exists false, s0.
  - destruct (lookup_lt_is_Some_2 L (S i)) as [s' Hs']; [lia|]. rewrite Hs' in E. by exists true, s'.
Qed.

(** The search visits every field, from the current one on and round. *)
Lemma iter_find_spec fields dest wanted fuel i s0 k s :
  let L := layout fields dest in
  terminated fields = true -> (i < length L)%nat -> (k < length L)%nat -> (length L <= fuel + k)%nat ->
  L !! i = Some s0 -> L !! ((i + k) mod length L)%nat = Some s ->
  (forall t x, (t < k)%nat -> L !! ((i + t) mod length L)%nat = Some x -> wanted (s_field x) = false) ->
  (exists j x, L !! j = Some x /\ wanted (s_field x) = true /\
     iter_find fuel wanted i (it_at fields dest ((i + k) mod length L) s) = Some (true, it_at fields dest j x)) \/
  ((forall j x, L !! j = Some x -> wanted (s_field x) = false) /\
     iter_find fuel wanted i (it_at fields dest ((i + k) mod length L) s) = Some (false, it_at fields dest i s0)).
Proof.
  intros L Ht Hi. revert k s. induction fuel as [|fuel IH]; intros k s Hk Hf H0 Hs Hno; [lia|].
  cbn [iter_find]. rewrite (cur_it_at _ _ _ _ Hs). destruct (wanted (s_field s)) eqn:Ew; [left; eauto|].
  destruct (iter_next_mod _ _ _ _ Ht Hs) as (b & s' & Hs' & ->). fold L in Hs'. fold L.
  assert (Hj : (S ((i + k) mod length L) mod length L = (i + S k) mod length L)%nat)
    by (rewrite <- Nat.add_1_l, Nat.Div0.add_mod_idemp_r; f_equal; lia).
  rewrite Hj in *. cbn [it_at pos].
  assert (Hno' : forall t x, (t < S k)%nat -> L !! ((i + t) mod length L)%nat = Some x -> wanted (s_field x) = false).
  { intros t x Hlt Hx. destruct (decide (t = k)) as [->|]; [congruence|]. apply (Hno t); [lia|done]. }
  destruct (decide (S k = length L)) as [En|En].
  - right. replace (i + S k)%nat with (i + 1 * length L)%nat in * by lia.
    rewrite Nat.Div0.mod_add, (Nat.mod_small i) in * by lia. rewrite Nat.eqb_refl, H0 in *.
    injection Hs' as <-. split; [|done]. intros j x Hx. pose proof (lookup_lt_Some _ _ _ Hx) as Hlt.
    apply (Hno' ((j + length L - i) mod length L)%nat); [rewrite En; apply Nat.mod_upper_bound; lia|].
    rewrite Nat.Div0.add_mod_idemp_r. replace (i + (j + length L - i))%nat with (j + 1 * length L)%nat by lia.
    rewrite Nat.Div0.mod_add, Nat.mod_small by lia. done.
  - replace ((i + S k) mod length L =? i)%nat with false; [apply IH; [lia|lia|done|done|done]|].
    symmetry. apply Nat.eqb_neq. intros Heq. destruct (Nat.lt_ge_cases (i + S k) (length L)).
    + rewrite Nat.mod_small in Heq by done. lia.
    + replace (i + S k)%nat with (i + S k - length L + 1 * length L)%nat in Heq by lia.
      rewrite Nat.Div0.mod_add, Nat.mod_small in Heq by lia. lia.
Qed.

Definition has_tag (t : Z) (f : pb_field_t) : bool := (tag f =? t) && negb (ltype f =? PB_LTYPE_EXTENSION).

(** The search by tag finds a field with the tag if there is one, and leaves the
    iterator where it was if there is none. *)
Lemma pb_field_iter_find_spec fields dest i s t :
  terminated fields = true -> layout fields dest !! i = Some s ->
  (exists j x, layout fields dest !! j = Some x /\ has_tag t (s_field x) = true /\
     pb_field_iter_find (it_at fields dest i s) t = Some (true, it_at fields dest j x)) \/
  ((forall j x, layout fields dest !! j = Some x -> has_tag t (s_field x) = false) /\
     pb_field_iter_find (it_at fields dest i s) t = Some (false, it_at fields dest i s)).
Proof.
  intros Ht Hs. pose proof (lookup_lt_Some _ _ _ Hs) as Hi. pose proof (length_layout fields dest Ht) as Hl.
  pose proof (iter_find_spec fields dest (has_tag t) (length fields) i s 0 s) as H. cbn zeta in H.
  rewrite (Nat.add_0_r i), (Nat.mod_small i) in H by exact Hi. apply H; [done|done|lia|lia|done|done|lia].
Qed.
