(* ===== verification/PbWire.v ===== *)
(** * The protobuf wire format, and the message a structure holds

    The specification of the encoder: base-128 integers, zigzag, keys, and the bytes
    of the message that the fields of a structure in memory stand for. A result is
    [None] where reading the structure is undefined (or where a user's callback
    decides), and [Some None] where the structure is not a valid message. *)

From Stdlib Require Import ZArith Lia.
From stdpp Require Import base list option gmap.
From S2P Require Import Prelude ByteMem Pb.

(** * Integers *)

Fixpoint base128 (n : nat) (v : Z) : bytes :=
  match n with
  | O => []
  | S n => if v <? 128 then [v] else (128 + v mod 128) :: base128 n (v / 128)
  end.

(** The shortest base-128 encoding of an integer of at most 64 bits. *)
Definition varint (v : Z) : bytes := base128 10 v.

Definition zigzag (v : Z) : Z := if v <? 0 then -2 * v - 1 else 2 * v.
Definition unzigzag (z : Z) : Z := if Z.odd z then - (z / 2) - 1 else z / 2.

Definition wire_key (field_number wire_type : Z) : bytes := varint (8 * field_number + wire_type).
Definition delimited (l : bytes) : bytes := varint (zlen l) ++ l.

(** * Results *)

Definition R : Type := option (option bytes).
Definition emit (l : bytes) : R := Some (Some l).
Definition invalid : R := Some None.

Definition rseq (a b : R) : R :=
  match a with
  | Some (Some l1) => match b with Some (Some l2) => emit (l1 ++ l2) | _ => b end
  | _ => a
  end.

(** A string or message of 2^63 bytes or more, which no memory holds, is left out. *)
Definition emit_delimited (l : bytes) : R := if zlen l <? 2 ^ 63 then emit (delimited l) else None.

Definition rdelim (a : R) : R :=
  match a with Some (Some l) => emit_delimited l | _ => a end.

Definition rconcat (l : list R) : R := fold_right rseq (emit []) l.

(** * Reading the structure *)

Section Message.
Variable m : mem.

Definition rd (n a : Z) : option bytes := load_bytes (Z.to_nat n) m a.
Definition rd_u (n a : Z) : option Z := le_val <$> rd n a.
Definition rd_s (n a : Z) : option Z := sext n <$> rd_u n a.

(** The bytes at an address up to the first zero, at most [max] of them. *)
Fixpoint cstring (fuel : nat) (max p : Z) : option bytes :=
  match fuel with
  | O => None
  | S fuel =>
      if max <=? 0 then Some []
      else
        match rd_u 1 p with
        | None => None
        | Some c => if c =? 0 then Some [] else cons c <$> cstring fuel (max - 1) (p + 1)
        end
  end.

Definition int_size (n : Z) : bool := bool_decide (n ∈ [1; 2; 4; 8]).

(** The value of a field at [p], as it follows the key. *)
Definition value (submsg : list pb_field_t -> Z -> R) (f : pb_field_t) (p : Z) : R :=
  let lt := ltype f in
  let n := data_size f in
  if lt =? PB_LTYPE_VARINT then
    if int_size n then v ← rd_s n p; emit (varint (v mod 2 ^ 64)) else invalid
  else if lt =? PB_LTYPE_UVARINT then
    if int_size n then v ← rd_u n p; emit (varint v) else invalid
  else if lt =? PB_LTYPE_SVARINT then
    if int_size n then v ← rd_s n p; emit (varint (zigzag v)) else invalid
  else if lt =? PB_LTYPE_FIXED32 then l ← rd 4 p; emit l
  else if lt =? PB_LTYPE_FIXED64 then l ← rd 8 p; emit l
  else if lt =? PB_LTYPE_BYTES then
    if p =? NULL then emit (delimited [])
    else
      k ← rd_u 4 p;
      if (atype f =? PB_ATYPE_STATIC) && (n <? k + 4) then invalid
      else l ← rd k (p + 4); emit_delimited l
  else if lt =? PB_LTYPE_STRING then
    if p =? NULL then emit (delimited [])
    else
      l ← cstring (S (size m)) (if atype f =? PB_ATYPE_POINTER then 2 ^ 64 - 1 else n) p;
      emit_delimited l
  else if lt =? PB_LTYPE_SUBMESSAGE then
    match ptr f with
    | PTR_NULL => invalid
    | PTR_DEFAULT _ => None
    | PTR_SUBMSG fields => rdelim (submsg fields p)
    end
  else if lt =? PB_LTYPE_FIXED_LENGTH_BYTES then l ← rd n p; emit_delimited l
  else None.

Definition wire_type (f : pb_field_t) : option Z :=
  if ltype f <=? PB_LTYPE_SVARINT then Some 0
  else if ltype f =? PB_LTYPE_FIXED32 then Some 5
  else if ltype f =? PB_LTYPE_FIXED64 then Some 1
  else if (ltype f <=? PB_LTYPE_SUBMESSAGE) || (ltype f =? PB_LTYPE_FIXED_LENGTH_BYTES) then Some 2
  else None.

Definition key (f : pb_field_t) : R :=
  match wire_type f with Some wt => emit (wire_key (tag f) wt) | None => invalid end.

Definition addresses (count p size : Z) : list Z :=
  map (fun i => p + Z.of_nat i * size) (seq 0 (Z.to_nat count)).

(** Integers are packed under one key, other values have a key each; an array of
    pointers to strings is read through the pointers. *)
Definition repeated (submsg : list pb_field_t -> Z -> R) (f : pb_field_t) (p count : Z) : R :=
  let ps := addresses count p (data_size f) in
  if count =? 0 then emit []
  else if negb (atype f =? PB_ATYPE_POINTER) && (array_size f <? count) then invalid
  else if ltype f <=? PB_LTYPE_LAST_PACKABLE then
    rseq (emit (wire_key (tag f) 2)) (rdelim (rconcat (map (value submsg f) ps)))
  else
    rconcat (map (fun q =>
      rseq (key f)
        (if (atype f =? PB_ATYPE_POINTER) && ((ltype f =? PB_LTYPE_STRING) || (ltype f =? PB_LTYPE_BYTES))
         then q ← rd_u 8 q; value submsg f q
         else value submsg f q)) ps).

(** Whether a field without a presence flag has its default value: it is zero or
    empty; a submessage is empty if it has no bytes on the wire. *)
Fixpoint zeros (n : nat) (p : Z) : option bool :=
  match n with
  | O => Some true
  | S n => c ← rd_u 1 p; if c =? 0 then zeros n (p + 1) else Some false
  end.

Definition is_default (submsg : list pb_field_t -> Z -> R) (f : pb_field_t) (p : Z) : option bool :=
  if negb (atype f =? PB_ATYPE_STATIC) then zeros (Z.to_nat (data_size f)) p
  else if ltype f =? PB_LTYPE_BYTES then k ← rd_u 4 p; Some (k =? 0)
  else if ltype f =? PB_LTYPE_STRING then c ← rd_u 1 p; Some (c =? 0)
  else if ltype f =? PB_LTYPE_FIXED_LENGTH_BYTES then Some (data_size f =? 0)
  else if ltype f =? PB_LTYPE_SUBMESSAGE then
    match ptr f with
    | PTR_SUBMSG fields => r ← submsg fields p; Some (match r with Some [] => true | _ => false end)
    | _ => None
    end
  else zeros (Z.to_nat (data_size f)) p.

(** The bytes of a field, if it has a value. *)
Definition present (submsg : list pb_field_t -> Z -> R) (f : pb_field_t) (p : Z) (has : bool) : R :=
  if has then rseq (key f) (value submsg f p) else emit [].

(** A field whose value lies at [p]; [size] is the address of its count or presence
    flag, and [has] says whether it is present where it has none. *)
Definition data_at (submsg : list pb_field_t -> Z -> R) (f : pb_field_t) (p : Z) (size : option Z) (has : bool) : R :=
  if htype f =? PB_HTYPE_REQUIRED then
    if p =? NULL then invalid else present submsg f p true
  else if htype f =? PB_HTYPE_OPTIONAL then
    has ← match size with
          | Some a => b ← rd_u 1 a; Some (negb (b =? 0))
          | None => Some has
          end;
    present submsg f p has
  else
    a ← size;
    n ← rd_u 4 a;
    if htype f =? PB_HTYPE_REPEATED then repeated submsg f p n
    else present submsg f p (n =? tag f).

Definition data_field (submsg : list pb_field_t -> Z -> R) (f : pb_field_t) (p : Z) : R :=
  let size := if size_offset f =? 0 then None else Some (p + size_offset f) in
  has ← (if negb (size_offset f =? 0) then Some false
         else if htype f =? PB_HTYPE_OPTIONAL then negb <$> is_default submsg f p else Some true);
  if atype f =? PB_ATYPE_POINTER then q ← rd_u 8 p; data_at submsg f q size (negb (q =? NULL))
  else data_at submsg f p size has.

(** The bytes of one field. *)
Definition field_bytes (submsg : list pb_field_t -> Z -> R) (f : pb_field_t) (p : Z) : R :=
  if ltype f =? PB_LTYPE_EXTENSION then
    e ← rd_u 8 p; if e =? NULL then emit [] else None
  else if (atype f =? PB_ATYPE_STATIC) || (atype f =? PB_ATYPE_POINTER) then data_field submsg f p
  else if atype f =? PB_ATYPE_CALLBACK then
    e ← rd_u 8 p; if e =? NULL then emit [] else None
  else invalid.

Fixpoint message (depth : nat) (fields : list pb_field_t) (p : Z) : R :=
  match depth with
  | O => None
  | S d =>
      if terminated fields then
        rconcat (map (fun s => field_bytes (message d) (s_field s) (s_data s)) (layout fields p))
      else None
  end.
End Message.

(** ** Where a submessage without a presence flag is told from an empty one

    The encoder finds that such a submessage is empty by looking at the value of each of its
    fields, whatever says how many of them there are. That is the same for these fields. *)

(** The fields before the terminator. *)
Definition all_fields (t : pb_field_t -> bool) : list pb_field_t -> bool :=
  fix go fields := match fields with [] => true | f :: fields => (tag f =? 0) || t f && go fields end.

Fixpoint flat (f : pb_field_t) : bool :=
  (atype f =? PB_ATYPE_STATIC) && (htype f =? PB_HTYPE_OPTIONAL) && (size_offset f =? 0) &&
  negb (ltype f =? PB_LTYPE_EXTENSION) &&
  (negb (ltype f =? PB_LTYPE_SUBMESSAGE) || match ptr f with PTR_SUBMSG l => all_fields flat l | _ => true end).

(** Static, optional, and without a presence flag. *)
Definition implicit (f : pb_field_t) : bool :=
  (atype f =? PB_ATYPE_STATIC) && (htype f =? PB_HTYPE_OPTIONAL) && (size_offset f =? 0).

(** An array without room for an element. *)
Definition no_items (f : pb_field_t) : bool :=
  (atype f =? PB_ATYPE_STATIC) && (htype f =? PB_HTYPE_REPEATED) && (array_size f <=? 0).

(** The submessages without a presence flag, at any level, have such fields only. *)
Fixpoint implicit_ok (f : pb_field_t) : bool :=
  if (ltype f =? PB_LTYPE_SUBMESSAGE) && negb (no_items f) then
    match ptr f with
    | PTR_SUBMSG l => (negb (implicit f) || all_fields flat l) && all_fields implicit_ok l
    | _ => true
    end
  else true.

(** * Lemmas: integers *)

Lemma varint_small v : v < 128 -> varint v = [v].
Proof. intros H. unfold varint. cbn [base128]. by rewrite (proj2 (Z.ltb_lt _ _) H). Qed.

Lemma base128_ok n v : 0 <= v -> bytes_ok (base128 n v).
Proof.
  revert v. induction n as [|n IH]; intros v Hv; cbn [base128]; [constructor|]. case_if.
  - constructor; [unfold is_u; lia|constructor].
  - pose proof (Z.mod_pos_bound v 128). constructor; [unfold is_u; lia|]. apply IH. apply Z.div_pos; lia.
Qed.

Lemma length_base128 n v : (length (base128 n v) <= n)%nat.
Proof.
  revert v. induction n as [|n IH]; intros v; cbn [base128]; [cbn; lia|]. case_if; cbn [length]; [lia|].
  specialize (IH (v / 128)). lia.
Qed.

Lemma varint_ok v : 0 <= v -> bytes_ok (varint v).
Proof. apply base128_ok. Qed.

Lemma length_varint v : zlen (varint v) <= 10.
Proof. pose proof (length_base128 10 v). unfold varint. lia. Qed.

Lemma bytes_ok_delimited l : bytes_ok l -> bytes_ok (delimited l).
Proof. intros H. apply bytes_ok_app. split; [apply varint_ok; lia|done]. Qed.

Lemma zigzag_range v : - 2 ^ 63 <= v < 2 ^ 63 -> is_u 64 (zigzag v).
Proof. unfold zigzag, is_u. intros H. case_if; lia. Qed.

Lemma unzigzag_zigzag v : unzigzag (zigzag v) = v.
Proof.
  unfold zigzag, unzigzag. destruct (Z.ltb_spec v 0).
  - replace (-2 * v - 1) with (1 + 2 * (- v - 1)) by lia. rewrite Z.odd_add_mul_2. cbn. Z.div_mod_to_equations. lia.
  - replace (2 * v) with (0 + 2 * v) by lia. rewrite Z.odd_add_mul_2. cbn. Z.div_mod_to_equations. lia.
Qed.

Lemma sext_range n v : 0 < n -> 0 <= v < 2 ^ (8 * n) -> - 2 ^ (8 * n - 1) <= sext n v < 2 ^ (8 * n - 1).
Proof.
  intros Hn Hv. assert (E : 2 ^ (8 * n) = 2 * 2 ^ (8 * n - 1)) by (rewrite <- Z.pow_succ_r by lia; f_equal; lia).
  unfold sext. case_if; lia.
Qed.

Lemma int_size_spec n : int_size n = true -> n = 1 \/ n = 2 \/ n = 4 \/ n = 8.
Proof. unfold int_size. intros H%bool_decide_eq_true_1.
  rewrite !elem_of_cons, elem_of_nil in H. tauto.
Qed.

(** * Lemmas: the fields of a table *)

Lemma slots_from_all t fields s : all_fields t fields = true <->
  forall i s', slots_from s fields !! i = Some s' -> t (s_field s') = true.
Proof.
  revert s. induction fields as [|f l IH]; intros s; cbn [all_fields slots_from]; [done|].
  case_if; [done|]. cbn [orb]. assert (Ef : s_field (next_slot s f) = f) by (unfold next_slot; by case_match).
  rewrite andb_true_iff, (IH (next_slot s f)). split.
  - intros [H1 H2] [|i] s' Hi; cbn in Hi; [|by eapply H2]. injection Hi as <-. by rewrite Ef.
  - intros H. split; [rewrite <- Ef; by apply (H 0%nat)|]. intros i s' Hi. by apply (H (S i)).
Qed.

Lemma layout_all t fields p : all_fields t fields = true <->
  forall i s, layout fields p !! i = Some s -> t (s_field s) = true.
Proof.
  destruct fields as [|f l]; cbn [all_fields layout]; [done|]. case_if; [done|]. cbn [orb]. cbv zeta.
  rewrite andb_true_iff, (slots_from_all t l (slot_at f (p + data_offset f) 0)). split.
  - intros [H1 H2] [|i] s' Hi; cbn in Hi; [|by eapply H2]. by injection Hi as <-.
  - intros H. split; [by apply (H 0%nat (slot_at f (p + data_offset f) 0))|]. intros i s' Hi. by apply (H (S i)).
Qed.

(** * Lemmas: results *)

Lemma rseq_assoc a b c : rseq a (rseq b c) = rseq (rseq a b) c.
Proof.
  destruct a as [[la|]|]; [|done..]. destruct b as [[lb|]|]; [|done..]. cbn.
  destruct c as [[lc|]|]; cbn; [|done..]. by rewrite app_assoc.
Qed.

Lemma rseq_nil a : rseq (emit []) a = a.
Proof. destruct a as [[l|]|]; done. Qed.

(** * Parsing integers *)

(** Reads at most [n] groups of seven bits, the least significant first. *)
Fixpoint parse_varint (n : nat) (src : bytes) : option (Z * bytes) :=
  match n, src with
  | S n, b :: src =>
      if b <? 128 then Some (b, src)
      else match parse_varint n src with Some (v, rest) => Some (b - 128 + 128 * v, rest) | None => None end
  | _, _ => None
  end.

Lemma parse_base128 n v rest : (0 < n)%nat -> 0 <= v < 128 ^ Z.of_nat n -> parse_varint n (base128 n v ++ rest) = Some (v, rest).
Proof.
  revert v. induction n as [|n IH]; intros v Hn Hv; [lia|]. cbn [base128]. case_if.
  - cbn [app parse_varint]. by rewrite (proj2 (Z.ltb_lt _ _) E).
  - pose proof (Z.mod_pos_bound v 128 ltac:(lia)). cbn [app parse_varint]. rewrite (proj2 (Z.ltb_ge _ _)) by lia.
    rewrite Nat2Z.inj_succ, Z.pow_succ_r in Hv by lia. rewrite IH.
    + pose proof (Z.div_mod v 128 ltac:(lia)). f_equal. f_equal. lia.
    + destruct n; [cbn in Hv; lia|lia].
    + split; [apply Z.div_pos; lia|]. apply Z.div_lt_upper_bound; lia.
Qed.

Lemma base128_mono n k v : (0 < n)%nat -> 0 <= v < 128 ^ Z.of_nat n -> (n <= k)%nat -> base128 k v = base128 n v.
Proof.
  revert n v. induction k as [|k IH]; intros n v Hn Hv Hk; [lia|].
  destruct n as [|n]; [lia|]. cbn [base128]. case_if; [done|]. f_equal.
  apply IH; [destruct n; [cbn in Hv; lia|lia]| |lia]. rewrite Nat2Z.inj_succ, Z.pow_succ_r in Hv by lia.
  split; [apply Z.div_pos; lia|]. apply Z.div_lt_upper_bound; lia.
Qed.

(** A decoder of [n] groups reads back an integer that fits. *)
Lemma parse_varint_varint n v rest : 0 <= v < 128 ^ Z.of_nat n -> (0 < n <= 10)%nat ->
  parse_varint n (varint v ++ rest) = Some (v, rest).
Proof. intros Hv Hn. unfold varint. rewrite (base128_mono n) by (done || lia). apply parse_base128; [lia|done]. Qed.

Lemma parse_varint_suffix n src v rest : parse_varint n src = Some (v, rest) ->
  exists pre, src = pre ++ rest /\ pre <> [].
Proof.
  revert src v rest. induction n as [|n IH]; intros [|b src] v rest; cbn [parse_varint]; try done.
  case_if; [intros [= <- <-]; by exists [b]|]. destruct (parse_varint n src) as [[v' rest']|] eqn:Ep; [|done].
  intros [= <- <-]. destruct (IH _ _ _ Ep) as (pre & -> & _). by exists (b :: pre).
Qed.

Lemma parse_varint_nonneg n src v rest : bytes_ok src -> parse_varint n src = Some (v, rest) -> 0 <= v.
Proof.
  revert src v rest. induction n as [|n IH]; intros [|b src] v rest Hok; cbn [parse_varint]; try done.
  apply Forall_cons in Hok as [Hb Hok]. unfold is_u in Hb. case_if; [intros [= <- <-]; lia|].
  destruct (parse_varint n src) as [[v' rest']|] eqn:Ep; [|done]. intros [= <- <-].
  pose proof (IH _ _ _ Hok Ep). lia.
Qed.

(** One more group of a word of [w] bits. *)
Lemma lor_group w k acc g : 0 <= k <= w -> 0 <= acc < 2 ^ k -> 0 <= g ->
  Z.lor acc (Z.shiftl g k mod 2 ^ w) = (acc + 2 ^ k * g) mod 2 ^ w.
Proof.
  intros Hk Ha Hg. assert (Ew : 2 ^ w = 2 ^ k * 2 ^ (w - k)) by (rewrite <- Z.pow_add_r by lia; f_equal; lia).
  assert (HP : 0 < 2 ^ k) by (apply Z.pow_pos_nonneg; lia).
  assert (HQ : 0 < 2 ^ (w - k)) by (apply Z.pow_pos_nonneg; lia).
  rewrite Z.shiftl_mul_pow2, Ew, (Z.mul_comm g), Z.mul_mod_distr_l by lia.
  rewrite Z.mul_comm, <- Z.shiftl_mul_pow2, Z.lor_comm, lor_shiftl_add by (done || lia).
  pose proof (Z.mod_pos_bound g (2 ^ (w - k)) HQ).
  pose proof (Z.div_mod g (2 ^ (w - k)) ltac:(lia)).
  apply (Z.mod_unique _ _ (g / 2 ^ (w - k))); [left; nia|nia].
Qed.

(** * A message to test on

    [struct Msg { int32_t id; bool has_name; char name[7]; uint32_t nums_count;
    uint16_t nums[2]; Sub sub; }] with [struct Sub { int32_t a; }]. *)
Definition sample_sub_fields : list pb_field_t :=
  [mk_field 1 0x02 0 0 4 0 PTR_NULL; PB_LAST_FIELD].

Definition sample_fields : list pb_field_t :=
  [mk_field 1 0x00 0 0 4 0 PTR_NULL;
   mk_field 2 0x16 1 (-1) 7 0 PTR_NULL;
   mk_field 3 0x21 4 (-4) 2 2 PTR_NULL;
   mk_field 4 0x07 0 0 4 0 (PTR_SUBMSG sample_sub_fields);
   PB_LAST_FIELD].

Definition sample_struct : bytes :=
  [150; 0; 0; 0; 1; 97; 98; 0; 0; 0; 0; 0; 2; 0; 0; 0; 3; 0; 14; 1; 254; 255; 255; 255].

Definition sample_wire : bytes := [8; 150; 1; 18; 2; 97; 98; 26; 3; 3; 142; 2; 34; 2; 8; 3].

Definition no_user : PbUser :=
  {| encode_cb := fun _ _ _ _ => sstuck; decode_cb := fun _ _ _ _ => sstuck; extension_type := fun _ => None |}.

Example sample_message : message (region 1000 sample_struct) 2 sample_fields 1000 = emit sample_wire.
Proof. vm_compute. reflexivity. Qed.
