(* ===== verification/PbEncode.v ===== *)
(** * nanopb: the encoder

    Models src/bubble/Pods/nanopb/pb_encode.c. The encoders of fields and of messages
    call each other; the functions on the cycle take the encoder of submessages as
    an argument, and [pb_encode] closes the cycle by recursion on the depth to which
    descriptors nest. *)

From Stdlib Require Import ZArith Lia String.
From stdpp Require Import base list option gmap.
From S2P Require Import Prelude ByteMem Pb PbWire.

#[local] Open Scope string_scope.
#[local] Open Scope list_scope.
#[local] Open Scope Z_scope.

(** * Output streams *)

Definition set_ostate (s : pb_ostream_t) (p : Z) : pb_ostream_t :=
  mk_ostream (ocallback_ s) p (max_size s) (bytes_written s) (oerrmsg s).
Definition set_bytes_written (s : pb_ostream_t) (n : Z) : pb_ostream_t :=
  mk_ostream (ocallback_ s) (ostate s) (max_size s) n (oerrmsg s).
Definition set_oerrmsg (s : pb_ostream_t) (e : option string) : pb_ostream_t :=
  mk_ostream (ocallback_ s) (ostate s) (max_size s) (bytes_written s) e.

Definition PB_OSTREAM_SIZING : pb_ostream_t := mk_ostream OC_NULL NULL 0 0 None.

(** [buf[i]]. *)
Definition src_byte (buf : pb_src) (i : Z) : M mem Z :=
  match buf with
  | SRC_LOCAL l => slift (l !! Z.to_nat i)
  | SRC_AT a => load_u 1 (a + i)
  end.

Fixpoint buf_write_loop (n : nat) (dest : Z) (buf : pb_src) (i : Z) : M mem unit :=
  match n with
  | O => sret tt
  | S n =>
      let* b := src_byte buf i in
      store_u 1 (dest + i) b ;;;
      buf_write_loop n dest buf (i + 1)
  end.

Definition buf_write (dest : Z) (buf : pb_src) (count : Z) : M mem (bool * Z) :=
  buf_write_loop (Z.to_nat count) dest buf 0 ;;;
  sret (true, dest + count).

Definition pb_ostream_from_buffer (buf bufsize : Z) : pb_ostream_t :=
  mk_ostream OC_BUF_WRITE buf bufsize 0 None.

(** The call of the stream's callback. *)
Definition call_ocallback (s : pb_ostream_t) (buf : pb_src) (count : Z) : M mem (bool * pb_ostream_t) :=
  match ocallback_ s with
  | OC_NULL => sstuck
  | OC_BUF_WRITE => let* (ok, p) := buf_write (ostate s) buf count in sret (ok, set_ostate s p)
  | OC_USER f => let* (ok, p) := f (ostate s) buf count in sret (ok, set_ostate s p)
  end.

Definition callback_is_null (s : pb_ostream_t) : bool :=
  match ocallback_ s with OC_NULL => true | _ => false end.

Definition pb_write (s : pb_ostream_t) (buf : pb_src) (count : Z) : M mem (bool * pb_ostream_t) :=
  if negb (callback_is_null s) then
    if u64 (bytes_written s + count) >? max_size s then PB_RETURN_OERROR s "stream full"
    else
      let* (ok, s) := call_ocallback s buf count in
      if negb ok then PB_RETURN_OERROR s "io error"
      else sret (true, set_bytes_written s (u64 (bytes_written s + count)))
  else sret (true, set_bytes_written s (u64 (bytes_written s + count))).

(** * Helper functions *)

(** The loop fills [buffer]; ten bytes are enough for 64 bits. *)
Fixpoint varint_loop (fuel : nat) (value : Z) : bytes :=
  match fuel with
  | O => []
  | S fuel =>
      if value =? 0 then []
      else u8 (Z.lor (Z.land value 0x7F) 0x80) :: varint_loop fuel (Z.shiftr value 7)
  end.

Definition varint_buffer (value : Z) : bytes :=
  let buffer := varint_loop 10 value in
  let i := length buffer in
  take (i - 1) buffer ++ map (Z.land 0x7F) (drop (i - 1) buffer).

Definition pb_encode_varint (s : pb_ostream_t) (value : Z) : M mem (bool * pb_ostream_t) :=
  if value <=? 0x7F then pb_write s (SRC_LOCAL [u8 value]) 1
  else
    let buffer := varint_buffer value in
    pb_write s (SRC_LOCAL buffer) (zlen buffer).

Definition pb_encode_svarint (s : pb_ostream_t) (value : Z) : M mem (bool * pb_ostream_t) :=
  let zigzagged :=
    if value <? 0 then u64 (Z.lnot (u64 (Z.shiftl (u64 value) 1))) else u64 (Z.shiftl (u64 value) 1) in
  pb_encode_varint s zigzagged.

Definition pb_encode_fixed32 (s : pb_ostream_t) (value : Z) : M mem (bool * pb_ostream_t) :=
  let* val := load_u 4 value in
  pb_write s (SRC_LOCAL [Z.land val 0xFF; Z.land (Z.shiftr val 8) 0xFF; Z.land (Z.shiftr val 16) 0xFF;
                         Z.land (Z.shiftr val 24) 0xFF]) 4.

Definition pb_encode_fixed64 (s : pb_ostream_t) (value : Z) : M mem (bool * pb_ostream_t) :=
  let* val := load_u 8 value in
  pb_write s (SRC_LOCAL [Z.land val 0xFF; Z.land (Z.shiftr val 8) 0xFF; Z.land (Z.shiftr val 16) 0xFF;
                         Z.land (Z.shiftr val 24) 0xFF; Z.land (Z.shiftr val 32) 0xFF;
                         Z.land (Z.shiftr val 40) 0xFF; Z.land (Z.shiftr val 48) 0xFF;
                         Z.land (Z.shiftr val 56) 0xFF]) 8.

Definition pb_encode_tag (s : pb_ostream_t) (wiretype field_number : Z) : M mem (bool * pb_ostream_t) :=
  let tag := Z.lor (u64 (Z.shiftl field_number 3)) wiretype in
  pb_encode_varint s tag.

(** The wire type of a field, [None] in the default case of the switch. *)
Definition wiretype_of (lt : Z) : option Z :=
  if (lt =? PB_LTYPE_VARINT) || (lt =? PB_LTYPE_UVARINT) || (lt =? PB_LTYPE_SVARINT) then Some PB_WT_VARINT
  else if lt =? PB_LTYPE_FIXED32 then Some PB_WT_32BIT
  else if lt =? PB_LTYPE_FIXED64 then Some PB_WT_64BIT
  else if (lt =? PB_LTYPE_BYTES) || (lt =? PB_LTYPE_STRING) || (lt =? PB_LTYPE_SUBMESSAGE)
          || (lt =? PB_LTYPE_FIXED_LENGTH_BYTES) then Some PB_WT_STRING
  else None.

Definition pb_encode_tag_for_field (s : pb_ostream_t) (field : pb_field_t) : M mem (bool * pb_ostream_t) :=
  match wiretype_of (ltype field) with
  | None => PB_RETURN_OERROR s "invalid field type"
  | Some wiretype => pb_encode_tag s wiretype (tag field)
  end.

Definition pb_encode_string (s : pb_ostream_t) (buffer : pb_src) (size : Z) : M mem (bool * pb_ostream_t) :=
  let* (ok, s) := pb_encode_varint s size in
  if negb ok then sret (false, s) else pb_write s buffer size.

(** * Field encoders *)

Definition is_int_size (n : Z) : bool := (n =? 1) || (n =? 2) || (n =? 4) || (n =? 8).

Definition pb_enc_varint (s : pb_ostream_t) (field : pb_field_t) (src : Z) : M mem (bool * pb_ostream_t) :=
  if is_int_size (data_size field) then
    let* value := load_s (data_size field) src in
    pb_encode_varint s (u64 value)
  else PB_RETURN_OERROR s "invalid data_size".

Definition pb_enc_uvarint (s : pb_ostream_t) (field : pb_field_t) (src : Z) : M mem (bool * pb_ostream_t) :=
  if is_int_size (data_size field) then
    let* value := load_u (data_size field) src in
    pb_encode_varint s value
  else PB_RETURN_OERROR s "invalid data_size".

Definition pb_enc_svarint (s : pb_ostream_t) (field : pb_field_t) (src : Z) : M mem (bool * pb_ostream_t) :=
  if is_int_size (data_size field) then
    let* value := load_s (data_size field) src in
    pb_encode_svarint s value
  else PB_RETURN_OERROR s "invalid data_size".

Definition pb_enc_fixed64 (s : pb_ostream_t) (field : pb_field_t) (src : Z) : M mem (bool * pb_ostream_t) :=
  pb_encode_fixed64 s src.

Definition pb_enc_fixed32 (s : pb_ostream_t) (field : pb_field_t) (src : Z) : M mem (bool * pb_ostream_t) :=
  pb_encode_fixed32 s src.

Definition pb_enc_bytes (s : pb_ostream_t) (field : pb_field_t) (src : Z) : M mem (bool * pb_ostream_t) :=
  if src =? NULL then pb_encode_string s (SRC_AT NULL) 0
  else
    let* size := load_u sizeof_pb_size_t src in
    if (atype field =? PB_ATYPE_STATIC) && (PB_BYTES_ARRAY_T_ALLOCSIZE size >? data_size field) then
      PB_RETURN_OERROR s "bytes size exceeded"
    else pb_encode_string s (SRC_AT (src + offsetof_bytes)) size.

(** The loop that measures a string ends at the first zero byte, at [max_size], or
    at an address that is not mapped, where it is undefined: fuel for every mapped
    byte is enough. *)
Fixpoint strnlen_loop (fuel : nat) (max_size size p : Z) : M mem Z :=
  match fuel with
  | O => sstuck
  | S fuel =>
      if negb (size <? max_size) then sret size
      else
        let* c := load_u 1 p in
        if c =? 0 then sret size else strnlen_loop fuel max_size (size + 1) (p + 1)
  end.

Definition string_size (src max_size : Z) : M mem Z :=
  if src =? NULL then sret 0
  else
    let* m := sget in
    strnlen_loop (S (size m)) max_size 0 src.

Definition pb_enc_string (s : pb_ostream_t) (field : pb_field_t) (src : Z) : M mem (bool * pb_ostream_t) :=
  let max_size := if atype field =? PB_ATYPE_POINTER then 0xffffffffffffffff else data_size field in
  let* size := string_size src max_size in
  pb_encode_string s (SRC_AT src) size.

Definition pb_enc_fixed_length_bytes (s : pb_ostream_t) (field : pb_field_t) (src : Z) :
    M mem (bool * pb_ostream_t) :=
  pb_encode_string s (SRC_AT src) (data_size field).

(** * Fields and messages *)

Definition pb_encoder_t : Type := pb_ostream_t -> pb_field_t -> Z -> M mem (bool * pb_ostream_t).

(** The count of a loop that encodes an array: [func(s, field, p)] for each element. *)
Fixpoint encode_elems (n : nat) (func : Z -> pb_ostream_t -> M mem (bool * pb_ostream_t)) (p size : Z)
    (s : pb_ostream_t) : M mem (bool * pb_ostream_t) :=
  match n with
  | O => sret (true, s)
  | S n =>
      let* (ok, s) := func p s in
      if negb ok then sret (false, s) else encode_elems n func (p + size) size s
  end.

(** Byte-by-byte comparison with zero. *)
Fixpoint all_zero (n : nat) (p : Z) : M mem bool :=
  match n with
  | O => sret true
  | S n =>
      let* b := load_u 1 p in
      if negb (b =? 0) then sret false else all_zero n (p + 1)
  end.

(** A loop over the fields of a message, until [step] says to stop. The iterator
    ends it after as many steps as there are descriptors. *)
Fixpoint iter_fields {A} (fuel : nat) (step : pb_field_iter_t -> A -> M mem (bool * A)) (it : pb_field_iter_t)
    (a : A) : M mem (bool * A) :=
  match fuel with
  | O => sstuck
  | S fuel =>
      let* (ok, a) := step it a in
      if negb ok then sret (false, a)
      else
        let* (more, it) := slift (pb_field_iter_next it) in
        if more then iter_fields fuel step it a else sret (true, a)
  end.

Fixpoint pb_check_proto3_default_value (depth : nat) (field : pb_field_t) (pData : Z) : M mem bool :=
  match depth with
  | O => sstuck
  | S depth =>
      if (atype field =? PB_ATYPE_STATIC) && (ltype field =? PB_LTYPE_BYTES) then
        let* size := load_u sizeof_pb_size_t pData in sret (size =? 0)
      else if (atype field =? PB_ATYPE_STATIC) && (ltype field =? PB_LTYPE_STRING) then
        let* c := load_u 1 pData in sret (c =? 0)
      else if (atype field =? PB_ATYPE_STATIC) && (ltype field =? PB_LTYPE_FIXED_LENGTH_BYTES) then
        sret (data_size field =? 0)
      else if (atype field =? PB_ATYPE_STATIC) && (ltype field =? PB_LTYPE_SUBMESSAGE) then
        match ptr field with
        | PTR_SUBMSG fields =>
            let* (nonempty, it) := slift (pb_field_iter_begin fields pData) in
            if nonempty then
              let* (all_default, _) :=
                iter_fields (length fields)
                  (fun it _ =>
                     let* f := slift (cur it) in
                     let* z := pb_check_proto3_default_value depth f (Pb.pData it) in sret (z, tt))
                  it tt in
              sret all_default
            else sret true
        | _ => sstuck
        end
      else all_zero (Z.to_nat (data_size field)) pData
  end.

Section Encode.
Context `{PbUser}.

(** The depth to which the default check may recurse, and [pb_encode] on the fields
    of a submessage. *)
Variable depth : nat.
Variable encode_submsg : pb_ostream_t -> list pb_field_t -> Z -> M mem (bool * pb_ostream_t).

Definition pb_encode_submessage (s : pb_ostream_t) (fields : list pb_field_t) (src_struct : Z) :
    M mem (bool * pb_ostream_t) :=
  let* (ok, substream) := encode_submsg PB_OSTREAM_SIZING fields src_struct in
  if negb ok then sret (false, set_oerrmsg s (oerrmsg substream))
  else
    let size := bytes_written substream in
    let* (ok, s) := pb_encode_varint s size in
    if negb ok then sret (false, s)
    else if callback_is_null s then pb_write s (SRC_AT NULL) size
    else if u64 (bytes_written s + size) >? max_size s then PB_RETURN_OERROR s "stream full"
    else
      let substream := mk_ostream (ocallback_ s) (ostate s) size 0 None in
      let* (status, substream) := encode_submsg substream fields src_struct in
      let s := set_bytes_written s (u64 (bytes_written s + bytes_written substream)) in
      let s := set_ostate s (ostate substream) in
      let s := set_oerrmsg s (oerrmsg substream) in
      if negb (bytes_written substream =? size) then PB_RETURN_OERROR s "submsg size changed"
      else sret (status, s).

Definition pb_enc_submessage (s : pb_ostream_t) (field : pb_field_t) (src : Z) : M mem (bool * pb_ostream_t) :=
  match ptr field with
  | PTR_NULL => PB_RETURN_OERROR s "invalid field descriptor"
  | PTR_DEFAULT _ => sstuck
  | PTR_SUBMSG fields => pb_encode_submessage s fields src
  end.

(** The table of encoders; [None] is a NULL entry or an index out of range. *)
Definition PB_ENCODERS (lt : Z) : option pb_encoder_t :=
  nth (Z.to_nat lt)
    [Some pb_enc_varint; Some pb_enc_uvarint; Some pb_enc_svarint; Some pb_enc_fixed32; Some pb_enc_fixed64;
     Some pb_enc_bytes; Some pb_enc_string; Some pb_enc_submessage; None; Some pb_enc_fixed_length_bytes] None.

Definition call_encoder (func : option pb_encoder_t) (s : pb_ostream_t) (field : pb_field_t) (src : Z) :
    M mem (bool * pb_ostream_t) :=
  match func with None => sstuck | Some f => f s field src end.

Definition is_string_or_bytes (field : pb_field_t) : bool :=
  (ltype field =? PB_LTYPE_STRING) || (ltype field =? PB_LTYPE_BYTES).

(** The total size of a packed array. *)
Definition packed_size (field : pb_field_t) (pData count : Z) (func : option pb_encoder_t) : M mem (bool * Z) :=
  if ltype field =? PB_LTYPE_FIXED32 then sret (true, u64 (4 * count))
  else if ltype field =? PB_LTYPE_FIXED64 then sret (true, u64 (8 * count))
  else
    let* (ok, sizestream) :=
      encode_elems (Z.to_nat count) (fun p s => call_encoder func s field p) pData (data_size field)
        PB_OSTREAM_SIZING in
    sret (ok, bytes_written sizestream).

(** After the key of a packed array. *)
Definition encode_packed (s : pb_ostream_t) (field : pb_field_t) (pData count : Z) (func : option pb_encoder_t) :
    M mem (bool * pb_ostream_t) :=
  let* (ok, size) := packed_size field pData count func in
  if negb ok then sret (false, s)
  else
    let* (ok, s) := pb_encode_varint s size in
    if negb ok then sret (false, s)
    else if callback_is_null s then pb_write s (SRC_AT NULL) size
    else
      encode_elems (Z.to_nat count) (fun p s => call_encoder func s field p) pData (data_size field) s.

(** One element of an array that is not packed. *)
Definition encode_elem (field : pb_field_t) (func : option pb_encoder_t) (p : Z) (s : pb_ostream_t) :
    M mem (bool * pb_ostream_t) :=
  let* (ok, s) := pb_encode_tag_for_field s field in
  if negb ok then sret (false, s)
  else if (atype field =? PB_ATYPE_POINTER) && is_string_or_bytes field then
    let* q := load_ptr p in call_encoder func s field q
  else call_encoder func s field p.

Definition encode_array (s : pb_ostream_t) (field : pb_field_t) (pData count : Z) (func : option pb_encoder_t) :
    M mem (bool * pb_ostream_t) :=
  if count =? 0 then sret (true, s)
  else if negb (atype field =? PB_ATYPE_POINTER) && (count >? array_size field) then
    PB_RETURN_OERROR s "array max size exceeded"
  else if ltype field <=? PB_LTYPE_LAST_PACKABLE then
    let* (ok, s) := pb_encode_tag s PB_WT_STRING (tag field) in
    if negb ok then sret (false, s) else encode_packed s field pData count func
  else encode_elems (Z.to_nat count) (encode_elem field func) pData (data_size field) s.

(** The switch of encode_basic_field. [pSize] points to the local [implicit_has], or
    to memory. *)
Definition encode_basic_data (s : pb_ostream_t) (field : pb_field_t) (pData : Z) (pSize : option Z)
    (implicit_has : bool) : M mem (bool * pb_ostream_t) :=
  let func := PB_ENCODERS (ltype field) in
  let tag_and_value :=
    let* (ok, s) := pb_encode_tag_for_field s field in
    if negb ok then sret (false, s) else call_encoder func s field pData in
  let load_size := match pSize with None => sstuck | Some p => load_u sizeof_pb_size_t p end in
  if htype field =? PB_HTYPE_REQUIRED then
    if pData =? NULL then PB_RETURN_OERROR s "missing required field" else tag_and_value
  else if htype field =? PB_HTYPE_OPTIONAL then
    let* has :=
      match pSize with
      | None => sret implicit_has
      | Some p => let* b := load_u 1 p in sret (negb (b =? 0))
      end in
    if has then tag_and_value else sret (true, s)
  else if htype field =? PB_HTYPE_REPEATED then
    let* count := load_size in encode_array s field pData count func
  else
    let* which := load_size in
    if which =? tag field then tag_and_value else sret (true, s).

Definition encode_basic_field (s : pb_ostream_t) (field : pb_field_t) (pData : Z) : M mem (bool * pb_ostream_t) :=
  let pSize := if negb (size_offset field =? 0) then Some (pData + size_offset field) else None in
  let* implicit_has :=
    if negb (size_offset field =? 0) then sret false
    else if htype field =? PB_HTYPE_OPTIONAL then
      let* is_default := pb_check_proto3_default_value depth field pData in
      sret (negb is_default)
    else sret true in
  if atype field =? PB_ATYPE_POINTER then
    let* p := load_ptr pData in encode_basic_data s field p pSize (negb (p =? NULL))
  else encode_basic_data s field pData pSize implicit_has.

Definition encode_callback_field (s : pb_ostream_t) (field : pb_field_t) (pData : Z) :
    M mem (bool * pb_ostream_t) :=
  let* encode := load_ptr pData in
  if negb (encode =? NULL) then
    let* (ok, s) := encode_cb encode s field (pData + offsetof_arg) in
    if negb ok then PB_RETURN_OERROR s "callback error" else sret (true, s)
  else sret (true, s).

Definition encode_field (s : pb_ostream_t) (field : pb_field_t) (pData : Z) : M mem (bool * pb_ostream_t) :=
  if (atype field =? PB_ATYPE_STATIC) || (atype field =? PB_ATYPE_POINTER) then
    encode_basic_field s field pData
  else if atype field =? PB_ATYPE_CALLBACK then encode_callback_field s field pData
  else PB_RETURN_OERROR s "invalid field type".

Definition default_extension_encoder (s : pb_ostream_t) (t : pb_extension_type_t) (extension : Z) :
    M mem (bool * pb_ostream_t) :=
  let field := ext_arg t in
  if atype field =? PB_ATYPE_POINTER then encode_field s field (extension + offsetof_dest)
  else let* dest := load_ptr (extension + offsetof_dest) in encode_field s field dest.

(** The loop ends on a list that is not cyclic, for every node takes up memory. *)
Fixpoint encode_extensions (fuel : nat) (s : pb_ostream_t) (extension : Z) : M mem (bool * pb_ostream_t) :=
  match fuel with
  | O => sstuck
  | S fuel =>
      if extension =? NULL then sret (true, s)
      else
        let* p := load_ptr extension in
        let* t := slift (extension_type p) in
        let* (status, s) :=
          match ext_encode t with
          | Some f => f s extension
          | None => default_extension_encoder s t extension
          end in
        if negb status then sret (false, s)
        else
          let* next := load_ptr (extension + offsetof_next) in
          encode_extensions fuel s next
  end.

Definition encode_extension_field (s : pb_ostream_t) (field : pb_field_t) (pData : Z) :
    M mem (bool * pb_ostream_t) :=
  let* extension := load_ptr pData in
  let* m := sget in
  encode_extensions (S (size m)) s extension.

(** One field of the message. *)
Definition encode_step (it : pb_field_iter_t) (s : pb_ostream_t) : M mem (bool * pb_ostream_t) :=
  let* field := slift (cur it) in
  if ltype field =? PB_LTYPE_EXTENSION then encode_extension_field s field (pData it)
  else encode_field s field (pData it).

Definition pb_encode_body (s : pb_ostream_t) (fields : list pb_field_t) (src_struct : Z) :
    M mem (bool * pb_ostream_t) :=
  let* (nonempty, it) := slift (pb_field_iter_begin fields src_struct) in
  if negb nonempty then sret (true, s) else iter_fields (length fields) encode_step it s.
End Encode.

(** [depth] is more than the depth to which descriptors nest. *)
Fixpoint pb_encode `{PbUser} (depth : nat) (s : pb_ostream_t) (fields : list pb_field_t) (src_struct : Z) :
    M mem (bool * pb_ostream_t) :=
  match depth with
  | O => sstuck
  | S d => pb_encode_body depth (pb_encode d) s fields src_struct
  end.

Definition pb_encode_delimited `{PbUser} (depth : nat) (s : pb_ostream_t) (fields : list pb_field_t)
    (src_struct : Z) : M mem (bool * pb_ostream_t) :=
  pb_encode_submessage (pb_encode depth) s fields src_struct.

Definition pb_get_encoded_size `{PbUser} (depth : nat) (fields : list pb_field_t) (src_struct : Z) :
    M mem (option Z) :=
  let* (ok, s) := pb_encode depth PB_OSTREAM_SIZING fields src_struct in
  if negb ok then sret None else sret (Some (bytes_written s)).

(** * What an encoder does to a stream

    [ms] is the part of the memory that holds the message, which the output does not
    overlap. Every encoder is described by the bytes it stands for, or [None] if it
    fails whatever the stream: a stream that only counts counts them, and a stream
    into a buffer gets them if they fit, and otherwise some of the buffer is
    overwritten and the encoder fails. *)

Definition advance (s : pb_ostream_t) (p : bytes) (e : option string) : pb_ostream_t :=
  mk_ostream (ocallback_ s) (ostate s + zlen p) (max_size s) (bytes_written s + zlen p) e.

(** A stream into a buffer that is mapped and apart from [ms]. *)
Definition ready (ms : mem) (s : pb_ostream_t) (m : mem) : Prop :=
  ocallback_ s = OC_BUF_WRITE /\ ms ⊆ m /\ 0 <= bytes_written s <= max_size s /\ max_size s < 2 ^ 63 /\
  mapped m (ostate s) (max_size s - bytes_written s) /\
  (forall i, 0 <= i < max_size s - bytes_written s -> ms !! (ostate s + i) = None).

Definition sizes (ms : mem) (f : pb_ostream_t -> M mem (bool * pb_ostream_t)) (r : option bytes) : Prop :=
  forall s m, ms ⊆ m -> ocallback_ s = OC_NULL -> is_u 64 (bytes_written s) ->
  exists ok n e, f s m = Some ((ok, mk_ostream OC_NULL (ostate s) (max_size s) n e), m) /\ is_u 64 n /\
    match r with Some w => ok = true /\ n = u64 (bytes_written s + zlen w) | None => ok = false end.

Definition writes (ms : mem) (f : pb_ostream_t -> M mem (bool * pb_ostream_t)) (r : option bytes) : Prop :=
  forall s m, ready ms s m ->
  exists ok p m' e, f s m = Some ((ok, advance s p e), m') /\ store_bytes p (ostate s) m = Some m' /\
    bytes_written s + zlen p <= max_size s /\ (ok = true -> r = Some p) /\
    (forall w, r = Some w -> ok = (bytes_written s + zlen w <=? max_size s)).

Definition encodes_ (ms : mem) (f : pb_ostream_t -> M mem (bool * pb_ostream_t)) (r : option bytes) : Prop :=
  sizes ms f r /\ writes ms f r.

Definition encodes (ms : mem) (f : pb_ostream_t -> M mem (bool * pb_ostream_t)) (r : R) : Prop :=
  match r with None => True | Some r => encodes_ ms f r end.

(** A computation that only reads the message. *)
Definition reads {A} (ms : mem) (x : M mem A) (o : option A) : Prop :=
  forall v m, o = Some v -> ms ⊆ m -> x m = Some (v, m).

(** Two encoders in sequence. *)
Definition eseq (f g : pb_ostream_t -> M mem (bool * pb_ostream_t)) : pb_ostream_t -> M mem (bool * pb_ostream_t) :=
  fun s => let* (ok, s) := f s in if negb ok then sret (false, s) else g s.

(** ** Streams *)

Lemma ready_advance ms s m p e m' : ready ms s m -> store_bytes p (ostate s) m = Some m' ->
  bytes_written s + zlen p <= max_size s -> ready ms (advance s p e) m'.
Proof.
  intros (Hc & Hs & Hb & Hm & Hmap & Hd) E Hp. destruct (store_bytes_inv _ _ _ _ E) as (_ & _ & Hdom).
  unfold ready. cbn. split; [done|]. split; [|split; [lia|split; [done|]]].
  - eapply store_bytes_frame; [exact E|done|]. intros i Hi. apply Hd. lia.
  - split; intros i Hi; rewrite <- Z.add_assoc; [apply Hdom, Hmap|apply Hd]; lia.
Qed.

Lemma advance_nil s e : advance s [] e = set_oerrmsg s e.
Proof. unfold advance. cbn. rewrite !Z.add_0_r. done. Qed.

Lemma advance_app s p1 e1 p2 e2 : advance (advance s p1 e1) p2 e2 = advance s (p1 ++ p2) e2.
Proof. unfold advance. cbn. rewrite length_app. f_equal; lia. Qed.

Lemma set_oerrmsg_eta s : set_oerrmsg s (oerrmsg s) = s.
Proof. by destruct s. Qed.

(** ** Composition *)

Lemma encodes_nil ms : encodes ms (fun s => sret (true, s)) (emit []).
Proof.
  split.
  - intros s m _ Hc Hb. exists true, (bytes_written s), (oerrmsg s). split; [destruct s; cbn in *; by subst|].
    split; [done|]. cbn. rewrite Z.add_0_r, u64_small; done.
  - intros s m (_ & _ & Hb & _). exists true, [], m, (oerrmsg s). rewrite advance_nil, set_oerrmsg_eta.
    split; [done|]. split; [done|]. split; [cbn; lia|]. split; [done|].
    intros w [= <-]. symmetry. apply Z.leb_le. cbn. lia.
Qed.

Lemma encodes_error ms msg : encodes ms (fun s => PB_RETURN_OERROR s msg) invalid.
Proof.
  split.
  - intros s m _ Hc Hb. eexists false, (bytes_written s), _.
    unfold PB_RETURN_OERROR, sret, PB_SET_OERROR. rewrite Hc. split; [done|]. by split.
  - intros s m (_ & _ & Hb & _). eexists false, [], m, _. rewrite advance_nil. split; [done|].
    split; [done|]. split; [cbn; lia|done].
Qed.

Lemma sizes_seq ms f g w1 r2 : sizes ms f (Some w1) -> sizes ms g r2 -> sizes ms (eseq f g) (app w1 <$> r2).
Proof.
  intros Hs Hs2 s m Hm Hc Hb. destruct (Hs s m Hm Hc Hb) as (ok & n & e & E & Hn & -> & ->).
  unfold eseq, sbind. rewrite E. cbn [negb].
  destruct (Hs2 (mk_ostream OC_NULL (ostate s) (max_size s) (u64 (bytes_written s + zlen w1)) e) m Hm eq_refl Hn)
    as (ok & n & e' & E2 & Hn2 & H2). cbn in E2, H2. exists ok, n, e'. split; [done|]. split; [done|].
  destruct r2; [|done]. destruct H2 as [-> ->]. split; [done|]. cbn. rewrite u64_add_l, length_app. f_equal. lia.
Qed.

Lemma writes_seq ms f g w1 r2 : writes ms f (Some w1) -> writes ms g r2 -> writes ms (eseq f g) (app w1 <$> r2).
Proof.
  intros Hw Hw2 s m Hr. destruct (Hw s m Hr) as (ok & p & m1 & e & E & Est & Hp & Hok & Hfit).
  specialize (Hfit _ eq_refl). unfold eseq, sbind. rewrite E. destruct ok; cbn [negb].
  - injection (Hok eq_refl) as <-. pose proof (ready_advance _ _ _ _ e _ Hr Est Hp) as Hr1.
    destruct (Hw2 _ _ Hr1) as (ok & p2 & m2 & e2 & E2 & Est2 & Hp2 & Hok2 & Hfit2). rewrite advance_app in E2.
    cbn in Est2, Hp2, Hfit2. exists ok, (w1 ++ p2), m2, e2. split; [done|].
    rewrite store_bytes_app, Est. split; [done|]. split; [zlia|]. split.
    + intros Ht. by rewrite (Hok2 Ht).
    + destruct r2 as [w2|]; [|done]. intros w [= <-]. rewrite (Hfit2 _ eq_refl), length_app. f_equal. lia.
  - exists false, p, m1, e. repeat split; try done. destruct r2 as [w2|]; [|done]. intros w [= <-].
    symmetry in Hfit. symmetry. bool_simpl. apply Z.leb_gt. zlia.
Qed.

Lemma encodes_seq ms f g a b : encodes ms f a -> (forall w, a = emit w -> encodes ms g b) ->
  encodes ms (eseq f g) (rseq a b).
Proof.
  destruct a as [[w1|]|]; [| |done]; intros [Hs Hw] Hg.
  - specialize (Hg _ eq_refl). destruct b as [r2|]; [|done]. destruct Hg as [Hs2 Hw2].
    assert (H : encodes_ ms (eseq f g) (app w1 <$> r2)) by (split; [by apply sizes_seq|by apply writes_seq]).
    by destruct r2.
  - clear Hg. cbn. split.
    + intros s m Hm Hc Hb. destruct (Hs s m Hm Hc Hb) as (ok & n & e & E & Hn & ->).
      exists false, n, e. split; [|done]. unfold eseq, sbind. by rewrite E.
    + intros s m Hr. destruct (Hw s m Hr) as (ok & p & m1 & e & E & Est & Hp & Hok & Hfit).
      destruct ok; [by specialize (Hok eq_refl)|]. exists false, p, m1, e. unfold eseq, sbind. by rewrite E.
Qed.

(** ** Reading *)

Lemma encodes_read {A} ms (x : M mem A) (o : option A) f (k : A -> R) :
  reads ms x o -> (forall v, o = Some v -> encodes ms (f v) (k v)) ->
  encodes ms (fun s => let* v := x in f v s) (o ≫= k).
Proof.
  intros Hx Hf. destruct o as [v|]; [|done]. specialize (Hf v eq_refl). cbn. destruct (k v) as [r|]; [|done].
  destruct Hf as [Hs Hw]. split; intros s m H.
  - unfold sbind. rewrite (Hx v m eq_refl H). by apply Hs.
  - pose proof H as (_ & Hm & _). unfold sbind. rewrite (Hx v m eq_refl Hm). by apply Hw.
Qed.

Lemma reads_ret {A} ms (v : A) : reads ms (sret v) (Some v).
Proof. intros v' m [= <-] _. done. Qed.

Lemma reads_bind {A B} ms (x : M mem A) (o : option A) (f : A -> M mem B) (k : A -> option B) :
  reads ms x o -> (forall v, o = Some v -> reads ms (f v) (k v)) ->
  reads ms (let* v := x in f v) (o ≫= k).
Proof.
  intros Hx Hf v m Hv Hm. destruct o as [a|]; [|done]. unfold sbind. rewrite (Hx a m eq_refl Hm).
  by apply (Hf a eq_refl).
Qed.

Lemma reads_lift {A} ms (o : option A) : reads ms (slift o) o.
Proof. intros v m -> _. done. Qed.

Lemma mem_load_reads ms n a : reads ms (mem_load n a) (rd ms n a).
Proof. intros l m H Hm. unfold mem_load. by rewrite (load_bytes_mono _ _ _ _ _ Hm H). Qed.

Lemma load_u_reads ms n a : reads ms (load_u n a) (rd_u ms n a).
Proof.
  unfold load_u, rd_u. intros v m H Hm. destruct (rd ms n a) as [l|] eqn:E; [|done]. injection H as <-.
  unfold sbind. by rewrite (mem_load_reads _ _ _ _ _ E Hm).
Qed.

Lemma load_s_reads ms n a : reads ms (load_s n a) (rd_s ms n a).
Proof.
  unfold load_s, rd_s. intros v m H Hm. destruct (rd_u ms n a) as [x|] eqn:E; [|done]. injection H as <-.
  unfold sbind. by rewrite (load_u_reads _ _ _ _ _ E Hm).
Qed.

Lemma rd_u_bound ms n a v : mem_bytes ms -> 0 <= n -> rd_u ms n a = Some v -> 0 <= v < 256 ^ n.
Proof.
  intros Hm Hn H. unfold rd_u in H. destruct (rd ms n a) as [l|] eqn:E; [|done]. injection H as <-.
  pose proof (load_bytes_length _ _ _ _ E) as Hl. pose proof (le_val_bound l (load_bytes_ok _ _ _ _ Hm E)) as Hb.
  rewrite Hl, Z2Nat.id in Hb by done. exact Hb.
Qed.

Lemma rd_s_bound ms n a v : mem_bytes ms -> n = 1 \/ n = 2 \/ n = 4 \/ n = 8 -> rd_s ms n a = Some v ->
  - 2 ^ 63 <= v < 2 ^ 63.
Proof.
  intros Hm Hn H. unfold rd_s in H. destruct (rd_u ms n a) as [x|] eqn:E; [|done]. injection H as <-.
  assert (Hx : 0 <= x < 2 ^ (8 * n)).
  { rewrite Z.pow_mul_r by lia. apply (rd_u_bound ms n a); [done|lia|done]. }
  pose proof (sext_range n x ltac:(lia) Hx) as Hr.
  pose proof (Z.pow_le_mono_r 2 (8 * n - 1) 63 ltac:(lia) ltac:(lia)). lia.
Qed.

(** ** Writing *)

(** What a source holds. *)
Definition holds (ms : mem) (buf : pb_src) (w : bytes) : Prop :=
  match buf with SRC_LOCAL l => l = w | SRC_AT a => load_bytes (length w) ms a = Some w end.

Lemma src_byte_spec ms buf w i b m : holds ms buf w -> w !! i = Some b -> ms ⊆ m ->
  src_byte buf (Z.of_nat i) m = Some (b, m).
Proof.
  intros Hh Hi Hm. destruct buf as [l|a]; cbn in *.
  - subst. unfold slift. by rewrite Nat2Z.id, Hi.
  - assert (E : rd_u ms 1 (a + Z.of_nat i) = Some b); [|by rewrite (load_u_reads _ _ _ _ _ E Hm)].
    apply load_bytes_lookup in Hh as [_ Hh]. pose proof (lookup_lt_Some _ _ _ Hi) as Hlt.
    unfold rd_u, rd. change (Z.to_nat 1) with 1%nat. cbn [load_bytes]. rewrite (Hh i Hlt), Hi. done.
Qed.

Lemma store_u1 a b : is_byte b -> store_u 1 a b = mem_store a [b].
Proof. intros H. unfold store_u. change (Z.to_nat 1) with 1%nat. cbn [le_bytes]. by rewrite Z.mod_small. Qed.

Lemma buf_write_loop_spec ms buf w dest rest pre m :
  holds ms buf w -> w = pre ++ rest -> bytes_ok w -> ms ⊆ m ->
  mapped m (dest + zlen pre) (zlen rest) ->
  (forall i, 0 <= i < zlen rest -> ms !! (dest + zlen pre + i) = None) ->
  exists m', buf_write_loop (length rest) dest buf (zlen pre) m = Some (tt, m') /\
    store_bytes rest (dest + zlen pre) m = Some m'.
Proof.
  intros Hh Hw Hok. revert pre m Hw. induction rest as [|b rest IH]; intros pre m Hw Hm Hmap Hd.
  - by exists m.
  - cbn [length buf_write_loop]. unfold sbind.
    assert (Hb : w !! length pre = Some b) by (rewrite Hw, lookup_app_r, Nat.sub_diag; done).
    rewrite (src_byte_spec _ _ _ _ _ _ Hh Hb Hm).
    assert (Hbyte : is_byte b) by (eapply Forall_lookup; eauto). rewrite store_u1 by done.
    cbn [length] in Hmap, Hd. destruct (Hmap 0 ltac:(lia)) as [c Hc]. rewrite Z.add_0_r in Hc.
    unfold mem_store. cbn [store_bytes]. rewrite Hc.
    set (m1 := <[dest + zlen pre := b]> m).
    assert (E1 : store_bytes [b] (dest + zlen pre) m = Some m1) by (cbn; by rewrite Hc).
    assert (Hm1 : ms ⊆ m1). { eapply store_bytes_frame; [exact E1|done|]. intros i Hi. apply Hd. cbn in Hi. lia. }
    destruct (IH (pre ++ [b]) m1) as (m' & E & Est).
    + by rewrite <- app_assoc.
    + done.
    + rewrite length_app. destruct (store_bytes_inv _ _ _ _ E1) as (_ & _ & Hdom). intros i Hi. apply Hdom.
      replace (dest + Z.of_nat (length pre + length [b]) + i) with (dest + zlen pre + (i + 1)) by (cbn; lia).
      apply Hmap. lia.
    + rewrite length_app. intros i Hi.
      replace (dest + Z.of_nat (length pre + length [b]) + i) with (dest + zlen pre + (i + 1)) by (cbn; lia).
      apply Hd. lia.
    + exists m'. rewrite length_app in E, Est. cbn [length] in E, Est.
      replace (zlen pre + 1) with (Z.of_nat (length pre + 1)) by lia. split; [exact E|].
      replace (dest + zlen pre + 1) with (dest + Z.of_nat (length pre + 1)) by lia. exact Est.
Qed.

Lemma encodes_write ms buf w : holds ms buf w -> bytes_ok w -> zlen w < 2 ^ 63 ->
  encodes ms (fun s => pb_write s buf (zlen w)) (emit w).
Proof.
  intros Hh Hok Hl. split.
  - intros s m _ Hc _. exists true, (u64 (bytes_written s + zlen w)), (oerrmsg s).
    unfold pb_write, callback_is_null, set_bytes_written. rewrite Hc. split; [done|]. split; [apply u64_is_u|done].
  - intros s m (Hc & Hs & Hb & Hm & Hmap & Hd). unfold pb_write, callback_is_null. rewrite Hc. cbn [negb].
    rewrite u64_small by (unfold is_u; lia). case_if.
    + eexists false, [], m, _. unfold PB_RETURN_OERROR, PB_SET_OERROR, sret. rewrite advance_nil.
      split; [done|]. split; [done|]. split; [cbn; lia|]. split; [done|]. intros w' [= <-].
      symmetry. apply Z.leb_gt. lia.
    + destruct (buf_write_loop_spec ms buf w (ostate s) w [] m) as (m' & E1 & Est); [done|done|done|done| | |].
      * intros i Hi. replace (ostate s + zlen [] + i) with (ostate s + i) by (cbn; lia). apply Hmap. lia.
      * intros i Hi. replace (ostate s + zlen [] + i) with (ostate s + i) by (cbn; lia). apply Hd. lia.
      * cbn [length] in E1, Est. change (Z.of_nat 0) with 0 in E1, Est. rewrite Z.add_0_r in Est.
        exists true, w, m', (oerrmsg s). split; [|split; [done|split; [lia|split; [done|]]]].
        -- unfold call_ocallback, buf_write, sbind. rewrite Hc, Nat2Z.id. rewrite E1.
           unfold sret. cbn -[u64]. rewrite u64_small by (unfold is_u; lia). done.
        -- intros w' [= <-]. symmetry. apply Z.leb_le. lia.
Qed.

(** ** Integers *)

Lemma land_7f v : Z.land v 0x7F = v mod 128.
Proof. exact (Z.land_ones v 7 ltac:(lia)). Qed.

Lemma varint_group v : u8 (Z.lor (Z.land v 0x7F) 0x80) = 128 + v mod 128.
Proof.
  rewrite land_7f, Z.lor_comm. pose proof (Z.mod_pos_bound v 128).
  pose proof (lor_shiftl_add 1 (v mod 128) 7 ltac:(lia) ltac:(unfold is_u; lia)) as E.
  change (Z.shiftl 1 7) with 128 in E. rewrite E, u8_mod, Z.mod_small by lia. done.
Qed.

Definition mask_last (l : bytes) : bytes :=
  take (length l - 1) l ++ map (Z.land 0x7F) (drop (length l - 1) l).

Lemma mask_last_cons b l : l <> [] -> mask_last (b :: l) = b :: mask_last l.
Proof.
  intros H. destruct l as [|c l]; [done|]. unfold mask_last. cbn [length Nat.sub]. rewrite !Nat.sub_0_r. done.
Qed.

Lemma varint_loop_spec n v : 0 < v < 128 ^ Z.of_nat n -> mask_last (varint_loop n v) = base128 n v.
Proof.
  revert v. induction n as [|n IH]; intros v Hv; [cbn in Hv; lia|]. cbn [varint_loop base128].
  rewrite (proj2 (Z.eqb_neq v 0)) by lia. rewrite varint_group, Z.shiftr_div_pow2 by lia. change (2 ^ 7) with 128.
  case_if.
  - rewrite (Z.div_small v) by lia.
    replace (varint_loop n 0) with ([] : bytes) by (by destruct n). unfold mask_last. cbn [length Nat.sub take drop map app].
    rewrite Z.land_comm, land_7f. f_equal. rewrite (Z.mod_small v) by lia.
    replace (128 + v) with (v + 1 * 128) by lia. rewrite Z.mod_add, Z.mod_small by lia. done.
  - assert (Hd : 0 < v / 128) by (apply Z.div_str_pos; lia). rewrite mask_last_cons.
    + f_equal. apply IH. split; [done|]. apply Z.div_lt_upper_bound; [lia|].
      rewrite Nat2Z.inj_succ, Z.pow_succ_r in Hv by lia. lia.
    + destruct n; cbn [varint_loop]; [cbn in Hv; lia|]. rewrite (proj2 (Z.eqb_neq _ 0)) by lia. done.
Qed.

Lemma varint_buffer_spec v : 0 < v -> is_u 64 v -> varint_buffer v = varint v.
Proof. intros H0 Hv. apply (varint_loop_spec 10). unfold is_u in Hv. lia. Qed.

Lemma pb_encode_varint_encodes ms v : is_u 64 v -> encodes ms (fun s => pb_encode_varint s v) (emit (varint v)).
Proof.
  intros Hv. unfold pb_encode_varint. destruct (v <=? 0x7F) eqn:E; bool_simpl.
  - rewrite varint_small by lia. unfold is_u in Hv. rewrite u8_small by (unfold is_u; lia).
    apply (encodes_write ms (SRC_LOCAL [v]) [v]); [done| |done]. constructor; [unfold is_u; lia|constructor].
  - rewrite varint_buffer_spec by (done || lia). apply (encodes_write ms (SRC_LOCAL _)); [done|apply varint_ok; lia|].
    pose proof (length_varint v). lia.
Qed.

(** Zigzag on machine words is zigzag on integers. *)
Lemma zigzagged v : - 2 ^ 63 <= v < 2 ^ 63 ->
  (if v <? 0 then u64 (Z.lnot (u64 (Z.shiftl (u64 v) 1))) else u64 (Z.shiftl (u64 v) 1)) = zigzag v.
Proof.
  intros Hv. unfold zigzag. destruct (Z.ltb_spec v 0).
  - rewrite (u64_mod v). replace (v mod 18446744073709551616) with (v + 2 ^ 64)
      by (apply (Z.mod_unique _ _ (-1)); lia).
    rewrite Z.shiftl_mul_pow2 by lia. change (2 ^ 1) with 2. unfold Z.lnot. rewrite !u64_mod.
    replace ((v + 2 ^ 64) * 2 mod 18446744073709551616) with (v * 2 + 2 ^ 64)
      by (apply (Z.mod_unique _ _ 1); lia).
    symmetry. apply (Z.mod_unique _ _ (-1)); lia.
  - rewrite (u64_small v) by (unfold is_u; lia). rewrite Z.shiftl_mul_pow2 by lia.
    rewrite u64_small by (unfold is_u; lia). lia.
Qed.

Lemma pb_encode_svarint_encodes ms v : - 2 ^ 63 <= v < 2 ^ 63 ->
  encodes ms (fun s => pb_encode_svarint s v) (emit (varint (zigzag v))).
Proof.
  intros Hv. unfold pb_encode_svarint. cbv zeta. rewrite zigzagged by done.
  apply pb_encode_varint_encodes, zigzag_range, Hv.
Qed.

Lemma u64_as_mod v : u64 v = v mod 2 ^ 64.
Proof. apply u64_mod. Qed.

Lemma fixed32_bytes v :
  [Z.land v 0xFF; Z.land (Z.shiftr v 8) 0xFF; Z.land (Z.shiftr v 16) 0xFF; Z.land (Z.shiftr v 24) 0xFF] = le_bytes 4 v.
Proof.
  cbn [le_bytes]. rewrite !Z.div_div by lia. rewrite !Z.shiftr_div_pow2 by lia.
  repeat apply (f_equal2 cons); try apply u8_mod. done.
Qed.

Lemma fixed64_bytes v :
  [Z.land v 0xFF; Z.land (Z.shiftr v 8) 0xFF; Z.land (Z.shiftr v 16) 0xFF; Z.land (Z.shiftr v 24) 0xFF;
   Z.land (Z.shiftr v 32) 0xFF; Z.land (Z.shiftr v 40) 0xFF; Z.land (Z.shiftr v 48) 0xFF;
   Z.land (Z.shiftr v 56) 0xFF] = le_bytes 8 v.
Proof.
  cbn [le_bytes]. rewrite !Z.div_div by lia. rewrite !Z.shiftr_div_pow2 by lia.
  repeat apply (f_equal2 cons); try apply u8_mod. done.
Qed.

(** The encoder of a fixed-width value writes the bytes the field has. *)
Lemma fixed_encodes ms n a (put : Z -> bytes) : mem_bytes ms -> 0 <= n <= 8 ->
  (forall v, put v = le_bytes (Z.to_nat n) v) ->
  encodes ms (fun s => let* v := load_u n a in pb_write s (SRC_LOCAL (put v)) n) (rd ms n a ≫= emit).
Proof.
  intros Hm Hn Hput. destruct (rd ms n a) as [l|] eqn:E; [|done]. cbn [mbind option_bind].
  pose proof (load_bytes_length _ _ _ _ E) as Hl. pose proof (load_bytes_ok _ _ _ _ Hm E) as Hok.
  assert (Hu : rd_u ms n a = Some (le_val l)) by (unfold rd_u; by rewrite E).
  pose proof (encodes_read ms (load_u n a) (rd_u ms n a) (fun v s => pb_write s (SRC_LOCAL (put v)) n)
                (fun v => emit (put v))) as H. rewrite Hu in H. cbn in H.
  rewrite Hput, <- Hl, le_bytes_le_val in H by done. apply H; [rewrite <- Hu; apply load_u_reads|].
  intros v [= <-]. rewrite Hput, <- Hl, le_bytes_le_val by done.
  replace n with (zlen l) by lia. apply encodes_write; [done|done|lia].
Qed.

(** ** Keys and strings *)

Definition field_range (f : pb_field_t) : bool :=
  forallb (fun x => (0 <=? x) && (x <? 2 ^ 32)) [tag f; data_size f; array_size f].

(** The members of a descriptor are of their C types. *)
Fixpoint field_ok (f : pb_field_t) : bool :=
  field_range f && match ptr f with PTR_SUBMSG l => forallb field_ok l | _ => true end.

Lemma field_ok_range f : field_ok f = true ->
  is_u 32 (tag f) /\ is_u 32 (data_size f) /\ is_u 32 (array_size f).
Proof.
  destruct f as [t ty off soff ds asz p]. cbn [field_ok]. intros [H _]%andb_prop. unfold field_range in H.
  cbn in H. unfold is_u. cbn. bool_simpl. lia.
Qed.

Lemma field_ok_submsg f fields : field_ok f = true -> ptr f = PTR_SUBMSG fields ->
  Forall (fun f => field_ok f = true) fields.
Proof.
  destruct f as [t ty off soff ds asz p]. cbn [field_ok ptr]. intros [_ H]%andb_prop ->.
  apply List.Forall_forall. intros f Hf. by apply (proj1 (forallb_forall _ _) H).
Qed.

Lemma ltype_range f : 0 <= ltype f < 16.
Proof.
  unfold ltype, PB_LTYPE, PB_LTYPE_MASK. change 0x0F with (Z.ones 4). rewrite Z.land_ones by lia.
  by apply Z.mod_pos_bound.
Qed.

(** Case analysis on the type of a field's data. *)
Ltac ltype_cases f :=
  let Hr := fresh "Hr" in pose proof (ltype_range f) as Hr;
  let E := fresh "Elt" in
  assert (E : ltype f = 0 \/ ltype f = 1 \/ ltype f = 2 \/ ltype f = 3 \/ ltype f = 4 \/ ltype f = 5 \/
    ltype f = 6 \/ ltype f = 7 \/ ltype f = 8 \/ ltype f = 9 \/ 10 <= ltype f < 16) by lia;
  destruct E as [E|[E|[E|[E|[E|[E|[E|[E|[E|[E|E]]]]]]]]]].

Ltac unfold_ltypes :=
  unfold PB_LTYPE_VARINT, PB_LTYPE_UVARINT, PB_LTYPE_SVARINT, PB_LTYPE_FIXED32, PB_LTYPE_FIXED64, PB_LTYPE_BYTES,
    PB_LTYPE_STRING, PB_LTYPE_SUBMESSAGE, PB_LTYPE_EXTENSION, PB_LTYPE_FIXED_LENGTH_BYTES in *.

Lemma wiretype_of_spec f : wiretype_of (ltype f) = wire_type f.
Proof.
  unfold wire_type. ltype_cases f; try (rewrite Elt; reflexivity).
  unfold wiretype_of. unfold_ltypes.
  repeat (case_if || lia || done).
Qed.

Lemma wire_type_range f wt : wire_type f = Some wt -> 0 <= wt < 8.
Proof. unfold wire_type. repeat case_if; intros [= <-]; lia. Qed.

Lemma pb_encode_tag_encodes ms wt n : is_u 32 n -> 0 <= wt < 8 ->
  encodes ms (fun s => pb_encode_tag s wt n) (emit (wire_key n wt)).
Proof.
  intros Hn Hwt. unfold pb_encode_tag, wire_key. cbv zeta.
  replace (Z.lor (u64 (Z.shiftl n 3)) wt) with (8 * n + wt).
  - apply pb_encode_varint_encodes. unfold is_u in *. lia.
  - rewrite u64_small by (rewrite Z.shiftl_mul_pow2 by lia; unfold is_u in *; lia).
    rewrite lor_shiftl_add by (unfold is_u in *; lia). lia.
Qed.

Lemma pb_encode_tag_for_field_encodes ms f : field_ok f = true ->
  encodes ms (fun s => pb_encode_tag_for_field s f) (key f).
Proof.
  intros (Ht & _)%field_ok_range. unfold pb_encode_tag_for_field, key. rewrite wiretype_of_spec.
  destruct (wire_type f) as [wt|] eqn:E; [|apply encodes_error].
  apply pb_encode_tag_encodes; [done|]. by eapply wire_type_range.
Qed.

Lemma pb_encode_string_encodes ms buf l : holds ms buf l -> bytes_ok l ->
  encodes ms (fun s => pb_encode_string s buf (zlen l)) (emit_delimited l).
Proof.
  intros Hh Hok. unfold emit_delimited. case_if; [|done]. unfold delimited.
  apply (encodes_seq ms (fun s => pb_encode_varint s (zlen l)) (fun s => pb_write s buf (zlen l))
           (emit (varint (zlen l))) (emit l)).
  - apply pb_encode_varint_encodes. unfold is_u. lia.
  - intros _ _. by apply encodes_write.
Qed.

Lemma rd_u1 (ms : mem) p : rd_u ms 1 p = ms !! p.
Proof.
  unfold rd_u, rd. change (Z.to_nat 1) with 1%nat. cbn [load_bytes]. destruct (ms !! p) as [b|]; [|done].
  reflexivity.
Qed.

Lemma cstring_spec ms fuel max p l : cstring ms fuel max p = Some l -> load_bytes (length l) ms p = Some l.
Proof.
  revert max p l. induction fuel as [|fuel IH]; intros max p l; cbn [cstring]; [done|]. case_if; [by intros [= <-]|].
  rewrite rd_u1. destruct (ms !! p) as [c|] eqn:Ec; [|done]. case_if; [by intros [= <-]|].
  destruct (cstring ms fuel _ _) as [l'|] eqn:El; [|done]. intros [= <-]. cbn [length load_bytes].
  by rewrite Ec, (IH _ _ _ El).
Qed.

Lemma strnlen_loop_reads ms fuel fuel' max n p l : (fuel <= fuel')%nat -> 0 <= n ->
  cstring ms fuel (max - n) p = Some l -> reads ms (strnlen_loop fuel' max n p) (Some (n + zlen l)).
Proof.
  revert fuel' n p l. induction fuel as [|fuel IH]; intros fuel' n p l Hf Hn; cbn [cstring]; [done|].
  destruct fuel' as [|fuel']; [lia|]. cbn [strnlen_loop]. destruct (max - n <=? 0) eqn:E; bool_simpl.
  - intros [= <-]. replace (negb (n <? max)) with true by (symmetry; apply negb_true_iff, Z.ltb_ge; lia).
    cbn. rewrite Z.add_0_r. apply reads_ret.
  - replace (negb (n <? max)) with false by (symmetry; apply negb_false_iff, Z.ltb_lt; lia). intros H v m Hv Hm.
    destruct (rd_u ms 1 p) as [c|] eqn:Ec; [|done]. unfold sbind. rewrite (load_u_reads _ _ _ _ _ Ec Hm).
    case_if; [injection H as <-; cbn in Hv; rewrite Z.add_0_r in Hv; by injection Hv as <-|].
    destruct (cstring ms fuel _ _) as [l'|] eqn:El; [|done]. injection H as <-. cbn [length] in Hv.
    apply (IH fuel' (n + 1) (p + 1) l'); [lia|lia| |rewrite <- Hv; f_equal; lia|done].
    replace (max - (n + 1)) with (max - n - 1) by lia. exact El.
Qed.

(** ** Submessages *)

(** After the length: the second pass, limited to the size of the first. *)
Definition submessage_body (sub : pb_ostream_t -> list pb_field_t -> Z -> M mem (bool * pb_ostream_t))
    (fields : list pb_field_t) (src size : Z) (s : pb_ostream_t) : M mem (bool * pb_ostream_t) :=
  if u64 (bytes_written s + size) >? max_size s then PB_RETURN_OERROR s "stream full"
  else
    let* (status, substream) := sub (mk_ostream (ocallback_ s) (ostate s) size 0 None) fields src in
    let s := set_bytes_written s (u64 (bytes_written s + bytes_written substream)) in
    let s := set_ostate s (ostate substream) in
    let s := set_oerrmsg s (oerrmsg substream) in
    if negb (bytes_written substream =? size) then PB_RETURN_OERROR s "submsg size changed"
    else sret (status, s).

Lemma submessage_body_writes ms sub fields p w :
  zlen w < 2 ^ 63 -> writes ms (fun s => sub s fields p) (Some w) ->
  writes ms (submessage_body sub fields p (zlen w)) (Some w).
Proof.
  intros Hl Hw s m H. pose proof H as (Hc & Hm & Hb & Hmax & Hmap & Hd). unfold submessage_body.
  rewrite u64_small by (unfold is_u; lia). case_if.
  - eexists false, [], m, _. rewrite advance_nil. split; [done|]. split; [done|]. split; [cbn; lia|]. split; [done|].
    intros w' [= <-]. symmetry. apply Z.leb_gt. lia.
  - destruct (Hw (mk_ostream (ocallback_ s) (ostate s) (zlen w) 0 None) m) as (ok & p2 & m2 & e & E2 & Est & Hp & Hok & Hfit).
    + unfold ready. cbn. split; [done|]. split; [done|]. split; [lia|]. split; [done|].
      split; [eapply mapped_sub; [exact Hmap|lia|lia]|]. intros i Hi. apply Hd. lia.
    + cbn in Hp. specialize (Hfit _ eq_refl). cbn in Hfit. rewrite (proj2 (Z.leb_le _ _) (Z.le_refl _)) in Hfit.
      subst ok. injection (Hok eq_refl) as <-. unfold sbind. rewrite E2. cbn in Est |- *.
      rewrite Z.eqb_refl. cbn. exists true, w, m2, e. rewrite u64_small by (unfold is_u; lia).
      split; [done|]. split; [done|]. split; [done|]. split; [done|]. intros w' [= <-]. symmetry. by apply Z.leb_le.
Qed.

Lemma pb_encode_submessage_encodes ms sub fields p r :
  encodes ms (fun s => sub s fields p) r -> encodes ms (fun s => pb_encode_submessage sub s fields p) (rdelim r).
Proof.
  destruct r as [r|]; [|done]. intros [Hs Hw].
  assert (Hsz : forall m, ms ⊆ m -> exists ok n e, sub PB_OSTREAM_SIZING fields p m =
    Some ((ok, mk_ostream OC_NULL NULL 0 n e), m) /\
    match r with Some w => ok = true /\ n = u64 (zlen w) | None => ok = false end).
  { intros m Hm. destruct (Hs PB_OSTREAM_SIZING m Hm eq_refl ltac:(unfold is_u; cbn; lia)) as (ok & n & e & E & _ & H).
    by exists ok, n, e. }
  destruct r as [w|]; cbn [rdelim].
  2: { split; intros s m H.
    - intros Hc Hb. destruct (Hsz m H) as (ok & n & e & E & ->). exists false, (bytes_written s), e.
      unfold pb_encode_submessage, sbind. rewrite E. cbn. unfold set_oerrmsg. by rewrite Hc.
    - pose proof H as (_ & Hm & Hb & _). destruct (Hsz m Hm) as (ok & n & e & E & ->). exists false, [], m, e.
      unfold pb_encode_submessage, sbind. rewrite E, advance_nil. cbn.
      split; [done|]. split; [done|]. split; [lia|done]. }
  unfold emit_delimited. case_if; [|done].
  assert (Hu : u64 (zlen w) = zlen w) by (apply u64_small; unfold is_u; lia).
  pose proof (pb_encode_varint_encodes ms (zlen w) ltac:(unfold is_u; lia)) as [Hvs Hvw].
  split; intros s m H.
  - intros Hc Hb. destruct (Hsz m H) as (ok & n & e & Es & -> & ->). rewrite Hu in Es.
    destruct (Hvs s m H Hc Hb) as (ok & n & e1 & E1 & Hn & -> & ->).
    unfold pb_encode_submessage, sbind. rewrite Es. cbn. rewrite E1. cbn. unfold pb_write. cbn.
    eexists true, _, e1. split; [reflexivity|]. split; [apply u64_is_u|]. split; [done|].
    unfold delimited. rewrite u64_add_l, length_app. f_equal. lia.
  - pose proof H as (Hc & Hm & _). destruct (Hsz m Hm) as (ok & n & e & Es & -> & ->). rewrite Hu in Es.
    enough (Heq : pb_encode_submessage sub s fields p m =
      eseq (fun s => pb_encode_varint s (zlen w)) (submessage_body sub fields p (zlen w)) s m).
    { rewrite Heq. apply (writes_seq ms _ _ _ (Some w) Hvw); [|done]. by apply submessage_body_writes; [lia|]. }
    unfold pb_encode_submessage, eseq, sbind. rewrite Es. cbn [negb bytes_written].
    destruct (Hvw s m H) as (ok & p1 & m1 & e1 & E1 & _). rewrite E1. destruct ok; cbn [negb]; [|done].
    unfold callback_is_null, advance. rewrite Hc. done.
Qed.

(** ** Values *)

Lemma is_int_size_spec n : is_int_size n = int_size n.
Proof.
  unfold is_int_size, int_size. symmetry. case_bool_decide as H; rewrite !elem_of_cons, elem_of_nil in H.
  - destruct H as [->|[->|[->|[->|[]]]]]; reflexivity.
  - symmetry. rewrite !orb_false_iff, !Z.eqb_neq. tauto.
Qed.

Section Values.
Context (ms : mem) (sub : pb_ostream_t -> list pb_field_t -> Z -> M mem (bool * pb_ostream_t))
  (submsg : list pb_field_t -> Z -> R) (f : pb_field_t).
Hypothesis Hms : mem_bytes ms.
Hypothesis Hf : field_ok f = true.
Hypothesis Hsub : forall fields p, ltype f = PB_LTYPE_SUBMESSAGE -> ptr f = PTR_SUBMSG fields ->
  encodes ms (fun s => sub s fields p) (submsg fields p).

Lemma pb_enc_varint_encodes p :
  encodes ms (fun s => pb_enc_varint s f p)
    (if int_size (data_size f) then v ← rd_s ms (data_size f) p; emit (varint (v mod 2 ^ 64)) else invalid).
Proof.
  unfold pb_enc_varint. rewrite is_int_size_spec. destruct (int_size _) eqn:E; [|apply encodes_error].
  apply encodes_read; [apply load_s_reads|]. intros v Hv. rewrite u64_mod.
  apply pb_encode_varint_encodes, Z.mod_pos_bound. lia.
Qed.

Lemma pb_enc_uvarint_encodes p :
  encodes ms (fun s => pb_enc_uvarint s f p)
    (if int_size (data_size f) then v ← rd_u ms (data_size f) p; emit (varint v) else invalid).
Proof.
  unfold pb_enc_uvarint. rewrite is_int_size_spec. destruct (int_size _) eqn:E; [|apply encodes_error].
  apply int_size_spec in E. apply encodes_read; [apply load_u_reads|]. intros v Hv.
  apply pb_encode_varint_encodes. apply rd_u_bound in Hv; [|done|lia].
  unfold is_u. destruct E as [E|[E|[E|E]]]; rewrite E in Hv; lia.
Qed.

Lemma pb_enc_svarint_encodes p :
  encodes ms (fun s => pb_enc_svarint s f p)
    (if int_size (data_size f) then v ← rd_s ms (data_size f) p; emit (varint (zigzag v)) else invalid).
Proof.
  unfold pb_enc_svarint. rewrite is_int_size_spec. destruct (int_size _) eqn:E; [|apply encodes_error].
  apply int_size_spec in E. apply encodes_read; [apply load_s_reads|]. intros v Hv.
  apply pb_encode_svarint_encodes. by eapply rd_s_bound.
Qed.

Lemma pb_enc_bytes_encodes p :
  encodes ms (fun s => pb_enc_bytes s f p)
    (if p =? NULL then emit (delimited [])
     else
       k ← rd_u ms 4 p;
       if (atype f =? PB_ATYPE_STATIC) && (data_size f <? k + 4) then invalid
       else l ← rd ms k (p + 4); emit_delimited l).
Proof.
  unfold pb_enc_bytes. case_if; [apply (pb_encode_string_encodes ms (SRC_AT NULL) []); [done|constructor]|].
  apply encodes_read; [apply load_u_reads|]. intros k Hk. apply rd_u_bound in Hk; [|done|lia].
  unfold PB_BYTES_ARRAY_T_ALLOCSIZE, offsetof_bytes. rewrite u64_small by (unfold is_u; lia). rewrite Z.gtb_ltb.
  case_if; [apply encodes_error|]. destruct (rd ms k (p + 4)) as [l|] eqn:El; [|done]. cbn [mbind option_bind].
  pose proof (load_bytes_length _ _ _ _ El) as Hl. replace k with (zlen l) by lia.
  apply pb_encode_string_encodes; [cbn; by rewrite Hl|]. by eapply load_bytes_ok.
Qed.

Lemma string_size_reads p max l : cstring ms (S (size ms)) max p = Some l -> p <> NULL ->
  reads ms (string_size p max) (Some (zlen l)).
Proof.
  intros Hl Hp v m Hv Hm. unfold string_size. rewrite (proj2 (Z.eqb_neq _ _) Hp). unfold sbind, sget.
  pose proof (map_subseteq_size _ _ Hm) as Hsz.
  eapply (strnlen_loop_reads ms (S (size ms)) _ max 0 p l); [lia|lia|by rewrite Z.sub_0_r|exact Hv|done].
Qed.

Lemma pb_enc_string_encodes p :
  encodes ms (fun s => pb_enc_string s f p)
    (if p =? NULL then emit (delimited [])
     else
       l ← cstring ms (S (size ms)) (if atype f =? PB_ATYPE_POINTER then 2 ^ 64 - 1 else data_size f) p;
       emit_delimited l).
Proof.
  unfold pb_enc_string. cbv zeta. change 0xffffffffffffffff with (2 ^ 64 - 1).
  destruct (Z.eqb_spec p NULL) as [->|Hp].
  - apply (encodes_read ms (string_size NULL _) (Some 0) (fun size s => pb_encode_string s (SRC_AT NULL) size)
      (fun _ => emit (delimited []))); [apply reads_ret|]. intros v [= <-].
    apply (pb_encode_string_encodes ms (SRC_AT NULL) []); [done|constructor].
  - destruct (cstring _ _ _ _) as [l|] eqn:El; [|done]. cbn [mbind option_bind].
    apply (encodes_read ms (string_size p _) (Some (zlen l)) (fun size s => pb_encode_string s (SRC_AT p) size)
      (fun _ => emit_delimited l)); [by apply string_size_reads|]. intros v [= <-].
    pose proof (cstring_spec _ _ _ _ _ El) as Hl. apply pb_encode_string_encodes; [done|by eapply load_bytes_ok].
Qed.

Lemma pb_enc_fixed_length_bytes_encodes p :
  encodes ms (fun s => pb_enc_fixed_length_bytes s f p) (l ← rd ms (data_size f) p; emit_delimited l).
Proof.
  unfold pb_enc_fixed_length_bytes. destruct (rd ms _ p) as [l|] eqn:El; [|done]. cbn [mbind option_bind].
  destruct (field_ok_range f Hf) as (_ & Hd & _). unfold is_u in Hd.
  pose proof (load_bytes_length _ _ _ _ El) as Hl. replace (data_size f) with (zlen l) by lia.
  apply pb_encode_string_encodes; [cbn; by rewrite Hl|]. by eapply load_bytes_ok.
Qed.

Lemma pb_enc_submessage_encodes p : ltype f = PB_LTYPE_SUBMESSAGE ->
  encodes ms (fun s => pb_enc_submessage sub s f p)
    match ptr f with
    | PTR_NULL => invalid
    | PTR_DEFAULT _ => None
    | PTR_SUBMSG fields => rdelim (submsg fields p)
    end.
Proof.
  intros Hl. unfold pb_enc_submessage. destruct (ptr f) as [| |fields] eqn:E; [apply encodes_error|done|].
  apply pb_encode_submessage_encodes. by apply Hsub.
Qed.

(** The encoder in the table for the type of the field encodes its value. *)
Lemma call_encoder_encodes p :
  encodes ms (fun s => call_encoder (PB_ENCODERS sub (ltype f)) s f p) (value ms submsg f p).
Proof.
  unfold value, PB_ENCODERS. ltype_cases f; try rewrite Elt.
  - apply pb_enc_varint_encodes.
  - apply pb_enc_uvarint_encodes.
  - apply pb_enc_svarint_encodes.
  - apply (fixed_encodes ms 4 p); [done|lia|apply fixed32_bytes].
  - apply (fixed_encodes ms 8 p); [done|lia|apply fixed64_bytes].
  - apply pb_enc_bytes_encodes.
  - apply pb_enc_string_encodes.
  - by apply pb_enc_submessage_encodes.
  - done.
  - apply pb_enc_fixed_length_bytes_encodes.
  - unfold_ltypes. by rewrite !(proj2 (Z.eqb_neq (ltype f) _)) by lia.
Qed.
End Values.

(** ** Arrays *)

Lemma addresses_S n p size : addresses (Z.of_nat (S n)) p size = p :: addresses (Z.of_nat n) (p + size) size.
Proof.
  unfold addresses. rewrite !Nat2Z.id. cbn [seq map]. f_equal; [lia|]. rewrite <- seq_shift, map_map.
  apply map_ext. intros i. lia.
Qed.

Lemma encode_elems_encodes ms func (g : Z -> R) n p size : (forall q, encodes ms (func q) (g q)) ->
  encodes ms (encode_elems n func p size) (rconcat (map g (addresses (Z.of_nat n) p size))).
Proof.
  intros Hg. revert p. induction n as [|n IH]; intros p; [apply encodes_nil|].
  rewrite addresses_S. cbn [map rconcat fold_right].
  apply (encodes_seq ms (func p) (encode_elems n func (p + size) size)); [apply Hg|]. intros _ _. apply IH.
Qed.

(** Values of a fixed size. *)
Lemma rconcat_fixed ms k (g : Z -> R) l r : (forall q, g q = rd ms (Z.of_nat k) q ≫= emit) ->
  rconcat (map g l) = Some r -> exists w, r = Some w /\ zlen w = Z.of_nat k * zlen l.
Proof.
  intros Hg. revert r. induction l as [|q l IH]; intros r; [by intros [= <-]; exists []; cbn; split; [|lia]|].
  cbn [map rconcat fold_right]. rewrite Hg. destruct (rd ms _ q) as [b|] eqn:E; [|done]. cbn.
  destruct (fold_right rseq (emit []) (map g l)) as [[w|]|] eqn:Er; [| |done].
  - intros [= <-]. destruct (IH _ Er) as (w' & [= <-] & Hw). exists (b ++ w). split; [done|].
    apply load_bytes_length in E. rewrite length_app. cbn [length]. lia.
  - intros [= <-]. by destruct (IH _ Er) as (w' & ? & _).
Qed.

Lemma length_addresses n p size : 0 <= n -> zlen (addresses n p size) = n.
Proof. intros H. unfold addresses. rewrite length_map, length_seq. lia. Qed.

Section Arrays.
Context (ms : mem) (sub : pb_ostream_t -> list pb_field_t -> Z -> M mem (bool * pb_ostream_t))
  (submsg : list pb_field_t -> Z -> R) (f : pb_field_t).
Hypothesis Hms : mem_bytes ms.
Hypothesis Hf : field_ok f = true.
Hypothesis Hsub : forall fields p, ltype f = PB_LTYPE_SUBMESSAGE -> ptr f = PTR_SUBMSG fields ->
  encodes ms (fun s => sub s fields p) (submsg fields p).

#[local] Abbreviation func := (PB_ENCODERS sub (ltype f)).

Lemma elems_encodes p count : 0 <= count ->
  encodes ms (encode_elems (Z.to_nat count) (fun p s => call_encoder func s f p) p (data_size f))
    (rconcat (map (value ms submsg f) (addresses count p (data_size f)))).
Proof.
  intros Hc. rewrite <- (Z2Nat.id count Hc) at 2. apply encode_elems_encodes. intros q. by apply call_encoder_encodes.
Qed.

(** The size of the first pass is the size of the second. *)
Lemma packed_size_spec p count r : 0 <= count < 2 ^ 32 ->
  rconcat (map (value ms submsg f) (addresses count p (data_size f))) = Some r ->
  forall m, ms ⊆ m -> exists ok n, packed_size f p count func m = Some ((ok, n), m) /\
    match r with Some w => ok = true /\ n = u64 (zlen w) | None => ok = false end.
Proof.
  intros Hc Hr m Hm. unfold packed_size. case_if; [|case_if].
  - destruct (rconcat_fixed ms 4 (value ms submsg f) _ _ ltac:(intros q; unfold value; rewrite E; done) Hr)
      as (w & -> & Hw). rewrite length_addresses in Hw by lia. exists true, (u64 (4 * count)). by rewrite Hw.
  - destruct (rconcat_fixed ms 8 (value ms submsg f) _ _ ltac:(intros q; unfold value; rewrite E0; done) Hr)
      as (w & -> & Hw). rewrite length_addresses in Hw by lia. exists true, (u64 (8 * count)). by rewrite Hw.
  - pose proof (elems_encodes p count ltac:(lia)) as He. rewrite Hr in He. destruct He as [Hs _].
    destruct (Hs PB_OSTREAM_SIZING m Hm eq_refl ltac:(unfold is_u; cbn; lia)) as (ok & n & e & E1 & _ & H1).
    unfold sbind. rewrite E1. by exists ok, n.
Qed.

Lemma encode_packed_encodes p count : 0 <= count < 2 ^ 32 ->
  encodes ms (fun s => encode_packed s f p count func)
    (rdelim (rconcat (map (value ms submsg f) (addresses count p (data_size f))))).
Proof.
  intros Hc. pose proof (elems_encodes p count ltac:(lia)) as He.
  pose proof (packed_size_spec p count) as Hsz.
  destruct (rconcat _) as [[w|]|] eqn:Er; [| |done]; specialize (Hsz _ Hc eq_refl); cbn [rdelim]; cbv beta iota in Hsz.
  - unfold emit_delimited. case_if; [|done]. destruct He as [_ Hew].
    assert (Hu : u64 (zlen w) = zlen w) by (apply u64_small; unfold is_u; lia). rewrite Hu in Hsz.
    pose proof (pb_encode_varint_encodes ms (zlen w) ltac:(unfold is_u; lia)) as [Hvs Hvw].
    split; intros s m H.
    + intros Hcb Hb. destruct (Hsz m H) as (ok & n & Es & -> & ->).
      destruct (Hvs s m H Hcb Hb) as (ok & n & e1 & E1 & Hn & -> & ->).
      unfold encode_packed, sbind. rewrite Es. cbn. rewrite E1. cbn. unfold pb_write. cbn.
      eexists true, _, e1. split; [reflexivity|]. split; [apply u64_is_u|]. split; [done|].
      unfold delimited. rewrite u64_add_l, length_app. f_equal. lia.
    + pose proof H as (Hcb & Hm & _). destruct (Hsz m Hm) as (ok & n & Es & -> & ->).
      enough (Heq : encode_packed s f p count func m =
        eseq (fun s => pb_encode_varint s (zlen w))
          (encode_elems (Z.to_nat count) (fun p s => call_encoder func s f p) p (data_size f)) s m).
      { rewrite Heq. by apply (writes_seq ms _ _ _ (Some w) Hvw). }
      unfold encode_packed, eseq, sbind. rewrite Es. cbn [negb].
      destruct (Hvw s m H) as (ok & p1 & m1 & e1 & E1 & _). rewrite E1. destruct ok; cbn [negb]; [|done].
      unfold callback_is_null, advance. rewrite Hcb. done.
  - split; intros s m H.
    + intros Hcb Hb. destruct (Hsz m H) as (ok & n & Es & ->). exists false, (bytes_written s), (oerrmsg s).
      unfold encode_packed, sbind. rewrite Es. cbn. split; [|done]. destruct s; cbn in *; by subst.
    + pose proof H as (_ & Hm & Hb & _). destruct (Hsz m Hm) as (ok & n & Es & ->). exists false, [], m, (oerrmsg s).
      unfold encode_packed, sbind. rewrite Es, advance_nil, set_oerrmsg_eta. cbn.
      split; [done|]. split; [done|]. split; [lia|done].
Qed.

Lemma encode_elem_encodes q :
  encodes ms (encode_elem f func q)
    (rseq (key f)
       (if (atype f =? PB_ATYPE_POINTER) && ((ltype f =? PB_LTYPE_STRING) || (ltype f =? PB_LTYPE_BYTES))
        then q ← rd_u ms 8 q; value ms submsg f q else value ms submsg f q)).
Proof.
  unfold encode_elem, is_string_or_bytes. destruct (_ && _).
  - apply (encodes_seq ms _ (fun s => let* q := load_ptr q in call_encoder func s f q));
      [by apply pb_encode_tag_for_field_encodes|]. intros _ _.
    apply (encodes_read ms (load_ptr q) (rd_u ms 8 q) (fun q s => call_encoder func s f q));
      [apply load_u_reads|]. intros v _. by apply call_encoder_encodes.
  - apply (encodes_seq ms _ (fun s => call_encoder func s f q));
      [by apply pb_encode_tag_for_field_encodes|]. intros _ _. by apply call_encoder_encodes.
Qed.

Lemma encode_array_encodes p count : is_u 32 count ->
  encodes ms (fun s => encode_array s f p count func) (repeated ms submsg f p count).
Proof.
  intros Hc. unfold is_u in Hc. unfold encode_array, repeated. cbv zeta. case_if; [apply encodes_nil|]. rewrite Z.gtb_ltb.
  destruct (_ && _); [apply encodes_error|]. case_if.
  - apply (encodes_seq ms (fun s => pb_encode_tag s PB_WT_STRING (tag f))); [|intros _ _; by apply encode_packed_encodes].
    apply pb_encode_tag_encodes; [by apply field_ok_range|done].
  - pose proof (encode_elems_encodes ms (encode_elem f func) _ (Z.to_nat count) p (data_size f) encode_elem_encodes) as H.
    rewrite Z2Nat.id in H by lia. exact H.
Qed.
End Arrays.

(** ** Messages *)

Section Iteration.
Context (ms : mem) (fields : list pb_field_t) (dest : Z).
Hypothesis Hterm : terminated fields = true.

#[local] Abbreviation L := (layout fields dest).

(** The conjunction of tests in order, until one fails. *)
Fixpoint tests (l : list (option bool)) : option bool :=
  match l with
  | [] => Some true
  | Some true :: l => tests l
  | x :: _ => x
  end.

(** A loop over the fields reads, or encodes, what its body does for each slot. *)
Lemma iter_fields_reads (step : pb_field_iter_t -> unit -> M mem (bool * unit)) (t : slot -> option bool) :
  (forall i s, L !! i = Some s -> reads ms (step (it_at fields dest i s) tt) (b ← t s; Some (b, tt))) ->
  forall fuel i s, L !! i = Some s -> (length L <= fuel + i)%nat ->
  reads ms (iter_fields fuel step (it_at fields dest i s) tt) (b ← tests (map t (drop i L)); Some (b, tt)).
Proof.
  intros Hstep fuel. induction fuel as [|fuel IH]; intros i s Hi Hf; [apply lookup_lt_Some in Hi; lia|].
  rewrite (drop_S L s i Hi). cbn [map tests iter_fields]. destruct (lookup_lt_is_Some_2 L 0) as [s0 H0];
    [apply lookup_lt_Some in Hi; lia|]. intros v m Hv Hm. specialize (Hstep i s Hi). unfold sbind.
  destruct (t s) as [b|]; [|done]. rewrite (Hstep (b, tt) m eq_refl Hm). destruct b; cbn [negb].
  - rewrite (pb_field_iter_next_spec _ _ _ _ _ Hterm Hi H0). destruct (L !! S i) as [s'|] eqn:Es.
    + cbn [slift]. apply (IH (S i) s' Es); [lia|done|done].
    + rewrite drop_ge in Hv by (by apply lookup_ge_None_1). cbn in Hv. by injection Hv as <-.
  - cbn in Hv. by injection Hv as <-.
Qed.

Lemma iter_fields_encodes step (r : slot -> R) :
  (forall i s, L !! i = Some s -> encodes ms (step (it_at fields dest i s)) (r s)) ->
  forall fuel i s, L !! i = Some s -> (length L <= fuel + i)%nat ->
  encodes ms (iter_fields fuel step (it_at fields dest i s)) (rconcat (map r (drop i L))).
Proof.
  intros Hstep fuel. induction fuel as [|fuel IH]; intros i s Hi Hf; [apply lookup_lt_Some in Hi; lia|].
  rewrite (drop_S L s i Hi). cbn [map rconcat fold_right]. destruct (lookup_lt_is_Some_2 L 0) as [s0 H0];
    [apply lookup_lt_Some in Hi; lia|].
  apply (encodes_seq ms (step (it_at fields dest i s))
    (fun a => let* (more, it) := slift (pb_field_iter_next (it_at fields dest i s)) in
              if more then iter_fields fuel step it a else sret (true, a))); [by apply Hstep|]. intros _ _.
  rewrite (pb_field_iter_next_spec _ _ _ _ _ Hterm Hi H0). destruct (L !! S i) as [s'|] eqn:Es.
  - apply (IH (S i) s' Es). lia.
  - rewrite drop_ge by (by apply lookup_ge_None_1). apply encodes_nil.
Qed.
End Iteration.

Lemma all_zero_reads ms n p : reads ms (all_zero n p) (zeros ms n p).
Proof.
  revert p. induction n as [|n IH]; intros p; cbn [all_zero zeros]; [apply reads_ret|].
  apply reads_bind; [apply load_u_reads|]. intros c _. destruct (c =? 0); [apply IH|apply reads_ret].
Qed.

(** What is tested, in order, until a field has not its default value. *)
Lemma rseq_key_nonempty f w : key f <> emit [] /\ rseq (key f) w <> emit [].
Proof.
  unfold key. destruct (wire_type f); [|by destruct w]. unfold wire_key, varint. cbn [base128]. case_if; (split; [by intros [=]|]);
    (destruct w as [[w|]|]; by intros [=]).
Qed.

Definition is_empty (r : option bytes) : bool := match r with Some [] => true | _ => false end.

(** A field that tells its absence by its value. *)
Lemma flat_field ms submsg f p r : flat f = true -> field_bytes ms submsg f p = Some r ->
  is_default ms submsg f p = Some (is_empty r).
Proof.
  intros Hf H. destruct f as [t ty off so ds asz pt]. cbn [flat] in Hf. set (f := mk_field t ty off so ds asz pt) in *.
  rewrite !andb_true_iff, !Z.eqb_eq, negb_true_iff in Hf. destruct Hf as [[[[Ha Hh] Ho] He] _].
  unfold field_bytes in H. rewrite He, Ha in H. change ((PB_ATYPE_STATIC =? PB_ATYPE_STATIC)) with true in H. cbn [orb] in H.
  unfold data_field, data_at in H. rewrite Ho, Hh, Ha in H. change (PB_ATYPE_STATIC =? PB_ATYPE_POINTER) with false in H.
  change (PB_HTYPE_OPTIONAL =? PB_HTYPE_REQUIRED) with false in H. change (PB_HTYPE_OPTIONAL =? PB_HTYPE_OPTIONAL) with true in H.
  change (0 =? 0) with true in H. cbn [negb] in H. cbv iota in H.
  destruct (is_default ms submsg f p) as [b|]; [|done]. cbn [fmap option_fmap option_map mbind option_bind] in H.
  f_equal. destruct b; cbn [negb present] in H; [by injection H as <-|].
  pose proof (proj2 (rseq_key_nonempty f (value ms submsg f p))) as Hk. rewrite H in Hk. by destruct r as [[|]|].
Qed.

Lemma tests_rconcat {A} (g : A -> R) (t : A -> option bool) l r :
  (forall x r, In x l -> g x = Some r -> t x = Some (is_empty r)) -> rconcat (map g l) = Some r ->
  tests (map t l) = Some (is_empty r).
Proof.
  revert r. induction l as [|x l IH]; intros r Ht H; [by injection H as <-|]. cbn [map rconcat fold_right tests] in *.
  destruct (g x) as [rx|] eqn:Eg; [|done]. rewrite (Ht x rx (or_introl eq_refl) Eg).
  destruct rx as [[|b w]|]; cbn [is_empty].
  - apply IH; [by intros; apply Ht; [right|]|]. by rewrite rseq_nil in H.
  - cbn [rseq] in H. destruct (fold_right _ _ _) as [[w'|]|]; [by injection H as <-..|done].
  - by injection H as <-.
Qed.

(** The test finds a submessage of such fields empty if it has no bytes on the wire. *)
Lemma pb_check_proto3_default_value_reads ms depth f p :
  (ltype f = PB_LTYPE_SUBMESSAGE -> forall l, ptr f = PTR_SUBMSG l -> all_fields flat l = true) ->
  reads ms (pb_check_proto3_default_value (S depth) f p) (is_default ms (message ms depth) f p).
Proof.
  revert f p. induction depth as [|depth IH]; intros f p Hfl; unfold is_default;
    cbn [pb_check_proto3_default_value]; destruct (atype f =? PB_ATYPE_STATIC) eqn:Ea; cbn [andb negb];
    try apply all_zero_reads;
    (case_if; [apply reads_bind; [apply load_u_reads|intros; apply reads_ret]|]);
    (case_if; [apply reads_bind; [apply load_u_reads|intros; apply reads_ret]|]);
    (case_if; [apply reads_ret|]); (case_if; [|apply all_zero_reads]);
    (destruct (ptr f) as [| |fields]; [intros ? ? [=]..|]); [intros ? ? [=]|].
  specialize (Hfl E2 fields eq_refl). cbn [message]. destruct (terminated fields) eqn:Ht; [|intros ? ? [=]].
  destruct (layout fields p) as [|s0 L'] eqn:EL.
  - destruct (pb_field_iter_begin_empty fields p Ht EL) as (it & Eb & _). rewrite Eb. intros v m [= <-] Hm. done.
  - assert (H0 : layout fields p !! 0%nat = Some s0) by (by rewrite EL).
    rewrite (pb_field_iter_begin_spec _ _ _ H0), <- EL. intros v m Hv Hm.
    destruct (rconcat (map _ (layout fields p))) as [r|] eqn:Er; [|done]. injection Hv as <-.
    unfold sbind at 1. cbn [slift]. unfold sbind at 1.
    assert (Hflat : forall i s, layout fields p !! i = Some s -> flat (s_field s) = true).
    { by apply layout_all. }
    pose proof (iter_fields_reads ms fields p Ht
      (fun it _ => let* f := slift (cur it) in
                   let* z := pb_check_proto3_default_value (S depth) f (pData it) in sret (z, tt))
      (fun s => is_default ms (message ms depth) (s_field s) (s_data s))) as Hit.
    rewrite (Hit) with (i := 0%nat) (v := (is_empty r, tt)); [done| |done| | |done].
    + intros i s Hi. cbv beta. rewrite (cur_it_at _ _ _ _ Hi).
      apply (reads_bind ms (pb_check_proto3_default_value (S depth) (s_field s) (s_data s))); [apply IH|].
      * intros Hlt l Hp. specialize (Hflat i s Hi). destruct (s_field s) as [t ty off so ds asz pt]. cbn [flat] in Hflat.
        cbn [ptr] in Hp. subst pt. rewrite !andb_true_iff in Hflat. destruct Hflat as [_ Hflat]. rewrite Hlt in Hflat. exact Hflat.
      * intros z _. apply reads_ret.
    + pose proof (length_layout fields p Ht). lia.
    + rewrite drop_0, (tests_rconcat (fun s => field_bytes ms (message ms depth) (s_field s) (s_data s)) _ _ r); [done| |exact Er].
      intros s rs Hin Hs. apply list_elem_of_In, list_elem_of_lookup_1 in Hin as [i Hi]. apply flat_field; [by eapply Hflat|exact Hs].
Qed.

Section Fields.
Context `{PbUser} (ms : mem) (depth : nat)
  (sub : pb_ostream_t -> list pb_field_t -> Z -> M mem (bool * pb_ostream_t)) (submsg : list pb_field_t -> Z -> R)
  (f : pb_field_t).
Hypothesis Hms : mem_bytes ms.
Hypothesis Hf : field_ok f = true.

Section Data.
Hypothesis Hsub : forall fields p, ltype f = PB_LTYPE_SUBMESSAGE -> ptr f = PTR_SUBMSG fields ->
  encodes ms (fun s => sub s fields p) (submsg fields p).

Lemma present_encodes q has :
  encodes ms (fun s => if (has : bool) then
      let* (ok, s) := pb_encode_tag_for_field s f in
      if negb ok then sret (false, s) else call_encoder (PB_ENCODERS sub (ltype f)) s f q
    else sret (true, s)) (present ms submsg f q has).
Proof.
  unfold present. destruct has; [|apply encodes_nil].
  apply (encodes_seq ms _ (fun s => call_encoder (PB_ENCODERS sub (ltype f)) s f q));
    [by apply pb_encode_tag_for_field_encodes|]. intros _ _. by apply call_encoder_encodes.
Qed.

Lemma encode_basic_data_encodes q size has :
  encodes ms (fun s => encode_basic_data sub s f q size has) (data_at ms submsg f q size has).
Proof.
  unfold encode_basic_data, data_at. cbv zeta. case_if; [case_if; [apply encodes_error|apply (present_encodes q true)]|].
  case_if.
  - apply encodes_read; [|intros v _; apply present_encodes]. destruct size; [|apply reads_ret].
    apply reads_bind; [apply load_u_reads|intros; apply reads_ret].
  - destruct size as [a|]; [|done]. cbn [mbind option_bind]. destruct (htype f =? PB_HTYPE_REPEATED).
    + apply encodes_read; [apply load_u_reads|]. intros n Hn. apply encode_array_encodes; [done|done|done|].
      apply rd_u_bound in Hn; [exact Hn|done|lia].
    + apply encodes_read; [apply load_u_reads|]. intros n _. apply present_encodes.
Qed.
End Data.

(** An array without room for an element takes no encoder of submessages. *)
Lemma no_items_encodes q size has : no_items f = true ->
  encodes ms (fun s => encode_basic_data sub s f q size has) (data_at ms submsg f q size has).
Proof.
  unfold no_items. intros [[Ha%Z.eqb_eq Hr%Z.eqb_eq]%andb_prop Hn%Z.leb_le]%andb_prop.
  unfold encode_basic_data, data_at. cbv zeta. rewrite Hr.
  change (PB_HTYPE_REPEATED =? PB_HTYPE_REQUIRED) with false. change (PB_HTYPE_REPEATED =? PB_HTYPE_OPTIONAL) with false.
  change (PB_HTYPE_REPEATED =? PB_HTYPE_REPEATED) with true. cbv iota. destruct size as [a|]; [|done]. cbn [mbind option_bind].
  apply encodes_read; [apply load_u_reads|]. intros n Hn1. apply rd_u_bound in Hn1; [|done|lia].
  unfold encode_array, repeated. cbv zeta. case_if; [apply encodes_nil|]. rewrite Ha, Z.gtb_ltb.
  change (PB_ATYPE_STATIC =? PB_ATYPE_POINTER) with false. cbn [negb andb]. rewrite (proj2 (Z.ltb_lt _ _)) by lia.
  apply encodes_error.
Qed.

Hypothesis Hsub : no_items f = false -> forall fields p, ltype f = PB_LTYPE_SUBMESSAGE -> ptr f = PTR_SUBMSG fields ->
  encodes ms (fun s => sub s fields p) (submsg fields p).
Hypothesis Hdepth : depth <> 0%nat.
Hypothesis Hdef : implicit f = true -> forall p,
  reads ms (pb_check_proto3_default_value depth f p) (is_default ms submsg f p).

Lemma data_encodes q size has :
  encodes ms (fun s => encode_basic_data sub s f q size has) (data_at ms submsg f q size has).
Proof. destruct (no_items f) eqn:E; [by apply no_items_encodes|]. apply encode_basic_data_encodes. by apply Hsub. Qed.

Lemma default_reads p : htype f = PB_HTYPE_OPTIONAL -> size_offset f = 0 ->
  reads ms (pb_check_proto3_default_value depth f p) (is_default ms submsg f p).
Proof.
  intros Hh Ho. destruct (atype f =? PB_ATYPE_STATIC) eqn:Ea; [apply Hdef; unfold implicit; by rewrite Ea, Hh, Ho|].
  unfold is_default. rewrite Ea. cbn [negb]. destruct depth; [done|].
  cbn [pb_check_proto3_default_value]. rewrite Ea. apply all_zero_reads.
Qed.

Lemma encode_basic_field_encodes p :
  encodes ms (fun s => encode_basic_field depth sub s f p) (data_field ms submsg f p).
Proof.
  unfold encode_basic_field, data_field. cbv zeta.
  replace (if negb (size_offset f =? 0) then Some (p + size_offset f) else None)
    with (if size_offset f =? 0 then None else Some (p + size_offset f)) by (by destruct (size_offset f =? 0)).
  apply encodes_read.
  - case_if; [apply reads_ret|]. case_if; [|apply reads_ret].
    apply (reads_bind ms (pb_check_proto3_default_value depth f p) (is_default ms submsg f p)
             (fun b => sret (negb b)) (fun b => Some (negb b)));
      [by apply default_reads|intros; apply reads_ret].
  - intros has _. case_if; [|apply data_encodes].
    apply (encodes_read ms (load_ptr p)); [apply load_u_reads|]. intros q _. apply data_encodes.
Qed.

(** A pointer that is NULL: no callback, or no extensions. *)
Lemma null_encodes p (k : Z -> pb_ostream_t -> M mem (bool * pb_ostream_t)) :
  (forall s, k NULL s = sret (true, s)) ->
  encodes ms (fun s => let* e := load_ptr p in k e s)
    (e ← rd_u ms 8 p; if e =? NULL then emit [] else None).
Proof.
  intros Hk. apply (encodes_read ms (load_ptr p)); [apply load_u_reads|]. intros e _.
  destruct (Z.eqb_spec e NULL) as [->|]; [|done]. pose proof (encodes_nil ms) as [Hs Hw].
  split; intros s m; cbv beta; rewrite Hk; [apply Hs|apply Hw].
Qed.

Lemma encode_step_encodes it p : cur it = Some f -> pData it = p ->
  encodes ms (encode_step depth sub it) (field_bytes ms submsg f p).
Proof.
  intros Hcur <-. unfold encode_step. rewrite Hcur.
  change (encodes ms (fun s => if ltype f =? PB_LTYPE_EXTENSION then encode_extension_field depth sub s f (pData it)
    else encode_field depth sub s f (pData it)) (field_bytes ms submsg f (pData it))).
  unfold field_bytes. case_if.
  - unfold encode_extension_field.
    apply (null_encodes (pData it) (fun e s => let* m := sget in encode_extensions depth sub (S (size m)) s e)). done.
  - unfold encode_field. case_if; [apply encode_basic_field_encodes|]. case_if; [|apply encodes_error].
    unfold encode_callback_field. apply (null_encodes (pData it) (fun e s => _)). done.
Qed.
End Fields.

Lemma implicit_ok_inv f l : implicit_ok f = true -> no_items f = false -> ltype f = PB_LTYPE_SUBMESSAGE -> ptr f = PTR_SUBMSG l ->
  (implicit f = true -> all_fields flat l = true) /\ all_fields implicit_ok l = true.
Proof.
  destruct f as [t ty off so ds asz pt]. cbn [implicit_ok]. intros H Hn Hl Hp. rewrite Hl, Hn in H. cbn [ptr] in Hp. subst pt.
  change (PB_LTYPE_SUBMESSAGE =? PB_LTYPE_SUBMESSAGE) with true in H. cbn [negb andb] in H. apply andb_prop in H as [H1 H2]. split.
  - intros Hi. rewrite Hi in H1. exact H1.
  - exact H2.
Qed.

(** The whole message. *)
Lemma pb_encode_encodes `{PbUser} ms depth fields p : mem_bytes ms -> Forall (fun f => field_ok f = true) fields ->
  all_fields implicit_ok fields = true ->
  encodes ms (fun s => pb_encode depth s fields p) (message ms depth fields p).
Proof.
  intros Hms. revert fields p. induction depth as [|depth IH]; intros fields p Hf Himp; [done|].
  cbn [message]. destruct (terminated fields) eqn:Ht; [|done]. cbn [pb_encode]. unfold pb_encode_body.
  destruct (layout fields p) as [|s0 L'] eqn:EL.
  - destruct (pb_field_iter_begin_empty fields p Ht EL) as (it & Eb & _). rewrite Eb. apply encodes_nil.
  - assert (H0 : layout fields p !! 0%nat = Some s0) by (by rewrite EL).
    rewrite (pb_field_iter_begin_spec _ _ _ H0), <- EL.
    apply (iter_fields_encodes ms fields p Ht (encode_step (S depth) (pb_encode depth))
      (fun s => field_bytes ms (message ms depth) (s_field s) (s_data s))) with (i := 0%nat).
    + intros i s Hi. destruct (layout_lookup _ _ _ _ Hi) as [Hl _].
      pose proof (Forall_lookup_1 _ _ _ _ Hf Hl) as Hfs. pose proof (proj1 (layout_all _ _ _) Himp _ _ Hi) as Hif.
      apply encode_step_encodes; [done|done| |done| |by apply cur_it_at|done].
      * intros Hn fs q Hlt Hp. apply IH; [exact (field_ok_submsg _ _ Hfs Hp)|exact (proj2 (implicit_ok_inv _ _ Hif Hn Hlt Hp))].
      * intros Hi' q. apply pb_check_proto3_default_value_reads. intros Hlt l Hp.
        refine (proj1 (implicit_ok_inv _ _ Hif _ Hlt Hp) Hi').
        unfold implicit in Hi'. apply andb_prop in Hi' as [[_ Hh%Z.eqb_eq]%andb_prop _]. unfold no_items. rewrite Hh.
        change (PB_HTYPE_OPTIONAL =? PB_HTYPE_REPEATED) with false. by rewrite andb_false_r.
    + done.
    + pose proof (length_layout fields p Ht). lia.
Qed.

(** * What pb_encode writes *)

(** C5. Encoding into a buffer gives the message its bytes, as the wire format has them, if the
    buffer has room for them, and fails otherwise or if the structure is not a valid message;
    nothing is ever written outside the buffer. A field without a presence flag is left out
    if its value is zero or empty, and a submessage without one if all its fields are left
    out; the latter for submessages whose own fields are all without presence flags and not
    arrays, at any level ([implicit_ok]). For others the code differs: see
    [pb_encode_drops_array] of PbEdges.v. *)
Theorem pb_encode_wire `{PbUser} ms depth fields p r buf size m :
  mem_bytes ms -> Forall (fun f => field_ok f = true) fields -> all_fields implicit_ok fields = true ->
  message ms depth fields p = Some r ->
  ms ⊆ m -> 0 <= size < 2 ^ 63 -> mapped m buf size -> (forall i, 0 <= i < size -> ms !! (buf + i) = None) ->
  exists ok out e m', pb_encode depth (pb_ostream_from_buffer buf size) fields p m =
      Some (ok, mk_ostream OC_BUF_WRITE (buf + zlen out) size (zlen out) e, m') /\
    store_bytes out buf m = Some m' /\ zlen out <= size /\
    (ok = true -> r = Some out) /\ ok = match r with Some w => zlen w <=? size | None => false end.
Proof.
  intros Hms Hf Himp Hr Hm Hs Hmap Hd. pose proof (pb_encode_encodes ms depth fields p Hms Hf Himp) as He. rewrite Hr in He.
  destruct He as [_ Hw]. destruct (Hw (pb_ostream_from_buffer buf size) m) as (ok & out & m' & e & E & Est & Hl & Hok & Hfit).
  - unfold ready. cbn. rewrite Z.sub_0_r. split; [done|]. split; [done|]. split; [lia|]. split; [lia|]. split; done.
  - exists ok, out, e, m'. split; [exact E|]. split; [done|]. split; [exact Hl|]. split; [done|].
    destruct r as [w|]; [by apply Hfit|]. destruct ok; [by specialize (Hok eq_refl)|done].
Qed.

(** The size that pb_get_encoded_size computes is the number of bytes pb_encode
    writes, and it fails on the same structures. *)
Theorem pb_get_encoded_size_exact `{PbUser} ms depth fields p r m :
  mem_bytes ms -> Forall (fun f => field_ok f = true) fields -> all_fields implicit_ok fields = true ->
  message ms depth fields p = Some r -> ms ⊆ m ->
  pb_get_encoded_size depth fields p m = Some ((fun w => u64 (zlen w)) <$> r, m).
Proof.
  intros Hms Hf Himp Hr Hm. pose proof (pb_encode_encodes ms depth fields p Hms Hf Himp) as He. rewrite Hr in He.
  destruct He as [Hs _].
  destruct (Hs PB_OSTREAM_SIZING m Hm eq_refl ltac:(unfold is_u; cbn; lia)) as (ok & n & e & E & _ & H1).
  unfold pb_get_encoded_size, sbind. rewrite E. destruct r as [w|]; [|by rewrite H1]. by destruct H1 as [-> ->].
Qed.

#[local] Existing Instance no_user.

Definition sample_mem : mem := region 1000 sample_struct ∪ region 3000 (zrepeat 20 0).

Lemma sample_bytes_ok : bytes_ok sample_struct.
Proof. repeat constructor; unfold is_u; lia. Qed.

Lemma sample_fields_ok : Forall (fun f => field_ok f = true) sample_fields /\ all_fields implicit_ok sample_fields = true.
Proof. split; [repeat constructor|done]. Qed.

Lemma pb_encode_wire_witness : exists ok out e m',
  pb_encode 2 (pb_ostream_from_buffer 3000 20) sample_fields 1000 sample_mem =
    Some (ok, mk_ostream OC_BUF_WRITE (3000 + zlen out) 20 (zlen out) e, m') /\
  store_bytes out 3000 sample_mem = Some m' /\ zlen out <= 20 /\
  (ok = true -> Some sample_wire = Some out) /\ ok = (zlen sample_wire <=? 20).
Proof.
  apply (pb_encode_wire (region 1000 sample_struct) 2 sample_fields 1000 (Some sample_wire) 3000 20 sample_mem).
  - apply region_bytes, sample_bytes_ok.
  - apply sample_fields_ok.
  - apply sample_fields_ok.
  - apply sample_message.
  - apply map_union_subseteq_l.
  - lia.
  - apply mapped_union_r. apply (region_mapped 3000 (zrepeat 20 0)). by vm_compute.
  - intros i Hi. apply region_outside. change (zlen sample_struct) with 24. lia.
Defined.

Lemma pb_get_encoded_size_exact_witness :
  pb_get_encoded_size 2 sample_fields 1000 sample_mem = Some (Some 16, sample_mem).
Proof.
  apply (pb_get_encoded_size_exact (region 1000 sample_struct) 2 sample_fields 1000 (Some sample_wire) sample_mem).
  - apply region_bytes, sample_bytes_ok.
  - apply sample_fields_ok.
  - apply sample_fields_ok.
  - apply sample_message.
  - apply map_union_subseteq_l.
Defined.

(** A submessage without a presence flag that the theorems are about, empty and not. *)
Definition implicit_fields : list pb_field_t :=
  [mk_field 1 0x17 0 0 4 0 (PTR_SUBMSG [mk_field 1 0x10 0 0 4 0 PTR_NULL; PB_LAST_FIELD]); PB_LAST_FIELD].

Example implicit_message :
  all_fields implicit_ok implicit_fields = true /\
  message (region 1000 [0; 0; 0; 0]) 2 implicit_fields 1000 = emit [] /\
  message (region 1000 [3; 0; 0; 0]) 2 implicit_fields 1000 = emit [10; 2; 8; 3].
Proof. vm_compute. by split_and!. Qed.
