(* ===== verification/PbDecode.v ===== *)
(** * nanopb: the decoder

    Models src/bubble/Pods/nanopb/pb_decode.c as the build configures it, without
    malloc. A function that reads into a local variable of its caller returns what it
    read. As in the encoder, the functions on the cycle of fields and messages take
    the decoder of submessages as an argument and [pb_decode_noinit] closes the cycle
    by recursion on the depth of the descriptors. A loop that consumes its stream
    runs on fuel one more than the bytes the stream has left. *)

From Stdlib Require Import ZArith Lia String.
From stdpp Require Import base list option gmap.
From S2P Require Import Prelude ByteMem Pb PbWire PbEncode.

#[local] Open Scope string_scope.
#[local] Open Scope list_scope.
#[local] Open Scope Z_scope.

(** * Input streams *)

Definition set_istate (s : pb_istream_t) (p : Z) : pb_istream_t :=
  mk_istream (icallback_ s) p (bytes_left s) (ierrmsg s).
Definition set_bytes_left (s : pb_istream_t) (n : Z) : pb_istream_t :=
  mk_istream (icallback_ s) (istate s) n (ierrmsg s).

(** [buf[i] = source[i]] for [n] indices from [i]; the result is what was read. *)
Fixpoint buf_read_loop (n : nat) (source : Z) (buf : pb_dst) (i : Z) : M mem bytes :=
  match n with
  | O => sret []
  | S n =>
      let* b := load_u 1 (source + i) in
      match buf with DST_AT a => store_u 1 (a + i) b | _ => sret tt end ;;;
      let* l := buf_read_loop n source buf (i + 1) in
      sret (b :: l)
  end.

Definition buf_read (source : Z) (buf : pb_dst) (count : Z) : M mem (bool * bytes * Z) :=
  let* l := match buf with DST_NULL => sret [] | _ => buf_read_loop (Z.to_nat count) source buf 0 end in
  sret (true, l, source + count).

Definition call_icallback (s : pb_istream_t) (buf : pb_dst) (count : Z) : M mem (bool * bytes * pb_istream_t) :=
  let* (ok, l, p) :=
    match icallback_ s with
    | IC_BUF_READ => buf_read (istate s) buf count
    | IC_USER f => f (istate s) buf count
    end in
  sret (ok, l, set_istate s p).

Definition read_error (s : pb_istream_t) (msg : string) : M mem (bool * bytes * pb_istream_t) :=
  sret (false, [], PB_SET_IERROR s msg).

(** pb_read where it does not skip input. *)
Definition pb_read_direct (s : pb_istream_t) (buf : pb_dst) (count : Z) : M mem (bool * bytes * pb_istream_t) :=
  if bytes_left s <? count then read_error s "end-of-stream"
  else
    let* (ok, l, s) := call_icallback s buf count in
    if negb ok then read_error s "io error"
    else sret (true, l, set_bytes_left s (u64 (bytes_left s - count))).

Fixpoint skip_loop (fuel : nat) (s : pb_istream_t) (count : Z) : M mem (bool * bytes * pb_istream_t) :=
  match fuel with
  | O => sstuck
  | S fuel =>
      if count >? 16 then
        let* (ok, _, s) := pb_read_direct s DST_LOCAL 16 in
        if negb ok then sret (false, [], s) else skip_loop fuel s (count - 16)
      else pb_read_direct s DST_LOCAL count
  end.

Definition pb_read (s : pb_istream_t) (buf : pb_dst) (count : Z) : M mem (bool * bytes * pb_istream_t) :=
  match buf, icallback_ s with
  | DST_NULL, IC_USER _ => skip_loop (S (Z.to_nat (count / 16))) s count
  | _, _ => pb_read_direct s buf count
  end.

(** For a caller that does not use the bytes. *)
Definition pb_read_ (s : pb_istream_t) (buf : pb_dst) (count : Z) : M mem (bool * pb_istream_t) :=
  let* (ok, _, s) := pb_read s buf count in sret (ok, s).

(** Reads a byte into a local variable. *)
Definition pb_readbyte (s : pb_istream_t) : M mem (option Z * pb_istream_t) :=
  if bytes_left s =? 0 then sret (None, PB_SET_IERROR s "end-of-stream")
  else
    let* (ok, l, s) := call_icallback s DST_LOCAL 1 in
    if negb ok then sret (None, PB_SET_IERROR s "io error")
    else
      let* b := slift (l !! 0%nat) in
      sret (Some b, set_bytes_left s (u64 (bytes_left s - 1))).

Definition pb_istream_from_buffer (buf bufsize : Z) : pb_istream_t :=
  mk_istream IC_BUF_READ buf bufsize None.

(** * Helper functions *)

(** The loop of the two varint decoders, for results of [width] bits, to which [wrap]
    converts; [bitpos] is a uint_fast8_t. *)
Fixpoint varint_groups (width : Z) (wrap : Z -> Z) (fuel : nat) (s : pb_istream_t) (bitpos result : Z) :
    M mem (option Z * pb_istream_t) :=
  match fuel with
  | O => sstuck
  | S fuel =>
      if bitpos >=? width then sret (None, PB_SET_IERROR s "varint overflow")
      else
        let* (b, s) := pb_readbyte s in
        match b with
        | None => sret (None, s)
        | Some byte =>
            let result := Z.lor result (wrap (Z.shiftl (Z.land byte 0x7F) bitpos)) in
            let bitpos := u8 (bitpos + 7) in
            if negb (Z.land byte 0x80 =? 0) then varint_groups width wrap fuel s bitpos result
            else sret (Some result, s)
        end
  end.

Definition pb_decode_varint32 (s : pb_istream_t) : M mem (option Z * pb_istream_t) :=
  let* (b, s) := pb_readbyte s in
  match b with
  | None => sret (None, s)
  | Some byte =>
      if Z.land byte 0x80 =? 0 then sret (Some byte, s)
      else varint_groups 32 u32 5 s 7 (Z.land byte 0x7F)
  end.

Definition pb_decode_varint (s : pb_istream_t) : M mem (option Z * pb_istream_t) := varint_groups 64 u64 11 s 0 0.

Fixpoint skip_varint_loop (fuel : nat) (s : pb_istream_t) : M mem (bool * pb_istream_t) :=
  match fuel with
  | O => sstuck
  | S fuel =>
      let* (ok, l, s) := pb_read s DST_LOCAL 1 in
      if negb ok then sret (false, s)
      else
        let* byte := slift (l !! 0%nat) in
        if negb (Z.land byte 0x80 =? 0) then skip_varint_loop fuel s else sret (true, s)
  end.

Definition pb_skip_varint (s : pb_istream_t) : M mem (bool * pb_istream_t) :=
  skip_varint_loop (S (Z.to_nat (bytes_left s))) s.

Definition pb_skip_string (s : pb_istream_t) : M mem (bool * pb_istream_t) :=
  let* (length, s) := pb_decode_varint32 s in
  match length with
  | None => sret (false, s)
  | Some length => pb_read_ s DST_NULL length
  end.

(** The results are the status, [wire_type], [tag] and [eof]. *)
Definition pb_decode_tag (s : pb_istream_t) : M mem (bool * Z * Z * bool * pb_istream_t) :=
  let* (temp, s) := pb_decode_varint32 s in
  match temp with
  | None => sret (false, 0, 0, bytes_left s =? 0, s)
  | Some temp =>
      if temp =? 0 then sret (false, 0, 0, true, s)
      else sret (true, Z.land temp 7, Z.shiftr temp 3, false, s)
  end.

Definition pb_skip_field (s : pb_istream_t) (wire_type : Z) : M mem (bool * pb_istream_t) :=
  if wire_type =? PB_WT_VARINT then pb_skip_varint s
  else if wire_type =? PB_WT_64BIT then pb_read_ s DST_NULL 8
  else if wire_type =? PB_WT_STRING then pb_skip_string s
  else if wire_type =? PB_WT_32BIT then pb_read_ s DST_NULL 4
  else PB_RETURN_IERROR s "invalid wire_type".

Fixpoint raw_varint_loop (fuel : nat) (s : pb_istream_t) (buf size max_size : Z) : M mem (bool * Z * pb_istream_t) :=
  match fuel with
  | O => sstuck
  | S fuel =>
      let size := size + 1 in
      if size >? max_size then sret (false, size, s)
      else
        let* (ok, s) := pb_read_ s (DST_AT buf) 1 in
        if negb ok then sret (false, size, s)
        else
          let* byte := load_u 1 buf in
          if negb (Z.land byte 0x80 =? 0) then raw_varint_loop fuel s (buf + 1) size max_size
          else sret (true, size, s)
  end.

(** The results are the status and [*size]. *)
Definition read_raw_value (s : pb_istream_t) (wire_type buf max_size : Z) : M mem (bool * Z * pb_istream_t) :=
  if wire_type =? PB_WT_VARINT then raw_varint_loop (S (Z.to_nat max_size)) s buf 0 max_size
  else if wire_type =? PB_WT_64BIT then let* (ok, s) := pb_read_ s (DST_AT buf) 8 in sret (ok, 8, s)
  else if wire_type =? PB_WT_32BIT then let* (ok, s) := pb_read_ s (DST_AT buf) 4 in sret (ok, 4, s)
  else let* (ok, s) := PB_RETURN_IERROR s "invalid wire_type" in sret (ok, max_size, s).

(** The results are the substream and the stream. *)
Definition pb_make_string_substream (s : pb_istream_t) : M mem (option pb_istream_t * pb_istream_t) :=
  let* (size, s) := pb_decode_varint32 s in
  match size with
  | None => sret (None, s)
  | Some size =>
      if bytes_left s <? size then sret (None, PB_SET_IERROR s "parent stream too short")
      else sret (Some (set_bytes_left s size), set_bytes_left s (u64 (bytes_left s - size)))
  end.

Definition pb_close_string_substream (s substream : pb_istream_t) : M mem (bool * pb_istream_t) :=
  let* (ok, substream) :=
    if negb (bytes_left substream =? 0) then pb_read_ substream DST_NULL (bytes_left substream)
    else sret (true, substream) in
  if negb ok then sret (false, s)
  else sret (true, mk_istream (icallback_ s) (istate substream) (bytes_left s) (ierrmsg substream)).

(** * Field decoders *)

Definition pb_decoder_t : Type := pb_istream_t -> pb_field_t -> Z -> M mem (bool * pb_istream_t).

(** Runs the rest with a decoded value, or returns false. *)
Definition with_value {A} (x : M mem (option A * pb_istream_t))
    (k : A -> pb_istream_t -> M mem (bool * pb_istream_t)) : M mem (bool * pb_istream_t) :=
  let* (v, s) := x in
  match v with None => sret (false, s) | Some v => k v s end.

Definition pb_decode_svarint (s : pb_istream_t) : M mem (option Z * pb_istream_t) :=
  let* (value, s) := pb_decode_varint s in
  match value with
  | None => sret (None, s)
  | Some value =>
      if negb (Z.land value 1 =? 0) then sret (Some (sext 8 (u64 (Z.lnot (Z.shiftr value 1)))), s)
      else sret (Some (sext 8 (Z.shiftr value 1)), s)
  end.

Definition pb_decode_fixed32 (s : pb_istream_t) (dest : Z) : M mem (bool * pb_istream_t) :=
  let* (ok, l, s) := pb_read s DST_LOCAL 4 in
  if negb ok then sret (false, s)
  else
    match l with
    | [b0; b1; b2; b3] =>
        store_u 4 dest (Z.lor (Z.lor (Z.lor (Z.shiftl b0 0) (Z.shiftl b1 8)) (Z.shiftl b2 16)) (Z.shiftl b3 24)) ;;;
        sret (true, s)
    | _ => sstuck
    end.

Definition pb_decode_fixed64 (s : pb_istream_t) (dest : Z) : M mem (bool * pb_istream_t) :=
  let* (ok, l, s) := pb_read s DST_LOCAL 8 in
  if negb ok then sret (false, s)
  else
    match l with
    | [b0; b1; b2; b3; b4; b5; b6; b7] =>
        store_u 8 dest
          (Z.lor (Z.lor (Z.lor (Z.lor (Z.lor (Z.lor (Z.lor (Z.shiftl b0 0) (Z.shiftl b1 8)) (Z.shiftl b2 16))
            (Z.shiftl b3 24)) (Z.shiftl b4 32)) (Z.shiftl b5 40)) (Z.shiftl b6 48)) (Z.shiftl b7 56)) ;;;
        sret (true, s)
    | _ => sstuck
    end.

(** [*(T* )dest = (T)v], where T has [n] bytes, and the value stored. *)
Definition store_s (n dest v : Z) : M mem Z := store_u n dest v ;;; sret (sext n (v mod 2 ^ (8 * n))).
Definition store_t (n dest v : Z) : M mem Z := store_u n dest v ;;; sret (v mod 2 ^ (8 * n)).

(** Stores a value in a field of an integer type and checks that it fits. *)
Definition store_clamped (store : Z -> Z -> Z -> M mem Z) (s : pb_istream_t) (field : pb_field_t) (dest value : Z) :
    M mem (bool * pb_istream_t) :=
  if is_int_size (data_size field) then
    let* clamped := store (data_size field) dest value in
    if negb (clamped =? value) then PB_RETURN_IERROR s "integer too large" else sret (true, s)
  else PB_RETURN_IERROR s "invalid data_size".

Definition pb_dec_varint (s : pb_istream_t) (field : pb_field_t) (dest : Z) : M mem (bool * pb_istream_t) :=
  with_value (pb_decode_varint s) (fun value s =>
    let svalue := if data_size field =? 8 then sext 8 value else sext 4 (u32 value) in
    store_clamped store_s s field dest svalue).

Definition pb_dec_uvarint (s : pb_istream_t) (field : pb_field_t) (dest : Z) : M mem (bool * pb_istream_t) :=
  with_value (pb_decode_varint s) (fun value s => store_clamped store_t s field dest value).

Definition pb_dec_svarint (s : pb_istream_t) (field : pb_field_t) (dest : Z) : M mem (bool * pb_istream_t) :=
  with_value (pb_decode_svarint s) (fun value s => store_clamped store_s s field dest value).

Definition pb_dec_fixed32 (s : pb_istream_t) (field : pb_field_t) (dest : Z) : M mem (bool * pb_istream_t) :=
  pb_decode_fixed32 s dest.

Definition pb_dec_fixed64 (s : pb_istream_t) (field : pb_field_t) (dest : Z) : M mem (bool * pb_istream_t) :=
  pb_decode_fixed64 s dest.

Definition pb_dec_bytes (s : pb_istream_t) (field : pb_field_t) (dest : Z) : M mem (bool * pb_istream_t) :=
  with_value (pb_decode_varint32 s) (fun size s =>
    if size >? PB_SIZE_MAX then PB_RETURN_IERROR s "bytes overflow"
    else
      let alloc_size := PB_BYTES_ARRAY_T_ALLOCSIZE size in
      if size >? alloc_size then PB_RETURN_IERROR s "size too large"
      else if atype field =? PB_ATYPE_POINTER then PB_RETURN_IERROR s "no malloc support"
      else if alloc_size >? data_size field then PB_RETURN_IERROR s "bytes overflow"
      else
        store_u sizeof_pb_size_t dest size ;;;
        pb_read_ s (DST_AT (dest + offsetof_bytes)) size).

Definition pb_dec_string (s : pb_istream_t) (field : pb_field_t) (dest : Z) : M mem (bool * pb_istream_t) :=
  with_value (pb_decode_varint32 s) (fun size s =>
    let alloc_size := u32 (size + 1) in
    if alloc_size <? size then PB_RETURN_IERROR s "size too large"
    else if atype field =? PB_ATYPE_POINTER then PB_RETURN_IERROR s "no malloc support"
    else if alloc_size >? data_size field then PB_RETURN_IERROR s "string overflow"
    else
      let* (status, s) := pb_read_ s (DST_AT dest) size in
      store_u 1 (dest + size) 0 ;;;
      sret (status, s)).

Definition memset_zero (dest n : Z) : M mem unit := mem_store dest (zrepeat n 0).

Definition pb_dec_fixed_length_bytes (s : pb_istream_t) (field : pb_field_t) (dest : Z) :
    M mem (bool * pb_istream_t) :=
  with_value (pb_decode_varint32 s) (fun size s =>
    if size >? PB_SIZE_MAX then PB_RETURN_IERROR s "bytes overflow"
    else if size =? 0 then memset_zero dest (data_size field) ;;; sret (true, s)
    else if negb (size =? data_size field) then PB_RETURN_IERROR s "incorrect fixed length bytes size"
    else pb_read_ s (DST_AT dest) (data_size field)).

(** * Extensions and default values *)

Section Extensions.
Context `{PbUser}.

(** The iterator that stands for an extension: one descriptor, and the addresses in
    the extension. It has no terminator and is never advanced. *)
Definition iter_from_extension (t : pb_extension_type_t) (extension : Z) : M mem pb_field_iter_t :=
  let field := ext_arg t in
  let* dest := load_ptr (extension + offsetof_dest) in
  let pData := if atype field =? PB_ATYPE_POINTER then extension + offsetof_dest else dest in
  sret (mk_iter [field] 0 0 dest pData (extension + offsetof_found)).

Definition load_extension_type (extension : Z) : M mem pb_extension_type_t :=
  let* p := load_ptr extension in slift (extension_type p).

(** [memcpy(dest, ptr, n)] from constant data. *)
Definition memcpy_default (dest : Z) (p : pb_ptr pb_field_t) (n : Z) : M mem unit :=
  match p with
  | PTR_DEFAULT l => if n <=? zlen l then mem_store dest (ztake n l) else sstuck
  | _ => sstuck
  end.

(** The loop of pb_message_set_to_defaults, over any function on fields. *)
Definition set_fields_to_default (set_field : pb_field_iter_t -> M mem unit) (fields : list pb_field_t)
    (dest_struct : Z) : M mem unit :=
  let* (nonempty, it) := slift (pb_field_iter_begin fields dest_struct) in
  if negb nonempty then sret tt
  else
    let* (_, _) :=
      iter_fields (length fields) (fun it _ => set_field it ;;; sret (true, tt)) it tt in
    sret tt.

Fixpoint extensions_set_to_default (fuel : nat) (set_field : pb_field_iter_t -> M mem unit) (ext : Z) :
    M mem unit :=
  match fuel with
  | O => sstuck
  | S fuel =>
      if ext =? NULL then sret tt
      else
        store_u 1 (ext + offsetof_found) 0 ;;;
        let* t := load_extension_type ext in
        let* ext_iter := iter_from_extension t ext in
        set_field ext_iter ;;;
        let* next := load_ptr (ext + offsetof_next) in
        extensions_set_to_default fuel set_field next
  end.

Definition is_repeated_or_oneof (f : pb_field_t) : bool :=
  (htype f =? PB_HTYPE_REPEATED) || (htype f =? PB_HTYPE_ONEOF).

Fixpoint pb_field_set_to_default (depth : nat) (it : pb_field_iter_t) : M mem unit :=
  match depth with
  | O => sstuck
  | S depth =>
      let* f := slift (cur it) in
      if ltype f =? PB_LTYPE_EXTENSION then
        let* ext := load_ptr (pData it) in
        let* m := sget in
        extensions_set_to_default (S (size m)) (pb_field_set_to_default depth) ext
      else if atype f =? PB_ATYPE_STATIC then
        let* init_data :=
          if (htype f =? PB_HTYPE_OPTIONAL) && negb (pSize it =? pData it) then
            store_u 1 (pSize it) 0 ;;; sret true
          else if is_repeated_or_oneof f then store_u sizeof_pb_size_t (pSize it) 0 ;;; sret false
          else sret true in
        if negb init_data then sret tt
        else if ltype f =? PB_LTYPE_SUBMESSAGE then
          match ptr f with
          | PTR_SUBMSG fields => set_fields_to_default (pb_field_set_to_default depth) fields (pData it)
          | _ => sstuck
          end
        else
          match ptr f with
          | PTR_NULL => memset_zero (pData it) (data_size f)
          | p => memcpy_default (pData it) p (data_size f)
          end
      else if atype f =? PB_ATYPE_POINTER then
        store_u sizeof_ptr (pData it) NULL ;;;
        if is_repeated_or_oneof f then store_u sizeof_pb_size_t (pSize it) 0 else sret tt
      else sret tt
  end.

Definition pb_message_set_to_defaults (depth : nat) (fields : list pb_field_t) (dest_struct : Z) : M mem unit :=
  set_fields_to_default (pb_field_set_to_default depth) fields dest_struct.
End Extensions.

(** * Decoding a field *)

Section Decode.
Context `{PbUser}.

(** The address of the local [buffer] of decode_callback_field, and a bound on the
    calls a user's callback takes to read a string. *)
Variable buffer_at : Z.
Variable callback_fuel : nat.

(** The depth to which defaults may recurse, and the two decoders of submessages. *)
Variable depth : nat.
Variable decode_submsg decode_submsg_noinit : pb_istream_t -> list pb_field_t -> Z -> M mem (bool * pb_istream_t).

Definition pb_dec_submessage (s : pb_istream_t) (field : pb_field_t) (dest : Z) : M mem (bool * pb_istream_t) :=
  let* (substream, s) := pb_make_string_substream s in
  match substream with
  | None => sret (false, s)
  | Some substream =>
      match ptr field with
      | PTR_NULL => PB_RETURN_IERROR s "invalid field descriptor"
      | PTR_DEFAULT _ => sstuck
      | PTR_SUBMSG submsg_fields =>
          let* (status, substream) :=
            if htype field =? PB_HTYPE_REPEATED then decode_submsg substream submsg_fields dest
            else decode_submsg_noinit substream submsg_fields dest in
          let* (ok, s) := pb_close_string_substream s substream in
          if negb ok then sret (false, s) else sret (status, s)
      end
  end.

Definition PB_DECODERS (lt : Z) : option pb_decoder_t :=
  nth (Z.to_nat lt)
    [Some pb_dec_varint; Some pb_dec_uvarint; Some pb_dec_svarint; Some pb_dec_fixed32; Some pb_dec_fixed64;
     Some pb_dec_bytes; Some pb_dec_string; Some pb_dec_submessage; None; Some pb_dec_fixed_length_bytes] None.

Definition call_decoder (func : option pb_decoder_t) (s : pb_istream_t) (field : pb_field_t) (dest : Z) :
    M mem (bool * pb_istream_t) :=
  match func with None => sstuck | Some f => f s field dest end.

(** [&pData[size]]: the product is computed in 32 bits. *)
Definition item_at (it : pb_field_iter_t) (f : pb_field_t) (size : Z) : Z := pData it + u32 (data_size f * size).

(** The loop over a packed array; the results are [status] and the substream. *)
Fixpoint packed_loop (fuel : nat) (func : option pb_decoder_t) (it : pb_field_iter_t) (f : pb_field_t)
    (substream : pb_istream_t) : M mem (bool * pb_istream_t) :=
  match fuel with
  | O => sstuck
  | S fuel =>
      let* size := load_u sizeof_pb_size_t (pSize it) in
      if (bytes_left substream >? 0) && (size <? array_size f) then
        let* (ok, substream) := call_decoder func substream f (item_at it f size) in
        if negb ok then sret (false, substream)
        else
          let* size := load_u sizeof_pb_size_t (pSize it) in
          store_u sizeof_pb_size_t (pSize it) (u32 (size + 1)) ;;;
          packed_loop fuel func it f substream
      else sret (true, substream)
  end.

Definition decode_static_field (s : pb_istream_t) (wire_type : Z) (it : pb_field_iter_t) :
    M mem (bool * pb_istream_t) :=
  let* f := slift (cur it) in
  let func := PB_DECODERS (ltype f) in
  if htype f =? PB_HTYPE_REQUIRED then call_decoder func s f (pData it)
  else if htype f =? PB_HTYPE_OPTIONAL then
    (if negb (pSize it =? pData it) then store_u 1 (pSize it) 1 else sret tt) ;;;
    call_decoder func s f (pData it)
  else if htype f =? PB_HTYPE_REPEATED then
    if (wire_type =? PB_WT_STRING) && (ltype f <=? PB_LTYPE_LAST_PACKABLE) then
      let* (substream, s) := pb_make_string_substream s in
      match substream with
      | None => sret (false, s)
      | Some substream =>
          let* (status, substream) := packed_loop (S (Z.to_nat (bytes_left substream))) func it f substream in
          if negb (bytes_left substream =? 0) then PB_RETURN_IERROR s "array overflow"
          else
            let* (ok, s) := pb_close_string_substream s substream in
            if negb ok then sret (false, s) else sret (status, s)
      end
    else
      let* size := load_u sizeof_pb_size_t (pSize it) in
      let pItem := item_at it f size in
      if size >=? array_size f then PB_RETURN_IERROR s "array overflow"
      else
        store_u sizeof_pb_size_t (pSize it) (u32 (size + 1)) ;;;
        call_decoder func s f pItem
  else
    store_u sizeof_pb_size_t (pSize it) (tag f) ;;;
    (if ltype f =? PB_LTYPE_SUBMESSAGE then
       memset_zero (pData it) (data_size f) ;;;
       match ptr f with
       | PTR_SUBMSG fields => pb_message_set_to_defaults depth fields (pData it)
       | _ => sstuck
       end
     else sret tt) ;;;
    call_decoder func s f (pData it).

Definition decode_pointer_field (s : pb_istream_t) (wire_type : Z) (it : pb_field_iter_t) :
    M mem (bool * pb_istream_t) := PB_RETURN_IERROR s "no malloc support".

Fixpoint callback_loop (fuel : nat) (decode : Z) (f : pb_field_t) (arg : Z) (substream : pb_istream_t) :
    M mem (bool * pb_istream_t) :=
  match fuel with
  | O => sstuck
  | S fuel =>
      let* (ok, substream) := decode_cb decode substream f arg in
      if negb ok then sret (false, substream)
      else if negb (bytes_left substream =? 0) then callback_loop fuel decode f arg substream
      else sret (true, substream)
  end.

Definition decode_callback_field (s : pb_istream_t) (wire_type : Z) (it : pb_field_iter_t) :
    M mem (bool * pb_istream_t) :=
  let* f := slift (cur it) in
  let arg := pData it + offsetof_arg in
  let* decode := load_ptr (pData it) in
  if decode =? NULL then pb_skip_field s wire_type
  else if wire_type =? PB_WT_STRING then
    let* (substream, s) := pb_make_string_substream s in
    match substream with
    | None => sret (false, s)
    | Some substream =>
        let* (ok, substream) := callback_loop callback_fuel decode f arg substream in
        if negb ok then PB_RETURN_IERROR s "callback failed"
        else
          let* (ok, s) := pb_close_string_substream s substream in
          if negb ok then sret (false, s) else sret (true, s)
    end
  else
    let* (ok, size, s) := read_raw_value s wire_type buffer_at 10 in
    if negb ok then sret (false, s)
    else
      let* (ok, _) := decode_cb decode (pb_istream_from_buffer buffer_at size) f arg in
      sret (ok, s).

Definition decode_field (s : pb_istream_t) (wire_type : Z) (it : pb_field_iter_t) : M mem (bool * pb_istream_t) :=
  let* f := slift (cur it) in
  if atype f =? PB_ATYPE_STATIC then decode_static_field s wire_type it
  else if atype f =? PB_ATYPE_POINTER then decode_pointer_field s wire_type it
  else if atype f =? PB_ATYPE_CALLBACK then decode_callback_field s wire_type it
  else PB_RETURN_IERROR s "invalid field type".

Definition default_extension_decoder (s : pb_istream_t) (t : pb_extension_type_t) (extension tag_ wire_type : Z) :
    M mem (bool * pb_istream_t) :=
  if negb (tag (ext_arg t) =? tag_) then sret (true, s)
  else
    let* it := iter_from_extension t extension in
    store_u 1 (extension + offsetof_found) 1 ;;;
    decode_field s wire_type it.

Fixpoint decode_extensions (fuel : nat) (s : pb_istream_t) (extension tag_ wire_type pos : Z) :
    M mem (bool * pb_istream_t) :=
  match fuel with
  | O => sstuck
  | S fuel =>
      if negb (extension =? NULL) && (pos =? bytes_left s) then
        let* t := load_extension_type extension in
        let* (status, s) :=
          match ext_decode t with
          | Some f => f s extension tag_ wire_type
          | None => default_extension_decoder s t extension tag_ wire_type
          end in
        if negb status then sret (false, s)
        else
          let* next := load_ptr (extension + offsetof_next) in
          decode_extensions fuel s next tag_ wire_type pos
      else sret (true, s)
  end.

Definition decode_extension (s : pb_istream_t) (tag_ wire_type : Z) (it : pb_field_iter_t) :
    M mem (bool * pb_istream_t) :=
  let* extension := load_ptr (pData it) in
  let* m := sget in
  decode_extensions (S (size m)) s extension tag_ wire_type (bytes_left s).

Definition find_extension_field (it : pb_field_iter_t) : option (bool * pb_field_iter_t) :=
  iter_find (length (start it)) (fun f => ltype f =? PB_LTYPE_EXTENSION) (pos it) it.

(** * Decoding a message *)

(** The state of the loop of pb_decode_noinit. *)
Record decode_state := mk_decode_state {
  ds_stream : pb_istream_t;
  ds_iter : pb_field_iter_t;
  fields_seen : list Z;
  extension_range_start : Z }.

Definition set_ds_stream (d : decode_state) (s : pb_istream_t) : decode_state :=
  mk_decode_state s (ds_iter d) (fields_seen d) (extension_range_start d).

(** A field the table does not have: an extension, or skipped. *)
Definition decode_unknown (d : decode_state) (wire_type tag_ : Z) : M mem (bool * decode_state) :=
  let s := ds_stream d in
  let* (it, start, handled, s) :=
    if tag_ >=? extension_range_start d then
      let* (found, it) := slift (find_extension_field (ds_iter d)) in
      let* f := slift (cur it) in
      let start := if negb found then 0xffffffff else tag f in
      if tag_ >=? start then
        let pos := bytes_left s in
        let* (ok, s) := decode_extension s tag_ wire_type it in
        if negb ok then sret (it, start, Some false, s)
        else if negb (pos =? bytes_left s) then sret (it, start, Some true, s)
        else sret (it, start, None, s)
      else sret (it, start, None, s)
    else sret (ds_iter d, extension_range_start d, None, s) in
  let d := mk_decode_state s it (fields_seen d) start in
  match handled with
  | Some ok => sret (ok, d)
  | None => let* (ok, s) := pb_skip_field s wire_type in sret (ok, set_ds_stream d s)
  end.

(** Marks the required field the iterator is on. *)
Definition mark_seen (it : pb_field_iter_t) (f : pb_field_t) (seen : list Z) : option (list Z) :=
  if (htype f =? PB_HTYPE_REQUIRED) && (required_field_index it <? PB_MAX_REQUIRED_FIELDS) then
    let i := required_field_index it in
    let tmp := u32 (Z.shiftl 1 (Z.land i 31)) in
    let k := Z.to_nat (Z.shiftr i 5) in
    match seen !! k with None => None | Some w => Some (<[k := Z.lor w tmp]> seen) end
  else Some seen.

(** One round of the loop after the tag has been read. *)
Definition decode_one (d : decode_state) (wire_type tag_ : Z) : M mem (bool * decode_state) :=
  let* (found, it) := slift (pb_field_iter_find (ds_iter d) tag_) in
  let d := mk_decode_state (ds_stream d) it (fields_seen d) (extension_range_start d) in
  if negb found then decode_unknown d wire_type tag_
  else
    let* f := slift (cur it) in
    let* seen := slift (mark_seen it f (fields_seen d)) in
    let* (ok, s) := decode_field (ds_stream d) wire_type it in
    sret (ok, mk_decode_state s it seen (extension_range_start d)).

Fixpoint decode_loop (fuel : nat) (d : decode_state) : M mem (bool * decode_state) :=
  match fuel with
  | O => sstuck
  | S fuel =>
      if bytes_left (ds_stream d) =? 0 then sret (true, d)
      else
        let* (ok, wire_type, tag_, eof, s) := pb_decode_tag (ds_stream d) in
        let d := set_ds_stream d s in
        if negb ok then sret (eof : bool, d)
        else
          let* (ok, d) := decode_one d wire_type tag_ in
          if negb ok then sret (false, d) else decode_loop fuel d
  end.

(** Seeks to the end of the fields: the index and type of the last field. *)
Fixpoint seek_end (fuel : nat) (it : pb_field_iter_t) : option (Z * pb_field_t * pb_field_iter_t) :=
  match fuel with
  | O => None
  | S fuel =>
      match cur it, pb_field_iter_next it with
      | Some last, Some (true, it') => seek_end fuel it'
      | Some last, Some (false, it') => Some (required_field_index it, last, it')
      | _, _ => None
      end
  end.

(** Whether every required field was seen. A shift by the width of the type, and an
    index outside [fields_seen], are undefined. *)
Definition check_seen (req_field_count : Z) (seen : list Z) : option bool :=
  let allbits := 0xffffffff in
  let whole := Z.to_nat (Z.shiftr req_field_count 5) in
  if negb (forallb (Z.eqb allbits) (take whole seen)) then Some false
  else
    match seen !! whole with
    | None => None
    | Some w =>
        let shift := 32 - Z.land req_field_count 31 in
        if shift >=? 32 then None else Some (w =? Z.shiftr allbits shift)
    end.

Definition check_required (d : decode_state) : M mem (bool * pb_istream_t) :=
  let* (req_field_count, last, it) := slift (seek_end (length (start (ds_iter d))) (ds_iter d)) in
  let* f := slift (cur it) in
  let req_field_count :=
    if (htype last =? PB_HTYPE_REQUIRED) && negb (tag f =? 0) then u32 (req_field_count + 1)
    else req_field_count in
  if req_field_count >? 0 then
    let* all_seen := slift (check_seen req_field_count (fields_seen d)) in
    if negb all_seen then PB_RETURN_IERROR (ds_stream d) "missing required field"
    else sret (true, ds_stream d)
  else sret (true, ds_stream d).

Definition decode_noinit_body (s : pb_istream_t) (fields : list pb_field_t) (dest_struct : Z) :
    M mem (bool * pb_istream_t) :=
  let* (_, it) := slift (pb_field_iter_begin fields dest_struct) in
  let* (ok, d) := decode_loop (S (Z.to_nat (bytes_left s))) (mk_decode_state s it [0; 0] 0) in
  if negb ok then sret (false, ds_stream d) else check_required d.
End Decode.

(** [depth] is more than the depth to which descriptors nest. *)
Fixpoint pb_decode_noinit `{PbUser} (buffer_at : Z) (callback_fuel depth : nat) (s : pb_istream_t)
    (fields : list pb_field_t) (dest_struct : Z) : M mem (bool * pb_istream_t) :=
  match depth with
  | O => sstuck
  | S d =>
      decode_noinit_body buffer_at callback_fuel depth
        (fun s fields dest =>
           pb_message_set_to_defaults d fields dest ;;;
           pb_decode_noinit buffer_at callback_fuel d s fields dest)
        (pb_decode_noinit buffer_at callback_fuel d) s fields dest_struct
  end.

Definition pb_decode `{PbUser} (buffer_at : Z) (callback_fuel depth : nat) (s : pb_istream_t)
    (fields : list pb_field_t) (dest_struct : Z) : M mem (bool * pb_istream_t) :=
  pb_message_set_to_defaults depth fields dest_struct ;;;
  pb_decode_noinit buffer_at callback_fuel depth s fields dest_struct.

Definition pb_decode_delimited `{PbUser} (buffer_at : Z) (callback_fuel depth : nat) (s : pb_istream_t)
    (fields : list pb_field_t) (dest_struct : Z) : M mem (bool * pb_istream_t) :=
  let* (substream, s) := pb_make_string_substream s in
  match substream with
  | None => sret (false, s)
  | Some substream =>
      let* (status, substream) := pb_decode buffer_at callback_fuel depth substream fields dest_struct in
      let* (ok, s) := pb_close_string_substream s substream in
      if negb ok then sret (false, s) else sret (status, s)
  end.

(** * Streams over a buffer

    [inp] is the memory of the input, which the decoder does not write to. *)

Definition content (inp : mem) (s : pb_istream_t) (src : bytes) : Prop :=
  icallback_ s = IC_BUF_READ /\ bytes_left s = zlen src /\ zlen src < 2 ^ 64 /\
  load_bytes (length src) inp (istate s) = Some src /\ bytes_ok src.

Definition skip (s : pb_istream_t) (n : Z) : pb_istream_t :=
  mk_istream (icallback_ s) (istate s + n) (bytes_left s - n) (ierrmsg s).

Lemma content_error inp s src msg : content inp s src -> content inp (PB_SET_IERROR s msg) src.
Proof. done. Qed.

Lemma content_skip inp s pre src : content inp s (pre ++ src) -> content inp (skip s (zlen pre)) src.
Proof.
  intros (Hc & Hb & Hl & Hs & Hok). rewrite length_app in *. rewrite load_bytes_app in Hs.
  destruct (load_bytes (length pre) inp (istate s)) as [l1|] eqn:E1; [|done].
  destruct (load_bytes (length src) inp _) as [l2|] eqn:E2; [|done]. injection Hs as Hs.
  apply load_bytes_length in E1 as Hl1. apply app_inj_1 in Hs as [<- <-]; [|done].
  apply bytes_ok_app in Hok as [_ Hok]. unfold content. cbn. repeat split; [done|lia|lia|done|done].
Qed.

Lemma content_prefix inp s pre src : content inp s (pre ++ src) -> content inp (set_bytes_left s (zlen pre)) pre.
Proof.
  intros (Hc & Hb & Hl & Hs & Hok). rewrite length_app in *. rewrite load_bytes_app in Hs.
  destruct (load_bytes (length pre) inp (istate s)) as [l1|] eqn:E1; [|done].
  destruct (load_bytes (length src) inp _) as [l2|] eqn:E2; [|done]. injection Hs as Hs.
  apply load_bytes_length in E1 as Hl1. apply app_inj_1 in Hs as [<- <-]; [|done].
  apply bytes_ok_app in Hok as [Hok _]. unfold content. cbn. repeat split; [done|lia|done|done].
Qed.

Lemma pb_readbyte_spec inp s src m : content inp s src -> inp ⊆ m ->
  pb_readbyte s m = Some
    (match src with
     | [] => (None, PB_SET_IERROR s "end-of-stream")
     | b :: _ => (Some b, skip s 1)
     end, m).
Proof.
  intros (Hc & Hb & Hl & Hs & Hok) Hm. unfold pb_readbyte. rewrite Hb. destruct src as [|b src]; [done|].
  cbn [length] in Hb, Hl, Hs |- *. rewrite (proj2 (Z.eqb_neq _ _)) by lia.
  cbn [load_bytes] in Hs. destruct (inp !! istate s) as [x|] eqn:Ex; [|done].
  destruct (load_bytes (length src) inp _); [|done]. injection Hs as -> ->.
  assert (Eb : rd_u inp 1 (istate s + 0) = Some b) by (by rewrite Z.add_0_r, rd_u1).
  unfold call_icallback, sbind. rewrite Hc. unfold buf_read. change (Z.to_nat 1) with 1%nat.
  cbn [buf_read_loop]. unfold sbind, sret. rewrite (load_u_reads _ _ _ _ _ Eb Hm). cbn. unfold set_bytes_left, skip. cbn.
  rewrite Hc, Hb, u64_small by (unfold is_u; lia). done.
Qed.

Lemma land_80 b : is_byte b -> negb (Z.land b 0x80 =? 0) = negb (b <? 128).
Proof.
  intros H. apply (byte_forall (fun b => Bool.eqb (negb (Z.land b 0x80 =? 0)) (negb (b <? 128)))) in H;
    [by apply Bool.eqb_prop in H|vm_compute; reflexivity].
Qed.

Lemma land_7f_byte b : is_byte b -> Z.land b 0x7F = if b <? 128 then b else b - 128.
Proof.
  intros H. apply (byte_forall (fun b => Z.land b 0x7F =? if b <? 128 then b else b - 128)) in H;
    [by apply Z.eqb_eq in H|vm_compute; reflexivity].
Qed.

Lemma skip_skip s a b : skip (skip s a) b = skip s (a + b).
Proof. unfold skip. cbn. f_equal; lia. Qed.

Lemma skip_0 s : skip s (zlen ([] : bytes)) = s.
Proof. destruct s. unfold skip. cbn. by rewrite Z.add_0_r, Z.sub_0_r. Qed.

Definition with_ierrmsg (s : pb_istream_t) (e : option string) : pb_istream_t :=
  mk_istream (icallback_ s) (istate s) (bytes_left s) e.

(** What a varint decoder of [n] groups and [w] bits does on a stream that holds
    [src], as a loop with [k] bits read into [acc]. *)
Definition varint_result (w : Z) (n : nat) (s : pb_istream_t) (src : bytes) (k acc : Z)
    (r : option (option Z * pb_istream_t * mem)) (m : mem) : Prop :=
  match parse_varint n src with
  | Some (v, rest) => r = Some (Some ((acc + 2 ^ k * v) mod 2 ^ w), skip s (zlen src - zlen rest), m)
  | None => exists pre rest e, r = Some (None, with_ierrmsg (skip s (zlen pre)) e, m) /\ src = pre ++ rest
  end.

Lemma varint_result_cons w n s b src k acc r m : 0 <= k -> 128 <= b ->
  varint_result w n (skip s 1) src (k + 7) (acc + 2 ^ k * (b - 128)) r m ->
  varint_result w (S n) s (b :: src) k acc r m.
Proof.
  intros Hk Hb. unfold varint_result. cbn [parse_varint]. rewrite (proj2 (Z.ltb_ge b 128)) by lia.
  destruct (parse_varint n src) as [[v rest]|].
  - intros ->. rewrite skip_skip. cbn [length].
    replace (acc + 2 ^ k * (b - 128 + 128 * v)) with (acc + 2 ^ k * (b - 128) + 2 ^ (k + 7) * v)
      by (rewrite Z.pow_add_r by lia; lia).
    do 4 f_equal. lia.
  - intros (pre & rest & e & -> & ->). exists (b :: pre), rest, e. rewrite skip_skip. cbn [length].
    by replace (1 + zlen pre) with (Z.of_nat (S (length pre))) by lia.
Qed.

(** The accumulator need only be right modulo [2^w]. *)
Lemma varint_result_mod w n s src k acc acc' r m : acc mod 2 ^ w = acc' mod 2 ^ w -> 0 <= w ->
  varint_result w n s src k acc r m -> varint_result w n s src k acc' r m.
Proof.
  intros H Hw. unfold varint_result. destruct (parse_varint n src) as [[v rest]|]; [|done].
  rewrite <- (Z.add_mod_idemp_l acc), H, Z.add_mod_idemp_l by (apply Z.pow_nonzero; lia). done.
Qed.

(** The last group. *)
Lemma varint_result_last w n s b src k acc m : b < 128 ->
  varint_result w (S n) s (b :: src) k acc (Some (Some ((acc + 2 ^ k * b) mod 2 ^ w), skip s 1, m)) m.
Proof.
  intros Hb. unfold varint_result. cbn [parse_varint]. rewrite (proj2 (Z.ltb_lt b 128)) by done. cbn [length].
  by replace (Z.of_nat (S (length src)) - zlen src) with 1 by lia.
Qed.

(** [n] more groups, the last of which passes the width. *)
Lemma varint_groups_spec inp w wrap last n : forall fuel s src m k acc,
  (forall x, wrap x = x mod 2 ^ w) -> k = last - 7 * Z.of_nat n -> w <= last < w + 7 -> last < 128 ->
  0 <= k -> (n < fuel)%nat -> content inp s src -> inp ⊆ m -> 0 <= acc < 2 ^ k ->
  varint_result w n s src k acc (varint_groups w wrap fuel s k acc m) m.
Proof.
  induction n as [|n IH]; intros fuel s src m k acc Hw Hk Hl Hl' H0 Hf Hc Hm Ha; (destruct fuel as [|fuel]; [lia|]);
    cbn [varint_groups]; rewrite Z.geb_leb.
  - rewrite (proj2 (Z.leb_le w k)) by lia. unfold varint_result.
    replace (parse_varint 0 src) with (None : option (Z * bytes)) by (by destruct src).
    eexists [], src, _. by rewrite skip_0.
  - rewrite (proj2 (Z.leb_gt w k)) by lia.
    unfold sbind. rewrite (pb_readbyte_spec _ _ _ _ Hc Hm). destruct src as [|b src].
    { unfold varint_result. cbn [parse_varint]. eexists [], [], _. by rewrite skip_0. }
    pose proof Hc as (_ & _ & _ & _ & Hok). apply Forall_cons in Hok as [Hb _].
    pose proof (content_skip inp s [b] src Hc) as Hc'. cbn [length] in Hc'. change (Z.of_nat 1) with 1 in Hc'.
    rewrite land_80, land_7f_byte by done. unfold is_u in Hb. rewrite Hw, u8_mod, (Z.mod_small (k + 7)) by lia.
    destruct (b <? 128) eqn:E; cbn [negb]; bool_simpl; rewrite lor_group by lia.
    + by apply varint_result_last.
    + apply varint_result_cons; [done|done|].
      eapply varint_result_mod; [apply Z.mod_mod, Z.pow_nonzero; lia|lia|].
      apply IH; [done|lia|done|done|lia|lia|done|done|].
      pose proof (Z.pow_pos_nonneg 2 w ltac:(lia) ltac:(lia)) as Hp.
      pose proof (Z.mod_pos_bound (acc + 2 ^ k * (b - 128)) (2 ^ w) Hp).
      pose proof (Z.mod_le (acc + 2 ^ k * (b - 128)) (2 ^ w) ltac:(nia) Hp).
      rewrite Z.pow_add_r by lia. nia.
Qed.

(** What a decoder of [n] groups and [w] bits returns. *)
Definition decodes_varint (w : Z) (n : nat) (s : pb_istream_t) (src : bytes) (m : mem)
    (r : option (option Z * pb_istream_t * mem)) : Prop :=
  match parse_varint n src with
  | Some (v, rest) => r = Some (Some (v mod 2 ^ w), skip s (zlen src - zlen rest), m)
  | None => exists pre rest e, r = Some (None, with_ierrmsg (skip s (zlen pre)) e, m) /\ src = pre ++ rest
  end.

Lemma varint_result_0 w n s src r m : varint_result w n s src 0 0 r m -> decodes_varint w n s src m r.
Proof.
  unfold varint_result, decodes_varint. destruct (parse_varint n src) as [[v rest]|]; [|done].
  by replace (0 + 2 ^ 0 * v) with v by lia.
Qed.

Lemma pb_decode_varint_spec inp s src m : content inp s src -> inp ⊆ m ->
  decodes_varint 64 10 s src m (pb_decode_varint s m).
Proof.
  intros Hc Hm. apply varint_result_0.
  apply (varint_groups_spec inp 64 u64 70 10 11 s src m 0 0); try done; try lia. apply u64_mod.
Qed.

Lemma pb_decode_varint32_spec inp s src m : content inp s src -> inp ⊆ m ->
  decodes_varint 32 5 s src m (pb_decode_varint32 s m).
Proof.
  intros Hc Hm. apply varint_result_0. unfold pb_decode_varint32, sbind. rewrite (pb_readbyte_spec _ _ _ _ Hc Hm).
  destruct src as [|b src].
  { unfold varint_result. cbn [parse_varint]. eexists [], [], _. by rewrite skip_0. }
  pose proof Hc as (_ & _ & _ & _ & Hok). apply Forall_cons in Hok as [Hb _].
  pose proof (content_skip inp s [b] src Hc) as Hc'. cbn [length] in Hc'. change (Z.of_nat 1) with 1 in Hc'.
  pose proof (land_80 b Hb) as H80. destruct (b <? 128) eqn:E; cbn [negb] in H80; bool_simpl.
  - rewrite H80. cbn [Z.eqb]. pose proof (varint_result_last 32 4 s b src 0 0 m E) as H. unfold is_u in Hb.
    replace (0 + 2 ^ 0 * b) with b in H by lia. by rewrite Z.mod_small in H by lia.
  - rewrite (proj2 (Z.eqb_neq _ _) H80). rewrite land_7f_byte, (proj2 (Z.ltb_ge _ _) E) by done.
    apply varint_result_cons; [lia|done|]. unfold is_u in Hb.
    replace (0 + 2 ^ 0 * (b - 128)) with (b - 128) by lia.
    apply (varint_groups_spec inp 32 u32 35 4 5); try done; try lia. apply u32_mod.
Qed.

(** ** Reading bytes *)

Lemma buf_read_loop_local inp m source : inp ⊆ m -> forall pre i,
  load_bytes (length pre) inp (source + i) = Some pre -> buf_read_loop (length pre) source DST_LOCAL i m = Some (pre, m).
Proof.
  intros Hm pre. induction pre as [|b pre IH]; intros i H; [done|]. cbn [length load_bytes buf_read_loop] in *.
  destruct (inp !! (source + i)) as [x|] eqn:Ex; [|done]. destruct (load_bytes (length pre) inp _) as [l|] eqn:El; [|done].
  injection H as -> ->. assert (Eb : rd_u inp 1 (source + i) = Some b) by (by rewrite rd_u1).
  unfold sbind, sret. rewrite (load_u_reads _ _ _ _ _ Eb Hm). rewrite IH; [done|]. rewrite <- El. f_equal. lia.
Qed.

Lemma buf_read_loop_at inp source a : forall pre i m,
  inp ⊆ m -> bytes_ok pre -> load_bytes (length pre) inp (source + i) = Some pre ->
  mapped m (a + i) (zlen pre) -> (forall j, 0 <= j < zlen pre -> inp !! (a + i + j) = None) ->
  exists m', buf_read_loop (length pre) source (DST_AT a) i m = Some (pre, m') /\ store_bytes pre (a + i) m = Some m'.
Proof.
  intros pre. induction pre as [|b pre IH]; intros i m Hm Hok H Hmap Hd; [by exists m|].
  cbn [length load_bytes buf_read_loop store_bytes] in *.
  destruct (inp !! (source + i)) as [x|] eqn:Ex; [|done]. destruct (load_bytes (length pre) inp _) as [l|] eqn:El; [|done].
  injection H as -> ->. assert (Eb : rd_u inp 1 (source + i) = Some b) by (by rewrite rd_u1).
  apply Forall_cons in Hok as [Hb Hok]. unfold sbind, sret. rewrite (load_u_reads _ _ _ _ _ Eb Hm), store_u1 by done.
  destruct (Hmap 0 ltac:(lia)) as [c Hc]. rewrite Z.add_0_r in Hc. unfold mem_store. cbn [store_bytes]. rewrite Hc.
  set (m1 := <[a + i := b]> m). assert (E1 : store_bytes [b] (a + i) m = Some m1) by (cbn; by rewrite Hc).
  destruct (store_bytes_inv _ _ _ _ E1) as (_ & _ & Hdom).
  destruct (IH (i + 1) m1) as (m' & E & Est).
  - eapply store_bytes_frame; [exact E1|done|]. intros j Hj. apply Hd. cbn in Hj. lia.
  - done.
  - rewrite <- El. f_equal. lia.
  - intros j Hj. apply Hdom. replace (a + (i + 1) + j) with (a + i + (j + 1)) by lia. apply Hmap. lia.
  - intros j Hj. replace (a + (i + 1) + j) with (a + i + (j + 1)) by lia. apply Hd. lia.
  - exists m'. rewrite E. split; [done|]. by replace (a + i + 1) with (a + (i + 1)) by lia.
Qed.

Lemma content_split inp s pre rest : content inp s (pre ++ rest) ->
  load_bytes (length pre) inp (istate s) = Some pre /\ bytes_ok pre /\ zlen pre <= bytes_left s < 2 ^ 64.
Proof.
  intros H. pose proof (content_prefix _ _ _ _ H) as (_ & _ & _ & Hl & Hok). cbn in Hl.
  destruct H as (_ & Hb & Hlt & _). rewrite length_app in *. split; [done|]. split; [done|lia].
Qed.

(** A read of as many bytes as the stream has, or fewer. *)
Lemma pb_read_direct_spec inp s pre rest dst m l m' : content inp s (pre ++ rest) ->
  buf_read (istate s) dst (zlen pre) m = Some (true, l, istate s + zlen pre, m') ->
  pb_read_direct s dst (zlen pre) m = Some (true, l, skip s (zlen pre), m').
Proof.
  intros H E. pose proof (content_split _ _ _ _ H) as (_ & _ & Hb). destruct H as (Hc & _). unfold pb_read_direct.
  rewrite (proj2 (Z.ltb_ge _ _)) by lia. unfold call_icallback, sbind. rewrite Hc, E.
  unfold sret. cbn. rewrite u64_small by (unfold is_u; lia). done.
Qed.

Lemma pb_read_buffer s dst n : icallback_ s = IC_BUF_READ -> pb_read s dst n = pb_read_direct s dst n.
Proof. intros H. unfold pb_read. rewrite H. by destruct dst. Qed.

Lemma pb_read_local inp s pre rest m : content inp s (pre ++ rest) -> inp ⊆ m ->
  pb_read s DST_LOCAL (zlen pre) m = Some (true, pre, skip s (zlen pre), m).
Proof.
  intros H Hm. pose proof (content_split _ _ _ _ H) as (Hl & _ & Hb). rewrite pb_read_buffer by apply H.
  eapply pb_read_direct_spec; [exact H|]. unfold buf_read, sbind. rewrite Nat2Z.id.
  rewrite (buf_read_loop_local inp m (istate s) Hm pre 0); [done|]. by rewrite Z.add_0_r.
Qed.

Lemma pb_read_null inp s pre rest m : content inp s (pre ++ rest) ->
  pb_read s DST_NULL (zlen pre) m = Some (true, [], skip s (zlen pre), m).
Proof.
  intros H. rewrite pb_read_buffer by apply H. by eapply pb_read_direct_spec.
Qed.

Lemma pb_read_at inp s pre rest a m : content inp s (pre ++ rest) -> inp ⊆ m ->
  mapped m a (zlen pre) -> (forall j, 0 <= j < zlen pre -> inp !! (a + j) = None) ->
  exists m', pb_read s (DST_AT a) (zlen pre) m = Some (true, pre, skip s (zlen pre), m') /\
    store_bytes pre a m = Some m'.
Proof.
  intros H Hm Hmap Hd. pose proof (content_split _ _ _ _ H) as (Hl & Hok & Hb).
  destruct (buf_read_loop_at inp (istate s) a pre 0 m) as (m' & E & Est); [done|done|by rewrite Z.add_0_r| | |].
  - by rewrite Z.add_0_r.
  - intros j Hj. rewrite Z.add_0_r. by apply Hd.
  - exists m'. rewrite Z.add_0_r in Est. split; [|done]. rewrite pb_read_buffer by apply H.
    eapply pb_read_direct_spec; [exact H|]. unfold buf_read, sbind. rewrite Nat2Z.id, E. done.
Qed.

Lemma pb_read_short s dst n m : icallback_ s = IC_BUF_READ -> bytes_left s < n ->
  pb_read s dst n m = Some (false, [], PB_SET_IERROR s "end-of-stream", m).
Proof.
  intros H Hb. rewrite pb_read_buffer by done. unfold pb_read_direct. by rewrite (proj2 (Z.ltb_lt _ _)).
Qed.

(** The rest of a stream can be skipped whatever became of it. *)
Lemma pb_read_rest s m : icallback_ s = IC_BUF_READ ->
  pb_read s DST_NULL (bytes_left s) m =
  Some (true, [], mk_istream IC_BUF_READ (istate s + bytes_left s) 0 (ierrmsg s), m).
Proof.
  intros H. rewrite pb_read_buffer by done. unfold pb_read_direct. rewrite Z.ltb_irrefl.
  unfold call_icallback, sbind. rewrite H. unfold buf_read, sbind, sret. cbn. unfold set_bytes_left, set_istate. cbn.
  by rewrite H, Z.sub_diag.
Qed.
