(* ===== verification/PbSafe.v ===== *)
(** * nanopb: decoding arbitrary input is safe

    The memory safety of the decoder: whatever the input, it is defined, it ends, and
    it writes nothing outside the structure, provided that the descriptors fit the
    structure ([struct_ok], a test that can be run). Callback and extension fields are
    left out, for they run a user's code. [safe] is a weakest precondition for
    computations that write in an interval of the memory and read their input from
    memory outside it. *)

From Stdlib Require Import ZArith Lia.
From stdpp Require Import base list option gmap.
From S2P Require Import Prelude ByteMem Pb PbWire PbEncode PbDecode.

(** * Descriptors that fit a structure in an interval *)

Section Fits.
Variables lo hi : Z.

Definition in_range (a n : Z) : bool := (lo <=? a) && (0 <=? n) && (a + n <=? hi).

Definition item_count (f : pb_field_t) : Z := if htype f =? PB_HTYPE_REPEATED then array_size f else 1.

(** The size of a value of the field's type, and its default. *)
Definition value_fits (f : pb_field_t) : bool :=
  if ltype f <=? PB_LTYPE_SVARINT then true
  else if ltype f =? PB_LTYPE_FIXED32 then 4 <=? data_size f
  else if ltype f =? PB_LTYPE_FIXED64 then 8 <=? data_size f
  else (ltype f <=? PB_LTYPE_SUBMESSAGE) || (ltype f =? PB_LTYPE_FIXED_LENGTH_BYTES).

Definition default_fits (f : pb_field_t) : bool :=
  match ptr f with
  | PTR_NULL => true
  | PTR_DEFAULT l => (data_size f <=? zlen l) && forallb (fun b => (0 <=? b) && (b <? 256)) l
  | PTR_SUBMSG _ => false
  end.

Definition size_fits (s : slot) : bool :=
  let f := s_field s in
  if is_repeated_or_oneof f then in_range (s_size s) sizeof_pb_size_t
  else if htype f =? PB_HTYPE_OPTIONAL then (s_size s =? s_data s) || in_range (s_size s) 1
  else true.

Definition slot_fits (submsg : list pb_field_t -> Z -> bool) (s : slot) : bool :=
  let f := s_field s in
  let n := data_size f in
  field_range f && size_fits s &&
  (if atype f =? PB_ATYPE_POINTER then in_range (s_data s) sizeof_ptr && negb (ltype f =? PB_LTYPE_EXTENSION)
   else
     (atype f =? PB_ATYPE_STATIC) && value_fits f && (n * item_count f <? 2 ^ 32) &&
     in_range (s_data s) (n * item_count f) &&
     (if ltype f =? PB_LTYPE_SUBMESSAGE then
        match ptr f with
        | PTR_SUBMSG fields => forallb (submsg fields) (addresses (item_count f) (s_data s) n)
        | _ => false
        end
      else is_repeated_or_oneof f || default_fits f)).

Definition is_required (s : slot) : bool := htype (s_field s) =? PB_HTYPE_REQUIRED.
Definition required_count (slots : list slot) : Z := zlen (List.filter is_required slots).

(** The check of the required fields is undefined for some numbers of them. *)
Definition countable_required (n : Z) : bool := (n =? 0) || ((n <? 64) && negb (n mod 32 =? 0)).

(** A message without fields has the terminator PB_LAST_FIELD. *)
Definition empty_ok (fields : list pb_field_t) : bool :=
  match fields with
  | f :: _ => (type f =? 0) && (data_size f =? 0)
  | [] => false
  end.

Fixpoint struct_ok (depth : nat) (fields : list pb_field_t) (dest : Z) : bool :=
  match depth with
  | O => false
  | S depth =>
      let slots := layout fields dest in
      terminated fields && (negb (zlen slots =? 0) || empty_ok fields) &&
      countable_required (required_count slots) && forallb (slot_fits (struct_ok depth)) slots
  end.
End Fits.

(** * The index of a required field *)

Lemma required_count_cons s l : required_count (s :: l) = (if is_required s then 1 else 0) + required_count l.
Proof. unfold required_count. cbn [List.filter]. destruct (is_required s); cbn [length]; lia. Qed.

Lemma required_count_nonneg l : 0 <= required_count l.
Proof. unfold required_count. lia. Qed.

Lemma required_count_take i l : required_count (take i l) <= required_count l.
Proof.
  revert i. induction l as [|s l IH]; intros [|i]; cbn [take]; try lia; [apply required_count_nonneg|].
  rewrite !required_count_cons. specialize (IH i). lia.
Qed.

Lemma required_count_snoc l s : required_count (l ++ [s]) = required_count l + if is_required s then 1 else 0.
Proof. unfold required_count. rewrite List.filter_app. cbn. destruct (is_required s); rewrite length_app; cbn; lia. Qed.

Lemma next_slot_req s f : 0 <= s_req s -> s_req s + 1 < 2 ^ 32 ->
  s_req (next_slot s f) = s_req s + if is_required s then 1 else 0.
Proof.
  intros H0 H1. unfold next_slot, is_required, same_union. destruct (htype (s_field s) =? PB_HTYPE_ONEOF) eqn:E; cbn [andb].
  - apply Z.eqb_eq in E. rewrite E. cbn -[u32]. destruct (_ && _); cbn; lia.
  - cbn -[u32]. destruct (htype (s_field s) =? PB_HTYPE_REQUIRED); [|lia]. apply u32_small. unfold is_u. lia.
Qed.

Lemma slots_from_req s fields i s' : slots_from s fields !! i = Some s' -> 0 <= s_req s ->
  s_req s + required_count (s :: slots_from s fields) + 1 < 2 ^ 32 ->
  s_req s' = s_req s + required_count (take (S i) (s :: slots_from s fields)).
Proof.
  revert s i. induction fields as [|f l IH]; intros s i; cbn [slots_from]; [done|]. case_if; [done|].
  intros Hi H0 Hb. cbn [take]. rewrite !required_count_cons in *. pose proof (required_count_nonneg (slots_from (next_slot s f) l)).
  assert (Hn : s_req (next_slot s f) = s_req s + if is_required s then 1 else 0)
    by (apply next_slot_req; [done|destruct (is_required s), (is_required (next_slot s f)); lia]).
  destruct i as [|i]; cbn [lookup list_lookup] in Hi.
  - injection Hi as <-. rewrite Hn. cbn [take]. unfold required_count. cbn. lia.
  - rewrite (IH _ i Hi); [|destruct (is_required s); lia|]; rewrite ?required_count_cons, Hn; [|destruct (is_required s); lia].
    cbn [take]. rewrite !required_count_cons. lia.
Qed.

Lemma layout_req fields dest i s : layout fields dest !! i = Some s -> required_count (layout fields dest) < 64 ->
  s_req s = required_count (take i (layout fields dest)).
Proof.
  destruct fields as [|f l]; cbn [layout]; [done|]. case_if; [done|]. intros Hi Hc.
  destruct i as [|i]; cbn [lookup list_lookup] in Hi; [by injection Hi as <-|].
  pose proof (slots_from_req (slot_at f (dest + data_offset f) 0) l i s Hi) as Hr. cbn [s_req slot_at] in Hr.
  rewrite Hr by lia. done.
Qed.

(** * Computations that stay inside an interval *)

Section Safe.
Variables (inp : mem) (lo hi : Z).
Hypothesis Hinp : mem_bytes inp.
Hypothesis Hdisj : forall a, lo <= a < hi -> inp !! a = None.

Definition inv (m : mem) : Prop := inp ⊆ m /\ mem_bytes m /\ mapped m lo (hi - lo).

Definition unchanged (m m' : mem) : Prop :=
  (forall a, a < lo \/ hi <= a -> m' !! a = m !! a) /\ (forall a, is_Some (m' !! a) <-> is_Some (m !! a)).

Definition safe {A} (x : M mem A) (P : A -> Prop) : Prop :=
  forall m, inv m -> exists a m', x m = Some (a, m') /\ inv m' /\ unchanged m m' /\ P a.

Lemma unchanged_refl m : unchanged m m.
Proof. by split. Qed.

Lemma safe_ret {A} (a : A) (P : A -> Prop) : P a -> safe (sret a) P.
Proof. intros H m Hm. exists a, m. split; [done|]. split; [done|]. split; [apply unchanged_refl|done]. Qed.

Lemma safe_bind {A B} (x : M mem A) (k : A -> M mem B) (P : A -> Prop) (Q : B -> Prop) :
  safe x P -> (forall a, P a -> safe (k a) Q) -> safe (sbind x k) Q.
Proof.
  intros Hx Hk m Hm. destruct (Hx m Hm) as (a & m1 & E1 & Hm1 & [Ho1 Hd1] & Ha).
  destruct (Hk a Ha m1 Hm1) as (b & m2 & E2 & Hm2 & [Ho2 Hd2] & Hb). exists b, m2.
  unfold sbind. rewrite E1. split; [done|]. split; [done|]. split; [|done]. split.
  - intros c Hc. by rewrite Ho2, Ho1.
  - intros c. by rewrite Hd2.
Qed.

Lemma safe_mono {A} (x : M mem A) (P Q : A -> Prop) : safe x P -> (forall a, P a -> Q a) -> safe x Q.
Proof. intros Hx HPQ m Hm. destruct (Hx m Hm) as (a & m' & E & H1 & H2 & H3). exists a, m'. auto. Qed.

Lemma safe_lift {A} (o : option A) (a : A) (P : A -> Prop) : o = Some a -> P a -> safe (slift o) P.
Proof. intros -> H. by apply (safe_ret a). Qed.

Lemma safe_get (P : mem -> Prop) : (forall m, P m) -> safe sget P.
Proof. intros H m Hm. exists m, m. split; [done|]. split; [done|]. split; [apply unchanged_refl|done]. Qed.

Lemma safe_store l a (P : unit -> Prop) : in_range lo hi a (zlen l) = true -> bytes_ok l -> P tt ->
  safe (mem_store a l) P.
Proof.
  unfold in_range. intros Hr Hok HP m (Hi & Hb & Hm). bool_simpl.
  destruct (store_bytes_spec l a m) as (m' & E & Hin & Hout); [eapply mapped_sub; [exact Hm|lia|lia]|].
  destruct (store_bytes_inv _ _ _ _ E) as (_ & _ & Hdom).
  exists tt, m'. unfold mem_store. rewrite E. split; [done|]. split; [|split; [split; [|done]|done]].
  - split; [|split; [by eapply store_bytes_ok|]].
    + eapply store_bytes_frame; [exact E|done|]. intros i Hil. apply Hdisj. lia.
    + intros i Hil. apply Hdom, Hm, Hil.
  - intros b Hbo. apply Hout. lia.
Qed.

Lemma safe_store_u n a v (P : unit -> Prop) : in_range lo hi a n = true -> P tt -> safe (store_u n a v) P.
Proof.
  intros Hr HP. apply safe_store; [|apply le_bytes_ok|done]. rewrite length_le_bytes.
  unfold in_range in *. bool_simpl. rewrite Z2Nat.id by lia. by rewrite !andb_true_iff, !Z.leb_le.
Qed.

Lemma safe_load_u n a (P : Z -> Prop) : in_range lo hi a n = true -> (forall v, 0 <= v < 256 ^ n -> P v) ->
  safe (load_u n a) P.
Proof.
  unfold in_range. intros Hr HP m (Hi & Hb & Hm). bool_simpl.
  destruct (load_bytes_mapped (Z.to_nat n) m a) as [l E]; [eapply mapped_sub; [exact Hm|lia|lia]|].
  assert (Eu : rd_u m n a = Some (le_val l)) by (unfold rd_u, rd; by rewrite E).
  exists (le_val l), m. rewrite (load_u_reads m n a _ m Eu (reflexivity m)). split; [done|].
  split; [done|]. split; [apply unchanged_refl|]. apply HP. by apply (rd_u_bound m n a).
Qed.

(** * Input streams *)

(** Whatever the outcome, a stream keeps reading a buffer; if a read succeeds, what
    is left of the stream is the end of what there was. *)
Definition stream_ok (s : pb_istream_t) : Prop :=
  icallback_ s = IC_BUF_READ /\ is_u 64 (bytes_left s) /\ mapped inp (istate s) (bytes_left s).

Definition after (s s' : pb_istream_t) : Prop :=
  stream_ok s' /\ bytes_left s' <= bytes_left s /\ istate s' + bytes_left s' = istate s + bytes_left s.

Definition status (s : pb_istream_t) (r : bool * pb_istream_t) : Prop :=
  icallback_ r.2 = IC_BUF_READ /\ (r.1 = true -> after s r.2).

Definition progress (s : pb_istream_t) (r : bool * pb_istream_t) : Prop :=
  icallback_ r.2 = IC_BUF_READ /\ (r.1 = true -> after s r.2 /\ bytes_left r.2 < bytes_left s).

Lemma status_error s s' msg : icallback_ s' = IC_BUF_READ -> safe (PB_RETURN_IERROR s' msg) (status s).
Proof. intros H. apply safe_ret. by split. Qed.

Lemma progress_error s s' msg : icallback_ s' = IC_BUF_READ -> safe (PB_RETURN_IERROR s' msg) (progress s).
Proof. intros H. apply safe_ret. by split. Qed.

Lemma after_refl s : stream_ok s -> after s s.
Proof. intros H. split; [done|lia]. Qed.

Lemma after_trans s1 s2 s3 : after s1 s2 -> after s2 s3 -> after s1 s3.
Proof. unfold after. intros (? & ? & ?) (? & ? & ?). split; [done|lia]. Qed.

Lemma progress_status s r : progress s r -> status s r.
Proof. intros [H1 H2]. split; [done|]. intros H. by apply H2. Qed.

Lemma status_after s s1 r : after s s1 -> status s1 r -> status s r.
Proof. intros Ha [H1 H2]. split; [done|]. intros H. eapply after_trans; [exact Ha|by apply H2]. Qed.

Lemma stream_content s : stream_ok s -> exists src, content inp s src.
Proof.
  intros (Hc & Hb & Hm). unfold is_u in Hb.
  destruct (load_bytes_mapped (Z.to_nat (bytes_left s)) inp (istate s)) as [src E]; [by rewrite Z2Nat.id by lia|].
  exists src. pose proof (load_bytes_length _ _ _ _ E) as Hl. unfold content. rewrite Hl.
  repeat split; [done|lia|lia|done|]. by eapply load_bytes_ok.
Qed.

Lemma content_ok s src : content inp s src -> stream_ok s.
Proof.
  intros (Hc & Hb & Hl & Hs & _). split; [done|]. rewrite Hb. split; [unfold is_u; lia|]. intros i Hi.
  apply load_bytes_lookup in Hs as [_ Hs]. replace i with (Z.of_nat (Z.to_nat i)) by lia. rewrite Hs by lia.
  apply lookup_lt_is_Some_2. lia.
Qed.

Lemma skip_after s n : stream_ok s -> 0 <= n <= bytes_left s -> after s (skip s n).
Proof.
  intros (Hc & Hb & Hm) Hn. unfold is_u in Hb. unfold after, stream_ok, skip. cbn.
  split; [split; [done|split; [unfold is_u; lia|]]|lia]. eapply mapped_sub; [exact Hm|lia|lia].
Qed.

(** A varint of at most 64 bits, or failure. *)
Definition varint_status (s : pb_istream_t) (w : Z) (r : option Z * pb_istream_t) : Prop :=
  icallback_ r.2 = IC_BUF_READ /\
  match r.1 with Some v => is_u w v /\ after s r.2 /\ bytes_left r.2 < bytes_left s | None => after s r.2 end.

Lemma safe_pure {A} (x : M mem A) (P : A -> Prop) :
  (forall m, inp ⊆ m -> exists a, x m = Some (a, m) /\ P a) -> safe x P.
Proof.
  intros H m Hm. destruct (H m (proj1 Hm)) as (a & E & Ha). exists a, m.
  split; [done|]. split; [done|]. split; [apply unchanged_refl|done].
Qed.

Lemma safe_decodes_varint s w n (x : M mem (option Z * pb_istream_t)) : stream_ok s -> 0 <= w ->
  (forall src m, content inp s src -> inp ⊆ m -> decodes_varint w n s src m (x m)) ->
  safe x (varint_status s w).
Proof.
  intros Hs Hw Hx. apply safe_pure. intros m Hm. destruct (stream_content s Hs) as [src Hc].
  specialize (Hx src m Hc Hm). unfold decodes_varint in Hx.
  destruct (parse_varint n src) as [[v rest]|] eqn:Ep.
  - eexists. split; [exact Hx|]. split; [apply Hs|]. cbn.
    destruct (parse_varint_suffix _ _ _ _ Ep) as (pre & -> & Hpre). destruct Hc as (_ & Hb & _).
    rewrite length_app in *. assert (Hp : zlen pre <> 0) by (intros H; by apply Hpre, zlen_0).
    split; [apply Z.mod_pos_bound, Z.pow_pos_nonneg; lia|]. split; [apply skip_after; [done|lia]|lia].
  - destruct Hx as (pre & rest & e & E & ->). eexists. split; [exact E|]. split; [apply Hs|].
    destruct Hc as (_ & Hb & _). rewrite length_app in Hb. exact (skip_after s (zlen pre) Hs ltac:(lia)).
Qed.

Lemma safe_varint s : stream_ok s -> safe (pb_decode_varint s) (varint_status s 64).
Proof.
  intros Hs. eapply safe_decodes_varint; [done|lia|]. intros. by eapply pb_decode_varint_spec.
Qed.

Lemma safe_varint32 s : stream_ok s -> safe (pb_decode_varint32 s) (varint_status s 32).
Proof.
  intros Hs. eapply safe_decodes_varint; [done|lia|]. intros. by eapply pb_decode_varint32_spec.
Qed.

(** Decoding a value and going on with it. *)
Lemma safe_with_value s w x k : safe x (varint_status s w) ->
  (forall v s', is_u w v -> stream_ok s' -> safe (k v s') (status s')) ->
  safe (with_value x k) (progress s).
Proof.
  intros Hx Hk. eapply safe_bind; [exact Hx|]. intros [[v|] s'] [Hc H]; cbn in *; [|apply safe_ret; by split].
  destruct H as (Hv & Ha & Hb). eapply safe_mono; [apply Hk; [done|apply Ha]|].
  intros r [H1 H2]. split; [done|]. intros Hok. specialize (H2 Hok).
  split; [by eapply after_trans|]. destruct H2 as (_ & H2 & _). lia.
Qed.

(** Reads of a given number of bytes. *)
Definition read_status (s : pb_istream_t) (n : Z) (r : bool * bytes * pb_istream_t) : Prop :=
  let '(ok, l, s') := r in icallback_ s' = IC_BUF_READ /\
  (ok = true -> zlen l = n /\ bytes_ok l /\ after s s' /\ bytes_left s' = bytes_left s - n).

Lemma content_take s n : stream_ok s -> 0 <= n <= bytes_left s ->
  exists pre rest, content inp s (pre ++ rest) /\ n = zlen pre.
Proof.
  intros Hs Hn. destruct (stream_content s Hs) as [src Hc]. pose proof Hc as (_ & Hb & _).
  exists (ztake n src), (zdrop n src). rewrite ztake_zdrop. split; [done|]. zlia.
Qed.

Lemma safe_read_local s n : stream_ok s -> 0 <= n -> safe (pb_read s DST_LOCAL n) (read_status s n).
Proof.
  intros Hs Hn. apply safe_pure. intros m Hm. destruct (Z.lt_ge_cases (bytes_left s) n) as [Hlt|Hge].
  - rewrite pb_read_short by (apply Hs || done). eexists. split; [done|]. split; [apply Hs|done].
  - destruct (content_take s n Hs ltac:(lia)) as (pre & rest & Hc & ->). rewrite (pb_read_local _ _ _ _ _ Hc Hm).
    eexists. split; [done|]. split; [apply Hs|]. intros _. split; [done|].
    split; [by eapply content_split|]. split; [apply skip_after; [done|lia]|done].
Qed.

Lemma safe_read_null s n : stream_ok s -> 0 <= n -> safe (pb_read_ s DST_NULL n) (status s).
Proof.
  intros Hs Hn. apply safe_pure. intros m Hm. unfold pb_read_, sbind.
  destruct (Z.lt_ge_cases (bytes_left s) n) as [Hlt|Hge].
  - rewrite pb_read_short by (apply Hs || done). eexists. split; [done|]. split; [apply Hs|done].
  - destruct (content_take s n Hs ltac:(lia)) as (pre & rest & Hc & ->). rewrite (pb_read_null _ _ _ _ _ Hc).
    eexists. split; [done|]. split; [apply Hs|]. intros _. by apply skip_after; [|lia].
Qed.

Lemma safe_read_at s a n : stream_ok s -> in_range lo hi a n = true -> safe (pb_read_ s (DST_AT a) n) (status s).
Proof.
  intros Hs Hr m Hinv. pose proof Hinv as (Hm & Hby & Hmap). unfold in_range in Hr. bool_simpl. unfold pb_read_, sbind.
  destruct (Z.lt_ge_cases (bytes_left s) n) as [Hlt|Hge].
  - rewrite pb_read_short by (apply Hs || done). eexists _, m. split; [done|]. split; [done|].
    split; [apply unchanged_refl|]. split; [apply Hs|done].
  - destruct (content_take s n Hs ltac:(lia)) as (pre & rest & Hc & ->).
    destruct (pb_read_at _ _ _ _ a _ Hc Hm) as (m' & E & Est).
    + eapply mapped_sub; [exact Hmap|lia|lia].
    + intros j Hj. apply Hdisj. lia.
    + rewrite E. assert (Hst : mem_store a pre m = Some (tt, m')) by (unfold mem_store; by rewrite Est).
      destruct (safe_store pre a (fun _ => True)) with (m := m) as (? & m2 & E2 & Hi2 & Hu2 & _); [|by eapply content_split|done|done|].
      * unfold in_range. by rewrite !andb_true_iff, !Z.leb_le.
      * rewrite Hst in E2. injection E2 as _ <-. eexists _, m'. split; [done|]. split; [done|]. split; [done|].
        split; [apply Hs|]. intros _. by apply skip_after; [|lia].
Qed.

(** ** Skipping *)

Lemma safe_skip_varint s : stream_ok s -> safe (pb_skip_varint s) (status s).
Proof.
  unfold pb_skip_varint. intros Hs. assert (Hf : bytes_left s < Z.of_nat (S (Z.to_nat (bytes_left s)))) by lia.
  revert Hs Hf. generalize (S (Z.to_nat (bytes_left s))) as fuel. intros fuel.
  revert s. induction fuel as [|fuel IH]; intros s Hs Hf.
  { destruct Hs as (_ & Hb & _). unfold is_u in Hb. lia. }
  cbn [skip_varint_loop]. eapply safe_bind; [apply safe_read_local; [done|lia]|].
  intros [[ok l] s'] [Hc H]. destruct ok; cbn [negb]; [|apply safe_ret; by split].
  destruct (H eq_refl) as (Hl & Hok & Ha & Hb). destruct l as [|b [|]]; cbn in Hl; try lia.
  eapply safe_bind; [by apply (safe_lift _ b (fun x => True))|]. intros byte _. case_if; [|apply safe_ret; by split].
  eapply safe_mono; [apply IH; [apply Ha|lia]|]. intros r. by apply status_after.
Qed.

Lemma safe_skip_string s : stream_ok s -> safe (pb_skip_string s) (status s).
Proof.
  intros Hs. eapply safe_mono; [|apply progress_status].
  apply (safe_with_value s 32 (pb_decode_varint32 s) (fun length s => pb_read_ s DST_NULL length)); [by apply safe_varint32|].
  intros v s' Hv Hs'. apply safe_read_null; [done|apply Hv].
Qed.

Lemma safe_skip_field s wt : stream_ok s -> safe (pb_skip_field s wt) (status s).
Proof.
  intros Hs. unfold pb_skip_field. case_if; [by apply safe_skip_varint|]. case_if; [by apply safe_read_null|].
  case_if; [by apply safe_skip_string|]. case_if; [by apply safe_read_null|]. apply status_error, Hs.
Qed.

(** ** Substreams *)

Lemma safe_make_substream s : stream_ok s ->
  safe (pb_make_string_substream s) (fun r => icallback_ r.2 = IC_BUF_READ /\
    match r.1 with
    | Some sub => stream_ok sub /\ stream_ok r.2 /\ istate s <= istate sub /\ istate sub = istate r.2 /\
        0 <= bytes_left r.2 < bytes_left s /\
        istate sub + bytes_left sub + bytes_left r.2 = istate s + bytes_left s
    | None => True
    end).
Proof.
  intros Hs. eapply safe_bind; [by apply safe_varint32|]. intros [[size|] s'] [Hc H]; cbn in *;
    [|by apply safe_ret]. destruct H as (Hv & (Hs' & Ha1 & Ha2) & Hb). case_if; [by apply safe_ret|]. apply safe_ret.
  pose proof Hs' as (_ & Hu & Hmap). unfold is_u in *. cbn. split; [done|].
  rewrite u64_small by (unfold is_u; lia).
  assert (Hst : forall n, 0 <= n <= bytes_left s' -> stream_ok (set_bytes_left s' n)).
  { intros n Hn. split; [done|]. cbn. split; [unfold is_u; lia|]. eapply mapped_sub; [exact Hmap|lia|lia]. }
  split; [apply Hst; lia|]. split; [apply Hst; lia|]. split; [lia|]. split; [done|]. split; [lia|]. lia.
Qed.

(** Closing a substream on which a decoder has run. *)
Lemma safe_close s0 s sub sub' ok : stream_ok s -> stream_ok sub -> istate sub = istate s ->
  0 <= bytes_left s < bytes_left s0 -> istate sub + bytes_left sub + bytes_left s = istate s0 + bytes_left s0 ->
  mapped inp (istate s0) (bytes_left s0) -> istate s0 <= istate s ->
  status sub (ok, sub') ->
  safe (let* (ok', s') := pb_close_string_substream s sub' in
        if negb ok' then sret (false, s') else sret (ok, s')) (progress s0).
Proof.
  intros Hs Hsub Hi Hb He Hmap Hge [Hc Ha]. cbn in Hc, Ha. apply safe_pure. intros m Hm.
  unfold pb_close_string_substream, pb_read_, sbind.
  assert (Hend : ok = true -> istate sub' + bytes_left sub' = istate sub + bytes_left sub) by (intros H; apply Ha, H).
  assert (Hfin : forall e, status s0 (ok, mk_istream (icallback_ s) (istate sub' + bytes_left sub') (bytes_left s) e)
     /\ (ok = true -> bytes_left s < bytes_left s0)).
  { intros e. split; [|lia]. split; [apply Hs|]. intros Hok. cbn. specialize (Hend Hok). unfold after, stream_ok. cbn.
    split; [split; [apply Hs|split; [apply Hs|]]|lia]. eapply mapped_sub; [exact Hmap|lia|lia]. }
  assert (Hprog : forall e, progress s0 (ok, mk_istream (icallback_ s) (istate sub' + bytes_left sub') (bytes_left s) e)).
  { intros e. destruct (Hfin e) as [[H1 H2] H3]. split; [done|]. intros H. split; [by apply H2|by apply H3]. }
  case_if; cbn [negb].
  - rewrite (pb_read_rest sub' m Hc). cbn. eexists. split; [done|]. apply Hprog.
  - cbn. eexists. split; [done|]. specialize (Hprog (ierrmsg sub')). rewrite E, Z.add_0_r in Hprog. exact Hprog.
Qed.

(** ** Field decoders *)

Lemma in_range_sub a n b k : in_range lo hi a n = true -> a <= b -> 0 <= k -> b + k <= a + n ->
  in_range lo hi b k = true.
Proof. unfold in_range. intros H ? ? ?. bool_simpl. rewrite !andb_true_iff, !Z.leb_le. lia. Qed.

Lemma safe_store_clamped (store : Z -> Z -> Z -> M mem Z) s f dest v : stream_ok s ->
  in_range lo hi dest (data_size f) = true ->
  (forall v, safe (store (data_size f) dest v) (fun _ => True)) -> safe (store_clamped store s f dest v) (status s).
Proof.
  intros Hs Hr Hst. unfold store_clamped. case_if; [|apply status_error, Hs].
  eapply safe_bind; [apply Hst|]. intros c _. case_if; [apply status_error, Hs|].
  apply safe_ret. split; [apply Hs|]. intros _. by apply after_refl.
Qed.

Lemma safe_store_s n dest v : in_range lo hi dest n = true -> safe (store_s n dest v) (fun _ => True).
Proof.
  intros Hr. eapply safe_bind; [by apply (safe_store_u n dest v (fun _ => True))|]. intros _ _. by apply safe_ret.
Qed.

Lemma safe_store_t n dest v : in_range lo hi dest n = true -> safe (store_t n dest v) (fun _ => True).
Proof.
  intros Hr. eapply safe_bind; [by apply (safe_store_u n dest v (fun _ => True))|]. intros _ _. by apply safe_ret.
Qed.

Lemma safe_svarint s : stream_ok s ->
  safe (pb_decode_svarint s) (fun r => icallback_ r.2 = IC_BUF_READ /\
    match r.1 with Some _ => after s r.2 /\ bytes_left r.2 < bytes_left s | None => True end).
Proof.
  intros Hs. eapply safe_bind; [by apply safe_varint|]. intros [[v|] s'] [Hc H]; cbn in *; [|by apply safe_ret].
  case_if; apply safe_ret; cbn; tauto.
Qed.

(** A fixed number of bytes into a local, then a store. *)
Lemma safe_fixed n s (k : bytes -> pb_istream_t -> M mem (bool * pb_istream_t)) : stream_ok s -> 0 < n ->
  (forall l s', zlen l = n -> stream_ok s' -> safe (k l s') (status s')) ->
  safe (let* (ok, l, s) := pb_read s DST_LOCAL n in if negb ok then sret (false, s) else k l s) (progress s).
Proof.
  intros Hs Hn Hk. eapply safe_bind; [apply safe_read_local; [done|lia]|]. intros [[ok l] s'] [Hc H].
  destruct ok; cbn [negb]; [|apply safe_ret; by split]. destruct (H eq_refl) as (Hl & _ & Ha & Hb).
  eapply safe_mono; [apply Hk; [done|apply Ha]|]. intros r [H1 H2]. split; [done|]. intros Hok. specialize (H2 Hok).
  split; [by eapply after_trans|]. destruct H2 as (_ & H2 & _). lia.
Qed.

Lemma safe_store_then s n dest v : stream_ok s -> in_range lo hi dest n = true ->
  safe (store_u n dest v ;;; sret (true, s)) (status s).
Proof.
  intros Hs Hr. eapply safe_bind; [by apply (safe_store_u n dest v (fun _ => True))|]. intros _ _.
  apply safe_ret. split; [apply Hs|]. intros _. by apply after_refl.
Qed.

Lemma safe_decode_fixed32 s dest : stream_ok s -> in_range lo hi dest 4 = true ->
  safe (pb_decode_fixed32 s dest) (progress s).
Proof.
  intros Hs Hr. apply (safe_fixed 4 s (fun l s => match l with
    | [b0; b1; b2; b3] => _ | _ => sstuck end)); [done|lia|]. intros l s' Hl Hs'.
  do 5 (destruct l as [|? l]; cbn [length] in Hl; try lia). by apply safe_store_then.
Qed.

Lemma safe_decode_fixed64 s dest : stream_ok s -> in_range lo hi dest 8 = true ->
  safe (pb_decode_fixed64 s dest) (progress s).
Proof.
  intros Hs Hr. apply (safe_fixed 8 s (fun l s => match l with
    | [b0; b1; b2; b3; b4; b5; b6; b7] => _ | _ => sstuck end)); [done|lia|]. intros l s' Hl Hs'.
  do 9 (destruct l as [|? l]; cbn [length] in Hl; try lia). by apply safe_store_then.
Qed.

Lemma safe_memset_zero dest n (P : unit -> Prop) : in_range lo hi dest n = true -> P tt ->
  safe (memset_zero dest n) P.
Proof.
  intros Hr HP. apply safe_store; [|apply bytes_ok_zrepeat; unfold is_u; lia|done].
  rewrite length_zrepeat, Z2Nat.id by (unfold in_range in Hr; bool_simpl; lia). done.
Qed.

Section Decoders.
Variables (f : pb_field_t) (dest : Z).
Hypothesis Hdest : in_range lo hi dest (data_size f) = true.

Lemma data_size_nonneg : 0 <= data_size f.
Proof. unfold in_range in Hdest. bool_simpl. lia. Qed.

Lemma safe_dec_varint s : stream_ok s -> safe (pb_dec_varint s f dest) (progress s).
Proof.
  intros Hs. eapply safe_with_value; [by apply safe_varint|]. intros v s' _ Hs'.
  apply safe_store_clamped; [done|done|]. intros. by apply safe_store_s.
Qed.

Lemma safe_dec_uvarint s : stream_ok s -> safe (pb_dec_uvarint s f dest) (progress s).
Proof.
  intros Hs. eapply safe_with_value; [by apply safe_varint|]. intros v s' _ Hs'.
  apply safe_store_clamped; [done|done|]. intros. by apply safe_store_t.
Qed.

Lemma safe_dec_svarint s : stream_ok s -> safe (pb_dec_svarint s f dest) (progress s).
Proof.
  intros Hs. eapply safe_bind; [by apply safe_svarint|]. intros [[v|] s'] [Hc H]; cbn in *; [|by apply safe_ret].
  destruct H as [Ha Hb]. eapply safe_mono;
    [apply (safe_store_clamped store_s s' f dest v); [apply Ha|done|intros; by apply safe_store_s]|].
  intros r [H1 H2]. split; [done|]. intros Hok. specialize (H2 Hok). split; [by eapply after_trans|].
  destruct H2 as (_ & H2 & _). lia.
Qed.

Lemma safe_dec_bytes s : stream_ok s -> safe (pb_dec_bytes s f dest) (progress s).
Proof.
  intros Hs. eapply safe_with_value; [by apply safe_varint32|]. intros v s' Hv Hs'. unfold is_u in Hv.
  case_if; [apply status_error, Hs'|]. cbv zeta. case_if; [apply status_error, Hs'|].
  case_if; [apply status_error, Hs'|]. case_if; [apply status_error, Hs'|]. bool_simpl.
  unfold PB_BYTES_ARRAY_T_ALLOCSIZE, offsetof_bytes in *. rewrite u64_small in * by (unfold is_u; lia).
  eapply safe_bind; [apply (safe_store_u _ _ _ (fun _ => True)); [|done]|intros _ _; apply safe_read_at; [done|]].
  - unfold sizeof_pb_size_t. eapply in_range_sub; [exact Hdest|lia|lia|lia].
  - eapply in_range_sub; [exact Hdest|lia|lia|lia].
Qed.

Lemma safe_dec_string s : stream_ok s -> safe (pb_dec_string s f dest) (progress s).
Proof.
  intros Hs. eapply safe_with_value; [by apply safe_varint32|]. intros v s' Hv Hs'. unfold is_u in Hv. cbv zeta.
  case_if; [apply status_error, Hs'|]. case_if; [apply status_error, Hs'|]. case_if; [apply status_error, Hs'|].
  bool_simpl. assert (Hw : u32 (v + 1) = v + 1).
  { rewrite u32_mod in *. destruct (Z.eq_dec v (2 ^ 32 - 1)) as [->|]; [exfalso; vm_compute in E; by apply E|].
    rewrite Z.mod_small by lia. done. }
  rewrite Hw in *. eapply safe_bind; [apply safe_read_at; [done|]|].
  - eapply in_range_sub; [exact Hdest|lia|lia|lia].
  - intros [ok s''] Hst. eapply safe_bind; [apply (safe_store_u _ _ _ (fun _ => True)); [|done]|intros _ _; by apply safe_ret].
    eapply in_range_sub; [exact Hdest|lia|lia|lia].
Qed.

Lemma safe_dec_fixed_length_bytes s : stream_ok s -> safe (pb_dec_fixed_length_bytes s f dest) (progress s).
Proof.
  intros Hs. eapply safe_with_value; [by apply safe_varint32|]. intros v s' Hv Hs'.
  case_if; [apply status_error, Hs'|]. case_if.
  - eapply safe_bind; [by apply (safe_memset_zero _ _ (fun _ => True))|]. intros _ _. apply safe_ret.
    split; [apply Hs'|]. intros _. by apply after_refl.
  - case_if; [apply status_error, Hs'|]. by apply safe_read_at.
Qed.

Variables (sub subn : pb_istream_t -> list pb_field_t -> Z -> M mem (bool * pb_istream_t)).

Lemma safe_dec_submessage s : stream_ok s ->
  match ptr f with
  | PTR_SUBMSG fields => forall s, stream_ok s -> safe (sub s fields dest) (status s) /\ safe (subn s fields dest) (status s)
  | _ => False
  end -> safe (pb_dec_submessage sub subn s f dest) (progress s).
Proof.
  intros Hs Hsub. eapply safe_bind; [by apply safe_make_substream|]. intros [[sub1|] s1] [Hc H]; cbn in *;
    [|apply safe_ret; by split]. destruct (ptr f) as [| |fields]; [done..|]. destruct H as (H1 & H2 & H0 & H3 & H4 & H5).
  destruct (Hsub sub1 H1) as [Ha Hb].
  assert (Hx : safe (if htype f =? PB_HTYPE_REPEATED then sub sub1 fields dest else subn sub1 fields dest) (status sub1))
    by (by case_if).
  eapply safe_bind; [exact Hx|]. intros [ok sub2] Hst. cbn.
  destruct Hs as (_ & _ & Hmap). pose proof H1 as (_ & Hu & _). unfold is_u in Hu.
  eapply (safe_close s s1 sub1); try done. lia.
Qed.

(** Every entry of the table of decoders. *)
Lemma safe_call_decoder s : stream_ok s -> value_fits f = true ->
  (ltype f = PB_LTYPE_SUBMESSAGE -> match ptr f with
   | PTR_SUBMSG fields => forall s, stream_ok s -> safe (sub s fields dest) (status s) /\ safe (subn s fields dest) (status s)
   | _ => False
   end) -> safe (call_decoder (PB_DECODERS sub subn (ltype f)) s f dest) (progress s).
Proof.
  intros Hs Hfit Hsub. unfold value_fits in Hfit. unfold PB_DECODERS.
  ltype_cases f; try (rewrite Elt in Hfit |- *); cbn -[Z.leb] in Hfit; bool_simpl.
  - by apply safe_dec_varint.
  - by apply safe_dec_uvarint.
  - by apply safe_dec_svarint.
  - apply safe_decode_fixed32; [done|]. change (3 <=? 2) with false in Hfit. cbn in Hfit. bool_simpl.
    eapply in_range_sub; [exact Hdest|lia|lia|lia].
  - apply safe_decode_fixed64; [done|]. change (4 <=? 2) with false in Hfit. cbn in Hfit. bool_simpl.
    eapply in_range_sub; [exact Hdest|lia|lia|lia].
  - by apply safe_dec_bytes.
  - by apply safe_dec_string.
  - apply safe_dec_submessage; [done|by apply Hsub].
  - done.
  - by apply safe_dec_fixed_length_bytes.
  - unfold_ltypes. rewrite !(proj2 (Z.eqb_neq (ltype f) _)), !(proj2 (Z.leb_gt (ltype f) _)) in Hfit by lia. done.
Qed.
End Decoders.

(** ** Fields *)

Lemma iter_fields_safe {A} fields dest (step : pb_field_iter_t -> A -> M mem (bool * A)) :
  terminated fields = true ->
  (forall i s a, layout fields dest !! i = Some s -> safe (step (it_at fields dest i s) a) (fun _ => True)) ->
  forall fuel i s a, layout fields dest !! i = Some s -> (length (layout fields dest) <= fuel + i)%nat ->
  safe (iter_fields fuel step (it_at fields dest i s) a) (fun _ => True).
Proof.
  intros Ht Hstep fuel. induction fuel as [|fuel IH]; intros i s a Hi Hf; [apply lookup_lt_Some in Hi; lia|].
  cbn [iter_fields]. destruct (lookup_lt_is_Some_2 (layout fields dest) 0) as [s0 H0];
    [apply lookup_lt_Some in Hi; lia|].
  eapply safe_bind; [by apply Hstep|]. intros [ok b] _. destruct ok; cbn [negb]; [|by apply safe_ret].
  rewrite (pb_field_iter_next_spec _ _ _ _ _ Ht Hi H0). destruct (layout fields dest !! S i) as [s'|] eqn:Es.
  - eapply safe_bind; [by eapply (safe_lift _ _ (fun x => x = (true, _)))|]. intros ? ->. apply IH; [done|lia].
  - eapply safe_bind; [by eapply (safe_lift _ _ (fun x => x = (false, _)))|]. intros ? ->. by apply safe_ret.
Qed.

(** A slot of a structure that fits, and an iterator on it. *)
Record on_slot (submsg : list pb_field_t -> Z -> bool) (it : pb_field_iter_t) (f : pb_field_t) : Prop := {
  os_cur : cur it = Some f;
  os_fits : slot_fits lo hi submsg (mk_slot f (pData it) (pSize it) (required_field_index it)) = true }.

Section Slot.
Context (submsg : list pb_field_t -> Z -> bool) (it : pb_field_iter_t) (f : pb_field_t).
Hypothesis Hon : on_slot submsg it f.

Lemma on_slot_range : 0 <= data_size f < 2 ^ 32 /\ 0 <= array_size f < 2 ^ 32.
Proof.
  destruct Hon as [_ H]. unfold slot_fits in H. cbn [s_field s_data] in H. apply andb_prop in H as [H _]. apply andb_prop in H as [H _].
  unfold field_range in H. cbn in H. bool_simpl. lia.
Qed.

Lemma on_slot_counted : is_repeated_or_oneof f = true -> in_range lo hi (pSize it) sizeof_pb_size_t = true.
Proof.
  destruct Hon as [_ H]. unfold slot_fits in H. cbn [s_field s_data] in H. apply andb_prop in H as [H _]. apply andb_prop in H as [_ H].
  unfold size_fits in H. cbn [s_field s_size] in H. intros E. by rewrite E in H.
Qed.

Lemma on_slot_optional : htype f = PB_HTYPE_OPTIONAL -> pSize it <> pData it -> in_range lo hi (pSize it) 1 = true.
Proof.
  destruct Hon as [_ H]. unfold slot_fits in H. cbn [s_field s_data] in H. apply andb_prop in H as [H _]. apply andb_prop in H as [_ H].
  unfold size_fits, is_repeated_or_oneof in H. cbn [s_field s_size s_data] in H. intros E Hne. rewrite E in H.
  cbn -[Z.eqb] in H. rewrite (proj2 (Z.eqb_neq _ _) Hne) in H. exact H.
Qed.

Lemma on_slot_pointer : atype f = PB_ATYPE_POINTER -> in_range lo hi (pData it) sizeof_ptr = true.
Proof.
  destruct Hon as [_ H]. unfold slot_fits in H. cbn [s_field s_data] in H. apply andb_prop in H as [_ H]. intros E.
  rewrite E, Z.eqb_refl in H. by apply andb_prop in H as [H _].
Qed.

Lemma on_slot_static : atype f = PB_ATYPE_STATIC ->
  value_fits f = true /\ data_size f * item_count f < 2 ^ 32 /\
  in_range lo hi (pData it) (data_size f * item_count f) = true /\
  (if ltype f =? PB_LTYPE_SUBMESSAGE then
     match ptr f with
     | PTR_SUBMSG fields => forallb (submsg fields) (addresses (item_count f) (pData it) (data_size f)) = true
     | _ => False
     end
   else is_repeated_or_oneof f || default_fits f = true).
Proof.
  destruct Hon as [_ H]. unfold slot_fits in H. cbn [s_field s_data] in H. apply andb_prop in H as [_ H]. intros E.
  rewrite E in H. cbn -[value_fits Z.mul in_range addresses default_fits is_repeated_or_oneof Z.pow Z.ltb] in H.
  rewrite !andb_true_iff, Z.ltb_lt in H. destruct H as [[[H1 H2] H3] H4].
  split; [done|]. split; [done|]. split; [done|]. case_if; [by destruct (ptr f)|done].
Qed.

Lemma on_slot_kind : (atype f = PB_ATYPE_POINTER \/ atype f = PB_ATYPE_STATIC) /\ ltype f <> PB_LTYPE_EXTENSION.
Proof.
  destruct Hon as [_ H]. unfold slot_fits in H. cbn [s_field s_data] in H. apply andb_prop in H as [_ H].
  destruct (Z.eqb_spec (atype f) PB_ATYPE_POINTER) as [->|].
  - apply andb_prop in H as [_ H]. bool_simpl. split; [by left|done].
  - rewrite !andb_true_iff in H. destruct H as [[[[H1 H2] _] _] _]. bool_simpl. split; [by right|].
    intros E. unfold value_fits in H2. by rewrite E in H2.
Qed.

(** The items of the field: one, or as many as the array has. *)
Lemma item_count_pos : is_repeated_or_oneof f = false \/ htype f <> PB_HTYPE_REPEATED -> item_count f = 1.
Proof.
  unfold item_count, is_repeated_or_oneof. intros H. case_if; [|done]. destruct H as [H|H]; [|done].
  by rewrite E in H.
Qed.

Lemma in_addresses k : 0 <= k < item_count f ->
  In (pData it + k * data_size f) (addresses (item_count f) (pData it) (data_size f)).
Proof.
  intros Hk. unfold addresses. apply in_map_iff. exists (Z.to_nat k). split; [by rewrite Z2Nat.id by lia|]. apply in_seq. lia.
Qed.

Lemma item_in_range k : atype f = PB_ATYPE_STATIC -> 0 <= k < item_count f ->
  u32 (data_size f * k) = k * data_size f /\ in_range lo hi (pData it + k * data_size f) (data_size f) = true.
Proof.
  intros Ha Hk. destruct (on_slot_static Ha) as (_ & Hlt & Hr & _). destruct on_slot_range as [Hd _].
  pose proof (Z.mul_le_mono_nonneg_l (k + 1) (item_count f) (data_size f) ltac:(lia) ltac:(lia)) as Hm.
  rewrite Z.mul_add_distr_l in Hm. pose proof (Z.mul_nonneg_nonneg (data_size f) k ltac:(lia) ltac:(lia)).
  split; [rewrite u32_small; [lia|unfold is_u; lia]|]. eapply in_range_sub; [exact Hr|lia|lia|lia].
Qed.

Lemma item_submsg fields k : atype f = PB_ATYPE_STATIC -> ltype f = PB_LTYPE_SUBMESSAGE -> ptr f = PTR_SUBMSG fields ->
  0 <= k < item_count f -> submsg fields (pData it + k * data_size f) = true.
Proof.
  intros Ha Hl Hp Hk. destruct (on_slot_static Ha) as (_ & _ & _ & H). rewrite Hl, Hp in H. cbn in H.
  apply (proj1 (forallb_forall _ _) H). by apply in_addresses.
Qed.
End Slot.

Lemma on_slot_it_at submsg fields dest i s : layout fields dest !! i = Some s -> slot_fits lo hi submsg s = true ->
  on_slot submsg (it_at fields dest i s) (s_field s).
Proof. intros Hi Hs. split; [by apply cur_it_at|]. by destruct s. Qed.

Lemma struct_ok_inv depth fields dest : struct_ok lo hi depth fields dest = true -> exists d, depth = S d /\
  terminated fields = true /\ (layout fields dest = [] -> empty_ok fields = true) /\
  countable_required (required_count (layout fields dest)) = true /\
  (forall i s, layout fields dest !! i = Some s -> slot_fits lo hi (struct_ok lo hi d) s = true).
Proof.
  destruct depth as [|d]; [done|]. cbn [struct_ok]. rewrite !andb_true_iff. intros [[[Ht He] Hc] Hf].
  exists d. split; [done|]. split; [done|]. split; [|split; [done|]].
  - intros E. by rewrite E in He.
  - intros i s Hi. apply (proj1 (forallb_forall _ _) Hf). apply list_elem_of_In. by eapply list_elem_of_lookup_2.
Qed.

(** ** Default values *)

Context `{PbUser}.

Lemma safe_memcpy_default p dest n (P : unit -> Prop) : in_range lo hi dest n = true -> P tt ->
  match p with
  | PTR_DEFAULT l => (n <=? zlen l) && forallb (fun b => (0 <=? b) && (b <? 256)) l = true
  | _ => False
  end -> safe (memcpy_default dest p n) P.
Proof.
  intros Hr HP Hp. unfold memcpy_default. destruct p as [|l|]; [done| |done]. apply andb_prop in Hp as [Hn Hb].
  rewrite Hn. apply Z.leb_le in Hn. unfold in_range in Hr. apply safe_store; [| |done].
  - unfold in_range. rewrite length_ztake. bool_simpl. rewrite !andb_true_iff, !Z.leb_le. lia.
  - apply bytes_ok_ztake. apply List.Forall_forall. intros b Hin.
    apply (proj1 (forallb_forall _ _) Hb) in Hin. bool_simpl. unfold is_u. lia.
Qed.

Lemma safe_store_size submsg it f v (P : unit -> Prop) : on_slot submsg it f -> is_repeated_or_oneof f = true -> P tt ->
  safe (store_u sizeof_pb_size_t (pSize it) v) P.
Proof. intros Hon Hr HP. apply safe_store_u; [by eapply on_slot_counted|done]. Qed.

Lemma safe_set_default d submsg it f :
  on_slot submsg it f ->
  (forall fields, ptr f = PTR_SUBMSG fields -> submsg fields (pData it) = true ->
     safe (set_fields_to_default (pb_field_set_to_default d) fields (pData it)) (fun _ => True)) ->
  safe (pb_field_set_to_default (S d) it) (fun _ => True).
Proof.
  intros Hon Hsub. cbn [pb_field_set_to_default].
  eapply safe_bind; [eapply (safe_lift _ f (fun x => x = f)); [apply (os_cur _ _ _ Hon)|done]|]. intros ? ->.
  destruct (on_slot_kind _ _ _ Hon) as [Hkind Hext]. rewrite (proj2 (Z.eqb_neq _ _) Hext).
  destruct Hkind as [Ha|Ha]; rewrite Ha; cbn [Z.eqb].
  - change (PB_ATYPE_POINTER =? PB_ATYPE_STATIC) with false. rewrite Z.eqb_refl.
    eapply safe_bind; [apply (safe_store_u _ _ _ (fun _ => True)); [by eapply on_slot_pointer|done]|].
    intros _ _. case_if; [by eapply safe_store_size|by apply safe_ret].
  - rewrite Z.eqb_refl. destruct (on_slot_static _ _ _ Hon Ha) as (_ & Hlt & Hr & Hval).
    apply (safe_bind _ _ (fun init => init = true -> is_repeated_or_oneof f = false)).
    + destruct (_ && _) eqn:E.
      * apply andb_prop in E as [E1 E2]. bool_simpl.
        eapply safe_bind; [apply (safe_store_u _ _ _ (fun _ => True)); [by eapply on_slot_optional|done]|].
        intros _ _. apply safe_ret. intros _. unfold is_repeated_or_oneof. by rewrite E1.
      * case_if; [|by apply safe_ret].
        eapply safe_bind; [by eapply (safe_store_size submsg it f 0 (fun _ => True))|]. intros _ _. by apply safe_ret.
    + intros init Hinit. destruct init; cbn [negb]; [|by apply safe_ret]. specialize (Hinit eq_refl).
      assert (Hc : item_count f = 1) by (apply item_count_pos; by left). rewrite Hc, Z.mul_1_r in Hr. case_if.
      * destruct (ptr f) as [| |fields] eqn:Ep; [done..|]. apply Hsub; [done|].
        pose proof (item_submsg _ _ _ Hon fields 0 Ha E Ep ltac:(lia)) as Hs. by rewrite Z.mul_0_l, Z.add_0_r in Hs.
      * rewrite Hinit in Hval. cbn in Hval. unfold default_fits in Hval.
        destruct (ptr f) as [|l|fields]; [by apply safe_memset_zero| |done]. by apply safe_memcpy_default.
Qed.

Lemma safe_defaults depth : forall d fields dest, (depth <= d)%nat -> struct_ok lo hi depth fields dest = true ->
  safe (set_fields_to_default (pb_field_set_to_default d) fields dest) (fun _ => True).
Proof.
  induction depth as [|depth IH]; intros d fields dest Hd Hok; [done|].
  destruct (struct_ok_inv _ _ _ Hok) as (d' & [= <-] & Ht & _ & _ & Hslots). destruct d as [|d]; [lia|].
  unfold set_fields_to_default. destruct (layout fields dest) as [|s0 L] eqn:EL.
  - destruct (pb_field_iter_begin_empty fields dest Ht EL) as (it & Eb & _).
    eapply safe_bind; [eapply (safe_lift _ _ (fun x => x = (false, it))); [exact Eb|done]|]. intros ? ->.
    by apply safe_ret.
  - assert (H0 : layout fields dest !! 0%nat = Some s0) by (by rewrite EL).
    eapply safe_bind; [eapply (safe_lift _ _ (fun x => x = (true, _))); [by apply pb_field_iter_begin_spec|done]|].
    intros ? ->. cbn [negb]. eapply safe_bind; [|intros [? ?] _; by apply safe_ret].
    apply iter_fields_safe; [done| |by rewrite EL|pose proof (length_layout fields dest Ht); lia].
    intros i s a Hi. eapply safe_bind; [|intros; by apply safe_ret].
    rewrite <- EL in Hslots. eapply safe_set_default; [apply (on_slot_it_at (struct_ok lo hi depth)); [done|by eapply Hslots]|].
    intros fs Hp Hfs. apply IH; [lia|done].
Qed.

(** ** Decoding a field *)

Section Fields.
Variables (buffer_at : Z) (callback_fuel depth : nat).
Variables sub subn : pb_istream_t -> list pb_field_t -> Z -> M mem (bool * pb_istream_t).
Variable submsg : list pb_field_t -> Z -> bool.
Hypothesis Hsub : forall fields dest s, submsg fields dest = true -> stream_ok s ->
  safe (sub s fields dest) (status s) /\ safe (subn s fields dest) (status s).
Hypothesis Hdef : forall fields dest, submsg fields dest = true ->
  safe (pb_message_set_to_defaults depth fields dest) (fun _ => True).

#[local] Abbreviation decoder f := (PB_DECODERS sub subn (ltype f)).

Lemma safe_call_item it f k s : on_slot submsg it f -> atype f = PB_ATYPE_STATIC -> 0 <= k < item_count f ->
  stream_ok s -> safe (call_decoder (decoder f) s f (pData it + k * data_size f)) (progress s).
Proof.
  intros Hon Ha Hk Hs. destruct (on_slot_static _ _ _ Hon Ha) as (Hfit & _ & _ & Hv).
  apply safe_call_decoder; [by eapply item_in_range|done|done|]. intros Hl. rewrite Hl in Hv. cbn in Hv.
  destruct (ptr f) as [| |fields] eqn:Ep; [done..|]. intros s' Hs'. apply Hsub; [|done].
  by eapply item_submsg.
Qed.

Lemma safe_call_first it f s : on_slot submsg it f -> atype f = PB_ATYPE_STATIC -> htype f <> PB_HTYPE_REPEATED ->
  stream_ok s -> safe (call_decoder (decoder f) s f (pData it)) (progress s).
Proof.
  intros Hon Ha Hr Hs. pose proof (safe_call_item it f 0 s Hon Ha) as Hx. rewrite Z.mul_0_l, Z.add_0_r in Hx.
  apply Hx; [|done]. assert (Hc : item_count f = 1) by (apply item_count_pos; by right). lia.
Qed.

Lemma safe_load_size it f (P : Z -> Prop) : on_slot submsg it f -> htype f = PB_HTYPE_REPEATED ->
  (forall v, 0 <= v < 2 ^ 32 -> P v) -> safe (load_u sizeof_pb_size_t (pSize it)) P.
Proof.
  intros Hon Hr HP. apply safe_load_u; [|intros v Hv; by apply HP].
  eapply on_slot_counted; [done|]. unfold is_repeated_or_oneof. by rewrite Hr.
Qed.

Lemma safe_packed_loop it f : on_slot submsg it f -> atype f = PB_ATYPE_STATIC -> htype f = PB_HTYPE_REPEATED ->
  forall fuel s, stream_ok s -> bytes_left s < Z.of_nat fuel -> safe (packed_loop fuel (decoder f) it f s) (status s).
Proof.
  intros Hon Ha Hr fuel. assert (Hc : item_count f = array_size f) by (unfold item_count; by rewrite Hr).
  induction fuel as [|fuel IH]; intros s Hs Hf.
  { destruct Hs as (_ & Hb & _). unfold is_u in Hb. lia. }
  cbn [packed_loop]. eapply safe_bind; [by eapply (safe_load_size it f (fun v => 0 <= v < 2 ^ 32))|]. intros k Hk.
  cbv beta in Hk. destruct (_ && _) eqn:E; [|apply safe_ret; split; [apply Hs|intros _; by apply after_refl]].
  apply andb_prop in E as [E1 E2]. bool_simpl. assert (Hkc : 0 <= k < item_count f) by lia.
  unfold item_at. destruct (item_in_range _ _ _ Hon k Ha Hkc) as [Hu _]. rewrite Hu.
  eapply safe_bind; [by apply safe_call_item|]. intros [ok s'] [Hcb Hp]. cbn in Hcb, Hp.
  destruct ok; cbn [negb]; [|apply safe_ret; by split]. destruct (Hp eq_refl) as [Haf Hlt].
  eapply safe_bind; [by eapply (safe_load_size it f (fun v => 0 <= v < 2 ^ 32))|]. intros k' _.
  eapply safe_bind; [eapply (safe_store_size submsg it f _ (fun _ => True)); [done| |done]|].
  - unfold is_repeated_or_oneof. by rewrite Hr.
  - intros _ _. eapply safe_mono; [apply IH; [apply Haf|lia]|]. intros r. by apply status_after.
Qed.

Lemma safe_decode_static_field it f s wt : on_slot submsg it f -> atype f = PB_ATYPE_STATIC -> stream_ok s ->
  safe (decode_static_field depth sub subn s wt it) (status s).
Proof.
  intros Hon Ha Hs. unfold decode_static_field.
  eapply safe_bind; [eapply (safe_lift _ f (fun x => x = f)); [apply (os_cur _ _ _ Hon)|done]|]. intros ? ->.
  cbv zeta. destruct (on_slot_static _ _ _ Hon Ha) as (_ & Hlt & Hr & Hval). destruct (Z.eqb_spec (htype f) PB_HTYPE_REQUIRED) as [Hh|].
  { eapply safe_mono; [apply safe_call_first; [done|done|by rewrite Hh|done]|apply progress_status]. }
  destruct (Z.eqb_spec (htype f) PB_HTYPE_OPTIONAL) as [Hh|].
  { eapply safe_bind with (P := fun _ => True).
    - case_if; [|by apply safe_ret]. apply safe_store_u; [by eapply on_slot_optional|done].
    - intros _ _. eapply safe_mono; [apply safe_call_first; [done|done|by rewrite Hh|done]|apply progress_status]. }
  destruct (Z.eqb_spec (htype f) PB_HTYPE_REPEATED) as [Hh|Hnr].
  - assert (Hc : item_count f = array_size f) by (unfold item_count; by rewrite Hh). destruct (_ && _).
    + eapply safe_bind; [by apply safe_make_substream|]. intros [[sub1|] s1] [Hcb Hx]; cbn in Hcb, Hx;
        [|apply safe_ret; by split]. destruct Hx as (H1 & H2 & H0 & H3 & H4 & H5).
      pose proof H1 as (_ & Hu1 & _). unfold is_u in Hu1.
      eapply safe_bind; [apply (safe_packed_loop it f Hon Ha Hh); [done|lia]|]. intros [ok sub2] Hst. cbn.
      destruct (negb (bytes_left sub2 =? 0)); [by apply status_error|].
      eapply safe_mono; [|apply progress_status]. destruct Hs as (_ & _ & Hmap). eapply (safe_close s s1 sub1); try done.
      lia.
    + eapply safe_bind; [by eapply (safe_load_size it f (fun v => 0 <= v < 2 ^ 32))|]. intros k Hk. cbv beta in Hk. cbv zeta.
      case_if; [apply status_error, Hs|].
      eapply safe_bind; [eapply (safe_store_size submsg it f _ (fun _ => True)); [done| |done]|].
      * unfold is_repeated_or_oneof. by rewrite Hh.
      * intros _ _. assert (Hkc : 0 <= k < item_count f) by lia.
        unfold item_at. destruct (item_in_range _ _ _ Hon k Ha Hkc) as [Hu _]. rewrite Hu.
        eapply safe_mono; [by apply safe_call_item|apply progress_status].
  - assert (Hone : is_repeated_or_oneof f = true).
    { unfold is_repeated_or_oneof. rewrite orb_true_iff, !Z.eqb_eq. destruct (htype_cases f) as [?|[?|[?|?]]]; tauto. }
    eapply safe_bind; [by eapply (safe_store_size submsg it f _ (fun _ => True))|]. intros _ _.
    assert (Hc : item_count f = 1) by (apply item_count_pos; by right). rewrite Hc, Z.mul_1_r in Hr.
    eapply safe_bind with (P := fun _ => True).
    + case_if; [|by apply safe_ret]. eapply safe_bind; [by apply (safe_memset_zero _ _ (fun _ => True))|]. intros _ _.
      destruct (ptr f) as [| |fields] eqn:Ep; [done..|]. apply Hdef.
      pose proof (item_submsg _ _ _ Hon fields 0 Ha E Ep ltac:(lia)) as Hx. by rewrite Z.mul_0_l, Z.add_0_r in Hx.
    + intros _ _. eapply safe_mono; [by apply safe_call_first|apply progress_status].
Qed.

Lemma safe_decode_field it f s wt : on_slot submsg it f -> stream_ok s ->
  safe (decode_field buffer_at callback_fuel depth sub subn s wt it) (status s).
Proof.
  intros Hon Hs. unfold decode_field.
  eapply safe_bind; [eapply (safe_lift _ f (fun x => x = f)); [apply (os_cur _ _ _ Hon)|done]|]. intros ? ->.
  destruct (on_slot_kind _ _ _ Hon) as [[Ha|Ha] _].
  - rewrite Ha. apply status_error, Hs.
  - rewrite Ha. by eapply safe_decode_static_field.
Qed.

(** ** Decoding a message *)

Section Message.
Variables (fields : list pb_field_t) (dest : Z).
Hypothesis Hterm : terminated fields = true.
Hypothesis Hempty : layout fields dest = [] -> empty_ok fields = true.
Hypothesis Hslots : forall i s, layout fields dest !! i = Some s -> slot_fits lo hi submsg s = true.

(** The iterator of the decoder is on a slot, or on the terminator of an empty table. *)
Definition iter_ok (it : pb_field_iter_t) : Prop :=
  (exists i s, layout fields dest !! i = Some s /\ it = it_at fields dest i s) \/
  (layout fields dest = [] /\ it = mk_iter fields 0 0 dest (pData it) (pSize it)).

Definition ds_ok (s0 : pb_istream_t) (r : bool * decode_state) : Prop :=
  icallback_ (ds_stream r.2) = IC_BUF_READ /\
  (r.1 = true -> after s0 (ds_stream r.2) /\ length (fields_seen r.2) = 2%nat /\ iter_ok (ds_iter r.2)).

Lemma empty_terminator : layout fields dest = [] -> exists f, fields !! 0%nat = Some f /\ tag f = 0 /\ type f = 0 /\ data_size f = 0.
Proof.
  intros E. destruct (proj1 (layout_empty fields dest Hterm) E) as (f & Hf & Ht). exists f.
  pose proof (Hempty E) as He. destruct fields as [|g l]; [done|]. injection Hf as ->. cbn in He. bool_simpl. done.
Qed.

(** A search in an empty table looks at the terminator. *)
Lemma empty_find it : layout fields dest = [] -> it = mk_iter fields 0 0 dest (pData it) (pSize it) ->
  exists f, cur it = Some f /\ type f = 0 /\ data_size f = 0 /\
    forall wanted, iter_find (length (start it)) wanted (pos it) it = Some (wanted f, it).
Proof.
  intros E Hit. destruct (empty_terminator E) as (f & Hf & Htag & Hty & Hsz).
  assert (Hcur : cur it = Some f) by (by rewrite Hit). exists f. split; [done|]. split; [done|]. split; [done|].
  intros wanted. assert (Hlen : exists n, length (start it) = S n).
  { apply lookup_lt_Some in Hf. rewrite Hit. cbn. exists (length fields - 1)%nat. lia. }
  destruct Hlen as [n ->]. cbn [iter_find]. rewrite Hcur. destruct (wanted f); [done|].
  unfold pb_field_iter_next. rewrite Hcur, Htag. cbn. by rewrite Nat.eqb_refl.
Qed.

(** A search stays on the table, and finds no extension. *)
Lemma iter_ok_find it t : iter_ok it -> exists b it', pb_field_iter_find it t = Some (b, it') /\ iter_ok it' /\
  (b = true -> (exists f, on_slot submsg it' f) \/ (exists f, cur it' = Some f /\ type f = 0 /\ data_size f = 0 /\
     required_field_index it' = 0)).
Proof.
  intros [(i & s & Hi & ->)|[E Hit]].
  - destruct (pb_field_iter_find_spec fields dest i s t Hterm Hi) as [(j & x & Hj & Hx & ->)|[_ ->]].
    + exists true, (it_at fields dest j x). split; [done|]. split; [by left; exists j, x|]. intros _. left.
      exists (s_field x). apply on_slot_it_at; [done|by eapply Hslots].
    + exists false, (it_at fields dest i s). split; [done|]. split; [by left; exists i, s|done].
  - destruct (empty_find it E Hit) as (f & Hcur & Hty & Hsz & Hfind). unfold pb_field_iter_find. rewrite Hfind.
    eexists _, it. split; [done|]. split; [by right|]. intros _. right. exists f. rewrite Hit. by rewrite Hit in Hcur.
Qed.

Lemma iter_ok_no_extension it : iter_ok it -> exists it' f, find_extension_field it = Some (false, it') /\
  iter_ok it' /\ cur it' = Some f.
Proof.
  intros [(i & s & Hi & ->)|[E Hit]].
  - pose proof (lookup_lt_Some _ _ _ Hi) as Hlt. pose proof (length_layout fields dest Hterm) as Hl.
    pose proof (iter_find_spec fields dest (fun f => ltype f =? PB_LTYPE_EXTENSION) (length fields) i s 0 s) as Hx.
    cbn zeta in Hx. rewrite (Nat.add_0_r i), (Nat.mod_small i) in Hx by exact Hlt.
    destruct Hx as [(j & x & Hj & Hw & _)|[_ Hx]]; [done|done|lia|lia|done|done|lia| |].
    + exfalso. pose proof (on_slot_kind _ _ _ (on_slot_it_at submsg fields dest j x Hj (Hslots _ _ Hj))) as [_ Hk].
      apply Z.eqb_eq in Hw. done.
    + exists (it_at fields dest i s), (s_field s). split; [exact Hx|]. split; [by left; exists i, s|by apply cur_it_at].
  - destruct (empty_find it E Hit) as (f & Hcur & Hty & Hsz & Hfind). unfold find_extension_field. rewrite Hfind.
    exists it, f. unfold ltype. rewrite Hty. split; [done|]. split; [by right|done].
Qed.

Lemma safe_decode_unknown s0 d wt t : ds_ok s0 (true, d) -> 0 <= t < 2 ^ 29 ->
  safe (decode_unknown buffer_at callback_fuel depth sub subn d wt t) (ds_ok s0).
Proof.
  intros [_ Hd] Ht. destruct (Hd eq_refl) as (Ha & Hl & Hit). cbn in Ha, Hl, Hit. unfold decode_unknown. cbv zeta.
  eapply safe_bind with (P := fun x => exists it start, x = (it, start, None, ds_stream d) /\ iter_ok it).
  - case_if; [|apply safe_ret; by exists (ds_iter d), (extension_range_start d)].
    destruct (iter_ok_no_extension _ Hit) as (it' & f & Ef & Hit' & Hcur).
    eapply safe_bind; [eapply (safe_lift _ _ (fun x => x = (false, it'))); [exact Ef|done]|]. intros ? ->.
    eapply safe_bind; [eapply (safe_lift _ _ (fun x => x = f)); [exact Hcur|done]|]. intros ? ->. cbn [negb].
    rewrite Z.geb_leb, (proj2 (Z.leb_gt _ _)) by lia. apply safe_ret. by eexists it', _.
  - intros ? (it & start & -> & Hit'). eapply safe_bind; [apply safe_skip_field, Ha|]. intros [ok s] [Hc Hok].
    apply safe_ret. cbn in Hc, Hok. split; [done|]. cbn. intros ->. split; [|done].
    by eapply after_trans; [|apply Hok].
Qed.

Lemma mark_seen_defined it f seen : 0 <= required_field_index it -> length seen = 2%nat ->
  exists seen', mark_seen it f seen = Some seen' /\ length seen' = 2%nat.
Proof.
  intros H0 Hl. unfold mark_seen. destruct (_ && _) eqn:E; [|by exists seen]. bool_simpl. unfold PB_MAX_REQUIRED_FIELDS in *.
  destruct (lookup_lt_is_Some_2 seen (Z.to_nat (Z.shiftr (required_field_index it) 5))) as [w ->].
  - rewrite Hl, Z.shiftr_div_pow2 by lia. apply Nat2Z.inj_lt. rewrite Z2Nat.id by (apply Z.div_pos; lia).
    apply Z.div_lt_upper_bound; lia.
  - eexists. split; [done|]. by rewrite length_insert.
Qed.

Hypothesis Hcount : countable_required (required_count (layout fields dest)) = true.

Lemma required_count_64 : required_count (layout fields dest) < 64.
Proof. unfold countable_required in Hcount. apply orb_true_iff in Hcount as [E|E]; bool_simpl; lia. Qed.

Lemma iter_ok_index it : iter_ok it -> 0 <= required_field_index it.
Proof.
  intros [(i & s & Hi & ->)|[_ ->]]; [|done]. cbn. rewrite (layout_req _ _ _ _ Hi required_count_64).
  apply required_count_nonneg.
Qed.

Lemma safe_decode_one s0 d wt t : ds_ok s0 (true, d) -> 0 <= t < 2 ^ 29 ->
  safe (decode_one buffer_at callback_fuel depth sub subn d wt t) (ds_ok s0).
Proof.
  intros Hds Ht. pose proof Hds as [_ Hd]. destruct (Hd eq_refl) as (Ha & Hl & Hit). cbn in Ha, Hl, Hit.
  unfold decode_one. destruct (iter_ok_find _ t Hit) as (b & it' & Ef & Hit' & Hb).
  eapply safe_bind; [eapply (safe_lift _ _ (fun x => x = (b, it'))); [exact Ef|done]|]. intros ? ->. cbv zeta.
  destruct b; cbn [negb]; [|apply safe_decode_unknown; [split; [apply Ha|done]|done]].
  assert (Hcur : exists f, cur it' = Some f) by (destruct (Hb eq_refl) as [[f Hon]|(f & Hc & _)]; [exists f; apply Hon|by exists f]).
  destruct Hcur as [f Hcur].
  eapply safe_bind; [eapply (safe_lift _ _ (fun x => x = f)); [exact Hcur|done]|]. intros ? ->.
  destruct (mark_seen_defined it' f (fields_seen d) (iter_ok_index _ Hit') Hl) as (seen' & Em & Hl').
  eapply safe_bind; [eapply (safe_lift _ _ (fun x => x = seen')); [exact Em|done]|]. intros ? ->.
  eapply safe_bind with (P := status (ds_stream d)).
  - destruct (Hb eq_refl) as [[g Hon]|(g & Hc & Hty & Hsz & _)]; [by eapply safe_decode_field; [|apply Ha]|].
    assert (g = f) as -> by congruence. unfold decode_field.
    eapply safe_bind; [eapply (safe_lift _ _ (fun x => x = f)); [exact Hcur|done]|]. intros ? ->.
    replace (atype f) with 0 by (unfold atype; by rewrite Hty). cbn [Z.eqb PB_ATYPE_STATIC].
    unfold decode_static_field.
    eapply safe_bind; [eapply (safe_lift _ _ (fun x => x = f)); [exact Hcur|done]|]. intros ? ->.
    replace (htype f) with 0 by (unfold htype; by rewrite Hty). replace (ltype f) with 0 by (unfold ltype; by rewrite Hty).
    cbn. eapply safe_mono; [|apply progress_status]. eapply safe_with_value; [apply safe_varint, Ha|].
    intros v s' _ Hs'. unfold store_clamped. rewrite Hsz. cbn. apply status_error, Hs'.
  - intros [ok s] [Hc Hok]. apply safe_ret. cbn in Hc, Hok. split; [done|]. cbn. intros ->. split; [|done].
    by eapply after_trans; [|apply Hok].
Qed.

Lemma safe_decode_tag s : stream_ok s -> safe (pb_decode_tag s) (fun r =>
  let '(ok, wt, t, eof, s') := r in icallback_ s' = IC_BUF_READ /\
  after s s' /\ (ok = true -> 0 <= t < 2 ^ 29 /\ bytes_left s' < bytes_left s)).
Proof.
  intros Hs. unfold pb_decode_tag. eapply safe_bind; [by apply safe_varint32|].
  intros [[v|] s'] [Hc Hv]; cbn in *; [|by apply safe_ret]. destruct Hv as (Hv & Ha & Hb).
  case_if; [by apply safe_ret|]. apply safe_ret. split; [done|]. split; [done|]. intros _. split; [|done]. unfold is_u in Hv.
  rewrite Z.shiftr_div_pow2 by lia. split; [apply Z.div_pos; lia|apply Z.div_lt_upper_bound; lia].
Qed.

Lemma safe_decode_loop s0 : forall fuel d, ds_ok s0 (true, d) -> bytes_left (ds_stream d) < Z.of_nat fuel ->
  safe (decode_loop buffer_at callback_fuel depth sub subn fuel d) (ds_ok s0).
Proof.
  intros fuel. induction fuel as [|fuel IH]; intros d Hds Hf; pose proof Hds as [_ Hd];
    destruct (Hd eq_refl) as (Ha & Hl & Hit); cbn in Ha, Hl, Hit.
  { destruct Ha as ((_ & Hb & _) & _). unfold is_u in Hb. lia. }
  cbn [decode_loop]. case_if; [by apply safe_ret|].
  eapply safe_bind; [apply safe_decode_tag, Ha|]. intros [[[[ok wt] t] eof] s'] (Hc & Ha' & Hok).
  assert (Hds' : ds_ok s0 (true, set_ds_stream d s')).
  { split; [done|]. intros _. split; [by eapply after_trans|done]. }
  destruct ok; cbn [negb]; [|apply safe_ret; split; [done|intros _; by apply Hds']].
  destruct (Hok eq_refl) as [Ht Hlt]. eapply safe_bind with (P := fun r => ds_ok s' r).
  - apply safe_decode_one; [split; [done|]|done]. intros _. cbn. split; [apply after_refl, Ha'|done].
  - intros [ok d'] [Hc' Hd']. cbn in Hc', Hd'. destruct ok; cbn [negb]; [|by apply safe_ret; split].
    destruct (Hd' eq_refl) as (Ha2 & Hl2 & Hit2). eapply safe_mono.
    + apply IH; [|destruct Ha2 as (_ & ? & _); lia]. split; [done|]. intros _. cbn. split; [|done].
      eapply after_trans; [exact Ha|]. eapply after_trans; [exact Ha'|]. exact Ha2.
    + done.
Qed.

(** The count of required fields, from any position. *)
Lemma seek_end_spec i s : layout fields dest !! i = Some s -> forall fuel, (length (layout fields dest) <= fuel + i)%nat ->
  exists last s0, layout fields dest !! (length (layout fields dest) - 1)%nat = Some last /\
    layout fields dest !! 0%nat = Some s0 /\
    seek_end fuel (it_at fields dest i s) = Some (s_req last, s_field last, it_at fields dest 0 s0).
Proof.
  intros Hi fuel. revert i s Hi. induction fuel as [|fuel IH]; intros i s Hi Hf; pose proof (lookup_lt_Some _ _ _ Hi) as Hlt; [lia|].
  destruct (lookup_lt_is_Some_2 (layout fields dest) 0) as [s0 H0]; [lia|].
  cbn [seek_end]. rewrite (cur_it_at _ _ _ _ Hi), (pb_field_iter_next_spec _ _ _ _ _ Hterm Hi H0).
  destruct (layout fields dest !! S i) as [s'|] eqn:Es; [apply IH; [done|lia]|].
  apply lookup_ge_None_1 in Es. exists s, s0. split; [|done].
  by replace (length (layout fields dest) - 1)%nat with i by lia.
Qed.

Lemma check_seen_defined n seen : 0 <= n -> countable_required n = true -> n <> 0 -> length seen = 2%nat ->
  exists b, check_seen n seen = Some b.
Proof.
  intros H0 Hc Hn Hl. unfold countable_required in Hc. rewrite (proj2 (Z.eqb_neq _ _) Hn) in Hc. cbn [orb] in Hc.
  bool_simpl. unfold check_seen. cbv zeta. destruct (negb _); [by exists false|].
  rewrite Z.shiftr_div_pow2 by lia. assert (n / 2 ^ 5 < 2) by (apply Z.div_lt_upper_bound; lia).
  destruct (lookup_lt_is_Some_2 seen (Z.to_nat (n / 2 ^ 5))) as [w ->]; [rewrite Hl; lia|].
  change 31 with (Z.ones 5). rewrite Z.land_ones by lia. change (2 ^ 5) with 32.
  pose proof (Z.mod_pos_bound n 32 ltac:(lia)). rewrite Z.geb_leb, (proj2 (Z.leb_gt _ _)) by lia. by eexists.
Qed.

(** The number of required fields that pb_decode_noinit counts. *)
Lemma required_total it : iter_ok it -> exists n last it' f, seek_end (length (start it)) it = Some (n, last, it') /\
  cur it' = Some f /\
  (if (htype last =? PB_HTYPE_REQUIRED) && negb (tag f =? 0) then u32 (n + 1) else n) = required_count (layout fields dest).
Proof.
  intros [(i & s & Hi & ->)|[E Hit]].
  - pose proof (length_layout fields dest Hterm) as Hlen.
    destruct (seek_end_spec i s Hi (length fields)) as (last & s1 & Hlast & H1 & Hs); [lia|].
    exists (s_req last), (s_field last), (it_at fields dest 0 s1), (s_field s1). split; [exact Hs|].
    split; [by apply cur_it_at|]. destruct (layout_lookup _ _ _ _ H1) as [_ Htag].
    rewrite (proj2 (Z.eqb_neq _ _) Htag), andb_true_r. pose proof required_count_64 as H64.
    pose proof (layout_req _ _ _ _ Hlast H64) as Hr. pose proof (required_count_nonneg (take (length (layout fields dest) - 1) (layout fields dest))).
    assert (Etot : required_count (layout fields dest) = s_req last + if is_required last then 1 else 0).
    { rewrite Hr. pose proof (take_S_r _ _ _ Hlast) as Et. pose proof (lookup_lt_Some _ _ _ Hlast).
      rewrite take_ge in Et by lia. rewrite Et at 1. by rewrite required_count_snoc. }
    unfold is_required in Etot. rewrite Etot. destruct (_ =? _); [|lia]. apply u32_small. unfold is_u. lia.
  - destruct (proj1 (layout_empty fields dest Hterm) E) as (f & Hf & Htag). assert (Hcur : cur it = Some f) by (by rewrite Hit).
    assert (Hlen : exists n, length (start it) = S n).
    { apply lookup_lt_Some in Hf. rewrite Hit. cbn. exists (length fields - 1)%nat. lia. }
    destruct Hlen as [n ->]. exists 0, f, it, f. cbn [seek_end]. rewrite Hcur. unfold pb_field_iter_next.
    rewrite Hcur, Htag. cbn. split; [by rewrite Hit|]. split; [done|]. by rewrite andb_false_r, E.
Qed.

Lemma safe_check_required s0 d : ds_ok s0 (true, d) -> safe (check_required d) (status s0).
Proof.
  intros [_ Hd]. destruct (Hd eq_refl) as (Ha & Hl & Hit). cbn in Ha, Hl, Hit. unfold check_required.
  destruct (required_total _ Hit) as (n & last & it & f & Es & Hcur & Hm).
  eapply safe_bind; [eapply (safe_lift _ _ (fun x => x = (n, last, it))); [exact Es|done]|]. intros ? ->.
  eapply safe_bind; [eapply (safe_lift _ _ (fun x => x = f)); [exact Hcur|done]|]. intros ? ->. cbv zeta. rewrite Hm.
  pose proof (required_count_nonneg (layout fields dest)) as Hm0. case_if; [|apply safe_ret; split; [apply Ha|done]].
  destruct (check_seen_defined _ (fields_seen d) Hm0 Hcount ltac:(lia) Hl) as [b Eb].
  eapply safe_bind; [eapply (safe_lift _ _ (fun x => x = b)); [exact Eb|done]|]. intros ? ->.
  destruct b; cbn [negb]; [|apply status_error, Ha]. apply safe_ret. split; [apply Ha|done].
Qed.

Lemma safe_noinit_body s : stream_ok s ->
  safe (decode_noinit_body buffer_at callback_fuel depth sub subn s fields dest) (status s).
Proof.
  intros Hs. unfold decode_noinit_body.
  assert (Hb : exists b it, pb_field_iter_begin fields dest = Some (b, it) /\ iter_ok it).
  { destruct (layout fields dest) as [|s0 L] eqn:EL.
    - destruct (pb_field_iter_begin_empty fields dest Hterm EL) as (it & Eb & Hit). exists false, it.
      split; [done|]. by right.
    - assert (H0 : layout fields dest !! 0%nat = Some s0) by (by rewrite EL).
      exists true, (it_at fields dest 0 s0). split; [by apply pb_field_iter_begin_spec|]. left. by exists 0%nat, s0. }
  destruct Hb as (b & it & Eb & Hit).
  eapply safe_bind; [eapply (safe_lift _ _ (fun x => x = (b, it))); [exact Eb|done]|]. intros ? ->.
  pose proof Hs as (_ & Hbl & _). unfold is_u in Hbl.
  eapply safe_bind with (P := ds_ok s); [apply safe_decode_loop; [|cbn; lia]|].
  - split; [exact (proj1 Hs)|]. intros _. cbn. split; [exact (after_refl s Hs)|done].
  - intros [ok d] Hds. destruct ok; cbn [negb]; [by apply safe_check_required|].
    destruct Hds as [Hc _]. apply safe_ret. by split.
Qed.
End Message.
End Fields.

(** Decoding into a structure that fits, at any depth. *)
Lemma safe_decode buffer_at callback_fuel depth : forall fields dest s, struct_ok lo hi depth fields dest = true ->
  stream_ok s ->
  safe (pb_decode buffer_at callback_fuel depth s fields dest) (status s) /\
  safe (pb_decode_noinit buffer_at callback_fuel depth s fields dest) (status s).
Proof.
  induction depth as [|depth IH]; intros fields dest s Hok Hs; [done|].
  enough (Hn : safe (pb_decode_noinit buffer_at callback_fuel (S depth) s fields dest) (status s)).
  { split; [|done]. unfold pb_decode. eapply safe_bind; [|intros _ _; exact Hn].
    by apply (safe_defaults (S depth) (S depth)). }
  destruct (struct_ok_inv _ _ _ Hok) as (d' & [= <-] & Ht & He & Hc & Hslots). cbn [pb_decode_noinit].
  apply (safe_noinit_body buffer_at callback_fuel (S depth) _ _ (struct_ok lo hi depth)); try done.
  intros fs q Hfs. apply (safe_defaults depth (S depth)); [lia|done].
Qed.
End Safe.

(** C4. Whatever bytes a buffer holds, decoding them into a structure that its descriptors
    fit is defined and ends; it changes no byte outside the structure, and when it
    succeeds the stream has not left the buffer. *)
Theorem pb_decode_safe `{PbUser} buffer_at callback_fuel depth fields dest lo hi buf n m :
  mem_bytes m -> is_u 64 n -> mapped m buf n -> mapped m lo (hi - lo) -> buf + n <= lo \/ hi <= buf ->
  struct_ok lo hi depth fields dest = true ->
  exists ok s m', pb_decode buffer_at callback_fuel depth (pb_istream_from_buffer buf n) fields dest m = Some (ok, s, m') /\
    (forall a, a < lo \/ hi <= a -> m' !! a = m !! a) /\ (forall a, is_Some (m' !! a) <-> is_Some (m !! a)) /\
    (ok = true -> 0 <= bytes_left s <= n /\ istate s + bytes_left s = buf + n).
Proof.
  intros Hm Hn Hbuf Hmap Hdisj Hok.
  set (inp := filter (fun x => buf <= x.1 < buf + n) m : mem).
  assert (Hsub : inp ⊆ m) by apply map_filter_subseteq.
  assert (Hin : forall a, buf <= a < buf + n -> inp !! a = m !! a).
  { intros a Ha. destruct (m !! a) as [b|] eqn:E; [by apply map_lookup_filter_Some|].
    apply map_lookup_filter_None. by left. }
  assert (Hib : mem_bytes inp) by (intros a b Hb; apply (Hm a); by eapply lookup_weaken).
  assert (Hd : forall a, lo <= a < hi -> inp !! a = None).
  { intros a Ha. apply map_lookup_filter_None. right. intros x _. cbn. lia. }
  assert (Hst : stream_ok inp (pb_istream_from_buffer buf n)).
  { split; [done|]. split; [done|]. cbn. intros i Hi. rewrite Hin by lia. by apply Hbuf. }
  destruct (safe_decode inp lo hi Hib Hd buffer_at callback_fuel depth fields dest _ Hok Hst) as [Hs _].
  destruct (Hs m) as ([ok s] & m' & E & _ & [Hout Hdom] & _ & Ha); [by split; [|split]|].
  exists ok, s, m'. split; [done|]. split; [done|]. split; [done|]. intros ->.
  destruct (Ha eq_refl) as ((_ & Hb & _) & H1 & H2). unfold is_u in Hb. cbn in *. lia.
Qed.

#[local] Existing Instance no_user.

Definition sample_input : mem := region 1000 sample_wire ∪ region 2000 (zrepeat 24 0xFF).

Lemma sample_input_bytes : mem_bytes sample_input.
Proof. apply mem_bytes_union; apply region_bytes; repeat constructor; unfold is_u; lia. Qed.

Lemma pb_decode_safe_witness : exists ok s m',
  pb_decode 0 1 2 (pb_istream_from_buffer 1000 16) sample_fields 2000 sample_input = Some (ok, s, m') /\
  (forall a, a < 2000 \/ 2024 <= a -> m' !! a = sample_input !! a) /\
  (forall a, is_Some (m' !! a) <-> is_Some (sample_input !! a)) /\
  (ok = true -> 0 <= bytes_left s <= 16 /\ istate s + bytes_left s = 1000 + 16).
Proof.
  apply (pb_decode_safe 0 1 2 sample_fields 2000 2000 2024 1000 16 sample_input).
  - apply sample_input_bytes.
  - by unfold is_u.
  - apply mapped_union_l. apply (region_mapped 1000 sample_wire). by vm_compute.
  - apply mapped_union_r. apply (region_mapped 2000 (zrepeat 24 0xFF)). by vm_compute.
  - left. lia.
  - vm_compute. reflexivity.
Defined.
