(* ===== verification/PbValue.v ===== *)
(** * nanopb: decoding the value of a field

    What the decoder of a field does on a stream that holds the encoding of a value:
    it consumes the encoding, writes only the place of the value, and the structure
    then holds the same value ([value] of PbWire.v). The relation between memories is
    [upd]: they differ in a set of addresses at most, and are defined at the same
    ones; what is read elsewhere is the same ([value_agree]). *)

From Stdlib Require Import ZArith Lia.
From stdpp Require Import base list option gmap.
From S2P Require Import Prelude ByteMem Pb PbWire PbEncode PbDecode.

(** * Stores *)

Lemma mem_store_upd l a m : mapped m a (zlen l) -> exists m', mem_store a l m = Some (tt, m') /\
  rd m' (zlen l) a = Some l /\ upd (within a (zlen l)) m m'.
Proof.
  intros Hm. destruct (store_bytes_spec l a m Hm) as (m' & E & _ & Hout).
  destruct (store_bytes_inv _ _ _ _ E) as (Hl & _ & Hd). exists m'. unfold mem_store. rewrite E. split; [done|].
  unfold rd. rewrite Nat2Z.id. split; [done|]. split; [|done]. intros x Hx. apply Hout. unfold within in Hx. lia.
Qed.

Lemma store_bytes_upd l a m m' : store_bytes l a m = Some m' -> rd m' (zlen l) a = Some l /\ upd (within a (zlen l)) m m'.
Proof.
  intros E. destruct (store_bytes_inv _ _ _ _ E) as (Hl & Hout & Hd). unfold rd. rewrite Nat2Z.id. split; [done|].
  split; [|done]. intros x Hx. apply Hout. unfold within in Hx. lia.
Qed.

Lemma store_u_upd n a v m : 0 <= n -> mapped m a n -> exists m', store_u n a v m = Some (tt, m') /\
  rd_u m' n a = Some (v mod 256 ^ n) /\ upd (within a n) m m'.
Proof.
  intros Hn Hm. assert (Hl : zlen (le_bytes (Z.to_nat n) v) = n) by (rewrite length_le_bytes; lia).
  destruct (mem_store_upd (le_bytes (Z.to_nat n) v) a m) as (m' & E & Er & Hu); [by rewrite Hl|].
  rewrite Hl in Er, Hu. exists m'. split; [exact E|]. split; [|done]. unfold rd_u. rewrite Er. cbn.
  by rewrite le_val_le_bytes, Z2Nat.id.
Qed.

(** ** Reads in memories that agree *)

Section Agree.
Variables (m1 m2 : mem) (p n : Z).
Hypothesis Hag : forall i, 0 <= i < n -> m1 !! (p + i) = m2 !! (p + i).

Lemma load_bytes_agree k a : p <= a -> a + Z.of_nat k <= p + n -> load_bytes k m1 a = load_bytes k m2 a.
Proof.
  revert a. induction k as [|k IH]; intros a Ha Hk; cbn [load_bytes]; [done|].
  rewrite IH by lia. replace a with (p + (a - p)) by lia. by rewrite Hag by lia.
Qed.

Lemma rd_agree k a : p <= a -> a + k <= p + n -> 0 <= k \/ a <= p + n -> rd m1 k a = rd m2 k a.
Proof.
  intros Ha Hk Hs. unfold rd. destruct (Z.lt_ge_cases k 0).
  - by replace (Z.to_nat k) with 0%nat by lia.
  - apply load_bytes_agree; [done|lia].
Qed.

Lemma rd_u_agree k a : p <= a -> a + k <= p + n -> 0 <= k -> rd_u m1 k a = rd_u m2 k a.
Proof. intros. unfold rd_u. rewrite rd_agree; [done..|by left]. Qed.

Lemma rd_s_agree k a : p <= a -> a + k <= p + n -> 0 <= k -> rd_s m1 k a = rd_s m2 k a.
Proof. intros. unfold rd_s. by rewrite rd_u_agree. Qed.

Lemma cstring_agree fuel max a : p <= a -> a + max <= p + n -> cstring m1 fuel max a = cstring m2 fuel max a.
Proof.
  revert max a. induction fuel as [|fuel IH]; intros max a Ha Hn; cbn [cstring]; [done|]. case_if; [done|].
  bool_simpl. rewrite rd_u_agree by lia. destruct (rd_u m2 1 a) as [c|]; [|done]. case_if; [done|]. by rewrite IH by lia.
Qed.

Lemma zeros_agree k a : p <= a -> a + Z.of_nat k <= p + n -> zeros m1 k a = zeros m2 k a.
Proof.
  revert a. induction k as [|k IH]; intros a Ha Hk; cbn [zeros]; [done|]. rewrite rd_u_agree by lia.
  destruct (rd_u m2 1 a) as [c|]; [|done]. cbn. case_if; [|done]. apply IH; lia.
Qed.
End Agree.

(** The sizes of a value that its type reads: those of the C types. *)
Definition exact_size (f : pb_field_t) : bool :=
  let n := data_size f in
  if ltype f <=? PB_LTYPE_SVARINT then is_int_size n
  else if ltype f =? PB_LTYPE_FIXED32 then n =? 4
  else if ltype f =? PB_LTYPE_FIXED64 then n =? 8
  else if ltype f =? PB_LTYPE_BYTES then 4 <=? n
  else if ltype f =? PB_LTYPE_STRING then 1 <=? n
  else (ltype f =? PB_LTYPE_SUBMESSAGE) || (ltype f =? PB_LTYPE_FIXED_LENGTH_BYTES) && (0 <=? n).

(** The nine types of data, with the size of their values. *)
Lemma exact_size_cases f : exact_size f = true ->
  ((ltype f = 0 \/ ltype f = 1 \/ ltype f = 2) /\ int_size (data_size f) = true) \/
  (ltype f = 3 /\ data_size f = 4) \/ (ltype f = 4 /\ data_size f = 8) \/ (ltype f = 5 /\ 4 <= data_size f) \/
  (ltype f = 6 /\ 1 <= data_size f) \/ ltype f = 7 \/ (ltype f = 9 /\ 0 <= data_size f).
Proof.
  unfold exact_size. rewrite is_int_size_spec. intros H.
  ltype_cases f; [rewrite Elt in H |- *; cbn in H; bool_simpl; lia || tauto..|]. exfalso. revert H. unfold_ltypes.
  unfold PB_LTYPE_SVARINT. rewrite !(proj2 (Z.eqb_neq (ltype f) _)), !(proj2 (Z.leb_gt (ltype f) _)) by lia. done.
Qed.

Ltac exact_cases f Hx Hl Hn :=
  pose proof (exact_size_cases f Hx) as Hl;
  destruct Hl as [(Hl & Hn)|[(Hl & Hn)|[(Hl & Hn)|[(Hl & Hn)|[(Hl & Hn)|[Hl|(Hl & Hn)]]]]]].

(** A value depends on the bytes of its place only. *)
Lemma value_agree m1 m2 (sub1 sub2 : list pb_field_t -> Z -> R) f p :
  atype f = PB_ATYPE_STATIC -> exact_size f = true ->
  (forall i, 0 <= i < data_size f -> m1 !! (p + i) = m2 !! (p + i)) -> size m1 = size m2 ->
  (forall fields, ltype f = PB_LTYPE_SUBMESSAGE -> ptr f = PTR_SUBMSG fields -> sub1 fields p = sub2 fields p) ->
  value m1 sub1 f p = value m2 sub2 f p.
Proof.
  intros Ha Hx Hag Hsz Hsub. unfold value. rewrite Ha, Hsz. unfold int_size.
  exact_cases f Hx Hl Hn.
  - apply int_size_spec in Hn. assert (Hr : rd_s m1 (data_size f) p = rd_s m2 (data_size f) p) by (apply (rd_s_agree _ _ _ _ Hag); lia).
    assert (Hu : rd_u m1 (data_size f) p = rd_u m2 (data_size f) p) by (apply (rd_u_agree _ _ _ _ Hag); lia).
    rewrite Hr, Hu. by destruct Hl as [-> | [-> | ->]].
  - rewrite Hl. cbn. by rewrite (rd_agree _ _ _ _ Hag) by lia.
  - rewrite Hl. cbn. by rewrite (rd_agree _ _ _ _ Hag) by lia.
  - rewrite Hl. cbn -[Z.ltb]. case_if; [done|]. rewrite (rd_u_agree _ _ _ _ Hag) by lia.
    destruct (rd_u m2 4 p) as [k|]; [|done]. cbn -[Z.ltb]. destruct (data_size f <? k + 4) eqn:E2; [done|]. bool_simpl.
    by rewrite (rd_agree _ _ _ _ Hag) by lia.
  - rewrite Hl. cbn -[Z.ltb cstring]. case_if; [done|]. by rewrite (cstring_agree _ _ _ _ Hag) by lia.
  - rewrite Hl. cbn. destruct (ptr f) as [| |fields] eqn:Ep; [done..|]. by rewrite (Hsub fields Hl eq_refl).
  - rewrite Hl. cbn. by rewrite (rd_agree _ _ _ _ Hag) by lia.
Qed.

(** * Reading integers *)

Lemma dec_varint inp s v rest m : content inp s (varint v ++ rest) -> inp ⊆ m -> is_u 64 v ->
  pb_decode_varint s m = Some (Some v, skip s (zlen (varint v)), m).
Proof.
  intros Hc Hm Hv. unfold is_u in Hv. pose proof (pb_decode_varint_spec _ _ _ _ Hc Hm) as H. unfold decodes_varint in H.
  rewrite (parse_varint_varint 10 v rest) in H by lia. rewrite Z.mod_small in H by lia. rewrite H. rewrite length_app. do 4 f_equal. lia.
Qed.

Lemma dec_varint32 inp s v rest m : content inp s (varint v ++ rest) -> inp ⊆ m -> is_u 32 v ->
  pb_decode_varint32 s m = Some (Some v, skip s (zlen (varint v)), m).
Proof.
  intros Hc Hm Hv. unfold is_u in Hv. pose proof (pb_decode_varint32_spec _ _ _ _ Hc Hm) as H. unfold decodes_varint in H.
  rewrite (parse_varint_varint 5 v rest) in H by lia. rewrite Z.mod_small in H by lia. rewrite H. rewrite length_app. do 4 f_equal. lia.
Qed.

(** The zigzag decoding of pb_decode_svarint. *)
Lemma svarint_result v : - 2 ^ 63 <= v < 2 ^ 63 ->
  (if negb (Z.land (zigzag v) 1 =? 0) then sext 8 (u64 (Z.lnot (Z.shiftr (zigzag v) 1)))
   else sext 8 (Z.shiftr (zigzag v) 1)) = v.
Proof.
  intros Hv. change 1 with (Z.ones 1) at 1. rewrite Z.land_ones by lia. change (2 ^ 1) with 2.
  rewrite !Z.shiftr_div_pow2 by lia. change (2 ^ 1) with 2. unfold Z.lnot, sext. rewrite u64_mod. change (8 * 8 - 1) with 63. change (8 * 8) with 64.
  unfold zigzag. destruct (Z.ltb_spec v 0) as [H0|H0].
  - replace (-2 * v - 1) with (1 + (- v - 1) * 2) by lia. rewrite Z.mod_add, Z.div_add by lia.
    change (1 mod 2) with 1. change (1 / 2) with 0. cbn [Z.eqb negb].
    replace (Z.pred (- (0 + (- v - 1)))) with v by lia.
    assert (E : v mod 18446744073709551616 = v + 2 ^ 64) by (symmetry; apply (Z.mod_unique _ _ (-1)); lia).
    rewrite E. rewrite (proj2 (Z.ltb_ge _ _)) by lia. lia.
  - replace (2 * v) with (0 + v * 2) by lia. rewrite Z.mod_add, Z.div_add by lia.
    change (0 mod 2) with 0. change (0 / 2) with 0. cbn [Z.eqb negb]. rewrite Z.add_0_l.
    by rewrite (proj2 (Z.ltb_lt v (2 ^ 63))) by lia.
Qed.

Lemma dec_svarint inp s v rest m : content inp s (varint (zigzag v) ++ rest) -> inp ⊆ m -> - 2 ^ 63 <= v < 2 ^ 63 ->
  pb_decode_svarint s m = Some (Some v, skip s (zlen (varint (zigzag v))), m).
Proof.
  intros Hc Hm Hv. unfold pb_decode_svarint, sbind. rewrite (dec_varint _ _ _ _ _ Hc Hm) by by apply zigzag_range.
  pose proof (svarint_result v Hv) as E. destruct (negb _); unfold sret; by rewrite E.
Qed.

(** * The outcome of decoding a value

    The decoder [d] of a field, on any stream that holds [w], consumes it, writes [n]
    bytes at [q] at most, and leaves a memory of which [P] holds. *)
Section Outcome.
Variable inp : mem.

Definition decodes_to (w : bytes) (q n : Z) (P : mem -> Prop) (d : pb_istream_t -> M mem (bool * pb_istream_t))
    (m : mem) : Prop :=
  forall s rest, content inp s (w ++ rest) ->
  exists m', d s m = Some ((true, skip s (zlen w)), m') /\ upd (within q n) m m' /\ P m'.

(** The memory a decoder may write to. *)
Definition writable (q n : Z) (m : mem) : Prop :=
  inp ⊆ m /\ mapped m q n /\ (forall x, within q n x -> inp !! x = None).

Lemma writable_sub q n q' n' m : writable q n m -> q <= q' -> q' + n' <= q + n -> writable q' n' m.
Proof.
  intros (Hs & Hm & Hd) Hq Hn. split; [done|]. split; [by eapply mapped_sub|]. intros x Hx. apply Hd. unfold within in *. lia.
Qed.

Lemma writable_upd q n m m' : writable q n m -> upd (within q n) m m' -> writable q n m'.
Proof.
  intros (Hs & Hm & Hd) Hu. split; [by eapply upd_incl|]. split; [by eapply upd_mapped|done].
Qed.
End Outcome.

Section Values.
Variables (inp : mem) (f : pb_field_t) (q : Z) (m : mem).
#[local] Abbreviation n := (data_size f).
Hypothesis Hw : writable inp q n m.

Lemma store_clamped_s v s : int_size n = true -> - 2 ^ (8 * n - 1) <= v < 2 ^ (8 * n - 1) ->
  exists m', store_clamped store_s s f q v m = Some ((true, s), m') /\ upd (within q n) m m' /\ rd_s m' n q = Some v.
Proof.
  intros Hn Hv. unfold store_clamped. rewrite is_int_size_spec, Hn. apply int_size_spec in Hn.
  destruct (store_u_upd n q v m) as (m' & E & Er & Hu); [lia|apply Hw|]. exists m'. unfold store_s, sbind, sret. rewrite E.
  assert (Ev : sext n (v mod 2 ^ (8 * n)) = v).
  { assert (Ep : 2 ^ (8 * n) = 2 * 2 ^ (8 * n - 1)) by (rewrite <- Z.pow_succ_r by lia; f_equal; lia).
    unfold sext. destruct (Z.lt_ge_cases v 0).
    - replace (v mod 2 ^ (8 * n)) with (v + 2 ^ (8 * n)) by (apply (Z.mod_unique _ _ (-1)); lia).
      rewrite (proj2 (Z.ltb_ge _ _)) by lia. lia.
    - rewrite Z.mod_small by lia. by rewrite (proj2 (Z.ltb_lt _ _)) by lia. }
  rewrite Ev, Z.eqb_refl. split; [done|]. split; [done|]. unfold rd_s. rewrite Er. cbn.
  replace (256 ^ n) with (2 ^ (8 * n)) by (rewrite Z.pow_mul_r by lia; done). by rewrite Ev.
Qed.

Lemma store_clamped_t v s : int_size n = true -> 0 <= v < 256 ^ n ->
  exists m', store_clamped store_t s f q v m = Some ((true, s), m') /\ upd (within q n) m m' /\ rd_u m' n q = Some v.
Proof.
  intros Hn Hv. unfold store_clamped. rewrite is_int_size_spec, Hn. apply int_size_spec in Hn.
  destruct (store_u_upd n q v m) as (m' & E & Er & Hu); [lia|apply Hw|]. exists m'. unfold store_t, sbind, sret. rewrite E.
  replace (2 ^ (8 * n)) with (256 ^ n) by (rewrite Z.pow_mul_r by lia; done).
  rewrite Z.mod_small in * by done. rewrite Z.eqb_refl. done.
Qed.

Lemma dec_enc_varint v : int_size n = true -> - 2 ^ (8 * n - 1) <= v < 2 ^ (8 * n - 1) ->
  decodes_to inp (varint (v mod 2 ^ 64)) q n (fun m' => rd_s m' n q = Some v) (fun s => pb_dec_varint s f q) m.
Proof.
  intros Hn Hv s rest Hc. pose proof (int_size_spec _ Hn) as Hs.
  assert (H64 : is_u 64 (v mod 2 ^ 64)) by (apply Z.mod_pos_bound; lia).
  assert (Ew : 2 ^ (8 * n - 1) <= 2 ^ 63) by (apply Z.pow_le_mono_r; lia).
  unfold pb_dec_varint, with_value, sbind. rewrite (dec_varint _ _ _ _ _ Hc (proj1 Hw) H64).
  assert (E : (if n =? 8 then sext 8 (v mod 2 ^ 64) else sext 4 (u32 (v mod 2 ^ 64))) = v).
  { unfold sext. change (8 * 8 - 1) with 63. change (8 * 8) with 64. change (8 * 4 - 1) with 31. change (8 * 4) with 32.
    rewrite u32_mod. change 4294967296 with (2 ^ 32).
    replace ((v mod 2 ^ 64) mod 2 ^ 32) with (v mod 2 ^ 32).
    2:{ change (2 ^ 64) with (2 ^ 32 * 2 ^ 32). rewrite Z.rem_mul_r, Z.mul_comm, Z.mod_add, Z.mod_mod by lia. done. }
    assert (Hmod : forall k, k = 32 \/ k = 64 -> - 2 ^ (k - 1) <= v < 2 ^ (k - 1) ->
      (if v mod 2 ^ k <? 2 ^ (k - 1) then v mod 2 ^ k else v mod 2 ^ k - 2 ^ k) = v).
    { intros k Hk Hvk. assert (Ek : 2 ^ k = 2 * 2 ^ (k - 1)) by (rewrite <- Z.pow_succ_r by lia; f_equal; lia).
      destruct (Z.lt_ge_cases v 0).
      - replace (v mod 2 ^ k) with (v + 2 ^ k) by (apply (Z.mod_unique _ _ (-1)); lia).
        rewrite (proj2 (Z.ltb_ge _ _)) by lia. lia.
      - rewrite Z.mod_small by lia. by rewrite (proj2 (Z.ltb_lt _ _)) by lia. }
    destruct Hs as [Hs|[Hs|[Hs|Hs]]]; rewrite Hs in *; cbn [Z.eqb Pos.eqb].
    - apply (Hmod 32); [by left|]. cbn in Hv |- *. lia.
    - apply (Hmod 32); [by left|]. cbn in Hv |- *. lia.
    - apply (Hmod 32); [by left|]. cbn in Hv |- *. lia.
    - apply (Hmod 64); [by right|]. cbn in Hv |- *. lia. }
  cbv zeta. rewrite E. by apply store_clamped_s.
Qed.

Lemma dec_enc_uvarint v : int_size n = true -> 0 <= v < 256 ^ n ->
  decodes_to inp (varint v) q n (fun m' => rd_u m' n q = Some v) (fun s => pb_dec_uvarint s f q) m.
Proof.
  intros Hn Hv s rest Hc. pose proof (int_size_spec _ Hn) as Hs.
  assert (Ew : 256 ^ n <= 256 ^ 8) by (apply Z.pow_le_mono_r; lia).
  unfold pb_dec_uvarint, with_value, sbind. rewrite (dec_varint _ _ _ _ _ Hc (proj1 Hw)) by (unfold is_u; lia).
  by apply store_clamped_t.
Qed.

Lemma dec_enc_svarint v : int_size n = true -> - 2 ^ (8 * n - 1) <= v < 2 ^ (8 * n - 1) ->
  decodes_to inp (varint (zigzag v)) q n (fun m' => rd_s m' n q = Some v) (fun s => pb_dec_svarint s f q) m.
Proof.
  intros Hn Hv s rest Hc. pose proof (int_size_spec _ Hn) as Hs.
  assert (Ew : 2 ^ (8 * n - 1) <= 2 ^ 63) by (apply Z.pow_le_mono_r; lia).
  unfold pb_dec_svarint, with_value, sbind. rewrite (dec_svarint _ _ _ _ _ Hc (proj1 Hw)) by lia.
  by apply store_clamped_s.
Qed.

(** ** Fixed-width values *)

Lemma lor_byte k acc b : 0 <= k -> is_u k acc -> Z.lor acc (Z.shiftl b k) = acc + 2 ^ k * b.
Proof. intros Hk Ha. rewrite Z.lor_comm, lor_shiftl_add by done. lia. Qed.

Lemma fixed_store k l w m1 : zlen l = k -> bytes_ok l -> w = le_val l -> mapped m1 q k ->
  exists m', store_u k q w m1 = Some (tt, m') /\ upd (within q k) m1 m' /\ rd m' k q = Some l.
Proof.
  intros Hl Hok -> Hm. destruct (mem_store_upd l q m1) as (m' & E & Er & Hu); [by rewrite Hl|]. rewrite Hl in *.
  exists m'. unfold store_u. rewrite <- Hl, Nat2Z.id, le_bytes_le_val by done. by rewrite Hl.
Qed.

Lemma dec_enc_fixed32 l : n = 4 -> zlen l = 4 ->
  decodes_to inp l q n (fun m' => rd m' 4 q = Some l) (fun s => pb_dec_fixed32 s f q) m.
Proof.
  intros Hn Hl s rest Hc. unfold pb_dec_fixed32, pb_decode_fixed32, sbind.
  pose proof (pb_read_local _ _ _ _ _ Hc (proj1 Hw)) as Hr. rewrite Hl in Hr. rewrite Hr. cbn [negb].
  destruct (content_split _ _ _ _ Hc) as (_ & Hok & _). pose proof Hok as Hb.
  destruct l as [|b0 [|b1 [|b2 [|b3 [|]]]]]; cbn [length] in Hl; try lia.
  repeat (apply Forall_cons in Hb as [?Hb Hb]). unfold is_u in *.
  edestruct (fixed_store 4 [b0; b1; b2; b3]) as (m' & E & Hu & Er); [done|done| |rewrite <- Hn; apply Hw|].
  2:{ rewrite E. exists m'. rewrite Hn. done. }
  rewrite Z.shiftl_0_r, (lor_byte 8 b0), (lor_byte 16), (lor_byte 24) by (unfold is_u; lia).
  rewrite !le_val_cons. unfold le_val. cbn. lia.
Qed.

Lemma dec_enc_fixed64 l : n = 8 -> zlen l = 8 ->
  decodes_to inp l q n (fun m' => rd m' 8 q = Some l) (fun s => pb_dec_fixed64 s f q) m.
Proof.
  intros Hn Hl s rest Hc. unfold pb_dec_fixed64, pb_decode_fixed64, sbind.
  pose proof (pb_read_local _ _ _ _ _ Hc (proj1 Hw)) as Hr. rewrite Hl in Hr. rewrite Hr. cbn [negb].
  destruct (content_split _ _ _ _ Hc) as (_ & Hok & _). pose proof Hok as Hb.
  destruct l as [|b0 [|b1 [|b2 [|b3 [|b4 [|b5 [|b6 [|b7 [|]]]]]]]]]; cbn [length] in Hl; try lia.
  repeat (apply Forall_cons in Hb as [?Hb Hb]). unfold is_u in *.
  edestruct (fixed_store 8 [b0; b1; b2; b3; b4; b5; b6; b7]) as (m' & E & Hu & Er); [done|done| |rewrite <- Hn; apply Hw|].
  2:{ rewrite E. exists m'. rewrite Hn. done. }
  rewrite Z.shiftl_0_r, (lor_byte 8 b0), (lor_byte 16), (lor_byte 24), (lor_byte 32), (lor_byte 40), (lor_byte 48),
    (lor_byte 56) by (unfold is_u; lia).
  rewrite !le_val_cons. unfold le_val. cbn. lia.
Qed.

(** ** Strings of bytes *)

(** Reading the rest of a delimited value into memory. *)
Lemma read_into s pre rest a m1 : content inp s (pre ++ rest) -> writable inp a (zlen pre) m1 ->
  exists m', pb_read_ s (DST_AT a) (zlen pre) m1 = Some ((true, skip s (zlen pre)), m') /\
    upd (within a (zlen pre)) m1 m' /\ rd m' (zlen pre) a = Some pre.
Proof.
  intros Hc (Hs & Hm & Hd). destruct (pb_read_at _ _ _ _ a _ Hc Hs Hm) as (m' & E & Est).
  { intros j Hj. apply Hd. unfold within. lia. }
  destruct (store_bytes_upd _ _ _ _ Est) as [Er Hu]. exists m'. unfold pb_read_, sbind. by rewrite E.
Qed.

Lemma delimited_content s l rest : content inp s (delimited l ++ rest) ->
  content inp (skip s (zlen (varint (zlen l)))) (l ++ rest).
Proof. unfold delimited. rewrite <- app_assoc. apply content_skip. Qed.

Lemma skip_delimited s l : skip (skip s (zlen (varint (zlen l)))) (zlen l) = skip s (zlen (delimited l)).
Proof. rewrite skip_skip. unfold delimited. rewrite length_app. f_equal. lia. Qed.

Lemma dec_enc_bytes l : is_u 32 n -> zlen l + 4 <= n -> atype f = PB_ATYPE_STATIC ->
  decodes_to inp (delimited l) q n (fun m' => rd_u m' 4 q = Some (zlen l) /\ rd m' (zlen l) (q + 4) = Some l)
    (fun s => pb_dec_bytes s f q) m.
Proof.
  intros Hn Hl Ha s rest Hc. unfold is_u in Hn. unfold pb_dec_bytes, with_value, sbind.
  pose proof Hc as Hc'. unfold delimited in Hc'. rewrite <- app_assoc in Hc'.
  rewrite (dec_varint32 _ _ _ _ _ Hc' (proj1 Hw)) by (unfold is_u; lia). apply delimited_content in Hc.
  unfold PB_SIZE_MAX, PB_BYTES_ARRAY_T_ALLOCSIZE, offsetof_bytes, sizeof_pb_size_t. rewrite u64_small by (unfold is_u; lia).
  rewrite !Z.gtb_ltb, Ha. rewrite !(proj2 (Z.ltb_ge _ _)) by lia. cbn [Z.eqb PB_ATYPE_STATIC PB_ATYPE_POINTER].
  destruct (store_u_upd 4 q (zlen l) m) as (m1 & E1 & Er1 & Hu1); [lia|apply (writable_sub inp q n q 4 m Hw); lia|].
  rewrite E1. assert (Hu1' : upd (within q n) m m1) by (eapply upd_sub; [|exact Hu1]; unfold within; lia).
  destruct (read_into _ _ _ (q + 4) m1 Hc) as (m2 & E2 & Hu2 & Er2).
  { eapply writable_sub; [by eapply writable_upd|lia|lia]. }
  exists m2. rewrite E2, skip_delimited. split; [done|]. split.
  - eapply upd_trans; [exact Hu1'|]. eapply upd_sub; [|exact Hu2]. unfold within. lia.
  - split; [|done]. rewrite <- (rd_u_agree m1 m2 q 4); [|eapply upd_agree; [exact Hu2|unfold within; lia]|lia..].
    rewrite Er1, Z.mod_small by lia. done.
Qed.

Lemma dec_enc_string l : is_u 32 n -> zlen l < n -> atype f = PB_ATYPE_STATIC ->
  decodes_to inp (delimited l) q n (fun m' => rd m' (zlen l) q = Some l /\ rd_u m' 1 (q + zlen l) = Some 0)
    (fun s => pb_dec_string s f q) m.
Proof.
  intros Hn Hl Ha s rest Hc. unfold is_u in Hn. unfold pb_dec_string, with_value, sbind.
  pose proof Hc as Hc'. unfold delimited in Hc'. rewrite <- app_assoc in Hc'.
  rewrite (dec_varint32 _ _ _ _ _ Hc' (proj1 Hw)) by (unfold is_u; lia). apply delimited_content in Hc.
  rewrite u32_small by (unfold is_u; lia). rewrite Z.gtb_ltb, Ha. rewrite !(proj2 (Z.ltb_ge _ _)) by lia.
  cbn [Z.eqb PB_ATYPE_STATIC PB_ATYPE_POINTER].
  destruct (read_into _ _ _ q m Hc) as (m1 & E1 & Hu1 & Er1); [eapply writable_sub; [exact Hw|lia|lia]|].
  rewrite E1. assert (Hu1' : upd (within q n) m m1) by (eapply upd_sub; [|exact Hu1]; unfold within; lia).
  destruct (store_u_upd 1 (q + zlen l) 0 m1) as (m2 & E2 & Er2 & Hu2); [lia| |].
  { eapply mapped_sub; [eapply (upd_mapped _ _ _ q n Hu1'), Hw|lia|lia]. }
  exists m2. rewrite E2. unfold sret. rewrite skip_delimited. split; [done|]. split.
  - eapply upd_trans; [exact Hu1'|]. eapply upd_sub; [|exact Hu2]. unfold within. lia.
  - split; [|exact Er2]. rewrite <- Er1. symmetry. apply (rd_agree m1 m2 q (zlen l)); [|lia..].
    eapply upd_agree; [exact Hu2|unfold within; lia].
Qed.

Lemma dec_enc_fixed_length l : is_u 32 n -> zlen l = n ->
  decodes_to inp (delimited l) q n (fun m' => rd m' n q = Some l) (fun s => pb_dec_fixed_length_bytes s f q) m.
Proof.
  intros Hn Hl s rest Hc. unfold is_u in Hn. unfold pb_dec_fixed_length_bytes, with_value, sbind.
  pose proof Hc as Hc'. unfold delimited in Hc'. rewrite <- app_assoc in Hc'.
  rewrite (dec_varint32 _ _ _ _ _ Hc' (proj1 Hw)) by (unfold is_u; lia). apply delimited_content in Hc.
  unfold PB_SIZE_MAX. rewrite Z.gtb_ltb, (proj2 (Z.ltb_ge _ _)) by lia. case_if; bool_simpl.
  - apply zlen_0 in E as ->. cbn [length] in Hl. destruct (mem_store_upd [] q m) as (m' & E & Er & Hu); [by intros i Hi; cbn in Hi; lia|].
    exists m'. unfold memset_zero. rewrite <- Hl. change (zrepeat (Z.of_nat 0) 0) with (@nil Z). rewrite E.
    split; [by rewrite <- (skip_delimited s []), skip_0|done].
  - rewrite Hl, Z.eqb_refl. cbn [negb]. rewrite <- Hl.
    destruct (read_into _ _ _ q m Hc) as (m1 & E1 & Hu1 & Er1); [by rewrite Hl|].
    exists m1. rewrite E1, skip_delimited. done.
Qed.
End Values.

(** * C strings *)

Lemma mapped_size m a n : mapped m a n -> n <= Z.of_nat (size m).
Proof.
  intros Hm. destruct (Z.lt_ge_cases n 0); [lia|].
  assert (Hs : list_to_set (seqZ a n) ⊆ dom m).
  { intros x Hx%elem_of_list_to_set%elem_of_seqZ. apply elem_of_dom. replace x with (a + (x - a)) by lia. apply Hm. lia. }
  apply subseteq_size in Hs. rewrite size_list_to_set, length_seqZ, size_dom in Hs by apply NoDup_seqZ. lia.
Qed.

Lemma cstring_no_zero m fuel max p l : cstring m fuel max p = Some l -> Forall (fun c => c <> 0) l.
Proof.
  revert max p l. induction fuel as [|fuel IH]; intros max p l; cbn [cstring]; [done|]. case_if; [by intros [= <-]|].
  destruct (rd_u m 1 p) as [c|]; [|done]. case_if; [by intros [= <-]|]. bool_simpl.
  destruct (cstring m fuel (max - 1) (p + 1)) as [l'|] eqn:El; [|done]. intros [= <-]. constructor; [done|by eapply IH].
Qed.

Lemma rd_1 m k p b l : k = zlen (b :: l) -> rd m k p = Some (b :: l) -> rd_u m 1 p = Some b /\ rd m (zlen l) (p + 1) = Some l.
Proof.
  intros ->. unfold rd. rewrite !Nat2Z.id, rd_u1. cbn [length load_bytes]. destruct (m !! p) as [x|]; [|done].
  destruct (load_bytes (length l) m (p + 1)); [|done]. by intros [= -> ->].
Qed.

Lemma cstring_intro m l : forall fuel max p, Forall (fun c => c <> 0) l -> rd m (zlen l) p = Some l ->
  rd_u m 1 (p + zlen l) = Some 0 -> zlen l < max -> (length l < fuel)%nat -> cstring m fuel max p = Some l.
Proof.
  induction l as [|b l IH]; intros fuel max p Hz Hr H0 Hm Hf; (destruct fuel as [|fuel]; [lia|]); cbn [cstring].
  - rewrite (proj2 (Z.leb_gt _ _)) by (cbn in Hm; lia). rewrite Z.add_0_r in H0. by rewrite H0.
  - cbn [length] in *. rewrite (proj2 (Z.leb_gt _ _)) by lia. apply (rd_1 m _ p b l eq_refl) in Hr as [Hb Hl].
    apply Forall_cons in Hz as [Hb0 Hz]. rewrite Hb, (proj2 (Z.eqb_neq _ _) Hb0).
    rewrite (IH fuel (max - 1) (p + 1)); [done|done|done| |lia|lia]. rewrite <- H0. f_equal. lia.
Qed.

(** * Decoding what a field holds *)

(** A string ends within its array. *)
Definition string_ends (m : mem) (f : pb_field_t) (p : Z) : bool :=
  if ltype f =? PB_LTYPE_STRING then
    match cstring m (S (size m)) (data_size f) p with Some l => zlen l <? data_size f | None => true end
  else true.

Lemma rd_length m k p l : 0 <= k -> rd m k p = Some l -> zlen l = k.
Proof. unfold rd. intros Hk H%load_bytes_length. lia. Qed.

Lemma emit_delimited_inv l w : emit_delimited l = emit w -> w = delimited l /\ zlen l < 2 ^ 63.
Proof. unfold emit_delimited. destruct (Z.ltb_spec (zlen l) (2 ^ 63)); [|done]. by intros [= <-]. Qed.

Lemma emit_delimited_small l : zlen l < 2 ^ 63 -> emit_delimited l = emit (delimited l).
Proof. unfold emit_delimited. intros H. by rewrite (proj2 (Z.ltb_lt _ _) H). Qed.

Lemma decodes_to_mono inp w q n (P Q : mem -> Prop) d m :
  (forall m', upd (within q n) m m' -> P m' -> Q m') -> decodes_to inp w q n P d m -> decodes_to inp w q n Q d m.
Proof. intros H Hd s rest Hc. destruct (Hd s rest Hc) as (m' & E & Hu & Hp). exists m'. auto. Qed.

(** The value of a field of each type. *)
Section ValueOf.
Variables (m : mem) (sub : list pb_field_t -> Z -> R) (f : pb_field_t) (p : Z).
#[local] Abbreviation n := (data_size f).

Lemma value_varint : ltype f = 0 -> int_size n = true ->
  value m sub f p = rd_s m n p ≫= fun v => emit (varint (v mod 2 ^ 64)).
Proof. intros H Hs. unfold value. by rewrite H, Hs. Qed.

Lemma value_uvarint : ltype f = 1 -> int_size n = true -> value m sub f p = rd_u m n p ≫= fun v => emit (varint v).
Proof. intros H Hs. unfold value. by rewrite H, Hs. Qed.

Lemma value_svarint : ltype f = 2 -> int_size n = true ->
  value m sub f p = rd_s m n p ≫= fun v => emit (varint (zigzag v)).
Proof. intros H Hs. unfold value. by rewrite H, Hs. Qed.

Lemma value_fixed32 : ltype f = 3 -> value m sub f p = rd m 4 p ≫= emit.
Proof. intros H. unfold value. by rewrite H. Qed.

Lemma value_fixed64 : ltype f = 4 -> value m sub f p = rd m 8 p ≫= emit.
Proof. intros H. unfold value. by rewrite H. Qed.

Lemma value_bytes : ltype f = 5 -> atype f = PB_ATYPE_STATIC -> p <> NULL ->
  value m sub f p = rd_u m 4 p ≫= fun k => if n <? k + 4 then invalid else rd m k (p + 4) ≫= emit_delimited.
Proof. intros H Ha Hp. unfold value. by rewrite H, Ha, (proj2 (Z.eqb_neq _ _) Hp). Qed.

Lemma value_string : ltype f = 6 -> atype f = PB_ATYPE_STATIC -> p <> NULL ->
  value m sub f p = cstring m (S (size m)) n p ≫= emit_delimited.
Proof. intros H Ha Hp. unfold value. by rewrite H, Ha, (proj2 (Z.eqb_neq _ _) Hp). Qed.

Lemma value_submessage fields : ltype f = 7 -> ptr f = PTR_SUBMSG fields -> value m sub f p = rdelim (sub fields p).
Proof. intros H Hp. unfold value. by rewrite H, Hp. Qed.

Lemma value_fixed_length : ltype f = 9 -> value m sub f p = rd m n p ≫= emit_delimited.
Proof. intros H. unfold value. by rewrite H. Qed.
End ValueOf.

Section Scalar.
Variables (inp ms : mem) (f : pb_field_t) (p q : Z) (m : mem).
#[local] Abbreviation n := (data_size f).
Variables (sub sub' : list pb_field_t -> Z -> R).
Hypothesis Hms : mem_bytes ms.
Hypothesis Hn : is_u 32 n.
Hypothesis Hw : writable inp q n m.

#[local] Abbreviation holds w := (fun m' => value m' sub' f q = emit w).

Lemma int_decodes_s (enc : Z -> Z) v dec : int_size n = true -> rd_s ms n p = Some v ->
  (- 2 ^ (8 * n - 1) <= v < 2 ^ (8 * n - 1) ->
     decodes_to inp (varint (enc v)) q n (fun m' => rd_s m' n q = Some v) dec m) ->
  (forall m', value m' sub' f q = rd_s m' n q ≫= fun v => emit (varint (enc v))) ->
  decodes_to inp (varint (enc v)) q n (holds (varint (enc v))) dec m.
Proof.
  intros Hs Hv Hd Hp. apply int_size_spec in Hs.
  eapply decodes_to_mono; [|apply Hd]; [intros m' _ Hr; cbv beta in Hr |- *; by rewrite Hp, Hr|].
  unfold rd_s in Hv. destruct (rd_u ms n p) as [x|] eqn:Ex; [|done]. injection Hv as <-. apply sext_range; [lia|].
  rewrite Z.pow_mul_r by lia. apply (rd_u_bound ms n p x); [done|lia|done].
Qed.

Lemma int_decodes w dsub dsubn : ltype f = 0 \/ ltype f = 1 \/ ltype f = 2 -> int_size n = true ->
  value ms sub f p = emit w ->
  decodes_to inp w q n (holds w) (fun s => call_decoder (PB_DECODERS dsub dsubn (ltype f)) s f q) m.
Proof.
  intros [Hl|[Hl|Hl]] Hs; rewrite Hl.
  - rewrite value_varint by done. destruct (rd_s ms n p) as [v|] eqn:Ev; [|done]. intros [= <-].
    apply (int_decodes_s (fun v => v mod 2 ^ 64) v); [done|done| |].
    + intros Hv. by apply dec_enc_varint.
    + intros m'. by apply value_varint.
  - rewrite value_uvarint by done. destruct (rd_u ms n p) as [v|] eqn:Ev; [|done]. intros [= <-].
    eapply decodes_to_mono; [|apply dec_enc_uvarint; [done|done|]];
      [intros m' _ Hr; cbv beta in Hr |- *; rewrite value_uvarint by done; by rewrite Hr|].
    apply int_size_spec in Hs. apply (rd_u_bound ms n p v); [done|lia|done].
  - rewrite value_svarint by done. destruct (rd_s ms n p) as [v|] eqn:Ev; [|done]. intros [= <-].
    apply (int_decodes_s zigzag v); [done|done| |].
    + intros Hv. by apply dec_enc_svarint.
    + intros m'. by apply value_svarint.
Qed.

Lemma fixed_decodes w dsub dsubn : (ltype f = 3 /\ n = 4) \/ (ltype f = 4 /\ n = 8) -> value ms sub f p = emit w ->
  decodes_to inp w q n (holds w) (fun s => call_decoder (PB_DECODERS dsub dsubn (ltype f)) s f q) m.
Proof.
  intros [[Hl Hs]|[Hl Hs]]; rewrite Hl.
  - rewrite value_fixed32 by done. destruct (rd ms 4 p) as [l|] eqn:El; [|done]. intros [= <-].
    apply rd_length in El; [|lia]. eapply decodes_to_mono; [|by apply dec_enc_fixed32].
    intros m' _ Hr. cbv beta in Hr |- *. rewrite value_fixed32 by done. by rewrite Hr.
  - rewrite value_fixed64 by done. destruct (rd ms 8 p) as [l|] eqn:El; [|done]. intros [= <-].
    apply rd_length in El; [|lia]. eapply decodes_to_mono; [|by apply dec_enc_fixed64].
    intros m' _ Hr. cbv beta in Hr |- *. rewrite value_fixed64 by done. by rewrite Hr.
Qed.

Hypothesis Hstatic : atype f = PB_ATYPE_STATIC.
Hypothesis Hp : p <> NULL.
Hypothesis Hq : q <> NULL.

Lemma bytes_decodes w dsub dsubn : ltype f = 5 -> value ms sub f p = emit w ->
  decodes_to inp w q n (holds w) (fun s => call_decoder (PB_DECODERS dsub dsubn (ltype f)) s f q) m.
Proof.
  intros Hl. rewrite Hl, value_bytes by done. destruct (rd_u ms 4 p) as [k|] eqn:Ek; [|done]. cbn -[Z.ltb].
  destruct (Z.ltb_spec n (k + 4)); [done|]. destruct (rd ms k (p + 4)) as [l|] eqn:El; [|done]. cbn -[emit_delimited].
  intros [-> Hlen]%emit_delimited_inv. pose proof (rd_u_bound ms 4 p k Hms ltac:(lia) Ek).
  apply rd_length in El; [|lia]. eapply decodes_to_mono; [|apply (dec_enc_bytes inp f q m Hw l); [done|lia|done]].
  intros m' _ [Hr1 Hr2]. rewrite value_bytes by done. rewrite Hr1. cbn -[Z.ltb]. rewrite (proj2 (Z.ltb_ge _ _)) by lia.
  rewrite Hr2. by apply emit_delimited_small.
Qed.

Lemma string_decodes w dsub dsubn : ltype f = 6 -> value ms sub f p = emit w -> string_ends ms f p = true ->
  decodes_to inp w q n (holds w) (fun s => call_decoder (PB_DECODERS dsub dsubn (ltype f)) s f q) m.
Proof.
  intros Hl. unfold string_ends. rewrite Hl, value_string by done. change (6 =? PB_LTYPE_STRING) with true. cbv iota.
  destruct (cstring ms (S (size ms)) n p) as [l|] eqn:El; [|done]. cbn -[emit_delimited].
  intros [-> Hlen]%emit_delimited_inv Hend. bool_simpl.
  eapply decodes_to_mono; [|by apply (dec_enc_string inp f q m Hw l)].
  intros m' Hu [Hr1 Hr2]. rewrite value_string by done. rewrite (cstring_intro m' l); [by apply emit_delimited_small| |done|done|done|].
  - by eapply cstring_no_zero.
  - rewrite (upd_size _ _ _ Hu). pose proof (mapped_size m q n (proj1 (proj2 Hw))). lia.
Qed.

Lemma fixed_length_decodes w dsub dsubn : ltype f = 9 -> value ms sub f p = emit w ->
  decodes_to inp w q n (holds w) (fun s => call_decoder (PB_DECODERS dsub dsubn (ltype f)) s f q) m.
Proof.
  intros Hl. rewrite Hl, value_fixed_length by done. destruct (rd ms n p) as [l|] eqn:El; [|done]. cbn -[emit_delimited].
  intros [-> Hlen]%emit_delimited_inv. apply rd_length in El; [|apply Hn].
  eapply decodes_to_mono; [|by apply (dec_enc_fixed_length inp f q m Hw l)].
  intros m' _ Hr. cbv beta in Hr |- *. rewrite value_fixed_length by done. rewrite Hr. by apply emit_delimited_small.
Qed.

(** Any value but a submessage. *)
Lemma scalar_decodes w dsub dsubn : exact_size f = true -> ltype f <> PB_LTYPE_SUBMESSAGE ->
  value ms sub f p = emit w -> string_ends ms f p = true ->
  decodes_to inp w q n (holds w) (fun s => call_decoder (PB_DECODERS dsub dsubn (ltype f)) s f q) m.
Proof.
  intros Hx Hns Hv He. exact_cases f Hx Hl Hs.
  - by apply int_decodes.
  - apply fixed_decodes; [by left|done].
  - apply fixed_decodes; [by right|done].
  - by apply bytes_decodes.
  - by apply string_decodes.
  - done.
  - by apply fixed_length_decodes.
Qed.
End Scalar.

(** * Substreams *)

(** A decoder of a submessage or of a packed array, run on the substream of a
    delimited value. *)
Lemma make_substream inp s s1 l rest m : content inp s (delimited l ++ rest) -> inp ⊆ m -> zlen l < 2 ^ 32 ->
  s1 = skip s (zlen (varint (zlen l))) ->
  pb_make_string_substream s m = Some (Some (set_bytes_left s1 (zlen l)), set_bytes_left s1 (zlen rest), m) /\
  content inp (set_bytes_left s1 (zlen l)) l.
Proof.
  intros Hc Hm Hl Es1. pose proof Hc as Hc'. unfold delimited in Hc'. rewrite <- app_assoc in Hc'.
  apply delimited_content in Hc. rewrite <- Es1 in Hc. unfold pb_make_string_substream, sbind.
  rewrite (dec_varint32 _ _ _ _ _ Hc' Hm) by (unfold is_u; lia). rewrite <- Es1.
  pose proof Hc as (_ & Hb & Hlt & _). rewrite length_app in *. rewrite (proj2 (Z.ltb_ge _ _)) by lia. unfold sret.
  rewrite u64_small by (unfold is_u; lia). split; [do 5 f_equal; lia|]. by eapply content_prefix.
Qed.

Lemma close_substream s l rest m sub : bytes_left sub = 0 ->
  istate sub = istate s + zlen (delimited l) -> ierrmsg sub = ierrmsg s -> bytes_left s = zlen (delimited l ++ rest) ->
  pb_close_string_substream (set_bytes_left (skip s (zlen (varint (zlen l)))) (zlen rest)) sub m =
  Some (true, skip s (zlen (delimited l)), m).
Proof.
  intros Hb Hi He Hs. unfold pb_close_string_substream, sbind, sret. rewrite Hb. cbn -[varint delimited]. rewrite Hi, He.
  do 3 f_equal. unfold skip. f_equal. rewrite length_app in Hs. lia.
Qed.

(** The substream after all of it has been read. *)
Lemma skip_substream s l :
  skip (set_bytes_left (skip s (zlen (varint (zlen l)))) (zlen l)) (zlen l) =
  mk_istream (icallback_ s) (istate s + zlen (delimited l)) 0 (ierrmsg s).
Proof. unfold skip, delimited. cbn -[varint]. rewrite length_app. f_equal; lia. Qed.
