(* ===== verification/PbStruct.v ===== *)
(** * nanopb: structures that a table of descriptors fits

    The conditions under which a message survives encoding and decoding
    ([round_ok], a test that can be run): the places of the fields lie in the
    structure and apart from each other, members of one union excepted, and the tags
    differ. What a structure stands for depends on its own bytes only
    ([message_agree]), and setting a structure to its defaults leaves every field
    absent ([set_defaults_fresh]). *)

From Stdlib Require Import ZArith Lia.
From stdpp Require Import base list option gmap.
From S2P Require Import Prelude ByteMem Pb PbWire PbEncode PbDecode PbSafe PbValue.

#[local] Arguments varint : simpl never.
#[local] Arguments delimited : simpl never.

(** * Fitting *)

Definition inside (lo n a k : Z) : bool := (lo <=? a) && (0 <=? k) && (a + k <=? lo + n).
Definition apart (a n b k : Z) : bool := (a + n <=? b) || (b + k <=? a).

(** An optional field with a presence flag. *)
Definition has_flag (f : pb_field_t) : bool := (htype f =? PB_HTYPE_OPTIONAL) && negb (size_offset f =? 0).

Definition data_len (f : pb_field_t) : Z := data_size f * item_count f.
Definition size_len (f : pb_field_t) : Z :=
  if is_repeated_or_oneof f then sizeof_pb_size_t else if has_flag f then 1 else 0.

(** The addresses that belong to a field: its data, and its count, selector or flag. *)
Definition place (s : slot) : Z -> Prop := fun x =>
  within (s_data s) (data_len (s_field s)) x \/ within (s_size s) (size_len (s_field s)) x.

Definition bounds_ok (f : pb_field_t) : bool :=
  (0 <? tag f) && (tag f <? 2 ^ 29) && (0 <=? data_size f) && (data_size f <? 2 ^ 32) &&
  (0 <=? array_size f) && (array_size f <? 2 ^ 32) && (data_len f <? 2 ^ 32).

(** What the decoder needs of a field's type, submessages apart. *)
Definition kind_ok (f : pb_field_t) : bool :=
  (atype f =? PB_ATYPE_STATIC) && exact_size f &&
  (if is_repeated_or_oneof f then negb (size_offset f =? 0)
   else if (htype f =? PB_HTYPE_OPTIONAL) && negb (has_flag f) then
     negb (ltype f =? PB_LTYPE_SUBMESSAGE) && match ptr f with PTR_NULL => true | _ => false end
   else (ltype f =? PB_LTYPE_SUBMESSAGE) || default_fits f).

Definition slot_ok (submsg : list pb_field_t -> Z -> Z -> bool) (lo n : Z) (s : slot) : bool :=
  let f := s_field s in
  kind_ok f && bounds_ok f && inside lo n (s_data s) (data_len f) && (s_size s =? s_data s + size_offset f) &&
  ((size_len f =? 0) || inside lo n (s_size s) (size_len f) && apart (s_data s) (data_len f) (s_size s) (size_len f)) &&
  (if ltype f =? PB_LTYPE_SUBMESSAGE then
     match ptr f with
     | PTR_SUBMSG fields =>
         forallb (fun q => submsg fields q (data_size f)) (addresses (item_count f) (s_data s) (data_size f))
     | _ => false
     end
   else true).

(** Members of one union share a selector. *)
Definition same_which (s t : slot) : bool :=
  (htype (s_field s) =? PB_HTYPE_ONEOF) && (htype (s_field t) =? PB_HTYPE_ONEOF) && (s_size s =? s_size t).

Definition separate (s t : slot) : bool :=
  let f := s_field s in let g := s_field t in
  negb (tag f =? tag g) &&
  (same_which s t ||
   apart (s_data s) (data_len f) (s_data t) (data_len g) && apart (s_data s) (data_len f) (s_size t) (size_len g) &&
   apart (s_size s) (size_len f) (s_data t) (data_len g) && apart (s_size s) (size_len f) (s_size t) (size_len g)).

Fixpoint all_separate (l : list slot) : bool :=
  match l with [] => true | s :: l => forallb (separate s) l && all_separate l end.

Fixpoint round_ok (depth : nat) (fields : list pb_field_t) (dest n : Z) : bool :=
  match depth with
  | O => false
  | S depth =>
      let slots := layout fields dest in
      (0 <? dest) && terminated fields && countable_required (required_count slots) &&
      forallb (slot_ok (round_ok depth) dest n) slots && all_separate slots
  end.

(** ** What the tests say *)

Lemma all_separate_spec l i j s t : all_separate l = true -> l !! i = Some s -> l !! j = Some t -> (i < j)%nat ->
  separate s t = true.
Proof.
  revert i j. induction l as [|x l IH]; intros i j H Hi Hj Hij; [done|]. cbn [all_separate] in H.
  apply andb_prop in H as [Hx H]. destruct j as [|j]; [lia|]. destruct i as [|i]; cbn in Hi, Hj.
  - injection Hi as ->. apply (proj1 (forallb_forall _ _) Hx). apply list_elem_of_In. by eapply list_elem_of_lookup_2.
  - apply (IH i j); [done..|lia].
Qed.

Lemma round_ok_inv depth fields dest n : round_ok depth fields dest n = true -> exists d, depth = S d /\
  0 < dest /\ terminated fields = true /\ countable_required (required_count (layout fields dest)) = true /\
  (forall i s, layout fields dest !! i = Some s -> slot_ok (round_ok d) dest n s = true) /\
  all_separate (layout fields dest) = true.
Proof.
  destruct depth as [|d]; [done|]. cbn [round_ok]. rewrite !andb_true_iff, Z.ltb_lt. intros [[[[H0 Ht] Hc] Hs] Ha].
  exists d. split; [done|]. split; [done|]. split; [done|]. split; [done|]. split; [|done]. intros i s Hi.
  apply (proj1 (forallb_forall _ _) Hs). apply list_elem_of_In. by eapply list_elem_of_lookup_2.
Qed.

Lemma inside_spec lo n a k : inside lo n a k = true -> lo <= a /\ 0 <= k /\ a + k <= lo + n.
Proof. unfold inside. rewrite !andb_true_iff, !Z.leb_le. tauto. Qed.

Lemma apart_spec a n b k x : apart a n b k = true -> within a n x -> ~ within b k x.
Proof. unfold apart, within. rewrite orb_true_iff, !Z.leb_le. lia. Qed.

Section Slot.
Context (submsg : list pb_field_t -> Z -> Z -> bool) (lo n : Z) (s : slot).
Hypothesis Hs : slot_ok submsg lo n s = true.
#[local] Abbreviation f := (s_field s).

Lemma slot_kind : kind_ok f = true.
Proof. unfold slot_ok in Hs. rewrite !andb_true_iff in Hs. tauto. Qed.

Lemma slot_static : atype f = PB_ATYPE_STATIC /\ exact_size f = true.
Proof. pose proof slot_kind as H. unfold kind_ok in H. rewrite !andb_true_iff, Z.eqb_eq in H. tauto. Qed.

Lemma slot_bounds : 0 < tag f < 2 ^ 29 /\ 0 <= data_size f < 2 ^ 32 /\ 0 <= array_size f < 2 ^ 32 /\ data_len f < 2 ^ 32.
Proof.
  unfold slot_ok in Hs. rewrite !andb_true_iff in Hs. destruct Hs as [[[[[_ H] _] _] _] _]. unfold bounds_ok in H.
  rewrite !andb_true_iff, !Z.ltb_lt, !Z.leb_le in H. lia.
Qed.

Lemma slot_data : lo <= s_data s /\ 0 <= data_len f /\ s_data s + data_len f <= lo + n.
Proof. unfold slot_ok in Hs. rewrite !andb_true_iff in Hs. apply inside_spec. tauto. Qed.

Lemma slot_size_at : s_size s = s_data s + size_offset f.
Proof. unfold slot_ok in Hs. rewrite !andb_true_iff, Z.eqb_eq in Hs. tauto. Qed.

Lemma slot_size : size_len f <> 0 ->
  (lo <= s_size s /\ 0 <= size_len f /\ s_size s + size_len f <= lo + n) /\
  apart (s_data s) (data_len f) (s_size s) (size_len f) = true.
Proof.
  intros H0. unfold slot_ok in Hs. rewrite !andb_true_iff in Hs. destruct Hs as [[_ H] _].
  rewrite orb_true_iff, Z.eqb_eq, andb_true_iff in H. destruct H as [H|[H1 H2]]; [done|]. by apply inside_spec in H1.
Qed.

Lemma size_len_range : 0 <= size_len f <= 4.
Proof. unfold size_len, sizeof_pb_size_t. repeat case_if; lia. Qed.

Lemma place_inside x : place s x -> within lo n x.
Proof.
  pose proof slot_data as Hd. unfold place, within. intros [H|H]; [lia|]. destruct slot_size as [H1 _]; lia.
Qed.

Lemma slot_submsg : ltype f = PB_LTYPE_SUBMESSAGE -> exists fields, ptr f = PTR_SUBMSG fields /\
  forall k, 0 <= k < item_count f -> submsg fields (s_data s + k * data_size f) (data_size f) = true.
Proof.
  intros Hl. unfold slot_ok in Hs. rewrite !andb_true_iff in Hs. destruct Hs as [_ H]. rewrite Hl in H. cbn in H.
  destruct (ptr f) as [| |fields]; [done..|]. exists fields. split; [done|]. intros k Hk.
  apply (proj1 (forallb_forall _ _) H). unfold addresses. apply in_map_iff. exists (Z.to_nat k).
  split; [by rewrite Z2Nat.id by lia|]. apply in_seq. lia.
Qed.

(** The items of the field. *)
Lemma item_place k : 0 <= k < item_count f -> s_data s <= s_data s + k * data_size f /\
  s_data s + k * data_size f + data_size f <= s_data s + data_len f /\ u32 (data_size f * k) = k * data_size f.
Proof.
  intros Hk. destruct slot_bounds as (_ & Hd & _ & Hl). unfold data_len in *.
  pose proof (Z.mul_le_mono_nonneg_l (k + 1) (item_count f) (data_size f) ltac:(lia) ltac:(lia)) as Hm.
  rewrite Z.mul_add_distr_l in Hm. pose proof (Z.mul_nonneg_nonneg (data_size f) k ltac:(lia) ltac:(lia)).
  split; [lia|]. split; [lia|]. rewrite u32_small; [lia|unfold is_u; lia].
Qed.

Lemma item_count_one : htype f <> PB_HTYPE_REPEATED -> item_count f = 1.
Proof. intros H. unfold item_count. by rewrite (proj2 (Z.eqb_neq _ _) H). Qed.

Lemma item_count_array : htype f = PB_HTYPE_REPEATED -> item_count f = array_size f.
Proof. intros H. unfold item_count. by rewrite H. Qed.

Lemma slot_submsg_one : ltype f = PB_LTYPE_SUBMESSAGE -> htype f <> PB_HTYPE_REPEATED ->
  exists fields, ptr f = PTR_SUBMSG fields /\ submsg fields (s_data s) (data_size f) = true.
Proof.
  intros Hl Hh. destruct (slot_submsg Hl) as (fields & Hp & H). exists fields. split; [done|].
  specialize (H 0). rewrite Z.add_0_r in H. apply H. rewrite item_count_one by done. lia.
Qed.
End Slot.

(** Such a table has no submessages without a presence flag. *)
Lemma round_ok_implicit depth : forall fields dest n, round_ok depth fields dest n = true -> all_fields implicit_ok fields = true.
Proof.
  induction depth as [|depth IH]; intros fields dest n Hok; [done|].
  destruct (round_ok_inv _ _ _ _ Hok) as (d & [= <-] & _ & _ & _ & Hslots & _). apply (layout_all _ _ dest). intros i s Hi.
  pose proof (Hslots i s Hi) as Hs. pose proof (slot_kind _ _ _ _ Hs) as Hk. destruct (slot_static _ _ _ _ Hs) as [Ha _].
  unfold slot_ok in Hs. rewrite !andb_true_iff in Hs. destruct Hs as [_ Hs].
  assert (Hni : ltype (s_field s) = PB_LTYPE_SUBMESSAGE -> implicit (s_field s) = false).
  { intros El. unfold kind_ok, has_flag, is_repeated_or_oneof in Hk. unfold implicit. rewrite El in Hk.
    destruct (htype_cases (s_field s)) as [E|[E|[E|E]]]; rewrite E in *; try by rewrite andb_false_r.
    destruct (size_offset (s_field s) =? 0); [|by rewrite andb_false_r]. exfalso. cbn -[exact_size] in Hk. by rewrite andb_false_r in Hk. }
  assert (Hit : no_items (s_field s) = false -> 0 < item_count (s_field s)).
  { unfold no_items, item_count. rewrite Ha. destruct (htype (s_field s) =? PB_HTYPE_REPEATED); [|lia].
    cbn [andb]. destruct (Z.leb_spec (array_size (s_field s)) 0); [done|]. lia. }
  destruct (s_field s) as [t ty off so ds asz pt] eqn:Ef. cbn [implicit_ok]. destruct (_ && _) eqn:E; [|done].
  apply andb_prop in E as [El%Z.eqb_eq En%negb_true_iff]. rewrite El in Hs. cbn [ptr] in Hs. destruct pt as [| |l]; [done..|].
  rewrite (Hni El). cbn [negb orb andb]. pose proof (proj1 (forallb_forall _ _) Hs (s_data s)) as Hq.
  eapply IH, Hq. apply in_map_iff. exists 0%nat. split; [lia|]. apply in_seq. specialize (Hit En). lia.
Qed.

(** * The bytes of a static field *)

Lemma field_bytes_static m sub s : kind_ok (s_field s) = true -> s_size s = s_data s + size_offset (s_field s) ->
  let f := s_field s in
  field_bytes m sub f (s_data s) =
    if htype f =? PB_HTYPE_REQUIRED then if s_data s =? NULL then invalid else present m sub f (s_data s) true
    else if htype f =? PB_HTYPE_OPTIONAL then
      if has_flag f then rd_u m 1 (s_size s) ≫= fun b => present m sub f (s_data s) (negb (b =? 0))
      else is_default m sub f (s_data s) ≫= fun z => present m sub f (s_data s) (negb z)
    else if htype f =? PB_HTYPE_REPEATED then rd_u m 4 (s_size s) ≫= fun k => repeated m sub f (s_data s) k
    else rd_u m 4 (s_size s) ≫= fun k => present m sub f (s_data s) (k =? tag f).
Proof.
  intros Hk Hsz f. unfold kind_ok in Hk. rewrite !andb_true_iff, Z.eqb_eq in Hk. destruct Hk as [[Ha Hx] Hk]. fold f in Ha, Hx, Hk.
  assert (Hne : (ltype f =? PB_LTYPE_EXTENSION) = false).
  { apply Z.eqb_neq. intros E. exact_cases f Hx Hl Hn; rewrite E in Hl; unfold PB_LTYPE_EXTENSION in Hl; lia. }
  unfold field_bytes, data_field, data_at. rewrite Hne, Ha. change ((PB_ATYPE_STATIC =? PB_ATYPE_STATIC)) with true.
  change (PB_ATYPE_STATIC =? PB_ATYPE_POINTER) with false. cbn [orb]. unfold has_flag, is_repeated_or_oneof in *.
  destruct (htype_cases f) as [E|[E|[E|E]]]; rewrite E in *; cbn -[Z.eqb rd_u is_default present repeated] in Hk |- *; rewrite Hsz; fold f.
  - change (PB_HTYPE_REQUIRED =? PB_HTYPE_OPTIONAL) with false. change (PB_HTYPE_REQUIRED =? PB_HTYPE_REQUIRED) with true.
    by destruct (size_offset f =? 0).
  - change (PB_HTYPE_OPTIONAL =? PB_HTYPE_OPTIONAL) with true. change (PB_HTYPE_OPTIONAL =? PB_HTYPE_REQUIRED) with false.
    cbn [andb]. destruct (size_offset f =? 0); cbn -[rd_u is_default present Z.eqb]; [by destruct (is_default m sub f (s_data s))|].
    by destruct (rd_u m 1 _).
  - by destruct (size_offset f =? 0).
  - by destruct (size_offset f =? 0).
Qed.

(** A field whose absence is told by its value. *)
Lemma kind_plain f : kind_ok f = true -> htype f = PB_HTYPE_OPTIONAL -> has_flag f = false ->
  ltype f <> PB_LTYPE_SUBMESSAGE /\ ptr f = PTR_NULL.
Proof.
  unfold kind_ok, is_repeated_or_oneof. intros H E Ef. rewrite E, Ef in H. cbn -[Z.eqb] in H.
  change (PB_HTYPE_OPTIONAL =? PB_HTYPE_REPEATED) with false in H. change (PB_HTYPE_OPTIONAL =? PB_HTYPE_ONEOF) with false in H.
  change (PB_HTYPE_OPTIONAL =? PB_HTYPE_OPTIONAL) with true in H. cbn [orb andb negb] in H.
  rewrite !andb_true_iff, negb_true_iff, Z.eqb_neq in H. destruct H as [_ [H1 H2]]. split; [done|]. by destruct (ptr f).
Qed.

(** * What a structure stands for depends on its own bytes *)

Definition agree (A : Z -> Prop) (m1 m2 : mem) : Prop := (forall x, A x -> m1 !! x = m2 !! x) /\ size m1 = size m2.

Lemma agree_sub (A B : Z -> Prop) m1 m2 : (forall x, B x -> A x) -> agree A m1 m2 -> agree B m1 m2.
Proof. intros H [H1 H2]. split; [|done]. auto. Qed.

Lemma upd_agree_on A B m m' : upd A m m' -> (forall x, B x -> ~ A x) -> agree B m m'.
Proof. intros Hu Hd. split; [|symmetry; by eapply upd_size]. intros x Hx. symmetry. by apply Hu, Hd. Qed.

Lemma agree_within A m1 m2 a n : agree A m1 m2 -> (forall x, within a n x -> A x) ->
  forall i, 0 <= i < n -> m1 !! (a + i) = m2 !! (a + i).
Proof. intros [H _] Hs i Hi. apply H, Hs. unfold within. lia. Qed.

Lemma is_default_scalar m sub f p : atype f = PB_ATYPE_STATIC -> ltype f <> PB_LTYPE_SUBMESSAGE ->
  is_default m sub f p =
    if ltype f =? PB_LTYPE_BYTES then rd_u m 4 p ≫= fun k => Some (k =? 0)
    else if ltype f =? PB_LTYPE_STRING then rd_u m 1 p ≫= fun c => Some (c =? 0)
    else if ltype f =? PB_LTYPE_FIXED_LENGTH_BYTES then Some (data_size f =? 0)
    else zeros m (Z.to_nat (data_size f)) p.
Proof. intros Ha Hl. unfold is_default. by rewrite Ha, (proj2 (Z.eqb_neq _ _) Hl). Qed.

Lemma is_default_agree m1 m2 sub1 sub2 f p : atype f = PB_ATYPE_STATIC -> exact_size f = true -> ltype f <> PB_LTYPE_SUBMESSAGE ->
  (forall i, 0 <= i < data_size f -> m1 !! (p + i) = m2 !! (p + i)) -> is_default m1 sub1 f p = is_default m2 sub2 f p.
Proof.
  intros Ha Hx Hl Hag. rewrite !is_default_scalar by done.
  assert (Hz : 0 <= data_size f -> zeros m1 (Z.to_nat (data_size f)) p = zeros m2 (Z.to_nat (data_size f)) p).
  { intros H0. apply (zeros_agree _ _ _ _ Hag); lia. }
  exact_cases f Hx Hlt Hn.
  - apply int_size_spec in Hn. rewrite Hz by lia. by destruct Hlt as [-> | [-> | ->]].
  - rewrite Hz by lia. by rewrite Hlt.
  - rewrite Hz by lia. by rewrite Hlt.
  - rewrite Hlt. cbn. by rewrite (rd_u_agree _ _ _ _ Hag) by lia.
  - rewrite Hlt. cbn. by rewrite (rd_u_agree _ _ _ _ Hag) by lia.
  - done.
  - by rewrite Hlt.
Qed.

Lemma addresses_in count p size q : In q (addresses count p size) -> exists k, 0 <= k < count /\ q = p + k * size.
Proof.
  unfold addresses. rewrite in_map_iff. intros (i & <- & Hi%in_seq). exists (Z.of_nat i). lia.
Qed.

Lemma repeated_agree m1 m2 sub1 sub2 f p k : atype f = PB_ATYPE_STATIC ->
  (forall i, 0 <= i < array_size f -> value m1 sub1 f (p + i * data_size f) = value m2 sub2 f (p + i * data_size f)) ->
  repeated m1 sub1 f p k = repeated m2 sub2 f p k.
Proof.
  intros Ha Hv. unfold repeated. rewrite Ha. change (PB_ATYPE_STATIC =? PB_ATYPE_POINTER) with false. cbn [negb andb].
  case_if; [done|]. destruct (Z.ltb_spec (array_size f) k); [done|].
  assert (Hq : forall q, In q (addresses k p (data_size f)) -> value m1 sub1 f q = value m2 sub2 f q).
  { intros q (i & Hi & ->)%addresses_in. apply Hv. lia. }
  assert (Hm : forall h : R -> R, map (fun q => h (value m1 sub1 f q)) (addresses k p (data_size f)) =
    map (fun q => h (value m2 sub2 f q)) (addresses k p (data_size f))).
  { intros h. apply map_ext_in. intros q Hin. by rewrite Hq. }
  assert (H1 : map (value m1 sub1 f) (addresses k p (data_size f)) = map (value m2 sub2 f) (addresses k p (data_size f)))
    by apply (Hm (fun r => r)).
  case_if; [by rewrite H1|by rewrite (Hm (rseq (key f)))].
Qed.

Section FieldAgree.
Context (submsg : list pb_field_t -> Z -> Z -> bool) (lo n : Z) (s : slot).
Hypothesis Hs : slot_ok submsg lo n s = true.
#[local] Abbreviation f := (s_field s).
Variables (m1 m2 : mem) (sub1 sub2 : list pb_field_t -> Z -> R).
Hypothesis Hag : agree (place s) m1 m2.
Hypothesis Hsub : forall fields k, ltype f = PB_LTYPE_SUBMESSAGE -> ptr f = PTR_SUBMSG fields -> 0 <= k < item_count f ->
  sub1 fields (s_data s + k * data_size f) = sub2 fields (s_data s + k * data_size f).

Lemma item_value_agree k : 0 <= k < item_count f ->
  value m1 sub1 f (s_data s + k * data_size f) = value m2 sub2 f (s_data s + k * data_size f).
Proof.
  intros Hk. destruct (slot_static _ _ _ _ Hs) as [Ha Hx]. destruct (item_place _ _ _ _ Hs k Hk) as (H1 & H2 & _).
  apply value_agree; [done|done| |apply Hag|intros fields Hl Hp; by apply Hsub].
  eapply agree_within; [exact Hag|]. intros x Hin. left. unfold within in *. lia.
Qed.

Lemma first_value_agree : htype f <> PB_HTYPE_REPEATED ->
  value m1 sub1 f (s_data s) = value m2 sub2 f (s_data s).
Proof.
  intros Hh. pose proof (item_value_agree 0) as H. rewrite Z.mul_0_l, Z.add_0_r in H. apply H.
  rewrite item_count_one by done. lia.
Qed.

Lemma size_agree k : size_len f = k -> 0 <= k -> rd_u m1 k (s_size s) = rd_u m2 k (s_size s).
Proof.
  intros Hk H0. apply (rd_u_agree m1 m2 (s_size s) k); [|lia..]. eapply agree_within; [exact Hag|]. intros x Hx. right. by rewrite Hk.
Qed.

Lemma field_bytes_agree : field_bytes m1 sub1 f (s_data s) = field_bytes m2 sub2 f (s_data s).
Proof.
  pose proof (slot_kind _ _ _ _ Hs) as Hk. destruct (slot_static _ _ _ _ Hs) as [Ha Hx].
  rewrite !field_bytes_static by (done || by eapply slot_size_at). unfold present.
  assert (Hl : forall k, size_len f = k -> 0 <= k -> rd_u m1 k (s_size s) = rd_u m2 k (s_size s)) by apply size_agree.
  pose proof first_value_agree as Hf. unfold size_len, is_repeated_or_oneof, sizeof_pb_size_t in *.
  destruct (htype_cases f) as [E|[E|[E|E]]]; rewrite E in *; cbn -[Z.eqb rd_u is_default value repeated] in *.
  - change (PB_HTYPE_REQUIRED =? PB_HTYPE_REQUIRED) with true. cbv iota. by rewrite Hf.
  - change (PB_HTYPE_OPTIONAL =? PB_HTYPE_REQUIRED) with false. change (PB_HTYPE_OPTIONAL =? PB_HTYPE_OPTIONAL) with true in *.
    cbv iota. destruct (has_flag f) eqn:Ef; [by rewrite Hl, Hf|]. rewrite Hf by done.
    destruct (kind_plain _ Hk E Ef) as [Hns _]. rewrite (is_default_agree m1 m2 sub1 sub2); [done|done|done|done|].
    eapply agree_within; [exact Hag|]. intros x Hin. left. unfold data_len. rewrite (item_count_one s) by (by rewrite E).
    by rewrite Z.mul_1_r.
  - change (PB_HTYPE_REPEATED =? PB_HTYPE_REQUIRED) with false. change (PB_HTYPE_REPEATED =? PB_HTYPE_OPTIONAL) with false.
    change (PB_HTYPE_REPEATED =? PB_HTYPE_REPEATED) with true. cbv iota. rewrite Hl by done.
    destruct (rd_u m2 4 (s_size s)) as [k|]; [|done]. apply repeated_agree; [done|]. intros i Hi. apply item_value_agree.
    by rewrite item_count_array.
  - change (PB_HTYPE_ONEOF =? PB_HTYPE_REQUIRED) with false. change (PB_HTYPE_ONEOF =? PB_HTYPE_OPTIONAL) with false.
    change (PB_HTYPE_ONEOF =? PB_HTYPE_REPEATED) with false. cbv iota. by rewrite Hl, Hf.
Qed.
End FieldAgree.

Lemma message_agree depth : forall fields dest n m1 m2, round_ok depth fields dest n = true ->
  agree (within dest n) m1 m2 -> message m1 depth fields dest = message m2 depth fields dest.
Proof.
  induction depth as [|depth IH]; intros fields dest n m1 m2 Hok Hag; [done|].
  destruct (round_ok_inv _ _ _ _ Hok) as (d & [= <-] & _ & Ht & _ & Hslots & _). cbn [message]. rewrite Ht. f_equal.
  apply map_ext_in. intros s Hin. apply list_elem_of_In, list_elem_of_lookup in Hin as [i Hi].
  pose proof (Hslots _ _ Hi) as Hs. eapply field_bytes_agree; [exact Hs| |].
  - eapply agree_sub; [|exact Hag]. intros x. by eapply place_inside.
  - intros fs k Hl Hp Hk. destruct (slot_submsg _ _ _ _ Hs Hl) as (fs' & Hp' & Hq). rewrite Hp in Hp'. injection Hp' as <-.
    eapply IH; [by apply Hq|]. eapply agree_sub; [|exact Hag]. pose proof (slot_data _ _ _ _ Hs).
    destruct (item_place _ _ _ _ Hs k Hk) as (H1 & H2 & _). unfold within. lia.
Qed.

(** ** Places of different fields *)

Lemma separate_places s t : separate s t = true -> same_which s t = false -> forall x, place s x -> ~ place t x.
Proof.
  unfold separate. rewrite andb_true_iff, orb_true_iff, !andb_true_iff. intros [_ [H|H]] Hn x; [congruence|].
  destruct H as [[[H1 H2] H3] H4]. unfold place.
  intros [Hx|Hx] [Hy|Hy]; [exact (apart_spec _ _ _ _ x H1 Hx Hy)|exact (apart_spec _ _ _ _ x H2 Hx Hy)
    |exact (apart_spec _ _ _ _ x H3 Hx Hy)|exact (apart_spec _ _ _ _ x H4 Hx Hy)].
Qed.

Lemma separate_tag s t : separate s t = true -> tag (s_field s) <> tag (s_field t).
Proof. unfold separate. rewrite andb_true_iff, negb_true_iff, Z.eqb_neq. tauto. Qed.

Lemma apart_sym a n b k : apart a n b k = apart b k a n.
Proof. apply orb_comm. Qed.

Lemma same_which_sym s t : same_which s t = same_which t s.
Proof.
  unfold same_which. rewrite (Z.eqb_sym (s_size s)), <- !andb_assoc. rewrite (andb_comm (htype (s_field s) =? _)).
  rewrite <- !andb_assoc. f_equal. apply andb_comm.
Qed.

Lemma separate_sym s t : separate s t = separate t s.
Proof.
  unfold separate. rewrite (Z.eqb_sym (tag (s_field s))), (same_which_sym s). cbv zeta.
  rewrite (apart_sym (s_data s) _ (s_data t)), (apart_sym (s_data s) _ (s_size t)), (apart_sym (s_size s) _ (s_data t)),
    (apart_sym (s_size s) _ (s_size t)). f_equal. f_equal. rewrite <- !andb_assoc. f_equal. rewrite !andb_assoc. f_equal. apply andb_comm.
Qed.

Lemma slots_separate l i j s t : all_separate l = true -> l !! i = Some s -> l !! j = Some t -> i <> j -> separate s t = true.
Proof.
  intros H Hi Hj Hne. destruct (Nat.lt_ge_cases i j); [by apply (all_separate_spec l i j)|].
  rewrite separate_sym. apply (all_separate_spec l j i); [done..|lia].
Qed.

(** A change in the place of a field of a union, where its selector is [v]. *)
Lemma same_which_spec s t : same_which s t = true ->
  htype (s_field s) = PB_HTYPE_ONEOF /\ htype (s_field t) = PB_HTYPE_ONEOF /\ s_size s = s_size t.
Proof. unfold same_which. rewrite !andb_true_iff, !Z.eqb_eq. tauto. Qed.

(** * Structures whose fields are absent *)

Definition fresh_slot (sub : list pb_field_t -> Z -> Prop) (m : mem) (s : slot) : Prop :=
  let f := s_field s in
  if htype f =? PB_HTYPE_REPEATED then rd_u m 4 (s_size s) = Some 0
  else if htype f =? PB_HTYPE_ONEOF then exists v, rd_u m 4 (s_size s) = Some v /\ v <> tag f
  else
    (has_flag f = true -> rd_u m 1 (s_size s) = Some 0) /\
    (htype f = PB_HTYPE_OPTIONAL -> has_flag f = false ->
       zeros m (Z.to_nat (data_size f)) (s_data s) = Some true) /\
    (ltype f = PB_LTYPE_SUBMESSAGE -> forall fields, ptr f = PTR_SUBMSG fields -> sub fields (s_data s)).

Fixpoint fresh (depth : nat) (m : mem) (fields : list pb_field_t) (dest : Z) : Prop :=
  match depth with
  | O => False
  | S d => forall i s, layout fields dest !! i = Some s -> fresh_slot (fresh d m) m s
  end.

Section FreshAgree.
Context (submsg : list pb_field_t -> Z -> Z -> bool) (lo n : Z) (s : slot).
Hypothesis Hs : slot_ok submsg lo n s = true.
#[local] Abbreviation f := (s_field s).

Lemma fresh_slot_agree m1 m2 (sub1 sub2 : list pb_field_t -> Z -> Prop) : agree (place s) m1 m2 ->
  (forall fields, ltype f = PB_LTYPE_SUBMESSAGE -> ptr f = PTR_SUBMSG fields -> htype f <> PB_HTYPE_REPEATED ->
     sub1 fields (s_data s) -> sub2 fields (s_data s)) ->
  fresh_slot sub1 m1 s -> fresh_slot sub2 m2 s.
Proof.
  intros Hag Hsub. pose proof (fun k => size_agree s m1 m2 Hag k) as Hz. unfold fresh_slot.
  unfold size_len, is_repeated_or_oneof, sizeof_pb_size_t in Hz.
  destruct (htype f =? PB_HTYPE_REPEATED) eqn:E1; [by rewrite Hz by done|].
  destruct (htype f =? PB_HTYPE_ONEOF) eqn:E2; [by rewrite Hz by done|]. cbn [orb] in Hz. bool_simpl.
  intros (H1 & H2 & H3). split; [intros Ef; rewrite Ef in Hz; by rewrite <- Hz, H1|]. split.
  - intros Ho Ef. specialize (H2 Ho Ef). rewrite <- H2. symmetry.
    destruct (slot_bounds _ _ _ _ Hs) as (_ & Hd & _).
    apply (zeros_agree m1 m2 (s_data s) (data_size f)); [|lia|lia]. eapply agree_within; [exact Hag|]. intros x Hx. left.
    unfold data_len. rewrite (item_count_one s) by done. by rewrite Z.mul_1_r.
  - intros Hl fields Hp. apply Hsub; [done|done|done|by apply H3].
Qed.
End FreshAgree.

Lemma fresh_agree depth : forall fields dest n m1 m2, round_ok depth fields dest n = true ->
  agree (within dest n) m1 m2 -> fresh depth m1 fields dest -> fresh depth m2 fields dest.
Proof.
  induction depth as [|depth IH]; intros fields dest n m1 m2 Hok Hag; [done|].
  destruct (round_ok_inv _ _ _ _ Hok) as (d & [= <-] & _ & _ & _ & Hslots & _). cbn [fresh]. intros Hf i s Hi.
  pose proof (Hslots _ _ Hi) as Hs. eapply fresh_slot_agree; [exact Hs| | |by eapply Hf].
  - eapply agree_sub; [|exact Hag]. intros x. by eapply place_inside.
  - intros fs Hl Hp Hr. destruct (slot_submsg_one _ _ _ _ Hs Hl Hr) as (fs' & Hp' & Hq). rewrite Hp in Hp'. injection Hp' as <-.
    eapply IH; [exact Hq|]. eapply agree_sub; [|exact Hag]. destruct (slot_data _ _ _ _ Hs) as (H1 & H2 & H3).
    unfold data_len in H2, H3. rewrite (item_count_one s Hr), Z.mul_1_r in H2, H3. unfold within. lia.
Qed.

(** * Setting a structure to its defaults *)

Lemma zeros_zero m n p : rd m (Z.of_nat n) p = Some (replicate n 0) -> zeros m n p = Some true.
Proof.
  revert p. induction n as [|n IH]; intros p H; [done|]. cbn [zeros]. cbn [replicate] in H.
  apply (rd_1 m _ p 0 (replicate n 0)) in H as [Hb Hl]; [|cbn [length]; rewrite length_replicate; lia].
  rewrite Hb. cbn. apply IH. by rewrite length_replicate in Hl.
Qed.

Lemma memset_zero_upd dest n m : 0 <= n -> mapped m dest n -> exists m', memset_zero dest n m = Some (tt, m') /\
  upd (within dest n) m m' /\ zeros m' (Z.to_nat n) dest = Some true.
Proof.
  intros H0 Hm. assert (Hl : zlen (zrepeat n 0) = n) by (rewrite length_zrepeat; lia).
  destruct (mem_store_upd (zrepeat n 0) dest m) as (m' & E & Er & Hu); [by rewrite Hl|]. rewrite Hl in *. exists m'.
  split; [exact E|]. split; [done|]. apply zeros_zero. by rewrite Z2Nat.id.
Qed.

(** The data of a field without a submessage. *)
Definition set_data (f : pb_field_t) (p : Z) : M mem unit :=
  match ptr f with PTR_NULL => memset_zero p (data_size f) | d => memcpy_default p d (data_size f) end.

Lemma set_data_upd f p m : default_fits f = true -> 0 <= data_size f -> mapped m p (data_size f) ->
  exists m', set_data f p m = Some (tt, m') /\ upd (within p (data_size f)) m m' /\
    (ptr f = PTR_NULL -> zeros m' (Z.to_nat (data_size f)) p = Some true).
Proof.
  unfold default_fits, set_data. intros Hd H0 Hm. destruct (ptr f) as [|l|]; [| |done].
  - destruct (memset_zero_upd p (data_size f) m H0 Hm) as (m' & E & Hu & Hz). by exists m'.
  - apply andb_prop in Hd as [Hd _]. unfold memcpy_default. rewrite Hd. apply Z.leb_le in Hd.
    assert (Hl : zlen (ztake (data_size f) l) = data_size f) by (rewrite length_ztake; lia).
    destruct (mem_store_upd (ztake (data_size f) l) p m) as (m' & E & _ & Hu); [by rewrite Hl|]. rewrite Hl in Hu. by exists m'.
Qed.

Section Defaults.
Context `{PbUser}.

Lemma kind_default f : kind_ok f = true -> is_repeated_or_oneof f = false -> ltype f <> PB_LTYPE_SUBMESSAGE ->
  default_fits f = true.
Proof.
  unfold kind_ok. intros Hk Hr Hl. rewrite Hr, (proj2 (Z.eqb_neq _ _) Hl) in Hk. cbn [negb orb] in Hk.
  destruct (_ && negb (has_flag f)); rewrite !andb_true_iff in Hk; destruct Hk as [_ Hk]; [|done].
  destruct Hk as [_ Hk]. unfold default_fits. by destruct (ptr f).
Qed.

(** The value of a field that is not in an array or a union. *)
Lemma set_value_fresh d D s m submsg lo n : slot_ok submsg lo n s = true -> mapped m lo n ->
  is_repeated_or_oneof (s_field s) = false ->
  (forall fields, ptr (s_field s) = PTR_SUBMSG fields -> submsg fields (s_data s) (data_size (s_field s)) = true ->
     exists m', set_fields_to_default (pb_field_set_to_default D) fields (s_data s) m = Some (tt, m') /\
       upd (within (s_data s) (data_size (s_field s))) m m' /\ fresh d m' fields (s_data s)) ->
  exists m', (if ltype (s_field s) =? PB_LTYPE_SUBMESSAGE then
      match ptr (s_field s) with
      | PTR_SUBMSG fields => set_fields_to_default (pb_field_set_to_default D) fields (s_data s)
      | _ => sstuck
      end
    else set_data (s_field s) (s_data s)) m = Some (tt, m') /\ upd (within (s_data s) (data_size (s_field s))) m m' /\
    (ptr (s_field s) = PTR_NULL -> zeros m' (Z.to_nat (data_size (s_field s))) (s_data s) = Some true) /\
    (ltype (s_field s) = PB_LTYPE_SUBMESSAGE -> forall fields, ptr (s_field s) = PTR_SUBMSG fields -> fresh d m' fields (s_data s)).
Proof.
  intros Hs Hm Hr Hsub. assert (Hh : htype (s_field s) <> PB_HTYPE_REPEATED).
  { unfold is_repeated_or_oneof in Hr. apply orb_false_iff in Hr as [Hr _]. by apply Z.eqb_neq. }
  destruct (slot_bounds _ _ _ _ Hs) as (_ & Hd & _). destruct (slot_data _ _ _ _ Hs) as (H1 & H2 & H3).
  unfold data_len in H2, H3. rewrite (item_count_one s Hh), Z.mul_1_r in H2, H3. case_if.
  - destruct (slot_submsg_one _ _ _ _ Hs E Hh) as (fields & Hp & Hok). rewrite Hp.
    destruct (Hsub fields Hp Hok) as (m' & Ed & Hu & Hf). exists m'. split; [done|]. split; [done|]. split; [done|].
    by intros _ fs [= <-].
  - destruct (set_data_upd (s_field s) (s_data s) m) as (m' & Ed & Hu & Hz); [|lia|eapply mapped_sub; [exact Hm|lia|lia]|].
    { by eapply kind_default; [eapply slot_kind|..]. }
    exists m'. done.
Qed.

(** The slot, whose field is of one of three kinds. *)
Section SetSlot.
Context (submsg : list pb_field_t -> Z -> Z -> bool) (lo n : Z) (s : slot) (m : mem).
Hypothesis Hs : slot_ok submsg lo n s = true.
Hypothesis Hm : mapped m lo n.
#[local] Abbreviation f := (s_field s).

Lemma set_count_fresh d : is_repeated_or_oneof f = true ->
  exists m', store_u sizeof_pb_size_t (s_size s) 0 m = Some (tt, m') /\ upd (place s) m m' /\
    fresh_slot (fresh d m') m' s /\ (htype f = PB_HTYPE_ONEOF -> rd_u m' 4 (s_size s) = Some 0).
Proof.
  intros Er. assert (Hz : size_len f = 4) by (unfold size_len; by rewrite Er).
  destruct (slot_bounds _ _ _ _ Hs) as (Ht & _). destruct (slot_size _ _ _ _ Hs ltac:(lia)) as [Hin _]. rewrite Hz in Hin.
  destruct (store_u_upd 4 (s_size s) 0 m) as (m' & E & Erd & Hu); [lia|eapply mapped_sub; [exact Hm|lia|lia]|].
  exists m'. split; [exact E|]. split; [eapply upd_sub; [|exact Hu]; intros x Hx; right; by rewrite Hz|].
  split; [|done]. unfold fresh_slot. unfold is_repeated_or_oneof in Er. destruct (_ =? PB_HTYPE_REPEATED); [done|].
  cbn [orb] in Er. rewrite Er. exists 0. split; [done|lia].
Qed.

Lemma flag_place : has_flag f = true -> size_len f = 1 /\ lo <= s_size s /\ s_size s + 1 <= lo + n /\
  apart (s_data s) (data_len f) (s_size s) 1 = true.
Proof.
  intros Ef. assert (Hz : size_len f = 1).
  { unfold size_len. rewrite Ef. unfold has_flag in Ef. apply andb_prop in Ef as [Ef _]. apply Z.eqb_eq in Ef.
    unfold is_repeated_or_oneof. by rewrite Ef. }
  split; [done|]. destruct (slot_size _ _ _ _ Hs ltac:(lia)) as [Hin Hap]. rewrite Hz in Hin, Hap. split; [lia|]. split; [lia|done].
Qed.

Lemma has_flag_test : (htype f =? PB_HTYPE_OPTIONAL) && negb (s_size s =? s_data s) = has_flag f.
Proof.
  unfold has_flag. rewrite (slot_size_at _ _ _ _ Hs). do 2 f_equal.
  destruct (Z.eqb_spec (size_offset f) 0); [apply Z.eqb_eq|apply Z.eqb_neq]; lia.
Qed.

Lemma store_flag b : has_flag f = true -> 0 <= b < 256 -> exists m', store_u 1 (s_size s) b m = Some (tt, m') /\
  upd (within (s_size s) 1) m m' /\ rd_u m' 1 (s_size s) = Some b.
Proof.
  intros Ef Hb. destruct (flag_place Ef) as (_ & H1 & H2 & _).
  destruct (store_u_upd 1 (s_size s) b m) as (m' & E & Erd & Hu); [lia|eapply mapped_sub; [exact Hm|lia|lia]|].
  exists m'. split; [done|]. split; [done|]. by rewrite Z.mod_small in Erd by lia.
Qed.

Lemma clear_flag : exists m', (if has_flag f then store_u 1 (s_size s) 0 ;;; sret true else sret true) m = Some (true, m') /\
  upd (place s) m m' /\ (has_flag f = true -> rd_u m' 1 (s_size s) = Some 0).
Proof.
  destruct (has_flag f) eqn:Ef; [|exists m; split; [done|]; split; [apply upd_refl|done]].
  destruct (store_flag 0 Ef ltac:(lia)) as (m' & E & Hu & Hr). exists m'. unfold sbind, sret. rewrite E. split; [done|].
  split; [|done]. eapply upd_sub; [|exact Hu]. intros x Hx. right. by rewrite (proj1 (flag_place Ef)).
Qed.

(** The data of a field that is not in an array. *)
Lemma data_place x : htype f <> PB_HTYPE_REPEATED -> within (s_data s) (data_size f) x -> place s x.
Proof. intros Hh Hx. left. unfold data_len. by rewrite (item_count_one s Hh), Z.mul_1_r. Qed.

Lemma flag_kept m1 m2 b : has_flag f = true -> upd (within (s_data s) (data_size f)) m1 m2 ->
  rd_u m1 1 (s_size s) = Some b -> rd_u m2 1 (s_size s) = Some b.
Proof.
  intros Ef Hu Hr. destruct (flag_place Ef) as (_ & _ & _ & Hap). rewrite <- Hr. symmetry.
  apply (rd_u_agree m1 m2 (s_size s) 1); [|lia..]. eapply upd_agree; [exact Hu|]. intros x Hx Hd.
  unfold has_flag in Ef. apply andb_prop in Ef as [Ef _]. apply Z.eqb_eq in Ef.
  unfold data_len in Hap. rewrite (item_count_one s), Z.mul_1_r in Hap by (by rewrite Ef).
  by apply (apart_spec _ _ _ _ x Hap).
Qed.
End SetSlot.

Lemma set_slot_fresh d D fields dest i s m submsg lo n : layout fields dest !! i = Some s ->
  slot_ok submsg lo n s = true -> mapped m lo n ->
  (forall fs m, ptr (s_field s) = PTR_SUBMSG fs -> submsg fs (s_data s) (data_size (s_field s)) = true ->
     mapped m (s_data s) (data_size (s_field s)) ->
     exists m', set_fields_to_default (pb_field_set_to_default D) fs (s_data s) m = Some (tt, m') /\
       upd (within (s_data s) (data_size (s_field s))) m m' /\ fresh d m' fs (s_data s)) ->
  exists m', pb_field_set_to_default (S D) (it_at fields dest i s) m = Some (tt, m') /\ upd (place s) m m' /\
    fresh_slot (fresh d m') m' s /\ (htype (s_field s) = PB_HTYPE_ONEOF -> rd_u m' 4 (s_size s) = Some 0).
Proof.
  intros Hi Hs Hm Hsub. destruct (slot_static _ _ _ _ Hs) as [Ha Hx].
  assert (Hne : (ltype (s_field s) =? PB_LTYPE_EXTENSION) = false).
  { apply Z.eqb_neq. intros E. exact_cases (s_field s) Hx Hl Hn; rewrite E in Hl; unfold PB_LTYPE_EXTENSION in Hl; lia. }
  cbn [pb_field_set_to_default]. unfold sbind at 1, slift at 1. rewrite (cur_it_at _ _ _ _ Hi), Hne, Ha.
  cbn [it_at pData pSize]. change (PB_ATYPE_STATIC =? PB_ATYPE_STATIC) with true. cbv iota.
  rewrite (has_flag_test _ _ _ _ Hs). destruct (is_repeated_or_oneof (s_field s)) eqn:Er.
  - assert (Hno : has_flag (s_field s) = false).
    { unfold has_flag. unfold is_repeated_or_oneof in Er. rewrite orb_true_iff, !Z.eqb_eq in Er. by destruct Er as [-> | ->]. }
    destruct (set_count_fresh _ _ _ _ m Hs Hm d Er) as (m' & E & H1 & H2 & H3).
    exists m'. unfold sbind, sret. rewrite Hno, E. done.
  - assert (Hh : htype (s_field s) <> PB_HTYPE_REPEATED /\ htype (s_field s) <> PB_HTYPE_ONEOF).
    { unfold is_repeated_or_oneof in Er. apply orb_false_iff in Er. by rewrite !Z.eqb_neq in Er. }
    destruct Hh as [Hh1 Hh2]. destruct (clear_flag _ _ _ _ m Hs Hm) as (m1 & E1 & Hu1 & Hf1).
    assert (Hm1 : mapped m1 lo n) by (by eapply upd_mapped).
    destruct (set_value_fresh d D s m1 submsg lo n Hs Hm1 Er) as (m2 & E2 & Hu2 & Hz2 & Hf2).
    { intros fs Hp Hok. apply Hsub; [done|done|]. destruct (slot_data _ _ _ _ Hs) as (H1 & H2 & H3).
      unfold data_len in H2, H3. rewrite (item_count_one s Hh1), Z.mul_1_r in H2, H3. eapply mapped_sub; [exact Hm1|lia|lia]. }
    exists m2. unfold sbind in E1 |- *. rewrite E1. cbn [negb]. split; [exact E2|]. split; [|split; [|done]].
    + eapply upd_trans; [exact Hu1|]. eapply upd_sub; [|exact Hu2]. intros x. by apply data_place.
    + unfold fresh_slot. rewrite (proj2 (Z.eqb_neq _ _) Hh1), (proj2 (Z.eqb_neq _ _) Hh2). split; [|split].
      * intros Ef. eapply flag_kept; [exact Hs|done|exact Hu2|by apply Hf1].
      * intros Ho Ef. destruct (kind_plain (s_field s)) as [_ Hp]; [by eapply slot_kind|done|done|]. by apply Hz2.
      * exact Hf2.
Qed.

(** A slot that has been set, and stays so when another is. *)
Definition cleared (d : nat) (m : mem) (s : slot) : Prop :=
  fresh_slot (fresh d m) m s /\ (htype (s_field s) = PB_HTYPE_ONEOF -> rd_u m 4 (s_size s) = Some 0).

Lemma fresh_slot_upd d m1 m2 s t lo n : slot_ok (round_ok d) lo n s = true -> upd (place t) m1 m2 ->
  (forall x, place s x -> ~ place t x) -> fresh_slot (fresh d m1) m1 s -> fresh_slot (fresh d m2) m2 s.
Proof.
  intros Hs Hu Hd. assert (Hag : agree (place s) m1 m2) by by eapply upd_agree_on.
  eapply fresh_slot_agree; [exact Hs|done|]. intros fs Hl Hp Hr Hf.
  destruct (slot_submsg_one _ _ _ _ Hs Hl Hr) as (fs' & Hp' & Hq). rewrite Hp in Hp'. injection Hp' as <-.
  eapply fresh_agree; [exact Hq| |exact Hf]. eapply agree_sub; [|exact Hag]. intros x. by apply data_place.
Qed.

Lemma cleared_upd d m1 m2 s t lo n : slot_ok (round_ok d) lo n s = true -> slot_ok (round_ok d) lo n t = true ->
  separate s t = true -> upd (place t) m1 m2 -> cleared d m2 t -> cleared d m1 s -> cleared d m2 s.
Proof.
  intros Hs Ht Hsep Hu [_ Hc] [Hf Hz]. destruct (same_which s t) eqn:Ew.
  - apply same_which_spec in Ew as (H1 & H2 & H3). specialize (Hc H2). rewrite <- H3 in Hc. split; [|done].
    unfold fresh_slot. rewrite H1. cbn -[rd_u]. exists 0. split; [done|].
    destruct (slot_bounds _ _ _ _ Hs) as (Htag & _). lia.
  - pose proof (separate_places _ _ Hsep Ew) as Hd. split; [by eapply fresh_slot_upd|].
    intros Ho. rewrite <- (Hz Ho). symmetry. apply (size_agree s m1 m2); [by eapply upd_agree_on| |lia].
    unfold size_len, is_repeated_or_oneof. by rewrite Ho.
Qed.

Section Loop.
Variables (d D : nat) (fields : list pb_field_t) (dest n : Z).
#[local] Abbreviation L := (layout fields dest).
Hypothesis Hterm : terminated fields = true.
Hypothesis Hslots : forall i s, L !! i = Some s -> slot_ok (round_ok d) dest n s = true.
Hypothesis Hsep : all_separate L = true.
Hypothesis Hsub : forall fs q k m, round_ok d fs q k = true -> mapped m q k ->
  exists m', set_fields_to_default (pb_field_set_to_default D) fs q m = Some (tt, m') /\
    upd (within q k) m m' /\ fresh d m' fs q.

Lemma set_loop : forall fuel i s m, L !! i = Some s -> (length L <= fuel + i)%nat -> mapped m dest n ->
  (forall k t, (k < i)%nat -> L !! k = Some t -> cleared d m t) ->
  exists m', iter_fields fuel (fun it _ => pb_field_set_to_default (S D) it ;;; sret (true, tt)) (it_at fields dest i s) tt m =
      Some ((true, tt), m') /\ upd (within dest n) m m' /\ (forall k t, L !! k = Some t -> cleared d m' t).
Proof.
  intros fuel. induction fuel as [|fuel IH]; intros i s m Hi Hf Hm Hpre; [apply lookup_lt_Some in Hi; lia|].
  pose proof (Hslots _ _ Hi) as Hs. destruct (set_slot_fresh d D fields dest i s m _ _ _ Hi Hs Hm) as (m1 & E1 & Hu1 & Hc1).
  { intros fs m0 Hp Hok Hm0. by apply Hsub. }
  assert (Hu1' : upd (within dest n) m m1) by (eapply upd_sub; [|exact Hu1]; intros x; by eapply place_inside).
  assert (Hpre1 : forall k t, (k < S i)%nat -> L !! k = Some t -> cleared d m1 t).
  { intros k t Hk Ht. destruct (decide (k = i)) as [->|]; [rewrite Hi in Ht; injection Ht as <-; done|].
    eapply cleared_upd; [by eapply Hslots|exact Hs|by eapply (slots_separate L k i)|exact Hu1|done|].
    apply (Hpre k t); [lia|done]. }
  cbn [iter_fields]. unfold sbind, sret. rewrite E1. cbn [negb]. unfold slift.
  destruct (lookup_lt_is_Some_2 L 0) as [s0 H0]; [apply lookup_lt_Some in Hi; lia|].
  rewrite (pb_field_iter_next_spec _ _ _ _ _ Hterm Hi H0). destruct (L !! S i) as [s'|] eqn:Es.
  - destruct (IH (S i) s' m1 Es) as (m2 & E2 & Hu2 & Hc2); [lia|by eapply upd_mapped|done|].
    exists m2. unfold sbind, sret in E2. rewrite E2. split; [done|]. split; [by eapply upd_trans|done].
  - exists m1. split; [done|]. split; [done|]. intros k t Ht. apply (Hpre1 k t); [|done].
    apply lookup_ge_None_1 in Es. apply lookup_lt_Some in Ht. lia.
Qed.
End Loop.

(** Defaults leave every field absent. *)
Lemma set_defaults_fresh depth : forall D fields dest n m, (depth <= D)%nat -> round_ok depth fields dest n = true ->
  mapped m dest n ->
  exists m', set_fields_to_default (pb_field_set_to_default D) fields dest m = Some (tt, m') /\
    upd (within dest n) m m' /\ fresh depth m' fields dest.
Proof.
  induction depth as [|depth IH]; intros D fields dest n m HD Hok Hm; [done|]. destruct D as [|D]; [lia|].
  destruct (round_ok_inv _ _ _ _ Hok) as (d & [= <-] & _ & Ht & _ & Hslots & Hsep).
  unfold set_fields_to_default. destruct (layout fields dest) as [|s0 L] eqn:EL.
  - destruct (pb_field_iter_begin_empty fields dest Ht EL) as (it & Eb & _). exists m. unfold sbind, slift. rewrite Eb.
    split; [done|]. split; [apply upd_refl|]. cbn [fresh]. rewrite EL. done.
  - assert (H0 : layout fields dest !! 0%nat = Some s0) by (by rewrite EL). rewrite <- EL in Hslots, Hsep.
    destruct (set_loop depth D fields dest n Ht Hslots Hsep) with (fuel := length fields) (i := 0%nat) (s := s0) (m := m)
      as (m' & E & Hu & Hc); [|done|pose proof (length_layout fields dest Ht); lia|done|intros; lia|].
    + intros fs q k m0 Hfs Hm0. apply IH; [lia|done|done].
    + exists m'. unfold sbind, slift, sret in E |- *. rewrite (pb_field_iter_begin_spec _ _ _ H0). cbn [negb]. rewrite E.
      split; [done|]. split; [done|]. cbn [fresh]. intros i s Hi. by apply (Hc i).
Qed.
End Defaults.
