(* ===== verification/PbRound.v ===== *)
(** * nanopb: a message survives encoding and decoding

    The decoder on the bytes of a message ([message] of PbWire.v, which are the bytes
    the encoder writes): it accepts them, and leaves a structure that stands for the
    same message. The fields of the message come in the order of the table; the proof
    follows the loop of pb_decode_noinit slot by slot, with the slots before decoded
    and the slots after still absent. *)

From Stdlib Require Import ZArith Lia.
From stdpp Require Import base list option gmap.
From S2P Require Import Prelude ByteMem Pb PbWire PbEncode PbDecode PbSafe PbValue PbStruct.

#[local] Arguments varint : simpl never.
#[local] Arguments delimited : simpl never.

(** Decides the tests of a constant presence type. *)
Tactic Notation "eval_htypes" :=
  cbn [Z.eqb Pos.eqb PB_HTYPE_REQUIRED PB_HTYPE_OPTIONAL PB_HTYPE_REPEATED PB_HTYPE_ONEOF].
Tactic Notation "eval_htypes" "in" hyp(H) :=
  cbn [Z.eqb Pos.eqb PB_HTYPE_REQUIRED PB_HTYPE_OPTIONAL PB_HTYPE_REPEATED PB_HTYPE_ONEOF] in H.

(** * Concatenated results *)

Lemma rseq_inv a b w : rseq a b = emit w -> exists wa wb, a = emit wa /\ b = emit wb /\ w = wa ++ wb.
Proof.
  destruct a as [[wa|]|]; [|done..]. destruct b as [[wb|]|]; [|done..]. intros [= <-]. by exists wa, wb.
Qed.

Lemma rconcat_inv {A} (g : A -> R) l w : rconcat (map g l) = emit w ->
  exists ws, Forall2 (fun x v => g x = emit v) l ws /\ w = concat ws.
Proof.
  revert w. induction l as [|x l IH]; intros w; cbn [map rconcat fold_right]; [intros [= <-]; by exists []|].
  intros (wa & wb & Ha & Hb & ->)%rseq_inv. destruct (IH wb Hb) as (ws & Hws & ->).
  exists (wa :: ws). split; [by constructor|done].
Qed.

Lemma rconcat_emit {A} (g : A -> R) l ws : Forall2 (fun x v => g x = emit v) l ws -> rconcat (map g l) = emit (concat ws).
Proof.
  induction 1 as [|x v l ws Hx _ IH]; [done|]. cbn [map rconcat fold_right]. unfold rconcat in IH. by rewrite IH, Hx.
Qed.

Lemma length_in_concat (v : bytes) l : In v l -> zlen v <= zlen (concat l).
Proof.
  induction l as [|u l IH]; [done|]. cbn [In concat]. rewrite length_app. intros [->|Hin]; [lia|]. specialize (IH Hin). lia.
Qed.

Lemma rdelim_inv a w : rdelim a = emit w -> exists l, a = emit l /\ w = delimited l /\ zlen l < 2 ^ 63.
Proof. destruct a as [[l|]|]; [|done..]. intros H%emit_delimited_inv. by exists l. Qed.

Lemma rdelim_emit l : zlen l < 2 ^ 63 -> rdelim (emit l) = emit (delimited l).
Proof. apply emit_delimited_small. Qed.

(** * The layouts of a table at two addresses *)

Definition moved (k : Z) (s : slot) : slot := mk_slot (s_field s) (s_data s + k) (s_size s + k) (s_req s).

Lemma next_slot_moved k s f : next_slot (moved k s) f = moved k (next_slot s f).
Proof. unfold next_slot, moved. cbn. destruct (same_union _ _); [done|]. unfold slot_at. cbn. f_equal; lia. Qed.

Lemma slots_from_moved k s fields : slots_from (moved k s) fields = map (moved k) (slots_from s fields).
Proof.
  revert s. induction fields as [|f l IH]; intros s; cbn [slots_from]; [done|]. case_if; [done|].
  by rewrite next_slot_moved, IH.
Qed.

Lemma layout_moved fields p k : layout fields (p + k) = map (moved k) (layout fields p).
Proof.
  destruct fields as [|f l]; cbn [layout]; [done|]. case_if; [done|].
  assert (Em : slot_at f (p + k + data_offset f) 0 = moved k (slot_at f (p + data_offset f) 0)).
  { unfold slot_at, moved. cbn. f_equal; lia. }
  cbv zeta. rewrite Em, slots_from_moved. done.
Qed.

Lemma layout_at fields p q i s : layout fields p !! i = Some s -> layout fields q !! i = Some (moved (q - p) s).
Proof.
  intros H. replace q with (p + (q - p)) at 1 by lia. rewrite layout_moved.
  change (map (moved (q - p)) (layout fields p)) with (moved (q - p) <$> layout fields p). by rewrite list_lookup_fmap, H.
Qed.

(** * Default values on the wire *)

(** The encoding of the value that counts as absent. *)
Definition default_wire (f : pb_field_t) : bytes :=
  if ltype f =? PB_LTYPE_FIXED32 then replicate 4 0
  else if ltype f =? PB_LTYPE_FIXED64 then replicate 8 0
  else [0].

Lemma zeros_rd m n p l : rd m (Z.of_nat n) p = Some l -> zeros m n p = Some (forallb (Z.eqb 0) l).
Proof.
  revert p l. induction n as [|n IH]; intros p l H.
  - unfold rd in H. cbn in H. by injection H as <-.
  - pose proof (rd_length m (Z.of_nat (S n)) p l ltac:(lia) H) as Hl. destruct l as [|b l]; [cbn in Hl; lia|].
    apply (rd_1 m _ p b l) in H as [Hb H]; [|by rewrite Hl]. cbn [zeros forallb]. rewrite Hb. cbn -[Z.eqb].
    rewrite (Z.eqb_sym 0). case_if; [|done]. cbn [andb]. apply IH. rewrite <- H. f_equal. cbn [length] in Hl. lia.
Qed.

Lemma all_zero_replicate l : forallb (Z.eqb 0) l = true -> l = replicate (length l) 0.
Proof.
  induction l as [|b l IH]; [done|]. cbn [forallb length replicate]. rewrite andb_true_iff, Z.eqb_eq.
  intros [<- H]. f_equal. by apply IH.
Qed.

Lemma all_zero_le_val l : forallb (Z.eqb 0) l = true -> le_val l = 0.
Proof.
  induction l as [|b l IH]; [done|]. cbn [forallb]. rewrite andb_true_iff, Z.eqb_eq. intros [<- H].
  rewrite le_val_cons, IH by done. done.
Qed.

Lemma le_val_all_zero l : bytes_ok l -> le_val l = 0 -> forallb (Z.eqb 0) l = true.
Proof.
  induction l as [|b l IH]; [done|]. intros [Hb Hl]%Forall_cons. rewrite le_val_cons. intros H.
  pose proof (le_val_bound l Hl). unfold is_u in Hb. cbn [forallb]. rewrite andb_true_iff, Z.eqb_eq.
  split; [lia|]. apply IH; [done|lia].
Qed.

Lemma varint_inj v v' : is_u 64 v -> is_u 64 v' -> varint v = varint v' -> v = v'.
Proof.
  unfold is_u. intros Hv Hv' E. pose proof (parse_varint_varint 10 v [] ltac:(lia) ltac:(lia)) as H.
  pose proof (parse_varint_varint 10 v' [] ltac:(lia) ltac:(lia)) as H'. rewrite E, H' in H. congruence.
Qed.

Lemma delimited_inj l l' : zlen l < 2 ^ 63 -> zlen l' < 2 ^ 63 -> delimited l = delimited l' -> l = l'.
Proof.
  intros Hl Hl' E. unfold delimited in E.
  pose proof (parse_varint_varint 10 (zlen l) l ltac:(lia) ltac:(lia)) as H.
  pose proof (parse_varint_varint 10 (zlen l') l' ltac:(lia) ltac:(lia)) as H'. rewrite E, H' in H. congruence.
Qed.

Section DefaultWire.
Variables (m : mem) (sub : list pb_field_t -> Z -> R) (f : pb_field_t) (p : Z).
#[local] Abbreviation n := (data_size f).
Hypothesis Ha : atype f = PB_ATYPE_STATIC.
Hypothesis Hx : exact_size f = true.
Hypothesis Hl : ltype f <> PB_LTYPE_SUBMESSAGE.
Hypothesis Hnf : ltype f <> PB_LTYPE_FIXED_LENGTH_BYTES.
Hypothesis Hp : p <> NULL.

Lemma le_val_default k l v : 0 <= k -> rd m k p = Some l -> rd_u m k p = Some v -> zeros m (Z.to_nat k) p = Some true -> v = 0.
Proof.
  intros Hk Hr Hu Hz. rewrite (zeros_rd m _ p l) in Hz by (by rewrite Z2Nat.id). injection Hz as Hz.
  unfold rd_u in Hu. rewrite Hr in Hu. injection Hu as <-. by apply all_zero_le_val.
Qed.

Lemma rd_u_rd k v : rd_u m k p = Some v -> exists l, rd m k p = Some l.
Proof. unfold rd_u. destruct (rd m k p) as [l|]; [by exists l|done]. Qed.

(** A value that counts as absent has the default encoding. *)
Lemma default_encoding w : is_default m sub f p = Some true -> value m sub f p = emit w -> w = default_wire f.
Proof.
  rewrite is_default_scalar by done. unfold default_wire. intros Hz Hv. exact_cases f Hx Hlt Hn.
  - assert (Hz' : zeros m (Z.to_nat n) p = Some true) by (by destruct Hlt as [E|[E|E]]; rewrite E in Hz).
    assert (Hw : w = [0]); [|by destruct Hlt as [-> | [-> | ->]]]. pose proof (int_size_spec _ Hn) as Hs.
    assert (Hsx : sext n 0 = 0) by (by destruct Hs as [-> | [-> | [-> | ->]]]).
    destruct Hlt as [E|[E|E]]; [rewrite value_varint in Hv by done|rewrite value_uvarint in Hv by done|rewrite value_svarint in Hv by done].
    1,3: unfold rd_s in Hv.
    all: destruct (rd_u m n p) as [v|] eqn:Eu; [|done]; destruct (rd_u_rd _ _ Eu) as [l Er];
      rewrite (le_val_default n l v ltac:(lia) Er Eu Hz') in Hv; cbn -[sext zigzag Z.modulo Z.pow] in Hv.
    all: injection Hv as <-; rewrite ?Hsx; reflexivity.
  - rewrite value_fixed32 in Hv by done. rewrite Hlt in Hz |- *. rewrite Hn in Hz. destruct (rd m 4 p) as [l|] eqn:Er; [|done].
    injection Hv as <-. change (zeros m 4 p = Some true) in Hz. rewrite (zeros_rd m 4 p l Er) in Hz. injection Hz as Hz.
    apply all_zero_replicate in Hz. apply rd_length in Er; [|lia]. by replace (length l) with 4%nat in Hz by lia.
  - rewrite value_fixed64 in Hv by done. rewrite Hlt in Hz |- *. rewrite Hn in Hz. destruct (rd m 8 p) as [l|] eqn:Er; [|done].
    injection Hv as <-. change (zeros m 8 p = Some true) in Hz. rewrite (zeros_rd m 8 p l Er) in Hz. injection Hz as Hz.
    apply all_zero_replicate in Hz. apply rd_length in Er; [|lia]. by replace (length l) with 8%nat in Hz by lia.
  - rewrite value_bytes in Hv by done. rewrite Hlt in Hz |- *. cbn -[rd_u] in Hz. destruct (rd_u m 4 p) as [k|]; [|done].
    injection Hz as Hz. apply Z.eqb_eq in Hz as ->. cbn -[Z.ltb emit_delimited] in Hv.
    rewrite (proj2 (Z.ltb_ge _ _)) in Hv by lia. by injection Hv as <-.
  - rewrite value_string in Hv by done. rewrite Hlt in Hz |- *. cbn -[rd_u] in Hz. cbn -[Z.leb rd_u emit_delimited] in Hv.
    rewrite (proj2 (Z.leb_gt _ _)) in Hv by lia. destruct (rd_u m 1 p) as [c|]; [|done].
    injection Hz as Hz. rewrite Hz in Hv. by injection Hv as <-.
  - done.
  - done.
Qed.

Lemma zeros_le_val k v : mem_bytes m -> 0 <= k -> rd_u m k p = Some v -> v = 0 -> zeros m (Z.to_nat k) p = Some true.
Proof.
  intros Hm Hk Hu ->. destruct (rd_u_rd _ _ Hu) as [l Er]. unfold rd_u in Hu. rewrite Er in Hu. injection Hu as Hu.
  rewrite (zeros_rd m _ p l) by (by rewrite Z2Nat.id). f_equal. apply le_val_all_zero; [|done].
  by eapply (load_bytes_ok _ _ _ _ Hm).
Qed.

Lemma sext_zero k v : k = 1 \/ k = 2 \/ k = 4 \/ k = 8 -> 0 <= v < 256 ^ k -> sext k v = 0 -> v = 0.
Proof. unfold sext. intros Hk Hv. destruct Hk as [-> | [-> | [-> | ->]]]; cbn in Hv |- *; case_if; lia. Qed.

(** The default encoding is that of a value that counts as absent. *)
Lemma encoding_default : mem_bytes m -> value m sub f p = emit (default_wire f) -> is_default m sub f p = Some true.
Proof.
  rewrite is_default_scalar by done. unfold default_wire. intros Hm Hv. exact_cases f Hx Hlt Hn.
  - assert (Hw : value m sub f p = emit (varint 0)) by (by destruct Hlt as [E|[E|E]]; rewrite E in Hv). clear Hv.
    pose proof (int_size_spec _ Hn) as Hs.
    assert (Hz : exists v, rd_u m n p = Some v /\ v = 0).
    { destruct Hlt as [E|[E|E]];
        [rewrite value_varint in Hw by done|rewrite value_uvarint in Hw by done|rewrite value_svarint in Hw by done];
        unfold rd_s in Hw; destruct (rd_u m n p) as [v|] eqn:Eu; try done; exists v; (split; [done|]);
        pose proof (rd_u_bound m n p v Hm ltac:(lia) Eu) as Hb; cbn -[sext zigzag Z.modulo Z.pow Z.mul] in Hw; injection Hw as Hw.
      - assert (Hr : - 2 ^ 63 <= sext n v < 2 ^ 63) by (apply (rd_s_bound m n p); [done|lia|unfold rd_s; by rewrite Eu]).
        apply varint_inj in Hw; [|apply Z.mod_pos_bound; lia|unfold is_u; lia].
        apply (sext_zero n); [done|done|]. apply Z.mod_divide in Hw as [k Hk]; [|lia]. lia.
      - assert (256 ^ n <= 256 ^ 8) by (apply Z.pow_le_mono_r; lia).
        by apply varint_inj in Hw; [|unfold is_u; lia|unfold is_u; lia].
      - assert (Hr : - 2 ^ 63 <= sext n v < 2 ^ 63) by (apply (rd_s_bound m n p); [done|lia|unfold rd_s; by rewrite Eu]).
        apply varint_inj in Hw; [|by apply zigzag_range|unfold is_u; lia].
        apply (sext_zero n); [done|done|]. revert Hw. unfold zigzag. case_if; lia. }
    destruct Hz as (v & Hu & Hv0). assert (Hz : zeros m (Z.to_nat n) p = Some true) by (apply (zeros_le_val n v); [done|lia|done|done]).
    by destruct Hlt as [-> | [-> | ->]].
  - rewrite value_fixed32 in Hv by done. rewrite Hlt in Hv |- *. rewrite Hn. destruct (rd m 4 p) as [l|] eqn:Er; [|done].
    injection Hv as ->. apply (zeros_rd m 4 p _ Er).
  - rewrite value_fixed64 in Hv by done. rewrite Hlt in Hv |- *. rewrite Hn. destruct (rd m 8 p) as [l|] eqn:Er; [|done].
    injection Hv as ->. apply (zeros_rd m 8 p _ Er).
  - rewrite value_bytes in Hv by done. rewrite Hlt in Hv |- *. cbn -[rd_u]. destruct (rd_u m 4 p) as [k|] eqn:Ek; [|done].
    cbn -[Z.ltb emit_delimited] in Hv |- *. destruct (n <? k + 4); [done|]. destruct (rd m k (p + 4)) as [l|] eqn:El; [|done].
    cbn -[emit_delimited] in Hv. apply emit_delimited_inv in Hv as [Hv Hlen]. apply (delimited_inj []) in Hv; [|cbn; lia|done]. subst l.
    pose proof (rd_u_bound m 4 p k Hm ltac:(lia) Ek). apply rd_length in El; [|lia]. cbn in El. by subst k.
  - rewrite value_string in Hv by done. rewrite Hlt in Hv |- *. cbn -[rd_u]. cbn -[Z.leb rd_u emit_delimited] in Hv.
    rewrite (proj2 (Z.leb_gt _ _)) in Hv by lia. destruct (rd_u m 1 p) as [c|]; [|done].
    destruct (c =? 0) eqn:Ec; [cbn; by rewrite Ec|]. destruct (cstring m _ _ _) as [l|]; [|done]. cbn -[emit_delimited] in Hv.
    apply emit_delimited_inv in Hv as [Hv Hlen]. by apply (delimited_inj []) in Hv; [|cbn; lia|done].
  - done.
  - done.
Qed.
End DefaultWire.

Lemma zeros_prefix m n k p : (k <= n)%nat -> zeros m n p = Some true -> zeros m k p = Some true.
Proof.
  revert n p. induction k as [|k IH]; intros n p Hk; [done|]. destruct n as [|n]; [lia|]. cbn [zeros].
  destruct (rd_u m 1 p) as [c|]; [|done]. cbn -[Z.eqb]. destruct (c =? 0); [|done]. apply IH. lia.
Qed.

Lemma zeros_rd_u m k p : 0 <= k -> zeros m (Z.to_nat k) p = Some true -> rd_u m k p = Some 0.
Proof.
  intros Hk Hz. unfold rd_u. assert (Hr : rd m k p = Some (replicate (Z.to_nat k) 0)).
  { rewrite <- (Z2Nat.id k) at 1 by done. revert Hz. generalize (Z.to_nat k). intros n. clear Hk. revert p.
    induction n as [|n IH]; intros p Hz; [done|]. cbn [zeros] in Hz. rewrite rd_u1 in Hz. unfold rd in *.
    rewrite Nat2Z.id in *. cbn [load_bytes replicate]. destruct (m !! p) as [c|]; [|done]. cbn -[Z.eqb] in Hz.
    destruct (c =? 0) eqn:Ec; [|done]. apply Z.eqb_eq in Ec as ->. by rewrite (IH (p + 1) Hz). }
  rewrite Hr. cbn. f_equal. apply all_zero_le_val. clear. by induction (Z.to_nat k).
Qed.

Lemma zeros_mapped m n p : mapped m p (Z.of_nat n) -> exists b, zeros m n p = Some b.
Proof.
  intros Hm. destruct (load_bytes_mapped n m p Hm) as [l El]. exists (forallb (Z.eqb 0) l). apply zeros_rd.
  unfold rd. by rewrite Nat2Z.id.
Qed.

Lemma rd_u_mapped m k p : mapped m p k -> exists v, rd_u m k p = Some v.
Proof.
  intros Hm. destruct (load_bytes_mapped (Z.to_nat k) m p) as [l El].
  - intros i Hi. apply Hm. lia.
  - exists (le_val l). unfold rd_u, rd. by rewrite El.
Qed.

Lemma is_default_mapped m sub f p : atype f = PB_ATYPE_STATIC -> exact_size f = true -> ltype f <> PB_LTYPE_SUBMESSAGE ->
  mapped m p (data_size f) -> exists b, is_default m sub f p = Some b.
Proof.
  intros Ha Hx Hl Hm. rewrite is_default_scalar by done.
  assert (Hz : 0 <= data_size f -> exists b, zeros m (Z.to_nat (data_size f)) p = Some b).
  { intros H0. apply zeros_mapped. by rewrite Z2Nat.id. }
  assert (Hu : forall k, k <= data_size f -> exists v, rd_u m k p = Some v).
  { intros k Hk. apply rd_u_mapped. eapply mapped_sub; [exact Hm|lia|lia]. }
  exact_cases f Hx Hlt Hn.
  - apply int_size_spec in Hn. destruct (Hz ltac:(lia)) as [b Eb]. exists b. by destruct Hlt as [-> | [-> | ->]].
  - destruct (Hz ltac:(lia)) as [b Eb]. exists b. by rewrite Hlt.
  - destruct (Hz ltac:(lia)) as [b Eb]. exists b. by rewrite Hlt.
  - destruct (Hu 4 ltac:(lia)) as [v Ev]. exists (v =? 0). rewrite Hlt. cbn. by rewrite Ev.
  - destruct (Hu 1 ltac:(lia)) as [v Ev]. exists (v =? 0). rewrite Hlt. cbn. by rewrite Ev.
  - done.
  - exists (data_size f =? 0). by rewrite Hlt.
Qed.

(** A field that is present by its value stays so. *)
Lemma not_default_kept ms m sub sub' f p q w : mem_bytes ms -> atype f = PB_ATYPE_STATIC -> exact_size f = true ->
  ltype f <> PB_LTYPE_SUBMESSAGE -> p <> NULL -> q <> NULL -> mapped m q (data_size f) ->
  is_default ms sub f p = Some false -> value ms sub f p = emit w -> value m sub' f q = emit w ->
  is_default m sub' f q = Some false.
Proof.
  intros Hms Ha Hx Hl Hp Hq Hm Hd Hv Hv'. destruct (decide (ltype f = PB_LTYPE_FIXED_LENGTH_BYTES)) as [E|Hnf].
  { rewrite is_default_scalar in * by done. rewrite E in *. exact Hd. }
  destruct (is_default_mapped m sub' f q Ha Hx Hl Hm) as [b Eb]. rewrite Eb. destruct b; [|done]. exfalso.
  pose proof (default_encoding _ _ _ _ Ha Hx Hl Hnf Hq _ Eb Hv') as ->.
  by rewrite (encoding_default _ _ _ _ Ha Hx Hl Hnf Hp Hms Hv) in Hd.
Qed.

(** A field that is absent by its value is absent where its bytes are zero. *)
Lemma default_zeros ms m sub sub' f p q : atype f = PB_ATYPE_STATIC -> exact_size f = true ->
  ltype f <> PB_LTYPE_SUBMESSAGE -> is_default ms sub f p = Some true ->
  zeros m (Z.to_nat (data_size f)) q = Some true -> is_default m sub' f q = Some true.
Proof.
  intros Ha Hx Hl Hd Hz. rewrite is_default_scalar in * by done.
  assert (Hu : forall k, 0 <= k <= data_size f -> rd_u m k q = Some 0).
  { intros k Hk. apply zeros_rd_u; [lia|]. eapply zeros_prefix; [|exact Hz]. lia. }
  exact_cases f Hx Hlt Hn.
  - by destruct Hlt as [-> | [-> | ->]].
  - by rewrite Hlt.
  - by rewrite Hlt.
  - rewrite Hlt. cbn. by rewrite Hu by lia.
  - rewrite Hlt. cbn. by rewrite Hu by lia.
  - done.
  - rewrite Hlt in *. exact Hd.
Qed.

(** * Strings that end *)

(** The number of items of a slot that are on the wire. *)
Definition live (m : mem) (s : slot) : Z :=
  let f := s_field s in
  if htype f =? PB_HTYPE_REPEATED then default 0 (rd_u m 4 (s_size s))
  else if htype f =? PB_HTYPE_ONEOF then if bool_decide (rd_u m 4 (s_size s) = Some (tag f)) then 1 else 0
  else if has_flag f then if bool_decide (rd_u m 1 (s_size s) = Some 0) then 0 else 1
  else 1.

(** Every string that is on the wire ends within its array: the encoder also takes one
    that fills the array, which the decoder refuses. *)
Fixpoint strings_end (m : mem) (depth : nat) (fields : list pb_field_t) (p : Z) : bool :=
  match depth with
  | O => false
  | S d =>
      forallb (fun s =>
        forallb (fun q =>
            if ltype (s_field s) =? PB_LTYPE_SUBMESSAGE then
              match ptr (s_field s) with PTR_SUBMSG fs => strings_end m d fs q | _ => false end
            else string_ends m (s_field s) q)
          (addresses (live m s) (s_data s) (data_size (s_field s)))) (layout fields p)
  end.

(** What [strings_end] says of one item. *)
Definition item_ends (m : mem) (d : nat) (f : pb_field_t) (p : Z) : Prop :=
  (ltype f <> PB_LTYPE_SUBMESSAGE -> string_ends m f p = true) /\
  (ltype f = PB_LTYPE_SUBMESSAGE -> forall fs, ptr f = PTR_SUBMSG fs -> strings_end m d fs p = true).

Lemma addresses_intro count p size k : 0 <= k < count -> In (p + k * size) (addresses count p size).
Proof.
  intros Hk. unfold addresses. apply in_map_iff. exists (Z.to_nat k). rewrite Z2Nat.id by lia. split; [done|].
  apply in_seq. lia.
Qed.

Lemma strings_end_item m d fields p i s k : strings_end m (S d) fields p = true -> layout fields p !! i = Some s ->
  0 <= k < live m s -> item_ends m d (s_field s) (s_data s + k * data_size (s_field s)).
Proof.
  cbn [strings_end]. intros H Hi Hk. assert (Hin : In s (layout fields p)) by (apply list_elem_of_In; by eapply list_elem_of_lookup_2).
  pose proof (proj1 (forallb_forall _ _) H s Hin) as Hs. cbv beta in Hs.
  pose proof (proj1 (forallb_forall _ _) Hs _ (addresses_intro _ _ _ _ Hk)) as Hq. cbv beta in Hq.
  split; intros Hl; [by rewrite (proj2 (Z.eqb_neq _ _) Hl) in Hq|].
  rewrite Hl in Hq. intros fs Hp. by rewrite Hp in Hq.
Qed.

(** * Repeated fields *)

Lemma addresses_lookup c p size j q : addresses c p size !! j = Some q -> q = p + Z.of_nat j * size /\ Z.of_nat j < c.
Proof.
  unfold addresses. change (map ?g ?l) with (g <$> l). rewrite list_lookup_fmap.
  destruct (seq 0 (Z.to_nat c) !! j) as [x|] eqn:E; [|done]. apply lookup_seq in E as [-> Hj]. intros [= <-]. split; [done|lia].
Qed.

Lemma addresses_Forall2 {A} (Q : Z -> A -> Prop) p size vs :
  (forall j v, vs !! j = Some v -> Q (p + Z.of_nat j * size) v) -> Forall2 Q (addresses (zlen vs) p size) vs.
Proof.
  intros H. apply Forall2_same_length_lookup_2.
  - unfold addresses. by rewrite length_map, length_seq, Nat2Z.id.
  - intros j q v [-> _]%addresses_lookup Hv. by apply H.
Qed.

Lemma Forall2_addresses {A} (Q : Z -> A -> Prop) c p size vs : 0 <= c -> Forall2 Q (addresses c p size) vs ->
  zlen vs = c /\ forall j v, vs !! j = Some v -> Q (p + Z.of_nat j * size) v.
Proof.
  intros Hc H. pose proof (Forall2_length _ _ _ H) as Hl. split; [rewrite <- Hl; by apply length_addresses|].
  intros j v Hv. apply Forall2_lookup_r with (i := j) (y := v) in H as (q & Hq & HQ); [|done].
  by apply addresses_lookup in Hq as [-> _].
Qed.

Section Repeated.
Variables (m : mem) (sub : list pb_field_t -> Z -> R) (f : pb_field_t) (p : Z).
Hypothesis Ha : atype f = PB_ATYPE_STATIC.

Definition packed : bool := ltype f <=? PB_LTYPE_LAST_PACKABLE.

Lemma repeated_static c : repeated m sub f p c =
  if c =? 0 then emit []
  else if array_size f <? c then invalid
  else if packed then
    rseq (emit (wire_key (tag f) 2)) (rdelim (rconcat (map (value m sub f) (addresses c p (data_size f)))))
  else rconcat (map (fun q => rseq (key f) (value m sub f q)) (addresses c p (data_size f))).
Proof. unfold repeated. rewrite Ha. done. Qed.

(** The items of an array, and the bytes they make. *)
Definition items_are (vs : list bytes) : Prop :=
  forall j v, vs !! j = Some v -> value m sub f (p + Z.of_nat j * data_size f) = emit v.

Definition repeated_wire (vs : list bytes) (w : bytes) : Prop :=
  if packed then w = wire_key (tag f) 2 ++ delimited (concat vs) /\ zlen (concat vs) < 2 ^ 63
  else exists wk, key f = emit wk /\ w = concat (map (app wk) vs).

Lemma keyed_items wk qs ws : key f = emit wk -> Forall2 (fun q v => rseq (key f) (value m sub f q) = emit v) qs ws ->
  exists vs, ws = map (app wk) vs /\ Forall2 (fun q v => value m sub f q = emit v) qs vs.
Proof.
  intros Hk. induction 1 as [|q v qs ws Hq _ IH]; [by exists []|]. destruct IH as (vs & -> & Hvs).
  rewrite Hk in Hq. apply rseq_inv in Hq as (wa & wb & [= <-] & Hb & ->). exists (wb :: vs). split; [done|by constructor].
Qed.

Lemma repeated_inv c w : 0 <= c -> c <> 0 -> repeated m sub f p c = emit w ->
  c <= array_size f /\ exists vs, zlen vs = c /\ items_are vs /\ repeated_wire vs w.
Proof.
  intros Hc H0. rewrite repeated_static, (proj2 (Z.eqb_neq _ _) H0). unfold repeated_wire.
  destruct (Z.ltb_spec (array_size f) c); [done|]. intros H1. split; [done|]. destruct packed.
  - apply rseq_inv in H1 as (wa & wb & [= <-] & Hb & ->). apply rdelim_inv in Hb as (l & Hl & -> & Hlt).
    apply rconcat_inv in Hl as (vs & Hvs & ->). apply Forall2_addresses in Hvs as [Hn Hvs]; [|done]. by exists vs.
  - apply rconcat_inv in H1 as (ws & Hws & ->).
    assert (Hk : exists wk, key f = emit wk).
    { pose proof (Forall2_length _ _ _ Hws) as Hn. destruct ws as [|v ws].
      { pose proof (length_addresses c p (data_size f) Hc). cbn in Hn. lia. }
      apply Forall2_cons_inv_r in Hws as (q & ? & Hq & _). apply rseq_inv in Hq as (wk & ? & Hk & _). by exists wk. }
    destruct Hk as [wk Hk]. destruct (keyed_items wk _ _ Hk Hws) as (vs & -> & Hvs).
    apply Forall2_addresses in Hvs as [Hn Hvs]; [|done]. exists vs. split; [done|]. split; [done|]. by exists wk.
Qed.

Lemma repeated_intro vs w : 0 < zlen vs <= array_size f -> items_are vs -> repeated_wire vs w ->
  repeated m sub f p (zlen vs) = emit w.
Proof.
  intros Hn Hvs Hw. rewrite repeated_static, (proj2 (Z.eqb_neq _ _)), (proj2 (Z.ltb_ge _ _)) by lia.
  unfold repeated_wire in Hw. destruct packed.
  - destruct Hw as [-> Hl]. rewrite (rconcat_emit _ _ vs); [|by apply addresses_Forall2]. by rewrite rdelim_emit.
  - destruct Hw as (wk & Hk & ->). apply rconcat_emit. rewrite <- (length_map (app wk) vs). apply addresses_Forall2.
    intros j v. change (map (app wk) vs) with (app wk <$> vs). rewrite list_lookup_fmap. destruct (vs !! j) as [u|] eqn:Ej; [|done].
    intros [= <-]. by rewrite Hk, (Hvs j u Ej).
Qed.
End Repeated.

(** * The bytes of a message are bytes *)

Lemma bytes_ok_concat l : Forall bytes_ok l -> bytes_ok (concat l).
Proof. induction 1 as [|v l Hv _ IH]; [constructor|]. cbn [concat]. apply bytes_ok_app. by split. Qed.

Lemma value_bytes_ok m sub f p w : mem_bytes m -> exact_size f = true -> atype f = PB_ATYPE_STATIC -> p <> NULL ->
  (forall fs l, ltype f = PB_LTYPE_SUBMESSAGE -> ptr f = PTR_SUBMSG fs -> sub fs p = emit l -> bytes_ok l) ->
  value m sub f p = emit w -> bytes_ok w.
Proof.
  intros Hm Hx Ha Hp Hsub Hv. assert (Hrd : forall k a l, rd m k a = Some l -> bytes_ok l) by (intros k a l; by apply load_bytes_ok).
  exact_cases f Hx Hl Hn.
  - pose proof (int_size_spec _ Hn) as Hs. destruct Hl as [Hl|[Hl|Hl]].
    + rewrite value_varint in Hv by done. destruct (rd_s m (data_size f) p); [|done]. revert Hv. intros [= <-].
      apply varint_ok, Z.mod_pos_bound. lia.
    + rewrite value_uvarint in Hv by done. destruct (rd_u m (data_size f) p) as [v|] eqn:Ev; [|done]. revert Hv. intros [= <-].
      apply varint_ok. apply (rd_u_bound m (data_size f) p v Hm ltac:(lia) Ev).
    + rewrite value_svarint in Hv by done. destruct (rd_s m (data_size f) p); [|done]. revert Hv. intros [= <-].
      apply varint_ok. unfold zigzag. case_if; lia.
  - rewrite value_fixed32 in Hv by done. destruct (rd m 4 p) as [l|] eqn:El; [|done]. revert Hv. intros [= <-]. by eapply Hrd.
  - rewrite value_fixed64 in Hv by done. destruct (rd m 8 p) as [l|] eqn:El; [|done]. revert Hv. intros [= <-]. by eapply Hrd.
  - rewrite value_bytes in Hv by done. destruct (rd_u m 4 p) as [k|]; [|done]. cbn -[Z.ltb emit_delimited] in Hv. destruct (_ <? _); [done|].
    destruct (rd m k (p + 4)) as [l|] eqn:El; [|done]. apply emit_delimited_inv in Hv as [-> _]. by eapply bytes_ok_delimited, Hrd.
  - rewrite value_string in Hv by done. destruct (cstring m _ _ p) as [l|] eqn:El; [|done]. apply emit_delimited_inv in Hv as [-> _].
    apply bytes_ok_delimited. by eapply load_bytes_ok, cstring_spec.
  - destruct (ptr f) as [| |fs] eqn:Ep; [by unfold PbWire.value in Hv; rewrite Hl, Ep in Hv..|].
    rewrite (value_submessage _ _ _ _ fs) in Hv by done. apply rdelim_inv in Hv as (l & Hv & -> & _). by eapply bytes_ok_delimited, Hsub.
  - rewrite value_fixed_length in Hv by done. destruct (rd m (data_size f) p) as [l|] eqn:El; [|done].
    apply emit_delimited_inv in Hv as [-> _]. by eapply bytes_ok_delimited, Hrd.
Qed.

Lemma wire_key_ok fn wt : 0 <= fn -> 0 <= wt -> bytes_ok (wire_key fn wt).
Proof. intros H1 H2. apply varint_ok. lia. Qed.

Lemma key_ok f wk : 0 < tag f -> key f = emit wk -> bytes_ok wk.
Proof.
  unfold key. destruct (wire_type f) as [wt|] eqn:E; [|done]. intros Ht [= <-]. apply wire_type_range in E.
  apply wire_key_ok; lia.
Qed.

Lemma field_bytes_ok m d submsg lo n s w : mem_bytes m -> slot_ok submsg lo n s = true -> 0 < lo ->
  (forall fs q l, ltype (s_field s) = PB_LTYPE_SUBMESSAGE -> ptr (s_field s) = PTR_SUBMSG fs ->
     submsg fs q (data_size (s_field s)) = true -> message m d fs q = emit l -> bytes_ok l) ->
  field_bytes m (message m d) (s_field s) (s_data s) = emit w -> bytes_ok w.
Proof.
  intros Hm Hs Hlo Hsub. destruct (slot_static _ _ _ _ Hs) as [Ha Hx]. destruct (slot_bounds _ _ _ _ Hs) as (Htag & Hd & Ha32 & _).
  assert (Hitem : forall k v, 0 <= k < item_count (s_field s) ->
    value m (message m d) (s_field s) (s_data s + k * data_size (s_field s)) = emit v -> bytes_ok v).
  { intros k v Hk. destruct (item_place _ _ _ _ Hs k Hk) as (H1 & _). destruct (slot_data _ _ _ _ Hs) as (H2 & _).
    apply value_bytes_ok; [done|done|done|unfold NULL; lia|]. intros fs l Hl Hp. apply Hsub; [done|done|].
    destruct (slot_submsg _ _ _ _ Hs Hl) as (fs' & Hp' & Hq). rewrite Hp in Hp'. injection Hp' as <-. by apply Hq. }
  assert (Hone : forall has v, htype (s_field s) <> PB_HTYPE_REPEATED ->
    present m (message m d) (s_field s) (s_data s) has = emit v -> bytes_ok v).
  { intros [|] v Hh; [|intros [= <-]; constructor]. unfold present. intros (wk & u & Hk & Hv & ->)%rseq_inv. apply bytes_ok_app.
    split; [by eapply key_ok; [apply Htag|]|]. eapply (Hitem 0); [rewrite item_count_one by done; lia|]. by rewrite Z.mul_0_l, Z.add_0_r. }
  rewrite field_bytes_static; [|by eapply slot_kind|by eapply slot_size_at].
  destruct (htype_cases (s_field s)) as [E|[E|[E|E]]]; rewrite E; eval_htypes.
  - destruct (_ =? NULL); [done|]. apply Hone. by rewrite E.
  - destruct (has_flag _); [destruct (rd_u m 1 _); [|done]|destruct (is_default _ _ _ _); [|done]]; apply Hone; by rewrite E.
  - destruct (rd_u m 4 (s_size s)) as [c|] eqn:Ec; [|done]. cbn -[repeated]. intros Hw.
    pose proof (rd_u_bound m 4 _ _ Hm ltac:(lia) Ec) as Hc0. destruct (decide (c = 0)) as [->|Hc].
    { rewrite repeated_static in Hw by done. cbn in Hw. injection Hw as <-. constructor. }
    destruct (repeated_inv m (message m d) _ _ Ha c w ltac:(lia) Hc Hw) as (Hcap & vs & Hn & Hvs & Hwv).
    assert (Hall : Forall bytes_ok vs).
    { apply Forall_lookup. intros j v Hj. apply (Hitem (Z.of_nat j)); [|by apply Hvs]. apply lookup_lt_Some in Hj.
      rewrite item_count_array by done. lia. }
    unfold repeated_wire in Hwv. destruct (packed _).
    + destruct Hwv as [-> _]. apply bytes_ok_app. split; [apply wire_key_ok; lia|]. by apply bytes_ok_delimited, bytes_ok_concat.
    + destruct Hwv as (wk & Hk & ->). apply bytes_ok_concat, Forall_map. eapply Forall_impl; [exact Hall|]. intros v Hv.
      apply bytes_ok_app. split; [by eapply key_ok; [apply Htag|]|done].
  - destruct (rd_u m 4 (s_size s)) as [c|]; [|done]. apply Hone. by rewrite E.
Qed.

Lemma message_bytes m depth : forall fields p n w, mem_bytes m -> round_ok depth fields p n = true ->
  message m depth fields p = emit w -> bytes_ok w.
Proof.
  induction depth as [|d IH]; intros fields p n w Hm Hok; [done|].
  destruct (round_ok_inv _ _ _ _ Hok) as (d' & [= <-] & Hp & Ht & _ & Hslots & _). cbn [message]. rewrite Ht.
  intros (ws & Hws & ->)%rconcat_inv. apply bytes_ok_concat, Forall_lookup. intros i wi Hi.
  destruct (Forall2_lookup_r _ _ _ _ _ Hws Hi) as (s & Hs & Hw).
  eapply (field_bytes_ok m d); [done|by eapply Hslots|done| |exact Hw]. intros fs q l _ _ Hq. by apply (IH fs q (data_size (s_field s))).
Qed.

(** * The required fields seen *)

(** [fields_seen] after the first [r] required fields. *)
Definition seen_bits (r : Z) : list Z := [Z.ones (Z.min r 32); Z.ones (Z.max 0 (r - 32))].

(** mark_seen at the index [r], and check_seen for [r] fields. *)
Definition mark_bit (r : Z) (seen : list Z) : option (list Z) :=
  match seen !! Z.to_nat (Z.shiftr r 5) with
  | None => None
  | Some w => Some (<[Z.to_nat (Z.shiftr r 5) := Z.lor w (u32 (Z.shiftl 1 (Z.land r 31)))]> seen)
  end.

Definition mark_ok (r : Z) : bool := (63 <=? r) || bool_decide (mark_bit r (seen_bits r) = Some (seen_bits (r + 1))).
Definition check_ok (r : Z) : bool :=
  negb (countable_required r) || (r =? 0) || bool_decide (check_seen r (seen_bits r) = Some true).

Lemma mark_seen_bits it f r : htype f = PB_HTYPE_REQUIRED -> required_field_index it = r -> 0 <= r < 63 ->
  mark_seen it f (seen_bits r) = Some (seen_bits (r + 1)).
Proof.
  intros Hh Hr H0. unfold mark_seen. rewrite Hh, Hr. eval_htypes. unfold PB_MAX_REQUIRED_FIELDS.
  rewrite (proj2 (Z.ltb_lt r 64)) by lia. cbn [andb]. change (mark_bit r (seen_bits r) = Some (seen_bits (r + 1))).
  assert (Hb : is_byte r) by (unfold is_u; lia). apply (byte_forall mark_ok) in Hb; [|vm_compute; reflexivity].
  unfold mark_ok in Hb. rewrite (proj2 (Z.leb_gt 63 r)) in Hb by lia. cbn [orb] in Hb. by apply bool_decide_eq_true_1 in Hb.
Qed.

Lemma countable_bound r : countable_required r = true -> r < 64.
Proof. unfold countable_required. intros [Hc|Hc]%orb_true_iff; bool_simpl; lia. Qed.

Lemma check_seen_bits r : countable_required r = true -> 0 < r -> check_seen r (seen_bits r) = Some true.
Proof.
  intros Hc H0. pose proof (countable_bound r Hc). assert (Hb : is_byte r) by (unfold is_u; lia).
  apply (byte_forall check_ok) in Hb; [|vm_compute; reflexivity].
  unfold check_ok in Hb. rewrite Hc, (proj2 (Z.eqb_neq r 0)) in Hb by lia. cbn [negb orb] in Hb. by apply bool_decide_eq_true_1 in Hb.
Qed.

(** * One item *)

Section Decoders.
Context `{PbUser} (inp ms : mem) (buffer_at : Z) (callback_fuel : nat).
Hypothesis Hms : mem_bytes ms.

Section Depth.
Variable d : nat.

(** The decoder one level below. *)
#[local] Abbreviation dsubn := (pb_decode_noinit buffer_at callback_fuel d).
#[local] Abbreviation dsub := (fun s fields dest => pb_message_set_to_defaults d fields dest ;;; dsubn s fields dest).

(** The decoder reads back the submessages of the level below. *)
Hypothesis Hsub : forall fs p dest n w m s,
  round_ok d fs p n = true -> round_ok d fs dest n = true -> message ms d fs p = emit w ->
  strings_end ms d fs p = true -> zlen w < 2 ^ 32 -> writable inp dest n m -> fresh d m fs dest -> content inp s w ->
  exists m', dsubn s fs dest m = Some ((true, skip s (zlen w)), m') /\ upd (within dest n) m m' /\
    message m' d fs dest = emit w.

Lemma submessage_decodes f fs p q w m : ltype f = PB_LTYPE_SUBMESSAGE -> ptr f = PTR_SUBMSG fs ->
  round_ok d fs p (data_size f) = true -> round_ok d fs q (data_size f) = true ->
  value ms (message ms d) f p = emit w -> strings_end ms d fs p = true -> zlen w < 2 ^ 32 ->
  writable inp q (data_size f) m -> (htype f <> PB_HTYPE_REPEATED -> fresh d m fs q) ->
  decodes_to inp w q (data_size f) (fun m' => value m' (message m' d) f q = emit w)
    (fun s => pb_dec_submessage dsub dsubn s f q) m.
Proof.
  intros Hl Hp Hr1 Hr2 Hv He Hlen Hw Hf s rest Hc. rewrite (value_submessage _ _ _ _ fs) in Hv by done.
  apply rdelim_inv in Hv as (l & Hv & -> & Hl63). assert (Hll : zlen l < 2 ^ 32).
  { unfold delimited in Hlen. rewrite length_app in Hlen. lia. }
  destruct (make_substream inp s _ l rest m Hc (proj1 Hw) Hll eq_refl) as [Es Hsc].
  unfold pb_dec_submessage. unfold sbind at 1. rewrite Es, Hp. clear Es.
  set (sub := set_bytes_left (skip s (zlen (varint (zlen l)))) (zlen l)) in *.
  assert (Hd : exists m', (if htype f =? PB_HTYPE_REPEATED then dsub sub fs q else dsubn sub fs q) m =
      Some ((true, skip sub (zlen l)), m') /\ upd (within q (data_size f)) m m' /\ message m' d fs q = emit l).
  { destruct (Z.eqb_spec (htype f) PB_HTYPE_REPEATED) as [E|E]; [|by apply (Hsub fs p); auto].
    destruct (set_defaults_fresh d d fs q (data_size f) m (le_n _) Hr2 (proj1 (proj2 Hw))) as (m1 & E1 & Hu1 & Hf1).
    destruct (Hsub fs p q (data_size f) l m1 sub) as (m2 & E2 & Hu2 & Hm2); try done; [by eapply writable_upd|].
    exists m2. unfold sbind, pb_message_set_to_defaults. rewrite E1, E2. split; [done|]. split; [by eapply upd_trans|done]. }
  destruct Hd as (m' & Ed & Hu & Hm'). exists m'. unfold sbind in Ed |- *. rewrite Ed. unfold sub at 1.
  rewrite skip_substream. rewrite (close_substream s l rest); [|done..|apply Hc]. cbn [negb]. split; [done|]. split; [done|].
  rewrite (value_submessage _ _ _ _ fs) by done. rewrite Hm'. by apply rdelim_emit.
Qed.

(** Any item. *)
Lemma item_decodes f p q w m : atype f = PB_ATYPE_STATIC -> exact_size f = true -> is_u 32 (data_size f) ->
  p <> NULL -> q <> NULL ->
  (ltype f = PB_LTYPE_SUBMESSAGE -> exists fs, ptr f = PTR_SUBMSG fs /\ round_ok d fs p (data_size f) = true /\
     round_ok d fs q (data_size f) = true /\ (htype f <> PB_HTYPE_REPEATED -> fresh d m fs q)) ->
  value ms (message ms d) f p = emit w -> item_ends ms d f p -> zlen w < 2 ^ 32 -> writable inp q (data_size f) m ->
  decodes_to inp w q (data_size f) (fun m' => value m' (message m' d) f q = emit w)
    (fun s => call_decoder (PB_DECODERS dsub dsubn (ltype f)) s f q) m.
Proof.
  intros Ha Hx Hn Hp Hq Hs Hv [He1 He2] Hlen Hw. destruct (decide (ltype f = PB_LTYPE_SUBMESSAGE)) as [El|El].
  - destruct (Hs El) as (fs & Hpt & Hr1 & Hr2 & Hf). rewrite El. cbn [PB_DECODERS PB_LTYPE_SUBMESSAGE].
    apply (submessage_decodes f fs p q w m); auto.
  - eapply decodes_to_mono; [|apply (scalar_decodes inp ms f p q m (message ms d) (message ms d)); auto].
    intros m' _ Hr. cbv beta in Hr |- *. rewrite <- Hr. by apply value_agree.
Qed.

(** * One field *)

Section Field.
Variables (lo n plo pn : Z) (t : slot) (k : Z).
#[local] Abbreviation f := (s_field t).
#[local] Abbreviation src := (moved k t).
Hypothesis Ht : slot_ok (round_ok d) lo n t = true.
Hypothesis Hs : slot_ok (round_ok d) plo pn src = true.
Hypothesis Hlo : 0 < lo.
Hypothesis Hplo : 0 < plo.

(** The addresses of an item, in the source and in the destination. *)
Definition item (j : Z) : Z := s_data t + j * data_size f.

Lemma item_src j : s_data src + j * data_size f = item j + k.
Proof. unfold item, moved. cbn. lia. Qed.

Lemma item_within j : 0 <= j < item_count f -> forall x, within (item j) (data_size f) x -> within (s_data t) (data_len f) x.
Proof. intros Hj x. destruct (item_place _ _ _ _ Ht j Hj) as (H1 & H2 & _). unfold item, within. lia. Qed.

Lemma items_apart i j : 0 <= i -> 0 <= j -> i <> j -> forall x, within (item i) (data_size f) x -> ~ within (item j) (data_size f) x.
Proof.
  intros Hi Hj Hne x. destruct (slot_bounds _ _ _ _ Ht) as (_ & Hd & _). unfold item, within.
  destruct (Z.lt_gt_cases i j) as [[Hlt|Hgt] _]; [done| |].
  - pose proof (Z.mul_le_mono_nonneg_r (i + 1) j (data_size f)). lia.
  - pose proof (Z.mul_le_mono_nonneg_r (j + 1) i (data_size f)). lia.
Qed.

(** The value of an item is kept by changes elsewhere. *)
Lemma item_kept A m m' j v : 0 <= j < item_count f -> upd A m m' ->
  (forall x, within (item j) (data_size f) x -> ~ A x) ->
  value m (message m d) f (item j) = emit v -> value m' (message m' d) f (item j) = emit v.
Proof.
  intros Hj Hu Hd <-. destruct (slot_static _ _ _ _ Ht) as [Ha Hx].
  pose proof (upd_agree_on A (within (item j) (data_size f)) m m' Hu Hd) as Hag. symmetry.
  apply value_agree; [done|done|by eapply agree_within|apply Hag|]. intros fs Hl Hp.
  destruct (slot_submsg _ _ _ _ Ht Hl) as (fs' & Hp' & Hq). rewrite Hp in Hp'. injection Hp' as <-.
  eapply message_agree; [by apply (Hq j)|exact Hag].
Qed.

(** The decoder of the field's type on an item. *)
Lemma slot_item_decodes j w m : 0 <= j < item_count f ->
  value ms (message ms d) f (item j + k) = emit w -> item_ends ms d f (item j + k) -> zlen w < 2 ^ 32 ->
  writable inp (item j) (data_size f) m ->
  (ltype f = PB_LTYPE_SUBMESSAGE -> htype f <> PB_HTYPE_REPEATED -> forall fs, ptr f = PTR_SUBMSG fs -> fresh d m fs (item j)) ->
  decodes_to inp w (item j) (data_size f) (fun m' => value m' (message m' d) f (item j) = emit w)
    (fun s => call_decoder (PB_DECODERS dsub dsubn (ltype f)) s f (item j)) m.
Proof.
  intros Hj Hv He Hl Hw Hf. destruct (slot_static _ _ _ _ Ht) as [Ha Hx]. destruct (slot_bounds _ _ _ _ Ht) as (_ & Hd & _).
  destruct (slot_data _ _ _ _ Ht) as (H1 & _). destruct (slot_data _ _ _ _ Hs) as (H2 & _).
  destruct (item_place _ _ _ _ Ht j Hj) as (H3 & _). destruct (item_place _ _ _ _ Hs j Hj) as (H4 & _).
  pose proof (item_src j) as Hi. cbn [moved s_field] in H4, Hi. rewrite Hi in H4. fold (item j) in H3.
  apply (item_decodes f (item j + k) (item j) w m); try done; unfold NULL in *; try lia; try (unfold is_u; lia).
  intros Hlt. destruct (slot_submsg _ _ _ _ Ht Hlt) as (fs & Hp & Hq). destruct (slot_submsg _ _ _ _ Hs Hlt) as (fs' & Hp' & Hq').
  cbn [moved s_field] in Hp', Hq'. rewrite Hp in Hp'. injection Hp' as <-. exists fs. split; [done|].
  specialize (Hq' j Hj). cbn [moved s_data] in Hq'. replace (s_data t + k + j * data_size f) with (item j + k) in Hq' by (unfold item; lia).
  split; [done|]. split; [by apply (Hq j)|]. auto.
Qed.

Lemma item_0 : item 0 = s_data t.
Proof. unfold item. lia. Qed.

Lemma present_inv m sub p has w : present m sub f p has = emit w ->
  (has = false /\ w = []) \/ (has = true /\ exists wk v, key f = emit wk /\ value m sub f p = emit v /\ w = wk ++ v).
Proof.
  unfold present. destruct has; [|by intros [= <-]; left]. intros (wk & v & H1 & H2 & ->)%rseq_inv. right.
  split; [done|]. by exists wk, v.
Qed.

Lemma present_intro m sub p wk v : key f = emit wk -> value m sub f p = emit v -> present m sub f p true = emit (wk ++ v).
Proof. unfold present. by intros -> ->. Qed.

Lemma wire_key_cons fn wt : exists b l, wire_key fn wt = b :: l.
Proof. unfold wire_key, varint. cbn [base128]. case_if; by eexists _, _. Qed.

Lemma key_nonempty wk : key f = emit wk -> wk <> [].
Proof.
  unfold key. destruct (wire_type f) as [wt|]; [|done]. intros [= <-].
  destruct (wire_key_cons (tag f) wt) as (b & l & E). by rewrite E.
Qed.

Lemma present_absent m sub p has : present m sub f p has = emit [] -> has = false.
Proof.
  intros [[Hh _]|(_ & wk & v & Hk & _ & Hw)]%present_inv; [done|]. apply key_nonempty in Hk. by destruct wk.
Qed.

Lemma repeated_absent m sub p c : repeated m sub f p c = emit [] -> c <= 0.
Proof.
  unfold repeated. destruct (Z.eqb_spec c 0); [lia|]. destruct (_ && _); [done|]. destruct (Z.lt_ge_cases 0 c) as [H0|H0]; [|lia].
  case_if.
  - intros (wa & wb & [= <-] & _ & Hw)%rseq_inv. destruct (wire_key_cons (tag f) 2) as (b & l & E1). by rewrite E1 in Hw.
  - replace c with (Z.of_nat (S (Z.to_nat (c - 1)))) by lia. rewrite addresses_S. cbn [map rconcat fold_right].
    intros (wa & wb & Ha & _ & Hw)%rseq_inv. apply rseq_inv in Ha as (wk & v & Hk & _ & ->). apply key_nonempty in Hk.
    by destruct wk.
Qed.

(** A field that is not on the wire is absent in a fresh structure too. *)
Lemma absent_field m : field_bytes ms (message ms d) f (s_data src) = emit [] ->
  fresh_slot (fresh d m) m t -> field_bytes m (message m d) f (s_data t) = emit [].
Proof.
  intros Hv Hf. pose proof (slot_kind _ _ _ _ Ht) as Hk. destruct (slot_static _ _ _ _ Ht) as [Ha Hx].
  pose proof (field_bytes_static ms (message ms d) src (slot_kind _ _ _ _ Hs) (slot_size_at _ _ _ _ Hs)) as Es.
  change (s_field src) with f in Es. cbv zeta in Es. rewrite Hv in Es. symmetry in Es. clear Hv. rename Es into Hv.
  rewrite (field_bytes_static m (message m d) t) by (done || by eapply slot_size_at). cbv zeta. unfold fresh_slot in Hf.
  destruct (Z.eqb_spec (htype f) PB_HTYPE_REQUIRED) as [E|E].
  { destruct (s_data src =? NULL); [done|]. by apply present_absent in Hv. }
  destruct (Z.eqb_spec (htype f) PB_HTYPE_OPTIONAL) as [E2|E2].
  - rewrite E2 in Hf. change (PB_HTYPE_OPTIONAL =? PB_HTYPE_REPEATED) with false in Hf.
    change (PB_HTYPE_OPTIONAL =? PB_HTYPE_ONEOF) with false in Hf. destruct Hf as (H1 & H2 & _).
    destruct (has_flag f) eqn:Ef; [by rewrite H1|]. destruct (kind_plain f Hk E2 Ef) as [Hns _].
    destruct (is_default ms (message ms d) f (s_data src)) as [[|]|] eqn:Ed; [|by apply present_absent in Hv|done].
    rewrite (default_zeros ms m (message ms d) (message m d) f (s_data src) (s_data t)); auto.
  - destruct (Z.eqb_spec (htype f) PB_HTYPE_REPEATED) as [E3|E3]; [by rewrite Hf|].
    assert (E4 : htype f = PB_HTYPE_ONEOF) by (destruct (htype_cases f) as [?|[?|[?|?]]]; done). rewrite E4 in Hf. cbn -[rd_u] in Hf.
    destruct Hf as (v & Hv' & Hne). rewrite Hv'. cbn. by rewrite (proj2 (Z.eqb_neq _ _) Hne).
Qed.

(** A field that is not on the wire is not a required one. *)
Lemma absent_not_required : field_bytes ms (message ms d) f (s_data src) = emit [] -> htype f <> PB_HTYPE_REQUIRED.
Proof.
  intros H0 E. pose proof (field_bytes_static ms (message ms d) src (slot_kind _ _ _ _ Hs) (slot_size_at _ _ _ _ Hs)) as Hb.
  change (s_field src) with f in Hb. cbv zeta in Hb. rewrite H0, E in Hb. eval_htypes in Hb.
  destruct (s_data src =? NULL); [done|]. symmetry in Hb. by apply present_absent in Hb.
Qed.

(** ** Decoding a field with one value *)

Variables (i : nat) (fields : list pb_field_t) (dest : Z).
Hypothesis Hi : layout fields dest !! i = Some t.
#[local] Abbreviation it := (it_at fields dest i t).
#[local] Abbreviation decode wt := (fun s => decode_static_field (S d) dsub dsubn s wt it).

(** The bytes of the field in the source. *)
Variable w : bytes.
Hypothesis Hv : field_bytes ms (message ms d) f (s_data src) = emit w.
Hypothesis Hends : forall j, 0 <= j < live ms src -> item_ends ms d f (item j + k).
Hypothesis Hlen : zlen w < 2 ^ 32.

Lemma source_bytes :
  emit w = if htype f =? PB_HTYPE_REQUIRED then if s_data src =? NULL then invalid else present ms (message ms d) f (s_data src) true
    else if htype f =? PB_HTYPE_OPTIONAL then
      if has_flag f then rd_u ms 1 (s_size src) ≫= fun b => present ms (message ms d) f (s_data src) (negb (b =? 0))
      else is_default ms (message ms d) f (s_data src) ≫= fun z => present ms (message ms d) f (s_data src) (negb z)
    else if htype f =? PB_HTYPE_REPEATED then rd_u ms 4 (s_size src) ≫= fun c => repeated ms (message ms d) f (s_data src) c
    else rd_u ms 4 (s_size src) ≫= fun c => present ms (message ms d) f (s_data src) (c =? tag f).
Proof. rewrite <- Hv. exact (field_bytes_static ms (message ms d) src (slot_kind _ _ _ _ Hs) (slot_size_at _ _ _ _ Hs)). Qed.

Lemma dest_bytes m : field_bytes m (message m d) f (s_data t) =
  if htype f =? PB_HTYPE_REQUIRED then if s_data t =? NULL then invalid else present m (message m d) f (s_data t) true
    else if htype f =? PB_HTYPE_OPTIONAL then
      if has_flag f then rd_u m 1 (s_size t) ≫= fun b => present m (message m d) f (s_data t) (negb (b =? 0))
      else is_default m (message m d) f (s_data t) ≫= fun z => present m (message m d) f (s_data t) (negb z)
    else if htype f =? PB_HTYPE_REPEATED then rd_u m 4 (s_size t) ≫= fun c => repeated m (message m d) f (s_data t) c
    else rd_u m 4 (s_size t) ≫= fun c => present m (message m d) f (s_data t) (c =? tag f).
Proof. exact (field_bytes_static m (message m d) t (slot_kind _ _ _ _ Ht) (slot_size_at _ _ _ _ Ht)). Qed.

(** The decoder consumes [v], changes the place of the field only, and leaves the bytes
    [w]; a field of a union has been selected. *)
Definition decodes_field (wt : Z) (v : bytes) (m : mem) : Prop :=
  forall s rest, content inp s (v ++ rest) ->
  exists m', decode wt s m = Some ((true, skip s (zlen v)), m') /\ upd (place t) m m' /\
    field_bytes m' (message m' d) f (s_data t) = emit w /\
    (htype f = PB_HTYPE_ONEOF -> rd_u m' 4 (s_size t) = Some (tag f)).

(** The value of the field alone, at any moment. *)
Lemma first_decodes v m : htype f <> PB_HTYPE_REPEATED -> live ms src = 1 ->
  value ms (message ms d) f (s_data src) = emit v -> zlen v < 2 ^ 32 -> writable inp lo n m ->
  (ltype f = PB_LTYPE_SUBMESSAGE -> forall fs, ptr f = PTR_SUBMSG fs -> fresh d m fs (s_data t)) ->
  decodes_to inp v (s_data t) (data_size f) (fun m' => value m' (message m' d) f (s_data t) = emit v)
    (fun s => call_decoder (PB_DECODERS dsub dsubn (ltype f)) s f (s_data t)) m.
Proof.
  intros Hh Hlv Hval Hl Hw Hf. rewrite <- item_0 in Hf |- *. change (s_data src) with (s_data t + k) in Hval. rewrite <- item_0 in Hval.
  destruct (slot_data _ _ _ _ Ht) as (H1 & H2 & H3). unfold data_len in H2, H3. rewrite (item_count_one t Hh) in H2, H3.
  apply slot_item_decodes; [rewrite item_count_one by done; lia|done|apply Hends; lia|done| |auto].
  rewrite item_0. eapply writable_sub; [exact Hw|lia|lia].
Qed.

Lemma required_decodes m : htype f = PB_HTYPE_REQUIRED -> writable inp lo n m -> fresh_slot (fresh d m) m t ->
  exists wk v, key f = emit wk /\ w = wk ++ v /\ forall wt, decodes_field wt v m.
Proof.
  intros E Hw Hf. pose proof source_bytes as Hb. rewrite E in Hb. eval_htypes in Hb.
  destruct (s_data src =? NULL); [done|]. symmetry in Hb.
  destruct (present_inv _ _ _ _ _ Hb) as [[? _]|(_ & wk & v & Hk & Hval & Hwv)]; [done|]. exists wk, v.
  split; [done|]. split; [done|]. intros wt s rest Hc. pose proof Hlen as Hl. rewrite Hwv, length_app in Hl.
  unfold fresh_slot in Hf. rewrite E in Hf. destruct Hf as (_ & _ & Hf).
  destruct (first_decodes v m) with (s := s) (rest := rest) as (m' & Ed & Hu & Hm'); try done.
  - by rewrite E.
  - unfold live. change (s_field src) with f. unfold has_flag. by rewrite E.
  - lia.
  - exists m'. unfold decode_static_field. unfold sbind at 1, slift at 1. rewrite (cur_it_at _ _ _ _ Hi), E. eval_htypes.
    split; [exact Ed|]. split; [eapply upd_sub; [|exact Hu]; intros x; apply data_place; by rewrite E|]. split; [|done].
    rewrite dest_bytes, E. eval_htypes. destruct (slot_data _ _ _ _ Ht) as (H1 & _). unfold NULL.
    rewrite (proj2 (Z.eqb_neq _ _)) by lia. rewrite Hwv. by apply present_intro.
Qed.

Lemma flag_test : htype f = PB_HTYPE_OPTIONAL -> negb (s_size t =? s_data t) = has_flag f.
Proof. intros E. rewrite <- (has_flag_test _ _ _ _ Ht), E. done. Qed.

Lemma fresh_first A m m1 fs : htype f <> PB_HTYPE_REPEATED -> ltype f = PB_LTYPE_SUBMESSAGE -> ptr f = PTR_SUBMSG fs ->
  upd A m m1 -> (forall x, within (s_data t) (data_size f) x -> ~ A x) -> fresh d m fs (s_data t) -> fresh d m1 fs (s_data t).
Proof.
  intros Hh Hl Hp Hu Hd. destruct (slot_submsg_one _ _ _ _ Ht Hl Hh) as (fs' & Hp' & Hq). rewrite Hp in Hp'. injection Hp' as <-.
  eapply fresh_agree; [exact Hq|]. by eapply upd_agree_on.
Qed.

Lemma data_first : htype f <> PB_HTYPE_REPEATED -> data_len f = data_size f.
Proof. intros Hh. unfold data_len. by rewrite (item_count_one t Hh), Z.mul_1_r. Qed.

Lemma flag_decodes m : htype f = PB_HTYPE_OPTIONAL -> has_flag f = true -> w <> [] -> writable inp lo n m ->
  fresh_slot (fresh d m) m t -> exists wk v, key f = emit wk /\ w = wk ++ v /\ forall wt, decodes_field wt v m.
Proof.
  intros E Ef Hne Hw Hf. pose proof source_bytes as Hb. rewrite E, Ef in Hb. eval_htypes in Hb.
  destruct (rd_u ms 1 (s_size src)) as [b|] eqn:Eb; [|done]. symmetry in Hb.
  destruct (present_inv _ _ _ _ _ Hb) as [[_ ?]|(Hbn & wk & v & Hk & Hval & Hwv)]; [done|]. exists wk, v.
  split; [done|]. split; [done|]. intros wt s rest Hc. pose proof Hlen as Hl. rewrite Hwv, length_app in Hl.
  unfold fresh_slot in Hf. rewrite E in Hf. destruct Hf as (_ & _ & Hf). assert (Hh : htype f <> PB_HTYPE_REPEATED) by by rewrite E.
  destruct (store_flag _ _ _ _ m Ht (proj1 (proj2 Hw)) 1 Ef ltac:(lia)) as (m1 & E1 & Hu1 & Er1).
  destruct (flag_place _ _ _ _ Ht Ef) as (Hsl & H1 & H2 & Hap). rewrite data_first in Hap by done.
  assert (Hw1 : writable inp lo n m1) by (eapply writable_upd; [exact Hw|]; eapply upd_sub; [|exact Hu1]; intros x; unfold within; lia).
  destruct (first_decodes v m1) with (s := s) (rest := rest) as (m' & Ed & Hu & Hm'); try done; [|lia| |].
  - unfold live. change (s_field src) with f. rewrite E, Ef. eval_htypes. rewrite Eb, bool_decide_false; [done|].
    intros [= ->]. done.
  - intros Hlt fs Hp. eapply fresh_first; [done|done|done|exact Hu1| |by apply Hf]. intros x. by apply apart_spec.
  - exists m'. unfold decode_static_field. unfold sbind at 1, slift at 1. rewrite (cur_it_at _ _ _ _ Hi), E. eval_htypes.
    cbn [it_at pData pSize]. rewrite (flag_test E), Ef. unfold sbind at 1. rewrite E1. split; [exact Ed|]. split; [|split; [|done]].
    + eapply upd_trans; eapply upd_sub; [|exact Hu1| |exact Hu]; intros x; [right; by rewrite Hsl|by apply data_place].
    + rewrite dest_bytes, E, Ef. eval_htypes. rewrite (flag_kept _ _ _ _ Ht m1 m' 1 Ef Hu Er1). cbn -[present].
      rewrite Hwv. by apply present_intro.
Qed.

Lemma plain_decodes m : htype f = PB_HTYPE_OPTIONAL -> has_flag f = false -> w <> [] -> writable inp lo n m ->
  exists wk v, key f = emit wk /\ w = wk ++ v /\ forall wt, decodes_field wt v m.
Proof.
  intros E Ef Hne Hw. pose proof source_bytes as Hb. rewrite E, Ef in Hb. eval_htypes in Hb.
  destruct (is_default ms (message ms d) f (s_data src)) as [z|] eqn:Ez; [|done]. symmetry in Hb.
  destruct (present_inv _ _ _ _ _ Hb) as [[_ ?]|(Hz & wk & v & Hk & Hval & Hwv)]; [done|]. exists wk, v. destruct z; [done|].
  split; [done|]. split; [done|]. intros wt s rest Hc. pose proof Hlen as Hl. rewrite Hwv, length_app in Hl.
  assert (Hh : htype f <> PB_HTYPE_REPEATED) by by rewrite E. destruct (kind_plain f (slot_kind _ _ _ _ Ht) E Ef) as [Hns _].
  destruct (slot_static _ _ _ _ Ht) as [Ha Hx]. destruct (slot_data _ _ _ _ Ht) as (H1 & H2 & H3). rewrite data_first in H2, H3 by done.
  destruct (slot_data _ _ _ _ Hs) as (H4 & _).
  destruct (first_decodes v m) with (s := s) (rest := rest) as (m' & Ed & Hu & Hm'); try done; [|lia|].
  - unfold live. change (s_field src) with f. by rewrite E, Ef.
  - exists m'. unfold decode_static_field. unfold sbind at 1, slift at 1. rewrite (cur_it_at _ _ _ _ Hi), E. eval_htypes.
    cbn [it_at pData pSize]. rewrite (flag_test E), Ef. split; [exact Ed|].
    split; [eapply upd_sub; [|exact Hu]; intros x; by apply data_place|]. split; [|done].
    rewrite dest_bytes, E, Ef. eval_htypes.
    rewrite (not_default_kept ms m' (message ms d) (message m' d) f (s_data src) (s_data t) v); try done; unfold NULL; try lia.
    + cbn -[present]. rewrite Hwv. by apply present_intro.
    + eapply mapped_sub; [eapply upd_mapped; [exact Hu|apply Hw]|lia|lia].
Qed.

(** The submessage of a union is set to its defaults. *)
Lemma union_defaults m : htype f <> PB_HTYPE_REPEATED -> mapped m (s_data t) (data_size f) ->
  exists m', (if ltype f =? PB_LTYPE_SUBMESSAGE then
      memset_zero (s_data t) (data_size f) ;;;
      match ptr f with PTR_SUBMSG fs => pb_message_set_to_defaults (S d) fs (s_data t) | _ => sstuck end
    else sret tt) m = Some (tt, m') /\ upd (within (s_data t) (data_size f)) m m' /\
    (ltype f = PB_LTYPE_SUBMESSAGE -> forall fs, ptr f = PTR_SUBMSG fs -> fresh d m' fs (s_data t)).
Proof.
  intros Hh Hm. destruct (Z.eqb_spec (ltype f) PB_LTYPE_SUBMESSAGE) as [El|El].
  2:{ exists m. split; [done|]. split; [apply upd_refl|done]. }
  destruct (slot_submsg_one _ _ _ _ Ht El Hh) as (fs & Hp & Hq). rewrite Hp. destruct (slot_bounds _ _ _ _ Ht) as (_ & Hd & _).
  destruct (memset_zero_upd (s_data t) (data_size f) m ltac:(lia) Hm) as (m1 & E1 & Hu1 & _).
  destruct (set_defaults_fresh d (S d) fs (s_data t) (data_size f) m1) as (m2 & E2 & Hu2 & Hf2);
    [lia|done|by eapply upd_mapped|]. exists m2. unfold sbind, pb_message_set_to_defaults. rewrite E1, E2.
  split; [done|]. split; [by eapply upd_trans|]. by intros _ fs' [= <-].
Qed.

Lemma size_place : is_repeated_or_oneof f = true -> size_len f = 4 /\ lo <= s_size t /\ s_size t + 4 <= lo + n /\
  (forall x, within (s_data t) (data_len f) x -> ~ within (s_size t) 4 x).
Proof.
  intros E. assert (Hz : size_len f = 4) by (unfold size_len; by rewrite E). split; [done|].
  destruct (slot_size _ _ _ _ Ht ltac:(lia)) as [Hin Hap]. rewrite Hz in Hin, Hap. split; [lia|]. split; [lia|].
  intros x. by apply apart_spec.
Qed.

(** A count or a selector is kept by changes to the data. *)
Lemma size_kept A m m' v : is_repeated_or_oneof f = true -> upd A m m' ->
  (forall x, A x -> within (s_data t) (data_len f) x) -> rd_u m 4 (s_size t) = Some v -> rd_u m' 4 (s_size t) = Some v.
Proof.
  intros E Hu Hd <-. destruct (size_place E) as (_ & _ & _ & Hap). symmetry.
  apply (rd_u_agree m m' (s_size t) 4); [|lia..]. eapply upd_agree; [exact Hu|]. intros x Hx Ha.
  by apply (Hap x); [apply Hd|].
Qed.

Lemma store_size m v : is_repeated_or_oneof f = true -> is_u 32 v -> writable inp lo n m ->
  exists m', store_u sizeof_pb_size_t (s_size t) v m = Some (tt, m') /\ upd (within (s_size t) 4) m m' /\
    rd_u m' 4 (s_size t) = Some v /\ writable inp lo n m'.
Proof.
  intros E Hu32 Hw. destruct (size_place E) as (_ & H1 & H2 & _). unfold is_u in Hu32.
  destruct (store_u_upd 4 (s_size t) v m) as (m' & Es & Er & Hu); [lia|eapply mapped_sub; [apply Hw|lia|lia]|].
  exists m'. split; [exact Es|]. split; [done|]. rewrite Z.mod_small in Er by lia. split; [done|].
  eapply writable_upd; [exact Hw|]. eapply upd_sub; [|exact Hu]. unfold within. lia.
Qed.

Lemma union_decodes m : htype f = PB_HTYPE_ONEOF -> w <> [] -> writable inp lo n m ->
  exists wk v, key f = emit wk /\ w = wk ++ v /\ forall wt, decodes_field wt v m.
Proof.
  intros E Hne Hw. pose proof source_bytes as Hb. rewrite E in Hb. eval_htypes in Hb.
  destruct (rd_u ms 4 (s_size src)) as [c|] eqn:Ec; [|done]. symmetry in Hb.
  destruct (present_inv _ _ _ _ _ Hb) as [[_ ?]|(Hct & wk & v & Hk & Hval & Hwv)]; [done|]. exists wk, v.
  split; [done|]. split; [done|]. intros wt s rest Hc. pose proof Hlen as Hl. rewrite Hwv, length_app in Hl.
  apply Z.eqb_eq in Hct as ->. assert (Hh : htype f <> PB_HTYPE_REPEATED) by by rewrite E.
  assert (Hr : is_repeated_or_oneof f = true) by (unfold is_repeated_or_oneof; by rewrite E).
  destruct (slot_bounds _ _ _ _ Ht) as (Htag & _). destruct (slot_data _ _ _ _ Ht) as (H1 & H2 & H3). rewrite data_first in H2, H3 by done.
  destruct (store_size m (tag f) Hr ltac:(unfold is_u; lia) Hw) as (m1 & E1 & Hu1 & Er1 & Hw1).
  destruct (union_defaults m1 Hh) as (m2 & E2 & Hu2 & Hf2); [eapply mapped_sub; [apply Hw1|lia|lia]|].
  destruct (first_decodes v m2) with (s := s) (rest := rest) as (m' & Ed & Hu & Hm'); try done; [|lia| |].
  - unfold live. change (s_field src) with f. rewrite E. eval_htypes. by rewrite Ec, bool_decide_true.
  - eapply writable_upd; [exact Hw1|]. eapply upd_sub; [|exact Hu2]. unfold within. lia.
  - exists m'. unfold decode_static_field. unfold sbind at 1, slift at 1. rewrite (cur_it_at _ _ _ _ Hi), E. eval_htypes.
    cbn [it_at pData pSize]. unfold sbind at 1. rewrite E1. unfold sbind at 1. rewrite E2. split; [exact Ed|].
    assert (Hu' : upd (within (s_data t) (data_size f)) m1 m') by by eapply upd_trans.
    assert (Hsel : rd_u m' 4 (s_size t) = Some (tag f)).
    { eapply size_kept; [done|exact Hu'| |done]. intros x. by rewrite data_first. }
    split; [|split; [|done]].
    + eapply upd_trans; eapply upd_sub; [|exact Hu1| |exact Hu']; intros x;
        [right; by rewrite (proj1 (size_place Hr))|by apply data_place].
    + rewrite dest_bytes, E. eval_htypes. rewrite Hsel. cbn -[present Z.eqb]. rewrite Z.eqb_refl, Hwv. by apply present_intro.
Qed.

(** ** Decoding an array *)

Section Array.
Hypothesis Hrep : htype f = PB_HTYPE_REPEATED.
Variable vs : list bytes.
Hypothesis Hvs : items_are ms (message ms d) f (s_data src) vs.
Hypothesis Hcap : zlen vs <= array_size f.
Hypothesis Hlive : live ms src = zlen vs.
Hypothesis Hsmall : Forall (fun v => zlen v < 2 ^ 32) vs.

Lemma counted : is_repeated_or_oneof f = true.
Proof. unfold is_repeated_or_oneof. by rewrite Hrep. Qed.

(** The first [j] items have been decoded. *)
Definition decoded (j : nat) (m : mem) : Prop :=
  rd_u m 4 (s_size t) = Some (Z.of_nat j) /\
  forall i v, (i < j)%nat -> vs !! i = Some v -> value m (message m d) f (item (Z.of_nat i)) = emit v.

Lemma item_index j v : vs !! j = Some v -> 0 <= Z.of_nat j < item_count f.
Proof. intros H1%lookup_lt_Some. rewrite (item_count_array t Hrep). lia. Qed.

(** Items are kept by a change of the count, and by one of another item. *)
Lemma items_kept A m m' j : upd A m m' ->
  (forall i x, 0 <= i < item_count f -> (Z.to_nat i < j)%nat -> within (item i) (data_size f) x -> ~ A x) ->
  (forall i v, (i < j)%nat -> vs !! i = Some v -> value m (message m d) f (item (Z.of_nat i)) = emit v) ->
  forall i v, (i < j)%nat -> vs !! i = Some v -> value m' (message m' d) f (item (Z.of_nat i)) = emit v.
Proof.
  intros Hu Hd Hx i0 v Hij Hv0. pose proof (item_index _ _ Hv0) as Hr. eapply item_kept; [done|exact Hu| |by apply Hx].
  intros x. apply Hd; [done|lia].
Qed.

Lemma array_item_decodes j v m : vs !! j = Some v -> writable inp lo n m ->
  decodes_to inp v (item (Z.of_nat j)) (data_size f) (fun m' => value m' (message m' d) f (item (Z.of_nat j)) = emit v)
    (fun s => call_decoder (PB_DECODERS dsub dsubn (ltype f)) s f (item (Z.of_nat j))) m.
Proof.
  intros Hj Hw. pose proof (item_index _ _ Hj) as Hr. pose proof (Hvs _ _ Hj) as Hval. rewrite item_src in Hval.
  apply slot_item_decodes; [done|done| | | |].
  - apply Hends. rewrite Hlive. apply lookup_lt_Some in Hj. lia.
  - exact (Forall_lookup_1 (fun v => zlen v < 2 ^ 32) vs j v Hsmall Hj).
  - destruct (item_place _ _ _ _ Ht _ Hr) as (H1 & H2 & _). destruct (slot_data _ _ _ _ Ht) as (H3 & H4 & H5).
    unfold item. eapply writable_sub; [exact Hw|lia|lia].
  - intros _ Hn. done.
Qed.

Lemma item_at_item j v : vs !! j = Some v -> item_at it f (Z.of_nat j) = item (Z.of_nat j).
Proof.
  intros Hj%item_index. destruct (item_place _ _ _ _ Ht _ Hj) as (_ & _ & Hu). unfold item_at, item. by rewrite Hu.
Qed.

(** The decoding of an item, and then of the count. *)
Lemma decoded_item j v m m' : vs !! j = Some v -> decoded j m -> upd (within (item (Z.of_nat j)) (data_size f)) m m' ->
  value m' (message m' d) f (item (Z.of_nat j)) = emit v ->
  forall i u, (i < S j)%nat -> vs !! i = Some u -> value m' (message m' d) f (item (Z.of_nat i)) = emit u.
Proof.
  intros Hj [_ Hd] Hu Hval i0 u Hij Hi0. destruct (decide (i0 = j)) as [->|Hne]; [congruence|].
  eapply (items_kept _ m m' j Hu); [|exact Hd|lia|done]. intros i1 x H1 H2. apply items_apart; lia.
Qed.

Lemma size_apart i0 x : 0 <= i0 < item_count f -> within (item i0) (data_size f) x -> ~ within (s_size t) 4 x.
Proof. intros H0 Hx. apply (size_place counted). by eapply item_within. Qed.

Lemma item_in_place j v x : vs !! j = Some v -> within (item (Z.of_nat j)) (data_size f) x -> place t x.
Proof. intros Hj%item_index Hx. left. by eapply item_within. Qed.

Lemma size_in_place x : within (s_size t) 4 x -> place t x.
Proof. intros Hx. right. by rewrite (proj1 (size_place counted)). Qed.

Lemma place_in_struct m m' : upd (place t) m m' -> writable inp lo n m -> writable inp lo n m'.
Proof. intros Hu Hw. eapply writable_upd; [exact Hw|]. eapply upd_sub; [|exact Hu]. intros x. by eapply place_inside. Qed.

Lemma index_range j v : vs !! j = Some v -> is_u 32 (Z.of_nat j + 1).
Proof. intros Hj%lookup_lt_Some. destruct (slot_bounds _ _ _ _ Ht) as (_ & _ & Ha & _). unfold is_u. lia. Qed.

(** An item with a key of its own. *)
Lemma array_step j v m wt s rest : packed f = false -> vs !! j = Some v -> decoded j m -> writable inp lo n m ->
  content inp s (v ++ rest) ->
  exists m', decode wt s m = Some ((true, skip s (zlen v)), m') /\ upd (place t) m m' /\ decoded (S j) m'.
Proof.
  intros Hp Hj Hd Hw Hc. pose proof (index_range _ _ Hj) as Hr. pose proof (lookup_lt_Some _ _ _ Hj) as Hlt.
  destruct (store_size m (Z.of_nat j + 1) counted Hr Hw) as (m1 & E1 & Hu1 & Er1 & Hw1).
  assert (Hd1 : forall i v, (i < j)%nat -> vs !! i = Some v -> value m1 (message m1 d) f (item (Z.of_nat i)) = emit v).
  { eapply items_kept; [exact Hu1| |apply Hd]. intros i0 x H0 _. by apply size_apart. }
  destruct (array_item_decodes j v m1 Hj Hw1 s rest Hc) as (m2 & E2 & Hu2 & Hv2).
  assert (Hu : upd (place t) m m2).
  { eapply upd_trans; eapply upd_sub; [|exact Hu1| |exact Hu2]; [apply size_in_place|intros x; by eapply item_in_place]. }
  exists m2. split; [|split; [done|split]].
  - unfold decode_static_field. unfold sbind at 1, slift at 1. rewrite (cur_it_at _ _ _ _ Hi), Hrep. eval_htypes.
    fold (packed f). rewrite Hp, andb_false_r. unfold sbind at 1. cbn [it_at pSize].
    rewrite (load_u_reads m sizeof_pb_size_t (s_size t) (Z.of_nat j) m (proj1 Hd) (reflexivity m)).
    rewrite Z.geb_leb, (proj2 (Z.leb_gt _ _)) by lia. unfold sbind at 1. rewrite u32_small by done.
    rewrite E1. change (mk_iter fields i (s_req t) dest (s_data t) (s_size t)) with it. by rewrite (item_at_item _ _ Hj).
  - rewrite (size_kept (within (item (Z.of_nat j)) (data_size f)) m1 m2 (Z.of_nat j + 1)); [f_equal; lia|apply counted|done| |done].
    intros x. apply item_within. by eapply item_index.
  - intros i0 u H0 Hi0. destruct (decide (i0 = j)) as [->|Hne]; [congruence|].
    eapply (items_kept _ m1 m2 j Hu2); [|exact Hd1|lia|done]. intros i1 x H1 H2. apply items_apart; lia.
Qed.

Lemma varint_nonempty v : varint v <> [].
Proof. unfold varint. cbn [base128]. by case_if. Qed.

Lemma packed_nonempty m q v : packed f = true -> value m (message m d) f q = emit v -> v <> [].
Proof.
  unfold packed. intros Hp Hval. destruct (slot_static _ _ _ _ Ht) as [_ Hx]. exact_cases (s_field t) Hx Hl Hn; bool_simpl;
    unfold PB_LTYPE_LAST_PACKABLE, PB_LTYPE_FIXED64 in Hp; try lia.
  - destruct Hl as [Hl|[Hl|Hl]];
      [rewrite value_varint in Hval by done|rewrite value_uvarint in Hval by done|rewrite value_svarint in Hval by done];
      [destruct (rd_s m (data_size f) q); [|done]|destruct (rd_u m (data_size f) q); [|done]|destruct (rd_s m (data_size f) q); [|done]];
      revert Hval; intros [= <-]; apply varint_nonempty.
  - rewrite value_fixed32 in Hval by done. destruct (rd m 4 q) as [l|] eqn:El; [|done]. revert Hval. intros [= <-].
    apply rd_length in El; [|lia]. by destruct l.
  - rewrite value_fixed64 in Hval by done. destruct (rd m 8 q) as [l|] eqn:El; [|done]. revert Hval. intros [= <-].
    apply rd_length in El; [|lia]. by destruct l.
Qed.

Lemma packed_loop_decodes : packed f = true -> forall l j m s fuel, drop j vs = l -> (j <= length vs)%nat -> decoded j m ->
  writable inp lo n m -> content inp s (concat l) -> bytes_left s < Z.of_nat fuel ->
  exists m', packed_loop fuel (PB_DECODERS dsub dsubn (ltype f)) it f s m = Some ((true, skip s (zlen (concat l))), m') /\
    upd (place t) m m' /\ decoded (length vs) m'.
Proof.
  intros Hp. induction l as [|v l IH]; intros j m s fuel Hl Hj Hd Hw Hc Hf; pose proof Hc as (_ & Hb & _);
    (destruct fuel as [|fuel]; [lia|]); cbn [packed_loop]; unfold sbind at 1; cbn [it_at pSize];
    rewrite (load_u_reads m sizeof_pb_size_t (s_size t) (Z.of_nat j) m (proj1 Hd) (reflexivity m)).
  - cbn [concat length] in Hb. rewrite Hb. exists m. change (concat []) with (@nil Z). rewrite skip_0. split; [done|].
    split; [apply upd_refl|]. apply (f_equal length) in Hl. rewrite length_drop in Hl. cbn in Hl.
    by replace (length vs) with j by lia.
  - assert (Ej : vs !! j = Some v) by (by rewrite <- (Nat.add_0_r j), <- lookup_drop, Hl).
    pose proof (lookup_lt_Some _ _ _ Ej) as Hlt. cbn [concat] in Hb, Hc |- *. rewrite length_app in Hb.
    pose proof (packed_nonempty ms _ v Hp (Hvs j v Ej)) as Hne. assert (Hpos : 0 < zlen v) by (destruct v; [done|cbn; lia]).
    rewrite Z.gtb_ltb, (proj2 (Z.ltb_lt 0 _)), (proj2 (Z.ltb_lt (Z.of_nat j) _)) by lia. cbn [andb].
    destruct (array_item_decodes j v m Ej Hw s (concat l) Hc) as (m1 & E1 & Hu1 & Hv1). unfold sbind at 1.
    change (mk_iter fields i (s_req t) dest (s_data t) (s_size t)) with it. rewrite (item_at_item _ _ Ej), E1. cbn [negb].
    assert (Er1 : rd_u m1 4 (s_size t) = Some (Z.of_nat j)).
    { eapply size_kept; [apply counted|exact Hu1| |apply Hd]. intros x. apply item_within. by eapply item_index. }
    assert (Hup1 : upd (place t) m m1) by (eapply upd_sub; [|exact Hu1]; intros x; by eapply item_in_place).
    pose proof (place_in_struct _ _ Hup1 Hw) as Hw1. pose proof (index_range _ _ Ej) as Hr.
    destruct (store_size m1 (Z.of_nat j + 1) counted Hr Hw1) as (m2 & E2 & Hu2 & Er2 & Hw2).
    unfold sbind at 1. rewrite (load_u_reads m1 sizeof_pb_size_t (s_size t) (Z.of_nat j) m1 Er1 (reflexivity m1)).
    unfold sbind at 1. rewrite u32_small by done. rewrite E2.
    destruct (IH (S j) m2 (skip s (zlen v)) fuel) as (m3 & E3 & Hu3 & Hd3).
    + rewrite (drop_S vs v j Ej) in Hl. by injection Hl.
    + lia.
    + split; [rewrite Er2; f_equal; lia|]. eapply items_kept; [exact Hu2| |by eapply decoded_item].
      intros i0 x Hi0 _. by apply size_apart.
    + done.
    + by apply content_skip in Hc.
    + cbn. lia.
    + exists m3. rewrite E3, skip_skip, length_app. split; [do 4 f_equal; lia|]. split; [|done].
      eapply upd_trans; [exact Hup1|]. eapply upd_trans; [|exact Hu3]. eapply upd_sub; [apply size_in_place|exact Hu2].
Qed.

Lemma decoded_all m : vs <> [] -> repeated_wire f vs w -> decoded (length vs) m ->
  field_bytes m (message m d) f (s_data t) = emit w.
Proof.
  intros Hne Hwv [Hr Hd]. destruct (slot_static _ _ _ _ Ht) as [Ha _]. rewrite dest_bytes, Hrep. eval_htypes. rewrite Hr.
  cbn -[repeated]. apply repeated_intro; [done| | |done].
  - destruct vs; [done|]. cbn [length] in *. lia.
  - intros j v Hj. apply (Hd j v); [by apply lookup_lt_Some in Hj|done].
Qed.

Lemma decoded_none m : fresh_slot (fresh d m) m t -> decoded 0 m.
Proof. unfold fresh_slot. rewrite Hrep. eval_htypes. intros Hr. split; [done|lia]. Qed.

Lemma packed_decodes m : packed f = true -> vs <> [] -> repeated_wire f vs w -> fresh_slot (fresh d m) m t ->
  writable inp lo n m -> decodes_field 2 (delimited (concat vs)) m.
Proof.
  intros Hp Hne Hwv Hf Hw s rest Hc. pose proof Hwv as Hx. unfold repeated_wire in Hx. rewrite Hp in Hx. destruct Hx as [Ew _].
  assert (Hll : zlen (concat vs) < 2 ^ 32).
  { pose proof Hlen as Hl. rewrite Ew in Hl. unfold delimited in Hl. rewrite !length_app in Hl. lia. }
  destruct (make_substream inp s _ (concat vs) rest m Hc (proj1 Hw) Hll eq_refl) as [Es Hsc].
  destruct (packed_loop_decodes Hp vs 0 m _ (S (length (concat vs))) (drop_0 vs) ltac:(lia) (decoded_none m Hf) Hw Hsc) as (m' & E & Hu & Hd).
  { cbn [bytes_left set_bytes_left]. lia. }
  exists m'. split; [|split; [done|split; [by apply decoded_all|by rewrite Hrep]]].
  unfold decode_static_field. unfold sbind at 1, slift at 1. rewrite (cur_it_at _ _ _ _ Hi), Hrep. eval_htypes.
  fold (packed f). rewrite Hp. cbn [PB_WT_STRING Pos.eqb andb]. unfold sbind at 1. rewrite Es.
  cbn [bytes_left set_bytes_left]. rewrite Nat2Z.id. unfold sbind at 1. rewrite E, skip_substream. cbn [bytes_left].
  rewrite Z.eqb_refl. cbn [negb]. unfold sbind.
  by rewrite (close_substream s (concat vs) rest); [|done..|apply Hc].
Qed.
End Array.
(** ** What is decoded under one key *)

Lemma key_inv wk : key f = emit wk -> exists wt, 0 <= wt < 8 /\ wk = wire_key (tag f) wt.
Proof.
  unfold key. destruct (wire_type f) as [wt|] eqn:E; [|done]. intros [= <-]. exists wt. split; [|done].
  by eapply wire_type_range.
Qed.

(** The items of an array in the source. *)
Lemma array_source : htype f = PB_HTYPE_REPEATED -> w <> [] -> exists vs, vs <> [] /\
  items_are ms (message ms d) f (s_data src) vs /\ zlen vs <= array_size f /\ live ms src = zlen vs /\
  Forall (fun v => zlen v < 2 ^ 32) vs /\ repeated_wire f vs w.
Proof.
  intros E Hne. destruct (slot_static _ _ _ _ Ht) as [Ha _]. pose proof source_bytes as Hb. rewrite E in Hb. eval_htypes in Hb.
  destruct (rd_u ms 4 (s_size src)) as [c|] eqn:Ec; [|done]. symmetry in Hb. cbn -[repeated] in Hb.
  pose proof (rd_u_bound ms 4 _ _ Hms ltac:(lia) Ec) as Hc0. destruct (decide (c = 0)) as [->|Hc].
  { rewrite repeated_static in Hb by done. cbn in Hb. by injection Hb as Hb. }
  destruct (repeated_inv ms (message ms d) f (s_data src) Ha c w ltac:(lia) Hc Hb) as (Hcap & vs & Hn & Hvs & Hwv).
  exists vs. rewrite Hn. split; [intros ->; cbn in Hn; lia|]. split; [done|]. split; [done|]. split; [|split; [|done]].
  - unfold live. change (s_field src) with f. rewrite E. eval_htypes. by rewrite Ec.
  - apply List.Forall_forall. intros v Hin. pose proof Hlen as Hl. unfold repeated_wire in Hwv. destruct (packed f).
    + destruct Hwv as [Ew _]. rewrite Ew in Hl. unfold delimited in Hl. rewrite !length_app in Hl.
      pose proof (length_in_concat v vs Hin). lia.
    + destruct Hwv as (wk & _ & Ew). rewrite Ew in Hl.
      pose proof (length_in_concat (wk ++ v) (map (app wk) vs) (in_map (app wk) _ _ Hin)) as Hin'. rewrite length_app in Hin'. lia.
Qed.

Lemma field_once m : htype f <> PB_HTYPE_REPEATED \/ packed f = true -> w <> [] -> writable inp lo n m ->
  fresh_slot (fresh d m) m t -> exists wt v, 0 <= wt < 8 /\ w = wire_key (tag f) wt ++ v /\ decodes_field wt v m.
Proof.
  intros Hk Hne Hw Hf. destruct (Z.eqb_spec (htype f) PB_HTYPE_REPEATED) as [E|E].
  - destruct Hk as [Hk|Hk]; [done|]. destruct (array_source E Hne) as (vs & Hvne & H1 & H2 & H3 & H4 & H5).
    exists 2, (delimited (concat vs)). split; [lia|]. split; [unfold repeated_wire in H5; rewrite Hk in H5; apply H5|].
    by apply (packed_decodes E vs H1 H2 H3 H4).
  - assert (Hx : exists wk v, key f = emit wk /\ w = wk ++ v /\ forall wt, decodes_field wt v m).
    { destruct (htype_cases f) as [Eh|[Eh|[Eh|Eh]]]; [by apply required_decodes| |done|by apply union_decodes].
      destruct (has_flag f) eqn:Ef; [by apply flag_decodes|by apply plain_decodes]. }
    destruct Hx as (wk & v & Hwk & Hwv & Hd). destruct (key_inv wk Hwk) as (wt & Hwt & ->). exists wt, v. auto.
Qed.

(** The selector of a union says which of its fields is on the wire. *)
Lemma selected : htype f = PB_HTYPE_ONEOF -> w <> [] -> rd_u ms 4 (s_size src) = Some (tag f).
Proof.
  intros E Hne. pose proof source_bytes as Hb. rewrite E in Hb. eval_htypes in Hb.
  destruct (rd_u ms 4 (s_size src)) as [c|]; [|done]. symmetry in Hb.
  destruct (present_inv _ _ _ _ _ Hb) as [[_ ?]|[Hct _]]; [done|]. by apply Z.eqb_eq in Hct as ->.
Qed.

Lemma not_selected c : htype f = PB_HTYPE_ONEOF -> rd_u ms 4 (s_size src) = Some c -> c <> tag f -> w = [].
Proof.
  intros E Hc Hne. pose proof source_bytes as Hb. rewrite E in Hb. eval_htypes in Hb. rewrite Hc in Hb.
  cbn -[present Z.eqb] in Hb. rewrite (proj2 (Z.eqb_neq _ _) Hne) in Hb. by injection Hb.
Qed.

Lemma other_selected m c : htype f = PB_HTYPE_ONEOF -> rd_u m 4 (s_size t) = Some c -> c <> tag f ->
  field_bytes m (message m d) f (s_data t) = emit [].
Proof.
  intros E Hc Hne. rewrite dest_bytes, E. eval_htypes. rewrite Hc. cbn -[present Z.eqb].
  by rewrite (proj2 (Z.eqb_neq _ _) Hne).
Qed.

End Field.
(** * The fields of a message *)

Section Message.
Variables (fields : list pb_field_t) (p dest n : Z) (w : bytes).
Hypothesis Hsrc : round_ok (S d) fields p n = true.
Hypothesis Hdst : round_ok (S d) fields dest n = true.
Hypothesis Hmsg : message ms (S d) fields p = emit w.
Hypothesis Hends : strings_end ms (S d) fields p = true.
Hypothesis Hlen : zlen w < 2 ^ 32.
#[local] Abbreviation L := (layout fields dest).
#[local] Abbreviation loop := (decode_loop buffer_at callback_fuel (S d) dsub dsubn).
#[local] Abbreviation source t := (moved (p - dest) t).
#[local] Abbreviation bytes_at m t := (field_bytes m (message m d) (s_field t) (s_data t)).

Lemma message_terminated : terminated fields = true.
Proof. by destruct (round_ok_inv _ _ _ _ Hdst) as (d' & _ & _ & Ht & _). Qed.

Lemma message_slot i t : L !! i = Some t -> slot_ok (round_ok d) dest n t = true /\ slot_ok (round_ok d) p n (source t) = true.
Proof.
  intros Hi. destruct (round_ok_inv _ _ _ _ Hdst) as (d1 & [= <-] & _ & _ & _ & H1 & _).
  destruct (round_ok_inv _ _ _ _ Hsrc) as (d2 & [= <-] & _ & _ & _ & H2 & _). split; [by apply (H1 i)|].
  apply (H2 i). by apply layout_at.
Qed.

Lemma message_separate i j t u : L !! i = Some t -> L !! j = Some u -> i <> j -> separate t u = true.
Proof.
  destruct (round_ok_inv _ _ _ _ Hdst) as (d1 & [= <-] & _ & _ & _ & _ & Hsep). by apply slots_separate.
Qed.

Lemma message_positive : 0 < dest /\ 0 < p.
Proof.
  destruct (round_ok_inv _ _ _ _ Hdst) as (d1 & _ & H1 & _). by destruct (round_ok_inv _ _ _ _ Hsrc) as (d2 & _ & H2 & _).
Qed.

(** ** The order of rounds of the loop *)

(** From one state of the loop to another, with fuel left. *)
Definition advances (x : decode_state) (m : mem) (y : decode_state) (m' : mem) : Prop :=
  forall fuel, bytes_left (ds_stream x) < Z.of_nat fuel ->
  exists fuel', bytes_left (ds_stream y) < Z.of_nat fuel' /\ loop fuel x m = loop fuel' y m'.

Lemma advances_refl x m : advances x m x m.
Proof. intros fuel Hf. by exists fuel. Qed.

Lemma advances_trans x m y m1 z m2 : advances x m y m1 -> advances y m1 z m2 -> advances x m z m2.
Proof.
  intros H1 H2 fuel Hf. destruct (H1 fuel Hf) as (f1 & Hf1 & ->). destruct (H2 f1 Hf1) as (f2 & Hf2 & ->). by exists f2.
Qed.

Lemma decode_key s t wt rest m : content inp s (wire_key t wt ++ rest) -> inp ⊆ m -> 0 < t < 2 ^ 29 -> 0 <= wt < 8 ->
  pb_decode_tag s m = Some ((true, wt, t, false, skip s (zlen (wire_key t wt))), m).
Proof.
  intros Hc Hm Ht Hwt. unfold pb_decode_tag, wire_key, sbind.
  rewrite (dec_varint32 _ _ _ _ _ Hc Hm) by (unfold is_u; lia). rewrite (proj2 (Z.eqb_neq _ _)) by lia.
  change 7 with (Z.ones 3). rewrite Z.land_ones, Z.shiftr_div_pow2 by lia. change (2 ^ 3) with 8.
  replace ((8 * t + wt) mod 8) with wt by (apply (Z.mod_unique _ _ t); lia).
  by replace ((8 * t + wt) / 8) with t by (apply (Z.div_unique _ _ _ wt); lia).
Qed.

Definition on_table (it : pb_field_iter_t) : Prop := exists i t, L !! i = Some t /\ it = it_at fields dest i t.

(** The tags are different. *)
Lemma find_slot i t it : L !! i = Some t -> on_table it ->
  pb_field_iter_find it (tag (s_field t)) = Some (true, it_at fields dest i t).
Proof.
  intros Hi (j & u & Hj & ->). pose proof message_terminated as Ht.
  destruct (pb_field_iter_find_spec fields dest j u (tag (s_field t)) Ht Hj) as [(j' & u' & Hj' & Htag & ->)|[Hno _]].
  - destruct (decide (i = j')) as [->|Hne]; [congruence|]. exfalso.
    apply (separate_tag t u'); [by eapply message_separate|]. unfold has_tag in Htag. bool_simpl. lia.
  - exfalso. specialize (Hno i t Hi). unfold has_tag in Hno. rewrite Z.eqb_refl in Hno. cbn [andb] in Hno. bool_simpl.
    destruct (message_slot i t Hi) as [Hs _]. destruct (slot_static _ _ _ _ Hs) as [_ Hx].
    exact_cases (s_field t) Hx Hl Hn; rewrite Hno in Hl; unfold PB_LTYPE_EXTENSION in Hl; lia.
Qed.

(** One round: a key and the value that its field's decoder consumes. *)
Lemma round i t x wt v rest seen m m' : L !! i = Some t -> on_table (ds_iter x) -> inp ⊆ m -> 0 <= wt < 8 ->
  content inp (ds_stream x) ((wire_key (tag (s_field t)) wt ++ v) ++ rest) ->
  mark_seen (it_at fields dest i t) (s_field t) (fields_seen x) = Some seen ->
  (let s := skip (ds_stream x) (zlen (wire_key (tag (s_field t)) wt)) in
     decode_static_field (S d) dsub dsubn s wt (it_at fields dest i t) m = Some ((true, skip s (zlen v)), m')) ->
  advances x m (mk_decode_state (skip (ds_stream x) (zlen (wire_key (tag (s_field t)) wt ++ v))) (it_at fields dest i t) seen
    (extension_range_start x)) m'.
Proof.
  intros Hi Hon Hm Hwt Hc Hseen Hd fuel Hf. destruct (message_slot i t Hi) as [Hs _].
  destruct (slot_bounds _ _ _ _ Hs) as (Htag & _). destruct (slot_static _ _ _ _ Hs) as [Ha _].
  destruct fuel as [|fuel]; [destruct Hc as (_ & Hb & _); lia|]. exists fuel. cbn [ds_stream].
  pose proof Hc as (_ & Hb & _). destruct (wire_key_cons (tag (s_field t)) wt) as (b & l & Ek).
  assert (Hpos : 0 < zlen (wire_key (tag (s_field t)) wt)) by (rewrite Ek; cbn; lia).
  cbn [skip bytes_left]. rewrite !length_app in *. split; [lia|]. cbn [decode_loop].
  rewrite (proj2 (Z.eqb_neq _ _)) by lia. unfold sbind at 1. rewrite <- app_assoc in Hc.
  rewrite (decode_key _ _ _ _ _ Hc Hm Htag Hwt). cbn [negb]. unfold sbind at 1. unfold decode_one. unfold sbind at 1, slift at 1.
  cbn [ds_iter set_ds_stream]. rewrite (find_slot i t _ Hi Hon). cbn [negb]. unfold sbind at 1, slift at 1.
  rewrite (cur_it_at _ _ _ _ Hi). unfold sbind at 1, slift at 1. cbn [fields_seen set_ds_stream]. rewrite Hseen. unfold sbind at 1.
  unfold decode_field. unfold sbind at 1, slift at 1. rewrite (cur_it_at _ _ _ _ Hi), Ha. cbn [ds_stream set_ds_stream].
  change (PB_ATYPE_STATIC =? PB_ATYPE_STATIC) with true. cbv iota. cbv zeta in Hd. rewrite Hd.
  unfold sret. cbn [negb extension_range_start]. rewrite skip_skip. do 4 f_equal. lia.
Qed.
(** ** The required fields seen *)

Lemma required_64 : required_count L < 64.
Proof.
  destruct (round_ok_inv _ _ _ _ Hdst) as (d1 & _ & _ & _ & Hc & _). by apply countable_bound.
Qed.

Lemma mark_slot i t : L !! i = Some t ->
  mark_seen (it_at fields dest i t) (s_field t) (seen_bits (required_count (take i L))) =
  Some (seen_bits (required_count (take (S i) L))).
Proof.
  intros Hi. rewrite (take_S_r _ _ _ Hi), required_count_snoc. pose proof required_64 as H64.
  pose proof (required_count_nonneg (take i L)) as H0. pose proof (required_count_take (S i) L) as H1.
  rewrite (take_S_r _ _ _ Hi), required_count_snoc in H1. unfold is_required in *.
  destruct (Z.eqb_spec (htype (s_field t)) PB_HTYPE_REQUIRED) as [E|E].
  - apply mark_seen_bits; [done| |lia]. cbn. by apply (layout_req fields dest).
  - unfold mark_seen. rewrite (proj2 (Z.eqb_neq _ _) E). cbn [andb]. by rewrite Z.add_0_r.
Qed.

(** ** The rounds of one slot *)

(** The state before slot [i], and what follows is [l]. *)
Definition before (i : nat) (x : decode_state) (l : bytes) : Prop :=
  on_table (ds_iter x) /\ fields_seen x = seen_bits (required_count (take i L)) /\ content inp (ds_stream x) l.

Lemma round_before i t x wt v rest m m' : L !! i = Some t -> writable inp dest n m -> 0 <= wt < 8 ->
  before i x ((wire_key (tag (s_field t)) wt ++ v) ++ rest) ->
  (let s := skip (ds_stream x) (zlen (wire_key (tag (s_field t)) wt)) in
     decode_static_field (S d) dsub dsubn s wt (it_at fields dest i t) m = Some ((true, skip s (zlen v)), m')) ->
  exists y, advances x m y m' /\ before (S i) y rest /\ ds_stream y = skip (ds_stream x) (zlen (wire_key (tag (s_field t)) wt ++ v)).
Proof.
  intros Hi Hw Hwt (Hon & Hs & Hc) Hd. pose proof (mark_slot i t Hi) as Hm. rewrite <- Hs in Hm.
  eexists. split; [apply (round i t x wt v rest _ m m' Hi Hon (proj1 Hw) Hwt Hc Hm Hd)|]. split; [|done].
  split; [by exists i, t|]. split; [done|]. cbn. by apply content_skip in Hc.
Qed.

Lemma key_content i x wk v rest : before i x ((wk ++ v) ++ rest) -> content inp (skip (ds_stream x) (zlen wk)) (v ++ rest).
Proof. intros (_ & _ & Hc). rewrite <- app_assoc in Hc. by apply content_skip. Qed.

Lemma before_same i x l t : L !! i = Some t -> htype (s_field t) <> PB_HTYPE_REQUIRED -> before i x l <-> before (S i) x l.
Proof.
  intros Hi E. unfold before. rewrite (take_S_r _ _ _ Hi), required_count_snoc. unfold is_required.
  by rewrite (proj2 (Z.eqb_neq _ _) E), Z.add_0_r.
Qed.

Lemma slot_place_write t i m m' : L !! i = Some t -> upd (place t) m m' -> writable inp dest n m -> writable inp dest n m'.
Proof.
  intros Hi Hu Hw. destruct (message_slot i t Hi) as [Hs _]. eapply writable_upd; [exact Hw|].
  eapply upd_sub; [|exact Hu]. intros x. by eapply place_inside.
Qed.

(** What a slot needs of the source. *)
Lemma slot_ends i t j : L !! i = Some t -> 0 <= j < live ms (source t) -> item_ends ms d (s_field t) (item t j + (p - dest)).
Proof.
  intros Hi Hj. pose proof (strings_end_item ms d fields p i (source t) j Hends (layout_at _ _ _ _ _ Hi) Hj) as He.
  cbn [moved s_field s_data] in He. by replace (item t j + (p - dest)) with (s_data t + (p - dest) + j * data_size (s_field t)) by (unfold item; lia).
Qed.

(** The slot has been decoded: its bytes are [wi], and its union is selected if it is
    on the wire. *)
Definition slot_done (t : slot) (wi : bytes) (m m' : mem) : Prop :=
  upd (place t) m m' /\ bytes_at m' t = emit wi /\ (wi = [] -> m' = m) /\
  (htype (s_field t) = PB_HTYPE_ONEOF -> wi <> [] -> rd_u m' 4 (s_size t) = Some (tag (s_field t))).

Section Slot.
Variables (i : nat) (t : slot) (wi : bytes).
Hypothesis Hi : L !! i = Some t.
Hypothesis Hwi : field_bytes ms (message ms d) (s_field t) (s_data (source t)) = emit wi.
Hypothesis Hli : zlen wi < 2 ^ 32.

(** The rounds of an array whose items have keys of their own. *)
Lemma array_rounds vs wt rest : htype (s_field t) = PB_HTYPE_REPEATED -> packed (s_field t) = false -> 0 <= wt < 8 ->
  items_are ms (message ms d) (s_field t) (s_data (source t)) vs -> zlen vs <= array_size (s_field t) ->
  live ms (source t) = zlen vs -> Forall (fun v => zlen v < 2 ^ 32) vs ->
  let wk := wire_key (tag (s_field t)) wt in
  forall l j x m, drop j vs = l -> (j <= length vs)%nat -> decoded t vs j m -> writable inp dest n m ->
  before i x (concat (map (app wk) l) ++ rest) ->
  exists y m', advances x m y m' /\ before i y rest /\ ds_stream y = skip (ds_stream x) (zlen (concat (map (app wk) l))) /\
    upd (place t) m m' /\ decoded t vs (length vs) m'.
Proof.
  intros Hr Hp Hwt Hvs Hcap Hlive Hsm wk. destruct (message_slot i t Hi) as [Ht Hs]. destruct message_positive as [Hd0 Hp0].
  induction l as [|v l IH]; intros j x m Hl Hj Hd Hw Hb.
  - exists x, m. split; [apply advances_refl|]. split; [done|]. change (concat (map (app wk) [])) with (@nil Z). rewrite skip_0.
    split; [done|]. split; [apply upd_refl|]. apply (f_equal length) in Hl. rewrite length_drop in Hl. cbn in Hl.
    by replace (length vs) with j by lia.
  - assert (Ej : vs !! j = Some v) by (by rewrite <- (Nat.add_0_r j), <- lookup_drop, Hl).
    pose proof (lookup_lt_Some _ _ _ Ej) as Hlt. cbn [map concat] in Hb |- *. rewrite <- app_assoc in Hb.
    assert (Hstep : exists m1, let s := skip (ds_stream x) (zlen wk) in
      decode_static_field (S d) dsub dsubn s wt (it_at fields dest i t) m = Some ((true, skip s (zlen v)), m1) /\
      upd (place t) m m1 /\ decoded t vs (S j) m1).
    { eapply (array_step dest n p n t (p - dest) Ht Hs); try done; [intros j' Hj'; by eapply slot_ends|].
      by eapply key_content. }
    destruct Hstep as (m1 & E1 & Hu1 & Hd1).
    destruct (round_before i t x wt v _ m m1 Hi Hw Hwt Hb E1) as (y & Hadv & Hby & Ey).
    destruct (IH (S j) y m1) as (z & m2 & Hadv2 & Hbz & Ez & Hu2 & Hd2).
    + rewrite (drop_S vs v j Ej) in Hl. by injection Hl.
    + lia.
    + done.
    + by eapply slot_place_write.
    + apply (before_same i y _ t Hi); [by rewrite Hr|done].
    + exists z, m2. split; [by eapply advances_trans|]. split; [done|]. split; [|split; [by eapply upd_trans|done]].
      rewrite Ez, Ey, skip_skip. fold wk. rewrite !length_app. f_equal. lia.
Qed.

Lemma slot_source_ends j : 0 <= j < live ms (source t) -> item_ends ms d (s_field t) (item t j + (p - dest)).
Proof. by apply (slot_ends i). Qed.

Lemma slot_step x m rest : writable inp dest n m -> fresh_slot (fresh d m) m t -> before i x (wi ++ rest) ->
  exists y m', advances x m y m' /\ before (S i) y rest /\ ds_stream y = skip (ds_stream x) (zlen wi) /\ slot_done t wi m m'.
Proof.
  intros Hw Hf Hb. destruct (message_slot i t Hi) as [Ht Hs]. destruct message_positive as [Hd0 Hp0]. pose proof slot_source_ends as He.
  destruct (decide (wi = [])) as [Enil|Hne].
  { exists x, m. split; [apply advances_refl|]. rewrite Enil in Hwi, Hb |- *. split; [|split; [by rewrite skip_0|split; [apply upd_refl|]]].
    - apply (before_same i x rest t Hi); [|done]. by apply (absent_not_required p n t (p - dest) Hs).
    - split; [by apply (absent_field dest n p n t (p - dest))|done]. }
  destruct (decide (htype (s_field t) = PB_HTYPE_REPEATED /\ packed (s_field t) = false)) as [[Hr Hp]|Hnr].
  - destruct (array_source dest n p n t (p - dest) Ht Hs wi Hwi Hli Hr Hne) as (vs & Hvne & H1 & H2 & H3 & H4 & H5).
    pose proof H5 as H6. unfold repeated_wire in H6. rewrite Hp in H6. destruct H6 as (wk & Hk & Ew).
    destruct (key_inv t wk Hk) as (wt & Hwt & ->). rewrite Ew in Hb.
    destruct (array_rounds vs wt rest Hr Hp Hwt H1 H2 H3 H4 vs 0 x m (drop_0 vs) ltac:(lia)) as (y & m' & Hadv & Hby & Ey & Hu & Hd); try done.
    { by eapply decoded_none. }
    exists y, m'. split; [done|]. split; [apply (before_same i y rest t Hi); [by rewrite Hr|done]|]. split; [by rewrite Ey, <- Ew|].
    split; [done|]. split; [by eapply decoded_all|]. split; [done|]. by rewrite Hr.
  - destruct (field_once dest n p n t (p - dest) Ht Hs Hd0 Hp0 i fields dest Hi wi Hwi He Hli m) as (wt & v & Hwt & Ew & Hd); try done.
    { destruct (Z.eq_dec (htype (s_field t)) PB_HTYPE_REPEATED); [|by left]. right. destruct (packed (s_field t)); [done|]. by destruct Hnr. }
    rewrite Ew in Hb. pose proof (key_content i x _ v rest Hb) as Hc. destruct (Hd _ _ Hc) as (m' & E & Hu & Hby & Ho).
    destruct (round_before i t x wt v rest m m' Hi Hw Hwt Hb E) as (y & Hadv & Hb' & Ey). exists y, m'.
    split; [done|]. split; [done|]. split; [by rewrite Ey, <- Ew|]. split; [done|]. split; [done|]. split; [done|]. by intros Ho' _; apply Ho.
Qed.
End Slot.

(** ** All the slots *)

Section Slots.
(** The bytes of each field in the source. *)
Variable ws : list bytes.
Hypothesis Hws : forall i t, L !! i = Some t -> exists wi, ws !! i = Some wi /\
  field_bytes ms (message ms d) (s_field t) (s_data (source t)) = emit wi /\ zlen wi < 2 ^ 32.
Hypothesis Hlws : length ws = length L.

(** Decoding one slot does not change what the others stand for. *)
Lemma other_slot i k t u wi wk m m' : L !! i = Some t -> L !! k = Some u -> i <> k ->
  ws !! i = Some wi -> ws !! k = Some wk -> slot_done t wi m m' ->
  (bytes_at m u = emit wk -> bytes_at m' u = emit wk) /\ (fresh_slot (fresh d m) m u -> fresh_slot (fresh d m') m' u).
Proof.
  intros Hi Hk Hne Ei Ek (Hu & _ & Hnil & Hsel). destruct (message_slot i t Hi) as [Ht Hts]. destruct (message_slot k u Hk) as [Hd Hds].
  destruct (Hws i t Hi) as (wi' & Ei' & Hwi & _). assert (wi' = wi) as -> by congruence.
  destruct (Hws k u Hk) as (wk' & Ek' & Hwk & _). assert (wk' = wk) as -> by congruence.
  assert (Hsep : separate u t = true) by (by eapply message_separate).
  destruct (same_which u t) eqn:Ew.
  - destruct (decide (wi = [])) as [Enil|Hnn]; [by rewrite (Hnil Enil)|].
    apply same_which_spec in Ew as (H1 & H2 & H3). specialize (Hsel H2 Hnn). rewrite <- H3 in Hsel.
    pose proof (separate_tag _ _ Hsep) as Htag. pose proof (selected p n t (p - dest) Hts wi Hwi H2 Hnn) as Hsrcsel.
    cbn [moved s_size] in Hsrcsel. rewrite <- H3 in Hsrcsel.
    rewrite (not_selected p n u (p - dest) Hds wk Hwk (tag (s_field t)) H1 Hsrcsel) by done. split.
    + intros _. by apply (other_selected dest n u Hd m' (tag (s_field t))).
    + intros _. unfold fresh_slot. rewrite H1. eval_htypes. exists (tag (s_field t)). done.
  - pose proof (separate_places _ _ Hsep Ew) as Hpl. split; [|by eapply fresh_slot_upd].
    intros <-. symmetry. eapply field_bytes_agree; [exact Hd|by eapply upd_agree_on|].
    intros fs j Hl Hp Hj. destruct (slot_submsg _ _ _ _ Hd Hl) as (fs' & Hp' & Hq). rewrite Hp in Hp'. injection Hp' as <-.
    eapply message_agree; [by apply (Hq j)|]. eapply agree_sub; [|by eapply upd_agree_on]. intros x Hx. left.
    by apply (item_within dest n u Hd j Hj).
Qed.

Lemma slots_loop : forall l i x m, drop i ws = l -> (i <= length ws)%nat -> writable inp dest n m -> before i x (concat l) ->
  (forall k t wk, (k < i)%nat -> L !! k = Some t -> ws !! k = Some wk -> bytes_at m t = emit wk) ->
  (forall k t, (i <= k)%nat -> L !! k = Some t -> fresh_slot (fresh d m) m t) ->
  exists y m', advances x m y m' /\ before (length L) y [] /\ ds_stream y = skip (ds_stream x) (zlen (concat l)) /\
    upd (within dest n) m m' /\ (forall k t wk, L !! k = Some t -> ws !! k = Some wk -> bytes_at m' t = emit wk).
Proof.
  induction l as [|wi l IH]; intros i x m Hl Hil Hw Hb Hpre Hpost.
  - apply (f_equal length) in Hl. rewrite length_drop in Hl. cbn in Hl. replace i with (length L) in * by lia.
    exists x, m. split; [apply advances_refl|]. split; [done|]. split; [change (concat []) with (@nil Z); by rewrite skip_0|].
    split; [apply upd_refl|]. intros k t wk Hk. apply Hpre; [by eapply lookup_lt_Some|done].
  - assert (Ei : ws !! i = Some wi) by (by rewrite <- (Nat.add_0_r i), <- lookup_drop, Hl).
    pose proof (lookup_lt_Some _ _ _ Ei) as Hlt. destruct (lookup_lt_is_Some_2 L i) as [t Hi]; [lia|].
    destruct (Hws i t Hi) as (wi' & Ei' & Hwi & Hli). assert (wi' = wi) as -> by congruence.
    destruct (slot_step i t wi Hi Hwi Hli x m (concat l) Hw) as (y & m1 & Hadv & Hby & Ey & Hdone); [by apply (Hpost i)|done|].
    assert (Hup : upd (within dest n) m m1).
    { destruct (message_slot i t Hi) as [Ht _]. eapply upd_sub; [|apply Hdone]. intros z. by eapply place_inside. }
    destruct (IH (S i) y m1) as (z & m2 & Hadv2 & Hbz & Ez & Hu2 & Hall).
    + rewrite (drop_S ws wi i Ei) in Hl. by injection Hl.
    + lia.
    + by eapply writable_upd.
    + done.
    + intros k u wk Hk Hu Ek. destruct (decide (k = i)) as [->|Hne].
      * assert (u = t) as -> by congruence. assert (wk = wi) as -> by congruence. apply Hdone.
      * eapply (other_slot i k t u wi wk m m1); try done. apply (Hpre k); [lia|done|done].
    + intros k u Hk Hu. destruct (Hws k u Hu) as (wk & Ek & _). eapply (other_slot i k t u wi wk m m1); try done; [lia|].
      apply (Hpost k); [lia|done].
    + exists z, m2. split; [by eapply advances_trans|]. split; [done|].
      split; [cbn [concat]; rewrite Ez, Ey, skip_skip, length_app; f_equal; lia|]. split; [by eapply upd_trans|done].
Qed.
End Slots.

(** ** The message *)

Lemma source_fields : exists ws, w = concat ws /\ length ws = length L /\
  (forall i t, L !! i = Some t -> exists wi, ws !! i = Some wi /\
     field_bytes ms (message ms d) (s_field t) (s_data (source t)) = emit wi /\ zlen wi < 2 ^ 32).
Proof.
  pose proof Hmsg as Hm. cbn [message] in Hm. rewrite message_terminated in Hm. apply rconcat_inv in Hm as (ws & Hws & Ew).
  pose proof (Forall2_length _ _ _ Hws) as Hl. exists ws. split; [done|]. split.
  - rewrite <- Hl. replace p with (dest + (p - dest)) by lia. by rewrite layout_moved, length_map.
  - intros i t Hi. pose proof (layout_at _ _ p _ _ Hi) as Hi'.
    apply Forall2_lookup_l with (i := i) (x := source t) in Hws as (wi & Ei & Hwi); [|done]. exists wi. split; [done|].
    split; [exact Hwi|]. pose proof (length_in_concat wi ws) as Hin. rewrite <- Ew in Hin. pose proof Hlen.
    specialize (Hin (proj1 (list_elem_of_In _ _) (list_elem_of_lookup_2 _ _ _ Ei))). lia.
Qed.

Lemma check_required_ok x m : iter_ok fields dest (ds_iter x) -> fields_seen x = seen_bits (required_count L) ->
  check_required x m = Some ((true, ds_stream x), m).
Proof.
  intros Hit Hs. destruct (round_ok_inv _ _ _ _ Hdst) as (d1 & _ & _ & Ht & Hc & _).
  destruct (required_total fields dest Ht Hc _ Hit) as (k & last & it & f & Es & Hcur & Hm).
  unfold check_required. unfold sbind at 1, slift at 1. rewrite Es. unfold sbind at 1, slift at 1. rewrite Hcur, Hm, Hs.
  destruct (Z.gtb_spec (required_count L) 0) as [H0|H0]; [|done]. unfold sbind, slift. by rewrite check_seen_bits by done.
Qed.

Lemma noinit_message m s : writable inp dest n m -> fresh (S d) m fields dest -> content inp s w ->
  exists m', pb_decode_noinit buffer_at callback_fuel (S d) s fields dest m = Some ((true, skip s (zlen w)), m') /\
    upd (within dest n) m m' /\ message m' (S d) fields dest = emit w.
Proof.
  intros Hw Hf Hc. destruct source_fields as (ws & Ew & Hlws & Hws). pose proof message_terminated as Ht.
  cbn [pb_decode_noinit]. unfold decode_noinit_body. cbn [message]. rewrite Ht.
  destruct L as [|t0 L'] eqn:EL.
  - destruct ws as [|]; [|done]. destruct (pb_field_iter_begin_empty fields dest Ht EL) as (it & Eb & Hit).
    exists m. unfold sbind at 1, slift at 1. rewrite Eb. pose proof Hc as (_ & Hb & _). rewrite Ew in *. cbn [concat length] in *.
    unfold sbind at 1. cbn [decode_loop ds_stream]. rewrite Hb. change (Z.of_nat 0 =? 0) with true. unfold sret. cbn [negb].
    rewrite check_required_ok; [cbn [ds_stream]|by right|by rewrite EL].
    split; [by rewrite <- (skip_0 s) at 1|]. split; [apply upd_refl|done].
  - assert (H0 : L !! 0%nat = Some t0) by by rewrite EL. rewrite <- EL in Hlws, Hws |- *.
    unfold sbind at 1, slift at 1. rewrite (pb_field_iter_begin_spec _ _ _ H0). unfold sbind at 1.
    set (x0 := mk_decode_state s (it_at fields dest 0 t0) [0; 0] 0). pose proof Hc as Hc0. rewrite Ew in Hc0.
    destruct (slots_loop ws Hws Hlws ws 0 x0 m (drop_0 ws)) as (y & m' & Hadv & (Hon & Hseen & Hend) & Ey & Hu & Hall);
      [lia|done|by split; [exists 0%nat, t0|]|lia|intros k t _; apply Hf|].
    destruct (Hadv (S (Z.to_nat (bytes_left s)))) as (fuel & Hfuel & Eloop).
    { cbn. destruct Hc as (_ & Hb & _). lia. }
    exists m'. rewrite Eloop. destruct Hend as (_ & Hb0 & _). cbn in Hb0. destruct fuel as [|fuel]; [lia|].
    cbn [decode_loop]. rewrite Hb0. change (Z.of_nat 0 =? 0) with true. unfold sret at 1. cbn [negb].
    rewrite (check_required_ok y m'); [|by left|by rewrite Hseen, take_ge by done]. rewrite Ey, <- Ew. cbn [ds_stream x0].
    split; [done|]. split; [done|]. rewrite Ew. apply rconcat_emit. apply Forall2_same_length_lookup_2; [done|].
    intros k t wk Hk Ek. by apply (Hall k).
Qed.

End Message.

End Depth.
End Decoders.

(** * Encoding, then decoding *)

Section Roundtrip.
Context `{PbUser}.

(** Decoding the bytes of a message into a structure whose fields are absent. *)
Lemma noinit_roundtrip inp ms buffer_at callback_fuel depth : mem_bytes ms -> forall fields p dest n w m s,
  round_ok depth fields p n = true -> round_ok depth fields dest n = true -> message ms depth fields p = emit w ->
  strings_end ms depth fields p = true -> zlen w < 2 ^ 32 -> writable inp dest n m -> fresh depth m fields dest ->
  content inp s w ->
  exists m', pb_decode_noinit buffer_at callback_fuel depth s fields dest m = Some ((true, skip s (zlen w)), m') /\
    upd (within dest n) m m' /\ message m' depth fields dest = emit w.
Proof.
  intros Hms. induction depth as [|d IH]; intros fields p dest n w m s H1 H2 H3 H4 H5 H6 H7 H8; [done|].
  by apply (noinit_message inp ms buffer_at callback_fuel Hms d IH fields p dest n w).
Qed.

(** The same with the defaults. *)
Lemma decode_roundtrip inp ms buffer_at callback_fuel depth fields p dest n w m s : mem_bytes ms ->
  round_ok depth fields p n = true -> round_ok depth fields dest n = true -> message ms depth fields p = emit w ->
  strings_end ms depth fields p = true -> zlen w < 2 ^ 32 -> writable inp dest n m -> content inp s w ->
  exists m', pb_decode buffer_at callback_fuel depth s fields dest m = Some ((true, skip s (zlen w)), m') /\
    upd (within dest n) m m' /\ message m' depth fields dest = emit w.
Proof.
  intros Hms H1 H2 H3 H4 H5 Hw Hc. unfold pb_decode, sbind, pb_message_set_to_defaults.
  destruct (set_defaults_fresh depth depth fields dest n m (le_n _) H2 (proj1 (proj2 Hw))) as (m1 & E1 & Hu1 & Hf).
  destruct (noinit_roundtrip inp ms buffer_at callback_fuel depth Hms fields p dest n w m1 s) as (m2 & E2 & Hu2 & Hm2); try done;
    [by eapply writable_upd|]. exists m2. rewrite E1, E2. split; [done|]. split; [by eapply upd_trans|done].
Qed.

Lemma region_load l a : load_bytes (length l) (region a l) a = Some l.
Proof.
  apply load_bytes_lookup. split; [done|]. intros i Hi. rewrite region_lookup by lia. by rewrite Nat2Z.id.
Qed.

Lemma region_sub l a m : load_bytes (length l) m a = Some l -> region a l ⊆ m.
Proof.
  intros [_ Hm]%load_bytes_lookup. apply map_subseteq_spec. intros b x Hb.
  destruct (decide (a <= b < a + zlen l)) as [Hin|Hn]; [|rewrite region_outside in Hb; [done|lia]].
  replace b with (a + Z.of_nat (Z.to_nat (b - a))) in Hb |- * by lia. rewrite Hm by lia.
  rewrite region_lookup in Hb by lia. by rewrite Nat2Z.id in Hb.
Qed.

(** C2. A structure that is encoded into a buffer with room for it, and decoded from there
    into another structure of its type, gives a structure that stands for the same
    message: pb_encode and pb_decode succeed, all the input is consumed, and nothing is
    written outside the two. *)
Theorem pb_roundtrip buffer_at callback_fuel ms depth fields p dest n w buf size m :
  mem_bytes ms -> Forall (fun f => field_ok f = true) fields -> round_ok depth fields p n = true ->
  message ms depth fields p = emit w -> strings_end ms depth fields p = true -> zlen w < 2 ^ 32 ->
  ms ⊆ m -> zlen w <= size < 2 ^ 63 -> mapped m buf size -> (forall i, 0 <= i < size -> ms !! (buf + i) = None) ->
  round_ok depth fields dest n = true -> mapped m dest n -> dest + n <= buf \/ buf + size <= dest ->
  exists os m1 st m2, pb_encode depth (pb_ostream_from_buffer buf size) fields p m = Some ((true, os), m1) /\
    bytes_written os = zlen w /\
    pb_decode buffer_at callback_fuel depth (pb_istream_from_buffer buf (bytes_written os)) fields dest m1 =
      Some ((true, st), m2) /\
    bytes_left st = 0 /\ message m2 depth fields dest = message ms depth fields p /\
    (forall x, ~ (dest <= x < dest + n) -> ~ (buf <= x < buf + size) -> m2 !! x = m !! x).
Proof.
  intros Hms Hf H1 H2 H3 H4 Hsub Hsz Hmap Hd H5 Hmd Hap.
  pose proof (pb_encode_encodes ms depth fields p Hms Hf (round_ok_implicit _ _ _ _ H1)) as He. rewrite H2 in He. destruct He as [_ Hw].
  destruct (Hw (pb_ostream_from_buffer buf size) m) as (ok & out & m1 & e & E & Est & Hl & Hok & Hfit).
  { unfold ready. cbn. rewrite Z.sub_0_r. split; [done|]. split; [done|]. split; [lia|]. split; [lia|]. split; done. }
  assert (ok = true) as -> by (rewrite (Hfit w eq_refl); apply Z.leb_le; cbn; lia). specialize (Hok eq_refl). injection Hok as <-.
  destruct (store_bytes_inv _ _ _ _ Est) as (Hload & Hout & Hdom). cbn [ostate pb_ostream_from_buffer] in Hload, Hout.
  assert (Hc : content (region buf w) (pb_istream_from_buffer buf (zlen w)) w).
  { split; [done|]. split; [done|]. split; [lia|]. split; [apply region_load|by apply (message_bytes ms depth fields p n w)]. }
  assert (Hwr : writable (region buf w) dest n m1).
  { split; [by apply region_sub|]. split; [intros i Hi; by apply Hdom, Hmd|]. intros x Hx. apply region_outside.
    unfold within in Hx. lia. }
  destruct (decode_roundtrip (region buf w) ms buffer_at callback_fuel depth fields p dest n w m1 _ Hms H1 H5 H2 H3 H4 Hwr Hc)
    as (m2 & E2 & Hu & Hm2).
  eexists _, m1, _, m2. split; [exact E|]. split; [done|]. split; [exact E2|]. split; [cbn; lia|]. rewrite H2. split; [done|].
  intros x Hx1 Hx2. rewrite (proj1 Hu x Hx1). apply Hout. lia.
Qed.
End Roundtrip.

#[local] Existing Instance no_user.

Definition sample_round : mem := region 1000 sample_struct ∪ (region 2000 (zrepeat 24 0xFF) ∪ region 3000 (zrepeat 20 0)).

Lemma pb_roundtrip_witness : exists os m1 st m2,
  pb_encode 2 (pb_ostream_from_buffer 3000 20) sample_fields 1000 sample_round = Some ((true, os), m1) /\
  bytes_written os = zlen sample_wire /\
  pb_decode 0 1 2 (pb_istream_from_buffer 3000 (bytes_written os)) sample_fields 2000 m1 = Some ((true, st), m2) /\
  bytes_left st = 0 /\ message m2 2 sample_fields 2000 = message (region 1000 sample_struct) 2 sample_fields 1000 /\
  (forall x, ~ (2000 <= x < 2000 + 24) -> ~ (3000 <= x < 3000 + 20) -> m2 !! x = sample_round !! x).
Proof.
  apply (pb_roundtrip 0 1 (region 1000 sample_struct) 2 sample_fields 1000 2000 24 sample_wire 3000 20 sample_round).
  - apply region_bytes, sample_bytes_ok.
  - apply sample_fields_ok.
  - vm_compute. reflexivity.
  - apply sample_message.
  - vm_compute. reflexivity.
  - vm_compute. reflexivity.
  - apply map_union_subseteq_l.
  - vm_compute. split; [discriminate|reflexivity].
  - apply mapped_union_r, mapped_union_r. apply (region_mapped 3000 (zrepeat 20 0)). by vm_compute.
  - intros i Hi. apply region_outside. change (zlen sample_struct) with 24. lia.
  - vm_compute. reflexivity.
  - apply mapped_union_r, mapped_union_l. apply (region_mapped 2000 (zrepeat 24 0xFF)). by vm_compute.
  - left. lia.
Defined.
