(* ===== verification/PbEdges.v ===== *)
(** * nanopb: messages that the code does not handle as it says

    Four behaviours of src/bubble/Pods/nanopb/ that its comments or the wire format
    exclude: a message with 32 required fields, an int32 that is negative, a message
    that ends within a key, and a submessage of proto3 that holds an array. *)

From Stdlib Require Import ZArith Lia String.
From stdpp Require Import base list option gmap.
From S2P Require Import Prelude ByteMem Pb PbWire PbEncode PbDecode PbSafe PbValue.

#[local] Existing Instance no_user.
#[local] Open Scope Z_scope.

(** * Definitions *)

(** [n] required fields of type uint8_t, with the tags from 1, and a message that has
    all of them. *)
Definition required_fields (n : nat) : list pb_field_t :=
  map (fun i => mk_field (Z.of_nat i) 0x01 0 0 1 0 PTR_NULL) (seq 1 n) ++ [PB_LAST_FIELD].

Definition required_wire (n : nat) : bytes := concat (map (fun i => wire_key (Z.of_nat i) 0 ++ [7]) (seq 1 n)).

(** Decodes [w] at 1000 into a structure of [size] bytes at 3000; the result is the
    status, where there is one. *)
Definition decode_status (fields : list pb_field_t) (size : Z) (w : bytes) : option bool :=
  (fun r => r.1.1) <$> pb_decode 0 1 2 (pb_istream_from_buffer 1000 (zlen w)) fields 3000
    (region 1000 w ∪ region 3000 (zrepeat size 0)).

(** A message with one optional field. *)
Definition optional_field : list pb_field_t := [mk_field 1 0x11 0 0 1 0 PTR_NULL; PB_LAST_FIELD].

(** [struct Nums { pb_size_t vals_count; uint32_t vals[2]; }], and a structure of
    proto3 that holds one. *)
Definition nums_fields : list pb_field_t := [mk_field 1 0x21 4 (-4) 4 2 PTR_NULL; PB_LAST_FIELD].
Definition holder_fields : list pb_field_t := [mk_field 1 0x17 0 0 12 0 (PTR_SUBMSG nums_fields); PB_LAST_FIELD].
Definition nums_struct : bytes := [2; 0; 0; 0; 0; 0; 0; 0; 5; 0; 0; 0].

(** What pb_encode writes of the structure at 1000. *)
Definition encoded (fields : list pb_field_t) : option (bool * option bytes) :=
  (fun '(ok, s, m) => (ok, load_bytes (Z.to_nat (bytes_written s)) m 2000)) <$>
  pb_encode 2 (pb_ostream_from_buffer 2000 20) fields 1000 (region 1000 nums_struct ∪ region 2000 (zrepeat 20 0)).

(** * Theorems *)

(** The check of 32 required fields shifts a word by its width when the first word of
    [fields_seen] is full, as it is when all the fields are there: pb_decode of the
    complete message is undefined, while it accepts 31 or 33 fields and rejects a
    message that lacks one. *)
Theorem pb_decode_32_required :
  (forall w1 w2, check_seen 32 [w1; w2] = if w1 =? 0xffffffff then None else Some false) /\
  decode_status (required_fields 32) 32 (required_wire 32) = None /\
  decode_status (required_fields 32) 32 (required_wire 31) = Some false /\
  decode_status (required_fields 31) 31 (required_wire 31) = Some true /\
  decode_status (required_fields 33) 33 (required_wire 33) = Some true.
Proof.
  split; [|split; [|split; [|split]]]; [|vm_compute; reflexivity..].
  intros w1 w2. unfold check_seen. rewrite (Z.eqb_sym w1).
  change (forallb _ (take _ [w1; w2])) with ((0xffffffff =? w1) && true). rewrite andb_true_r. by destruct (_ =? w1).
Qed.

Lemma parse_long n k v rest : 128 ^ Z.of_nat n <= v -> (n < k)%nat -> parse_varint n (base128 k v ++ rest) = None.
Proof.
  revert k v. induction n as [|n IH]; intros k v Hv Hk; [by destruct (base128 k v ++ rest)|].
  destruct k as [|k]; [lia|]. rewrite Nat2Z.inj_succ, Z.pow_succ_r in Hv by lia. cbn [base128].
  assert (Hp : 0 < 128 ^ Z.of_nat n) by (apply Z.pow_pos_nonneg; lia).
  rewrite (proj2 (Z.ltb_ge v 128)) by lia. cbn [app parse_varint]. pose proof (Z.mod_pos_bound v 128 ltac:(lia)).
  rewrite (proj2 (Z.ltb_ge _ 128)) by lia. rewrite IH; [done| |lia]. apply Z.div_le_lower_bound; lia.
Qed.

(** A negative int32 is encoded as a varint of ten bytes, sign extended to 64 bits.
    pb_decode_varint32, documented to read int32 fields, fails on it; pb_decode_varint
    reads it. *)
Theorem pb_decode_varint32_negative inp s rest m v : - 2 ^ 31 <= v < 0 ->
  content inp s (varint (v mod 2 ^ 64) ++ rest) -> inp ⊆ m ->
  (exists s', pb_decode_varint32 s m = Some ((None, s'), m)) /\
  (exists s', pb_decode_varint s m = Some ((Some (v mod 2 ^ 64), s'), m)).
Proof.
  intros Hv Hc Hm. assert (Ev : v mod 2 ^ 64 = v + 2 ^ 64) by (symmetry; apply (Z.mod_unique _ _ (-1)); lia). split.
  - pose proof (pb_decode_varint32_spec _ _ _ _ Hc Hm) as H. unfold decodes_varint, varint in H.
    rewrite parse_long in H by lia. destruct H as (pre & r & e & -> & _). by eexists.
  - rewrite (dec_varint _ _ _ _ _ Hc Hm) by (unfold is_u; lia). by eexists.
Qed.

Lemma pb_decode_varint32_negative_witness :
  (exists s', pb_decode_varint32 (pb_istream_from_buffer 1000 10) (region 1000 (varint ((-1) mod 2 ^ 64))) =
     Some ((None, s'), region 1000 (varint ((-1) mod 2 ^ 64)))) /\
  (exists s', pb_decode_varint (pb_istream_from_buffer 1000 10) (region 1000 (varint ((-1) mod 2 ^ 64))) =
     Some ((Some ((-1) mod 2 ^ 64), s'), region 1000 (varint ((-1) mod 2 ^ 64)))).
Proof.
  apply (pb_decode_varint32_negative (region 1000 (varint ((-1) mod 2 ^ 64))) (pb_istream_from_buffer 1000 10) []); [lia| |done].
  split; [done|]. split; [by vm_compute|]. split; [by vm_compute|]. split; [by vm_compute|].
  vm_compute. repeat constructor; unfold is_u; discriminate.
Defined.

(** C40. At the end of a message pb_decode_tag returns false and sets eof; it does the same
    where the stream ends within a key, so that pb_decode accepts a message that has
    been cut there, though it rejects one cut elsewhere. *)
Theorem pb_decode_tag_truncated :
  (forall inp s b m, content inp s [b] -> inp ⊆ m -> 128 <= b ->
     exists s', pb_decode_tag s m = Some ((false, 0, 0, true, s'), m)) /\
  (forall inp s m, content inp s [] -> inp ⊆ m -> exists s', pb_decode_tag s m = Some ((false, 0, 0, true, s'), m)) /\
  decode_status optional_field 1 [8; 7; 0x80] = Some true /\ decode_status optional_field 1 [8; 7; 8] = Some false.
Proof.
  split; [|split; [|split; vm_compute; reflexivity]].
  - intros inp s b m Hc Hm Hb. pose proof Hc as (_ & _ & _ & _ & Hok). apply Forall_cons in Hok as [Hbyte _].
    pose proof (content_skip inp s [b] [] Hc) as Hc1. change (zlen [b]) with 1 in Hc1.
    unfold pb_decode_tag, pb_decode_varint32. unfold sbind at 1 2. rewrite (pb_readbyte_spec _ _ _ _ Hc Hm).
    pose proof (land_80 b Hbyte) as H80. rewrite (proj2 (Z.ltb_ge b 128)) in H80 by lia. cbn [negb] in H80. bool_simpl.
    rewrite (proj2 (Z.eqb_neq _ _) H80). cbn [varint_groups]. change (7 >=? 32) with false. cbv iota. unfold sbind.
    rewrite (pb_readbyte_spec _ _ _ _ Hc1 Hm). destruct Hc1 as (_ & Hb1 & _). unfold sret. cbn [bytes_left PB_SET_IERROR].
    destruct (ierrmsg (skip s 1)); cbn [bytes_left] in Hb1 |- *; rewrite Hb1; by eexists.
  - intros inp s m Hc Hm. unfold pb_decode_tag, pb_decode_varint32, sbind. rewrite (pb_readbyte_spec _ _ _ _ Hc Hm).
    destruct Hc as (_ & Hb & _). unfold sret. cbn [bytes_left PB_SET_IERROR].
    destruct (ierrmsg s); cbn [bytes_left]; rewrite Hb; by eexists.
Qed.

(** A singular submessage of proto3 is written unless all its fields have their default
    values. pb_check_proto3_default_value looks at the first element of an array and
    not at its count: a submessage whose array holds 0 and 5 has four bytes on the wire
    by itself, and none within a message, which the wire format gives six bytes. The
    table is one that the encoder's theorem leaves out. *)
Theorem pb_encode_drops_array :
  encoded nums_fields = Some (true, Some [10; 2; 0; 5]) /\ encoded holder_fields = Some (true, Some []) /\
  message (region 1000 nums_struct) 2 holder_fields 1000 = emit [10; 4; 10; 2; 0; 5] /\
  all_fields implicit_ok holder_fields = false.
Proof. vm_compute. by split_and!. Qed.
